(* ===== verification/_CoqProject ===== *)
-Q . S2P
Prelude.v
Collections.v
Libraries.v
ConcreteCodecs.v
Domain.v
Authz.v
ShareGraph.v
SnapshotPolicy.v
RepositoryRules.v
Keyset.v
Capability.v
Envelope.v
McpPolicy.v
Frames.v
Net.v
Web.v
CollaborationProtocol.v
McpProtocol.v
ConfigTypes.v
Config.v
RateLimit.v
Markdown.v
Room.v
CollaborationStore.v
CollaborationLog.v
CollaborationQuota.v
RoomServer.v
RoomReplica.v
RoomDemo.v
RevisionProtocol.v
DirectoryProtocol.v
PosixFs.v
StorageLayout.v
StorageFacts.v
StorageProofs.v
StorageReads.v
StorageCleanup.v
StorageEngine.v
Cow.v
CowBytes.v
CowFacts.v
CowSessions.v
CowFlat.v
CowEngine.v
CowPublish.v
CowRoundtrip.v
CowLock.v
EnvelopeProofs.v
VfsMessages.v
VfsProtocol.v
VfsProofs.v
NfsHandles.v
MtlsPolicy.v
ConfigProofs.v
ConfigLimits.v
ConfigTransport.v
ConfigDemo.v
EgressGateway.v
EgressProofs.v
TunnelRelay.v
DriveStore.v
DriveFacts.v
DriveTree.v
DriveUploads.v
DriveHistory.v
DriveDemo.v
WorkerIo.v
WorkerProofs.v
WorkerDemo.v
ApiTime.v
ApiUploads.v
ApiPages.v
ApiDemo.v
MountExtents.v
MountStore.v
MountFacts.v
MountDemo.v
SecretVault.v
JobStore.v
