(* ===== verification/Prelude.v ===== *)
(** * FileBelt: a verification of its policy, protocol, storage and database core

    FileBelt is a multi-tenant file service. Three kinds of program touch a file:
    front ends ([apps/filebelt-api] over HTTP, [apps/filebelt-vfs] for mounted
    drives, [apps/filebelt-collaboration] for shared editing), which decide
    whether a principal may act; isolated adapters and workers
    ([apps/filebelt-worker-io], [apps/filebelt-worker-maintenance] and others), which
    receive framed and validated messages or signed capabilities and do not decide
    anything themselves; and the storage engine, which keeps payload bytes on a
    POSIX file system. Decisions and metadata come from PostgreSQL, bytes never
    do. The development follows this path: from identifiers and names, through
    the authorization decision, to the capability that carries the decision, the
    messages of the adapters, the engine that finally reads and writes bytes, and
    the transactions that record what the bytes mean.
    All paths below are relative to [source/] of the repository.

    ** Files and what they model

    Shared vocabulary
    - [Prelude], [Collections]: the Rust vocabulary of all components: [result]
      with its [?] notation, fixed-width integers with checked, saturating and
      wrapping arithmetic, strings, decimal printing, and the standard
      collections ([BTreeMap] and [BTreeSet] as strictly sorted lists,
      [sort_unstable] and [dedup]).
    - [Libraries]: one class per third-party crate (UUID, Unicode normalization
      and case folding, BLAKE3, Ed25519, Base64, the prost codec), its documented
      behaviour in a separate class of laws; [ConcreteCodecs] has instances of
      them, which show that the laws can hold and are used by witnesses only.
      [Web] has URLs, classes of addresses and paths, [Net] the parser of [std::net].

    Policy and capabilities
    - [Domain]: [crates/filebelt-domain/src/lib.rs]. Typed identifiers, the action
      vocabulary, normalized names, logical paths, five life-cycle machines.
    - [Authz], [ShareGraph], [RepositoryRules]: [crates/filebelt-authz]. The plain
      evaluator [evaluate], the recursive direct-share evaluator, and the
      protection rules of repository refs ([repository.rs]).
    - [SnapshotPolicy]: [policy.rs] of [apps/filebelt-vfs] and [apps/filebelt-api].
      The two adapters that turn database rows into requests of the evaluator and
      its decision into a grant ([evaluate_snapshot]).
    - [Keyset], [Capability]: [crates/filebelt-capability-keyset] and
      [crates/filebelt-storage-protocol]. Text keysets, the signed envelopes
      [fbcap1] and [fbcap2], and all claim checks.
    - [Envelope], [EnvelopeProofs]: the signed text envelope that join grants and MCP
      delegations share, and the separation of the two families.
    - [McpPolicy], [McpProtocol]: [crates/filebelt-mcp-policy] and
      [crates/filebelt-mcp-protocol]. Registration state machine, exact approval
      bindings, limits, canonical JSON; delegations and invocation frames.
    - [SecretVault]: [crates/filebelt-secret-vault] and [crates/filebelt-mcp-vault].
      Keyrings and envelope encryption of stored secrets.
    - [RateLimit]: [apps/filebelt-collaboration/src/rate_limit.rs]. Client and room
      windows with the wrap-around of the counters.

    Configuration and the network edge
    - [ConfigTypes], [Config], [ConfigProofs], [ConfigLimits], [ConfigTransport],
      [ConfigDemo]: [crates/filebelt-control-protocol/src/lib.rs]. All sections with
      their defaults, the environment overrides and the validation.
    - [MtlsPolicy]: the client certificate policy of [crates/filebelt-runtime] and the
      gateway identities of [apps/filebelt-vfs].
    - [EgressGateway], [EgressProofs]: [apps/filebelt-private-egress-gateway].
    - [TunnelRelay]: [apps/filebelt-tunnel-relay]. SOCKS handshake and copy loop.
    - [Frames], [RevisionProtocol], [DirectoryProtocol]:
      [crates/filebelt-revision-protocol] and
      [crates/filebelt-directory-repository-protocol]. Length-delimited frames
      over byte streams, request, response, diff and canonical-tree validation.
    - [VfsMessages], [VfsProtocol], [VfsProofs]: [crates/filebelt-vfs-protocol] with
      the messages of [protocol/generated/rust/filebelt/vfs/v1].
    - [NfsHandles]: [apps/filebelt-vfs/src/nfs.rs]. Opaque NFS file handles.

    Storage
    - [PosixFs]: the file system under the storage engine: directory entries,
      inodes shared by hard links, symbolic links, owners, modes, and a monad of
      system calls with a weakest-precondition calculus.
    - [StorageLayout]: all of [crates/filebelt-storage/src/lib.rs]. Its theory is
      in [StorageFacts], [StorageProofs], [StorageReads], [StorageCleanup], and
      the guarantees its callers rely on in [StorageEngine].
    - [Cow]: [crates/filebelt-storage/src/cow.rs] except its lock files. [CowBytes],
      [CowFacts], [CowSessions] and [CowFlat] relate a session of chunk files to a
      flat byte string; [CowEngine], [CowPublish] and [CowRoundtrip] state the
      guarantees; [CowLock] models the lock files of the same source as
      interleaved system calls of any number of processes.
    - [WorkerIo], [WorkerProofs], [WorkerDemo]: [apps/filebelt-worker-io/src/main.rs].
      Admission of signed requests, the single-use nonces, the handlers over the
      storage engine, and the router.

    Collaboration
    - [CollaborationProtocol]: [crates/filebelt-collaboration-protocol] and the wire
      format of [apps/filebelt-collaboration]. [Markdown]: [source.rs], the text of a
      file in the editor. [Room]: the room document and the bounded update decoder.
    - [CollaborationStore], [CollaborationLog], [CollaborationQuota]:
      [crates/filebelt-database/src/collaboration.rs]. Rooms, epochs, update groups,
      snapshots and quota.
    - [RoomServer], [RoomReplica], [RoomDemo]: [server.rs] and [io_client.rs] of
      [apps/filebelt-collaboration]. Applying, persisting and replaying updates.

    Database and its clients
    - [DriveStore], [DriveFacts], [DriveTree], [DriveUploads], [DriveHistory],
      [DriveDemo]: the transactions of [crates/filebelt-database/src/lib.rs] on
      nodes, versions, uploads and payloads.
    - [JobStore]: the job queue of the same source with the job loop of
      [apps/filebelt-worker-maintenance/src/lib.rs].
    - [MountExtents], [MountStore], [MountFacts], [MountDemo]:
      [crates/filebelt-database/src/mount.rs]. The sparse map of a write session;
      gateway epochs, sessions, handles and byte-range locks.
    - [ApiTime], [ApiUploads], [ApiPages], [ApiDemo]: [apps/filebelt-api].
      Timestamps, upload plans with the capabilities of their parts, paged listings.

    A source function keeps its name; where one name is used by several crates the
    file name disambiguates. A method [T::m] is written [T_m]. A match arm or
    closure that is long enough to have a specification of its own is a definition
    next to its function. A file [...Demo], or a module [Demo] at the end of a file,
    evaluates the definitions on concrete inputs.

    ** Correspondence of state and effects

    Pure Rust functions are functions, [Result] is [result] with the error
    enumeration of the source, and a [?] is the bind [let?]. A function that can
    panic or that is defined by fuel returns [outcome] ([Done], [Panic],
    [OutOfFuel]). Integers are [Z] or [N] with the range check, the saturation or
    the wrap-around of the source written out. Messages are records with one
    field per protobuf field; an enumeration field is its wire number.

    The storage engine runs in the monad [St] of [PosixFs]: a world of names and
    inodes, a clock, and a schedule that decides which system calls fail. A system
    call that fails has no effect, a crash between two calls is a schedule in which
    every later call fails. Theorems stated for every schedule therefore cover
    failures and crashes at every point; theorems that promise success assume the
    empty schedule. The lock protocol is a step relation: each step is one system
    call of one process, interleavings are arbitrary, a process may crash at any
    point (which closes its descriptors), and an inode number is reused only when
    no name and no descriptor refers to it.

    The database is the rows of one tenant, a finite map per table with the columns
    that the modelled statements read or write. A transaction is a function of the
    tables; an error leaves them as they were, as the rollback does. Check
    constraints, unique indexes and foreign keys that the statements can violate are
    errors of the model. An operation reads the clock once, and times are
    microseconds. Transactions whose statements can interleave with those of others
    are split where this matters: the check and the insertion of an open of a
    mounted file, the first statement of a claim of a job and the rest of it, each
    with a clock reading of its own. Row locks appear where a statement skips
    locked rows or waits for them. The other transactions are
    atomic steps. Services
    are step relations over the tables: requests of any number of clients or
    workers in any order, with crashes, lost replies and expired leases.
    Decisions of another component ([authorize] for the I/O worker, the clauses on
    NFS exports for mounts, the work of a maintenance job) are arguments.

    ** What the theorems show

    - Authorization ([Authz], [ShareGraph], [SnapshotPolicy]): the decision is the
      stated policy (owner right or an applicable allow, and no applicable deny),
      does not depend on the order of entries, and a delegated preset never
      exceeds the delegator. The recursive evaluator always terminates within its
      bounds, computes the least fixed point of the backing relation, grants
      nothing to a chain without an independent root, and agrees with [evaluate]
      when no recursive shares exist. Both front ends take the same decision on
      the same snapshot, and a deny row read from the database is final.
    - Capabilities ([Keyset], [Capability], [EnvelopeProofs], [WorkerProofs]): what is
      accepted is exactly described; signing and verifying round-trip; a grant of
      one operation or service cannot be used as another; the worker mutates
      nothing without a matching capability, and a capability works once. The last
      two are about the payload, upload and collaboration routes of the worker;
      the routes of mounted drives have capabilities and receipts of their own and
      are not modelled.
    - Secrets ([SecretVault]): stored secrets decrypt to what was encrypted, under
      rotated keyrings too, and only for their own context and profile, unless
      the authenticated encryption itself is forged.
    - State machines and limits ([Domain], [McpPolicy], [RateLimit]): histories of
      the life-cycle machines, the registration invariant, the number of admitted
      events of a document per live room and second, paths as an invariant and a round trip.
    - Configuration and edge ([ConfigProofs], [ConfigLimits], [ConfigTransport],
      [MtlsPolicy], [EgressProofs], [TunnelRelay]): an accepted configuration gives
      each role only its own secrets and consistent limits, gateways are bound to
      their protocols, requests of the office server never leave their origin,
      and the relay copies both directions completely and ends.
    - Protocols ([RevisionProtocol], [DirectoryProtocol], [VfsProofs], [NfsHandles]):
      frames round-trip, a response is accepted only if it answers its request, a
      tree is accepted exactly if it is canonical, a validated gateway request
      carries a well-typed fence and only bounded ranges, replay digests identify
      requests, the failure response of a validated request is always accepted,
      and file handles are accepted exactly if they were issued.
    - Storage ([StorageEngine], [CowEngine], [CowRoundtrip], [CowLock]): publication
      is all or nothing and never replaces other bytes, deletion can be resumed
      after any failure, verified reads return exactly the requested range,
      clean-up removes nothing but old temporaries, a copy-on-write session
      refines a flat file under every sequence of operations, mutations never
      touch published payloads, a published session reads back as the bytes it
      held, and the session lock excludes concurrent holders and never deadlocks.
    - Collaboration ([CollaborationLog], [CollaborationQuota], [RoomReplica],
      [Markdown]): the log of an epoch has no gaps, the accounting of bytes is
      exact, an acknowledged update stays in the log through every later crash, replicas
      that replay the log converge,
      and a file whose text is not edited is saved unchanged.
    - Drives ([DriveTree], [DriveUploads], [DriveHistory]): the namespace stays a tree,
      trash and restore are inverse, uploads account for exactly what they reserve,
      a payload that a version refers to is never deleted, a commit never
      overwrites a version its author has not seen, and versions form a line.
    - Jobs ([JobStore]): one worker at a time holds a job, a lost lease stays
      lost, an attempt that has an outcome keeps it unless it is the last one of a
      job still running, and the earliest due job is served.
    - Mounts ([MountExtents], [MountFacts]): the extent map of a write session refines
      the sparse file it describes and is refused only for its size, conflicting
      locks exclude each other, handles conflict only if their opens overlapped, a
      handle that is closed, or whose session, credential or rights end, never
      works again, and one whose gateway lost its epoch does not work until the
      gateway is given that number again.
    - HTTP interface ([ApiTime], [ApiUploads], [ApiPages]): timestamps are the
      proleptic Gregorian calendar, every part of a planned upload is admitted by
      the database and the worker, a listing shows only what the caller may see when
      the page is made, and following its cursors visits every row once if the
      database sorts names by their bytes.

    ** Fuel and bounds

    Recursion is structural where the source iterates over a collection. The
    other loops have an explicit bound, and the theorems show that it suffices:
    [COLLECT_FUEL] of the delegation graph is derived from the edge and depth limits
    of the source ([recursive_shares_terminate]); the closure of [ShareGraph] runs
    once more than there are nodes; path resolution follows at most 40 symbolic
    links, as Linux does; [copy_range] makes one call per 64 KiB and one more;
    [copy_extents] at most one step per byte and one more; a range read visits
    [length / chunk_size + 2] chunks; a write at most one chunk per byte; cutting a
    payload at most [size / chunk_size + 1] chunks; the walk over the pages of a
    listing takes more steps than there are rows. An extent map has at most
    1,048,576 extents; an operation that would make it longer is refused.

    ** Not modelled

    - The SQL statements on identities, access control lists, groups, MCP
      registrations, documents, Git revisions, NFS exports and NFS write sessions
      with their replay receipts. The statements of these parts are transactions
      over tables of their own; the modelled components take their answers as
      arguments.
    - Third-party code: cryptography, codecs, Unicode tables, the CRDT library,
      and the planner and the isolation levels of PostgreSQL beyond what is said
      above. They are parameters with named laws or fixed conventions.
    - The asynchronous shells of the services: listeners, sockets, timers, TLS
      handshakes, Kubernetes, external programs ([filebelt-controller],
      [filebelt-document], [filebelt-media-controller], [filebelt-mcp-broker],
      [filebelt-mcp-runner], [filebeltctl] and the like); the NFS dispatcher; audit
      rows, metrics and log lines of the modelled functions.
    - Durability of [fsync]: a completed system call is durable; the order of
      calls, which the source chooses for that purpose, is modelled.
    - The order of [readdir], file times, [SEEK_DATA] results, random numbers and
      the order of rows with equal sort keys are arguments: theorems hold for every
      choice that the respective interface allows.

    ** Extensions

    The parts that would come next, in the order of their weight: the idempotency
    receipts of [crates/filebelt-database/src/idempotency.rs] with the transactions
    that use them, the NFS write sessions and the dispatcher of
    [apps/filebelt-vfs/src/nfs_dispatch.rs], the document sessions of
    [document.rs], and the transactions on identities and access control lists. *)

(** Shared vocabulary of the development: results, integers, strings, lists. *)
From Stdlib Require Export ZArith Lia Ascii String.
From stdpp Require Export base tactics sets list option gmap strings numbers sorting.
From Stdlib Require Import DecimalString DecimalN DecimalPos DecimalFacts.

#[global] Set Default Goal Selector "!".
Open Scope Z_scope.
Open Scope list_scope.
Open Scope bool_scope.
#[global] Arguments String.append !_ _ : simpl nomatch.

(** ** Rust [Result] *)

Inductive result (E A : Type) : Type :=
| Ok (a : A)
| Err (e : E).
Arguments Ok {E A} a.
Arguments Err {E A} e.

Declare Scope filebelt_scope.
Delimit Scope filebelt_scope with filebelt.
Open Scope filebelt_scope.

(** The [?] operator: bind the success value or return the error. *)
Notation "'let?' x ':=' e 'in' k" :=
  (match e with Ok x => k | Err err => Err err end)
  (at level 10, x name, e at level 100, k at level 200) : filebelt_scope.

Definition map_err {E F A} (f : E -> F) (r : result E A) : result F A :=
  match r with Ok a => Ok a | Err e => Err (f e) end.

Definition result_map {E A B} (f : A -> B) (r : result E A) : result E B :=
  match r with Ok a => Ok (f a) | Err e => Err e end.

Definition ok_or {E A} (e : E) (o : option A) : result E A :=
  match o with Some a => Ok a | None => Err e end.

Definition is_ok {E A} (r : result E A) : bool :=
  match r with Ok _ => true | Err _ => false end.

(** [iter().map(f).collect::<Result<Vec<_>, _>>()]: stops at the first error. *)
Fixpoint try_map {E A B} (f : A -> result E B) (l : list A) : result E (list B) :=
  match l with
  | [] => Ok []
  | x :: l' => let? y := f x in let? ys := try_map f l' in Ok (y :: ys)
  end.

(** [for x in l { f(x)?; }] *)
Fixpoint try_each {E A} (f : A -> result E unit) (l : list A) : result E unit :=
  match l with
  | [] => Ok tt
  | x :: l' => let? _ := f x in try_each f l'
  end.

(** ** Machine integers

    An integer of width [w] is a [Z]; the operations write out what Rust does
    at the end of the range. *)

Definition u16_max : Z := 65535.
Definition u32_max : Z := 4294967295.
Definition u64_max : Z := 18446744073709551615.
Definition usize_max : Z := u64_max.
Definition i64_max : Z := 9223372036854775807.
Definition i64_min : Z := -9223372036854775808.

Definition is_u32 (x : Z) : Prop := 0 <= x <= u32_max.
Definition is_u64 (x : Z) : Prop := 0 <= x <= u64_max.
Definition is_i64 (x : Z) : Prop := i64_min <= x <= i64_max.

Definition checked (lo hi x : Z) : option Z :=
  if (lo <=? x) && (x <=? hi) then Some x else None.
Definition checked_add_u64 (a b : Z) : option Z := checked 0 u64_max (a + b).
Definition checked_sub_u64 (a b : Z) : option Z := checked 0 u64_max (a - b).
Definition checked_mul_u64 (a b : Z) : option Z := checked 0 u64_max (a * b).
Definition checked_sub_i64 (a b : Z) : option Z := checked i64_min i64_max (a - b).
Definition checked_mul_i64 (a b : Z) : option Z := checked i64_min i64_max (a * b).
Definition saturating_add_u64 (a b : Z) : Z := Z.min u64_max (a + b).
Definition saturating_mul_u64 (a b : Z) : Z := Z.min u64_max (a * b).
(** [u64::is_power_of_two] *)
Definition is_power_of_two (x : Z) : bool := ((0 <? x) && (Z.land x (x - 1) =? 0))%bool.
Definition saturating_sub_u64 (a b : Z) : Z := Z.max 0 (a - b).
(** [i64] subtraction where overflow checks are compiled out: two's complement. *)
Definition wrapping_sub_i64 (a b : Z) : Z := (a - b - i64_min) mod (u64_max + 1) + i64_min.
(** [u64::try_from(x : i64)], [i64::try_from(x : u64)], [u32::try_from]. *)
Definition u64_try_from (x : Z) : option Z := checked 0 u64_max x.
Definition i64_try_from (x : Z) : option Z := checked i64_min i64_max x.
Definition u32_try_from (x : Z) : option Z := checked 0 u32_max x.
(** [u64::div_ceil]. *)
Definition div_ceil (a b : Z) : Z := (a + b - 1) / b.

Definition len {A} (l : list A) : Z := Z.of_nat (length l).
Definition str_len (s : string) : Z := Z.of_nat (String.length s).

(** ** Bytes and strings

    A [u8] is an [ascii], a byte buffer a list of them, and a Rust [str] the
    [string] of its UTF-8 bytes.  Every character pattern the source searches
    for is ASCII, so a search for the character is a search for its byte. *)

Abbreviation byte := ascii (only parsing).
Abbreviation bytes := (list ascii) (only parsing).

Definition byte_val (b : byte) : Z := Z.of_N (N_of_ascii b).
Definition byte_of_Z (z : Z) : byte := ascii_of_N (Z.to_N (z mod 256)).
Definition zero_byte : byte := ascii_of_N 0.

Definition as_bytes (s : string) : bytes := list_ascii_of_string s.
Definition str_of_bytes (b : bytes) : string := string_of_list_ascii b.

Definition is_ascii_byte (b : byte) : bool := byte_val b <? 128.
Definition is_ascii (s : string) : bool := forallb is_ascii_byte (as_bytes s).
Definition is_ascii_digit (b : byte) : bool := (48 <=? byte_val b) && (byte_val b <=? 57).
Definition is_ascii_uppercase (b : byte) : bool := (65 <=? byte_val b) && (byte_val b <=? 90).
Definition is_ascii_hexdigit (b : byte) : bool :=
  is_ascii_digit b || ((65 <=? byte_val b) && (byte_val b <=? 70))
  || ((97 <=? byte_val b) && (byte_val b <=? 102)).
Definition is_ascii_control (b : byte) : bool := (byte_val b <=? 31) || (byte_val b =? 127).
Definition to_ascii_uppercase (b : byte) : byte :=
  if (97 <=? byte_val b) && (byte_val b <=? 122) then byte_of_Z (byte_val b - 32) else b.

Definition eq_ignore_ascii_case (a b : bytes) : bool :=
  bool_decide (map to_ascii_uppercase a = map to_ascii_uppercase b).

(** [str::strip_prefix], [str::strip_suffix] with a string pattern. *)
Fixpoint strip_prefix (p s : string) : option string :=
  match p, s with
  | EmptyString, _ => Some s
  | String a p', String b s' => if Ascii.eqb a b then strip_prefix p' s' else None
  | String _ _, EmptyString => None
  end.

Definition strip_suffix (p s : string) : option string :=
  option_map (fun r => str_of_bytes (rev (as_bytes r)))
    (strip_prefix (str_of_bytes (rev (as_bytes p))) (str_of_bytes (rev (as_bytes s)))).

(** [str::split(c)] with a [char] pattern: never empty, keeps empty pieces. *)
Fixpoint split_char (c : ascii) (s : string) : list string :=
  match s with
  | EmptyString => [EmptyString]
  | String a s' =>
      if Ascii.eqb a c then EmptyString :: split_char c s'
      else match split_char c s' with
           | [] => [String a EmptyString]
           | p :: ps => String a p :: ps
           end
  end.

(** [str::split_once(c)] with a [char] pattern. *)
Fixpoint split_once_char (c : ascii) (s : string) : option (string * string) :=
  match s with
  | EmptyString => None
  | String a s' =>
      if Ascii.eqb a c then Some (EmptyString, s')
      else match split_once_char c s' with
           | Some (l, r) => Some (String a l, r)
           | None => None
           end
  end.

(** [str::split_once(p)] with a string pattern: at its first occurrence. *)
Fixpoint split_once_str (p s : string) : option (string * string) :=
  match strip_prefix p s with
  | Some r => Some (EmptyString, r)
  | None => match s with
            | EmptyString => None
            | String a s' => match split_once_str p s' with
                             | Some (l, r) => Some (String a l, r)
                             | None => None
                             end
            end
  end.

(** Decimal [to_string] and [parse] of an unsigned integer; [parse] accepts a
    leading [+] and leading zeros, as [u32::from_str] and [u64::from_str] do. *)
Definition dec_to_string (z : Z) : string := NilZero.string_of_uint (N.to_uint (Z.to_N z)).

Definition parse_digits (s : string) : option Z :=
  match s with
  | EmptyString => None
  | _ => option_map (fun d => Z.of_N (N.of_uint d)) (NilEmpty.uint_of_string s)
  end.

Definition parse_unsigned (hi : Z) (s : string) : option Z :=
  let digits := match s with
                | String "+"%char s' => s'
                | _ => s
                end in
  match parse_digits digits with
  | Some v => if v <=? hi then Some v else None
  | None => None
  end.

(** [format!("{n:0w$}")]: pad on the left with zeros up to a width. *)
Fixpoint zeros (n : nat) (s : string) : string :=
  match n with O => s | S n' => String "0"%char (zeros n' s) end.
Definition pad_zero (w : nat) (s : string) : string := zeros (w - String.length s) s.

(** ** Automation *)

Create HintDb filebelt discriminated.
Create Rewrite HintDb filebelt.

(** Turn boolean tests in the context and the goal into propositions. *)
Ltac breflect :=
  repeat match goal with
  | H : _ || _ = true |- _ => apply orb_true_iff in H
  | H : _ || _ = false |- _ => apply orb_false_iff in H as [? ?]
  | H : _ && _ = true |- _ => apply andb_true_iff in H as [? ?]
  | H : _ && _ = false |- _ => apply andb_false_iff in H
  | H : negb _ = true |- _ => apply negb_true_iff in H
  | H : negb _ = false |- _ => apply negb_false_iff in H
  | H : (_ <? _) = true |- _ => apply Z.ltb_lt in H
  | H : (_ <? _) = false |- _ => apply Z.ltb_ge in H
  | H : (_ <=? _) = true |- _ => apply Z.leb_le in H
  | H : (_ <=? _) = false |- _ => apply Z.leb_gt in H
  | H : (_ =? _) = true |- _ => apply Z.eqb_eq in H
  | H : (_ =? _) = false |- _ => apply Z.eqb_neq in H
  | H : bool_decide _ = true |- _ => apply bool_decide_eq_true in H
  | H : bool_decide _ = false |- _ => apply bool_decide_eq_false in H
  | H : Is_true _ |- _ => apply Is_true_true in H
  | |- _ || _ = false => apply orb_false_iff; split
  | |- _ && _ = true => apply andb_true_iff; split
  | |- negb _ = true => apply negb_true_iff
  | |- negb _ = false => apply negb_false_iff
  | |- (_ <? _) = true => apply Z.ltb_lt
  | |- (_ <? _) = false => apply Z.ltb_ge
  | |- (_ <=? _) = true => apply Z.leb_le
  | |- (_ <=? _) = false => apply Z.leb_gt
  | |- (_ =? _) = true => apply Z.eqb_eq
  | |- (_ =? _) = false => apply Z.eqb_neq
  | |- bool_decide _ = true => apply bool_decide_eq_true
  | |- bool_decide _ = false => apply bool_decide_eq_false
  end.

(** Follow every branch of a hypothesis about a computation. *)
Ltac run_in H :=
  repeat (case_match; simplify_eq/=; try discriminate H).

(** Split the conjunctions and disjunctions left by [breflect], then [lia]. *)
Ltac bsplit :=
  repeat match goal with
  | H : _ /\ _ |- _ => destruct H
  | H : _ \/ _ |- _ => destruct H
  end.
Ltac blia := breflect; bsplit; breflect; try lia.

(** Rewrite rules that turn boolean tests into propositions. *)
Create Rewrite HintDb bools.
#[export] Hint Rewrite orb_true_iff orb_false_iff andb_true_iff andb_false_iff negb_true_iff
  negb_false_iff Z.ltb_lt Z.ltb_ge Z.leb_le Z.leb_gt Z.eqb_eq Z.eqb_neq Nat.eqb_eq Nat.eqb_neq
  String.eqb_eq String.eqb_neq : bools.
#[export] Hint Rewrite @bool_decide_eq_true @bool_decide_eq_false : bools.

(** ** Generic lemmas *)

Section results.
Context {E : Type}.

Lemma try_map_Ok {A B} (f : A -> result E B) l l' :
  try_map f l = Ok l' <-> Forall2 (fun x y => f x = Ok y) l l'.
Proof.
  revert l'; induction l as [|x l IH]; intros l'; simpl; split; intros H.
  - simplify_eq. constructor.
  - by inversion H.
  - destruct (f x) eqn:Hx; [|done]. destruct (try_map f l) eqn:Hl; simplify_eq.
    constructor; [done|]. by apply IH.
  - inversion H as [|??? ys Hx Hl]; subst. apply IH in Hl. by rewrite Hx, Hl.
Qed.

Lemma try_each_Ok {A} (f : A -> result E unit) l :
  try_each f l = Ok tt <-> Forall (fun x => f x = Ok tt) l.
Proof.
  induction l as [|x l IH]; simpl; split; intros H; try done.
  - destruct (f x) as [[]|] eqn:Hx; [|done]. constructor; [done|]. by apply IH.
  - inversion H as [|?? Hx Hl]; subst. rewrite Hx. by apply IH.
Qed.

Lemma try_map_length {A B} (f : A -> result E B) l l' :
  try_map f l = Ok l' -> length l' = length l.
Proof. intros H%try_map_Ok. symmetry. by eapply Forall2_length. Qed.

(** A sequence of checks succeeds exactly when each of them does. *)
Lemma seq_Ok (e k : result E unit) :
  (let? _ := e in k) = Ok tt <-> e = Ok tt /\ k = Ok tt.
Proof. destruct e as [[]|]; naive_solver. Qed.

Lemma guard_Ok {A} (b : bool) (e : E) (k : result E A) x :
  (if b then Err e else k) = Ok x <-> b = false /\ k = Ok x.
Proof. destruct b; naive_solver. Qed.

Lemma guard_then_Ok {A} (b : bool) (e : E) (k : result E A) x :
  (if b then k else Err e) = Ok x <-> b = true /\ k = Ok x.
Proof. destruct b; naive_solver. Qed.

Lemma bind_Ok {A B} (e : result E A) (k : A -> result E B) y :
  (let? x := e in k x) = Ok y <-> exists x, e = Ok x /\ k x = Ok y.
Proof. destruct e; naive_solver. Qed.

Lemma Ok_tt_iff : @Ok E unit tt = Ok tt <-> True.
Proof. done. Qed.

Lemma ok_or_Ok {A} (e : E) (o : option A) a : ok_or e o = Ok a <-> o = Some a.
Proof. destruct o; simpl; naive_solver. Qed.
End results.

(** Turn [validator = Ok tt] into the conjunction of its checks. *)
Ltac checks_in_goal :=
  repeat (rewrite guard_Ok || rewrite seq_Ok || rewrite guard_then_Ok);
  rewrite ?Ok_tt_iff; autorewrite with bools.

Section integers.
Lemma checked_Some lo hi x y : checked lo hi x = Some y <-> x = y /\ lo <= x <= hi.
Proof. unfold checked. case_match eqn:Hc; blia; naive_solver lia. Qed.

Lemma checked_None lo hi x : checked lo hi x = None <-> x < lo \/ hi < x.
Proof. unfold checked. case_match eqn:Hc; blia; naive_solver lia. Qed.

Lemma div_ceil_spec a b : 0 <= a -> 0 < b ->
  b * (div_ceil a b - 1) < a + (if a =? 0 then 1 else 0) /\ a <= b * div_ceil a b.
Proof.
  intros Ha Hb. unfold div_ceil.
  pose proof (Z.div_mod (a + b - 1) b ltac:(lia)).
  pose proof (Z.mod_pos_bound (a + b - 1) b ltac:(lia)).
  case_match; blia; nia.
Qed.

Lemma byte_val_bound b : 0 <= byte_val b < 256.
Proof.
  unfold byte_val. pose proof (N_ascii_bounded b). lia.
Qed.

Lemma byte_val_of_Z z : byte_val (byte_of_Z z) = z mod 256.
Proof.
  unfold byte_val, byte_of_Z.
  pose proof (Z.mod_pos_bound z 256 ltac:(lia)).
  rewrite N_ascii_embedding by lia. lia.
Qed.

Lemma byte_of_val b : byte_of_Z (byte_val b) = b.
Proof.
  unfold byte_val, byte_of_Z.
  pose proof (N_ascii_bounded b) as Hb.
  rewrite Z.mod_small by lia. rewrite N2Z.id. apply ascii_N_embedding.
Qed.

Lemma byte_val_inj a b : byte_val a = byte_val b -> a = b.
Proof. intros H. rewrite <-(byte_of_val a), <-(byte_of_val b). by rewrite H. Qed.
End integers.

Lemma len_nonneg {A} (l : list A) : 0 <= len l.
Proof. unfold len. lia. Qed.

Lemma len_app {A} (l1 l2 : list A) : len (l1 ++ l2) = len l1 + len l2.
Proof. unfold len. rewrite length_app. lia. Qed.

#[export] Hint Resolve len_nonneg byte_val_bound : filebelt.
#[export] Hint Rewrite @len_app : filebelt.

Section strings_lemmas.
Lemma as_bytes_app s t : as_bytes (s +:+ t) = as_bytes s ++ as_bytes t.
Proof. induction s as [|a s IH]; simpl; [done|]. unfold as_bytes in *. simpl. by rewrite IH. Qed.

Lemma str_of_as_bytes s : str_of_bytes (as_bytes s) = s.
Proof. apply string_of_list_ascii_of_string. Qed.

Lemma as_of_str_bytes b : as_bytes (str_of_bytes b) = b.
Proof. apply list_ascii_of_string_of_list_ascii. Qed.

Lemma str_of_bytes_app a b : str_of_bytes (a ++ b) = str_of_bytes a +:+ str_of_bytes b.
Proof. induction a as [|x a IH]; simpl; [done|]. unfold str_of_bytes in *. by rewrite IH. Qed.

Lemma as_bytes_inj s t : as_bytes s = as_bytes t -> s = t.
Proof. intros H. rewrite <-(str_of_as_bytes s), <-(str_of_as_bytes t). by rewrite H. Qed.

Lemma length_as_bytes s : length (as_bytes s) = String.length s.
Proof. induction s as [|a s IH]; simpl; [done|]. unfold as_bytes in *. simpl. by rewrite IH. Qed.

Lemma str_app_assoc s t u : (s +:+ t) +:+ u = s +:+ (t +:+ u).
Proof. induction s as [|a s IH]; simpl; [done|]. by f_equal. Qed.

Lemma str_app_nil_r s : s +:+ "" = s.
Proof. induction s as [|a s IH]; simpl; [done|]. by f_equal. Qed.

Lemma str_length_app s t : String.length (s +:+ t) = (String.length s + String.length t)%nat.
Proof. induction s; simpl; [done|]. by f_equal. Qed.

Lemma strip_prefix_Some p s r : strip_prefix p s = Some r <-> s = p +:+ r.
Proof.
  revert s; induction p as [|a p IH]; intros s; simpl.
  - naive_solver.
  - destruct s as [|b s]; [naive_solver|].
    destruct (Ascii.eqb_spec a b) as [->|Hne].
    + rewrite IH. naive_solver.
    + naive_solver.
Qed.

Lemma strip_prefix_app p r : strip_prefix p (p +:+ r) = Some r.
Proof. by apply strip_prefix_Some. Qed.

Lemma strip_suffix_Some p s r : strip_suffix p s = Some r <-> s = r +:+ p.
Proof.
  unfold strip_suffix. split.
  - destruct (strip_prefix _ _) as [t|] eqn:Ht; simpl; [|done]. intros [= <-].
    apply strip_prefix_Some in Ht. apply as_bytes_inj.
    apply (f_equal as_bytes) in Ht. rewrite as_bytes_app, !as_of_str_bytes in Ht.
    rewrite as_bytes_app, as_of_str_bytes.
    apply (f_equal (@rev _)) in Ht. rewrite rev_involutive, rev_app_distr, rev_involutive in Ht.
    done.
  - intros ->. rewrite as_bytes_app, rev_app_distr, str_of_bytes_app, strip_prefix_app.
    simpl. by rewrite as_of_str_bytes, rev_involutive, str_of_as_bytes.
Qed.

(** The pieces of [split_char] joined with the separator give the string back. *)
Fixpoint join_char (c : ascii) (ps : list string) : string :=
  match ps with
  | [] => ""
  | [p] => p
  | p :: ps' => p +:+ String c (join_char c ps')
  end.

Definition char_free (c : ascii) (s : string) : Prop := c ∉ as_bytes s.

Lemma split_char_ne c s : split_char c s <> [].
Proof. destruct s as [|a s]; simpl; [done|]. by repeat case_match. Qed.

Lemma split_char_free c s : Forall (char_free c) (split_char c s).
Proof.
  induction s as [|a s IH]; simpl.
  - repeat constructor. apply not_elem_of_nil.
  - destruct (Ascii.eqb_spec a c) as [->|Hne].
    + constructor; [apply not_elem_of_nil|done].
    + destruct (split_char c s) as [|p ps]; inversion IH; subst; constructor; try done;
        unfold char_free in *; cbn; set_solver.
Qed.

Lemma join_split_char c s : join_char c (split_char c s) = s.
Proof.
  induction s as [|a s IH]; simpl; [done|].
  destruct (Ascii.eqb_spec a c) as [->|Hne].
  - destruct (split_char c s) eqn:Hs; [by apply split_char_ne in Hs|].
    simpl in *. by rewrite IH.
  - destruct (split_char c s) as [|p ps] eqn:Hs; [by apply split_char_ne in Hs|].
    simpl in *. destruct ps; simpl in *; by rewrite <-IH.
Qed.

Lemma split_char_free_id c s : char_free c s -> split_char c s = [s].
Proof.
  unfold char_free. induction s as [|a s IH]; simpl; [done|]. intros H. cbn in H.
  destruct (Ascii.eqb_spec a c) as [->|Hne]; [set_solver|].
  rewrite IH; [done|]. set_solver.
Qed.

Lemma split_char_app c s t : char_free c s -> split_char c (s +:+ String c t) = s :: split_char c t.
Proof.
  unfold char_free. induction s as [|a s IH]; simpl; intros H.
  - by rewrite Ascii.eqb_refl.
  - cbn in H. destruct (Ascii.eqb_spec a c) as [->|Hne]; [set_solver|].
    rewrite IH; [done|]. set_solver.
Qed.

Lemma split_join_char c ps :
  ps <> [] -> Forall (char_free c) ps -> split_char c (join_char c ps) = ps.
Proof.
  intros Hne Hall. induction Hall as [|p ps Hp Hps IH]; [done|].
  destruct ps as [|q ps]; simpl in *.
  - by apply split_char_free_id.
  - rewrite split_char_app by done. by rewrite IH.
Qed.

Lemma split_once_char_app c s t : char_free c s -> split_once_char c (s +:+ String c t) = Some (s, t).
Proof.
  unfold char_free. induction s as [|a s IH]; simpl; intros H.
  - by rewrite Ascii.eqb_refl.
  - cbn in H. destruct (Ascii.eqb_spec a c) as [->|Hne]; [set_solver|].
    rewrite IH; [done|]. set_solver.
Qed.

Lemma split_once_char_Some c s l r : split_once_char c s = Some (l, r) -> s = l +:+ String c r.
Proof.
  revert l r; induction s as [|a s IH]; simpl; intros l r H; [done|].
  destruct (Ascii.eqb_spec a c) as [->|Hne]; [by simplify_eq|].
  destruct (split_once_char c s) as [[l' r']|]; simplify_eq. simpl. f_equal. by apply IH.
Qed.
End strings_lemmas.

Section decimal.
Lemma N_to_uint_ne n : N.to_uint n <> Decimal.Nil.
Proof. destruct n as [|p]; simpl; [done|]. apply DecimalPos.Unsigned.to_uint_nonnil. Qed.

Lemma dec_to_string_digit z :
  exists c s, dec_to_string z = String c s /\ c <> "+"%char.
Proof.
  unfold dec_to_string. pose proof (N_to_uint_ne (Z.to_N z)) as Hne.
  destruct (N.to_uint (Z.to_N z)); try done; simpl; eauto.
Qed.

Lemma uint_of_dec_to_string z :
  NilEmpty.uint_of_string (dec_to_string z) = Some (N.to_uint (Z.to_N z)).
Proof.
  unfold dec_to_string. pose proof (N_to_uint_ne (Z.to_N z)) as Hne.
  assert (NilZero.string_of_uint (N.to_uint (Z.to_N z))
          = NilEmpty.string_of_uint (N.to_uint (Z.to_N z))) as ->.
  { by destruct (N.to_uint (Z.to_N z)). }
  apply NilEmpty.usu.
Qed.

(** Printing in decimal and parsing give the number back. *)
Lemma parse_dec_to_string hi z :
  0 <= z <= hi -> parse_unsigned hi (dec_to_string z) = Some z.
Proof.
  intros Hz. unfold parse_unsigned.
  destruct (dec_to_string_digit z) as (c & s & Hs & Hc).
  assert (parse_digits (dec_to_string z) = Some z) as Hp.
  { unfold parse_digits. rewrite uint_of_dec_to_string, Hs. simpl.
    rewrite DecimalN.Unsigned.of_to. f_equal. lia. }
  rewrite Hs in *.
  assert (match String c s with String "+" s' => s' | _ => String c s end = String c s) as ->.
  { clear -Hc. destruct c as [[] [] [] [] [] [] [] []]; done. }
  rewrite Hp. destruct (Z.leb_spec z hi); [done|lia].
Qed.

Lemma parse_unsigned_bound hi s v : parse_unsigned hi s = Some v -> 0 <= v <= hi.
Proof.
  unfold parse_unsigned. generalize (match s with String "+" s' => s' | _ => s end).
  intros t. destruct (parse_digits t) as [w|] eqn:Hw; [|done].
  destruct (Z.leb_spec w hi); [|done]. intros [= <-]. split; [|done].
  unfold parse_digits in Hw. destruct t; [done|].
  destruct (NilEmpty.uint_of_string _); [|done]. simpl in Hw. injection Hw as <-. lia.
Qed.

Lemma nb_digits_double d :
  (Decimal.nb_digits (Decimal.Little.double d) <= S (Decimal.nb_digits d))%nat /\
  (Decimal.nb_digits (Decimal.Little.succ_double d) <= S (Decimal.nb_digits d))%nat.
Proof. induction d; simpl; lia. Qed.

Lemma nb_digits_little p : (Decimal.nb_digits (Pos.to_little_uint p) <= Pos.size_nat p)%nat.
Proof.
  induction p as [p IH|p IH|]; simpl; [| |lia];
    pose proof (nb_digits_double (Pos.to_little_uint p)); lia.
Qed.

Lemma string_of_uint_length d : String.length (NilEmpty.string_of_uint d) = Decimal.nb_digits d.
Proof. induction d; simpl; congruence. Qed.

(** A decimal rendering has at most one digit per bit. *)
Lemma dec_to_string_length z :
  0 < z -> (String.length (dec_to_string z) <= Pos.size_nat (Z.to_pos z))%nat.
Proof.
  intros Hz. unfold dec_to_string. pose proof (N_to_uint_ne (Z.to_N z)) as Hne.
  assert (NilZero.string_of_uint (N.to_uint (Z.to_N z))
          = NilEmpty.string_of_uint (N.to_uint (Z.to_N z))) as ->.
  { by destruct (N.to_uint (Z.to_N z)). }
  rewrite string_of_uint_length. destruct z as [|p|p]; try lia. simpl. unfold Pos.to_uint.
  rewrite nb_digits_rev. apply nb_digits_little.
Qed.

Lemma string_of_uint_digits d : Forall (fun c => is_ascii_digit c = true) (as_bytes (NilEmpty.string_of_uint d)).
Proof. induction d; simpl; constructor; done. Qed.

Lemma dec_to_string_digits z : Forall (fun c => is_ascii_digit c = true) (as_bytes (dec_to_string z)).
Proof.
  unfold dec_to_string. pose proof (N_to_uint_ne (Z.to_N z)) as Hne.
  assert (NilZero.string_of_uint (N.to_uint (Z.to_N z))
          = NilEmpty.string_of_uint (N.to_uint (Z.to_N z))) as ->.
  { by destruct (N.to_uint (Z.to_N z)). }
  apply string_of_uint_digits.
Qed.

Lemma dec_to_string_inj a b : 0 <= a -> 0 <= b -> dec_to_string a = dec_to_string b -> a = b.
Proof.
  intros Ha Hb H.
  pose proof (parse_dec_to_string (Z.max a b) a ltac:(lia)) as H1.
  pose proof (parse_dec_to_string (Z.max a b) b ltac:(lia)) as H2.
  rewrite H in H1. congruence.
Qed.
End decimal.
