(* ===== verification/Collections.v ===== *)
(** Models of the Rust standard collections the sources use: total orders as
    derived by [#[derive(Ord)]], [sort_unstable] with [dedup], [BTreeMap] and
    [BTreeSet] as strictly sorted association lists. *)
From S2P Require Import Prelude.

(** ** Total orders ([#[derive(Ord)]]) *)

Class Ord (A : Type) := cmp : A -> A -> comparison.

Class OrdLaws (A : Type) `{Ord A} : Prop := {
  cmp_eq : forall a b : A, cmp a b = Eq <-> a = b;
  cmp_opp : forall a b : A, cmp b a = CompOpp (cmp a b);
  cmp_trans : forall a b c : A, cmp a b = Lt -> cmp b c = Lt -> cmp a c = Lt
}.

#[export] Instance N_Ord : Ord N := N.compare.
#[export] Instance Z_Ord : Ord Z := Z.compare.
#[export] Instance string_Ord : Ord string := String.compare.

(** Lexicographic order of a struct with two (groups of) fields. *)
#[export] Instance prod_Ord {A B} `{Ord A, Ord B} : Ord (A * B) :=
  fun x y => match cmp x.1 y.1 with Eq => cmp x.2 y.2 | c => c end.

(** Lexicographic order of vectors. *)
#[export] Instance list_Ord {A} `{Ord A} : Ord (list A) :=
  fix go l1 l2 :=
    match l1, l2 with
    | [], [] => Eq
    | [], _ :: _ => Lt
    | _ :: _, [] => Gt
    | a :: l1', b :: l2' => match cmp a b with Eq => go l1' l2' | c => c end
    end.

(** The order of a type read through an injective projection. *)
Definition ord_via {A B} `{Ord B} (f : A -> B) : Ord A := fun x y => cmp (f x) (f y).

Definition ltb {A} `{Ord A} (a b : A) : bool := match cmp a b with Lt => true | _ => false end.

(** [sort_unstable] for orders whose equivalence is equality, and [dedup]. *)
Fixpoint sort_insert {A} `{Ord A} (x : A) (l : list A) : list A :=
  match l with
  | [] => [x]
  | y :: l' => match cmp x y with Gt => y :: sort_insert x l' | _ => x :: l end
  end.
Definition sort_unstable {A} `{Ord A} (l : list A) : list A := foldr sort_insert [] l.

Fixpoint dedup {A} `{EqDecision A} (l : list A) : list A :=
  match l with
  | [] => []
  | x :: l' => match l' with
               | [] => [x]
               | y :: _ => if decide (x = y) then dedup l' else x :: dedup l'
               end
  end.


(** ** [BTreeMap] and [BTreeSet]

    A map is its strictly sorted list of bindings, which is also the order in
    which Rust iterates over it. *)

Abbreviation btmap K V := (list (K * V)).

Fixpoint bt_get {K V} `{Ord K} (k : K) (m : btmap K V) : option V :=
  match m with
  | [] => None
  | (k', v) :: m' => match cmp k k' with Eq => Some v | Lt => None | Gt => bt_get k m' end
  end.

Fixpoint bt_insert {K V} `{Ord K} (k : K) (v : V) (m : btmap K V) : btmap K V :=
  match m with
  | [] => [(k, v)]
  | (k', v') :: m' => match cmp k k' with
                      | Eq => (k, v) :: m'
                      | Lt => (k, v) :: m
                      | Gt => (k', v') :: bt_insert k v m'
                      end
  end.

Definition bt_contains {K V} `{Ord K} (k : K) (m : btmap K V) : bool :=
  match bt_get k m with Some _ => true | None => false end.

Fixpoint bset_insert {A} `{Ord A} (x : A) (s : list A) : list A :=
  match s with
  | [] => [x]
  | y :: s' => match cmp x y with
               | Eq => s
               | Lt => x :: s
               | Gt => y :: bset_insert x s'
               end
  end.
Definition bset_contains {A} `{Ord A} (x : A) (s : list A) : bool :=
  existsb (fun y => match cmp x y with Eq => true | _ => false end) s.
(** [extend] and [collect] insert the elements one after the other. *)
Definition bset_extend {A} `{Ord A} (s l : list A) : list A :=
  fold_left (fun acc x => bset_insert x acc) l s.
Definition bset_of_list {A} `{Ord A} (l : list A) : list A := bset_extend [] l.
(** [a.difference(b)], in ascending order. *)
Definition bset_difference {A} `{Ord A} (a b : list A) : list A :=
  List.filter (fun x => negb (bset_contains x b)) a.

(** ** Laws *)

Definition olt {A} `{Ord A} (a b : A) : Prop := cmp a b = Lt.

Section order_instances.
#[export] Instance N_OrdLaws : OrdLaws N.
Proof.
  split; unfold cmp, N_Ord.
  - apply N.compare_eq_iff.
  - intros. by rewrite N.compare_antisym.
  - intros a b c. rewrite !N.compare_lt_iff. lia.
Qed.

#[export] Instance Z_OrdLaws : OrdLaws Z.
Proof.
  split; unfold cmp, Z_Ord.
  - apply Z.compare_eq_iff.
  - intros. by rewrite Z.compare_antisym.
  - intros a b c. rewrite !Z.compare_lt_iff. lia.
Qed.

Lemma ascii_compare_N a b : Ascii.compare a b = N.compare (N_of_ascii a) (N_of_ascii b).
Proof. done. Qed.

Lemma string_compare_trans a b c :
  String.compare a b = Lt -> String.compare b c = Lt -> String.compare a c = Lt.
Proof.
  revert b c; induction a as [|x a IH]; intros [|y b] [|z c]; simpl; try done.
  rewrite !ascii_compare_N.
  destruct (N.compare_spec (N_of_ascii x) (N_of_ascii y)) as [Hxy|Hxy|Hxy]; try done;
  destruct (N.compare_spec (N_of_ascii y) (N_of_ascii z)) as [Hyz|Hyz|Hyz]; try done; intros H1 H2.
  - rewrite Hxy, Hyz, N.compare_refl. by eapply IH.
  - rewrite Hxy. by apply N.compare_lt_iff in Hyz as ->.
  - rewrite <-Hyz. by apply N.compare_lt_iff in Hxy as ->.
  - assert (N_of_ascii x < N_of_ascii z)%N as Hxz by lia. by apply N.compare_lt_iff in Hxz as ->.
Qed.

#[export] Instance string_OrdLaws : OrdLaws string.
Proof.
  split; unfold cmp, string_Ord.
  - intros a b. split; [apply String.compare_eq_iff|]. intros ->.
    pose proof (String.compare_antisym b b). by destruct (String.compare b b).
  - intros. apply String.compare_antisym.
  - apply string_compare_trans.
Qed.

Lemma cmp_refl {A} `{OrdLaws A} (a : A) : cmp a a = Eq.
Proof. by apply cmp_eq. Qed.

#[export] Instance prod_OrdLaws {A B} `{OrdLaws A, OrdLaws B} : OrdLaws (A * B).
Proof.
  split; unfold cmp, prod_Ord; simpl.
  - intros [a b] [a' b']; simpl. destruct (cmp a a') eqn:Ha.
    + apply cmp_eq in Ha; subst. rewrite cmp_eq. naive_solver.
    + split; [done|]. intros [= -> ->]. by rewrite cmp_refl in Ha.
    + split; [done|]. intros [= -> ->]. by rewrite cmp_refl in Ha.
  - intros [a b] [a' b']; simpl. rewrite (cmp_opp a a'), (cmp_opp b b').
    by destruct (cmp a a').
  - intros [a b] [a' b'] [a'' b'']; simpl.
    destruct (cmp a a') eqn:H3, (cmp a' a'') eqn:H4; try done; intros H5 H6.
    + apply cmp_eq in H3, H4; subst. rewrite cmp_refl. by eapply cmp_trans.
    + apply cmp_eq in H3; subst. by rewrite H4.
    + apply cmp_eq in H4; subst. by rewrite H3.
    + by rewrite (cmp_trans _ _ _ H3 H4).
Qed.

#[export] Instance list_OrdLaws {A} `{OrdLaws A} : OrdLaws (list A).
Proof.
  split; unfold cmp, list_Ord.
  - induction a as [|x a IH]; intros [|y b]; try done.
    destruct (cmp x y) eqn:Hxy.
    + apply cmp_eq in Hxy; subst. rewrite IH. naive_solver.
    + split; [done|]. intros [= -> ->]. by rewrite cmp_refl in Hxy.
    + split; [done|]. intros [= -> ->]. by rewrite cmp_refl in Hxy.
  - induction a as [|x a IH]; intros [|y b]; try done.
    rewrite (cmp_opp x y). by destruct (cmp x y); simpl.
  - induction a as [|x a IH]; intros [|y b] [|z c]; try done.
    destruct (cmp x y) eqn:H3, (cmp y z) eqn:H4; try done; intros H5 H6.
    + apply cmp_eq in H3, H4; subst. rewrite cmp_refl. by eapply IH.
    + apply cmp_eq in H3; subst. by rewrite H4.
    + apply cmp_eq in H4; subst. by rewrite H3.
    + by rewrite (cmp_trans _ _ _ H3 H4).
Qed.

Lemma ord_via_laws {A B} `{OrdLaws B} (f : A -> B) :
  Inj eq eq f -> @OrdLaws A (ord_via f).
Proof.
  intros Hinj. split; unfold cmp, ord_via.
  - intros a b. rewrite cmp_eq. naive_solver.
  - intros. apply cmp_opp.
  - intros a b c. apply cmp_trans.
Qed.
End order_instances.

Section sorting.
Context {A : Type} `{OrdLaws A}.

Lemma olt_irrefl (a : A) : ~ olt a a.
Proof. unfold olt. by rewrite cmp_refl. Qed.

#[export] Instance olt_trans : Transitive (@olt A _).
Proof. intros a b c. apply cmp_trans. Qed.

Lemma cmp_Gt (a b : A) : cmp a b = Gt <-> olt b a.
Proof. unfold olt. rewrite (cmp_opp a b). by destruct (cmp a b). Qed.

Definition ole (a b : A) : Prop := cmp a b <> Gt.

Lemma ole_lt_or_eq (a b : A) : ole a b <-> olt a b \/ a = b.
Proof.
  unfold ole, olt. destruct (cmp a b) eqn:Hc; split; intros Ha; try done; try by left.
  - right. by apply cmp_eq.
  - destruct Ha as [Ha| ->]; [done|]. by rewrite cmp_refl in Hc.
Qed.

#[export] Instance ole_trans : Transitive ole.
Proof.
  intros a b c. rewrite !ole_lt_or_eq. intros [H1| ->] [H2| ->]; auto.
  left. by etransitivity.
Qed.

Lemma elem_of_sort_insert (x y : A) l : y ∈ sort_insert x l <-> y = x \/ y ∈ l.
Proof. induction l as [|z l IH]; simpl; [set_solver|]. case_match; set_solver. Qed.

Lemma elem_of_sort (y : A) l : y ∈ sort_unstable l <-> y ∈ l.
Proof.
  induction l as [|x l IH]; simpl; [done|].
  rewrite elem_of_sort_insert. set_solver.
Qed.

Lemma sort_insert_perm (x : A) l : sort_insert x l ≡ₚ x :: l.
Proof.
  induction l as [|z l IH]; simpl; [done|]. case_match; try done.
  rewrite IH. by constructor.
Qed.

Lemma sort_perm (l : list A) : sort_unstable l ≡ₚ l.
Proof. induction l as [|x l IH]; simpl; [done|]. by rewrite sort_insert_perm, IH. Qed.

Lemma sort_insert_sorted (x : A) l : StronglySorted ole l -> StronglySorted ole (sort_insert x l).
Proof.
  induction 1 as [|y l Hl IH Hy]; simpl; [by repeat constructor|].
  destruct (cmp x y) eqn:Hc.
  1,2: constructor; [by constructor|]; constructor; [by unfold ole; rewrite Hc|];
       rewrite Forall_forall in *; intros z Hz; transitivity y; [by unfold ole; rewrite Hc|auto].
  constructor; [done|]. rewrite Forall_forall in *. intros z Hz.
  apply elem_of_sort_insert in Hz as [->|Hz]; [|auto].
  apply ole_lt_or_eq. left. by apply cmp_Gt.
Qed.

Lemma sort_sorted (l : list A) : StronglySorted ole (sort_unstable l).
Proof. induction l as [|x l IH]; simpl; [constructor|]. by apply sort_insert_sorted. Qed.

Context `{EqDecision A}.

Lemma dedup_cons (x y : A) l :
  dedup (x :: y :: l) = if decide (x = y) then dedup (y :: l) else x :: dedup (y :: l).
Proof. done. Qed.

Lemma elem_of_dedup (x : A) l : x ∈ dedup l <-> x ∈ l.
Proof.
  induction l as [|y l IH]; [done|]. destruct l as [|z l]; [done|].
  rewrite dedup_cons. case_decide; subst; set_solver.
Qed.

Lemma dedup_sorted (l : list A) : StronglySorted ole l -> StronglySorted olt (dedup l).
Proof.
  induction 1 as [|y l Hl IH Hy]; [constructor|].
  destruct l as [|z l]; [by repeat constructor|].
  rewrite dedup_cons. case_decide as Hyz; [done|].
  constructor; [done|]. apply Forall_forall. intros x Hx.
  rewrite elem_of_dedup in Hx.
  assert (olt y z) as Hlt.
  { apply Forall_cons_1 in Hy as [Hy _]. rewrite ole_lt_or_eq in Hy. naive_solver. }
  apply elem_of_cons in Hx as [->|Hx]; [done|].
  apply StronglySorted_inv in Hl as [_ Hz]. rewrite Forall_forall in Hz.
  apply Hz in Hx. rewrite ole_lt_or_eq in Hx.
  destruct Hx as [Hx| <-]; [by etransitivity|done].
Qed.

(** [sort_unstable] then [dedup] keeps the elements and sorts them strictly. *)
Lemma sort_dedup_sorted (l : list A) : StronglySorted olt (dedup (sort_unstable l)).
Proof. apply dedup_sorted, sort_sorted. Qed.

Lemma elem_of_sort_dedup (x : A) l : x ∈ dedup (sort_unstable l) <-> x ∈ l.
Proof. by rewrite elem_of_dedup, elem_of_sort. Qed.

Lemma sort_dedup_nil (l : list A) : dedup (sort_unstable l) = [] <-> l = [].
Proof.
  split; [|by intros ->]. intros Hnil. destruct l as [|x l]; [done|].
  assert (x ∈ dedup (sort_unstable (x :: l))) as Hx by (apply elem_of_sort_dedup; left).
  rewrite Hnil in Hx. by apply not_elem_of_nil in Hx.
Qed.

(** A strictly sorted list is determined by its elements. *)
Lemma sorted_ext (l1 l2 : list A) :
  StronglySorted olt l1 -> StronglySorted olt l2 -> (forall x, x ∈ l1 <-> x ∈ l2) -> l1 = l2.
Proof.
  intros H1. revert l2. induction H1 as [|x l1 Hl1 IH Hx]; intros l2 H2 Hext.
  - destruct l2 as [|y l2]; [done|]. specialize (Hext y). set_solver.
  - destruct H2 as [|y l2 Hl2 Hy]; [specialize (Hext x); set_solver|].
    rewrite !Forall_forall in *.
    assert (x = y) as ->.
    { assert (x ∈ y :: l2) as Hxy by (apply Hext; left).
      assert (y ∈ x :: l1) as Hyx by (apply Hext; left).
      apply elem_of_cons in Hxy as [->|Hxy]; [done|].
      apply elem_of_cons in Hyx as [->|Hyx]; [done|].
      exfalso. apply (olt_irrefl x). etransitivity; [apply Hx|apply Hy]; done. }
    f_equal. apply IH; [done|]. intros z. split; intros Hz.
    + assert (z ∈ y :: l2) as Hz' by (apply Hext; by right).
      apply elem_of_cons in Hz' as [->|]; [|done]. by apply Hx, olt_irrefl in Hz.
    + assert (z ∈ y :: l1) as Hz' by (apply Hext; by right).
      apply elem_of_cons in Hz' as [->|]; [|done]. by apply Hy, olt_irrefl in Hz.
Qed.

(** Sorting and deduplicating depends on the set of elements only. *)
Lemma sort_dedup_ext (l1 l2 : list A) :
  (forall x, x ∈ l1 <-> x ∈ l2) -> dedup (sort_unstable l1) = dedup (sort_unstable l2).
Proof.
  intros Hext. apply sorted_ext; try apply sort_dedup_sorted.
  intros x. by rewrite !elem_of_sort_dedup.
Qed.

Lemma sort_dedup_idem (l : list A) : StronglySorted olt l -> dedup (sort_unstable l) = l.
Proof.
  intros Hl. apply sorted_ext; [apply sort_dedup_sorted|done|].
  intros x. apply elem_of_sort_dedup.
Qed.
End sorting.

(** A well-formed map has strictly increasing keys. *)
Definition bt_wf {K V} `{Ord K} (m : btmap K V) : Prop := StronglySorted olt m.*1.

Section btmap_lemmas.
Context {K V : Type} `{OrdLaws K}.
Implicit Types m : btmap K V.

Lemma bt_insert_keys (k x : K) (v : V) m : x ∈ (bt_insert k v m).*1 <-> x = k \/ x ∈ m.*1.
Proof.
  induction m as [|[k' v'] m IH]; simpl; [set_solver|].
  destruct (cmp k k') eqn:Hc; simpl; try set_solver.
  apply cmp_eq in Hc; subst. set_solver.
Qed.

Lemma bt_insert_wf (k : K) (v : V) m : bt_wf m -> bt_wf (bt_insert k v m).
Proof.
  unfold bt_wf. induction m as [|[k' v'] m IH]; simpl; intros Hm; [by repeat constructor|].
  apply StronglySorted_inv in Hm as [Hm Hk']. destruct (cmp k k') eqn:Hc; simpl.
  - apply cmp_eq in Hc; subst. by constructor.
  - constructor; [by constructor|]. constructor; [done|].
    rewrite Forall_forall in *. intros x Hx. by etransitivity; [|apply Hk'].
  - constructor; [by apply IH|]. rewrite Forall_forall in *. intros x Hx.
    apply bt_insert_keys in Hx as [->|Hx]; [by apply cmp_Gt|auto].
Qed.

Lemma bt_get_insert (k x : K) (v : V) m `{EqDecision K} :
  bt_wf m -> bt_get x (bt_insert k v m) = if decide (x = k) then Some v else bt_get x m.
Proof.
  unfold bt_wf. induction m as [|[k' v'] m IH]; simpl; intros Hm.
  - destruct (cmp x k) eqn:Hx; case_decide; subst; try done; rewrite ?cmp_refl in Hx; try done.
    by apply cmp_eq in Hx.
  - apply StronglySorted_inv in Hm as [Hm Hk']. destruct (cmp k k') eqn:Hc; simpl.
    + apply cmp_eq in Hc; subst. destruct (cmp x k') eqn:Hx; case_decide; subst; try done;
        rewrite ?cmp_refl in Hx; try done. by apply cmp_eq in Hx.
    + destruct (cmp x k) eqn:Hx; case_decide; subst; try done; rewrite ?cmp_refl in Hx; try done.
      * by apply cmp_eq in Hx.
      * by rewrite (cmp_trans _ _ _ Hx Hc).
    + rewrite (IH Hm). destruct (cmp x k') eqn:Hx; case_decide; subst; try done.
      all: try (apply cmp_eq in Hx; subst; rewrite cmp_refl in Hc; done).
      all: congruence.
Qed.

Lemma bt_get_elem (k : K) m v : bt_wf m -> (bt_get k m = Some v <-> (k, v) ∈ m).
Proof.
  unfold bt_wf. induction m as [|[k' v'] m IH]; simpl; intros Hm; [set_solver|].
  apply StronglySorted_inv in Hm as [Hm Hk']. rewrite Forall_forall in Hk'.
  assert (forall w, (k, w) ∈ m -> olt k' k) as Hin.
  { intros w Hw. apply Hk'. by apply (list_elem_of_fmap_2 fst) in Hw. }
  rewrite elem_of_cons. destruct (cmp k k') eqn:Hc; split.
  - intros [= ->]. apply cmp_eq in Hc; subst. by left.
  - intros [[= ? ->]|Hw]; [done|]. apply cmp_eq in Hc; subst. by apply Hin, olt_irrefl in Hw.
  - done.
  - intros [[= -> ->]|Hw]; [by rewrite cmp_refl in Hc|].
    apply Hin in Hw. exfalso. eapply olt_irrefl. by etransitivity.
  - intros Hg. right. by apply IH.
  - intros [[= -> ->]|Hw]; [by rewrite cmp_refl in Hc|]. by apply IH.
Qed.

Lemma bt_get_dom (k : K) m : bt_wf m -> (is_Some (bt_get k m) <-> k ∈ m.*1).
Proof.
  intros Hm. split.
  - intros [v Hv%bt_get_elem]; [|done]. by apply (list_elem_of_fmap_2 fst) in Hv.
  - intros ([k' v] & -> & Hv)%list_elem_of_fmap. exists v. by apply bt_get_elem.
Qed.

Lemma bt_contains_true (k : K) m : bt_contains k m = true <-> is_Some (bt_get k m).
Proof. unfold bt_contains. destruct (bt_get k m); naive_solver. Qed.

Lemma bt_insert_perm (k : K) (v : V) m :
  bt_wf m -> bt_get k m = None -> bt_insert k v m ≡ₚ (k, v) :: m.
Proof.
  unfold bt_wf. induction m as [|[k' v'] m IH]; simpl; intros Hm Hk; [done|].
  apply StronglySorted_inv in Hm as [Hm _]. destruct (cmp k k'); [done|done|].
  rewrite IH by done. constructor.
Qed.

(** Inserting in ascending order appends. *)
Lemma bt_insert_snoc (k : K) (v : V) m :
  Forall (fun k' => olt k' k) m.*1 -> bt_insert k v m = m ++ [(k, v)].
Proof.
  induction m as [|[k' v'] m IH]; simpl; [done|]. rewrite Forall_cons. intros [Hk Hm].
  rewrite cmp_opp. unfold olt in Hk. rewrite Hk. simpl. by rewrite IH.
Qed.

Lemma bt_wf_NoDup m : bt_wf m -> NoDup m.*1.
Proof.
  unfold bt_wf. generalize (m.*1). induction 1 as [|k l Hl IH Hk]; constructor; [|done].
  intros Hin. rewrite Forall_forall in Hk. by apply Hk, olt_irrefl in Hin.
Qed.

Lemma bt_insert_length (k : K) (v : V) m :
  bt_wf m -> bt_get k m = None -> length (bt_insert k v m) = S (length m).
Proof.
  unfold bt_wf. induction m as [|[k' v'] m IH]; simpl; intros Hm Hk; [done|].
  apply StronglySorted_inv in Hm as [Hm _]. destruct (cmp k k'); simpl; [done|done|].
  by rewrite IH.
Qed.
End btmap_lemmas.

Section bset_lemmas.
Context {A : Type} `{OrdLaws A}.

Lemma elem_of_bset_insert (x y : A) s : y ∈ bset_insert x s <-> y = x \/ y ∈ s.
Proof.
  induction s as [|z s IH]; simpl; [set_solver|].
  destruct (cmp x z) eqn:Hc; try set_solver. apply cmp_eq in Hc; subst. set_solver.
Qed.

Lemma bset_insert_sorted (x : A) s : StronglySorted olt s -> StronglySorted olt (bset_insert x s).
Proof.
  induction 1 as [|y s Hs IH Hy]; simpl; [by repeat constructor|].
  destruct (cmp x y) eqn:Hc.
  - by constructor.
  - constructor; [by constructor|]. constructor; [done|].
    rewrite Forall_forall in *. intros z Hz. by etransitivity; [|apply Hy].
  - constructor; [done|]. rewrite Forall_forall in *. intros z Hz.
    apply elem_of_bset_insert in Hz as [->|Hz]; [by apply cmp_Gt|auto].
Qed.

Lemma elem_of_bset_extend (x : A) l s : x ∈ bset_extend s l <-> x ∈ s \/ x ∈ l.
Proof.
  unfold bset_extend. revert s. induction l as [|y l IH]; intros s; simpl; [set_solver|].
  rewrite IH, elem_of_bset_insert. set_solver.
Qed.

Lemma bset_extend_sorted l s : StronglySorted olt s -> StronglySorted olt (bset_extend s l : list A).
Proof.
  unfold bset_extend. revert s. induction l as [|y l IH]; intros s Hs; simpl; [done|].
  by apply IH, bset_insert_sorted.
Qed.

Lemma elem_of_bset_of_list (x : A) l : x ∈ bset_of_list l <-> x ∈ l.
Proof. unfold bset_of_list. rewrite elem_of_bset_extend. set_solver. Qed.

Lemma bset_contains_true (x : A) s : bset_contains x s = true <-> x ∈ s.
Proof.
  unfold bset_contains. rewrite existsb_exists. split.
  - intros (y & Hy & Hc). destruct (cmp x y) eqn:Hxy; try done.
    apply cmp_eq in Hxy; subst. by apply list_elem_of_In.
  - intros Hx. exists x. rewrite cmp_refl. by apply list_elem_of_In in Hx.
Qed.

Lemma elem_of_bset_difference (x : A) a b : x ∈ bset_difference a b <-> x ∈ a /\ x ∉ b.
Proof.
  unfold bset_difference. rewrite !list_elem_of_In, filter_In, negb_true_iff.
  rewrite <-(not_true_iff_false (bset_contains x b)), bset_contains_true, list_elem_of_In.
  done.
Qed.
End bset_lemmas.

#[export] Hint Resolve bt_insert_wf bset_insert_sorted bset_extend_sorted sort_dedup_sorted : filebelt.

(** [ORDER BY] keeps the rows, whatever ties the order has. *)
Lemma elem_of_order {A} `{Ord A} (l : list A) x : x ∈ sort_unstable l -> x ∈ l.
Proof.
  assert (forall y l, x ∈ sort_insert y l -> x = y \/ x ∈ l) as Hi by (intros y k; induction k as [|z k IH]; simpl; [set_solver|]; case_match; set_solver).
  induction l as [|y l IH]; simpl; [done|]. intros [-> | Hx]%Hi; set_solver.
Qed.
