(* ===== verification/Libraries.v ===== *)
(** Interfaces of the third-party crates the modelled sources call.  Each is a
    class of operations, with the documented behaviour the proofs rely on in a
    separate class of laws; the concrete instances at the end of the file show
    that the laws can hold and are used by the witnesses only. *)
From S2P Require Import Prelude Collections.

(** ** crate [uuid]: a UUID is its 128-bit big-endian value *)

Abbreviation Uuid := N (only parsing).
Definition uuid_nil : Uuid := 0%N.
Definition uuid_is_nil (u : Uuid) : bool := N.eqb u uuid_nil.
Definition is_uuid (u : Uuid) : Prop := (u < 2 ^ 128)%N.

Inductive Variant := VariantNCS | VariantRFC4122 | VariantMicrosoft | VariantFuture.
#[export] Instance Variant_eq_dec : EqDecision Variant.
Proof. solve_decision. Defined.

Class UuidLib := {
  uuid_parse_str : string -> option Uuid;
  uuid_hyphenated : Uuid -> string;
  uuid_simple : Uuid -> string;
  uuid_get_variant : Uuid -> Variant;
  uuid_get_version_num : Uuid -> Z
}.

Definition uuid_char (c : ascii) : bool :=
  is_ascii_digit c || ((97 <=? byte_val c) && (byte_val c <=? 102)) || (byte_val c =? 45).

Class UuidLaws `{UuidLib} : Prop := {
  (** every hyphenated rendering parses back *)
  uuid_parse_hyphenated : forall u, is_uuid u -> uuid_parse_str (uuid_hyphenated u) = Some u;
  (** a parsed value has 128 bits *)
  uuid_parse_bound : forall s u, uuid_parse_str s = Some u -> is_uuid u;
  (** the hyphenated rendering is made of lower-case hexadecimal digits and hyphens *)
  uuid_hyphenated_alphabet : forall u c, c ∈ as_bytes (uuid_hyphenated u) -> uuid_char c = true
}.

(** ** crates [unicode-normalization] and [caseless] *)

Class UnicodeLib := {
  nfc : string -> string;
  default_case_fold : string -> string
}.

Class UnicodeLaws `{UnicodeLib} : Prop := {
  (** NFC is idempotent (Unicode Standard Annex 15) *)
  nfc_idempotent : forall s, nfc (nfc s) = nfc s
}.

(** ** crate [base64], engine [URL_SAFE_NO_PAD] *)

Class Base64Lib := {
  b64_encode : bytes -> string;
  b64_decode : string -> option bytes
}.

(** The alphabet of RFC 4648, section 5. *)
Definition b64_alphabet (c : ascii) : bool :=
  is_ascii_digit c || is_ascii_uppercase c
  || ((97 <=? byte_val c) && (byte_val c <=? 122))
  || (byte_val c =? 45) || (byte_val c =? 95).

Class Base64Laws `{Base64Lib} : Prop := {
  b64_decode_encode : forall b, b64_decode (b64_encode b) = Some b;
  (** decoding is strict: unused trailing bits must be zero, padding is refused *)
  b64_decode_canonical : forall s b, b64_decode s = Some b -> s = b64_encode b;
  b64_encode_alphabet : forall b c, c ∈ as_bytes (b64_encode b) -> b64_alphabet c = true;
  (** four characters carry three bytes *)
  b64_encode_length : forall b, str_len (b64_encode b) = (4 * len b + 2) / 3
}.

(** ** crate [blake3]: the incremental hasher is the hash of what it was fed *)

Class Blake3Lib := {
  blake3_hash : bytes -> bytes
}.

Class Blake3Laws `{Blake3Lib} : Prop := {
  blake3_length : forall b, len (blake3_hash b) = 32
}.

(** ** crate [aws-lc-rs]: Ed25519 *)

Class Ed25519Lib := {
  ed_keypair : Type;
  ed_public : ed_keypair -> bytes;
  ed_sign : ed_keypair -> bytes -> bytes;
  (** [UnparsedPublicKey::new(&ED25519, key).verify(message, signature).is_ok()] *)
  ed_verify : bytes -> bytes -> bytes -> bool
}.

Class Ed25519Laws `{Ed25519Lib} : Prop := {
  ed_verify_sign : forall k m, ed_verify (ed_public k) m (ed_sign k m) = true
}.

(** ** crate [prost]: the codec of one generated message type *)

Class ProstMessage (M : Type) := {
  encode_to_vec : M -> bytes;
  decode_message : bytes -> option M
}.

Class ProstLaws (M : Type) `{ProstMessage M} (valid : M -> Prop) : Prop := {
  (** a message whose fields are in the range of their types decodes back *)
  decode_encode : forall m, valid m -> decode_message (encode_to_vec m) = Some m
}.

(** ** Concrete instances *)

Module Concrete.

Fixpoint digits16 (n : nat) (u : N) : list N :=
  match n with
  | O => []
  | S n' => digits16 n' (u / 16) ++ [(u mod 16)%N]
  end.

Definition of_digits16 (l : list N) : N := fold_left (fun acc d => (16 * acc + d)%N) l 0%N.

Definition hex_char (d : N) : ascii :=
  if (d <? 10)%N then ascii_of_N (48 + d) else ascii_of_N (87 + d).

Definition hex_val (c : ascii) : option N :=
  let v := N_of_ascii c in
  if ((48 <=? v) && (v <=? 57))%N then Some (v - 48)%N
  else if ((97 <=? v) && (v <=? 102))%N then Some (v - 87)%N
  else if ((65 <=? v) && (v <=? 70))%N then Some (v - 55)%N
  else None.

Definition hex32 (u : N) : bytes := map hex_char (digits16 32 u).

Definition hyphenate (h : bytes) : bytes :=
  take 8 h ++ ["-"%char] ++ take 4 (drop 8 h) ++ ["-"%char] ++ take 4 (drop 12 h)
  ++ ["-"%char] ++ take 4 (drop 16 h) ++ ["-"%char] ++ drop 20 h.

Definition parse_hex32 (h : bytes) : option N :=
  if Nat.eqb (length h) 32 then of_digits16 <$> mapM hex_val h else None.

Definition dehyphenate (s : bytes) : bytes :=
  take 8 s ++ take 4 (drop 9 s) ++ take 4 (drop 14 s) ++ take 4 (drop 19 s) ++ drop 24 s.

Definition parse_uuid (s : string) : option N :=
  let b := as_bytes s in
  if Nat.eqb (length b) 36 then
    if bool_decide (hyphenate (dehyphenate b) = b) then parse_hex32 (dehyphenate b) else None
  else parse_hex32 b.

Definition variant_of (u : N) : Variant :=
  let n := (u / 2 ^ 60 mod 16)%N in
  if (n <? 8)%N then VariantNCS
  else if (n <? 12)%N then VariantRFC4122
  else if (n <? 14)%N then VariantMicrosoft else VariantFuture.

#[export] Instance uuid_lib : UuidLib := {|
  uuid_parse_str := parse_uuid;
  uuid_hyphenated u := str_of_bytes (hyphenate (hex32 u));
  uuid_simple u := str_of_bytes (hex32 u);
  uuid_get_variant := variant_of;
  uuid_get_version_num u := Z.of_N (u / 2 ^ 76 mod 16)
|}.

Lemma length_digits16 n u : length (digits16 n u) = n.
Proof. revert u; induction n as [|n IH]; intros u; simpl; [done|]. rewrite length_app, IH. simpl. lia. Qed.

Lemma digits16_bound n u : Forall (fun d => d < 16)%N (digits16 n u).
Proof.
  revert u; induction n as [|n IH]; intros u; simpl; [constructor|].
  apply Forall_app; split; [apply IH|]. repeat constructor. by apply N.mod_lt.
Qed.

Lemma of_digits16_snoc l d : of_digits16 (l ++ [d]) = (16 * of_digits16 l + d)%N.
Proof. unfold of_digits16. by rewrite fold_left_app. Qed.

Lemma of_digits16_digits16 n u : (u < 16 ^ N.of_nat n)%N -> of_digits16 (digits16 n u) = u.
Proof.
  revert u; induction n as [|n IH]; intros u Hu; simpl.
  - change (16 ^ N.of_nat 0)%N with 1%N in Hu. unfold of_digits16; simpl. lia.
  - rewrite of_digits16_snoc, IH.
    + pose proof (N.div_mod u 16). lia.
    + rewrite Nat2N.inj_succ, N.pow_succ_r' in Hu. apply N.Div0.div_lt_upper_bound. lia.
Qed.

Lemma of_digits16_bound l :
  Forall (fun d => d < 16)%N l -> (of_digits16 l < 16 ^ N.of_nat (length l))%N.
Proof.
  induction l as [|d l IH] using rev_ind; intros Hl; [done|].
  apply Forall_app in Hl as [Hl Hd]. apply Forall_cons in Hd as [Hd _].
  rewrite of_digits16_snoc, length_app, Nat.add_1_r, Nat2N.inj_succ, N.pow_succ_r'.
  specialize (IH Hl). cbn beta in Hd. lia.
Qed.

Lemma hex_val_char d : (d < 16)%N -> hex_val (hex_char d) = Some d.
Proof.
  intros Hd. unfold hex_char. case_match eqn:Hlt.
  - apply N.ltb_lt in Hlt. unfold hex_val. rewrite N_ascii_embedding by lia.
    rewrite (proj2 (N.leb_le _ _)) by lia. rewrite (proj2 (N.leb_le _ _)) by lia. simpl. f_equal. lia.
  - apply N.ltb_ge in Hlt. unfold hex_val. rewrite N_ascii_embedding by lia.
    rewrite (proj2 (N.leb_le 48 _)) by lia. rewrite (proj2 (N.leb_gt _ 57)) by lia.
    rewrite (proj2 (N.leb_le 97 _)) by lia. rewrite (proj2 (N.leb_le _ 102)) by lia.
    simpl. f_equal. lia.
Qed.

Lemma hex_val_bound c d : hex_val c = Some d -> (d < 16)%N.
Proof.
  unfold hex_val. intros H.
  destruct (N.leb_spec 48 (N_of_ascii c)), (N.leb_spec (N_of_ascii c) 57),
    (N.leb_spec 97 (N_of_ascii c)), (N.leb_spec (N_of_ascii c) 102),
    (N.leb_spec 65 (N_of_ascii c)), (N.leb_spec (N_of_ascii c) 70); simplify_eq/=; lia.
Qed.

Lemma mapM_hex l : Forall (fun d => d < 16)%N l -> mapM hex_val (map hex_char l) = Some l.
Proof.
  induction 1 as [|d l Hd Hl IH]; simpl; [done|]. rewrite hex_val_char by done. simpl.
  by rewrite IH.
Qed.

Lemma mapM_hex_bound h l :
  mapM hex_val h = Some l -> length l = length h /\ Forall (fun d => d < 16)%N l.
Proof.
  intros H%mapM_Some. split; [symmetry; by eapply Forall2_length|].
  induction H as [|c d h l Hc Hh IH]; constructor; [by eapply hex_val_bound|done].
Qed.

Lemma parse_hex32_bound h u : parse_hex32 h = Some u -> is_uuid u.
Proof.
  unfold parse_hex32. case_match eqn:Hlen; [|done]. apply Nat.eqb_eq in Hlen.
  destruct (mapM hex_val h) as [l|] eqn:Hl; simpl; [|done]. intros [= <-].
  apply mapM_hex_bound in Hl as [Hl Hb]. pose proof (of_digits16_bound l Hb) as H1.
  rewrite Hl, Hlen in H1. exact H1.
Qed.

Lemma dehyphenate_hyphenate h : length h = 32%nat -> dehyphenate (hyphenate h) = h.
Proof. intros Hh. do 32 (destruct h as [|? h]; [done|]). by destruct h. Qed.

Lemma length_hyphenate h : length h = 32%nat -> length (hyphenate h) = 36%nat.
Proof. intros Hh. do 32 (destruct h as [|? h]; [done|]). by destruct h. Qed.

Lemma length_hex32 u : length (hex32 u) = 32%nat.
Proof. unfold hex32. by rewrite length_map, length_digits16. Qed.

Lemma hex_char_uuid d : (d < 16)%N -> uuid_char (hex_char d) = true.
Proof.
  intros Hd. assert (forallb (fun n => uuid_char (hex_char (N.of_nat n))) (seq 0 16) = true) as Hall by (vm_compute; reflexivity).
  rewrite forallb_forall in Hall. specialize (Hall (N.to_nat d)). rewrite N2Nat.id in Hall. apply Hall, in_seq. lia.
Qed.

Lemma hyphenate_forall (P : ascii -> Prop) h : P "-"%char -> Forall P h -> Forall P (hyphenate h).
Proof.
  intros Hp Hh. unfold hyphenate. rewrite !Forall_app, !Forall_singleton.
  repeat match goal with |- _ /\ _ => split end; auto using Forall_take, Forall_drop.
Qed.

#[export] Instance uuid_laws : UuidLaws.
Proof.
  split.
  - intros u Hu. cbn [uuid_parse_str uuid_hyphenated uuid_lib]. unfold parse_uuid.
    rewrite as_of_str_bytes, length_hyphenate by apply length_hex32.
    rewrite dehyphenate_hyphenate by apply length_hex32.
    rewrite bool_decide_eq_true_2 by done. cbn [Nat.eqb].
    unfold parse_hex32. rewrite length_hex32. cbn [Nat.eqb].
    unfold hex32. rewrite mapM_hex by apply digits16_bound. cbn [fmap option_fmap option_map].
    f_equal. apply of_digits16_digits16. exact Hu.
  - intros s u. cbn [uuid_parse_str uuid_lib]. unfold parse_uuid.
    repeat case_match; try done; apply parse_hex32_bound.
  - intros u c. cbn [uuid_hyphenated uuid_lib]. rewrite as_of_str_bytes. revert c. apply Forall_forall.
    apply hyphenate_forall; [done|]. unfold hex32. apply Forall_map. eapply Forall_impl; [apply digits16_bound|].
    apply hex_char_uuid.
Qed.

(** ASCII-only Unicode data: NFC is the identity, folding lowers letters. *)
Definition ascii_lower (b : byte) : byte :=
  if is_ascii_uppercase b then byte_of_Z (byte_val b + 32) else b.

#[export] Instance unicode_lib : UnicodeLib := {|
  nfc s := s;
  default_case_fold s := str_of_bytes (map ascii_lower (as_bytes s))
|}.

#[export] Instance unicode_laws : UnicodeLaws.
Proof. by split. Qed.

End Concrete.
