(* ===== verification/ConcreteCodecs.v ===== *)
(** Concrete instances of the interfaces of [Libraries] for the witnesses: the
    URL-safe unpadded Base64 engine, a message codec for every countable type,
    and transparent stand-ins for the hash and the signature scheme. *)
From stdpp Require Import countable.
From S2P Require Import Prelude Libraries.

Module Base64.

Definition sextet_char (v : Z) : ascii :=
  if v <? 26 then byte_of_Z (65 + v)
  else if v <? 52 then byte_of_Z (71 + v)
  else if v <? 62 then byte_of_Z (v - 4)
  else if v =? 62 then "-"%char else "_"%char.

Definition sextet_val (c : ascii) : option Z :=
  let x := byte_val c in
  if (65 <=? x) && (x <=? 90) then Some (x - 65)
  else if (97 <=? x) && (x <=? 122) then Some (x - 71)
  else if (48 <=? x) && (x <=? 57) then Some (x + 4)
  else if x =? 45 then Some 62 else if x =? 95 then Some 63 else None.

Lemma sextet_val_char v : 0 <= v < 64 -> sextet_val (sextet_char v) = Some v.
Proof.
  intros Hv.
  assert (forallb (fun n => bool_decide (sextet_val (sextet_char (Z.of_nat n)) = Some (Z.of_nat n)))
            (seq 0 64) = true) as Hall by (vm_compute; reflexivity).
  rewrite forallb_forall in Hall. specialize (Hall (Z.to_nat v)).
  rewrite bool_decide_eq_true, Z2Nat.id in Hall by lia. apply Hall. apply in_seq. lia.
Qed.

Lemma sextet_char_val c v : sextet_val c = Some v -> sextet_char v = c /\ 0 <= v < 64.
Proof.
  intros H.
  assert (forallb (fun n => match sextet_val (byte_of_Z (Z.of_nat n)) with
                            | Some v => bool_decide (sextet_char v = byte_of_Z (Z.of_nat n))
                                        && (0 <=? v) && (v <? 64)
                            | None => true
                            end) (seq 0 256) = true) as Hall by (vm_compute; reflexivity).
  rewrite forallb_forall in Hall. pose proof (byte_val_bound c) as Hc.
  specialize (Hall (Z.to_nat (byte_val c)) ltac:(apply in_seq; lia)).
  rewrite Z2Nat.id, byte_of_val, H in Hall by lia.
  rewrite !andb_true_iff, bool_decide_eq_true, Z.leb_le, Z.ltb_lt in Hall. naive_solver.
Qed.

Lemma sextet_char_alphabet v : 0 <= v < 64 -> b64_alphabet (sextet_char v) = true.
Proof.
  intros Hv.
  assert (forallb (fun n => b64_alphabet (sextet_char (Z.of_nat n))) (seq 0 64) = true) as Hall
    by (vm_compute; reflexivity).
  rewrite forallb_forall in Hall. specialize (Hall (Z.to_nat v)).
  rewrite Z2Nat.id in Hall by lia. apply Hall. apply in_seq. lia.
Qed.

Fixpoint enc (b : bytes) : bytes :=
  match b with
  | [] => []
  | [b0] => let x := byte_val b0 in [sextet_char (x / 4); sextet_char (x mod 4 * 16)]
  | [b0; b1] =>
      let x := byte_val b0 in let y := byte_val b1 in
      [sextet_char (x / 4); sextet_char (x mod 4 * 16 + y / 16); sextet_char (y mod 16 * 4)]
  | b0 :: b1 :: b2 :: r =>
      let x := byte_val b0 in let y := byte_val b1 in let z := byte_val b2 in
      [sextet_char (x / 4); sextet_char (x mod 4 * 16 + y / 16);
       sextet_char (y mod 16 * 4 + z / 64); sextet_char (z mod 64)] ++ enc r
  end.

Fixpoint dec (s : bytes) : option bytes :=
  match s with
  | [] => Some []
  | [_] => None
  | [c0; c1] =>
      v0 ← sextet_val c0; v1 ← sextet_val c1;
      if v1 mod 16 =? 0 then Some [byte_of_Z (v0 * 4 + v1 / 16)] else None
  | [c0; c1; c2] =>
      v0 ← sextet_val c0; v1 ← sextet_val c1; v2 ← sextet_val c2;
      if v2 mod 4 =? 0
      then Some [byte_of_Z (v0 * 4 + v1 / 16); byte_of_Z (v1 mod 16 * 16 + v2 / 4)] else None
  | c0 :: c1 :: c2 :: c3 :: r =>
      v0 ← sextet_val c0; v1 ← sextet_val c1; v2 ← sextet_val c2; v3 ← sextet_val c3;
      rest ← dec r;
      Some (byte_of_Z (v0 * 4 + v1 / 16) :: byte_of_Z (v1 mod 16 * 16 + v2 / 4)
            :: byte_of_Z (v2 mod 4 * 64 + v3) :: rest)
  end.

Ltac byte_arith := Z.to_euclidean_division_equations; lia.
Ltac bounds := repeat match goal with
  | b : ascii |- _ => lazymatch goal with
      | _ : 0 <= byte_val b < 256 |- _ => fail
      | _ => pose proof (byte_val_bound b) end end.

Lemma three_ind (P : bytes -> Prop) :
  P [] -> (forall a, P [a]) -> (forall a b, P [a; b]) ->
  (forall a b c r, P r -> P (a :: b :: c :: r)) -> forall l, P l.
Proof.
  intros H0 H1 H2 H3. fix IH 1. intros [|a [|b [|c r]]]; [done|apply H1|apply H2|apply H3, IH].
Qed.

Lemma byte_of b z : z = byte_val b -> byte_of_Z z = b.
Proof. intros ->. apply byte_of_val. Qed.

Lemma dec_enc b : dec (enc b) = Some b.
Proof.
  induction b as [|b0|b0 b1|b0 b1 b2 r IH] using three_ind; [done|..]; bounds;
    cbn [enc app]; cbn [dec]; rewrite !sextet_val_char by byte_arith; cbn [mbind option_bind].
  - rewrite (proj2 (Z.eqb_eq _ _)) by byte_arith. do 2 f_equal. apply byte_of. byte_arith.
  - rewrite (proj2 (Z.eqb_eq _ _)) by byte_arith. f_equal.
    f_equal; [apply byte_of; byte_arith|]. f_equal. apply byte_of. byte_arith.
  - rewrite IH. cbn [mbind option_bind]. f_equal.
    f_equal; [apply byte_of; byte_arith|]. f_equal; [apply byte_of; byte_arith|].
    f_equal. apply byte_of; byte_arith.
Qed.

Lemma four_ind (P : bytes -> Prop) :
  P [] -> (forall a, P [a]) -> (forall a b, P [a; b]) -> (forall a b c, P [a; b; c]) ->
  (forall a b c d r, P r -> P (a :: b :: c :: d :: r)) -> forall l, P l.
Proof.
  intros H0 H1 H2 H3 H4. fix IH 1.
  intros [|a [|b [|c [|d r]]]]; [done|apply H1|apply H2|apply H3|apply H4, IH].
Qed.

Ltac sextets := repeat match goal with
  | H : context [sextet_val ?c ≫= _] |- _ =>
      let v := fresh "v" in let Hv := fresh "Hv" in
      destruct (sextet_val c) as [v|] eqn:Hv; cbn [mbind option_bind] in H; [|done];
      apply sextet_char_val in Hv as [<- ?]
  end.

Lemma val_of z : 0 <= z < 256 -> byte_val (byte_of_Z z) = z.
Proof. intros Hz. rewrite byte_val_of_Z. by apply Z.mod_small. Qed.

Lemma enc_dec s b : dec s = Some b -> enc b = s.
Proof.
  revert b. induction s as [|c0|c0 c1|c0 c1 c2|c0 c1 c2 c3 r IH] using four_ind; intros b H;
    cbn [dec] in H; sextets.
  - by simplify_eq.
  - done.
  - destruct (Z.eqb_spec (v0 mod 16) 0); [|done]. simplify_eq. cbn [enc].
    rewrite val_of by byte_arith. do 2 f_equal; [f_equal; byte_arith|]. do 2 f_equal. byte_arith.
  - destruct (Z.eqb_spec (v1 mod 4) 0); [|done]. simplify_eq. cbn [enc].
    rewrite !val_of by byte_arith. repeat f_equal; byte_arith.
  - destruct (dec r) as [rest|]; [|done]. cbn [mbind option_bind] in H. simplify_eq.
    cbn [enc]. rewrite !val_of by byte_arith. rewrite (IH rest eq_refl). cbn [app].
    repeat f_equal; byte_arith.
Qed.

Lemma enc_length b : Z.of_nat (length (enc b)) = (4 * Z.of_nat (length b) + 2) / 3.
Proof.
  induction b as [|b0|b0 b1|b0 b1 b2 r IH] using three_ind; [done|done|done|].
  cbn [enc app length]. rewrite !Nat2Z.inj_succ, IH. byte_arith.
Qed.

Lemma enc_alphabet b c : c ∈ enc b -> b64_alphabet c = true.
Proof.
  induction b as [|b0|b0 b1|b0 b1 b2 r IH] using three_ind; bounds; cbn [enc app].
  - by intros ?%not_elem_of_nil.
  - rewrite !elem_of_cons, elem_of_nil. intros [->|[->|[]]]; apply sextet_char_alphabet; byte_arith.
  - rewrite !elem_of_cons, elem_of_nil. intros [->|[->|[->|[]]]]; apply sextet_char_alphabet; byte_arith.
  - rewrite !elem_of_cons. intros [->|[->|[->|[->|Hr]]]]; [..|by apply IH];
      apply sextet_char_alphabet; byte_arith.
Qed.
End Base64.

#[export] Instance base64_lib : Base64Lib := {|
  b64_encode b := str_of_bytes (Base64.enc b);
  b64_decode s := Base64.dec (as_bytes s)
|}.

#[export] Instance base64_laws : Base64Laws.
Proof.
  split; cbn [b64_encode b64_decode base64_lib].
  - intros b. by rewrite as_of_str_bytes, Base64.dec_enc.
  - intros s b H%Base64.enc_dec. by rewrite H, str_of_as_bytes.
  - intros b c. rewrite as_of_str_bytes. apply Base64.enc_alphabet.
  - intros b. unfold str_len. rewrite <-length_as_bytes, as_of_str_bytes. apply Base64.enc_length.
Qed.

(** A codec for any countable message type: the bits of its code. *)
Fixpoint pos_to_bytes (p : positive) : bytes :=
  match p with
  | xH => []
  | xO p' => "000"%char :: pos_to_bytes p'
  | xI p' => "001"%char :: pos_to_bytes p'
  end.
Fixpoint bytes_to_pos (b : bytes) : option positive :=
  match b with
  | [] => Some xH
  | c :: b' =>
      p ← bytes_to_pos b';
      if Ascii.eqb c "000" then Some (xO p) else if Ascii.eqb c "001" then Some (xI p) else None
  end.
Lemma bytes_to_pos_to_bytes p : bytes_to_pos (pos_to_bytes p) = Some p.
Proof. induction p as [p IH|p IH|]; simpl; [by rewrite IH|by rewrite IH|done]. Qed.

Definition countable_codec (M : Type) `{Countable M} : ProstMessage M := {|
  encode_to_vec m := pos_to_bytes (encode m);
  decode_message b := bytes_to_pos b ≫= decode
|}.
Lemma countable_codec_laws (M : Type) `{Countable M} (valid : M -> Prop) :
  @ProstLaws M (countable_codec M) valid.
Proof. split. intros m _. cbn. rewrite bytes_to_pos_to_bytes. cbn. apply countable.decode_encode. Qed.

#[export] Instance ascii_countable : Countable ascii :=
  inj_countable' N_of_ascii ascii_of_N ascii_N_embedding.

(** A hash that keeps the first 32 bytes, and signatures that carry the key
    and the message: enough to satisfy the documented equations. *)
#[export] Instance blake3_lib : Blake3Lib := {|
  blake3_hash b := take 32 (b ++ replicate 32 "000"%char)
|}.
#[export] Instance blake3_laws : Blake3Laws.
Proof.
  split. intros b. unfold len. cbn [blake3_hash blake3_lib]. rewrite length_take, length_app, length_replicate. lia.
Qed.

#[export] Instance ed25519_lib : Ed25519Lib := {|
  ed_keypair := bytes;
  ed_public k := k;
  ed_sign k m := k ++ m;
  ed_verify pk m s := bool_decide (s = pk ++ m)
|}.
#[export] Instance ed25519_laws : Ed25519Laws.
Proof. split. intros k m. cbn. by apply bool_decide_eq_true. Qed.
