(* ===== verification/Domain.v ===== *)
(** Model of [source/crates/filebelt-domain/src/lib.rs]: typed identifiers, the
    action vocabulary, generations, namespace names and logical paths, and the
    authoritative state machines. *)
From S2P Require Import Prelude Collections Libraries.

(** ** Identifiers *)

Inductive IdError := IdInvalidSyntax | IdNonCanonical | IdUnsupportedVariant | IdUnsupportedVersion.

Definition IdError_code (e : IdError) : string :=
  match e with
  | IdInvalidSyntax => "id.invalid_syntax"
  | IdNonCanonical => "id.non_canonical"
  | IdUnsupportedVariant => "id.unsupported_variant"
  | IdUnsupportedVersion => "id.unsupported_version"
  end.

Section identifiers.
Context `{UuidLib}.

Definition validate_uuid_v4 (value : Uuid) : result IdError Uuid :=
  if negb (bool_decide (uuid_get_variant value = VariantRFC4122)) then Err IdUnsupportedVariant
  else if negb (uuid_get_version_num value =? 4) then Err IdUnsupportedVersion
  else Ok value.

Definition parse_uuid_v4 (value : string) : result IdError Uuid :=
  let? parsed := ok_or IdInvalidSyntax (uuid_parse_str value) in
  if negb (bool_decide (uuid_hyphenated parsed = value)) then Err IdNonCanonical
  else validate_uuid_v4 parsed.

(** The newtypes of [define_id!] wrap the UUID; the model keeps the UUID. *)
Definition id_from_uuid (value : Uuid) : result IdError Uuid := validate_uuid_v4 value.
Definition id_from_str (value : string) : result IdError Uuid := parse_uuid_v4 value.
Definition id_to_string (id : Uuid) : string := uuid_hyphenated id.
End identifiers.

Abbreviation PrincipalId := Uuid (only parsing).
Abbreviation GroupId := Uuid (only parsing).
Abbreviation AclEntryId := Uuid (only parsing).

(** ** Actions *)

Inductive Action :=
| ReadMetadata | ListChildren | ReadContent | CreateChild | WriteContent | CreateVersion
| Rename | Move | Delete | Restore | SetAttributes | Share | ManageAcl | ManageDrive
| Transcode | UseExternalEditor | Comment | Review | UseMcp | Mount | Export | Traverse
| ReadRepository | WriteRepository | ManageRepository | BypassRepositoryRules.

Definition Action_ALL : list Action :=
  [ReadMetadata; ListChildren; ReadContent; CreateChild; WriteContent; CreateVersion;
   Rename; Move; Delete; Restore; SetAttributes; Share; ManageAcl; ManageDrive;
   Transcode; UseExternalEditor; Comment; Review; UseMcp; Mount; Export; Traverse;
   ReadRepository; WriteRepository; ManageRepository; BypassRepositoryRules].

Definition Action_as_str (a : Action) : string :=
  match a with
  | ReadMetadata => "READ_METADATA"
  | ListChildren => "LIST_CHILDREN"
  | ReadContent => "READ_CONTENT"
  | CreateChild => "CREATE_CHILD"
  | WriteContent => "WRITE_CONTENT"
  | CreateVersion => "CREATE_VERSION"
  | Rename => "RENAME"
  | Move => "MOVE"
  | Delete => "DELETE"
  | Restore => "RESTORE"
  | SetAttributes => "SET_ATTRIBUTES"
  | Share => "SHARE"
  | ManageAcl => "MANAGE_ACL"
  | ManageDrive => "MANAGE_DRIVE"
  | Transcode => "TRANSCODE"
  | UseExternalEditor => "USE_EXTERNAL_EDITOR"
  | Comment => "COMMENT"
  | Review => "REVIEW"
  | UseMcp => "USE_MCP"
  | Mount => "MOUNT"
  | Export => "EXPORT"
  | Traverse => "TRAVERSE"
  | ReadRepository => "READ_REPOSITORY"
  | WriteRepository => "WRITE_REPOSITORY"
  | ManageRepository => "MANAGE_REPOSITORY"
  | BypassRepositoryRules => "BYPASS_REPOSITORY_RULES"
  end.

(** The declaration position, which [#[derive(Ord)]] compares. *)
Definition Action_index (a : Action) : N :=
  match a with
  | ReadMetadata => 0 | ListChildren => 1 | ReadContent => 2 | CreateChild => 3
  | WriteContent => 4 | CreateVersion => 5 | Rename => 6 | Move => 7 | Delete => 8
  | Restore => 9 | SetAttributes => 10 | Share => 11 | ManageAcl => 12 | ManageDrive => 13
  | Transcode => 14 | UseExternalEditor => 15 | Comment => 16 | Review => 17 | UseMcp => 18
  | Mount => 19 | Export => 20 | Traverse => 21 | ReadRepository => 22
  | WriteRepository => 23 | ManageRepository => 24 | BypassRepositoryRules => 25
  end.

#[export] Instance Action_index_inj : Inj eq eq Action_index.
Proof. intros a b H. destruct a, b; (reflexivity || discriminate H). Qed.

#[export] Instance Action_eq_dec : EqDecision Action.
Proof.
  refine (fun a b => match decide (Action_index a = Action_index b) with
                     | left e => left (inj Action_index a b e)
                     | right n => right (fun e => n (f_equal Action_index e))
                     end).
Defined.

#[export] Instance Action_Ord : Ord Action := ord_via Action_index.
#[export] Instance Action_OrdLaws : OrdLaws Action := ord_via_laws Action_index _.

(** ** Principals, resources, owners *)

Inductive PrincipalKind :=
| PkUser | PkGroup | PkOrganization | PkService
| PkShareLink | PkMountSession | PkMcpSession | PkDocumentSession.

Definition may_own_drive (k : PrincipalKind) : bool :=
  match k with
  | PkUser | PkGroup | PkOrganization | PkService => true
  | _ => false
  end.

Inductive ResourceId :=
| RTenant (id : Uuid) | RGroup (id : Uuid) | RDrive (id : Uuid) | RNode (id : Uuid)
| RFileVersion (id : Uuid) | RUploadSession (id : Uuid) | RShareLink (id : Uuid).
#[export] Instance ResourceId_eq_dec : EqDecision ResourceId.
Proof. solve_decision. Defined.

Inductive DriveOwner :=
| OwnerUser (p : PrincipalId) | OwnerGroup (g : GroupId)
| OwnerOrganization (p : PrincipalId) | OwnerService (p : PrincipalId).

Inductive GroupRole := Member | Manager.
#[export] Instance GroupRole_eq_dec : EqDecision GroupRole.
Proof. solve_decision. Defined.
Definition GroupRole_index (r : GroupRole) : N := match r with Member => 0 | Manager => 1 end.
#[export] Instance GroupRole_index_inj : Inj eq eq GroupRole_index.
Proof. intros a b H. destruct a, b; (reflexivity || discriminate H). Qed.
#[export] Instance GroupRole_Ord : Ord GroupRole := ord_via GroupRole_index.
#[export] Instance GroupRole_OrdLaws : OrdLaws GroupRole := ord_via_laws GroupRole_index _.

(** ** Generations and sizes: newtypes over [u64] *)

Definition Generation_INITIAL : Z := 0.
Definition Generation_checked_next (g : Z) : option Z := checked_add_u64 g 1.

Record GenerationSnapshot := mkSnapshot {
  resource_acl : Z;
  membership : Z;
  namespace : Z
}.
#[export] Instance GenerationSnapshot_eq_dec : EqDecision GenerationSnapshot.
Proof. solve_decision. Defined.

Definition ByteCount_checked_add (a b : Z) : option Z := checked_add_u64 a b.

(** ** Namespace names *)

Definition MAX_NAME_BYTES : Z := 255.
Definition MAX_PATH_BYTES : Z := 4096.
Definition MAX_PATH_COMPONENTS : Z := 128.

Inductive NameError :=
| NameEmpty | NameDotComponent | NameForbiddenCharacter
| NameTrailingSpaceOrDot | NameReservedDeviceName | NameTooLong.

Definition NameError_code (e : NameError) : string :=
  match e with
  | NameEmpty => "name.empty"
  | NameDotComponent => "name.dot_component"
  | NameForbiddenCharacter => "name.forbidden_character"
  | NameTrailingSpaceOrDot => "name.trailing_space_or_dot"
  | NameReservedDeviceName => "name.reserved_device"
  | NameTooLong => "name.too_long"
  end.

Record NormalizedName := mkName { display : string; comparison_key : string }.
#[export] Instance NormalizedName_eq_dec : EqDecision NormalizedName.
Proof. solve_decision. Defined.

Definition is_forbidden_name_character (c : byte) : bool :=
  is_ascii_control c
  || existsb (Ascii.eqb c)
       ["/"%char; "\"%char; "<"%char; ">"%char; ":"%char; "034"%char; "|"%char; "?"%char; "*"%char].

Definition is_windows_device_name (value : string) : bool :=
  let basename := match split_char "."%char value with b :: _ => b | [] => value end in
  if existsb (fun reserved => eq_ignore_ascii_case (as_bytes basename) (as_bytes reserved))
       ["CON"; "PRN"; "AUX"; "NUL"]
  then true
  else
    let b := as_bytes basename in
    match b with
    | [b0; b1; b2; b3] =>
        let upper := to_ascii_uppercase b0 in
        (Ascii.eqb upper "C"%char || Ascii.eqb upper "L"%char)
        && (if Ascii.eqb upper "C"%char then eq_ignore_ascii_case [b1; b2] (as_bytes "OM")
            else if Ascii.eqb upper "L"%char then eq_ignore_ascii_case [b1; b2] (as_bytes "PT")
            else false)
        && ((49 <=? byte_val b3) && (byte_val b3 <=? 57))
    | _ => false
    end.

(** [value.ends_with([' ', '.'])]. *)
Definition ends_with_space_or_dot (value : string) : bool :=
  match last (as_bytes value) with
  | Some c => Ascii.eqb c " "%char || Ascii.eqb c "."%char
  | None => false
  end.

Definition validate_display_name (value : string) : result NameError unit :=
  if bool_decide (value = "") then Err NameEmpty
  else if bool_decide (value = ".") || bool_decide (value = "..") then Err NameDotComponent
  else if ends_with_space_or_dot value then Err NameTrailingSpaceOrDot
  else if existsb is_forbidden_name_character (as_bytes value) then Err NameForbiddenCharacter
  else if MAX_NAME_BYTES <? str_len value then Err NameTooLong
  else if is_windows_device_name value then Err NameReservedDeviceName
  else Ok tt.

Definition NormalizedName_new `{UnicodeLib} (value : string) : result NameError NormalizedName :=
  let d := nfc value in
  let? _ := validate_display_name d in
  Ok {| display := d; comparison_key := default_case_fold d |}.

(** ** Logical paths *)

Inductive PathError :=
| PathNotAbsolute | PathEmptyComponent | PathTooManyComponents | PathTooLong
| PathInvalidComponent (index : Z) (source : NameError).

Definition PathError_code (e : PathError) : string :=
  match e with
  | PathNotAbsolute => "path.not_absolute"
  | PathEmptyComponent => "path.empty_component"
  | PathTooManyComponents => "path.too_many_components"
  | PathTooLong => "path.too_long"
  | PathInvalidComponent _ _ => "path.invalid_component"
  end.

Record LogicalPath := mkPath { components : list NormalizedName }.

Definition path_root : LogicalPath := {| components := [] |}.

Definition absolute_path_len (cs : list NormalizedName) : Z :=
  1 + foldr Z.add 0 (map (fun c => str_len (display c)) cs) + Z.max 0 (len cs - 1).

Definition validate_path_limits (cs : list NormalizedName) : result PathError unit :=
  if MAX_PATH_COMPONENTS <? len cs then Err PathTooManyComponents
  else if MAX_PATH_BYTES <? absolute_path_len cs then Err PathTooLong
  else Ok tt.

Definition from_components (cs : list NormalizedName) : result PathError LogicalPath :=
  let? _ := validate_path_limits cs in Ok {| components := cs |}.

Definition is_root (p : LogicalPath) : bool := bool_decide (length (components p) = 0%nat).
Definition file_name (p : LogicalPath) : option NormalizedName := last (components p).
Definition path_parent (p : LogicalPath) : option LogicalPath :=
  match components p with
  | [] => None
  | cs => Some {| components := removelast cs |}
  end.
Definition path_join (p : LogicalPath) (c : NormalizedName) : result PathError LogicalPath :=
  from_components (components p ++ [c]).
Definition display_len_bytes (p : LogicalPath) : Z := absolute_path_len (components p).

(** [Display for LogicalPath]: a separator before every component but the first. *)
Fixpoint write_components (index : nat) (cs : list NormalizedName) : string :=
  match cs with
  | [] => ""
  | c :: cs' => (if Nat.ltb 0 index then "/" else "") +:+ display c +:+ write_components (S index) cs'
  end.
Definition path_to_string (p : LogicalPath) : string := "/" +:+ write_components 0 (components p).

Section paths.
Context `{UnicodeLib}.

Fixpoint parse_components (index : nat) (vs : list string) : result PathError (list NormalizedName) :=
  match vs with
  | [] => Ok []
  | v :: vs' =>
      let? c := map_err (PathInvalidComponent (Z.of_nat index)) (NormalizedName_new v) in
      let? cs := parse_components (S index) vs' in
      Ok (c :: cs)
  end.

Definition path_from_str (value : string) : result PathError LogicalPath :=
  match strip_prefix "/" value with
  | None => Err PathNotAbsolute
  | Some remainder =>
      if bool_decide (remainder = "") then Ok path_root
      else if existsb (fun s => bool_decide (s = "")) (split_char "/"%char remainder)
      then Err PathEmptyComponent
      else
        let? cs := parse_components 0 (split_char "/"%char remainder) in
        from_components cs
  end.
End paths.

(** ** State machines ([define_state!]) *)

Inductive NodeState := NodeActive | NodeTrashed | NodePurgePending | NodePurged.
Definition NodeState_can (s t : NodeState) : bool :=
  match s, t with
  | NodeActive, NodeTrashed => true
  | NodeTrashed, (NodeActive | NodePurgePending) => true
  | NodePurgePending, NodePurged => true
  | _, _ => false
  end.

Inductive UploadState :=
| UploadCreated | UploadReceiving | UploadFinalizing | UploadFinalized
| UploadCommitted | UploadAborted | UploadExpired.
Definition UploadState_can (s t : UploadState) : bool :=
  match s, t with
  | UploadCreated, (UploadReceiving | UploadAborted | UploadExpired) => true
  | UploadReceiving, (UploadFinalizing | UploadAborted | UploadExpired) => true
  | UploadFinalizing, (UploadFinalized | UploadAborted) => true
  | UploadFinalized, (UploadCommitted | UploadAborted) => true
  | _, _ => false
  end.

Inductive PayloadState :=
| PayloadStaged | PayloadFinalized | PayloadReferenced
| PayloadDeletionPending | PayloadQuarantined | PayloadDeleted.
Definition PayloadState_can (s t : PayloadState) : bool :=
  match s, t with
  | PayloadStaged, (PayloadFinalized | PayloadDeletionPending | PayloadQuarantined) => true
  | PayloadFinalized, (PayloadReferenced | PayloadDeletionPending | PayloadQuarantined) => true
  | PayloadReferenced, (PayloadDeletionPending | PayloadQuarantined) => true
  | PayloadDeletionPending, (PayloadDeleted | PayloadQuarantined) => true
  | PayloadQuarantined, PayloadDeletionPending => true
  | _, _ => false
  end.

Inductive FileVersionState := VersionStaging | VersionCommitted | VersionAborted.
Definition FileVersionState_can (s t : FileVersionState) : bool :=
  match s, t with
  | VersionStaging, (VersionCommitted | VersionAborted) => true
  | _, _ => false
  end.

Inductive JobState := JobPending | JobRunning | JobRetryable | JobOperatorBlocked | JobSucceeded.
Definition JobState_can (s t : JobState) : bool :=
  match s, t with
  | JobPending, JobRunning => true
  | JobRunning, (JobSucceeded | JobRetryable | JobOperatorBlocked) => true
  | JobRetryable, (JobRunning | JobOperatorBlocked) => true
  | JobOperatorBlocked, JobPending => true
  | _, _ => false
  end.

(** A history of a machine: the states it went through, each step permitted. *)
Inductive history {S : Type} (can : S -> S -> bool) : S -> list S -> S -> Prop :=
| history_refl s : history can s [s] s
| history_step s t u l : can s t = true -> history can t l u -> history can s (s :: l) u.

(** ** Lemmas *)

Section identifier_lemmas.
Context `{UuidLib} `{!UuidLaws}.

Lemma validate_uuid_v4_Ok u v :
  validate_uuid_v4 u = Ok v <->
  v = u /\ uuid_get_variant u = VariantRFC4122 /\ uuid_get_version_num u = 4.
Proof.
  unfold validate_uuid_v4.
  destruct (bool_decide _) eqn:H1; [|breflect; naive_solver].
  destruct (_ =? _) eqn:H2; simpl; breflect; naive_solver.
Qed.
End identifier_lemmas.

Section name_lemmas.
Context `{UnicodeLib} `{!UnicodeLaws}.

(** What the namespace policy promises of an accepted display name. *)
Definition name_policy (d : string) : Prop :=
  d <> "" /\ d <> "." /\ d <> ".." /\
  Forall (fun c => is_forbidden_name_character c = false) (as_bytes d) /\
  last (as_bytes d) <> Some " "%char /\ last (as_bytes d) <> Some "."%char /\
  str_len d <= MAX_NAME_BYTES /\ is_windows_device_name d = false.

Lemma existsb_false {A} (f : A -> bool) l :
  existsb f l = false <-> Forall (fun x => f x = false) l.
Proof.
  induction l as [|x l IH]; simpl; [split; [constructor|done]|].
  rewrite orb_false_iff, IH, Forall_cons. done.
Qed.

Lemma ends_with_false d :
  ends_with_space_or_dot d = false <->
  last (as_bytes d) <> Some " "%char /\ last (as_bytes d) <> Some "."%char.
Proof.
  unfold ends_with_space_or_dot. destruct (last (as_bytes d)) as [c|]; [|naive_solver].
  rewrite orb_false_iff, !Ascii.eqb_neq. naive_solver.
Qed.

Lemma validate_display_name_Ok d : validate_display_name d = Ok tt <-> name_policy d.
Proof.
  unfold validate_display_name, name_policy. rewrite <-existsb_false.
  pose proof (ends_with_false d) as He. split.
  - intros Hv. repeat (case_match; try done). breflect. naive_solver.
  - intros (H1 & H2 & H3 & H4 & H5 & H6 & H7 & H8).
    rewrite !bool_decide_eq_false_2 by done. simpl.
    rewrite (proj2 He) by done. rewrite H4, (proj2 (Z.ltb_ge _ _)), H8 by done. done.
Qed.

Lemma NormalizedName_new_Ok v n :
  NormalizedName_new v = Ok n <->
  n = {| display := nfc v; comparison_key := default_case_fold (nfc v) |} /\ name_policy (nfc v).
Proof.
  unfold NormalizedName_new. rewrite <-validate_display_name_Ok.
  destruct (validate_display_name (nfc v)) as [[]|e]; naive_solver.
Qed.

Lemma name_new_display v n : NormalizedName_new v = Ok n -> NormalizedName_new (display n) = Ok n.
Proof.
  rewrite !NormalizedName_new_Ok. intros [-> Hp]. simpl. by rewrite nfc_idempotent.
Qed.

Lemma name_policy_no_slash d : name_policy d -> char_free "/"%char d.
Proof.
  intros (_ & _ & _ & Hf & _) Hin. rewrite Forall_forall in Hf.
  by specialize (Hf _ Hin).
Qed.

Lemma name_display_policy n : NormalizedName_new (display n) = Ok n -> name_policy (display n).
Proof.
  rewrite NormalizedName_new_Ok. intros [-> Hp]. simpl in *. by rewrite nfc_idempotent in Hp.
Qed.
End name_lemmas.

Section path_lemmas.
Context `{UnicodeLib} `{!UnicodeLaws}.

(** The invariant of every path value: normalized components within limits. *)
Definition path_wf (p : LogicalPath) : Prop :=
  Forall (fun c => NormalizedName_new (display c) = Ok c) (components p) /\
  validate_path_limits (components p) = Ok tt.

Lemma from_components_Ok cs p :
  from_components cs = Ok p <-> p = {| components := cs |} /\ validate_path_limits cs = Ok tt.
Proof. unfold from_components. destruct (validate_path_limits cs) as [[]|]; naive_solver. Qed.

Lemma write_components_pos n cs : write_components (S n) cs = write_components 1 cs.
Proof.
  revert n. induction cs as [|c cs IH]; intros n; simpl; [done|].
  by rewrite (IH (S n)), (IH 1%nat).
Qed.

Lemma write_components_S n cs :
  write_components (S n) cs =
  match cs with [] => "" | _ => "/" +:+ write_components 0 cs end.
Proof. destruct cs as [|c cs]; simpl; [done|]. by rewrite (write_components_pos (S n)). Qed.

Lemma write_components_join cs :
  write_components 0 cs = join_char "/"%char (map display cs).
Proof.
  induction cs as [|c cs IH]; simpl; [done|]. rewrite write_components_S, IH.
  destruct cs as [|c' cs]; simpl; [apply str_app_nil_r|]. done.
Qed.

Lemma str_len_app s t : str_len (s +:+ t) = str_len s + str_len t.
Proof. unfold str_len. rewrite str_length_app. lia. Qed.

Lemma str_len_cons c s : str_len (String c s) = 1 + str_len s.
Proof. unfold str_len. simpl. lia. Qed.

Lemma len_cons {A} (x : A) l : len (x :: l) = 1 + len l.
Proof. unfold len. simpl. lia. Qed.

Lemma join_char_len c ps :
  ps <> [] -> str_len (join_char c ps) = foldr Z.add 0 (map str_len ps) + (len ps - 1).
Proof.
  induction ps as [|p ps IH]; [done|]. intros _. destruct ps as [|q ps].
  - simpl. unfold len. simpl. lia.
  - change (join_char c (p :: q :: ps)) with (p +:+ String c (join_char c (q :: ps))).
    rewrite str_len_app, str_len_cons, IH by done.
    change (foldr Z.add 0 (map str_len (p :: q :: ps)))
      with (str_len p + foldr Z.add 0 (map str_len (q :: ps))).
    rewrite (len_cons p (q :: ps)). lia.
Qed.

Lemma display_len_correct p : str_len (path_to_string p) = display_len_bytes p.
Proof.
  unfold path_to_string, display_len_bytes, absolute_path_len. destruct p as [cs]; simpl.
  change (String "/" (write_components 0 cs)) with ("/" +:+ write_components 0 cs).
  rewrite str_len_app, write_components_join. change (str_len "/") with 1.
  destruct cs as [|c cs]; [done|].
  rewrite join_char_len by done. rewrite map_map.
  replace (len (map display (c :: cs))) with (len (c :: cs))
    by (unfold len; by rewrite length_map).
  rewrite len_cons. pose proof (len_nonneg cs). lia.
Qed.

Lemma parse_components_display n cs :
  Forall (fun c => NormalizedName_new (display c) = Ok c) cs ->
  parse_components n (map display cs) = Ok cs.
Proof.
  intros Hcs. revert n. induction Hcs as [|c cs Hc Hcs IH]; intros n; simpl; [done|].
  rewrite Hc. simpl. by rewrite IH.
Qed.

Lemma parse_components_Ok n vs cs :
  parse_components n vs = Ok cs -> Forall (fun c => NormalizedName_new (display c) = Ok c) cs.
Proof.
  revert n cs; induction vs as [|v vs IH]; intros n cs; simpl; [naive_solver|].
  destruct (NormalizedName_new v) as [c|e] eqn:Hc; simpl; [|done].
  destruct (parse_components (S n) vs) as [cs'|] eqn:Hcs; [|done]. intros [= <-].
  constructor; [by eapply name_new_display|by eapply IH].
Qed.

Lemma path_round_trip p : path_wf p -> path_from_str (path_to_string p) = Ok p.
Proof.
  destruct p as [cs]. intros [Hcs Hlim]; simpl in *.
  unfold path_from_str, path_to_string; simpl. rewrite write_components_join.
  destruct cs as [|c cs]; [done|].
  assert (Forall (char_free "/"%char) (map display (c :: cs))) as Hfree.
  { apply Forall_map. eapply Forall_impl; [done|]. intros x Hx. cbn.
    by apply name_policy_no_slash, name_display_policy. }
  assert (Forall (fun d => d <> "") (map display (c :: cs))) as Hne.
  { apply Forall_map. eapply Forall_impl; [done|]. intros x Hx.
    by apply name_display_policy in Hx as [? _]. }
  rewrite split_join_char by done.
  rewrite bool_decide_eq_false_2.
  2:{ apply Forall_cons in Hne as [Hne _]. simpl in Hne. simpl.
      destruct cs; simpl; [done|]. by destruct (display c). }
  rewrite (proj2 (existsb_false _ _)).
  2:{ eapply Forall_impl; [done|]. intros x Hx. by apply bool_decide_eq_false_2. }
  rewrite parse_components_display by done. by apply from_components_Ok.
Qed.

Lemma path_from_str_wf v p : path_from_str v = Ok p -> path_wf p.
Proof.
  unfold path_from_str. intros Hp.
  destruct (strip_prefix "/" v) as [r|]; [|done].
  case_match; [simplify_eq; split; [constructor|done]|].
  case_match; [done|].
  destruct (parse_components 0 _) as [cs|] eqn:Hcs; [|done].
  apply from_components_Ok in Hp as [-> Hlim]. split; [|done]. by eapply parse_components_Ok.
Qed.

Lemma validate_path_limits_Ok cs :
  validate_path_limits cs = Ok tt <->
  len cs <= MAX_PATH_COMPONENTS /\ absolute_path_len cs <= MAX_PATH_BYTES.
Proof. unfold validate_path_limits. repeat case_match; breflect; naive_solver lia. Qed.

Lemma validate_path_limits_removelast cs :
  validate_path_limits cs = Ok tt -> validate_path_limits (removelast cs) = Ok tt.
Proof.
  rewrite !validate_path_limits_Ok. intros [H1 H2].
  destruct cs as [|c0 cs0] eqn:Hcs; [done|]. rewrite <-Hcs in *.
  assert (cs <> []) as Hne by (by subst). clear Hcs c0 cs0.
  pose proof (app_removelast_last {| display := ""; comparison_key := "" |} Hne) as Hs.
  remember (removelast cs) as init eqn:Hi. remember (List.last cs _) as l eqn:Hl.
  clear Hi Hl Hne. subst cs. unfold absolute_path_len in *.
  rewrite map_app, foldr_app, len_app in *. simpl in *. unfold len in *. simpl in *.
  assert (forall z xs, foldr Z.add z xs = foldr Z.add 0 xs + z) as Hf.
  { intros z xs. induction xs as [|x xs IH]; simpl; lia. }
  rewrite Hf in H2. unfold str_len in *. lia.
Qed.

Lemma path_parent_wf p q : path_wf p -> path_parent p = Some q -> path_wf q.
Proof.
  destruct p as [cs]. intros [Hcs Hlim]; simpl in *. unfold path_parent; simpl.
  destruct cs as [|c cs]; [done|]. intros [= <-].
  split; [|by apply (validate_path_limits_removelast (c :: cs))].
  cbn [components]. rewrite Forall_forall in *. intros x Hx. apply Hcs.
  rewrite (app_removelast_last c (l:=c :: cs)) by done. set_solver.
Qed.

Lemma path_join_wf p v c q :
  path_wf p -> NormalizedName_new v = Ok c -> path_join p c = Ok q -> path_wf q.
Proof.
  intros [Hcs _] Hc [-> Hlim]%from_components_Ok. split; [|done]. simpl.
  apply Forall_app. split; [done|]. repeat constructor. by eapply name_new_display.
Qed.
End path_lemmas.

(** ** Properties *)

Section domain_properties.
Context `{UuidLib} `{!UuidLaws} `{UnicodeLib} `{!UnicodeLaws}.

(** parsing a typed identifier accepts exactly the canonical lowercase
    hyphenated rendering of a 128-bit RFC 4122 version 4 UUID, and gives that
    UUID back: no other spelling of the same identifier is admitted. *)
Theorem id_from_str_canonical s u :
  id_from_str s = Ok u <->
  is_uuid u /\ s = id_to_string u /\
  uuid_get_variant u = VariantRFC4122 /\ uuid_get_version_num u = 4.
Proof.
  unfold id_from_str, parse_uuid_v4, id_to_string. split.
  - destruct (uuid_parse_str s) as [v|] eqn:Hs; simpl; [|done].
    destruct (bool_decide _) eqn:Hh; simpl; [|done].
    rewrite validate_uuid_v4_Ok. intros (-> & Hv). breflect.
    split; [by eapply uuid_parse_bound|]. by subst.
  - intros (Hu & -> & Hv). rewrite uuid_parse_hyphenated by done. simpl.
    rewrite bool_decide_eq_true_2 by done. simpl. by apply validate_uuid_v4_Ok.
Qed.

(** a name accepted by [NormalizedName::new] satisfies the whole namespace
    policy after normalization, and normalizing its display form again gives
    the same name: validation and comparison key are stable. *)
Theorem normalized_name_policy v n :
  NormalizedName_new v = Ok n ->
  display n = nfc v /\ name_policy (display n) /\
  comparison_key n = default_case_fold (display n) /\
  NormalizedName_new (display n) = Ok n.
Proof.
  intros Hn. pose proof (name_new_display _ _ Hn) as Hd.
  apply NormalizedName_new_Ok in Hn as [-> Hp]. naive_solver.
Qed.

(** Every path built by the public constructors and operations (parsing,
    the root, joining a normalized component, taking the parent) has normalized
    components, at most 128 of them, and an absolute rendering of at most 4096
    bytes. *)
Theorem logical_path_invariant :
  path_wf path_root /\
  (forall v p, path_from_str v = Ok p -> path_wf p) /\
  (forall p v c q, path_wf p -> NormalizedName_new v = Ok c -> path_join p c = Ok q -> path_wf q) /\
  (forall p q, path_wf p -> path_parent p = Some q -> path_wf q) /\
  (forall p, path_wf p ->
     len (components p) <= MAX_PATH_COMPONENTS /\ str_len (path_to_string p) <= MAX_PATH_BYTES).
Proof.
  split; [by split; [constructor|]|]. split; [apply path_from_str_wf|].
  split; [apply path_join_wf|]. split; [apply path_parent_wf|].
  intros p [_ Hlim%validate_path_limits_Ok]. by rewrite display_len_correct.
Qed.

(** printing a path built from normalized components and parsing it gives
    the same path back. *)
Theorem logical_path_round_trip cs p :
  Forall (fun c => exists v, NormalizedName_new v = Ok c) cs ->
  from_components cs = Ok p ->
  path_from_str (path_to_string p) = Ok p.
Proof.
  intros Hcs [-> Hlim]%from_components_Ok. apply path_round_trip. split; [|done].
  eapply Forall_impl; [done|]. intros c [v Hv]. by eapply name_new_display.
Qed.
End domain_properties.

Import Concrete.

(** Witness: the path of two plain components below the root. *)
Lemma logical_path_round_trip_witness :
  path_from_str (path_to_string
    {| components := [{| display := "Docs"; comparison_key := "docs" |};
                      {| display := "a.txt"; comparison_key := "a.txt" |}] |})
  = Ok {| components := [{| display := "Docs"; comparison_key := "docs" |};
                         {| display := "a.txt"; comparison_key := "a.txt" |}] |}.
Proof.
  apply (logical_path_round_trip
    [{| display := "Docs"; comparison_key := "docs" |};
     {| display := "a.txt"; comparison_key := "a.txt" |}]).
  - repeat constructor; [by exists "Docs"|by exists "a.txt"].
  - reflexivity.
Defined.

(** Witness: a mixed-case name is accepted with its folded key. *)
Lemma normalized_name_policy_witness :
  NormalizedName_new (display {| display := "Docs"; comparison_key := "docs" |})
  = Ok {| display := "Docs"; comparison_key := "docs" |}.
Proof.
  apply (normalized_name_policy "Docs" {| display := "Docs"; comparison_key := "docs" |}).
  reflexivity.
Defined.

(** Witness: the root, and a parsed path, satisfy the invariant. *)
Lemma logical_path_invariant_witness :
  path_wf path_root /\
  exists p, path_from_str "/Docs/a.txt" = Ok p /\ path_wf p.
Proof.
  split; [apply logical_path_invariant|].
  eexists. split; [vm_compute; reflexivity|].
  refine (proj1 (proj2 logical_path_invariant) "/Docs/a.txt" _ _).
  vm_compute. reflexivity.
Defined.

(** Witness: a version 4 identifier parses from its canonical text. *)
Lemma id_from_str_canonical_witness :
  exists u, id_from_str "11111111-1111-4111-8111-111111111111" = Ok u /\
  "11111111-1111-4111-8111-111111111111" = id_to_string u.
Proof.
  eexists. split; [vm_compute; reflexivity|].
  refine (proj1 (proj2 (proj1 (id_from_str_canonical "11111111-1111-4111-8111-111111111111" _) _))).
  vm_compute. reflexivity.
Defined.

Section machine_lemmas.
Lemma history_terminal {S} (can : S -> S -> bool) s l u :
  (forall t, can s t = false) -> history can s l u -> u = s.
Proof. intros Hs. inversion 1 as [|? t ?? Hc]; subst; [done|]. by rewrite Hs in Hc. Qed.

(** A set of states closed under the transitions is never left. *)
Lemma history_closed {S} (can : S -> S -> bool) (P : S -> Prop) s l u :
  (forall a b, P a -> can a b = true -> P b) -> P s -> history can s l u -> P u.
Proof. intros Hc Hs Hh. induction Hh; eauto. Qed.

Lemma upload_commit_history l :
  history UploadState_can UploadCreated l UploadCommitted ->
  l = [UploadCreated; UploadReceiving; UploadFinalizing; UploadFinalized; UploadCommitted].
Proof.
  assert (forall s l, history UploadState_can s l UploadCommitted ->
            s <> UploadAborted /\ s <> UploadExpired /\
            (s = UploadCommitted -> l = [UploadCommitted])) as Hd.
  { intros s k Hk. repeat split; intros ->; inversion Hk as [|? t ?? Hc]; subst; try done;
      by destruct t. }
  intros Hl.
  inversion Hl as [|? t1 ? l1 Hc1 H1]; subst. destruct t1; try done; try (destruct (Hd _ _ H1) as (? & ? & Hl'); congruence).
  inversion H1 as [|? t2 ? l2 Hc2 H2]; subst. destruct t2; try done; try (destruct (Hd _ _ H2) as (? & ? & Hl'); congruence).
  inversion H2 as [|? t3 ? l3 Hc3 H3]; subst. destruct t3; try done; try (destruct (Hd _ _ H3) as (? & ? & Hl'); congruence).
  inversion H3 as [|? t4 ? l4 Hc4 H4]; subst. destruct t4; try done; destruct (Hd _ _ H4) as (? & ? & Hl'); [by rewrite Hl'|congruence].
Qed.

Definition payload_leaving (s : PayloadState) : Prop :=
  s = PayloadDeletionPending \/ s = PayloadQuarantined \/ s = PayloadDeleted.

Lemma payload_leaving_closed l s u :
  payload_leaving s -> history PayloadState_can s l u -> payload_leaving u.
Proof.
  intros Hs. apply history_closed; [|done].
  intros a b Ha Hc. unfold payload_leaving in *. destruct a, b; naive_solver.
Qed.

Lemma payload_reference_history l :
  history PayloadState_can PayloadStaged l PayloadReferenced ->
  l = [PayloadStaged; PayloadFinalized; PayloadReferenced].
Proof.
  assert (forall s l, history PayloadState_can s l PayloadReferenced -> ~ payload_leaving s) as Hd.
  { intros s k Hk Hs. apply (payload_leaving_closed _ _ _ Hs) in Hk.
    unfold payload_leaving in Hk. naive_solver. }
  intros Hl.
  inversion Hl as [|? t1 ? l1 Hc1 H1]; subst.
  destruct t1; try done; try (apply Hd in H1; unfold payload_leaving in H1; naive_solver).
  inversion H1 as [|? t2 ? l2 Hc2 H2]; subst.
  destruct t2; try done; try (apply Hd in H2; unfold payload_leaving in H2; naive_solver).
  inversion H2 as [|? t3 ? l3 Hc3 H3]; subst; [done|].
  destruct t3; try done; apply Hd in H3; unfold payload_leaving in H3; naive_solver.
Qed.

Lemma node_purge_history l :
  history NodeState_can NodeActive l NodePurged ->
  exists l', l = l' ++ [NodeTrashed; NodePurgePending; NodePurged].
Proof.
  assert (forall s u l, history NodeState_can s l u -> u = NodePurged ->
    match s with
    | NodeActive | NodeTrashed => exists l', l = l' ++ [NodeTrashed; NodePurgePending; NodePurged]
    | NodePurgePending => l = [NodePurgePending; NodePurged]
    | NodePurged => l = [NodePurged]
    end) as Hind.
  { induction 1 as [s|s t u k Hc Hk IH]; intros ->; [done|]. specialize (IH eq_refl).
    destruct s, t; try done; try (by rewrite IH).
    - destruct IH as [l' ->]. by exists (NodeActive :: l').
    - destruct IH as [l' ->]. by exists (NodeTrashed :: l').
    - rewrite IH. by exists []. }
  intros Hl. by apply (Hind _ _ _ Hl).
Qed.
End machine_lemmas.

(** the state machines force the order of their stages: an upload reaches
    [Committed] only through receiving, finalizing and finalized; a payload
    reaches [Referenced] only through [Finalized]; a purged node went through
    the trash; and nothing leaves a terminal state. *)
Theorem state_machine_histories :
  (forall l, history UploadState_can UploadCreated l UploadCommitted ->
     l = [UploadCreated; UploadReceiving; UploadFinalizing; UploadFinalized; UploadCommitted]) /\
  (forall l, history PayloadState_can PayloadStaged l PayloadReferenced ->
     l = [PayloadStaged; PayloadFinalized; PayloadReferenced]) /\
  (forall l, history NodeState_can NodeActive l NodePurged ->
     exists l', l = l' ++ [NodeTrashed; NodePurgePending; NodePurged]) /\
  (forall l s, history UploadState_can UploadCommitted l s -> s = UploadCommitted) /\
  (forall l s, history PayloadState_can PayloadDeleted l s -> s = PayloadDeleted) /\
  (forall l s, history FileVersionState_can VersionCommitted l s -> s = VersionCommitted) /\
  (forall l s, history JobState_can JobSucceeded l s -> s = JobSucceeded).
Proof.
  split; [apply upload_commit_history|]. split; [apply payload_reference_history|].
  split; [apply node_purge_history|].
  repeat split; intros l s Hs; refine (history_terminal _ _ _ _ _ Hs); by intros [].
Qed.
