(* ===== verification/Authz.v ===== *)
(** Model of [source/crates/filebelt-authz/src/lib.rs], the plain evaluator:
    ACL entries, principal contexts, [evaluate], permission presets and
    delegation.  The recursive-share evaluator of the same file is in
    [ShareGraph]. *)
From S2P Require Import Prelude Collections Libraries Domain.

Inductive Effect := Allow | Deny.
#[export] Instance Effect_eq_dec : EqDecision Effect.
Proof. solve_decision. Defined.

Inductive Inheritance := ThisResource | Children | Descendants.
#[export] Instance Inheritance_eq_dec : EqDecision Inheritance.
Proof. solve_decision. Defined.

Definition applies_at (i : Inheritance) (distance : Z) : bool :=
  (distance =? 0)
  || match i with
     | ThisResource => false
     | Children => distance =? 1
     | Descendants => true
     end.

Record AclEntry := mkEntry {
  entry_id : AclEntryId;
  entry_resource : ResourceId;
  entry_principal : PrincipalId;
  entry_action : Action;
  entry_effect : Effect;
  entry_inheritance : Inheritance;
  entry_generation : Z;
  entry_created_by : PrincipalId
}.
#[export] Instance AclEntry_eq_dec : EqDecision AclEntry.
Proof. solve_decision. Defined.

Record ResolvedAclEntry := mkResolved { re_entry : AclEntry; re_distance : Z }.
#[export] Instance ResolvedAclEntry_eq_dec : EqDecision ResolvedAclEntry.
Proof. solve_decision. Defined.

Definition re_direct (e : AclEntry) : ResolvedAclEntry := {| re_entry := e; re_distance := 0 |}.
Definition re_inherited (e : AclEntry) (distance : Z) : option ResolvedAclEntry :=
  if distance =? 0 then None else Some {| re_entry := e; re_distance := distance |}.
Definition re_is_direct (r : ResolvedAclEntry) : bool := re_distance r =? 0.
Definition re_applies (r : ResolvedAclEntry) : bool :=
  applies_at (entry_inheritance (re_entry r)) (re_distance r).

Record GroupMembership := mkMembership {
  gm_group_id : GroupId;
  gm_group_principal_id : PrincipalId;
  gm_role : GroupRole
}.
#[export] Instance GroupMembership_eq_dec : EqDecision GroupMembership.
Proof. solve_decision. Defined.
Definition gm_key (m : GroupMembership) : N * (N * GroupRole) :=
  (gm_group_id m, (gm_group_principal_id m, gm_role m)).
#[export] Instance gm_key_inj : Inj eq eq gm_key.
Proof. intros [] []; unfold gm_key; naive_solver. Qed.
#[export] Instance GroupMembership_Ord : Ord GroupMembership := ord_via gm_key.
#[export] Instance GroupMembership_OrdLaws : OrdLaws GroupMembership := ord_via_laws gm_key _.

Record PrincipalContext := mkContext {
  principal_id : PrincipalId;
  memberships : list GroupMembership
}.

Definition PrincipalContext_new (p : PrincipalId) (ms : list GroupMembership) : PrincipalContext :=
  {| principal_id := p; memberships := dedup (sort_unstable ms) |}.

Definition includes_principal (c : PrincipalContext) (candidate : PrincipalId) : bool :=
  bool_decide (candidate = principal_id c)
  || existsb (fun m => bool_decide (gm_group_principal_id m = candidate)) (memberships c).

Definition manages_group (c : PrincipalContext) (g : GroupId) : bool :=
  existsb (fun m => bool_decide (gm_group_id m = g) && bool_decide (gm_role m = Manager))
    (memberships c).

Inductive DecisionReason :=
| ROwner | RGroupOwnerManager | RExplicitAllow | RInheritedAllow
| RExplicitDeny | RInheritedDeny | RNoMatchingGrant.

Definition DecisionReason_code (r : DecisionReason) : string :=
  match r with
  | ROwner => "authz.allow.owner"
  | RGroupOwnerManager => "authz.allow.group_owner_manager"
  | RExplicitAllow => "authz.allow.explicit"
  | RInheritedAllow => "authz.allow.inherited"
  | RExplicitDeny => "authz.deny.explicit"
  | RInheritedDeny => "authz.deny.inherited"
  | RNoMatchingGrant => "authz.deny.no_matching_grant"
  end.

Record AuthorizationDecision := mkDecision {
  allowed : bool;
  reason : DecisionReason;
  source_entries : list AclEntryId;
  generations : GenerationSnapshot
}.

Definition remains_valid_at (d : AuthorizationDecision) (current : GenerationSnapshot) : bool :=
  (resource_acl (generations d) =? resource_acl current)
  && (membership (generations d) =? membership current)
  && (namespace (generations d) =? namespace current).

Record AuthorizationRequest := mkRequest {
  req_principal : PrincipalContext;
  req_resource : ResourceId;
  req_drive_owner : DriveOwner;
  req_action : Action;
  req_entries : list ResolvedAclEntry;
  req_generations : GenerationSnapshot
}.

Definition implicit_owner_reason (c : PrincipalContext) (owner : DriveOwner) (a : Action)
  : option DecisionReason :=
  if decide (a = BypassRepositoryRules) then None
  else match owner with
       | OwnerUser o | OwnerOrganization o | OwnerService o =>
           if decide (o = principal_id c) then Some ROwner else None
       | OwnerGroup g => if manages_group c g then Some RGroupOwnerManager else None
       end.

Definition canonicalize_ids (ids : list AclEntryId) : list AclEntryId := dedup (sort_unstable ids).

(** The four evidence vectors of the evaluation loop. *)
Record Evidence := mkEvidence {
  direct_denies : list AclEntryId;
  inherited_denies : list AclEntryId;
  direct_allows : list AclEntryId;
  inherited_allows : list AclEntryId
}.
Definition no_evidence : Evidence := mkEvidence [] [] [] [].

(** The negation of the [continue] condition of the loop. *)
Definition entry_matches (c : PrincipalContext) (resource : ResourceId) (a : Action)
    (r : ResolvedAclEntry) : bool :=
  let e := re_entry r in
  negb (negb (bool_decide (entry_action e = a))
        || negb (includes_principal c (entry_principal e))
        || negb (re_applies r)
        || negb (Bool.eqb (re_is_direct r) (bool_decide (entry_resource e = resource)))).

(** One iteration: push the entry on the vector of its effect and directness. *)
Definition push_evidence (ev : Evidence) (r : ResolvedAclEntry) : Evidence :=
  let e := re_entry r in
  match entry_effect e, re_is_direct r with
  | Deny, true => mkEvidence (direct_denies ev ++ [entry_id e]) (inherited_denies ev)
                    (direct_allows ev) (inherited_allows ev)
  | Deny, false => mkEvidence (direct_denies ev) (inherited_denies ev ++ [entry_id e])
                     (direct_allows ev) (inherited_allows ev)
  | Allow, true => mkEvidence (direct_denies ev) (inherited_denies ev)
                     (direct_allows ev ++ [entry_id e]) (inherited_allows ev)
  | Allow, false => mkEvidence (direct_denies ev) (inherited_denies ev)
                      (direct_allows ev) (inherited_allows ev ++ [entry_id e])
  end.

Definition canonicalize_evidence (ev : Evidence) : Evidence :=
  mkEvidence (canonicalize_ids (direct_denies ev)) (canonicalize_ids (inherited_denies ev))
    (canonicalize_ids (direct_allows ev)) (canonicalize_ids (inherited_allows ev)).

Definition is_nil {A} (l : list A) : bool := match l with [] => true | _ => false end.

Definition evaluate (q : AuthorizationRequest) : AuthorizationDecision :=
  match implicit_owner_reason (req_principal q) (req_drive_owner q) (req_action q) with
  | Some r => mkDecision true r [] (req_generations q)
  | None =>
      let ev := canonicalize_evidence
        (fold_left (fun ev r =>
             if entry_matches (req_principal q) (req_resource q) (req_action q) r
             then push_evidence ev r else ev)
           (req_entries q) no_evidence) in
      if negb (is_nil (direct_denies ev)) || negb (is_nil (inherited_denies ev)) then
        mkDecision false
          (if is_nil (direct_denies ev) then RInheritedDeny else RExplicitDeny)
          (canonicalize_ids (direct_denies ev ++ inherited_denies ev)) (req_generations q)
      else if negb (is_nil (direct_allows ev)) || negb (is_nil (inherited_allows ev)) then
        mkDecision true
          (if is_nil (direct_allows ev) then RInheritedAllow else RExplicitAllow)
          (canonicalize_ids (direct_allows ev ++ inherited_allows ev)) (req_generations q)
      else mkDecision false RNoMatchingGrant [] (req_generations q)
  end.

(** ** Presets and delegation *)

Inductive PermissionPreset := PresetViewer | PresetContributor | PresetManager.

Definition VIEWER_ACTIONS : list Action :=
  [ReadMetadata; ListChildren; ReadContent; UseExternalEditor].
Definition CONTRIBUTOR_ACTIONS : list Action :=
  [ReadMetadata; ListChildren; ReadContent; CreateChild; WriteContent; CreateVersion; Rename;
   Move; Delete; Restore; SetAttributes; UseExternalEditor; Comment; Review].
Definition MANAGER_ACTIONS : list Action :=
  [ReadMetadata; ListChildren; ReadContent; CreateChild; WriteContent; CreateVersion; Rename;
   Move; Delete; Restore; SetAttributes; Share; ManageAcl; UseExternalEditor; Comment; Review].

Definition preset_actions (p : PermissionPreset) : list Action :=
  match p with
  | PresetViewer => VIEWER_ACTIONS
  | PresetContributor => CONTRIBUTOR_ACTIONS
  | PresetManager => MANAGER_ACTIONS
  end.
Definition preset_action_set (p : PermissionPreset) : list Action := bset_of_list (preset_actions p).

Inductive DelegationMode := ModeShare | ModeManageAcl.
#[export] Instance DelegationMode_eq_dec : EqDecision DelegationMode.
Proof. solve_decision. Defined.
Definition required_action (m : DelegationMode) : Action :=
  match m with ModeShare => Share | ModeManageAcl => ManageAcl end.

Inductive DelegationError :=
| MissingAuthority (a : Action)
| ActionNotHeld (a : Action)
| ShareRequiresContentPreset (a : Action).

Definition DelegationError_code (e : DelegationError) : string :=
  match e with
  | MissingAuthority _ => "authz.delegation.missing_authority"
  | ActionNotHeld _ => "authz.delegation.action_not_held"
  | ShareRequiresContentPreset _ => "authz.delegation.share_action_not_permitted"
  end.

(** The action sets are [BTreeSet]s: [find] reports the least offending action. *)
Definition validate_delegation (held requested : list Action) (mode : DelegationMode)
  : result DelegationError unit :=
  let authority := required_action mode in
  if negb (bset_contains authority held) then Err (MissingAuthority authority)
  else
    match (if decide (mode = ModeShare)
           then List.find (fun a => negb (bset_contains a (bset_of_list CONTRIBUTOR_ACTIONS))) requested
           else None) with
    | Some a => Err (ShareRequiresContentPreset a)
    | None =>
        match List.find (fun a => negb (bset_contains a held)) requested with
        | Some a => Err (ActionNotHeld a)
        | None => Ok tt
        end
    end.

(** ** Lemmas *)

Section evaluate_lemmas.
Variable c : PrincipalContext.
Variable resource : ResourceId.
Variable a : Action.

(** The entry takes part in the decision: it names the action and the actor,
    reaches the resource, and its directness agrees with its resource. *)
Definition applicable (r : ResolvedAclEntry) : Prop :=
  entry_action (re_entry r) = a /\
  includes_principal c (entry_principal (re_entry r)) = true /\
  re_applies r = true /\
  (re_distance r = 0 <-> entry_resource (re_entry r) = resource).

Lemma entry_matches_true r : entry_matches c resource a r = true <-> applicable r.
Proof.
  unfold entry_matches, applicable, re_is_direct. rewrite negb_true_iff, !orb_false_iff, !negb_false_iff.
  rewrite bool_decide_eq_true, Bool.eqb_true_iff.
  assert ((re_distance r =? 0) = bool_decide (entry_resource (re_entry r) = resource) <->
          (re_distance r = 0 <-> entry_resource (re_entry r) = resource)) as ->.
  { destruct (Z.eqb_spec (re_distance r) 0); case_bool_decide; naive_solver. }
  naive_solver.
Qed.

Definition loop (l : list ResolvedAclEntry) (ev : Evidence) : Evidence :=
  fold_left (fun ev r => if entry_matches c resource a r then push_evidence ev r else ev) l ev.

(** What one vector holds: the ids of the applicable entries of its kind. *)
Definition kind_ids (eff : Effect) (direct : bool) (l : list ResolvedAclEntry) : list N :=
  map (fun r => entry_id (re_entry r))
    (List.filter (fun r => entry_matches c resource a r
                           && bool_decide (entry_effect (re_entry r) = eff)
                           && Bool.eqb (re_is_direct r) direct) l).

Lemma loop_spec l ev :
  loop l ev = mkEvidence (direct_denies ev ++ kind_ids Deny true l)
                (inherited_denies ev ++ kind_ids Deny false l)
                (direct_allows ev ++ kind_ids Allow true l)
                (inherited_allows ev ++ kind_ids Allow false l).
Proof.
  unfold loop, kind_ids. revert ev. induction l as [|r l IH]; intros ev; simpl.
  - rewrite !app_nil_r. by destruct ev.
  - rewrite IH. destruct (entry_matches c resource a r); [|done].
    unfold push_evidence. destruct (entry_effect (re_entry r)) eqn:He, (re_is_direct r) eqn:Hd;
      simpl; by rewrite <-!app_assoc.
Qed.

Lemma elem_of_kind_ids i eff direct l :
  i ∈ kind_ids eff direct l <->
  exists r, r ∈ l /\ applicable r /\ entry_effect (re_entry r) = eff /\
            re_is_direct r = direct /\ i = entry_id (re_entry r).
Proof.
  unfold kind_ids. rewrite list_elem_of_In, in_map_iff. setoid_rewrite filter_In.
  setoid_rewrite andb_true_iff. setoid_rewrite andb_true_iff.
  setoid_rewrite entry_matches_true. setoid_rewrite bool_decide_eq_true.
  setoid_rewrite Bool.eqb_true_iff. setoid_rewrite list_elem_of_In. naive_solver.
Qed.

Lemma is_nil_true {A} (l : list A) : is_nil l = true <-> l = [].
Proof. by destruct l. Qed.

Lemma kind_ids_nil eff direct l :
  kind_ids eff direct l = [] <->
  forall r, r ∈ l -> applicable r -> entry_effect (re_entry r) = eff -> re_is_direct r <> direct.
Proof.
  split.
  - intros Hnil r Hr Ha He Hd.
    assert (entry_id (re_entry r) ∈ kind_ids eff direct l) as Hin
      by (apply elem_of_kind_ids; naive_solver).
    rewrite Hnil in Hin. by apply not_elem_of_nil in Hin.
  - intros Hall. destruct (kind_ids eff direct l) as [|i ids] eqn:Hk; [done|].
    assert (i ∈ kind_ids eff direct l) as Hin by (rewrite Hk; left).
    apply elem_of_kind_ids in Hin as (r & ? & ? & ? & ? & ?). naive_solver.
Qed.

(** The evidence of one effect: no vector of the effect is filled exactly when
    no applicable entry has the effect. *)
Lemma no_effect l eff :
  (kind_ids eff true l = [] /\ kind_ids eff false l = []) <->
  forall r, r ∈ l -> applicable r -> entry_effect (re_entry r) <> eff.
Proof.
  rewrite !kind_ids_nil. split.
  - intros [H1 H2] r Hr Ha He. specialize (H1 r Hr Ha He). specialize (H2 r Hr Ha He).
    by destruct (re_is_direct r).
  - intros Hall. split; intros r Hr Ha He; by apply Hall in He.
Qed.

Lemma canonicalize_nil ids : is_nil (canonicalize_ids ids) = is_nil ids.
Proof.
  destruct ids as [|i ids]; [done|]. simpl.
  destruct (canonicalize_ids (i :: ids)) eqn:Hc; [|done].
  by apply (proj1 (sort_dedup_nil _)) in Hc.
Qed.

Lemma canonicalize_app ids1 ids2 :
  canonicalize_ids (canonicalize_ids ids1 ++ canonicalize_ids ids2) = canonicalize_ids (ids1 ++ ids2).
Proof.
  apply sort_dedup_ext. intros x. rewrite !elem_of_app. unfold canonicalize_ids.
  by rewrite !elem_of_sort_dedup.
Qed.

End evaluate_lemmas.

(** The decision, written with the vectors of the loop in closed form. *)
Lemma evaluate_unfold q :
  let ids := kind_ids (req_principal q) (req_resource q) (req_action q) in
  evaluate q =
  match implicit_owner_reason (req_principal q) (req_drive_owner q) (req_action q) with
  | Some r => mkDecision true r [] (req_generations q)
  | None =>
      let dd := ids Deny true (req_entries q) in
      let di := ids Deny false (req_entries q) in
      let ad := ids Allow true (req_entries q) in
      let ai := ids Allow false (req_entries q) in
      if negb (is_nil dd) || negb (is_nil di) then
        mkDecision false (if is_nil dd then RInheritedDeny else RExplicitDeny)
          (canonicalize_ids (dd ++ di)) (req_generations q)
      else if negb (is_nil ad) || negb (is_nil ai) then
        mkDecision true (if is_nil ad then RInheritedAllow else RExplicitAllow)
          (canonicalize_ids (ad ++ ai)) (req_generations q)
      else mkDecision false RNoMatchingGrant [] (req_generations q)
  end.
Proof.
  intros ids. unfold evaluate. destruct (implicit_owner_reason _ _ _); [done|].
  fold (loop (req_principal q) (req_resource q) (req_action q) (req_entries q) no_evidence).
  rewrite loop_spec. cbn [canonicalize_evidence direct_denies inherited_denies direct_allows
    inherited_allows no_evidence app]. rewrite !canonicalize_nil, !canonicalize_app. done.
Qed.

Lemma negb_is_nil {A} (l k : list A) :
  negb (is_nil l) || negb (is_nil k) = false <-> l = [] /\ k = [].
Proof. destruct l, k; simpl; naive_solver. Qed.

Section decision_lemmas.
Variable q : AuthorizationRequest.
Let app_ := applicable (req_principal q) (req_resource q) (req_action q).
Let owner := implicit_owner_reason (req_principal q) (req_drive_owner q) (req_action q).

Lemma evaluate_owner r : owner = Some r -> evaluate q = mkDecision true r [] (req_generations q).
Proof. intros H. unfold owner in H. unfold evaluate. by rewrite H. Qed.

Lemma evaluate_deny :
  owner = None ->
  (exists r, r ∈ req_entries q /\ app_ r /\ entry_effect (re_entry r) = Deny) ->
  allowed (evaluate q) = false.
Proof.
  intros Ho (r & Hr & Ha & He). rewrite evaluate_unfold. unfold owner in Ho. rewrite Ho. cbv zeta.
  destruct (negb _ || negb _) eqn:Hn; [done|]. apply negb_is_nil in Hn.
  eapply no_effect in Hn; [by apply Hn in He|done|done].
Qed.

Lemma evaluate_allowed_iff :
  allowed (evaluate q) = true <->
  is_Some owner \/
  ((exists r, r ∈ req_entries q /\ app_ r /\ entry_effect (re_entry r) = Allow) /\
   (forall r, r ∈ req_entries q -> app_ r -> entry_effect (re_entry r) <> Deny)).
Proof.
  destruct owner as [rs|] eqn:Ho.
  { rewrite (evaluate_owner _ Ho). naive_solver. }
  rewrite evaluate_unfold. unfold owner in Ho. rewrite Ho. cbv zeta.
  destruct (negb (is_nil (kind_ids _ _ _ Deny true _)) || _) eqn:Hd.
  - split; [done|]. intros [[? ?]|[_ Hall]]; [done|].
    assert (negb (is_nil (kind_ids (req_principal q) (req_resource q) (req_action q) Deny true
              (req_entries q))) || negb (is_nil (kind_ids (req_principal q) (req_resource q)
              (req_action q) Deny false (req_entries q))) = false) as Hn.
    { apply negb_is_nil. by apply no_effect. }
    congruence.
  - apply negb_is_nil in Hd. rewrite no_effect in Hd.
    destruct (negb (is_nil (kind_ids _ _ _ Allow true _)) || _) eqn:Ha.
    + split; [|done]. intros _. right. split; [|done].
      apply orb_true_iff in Ha as [Ha|Ha];
        (destruct (kind_ids _ _ _ _ _ _) as [|i ids] eqn:Hk; [done|]);
        match type of Hk with ?k = _ => assert (i ∈ k) as Hi by (rewrite Hk; left) end;
        apply elem_of_kind_ids in Hi; naive_solver.
    + split; [done|]. intros [[? ?]|[(r & Hr & Har & He) _]]; [done|].
      apply negb_is_nil in Ha. rewrite no_effect in Ha. by apply Ha in He.
Qed.
End decision_lemmas.

(** Two lists with the same entries give the same vectors up to order. *)
Lemma kind_ids_ext c res a eff d l1 l2 :
  (forall r, r ∈ l1 <-> r ∈ l2) ->
  forall i, i ∈ kind_ids c res a eff d l1 <-> i ∈ kind_ids c res a eff d l2.
Proof. intros Hext i. rewrite !elem_of_kind_ids. naive_solver. Qed.

Lemma is_nil_ext {A} (l1 l2 : list A) : (forall x, x ∈ l1 <-> x ∈ l2) -> is_nil l1 = is_nil l2.
Proof.
  intros Hext. destruct l1 as [|x l1], l2 as [|y l2]; try done.
  - specialize (Hext y). set_solver.
  - specialize (Hext x). set_solver.
Qed.

Section delegation_lemmas.
Lemma find_none_Forall {A} (f : A -> bool) l : List.find f l = None <-> Forall (fun x => f x = false) l.
Proof.
  induction l as [|x l IH]; simpl; [split; [constructor|done]|].
  rewrite Forall_cons. destruct (f x); [naive_solver|]. rewrite IH. naive_solver.
Qed.

Lemma find_not_contains (requested held : list Action) :
  List.find (fun a => negb (bset_contains a held)) requested = None <->
  Forall (fun a => a ∈ held) requested.
Proof.
  rewrite find_none_Forall. apply Forall_proper; [|done].
  intros a. rewrite negb_false_iff. apply bset_contains_true.
Qed.
End delegation_lemmas.

(** ** Properties *)

(** C1. the decision of [evaluate] is exactly the documented rule: a fixed owner
    right allows; otherwise an action is allowed when some applicable entry
    allows it and no applicable entry, direct or inherited, denies it; the
    default is deny. *)
Theorem evaluate_decides_policy q :
  allowed (evaluate q) = true <->
  is_Some (implicit_owner_reason (req_principal q) (req_drive_owner q) (req_action q)) \/
  ((exists r, r ∈ req_entries q /\
      applicable (req_principal q) (req_resource q) (req_action q) r /\
      entry_effect (re_entry r) = Allow) /\
   (forall r, r ∈ req_entries q ->
      applicable (req_principal q) (req_resource q) (req_action q) r ->
      entry_effect (re_entry r) <> Deny)).
Proof. apply evaluate_allowed_iff. Qed.

(** The evidence reported with a decision is sound and complete: outside an
    owner right the source entries are, strictly sorted, exactly the ids of the
    applicable entries whose effect decided, and the qualifying generations are
    the request's. *)
Theorem evaluate_evidence q :
  implicit_owner_reason (req_principal q) (req_drive_owner q) (req_action q) = None ->
  generations (evaluate q) = req_generations q /\
  StronglySorted olt (source_entries (evaluate q)) /\
  (forall i, i ∈ source_entries (evaluate q) <->
     exists r, r ∈ req_entries q /\
       applicable (req_principal q) (req_resource q) (req_action q) r /\
       entry_effect (re_entry r) = (if allowed (evaluate q) then Allow else Deny) /\
       i = entry_id (re_entry r)).
Proof.
  intros Ho. rewrite evaluate_unfold, Ho. cbv zeta.
  destruct (negb (is_nil (kind_ids _ _ _ Deny true _)) || _) eqn:Hd;
    [|destruct (negb (is_nil (kind_ids _ _ _ Allow true _)) || _) eqn:Ha];
    cbn [generations source_entries allowed]; split; try done.
  - split; [apply sort_dedup_sorted|]. intros i. unfold canonicalize_ids.
    rewrite elem_of_sort_dedup, elem_of_app, !elem_of_kind_ids. split.
    + naive_solver.
    + intros (r & ? & ? & ? & ?). destruct (re_is_direct r) eqn:Hr; naive_solver.
  - split; [apply sort_dedup_sorted|]. intros i. unfold canonicalize_ids.
    rewrite elem_of_sort_dedup, elem_of_app, !elem_of_kind_ids. split.
    + naive_solver.
    + intros (r & ? & ? & ? & ?). destruct (re_is_direct r) eqn:Hr; naive_solver.
  - split; [constructor|]. intros i. split; [by intros ?%not_elem_of_nil|].
    intros (r & Hr & Hap & He & _). apply negb_is_nil in Hd. rewrite no_effect in Hd.
    by apply Hd in He.
Qed.

(** the decision depends on the set of entries only: neither the order in
    which a caller resolves entries nor duplicates change any field of it. *)
Theorem evaluate_order_independent q l2 :
  (forall r, r ∈ req_entries q <-> r ∈ l2) ->
  evaluate q = evaluate (mkRequest (req_principal q) (req_resource q) (req_drive_owner q)
                           (req_action q) l2 (req_generations q)).
Proof.
  intros Hext. rewrite !evaluate_unfold. cbn [req_principal req_resource req_drive_owner
    req_action req_entries req_generations].
  destruct (implicit_owner_reason _ _ _); [done|]. cbv zeta.
  pose proof (fun eff d => kind_ids_ext (req_principal q) (req_resource q) (req_action q)
                             eff d _ _ Hext) as Hk.
  rewrite !(is_nil_ext _ _ (Hk _ _)).
  assert (forall eff, canonicalize_ids
      (kind_ids (req_principal q) (req_resource q) (req_action q) eff true (req_entries q) ++
       kind_ids (req_principal q) (req_resource q) (req_action q) eff false (req_entries q)) =
    canonicalize_ids
      (kind_ids (req_principal q) (req_resource q) (req_action q) eff true l2 ++
       kind_ids (req_principal q) (req_resource q) (req_action q) eff false l2)) as Hc.
  { intros eff. apply sort_dedup_ext. intros i. rewrite !elem_of_app.
    by rewrite (Hk eff true i), (Hk eff false i). }
  by rewrite !Hc.
Qed.

(** a delegation is accepted exactly when the actor holds the authority of
    the mode and every requested action, and a [SHARE] delegation requests only
    contributor content actions; in particular sharing never delegates [SHARE],
    [MANAGE_ACL] or [MANAGE_DRIVE]. *)
Theorem validate_delegation_attenuates held requested mode :
  (validate_delegation held requested mode = Ok tt <->
   required_action mode ∈ held /\ Forall (fun a => a ∈ held) requested /\
   (mode = ModeShare -> Forall (fun a => a ∈ CONTRIBUTOR_ACTIONS) requested)) /\
  (validate_delegation held requested ModeShare = Ok tt ->
   (Share ∉ requested) /\ (ManageAcl ∉ requested) /\ (ManageDrive ∉ requested)).
Proof.
  assert (forall m, validate_delegation held requested m = Ok tt <->
     required_action m ∈ held /\ Forall (fun a => a ∈ held) requested /\
     (m = ModeShare -> Forall (fun a => a ∈ CONTRIBUTOR_ACTIONS) requested)) as Hiff.
  { intros m. unfold validate_delegation.
    rewrite <-find_not_contains, <-bset_contains_true.
    destruct (bset_contains (required_action m) held); simpl; [|naive_solver].
    destruct m; simpl.
    - pose proof (find_not_contains requested (bset_of_list CONTRIBUTOR_ACTIONS)) as Hc.
      assert (Forall (fun a => a ∈ bset_of_list CONTRIBUTOR_ACTIONS) requested <->
              Forall (fun a => a ∈ CONTRIBUTOR_ACTIONS) requested) as Hb.
      { apply Forall_proper; [|done]. intros x. apply elem_of_bset_of_list. }
      rewrite Hb in Hc. repeat case_match; naive_solver.
    - repeat case_match; naive_solver. }
  split; [apply Hiff|]. rewrite Hiff. intros (_ & _ & Hc). specialize (Hc eq_refl).
  rewrite Forall_forall in Hc.
  repeat split; intros Hin%Hc; revert Hin; apply (bool_decide_unpack _); reflexivity.
Qed.

(** The presets form a chain, contain no duplicate, and none of them confers
    drive management, mounting, export, MCP use or a repository action. *)
Theorem presets_are_nested :
  Forall (fun a => a ∈ CONTRIBUTOR_ACTIONS) (preset_actions PresetViewer) /\
  Forall (fun a => a ∈ MANAGER_ACTIONS) (preset_actions PresetContributor) /\
  (forall p, Forall (fun a => a ∉ [ManageDrive; Transcode; UseMcp; Mount; Export; Traverse;
       ReadRepository; WriteRepository; ManageRepository; BypassRepositoryRules]) (preset_actions p)) /\
  (forall p a, a ∈ preset_action_set p <-> a ∈ preset_actions p).
Proof.
  split; [apply (bool_decide_unpack _); reflexivity|].
  split; [apply (bool_decide_unpack _); reflexivity|].
  split; [intros []; apply (bool_decide_unpack _); reflexivity|].
  intros p a. apply elem_of_bset_of_list.
Qed.

(** ** Witnesses *)

Definition demo_entry (i : N) (res : ResourceId) (eff : Effect) (inh : Inheritance) : AclEntry :=
  mkEntry i res 1%N ReadContent eff inh 0 99%N.

(** A direct allow and an inherited deny on the same node for principal 1. *)
Definition demo_request : AuthorizationRequest :=
  mkRequest (PrincipalContext_new 1%N []) (RNode 10%N) (OwnerUser 90%N) ReadContent
    [re_direct (demo_entry 7%N (RNode 10%N) Allow ThisResource);
     mkResolved (demo_entry 5%N (RNode 11%N) Deny Descendants) 2]
    (mkSnapshot 3 5 8).

Lemma evaluate_evidence_witness :
  source_entries (evaluate demo_request) = [5%N] /\
  (5%N ∈ source_entries (evaluate demo_request) <->
   exists r, r ∈ req_entries demo_request /\
     applicable (req_principal demo_request) (req_resource demo_request)
       (req_action demo_request) r /\
     entry_effect (re_entry r) = (if allowed (evaluate demo_request) then Allow else Deny) /\
     5%N = entry_id (re_entry r)).
Proof.
  split; [reflexivity|]. apply (evaluate_evidence demo_request). reflexivity.
Defined.

Lemma evaluate_order_independent_witness :
  evaluate demo_request =
  evaluate (mkRequest (req_principal demo_request) (req_resource demo_request)
              (req_drive_owner demo_request) (req_action demo_request)
              (rev (req_entries demo_request)) (req_generations demo_request)).
Proof.
  apply (evaluate_order_independent demo_request (rev (req_entries demo_request))).
  intros r. by rewrite !list_elem_of_In, <-in_rev.
Defined.
