(* ===== verification/ShareGraph.v ===== *)
(** Model of the recursive direct-share evaluator of
    [source/crates/filebelt-authz/src/lib.rs]: the breadth-first collection of
    the delegation graph, its bounds, and the least fixed point that decides
    whether a recursive share is currently backed by its creator. *)
From S2P Require Import Prelude Collections Libraries Domain Authz.

Inductive RecursiveShareProvenance :=
| Independent
| RecursiveDirectShare (creator : PrincipalId).

Record RsEntry := mkRsEntry {
  rs_resolved : ResolvedAclEntry;
  rs_provenance : RecursiveShareProvenance
}.

Definition rs_independent (r : ResolvedAclEntry) : RsEntry := mkRsEntry r Independent.
Definition rs_recursive_direct_share (r : ResolvedAclEntry) (creator : PrincipalId) : RsEntry :=
  mkRsEntry r (RecursiveDirectShare creator).

Record PrincipalAuthorizationFacts := mkFacts {
  paf_principal : PrincipalContext;
  paf_entries : list RsEntry
}.

Definition MAX_RECURSIVE_SHARE_DELEGATION_DEPTH : nat := 128.
Definition MAX_RECURSIVE_SHARE_EDGES : nat := 4096.
#[global] Arguments MAX_RECURSIVE_SHARE_DELEGATION_DEPTH : simpl never.
#[global] Arguments MAX_RECURSIVE_SHARE_EDGES : simpl never.

Record RecursiveShareAuthorizationRequest := mkRsRequest {
  rsq_principal : PrincipalContext;
  rsq_resource : ResourceId;
  rsq_drive_owner : DriveOwner;
  rsq_action : Action;
  rsq_entries : list RsEntry;
  rsq_creator_facts : list PrincipalAuthorizationFacts;
  rsq_generations : GenerationSnapshot
}.

Inductive RecursiveShareEvaluationError :=
| DelegationDepthExceeded
| RecursiveEdgeLimitExceeded.

Record NodeKey := mkKey { nk_principal : PrincipalId; nk_action : Action }.
#[export] Instance NodeKey_eq_dec : EqDecision NodeKey.
Proof. solve_decision. Defined.
Definition nk_pair (k : NodeKey) : N * Action := (nk_principal k, nk_action k).
#[export] Instance nk_pair_inj : Inj eq eq nk_pair.
Proof. intros [] []; unfold nk_pair; naive_solver. Qed.
#[export] Instance NodeKey_Ord : Ord NodeKey := ord_via nk_pair.
#[export] Instance NodeKey_OrdLaws : OrdLaws NodeKey := ord_via_laws nk_pair _.

Record Candidate := mkCandidate { cand_entry_id : AclEntryId; cand_creator : PrincipalId }.
#[export] Instance Candidate_eq_dec : EqDecision Candidate.
Proof. solve_decision. Defined.
Definition cand_pair (c : Candidate) : N * N := (cand_entry_id c, cand_creator c).
#[export] Instance cand_pair_inj : Inj eq eq cand_pair.
Proof. intros [] []; unfold cand_pair; naive_solver. Qed.
#[export] Instance Candidate_Ord : Ord Candidate := ord_via cand_pair.
#[export] Instance Candidate_OrdLaws : OrdLaws Candidate := ord_via_laws cand_pair _.

Record RsNode := mkNode {
  node_denied : option (DecisionReason * list AclEntryId);
  node_independent : option (DecisionReason * list AclEntryId);
  node_candidates : list Candidate
}.
Definition node_default : RsNode := mkNode None None [].

Record RsSubject := mkSubject { subj_principal : PrincipalContext; subj_entries : list RsEntry }.

(** A creator with two fact records is ambiguous and maps to [None]. *)
Definition collect_creator_facts (facts : list PrincipalAuthorizationFacts)
  : btmap PrincipalId (option PrincipalAuthorizationFacts) :=
  fold_left (fun m f =>
      let p := principal_id (paf_principal f) in
      match bt_get p m with
      | None => bt_insert p (Some f) m
      | Some _ => bt_insert p None m
      end) facts [].

Definition recursive_share_subject (principal : PrincipalId) (q : RecursiveShareAuthorizationRequest)
    (creator_facts : btmap PrincipalId (option PrincipalAuthorizationFacts)) : option RsSubject :=
  if decide (principal = principal_id (rsq_principal q))
  then Some (mkSubject (rsq_principal q) (rsq_entries q))
  else match bt_get principal creator_facts with
       | Some (Some f) => Some (mkSubject (paf_principal f) (paf_entries f))
       | _ => None
       end.

(** The vectors of the node loop: the evidence of [Authz] and the candidates. *)
Definition push_rs (acc : Evidence * list Candidate) (p : RsEntry) : Evidence * list Candidate :=
  let r := rs_resolved p in
  let e := re_entry r in
  match entry_effect e with
  | Deny => (push_evidence acc.1 r, acc.2)
  | Allow =>
      match rs_provenance p with
      | Independent => (push_evidence acc.1 r, acc.2)
      | RecursiveDirectShare creator =>
          if decide (entry_created_by e = creator)
          then (acc.1, acc.2 ++ [mkCandidate (entry_id e) creator])
          else acc
      end
  end.

Definition recursive_share_node (s : RsSubject) (a : Action) (q : RecursiveShareAuthorizationRequest)
  : RsNode :=
  match implicit_owner_reason (subj_principal s) (rsq_drive_owner q) a with
  | Some r => mkNode None (Some (r, [])) []
  | None =>
      let '(raw, cands) :=
        fold_left (fun acc p =>
            if entry_matches (subj_principal s) (rsq_resource q) a (rs_resolved p)
            then push_rs acc p else acc)
          (subj_entries s) (no_evidence, []) in
      let ev := canonicalize_evidence raw in
      let candidates := dedup (sort_unstable cands) in
      if negb (is_nil (direct_denies ev)) || negb (is_nil (inherited_denies ev)) then
        mkNode (Some (if is_nil (direct_denies ev) then RInheritedDeny else RExplicitDeny,
                      canonicalize_ids (direct_denies ev ++ inherited_denies ev))) None []
      else if negb (is_nil (direct_allows ev)) || negb (is_nil (inherited_allows ev)) then
        mkNode None (Some (if is_nil (direct_allows ev) then RInheritedAllow else RExplicitAllow,
                           canonicalize_ids (direct_allows ev ++ inherited_allows ev))) []
      else mkNode None None candidates
  end.

Definition enqueue_recursive_share_node (depths : btmap NodeKey nat) (pending : list NodeKey)
    (key : NodeKey) (depth : nat) : btmap NodeKey nat * list NodeKey :=
  if match bt_get key depths with Some current => Nat.ltb depth current | None => true end
  then (bt_insert key depth depths, pending ++ [key])
  else (depths, pending).

Record Collect := mkCollect {
  col_depths : btmap NodeKey nat;
  col_pending : list NodeKey;
  col_nodes : btmap NodeKey RsNode;
  col_edges : nat
}.

(** The [for candidate in &node.candidates] loop of the node at [key]. *)
Fixpoint visit_candidates (key : NodeKey) (depth : nat) (cs : list Candidate) (st : Collect)
  : result RecursiveShareEvaluationError Collect :=
  match cs with
  | [] => Ok st
  | c :: cs' =>
      let edges := S (col_edges st) in
      if Nat.ltb MAX_RECURSIVE_SHARE_EDGES edges then Err RecursiveEdgeLimitExceeded
      else
        let next_depth := S depth in
        if Nat.ltb MAX_RECURSIVE_SHARE_DELEGATION_DEPTH next_depth then Err DelegationDepthExceeded
        else
          let '(depths, pending) :=
            enqueue_recursive_share_node (col_depths st) (col_pending st)
              (mkKey (cand_creator c) Share) next_depth in
          let '(depths, pending) :=
            if decide (nk_action key = Share) then (depths, pending)
            else enqueue_recursive_share_node depths pending
                   (mkKey (cand_creator c) (nk_action key)) next_depth in
          visit_candidates key depth cs' (mkCollect depths pending (col_nodes st) edges)
  end.

(** The outcome of a loop: [Panic] is a failed [expect]. *)
Inductive outcome (A : Type) := Done (a : A) | Panic | OutOfFuel.
Arguments Done {A} a.
Arguments Panic {A}.
Arguments OutOfFuel {A}.

Fixpoint collect_nodes (fuel : nat) (q : RecursiveShareAuthorizationRequest)
    (facts : btmap PrincipalId (option PrincipalAuthorizationFacts)) (st : Collect)
  : outcome (result RecursiveShareEvaluationError (btmap NodeKey RsNode)) :=
  match fuel with
  | O => OutOfFuel
  | S fuel' =>
      match col_pending st with
      | [] => Done (Ok (col_nodes st))
      | key :: rest =>
          let st := mkCollect (col_depths st) rest (col_nodes st) (col_edges st) in
          if bt_contains key (col_nodes st) then collect_nodes fuel' q facts st
          else
            match recursive_share_subject (nk_principal key) q facts with
            | None =>
                collect_nodes fuel' q facts
                  (mkCollect (col_depths st) (col_pending st)
                     (bt_insert key node_default (col_nodes st)) (col_edges st))
            | Some subject =>
                let node := recursive_share_node subject (nk_action key) q in
                match bt_get key (col_depths st) with
                | None => Panic
                | Some depth =>
                    match visit_candidates key depth (node_candidates node) st with
                    | Err e => Done (Err e)
                    | Ok st' =>
                        collect_nodes fuel' q facts
                          (mkCollect (col_depths st') (col_pending st')
                             (bt_insert key node (col_nodes st')) (col_edges st'))
                    end
                end
            end
      end
  end.

(** One pop per queued key: at most one for the root and two per counted edge. *)
Definition COLLECT_FUEL : nat := 2 + 2 * MAX_RECURSIVE_SHARE_EDGES.

Abbreviation AllowedMap := (btmap NodeKey (option Candidate)).

Definition recursive_share_candidate_is_proven (c : Candidate) (a : Action) (m : AllowedMap) : bool :=
  bt_contains (mkKey (cand_creator c) Share) m
  && (bool_decide (a = Share) || bt_contains (mkKey (cand_creator c) a) m).

Definition is_none {A} (o : option A) : bool := match o with None => true | Some _ => false end.

Definition initial_allowed (nodes : btmap NodeKey RsNode) : AllowedMap :=
  fold_left (fun m kn =>
      if is_none (node_denied kn.2) && negb (is_none (node_independent kn.2))
      then bt_insert kn.1 None m else m) nodes [].

(** One pass of the [for (key, node) in &nodes] body of the fixed-point loop. *)
Definition allow_step (acc : AllowedMap * bool) (kn : NodeKey * RsNode) : AllowedMap * bool :=
  let '(m, changed) := acc in
  if bt_contains kn.1 m || negb (is_none (node_denied kn.2)) then (m, changed)
  else match List.find (fun c => recursive_share_candidate_is_proven c (nk_action kn.1) m)
               (node_candidates kn.2) with
       | Some c => (bt_insert kn.1 (Some c) m, true)
       | None => (m, changed)
       end.

Fixpoint close_allowed (fuel : nat) (nodes : btmap NodeKey RsNode) (m : AllowedMap)
  : outcome AllowedMap :=
  match fuel with
  | O => OutOfFuel
  | S fuel' =>
      let '(m', changed) := fold_left allow_step nodes (m, false) in
      if changed then close_allowed fuel' nodes m' else Done m'
  end.

Definition rs_root (q : RecursiveShareAuthorizationRequest) : NodeKey :=
  mkKey (principal_id (rsq_principal q)) (rsq_action q).

Definition decide_root (q : RecursiveShareAuthorizationRequest) (node : RsNode) (m : AllowedMap)
  : AuthorizationDecision :=
  match node_denied node with
  | Some (r, ids) => mkDecision false r ids (rsq_generations q)
  | None =>
      match node_independent node with
      | Some (r, ids) => mkDecision true r ids (rsq_generations q)
      | None =>
          match bt_get (rs_root q) m with
          | Some (Some c) => mkDecision true RInheritedAllow [cand_entry_id c] (rsq_generations q)
          | _ => mkDecision false RNoMatchingGrant [] (rsq_generations q)
          end
      end
  end.

Definition evaluate_recursive_direct_shares (q : RecursiveShareAuthorizationRequest)
  : outcome (result RecursiveShareEvaluationError AuthorizationDecision) :=
  let facts := collect_creator_facts (rsq_creator_facts q) in
  let root := rs_root q in
  match collect_nodes COLLECT_FUEL q facts (mkCollect [(root, 0%nat)] [root] [] 0) with
  | OutOfFuel => OutOfFuel
  | Panic => Panic
  | Done (Err e) => Done (Err e)
  | Done (Ok nodes) =>
      match close_allowed (S (length nodes)) nodes (initial_allowed nodes) with
      | OutOfFuel => OutOfFuel
      | Panic => Panic
      | Done m =>
          match bt_get root nodes with
          | None => Panic
          | Some node => Done (Ok (decide_root q node m))
          end
      end
  end.

(** ** Specification: the least fixed point of delegation *)

Section specification.
Variable q : RecursiveShareAuthorizationRequest.

(** The facts about one principal and action, as the evaluator reads them. *)
Definition node_of (k : NodeKey) : RsNode :=
  match recursive_share_subject (nk_principal k) q (collect_creator_facts (rsq_creator_facts q)) with
  | Some s => recursive_share_node s (nk_action k) q
  | None => node_default
  end.

(** A recursive share is usable when its creator holds [SHARE] and the action. *)
Definition share_key (c : Candidate) : NodeKey := mkKey (cand_creator c) Share.
Definition action_key (c : Candidate) (k : NodeKey) : NodeKey := mkKey (cand_creator c) (nk_action k).

Inductive Proven : NodeKey -> Prop :=
| proven_independent k :
    node_denied (node_of k) = None -> is_Some (node_independent (node_of k)) -> Proven k
| proven_delegated k c :
    node_denied (node_of k) = None -> c ∈ node_candidates (node_of k) ->
    Proven (share_key c) -> Proven (action_key c k) -> Proven k.

(** One delegation edge, and the chains of them from the requested node. *)
Definition delegates (k k' : NodeKey) : Prop :=
  exists c, c ∈ node_candidates (node_of k) /\ (k' = share_key c \/ k' = action_key c k).

Inductive delegation_chain : nat -> NodeKey -> Prop :=
| chain_root : delegation_chain 0 (rs_root q)
| chain_step n k k' : delegation_chain n k -> delegates k k' -> delegation_chain (S n) k'.

Definition candidate_count (k : NodeKey) : nat := length (node_candidates (node_of k)).
End specification.

(** ** The collection loop *)

Section collection.
Variable q : RecursiveShareAuthorizationRequest.
Let facts := collect_creator_facts (rsq_creator_facts q).

Definition known (st : Collect) (k : NodeKey) : Prop := is_Some (bt_get k (col_depths st)).
Definition visited (st : Collect) (k : NodeKey) : Prop := is_Some (bt_get k (col_nodes st)).

(** What holds of the queue, the depths and the edge counter at every moment. *)
Record queue_inv (st : Collect) : Prop := {
  qi_depths_wf : bt_wf (col_depths st);
  qi_pending : forall k, k ∈ col_pending st -> known st k;
  qi_chain : forall k d, bt_get k (col_depths st) = Some d -> delegation_chain q d k;
  qi_edges : (col_edges st <= MAX_RECURSIVE_SHARE_EDGES)%nat
}.

Record collect_inv (st : Collect) : Prop := {
  ci_queue : queue_inv st;
  ci_nodes_wf : bt_wf (col_nodes st);
  ci_nodes : forall k n, bt_get k (col_nodes st) = Some n -> n = node_of q k;
  ci_reached : forall k, known st k -> visited st k \/ k ∈ col_pending st;
  ci_visited : forall k, visited st k -> known st k;
  ci_closed : forall k k', visited st k -> delegates q k k' -> known st k';
  ci_root : known st (rs_root q);
  ci_count : col_edges st = sum_list_with (candidate_count q) (col_nodes st).*1
}.

Lemma enqueue_spec depths pending key depth depths' pending' :
  bt_wf depths ->
  enqueue_recursive_share_node depths pending key depth = (depths', pending') ->
  bt_wf depths' /\ is_Some (bt_get key depths') /\
  (forall k, is_Some (bt_get k depths) -> is_Some (bt_get k depths')) /\
  (forall k d, bt_get k depths' = Some d -> bt_get k depths = Some d \/ (k = key /\ d = depth)) /\
  (pending' = pending \/ pending' = pending ++ [key]) /\
  (forall k, is_Some (bt_get k depths') -> is_Some (bt_get k depths) \/ k ∈ pending').
Proof.
  intros Hwf. unfold enqueue_recursive_share_node.
  assert (forall k, bt_get k (bt_insert key depth depths)
                    = if decide (k = key) then Some depth else bt_get k depths) as Hg
    by (intros; by apply bt_get_insert).
  case_match eqn:Hc; intros [= <- <-].
  - split; [by apply bt_insert_wf|]. split; [rewrite Hg, decide_True by done; eauto|].
    split; [intros k Hk; rewrite Hg; case_decide; eauto|].
    split; [intros k d; rewrite Hg; case_decide; naive_solver|].
    split; [by right|]. intros k. rewrite Hg. case_decide; [|auto]. intros _. right. set_solver.
  - destruct (bt_get key depths); [|done]. naive_solver.
Qed.

(** [st'] knows more than [st], and what is new is queued. *)
Record extends (st st' : Collect) : Prop := {
  ex_nodes : col_nodes st' = col_nodes st;
  ex_known : forall k, known st k -> known st' k;
  ex_new : forall k, known st' k -> known st k \/ k ∈ col_pending st';
  ex_pending : forall k, k ∈ col_pending st -> k ∈ col_pending st'
}.

#[local] Instance extends_preorder : PreOrder extends.
Proof.
  split.
  - intros st. split; auto.
  - intros s1 s2 s3 [n1 k1 w1 p1] [n2 k2 w2 p2]. split; [congruence|auto| |auto].
    intros k Hk. destruct (w2 k Hk) as [Hk2|]; [|by right]. destruct (w1 k Hk2); auto.
Qed.

Lemma enqueue_extends st key depth depths pending edges :
  queue_inv st -> delegation_chain q depth key -> (edges <= MAX_RECURSIVE_SHARE_EDGES)%nat ->
  enqueue_recursive_share_node (col_depths st) (col_pending st) key depth = (depths, pending) ->
  let st' := mkCollect depths pending (col_nodes st) edges in
  queue_inv st' /\ extends st st' /\ known st' key /\
  (length pending <= S (length (col_pending st)))%nat.
Proof.
  intros Hq Hkey He H1 st'. destruct Hq as [Hwf Hpe Hch Hed].
  apply enqueue_spec in H1 as (Hw1 & Hs1 & Hm1 & Hd1 & Hp1 & Hr1); [|done].
  split; [|split; [|split; [done|]]].
  - split; simpl; [done| | |done].
    + intros k Hk. destruct Hp1 as [->| ->]; [by apply Hm1, Hpe|].
      apply elem_of_app in Hk as [Hk|Hk]; [by apply Hm1, Hpe|].
      apply list_elem_of_singleton in Hk as ->. done.
    + intros k d Hk. apply Hd1 in Hk as [Hk|[-> ->]]; [by apply Hch|done].
  - split; simpl; [done|done|done|]. destruct Hp1 as [->| ->]; set_solver.
  - destruct Hp1 as [->| ->]; rewrite ?length_app; simpl; lia.
Qed.

Lemma visit_candidates_spec key depth cs st :
  queue_inv st -> delegation_chain q depth key ->
  (forall c, c ∈ cs -> c ∈ node_candidates (node_of q key)) ->
  match visit_candidates key depth cs st with
  | Ok st' =>
      queue_inv st' /\ extends st st' /\
      col_edges st' = (col_edges st + length cs)%nat /\
      (length (col_pending st') <= length (col_pending st) + 2 * length cs)%nat /\
      (forall c, c ∈ cs -> known st' (share_key c) /\ known st' (action_key c key))
  | Err DelegationDepthExceeded =>
      (exists k, delegation_chain q (S depth) k) /\
      (MAX_RECURSIVE_SHARE_DELEGATION_DEPTH < S depth)%nat
  | Err RecursiveEdgeLimitExceeded =>
      (MAX_RECURSIVE_SHARE_EDGES < col_edges st + length cs)%nat
  end.
Proof.
  revert st. induction cs as [|c cs IH]; intros st Hq Hkey Hcs; cbn [visit_candidates].
  { rewrite Nat.add_0_r. repeat split; try apply Hq; try done; try (simpl; lia); auto; set_solver. }
  destruct (Nat.ltb_spec MAX_RECURSIVE_SHARE_EDGES (S (col_edges st))); [simpl; lia|].
  assert (forall k', k' = share_key c \/ k' = action_key c key -> delegation_chain q (S depth) k') as Hch.
  { intros k' Hk'. econstructor; [done|]. exists c. split; [apply Hcs; left|done]. }
  destruct (Nat.ltb_spec MAX_RECURSIVE_SHARE_DELEGATION_DEPTH (S depth)); [split; [eauto|lia]|].
  destruct (enqueue_recursive_share_node _ _ (mkKey (cand_creator c) Share) _) as [d1 p1] eqn:H1.
  eapply (enqueue_extends _ _ _ _ _ (S (col_edges st))) in H1 as (Hq1 & Hx1 & Hk1 & Hl1);
    [|done|apply Hch; by left|lia].
  set (st1 := mkCollect d1 p1 (col_nodes st) (S (col_edges st))) in *.
  assert (exists d2 p2,
    (if decide (nk_action key = Share) then (d1, p1)
     else enqueue_recursive_share_node d1 p1 (mkKey (cand_creator c) (nk_action key)) (S depth))
    = (d2, p2) /\
    let st2 := mkCollect d2 p2 (col_nodes st) (S (col_edges st)) in
    queue_inv st2 /\ extends st1 st2 /\ known st2 (action_key c key) /\
    (length p2 <= S (length p1))%nat) as (d2 & p2 & -> & Hq2 & Hx2 & Hk2 & Hl2).
  { case_decide as Hs.
    - exists d1, p1. split; [done|]. split; [done|]. split; [done|].
      unfold action_key. rewrite Hs. split; [done|lia].
    - destruct (enqueue_recursive_share_node d1 p1 _ (S depth)) as [d2 p2] eqn:H2.
      exists d2, p2. split; [done|].
      eapply (enqueue_extends st1) in H2; [exact H2|done|apply Hch; by right|simpl; lia]. }
  set (st2 := mkCollect d2 p2 (col_nodes st) (S (col_edges st))) in *.
  specialize (IH st2 Hq2 Hkey ltac:(set_solver)).
  destruct (visit_candidates key depth cs st2) as [st'|[]]; [|done|simpl in *; lia].
  destruct IH as (Hq' & Hx' & He' & Hl' & Hc').
  split; [done|]. split; [by etransitivity; [|etransitivity]|].
  simpl in *. split; [lia|]. split; [lia|].
  intros c' [->|Hc]%elem_of_cons; [|auto].
  split; apply Hx'; [apply Hx2|]; done.
Qed.

(** The graph the loop returns: every node reachable from the root, with the
    facts of the request, closed under delegation. *)
Record closed_graph (nodes : btmap NodeKey RsNode) : Prop := {
  cg_wf : bt_wf nodes;
  cg_nodes : forall k n, bt_get k nodes = Some n -> n = node_of q k;
  cg_root : is_Some (bt_get (rs_root q) nodes);
  cg_closed : forall k k', is_Some (bt_get k nodes) -> delegates q k k' -> is_Some (bt_get k' nodes)
}.

(** What each error of the collection means. *)
Definition overflow_witness (e : RecursiveShareEvaluationError) : Prop :=
  match e with
  | DelegationDepthExceeded =>
      exists n k, delegation_chain q n k /\ (MAX_RECURSIVE_SHARE_DELEGATION_DEPTH < n)%nat
  | RecursiveEdgeLimitExceeded =>
      exists ks, NoDup ks /\ (forall k, k ∈ ks -> exists n, delegation_chain q n k) /\
        (MAX_RECURSIVE_SHARE_EDGES < sum_list_with (candidate_count q) ks)%nat
  end.

Definition popped (st : Collect) (rest : list NodeKey) : Collect :=
  mkCollect (col_depths st) rest (col_nodes st) (col_edges st).

Lemma popped_queue_inv st key rest :
  queue_inv st -> col_pending st = key :: rest -> queue_inv (popped st rest).
Proof.
  intros [Hwf Hpe Hch Hed] Hp. split; simpl; try done.
  intros k Hk. apply Hpe. rewrite Hp. by right.
Qed.

Lemma pop_visited st key rest :
  collect_inv st -> col_pending st = key :: rest -> visited st key ->
  collect_inv (popped st rest).
Proof.
  intros [Hq Hw Hn Hr Hv Hc Hrt Hct] Hp Hvis. split; try done.
  - by eapply popped_queue_inv.
  - intros k Hk. destruct (Hr k Hk) as [|Hin]; [by left|]. rewrite Hp in Hin.
    apply elem_of_cons in Hin as [->|]; [by left|by right].
Qed.

Lemma pop_insert st key rest st' :
  collect_inv st -> col_pending st = key :: rest -> bt_get key (col_nodes st) = None ->
  queue_inv st' -> extends (popped st rest) st' ->
  (forall k', delegates q key k' -> known st' k') ->
  col_edges st' = (col_edges st + candidate_count q key)%nat ->
  collect_inv (mkCollect (col_depths st') (col_pending st')
                 (bt_insert key (node_of q key) (col_nodes st')) (col_edges st')).
Proof.
  intros [Hq Hw Hn Hr Hv Hc Hrt Hct] Hp Hnone Hq' [Xn Xk Xw Xp] Hdel He.
  cbn [popped col_nodes] in Xn.
  assert (forall k, bt_get k (bt_insert key (node_of q key) (col_nodes st'))
            = if decide (k = key) then Some (node_of q key) else bt_get k (col_nodes st)) as Hg.
  { intros k. rewrite Xn. by apply bt_get_insert. }
  assert (known st' key) as Hkey.
  { apply Xk. apply Hq. rewrite Hp. by left. }
  split; unfold visited, known in *; cbn [col_depths col_pending col_nodes col_edges].
  - destruct Hq'. by split.
  - rewrite Xn. by apply bt_insert_wf.
  - intros k n. rewrite Hg. case_decide; [naive_solver|auto].
  - intros k Hk. rewrite Hg. case_decide as Hkk; [left; eauto|].
    destruct (Xw k Hk) as [Hk'|]; [|by right].
    destruct (Hr k Hk') as [|Hin]; [by left|]. right. apply Xp. rewrite Hp in Hin.
    cbn. by apply elem_of_cons in Hin as [|].
  - intros k. rewrite Hg. case_decide; [by subst|]. intros Hk. apply Xk. by apply Hv.
  - intros k k'. rewrite Hg. case_decide; [subst; auto|]. intros Hk Hd. apply Xk. by eapply Hc.
  - by apply Xk.
  - rewrite He, Xn, bt_insert_perm by done. rewrite fmap_cons, Hct. cbn [sum_list_with fst]. lia.
Qed.

Lemma node_of_eq key :
  match recursive_share_subject (nk_principal key) q facts with
  | Some s => recursive_share_node s (nk_action key) q
  | None => node_default
  end = node_of q key.
Proof. done. Qed.

Lemma collect_chain st k : collect_inv st -> visited st k -> exists n, delegation_chain q n k.
Proof.
  intros Hinv Hk. apply Hinv in Hk as [d Hd]. exists d. by apply Hinv.
Qed.

Lemma collect_nodes_spec fuel st :
  collect_inv st ->
  (2 * (MAX_RECURSIVE_SHARE_EDGES - col_edges st) + length (col_pending st) < fuel)%nat ->
  match collect_nodes fuel q facts st with
  | Done (Ok nodes) => closed_graph nodes
  | Done (Err e) => overflow_witness e
  | Panic | OutOfFuel => False
  end.
Proof.
  revert st. induction fuel as [|fuel IH]; intros st Hinv Hfuel; [lia|]. cbn [collect_nodes].
  destruct (col_pending st) as [|key rest] eqn:Hp.
  { destruct Hinv as [Hq Hw Hn Hr Hv Hc Hrt Hct]. split; [done|done| |].
    - destruct (Hr _ Hrt) as [|Hin]; [done|]. rewrite Hp in Hin. by apply not_elem_of_nil in Hin.
    - intros k k' Hk Hd. destruct (Hr k') as [|Hin]; [by eapply Hc|done|].
      rewrite Hp in Hin. by apply not_elem_of_nil in Hin. }
  fold (popped st rest). cbn [length] in Hfuel. cbn [popped col_nodes col_depths col_pending col_edges].
  destruct (bt_contains key (col_nodes st)) eqn:Hin.
  { apply bt_contains_true in Hin. apply IH; [by eapply pop_visited|cbn [popped col_edges col_pending]; lia]. }
  assert (bt_get key (col_nodes st) = None) as Hnone.
  { unfold bt_contains in Hin. by destruct (bt_get key (col_nodes st)). }
  assert (queue_inv (popped st rest)) as Hqp by (eapply popped_queue_inv; [apply Hinv|done]).
  pose proof (node_of_eq key) as Hnode.
  destruct (recursive_share_subject (nk_principal key) q facts) as [s|].
  - rewrite Hnode.
    assert (exists d, bt_get key (col_depths st) = Some d) as [d Hd].
    { apply (qi_pending _ (ci_queue _ Hinv)). rewrite Hp. by left. }
    rewrite Hd. assert (delegation_chain q d key) as Hch by (by apply Hinv).
    pose proof (visit_candidates_spec key d (node_candidates (node_of q key)) (popped st rest)
                  Hqp Hch ltac:(done)) as Hvis.
    fold (popped st rest).
    destruct (visit_candidates key d _ (popped st rest)) as [st'|[]] eqn:Hrun.
    + destruct Hvis as (Hq' & Hx' & He' & Hl' & Hk').
      apply IH.
      * eapply pop_insert; try done. intros k' (c & Hc & [-> | ->]); by apply Hk'.
      * pose proof (qi_edges _ Hq') as Hle.
        cbn [popped col_edges col_pending] in *. unfold candidate_count in *. lia.
    + destruct Hvis as ([k Hk] & Hlt). exists (S d), k. done.
    + exists (key :: (col_nodes st).*1). split; [|split].
      * constructor; [|by apply bt_wf_NoDup, Hinv]. intros Hk%bt_get_dom; [|apply Hinv].
        rewrite Hnone in Hk. by destruct Hk.
      * intros k [->|Hk]%elem_of_cons; [eauto|]. apply bt_get_dom in Hk; [|apply Hinv].
        by eapply collect_chain.
      * cbn [sum_list_with]. rewrite <-(ci_count _ Hinv). unfold candidate_count. cbn [popped col_edges] in Hvis. lia.
  - rewrite Hnode. apply IH; [|cbn [popped col_edges col_pending]; lia].
    eapply (pop_insert st key rest (popped st rest)); try done.
    + intros k' (c & Hc & _). rewrite <-Hnode in Hc. by apply not_elem_of_nil in Hc.
    + unfold candidate_count. rewrite <-Hnode. cbn [popped col_edges node_default node_candidates length]. lia.
Qed.
End collection.

(** ** The fixed point *)

Section fixed_point.
Variable q : RecursiveShareAuthorizationRequest.
Variable nodes : btmap NodeKey RsNode.
Hypothesis graph : closed_graph q nodes.

(** The evidence stored for an allowed node. *)
Definition backed (k : NodeKey) (v : option Candidate) : Prop :=
  node_denied (node_of q k) = None /\
  match v with
  | None => is_Some (node_independent (node_of q k))
  | Some c => c ∈ node_candidates (node_of q k) /\ Proven q (share_key c) /\ Proven q (action_key c k)
  end.

Lemma backed_proven k v : backed k v -> Proven q k.
Proof.
  intros [Hd Hv]. destruct v as [c|].
  - destruct Hv as (Hc & Hs & Ha). by eapply proven_delegated.
  - by apply proven_independent.
Qed.

Lemma am_insert (k x : NodeKey) (v : option Candidate) (m : AllowedMap) :
  bt_wf m -> bt_get x (bt_insert k v m) = if decide (x = k) then Some v else bt_get x m.
Proof. apply bt_get_insert. Qed.

Record sound_map (m : AllowedMap) : Prop := {
  sm_wf : bt_wf m;
  sm_nodes : forall k, is_Some (bt_get k m) -> is_Some (bt_get k nodes);
  sm_backed : forall k v, bt_get k m = Some v -> backed k v
}.

Lemma sound_insert m k v :
  sound_map m -> is_Some (bt_get k nodes) -> backed k v -> sound_map (bt_insert k v m).
Proof.
  intros [Hw Hn Hb] Hk Hv. split; [by apply bt_insert_wf| |]; intros k'; rewrite am_insert by done;
    case_decide; naive_solver.
Qed.

Lemma sound_length m : sound_map m -> (length m <= length nodes)%nat.
Proof.
  intros [Hw Hn _]. rewrite <-(length_fmap fst m), <-(length_fmap fst nodes).
  apply submseteq_length, NoDup_submseteq; [by apply bt_wf_NoDup|].
  intros k Hk. apply bt_get_dom; [apply graph|]. apply Hn. by apply bt_get_dom.
Qed.

Lemma node_elem k n : (k, n) ∈ nodes -> n = node_of q k /\ is_Some (bt_get k nodes).
Proof.
  intros Hin. apply bt_get_elem in Hin; [|apply graph]. split; [by apply graph|eauto].
Qed.

Lemma initial_allowed_sound :
  sound_map (initial_allowed nodes) /\
  (forall k n, (k, n) ∈ nodes -> node_denied n = None -> is_Some (node_independent n) ->
     is_Some (bt_get k (initial_allowed nodes))).
Proof.
  unfold initial_allowed.
  assert (forall l m, l ⊆ nodes -> sound_map m ->
    let m' := fold_left (fun m kn =>
      if is_none (node_denied kn.2) && negb (is_none (node_independent kn.2))
      then bt_insert kn.1 None m else m) l m in
    sound_map m' /\ (forall k, is_Some (bt_get k m) -> is_Some (bt_get k m')) /\
    (forall k n, (k, n) ∈ l -> node_denied n = None -> is_Some (node_independent n) ->
       is_Some (bt_get k m'))) as Hgen.
  { induction l as [|[k n] l IH]; intros m Hl Hm; simpl; [set_solver|].
    destruct (node_elem k n) as [Hn Hk]; [set_solver|].
    destruct (is_none (node_denied n) && negb (is_none (node_independent n))) eqn:Hc.
    - destruct (IH (bt_insert k None m)) as (H1 & H2 & H3); [set_solver| |].
      + apply sound_insert; [done|done|]. subst n. split.
        * by destruct (node_denied (node_of q k)).
        * destruct (node_independent (node_of q k)); [eauto|]. by rewrite andb_false_r in Hc.
      + assert (forall k', k' = k \/ is_Some (bt_get k' m) ->
                  is_Some (bt_get k' (bt_insert k None m))) as Hins.
        { intros k' Hk'. rewrite am_insert by apply Hm. case_decide; naive_solver. }
        split; [done|]. split; [auto|]. intros k' n' [[= -> ->]|Hin]%elem_of_cons; eauto.
    - destruct (IH m) as (H1 & H2 & H3); [set_solver|done|]. split; [done|]. split; [done|].
      intros k' n' [[= -> ->]|Hin]%elem_of_cons Hd Hi; [|eauto].
      rewrite Hd in Hc. destruct Hi as [? Hi]. by rewrite Hi in Hc. }
  destruct (Hgen nodes [] (reflexivity nodes)) as (H1 & _ & H3); [|by split].
  split; [constructor| |]; intros k; simpl; [by intros []|done].
Qed.

(** The candidate is usable with the nodes allowed so far. *)
Lemma candidate_is_proven_iff c a m :
  recursive_share_candidate_is_proven c a m = true <->
  is_Some (bt_get (mkKey (cand_creator c) Share) m) /\ is_Some (bt_get (mkKey (cand_creator c) a) m).
Proof.
  unfold recursive_share_candidate_is_proven.
  rewrite andb_true_iff, orb_true_iff, !bt_contains_true, bool_decide_eq_true. naive_solver.
Qed.

Lemma sound_candidate m k c :
  sound_map m -> recursive_share_candidate_is_proven c (nk_action k) m = true ->
  Proven q (share_key c) /\ Proven q (action_key c k).
Proof.
  intros Hm. rewrite candidate_is_proven_iff. intros [[v1 H1] [v2 H2]].
  split; eapply backed_proven, Hm; eauto.
Qed.

(** No node of [l] can be added to [m]. *)
Definition settled (l : list (NodeKey * RsNode)) (m : AllowedMap) : Prop :=
  forall k n c, (k, n) ∈ l -> node_denied n = None -> c ∈ node_candidates n ->
    recursive_share_candidate_is_proven c (nk_action k) m = true -> is_Some (bt_get k m).

Lemma allow_pass l m b :
  l ⊆ nodes -> sound_map m ->
  let '(m', b') := fold_left allow_step l (m, b) in
  sound_map m' /\ (forall k, is_Some (bt_get k m) -> is_Some (bt_get k m')) /\
  (b' = false -> m' = m /\ b = false /\ settled l m) /\
  (length m <= length m')%nat /\ (b' = true -> b = true \/ length m < length m')%nat.
Proof.
  revert m b. induction l as [|[k n] l IH]; intros m b Hl Hm; cbn [fold_left].
  { split; [done|]. split; [done|]. split; [|auto]. intros ->. split; [done|].
    split; [done|]. intros k n c Hin. by apply not_elem_of_nil in Hin. }
  destruct (node_elem k n) as [Hn Hk]; [set_solver|].
  assert (l ⊆ nodes) as Hl' by set_solver.
  unfold allow_step at 2. cbn [fst snd].
  destruct (bt_contains k m || negb (is_none (node_denied n))) eqn:Hskip.
  - specialize (IH m b Hl' Hm). destruct (fold_left allow_step l (m, b)) as [m' b'].
    destruct IH as (H1 & H2 & H3 & H4 & H5). repeat (split; [done|]). split; [|done].
    intros Hb. destruct (H3 Hb) as (-> & -> & Hset). split; [done|]. split; [done|].
    intros k' n' c [[= -> ->]|Hin]%elem_of_cons Hd Hc Hp; [|by eapply Hset].
    apply bt_contains_true. rewrite Hd, orb_false_r in Hskip. done.
  - apply orb_false_iff in Hskip as [Hnot Hden].
    assert (node_denied n = None) as Hd by (by destruct (node_denied n)).
    assert (bt_get k m = None) as Hnone.
    { unfold bt_contains in Hnot. by destruct (bt_get k m). }
    destruct (List.find _ (node_candidates n)) as [c|] eqn:Hf.
    + apply find_some in Hf as [Hc Hp]. apply list_elem_of_In in Hc.
      destruct (sound_candidate m k c Hm Hp) as [Hs Ha].
      assert (sound_map (bt_insert k (Some c) m)) as Hm'.
      { apply sound_insert; [done|done|]. subst n. by split. }
      specialize (IH _ true Hl' Hm').
      destruct (fold_left allow_step l _) as [m' b']. destruct IH as (H1 & H2 & H3 & H4 & H5).
      rewrite bt_insert_length in H4 by (done || apply Hm). split; [done|]. split.
      { intros k' Hk'. apply H2. rewrite am_insert by apply Hm. case_decide; [eauto|done]. }
      split; [|split; [lia|intros _; right; lia]]. intros Hb. by destruct (H3 Hb) as (_ & ? & _).
    + specialize (IH m b Hl' Hm). destruct (fold_left allow_step l (m, b)) as [m' b'].
      destruct IH as (H1 & H2 & H3 & H4 & H5). repeat (split; [done|]). split; [|done].
      intros Hb. destruct (H3 Hb) as (-> & -> & Hset). split; [done|]. split; [done|].
      intros k' n' c [[= -> ->]|Hin]%elem_of_cons Hd' Hc Hp; [|by eapply Hset].
      exfalso. apply list_elem_of_In in Hc. apply (find_none _ _ Hf) in Hc. congruence.
Qed.

Lemma close_allowed_spec fuel m :
  sound_map m -> (length nodes - length m < fuel)%nat ->
  exists m', close_allowed fuel nodes m = Done m' /\ sound_map m' /\ settled nodes m' /\
    (forall k, is_Some (bt_get k m) -> is_Some (bt_get k m')).
Proof.
  revert m. induction fuel as [|fuel IH]; intros m Hm Hfuel; [lia|]. cbn [close_allowed].
  pose proof (allow_pass nodes m false (reflexivity nodes) Hm) as Hpass.
  destruct (fold_left allow_step nodes (m, false)) as [m' []];
    destruct Hpass as (Hm' & Hmono & Hfalse & Hle & Htrue).
  - destruct (Htrue eq_refl) as [|Hlt]; [done|]. pose proof (sound_length _ Hm').
    destruct (IH m' Hm') as (m2 & H1 & H2 & H3 & H4); [lia|]. exists m2. by eauto 10.
  - destruct (Hfalse eq_refl) as (-> & _ & Hset). eauto.
Qed.

(** Everything provable is in a settled map that has the independent nodes. *)
Lemma settled_complete m :
  settled nodes m ->
  (forall k n, (k, n) ∈ nodes -> node_denied n = None -> is_Some (node_independent n) ->
     is_Some (bt_get k m)) ->
  forall k, Proven q k -> is_Some (bt_get k nodes) -> is_Some (bt_get k m).
Proof.
  intros Hset Hini k Hp.
  assert (forall k, is_Some (bt_get k nodes) -> (k, node_of q k) ∈ nodes) as Hel.
  { intros k' [n Hn]. pose proof (cg_nodes _ _ graph _ _ Hn). subst n.
    apply bt_get_elem; [apply graph|done]. }
  induction Hp as [k Hd Hi|k c Hd Hc Hs IHs Ha IHa]; intros Hk; [eauto|].
  eapply Hset; [by apply Hel|done|done|]. apply candidate_is_proven_iff. split.
  - apply IHs. eapply (cg_closed _ _ graph k); [done|]. exists c. auto.
  - apply IHa. eapply (cg_closed _ _ graph k); [done|]. exists c. auto.
Qed.
End fixed_point.

(** ** Nodes and plain evaluation *)

(** Denials and independent grants: the entries that need no creator. *)
Definition self_standing (p : RsEntry) : bool :=
  match entry_effect (re_entry (rs_resolved p)), rs_provenance p with
  | Deny, _ | Allow, Independent => true
  | Allow, RecursiveDirectShare _ => false
  end.

(** The plain request about [s] that keeps the self-standing entries only. *)
Definition plain_request (s : RsSubject) (a : Action) (q : RecursiveShareAuthorizationRequest)
  : AuthorizationRequest :=
  mkRequest (subj_principal s) (rsq_resource q) (rsq_drive_owner q) a
    (map rs_resolved (List.filter self_standing (subj_entries s))) (rsq_generations q).

Definition node_decision (n : RsNode) (g : GenerationSnapshot) : AuthorizationDecision :=
  match node_denied n with
  | Some (r, ids) => mkDecision false r ids g
  | None =>
      match node_independent n with
      | Some (r, ids) => mkDecision true r ids g
      | None => mkDecision false RNoMatchingGrant [] g
      end
  end.

(** The share of an entry, when it is a consistent recursive share. *)
Definition share_of (p : RsEntry) : option Candidate :=
  let e := re_entry (rs_resolved p) in
  match entry_effect e, rs_provenance p with
  | Allow, RecursiveDirectShare creator =>
      if decide (entry_created_by e = creator) then Some (mkCandidate (entry_id e) creator) else None
  | _, _ => None
  end.

Section node_lemmas.
Variable s : RsSubject.
Variable a : Action.
Variable q : RecursiveShareAuthorizationRequest.
Let matches := entry_matches (subj_principal s) (rsq_resource q) a.

Lemma node_loop l ev cs :
  fold_left (fun acc p => if matches (rs_resolved p) then push_rs acc p else acc) l (ev, cs) =
  (fold_left (fun ev r => if matches r then push_evidence ev r else ev)
     (map rs_resolved (List.filter self_standing l)) ev,
   cs ++ omap (fun p => if matches (rs_resolved p) then share_of p else None) l).
Proof.
  revert ev cs. induction l as [|p l IH]; intros ev cs; simpl; [by rewrite app_nil_r|].
  unfold self_standing at 1, share_of at 1, push_rs at 2.
  destruct (entry_effect (re_entry (rs_resolved p))) eqn:He, (rs_provenance p) eqn:Hp; simpl;
    destruct (matches (rs_resolved p)) eqn:Hm; try case_decide; simpl; rewrite IH; try done.
  by rewrite <-app_assoc.
Qed.

Lemma node_evaluate :
  evaluate (plain_request s a q) = node_decision (recursive_share_node s a q) (rsq_generations q).
Proof.
  unfold evaluate, recursive_share_node, plain_request.
  cbn [req_principal req_resource req_drive_owner req_action req_entries req_generations].
  destruct (implicit_owner_reason _ _ _) as [r|]; [done|].
  pose proof (node_loop (subj_entries s) no_evidence []) as Hl. unfold matches in Hl. rewrite Hl.
  cbv zeta. destruct (_ || _); [done|]. by destruct (_ || _).
Qed.

(** Candidates are the consistent recursive shares that match, and only
    nodes with no decision of their own have any. *)
Lemma node_candidates_spec c :
  c ∈ node_candidates (recursive_share_node s a q) ->
  node_denied (recursive_share_node s a q) = None /\
  node_independent (recursive_share_node s a q) = None /\
  exists p, p ∈ subj_entries s /\ matches (rs_resolved p) = true /\ share_of p = Some c.
Proof.
  unfold recursive_share_node. destruct (implicit_owner_reason _ _ _) as [r|]; [by intros ?%not_elem_of_nil|].
  pose proof (node_loop (subj_entries s) no_evidence []) as Hl. unfold matches in Hl. rewrite Hl.
  cbv zeta. destruct (_ || _); [by intros ?%not_elem_of_nil|].
  destruct (_ || _); [by intros ?%not_elem_of_nil|]. cbn [node_candidates node_denied node_independent app].
  intros Hc. split; [done|]. split; [done|]. rewrite elem_of_sort_dedup in Hc.
  apply list_elem_of_omap in Hc as (p & Hp & Hs). exists p. unfold matches.
  by destruct (entry_matches _ _ _ (rs_resolved p)).
Qed.
End node_lemmas.

Section decision.
Variable q : RecursiveShareAuthorizationRequest.
Let plain := plain_request (mkSubject (rsq_principal q) (rsq_entries q)) (rsq_action q) q.

Lemma node_of_root :
  node_of q (rs_root q)
  = recursive_share_node (mkSubject (rsq_principal q) (rsq_entries q)) (rsq_action q) q.
Proof. unfold node_of, recursive_share_subject. simpl. by rewrite decide_True. Qed.

Lemma plain_decision : evaluate plain = node_decision (node_of q (rs_root q)) (rsq_generations q).
Proof. unfold plain. by rewrite node_evaluate, node_of_root. Qed.

(** What the decision is, from the node of the request and the fixed point. *)
Definition decided (d : AuthorizationDecision) : Prop :=
  (d = evaluate plain /\ (allowed d = true <-> Proven q (rs_root q))) \/
  (evaluate plain = mkDecision false RNoMatchingGrant [] (rsq_generations q) /\
   exists c, c ∈ node_candidates (node_of q (rs_root q)) /\
     Proven q (share_key c) /\ Proven q (action_key c (rs_root q)) /\
     d = mkDecision true RInheritedAllow [cand_entry_id c] (rsq_generations q)).

Lemma proven_not_denied k : Proven q k -> node_denied (node_of q k) = None.
Proof. by destruct 1. Qed.

Lemma decide_root_spec nodes m :
  closed_graph q nodes -> sound_map q nodes m ->
  (Proven q (rs_root q) -> is_Some (bt_get (rs_root q) m)) ->
  decided (decide_root q (node_of q (rs_root q)) m).
Proof.
  intros Hg Hm Hcomp. unfold decided. rewrite plain_decision. unfold decide_root, node_decision.
  pose proof (proven_not_denied (rs_root q)) as Hnd.
  destruct (node_denied (node_of q (rs_root q))) as [[r ids]|] eqn:Hd.
  { left. split; [done|]. split; [done|]. intros Hp. by specialize (Hnd Hp). }
  destruct (node_independent (node_of q (rs_root q))) as [[r ids]|] eqn:Hi.
  { left. split; [done|]. split; [|done]. intros _. apply proven_independent; [done|]. by rewrite Hi. }
  destruct (bt_get (rs_root q) m) as [[c|]|] eqn:Hget.
  - right. split; [done|]. destruct (sm_backed _ _ _ Hm _ _ Hget) as (_ & Hc & Hs & Ha).
    exists c. auto.
  - destruct (sm_backed _ _ _ Hm _ _ Hget) as (_ & Hs). rewrite Hi in Hs. by destruct Hs.
  - left. split; [done|]. split; [done|]. intros Hp. by destruct (Hcomp Hp).
Qed.

Lemma initial_collect_inv : collect_inv q (mkCollect [(rs_root q, 0%nat)] [rs_root q] [] 0).
Proof.
  assert (known (mkCollect [(rs_root q, 0%nat)] [rs_root q] [] 0) (rs_root q)) as Hroot.
  { unfold known. cbn [col_depths bt_get]. rewrite cmp_refl. eauto. }
  assert (forall k d, bt_get k [(rs_root q, 0%nat)] = Some d -> k = rs_root q /\ d = 0%nat) as Hone.
  { intros k d. cbn [bt_get]. destruct (cmp k (rs_root q)) eqn:Hc; [|done|done].
    apply cmp_eq in Hc. naive_solver. }
  split; [split| | | | | | |]; unfold visited, known in *; cbn [col_depths col_pending col_nodes col_edges].
  - repeat constructor.
  - intros k ->%list_elem_of_singleton. done.
  - intros k d [-> ->]%Hone. constructor.
  - lia.
  - constructor.
  - done.
  - intros k [d [-> _]%Hone]. right. by left.
  - by intros k [].
  - by intros k k' [].
  - done.
  - done.
Qed.

(** The evaluator always returns: a decision or a justified limit error. *)
Lemma evaluate_total :
  (exists d, evaluate_recursive_direct_shares q = Done (Ok d) /\ decided d) \/
  (exists e, evaluate_recursive_direct_shares q = Done (Err e) /\ overflow_witness q e).
Proof.
  unfold evaluate_recursive_direct_shares.
  pose proof (collect_nodes_spec q COLLECT_FUEL _ initial_collect_inv) as Hcol.
  destruct (collect_nodes COLLECT_FUEL q _ _) as [[nodes|e]| |].
  - specialize (Hcol ltac:(unfold COLLECT_FUEL; cbn [col_edges col_pending length]; lia)).
    destruct (initial_allowed_sound q nodes Hcol) as [Hs Hi].
    destruct (close_allowed_spec q nodes Hcol (S (length nodes)) _ Hs) as (m & -> & Hm & Hset & Hmono);
      [lia|].
    destruct (cg_root _ _ Hcol) as [n Hn]. rewrite Hn. apply (cg_nodes _ _ Hcol) in Hn as Hnode.
    subst n. left. eexists; split; [done|]. eapply decide_root_spec; [done|done|].
    intros Hp. eapply settled_complete; eauto.
  - right. exists e. split; [done|]. apply Hcol. unfold COLLECT_FUEL. cbn [col_edges col_pending length]. lia.
  - destruct Hcol. unfold COLLECT_FUEL. cbn [col_edges col_pending length]. lia.
  - destruct Hcol. unfold COLLECT_FUEL. cbn [col_edges col_pending length]. lia.
Qed.
End decision.

Lemma proven_has_root q k n :
  delegation_chain q n k -> Proven q k ->
  exists n' k', delegation_chain q n' k' /\ is_Some (node_independent (node_of q k')).
Proof.
  intros Hch Hp. revert n Hch.
  induction Hp as [k Hd Hi|k c Hd Hc Hs IHs Ha IHa]; intros n Hch; [eauto|].
  eapply IHs. econstructor; [done|]. exists c. auto.
Qed.

Lemma independent_no_candidates q c :
  Forall (fun p => rs_provenance p = Independent) (rsq_entries q) ->
  c ∈ node_candidates (node_of q (rs_root q)) -> False.
Proof.
  intros Hall. rewrite node_of_root. intros (_ & _ & p & Hp & _ & Hs)%node_candidates_spec.
  rewrite Forall_forall in Hall. specialize (Hall p Hp). unfold share_of in Hs. rewrite Hall in Hs.
  by destruct (entry_effect _).
Qed.

Lemma no_candidates_chain q n k :
  (forall c, c ∈ node_candidates (node_of q (rs_root q)) -> False) ->
  delegation_chain q n k -> n = 0%nat /\ k = rs_root q.
Proof.
  intros Hno. induction 1 as [|n k k' Hch [-> ->] (c & Hc & _)]; [done|]. by apply Hno in Hc.
Qed.

Lemma independent_all_self_standing l :
  Forall (fun p => rs_provenance p = Independent) l -> List.filter self_standing l = l.
Proof.
  induction 1 as [|p l Hp Hl IH]; simpl; [done|]. unfold self_standing at 1. rewrite Hp.
  destruct (entry_effect _); by rewrite IH.
Qed.

Lemma evaluate_allow_reason r : allowed (evaluate r) = true -> reason (evaluate r) <> RNoMatchingGrant.
Proof.
  unfold evaluate. destruct (implicit_owner_reason _ _ _) as [rs|] eqn:Ho; simpl.
  - intros _ ->. unfold implicit_owner_reason in Ho. repeat case_match; naive_solver.
  - destruct (_ || _); [done|]. destruct (_ || _); [|done]. simpl. by destruct (is_nil _).
Qed.

(** ** Properties *)

(** C2. The recursive-share decision is the least fixed point of delegation:
    access is allowed exactly when a finite derivation backs it, in which every
    recursive share rests on a creator who holds [SHARE] and the delegated
    action. The decision is the plain one over denials and independent grants
    whenever that one decides, and otherwise names one usable share of the
    requester, created by its recorded creator. *)
Theorem recursive_shares_least_fixed_point q d :
  evaluate_recursive_direct_shares q = Done (Ok d) ->
  let plain := evaluate (plain_request (mkSubject (rsq_principal q) (rsq_entries q))
                           (rsq_action q) q) in
  (allowed d = true <-> Proven q (rs_root q)) /\
  (reason plain <> RNoMatchingGrant -> d = plain) /\
  (allowed d = true -> reason plain = RNoMatchingGrant ->
   exists p creator, p ∈ rsq_entries q /\
     rs_provenance p = RecursiveDirectShare creator /\
     entry_created_by (re_entry (rs_resolved p)) = creator /\
     applicable (rsq_principal q) (rsq_resource q) (rsq_action q) (rs_resolved p) /\
     Proven q (mkKey creator Share) /\ Proven q (mkKey creator (rsq_action q)) /\
     source_entries d = [entry_id (re_entry (rs_resolved p))]).
Proof.
  intros Hrun. cbv zeta.
  destruct (evaluate_total q) as [(d' & Hd' & Hdec)|(e & He & _)]; [|congruence].
  assert (d' = d) as -> by congruence. destruct Hdec as [[Hd Hiff]|(Hp & c & Hc & Hs & Ha & ->)].
  - split; [done|]. split; [done|]. intros Hal Hr. rewrite <-Hd in Hr. subst d.
    by destruct (evaluate_allow_reason _ Hal).
  - rewrite Hp. split; [|split; [done|]].
    + split; [|done]. intros _. rewrite node_of_root in Hc.
      apply node_candidates_spec in Hc as Hc'. eapply proven_delegated; rewrite ?node_of_root; naive_solver.
    + intros _ _. rewrite node_of_root in Hc.
      apply node_candidates_spec in Hc as (_ & _ & p & Hin & Hm & Hsh).
      unfold share_of in Hsh. apply entry_matches_true in Hm.
      destruct (entry_effect _); [|done]. destruct (rs_provenance p) as [|creator] eqn:Hprov; [done|].
      case_decide; [|done]. simplify_eq. eauto 10.
Qed.

(** C39. The evaluator always returns: it neither panics nor runs forever. A
    limit error is justified by the request: a delegation chain longer than
    [MAX_RECURSIVE_SHARE_DELEGATION_DEPTH] from the requested node, or distinct
    reachable nodes with more than [MAX_RECURSIVE_SHARE_EDGES] candidates. *)
Theorem recursive_shares_terminate q :
  exists r, evaluate_recursive_direct_shares q = Done r /\
    match r with Ok _ => True | Err e => overflow_witness q e end.
Proof.
  destruct (evaluate_total q) as [(d & Hd & _)|(e & He & Ho)]; eexists; by split.
Qed.

(** The recursive evaluator extends the plain one conservatively: when no
    entry of the requester is a recursive share, it returns exactly the decision
    of [evaluate], evidence and generations included, whatever the creator facts. *)
Theorem recursive_shares_conservative q :
  Forall (fun p => rs_provenance p = Independent) (rsq_entries q) ->
  evaluate_recursive_direct_shares q =
  Done (Ok (evaluate (mkRequest (rsq_principal q) (rsq_resource q) (rsq_drive_owner q)
                        (rsq_action q) (map rs_resolved (rsq_entries q)) (rsq_generations q)))).
Proof.
  intros Hall. pose proof (fun c => independent_no_candidates q c Hall) as Hno.
  pose proof (fun n k => no_candidates_chain q n k Hno) as Hchain.
  destruct (evaluate_total q) as [(d & -> & Hdec)|([] & _ & Hover)].
  - destruct Hdec as [[-> _]|(_ & c & Hc & _)]; [|by apply Hno in Hc].
    unfold plain_request. cbn [subj_principal subj_entries].
    by rewrite independent_all_self_standing.
  - destruct Hover as (n & k & [-> _]%Hchain & Hlt). lia.
  - destruct Hover as (ks & Hnd & Hks & Hlt). exfalso.
    assert (sum_list_with (candidate_count q) ks = 0)%nat as Hz; [|lia].
    clear Hnd Hlt. induction ks as [|k ks IH]; [done|]. cbn [sum_list_with].
    rewrite IH by set_solver. destruct (Hks k) as [n [_ ->]%Hchain]; [left|].
    unfold candidate_count. destruct (node_candidates _) as [|c cs]; [done|].
    destruct (Hno c). left.
Qed.

(** Rootless cycles confer nothing: when no node reachable by delegation
    from the request has an ownership or an independent grant, the request is
    denied, however the recursive shares refer to one another. *)
Theorem rootless_delegation_is_denied q d :
  (forall n k, delegation_chain q n k -> node_independent (node_of q k) = None) ->
  evaluate_recursive_direct_shares q = Done (Ok d) ->
  allowed d = false.
Proof.
  intros Hno Hrun. destruct (evaluate_total q) as [(d' & Hd' & Hdec)|(e & He & _)]; [|congruence].
  assert (d' = d) as -> by congruence. destruct (allowed d) eqn:Hal; [|done].
  assert (Proven q (rs_root q)) as Hp.
  { destruct Hdec as [[_ Hiff]|(_ & c & Hc & Hs & Ha & _)]; [by apply Hiff|].
    eapply proven_delegated; [|done|done|done]. rewrite node_of_root in *.
    by apply node_candidates_spec in Hc as [? _]. }
  destruct (proven_has_root q _ 0 (chain_root q) Hp) as (n & k & Hch & Hi).
  rewrite (Hno n k Hch) in Hi. by destruct Hi.
Qed.

(** ** Witnesses *)

(** A recursive share of [a] to [p] on node 10, created by [by_]. *)
Definition demo_share (i p by_ : N) (a : Action) : RsEntry :=
  rs_recursive_direct_share
    (re_direct (mkEntry i (RNode 10%N) p a Allow ThisResource 0 by_)) by_.
Definition demo_grant (i p : N) (a : Action) : RsEntry :=
  rs_independent (re_direct (mkEntry i (RNode 10%N) p a Allow ThisResource 0 90%N)).

(** Principal 1 reads through a share of principal 2, whose own rights are [entries]. *)
Definition demo_chain (entries : list RsEntry) : RecursiveShareAuthorizationRequest :=
  mkRsRequest (PrincipalContext_new 1%N []) (RNode 10%N) (OwnerUser 90%N) ReadContent
    [demo_share 7%N 1%N 2%N ReadContent]
    [mkFacts (PrincipalContext_new 2%N []) entries]
    (mkSnapshot 3 5 8).

Definition demo_backed : RecursiveShareAuthorizationRequest :=
  demo_chain [demo_grant 20%N 2%N ReadContent; demo_grant 21%N 2%N Share].
(** Principal 2 shares to itself: a cycle without a root. *)
Definition demo_cycle : RecursiveShareAuthorizationRequest :=
  demo_chain [demo_share 20%N 2%N 2%N ReadContent; demo_share 21%N 2%N 2%N Share].

Lemma recursive_shares_least_fixed_point_witness :
  allowed (mkDecision true RInheritedAllow [7%N] (mkSnapshot 3 5 8)) = true <->
  Proven demo_backed (rs_root demo_backed).
Proof.
  apply (recursive_shares_least_fixed_point demo_backed
           (mkDecision true RInheritedAllow [7%N] (mkSnapshot 3 5 8))).
  vm_compute. reflexivity.
Defined.

Lemma recursive_shares_conservative_witness :
  evaluate_recursive_direct_shares
    (mkRsRequest (PrincipalContext_new 1%N []) (RNode 10%N) (OwnerUser 90%N) ReadContent
       [demo_grant 7%N 1%N ReadContent] [] (mkSnapshot 3 5 8))
  = Done (Ok (mkDecision true RExplicitAllow [7%N] (mkSnapshot 3 5 8))).
Proof.
  refine (recursive_shares_conservative
    (mkRsRequest (PrincipalContext_new 1%N []) (RNode 10%N) (OwnerUser 90%N) ReadContent
       [demo_grant 7%N 1%N ReadContent] [] (mkSnapshot 3 5 8)) _).
  repeat constructor.
Defined.

Lemma demo_cycle_nodes n k :
  delegation_chain demo_cycle n k ->
  k = rs_root demo_cycle \/ k = mkKey 2%N Share \/ k = mkKey 2%N ReadContent.
Proof.
  induction 1 as [|n k k' Hch IH (c & Hc & Hk')]; [by left|]. right.
  assert (cand_creator c = 2%N) as Hcr.
  { destruct IH as [->|[->| ->]]; vm_compute in Hc; set_solver. }
  destruct IH as [->|[->| ->]], Hk' as [->| ->]; unfold share_key, action_key; rewrite Hcr; auto.
Qed.

Lemma rootless_delegation_is_denied_witness :
  allowed (mkDecision false RNoMatchingGrant [] (mkSnapshot 3 5 8)) = false.
Proof.
  apply (rootless_delegation_is_denied demo_cycle).
  - intros n k [->|[->| ->]]%demo_cycle_nodes; reflexivity.
  - vm_compute. reflexivity.
Defined.
