(* ===== verification/SnapshotPolicy.v ===== *)
(** Model of the authorization adapters of the two front ends,
    [source/apps/filebelt-vfs/src/policy.rs] and
    [source/apps/filebelt-api/src/policy.rs]: from the rows of an authorization
    snapshot of the database to a request of the recursive-share evaluator, and
    from its decision to a grant. *)
From S2P Require Import Prelude Collections Libraries Domain Authz ShareGraph.

Open Scope string_scope.
Open Scope Z_scope.
Open Scope list_scope.
Open Scope bool_scope.

(** ** Rows *)

Record AclInputRow := mkAclRow {
  ar_id : N;
  ar_resource_id : N;
  ar_principal_id : N;
  ar_action : string;
  ar_effect : string;
  ar_inheritance : string;
  ar_depth : Z;
  ar_direct : bool;
  ar_generation : Z;
  ar_created_by : N;
  ar_direct_share_id : option N;
  ar_direct_share_active : bool
}.
Record GroupInputRow := mkGroupRow { gr_group_id : N; gr_principal_id : N; gr_role : string; gr_generation : Z }.
Record AuthorizationPrincipalFact := mkPrincipalFact {
  pf_principal_id : N; pf_groups : list GroupInputRow; pf_entries : list AclInputRow
}.
Record AuthorizationSnapshot := mkAuthorizationSnapshot {
  as_tenant_id : N;
  as_drive_id : N;
  as_resource_id : N;
  as_owner_principal_id : N;
  as_owner_kind : string;
  as_owner_group_id : option N;
  as_actor_principal_id : N;
  as_actor_groups : list GroupInputRow;
  as_entries : list AclInputRow;
  as_creator_facts : list AuthorizationPrincipalFact;
  as_membership_generation : Z;
  as_drive_acl_generation : Z;
  as_namespace_generation : Z;
  as_resource_namespace_generation : Z;
  as_resource_acl_generation : Z
}.

(** ** From rows to a request *)

(** Both adapters are the same code over their own error type; [malformed] is the
    error of a row that does not parse. *)
Section adapter.
Context `{UuidLib}.
Context {E : Type}.
Variable malformed : E.

Definition typed_id (value : N) : result E N := map_err (fun _ => malformed) (id_from_uuid value).

Definition positive_u64 (value : Z) : result E Z :=
  let? value := ok_or malformed (u64_try_from value) in
  if value =? 0 then Err malformed else Ok value.

Definition parse_action (value : string) : result E Action :=
  ok_or malformed (List.find (fun candidate => String.eqb (Action_as_str candidate) value) Action_ALL).

Definition parse_role (role : string) : result E GroupRole :=
  if String.eqb role "member" then Ok Member else if String.eqb role "manager" then Ok Manager else Err malformed.

Definition group_membership (g : GroupInputRow) : result E GroupMembership :=
  let? group_id := typed_id (gr_group_id g) in
  let? principal_id := typed_id (gr_principal_id g) in
  let? role := parse_role (gr_role g) in
  Ok (mkMembership group_id principal_id role).

Definition principal_context (principal_id : N) (groups : list GroupInputRow) : result E PrincipalContext :=
  let? memberships := try_map group_membership groups in
  let? principal_id := typed_id principal_id in
  Ok (PrincipalContext_new principal_id memberships).

Definition parse_effect (effect : string) : result E Effect :=
  if String.eqb effect "allow" then Ok Allow else if String.eqb effect "deny" then Ok Deny else Err malformed.

Definition parse_inheritance (inheritance : string) : result E Inheritance :=
  if String.eqb inheritance "self" then Ok ThisResource
  else if String.eqb inheritance "children" then Ok Children
  else if String.eqb inheritance "descendants" || String.eqb inheritance "self_and_descendants" then Ok Descendants
  else Err malformed.

Definition row_entry (row : AclInputRow) : result E AclEntry :=
  let? id := typed_id (ar_id row) in
  let? resource := typed_id (ar_resource_id row) in
  let? principal := typed_id (ar_principal_id row) in
  let? action := parse_action (ar_action row) in
  let? effect := parse_effect (ar_effect row) in
  let? inheritance := parse_inheritance (ar_inheritance row) in
  let? generation := positive_u64 (ar_generation row) in
  let? created_by := typed_id (ar_created_by row) in
  Ok (mkEntry id (RNode resource) principal action effect inheritance generation created_by).

Definition row_resolved (row : AclInputRow) (entry : AclEntry) : result E ResolvedAclEntry :=
  if ar_direct row then Ok (re_direct entry)
  else
    let? distance := ok_or malformed (u32_try_from (ar_depth row)) in
    ok_or malformed (re_inherited entry distance).

Definition recursive_share_entry (row : AclInputRow) : result E RsEntry :=
  if match ar_direct_share_id row with Some _ => true | None => false end && negb (ar_direct_share_active row) then Err malformed
  else
    let? entry := row_entry row in
    let? resolved := row_resolved row entry in
    if ar_direct_share_active row && String.eqb (ar_inheritance row) "self_and_descendants" then
      let? creator := typed_id (ar_created_by row) in
      Ok (rs_recursive_direct_share resolved creator)
    else Ok (rs_independent resolved).

Definition principal_facts (f : AuthorizationPrincipalFact) : result E PrincipalAuthorizationFacts :=
  let? context := principal_context (pf_principal_id f) (pf_groups f) in
  let? entries := try_map recursive_share_entry (pf_entries f) in
  Ok (mkFacts context entries).

Definition drive_owner (s : AuthorizationSnapshot) : result E DriveOwner :=
  let kind := as_owner_kind s in
  if String.eqb kind "user" then let? p := typed_id (as_owner_principal_id s) in Ok (OwnerUser p)
  else if String.eqb kind "group" then
    let? group := ok_or malformed (as_owner_group_id s) in
    let? group := typed_id group in
    Ok (OwnerGroup group)
  else if String.eqb kind "organization" then let? p := typed_id (as_owner_principal_id s) in Ok (OwnerOrganization p)
  else if String.eqb kind "service" then let? p := typed_id (as_owner_principal_id s) in Ok (OwnerService p)
  else Err malformed.

(** The part of [evaluate_snapshot] before the evaluation. *)
Definition snapshot_request (s : AuthorizationSnapshot) (action : Action) : result E RecursiveShareAuthorizationRequest :=
  let? context := principal_context (as_actor_principal_id s) (as_actor_groups s) in
  let? resource := typed_id (as_resource_id s) in
  let? entries := try_map recursive_share_entry (as_entries s) in
  let? creator_facts := try_map principal_facts (as_creator_facts s) in
  let? resource_acl := positive_u64 (as_resource_acl_generation s) in
  let? membership := positive_u64 (as_membership_generation s) in
  let? namespace := positive_u64 (as_namespace_generation s) in
  let? owner := drive_owner s in
  Ok (mkRsRequest context (RNode resource) owner action entries creator_facts (mkSnapshot resource_acl membership namespace)).
End adapter.

(** The decision of a request, or [denied] for a refusal and for an exceeded limit. *)
Definition decide_request {E A} (denied : E) (q : RecursiveShareAuthorizationRequest) (grant : result E A) : outcome (result E A) :=
  match evaluate_recursive_direct_shares q with
  | Done (Ok decision) => Done (if allowed decision then grant else Err denied)
  | Done (Err _) => Done (Err denied)
  | Panic => Panic
  | OutOfFuel => OutOfFuel
  end.

(** ** The mount front end *)

Module Vfs.
Section vfs.
Context `{UuidLib}.

Record VfsAuthorizationGrant := mkGrant {
  membership_generation : Z;
  drive_acl_generation : Z;
  namespace_generation : Z;
  resource_acl_generation : Z;
  resource_namespace_generation : Z
}.

Definition vfs_grant (s : AuthorizationSnapshot) : VfsAuthorizationGrant :=
  mkGrant (as_membership_generation s) (as_drive_acl_generation s) (as_namespace_generation s) (as_resource_acl_generation s)
    (as_resource_namespace_generation s).

(** The error type is [()]. *)
Definition vfs_evaluate_snapshot (s : AuthorizationSnapshot) (action : Action) : outcome (result unit VfsAuthorizationGrant) :=
  match snapshot_request tt s action with
  | Err e => Done (Err e)
  | Ok q => decide_request tt q (Ok (vfs_grant s))
  end.
End vfs.
End Vfs.

(** ** The HTTP front end *)

Module Api.
Section api.
Context `{UuidLib}.

Record ApiError := mkApiError { status : Z; code : string; title : string; retry_after_seconds : option Z }.
Definition ApiError_new (status : Z) (code title : string) : ApiError := mkApiError status code title None.
Definition not_found : ApiError := ApiError_new 404 "resource.not_found" "The requested resource was not found".
Definition internal : ApiError := ApiError_new 500 "server.internal" "The request could not be completed".

Record ApiAuthorizationGrant := mkGrant {
  membership_generation : Z;
  drive_acl_generation : Z;
  namespace_generation : Z;
  resource_acl_generation : Z
}.

Definition api_grant (s : AuthorizationSnapshot) (q : RecursiveShareAuthorizationRequest) : result ApiError ApiAuthorizationGrant :=
  let? drive_acl := positive_u64 internal (as_drive_acl_generation s) in
  Ok (mkGrant (membership (rsq_generations q)) drive_acl (namespace (rsq_generations q)) (resource_acl (rsq_generations q))).

Definition api_evaluate_snapshot (s : AuthorizationSnapshot) (action : Action) : outcome (result ApiError ApiAuthorizationGrant) :=
  match snapshot_request internal s action with
  | Err e => Done (Err e)
  | Ok q => decide_request not_found q (api_grant s q)
  end.
End api.
End Api.

(** ** Parsing does not depend on the error *)

Section errors.
Context `{UuidLib}.
Context {E F : Type}.
Variables (e : E) (f : F).

Definition ok_part {E A} (r : result E A) : option A := match r with Ok a => Some a | Err _ => None end.
Definition same_ok {A} (r : result E A) (r' : result F A) : Prop := ok_part r = ok_part r'.

Lemma same_bind {A B} (r : result E A) (r' : result F A) (k : A -> result E B) (k' : A -> result F B) :
  same_ok r r' -> (forall a, same_ok (k a) (k' a)) -> same_ok (let? a := r in k a) (let? a := r' in k' a).
Proof. unfold same_ok. destruct r, r'; simpl; intros Hr Hk; simplify_eq; [apply Hk|done]. Qed.

Lemma same_ok_or {A} (o : option A) : same_ok (ok_or e o) (ok_or f o).
Proof. by destruct o. Qed.

Lemma same_if {A} (b : bool) (r1 r2 : result E A) (r1' r2' : result F A) :
  same_ok r1 r1' -> same_ok r2 r2' -> same_ok (if b then r1 else r2) (if b then r1' else r2').
Proof. by destruct b. Qed.

Lemma same_try_map {A B} (g : A -> result E B) (g' : A -> result F B) l :
  (forall a, same_ok (g a) (g' a)) -> same_ok (try_map g l) (try_map g' l).
Proof.
  intros Hg. induction l as [|a l IH]; [done|]. simpl. apply same_bind; [apply Hg|]. intros b. by apply same_bind.
Qed.

Lemma same_typed_id u : same_ok (typed_id e u) (typed_id f u).
Proof. unfold typed_id. by destruct (id_from_uuid u). Qed.

Lemma same_positive z : same_ok (positive_u64 e z) (positive_u64 f z).
Proof. apply same_bind; [apply same_ok_or|]. intros a. by apply same_if. Qed.

Lemma same_context p gs : same_ok (principal_context e p gs) (principal_context f p gs).
Proof.
  apply same_bind; [|intros ms; apply same_bind; [apply same_typed_id|done]]. apply same_try_map. intros g.
  apply same_bind; [apply same_typed_id|intros ?]. apply same_bind; [apply same_typed_id|intros ?].
  apply same_bind; [|done]. by apply same_if, same_if.
Qed.

Lemma same_row_entry row : same_ok (row_entry e row) (row_entry f row).
Proof.
  apply same_bind; [apply same_typed_id|intros ?]. apply same_bind; [apply same_typed_id|intros ?].
  apply same_bind; [apply same_typed_id|intros ?]. apply same_bind; [apply same_ok_or|intros ?].
  apply same_bind; [by apply same_if, same_if|intros ?]. apply same_bind; [by apply same_if, same_if, same_if|intros ?].
  apply same_bind; [apply same_positive|intros ?]. apply same_bind; [apply same_typed_id|done].
Qed.

Lemma same_entry row : same_ok (recursive_share_entry e row) (recursive_share_entry f row).
Proof.
  apply same_if; [done|]. apply same_bind; [apply same_row_entry|intros entry]. apply same_bind.
  - apply same_if; [done|]. apply same_bind; [apply same_ok_or|intros ?]. apply same_ok_or.
  - intros r. apply same_if; [|done]. apply same_bind; [apply same_typed_id|done].
Qed.

Lemma same_owner_of s : same_ok (drive_owner e s) (drive_owner f s).
Proof.
  unfold drive_owner. apply same_if; [by apply same_bind; [apply same_typed_id|]|]. apply same_if.
  - apply same_bind; [apply same_ok_or|intros g]. by apply same_bind; [apply same_typed_id|].
  - apply same_if; [by apply same_bind; [apply same_typed_id|]|]. apply same_if; [by apply same_bind; [apply same_typed_id|]|done].
Qed.

Lemma same_request s a : same_ok (snapshot_request e s a) (snapshot_request f s a).
Proof.
  apply same_bind; [apply same_context|intros ?]. apply same_bind; [apply same_typed_id|intros ?].
  apply same_bind; [apply same_try_map, same_entry|intros ?]. apply same_bind.
  { apply same_try_map. intros facts. apply same_bind; [apply same_context|intros ?].
    apply same_bind; [apply same_try_map, same_entry|done]. }
  intros ?. apply same_bind; [apply same_positive|intros ?]. apply same_bind; [apply same_positive|intros ?].
  apply same_bind; [apply same_positive|intros ?]. apply same_bind; [apply same_owner_of|done].
Qed.
End errors.

(** The adapter fails with [malformed] only. *)
Section malformed.
Context `{UuidLib}.
Context {E : Type}.
Variable e : E.

Definition fails_with {A} (r : result E A) : Prop := match r with Err x => x = e | Ok _ => True end.
Lemma fails_bind {A B} (r : result E A) (k : A -> result E B) :
  fails_with r -> (forall a, fails_with (k a)) -> fails_with (let? a := r in k a).
Proof. by destruct r. Qed.
Lemma fails_ok_or {A} (o : option A) : fails_with (ok_or e o).
Proof. by destruct o. Qed.
Lemma fails_if {A} (b : bool) (r r' : result E A) : fails_with r -> fails_with r' -> fails_with (if b then r else r').
Proof. by destruct b. Qed.
Lemma fails_try_map {A B} (g : A -> result E B) l : (forall a, fails_with (g a)) -> fails_with (try_map g l).
Proof. intros Hg. induction l as [|a l IH]; [done|]. simpl. apply fails_bind; [apply Hg|]. intros b. by apply fails_bind. Qed.
Lemma fails_typed_id u : fails_with (typed_id e u).
Proof. unfold typed_id. by destruct (id_from_uuid u). Qed.

Ltac fails := repeat first
  [ apply fails_typed_id | apply fails_ok_or | apply fails_bind; [|intros ?] | apply fails_if | apply fails_try_map; intros ? | done ].

Lemma fails_entry row : fails_with (recursive_share_entry e row).
Proof. unfold recursive_share_entry, row_entry, row_resolved, positive_u64, parse_effect, parse_inheritance. fails. Qed.
Lemma fails_context p gs : fails_with (principal_context e p gs).
Proof. unfold principal_context, group_membership, parse_role. fails. Qed.

Lemma fails_request s a : fails_with (snapshot_request e s a).
Proof.
  unfold snapshot_request, principal_facts, drive_owner, positive_u64.
  repeat first [ apply fails_entry | apply fails_context | apply fails_typed_id | apply fails_ok_or | apply fails_bind; [|intros ?]
               | apply fails_if | apply fails_try_map; intros ? | done ].
Qed.
End malformed.

(** ** Denials *)

Section denials.
Context `{UuidLib}.
Implicit Types (s : AuthorizationSnapshot) (a : Action) (row : AclInputRow).

(** The row denies the action to the actor of the snapshot, on the resource
    itself or from an ancestor it is inherited from. *)
Definition row_denies s a row : Prop :=
  row ∈ as_entries s /\ ar_effect row = "deny" /\ ar_action row = Action_as_str a /\
  (ar_principal_id row = as_actor_principal_id s \/ exists g, g ∈ as_actor_groups s /\ gr_principal_id g = ar_principal_id row) /\
  (ar_direct row = true /\ ar_resource_id row = as_resource_id s \/
   ar_direct row = false /\ ar_resource_id row <> as_resource_id s /\
   (ar_inheritance row = "children" /\ ar_depth row = 1 \/
    (ar_inheritance row = "descendants" \/ ar_inheritance row = "self_and_descendants") /\ 1 <= ar_depth row)).

(** The actor owns the drive, or manages the group that does. *)
Definition actor_owns s : Prop :=
  (as_owner_kind s = "user" \/ as_owner_kind s = "organization" \/ as_owner_kind s = "service") /\
    as_owner_principal_id s = as_actor_principal_id s \/
  as_owner_kind s = "group" /\
    exists g, g ∈ as_actor_groups s /\ as_owner_group_id s = Some (gr_group_id g) /\ gr_role g = "manager".

Lemma typed_id_Ok {E} (m : E) u v : typed_id m u = Ok v -> v = u.
Proof.
  unfold typed_id, id_from_uuid, validate_uuid_v4. intros Hv. repeat case_match; simplify_eq/=; done.
Qed.

Lemma parse_action_Ok {E} (m : E) a b : parse_action m (Action_as_str a) = Ok b -> b = a.
Proof. destruct a; vm_compute; congruence. Qed.

Lemma context_Ok {E} (m : E) p gs c : principal_context m p gs = Ok c ->
  principal_id c = p /\
  (forall x, includes_principal c x = true <-> x = p \/ exists g, g ∈ gs /\ gr_principal_id g = x) /\
  (forall x, manages_group c x = true -> exists g, g ∈ gs /\ gr_group_id g = x /\ gr_role g = "manager").
Proof.
  unfold principal_context. rewrite bind_Ok. intros (ms & Hms & Hc). rewrite bind_Ok in Hc. destruct Hc as (p' & Hp & Hc).
  apply typed_id_Ok in Hp as ->. injection Hc as <-. apply try_map_Ok in Hms.
  assert (Forall2 (fun g x => gm_group_id x = gr_group_id g /\ gm_group_principal_id x = gr_principal_id g /\
    (gm_role x = Manager -> gr_role g = "manager")) gs ms) as Hall.
  { eapply Forall2_impl; [exact Hms|]. intros g x Hg. unfold group_membership in Hg.
    rewrite bind_Ok in Hg. destruct Hg as (i & Hi & Hg). rewrite bind_Ok in Hg. destruct Hg as (j & Hj & Hg).
    rewrite bind_Ok in Hg. destruct Hg as (r & Hr & Hg). injection Hg as <-. apply typed_id_Ok in Hi as ->. apply typed_id_Ok in Hj as ->.
    split; [done|]. split; [done|]. simpl. intros ->. unfold parse_role in Hr. destruct (String.eqb (gr_role g) "member"); [done|].
    destruct (String.eqb (gr_role g) "manager") eqn:Hm; [|done]. by apply String.eqb_eq. }
  split; [done|]. unfold includes_principal, manages_group, PrincipalContext_new. simpl. split; intros x.
  - rewrite orb_true_iff, bool_decide_eq_true, existsb_exists. setoid_rewrite <-list_elem_of_In. setoid_rewrite elem_of_sort_dedup.
    setoid_rewrite bool_decide_eq_true. split.
    + intros [->|(y & Hy & <-)]; [by left|right]. apply list_elem_of_lookup in Hy as [k Hk].
      destruct (Forall2_lookup_r _ _ _ _ _ Hall Hk) as (g & Hg & _ & Hj & _). exists g. split; [by eapply list_elem_of_lookup_2|done].
    + intros [->|(g & Hg & <-)]; [by left|right]. apply list_elem_of_lookup in Hg as [k Hk].
      destruct (Forall2_lookup_l _ _ _ _ _ Hall Hk) as (y & Hy & _ & Hj & _). exists y. split; [by eapply list_elem_of_lookup_2|done].
  - rewrite existsb_exists. setoid_rewrite <-list_elem_of_In. setoid_rewrite elem_of_sort_dedup. setoid_rewrite andb_true_iff.
    setoid_rewrite bool_decide_eq_true. intros (y & Hy & <- & Hm). apply list_elem_of_lookup in Hy as [k Hk].
    destruct (Forall2_lookup_r _ _ _ _ _ Hall Hk) as (g & Hg & Hi & _ & Hr). exists g. split; [by eapply list_elem_of_lookup_2|].
    split; [done|]. by apply Hr.
Qed.

Lemma row_entry_Ok {E} (m : E) row e : row_entry m row = Ok e ->
  entry_resource e = RNode (ar_resource_id row) /\ entry_principal e = ar_principal_id row /\
  parse_action m (ar_action row) = Ok (entry_action e) /\ parse_effect m (ar_effect row) = Ok (entry_effect e) /\
  parse_inheritance m (ar_inheritance row) = Ok (entry_inheritance e).
Proof.
  unfold row_entry. intros He. rewrite bind_Ok in He. destruct He as (i & _ & He). rewrite bind_Ok in He. destruct He as (r & Hr & He).
  rewrite bind_Ok in He. destruct He as (pr & Hp & He). rewrite bind_Ok in He. destruct He as (a & Ha & He).
  rewrite bind_Ok in He. destruct He as (ef & Hef & He). rewrite bind_Ok in He. destruct He as (ih & Hih & He).
  rewrite bind_Ok in He. destruct He as (g & _ & He). rewrite bind_Ok in He. destruct He as (cb & _ & He). injection He as <-.
  apply typed_id_Ok in Hr as ->. apply typed_id_Ok in Hp as ->. done.
Qed.

Lemma row_resolved_Ok {E} (m : E) row e r : row_resolved m row e = Ok r ->
  re_entry r = e /\ (ar_direct row = true /\ re_distance r = 0 \/ ar_direct row = false /\ re_distance r = ar_depth row /\ ar_depth row <> 0).
Proof.
  unfold row_resolved. destruct (ar_direct row); [by intros [= <-]; simpl; auto|]. rewrite bind_Ok. intros (d & Hd & Hr).
  apply ok_or_Ok in Hd, Hr. unfold u32_try_from in Hd. apply checked_Some in Hd as [<- _]. unfold re_inherited in Hr.
  destruct (ar_depth row =? 0) eqn:Hz; [done|]. apply Z.eqb_neq in Hz. injection Hr as <-. simpl. auto.
Qed.

Lemma share_entry_Ok {E} (m : E) row p : recursive_share_entry m row = Ok p ->
  exists e, row_entry m row = Ok e /\ row_resolved m row e = Ok (rs_resolved p).
Proof.
  unfold recursive_share_entry. rewrite guard_Ok. intros [_ Hp]. rewrite bind_Ok in Hp. destruct Hp as (e & He & Hp).
  rewrite bind_Ok in Hp. destruct Hp as (r & Hr & Hp). exists e. split; [done|]. case_match.
  - rewrite bind_Ok in Hp. destruct Hp as (c & _ & [= <-]). done.
  - by injection Hp as <-.
Qed.

Lemma deny_applies {E} (m : E) s a row c p : row_denies s a row -> recursive_share_entry m row = Ok p ->
  (forall x, includes_principal c x = true <-> x = as_actor_principal_id s \/ exists g, g ∈ as_actor_groups s /\ gr_principal_id g = x) ->
  applicable c (RNode (as_resource_id s)) a (rs_resolved p) /\ entry_effect (re_entry (rs_resolved p)) = Deny.
Proof.
  intros (_ & Heff & Hact & Hpr & Hreach) Hp Hc. apply share_entry_Ok in Hp as (e & He & Hr).
  apply row_entry_Ok in He as (Hres & Hprin & Ha & Hf & Hi). apply row_resolved_Ok in Hr as [Hre Hd]. rewrite <-Hre in *. clear Hre e.
  rewrite Heff in Hf. rewrite Hact in Ha. injection Hf as Hf. apply parse_action_Ok in Ha. split; [|done].
  split; [done|]. split.
  { rewrite Hprin, Hc. destruct Hpr as [->|(g & Hg & Hx)]; [by left|right; by exists g]. }
  unfold re_applies, applies_at. rewrite Hres.
  destruct Hreach as [[Hdir Hsame]|(Hdir & Hdiff & Hinh)], Hd as [[Hdir' Hdist]|(Hdir' & Hdist & Hnz)]; try congruence.
  - rewrite Hdist. split; [done|]. split; [by rewrite Hsame|done].
  - rewrite Hdist. split.
    + destruct Hinh as [[Hin Hone]|[Hin Hpos]]; [rewrite Hin in Hi; injection Hi as <-; rewrite Hone; done|].
      assert (entry_inheritance (re_entry (rs_resolved p)) = Descendants) as -> by (destruct Hin as [Hin|Hin]; rewrite Hin in Hi; by injection Hi).
      by rewrite orb_true_r.
    + split; [done|]. intros [= Heq]. done.
Qed.

Lemma not_owner {E} (m : E) s a c o : ~ actor_owns s -> principal_context m (as_actor_principal_id s) (as_actor_groups s) = Ok c ->
  drive_owner m s = Ok o -> implicit_owner_reason c o a = None.
Proof.
  intros Hno Hc Ho. apply context_Ok in Hc as (Hid & _ & Hman). unfold implicit_owner_reason. case_decide; [done|].
  assert (forall p, (as_owner_kind s = "user" \/ as_owner_kind s = "organization" \/ as_owner_kind s = "service") ->
    p = as_owner_principal_id s -> (if decide (p = principal_id c) then Some ROwner else None) = None) as Hprin.
  { intros p Hk ->. case_decide as Heq; [|done]. destruct Hno. left. split; [done|]. by rewrite Heq. }
  unfold drive_owner in Ho. destruct (String.eqb (as_owner_kind s) "user") eqn:Hu; [apply String.eqb_eq in Hu|].
  { rewrite bind_Ok in Ho. destruct Ho as (p & Hp%typed_id_Ok & [= <-]). by apply Hprin; [left|]. }
  destruct (String.eqb (as_owner_kind s) "group") eqn:Hg; [apply String.eqb_eq in Hg|].
  { rewrite bind_Ok in Ho. destruct Ho as (g & Hg'%ok_or_Ok & Ho). rewrite bind_Ok in Ho. destruct Ho as (g' & ->%typed_id_Ok & [= <-]).
    destruct (manages_group c g) eqn:Hm; [|done]. destruct (Hman g Hm) as (row & Hrow & <- & Hrole). destruct Hno. right.
    split; [done|]. by exists row. }
  destruct (String.eqb (as_owner_kind s) "organization") eqn:Hk; [apply String.eqb_eq in Hk|].
  { rewrite bind_Ok in Ho. destruct Ho as (p & Hp%typed_id_Ok & [= <-]). by apply Hprin; [right; left|]. }
  destruct (String.eqb (as_owner_kind s) "service") eqn:Hs; [apply String.eqb_eq in Hs|done].
  rewrite bind_Ok in Ho. destruct Ho as (p & Hp%typed_id_Ok & [= <-]). by apply Hprin; [right; right|].
Qed.

(** A self-standing denial decides the recursive evaluation. *)
Lemma denied_request q d p :
  implicit_owner_reason (rsq_principal q) (rsq_drive_owner q) (rsq_action q) = None ->
  p ∈ rsq_entries q -> applicable (rsq_principal q) (rsq_resource q) (rsq_action q) (rs_resolved p) ->
  entry_effect (re_entry (rs_resolved p)) = Deny ->
  evaluate_recursive_direct_shares q = Done (Ok d) -> allowed d = false.
Proof.
  intros Ho Hp Ha Hd Hrun. set (plain := plain_request (mkSubject (rsq_principal q) (rsq_entries q)) (rsq_action q) q).
  assert (allowed (evaluate plain) = false /\ reason (evaluate plain) <> RNoMatchingGrant) as [Hf Hr].
  { assert (rs_resolved p ∈ req_entries plain) as Hin.
    { unfold plain, plain_request. simpl. apply list_elem_of_fmap. exists p. split; [done|]. apply list_elem_of_In, filter_In.
      split; [by apply list_elem_of_In|]. unfold self_standing. by rewrite Hd. }
    split; [by apply evaluate_deny; [|exists (rs_resolved p)]|]. rewrite evaluate_unfold. unfold plain at 1 2 3, plain_request. simpl. rewrite Ho.
    destruct (negb _ || negb _) eqn:Hn; [simpl; by case_match|]. apply negb_is_nil in Hn. eapply no_effect in Hn; [|exact Hin|exact Ha]. done. }
  destruct (evaluate_total q) as [(d' & Hd' & Hdec)|(e & He & _)]; [|congruence]. assert (d' = d) as -> by congruence.
  destruct Hdec as [[-> _]|(Hp' & _)]; [exact Hf|]. fold plain in Hp'. rewrite Hp' in Hr. by destruct Hr.
Qed.

Lemma snapshot_request_Ok {E} (m : E) s a q : snapshot_request m s a = Ok q ->
  principal_context m (as_actor_principal_id s) (as_actor_groups s) = Ok (rsq_principal q) /\ rsq_resource q = RNode (as_resource_id s) /\
  Forall2 (fun row p => recursive_share_entry m row = Ok p) (as_entries s) (rsq_entries q) /\
  drive_owner m s = Ok (rsq_drive_owner q) /\ rsq_action q = a /\
  positive_u64 m (as_resource_acl_generation s) = Ok (resource_acl (rsq_generations q)) /\
  positive_u64 m (as_membership_generation s) = Ok (membership (rsq_generations q)) /\
  positive_u64 m (as_namespace_generation s) = Ok (namespace (rsq_generations q)).
Proof.
  unfold snapshot_request. intros Hq. rewrite bind_Ok in Hq. destruct Hq as (c & Hc & Hq). rewrite bind_Ok in Hq. destruct Hq as (r & Hr & Hq).
  rewrite bind_Ok in Hq. destruct Hq as (es & Hes & Hq). rewrite bind_Ok in Hq. destruct Hq as (fs & _ & Hq).
  rewrite bind_Ok in Hq. destruct Hq as (g1 & H1 & Hq). rewrite bind_Ok in Hq. destruct Hq as (g2 & H2 & Hq).
  rewrite bind_Ok in Hq. destruct Hq as (g3 & H3 & Hq). rewrite bind_Ok in Hq. destruct Hq as (o & Ho & Hq). injection Hq as <-. simpl.
  apply typed_id_Ok in Hr as ->. apply try_map_Ok in Hes. done.
Qed.

Lemma denied_snapshot {E A} (m denied : E) s a row q (grant : result E A) :
  row_denies s a row -> ~ actor_owns s -> snapshot_request m s a = Ok q -> decide_request denied q grant = Done (Err denied).
Proof.
  intros Hrow Hno Hq. apply snapshot_request_Ok in Hq as (Hc & Hres & Hes & Ho & Ha & _). unfold decide_request.
  destruct (evaluate_total q) as [(d & Hd & _)|(e & -> & _)]; [|done]. rewrite Hd.
  pose proof Hrow as [Hin _]. apply list_elem_of_lookup in Hin as [k Hk]. destruct (Forall2_lookup_l _ _ _ _ _ Hes Hk) as (p & Hp & Hentry).
  pose proof (context_Ok m _ _ _ Hc) as (_ & Hinc & _). destruct (deny_applies m s a row _ p Hrow Hentry Hinc) as [Happ Heff].
  rewrite (denied_request q d p); [done|by rewrite Ha; eapply not_owner|by eapply list_elem_of_lookup_2|by rewrite Hres, Ha|done..].
Qed.

(** A denial is final on both front ends: when a row of the snapshot denies
    the action to the actor or to one of the actor's groups, on the resource or
    from an ancestor it is inherited from, and the actor neither owns the drive
    nor manages the group that does, no grant is issued: not by any allowing row,
    not through any chain of recursive shares. The HTTP front end answers as if
    the resource did not exist, unless the snapshot itself is malformed. *)
Theorem deny_row_is_final s a row :
  row_denies s a row -> ~ actor_owns s ->
  Vfs.vfs_evaluate_snapshot s a = Done (Err tt) /\
  (Api.api_evaluate_snapshot s a = Done (Err Api.not_found) \/ Api.api_evaluate_snapshot s a = Done (Err Api.internal)).
Proof.
  intros Hrow Hno. split.
  - unfold Vfs.vfs_evaluate_snapshot. destruct (snapshot_request tt s a) as [q|[]] eqn:Hq; [|done]. by eapply denied_snapshot.
  - unfold Api.api_evaluate_snapshot. destruct (snapshot_request Api.internal s a) as [q|e] eqn:Hq; [left; by eapply denied_snapshot|].
    right. pose proof (fails_request Api.internal s a) as Hf. rewrite Hq in Hf. by simpl in Hf; subst e.
Qed.
End denials.

(** ** The two front ends *)

Section frontends.
Context `{UuidLib}.
Implicit Types (s : AuthorizationSnapshot) (a : Action).

Lemma positive_u64_Ok {E} (m : E) z v : positive_u64 m z = Ok v <-> v = z /\ 0 < z <= u64_max.
Proof.
  unfold positive_u64, u64_try_from. destruct (checked 0 u64_max z) as [x|] eqn:Hc; simpl.
  - apply checked_Some in Hc as [<- Hb]. destruct (z =? 0) eqn:Hz; autorewrite with bools in Hz; split; try done; try lia.
    + intros [= <-]. lia.
    + intros [-> _]. done.
  - apply checked_None in Hc. split; [done|]. lia.
Qed.

Lemma request_agrees s a q : snapshot_request tt s a = Ok q <-> snapshot_request Api.internal s a = Ok q.
Proof.
  pose proof (same_request tt Api.internal s a) as Hsame. unfold same_ok in Hsame.
  destruct (snapshot_request tt s a), (snapshot_request Api.internal s a); simpl in Hsame; naive_solver.
Qed.

(** Both front ends authorize alike: the HTTP front end grants exactly the
    requests the mount front end grants on the same snapshot, as long as the
    generation of the drive's ACL is positive, and both grants carry the
    generations of the snapshot. *)
Theorem frontends_agree s a g :
  Api.api_evaluate_snapshot s a = Done (Ok g) <->
  Vfs.vfs_evaluate_snapshot s a = Done (Ok (Vfs.vfs_grant s)) /\ 0 < as_drive_acl_generation s <= u64_max /\
  g = Api.mkGrant (as_membership_generation s) (as_drive_acl_generation s) (as_namespace_generation s) (as_resource_acl_generation s).
Proof.
  unfold Api.api_evaluate_snapshot, Vfs.vfs_evaluate_snapshot. pose proof (fun q => request_agrees s a q) as Hagree.
  destruct (snapshot_request tt s a) as [q|[]] eqn:Hv, (snapshot_request Api.internal s a) as [q'|e] eqn:Ha;
    try (destruct (Hagree q) as [Hq _]; specialize (Hq eq_refl); discriminate Hq);
    try (destruct (Hagree q') as [_ Hq]; specialize (Hq eq_refl); discriminate Hq); [|naive_solver].
  assert (q' = q) as -> by (destruct (Hagree q) as [Hq _]; specialize (Hq eq_refl); congruence).
  apply snapshot_request_Ok in Ha as (_ & _ & _ & _ & _ & H1 & H2 & H3). rewrite positive_u64_Ok in H1, H2, H3.
  destruct H1 as [H1 _], H2 as [H2 _], H3 as [H3 _]. unfold decide_request, Api.api_grant. rewrite H1, H2, H3.
  destruct (evaluate_total q) as [(d & -> & _)|(e & -> & _)]; [|naive_solver].
  destruct (allowed d); [|naive_solver].
  destruct (positive_u64 Api.internal (as_drive_acl_generation s)) as [v|e] eqn:Hp.
  - apply positive_u64_Ok in Hp as [-> Hb]. simpl. naive_solver.
  - simpl. split; [done|]. intros (_ & Hb & _). assert (positive_u64 Api.internal (as_drive_acl_generation s) = Ok (as_drive_acl_generation s)) as Hx
      by by apply positive_u64_Ok. congruence.
Qed.
End frontends.

(** ** A snapshot *)

Module Demo.
Import Concrete.

Definition v4 (n : N) : N := (n + 0x40008000000000000000)%N.
Definition row (i principal : N) (effect inheritance : string) (depth : Z) (direct : bool) (resource creator : N) : AclInputRow :=
  mkAclRow (v4 i) (v4 resource) (v4 principal) (Action_as_str ReadContent) effect inheritance depth direct 1 (v4 creator) None false.
Definition shared : AuthorizationSnapshot :=
  mkAuthorizationSnapshot (v4 1) (v4 2) (v4 10) (v4 90) "user" None (v4 5) [mkGroupRow (v4 30) (v4 31) "member" 1]
    [row 100 5 "allow" "self" 0 true 10 90; row 101 31 "deny" "descendants" 2 false 11 90] [] 3 4 5 6 7.

Lemma deny_row_is_final_witness : Vfs.vfs_evaluate_snapshot shared ReadContent = Done (Err tt).
Proof.
  apply (deny_row_is_final shared ReadContent (row 101 31 "deny" "descendants" 2 false 11 90)).
  - split; [right; left|]. split; [reflexivity|]. split; [reflexivity|]. split.
    + right. exists (mkGroupRow (v4 30) (v4 31) "member" 1). split; [left|reflexivity].
    + right. split; [reflexivity|]. split; [vm_compute; discriminate|]. right. split; [by left|vm_compute; discriminate].
  - intros [[_ Heq]|[Hk _]]; [vm_compute in Heq; discriminate Heq|discriminate Hk].
Defined.
End Demo.
