(* ===== verification/RepositoryRules.v ===== *)
(** Model of [source/crates/filebelt-authz/src/repository.rs]: layered
    ref-protection rulesets, their most-restrictive combination, and the
    admission check of one proposed ref update. *)
From S2P Require Import Prelude Collections.

Inductive RefMutation := Create | Update | Delete.
#[export] Instance RefMutation_eq_dec : EqDecision RefMutation.
Proof. solve_decision. Defined.

Inductive VerifiedSigner := SignedByActor | SignedByService | OtherRegistered.
#[export] Instance VerifiedSigner_eq_dec : EqDecision VerifiedSigner.
Proof. solve_decision. Defined.

Inductive RequiredSigner := AnyVerified | AuthenticatedActor | FileBeltService.
#[export] Instance RequiredSigner_eq_dec : EqDecision RequiredSigner.
Proof. solve_decision. Defined.
Definition RequiredSigner_index (s : RequiredSigner) : Z :=
  match s with AnyVerified => 0 | AuthenticatedActor => 1 | FileBeltService => 2 end.
#[export] Instance RequiredSigner_index_inj : Inj eq eq RequiredSigner_index.
Proof. by intros [] []. Qed.
#[export] Instance RequiredSigner_Ord : Ord RequiredSigner := ord_via RequiredSigner_index.
#[export] Instance RequiredSigner_OrdLaws : OrdLaws RequiredSigner :=
  ord_via_laws RequiredSigner_index _.

Record RepositoryRuleRequirements := mkRules {
  deny_create : bool;
  deny_update : bool;
  deny_delete : bool;
  require_fast_forward : bool;
  require_linear_history : bool;
  require_pull_request : bool;
  minimum_approvals : Z;
  require_last_push_approval : bool;
  required_signers : list RequiredSigner;
  required_status_checks : list string;
  required_deployments : list string
}.

(** [#[derive(Default)]]: the ruleset that asks for nothing. *)
Definition default_rules : RepositoryRuleRequirements :=
  mkRules false false false false false false 0 false [] [] [].

Definition safe_writable_main : RepositoryRuleRequirements :=
  mkRules false false true true false false 0 false (bset_of_list [AnyVerified]) [] [].

(** [self.require(&other)]. *)
Definition require (self other : RepositoryRuleRequirements) : RepositoryRuleRequirements :=
  {| deny_create := deny_create self || deny_create other;
     deny_update := deny_update self || deny_update other;
     deny_delete := deny_delete self || deny_delete other;
     require_fast_forward := require_fast_forward self || require_fast_forward other;
     require_linear_history := require_linear_history self || require_linear_history other;
     require_pull_request := require_pull_request self || require_pull_request other;
     minimum_approvals := Z.max (minimum_approvals self) (minimum_approvals other);
     require_last_push_approval := require_last_push_approval self || require_last_push_approval other;
     required_signers := bset_extend (required_signers self) (required_signers other);
     required_status_checks := bset_extend (required_status_checks self) (required_status_checks other);
     required_deployments := bset_extend (required_deployments self) (required_deployments other) |}.

Record RepositoryAdmissionEvidence := mkAdmission {
  mutation : RefMutation;
  fast_forward : bool;
  linear_history : bool;
  signer : option VerifiedSigner;
  pull_request : bool;
  approvals : Z;
  last_push_approved : bool;
  successful_status_checks : list string;
  successful_deployments : list string;
  validated_bypass : bool
}.

Inductive RepositoryAdmissionFailure :=
| CreationDenied
| UpdateDenied
| DeletionDenied
| NonFastForward
| NonLinearHistory
| PullRequestRequired
| ApprovalsRequired (required actual : Z)
| LastPushApprovalRequired
| VerifiedSignatureRequired
| AuthenticatedActorSignatureRequired
| FileBeltServiceSignatureRequired
| StatusCheckRequired (context : string)
| DeploymentRequired (environment : string).
#[export] Instance RepositoryAdmissionFailure_eq_dec : EqDecision RepositoryAdmissionFailure.
Proof. solve_decision. Defined.

(** The derived order: the variant, then its fields. *)
Definition failure_key (f : RepositoryAdmissionFailure) : Z * ((Z * Z) * string) :=
  match f with
  | CreationDenied => (0, ((0, 0), ""%string))
  | UpdateDenied => (1, ((0, 0), ""%string))
  | DeletionDenied => (2, ((0, 0), ""%string))
  | NonFastForward => (3, ((0, 0), ""%string))
  | NonLinearHistory => (4, ((0, 0), ""%string))
  | PullRequestRequired => (5, ((0, 0), ""%string))
  | ApprovalsRequired r a => (6, ((r, a), ""%string))
  | LastPushApprovalRequired => (7, ((0, 0), ""%string))
  | VerifiedSignatureRequired => (8, ((0, 0), ""%string))
  | AuthenticatedActorSignatureRequired => (9, ((0, 0), ""%string))
  | FileBeltServiceSignatureRequired => (10, ((0, 0), ""%string))
  | StatusCheckRequired c => (11, ((0, 0), c))
  | DeploymentRequired d => (12, ((0, 0), d))
  end.
#[export] Instance failure_key_inj : Inj eq eq failure_key.
Proof. intros [] []; simpl; congruence. Qed.
#[export] Instance Failure_Ord : Ord RepositoryAdmissionFailure := ord_via failure_key.
#[export] Instance Failure_OrdLaws : OrdLaws RepositoryAdmissionFailure :=
  ord_via_laws failure_key _.

Definition signer_satisfied (required : RequiredSigner) (s : option VerifiedSigner) : bool :=
  match required with
  | AnyVerified => bool_decide (is_Some s)
  | AuthenticatedActor => bool_decide (s = Some SignedByActor)
  | FileBeltService => bool_decide (s = Some SignedByService)
  end.
Definition signer_failure (required : RequiredSigner) : RepositoryAdmissionFailure :=
  match required with
  | AnyVerified => VerifiedSignatureRequired
  | AuthenticatedActor => AuthenticatedActorSignatureRequired
  | FileBeltService => FileBeltServiceSignatureRequired
  end.

Definition insert_if (b : bool) (f : RepositoryAdmissionFailure) (s : list RepositoryAdmissionFailure)
  : list RepositoryAdmissionFailure := if b then bset_insert f s else s.

Definition evaluate_repository_admission (r : RepositoryRuleRequirements)
    (e : RepositoryAdmissionEvidence) : list RepositoryAdmissionFailure :=
  if validated_bypass e then []
  else
    let failures := [] in
    let failures :=
      match mutation e with
      | Create => insert_if (deny_create r) CreationDenied failures
      | Update => insert_if (deny_update r) UpdateDenied failures
      | Delete => insert_if (deny_delete r) DeletionDenied failures
      end in
    let failures :=
      insert_if (require_fast_forward r && bool_decide (mutation e = Update) && negb (fast_forward e))
        NonFastForward failures in
    let failures :=
      insert_if (require_linear_history r && negb (linear_history e)) NonLinearHistory failures in
    let failures :=
      insert_if (require_pull_request r && negb (pull_request e)) PullRequestRequired failures in
    let failures :=
      insert_if (approvals e <? minimum_approvals r)
        (ApprovalsRequired (minimum_approvals r) (approvals e)) failures in
    let failures :=
      insert_if (require_last_push_approval r && negb (last_push_approved e))
        LastPushApprovalRequired failures in
    let failures :=
      fold_left (fun fs required => insert_if (negb (signer_satisfied required (signer e)))
                                      (signer_failure required) fs)
        (required_signers r) failures in
    let failures :=
      fold_left (fun fs context => bset_insert (StatusCheckRequired context) fs)
        (bset_difference (required_status_checks r) (successful_status_checks e)) failures in
    fold_left (fun fs environment => bset_insert (DeploymentRequired environment) fs)
      (bset_difference (required_deployments r) (successful_deployments e)) failures.

(** ** Specification *)

(** What it means for one requirement of [r] to be violated by [e]. *)
Definition violates (r : RepositoryRuleRequirements) (e : RepositoryAdmissionEvidence)
    (f : RepositoryAdmissionFailure) : Prop :=
  match f with
  | CreationDenied => deny_create r = true /\ mutation e = Create
  | UpdateDenied => deny_update r = true /\ mutation e = Update
  | DeletionDenied => deny_delete r = true /\ mutation e = Delete
  | NonFastForward => require_fast_forward r = true /\ mutation e = Update /\ fast_forward e = false
  | NonLinearHistory => require_linear_history r = true /\ linear_history e = false
  | PullRequestRequired => require_pull_request r = true /\ pull_request e = false
  | ApprovalsRequired n m => n = minimum_approvals r /\ m = approvals e /\ approvals e < minimum_approvals r
  | LastPushApprovalRequired => require_last_push_approval r = true /\ last_push_approved e = false
  | VerifiedSignatureRequired => AnyVerified ∈ required_signers r /\ signer e = None
  | AuthenticatedActorSignatureRequired =>
      AuthenticatedActor ∈ required_signers r /\ signer e <> Some SignedByActor
  | FileBeltServiceSignatureRequired =>
      FileBeltService ∈ required_signers r /\ signer e <> Some SignedByService
  | StatusCheckRequired c => c ∈ required_status_checks r /\ (c ∉ successful_status_checks e)
  | DeploymentRequired d => d ∈ required_deployments r /\ (d ∉ successful_deployments e)
  end.

(** ** Lemmas *)

Lemma elem_of_insert_if b f g s : g ∈ insert_if b f s <-> (b = true /\ g = f) \/ g ∈ s.
Proof. unfold insert_if. destruct b; rewrite ?elem_of_bset_insert; naive_solver. Qed.

Lemma insert_if_sorted b f s : StronglySorted olt s -> StronglySorted olt (insert_if b f s).
Proof. unfold insert_if. destruct b; [apply bset_insert_sorted|done]. Qed.

Lemma elem_of_fold_insert {A} (b : A -> bool) (f : A -> RepositoryAdmissionFailure) l s g :
  g ∈ fold_left (fun fs x => insert_if (b x) (f x) fs) l s <->
  (exists x, x ∈ l /\ b x = true /\ g = f x) \/ g ∈ s.
Proof.
  revert s. induction l as [|x l IH]; intros s; simpl; [set_solver|].
  rewrite IH, elem_of_insert_if. set_solver.
Qed.

Lemma fold_insert_sorted {A} (b : A -> bool) (f : A -> RepositoryAdmissionFailure) l s :
  StronglySorted olt s -> StronglySorted olt (fold_left (fun fs x => insert_if (b x) (f x) fs) l s).
Proof.
  revert s. induction l as [|x l IH]; intros s Hs; simpl; [done|]. by apply IH, insert_if_sorted.
Qed.

(** An unconditional insertion loop is a conditional one that always inserts. *)
Lemma fold_insert_always {A} (f : A -> RepositoryAdmissionFailure) l s :
  fold_left (fun fs x => bset_insert (f x) fs) l s
  = fold_left (fun fs x => insert_if ((fun _ => true) x) (f x) fs) l s.
Proof. done. Qed.

#[export] Hint Resolve insert_if_sorted fold_insert_sorted SSorted_nil : filebelt.

Lemma signer_satisfied_false required s :
  negb (signer_satisfied required s) = true <->
  match required with
  | AnyVerified => s = None
  | AuthenticatedActor => s <> Some SignedByActor
  | FileBeltService => s <> Some SignedByService
  end.
Proof.
  rewrite negb_true_iff. unfold signer_satisfied. destruct required; rewrite bool_decide_eq_false;
    [by rewrite <-eq_None_not_Some|done|done].
Qed.

Lemma admission_sorted r e : StronglySorted olt (evaluate_repository_admission r e).
Proof.
  unfold evaluate_repository_admission. destruct (validated_bypass e); [constructor|].
  rewrite !fold_insert_always. repeat (apply fold_insert_sorted || apply insert_if_sorted).
  destruct (mutation e); apply insert_if_sorted; constructor.
Qed.

Lemma admission_failures r e f :
  validated_bypass e = false ->
  f ∈ evaluate_repository_admission r e <-> violates r e f.
Proof.
  intros Hb. unfold evaluate_repository_admission. rewrite Hb.
  rewrite !fold_insert_always, !elem_of_fold_insert, !elem_of_insert_if.
  setoid_rewrite elem_of_bset_difference. setoid_rewrite signer_satisfied_false.
  rewrite !andb_true_iff, !negb_true_iff, !bool_decide_eq_true, Z.ltb_lt.
  assert (f ∈ match mutation e with
              | Create => insert_if (deny_create r) CreationDenied []
              | Update => insert_if (deny_update r) UpdateDenied []
              | Delete => insert_if (deny_delete r) DeletionDenied []
              end <->
          match f with
          | CreationDenied | UpdateDenied | DeletionDenied => violates r e f
          | _ => False
          end) as ->.
  { destruct (mutation e) eqn:Hm; rewrite elem_of_insert_if, elem_of_nil; destruct f; simpl;
      rewrite ?Hm; naive_solver. }
  split.
  - intros [(d & Hd & _ & ->)|[(c & Hc & _ & ->)|[(x & Hx & Hs & ->)|H]]]; [done|done|by destruct x|].
    destruct_or! H; destruct_and?; subst; simpl; try done. by destruct f.
  - intros Hv. destruct f; simpl in Hv |- *; try naive_solver;
      destruct Hv as [Hin Hv]; do 2 right; left; eexists; (split; [exact Hin|]); naive_solver.
Qed.

Lemma admission_nil r e :
  evaluate_repository_admission r e = [] <->
  validated_bypass e = true \/ forall f, ~ violates r e f.
Proof.
  destruct (validated_bypass e) eqn:Hb.
  - unfold evaluate_repository_admission. rewrite Hb. naive_solver.
  - pose proof (fun f => admission_failures r e f Hb) as Hf. split.
    + intros Hnil. right. intros f Hv%Hf. rewrite Hnil in Hv. by apply not_elem_of_nil in Hv.
    + intros [|Hno]; [done|]. destruct (evaluate_repository_admission r e) as [|f fs]; [done|].
      destruct (Hno f). apply Hf. left.
Qed.

(** Combining two rulesets violates what one of them does; the approval
    threshold is the greater one. *)
Lemma require_violates r1 r2 e f :
  (forall n m, f <> ApprovalsRequired n m) ->
  violates (require r1 r2) e f <-> violates r1 e f \/ violates r2 e f.
Proof.
  intros Hf. destruct f; simpl; rewrite ?orb_true_iff, ?elem_of_bset_extend; try naive_solver.
Qed.

Lemma no_approvals_failure r e :
  (forall n m, ~ violates r e (ApprovalsRequired n m)) <-> minimum_approvals r <= approvals e.
Proof.
  simpl. split; [|naive_solver lia]. intros H.
  destruct (Z.lt_ge_cases (approvals e) (minimum_approvals r)); [|lia]. by edestruct H.
Qed.

Lemma require_admits r1 r2 e :
  (forall f, ~ violates (require r1 r2) e f) <->
  (forall f, ~ violates r1 e f) /\ (forall f, ~ violates r2 e f).
Proof.
  assert (forall r, (forall f, ~ violates r e f) <->
    (forall f, (forall n m, f <> ApprovalsRequired n m) -> ~ violates r e f) /\
    minimum_approvals r <= approvals e) as Hsplit.
  { intros r. rewrite <-no_approvals_failure. split; [auto|].
    intros [H1 H2] f. destruct f; try (by apply H1); apply H2. }
  rewrite !Hsplit. cbn [require minimum_approvals]. rewrite Z.max_lub_iff.
  pose proof (require_violates r1 r2 e) as Hv. split.
  - intros [H [H1 H2]]. repeat split; try done; intros f Hf Hr; apply (H f Hf), Hv; auto.
  - intros [[H1 Ha1] [H2 Ha2]]. repeat split; try done.
    intros f Hf [Hr|Hr]%Hv; [by apply (H1 f)|by apply (H2 f)|done].
Qed.

Lemma default_admits e : 0 <= approvals e -> forall f, ~ violates default_rules e f.
Proof.
  intros Ha f. destruct f; simpl; try (by intros [? _]); [lia| | | | |];
    intros [H _]; by apply not_elem_of_nil in H.
Qed.

Lemma fold_require_admits rs r e :
  (forall f, ~ violates (fold_left require rs r) e f) <->
  (forall f, ~ violates r e f) /\ Forall (fun r' => forall f, ~ violates r' e f) rs.
Proof.
  revert r. induction rs as [|r' rs IH]; intros r; simpl; [rewrite Forall_nil; tauto|].
  rewrite IH, require_admits, Forall_cons. tauto.
Qed.

(** ** Properties *)

(** The admission check reports exactly the violated requirements, in
    strictly ascending order and without duplicates; a validated bypass, and
    nothing else in the evidence, suppresses them all. *)
Theorem admission_reports_violations r e :
  StronglySorted olt (evaluate_repository_admission r e) /\
  (validated_bypass e = false ->
   forall f, f ∈ evaluate_repository_admission r e <-> violates r e f) /\
  (validated_bypass e = true -> evaluate_repository_admission r e = []).
Proof.
  split; [apply admission_sorted|]. split.
  - intros Hb f. by apply admission_failures.
  - intros Hb. apply admission_nil. by left.
Qed.

(** Most restrictive wins: the rulesets folded together with [require]
    admit an update exactly when every one of them admits it on its own, so
    adding a ruleset never admits more and their order does not matter. *)
Theorem rulesets_most_restrictive rs e :
  0 <= approvals e ->
  evaluate_repository_admission (fold_left require rs default_rules) e = [] <->
  Forall (fun r => evaluate_repository_admission r e = []) rs.
Proof.
  intros Ha. setoid_rewrite admission_nil. rewrite fold_require_admits.
  destruct (validated_bypass e) eqn:Hb.
  - split; [|auto]. intros _. apply Forall_forall. auto.
  - split.
    + intros [|[_ H]]; [done|]. eapply Forall_impl; [exact H|]. auto.
    + intros H. right. split; [by apply default_admits|].
      eapply Forall_impl; [exact H|]. naive_solver.
Qed.

(** The default [main] policy admits an update without a bypass exactly
    when it is signed by a registered signer, is not a deletion, and is a fast
    forward if it updates an existing ref. *)
Theorem safe_writable_main_policy e :
  0 <= approvals e -> validated_bypass e = false ->
  evaluate_repository_admission safe_writable_main e = [] <->
  is_Some (signer e) /\ mutation e <> Delete /\ (mutation e = Update -> fast_forward e = true).
Proof.
  intros Ha Hb. rewrite admission_nil, Hb. split.
  - intros [|H]; [done|]. split; [|split].
    + pose proof (H VerifiedSignatureRequired) as Hs. simpl in Hs. destruct (signer e); [eauto|].
      destruct Hs. split; [left|done].
    + intros Hm. by apply (H DeletionDenied).
    + intros Hm. destruct (fast_forward e) eqn:Hf; [done|]. by destruct (H NonFastForward).
  - intros (Hs & Hm & Hf). right. intros f. destruct f; simpl; try (by intros [? _]).
    + intros [_ ?]. done.
    + intros (_ & Hu & Hn). rewrite (Hf Hu) in Hn. done.
    + lia.
    + intros [_ Hn]. rewrite Hn in Hs. by destruct Hs.
    + intros [Hin%list_elem_of_singleton _]. done.
    + intros [Hin%list_elem_of_singleton _]. done.
    + intros [Hin%not_elem_of_nil _]. done.
    + intros [Hin%not_elem_of_nil _]. done.
Qed.

(** ** Witnesses *)

Definition demo_evidence : RepositoryAdmissionEvidence :=
  mkAdmission Update true true (Some SignedByActor) false 1 false ["ci/build"%string] [] false.
Definition demo_ruleset : RepositoryRuleRequirements :=
  mkRules false false false false true false 1 false [AuthenticatedActor] ["ci/build"%string] [].

Lemma admission_reports_violations_witness :
  NonFastForward ∈ evaluate_repository_admission safe_writable_main
    (mkAdmission Update false true None false 0 false [] [] false).
Proof.
  apply (admission_reports_violations safe_writable_main
           (mkAdmission Update false true None false 0 false [] [] false)); by vm_compute.
Defined.

Lemma rulesets_most_restrictive_witness :
  evaluate_repository_admission
    (fold_left require [safe_writable_main; demo_ruleset] default_rules) demo_evidence = [].
Proof.
  apply (rulesets_most_restrictive [safe_writable_main; demo_ruleset] demo_evidence); [done|].
  repeat constructor.
Defined.

Lemma safe_writable_main_policy_witness :
  evaluate_repository_admission safe_writable_main demo_evidence = [].
Proof.
  apply (safe_writable_main_policy demo_evidence); [done|done|].
  split; [by eexists|]. split; [done|]. intros _. reflexivity.
Defined.
