(* ===== verification/Keyset.v ===== *)
(** Model of [source/crates/filebelt-capability-keyset/src/lib.rs]: the strict,
    purpose-bound text format of Ed25519 verification keysets. Base64 and
    Ed25519 are the parameters of [Libraries]; a public key [[u8; 32]] is a byte
    list of length 32 and a key generation a [u32]. *)
From S2P Require Import Prelude Collections Libraries ConcreteCodecs.

Open Scope string_scope.
Open Scope Z_scope.
Open Scope list_scope.
Open Scope bool_scope.

Definition FORMAT : string := "filebelt-capability-keyset-v2".
Definition MAX_KEYSET_TEXT_BYTES : Z := 1024.

Inductive KeyPurpose :=
| ApiStorage | ApiCollaborationGrant | ApiMcpDelegation | CollaborationStorage
| DocumentStorage | RevisionStorage | MountStorage | MediaStorage.
#[export] Instance KeyPurpose_eq_dec : EqDecision KeyPurpose.
Proof. solve_decision. Defined.

Definition KeyPurpose_as_str (p : KeyPurpose) : string :=
  match p with
  | ApiStorage => "api-storage"
  | ApiCollaborationGrant => "api-collaboration-grant"
  | ApiMcpDelegation => "api-mcp-delegation"
  | CollaborationStorage => "collaboration-storage"
  | DocumentStorage => "document-storage"
  | RevisionStorage => "revision-storage"
  | MountStorage => "mount-storage"
  | MediaStorage => "media-storage"
  end.

Inductive KeysetError := KsInvalidEncoding | KsUnknownKey | KsInvalidSignature.

Definition KeyPurpose_from_str (s : string) : result KeysetError KeyPurpose :=
  if String.eqb s "api-storage" then Ok ApiStorage
  else if String.eqb s "api-collaboration-grant" then Ok ApiCollaborationGrant
  else if String.eqb s "api-mcp-delegation" then Ok ApiMcpDelegation
  else if String.eqb s "collaboration-storage" then Ok CollaborationStorage
  else if String.eqb s "document-storage" then Ok DocumentStorage
  else if String.eqb s "revision-storage" then Ok RevisionStorage
  else if String.eqb s "mount-storage" then Ok MountStorage
  else if String.eqb s "media-storage" then Ok MediaStorage
  else Err KsInvalidEncoding.

(** [BTreeMap<u32, [u8; 32]>] *)
Abbreviation Keyset := (btmap Z (list ascii)).

Definition newline : ascii := "010".
Definition colon : ascii := ":".

#[export] Instance byte_val_Inj : Inj eq eq byte_val.
Proof. intros a b. apply byte_val_inj. Qed.
#[export] Instance byte_Ord : Ord ascii := ord_via byte_val.
#[export] Instance byte_OrdLaws : OrdLaws ascii := ord_via_laws byte_val _.

Section keyset.
Context `{Base64Lib}.

(** [keys.contains_key(&generation) || keys.values().any(|key| key == &public_key)] *)
Definition key_conflicts (keys : Keyset) (generation : Z) (key : bytes) : bool :=
  bt_contains generation keys || existsb (fun kv => bool_decide (kv.2 = key)) keys.

(** The body of the [for line in &lines[2..]] loop. *)
Definition parse_key_line (keys : Keyset) (line : string) : result KeysetError Keyset :=
  match split_once_char colon line with
  | None => Err KsInvalidEncoding
  | Some (generation_text, encoded) =>
      if String.eqb generation_text "" || negb (forallb is_ascii_digit (as_bytes generation_text))
      then Err KsInvalidEncoding
      else
        match parse_unsigned u32_max generation_text with
        | None => Err KsInvalidEncoding
        | Some generation =>
            if (generation =? 0) || negb (String.eqb (dec_to_string generation) generation_text)
            then Err KsInvalidEncoding
            else
              match b64_decode encoded with
              | None => Err KsInvalidEncoding
              | Some public_key =>
                  if negb (len public_key =? 32) then Err KsInvalidEncoding
                  else if key_conflicts keys generation public_key then Err KsInvalidEncoding
                  else Ok (bt_insert generation public_key keys)
              end
        end
  end.

Fixpoint parse_key_lines (keys : Keyset) (lines : list string) : result KeysetError Keyset :=
  match lines with
  | [] => Ok keys
  | line :: rest => let? keys' := parse_key_line keys line in parse_key_lines keys' rest
  end.

Definition ends_with_newline (s : string) : bool :=
  match strip_suffix (String newline "") s with Some _ => true | None => false end.

Definition Keyset_parse (source purpose : string) : result KeysetError Keyset :=
  if String.eqb source "" || (MAX_KEYSET_TEXT_BYTES <? str_len source) || negb (is_ascii source)
  then Err KsInvalidEncoding
  else
    match strip_suffix (String newline "") source with
    | None => Err KsInvalidEncoding
    | Some canonical =>
        if ends_with_newline canonical then Err KsInvalidEncoding
        else
          match split_char newline canonical with
          | line0 :: line1 :: rest =>
              if negb ((3 <=? 2 + len rest) && (2 + len rest <=? 4))
                 || negb (String.eqb line0 FORMAT)
                 || negb (String.eqb line1 ("purpose=" +:+ purpose))
              then Err KsInvalidEncoding
              else parse_key_lines [] rest
          | _ => Err KsInvalidEncoding
          end
    end.

Definition Keyset_verify `{Ed25519Lib} (keys : Keyset) (generation : Z) (message signature : bytes)
  : result KeysetError unit :=
  match bt_get generation keys with
  | None => Err KsUnknownKey
  | Some key => if ed_verify key message signature then Ok tt else Err KsInvalidSignature
  end.

(** The validation loop of [encode_keyset]. *)
Fixpoint collect_entries (keys : Keyset) (entries : list (Z * bytes)) : result KeysetError Keyset :=
  match entries with
  | [] => Ok keys
  | (generation, public_key) :: rest =>
      if (generation =? 0) || key_conflicts keys generation public_key then Err KsInvalidEncoding
      else collect_entries (bt_insert generation public_key keys) rest
  end.

Definition key_line (kv : Z * bytes) : string :=
  dec_to_string kv.1 +:+ String colon (b64_encode kv.2).

Fixpoint push_lines (output : string) (lines : list string) : string :=
  match lines with
  | [] => output
  | l :: rest => push_lines (output +:+ l +:+ String newline "") rest
  end.

Definition encode_keyset (purpose : KeyPurpose) (entries : list (Z * bytes))
  : result KeysetError string :=
  if negb ((1 <=? len entries) && (len entries <=? 2)) then Err KsInvalidEncoding
  else
    let? keys := collect_entries [] entries in
    Ok (push_lines (FORMAT +:+ String newline ("purpose=" +:+ KeyPurpose_as_str purpose +:+ String newline ""))
          (map key_line keys)).

(** [keys.into_iter().all(|key| observed.insert(key))] *)
Fixpoint all_inserted (observed keys : list bytes) : bool :=
  match keys with
  | [] => true
  | k :: rest => if bset_contains k observed then false else all_inserted (bset_insert k observed) rest
  end.
Definition public_key_material_is_disjoint (keys : list bytes) : bool := all_inserted [] keys.

(** ** Typed keysets: one wrapper per purpose *)

Definition typed_parse (p : KeyPurpose) (source : string) : result KeysetError Keyset :=
  Keyset_parse source (KeyPurpose_as_str p).

(** The newtype [typed_keyset!] generates for the purpose [p]. *)
Record TypedKeyset (p : KeyPurpose) := Typed { untyped : Keyset }.

Definition TypedKeyset_parse (p : KeyPurpose) (source : string) : result KeysetError (TypedKeyset p) :=
  result_map (Typed p) (typed_parse p source).

Definition contains_generation {p} (keys : TypedKeyset p) (generation : Z) : bool :=
  bt_contains generation (untyped p keys).
Definition public_key {p} (keys : TypedKeyset p) (generation : Z) : option bytes :=
  bt_get generation (untyped p keys).
Definition TypedKeyset_verify `{Ed25519Lib} {p} (keys : TypedKeyset p) (generation : Z)
    (message signature : bytes) : result KeysetError unit :=
  Keyset_verify (untyped p keys) generation message signature.

(** ** Well-formed keysets *)

Definition valid_key (kv : Z * bytes) : Prop := 0 < kv.1 <= u32_max /\ len kv.2 = 32.

Record keyset_wf (keys : Keyset) : Prop := {
  kw_sorted : bt_wf keys;
  kw_keys : NoDup keys.*2;
  kw_valid : Forall valid_key keys
}.

Lemma key_conflicts_false keys g k :
  key_conflicts keys g k = false <-> bt_get g keys = None /\ (k ∉ keys.*2).
Proof.
  unfold key_conflicts, bt_contains. rewrite orb_false_iff. f_equiv.
  - destruct (bt_get g keys); naive_solver.
  - rewrite <-not_true_iff_false, existsb_exists. setoid_rewrite bool_decide_eq_true. f_equiv.
    rewrite list_elem_of_fmap. setoid_rewrite list_elem_of_In. naive_solver.
Qed.

Lemma keyset_insert_wf keys g k :
  keyset_wf keys -> valid_key (g, k) -> key_conflicts keys g k = false ->
  keyset_wf (bt_insert g k keys) /\ bt_insert g k keys ≡ₚ (g, k) :: keys.
Proof.
  intros [Hs Hk Hv] Hkv [Hg Hnk]%key_conflicts_false.
  pose proof (bt_insert_perm g k keys Hs Hg) as Hp.
  split; [|done]. split; [by apply bt_insert_wf| |by rewrite Hp; constructor].
  rewrite Hp. by constructor.
Qed.

Lemma collect_entries_spec keys entries m :
  keyset_wf keys -> Forall (fun kv => is_u32 kv.1 /\ len kv.2 = 32) entries ->
  collect_entries keys entries = Ok m -> keyset_wf m /\ m ≡ₚ entries ++ keys.
Proof.
  intros Hwf Hall. revert keys Hwf. induction Hall as [|[g k] entries [Hg Hk] Hall IH];
    intros keys Hwf; simpl; [by intros [= <-]|].
  destruct (Z.eqb_spec g 0) as [|Hg0]; [done|]. destruct (key_conflicts keys g k) eqn:Hc; [done|].
  simpl. unfold is_u32 in Hg. simpl in *. intros Hm.
  destruct (keyset_insert_wf keys g k Hwf) as [Hwf' Hp]; [by split; simpl; [lia|]|done|].
  apply IH in Hm as [Hm1 Hm2]; [|done]. split; [done|]. rewrite Hm2, Hp. by rewrite Permutation_middle.
Qed.

(** ** Lines *)

Context `{!Base64Laws}.

Lemma key_line_chars kv : forall c, c ∈ as_bytes (key_line kv) ->
  is_ascii_digit c = true \/ c = colon \/ b64_alphabet c = true.
Proof.
  intros c. unfold key_line. rewrite as_bytes_app. rewrite elem_of_app. cbn. rewrite elem_of_cons.
  pose proof (dec_to_string_digits kv.1) as Hd. rewrite Forall_forall in Hd.
  intros [Hc|[->|Hc]]; [left; by apply Hd|by right; left|right; right].
  by eapply b64_encode_alphabet.
Qed.

Lemma key_line_free kv : char_free newline (key_line kv).
Proof. intros Hc. apply key_line_chars in Hc as [Hc|[Hc|Hc]]; done. Qed.

Lemma dec_free z c : is_ascii_digit c = false -> char_free c (dec_to_string z).
Proof.
  intros Hc Hin. pose proof (dec_to_string_digits z) as Hd. rewrite Forall_forall in Hd.
  by rewrite (Hd c Hin) in Hc.
Qed.

Lemma parse_key_line_print keys g k :
  valid_key (g, k) ->
  parse_key_line keys (key_line (g, k)) =
  if key_conflicts keys g k then Err KsInvalidEncoding else Ok (bt_insert g k keys).
Proof.
  intros [Hg Hk]. simpl in Hg, Hk. unfold parse_key_line, key_line. cbn [fst snd].
  rewrite split_once_char_app by (by apply dec_free).
  destruct (dec_to_string_digit g) as (c & s & Hs & _).
  assert (forallb is_ascii_digit (as_bytes (dec_to_string g)) = true) as ->.
  { apply forallb_forall. intros x Hx. pose proof (dec_to_string_digits g) as Hd.
    rewrite Forall_forall in Hd. by apply Hd, list_elem_of_In. }
  rewrite parse_dec_to_string by lia.
  replace (String.eqb (dec_to_string g) "") with false by (by rewrite Hs).
  rewrite (proj2 (Z.eqb_neq g 0)) by lia. rewrite String.eqb_refl, b64_decode_encode. simpl.
  by rewrite Hk.
Qed.

Lemma parse_key_line_sound keys line m :
  parse_key_line keys line = Ok m ->
  exists g k, valid_key (g, k) /\ line = key_line (g, k) /\
    key_conflicts keys g k = false /\ m = bt_insert g k keys.
Proof.
  unfold parse_key_line. destruct (split_once_char colon line) as [[t e]|] eqn:Hl; [|done].
  destruct (_ || _); [done|].
  destruct (parse_unsigned u32_max t) as [g|] eqn:Hp; [|done].
  destruct (Z.eqb_spec g 0) as [|Hg]; [done|]. simpl.
  destruct (String.eqb_spec (dec_to_string g) t) as [Ht|]; [|done]. simpl.
  destruct (b64_decode e) as [k|] eqn:Hk; [|done].
  destruct (Z.eqb_spec (len k) 32) as [Hlen|]; [|done]. simpl.
  destruct (key_conflicts keys g k) eqn:Hc; [done|]. intros [= <-].
  exists g, k. split; [|split; [|done]].
  - apply parse_unsigned_bound in Hp. split; simpl; [lia|done].
  - apply split_once_char_Some in Hl. unfold key_line. cbn [fst snd].
    apply b64_decode_canonical in Hk. by rewrite Ht, <-Hk.
Qed.

Lemma parse_key_lines_sound keys lines m :
  keyset_wf keys -> parse_key_lines keys lines = Ok m ->
  exists entries, lines = map key_line entries /\ keyset_wf m /\ m ≡ₚ entries ++ keys.
Proof.
  revert keys. induction lines as [|l lines IH]; intros keys Hwf; simpl.
  - intros [= <-]. by exists [].
  - destruct (parse_key_line keys l) as [keys'|] eqn:Hl; [|done].
    apply parse_key_line_sound in Hl as (g & k & Hv & -> & Hc & ->).
    destruct (keyset_insert_wf keys g k Hwf Hv Hc) as [Hwf' Hp]. intros Hm.
    destruct (IH _ Hwf' Hm) as (es & -> & Hm1 & Hm2). exists ((g, k) :: es).
    split; [done|]. split; [done|]. rewrite Hm2, Hp. simpl. by rewrite Permutation_middle.
Qed.

(** Reading the lines of a keyset in ascending order rebuilds it. *)
Lemma parse_key_lines_print done_ todo :
  keyset_wf (done_ ++ todo) -> parse_key_lines done_ (map key_line todo) = Ok (done_ ++ todo).
Proof.
  revert done_. induction todo as [|[g k] todo IH]; intros done_ Hwf; simpl; [by rewrite app_nil_r|].
  destruct Hwf as [Hs Hk Hv]. unfold bt_wf in Hs. rewrite fmap_app in Hs. rewrite fmap_app in Hk.
  rewrite parse_key_line_print by (rewrite Forall_app, Forall_cons in Hv; tauto).
  assert (Forall (fun g' => olt g' g) done_.*1) as Hlt.
  { apply Forall_forall. intros g' Hg'. eapply StronglySorted_app_1_elem_of; [exact Hs|done|left]. }
  assert (key_conflicts done_ g k = false) as ->.
  { apply key_conflicts_false. split.
    - destruct (bt_get g done_) as [v|] eqn:Hg; [|done].
      assert (bt_wf done_) as Hd by (unfold bt_wf; by eapply StronglySorted_app_1_l).
      assert (g ∈ done_.*1) as Hin by (apply bt_get_dom; [done|eauto]).
      rewrite Forall_forall in Hlt. by destruct (olt_irrefl g (Hlt g Hin)).
    - apply NoDup_app in Hk as (_ & Hk & _). intros Hin. apply (Hk k Hin). left. }
  rewrite bt_insert_snoc by done. rewrite IH; [by rewrite <-app_assoc|].
  rewrite <-app_assoc. split; [|by rewrite fmap_app|done]. unfold bt_wf. by rewrite fmap_app.
Qed.

Lemma join_snoc c ps l : ps <> [] -> join_char c (ps ++ [l]) = join_char c ps +:+ String c l.
Proof.
  induction ps as [|p [|q ps] IH]; [done|done|]. intros _.
  change ((p :: q :: ps) ++ [l]) with (p :: (q :: ps) ++ [l]).
  change (join_char c (p :: (q :: ps) ++ [l])) with (p +:+ String c (join_char c ((q :: ps) ++ [l]))).
  rewrite IH by done. cbn [join_char]. by rewrite str_app_assoc.
Qed.

Lemma push_lines_join ps lines :
  ps <> [] ->
  push_lines (join_char newline ps +:+ String newline "") lines
  = join_char newline (ps ++ lines) +:+ String newline "".
Proof.
  revert ps. induction lines as [|l lines IH]; intros ps Hps; simpl; [by rewrite app_nil_r|].
  rewrite <-str_app_assoc, (str_app_assoc _ (String newline "") l).
  change (String newline "" +:+ l) with (String newline l).
  rewrite <-join_snoc by done. rewrite IH by (by destruct ps). by rewrite <-app_assoc.
Qed.

Lemma split_suffix c s : split_char c (s +:+ String c "") = split_char c s ++ [""].
Proof.
  induction s as [|a s IH]; simpl; [by rewrite Ascii.eqb_refl|]. rewrite IH.
  destruct (Ascii.eqb a c); [done|]. pose proof (split_char_ne c s). by destruct (split_char c s).
Qed.

Lemma last_split_suffix c s : last (split_char c (s +:+ String c "")) = Some "".
Proof. by rewrite split_suffix, last_snoc. Qed.

Definition text_lines (purpose : string) (entries : list (Z * bytes)) : list string :=
  FORMAT :: ("purpose=" +:+ purpose) :: map key_line entries.
Definition keyset_text (purpose : string) (entries : list (Z * bytes)) : string :=
  join_char newline (text_lines purpose entries) +:+ String newline "".

Lemma key_line_length kv : valid_key kv -> (String.length (key_line kv) <= 76)%nat.
Proof.
  intros [Hg Hk]. unfold key_line. rewrite str_length_app. cbn [String.length].
  pose proof (dec_to_string_length kv.1 ltac:(lia)) as Hd.
  assert (Pos.size_nat (Z.to_pos kv.1) <= 32)%nat as Hs.
  { destruct (Z.eq_dec kv.1 u32_max) as [->|Hne]; [done|].
    etransitivity; [apply (Pos.size_nat_monotone _ (Z.to_pos u32_max)); unfold u32_max in *; lia|done]. }
  pose proof (b64_encode_length kv.2) as Hb. rewrite Hk in Hb. unfold str_len in Hb.
  change ((4 * 32 + 2) / 3) with 43 in Hb. lia.
Qed.

Lemma is_ascii_app s t : is_ascii (s +:+ t) = is_ascii s && is_ascii t.
Proof. unfold is_ascii. by rewrite as_bytes_app, forallb_app. Qed.

Lemma alphabet_ascii c :
  is_ascii_digit c = true \/ c = colon \/ b64_alphabet c = true -> is_ascii_byte c = true.
Proof.
  unfold b64_alphabet, is_ascii_digit, is_ascii_uppercase, is_ascii_byte. intros [H1|[->|H1]]; [|done|];
    rewrite !orb_true_iff, !andb_true_iff, ?Z.leb_le, ?Z.eqb_eq, ?Z.ltb_lt in * ||
    rewrite !andb_true_iff, ?Z.leb_le, ?Z.ltb_lt in *; lia.
Qed.

Lemma key_line_ascii kv : is_ascii (key_line kv) = true.
Proof.
  apply forallb_forall. intros c Hc%list_elem_of_In. by eapply alphabet_ascii, key_line_chars.
Qed.

Lemma key_line_ne kv : key_line kv <> "".
Proof. unfold key_line. by destruct (dec_to_string_digit kv.1) as (c & s & -> & _). Qed.

(** What [Keyset_parse] does on a text built from valid entries. *)
Lemma Keyset_parse_text p entries :
  (length entries = 1 \/ length entries = 2)%nat -> Forall valid_key entries ->
  Keyset_parse (keyset_text (KeyPurpose_as_str p) entries) (KeyPurpose_as_str p)
  = parse_key_lines [] (map key_line entries).
Proof.
  intros Hlen Hv. unfold Keyset_parse.
  assert (is_ascii (keyset_text (KeyPurpose_as_str p) entries) = true /\
          (String.length (keyset_text (KeyPurpose_as_str p) entries) <= 1024)%nat) as [-> Hsz].
  { unfold keyset_text, text_lines. destruct entries as [|kv1 [|kv2 [|]]]; simpl in Hlen; try lia;
      rewrite !Forall_cons in Hv; destruct_and?; cbn [map join_char].
    - pose proof (key_line_length kv1 ltac:(done)). pose proof (key_line_ascii kv1) as Ha1.
      split; [|rewrite !str_length_app; cbn [String.length]; rewrite !str_length_app; destruct p; cbn; lia].
      rewrite is_ascii_app. change (String newline (("purpose=" +:+ KeyPurpose_as_str p) +:+ String newline (key_line kv1)))
        with (String newline "" +:+ (("purpose=" +:+ KeyPurpose_as_str p) +:+ (String newline "" +:+ key_line kv1))).
      rewrite !is_ascii_app, Ha1. by destruct p.
    - pose proof (key_line_length kv1 ltac:(done)). pose proof (key_line_ascii kv1) as Ha1.
      pose proof (key_line_length kv2 ltac:(done)). pose proof (key_line_ascii kv2) as Ha2.
      split; [|rewrite !str_length_app; cbn [String.length]; rewrite !str_length_app; cbn [String.length];
               rewrite !str_length_app; cbn [String.length]; destruct p; cbn; lia].
      rewrite is_ascii_app.
      change (String newline (("purpose=" +:+ KeyPurpose_as_str p) +:+ String newline (key_line kv1 +:+ String newline (key_line kv2))))
        with (String newline "" +:+ (("purpose=" +:+ KeyPurpose_as_str p) +:+ (String newline "" +:+ (key_line kv1 +:+ (String newline "" +:+ key_line kv2))))).
      rewrite !is_ascii_app, Ha1, Ha2. by destruct p. }
  assert (String.eqb (keyset_text (KeyPurpose_as_str p) entries) "" = false) as -> by done.
  rewrite (proj2 (Z.ltb_ge _ _)) by (unfold str_len, MAX_KEYSET_TEXT_BYTES; lia). simpl orb.
  assert (Forall (char_free newline) (text_lines (KeyPurpose_as_str p) entries)) as Hfree.
  { unfold text_lines. repeat constructor; [|destruct p|].
    1-9: apply (bool_decide_unpack _); vm_compute; exact I.
    apply Forall_map, Forall_forall. intros. apply key_line_free. }
  pose proof (proj2 (strip_suffix_Some (String newline "") (keyset_text (KeyPurpose_as_str p) entries)
    (join_char newline (text_lines (KeyPurpose_as_str p) entries))) eq_refl) as Hs.
  rewrite Hs. clear Hs.
  pose proof (split_join_char newline (text_lines (KeyPurpose_as_str p) entries) ltac:(done) Hfree) as Hsplit.
  assert (ends_with_newline (join_char newline (text_lines (KeyPurpose_as_str p) entries)) = false) as ->.
  { unfold ends_with_newline. destruct (strip_suffix _ _) as [r|] eqn:Hr; [|done].
    rewrite strip_suffix_Some in Hr. rewrite Hr in Hsplit. pose proof (last_split_suffix newline r) as Hl.
    rewrite Hsplit in Hl. unfold text_lines in Hl.
    destruct entries as [|kv1 [|kv2 [|]]]; simpl in Hlen; try lia; simpl in Hl; simplify_eq;
      by destruct (key_line_ne _ Hl). }
  rewrite Hsplit. cbn [text_lines]. unfold text_lines. rewrite !String.eqb_refl. simpl negb.
  unfold len. rewrite length_map. destruct Hlen as [-> | ->]; done.
Qed.
End keyset.

Section keyset_laws.
Context `{Base64Laws}.

Lemma Keyset_parse_sound source purpose keys :
  Keyset_parse source purpose = Ok keys ->
  exists entries, source = keyset_text purpose entries /\
    (length entries = 1 \/ length entries = 2)%nat /\ keyset_wf keys /\ keys ≡ₚ entries.
Proof.
  unfold Keyset_parse. destruct (_ || _); [done|].
  destruct (strip_suffix (String newline "") source) as [canonical|] eqn:Hs; [|done].
  destruct (ends_with_newline canonical); [done|].
  pose proof (join_split_char newline canonical) as Hj.
  destruct (split_char newline canonical) as [|l0 [|l1 rest]]; [done|done|].
  destruct (_ || _) eqn:Hc; [done|]. intros Hp.
  rewrite !orb_false_iff, !negb_false_iff, andb_true_iff in Hc. destruct Hc as [[Hl Hc0] Hc1].
  rewrite String.eqb_eq in Hc0. rewrite String.eqb_eq in Hc1. subst l0 l1.
  destruct (parse_key_lines_sound [] rest keys) as (es & -> & Hwf & Hperm); [|done|].
  { split; constructor. }
  exists es. rewrite strip_suffix_Some in Hs. unfold keyset_text, text_lines. rewrite Hj.
  split; [done|]. rewrite app_nil_r in Hperm. split; [|done].
  unfold len in Hl. rewrite length_map, !Z.leb_le in Hl. lia.
Qed.

Lemma strip_suffix_app p r : strip_suffix p (r +:+ p) = Some r.
Proof. by apply strip_suffix_Some. Qed.

Lemma join_two_inj c a b1 b2 l1 l2 :
  char_free c a -> char_free c b1 -> char_free c b2 -> l1 <> [] -> l2 <> [] ->
  join_char c (a :: b1 :: l1) = join_char c (a :: b2 :: l2) -> b1 = b2.
Proof.
  intros Ha Hb1 Hb2 Hl1 Hl2 Heq. apply (f_equal (split_char c)) in Heq.
  destruct l1 as [|x1 l1]; [done|]. destruct l2 as [|x2 l2]; [done|].
  cbn [join_char] in Heq. rewrite !split_char_app in Heq by done. congruence.
Qed.

(** ** Properties *)

(** A keyset text that [Keyset::parse] accepts is canonical and bound to its
    purpose: it is the format line, the purpose line and one or two
    [generation:key] lines, it parses under no other purpose, and the keys have
    distinct non-zero 32-bit generations and pairwise distinct 32-byte values. *)
Theorem keyset_parse_canonical source p keys :
  typed_parse p source = Ok keys ->
  (exists entries, source = keyset_text (KeyPurpose_as_str p) entries /\ entries ≡ₚ keys) /\
  keyset_wf keys /\ 1 <= len keys <= 2 /\
  (forall p' keys', typed_parse p' source = Ok keys' -> p' = p /\ keys' = keys).
Proof.
  unfold typed_parse. intros Hp. destruct (Keyset_parse_sound _ _ _ Hp) as (es & Hs & Hl & Hwf & Hperm).
  split; [by exists es|]. split; [done|]. split.
  { unfold len. rewrite Hperm. lia. }
  intros p' keys' Hp'. destruct (Keyset_parse_sound _ _ _ Hp') as (es' & Hs' & Hl' & _).
  assert (p' = p) as ->; [|split; congruence].
  rewrite Hs' in Hs. unfold keyset_text in Hs.
  assert (join_char newline (text_lines (KeyPurpose_as_str p') es')
          = join_char newline (text_lines (KeyPurpose_as_str p) es)) as Hj.
  { apply (f_equal (strip_suffix (String newline ""))) in Hs.
    rewrite !strip_suffix_app in Hs. congruence. }
  apply join_two_inj in Hj; [by destruct p, p'|by apply (bool_decide_unpack _)|..].
  - destruct p'; by apply (bool_decide_unpack _).
  - destruct p; by apply (bool_decide_unpack _).
  - by destruct es'; simpl in *; [lia|].
  - by destruct es; simpl in *; [lia|].
Qed.

(** Encoding and parsing a keyset are inverse: whatever [encode_keyset]
    accepts parses back under the same purpose to exactly the encoded entries. *)
Theorem keyset_round_trip p entries text :
  Forall (fun kv => is_u32 kv.1 /\ len kv.2 = 32) entries ->
  encode_keyset p entries = Ok text ->
  exists keys, typed_parse p text = Ok keys /\ keys ≡ₚ entries /\ bt_wf keys.
Proof.
  intros Hall. unfold encode_keyset, typed_parse.
  destruct (negb _) eqn:Hl; [done|]. rewrite negb_false_iff, andb_true_iff, !Z.leb_le in Hl.
  destruct (collect_entries [] entries) as [keys|] eqn:Hc; [|done]. intros [= <-].
  assert (keyset_wf []) as Hnil by (split; constructor).
  destruct (collect_entries_spec [] entries keys Hnil Hall Hc) as [Hwf Hperm].
  rewrite app_nil_r in Hperm. exists keys. split; [|split; [done|apply Hwf]].
  match goal with |- context [push_lines ?h _] =>
    change h with (join_char newline [FORMAT; "purpose=" +:+ KeyPurpose_as_str p] +:+ String newline "")
  end.
  rewrite push_lines_join by done. etransitivity; [apply (Keyset_parse_text p keys)|].
  - unfold len in Hl. rewrite <-Hperm in Hl. lia.
  - apply Hwf.
  - by apply (parse_key_lines_print []).
Qed.

Lemma all_inserted_spec observed keys :
  all_inserted observed keys = true <-> NoDup keys /\ forall k, k ∈ keys -> k ∉ observed.
Proof.
  revert observed. induction keys as [|k keys IH]; intros observed; simpl.
  - split; [|done]. intros _. split; [constructor|]. intros k Hk. by apply not_elem_of_nil in Hk.
  - destruct (bset_contains k observed) eqn:Hc.
    + apply bset_contains_true in Hc. split; [done|]. intros [_ Hno]. by destruct (Hno k); [left|].
    + assert (k ∉ observed) as Hk.
      { intros Hin. apply (proj2 (bset_contains_true k observed)) in Hin. congruence. }
      rewrite IH, NoDup_cons. setoid_rewrite elem_of_bset_insert. set_solver.
Qed.

(** The start-up check across purposes accepts exactly the key lists
    without a repeated public key. *)
Theorem key_material_disjoint_iff keys :
  public_key_material_is_disjoint keys = true <-> NoDup keys.
Proof. unfold public_key_material_is_disjoint. rewrite all_inserted_spec. set_solver. Qed.
End keyset_laws.

(** ** Witnesses *)

Definition demo_key (c : ascii) : bytes := replicate 32 c.
Definition demo_entries : list (Z * bytes) := [(7, demo_key "b"); (3, demo_key "a")].
Definition demo_text : string :=
  match encode_keyset ApiStorage demo_entries with Ok t => t | Err _ => "" end.

Lemma keyset_round_trip_witness :
  exists keys, typed_parse ApiStorage demo_text = Ok keys /\ keys ≡ₚ demo_entries /\ bt_wf keys.
Proof.
  apply (keyset_round_trip ApiStorage demo_entries demo_text).
  - repeat constructor; vm_compute; done.
  - vm_compute. reflexivity.
Defined.

Lemma keyset_parse_canonical_witness :
  keyset_wf [(3, demo_key "a"); (7, demo_key "b")] /\
  (forall p' keys', typed_parse p' demo_text = Ok keys' -> p' = ApiStorage).
Proof.
  destruct (keyset_parse_canonical demo_text ApiStorage [(3, demo_key "a"); (7, demo_key "b")])
    as (_ & Hwf & _ & Hp).
  - vm_compute. reflexivity.
  - split; [done|]. intros p' keys' H. by apply (Hp p' keys').
Defined.
