(* ===== verification/Capability.v ===== *)
(** Model of [source/crates/filebelt-storage-protocol/src/lib.rs]: the signed
    storage capabilities [fbcap1] (API, collaboration, document and revision
    storage) and [fbcap2] (mount storage). The messages are those of
    [protocol/generated/rust/filebelt/storage/v1]; their codec, Base64, BLAKE3,
    Ed25519 and UUID parsing are the parameters of [Libraries]. *)
From stdpp Require Import countable.
From S2P Require Import Prelude Collections Libraries ConcreteCodecs Keyset.

Open Scope string_scope.
Open Scope Z_scope.
Open Scope list_scope.
Open Scope bool_scope.

Definition MAX_CAPABILITY_LIFETIME_SECONDS : Z := 60.
Definition MAX_MOUNT_CAPABILITY_LIFETIME_SECONDS : Z := 15.
Definition CAPABILITY_SIGNATURE_DOMAIN : bytes :=
  as_bytes "filebelt.storage.capability.v1" ++ [zero_byte].
Definition MOUNT_CAPABILITY_SIGNATURE_DOMAIN : bytes :=
  as_bytes "filebelt.storage.mount-capability.v2" ++ [zero_byte].
Definition MOUNT_CAPABILITY_CLAIMS_DIGEST_DOMAIN : bytes :=
  as_bytes "filebelt.storage.mount-capability-claims-digest.v1" ++ [zero_byte].

(** ** Messages *)

Record CapabilityClaims := mkClaims {
  capability_id : string;
  audience : string;
  operation : Z;
  tenant_id : string;
  claim_principal_id : string;
  session_id : string;
  resource_id : string;
  upload_id : string;
  payload_id : string;
  part_number : Z;
  range_start : Z;
  range_end : Z;
  resource_acl_generation : Z;
  membership_generation : Z;
  namespace_generation : Z;
  fencing_token : Z;
  nonce : bytes;
  issued_at_unix_seconds : Z;
  expires_at_unix_seconds : Z;
  drive_acl_generation : Z;
  grant_id : string
}.

Record MountCapabilityClaims := mkMountClaims {
  m_capability_id : string;
  m_audience : string;
  m_operation : Z;
  m_tenant_id : string;
  m_principal_id : string;
  m_mount_session_id : string;
  m_credential_id : string;
  m_drive_id : string;
  m_resource_id : string;
  m_version_id : string;
  m_write_session_id : string;
  m_range_start : Z;
  m_range_end : Z;
  m_credential_generation : Z;
  m_authorization_generation : Z;
  m_membership_generation : Z;
  m_drive_acl_generation : Z;
  m_namespace_generation : Z;
  m_resource_acl_generation : Z;
  m_gateway_epoch : Z;
  m_fencing_token : Z;
  m_nonce : bytes;
  m_issued_at_unix_seconds : Z;
  m_expires_at_unix_seconds : Z;
  m_grant_id : string;
  m_content_blake3 : bytes
}.

(** [SignedCapability] and [SignedMountCapability] have the same fields. *)
Record SignedCapability := mkSigned { key_generation : Z; claims_bytes : bytes; signature : bytes }.
Record SignedMountCapability :=
  mkSignedMount { m_key_generation : Z; m_claims_bytes : bytes; m_signature : bytes }.

Inductive CapabilityOperation :=
| OpUnspecified | OpUploadPart | OpFinalizeUpload | OpDownload | OpDeletePayload | OpScrubPayload
| OpWriteCollaborationObject | OpFinalizeCollaborationObject | OpReadCollaborationObject
| OpReadDocumentVersion | OpWriteDocumentRevision | OpFinalizeDocumentRevision
| OpWriteRevisionChunk | OpReadRevisionChunk | OpDeleteRevisionChunk | OpReadRevisionLegacyPayload.
#[export] Instance CapabilityOperation_eq_dec : EqDecision CapabilityOperation.
Proof. solve_decision. Defined.

Definition op_i32 (o : CapabilityOperation) : Z :=
  match o with
  | OpUnspecified => 0 | OpUploadPart => 1 | OpFinalizeUpload => 2 | OpDownload => 3
  | OpDeletePayload => 4 | OpScrubPayload => 5 | OpWriteCollaborationObject => 6
  | OpFinalizeCollaborationObject => 7 | OpReadCollaborationObject => 8
  | OpReadDocumentVersion => 9 | OpWriteDocumentRevision => 10 | OpFinalizeDocumentRevision => 11
  | OpWriteRevisionChunk => 12 | OpReadRevisionChunk => 13 | OpDeleteRevisionChunk => 14
  | OpReadRevisionLegacyPayload => 15
  end.

Inductive MountCapabilityOperation :=
| MoUnspecified | MoRead | MoWrite | MoFlush | MoFinalize | MoAbort | MoDeleteStaging
| MoWriteData | MoDeallocate | MoAllocate | MoSeekData | MoSeekHole.

Definition mount_op_i32 (o : MountCapabilityOperation) : Z :=
  match o with
  | MoUnspecified => 0 | MoRead => 1 | MoWrite => 2 | MoFlush => 3 | MoFinalize => 4 | MoAbort => 5
  | MoDeleteStaging => 6 | MoWriteData => 7 | MoDeallocate => 8 | MoAllocate => 9
  | MoSeekData => 10 | MoSeekHole => 11
  end.

(** ** The closed sets of uses *)

Inductive ApiStorageCapabilityUse := UploadPart | FinalizeUpload | Download.
Inductive CollaborationStorageCapabilityUse := WriteObject | FinalizeObject | ReadObject.
Inductive DocumentStorageCapabilityUse := ReadVersion | WriteRevision | FinalizeRevision.
Inductive RevisionStorageCapabilityUse := WriteChunk | ReadChunk | DeleteChunk | ReadLegacyPayload.
Inductive MountStorageCapabilityUse :=
| MRead | MWriteData | MDeallocate | MAllocate | MSeekData | MSeekHole | MFlush | MFinalize | MAbort
| MDeleteStaging.
#[export] Instance MountStorageCapabilityUse_eq_dec : EqDecision MountStorageCapabilityUse.
Proof. solve_decision. Defined.

Definition api_operation (u : ApiStorageCapabilityUse) : CapabilityOperation :=
  match u with
  | UploadPart => OpUploadPart | FinalizeUpload => OpFinalizeUpload | Download => OpDownload
  end.
Definition collaboration_operation (u : CollaborationStorageCapabilityUse) : CapabilityOperation :=
  match u with
  | WriteObject => OpWriteCollaborationObject
  | FinalizeObject => OpFinalizeCollaborationObject
  | ReadObject => OpReadCollaborationObject
  end.
Definition document_operation (u : DocumentStorageCapabilityUse) : CapabilityOperation :=
  match u with
  | ReadVersion => OpReadDocumentVersion
  | WriteRevision => OpWriteDocumentRevision
  | FinalizeRevision => OpFinalizeDocumentRevision
  end.
Definition revision_operation (u : RevisionStorageCapabilityUse) : CapabilityOperation :=
  match u with
  | WriteChunk => OpWriteRevisionChunk
  | ReadChunk => OpReadRevisionChunk
  | DeleteChunk => OpDeleteRevisionChunk
  | ReadLegacyPayload => OpReadRevisionLegacyPayload
  end.
Definition mount_operation (u : MountStorageCapabilityUse) : MountCapabilityOperation :=
  match u with
  | MRead => MoRead | MWriteData => MoWriteData | MDeallocate => MoDeallocate
  | MAllocate => MoAllocate | MSeekData => MoSeekData | MSeekHole => MoSeekHole
  | MFlush => MoFlush | MFinalize => MoFinalize | MAbort => MoAbort
  | MDeleteStaging => MoDeleteStaging
  end.
Definition requires_version (u : MountStorageCapabilityUse) : bool :=
  match u with
  | MRead | MWriteData | MDeallocate | MAllocate | MSeekData | MSeekHole | MFlush | MFinalize => true
  | MAbort | MDeleteStaging => false
  end.
Definition requires_write_session (u : MountStorageCapabilityUse) : bool :=
  negb (match u with MRead => true | _ => false end).
Definition requires_range (u : MountStorageCapabilityUse) : bool :=
  match u with
  | MRead | MWriteData | MDeallocate | MAllocate | MSeekData | MSeekHole => true
  | MFlush | MFinalize | MAbort | MDeleteStaging => false
  end.
Definition requires_single_offset (u : MountStorageCapabilityUse) : bool :=
  match u with MSeekData | MSeekHole => true | _ => false end.
Definition requires_content_digest (u : MountStorageCapabilityUse) : bool :=
  match u with MWriteData => true | _ => false end.

Inductive CapabilityError :=
| InvalidEncoding | InvalidSignature | UnknownKey | InvalidClaims | WrongAudience | WrongOperation
| Expired | LifetimeTooLong.

Definition map_keyset_error (e : KeysetError) : CapabilityError :=
  match e with
  | KsUnknownKey => UnknownKey
  | KsInvalidSignature | KsInvalidEncoding => InvalidSignature
  end.

Record Verified (T : Type) := mkVerified { v_claims : T; v_generation : Z }.
Arguments mkVerified {T}.
Arguments v_claims {T}.
Arguments v_generation {T}.

(** ** Claims validation *)

Definition validate_lifetime (issued expires maximum now : Z) : result CapabilityError unit :=
  if (expires <? issued)
     || match checked_sub_i64 expires issued with
        | None => true
        | Some lifetime => maximum <? lifetime
        end
  then Err LifetimeTooLong
  else if (now <? issued) || (expires <=? now) then Err Expired
  else Ok tt.

Definition is_revision_operation (o : CapabilityOperation) : bool :=
  match o with
  | OpWriteRevisionChunk | OpReadRevisionChunk | OpDeleteRevisionChunk
  | OpReadRevisionLegacyPayload => true
  | _ => false
  end.

Section claims.
Context `{UuidLib}.

Definition validate_uuid (identifier : string) : result CapabilityError unit :=
  match uuid_parse_str identifier with Some _ => Ok tt | None => Err InvalidClaims end.

Definition validate_capability_claims (c : CapabilityClaims) (expected_audience : string)
    (expected_operation : CapabilityOperation) (now : Z) : result CapabilityError unit :=
  let? _ := try_each validate_uuid [capability_id c; tenant_id c; claim_principal_id c; grant_id c] in
  if negb (String.eqb (audience c) expected_audience) then Err WrongAudience
  else if negb (operation c =? op_i32 expected_operation) then Err WrongOperation
  else
    let? _ := validate_lifetime (issued_at_unix_seconds c) (expires_at_unix_seconds c)
                MAX_CAPABILITY_LIFETIME_SECONDS now in
    if negb ((16 <=? len (nonce c)) && (len (nonce c) <=? 64)) || (range_end c <? range_start c)
    then Err InvalidClaims
    else if negb (is_revision_operation expected_operation)
            && ((resource_acl_generation c =? 0) || (drive_acl_generation c =? 0)
                || (membership_generation c =? 0) || (namespace_generation c =? 0))
    then Err InvalidClaims
    else Ok tt.

Definition validate_non_nil_uuid (value : string) : result CapabilityError Uuid :=
  match uuid_parse_str value with
  | None => Err InvalidClaims
  | Some identifier => if uuid_is_nil identifier then Err InvalidClaims else Ok identifier
  end.

Definition check_non_nil (value : string) : result CapabilityError unit :=
  result_map (fun _ => tt) (validate_non_nil_uuid value).

(** The range clause of [validate_mount_claims]. *)
Definition validate_mount_range (c : MountCapabilityClaims) (u : MountStorageCapabilityUse)
  : result CapabilityError unit :=
  if requires_range u then
    if (m_range_end c <? m_range_start c)
       || match checked_sub_u64 (m_range_end c) (m_range_start c) with
          | None => true
          | Some d => match checked_add_u64 d 1 with None => true | Some _ => false end
          end
    then Err InvalidClaims
    else if requires_single_offset u && negb (m_range_start c =? m_range_end c) then Err InvalidClaims
    else Ok tt
  else if negb (m_range_start c =? 0) || negb (m_range_end c =? 0) then Err InvalidClaims
  else Ok tt.

(** An identifier that is required for the use, and empty otherwise. *)
Definition validate_optional (required : bool) (value : string) : result CapabilityError unit :=
  if required then check_non_nil value
  else if negb (String.eqb value "") then Err InvalidClaims else Ok tt.

Definition validate_mount_claims (c : MountCapabilityClaims) (expected_audience : string)
    (u : MountStorageCapabilityUse) (now : Z) : result CapabilityError unit :=
  let? _ := try_each check_non_nil
              [m_capability_id c; m_tenant_id c; m_principal_id c; m_mount_session_id c;
               m_credential_id c; m_drive_id c; m_resource_id c; m_grant_id c] in
  if String.eqb (m_audience c) "" || negb (String.eqb (m_audience c) expected_audience)
  then Err WrongAudience
  else if negb (m_operation c =? mount_op_i32 (mount_operation u)) then Err WrongOperation
  else
    let? _ := validate_optional (requires_version u) (m_version_id c) in
    let? _ := validate_optional (requires_write_session u) (m_write_session_id c) in
    let? _ := validate_mount_range c u in
    if (requires_content_digest u && negb (len (m_content_blake3 c) =? 32))
       || (negb (requires_content_digest u) && negb (len (m_content_blake3 c) =? 0))
    then Err InvalidClaims
    else
      let? _ := validate_lifetime (m_issued_at_unix_seconds c) (m_expires_at_unix_seconds c)
                  MAX_MOUNT_CAPABILITY_LIFETIME_SECONDS now in
      if negb ((16 <=? len (m_nonce c)) && (len (m_nonce c) <=? 64))
         || (m_credential_generation c =? 0) || (m_authorization_generation c =? 0)
         || (m_membership_generation c =? 0) || (m_drive_acl_generation c =? 0)
         || (m_namespace_generation c =? 0) || (m_resource_acl_generation c =? 0)
         || (m_gateway_epoch c =? 0) || (m_fencing_token c =? 0)
      then Err InvalidClaims
      else Ok tt.
End claims.

(** ** Envelopes *)

(** [trait CapabilityKeyset], implemented by four of the typed keysets. *)
Class CapabilityKeyset `{Ed25519Lib} (K : Type) := {
  ck_keys : K -> Keyset;
  ck_verify : K -> Z -> bytes -> bytes -> result KeysetError unit;
  ck_verify_eq : forall k g m s, ck_verify k g m s = Keyset_verify (ck_keys k) g m s
}.
Definition typed_capability_keyset `{Ed25519Lib} (p : KeyPurpose) : CapabilityKeyset (TypedKeyset p) :=
  {| ck_keys := untyped p; ck_verify k := TypedKeyset_verify k; ck_verify_eq _ _ _ _ := eq_refl |}.

Section envelopes.
Context `{UuidLib, Base64Lib, Blake3Lib, Ed25519Lib}.
Context `{!ProstMessage CapabilityClaims, !ProstMessage SignedCapability}.
Context `{!ProstMessage MountCapabilityClaims, !ProstMessage SignedMountCapability}.

#[export] Instance ApiStorageKeyset_ck : CapabilityKeyset (TypedKeyset ApiStorage) :=
  typed_capability_keyset ApiStorage.
#[export] Instance CollaborationStorageKeyset_ck : CapabilityKeyset (TypedKeyset CollaborationStorage) :=
  typed_capability_keyset CollaborationStorage.
#[export] Instance DocumentStorageKeyset_ck : CapabilityKeyset (TypedKeyset DocumentStorage) :=
  typed_capability_keyset DocumentStorage.
#[export] Instance RevisionStorageKeyset_ck : CapabilityKeyset (TypedKeyset RevisionStorage) :=
  typed_capability_keyset RevisionStorage.

Definition sign_capability (c : CapabilityClaims) (expected_operation : CapabilityOperation)
    (generation : Z) (key_pair : ed_keypair) : result CapabilityError string :=
  if (generation =? 0) || negb (operation c =? op_i32 expected_operation) then Err InvalidClaims
  else
    let claims_bytes := encode_to_vec c in
    let input := CAPABILITY_SIGNATURE_DOMAIN ++ claims_bytes in
    let signed := mkSigned generation claims_bytes (ed_sign key_pair input) in
    Ok ("fbcap1." +:+ b64_encode (encode_to_vec signed)).

Definition verify_capability {K} `{!CapabilityKeyset K} (wire : string) (keys : K)
    (expected_audience : string) (expected_operation : CapabilityOperation) (now : Z)
  : result CapabilityError (Verified CapabilityClaims) :=
  let? encoded := ok_or InvalidEncoding (strip_prefix "fbcap1." wire) in
  let? bytes_ := ok_or InvalidEncoding (b64_decode encoded) in
  let? signed := ok_or InvalidEncoding (decode_message bytes_) in
  let input := CAPABILITY_SIGNATURE_DOMAIN ++ claims_bytes signed in
  let? _ := map_err map_keyset_error (ck_verify keys (key_generation signed) input (signature signed)) in
  let? claims := ok_or InvalidClaims (decode_message (claims_bytes signed)) in
  let? _ := validate_capability_claims claims expected_audience expected_operation now in
  Ok (mkVerified claims (key_generation signed)).

Definition sign_api_storage_capability (c : CapabilityClaims) (u : ApiStorageCapabilityUse) (g : Z)
    (kp : ed_keypair) := sign_capability c (api_operation u) g kp.
Definition verify_api_storage_capability (wire : string) (keys : TypedKeyset ApiStorage) (aud : string)
    (u : ApiStorageCapabilityUse) (now : Z) := verify_capability wire keys aud (api_operation u) now.
Definition sign_collaboration_storage_capability (c : CapabilityClaims)
    (u : CollaborationStorageCapabilityUse) (g : Z) (kp : ed_keypair) :=
  sign_capability c (collaboration_operation u) g kp.
Definition verify_collaboration_storage_capability (wire : string)
    (keys : TypedKeyset CollaborationStorage) (aud : string) (u : CollaborationStorageCapabilityUse)
    (now : Z) := verify_capability wire keys aud (collaboration_operation u) now.
Definition sign_document_storage_capability (c : CapabilityClaims) (u : DocumentStorageCapabilityUse)
    (g : Z) (kp : ed_keypair) := sign_capability c (document_operation u) g kp.
Definition verify_document_storage_capability (wire : string) (keys : TypedKeyset DocumentStorage)
    (aud : string) (u : DocumentStorageCapabilityUse) (now : Z) :=
  verify_capability wire keys aud (document_operation u) now.
Definition sign_revision_storage_capability (c : CapabilityClaims) (u : RevisionStorageCapabilityUse)
    (g : Z) (kp : ed_keypair) := sign_capability c (revision_operation u) g kp.
Definition verify_revision_storage_capability (wire : string) (keys : TypedKeyset RevisionStorage)
    (aud : string) (u : RevisionStorageCapabilityUse) (now : Z) :=
  verify_capability wire keys aud (revision_operation u) now.

Definition mount_capability_claims_digest (c : MountCapabilityClaims) : bytes :=
  blake3_hash (MOUNT_CAPABILITY_CLAIMS_DIGEST_DOMAIN ++ encode_to_vec c).

Definition sign_mount_storage_capability (c : MountCapabilityClaims) (u : MountStorageCapabilityUse)
    (generation : Z) (key_pair : ed_keypair) : result CapabilityError string :=
  if negb (m_operation c =? mount_op_i32 (mount_operation u)) || (generation =? 0)
  then Err InvalidClaims
  else
    let? _ := validate_mount_claims c (m_audience c) u (m_issued_at_unix_seconds c) in
    let claims_bytes := encode_to_vec c in
    let input := MOUNT_CAPABILITY_SIGNATURE_DOMAIN ++ claims_bytes in
    let signed := mkSignedMount generation claims_bytes (ed_sign key_pair input) in
    Ok ("fbcap2." +:+ b64_encode (encode_to_vec signed)).

Definition verify_mount_storage_capability (wire : string) (keys : TypedKeyset MountStorage)
    (expected_audience : string) (u : MountStorageCapabilityUse) (now : Z)
  : result CapabilityError (Verified MountCapabilityClaims) :=
  let? encoded := ok_or InvalidEncoding (strip_prefix "fbcap2." wire) in
  let? bytes_ := ok_or InvalidEncoding (b64_decode encoded) in
  let? signed := ok_or InvalidEncoding (decode_message bytes_) in
  let input := MOUNT_CAPABILITY_SIGNATURE_DOMAIN ++ m_claims_bytes signed in
  let? _ := map_err map_keyset_error
              (TypedKeyset_verify keys (m_key_generation signed) input (m_signature signed)) in
  let? claims := ok_or InvalidClaims (decode_message (m_claims_bytes signed)) in
  let? _ := validate_mount_claims claims expected_audience u now in
  Ok (mkVerified claims (m_key_generation signed)).

Definition sign_mount_storage_read_capability (c : MountCapabilityClaims) (g : Z) (kp : ed_keypair) :=
  sign_mount_storage_capability c MRead g kp.
Definition verify_mount_storage_read_capability (wire : string) (keys : TypedKeyset MountStorage)
    (aud : string) (now : Z) := verify_mount_storage_capability wire keys aud MRead now.
End envelopes.

(** ** What a capability authorizes *)

Section specification.
Context `{UuidLib}.

(** The meaning of [validate_capability_claims]. *)
Record authorizes (c : CapabilityClaims) (aud : string) (op : CapabilityOperation) (now : Z) : Prop := {
  au_ids : Forall (fun s => is_Some (uuid_parse_str s))
             [capability_id c; tenant_id c; claim_principal_id c; grant_id c];
  au_audience : audience c = aud;
  au_operation : operation c = op_i32 op;
  au_time : issued_at_unix_seconds c <= now < expires_at_unix_seconds c;
  au_lifetime : expires_at_unix_seconds c - issued_at_unix_seconds c <= MAX_CAPABILITY_LIFETIME_SECONDS;
  au_nonce : 16 <= len (nonce c) <= 64;
  au_range : range_start c <= range_end c;
  au_fences : is_revision_operation op = false ->
    resource_acl_generation c <> 0 /\ drive_acl_generation c <> 0 /\
    membership_generation c <> 0 /\ namespace_generation c <> 0
}.

Definition non_nil_uuid (s : string) : Prop :=
  exists u, uuid_parse_str s = Some u /\ uuid_is_nil u = false.

(** The meaning of [validate_mount_claims]. *)
Record mount_authorizes (c : MountCapabilityClaims) (aud : string) (u : MountStorageCapabilityUse)
    (now : Z) : Prop := {
  ma_ids : Forall non_nil_uuid
    [m_capability_id c; m_tenant_id c; m_principal_id c; m_mount_session_id c;
     m_credential_id c; m_drive_id c; m_resource_id c; m_grant_id c];
  ma_audience : m_audience c = aud /\ aud <> "";
  ma_operation : m_operation c = mount_op_i32 (mount_operation u);
  ma_version : if requires_version u then non_nil_uuid (m_version_id c) else m_version_id c = "";
  ma_write_session :
    if requires_write_session u then non_nil_uuid (m_write_session_id c) else m_write_session_id c = "";
  ma_range : if requires_range u
             then m_range_start c <= m_range_end c /\ m_range_end c - m_range_start c < u64_max /\
                  (requires_single_offset u = true -> m_range_start c = m_range_end c)
             else m_range_start c = 0 /\ m_range_end c = 0;
  ma_content : len (m_content_blake3 c) = if requires_content_digest u then 32 else 0;
  ma_time : m_issued_at_unix_seconds c <= now < m_expires_at_unix_seconds c;
  ma_lifetime : m_expires_at_unix_seconds c - m_issued_at_unix_seconds c
                <= MAX_MOUNT_CAPABILITY_LIFETIME_SECONDS;
  ma_nonce : 16 <= len (m_nonce c) <= 64;
  ma_fences : Forall (fun g => g <> 0)
    [m_credential_generation c; m_authorization_generation c; m_membership_generation c;
     m_drive_acl_generation c; m_namespace_generation c; m_resource_acl_generation c;
     m_gateway_epoch c; m_fencing_token c]
}.

Lemma validate_lifetime_iff issued expires maximum now :
  maximum <= i64_max ->
  validate_lifetime issued expires maximum now = Ok tt <->
  issued <= now < expires /\ expires - issued <= maximum.
Proof.
  intros Hmax. unfold validate_lifetime. checks_in_goal.
  destruct (checked_sub_i64 expires issued) as [d|] eqn:Hd; unfold checked_sub_i64 in Hd.
  - rewrite checked_Some in Hd. autorewrite with bools. lia.
  - rewrite checked_None in Hd. unfold i64_min, i64_max in *. split; [naive_solver|]. lia.
Qed.

Lemma validate_uuid_Ok s : validate_uuid s = Ok tt <-> is_Some (uuid_parse_str s).
Proof. unfold validate_uuid. destruct (uuid_parse_str s); naive_solver. Qed.

Lemma validate_capability_claims_iff c aud op now :
  validate_capability_claims c aud op now = Ok tt <-> authorizes c aud op now.
Proof.
  unfold validate_capability_claims. checks_in_goal. rewrite try_each_Ok, validate_lifetime_iff by done.
  setoid_rewrite validate_uuid_Ok.
  assert ((is_revision_operation op = true \/
           ((resource_acl_generation c <> 0 /\ drive_acl_generation c <> 0) /\
            membership_generation c <> 0) /\ namespace_generation c <> 0) <->
          (is_revision_operation op = false ->
             resource_acl_generation c <> 0 /\ drive_acl_generation c <> 0 /\
             membership_generation c <> 0 /\ namespace_generation c <> 0)) as ->
    by (destruct (is_revision_operation op); naive_solver).
  split.
  - intros (Hids & Ha & Ho & (Ht & Hl) & (Hn & Hr) & Hf & _). by split.
  - intros []. tauto.
Qed.

Lemma check_non_nil_Ok s : check_non_nil s = Ok tt <-> non_nil_uuid s.
Proof.
  unfold check_non_nil, validate_non_nil_uuid, non_nil_uuid.
  destruct (uuid_parse_str s) as [u|]; [|naive_solver]. destruct (uuid_is_nil u) eqn:Hu; cbn [result_map]; split; naive_solver congruence.
Qed.

Lemma validate_optional_Ok b s :
  validate_optional b s = Ok tt <-> if b then non_nil_uuid s else s = "".
Proof. unfold validate_optional. destruct b; [apply check_non_nil_Ok|]. checks_in_goal. tauto. Qed.

Lemma validate_mount_range_Ok c u :
  is_u64 (m_range_start c) -> is_u64 (m_range_end c) ->
  validate_mount_range c u = Ok tt <->
  if requires_range u
  then m_range_start c <= m_range_end c /\ m_range_end c - m_range_start c < u64_max /\
       (requires_single_offset u = true -> m_range_start c = m_range_end c)
  else m_range_start c = 0 /\ m_range_end c = 0.
Proof.
  intros Hs He. unfold validate_mount_range, is_u64 in *. destruct (requires_range u); checks_in_goal; [|tauto].
  assert (forall b (P : Prop), (b = false \/ P) <-> (b = true -> P)) as Himp by (intros []; naive_solver).
  rewrite Himp. unfold checked_sub_u64, checked_add_u64.
  destruct (checked 0 u64_max (m_range_end c - m_range_start c)) as [d|] eqn:Hd.
  - rewrite checked_Some in Hd. destruct (checked 0 u64_max (d + 1)) as [d'|] eqn:Hd'.
    + rewrite checked_Some in Hd'. naive_solver lia.
    + rewrite checked_None in Hd'. naive_solver lia.
  - rewrite checked_None in Hd. naive_solver lia.
Qed.

Lemma validate_mount_claims_iff c aud u now :
  is_u64 (m_range_start c) -> is_u64 (m_range_end c) ->
  validate_mount_claims c aud u now = Ok tt <-> mount_authorizes c aud u now.
Proof.
  intros Hs He. unfold validate_mount_claims. checks_in_goal.
  rewrite try_each_Ok, !validate_optional_Ok, validate_mount_range_Ok, validate_lifetime_iff by done.
  setoid_rewrite check_non_nil_Ok.
  assert (((requires_content_digest u = false \/ len (m_content_blake3 c) = 32) /\
           (requires_content_digest u = true \/ len (m_content_blake3 c) = 0)) <->
          len (m_content_blake3 c) = if requires_content_digest u then 32 else 0) as ->
    by (destruct (requires_content_digest u); naive_solver).
  split.
  - intros (Hids & (Hne & Ha) & Ho & Hv & Hw & Hr & Hc & (Ht & Hl) & Hn & _). destruct_and?. subst aud.
    split; try done. by repeat constructor.
  - intros [Hids [Ha Hne] Ho Hv Hw Hr Hc Ht Hl Hn Hf].
    repeat (apply Forall_cons in Hf as [? Hf]). subst aud. tauto.
Qed.
End specification.

(** ** Envelope lemmas *)

#[local] Opaque validate_mount_claims validate_capability_claims.

Section envelope_lemmas.
Context `{UuidLib, Base64Laws, Blake3Lib, Ed25519Laws}.
Context `{!ProstMessage CapabilityClaims, !ProstMessage SignedCapability}.
Context `{!ProstMessage MountCapabilityClaims, !ProstMessage SignedMountCapability}.

Lemma verify_capability_iff {K} `{!CapabilityKeyset K} wire (keys : K) aud op now v :
  verify_capability wire keys aud op now = Ok v <->
  exists signed key,
    (strip_prefix "fbcap1." wire ≫= b64_decode) ≫= decode_message = Some signed /\
    bt_get (key_generation signed) (ck_keys keys) = Some key /\
    ed_verify key (CAPABILITY_SIGNATURE_DOMAIN ++ claims_bytes signed) (signature signed) = true /\
    decode_message (claims_bytes signed) = Some (v_claims v) /\
    v_generation v = key_generation signed /\
    authorizes (v_claims v) aud op now.
Proof.
  unfold verify_capability. rewrite bind_Ok. setoid_rewrite bind_Ok. setoid_rewrite bind_Ok.
  setoid_rewrite ok_or_Ok. split.
  - intros (e & He & b & Hb & signed & Hs & Hrun). exists signed. rewrite He. cbn [mbind option_bind].
    rewrite Hb. cbn [mbind option_bind]. rewrite ck_verify_eq in Hrun. unfold Keyset_verify in Hrun.
    destruct (bt_get _ (ck_keys keys)) as [key|]; [|done].
    destruct (ed_verify _ _ _) eqn:Hv; [|done]. cbn [map_err] in Hrun.
    destruct (decode_message (claims_bytes signed)) as [c|] eqn:Hd; [|done]. cbn [ok_or] in Hrun.
    destruct (validate_capability_claims c aud op now) as [[]|] eqn:Ha; [|done].
    rewrite validate_capability_claims_iff in Ha. injection Hrun as <-. exists key. split_and!; done.
  - intros (signed & key & Hw & Hk & Hv & Hd & Hg & Ha).
    destruct (strip_prefix "fbcap1." wire) as [e|]; [|done]. cbn [mbind option_bind] in Hw.
    destruct (b64_decode e) as [b|] eqn:Hb; [|done]. cbn [mbind option_bind] in Hw.
    exists e. split; [done|]. exists b. split; [done|]. exists signed. split; [done|].
    rewrite ck_verify_eq. unfold Keyset_verify. rewrite Hk, Hv. cbn [map_err].
    rewrite Hd. cbn [ok_or]. rewrite <-validate_capability_claims_iff in Ha. rewrite Ha.
    destruct v as [c g]. simpl in *. by subst g.
Qed.

Lemma verify_mount_iff wire (keys : TypedKeyset MountStorage) aud u now v :
  verify_mount_storage_capability wire keys aud u now = Ok v <->
  exists signed key,
    (strip_prefix "fbcap2." wire ≫= b64_decode) ≫= decode_message = Some signed /\
    public_key keys (m_key_generation signed) = Some key /\
    ed_verify key (MOUNT_CAPABILITY_SIGNATURE_DOMAIN ++ m_claims_bytes signed) (m_signature signed) = true /\
    decode_message (m_claims_bytes signed) = Some (v_claims v) /\
    v_generation v = m_key_generation signed /\
    validate_mount_claims (v_claims v) aud u now = Ok tt.
Proof.
  unfold verify_mount_storage_capability. rewrite bind_Ok. setoid_rewrite bind_Ok. setoid_rewrite bind_Ok.
  setoid_rewrite ok_or_Ok. unfold TypedKeyset_verify, Keyset_verify, public_key. split.
  - intros (e & He & b & Hb & signed & Hs & Hrun). exists signed. rewrite He. cbn [mbind option_bind].
    rewrite Hb. cbn [mbind option_bind].
    destruct (bt_get _ _) as [key|]; [|done].
    destruct (ed_verify _ _ _) eqn:Hv; [|done]. cbn [map_err] in Hrun.
    destruct (decode_message (m_claims_bytes signed)) as [c|] eqn:Hd; [|done]. cbn [ok_or] in Hrun.
    destruct (validate_mount_claims c aud u now) as [[]|] eqn:Ha; [|done].
    injection Hrun as <-. exists key. do 5 (split; [done|]). exact Ha.
  - intros (signed & key & Hw & Hk & Hv & Hd & Hg & Ha).
    destruct (strip_prefix "fbcap2." wire) as [e|]; [|done]. cbn [mbind option_bind] in Hw.
    destruct (b64_decode e) as [b|] eqn:Hb; [|done]. cbn [mbind option_bind] in Hw.
    exists e. split; [done|]. exists b. split; [done|]. exists signed. split; [done|].
    rewrite Hk, Hv. cbn [map_err]. rewrite Hd. cbn [ok_or]. rewrite Ha.
    destruct v as [c g]. simpl in *. by subst g.
Qed.

(** ** Properties *)

(** C3. What an accepted [fbcap1] capability proves: some key of the verifier's
    keyset, at the reported generation, signed the domain-separated bytes of
    these claims, and the claims name this audience and operation, have four
    identifiers (of capability, tenant, principal and grant) that are UUIDs, are in their
    validity window of at most 60 seconds, carry a 16 to 64 byte nonce and an
    ordered range, and all four fences unless the operation is revision storage.
    These conditions are also sufficient. *)
Theorem capability_accepted_iff {K} `{!CapabilityKeyset K} wire (keys : K) aud op now v :
  verify_capability wire keys aud op now = Ok v <->
  exists signed key,
    (strip_prefix "fbcap1." wire ≫= b64_decode) ≫= decode_message = Some signed /\
    bt_get (key_generation signed) (ck_keys keys) = Some key /\
    ed_verify key (CAPABILITY_SIGNATURE_DOMAIN ++ claims_bytes signed) (signature signed) = true /\
    decode_message (claims_bytes signed) = Some (v_claims v) /\
    v_generation v = key_generation signed /\
    authorizes (v_claims v) aud op now.
Proof. apply verify_capability_iff. Qed.

(** A capability is bound to one operation and one audience: if the same
    wire text is accepted twice, by any two keysets, at any two times, for any
    two uses of the API, collaboration, document or revision families, then the
    operation, the audience, the claims and the key generation agree and the two
    times are less than 60 seconds apart. *)
Theorem capability_not_substitutable {K1 K2} `{!CapabilityKeyset K1, !CapabilityKeyset K2}
    wire (keys1 : K1) (keys2 : K2) aud1 aud2 op1 op2 now1 now2 v1 v2 :
  verify_capability wire keys1 aud1 op1 now1 = Ok v1 ->
  verify_capability wire keys2 aud2 op2 now2 = Ok v2 ->
  op1 = op2 /\ aud1 = aud2 /\ v1 = v2 /\ Z.abs (now1 - now2) < MAX_CAPABILITY_LIFETIME_SECONDS.
Proof.
  rewrite !verify_capability_iff.
  intros (s1 & k1 & Hw1 & _ & _ & Hd1 & Hg1 & Ha1) (s2 & k2 & Hw2 & _ & _ & Hd2 & Hg2 & Ha2).
  rewrite Hw1 in Hw2. injection Hw2 as <-. rewrite Hd1 in Hd2. injection Hd2 as Hc.
  destruct v1 as [c g1], v2 as [c' g2]. simpl in *. subst c' g1 g2.
  destruct Ha1 as [_ A1 O1 T1 L1 _ _ _], Ha2 as [_ A2 O2 T2 L2 _ _ _].
  split; [|split; [congruence|split; [done|lia]]].
  rewrite O1 in O2. clear -O2. by destruct op1, op2.
Qed.

(** The [fbcap1] and [fbcap2] envelopes are disjoint: no text is accepted as
    a mount capability and as a capability of another family, whatever the keys. *)
Theorem envelopes_are_disjoint {K} `{!CapabilityKeyset K} wire (keys : K)
    (mount_keys : TypedKeyset MountStorage) aud op now aud' u now' v :
  (verify_capability wire keys aud op now = Ok v ->
   verify_mount_storage_capability wire mount_keys aud' u now' = Err InvalidEncoding) /\
  (forall v', verify_mount_storage_capability wire mount_keys aud' u now' = Ok v' ->
   verify_capability wire keys aud op now = Err InvalidEncoding).
Proof.
  split.
  - rewrite verify_capability_iff. intros (s & k & Hw & _).
    destruct (strip_prefix "fbcap1." wire) as [r|] eqn:Hp; [|done].
    rewrite strip_prefix_Some in Hp. subst wire. reflexivity.
  - intros v'. rewrite verify_mount_iff. intros (s & k & Hw & _).
    destruct (strip_prefix "fbcap2." wire) as [r|] eqn:Hp; [|done].
    rewrite strip_prefix_Some in Hp. subst wire. reflexivity.
Qed.
End envelope_lemmas.

Section round_trips.
Context `{UuidLib, Base64Laws, Blake3Lib, Ed25519Laws}.
Context `{!ProstMessage CapabilityClaims, !ProstMessage SignedCapability}.
Context `{!ProstMessage MountCapabilityClaims, !ProstMessage SignedMountCapability}.
(** The messages a Rust value of the generated types can hold. *)
Variable valid_claims : CapabilityClaims -> Prop.
Variable valid_signed : SignedCapability -> Prop.
Variable valid_mount : MountCapabilityClaims -> Prop.
Variable valid_signed_mount : SignedMountCapability -> Prop.
Context `{!ProstLaws CapabilityClaims valid_claims, !ProstLaws SignedCapability valid_signed}.
Context `{!ProstLaws MountCapabilityClaims valid_mount, !ProstLaws SignedMountCapability valid_signed_mount}.
Hypothesis signed_u32 : forall g c s, is_u32 g -> valid_signed (mkSigned g c s).
Hypothesis signed_mount_u32 : forall g c s, is_u32 g -> valid_signed_mount (mkSignedMount g c s).

Lemma signed_verifies {K} `{!CapabilityKeyset K} c op g kp (keys : K) aud now wire :
  valid_claims c -> is_u32 g ->
  bt_get g (ck_keys keys) = Some (ed_public kp) ->
  authorizes c aud op now ->
  sign_capability c op g kp = Ok wire ->
  verify_capability wire keys aud op now = Ok (mkVerified c g).
Proof.
  intros Hc Hg Hk Ha. unfold sign_capability. rewrite guard_Ok. intros [_ Hw].
  assert (wire = "fbcap1." +:+ b64_encode (encode_to_vec (mkSigned g (encode_to_vec c)
            (ed_sign kp (CAPABILITY_SIGNATURE_DOMAIN ++ encode_to_vec c))))) as -> by congruence.
  apply verify_capability_iff. eexists _, _. cbn [v_claims v_generation].
  rewrite strip_prefix_app. cbn [mbind option_bind]. rewrite b64_decode_encode. cbn [mbind option_bind].
  rewrite decode_encode by auto. split; [done|]. cbn [key_generation claims_bytes signature].
  split; [done|]. split; [apply ed_verify_sign|]. by rewrite decode_encode.
Qed.

(** Signing then verifying: a capability signed with a key whose public half
    is in the verifier's keyset at that generation is accepted, with exactly the
    signed claims, whenever the claims authorize the audience and the time. *)
Theorem capability_round_trip {K} `{!CapabilityKeyset K} c op g kp (keys : K) aud now wire :
  valid_claims c -> is_u32 g ->
  bt_get g (ck_keys keys) = Some (ed_public kp) ->
  authorizes c aud op now ->
  sign_capability c op g kp = Ok wire ->
  verify_capability wire keys aud op now = Ok (mkVerified c g).
Proof. apply signed_verifies. Qed.

(** Mount capabilities: signing refuses exactly the claims that would not be
    valid at their own issue time, and what it signs is accepted for the same
    use and audience at every time inside the window, with the signed claims;
    an accepted capability authorizes the use it was verified for. *)
Theorem mount_capability_round_trip c u g kp (keys : TypedKeyset MountStorage) now :
  valid_mount c -> is_u64 (m_range_start c) -> is_u64 (m_range_end c) -> is_u32 g ->
  public_key keys g = Some (ed_public kp) ->
  ((exists wire, sign_mount_storage_capability c u g kp = Ok wire) <->
   g <> 0 /\ mount_authorizes c (m_audience c) u (m_issued_at_unix_seconds c)) /\
  (forall wire, sign_mount_storage_capability c u g kp = Ok wire ->
     m_issued_at_unix_seconds c <= now < m_expires_at_unix_seconds c ->
     verify_mount_storage_capability wire keys (m_audience c) u now = Ok (mkVerified c g)) /\
  (forall wire aud u' v, sign_mount_storage_capability c u g kp = Ok wire ->
     verify_mount_storage_capability wire keys aud u' now = Ok v ->
     v = mkVerified c g /\ mount_authorizes c aud u' now).
Proof.
  intros Hc Hs He Hg Hk.
  assert (forall wire, sign_mount_storage_capability c u g kp = Ok wire ->
    wire = "fbcap2." +:+ b64_encode (encode_to_vec
      (mkSignedMount g (encode_to_vec c)
         (ed_sign kp (MOUNT_CAPABILITY_SIGNATURE_DOMAIN ++ encode_to_vec c))))) as Hwire.
  { intros wire. unfold sign_mount_storage_capability. rewrite guard_Ok, bind_Ok.
    intros (_ & _ & _ & [= <-]). done. }
  assert (forall wire aud u', sign_mount_storage_capability c u g kp = Ok wire ->
    forall v, verify_mount_storage_capability wire keys aud u' now = Ok v <->
      v = mkVerified c g /\ mount_authorizes c aud u' now) as Hver.
  { intros wire aud u' Hw%Hwire v. subst wire. rewrite verify_mount_iff, strip_prefix_app.
    cbn [mbind option_bind]. rewrite b64_decode_encode. cbn [mbind option_bind].
    rewrite decode_encode by auto. split.
    - intros (s & k & [= <-] & _ & _ & Hd & Hgen & Ha). cbn in Hd, Hgen.
      rewrite decode_encode in Hd by done. destruct v as [c' g']. simpl in *. simplify_eq.
      split; [done|]. by apply validate_mount_claims_iff.
    - intros [-> Ha]. eexists _, _. split; [done|]. cbn. rewrite decode_encode by done.
      split; [exact Hk|]. split; [apply ed_verify_sign|]. split; [done|]. split; [done|].
      by apply validate_mount_claims_iff. }
  split; [|split].
  - unfold sign_mount_storage_capability. rewrite <-validate_mount_claims_iff by done. split.
    + intros [wire Hw]. rewrite guard_Ok, bind_Ok in Hw. destruct Hw as (Hb & [] & Hv & _).
      rewrite orb_false_iff, Z.eqb_neq in Hb. tauto.
    + intros [Hg0 Hv]. rewrite Hv. rewrite (proj2 (Z.eqb_neq g 0)) by done.
      apply validate_mount_claims_iff in Hv; [|done|done].
      rewrite (proj2 (Z.eqb_eq _ _) (ma_operation _ _ _ _ Hv)). simpl. eauto.
  - intros wire Hw Ht. apply (Hver wire _ _ Hw). split; [done|].
    unfold sign_mount_storage_capability in Hw. rewrite guard_Ok, bind_Ok in Hw.
    destruct Hw as (_ & [] & Hv & _). apply validate_mount_claims_iff in Hv; [|done|done].
    destruct Hv. by split.
  - intros wire aud u' v Hw Hv. by apply (Hver wire aud u' Hw).
Qed.
End round_trips.

(** ** Witnesses *)

Module Demo.
Import Concrete.

#[local] Instance claims_eq_dec : EqDecision CapabilityClaims.
Proof. solve_decision. Defined.
#[local] Instance mount_claims_eq_dec : EqDecision MountCapabilityClaims.
Proof. solve_decision. Defined.
#[local] Instance signed_eq_dec : EqDecision SignedCapability.
Proof. solve_decision. Defined.
#[local] Instance signed_mount_eq_dec : EqDecision SignedMountCapability.
Proof. solve_decision. Defined.

Definition claims_fields (c : CapabilityClaims) : list string * list Z * bytes :=
  ([capability_id c; audience c; tenant_id c; claim_principal_id c; session_id c; resource_id c;
    upload_id c; payload_id c; grant_id c],
   [operation c; part_number c; range_start c; range_end c; resource_acl_generation c;
    membership_generation c; namespace_generation c; fencing_token c; issued_at_unix_seconds c;
    expires_at_unix_seconds c; drive_acl_generation c], nonce c).
Definition claims_of_fields (f : list string * list Z * bytes) : option CapabilityClaims :=
  match f with
  | ([a; b; d; e; g; h; i; j; k], [n1; n2; n3; n4; n5; n6; n7; n8; n9; n10; n11], x) =>
      Some (mkClaims a b n1 d e g h i j n2 n3 n4 n5 n6 n7 n8 x n9 n10 n11 k)
  | _ => None
  end.
#[local] Instance claims_countable : Countable CapabilityClaims.
Proof. refine (inj_countable claims_fields claims_of_fields _). by intros []. Defined.

Definition mount_fields (c : MountCapabilityClaims) : list string * list Z * bytes * bytes :=
  ([m_capability_id c; m_audience c; m_tenant_id c; m_principal_id c; m_mount_session_id c;
    m_credential_id c; m_drive_id c; m_resource_id c; m_version_id c; m_write_session_id c; m_grant_id c],
   [m_operation c; m_range_start c; m_range_end c; m_credential_generation c;
    m_authorization_generation c; m_membership_generation c; m_drive_acl_generation c;
    m_namespace_generation c; m_resource_acl_generation c; m_gateway_epoch c; m_fencing_token c;
    m_issued_at_unix_seconds c; m_expires_at_unix_seconds c], m_nonce c, m_content_blake3 c).
Definition mount_of_fields (f : list string * list Z * bytes * bytes) : option MountCapabilityClaims :=
  match f with
  | ([a; b; d; e; g; h; i; j; k; l; m], [n1; n2; n3; n4; n5; n6; n7; n8; n9; n10; n11; n12; n13], x, y) =>
      Some (mkMountClaims a b n1 d e g h i j k l n2 n3 n4 n5 n6 n7 n8 n9 n10 n11 x n12 n13 m y)
  | _ => None
  end.
#[local] Instance mount_countable : Countable MountCapabilityClaims.
Proof. refine (inj_countable mount_fields mount_of_fields _). by intros []. Defined.
#[local] Instance signed_countable : Countable SignedCapability.
Proof.
  refine (inj_countable' (fun s => (key_generation s, claims_bytes s, signature s))
            (fun t => mkSigned t.1.1 t.1.2 t.2) _). by intros [].
Defined.
#[local] Instance signed_mount_countable : Countable SignedMountCapability.
Proof.
  refine (inj_countable' (fun s => (m_key_generation s, m_claims_bytes s, m_signature s))
            (fun t => mkSignedMount t.1.1 t.1.2 t.2) _). by intros [].
Defined.

#[local] Instance claims_codec : ProstMessage CapabilityClaims := countable_codec _.
#[local] Instance signed_codec : ProstMessage SignedCapability := countable_codec _.
#[local] Instance mount_codec : ProstMessage MountCapabilityClaims := countable_codec _.
#[local] Instance signed_mount_codec : ProstMessage SignedMountCapability := countable_codec _.
#[local] Instance claims_laws : ProstLaws CapabilityClaims (fun _ => True) := countable_codec_laws _ _.
#[local] Instance signed_laws : ProstLaws SignedCapability (fun _ => True) := countable_codec_laws _ _.
#[local] Instance mount_laws : ProstLaws MountCapabilityClaims (fun _ => True) := countable_codec_laws _ _.
#[local] Instance signed_mount_laws : ProstLaws SignedMountCapability (fun _ => True) :=
  countable_codec_laws _ _.

Definition id1 : string := "11111111-1111-4111-8111-111111111111".
Definition demo_claims : CapabilityClaims :=
  mkClaims id1 "io" 3 id1 id1 "" "" "" "" 0 0 9 1 1 1 0 (replicate 16 "n"%char) 1000 1060 1 id1.
Definition demo_mount_claims : MountCapabilityClaims :=
  mkMountClaims id1 "io" 1 id1 id1 id1 id1 id1 id1 id1 "" 0 9 1 1 1 1 1 1 1 1 (replicate 16 "n"%char)
    1000 1015 id1 [].
Definition api_keys : TypedKeyset ApiStorage := Typed ApiStorage [(3, demo_key "a")].
Definition mount_keys : TypedKeyset MountStorage := Typed MountStorage [(4, demo_key "b")].

Definition kp_a : @ed_keypair ed25519_lib := demo_key "a".
Definition kp_b : @ed_keypair ed25519_lib := demo_key "b".

Lemma demo_claims_valid : authorizes demo_claims "io" OpDownload 1059.
Proof.
  split; try done.
  repeat constructor; by eexists.
Qed.

Definition demo_wire : string :=
  match sign_capability demo_claims OpDownload 3 kp_a with Ok w => w | Err _ => "" end.

Lemma demo_verifies : verify_capability demo_wire api_keys "io" OpDownload 1059 = Ok (mkVerified demo_claims 3).
Proof.
  eapply (signed_verifies (fun _ => True) (fun _ => True)); [done|done|done|reflexivity| |reflexivity].
  apply demo_claims_valid.
Qed.

Lemma capability_round_trip_witness :
  exists wire, sign_capability demo_claims OpDownload 3 kp_a = Ok wire /\
    verify_capability wire api_keys "io" OpDownload 1059 = Ok (mkVerified demo_claims 3).
Proof.
  exists demo_wire. split; [reflexivity|].
  apply (capability_round_trip (fun _ => True) (fun _ => True) (fun _ _ _ _ => I) demo_claims OpDownload 3
           kp_a api_keys "io" 1059 demo_wire); [done|done|reflexivity| |reflexivity].
  apply demo_claims_valid.
Defined.

Lemma capability_not_substitutable_witness :
  OpDownload = OpDownload /\ "io" = "io" /\
  mkVerified demo_claims 3 = mkVerified demo_claims 3 /\ Z.abs (1059 - 1059) < 60.
Proof.
  apply (capability_not_substitutable demo_wire api_keys api_keys "io" "io" OpDownload OpDownload
           1059 1059 (mkVerified demo_claims 3) (mkVerified demo_claims 3)); apply demo_verifies.
Defined.

Lemma envelopes_are_disjoint_witness :
  verify_mount_storage_capability demo_wire mount_keys "io" MRead 1059 = Err InvalidEncoding.
Proof.
  apply (envelopes_are_disjoint demo_wire api_keys mount_keys "io" OpDownload 1059 "io" MRead 1059
           (mkVerified demo_claims 3)). apply demo_verifies.
Defined.

Lemma demo_mount_valid : mount_authorizes demo_mount_claims "io" MRead 1000.
Proof.
  split; try done.
  - repeat constructor; by eexists.
  - by eexists.
  - repeat constructor; done.
Qed.

Lemma mount_capability_round_trip_witness :
  exists wire, sign_mount_storage_capability demo_mount_claims MRead 4 kp_b = Ok wire /\
    verify_mount_storage_capability wire mount_keys "io" MRead 1014 = Ok (mkVerified demo_mount_claims 4).
Proof.
  pose proof (mount_capability_round_trip (fun _ => True) (fun _ => True) (fun _ _ _ _ => I)
                demo_mount_claims MRead 4 kp_b mount_keys 1014) as Hrt.
  destruct Hrt as (Hsign & Hver & _); [done|vm_compute; done|vm_compute; done|vm_compute; done|reflexivity|].
  destruct (proj2 Hsign) as [wire Hw]; [split; [done|apply demo_mount_valid]|].
  exists wire. split; [exact Hw|]. apply Hver; [exact Hw|vm_compute; done].
Defined.
End Demo.
