(* ===== verification/Envelope.v ===== *)
(** The signed text envelope that [filebelt-collaboration-protocol] and
    [filebelt-mcp-protocol] write with the same code: a prefix, and the Base64
    text of a message with a key generation, the encoded claims and an Ed25519
    signature over a domain separator and those claims.  [Family] collects what
    differs between the two crates. *)
From S2P Require Import Prelude Collections Libraries Keyset.

Open Scope string_scope.
Open Scope Z_scope.
Open Scope list_scope.

(** [S] is the generated envelope message, [E] the error type of the crate. *)
Record Family (S E : Type) := mkFamily {
  fam_prefix : string;
  fam_domain : bytes;
  fam_signed : Z -> bytes -> bytes -> S;
  fam_generation : S -> Z;
  fam_claims : S -> bytes;
  fam_signature : S -> bytes;
  fam_invalid_encoding : E;
  fam_invalid_claims : E;
  fam_keyset_error : KeysetError -> E
}.
Arguments fam_prefix {S E}.
Arguments fam_domain {S E}.
Arguments fam_signed {S E}.
Arguments fam_generation {S E}.
Arguments fam_claims {S E}.
Arguments fam_signature {S E}.
Arguments fam_invalid_encoding {S E}.
Arguments fam_invalid_claims {S E}.
Arguments fam_keyset_error {S E}.

(** The claims of an envelope and the generation of the key that verified it. *)
Record Authenticated (T : Type) := mkAuthenticated { at_claims : T; at_generation : Z }.
Arguments mkAuthenticated {T}.
Arguments at_claims {T}.
Arguments at_generation {T}.

Section envelope.
Context `{Base64Lib, Ed25519Lib} {C S E : Type} `{!ProstMessage C, !ProstMessage S} (f : Family S E).

Definition seal (c : C) (generation : Z) (key_pair : ed_keypair) : string :=
  let claims_bytes := encode_to_vec c in
  let signing_input := fam_domain f ++ claims_bytes in
  let signed := fam_signed f generation claims_bytes (ed_sign key_pair signing_input) in
  fam_prefix f +:+ b64_encode (encode_to_vec signed).

(** Everything up to the validation of the claims. *)
Definition unseal {p} (wire : string) (keys : TypedKeyset p) : result E (Authenticated C) :=
  let? encoded := ok_or (fam_invalid_encoding f) (strip_prefix (fam_prefix f) wire) in
  let? bytes_ := ok_or (fam_invalid_encoding f) (b64_decode encoded) in
  let? signed := ok_or (fam_invalid_encoding f) (decode_message bytes_) in
  let signing_input := fam_domain f ++ fam_claims f signed in
  let? _ := map_err (fam_keyset_error f) (TypedKeyset_verify keys (fam_generation f signed) signing_input (fam_signature f signed)) in
  let? claims := ok_or (fam_invalid_claims f) (decode_message (fam_claims f signed)) in
  Ok (mkAuthenticated claims (fam_generation f signed)).

(** ** What an opened envelope proves *)

(** Some key of the keyset, at the reported generation, signed these claims. *)
Definition vouched {p} (wire : string) (keys : TypedKeyset p) (a : Authenticated C) : Prop :=
  exists signed key,
    (strip_prefix (fam_prefix f) wire ≫= b64_decode) ≫= decode_message = Some signed /\
    public_key keys (fam_generation f signed) = Some key /\
    ed_verify key (fam_domain f ++ fam_claims f signed) (fam_signature f signed) = true /\
    decode_message (fam_claims f signed) = Some (at_claims a) /\
    at_generation a = fam_generation f signed.

Lemma unseal_Ok {p} wire (keys : TypedKeyset p) a : unseal wire keys = Ok a <-> vouched wire keys a.
Proof.
  unfold unseal, vouched. rewrite bind_Ok. setoid_rewrite bind_Ok. setoid_rewrite bind_Ok.
  setoid_rewrite ok_or_Ok. unfold TypedKeyset_verify, Keyset_verify, public_key. split.
  - intros (e & He & b & Hb & signed & Hs & Hrun). exists signed. rewrite He. cbn [mbind option_bind].
    rewrite Hb. cbn [mbind option_bind]. destruct (bt_get _ _) as [key|]; [|done].
    destruct (ed_verify _ _ _) eqn:Hv; [|done]. cbn [map_err] in Hrun.
    destruct (decode_message (fam_claims f signed)) as [c|] eqn:Hd; [|done]. cbn [ok_or] in Hrun.
    injection Hrun as <-. by exists key.
  - intros (signed & key & Hw & Hk & Hv & Hd & Hg). destruct (strip_prefix _ _) as [e|]; [|done].
    cbn [mbind option_bind] in Hw. destruct (b64_decode e) as [b|] eqn:Hb; [|done]. cbn [mbind option_bind] in Hw.
    exists e. split; [done|]. exists b. split; [done|]. exists signed. split; [done|].
    rewrite Hk, Hv. cbn [map_err]. rewrite Hd. cbn [ok_or]. destruct a. simpl in *. congruence.
Qed.

Lemma vouched_prefix {p} wire (keys : TypedKeyset p) a : vouched wire keys a -> exists rest, wire = fam_prefix f +:+ rest.
Proof.
  intros (signed & key & Hw & _). destruct (strip_prefix _ _) as [e|] eqn:He; [|done]. apply strip_prefix_Some in He. eauto.
Qed.

(** The claims of an envelope do not depend on the keys that open it. *)
Lemma vouched_functional {p q} wire (keys : TypedKeyset p) (keys' : TypedKeyset q) a a' :
  vouched wire keys a -> vouched wire keys' a' -> a = a'.
Proof.
  intros (s & k & Hw & _ & _ & Hd & Hg) (s' & k' & Hw' & _ & _ & Hd' & Hg'). destruct a, a'. simpl in *. congruence.
Qed.
End envelope.

Section round_trip.
Context `{Base64Laws, Ed25519Laws} {C S E : Type} `{!ProstMessage C, !ProstMessage S} (f : Family S E).
Context (valid_claims : C -> Prop) (valid_signed : S -> Prop).
Context `{!ProstLaws C valid_claims, !ProstLaws S valid_signed}.
Hypothesis generation_signed : forall g c s, fam_generation f (fam_signed f g c s) = g.
Hypothesis claims_signed : forall g c s, fam_claims f (fam_signed f g c s) = c.
Hypothesis signature_signed : forall g c s, fam_signature f (fam_signed f g c s) = s.
Hypothesis signed_valid : forall g c s, is_u32 g -> valid_signed (fam_signed f g c s).

Lemma unseal_seal {p} c g kp (keys : TypedKeyset p) :
  valid_claims c -> is_u32 g -> public_key keys g = Some (ed_public kp) ->
  vouched f (seal f c g kp) keys (mkAuthenticated c g).
Proof.
  intros Hc Hg Hk. unfold vouched, seal. cbv zeta. rewrite strip_prefix_app. cbn [mbind option_bind].
  rewrite b64_decode_encode. cbn [mbind option_bind]. rewrite decode_encode by auto.
  eexists _, _. split; [done|]. rewrite generation_signed, claims_signed, signature_signed.
  split; [exact Hk|]. split; [apply ed_verify_sign|]. by rewrite decode_encode.
Qed.
End round_trip.
