(* ===== verification/McpPolicy.v ===== *)
(** Model of [source/crates/filebelt-mcp-policy/src]: registration state,
    capability review, exact approval bindings, compiled limits and the I-JSON
    number check in front of canonicalization. The RFC 8785 canonicalizer is a
    parameter. *)
From S2P Require Import Prelude Libraries.

Open Scope string_scope.
Open Scope Z_scope.
Open Scope list_scope.
Open Scope bool_scope.

(** ** model.rs *)

Inductive ValidationState := NeverTested | Valid | Invalid.
Inductive AuthenticationState := NoneRequired | Required | Authorized | Failed.
Inductive CapabilityState := Undiscovered | PendingReview | Approved | Drifted.
Inductive QuarantineState := Clear | Quarantined.
#[export] Instance ValidationState_eq_dec : EqDecision ValidationState.
Proof. solve_decision. Defined.
#[export] Instance AuthenticationState_eq_dec : EqDecision AuthenticationState.
Proof. solve_decision. Defined.
#[export] Instance CapabilityState_eq_dec : EqDecision CapabilityState.
Proof. solve_decision. Defined.
#[export] Instance QuarantineState_eq_dec : EqDecision QuarantineState.
Proof. solve_decision. Defined.

Record RegistrationPolicyState := mkRegistration {
  validation : ValidationState;
  authentication : AuthenticationState;
  capabilities : CapabilityState;
  quarantine_state : QuarantineState;
  enabled : bool;
  revoked : bool
}.

Definition default_registration : RegistrationPolicyState :=
  mkRegistration NeverTested Required Undiscovered Clear false false.

Inductive RegistrationStateError :=
| RegRevoked | RegQuarantined | NotValidated | NotAuthorized | CapabilitiesNotApproved.

Definition can_enable (s : RegistrationPolicyState) : result RegistrationStateError unit :=
  if revoked s then Err RegRevoked
  else if bool_decide (quarantine_state s = Quarantined) then Err RegQuarantined
  else if negb (bool_decide (validation s = Valid)) then Err NotValidated
  else if negb (match authentication s with NoneRequired | Authorized => true | _ => false end)
  then Err NotAuthorized
  else if negb (bool_decide (capabilities s = Approved)) then Err CapabilitiesNotApproved
  else Ok tt.

Definition set_enabled (s : RegistrationPolicyState) (b : bool) : RegistrationPolicyState :=
  mkRegistration (validation s) (authentication s) (capabilities s) (quarantine_state s) b (revoked s).

(** The methods take [&mut self]: the new state and the returned value. *)
Definition enable (s : RegistrationPolicyState)
  : RegistrationPolicyState * result RegistrationStateError unit :=
  match can_enable s with
  | Err e => (s, Err e)
  | Ok _ => (set_enabled s true, Ok tt)
  end.
Definition mark_capability_drift (s : RegistrationPolicyState) : RegistrationPolicyState :=
  mkRegistration (validation s) (authentication s) Drifted (quarantine_state s) false (revoked s).
Definition quarantine (s : RegistrationPolicyState) : RegistrationPolicyState :=
  mkRegistration (validation s) (authentication s) (capabilities s) Quarantined false (revoked s).
Definition revoke (s : RegistrationPolicyState) : RegistrationPolicyState :=
  mkRegistration (validation s) (authentication s) (capabilities s) (quarantine_state s) false true.

Inductive CapabilityPrimitive := ResourceRead | PromptGet | ToolCall.
#[export] Instance CapabilityPrimitive_eq_dec : EqDecision CapabilityPrimitive.
Proof. solve_decision. Defined.

Record CapabilityDescriptor := mkDescriptor {
  cd_primitive : CapabilityPrimitive;
  cd_name : string;
  cd_fingerprint : bytes;
  cd_read_only_hint : option bool
}.

Definition reviewable (d : CapabilityDescriptor) : bool :=
  negb (String.eqb (cd_name d) "") && (str_len (cd_name d) <=? 255)
  && (negb (bool_decide (cd_primitive d = ToolCall)) || bool_decide (cd_read_only_hint d = Some true)).

(** ** approval.rs *)

Record AttachmentBinding := mkAttachment {
  at_version_id : N;
  at_content : bool;
  at_basename : bool;
  at_media_type : bool;
  at_size : bool;
  at_target_pointer : string
}.
#[export] Instance AttachmentBinding_eq_dec : EqDecision AttachmentBinding.
Proof. solve_decision. Defined.

Record InvocationBinding := mkInvocation {
  inv_tenant_id : N;
  inv_principal_id : N;
  inv_registration_id : N;
  inv_application_id : string;
  inv_session_id : option N;
  inv_primitive : CapabilityPrimitive;
  inv_capability_name : string;
  inv_capability_fingerprint : bytes;
  inv_argument_digest : bytes;
  inv_attachments : list AttachmentBinding;
  inv_now_epoch_seconds : Z
}.

Record ApprovalBinding := mkApproval {
  ap_tenant_id : N;
  ap_principal_id : N;
  ap_registration_id : N;
  ap_application_id : string;
  ap_session_id : option N;
  ap_primitive : CapabilityPrimitive;
  ap_capability_name : string;
  ap_capability_fingerprint : bytes;
  ap_argument_digest : bytes;
  ap_attachments : list AttachmentBinding;
  ap_expires_at_epoch_seconds : Z;
  ap_single_use : bool;
  ap_consumed : bool
}.

Inductive ApprovalError := ApprovalExpired | ApprovalConsumed | BindingMismatch.
Inductive ApprovalDecision := ApprovalAllow | ApprovalDeny (e : ApprovalError).

Definition approval_evaluate (a : ApprovalBinding) (i : InvocationBinding) : ApprovalDecision :=
  if ap_expires_at_epoch_seconds a <=? inv_now_epoch_seconds i then ApprovalDeny ApprovalExpired
  else if ap_single_use a && ap_consumed a then ApprovalDeny ApprovalConsumed
  else
    let matches_ :=
      bool_decide (ap_tenant_id a = inv_tenant_id i)
      && bool_decide (ap_principal_id a = inv_principal_id i)
      && bool_decide (ap_registration_id a = inv_registration_id i)
      && bool_decide (ap_application_id a = inv_application_id i)
      && bool_decide (ap_session_id a = inv_session_id i)
      && bool_decide (ap_primitive a = inv_primitive i)
      && bool_decide (ap_capability_name a = inv_capability_name i)
      && bool_decide (ap_capability_fingerprint a = inv_capability_fingerprint i)
      && bool_decide (ap_argument_digest a = inv_argument_digest i)
      && bool_decide (ap_attachments a = inv_attachments i) in
    if matches_ then ApprovalAllow else ApprovalDeny BindingMismatch.

(** ** limits.rs *)

Record PolicyLimits := mkLimits {
  attachment_count : Z;
  attachment_item_bytes : Z;
  attachment_raw_bytes : Z;
  attachment_wire_bytes : Z;
  message_bytes : Z;
  result_bytes : Z;
  registrations_per_principal : Z;
  invocation_concurrency_per_principal : Z;
  invocation_concurrency_per_registration : Z;
  saved_approval_seconds : Z;
  data_grant_seconds : Z
}.

Definition within (l ceiling : PolicyLimits) : bool :=
  (attachment_count l <=? attachment_count ceiling)
  && (attachment_item_bytes l <=? attachment_item_bytes ceiling)
  && (attachment_raw_bytes l <=? attachment_raw_bytes ceiling)
  && (attachment_wire_bytes l <=? attachment_wire_bytes ceiling)
  && (message_bytes l <=? message_bytes ceiling)
  && (result_bytes l <=? result_bytes ceiling)
  && (registrations_per_principal l <=? registrations_per_principal ceiling)
  && (invocation_concurrency_per_principal l <=? invocation_concurrency_per_principal ceiling)
  && (invocation_concurrency_per_registration l <=? invocation_concurrency_per_registration ceiling)
  && (saved_approval_seconds l <=? saved_approval_seconds ceiling)
  && (data_grant_seconds l <=? data_grant_seconds ceiling).

Definition COMPILED_LIMITS : PolicyLimits :=
  mkLimits 4 (16 * 1048576) (16 * 1048576) (24 * 1048576) 1048576 (4 * 1048576) 20 4 2 3600
    (30 * 24 * 60 * 60).

(** ** lib.rs: I-JSON numbers *)

(** [serde_json::Number]: non-negative and negative integers, and floats. *)
Inductive JsonNumber := PosInt (n : Z) | NegInt (n : Z) | Float (text : string).
Definition number_wf (n : JsonNumber) : Prop :=
  match n with PosInt n => is_u64 n | NegInt n => i64_min <= n < 0 | Float _ => True end.

#[local] Set Warnings "-register-all".
Inductive Value :=
| JNull
| JBool (b : bool)
| JNumber (n : JsonNumber)
| JString (s : string)
| JArray (values : list Value)
| JObject (fields : list (string * Value)).

Definition as_i64 (n : JsonNumber) : option Z :=
  match n with
  | PosInt n => if n <=? i64_max then Some n else None
  | NegInt n => Some n
  | Float _ => None
  end.
Definition as_u64 (n : JsonNumber) : option Z :=
  match n with PosInt n => Some n | NegInt _ | Float _ => None end.

Inductive PolicyJsonError := UnsafeInteger | Serialization.

Definition MAX_SAFE_INTEGER : Z := 9007199254740991.

Definition number_unsafe (n : JsonNumber) : bool :=
  match as_i64 n with
  | Some v => negb ((- MAX_SAFE_INTEGER <=? v) && (v <=? MAX_SAFE_INTEGER))
  | None => false
  end
  || match as_u64 n with Some v => MAX_SAFE_INTEGER <? v | None => false end.

Fixpoint validate_interoperable_numbers (v : Value) : result PolicyJsonError unit :=
  match v with
  | JNumber n => if number_unsafe n then Err UnsafeInteger else Ok tt
  | JArray vs =>
      (fix go vs := match vs with
                    | [] => Ok tt
                    | v :: vs' => let? _ := validate_interoperable_numbers v in go vs'
                    end) vs
  | JObject fs =>
      (fix go fs := match fs with
                    | [] => Ok tt
                    | (_, v) :: fs' => let? _ := validate_interoperable_numbers v in go fs'
                    end) fs
  | _ => Ok tt
  end.

Section canonical.
Context `{Blake3Lib}.
(** [serde_json_canonicalizer::to_vec]. *)
Variable to_vec : Value -> option bytes.

Definition canonical_json (v : Value) : result PolicyJsonError bytes :=
  let? _ := validate_interoperable_numbers v in ok_or Serialization (to_vec v).

Definition policy_json_digest (domain : bytes) (v : Value) : result PolicyJsonError bytes :=
  let? encoded := canonical_json v in
  Ok (blake3_hash (as_bytes "filebelt-mcp-policy-v1" ++ [zero_byte] ++ domain ++ [zero_byte] ++ encoded)).
End canonical.

(** ** Registration life cycle *)

(** What must be true of a registration before outbound access is enabled. *)
Record ready (s : RegistrationPolicyState) : Prop := {
  rd_revoked : revoked s = false;
  rd_quarantine : quarantine_state s = Clear;
  rd_validation : validation s = Valid;
  rd_authentication : authentication s = NoneRequired \/ authentication s = Authorized;
  rd_capabilities : capabilities s = Approved
}.

Lemma can_enable_iff s : can_enable s = Ok tt <-> ready s.
Proof.
  unfold can_enable. checks_in_goal. split.
  - intros (Hr & Hq & Hv & Ha & Hc & _). split; try done.
    + by destruct (quarantine_state s).
    + destruct (authentication s); auto; done.
  - intros [Hr Hq Hv Ha Hc]. rewrite Hr, Hq, Hv, Hc. destruct Ha as [-> | ->]; done.
Qed.

(** One call of a method of [RegistrationPolicyState]. *)
Inductive registration_op := OpEnable | OpDrift | OpQuarantine | OpRevoke.
Definition apply_op (s : RegistrationPolicyState) (o : registration_op) : RegistrationPolicyState :=
  match o with
  | OpEnable => fst (enable s)
  | OpDrift => mark_capability_drift s
  | OpQuarantine => quarantine s
  | OpRevoke => revoke s
  end.

Inductive registration_step : RegistrationPolicyState -> RegistrationPolicyState -> Prop :=
| step_op s o : registration_step s (apply_op s o).

Definition registration_inv (s : RegistrationPolicyState) : Prop := enabled s = true -> ready s.

Lemma registration_step_inv s s' :
  registration_step s s' -> registration_inv s -> registration_inv s'.
Proof.
  intros Hstep Hinv. destruct Hstep as [s o]; unfold registration_inv in *.
  destruct o; simpl; try done. unfold enable.
  destruct (can_enable s) as [[]|] eqn:He; simpl; [|done].
  intros _. apply can_enable_iff in He. destruct He. by split.
Qed.

Lemma registration_step_revoked s s' : registration_step s s' -> revoked s = true -> revoked s' = true.
Proof.
  intros Hstep Hr. destruct Hstep as [s o].
  destruct o; simpl; try done. unfold enable. by destruct (can_enable s).
Qed.

(** ** Properties *)

(** Along every history of a registration, outbound access is enabled only
    while the registration is validated, authorized, approved, not quarantined
    and not revoked; revocation is permanent; [enable] succeeds exactly in those
    states and otherwise reports an error and changes nothing. *)
Theorem registration_enabled_only_when_ready s s' :
  rtc registration_step s s' -> registration_inv s ->
  (enabled s' = true -> ready s') /\
  (revoked s = true -> revoked s' = true /\ enabled s' = false) /\
  ((enable s').2 = Ok tt <-> ready s') /\
  (~ ready s' -> (enable s').1 = s').
Proof.
  intros Hrtc Hinv.
  assert (registration_inv s' /\ (revoked s = true -> revoked s' = true)) as [Hinv' Hrev].
  { induction Hrtc as [s|s s1 s' Hstep _ IH]; [auto|].
    destruct (IH (registration_step_inv _ _ Hstep Hinv)) as [H1 H2]. split; [done|].
    intros Hr. apply H2. by eapply registration_step_revoked. }
  split; [done|]. split.
  { intros Hr. specialize (Hrev Hr). split; [done|]. destruct (enabled s') eqn:He; [|done].
    destruct (Hinv' He). congruence. }
  rewrite <-can_enable_iff. unfold enable. destruct (can_enable s') as [[]|e]; simpl; naive_solver.
Qed.

(** An approval allows exactly the invocation it was given for: not expired,
    not a consumed single-use approval, and equal in every bound field,
    attachments included; expiry is reported before consumption, and consumption
    before a mismatch. *)
Theorem approval_binds_exactly a i :
  (approval_evaluate a i = ApprovalAllow <->
   inv_now_epoch_seconds i < ap_expires_at_epoch_seconds a /\
   (ap_single_use a = true -> ap_consumed a = false) /\
   i = mkInvocation (ap_tenant_id a) (ap_principal_id a) (ap_registration_id a) (ap_application_id a)
         (ap_session_id a) (ap_primitive a) (ap_capability_name a) (ap_capability_fingerprint a)
         (ap_argument_digest a) (ap_attachments a) (inv_now_epoch_seconds i)) /\
  (approval_evaluate a i = ApprovalDeny ApprovalExpired <->
   ap_expires_at_epoch_seconds a <= inv_now_epoch_seconds i) /\
  (approval_evaluate a i = ApprovalDeny ApprovalConsumed <->
   inv_now_epoch_seconds i < ap_expires_at_epoch_seconds a /\ ap_single_use a = true /\ ap_consumed a = true).
Proof.
  unfold approval_evaluate.
  destruct (Z.leb_spec (ap_expires_at_epoch_seconds a) (inv_now_epoch_seconds i)).
  { split; [naive_solver lia|]. split; [naive_solver|]. naive_solver lia. }
  destruct (ap_single_use a && ap_consumed a) eqn:Hc.
  { apply andb_true_iff in Hc as [Hs Hc]. split; [naive_solver congruence|].
    split; [naive_solver lia|]. naive_solver. }
  cbv zeta. match goal with |- context [if ?b then _ else _] => destruct b eqn:Hm end.
  - rewrite !andb_true_iff, !bool_decide_eq_true in Hm. apply andb_false_iff in Hc.
    split; [|split; [naive_solver lia|naive_solver congruence]].
    split; [|done]. intros _. split; [done|]. split; [naive_solver congruence|].
    destruct i. simpl in *. naive_solver.
  - apply andb_false_iff in Hc. split; [|split; [naive_solver lia|naive_solver congruence]].
    split; [done|]. intros (_ & _ & Hi). rewrite <-not_true_iff_false in Hm. destruct Hm.
    rewrite Hi. simpl. rewrite !andb_true_iff, !bool_decide_eq_true. done.
Qed.

(** Limit ceilings form a partial order: administrator limits below the
    compiled ceiling stay below it however many layers are stacked, and two
    limit sets that bound each other are equal. *)
Theorem limits_layer_safely l m n :
  within l l = true /\
  (within l m = true -> within m n = true -> within l n = true) /\
  (within l m = true -> within m l = true -> l = m) /\
  (within l COMPILED_LIMITS = true -> data_grant_seconds l <= 2592000 /\ saved_approval_seconds l <= 3600 /\
     attachment_raw_bytes l <= 16777216 /\ invocation_concurrency_per_principal l <= 4).
Proof.
  unfold within. rewrite !andb_true_iff, !Z.leb_le. split; [lia|]. split; [lia|]. split.
  - intros H1 H2. destruct l, m. simpl in *. f_equal; lia.
  - simpl. lia.
Qed.

(** Every number of a JSON value. *)
Fixpoint numbers (v : Value) : list JsonNumber :=
  match v with
  | JNumber n => [n]
  | JArray vs => concat (map numbers vs)
  | JObject fs => concat (map (fun kv => numbers kv.2) fs)
  | _ => []
  end.

Definition interoperable (n : JsonNumber) : Prop :=
  match n with PosInt n | NegInt n => - MAX_SAFE_INTEGER <= n <= MAX_SAFE_INTEGER | Float _ => True end.

Lemma number_unsafe_false n : number_wf n -> number_unsafe n = false <-> interoperable n.
Proof.
  intros Hwf. unfold number_unsafe, as_i64, as_u64, interoperable, number_wf, is_u64 in *.
  destruct n as [n|n|t]; [|autorewrite with bools; tauto|tauto].
  destruct (Z.leb_spec n i64_max); autorewrite with bools; [unfold MAX_SAFE_INTEGER; lia|].
  unfold MAX_SAFE_INTEGER, i64_max in *. split; [lia|]. lia.
Qed.

Lemma value_nested_ind (P : Value -> Prop) :
  P JNull -> (forall b, P (JBool b)) -> (forall n, P (JNumber n)) -> (forall s, P (JString s)) ->
  (forall vs, Forall P vs -> P (JArray vs)) ->
  (forall fs, Forall (fun kv => P kv.2) fs -> P (JObject fs)) -> forall v, P v.
Proof.
  intros H1 H2 H3 H4 H5 H6. fix IH 1. intros [|b|n|s|vs|fs]; [done|auto|auto|auto|apply H5|apply H6].
  - induction vs; constructor; auto.
  - induction fs; constructor; auto.
Qed.

(** Canonicalization is only reached when every number of the document,
    however deeply nested, is a float or an integer of the I-JSON range; the
    check is exact, and an unsafe integer stops the digest with [UnsafeInteger]. *)
Theorem json_numbers_checked to_vec v :
  Forall number_wf (numbers v) ->
  (validate_interoperable_numbers v = Ok tt <-> Forall interoperable (numbers v)) /\
  (canonical_json to_vec v = Err UnsafeInteger <-> ~ Forall interoperable (numbers v)) /\
  (forall b, canonical_json to_vec v = Ok b -> to_vec v = Some b /\ Forall interoperable (numbers v)).
Proof.
  intros Hwf.
  assert (validate_interoperable_numbers v = Ok tt <-> Forall interoperable (numbers v)) as Hiff.
  { induction v as [|b|n|s|vs IH|fs IH] using value_nested_ind; simpl in *; try done.
    - rewrite Forall_singleton in Hwf. rewrite Forall_singleton, <-number_unsafe_false by done.
      destruct (number_unsafe n); naive_solver.
    - induction IH as [|v vs Hv Hvs IHvs]; simpl in *; [done|].
      rewrite Forall_app in Hwf. destruct Hwf. rewrite seq_Ok, Forall_app, Hv, IHvs by done. done.
    - induction IH as [|[k v] fs Hv Hvs IHfs]; simpl in *; [done|].
      rewrite Forall_app in Hwf. destruct Hwf. rewrite seq_Ok, Forall_app, Hv, IHfs by done. done. }
  assert (forall e, validate_interoperable_numbers v = Err e -> e = UnsafeInteger) as Herr.
  { clear. induction v as [|b|n|s|vs IH|fs IH] using value_nested_ind; simpl; intros e; try done.
    - destruct (number_unsafe n); naive_solver.
    - induction IH as [|v vs Hv Hvs IHvs]; [done|].
      destruct (validate_interoperable_numbers v) as [[]|]; naive_solver.
    - induction IH as [|[k v] fs Hv Hvs IHfs]; [done|].
      simpl in Hv. destruct (validate_interoperable_numbers v) as [[]|]; naive_solver. }
  split; [done|]. rewrite <-Hiff. unfold canonical_json.
  destruct (validate_interoperable_numbers v) as [[]|e]; simpl.
  - destruct (to_vec v); naive_solver.
  - rewrite (Herr e eq_refl). naive_solver.
Qed.

(** ** Witnesses *)

Definition demo_ready : RegistrationPolicyState :=
  mkRegistration Valid Authorized Approved Clear false false.

Lemma registration_enabled_only_when_ready_witness :
  enabled (apply_op demo_ready OpEnable) = true /\ ready (apply_op demo_ready OpEnable).
Proof.
  split; [reflexivity|].
  apply (registration_enabled_only_when_ready demo_ready).
  - eapply rtc_l; [apply step_op|]. apply rtc_refl.
  - intros H. discriminate H.
  - reflexivity.
Defined.

Lemma json_numbers_checked_witness :
  canonical_json (fun _ => None) (JArray [JNumber (PosInt 1); JObject [("n", JNumber (PosInt 9007199254740992))]])
  = Err UnsafeInteger.
Proof.
  apply (json_numbers_checked (fun _ => None)
           (JArray [JNumber (PosInt 1); JObject [("n", JNumber (PosInt 9007199254740992))]])).
  - repeat constructor; vm_compute; done.
  - intros H. apply Forall_cons in H as [_ H]. apply Forall_cons in H as [H _]. vm_compute in H. by destruct H.
Defined.
