(* ===== verification/Frames.v ===== *)
(** Length-delimited protobuf frames, as [filebelt-revision-protocol] and
    [filebelt-directory-repository-protocol] both write them (the same code with
    another limit and another error type), and [std::str::from_utf8]. *)
From S2P Require Import Prelude Libraries.

(** ** Big-endian [u32] *)

Definition to_be_bytes (n : Z) : bytes :=
  [byte_of_Z (n / 16777216); byte_of_Z (n / 65536); byte_of_Z (n / 256); byte_of_Z n].
Definition from_be_bytes (a b c d : byte) : Z :=
  byte_val a * 16777216 + byte_val b * 65536 + byte_val c * 256 + byte_val d.

Lemma be_round_trip n :
  is_u32 n -> exists a b c d, to_be_bytes n = [a; b; c; d] /\ from_be_bytes a b c d = n.
Proof.
  intros Hn. unfold is_u32, u32_max in Hn. eexists _, _, _, _. split; [reflexivity|].
  unfold from_be_bytes. rewrite !byte_val_of_Z. Z.to_euclidean_division_equations; lia.
Qed.

Lemma from_be_bytes_bound a b c d : is_u32 (from_be_bytes a b c d).
Proof.
  unfold is_u32, from_be_bytes, u32_max. pose proof (byte_val_bound a). pose proof (byte_val_bound b).
  pose proof (byte_val_bound c). pose proof (byte_val_bound d). lia.
Qed.

(** ** Frames *)

Inductive FrameError := TooLarge | InvalidLength | Decode | Encode | Io.

Section frames.
Variable MAX_FRAME_BYTES : Z.
Context {M : Type} `{ProstMessage M}.

Definition encode_frame (m : M) : result FrameError bytes :=
  let body := encode_to_vec m in
  if MAX_FRAME_BYTES <? len body then Err TooLarge
  else
    let? length := ok_or TooLarge (u32_try_from (len body)) in
    Ok (to_be_bytes length ++ body).

Definition decode_frame (frame : bytes) : result FrameError M :=
  match frame with
  | a :: b :: c :: d :: body =>
      let length := from_be_bytes a b c d in
      if MAX_FRAME_BYTES <? length then Err TooLarge
      else if negb (len frame =? length + 4) then Err InvalidLength
      else ok_or Decode (decode_message body)
  | _ => Err InvalidLength
  end.

(** [Read::read_exact] on the bytes that are left in the stream. *)
Definition read_exact (n : Z) (stream : bytes) : option (bytes * bytes) :=
  if len stream <? n then None else Some (take (Z.to_nat n) stream, drop (Z.to_nat n) stream).

(** The message, and the stream after it. *)
Definition read_frame (stream : bytes) : result FrameError (M * bytes) :=
  match read_exact 4 stream with
  | Some ([a; b; c; d], stream1) =>
      let length := from_be_bytes a b c d in
      if MAX_FRAME_BYTES <? length then Err TooLarge
      else
        match read_exact length stream1 with
        | None => Err Io
        | Some (body, stream2) =>
            let? m := ok_or Decode (decode_message body) in Ok (m, stream2)
        end
  | _ => Err Io
  end.

(** [write_all] appends to the written bytes. *)
Definition write_frame (written : bytes) (m : M) : result FrameError bytes :=
  let? frame := encode_frame m in Ok (written ++ frame).

Fixpoint write_frames (written : bytes) (ms : list M) : result FrameError bytes :=
  match ms with
  | [] => Ok written
  | m :: ms' => let? w := write_frame written m in write_frames w ms'
  end.

(** Read [n] frames one after the other. *)
Fixpoint read_frames (n : nat) (stream : bytes) : result FrameError (list M * bytes) :=
  match n with
  | O => Ok ([], stream)
  | S n' =>
      match read_frame stream with
      | Err e => Err e
      | Ok (m, stream1) =>
          match read_frames n' stream1 with
          | Err e => Err e
          | Ok (ms, stream2) => Ok (m :: ms, stream2)
          end
      end
  end.

(** ** Lemmas *)

Lemma encode_frame_Ok m frame :
  encode_frame m = Ok frame ->
  exists a b c d, frame = [a; b; c; d] ++ encode_to_vec m /\
    from_be_bytes a b c d = len (encode_to_vec m) /\ len (encode_to_vec m) <= MAX_FRAME_BYTES.
Proof.
  unfold encode_frame. cbv zeta. rewrite guard_Ok, Z.ltb_ge. intros [Hle Hr].
  destruct (u32_try_from _) as [n|] eqn:Hn; [|done]. apply checked_Some in Hn as [<- Hn].
  destruct (be_round_trip (len (encode_to_vec m)) Hn) as (a & b & c & d & Hab & Hn').
  cbn [ok_or] in Hr. rewrite Hab in Hr. injection Hr as <-. eauto 10.
Qed.

Lemma read_exact_app (x y : bytes) : read_exact (len x) (x ++ y) = Some (x, y).
Proof.
  unfold read_exact. rewrite (proj2 (Z.ltb_ge _ _)).
  - unfold len. rewrite Nat2Z.id, take_app_length, drop_app_length. done.
  - rewrite len_app. pose proof (len_nonneg y). lia.
Qed.

Lemma read_frame_app m frame rest :
  decode_message (encode_to_vec m) = Some m ->
  encode_frame m = Ok frame -> read_frame (frame ++ rest) = Ok (m, rest).
Proof.
  intros Hdec (a & b & c & d & -> & Hn & Hle)%encode_frame_Ok. unfold read_frame.
  rewrite <-app_assoc. pose proof (read_exact_app [a; b; c; d] (encode_to_vec m ++ rest)) as Hx.
  change (len [a; b; c; d]) with 4 in Hx. rewrite Hx. cbv zeta. rewrite Hn.
  rewrite (proj2 (Z.ltb_ge _ _)) by done. rewrite read_exact_app, Hdec. done.
Qed.

Lemma write_frames_app ms written out :
  write_frames written ms = Ok out ->
  exists body, out = written ++ body /\
    (forall rest, (forall m, m ∈ ms -> decode_message (encode_to_vec m) = Some m) ->
      read_frames (length ms) (body ++ rest) = Ok (ms, rest)).
Proof.
  revert written. induction ms as [|m ms IH]; intros written; cbn [write_frames].
  - intros [= <-]. exists []. by rewrite app_nil_r.
  - unfold write_frame. destruct (encode_frame m) as [frame|] eqn:Hf; [|done].
    intros (body & -> & Hread)%IH. exists (frame ++ body). split; [by rewrite app_assoc|].
    intros rest Hdec. cbn [length read_frames]. rewrite <-app_assoc.
    rewrite (read_frame_app m frame); [|apply Hdec; left|done].
    rewrite Hread; [done|]. intros m' Hm'. apply Hdec. by right.
Qed.
End frames.

(** Decoding a buffer agrees with reading it as a stream to its end. *)
Lemma decode_frame_read_frame max {M} `{ProstMessage M} frame (m : M) :
  decode_frame max frame = Ok m <-> read_frame max frame = Ok (m, []).
Proof.
  unfold decode_frame, read_frame.
  destruct frame as [|a [|b [|c [|d body]]]]; [done..|].
  pose proof (read_exact_app [a; b; c; d] body) as Hx.
  change (len [a; b; c; d]) with 4 in Hx. simpl app in Hx. rewrite Hx. cbv zeta.
  pose proof (from_be_bytes_bound a b c d) as Hb. unfold is_u32 in Hb.
  destruct (max <? from_be_bytes a b c d); [done|].
  assert (len (a :: b :: c :: d :: body) = len body + 4) as Hlen.
  { unfold len. cbn [length]. lia. }
  rewrite Hlen. destruct (Z.eqb_spec (len body + 4) (from_be_bytes a b c d + 4)) as [Heq|Hne]; cbn [negb].
  - replace (from_be_bytes a b c d) with (len body) by lia.
    pose proof (read_exact_app body []) as Hy. rewrite app_nil_r in Hy. rewrite Hy.
    destruct (decode_message body); naive_solver.
  - split; [done|]. unfold read_exact. destruct (Z.ltb_spec (len body) (from_be_bytes a b c d)); [done|].
    destruct (decode_message _); [|done]. cbn [ok_or]. intros [= _ Hnil]. exfalso.
    apply (f_equal length) in Hnil. rewrite length_drop in Hnil. unfold len in *. simpl in Hnil. lia.
Qed.

(** ** UTF-8 ([std::str::from_utf8], Unicode table 3-7) *)

Definition in_range (lo hi : Z) (b : byte) : bool := (lo <=? byte_val b) && (byte_val b <=? hi).
Definition continuation (b : byte) : bool := in_range 128 191 b.

Fixpoint utf8_valid (s : bytes) : bool :=
  match s with
  | [] => true
  | b :: s1 =>
      if in_range 0 127 b then utf8_valid s1
      else match s1 with
           | [] => false
           | c :: s2 =>
               if in_range 194 223 b then continuation c && utf8_valid s2
               else match s2 with
                    | [] => false
                    | d :: s3 =>
                        if in_range 224 224 b then in_range 160 191 c && continuation d && utf8_valid s3
                        else if in_range 225 236 b || in_range 238 239 b
                        then continuation c && continuation d && utf8_valid s3
                        else if in_range 237 237 b
                        then in_range 128 159 c && continuation d && utf8_valid s3
                        else match s3 with
                             | [] => false
                             | e :: s4 =>
                                 (if in_range 240 240 b then in_range 144 191 c
                                  else if in_range 241 243 b then continuation c
                                  else if in_range 244 244 b then in_range 128 143 c
                                  else false)
                                 && continuation d && continuation e && utf8_valid s4
                             end
                    end
           end
  end.
