(* ===== verification/Net.v ===== *)
(** What the sources use of the standard library's [std::net] and [char]: the
    parser of [IpAddr] and control characters of UTF-8 text. *)
From S2P Require Import Prelude Frames.

Open Scope string_scope.
Open Scope Z_scope.
Open Scope list_scope.
Open Scope bool_scope.

(** ** [<IpAddr as FromStr>] *)

Inductive IpAddr := V4 (octets : list Z) | V6 (segments : list Z).
#[export] Instance IpAddr_eq_dec : EqDecision IpAddr.
Proof. solve_decision. Defined.

(** [char::to_digit]. *)
Definition to_digit (radix : Z) (b : byte) : option Z :=
  let v := byte_val b in
  let d := if (48 <=? v) && (v <=? 57) then v - 48
           else if (97 <=? v) && (v <=? 102) then v - 87
           else if (65 <=? v) && (v <=? 70) then v - 55 else 99 in
  if d <? radix then Some d else None.

(** The digits at the front, with how many there are. *)
Fixpoint read_digits (radix : Z) (s : bytes) (value : Z) (count : nat) : Z * nat * bytes :=
  match s with
  | [] => (value, count, s)
  | b :: rest =>
      match to_digit radix b with
      | Some d => read_digits radix rest (value * radix + d) (S count)
      | None => (value, count, s)
      end
  end.

(** [Parser::read_number] with a digit limit, for the type bounded by [hi]. *)
Definition read_number (radix : Z) (max_digits : nat) (allow_zero_prefix : bool) (hi : Z) (s : bytes) : option (Z * bytes) :=
  let '(value, count, rest) := read_digits radix s 0 0 in
  if (max_digits <? count)%nat || (count =? 0)%nat || (hi <? value)
     || (negb allow_zero_prefix && match s with b :: _ => Ascii.eqb b "0"%char | [] => false end && (1 <? count)%nat)
  then None else Some (value, rest).

Definition read_given_char (c : ascii) (s : bytes) : option bytes :=
  match s with b :: rest => if Ascii.eqb b c then Some rest else None | [] => None end.

(** [Parser::read_separator]: the separator comes before every part but the first. *)
Definition read_separator {A} (sep : ascii) (index : nat) (inner : bytes -> option (A * bytes)) (s : bytes) : option (A * bytes) :=
  match index with
  | O => inner s
  | S _ => match read_given_char sep s with Some rest => inner rest | None => None end
  end.

Fixpoint read_octets (n index : nat) (s : bytes) : option (list Z * bytes) :=
  match n with
  | O => Some ([], s)
  | S n' =>
      match read_separator "."%char index (read_number 10 3 false 255) s with
      | None => None
      | Some (octet, rest) =>
          match read_octets n' (S index) rest with
          | Some (octets, rest') => Some (octet :: octets, rest')
          | None => None
          end
      end
  end.
Definition read_ipv4_addr (s : bytes) : option (list Z * bytes) := read_octets 4 0 s.

(** Up to [n] groups, the last two of which may be an embedded IPv4 address. *)
Fixpoint read_groups (n index : nat) (s : bytes) : list Z * bool * bytes :=
  match n with
  | O => ([], false, s)
  | S n' =>
      let v4 := match n' with
                | O => None
                | S _ => read_separator ":"%char index read_ipv4_addr s
                end in
      match v4 with
      | Some ([a; b; c; d], rest) => ([a * 256 + b; c * 256 + d], true, rest)
      | _ =>
          match read_separator ":"%char index (read_number 16 4 true 65535) s with
          | None => ([], false, s)
          | Some (group, rest) =>
              let '(groups, ipv4, rest') := read_groups n' (S index) rest in
              (group :: groups, ipv4, rest')
          end
      end
  end.

Definition read_ipv6_addr (s : bytes) : option (list Z * bytes) :=
  let '(head, head_ipv4, rest) := read_groups 8 0 s in
  if (length head =? 8)%nat then Some (head, rest)
  else if head_ipv4 then None
  else
    match read_given_char ":"%char rest with
    | None => None
    | Some rest =>
        match read_given_char ":"%char rest with
        | None => None
        | Some rest =>
            let '(tail, _, rest) := read_groups (8 - (length head + 1)) 0 rest in
            Some (head ++ replicate (8 - length head - length tail) 0 ++ tail, rest)
        end
    end.

Definition parse_ip_addr (value : string) : option IpAddr :=
  match read_ipv4_addr (as_bytes value) with
  | Some (octets, rest) => match rest with [] => Some (V4 octets) | _ => None end
  | None =>
      match read_ipv6_addr (as_bytes value) with
      | Some (segments, []) => Some (V6 segments)
      | _ => None
      end
  end.

(** ** Control characters *)

(** [char::is_control] of some character of a UTF-8 text: U+0000 to U+001F, U+007F,
    and U+0080 to U+009F, whose encoding is the byte [C2] with a second byte
    below [A0]. *)
Fixpoint has_control (s : bytes) : bool :=
  match s with
  | [] => false
  | b :: rest =>
      is_ascii_control b
      || ((byte_val b =? 194) && match rest with c :: _ => (128 <=? byte_val c) && (byte_val c <=? 159) | [] => false end)
      || has_control rest
  end.

Definition ip_addr_ok (a : IpAddr) : Prop :=
  match a with
  | V4 octets => length octets = 4%nat /\ Forall (fun o => 0 <= o <= 255) octets
  | V6 segments => length segments = 8%nat /\ Forall (fun g => 0 <= g <= 65535) segments
  end.

Lemma to_digit_bound radix b d : to_digit radix b = Some d -> 0 <= d < radix.
Proof. unfold to_digit. repeat case_match; intros; simplify_eq; breflect; lia. Qed.

Lemma read_digits_nonneg radix s value count v c rest :
  0 <= radix -> 0 <= value -> read_digits radix s value count = (v, c, rest) -> 0 <= v.
Proof.
  intros Hr. revert value count. induction s as [|b s IH]; intros value count Hv; simpl; [intros; by simplify_eq|].
  destruct (to_digit radix b) as [d|] eqn:Hd; [|intros; by simplify_eq]. apply to_digit_bound in Hd. apply IH. nia.
Qed.

Lemma read_number_bound radix n z hi s v rest : 0 <= radix -> read_number radix n z hi s = Some (v, rest) -> 0 <= v <= hi.
Proof.
  intros Hr. unfold read_number. destruct (read_digits radix s 0 0) as [[value count] rest'] eqn:Hd.
  apply read_digits_nonneg in Hd; [|lia..]. destruct (_ || _) eqn:Hc; [done|]. intros [= <- <-].
  apply orb_false_iff in Hc as [[_ Hc]%orb_false_iff _]. apply Z.ltb_ge in Hc. lia.
Qed.

Lemma read_separator_spec {A} sep index (inner : bytes -> option (A * bytes)) s a rest (P : A -> Prop) :
  (forall s a rest, inner s = Some (a, rest) -> P a) -> read_separator sep index inner s = Some (a, rest) -> P a.
Proof. intros Hi. destruct index; simpl; [apply Hi|]. destruct (read_given_char sep s); [apply Hi|done]. Qed.

Lemma read_octets_spec n index s octets rest :
  read_octets n index s = Some (octets, rest) -> length octets = n /\ Forall (fun o => 0 <= o <= 255) octets.
Proof.
  revert index s octets. induction n as [|n IH]; intros index s octets; simpl; [intros; by simplify_eq|].
  destruct (read_separator _ _ _ s) as [[o r]|] eqn:Ho; [|done]. destruct (read_octets n (S index) r) as [[os r']|] eqn:Hos; [|done].
  intros [= <- <-]. destruct (IH _ _ _ Hos) as [<- Hall]. split; [done|]. constructor; [|done].
  eapply (read_separator_spec _ _ _ _ _ _ (fun o => 0 <= o <= 255)) in Ho; [done|]. intros ? ? ?. by apply read_number_bound.
Qed.

Lemma read_groups_spec n index s groups ipv4 rest :
  read_groups n index s = (groups, ipv4, rest) -> (length groups <= n)%nat /\ Forall (fun g => 0 <= g <= 65535) groups.
Proof.
  revert index s groups. induction n as [|n IH]; intros index s groups; cbn [read_groups]; [intros; by simplify_eq|].
  destruct (match n with O => None | S _ => read_separator ":"%char index read_ipv4_addr s end) as [[os r]|] eqn:Hv4.
  - destruct n as [|n]; [done|]. eapply (read_separator_spec _ _ _ _ _ _ (fun os => length os = 4%nat /\ Forall (fun o => 0 <= o <= 255) os)) in Hv4 as [Hl Hall];
      [|by intros ? ? ? ?%read_octets_spec].
    destruct os as [|a [|b [|c [|d [|? ?]]]]]; try done. rewrite !Forall_cons in Hall. intros [= <- <- <-]. simpl. split; [lia|].
    repeat constructor; lia.
  - destruct (read_separator ":"%char index (read_number 16 4 true 65535) s) as [[g r]|] eqn:Hg; [|intros [= <- <- <-]; simpl; split; [lia|constructor]].
    destruct (read_groups n (S index) r) as [[gs i4] r'] eqn:Hgs. intros [= <- <- <-]. destruct (IH _ _ _ Hgs) as [Hl Hall].
    simpl. split; [lia|]. constructor; [|done].
    eapply (read_separator_spec _ _ _ _ _ _ (fun o => 0 <= o <= 65535)) in Hg; [done|]. intros ? ? ?. by apply read_number_bound.
Qed.

(** A parsed address has the shape of its family. *)
Lemma parse_ip_addr_ok value a : parse_ip_addr value = Some a -> ip_addr_ok a.
Proof.
  unfold parse_ip_addr. destruct (read_ipv4_addr _) as [[os r]|] eqn:H4.
  { destruct r; [|done]. intros [= <-]. by eapply read_octets_spec. }
  unfold read_ipv6_addr. destruct (read_groups 8 0 _) as [[head i4] r] eqn:Hh. apply read_groups_spec in Hh as [Hl Hall].
  destruct (length head =? 8)%nat eqn:H8.
  { apply Nat.eqb_eq in H8. destruct r; [|done]. intros [= <-]. done. }
  apply Nat.eqb_neq in H8. destruct i4; [done|]. destruct (read_given_char _ r) as [r1|]; [|done].
  destruct (read_given_char _ r1) as [r2|]; [|done]. destruct (read_groups _ 0 r2) as [[tail j4] r3] eqn:Ht.
  apply read_groups_spec in Ht as [Hlt Hallt]. destruct r3; [|done]. intros [= <-]. simpl. rewrite !length_app, length_replicate.
  split; [lia|]. rewrite !Forall_app. split; [done|]. split; [|done]. apply Forall_replicate. lia.
Qed.

Example parse_v4 : parse_ip_addr "192.168.0.7" = Some (V4 [192; 168; 0; 7]).
Proof. reflexivity. Qed.
Example parse_v4_zero_prefix : parse_ip_addr "192.168.00.7" = None.
Proof. reflexivity. Qed.
Example parse_v6 : parse_ip_addr "fe80::1:10.0.0.1" = Some (V6 [65152; 0; 0; 0; 0; 1; 2560; 1]).
Proof. reflexivity. Qed.
Example parse_v6_any : parse_ip_addr "::" = Some (V6 (replicate 8 0)).
Proof. reflexivity. Qed.
Example parse_v6_nine : parse_ip_addr "1:2:3:4:5:6:7:8:9" = None.
Proof. reflexivity. Qed.
