(* ===== verification/Web.v ===== *)
(** What the configuration and the gateways use of the crate [url] and of the
    standard library: URLs, socket addresses and classes of IP addresses, paths
    by components, white space, and the ratio arithmetic of [f64]. *)
From Stdlib Require Export Floats.SpecFloat.
From S2P Require Import Prelude Collections Frames Net.

Open Scope string_scope.
Open Scope Z_scope.
Open Scope list_scope.
Open Scope bool_scope.

(** ** Strings *)

Definition is_ascii_lowercase (b : byte) : bool := (97 <=? byte_val b) && (byte_val b <=? 122).
Definition is_ascii_alphabetic (b : byte) : bool := is_ascii_lowercase b || is_ascii_uppercase b.
Definition is_ascii_alphanumeric (b : byte) : bool := is_ascii_alphabetic b || is_ascii_digit b.
(** [u8::is_ascii_whitespace]: space, tab, line feed, form feed, carriage return. *)
Definition is_ascii_whitespace (b : byte) : bool :=
  existsb (Z.eqb (byte_val b)) [32; 9; 10; 12; 13].

Definition byte_is (c : ascii) (b : byte) : bool := Ascii.eqb b c.
Definition is_empty (s : string) : bool := String.eqb s "".
Definition is_some {A} (o : option A) : bool := match o with Some _ => true | None => false end.
Definition is_none {A} (o : option A) : bool := negb (is_some o).
(** [Option::is_some_and] and [Option::is_none_or]. *)
Definition is_some_and {A} (o : option A) (p : A -> bool) : bool := match o with Some a => p a | None => false end.
Definition is_none_or {A} (o : option A) (p : A -> bool) : bool := match o with Some a => p a | None => true end.
(** [RangeInclusive::contains]. *)
Definition range_contains (lo hi x : Z) : bool := (lo <=? x) && (x <=? hi).

Definition str_starts_with (p s : string) : bool := is_some (strip_prefix p s).
Definition str_ends_with (p s : string) : bool := is_some (strip_suffix p s).
Definition str_contains_char (c : ascii) (s : string) : bool := existsb (byte_is c) (as_bytes s).

(** [str::rsplit_once] with a string pattern: at its last occurrence. *)
Fixpoint rsplit_once_str (p s : string) : option (string * string) :=
  let rest :=
    match s with
    | EmptyString => None
    | String a s' => match rsplit_once_str p s' with Some (l, r) => Some (String a l, r) | None => None end
    end in
  match rest with
  | Some lr => Some lr
  | None => match strip_prefix p s with Some r => Some (EmptyString, r) | None => None end
  end.

(** [char::is_whitespace] of some character of a UTF-8 text: the characters of the
    Unicode property White_Space by their encodings. *)
Fixpoint has_whitespace (s : bytes) : bool :=
  match s with
  | [] => false
  | b :: rest =>
      let v := byte_val b in
      range_contains 9 13 v || (v =? 32)
      || match v, rest with
         | 194, c :: _ => (byte_val c =? 133) || (byte_val c =? 160)
         | 225, c :: d :: _ => (byte_val c =? 154) && (byte_val d =? 128)
         | 226, c :: d :: _ =>
             ((byte_val c =? 128) && (range_contains 128 138 (byte_val d) || existsb (Z.eqb (byte_val d)) [168; 169; 175]))
             || ((byte_val c =? 129) && (byte_val d =? 159))
         | 227, c :: d :: _ => (byte_val c =? 128) && (byte_val d =? 128)
         | _, _ => false
         end
      || has_whitespace rest
  end.

(** ** [f64] *)

Definition f64 : Type := spec_float.
Definition f64_zero : f64 := S754_zero false.
Definition f64_one : f64 := S754_finite false 4503599627370496 (-52).
(** The double nearest to 0.1. *)
Definition f64_tenth : f64 := S754_finite false 7205759403792794 (-56).
Definition is_finite (x : f64) : bool :=
  match x with S754_zero _ | S754_finite _ _ _ => true | S754_infinity _ | S754_nan => false end.
Definition f64_in_range (lo hi x : f64) : bool := SFleb lo x && SFleb x hi.

(** ** Addresses *)

Definition ip_is_unspecified (a : IpAddr) : bool :=
  match a with V4 o => bool_decide (o = [0; 0; 0; 0]) | V6 s => bool_decide (s = replicate 8 0) end.
Definition ip_is_loopback (a : IpAddr) : bool :=
  match a with
  | V4 o => match o with 127 :: _ => true | _ => false end
  | V6 s => bool_decide (s = [0; 0; 0; 0; 0; 0; 0; 1])
  end.
Definition ip_is_ipv4 (a : IpAddr) : bool := match a with V4 _ => true | V6 _ => false end.

(** [SocketAddrV4] has no flow information and no scope: they are zero here. *)
Record SocketAddr := mkSocketAddr { sa_ip : IpAddr; sa_port : Z; sa_flowinfo : Z; sa_scope_id : Z }.
#[export] Instance SocketAddr_eq_dec : EqDecision SocketAddr.
Proof. solve_decision. Defined.
Definition socket_v4 (octets : list Z) (port : Z) : SocketAddr := mkSocketAddr (V4 octets) port 0 0.
Definition unspecified (a : SocketAddr) : bool := ip_is_unspecified (sa_ip a).

(** ** Paths *)

(** [std::path::Component] on Unix. Two paths are equal, and ordered, by their
    components: repeated separators and inner [.] do not count. *)
Inductive Component := RootDir | CurDir | ParentDir | Normal (name : string).
#[export] Instance Component_eq_dec : EqDecision Component.
Proof. solve_decision. Defined.

Definition segment_component (segment : string) : list Component :=
  if is_empty segment || String.eqb segment "." then []
  else if String.eqb segment ".." then [ParentDir] else [Normal segment].
Definition path_is_absolute (p : string) : bool := str_starts_with "/" p.
Definition path_components (p : string) : list Component :=
  let segments := split_char "/" p in
  (if path_is_absolute p then [RootDir]
   else match segments with first :: _ => if String.eqb first "." then [CurDir] else [] | [] => [] end)
  ++ flat_map segment_component segments.

(** The derived order of [Component]. *)
Definition component_key (c : Component) : Z * string :=
  match c with RootDir => (1, "") | CurDir => (2, "") | ParentDir => (3, "") | Normal n => (4, n) end.
#[export] Instance Component_Ord : Ord Component := ord_via component_key.
#[export] Instance Component_OrdLaws : OrdLaws Component.
Proof. apply ord_via_laws. intros [] []; simpl; congruence. Qed.

Definition paths_equal (p q : string) : bool := bool_decide (path_components p = path_components q).

(** ** HTTP headers *)

(** crate [http]: a header map as its entries, with lower-case names, in their order. *)
Definition HeaderMap : Type := list (string * bytes).
Definition get_all (name : string) (headers : HeaderMap) : list bytes :=
  map snd (List.filter (fun '(n, _) => String.eqb n name) headers).
Definition contains_key (name : string) (headers : HeaderMap) : bool := negb (len (get_all name headers) =? 0).
(** [HeaderValue::to_str]: visible ASCII and tabs. *)
Definition to_str (value : bytes) : option string :=
  if forallb (fun b => range_contains 32 126 (byte_val b) || (byte_val b =? 9)) value then Some (str_of_bytes value) else None.
(** The first value of a header, as [HeaderMap::get] returns it. *)
Definition header_get (name : string) (headers : HeaderMap) : option bytes := head (get_all name headers).

(** ** crate [url] *)

(** A parsed URL by the results of its accessors; [url_host_text] is the [Display]
    text of [Url::host] and [url_brackets] says whether it is an IPv6 address. *)
Record Url := mkUrl {
  as_str : string;
  scheme : string;
  username : string;
  password : option string;
  host_str : option string;
  url_host_text : option string;
  url_brackets : bool;
  url_port : option Z;
  port_or_known_default : option Z;
  url_path : string;
  query : option string;
  fragment : option string
}.

Class UrlLib := {
  url_parse : string -> option Url;
  (** [a.origin() == b.origin()] *)
  same_origin : Url -> Url -> bool
}.

(** Names that the URL parser keeps as they are: lower-case letters, digits, [-], [.]. *)
Definition plain_host_byte (b : byte) : bool :=
  is_ascii_lowercase b || is_ascii_digit b || byte_is "-" b || byte_is "." b.

Class UrlLaws `{UrlLib} : Prop := {
  (** an opaque host without special characters is kept (URL Standard, 3.5) *)
  url_parse_spiffe_host : forall domain path u,
    domain <> "" -> forallb plain_host_byte (as_bytes domain) = true ->
    url_parse ("spiffe://" +:+ domain +:+ "/" +:+ path) = Some u -> host_str u = Some domain;
  (** dot segments of a URL with a special scheme are resolved (URL Standard, 4.4) *)
  url_parse_no_dots : forall s u segment, url_parse s = Some u -> scheme u = "https" ->
    segment ∈ split_char "/" (url_path u) -> segment <> "." /\ segment <> "..";
  (** tuple origins are compared by scheme, host and port *)
  same_origin_https : forall u v, scheme u = "https" -> scheme v = "https" -> same_origin u v = true ->
    host_str u = host_str v /\ port_or_known_default u = port_or_known_default v
}.

(** [Url] compares by its serialization. *)
Definition url_eqb (u v : Url) : bool := String.eqb (as_str u) (as_str v).

(** ** A concrete parser *)

(** A parser of plain URLs [scheme://host:port/path?query#fragment] without user
    information, dot segments or escapes.  Witnesses use it; it shows that the laws
    can hold. *)
Module ConcreteUrl.
Definition split_opt (c : ascii) (s : string) : string * option string :=
  match split_once_char c s with Some (l, r) => (l, Some r) | None => (s, None) end.
Definition known_port (scheme : string) : option Z :=
  if String.eqb scheme "https" then Some 443 else if String.eqb scheme "http" then Some 80 else None.
Definition dotted (segment : string) : bool := String.eqb segment "." || String.eqb segment "..".

Definition parse (s : string) : option Url :=
  match split_once_str "://" s with
  | None => None
  | Some (scheme, rest) =>
      let '(authority, tail) := split_opt "/" rest in
      let '(tail, fragment) := split_opt "#" (default "" tail) in
      let '(path, query) := split_opt "?" tail in
      let '(host, port) := split_opt ":" authority in
      let number := match port with Some p => parse_unsigned u16_max p | None => None end in
      if is_empty scheme || is_empty host || negb (forallb plain_host_byte (as_bytes host))
         || (is_some port && is_none number) || existsb dotted (split_char "/" (String "/"%char path))
      then None
      else Some (mkUrl s scheme "" None (Some host) (Some host) false number
                   (match number with Some p => Some p | None => known_port scheme end) (String "/"%char path) query fragment)
  end.
Definition origins_agree (u v : Url) : bool :=
  String.eqb (scheme u) (scheme v) && bool_decide (host_str u = host_str v)
  && bool_decide (port_or_known_default u = port_or_known_default v).

#[export] Instance concrete_url : UrlLib := {| url_parse := parse; same_origin := origins_agree |}.

Lemma plain_free c s : plain_host_byte c = false -> forallb plain_host_byte (as_bytes s) = true -> char_free c s.
Proof.
  unfold char_free. intros Hc Hall Hin. rewrite forallb_forall in Hall.
  rewrite (Hall c) in Hc; [done|]. by apply list_elem_of_In.
Qed.
Lemma split_once_free c s : char_free c s -> split_once_char c s = None.
Proof.
  unfold char_free. induction s as [|a s IH]; simpl; [done|]. intros Hn.
  apply not_elem_of_cons in Hn as [Ha Hs]. destruct (Ascii.eqb_spec a c); [congruence|]. by rewrite IH.
Qed.

Lemma guard_some {A} (b : bool) (x y : A) : (if b then None else Some x) = Some y -> b = false /\ y = x.
Proof. destruct b; naive_solver. Qed.

#[export] Instance concrete_url_laws : UrlLaws.
Proof.
  split.
  - intros domain path u Hne Hplain. unfold url_parse, concrete_url, parse.
    change (split_once_str "://" ("spiffe://" +:+ domain +:+ "/" +:+ path))
      with (Some ("spiffe", domain +:+ "/" +:+ path)). cbv beta iota. unfold split_opt at 1.
    change ("/" +:+ path) with (String "/"%char path).
    rewrite split_once_char_app; [|by apply plain_free].
    destruct (split_opt "#" (default "" (Some path))) as [tail frag]. destruct (split_opt "?" tail) as [p q].
    unfold split_opt. rewrite split_once_free; [|by apply plain_free].
    repeat case_match; intros; simplify_eq/=; done.
  - intros s u segment. unfold url_parse, concrete_url, parse. intros Hp _ Hin.
    destruct (split_once_str "://" s) as [[sch rest]|]; [|done]. destruct (split_opt "/" rest) as [authority tail].
    destruct (split_opt "#" (default "" tail)) as [tail' frag]. destruct (split_opt "?" tail') as [p q].
    destruct (split_opt ":" authority) as [host port]. apply guard_some in Hp as [Hdots ->]. simpl in Hin.
    apply orb_false_iff in Hdots as [_ Hdots].
    assert (dotted segment = false) as Hs.
    { destruct (dotted segment) eqn:E; [|done]. exfalso. rewrite <- not_true_iff_false in Hdots. apply Hdots.
      apply existsb_exists. exists segment. split; [by apply list_elem_of_In|done]. }
    unfold dotted in Hs. breflect. by rewrite !String.eqb_neq in *.
  - intros u v _ _. unfold same_origin, concrete_url, origins_agree. intros. breflect. auto.
Qed.
End ConcreteUrl.
