(* ===== verification/CollaborationProtocol.v ===== *)
(** Model of [source/crates/filebelt-collaboration-protocol/src/lib.rs] (join grants)
    and of [source/apps/filebelt-collaboration/src/wire.rs] (frames and awareness).
    The messages are those of [protocol/generated/rust/filebelt/collaboration/v1], a
    field [f] of a message [M] is [M_f]; their codec and the decoder of cursor
    positions of the [yrs] crate are parameters. *)
From S2P Require Import Prelude Collections Libraries Keyset Frames Net Web Envelope.

Open Scope string_scope.
Open Scope Z_scope.
Open Scope list_scope.
Open Scope bool_scope.

Definition GRANT_SIGNATURE_DOMAIN : bytes := as_bytes "filebelt.collaboration.grant.v1" ++ [zero_byte].
Definition GRANT_DIGEST_DOMAIN : bytes := as_bytes "filebelt.collaboration.grant-digest.v1" ++ [zero_byte].
Definition NORMALIZED_MARKDOWN_SOURCE_DIGEST_DOMAIN : bytes := as_bytes "filebelt.markdown.normalized-source.v1" ++ [zero_byte].
Definition MAX_GRANT_LIFETIME_SECONDS : Z := 60.
Definition MAX_FRAME_BYTES : Z := 2 * 1024 * 1024 + 64 * 1024.

(** ** Messages *)

Inductive PresenceMode := PresenceMode_Unspecified | PresenceMode_Pseudonym | PresenceMode_DisplayName.
#[export] Instance PresenceMode_eq_dec : EqDecision PresenceMode.
Proof. solve_decision. Defined.
Definition PresenceMode_try_from (k : Z) : option PresenceMode :=
  match k with
  | 0 => Some PresenceMode_Unspecified | 1 => Some PresenceMode_Pseudonym | 2 => Some PresenceMode_DisplayName
  | _ => None
  end.

Record CollaborationGrantClaims := mkCollaborationGrantClaims {
  CollaborationGrantClaims_grant_id : string; CollaborationGrantClaims_tenant_id : string; CollaborationGrantClaims_room_id : string;
  CollaborationGrantClaims_room_epoch : Z; CollaborationGrantClaims_drive_id : string; CollaborationGrantClaims_node_id : string;
  CollaborationGrantClaims_base_version_id : string; CollaborationGrantClaims_principal_id : string;
  CollaborationGrantClaims_session_id : string;
  CollaborationGrantClaims_client_id : string; CollaborationGrantClaims_presence_mode : Z; CollaborationGrantClaims_presence_label : string;
  CollaborationGrantClaims_resource_acl_generation : Z; CollaborationGrantClaims_drive_acl_generation : Z;
  CollaborationGrantClaims_membership_generation : Z;
  CollaborationGrantClaims_namespace_generation : Z; CollaborationGrantClaims_can_checkpoint : bool;
  CollaborationGrantClaims_issued_at_unix_seconds : Z;
  CollaborationGrantClaims_expires_at_unix_seconds : Z; CollaborationGrantClaims_nonce : bytes;
  CollaborationGrantClaims_bootstrap_download_capability : string
}.
Record SignedCollaborationGrant := mkSignedCollaborationGrant { SignedCollaborationGrant_key_generation : Z;
  SignedCollaborationGrant_claims : bytes; SignedCollaborationGrant_signature : bytes }.
Record Authenticate := mkAuthenticate {
  Authenticate_grant : bytes; Authenticate_room_id : string; Authenticate_codec : Z;
  Authenticate_protocol_version : Z
}.
Record SyncRequest := mkSyncRequest { SyncRequest_known_sequence : Z; SyncRequest_state_vector : bytes }.
Record SyncChunk := mkSyncChunk {
  SyncChunk_sequence : Z; SyncChunk_chunk_index : Z; SyncChunk_chunk_count : Z;
  SyncChunk_update : bytes; SyncChunk_snapshot : bool
}.
Record UpdateChunk := mkUpdateChunk { UpdateChunk_chunk_index : Z; UpdateChunk_update : bytes }.
Record UpdateGroup := mkUpdateGroup {
  UpdateGroup_client_update_id : string; UpdateGroup_base_sequence : Z; UpdateGroup_chunks : list UpdateChunk;
  UpdateGroup_mcp_invocation_id : string
}.
Record Acknowledgement := mkAcknowledgement { Acknowledgement_client_update_id : string; Acknowledgement_durable_sequence : Z;
  Acknowledgement_manifest_id : string }.
Record Awareness := mkAwareness {
  Awareness_client_id : string; Awareness_display_label : string; Awareness_same_user_tabs : Z;
  Awareness_cursor_anchor : bytes; Awareness_cursor_head : bytes; Awareness_state : Z;
  Awareness_color_index : Z
}.
Record Checkpoint := mkCheckpoint {
  Checkpoint_checkpoint_id : string; Checkpoint_durable_sequence : Z; Checkpoint_state : Z;
  Checkpoint_version_id : string
}.
Record CheckpointRequest := mkCheckpointRequest { CheckpointRequest_expected_durable_sequence : Z }.
Record Freeze := mkFreeze { Freeze_reason : Z; Freeze_current_head_version_id : string; Freeze_room_epoch : Z }.
Record CollaborationError := mkCollaborationError { CollaborationError_code : Z; CollaborationError_message : string;
  CollaborationError_retry_after_millis : Z }.
Record Heartbeat := mkHeartbeat { Heartbeat_durable_sequence : Z; Heartbeat_sent_at_unix_millis : Z }.
Inductive Frame :=
| Frame_Authenticate (message : Authenticate)
| Frame_SyncRequest (message : SyncRequest)
| Frame_SyncChunk (message : SyncChunk)
| Frame_UpdateGroup (message : UpdateGroup)
| Frame_Acknowledgement (message : Acknowledgement)
| Frame_Awareness (message : Awareness)
| Frame_Checkpoint (message : Checkpoint)
| Frame_Freeze (message : Freeze)
| Frame_Error (message : CollaborationError)
| Frame_Heartbeat (message : Heartbeat)
| Frame_CheckpointRequest (message : CheckpointRequest).
Record CollaborationFrame := mkCollaborationFrame { CollaborationFrame_frame : option Frame }.

(** ** Join grants *)

Inductive GrantError :=
| GrantInvalidEncoding | GrantInvalidSignature | GrantUnknownKey | GrantInvalidClaims | GrantExpired | GrantLifetimeTooLong.

Definition grant_keyset_error (e : KeysetError) : GrantError :=
  match e with
  | KsUnknownKey => GrantUnknownKey
  | KsInvalidEncoding | KsInvalidSignature => GrantInvalidSignature
  end.

Definition grant_family : Family SignedCollaborationGrant GrantError := {|
  fam_prefix := "fbcollab1."; fam_domain := GRANT_SIGNATURE_DOMAIN; fam_signed := mkSignedCollaborationGrant;
  fam_generation := SignedCollaborationGrant_key_generation; fam_claims := SignedCollaborationGrant_claims;
  fam_signature := SignedCollaborationGrant_signature; fam_invalid_encoding := GrantInvalidEncoding;
  fam_invalid_claims := GrantInvalidClaims; fam_keyset_error := grant_keyset_error |}.

(** [matches!(PresenceMode::try_from(mode), Ok(Pseudonym | DisplayName))] *)
Definition presence_mode_specified (mode : Z) : bool :=
  match PresenceMode_try_from mode with
  | Some PresenceMode_Pseudonym | Some PresenceMode_DisplayName => true
  | _ => false
  end.

Definition grant_identifiers (c : CollaborationGrantClaims) : list string :=
  [CollaborationGrantClaims_grant_id c; CollaborationGrantClaims_tenant_id c; CollaborationGrantClaims_room_id c;
   CollaborationGrantClaims_drive_id c; CollaborationGrantClaims_node_id c; CollaborationGrantClaims_base_version_id c;
   CollaborationGrantClaims_principal_id c; CollaborationGrantClaims_session_id c; CollaborationGrantClaims_client_id c].

Section grants.
Context `{UuidLib, Base64Lib, Blake3Lib, Ed25519Lib}.
Context `{!ProstMessage CollaborationGrantClaims, !ProstMessage SignedCollaborationGrant}.

(** The subtraction of the two [i64] times is not checked: in a release build it
    wraps around. *)
Definition grant_validate_at (c : CollaborationGrantClaims) (now : Z) : result GrantError unit :=
  let? _ := try_each (fun value => result_map (fun _ => tt) (ok_or GrantInvalidClaims (uuid_parse_str value))) (grant_identifiers c) in
  if (CollaborationGrantClaims_room_epoch c =? 0) || (CollaborationGrantClaims_resource_acl_generation c =? 0)
     || (CollaborationGrantClaims_drive_acl_generation c =? 0) || (CollaborationGrantClaims_membership_generation c =? 0)
     || (CollaborationGrantClaims_namespace_generation c =? 0)
     || negb (presence_mode_specified (CollaborationGrantClaims_presence_mode c))
     || is_empty (CollaborationGrantClaims_presence_label c) || (120 <? str_len (CollaborationGrantClaims_presence_label c))
     || has_control (as_bytes (CollaborationGrantClaims_presence_label c))
     || (len (CollaborationGrantClaims_nonce c) <? 16) || (64 <? len (CollaborationGrantClaims_nonce c))
     || negb (str_starts_with "fbcap1." (CollaborationGrantClaims_bootstrap_download_capability c))
  then Err GrantInvalidClaims
  else
    let issued := CollaborationGrantClaims_issued_at_unix_seconds c in
    let expires := CollaborationGrantClaims_expires_at_unix_seconds c in
    if (expires <? issued) || (MAX_GRANT_LIFETIME_SECONDS <? wrapping_sub_i64 expires issued) then Err GrantLifetimeTooLong
    else if (now <? issued) || (expires <=? now) then Err GrantExpired
    else Ok tt.

Definition sign_collaboration_grant (c : CollaborationGrantClaims) (generation : Z) (key_pair : ed_keypair) : result GrantError string :=
  if generation =? 0 then Err GrantInvalidClaims else Ok (seal grant_family c generation key_pair).

Definition verify_collaboration_grant (wire : string) (keys : TypedKeyset ApiCollaborationGrant) (now : Z)
  : result GrantError (Authenticated CollaborationGrantClaims) :=
  let? verified := unseal grant_family wire keys in
  let? _ := grant_validate_at (at_claims verified) now in
  Ok verified.

Definition grant_digest (wire : string) : bytes := blake3_hash (GRANT_DIGEST_DOMAIN ++ as_bytes wire).
Definition normalized_markdown_source_digest (source : bytes) : bytes :=
  blake3_hash (NORMALIZED_MARKDOWN_SOURCE_DIGEST_DOMAIN ++ source).
End grants.

(** ** Frames *)

Inductive WireError := FrameTooLarge | FrameInvalid | FrameEmpty | InvalidAwareness.

Section wire.
Context `{UuidLib}.
Context `{!ProstMessage CollaborationFrame, !ProstMessage Awareness}.
(** [StickyIndex::decode_v1(bytes).is_ok()] *)
Variable sticky_index_ok : bytes -> bool.

Definition wire_decode_frame (bytes_ : bytes) : result WireError CollaborationFrame :=
  if MAX_FRAME_BYTES <? len bytes_ then Err FrameTooLarge
  else
    let? frame := ok_or FrameInvalid (decode_message bytes_) in
    match CollaborationFrame_frame frame with None => Err FrameEmpty | Some _ => Ok frame end.

Definition wire_encode_frame (frame : Frame) : result WireError bytes :=
  let bytes_ := encode_to_vec (mkCollaborationFrame (Some frame)) in
  if MAX_FRAME_BYTES <? len bytes_ then Err FrameTooLarge else Ok bytes_.

(** [encoded_len] is the length of the encoding; it fits a [u64]. *)
Definition validate_awareness (a : Awareness) (max_bytes : Z) : result WireError unit :=
  let encoded_size := len (encode_to_vec a) in
  if (max_bytes <? encoded_size) || is_none (uuid_parse_str (Awareness_client_id a))
     || is_empty (Awareness_display_label a) || (120 <? str_len (Awareness_display_label a))
     || has_control (as_bytes (Awareness_display_label a))
     || (Awareness_same_user_tabs a =? 0) || (32 <? Awareness_same_user_tabs a) || (31 <? Awareness_color_index a)
     || (256 <? len (Awareness_cursor_anchor a)) || (256 <? len (Awareness_cursor_head a))
     || xorb (len (Awareness_cursor_anchor a) =? 0) (len (Awareness_cursor_head a) =? 0)
     || (negb (len (Awareness_cursor_anchor a) =? 0)
         && (negb (sticky_index_ok (Awareness_cursor_anchor a)) || negb (sticky_index_ok (Awareness_cursor_head a))))
  then Err InvalidAwareness else Ok tt.
End wire.
