(* ===== verification/McpProtocol.v ===== *)
(** Model of [source/crates/filebelt-mcp-protocol/src/lib.rs]: signed delegations with
    their attachments, invocation frames and the messages of the runner relay.  The
    messages are those of [protocol/generated/rust/filebelt/mcp/v1], a field [f] of a
    message [M] is [M_f]; their codec is a parameter. *)
From S2P Require Import Prelude Collections Libraries Keyset Frames Net Web Envelope.

Open Scope string_scope.
Open Scope Z_scope.
Open Scope list_scope.
Open Scope bool_scope.

Definition DELEGATION_DOMAIN : bytes := as_bytes "filebelt.mcp.delegation.v1" ++ [zero_byte].
Definition MAX_DELEGATION_LIFETIME_SECONDS : Z := 120.
Definition MAX_FRAME_BYTES : Z := 4194304.
Definition RUNNER_RELAY_PROTOCOL_VERSION : string := "filebelt.mcp.runner.v1".
Definition MAX_RUNNER_RELAY_PAYLOAD_BYTES : Z := 65536.
Definition MAX_RUNNER_RELAY_MESSAGE_BYTES : Z := 69632.

(** ** Messages *)

Inductive McpOperation := McpOperation_Unspecified | McpOperation_Invoke | McpOperation_Discover | McpOperation_Test |
  McpOperation_RunnerBootstrap | McpOperation_OauthDiscover | McpOperation_OauthBegin | McpOperation_OauthComplete |
  McpOperation_CredentialReplace | McpOperation_CredentialErase | McpOperation_RegistrationConfigure.
#[export] Instance McpOperation_eq_dec : EqDecision McpOperation.
Proof. solve_decision. Defined.
Definition McpOperation_try_from (k : Z) : option McpOperation :=
  match k with
  | 0 => Some McpOperation_Unspecified | 1 => Some McpOperation_Invoke | 2 => Some McpOperation_Discover
  | 3 => Some McpOperation_Test | 4 => Some McpOperation_RunnerBootstrap | 5 => Some McpOperation_OauthDiscover
  | 6 => Some McpOperation_OauthBegin | 7 => Some McpOperation_OauthComplete | 8 => Some McpOperation_CredentialReplace
  | 9 => Some McpOperation_CredentialErase | 10 => Some McpOperation_RegistrationConfigure
  | _ => None
  end.

Inductive AttachmentDisclosure := AttachmentDisclosure_Unspecified | AttachmentDisclosure_Content | AttachmentDisclosure_Basename
  | AttachmentDisclosure_MediaType | AttachmentDisclosure_Size.
#[export] Instance AttachmentDisclosure_eq_dec : EqDecision AttachmentDisclosure.
Proof. solve_decision. Defined.
Definition AttachmentDisclosure_try_from (k : Z) : option AttachmentDisclosure :=
  match k with
  | 0 => Some AttachmentDisclosure_Unspecified | 1 => Some AttachmentDisclosure_Content | 2 => Some AttachmentDisclosure_Basename
  | 3 => Some AttachmentDisclosure_MediaType | 4 => Some AttachmentDisclosure_Size
  | _ => None
  end.

Inductive AttachmentEncoding := AttachmentEncoding_Unspecified | AttachmentEncoding_Utf8 | AttachmentEncoding_Base64 |
  AttachmentEncoding_Decimal.
#[export] Instance AttachmentEncoding_eq_dec : EqDecision AttachmentEncoding.
Proof. solve_decision. Defined.
Definition AttachmentEncoding_try_from (k : Z) : option AttachmentEncoding :=
  match k with
  | 0 => Some AttachmentEncoding_Unspecified | 1 => Some AttachmentEncoding_Utf8 | 2 => Some AttachmentEncoding_Base64
  | 3 => Some AttachmentEncoding_Decimal
  | _ => None
  end.

Inductive RunnerRelayFrameKind := RunnerRelayFrameKind_Unspecified | RunnerRelayFrameKind_Data | RunnerRelayFrameKind_Close |
  RunnerRelayFrameKind_Error.
#[export] Instance RunnerRelayFrameKind_eq_dec : EqDecision RunnerRelayFrameKind.
Proof. solve_decision. Defined.
Definition RunnerRelayFrameKind_try_from (k : Z) : option RunnerRelayFrameKind :=
  match k with
  | 0 => Some RunnerRelayFrameKind_Unspecified | 1 => Some RunnerRelayFrameKind_Data | 2 => Some RunnerRelayFrameKind_Close
  | 3 => Some RunnerRelayFrameKind_Error
  | _ => None
  end.

Record AttachmentFieldClaim := mkAttachmentFieldClaim { AttachmentFieldClaim_disclosure : Z;
  AttachmentFieldClaim_target_json_pointer : string; AttachmentFieldClaim_encoding : Z }.
Record AttachmentClaim := mkAttachmentClaim {
  AttachmentClaim_drive_id : string; AttachmentClaim_node_id : string; AttachmentClaim_version_id : string;
  AttachmentClaim_data_grant_id : string; AttachmentClaim_fields : list AttachmentFieldClaim; AttachmentClaim_maximum_raw_bytes : Z;
  AttachmentClaim_drive_acl_generation : Z; AttachmentClaim_resource_acl_generation : Z; AttachmentClaim_membership_generation : Z;
  AttachmentClaim_namespace_generation : Z; AttachmentClaim_download_path : string; AttachmentClaim_authorization : string;
  AttachmentClaim_basename : string; AttachmentClaim_media_type : string; AttachmentClaim_size_bytes : Z
}.
Record DelegationClaims := mkDelegationClaims {
  DelegationClaims_capability_id : string; DelegationClaims_audience : string; DelegationClaims_operation : Z;
  DelegationClaims_tenant_id : string; DelegationClaims_principal_id : string; DelegationClaims_session_id : string;
  DelegationClaims_application_id : string; DelegationClaims_registration_id : string; DelegationClaims_capability_fingerprint : bytes;
  DelegationClaims_arguments_digest : bytes; DelegationClaims_attachments : list AttachmentClaim; DelegationClaims_policy_generation : Z;
  DelegationClaims_membership_generation : Z; DelegationClaims_nonce : bytes; DelegationClaims_issued_at_unix_seconds : Z;
  DelegationClaims_expires_at_unix_seconds : Z; DelegationClaims_service_grant_id : string
}.
Record SignedDelegation := mkSignedDelegation { SignedDelegation_key_generation : Z; SignedDelegation_claims : bytes;
  SignedDelegation_signature : bytes }.
Record InvocationFrame := mkInvocationFrame {
  InvocationFrame_request_id : string; InvocationFrame_sequence : Z; InvocationFrame_kind : Z;
  InvocationFrame_payload : bytes; InvocationFrame_code : string; InvocationFrame_terminal : bool
}.
Record RunnerRelayHello := mkRunnerRelayHello { RunnerRelayHello_protocol_version : string; RunnerRelayHello_invocation_id :
  string; RunnerRelayHello_bootstrap_token : bytes }.
Record RunnerRelayFrame := mkRunnerRelayFrame {
  RunnerRelayFrame_invocation_id : string; RunnerRelayFrame_sequence : Z; RunnerRelayFrame_kind : Z;
  RunnerRelayFrame_payload : bytes; RunnerRelayFrame_code : string; RunnerRelayFrame_terminal : bool
}.

(** [operation as i32] *)
Definition McpOperation_i32 (o : McpOperation) : Z :=
  match o with
  | McpOperation_Unspecified => 0 | McpOperation_Invoke => 1 | McpOperation_Discover => 2 | McpOperation_Test => 3
  | McpOperation_RunnerBootstrap => 4 | McpOperation_OauthDiscover => 5 | McpOperation_OauthBegin => 6
  | McpOperation_OauthComplete => 7 | McpOperation_CredentialReplace => 8 | McpOperation_CredentialErase => 9
  | McpOperation_RegistrationConfigure => 10
  end.

Inductive ProtocolError :=
| McpInvalidEncoding | McpInvalidSignature | McpUnknownKey | McpInvalidClaims | McpWrongAudience | McpWrongOperation
| McpExpired | McpLifetimeTooLong | McpFrameTooLarge | InvalidRunnerRelay.

Definition mcp_keyset_error (e : KeysetError) : ProtocolError :=
  match e with
  | KsUnknownKey => McpUnknownKey
  | KsInvalidEncoding | KsInvalidSignature => McpInvalidSignature
  end.

Definition delegation_family : Family SignedDelegation ProtocolError := {|
  fam_prefix := "fbmcp1."; fam_domain := DELEGATION_DOMAIN; fam_signed := mkSignedDelegation;
  fam_generation := SignedDelegation_key_generation; fam_claims := SignedDelegation_claims;
  fam_signature := SignedDelegation_signature; fam_invalid_encoding := McpInvalidEncoding;
  fam_invalid_claims := McpInvalidClaims; fam_keyset_error := mcp_keyset_error |}.

(** ** Attachments *)

(** [bytes.iter().enumerate().any(..)]: a tilde that neither [0] nor [1] follows. *)
Fixpoint invalid_tilde (token : bytes) : bool :=
  match token with
  | [] => false
  | b :: rest =>
      (byte_is "~" b && is_none_or (head rest) (fun next => negb (byte_is "0" next || byte_is "1" next))) || invalid_tilde rest
  end.

Definition valid_json_pointer (value : string) : bool :=
  negb (is_empty value) && str_starts_with "/" value && (str_len value <=? 512)
  && negb (existsb (fun token => existsb (byte_is "~") (as_bytes token) && invalid_tilde (as_bytes token))
             (drop 1 (split_char "/" value))).

Definition AttachmentFieldClaim_validate (f : AttachmentFieldClaim) : result ProtocolError unit :=
  let? disclosure := ok_or McpInvalidClaims (AttachmentDisclosure_try_from (AttachmentFieldClaim_disclosure f)) in
  let? encoding := ok_or McpInvalidClaims (AttachmentEncoding_try_from (AttachmentFieldClaim_encoding f)) in
  if bool_decide (disclosure = AttachmentDisclosure_Unspecified) || bool_decide (encoding = AttachmentEncoding_Unspecified)
     || negb (valid_json_pointer (AttachmentFieldClaim_target_json_pointer f))
     || (bool_decide (disclosure = AttachmentDisclosure_Size) && negb (bool_decide (encoding = AttachmentEncoding_Decimal)))
     || (negb (bool_decide (disclosure = AttachmentDisclosure_Size)) && bool_decide (encoding = AttachmentEncoding_Decimal))
     || (bool_decide (disclosure = AttachmentDisclosure_Content)
         && negb (bool_decide (encoding = AttachmentEncoding_Utf8) || bool_decide (encoding = AttachmentEncoding_Base64)))
  then Err McpInvalidClaims else Ok tt.

Definition is_err {E A} (r : result E A) : bool := match r with Ok _ => false | Err _ => true end.

Section delegations.
Context `{UuidLib, Base64Lib, Ed25519Lib}.
Context `{!ProstMessage DelegationClaims, !ProstMessage SignedDelegation}.

Definition check_uuid (identifier : string) : result ProtocolError unit :=
  result_map (fun _ => tt) (ok_or McpInvalidClaims (uuid_parse_str identifier)).

(** [download_path[17..]] is only taken after the prefix of 17 bytes was found. *)
Definition AttachmentClaim_validate (c : AttachmentClaim) : result ProtocolError unit :=
  let? _ := try_each check_uuid [AttachmentClaim_drive_id c; AttachmentClaim_node_id c; AttachmentClaim_version_id c;
                                 AttachmentClaim_data_grant_id c] in
  if (len (AttachmentClaim_fields c) =? 0) || (4 <? len (AttachmentClaim_fields c))
     || existsb (fun field => is_err (AttachmentFieldClaim_validate field)) (AttachmentClaim_fields c)
     || (AttachmentClaim_maximum_raw_bytes c =? 0) || (16777216 <? AttachmentClaim_maximum_raw_bytes c)
     || (AttachmentClaim_maximum_raw_bytes c <? AttachmentClaim_size_bytes c)
     || (AttachmentClaim_drive_acl_generation c =? 0) || (AttachmentClaim_resource_acl_generation c =? 0)
     || (AttachmentClaim_membership_generation c =? 0) || (AttachmentClaim_namespace_generation c =? 0)
     || (128 <? str_len (AttachmentClaim_download_path c))
     || is_none_or (strip_prefix "/io/v1/downloads/" (AttachmentClaim_download_path c)) (fun id => is_none (uuid_parse_str id))
     || negb (str_starts_with "fbcap1." (AttachmentClaim_authorization c)) || (4096 <? str_len (AttachmentClaim_authorization c))
     || is_empty (AttachmentClaim_basename c) || (255 <? str_len (AttachmentClaim_basename c))
     || is_empty (AttachmentClaim_media_type c) || (255 <? str_len (AttachmentClaim_media_type c))
  then Err McpInvalidClaims else Ok tt.

(** ** Delegations *)

(** [matches!(McpOperation::try_from(operation), Ok(operation) if operation != Unspecified)] *)
Definition operation_specified (operation : Z) : bool :=
  is_some_and (McpOperation_try_from operation) (fun o => negb (bool_decide (o = McpOperation_Unspecified))).

Definition check_optional_uuid (identifier : string) : result ProtocolError unit :=
  if is_empty identifier then Ok tt else check_uuid identifier.

(** The subtraction of the two [i64] times is not checked: in a release build it
    wraps around. *)
Definition delegation_validate_at (c : DelegationClaims) (expected_audience : string) (now : Z) : result ProtocolError unit :=
  let? _ := try_each check_uuid [DelegationClaims_capability_id c; DelegationClaims_tenant_id c; DelegationClaims_principal_id c;
                                 DelegationClaims_registration_id c] in
  let? _ := check_optional_uuid (DelegationClaims_session_id c) in
  let? _ := check_optional_uuid (DelegationClaims_service_grant_id c) in
  if negb (String.eqb (DelegationClaims_audience c) expected_audience) then Err McpWrongAudience
  else if negb (operation_specified (DelegationClaims_operation c)) then Err McpWrongOperation
  else
    let issued := DelegationClaims_issued_at_unix_seconds c in
    let expires := DelegationClaims_expires_at_unix_seconds c in
    if (expires <? issued) || (MAX_DELEGATION_LIFETIME_SECONDS <? wrapping_sub_i64 expires issued) then Err McpLifetimeTooLong
    else if (now <? issued) || (expires <=? now) then Err McpExpired
    else if is_empty (DelegationClaims_application_id c) || (128 <? str_len (DelegationClaims_application_id c))
       || negb (len (DelegationClaims_capability_fingerprint c) =? 32) || negb (len (DelegationClaims_arguments_digest c) =? 32)
       || negb (range_contains 16 64 (len (DelegationClaims_nonce c)))
       || (DelegationClaims_policy_generation c =? 0) || (DelegationClaims_membership_generation c =? 0)
       || (4 <? len (DelegationClaims_attachments c))
       || existsb (fun claim => is_err (AttachmentClaim_validate claim)) (DelegationClaims_attachments c)
    then Err McpInvalidClaims else Ok tt.

Definition sign_mcp_delegation (c : DelegationClaims) (generation : Z) (key_pair : ed_keypair) : result ProtocolError string :=
  if (generation =? 0) || negb (operation_specified (DelegationClaims_operation c)) then Err McpInvalidClaims
  else Ok (seal delegation_family c generation key_pair).

Definition verify_mcp_delegation (wire : string) (keys : TypedKeyset ApiMcpDelegation) (expected_audience : string)
    (expected_operation : McpOperation) (now : Z) : result ProtocolError (Authenticated DelegationClaims) :=
  let? verified := unseal delegation_family wire keys in
  let? _ := delegation_validate_at (at_claims verified) expected_audience now in
  if negb (DelegationClaims_operation (at_claims verified) =? McpOperation_i32 expected_operation) then Err McpWrongOperation
  else Ok verified.
End delegations.

(** ** Invocation frames *)

(** crate [prost]: [encode_length_delimited_to_vec] and [decode_length_delimited],
    which returns the message and what follows it in the buffer. *)
Class ProstDelimited (M : Type) := {
  encode_delimited : M -> bytes;
  decode_delimited : bytes -> option (M * bytes);
  encoded_len : M -> Z
}.
Class ProstDelimitedLaws (M : Type) `{ProstDelimited M} (valid : M -> Prop) : Prop := {
  decode_delimited_app : forall m rest, valid m -> decode_delimited (encode_delimited m ++ rest) = Some (m, rest);
  (** the varint of the length precedes the message *)
  encoded_len_delimited : forall m, 0 <= encoded_len m < len (encode_delimited m)
}.

Section frames.
Context `{!ProstDelimited InvocationFrame}.

Definition mcp_encode_frame (frame : InvocationFrame) : result ProtocolError bytes :=
  let bytes_ := encode_delimited frame in
  if MAX_FRAME_BYTES <? len bytes_ then Err McpFrameTooLarge else Ok bytes_.

Definition mcp_decode_frame (bytes_ : bytes) : result ProtocolError InvocationFrame :=
  if MAX_FRAME_BYTES <? len bytes_ then Err McpFrameTooLarge
  else match decode_delimited bytes_ with Some (frame, _) => Ok frame | None => Err McpInvalidEncoding end.

(** The loop of [decode_frames]; [budget] is 128 less the number of frames decoded. *)
Fixpoint decode_frames_loop (budget : nat) (bytes_ : bytes) : result ProtocolError (list InvocationFrame) :=
  match bytes_ with
  | [] => Ok []
  | _ =>
      match budget with
      | O => Err McpInvalidEncoding
      | S budget =>
          match decode_delimited bytes_ with
          | None => Err McpInvalidEncoding
          | Some (frame, rest) =>
              if (len bytes_ =? len rest) || (MAX_FRAME_BYTES <? encoded_len frame) then Err McpFrameTooLarge
              else let? frames := decode_frames_loop budget rest in Ok (frame :: frames)
          end
      end
  end.
Definition decode_frames (bytes_ : bytes) : result ProtocolError (list InvocationFrame) :=
  if Z.min usize_max (MAX_FRAME_BYTES * 4) <? len bytes_ then Err McpFrameTooLarge else decode_frames_loop 128 bytes_.
End frames.

(** ** Runner relay *)

Section runner.
Context `{UuidLib}.
Context `{!ProstMessage RunnerRelayHello, !ProstMessage RunnerRelayFrame}.

Definition encode_runner_message {M} `{ProstMessage M} (message : M) : result ProtocolError bytes :=
  if MAX_RUNNER_RELAY_MESSAGE_BYTES <? len (encode_to_vec message) then Err McpFrameTooLarge else Ok (encode_to_vec message).
Definition decode_runner_message {M} `{ProstMessage M} (bytes_ : bytes) : result ProtocolError M :=
  if (len bytes_ =? 0) || (MAX_RUNNER_RELAY_MESSAGE_BYTES <? len bytes_) then Err McpFrameTooLarge
  else ok_or McpInvalidEncoding (decode_message bytes_).

Definition validate_runner_hello (hello : RunnerRelayHello) : result ProtocolError unit :=
  if negb (String.eqb (RunnerRelayHello_protocol_version hello) RUNNER_RELAY_PROTOCOL_VERSION)
     || is_none (uuid_parse_str (RunnerRelayHello_invocation_id hello))
     || negb (range_contains 32 4096 (len (RunnerRelayHello_bootstrap_token hello)))
  then Err InvalidRunnerRelay else Ok tt.

Definition code_byte (b : byte) : bool := is_ascii_lowercase b || is_ascii_digit b || byte_is "." b.

Definition runner_frame_shape (kind : RunnerRelayFrameKind) (frame : RunnerRelayFrame) : bool :=
  match kind with
  | RunnerRelayFrameKind_Data =>
      negb (len (RunnerRelayFrame_payload frame) =? 0) && (len (RunnerRelayFrame_payload frame) <=? MAX_RUNNER_RELAY_PAYLOAD_BYTES)
      && is_empty (RunnerRelayFrame_code frame) && negb (RunnerRelayFrame_terminal frame)
  | RunnerRelayFrameKind_Close =>
      (len (RunnerRelayFrame_payload frame) =? 0) && is_empty (RunnerRelayFrame_code frame) && RunnerRelayFrame_terminal frame
  | RunnerRelayFrameKind_Error =>
      (len (RunnerRelayFrame_payload frame) =? 0) && negb (is_empty (RunnerRelayFrame_code frame))
      && (str_len (RunnerRelayFrame_code frame) <=? 128) && forallb code_byte (as_bytes (RunnerRelayFrame_code frame))
      && RunnerRelayFrame_terminal frame
  | RunnerRelayFrameKind_Unspecified => false
  end.

Definition validate_runner_relay_frame (frame : RunnerRelayFrame) : result ProtocolError unit :=
  if is_none (uuid_parse_str (RunnerRelayFrame_invocation_id frame)) || (RunnerRelayFrame_sequence frame =? 0) then Err InvalidRunnerRelay
  else
    let? kind := ok_or InvalidRunnerRelay (RunnerRelayFrameKind_try_from (RunnerRelayFrame_kind frame)) in
    if negb (runner_frame_shape kind frame) then Err InvalidRunnerRelay else Ok tt.

Definition encode_runner_hello (hello : RunnerRelayHello) : result ProtocolError bytes :=
  let? _ := validate_runner_hello hello in encode_runner_message hello.
Definition decode_runner_hello (bytes_ : bytes) : result ProtocolError RunnerRelayHello :=
  let? hello := decode_runner_message bytes_ in
  let? _ := validate_runner_hello hello in Ok hello.
Definition encode_runner_relay_frame (frame : RunnerRelayFrame) : result ProtocolError bytes :=
  let? _ := validate_runner_relay_frame frame in encode_runner_message frame.
Definition decode_runner_relay_frame (bytes_ : bytes) : result ProtocolError RunnerRelayFrame :=
  let? frame := decode_runner_message bytes_ in
  let? _ := validate_runner_relay_frame frame in Ok frame.
End runner.
