(* ===== verification/ConfigTypes.v ===== *)
(** The configuration types of [source/crates/filebelt-control-protocol/src/lib.rs]
    with their defaults.  The field [f] of a structure [S] is [S_f]; the default of
    [S] is [S_default].  A default that the TOML decoder takes for an absent field
    is the function [default_*] the attribute of the field names. *)
From S2P Require Import Prelude Collections Libraries Frames Net Web.

Open Scope string_scope.
Open Scope Z_scope.
Open Scope list_scope.
Open Scope bool_scope.

Definition CONFIG_VERSION : Z := 9.
Definition SMB_GATEWAY_URI_SAN : string := "spiffe://filebelt/smb-gateway/vfs".
Definition FTP_FTPS_GATEWAY_URI_SAN : string := "spiffe://filebelt/ftp-ftps-gateway/vfs".
Definition NFS_GATEWAY_URI_SAN : string := "spiffe://filebelt/nfs-gateway/vfs".

Inductive DeploymentMode := Development | Kubernetes.
#[export] Instance DeploymentMode_eq_dec : EqDecision DeploymentMode.
Proof. solve_decision. Defined.
Inductive LogFormat := Json | Text.
#[export] Instance LogFormat_eq_dec : EqDecision LogFormat.
Proof. solve_decision. Defined.
Inductive McpGatewayKind := Public | PrivateTunnel.
#[export] Instance McpGatewayKind_eq_dec : EqDecision McpGatewayKind.
Proof. solve_decision. Defined.

Record DeploymentConfig := mkDeploymentConfig {
  DeploymentConfig_mode : DeploymentMode
}.
Record ExternalSubject := mkExternalSubject {
  ExternalSubject_issuer : Url;
  ExternalSubject_subject : string
}.
Record TenantConfig := mkTenantConfig {
  TenantConfig_slug : string;
  TenantConfig_administrator : list ExternalSubject
}.
Record DatabaseConfig := mkDatabaseConfig {
  DatabaseConfig_url_file : string;
  DatabaseConfig_max_connections : Z
}.
Record OidcConfig := mkOidcConfig {
  OidcConfig_issuer : Url;
  OidcConfig_client_id : string;
  OidcConfig_client_secret_file : string;
  OidcConfig_callback_path : string;
  OidcConfig_required_acr : option string;
  OidcConfig_custom_ca_file : option string;
  OidcConfig_egress_proxy_url : option Url;
  OidcConfig_development_allow_insecure : bool
}.
Record StorageConfig := mkStorageConfig {
  StorageConfig_root : string;
  StorageConfig_backend_id : N
}.
Record SigningKeyConfig := mkSigningKeyConfig {
  SigningKeyConfig_private_key_file : string;
  SigningKeyConfig_public_keyset_file : string;
  SigningKeyConfig_current_generation : Z
}.
Record KeyConfig := mkKeyConfig {
  KeyConfig_digest_key_file : string;
  KeyConfig_digest_key_generation : Z;
  KeyConfig_api_storage : SigningKeyConfig;
  KeyConfig_api_collaboration_grant : option SigningKeyConfig;
  KeyConfig_api_mcp_delegation : option SigningKeyConfig
}.
Record BackendServerTlsConfig := mkBackendServerTlsConfig {
  BackendServerTlsConfig_certificate_chain_file : string;
  BackendServerTlsConfig_private_key_file : string;
  BackendServerTlsConfig_client_ca_file : string;
  BackendServerTlsConfig_allowed_client_uri_sans : list string;
  BackendServerTlsConfig_allowed_client_trust_domains : list string
}.
Record BackendTlsConfig := mkBackendTlsConfig {
  BackendTlsConfig_api : BackendServerTlsConfig;
  BackendTlsConfig_io : BackendServerTlsConfig;
  BackendTlsConfig_mcp_broker : option BackendServerTlsConfig;
  BackendTlsConfig_controller : option BackendServerTlsConfig;
  BackendTlsConfig_collaboration : option BackendServerTlsConfig;
  BackendTlsConfig_document : option BackendServerTlsConfig;
  BackendTlsConfig_document_adapter : option BackendServerTlsConfig;
  BackendTlsConfig_revision : option BackendServerTlsConfig;
  BackendTlsConfig_vfs : option BackendServerTlsConfig;
  BackendTlsConfig_vfs_management : option BackendServerTlsConfig
}.
Record TelemetryConfig := mkTelemetryConfig {
  TelemetryConfig_log_format : LogFormat;
  TelemetryConfig_prometheus_enabled : bool;
  TelemetryConfig_otlp_http_endpoint : option Url;
  TelemetryConfig_otlp_custom_ca_file : option string;
  TelemetryConfig_otlp_header_files : btmap string string;
  TelemetryConfig_trace_sample_ratio : option f64
}.
Record ListenerConfig := mkListenerConfig {
  ListenerConfig_api : SocketAddr;
  ListenerConfig_io : SocketAddr;
  ListenerConfig_operations : SocketAddr;
  ListenerConfig_mcp_broker : SocketAddr;
  ListenerConfig_mcp_runner_relay : SocketAddr;
  ListenerConfig_controller : SocketAddr;
  ListenerConfig_collaboration_ws : SocketAddr;
  ListenerConfig_collaboration_webtransport : SocketAddr;
  ListenerConfig_vfs : SocketAddr;
  ListenerConfig_vfs_management : SocketAddr;
  ListenerConfig_document : SocketAddr;
  ListenerConfig_document_adapter : SocketAddr;
  ListenerConfig_revision : SocketAddr;
  ListenerConfig_allow_container_wildcard : bool
}.
Record LimitConfig := mkLimitConfig {
  LimitConfig_whole_threshold_bytes : Z;
  LimitConfig_chunk_size_bytes : Z;
  LimitConfig_max_parts : Z;
  LimitConfig_max_file_bytes : Z;
  LimitConfig_upload_ttl_seconds : Z;
  LimitConfig_generation_recheck_seconds : Z;
  LimitConfig_orphan_grace_seconds : Z;
  LimitConfig_expired_part_grace_seconds : Z;
  LimitConfig_private_drive_quota_bytes : Z;
  LimitConfig_shared_drive_quota_bytes : Z
}.
Record IggyConfig := mkIggyConfig {
  IggyConfig_endpoint : string;
  IggyConfig_stream : string;
  IggyConfig_partitions : Z
}.
Record McpBrokerClientConfig := mkMcpBrokerClientConfig {
  McpBrokerClientConfig_url : option Url;
  McpBrokerClientConfig_client_certificate_chain_file : option string;
  McpBrokerClientConfig_client_private_key_file : option string;
  McpBrokerClientConfig_server_ca_file : option string
}.
Record McpVaultConfig := mkMcpVaultConfig {
  McpVaultConfig_keyring_file : option string;
  McpVaultConfig_current_generation : Z
}.
Record McpEgressConfig := mkMcpEgressConfig {
  McpEgressConfig_kind : McpGatewayKind;
  McpEgressConfig_gateway_url : option Url;
  McpEgressConfig_client_certificate_chain_file : option string;
  McpEgressConfig_client_private_key_file : option string;
  McpEgressConfig_server_ca_file : option string
}.
Record McpAttachmentConfig := mkMcpAttachmentConfig {
  McpAttachmentConfig_io_url : option Url;
  McpAttachmentConfig_client_certificate_chain_file : option string;
  McpAttachmentConfig_client_private_key_file : option string;
  McpAttachmentConfig_server_ca_file : option string
}.
Record McpTrustProfile := mkMcpTrustProfile {
  McpTrustProfile_gateway : option string;
  McpTrustProfile_public_webpki : bool;
  McpTrustProfile_hosts : list string;
  McpTrustProfile_cidrs : list string;
  McpTrustProfile_ports : list Z;
  McpTrustProfile_custom_ca_file : option string;
  McpTrustProfile_allow_dynamic_client_registration : bool
}.
Record McpOauthClient := mkMcpOauthClient {
  McpOauthClient_issuer : Url;
  McpOauthClient_client_id : string;
  McpOauthClient_client_secret_file : option string
}.
Record McpLimitConfig := mkMcpLimitConfig {
  McpLimitConfig_connect_timeout_seconds : Z;
  McpLimitConfig_discovery_timeout_seconds : Z;
  McpLimitConfig_progress_idle_timeout_seconds : Z;
  McpLimitConfig_operation_timeout_seconds : Z;
  McpLimitConfig_absolute_timeout_seconds : Z;
  McpLimitConfig_message_bytes : Z;
  McpLimitConfig_result_bytes : Z;
  McpLimitConfig_attachment_bytes : Z;
  McpLimitConfig_attachment_hard_bytes : Z;
  McpLimitConfig_encoded_wire_bytes : Z;
  McpLimitConfig_principal_concurrency : Z;
  McpLimitConfig_registration_concurrency : Z;
  McpLimitConfig_replica_concurrency : Z;
  McpLimitConfig_queue_depth : Z
}.
Record McpRunnerConfig := mkMcpRunnerConfig {
  McpRunnerConfig_enabled : bool;
  McpRunnerConfig_namespace : string;
  McpRunnerConfig_catalog_file : option string;
  McpRunnerConfig_trusted_root_file : option string;
  McpRunnerConfig_bundle_directory : option string;
  McpRunnerConfig_runner_image : option string;
  McpRunnerConfig_controller_url : option Url;
  McpRunnerConfig_controller_client_certificate_chain_file : option string;
  McpRunnerConfig_controller_client_private_key_file : option string;
  McpRunnerConfig_controller_server_ca_file : option string;
  McpRunnerConfig_max_per_principal : Z;
  McpRunnerConfig_max_per_tenant : Z
}.
Record McpConfig := mkMcpConfig {
  McpConfig_enabled : bool;
  McpConfig_database_url_file : option string;
  McpConfig_callback_path : string;
  McpConfig_broker : McpBrokerClientConfig;
  McpConfig_vault : McpVaultConfig;
  McpConfig_egress : McpEgressConfig;
  McpConfig_gateways : btmap string McpEgressConfig;
  McpConfig_attachments : McpAttachmentConfig;
  McpConfig_trust_profiles : btmap string McpTrustProfile;
  McpConfig_oauth_clients : btmap string McpOauthClient;
  McpConfig_service_trust_domains : list string;
  McpConfig_limits : McpLimitConfig;
  McpConfig_runners : McpRunnerConfig
}.
Record CollaborationLimitConfig := mkCollaborationLimitConfig {
  CollaborationLimitConfig_max_participants : Z;
  CollaborationLimitConfig_max_update_bytes : Z;
  CollaborationLimitConfig_max_operation_group_bytes : Z;
  CollaborationLimitConfig_client_updates_per_second : Z;
  CollaborationLimitConfig_client_bytes_per_second : Z;
  CollaborationLimitConfig_room_updates_per_second : Z;
  CollaborationLimitConfig_room_bytes_per_second : Z;
  CollaborationLimitConfig_max_awareness_bytes : Z;
  CollaborationLimitConfig_client_awareness_per_second : Z;
  CollaborationLimitConfig_room_awareness_per_second : Z;
  CollaborationLimitConfig_max_state_bytes : Z;
  CollaborationLimitConfig_max_retained_room_bytes : Z;
  CollaborationLimitConfig_generation_recheck_seconds : Z;
  CollaborationLimitConfig_dirty_retention_seconds : Z;
  CollaborationLimitConfig_expiry_warning_seconds : Z
}.
Record CollaborationConfig := mkCollaborationConfig {
  CollaborationConfig_enabled : bool;
  CollaborationConfig_database_url_file : option string;
  CollaborationConfig_capability_signing : option SigningKeyConfig;
  CollaborationConfig_io_url : option Url;
  CollaborationConfig_client_certificate_chain_file : option string;
  CollaborationConfig_client_private_key_file : option string;
  CollaborationConfig_server_ca_file : option string;
  CollaborationConfig_webtransport_enabled : bool;
  CollaborationConfig_webtransport_endpoint : option Url;
  CollaborationConfig_webtransport_idle_seconds : Z;
  CollaborationConfig_webtransport_drain_seconds : Z;
  CollaborationConfig_limits : CollaborationLimitConfig
}.
Record DocumentConfig := mkDocumentConfig {
  DocumentConfig_enabled : bool;
  DocumentConfig_provider_id : string;
  DocumentConfig_database_url_file : option string;
  DocumentConfig_url : option Url;
  DocumentConfig_launch_action : option Url;
  DocumentConfig_provider_origin : option Url;
  DocumentConfig_client_certificate_chain_file : option string;
  DocumentConfig_client_private_key_file : option string;
  DocumentConfig_server_ca_file : option string;
  DocumentConfig_capability_signing : option SigningKeyConfig;
  DocumentConfig_max_active_tabs : Z;
  DocumentConfig_max_document_bytes : Z;
  DocumentConfig_generation_recheck_seconds : Z
}.
Record RevisionLimitConfig := mkRevisionLimitConfig {
  RevisionLimitConfig_global_comparisons : Z;
  RevisionLimitConfig_per_user_comparisons : Z
}.
Record RevisionConfig := mkRevisionConfig {
  RevisionConfig_enabled : bool;
  RevisionConfig_database_url_file : option string;
  RevisionConfig_url : option Url;
  RevisionConfig_adapter_url : option Url;
  RevisionConfig_io_url : option Url;
  RevisionConfig_client_certificate_chain_file : option string;
  RevisionConfig_client_private_key_file : option string;
  RevisionConfig_server_ca_file : option string;
  RevisionConfig_adapter_client_certificate_chain_file : option string;
  RevisionConfig_adapter_client_private_key_file : option string;
  RevisionConfig_adapter_server_ca_file : option string;
  RevisionConfig_io_client_certificate_chain_file : option string;
  RevisionConfig_io_client_private_key_file : option string;
  RevisionConfig_io_server_ca_file : option string;
  RevisionConfig_capability_signing : option SigningKeyConfig;
  RevisionConfig_chunk_size_bytes : Z;
  RevisionConfig_max_text_bytes : Z;
  RevisionConfig_git_object_format : string;
  RevisionConfig_limits : RevisionLimitConfig
}.
Record MediaConfig := mkMediaConfig {
  MediaConfig_enabled : bool;
  MediaConfig_database_url_file : option string;
  MediaConfig_capability_signing : SigningKeyConfig;
  MediaConfig_job_namespace : option string;
  MediaConfig_transcoder_image : option string;
  MediaConfig_cache_claim : option string;
  MediaConfig_generation_recheck_seconds : Z;
  MediaConfig_cache_quota_percent : Z;
  MediaConfig_cache_high_watermark_percent : Z;
  MediaConfig_cache_low_watermark_percent : Z;
  MediaConfig_experimental_vaapi : bool
}.
Record HeadscaleSyncConfig := mkHeadscaleSyncConfig {
  HeadscaleSyncConfig_enabled : bool;
  HeadscaleSyncConfig_api_url : option Url;
  HeadscaleSyncConfig_api_token_file : option string;
  HeadscaleSyncConfig_server_ca_file : option string;
  HeadscaleSyncConfig_oidc_issuer : option Url;
  HeadscaleSyncConfig_sync_seconds : Z
}.
Record SmbMountConfig := mkSmbMountConfig {
  SmbMountConfig_enabled : bool;
  SmbMountConfig_gateway_uri_san : string;
  SmbMountConfig_previous_gateway_uri_san : option string
}.
Record FtpFtpsMountConfig := mkFtpFtpsMountConfig {
  FtpFtpsMountConfig_enabled : bool;
  FtpFtpsMountConfig_gateway_uri_san : string;
  FtpFtpsMountConfig_previous_gateway_uri_san : option string
}.
Record NfsMountConfig := mkNfsMountConfig {
  NfsMountConfig_enabled : bool;
  NfsMountConfig_gateway_uri_san : string;
  NfsMountConfig_previous_gateway_uri_san : option string;
  NfsMountConfig_realm : option string;
  NfsMountConfig_idmap_domain : option string;
  NfsMountConfig_handle_keyring_file : option string;
  NfsMountConfig_handle_key_generation : Z;
  NfsMountConfig_grace_seconds : Z
}.
Record MountConfig := mkMountConfig {
  MountConfig_database_url_file : option string;
  MountConfig_vault_keyring_file : option string;
  MountConfig_vault_key_generation : Z;
  MountConfig_capability_signing : option SigningKeyConfig;
  MountConfig_io_url : option Url;
  MountConfig_io_client_certificate_chain_file : option string;
  MountConfig_io_client_private_key_file : option string;
  MountConfig_io_server_ca_file : option string;
  MountConfig_management_url : option Url;
  MountConfig_management_client_certificate_chain_file : option string;
  MountConfig_management_client_private_key_file : option string;
  MountConfig_management_server_ca_file : option string;
  MountConfig_headscale : HeadscaleSyncConfig;
  MountConfig_smb : SmbMountConfig;
  MountConfig_ftp_ftps : FtpFtpsMountConfig;
  MountConfig_nfs : NfsMountConfig
}.
Record Config := mkConfig {
  Config_version : Z;
  Config_deployment : DeploymentConfig;
  Config_public_origin : Url;
  Config_tenant : TenantConfig;
  Config_database : DatabaseConfig;
  Config_oidc : OidcConfig;
  Config_storage : StorageConfig;
  Config_keys : KeyConfig;
  Config_backend_tls : option BackendTlsConfig;
  Config_telemetry : TelemetryConfig;
  Config_listeners : ListenerConfig;
  Config_limits : LimitConfig;
  Config_iggy : option IggyConfig;
  Config_mcp : McpConfig;
  Config_collaboration : CollaborationConfig;
  Config_documents : DocumentConfig;
  Config_revisions : RevisionConfig;
  Config_media : MediaConfig;
  Config_mounts : MountConfig
}.

(** ** Defaults *)

Definition default_database_connections : Z := 16.
Definition default_callback_path : string := "/api/v1/auth/callback".
Definition default_log_format : LogFormat := Text.
Definition default_key_generation : Z := 1.
Definition default_api_listener : SocketAddr := socket_v4 [127; 0; 0; 1] 8080.
Definition default_io_listener : SocketAddr := socket_v4 [127; 0; 0; 1] 8081.
Definition default_operations_listener : SocketAddr := socket_v4 [127; 0; 0; 1] 9090.
Definition default_mcp_broker_listener : SocketAddr := socket_v4 [127; 0; 0; 1] 8082.
Definition default_mcp_runner_relay_listener : SocketAddr := socket_v4 [127; 0; 0; 1] 8084.
Definition default_controller_listener : SocketAddr := socket_v4 [127; 0; 0; 1] 8083.
Definition default_collaboration_ws_listener : SocketAddr := socket_v4 [127; 0; 0; 1] 8085.
Definition default_collaboration_webtransport_listener : SocketAddr := socket_v4 [127; 0; 0; 1] 8086.
Definition default_vfs_listener : SocketAddr := socket_v4 [127; 0; 0; 1] 8087.
Definition default_vfs_management_listener : SocketAddr := socket_v4 [127; 0; 0; 1] 8088.
Definition default_document_listener : SocketAddr := socket_v4 [127; 0; 0; 1] 8089.
Definition default_document_adapter_listener : SocketAddr := socket_v4 [127; 0; 0; 1] 8090.
Definition default_revision_listener : SocketAddr := socket_v4 [127; 0; 0; 1] 8091.
Definition default_revision_chunk_bytes : Z := 16777216.
Definition default_revision_text_bytes : Z := 104857600.
Definition default_revision_object_format : string := "sha256".
Definition default_revision_global_comparisons : Z := 2.
Definition default_revision_user_comparisons : Z := 1.
Definition default_headscale_sync_seconds : Z := 15.
Definition default_collaboration_participants : Z := 32.
Definition default_document_provider_id : string := "onlyoffice-community-9-4".
Definition default_document_max_active_tabs : Z := 20.
Definition default_document_max_bytes : Z := 104857600.
Definition default_document_generation_recheck_seconds : Z := 60.
Definition default_media_capability_signing : SigningKeyConfig := mkSigningKeyConfig "/run/secrets/media-storage-capability-
    private-key" "/run/secrets/media-storage-capability-public-keyset" 1.
Definition default_media_generation_recheck_seconds : Z := 60.
Definition default_media_cache_quota_percent : Z := 10.
Definition default_media_cache_high_watermark_percent : Z := 80.
Definition default_media_cache_low_watermark_percent : Z := 70.
Definition default_smb_gateway_uri_san : string := SMB_GATEWAY_URI_SAN.
Definition default_ftp_ftps_gateway_uri_san : string := FTP_FTPS_GATEWAY_URI_SAN.
Definition default_nfs_gateway_uri_san : string := NFS_GATEWAY_URI_SAN.
Definition default_nfs_grace_seconds : Z := 90.
Definition default_webtransport_idle_seconds : Z := 75.
Definition default_webtransport_drain_seconds : Z := 300.
Definition default_collaboration_update_bytes : Z := 262144.
Definition default_collaboration_group_bytes : Z := 2097152.
Definition default_collaboration_client_updates : Z := 50.
Definition default_collaboration_client_bytes : Z := 2097152.
Definition default_collaboration_room_updates : Z := 500.
Definition default_collaboration_room_bytes : Z := 16777216.
Definition default_collaboration_awareness_bytes : Z := 8192.
Definition default_collaboration_client_awareness : Z := 10.
Definition default_collaboration_room_awareness : Z := 100.
Definition default_collaboration_state_bytes : Z := 67108864.
Definition default_collaboration_retained_bytes : Z := 268435456.
Definition default_collaboration_recheck_seconds : Z := 60.
Definition default_collaboration_dirty_retention_seconds : Z := 2592000.
Definition default_collaboration_warning_seconds : Z := 1987200.
Definition default_mcp_callback_path : string := "/api/v1/mcp/oauth/callback".
Definition default_https_ports : list Z := [443].
Definition default_mcp_connect_timeout : Z := 5.
Definition default_mcp_discovery_timeout : Z := 15.
Definition default_mcp_progress_idle_timeout : Z := 15.
Definition default_mcp_operation_timeout : Z := 60.
Definition default_mcp_absolute_timeout : Z := 120.
Definition default_mcp_message_bytes : Z := 1048576.
Definition default_mcp_result_bytes : Z := 4194304.
Definition default_mcp_attachment_bytes : Z := 4194304.
Definition default_mcp_attachment_hard_bytes : Z := 16777216.
Definition default_mcp_encoded_wire_bytes : Z := 25165824.
Definition default_mcp_principal_concurrency : Z := 4.
Definition default_mcp_registration_concurrency : Z := 2.
Definition default_mcp_replica_concurrency : Z := 64.
Definition default_mcp_queue_depth : Z := 16.
Definition default_mcp_runner_namespace : string := "filebelt-mcp-runners".
Definition default_mcp_runner_per_principal : Z := 1.
Definition default_mcp_runner_per_tenant : Z := 8.
Definition default_whole_threshold : Z := 33554432.
Definition default_chunk_size : Z := 16777216.
Definition default_max_parts : Z := 65536.
Definition default_max_file : Z := 1099511627776.
Definition default_upload_ttl : Z := 604800.
Definition default_generation_recheck : Z := 60.
Definition default_orphan_grace : Z := 86400.
Definition default_expired_part_grace : Z := 86400.
Definition default_private_quota : Z := 1099511627776.
Definition default_shared_quota : Z := 10995116277760.
Definition default_iggy_stream : string := "filebelt".
Definition default_iggy_partitions : Z := 16.
Definition TelemetryConfig_default : TelemetryConfig :=
  mkTelemetryConfig Text false None None [] None.
Definition ListenerConfig_default : ListenerConfig :=
  mkListenerConfig default_api_listener default_io_listener default_operations_listener default_mcp_broker_listener
    default_mcp_runner_relay_listener default_controller_listener default_collaboration_ws_listener
    default_collaboration_webtransport_listener default_vfs_listener default_vfs_management_listener default_document_listener
    default_document_adapter_listener default_revision_listener false.
Definition LimitConfig_default : LimitConfig :=
  mkLimitConfig default_whole_threshold default_chunk_size default_max_parts default_max_file default_upload_ttl
    default_generation_recheck default_orphan_grace default_expired_part_grace default_private_quota default_shared_quota.
Definition McpBrokerClientConfig_default : McpBrokerClientConfig := mkMcpBrokerClientConfig None None None None.
Definition McpVaultConfig_default : McpVaultConfig :=
  mkMcpVaultConfig None default_key_generation.
Definition McpEgressConfig_default : McpEgressConfig := mkMcpEgressConfig Public None None None None.
Definition McpAttachmentConfig_default : McpAttachmentConfig := mkMcpAttachmentConfig None None None None.
Definition McpLimitConfig_default : McpLimitConfig :=
  mkMcpLimitConfig default_mcp_connect_timeout default_mcp_discovery_timeout default_mcp_progress_idle_timeout
    default_mcp_operation_timeout default_mcp_absolute_timeout default_mcp_message_bytes default_mcp_result_bytes
    default_mcp_attachment_bytes default_mcp_attachment_hard_bytes default_mcp_encoded_wire_bytes
    default_mcp_principal_concurrency default_mcp_registration_concurrency default_mcp_replica_concurrency
    default_mcp_queue_depth.
Definition McpRunnerConfig_default : McpRunnerConfig :=
  mkMcpRunnerConfig false default_mcp_runner_namespace None None None None None None None None default_mcp_runner_per_principal
    default_mcp_runner_per_tenant.
Definition McpConfig_default : McpConfig :=
  mkMcpConfig false None default_mcp_callback_path McpBrokerClientConfig_default McpVaultConfig_default McpEgressConfig_default []
    McpAttachmentConfig_default [] [] [] McpLimitConfig_default McpRunnerConfig_default.
Definition CollaborationLimitConfig_default : CollaborationLimitConfig :=
  mkCollaborationLimitConfig default_collaboration_participants default_collaboration_update_bytes
    default_collaboration_group_bytes default_collaboration_client_updates default_collaboration_client_bytes
    default_collaboration_room_updates default_collaboration_room_bytes default_collaboration_awareness_bytes
    default_collaboration_client_awareness default_collaboration_room_awareness default_collaboration_state_bytes
    default_collaboration_retained_bytes default_collaboration_recheck_seconds default_collaboration_dirty_retention_seconds
    default_collaboration_warning_seconds.
Definition CollaborationConfig_default : CollaborationConfig :=
  mkCollaborationConfig false None None None None None None false None default_webtransport_idle_seconds
    default_webtransport_drain_seconds CollaborationLimitConfig_default.
Definition DocumentConfig_default : DocumentConfig :=
  mkDocumentConfig false default_document_provider_id None None None None None None None None default_document_max_active_tabs
    default_document_max_bytes default_document_generation_recheck_seconds.
Definition RevisionLimitConfig_default : RevisionLimitConfig :=
  mkRevisionLimitConfig default_revision_global_comparisons default_revision_user_comparisons.
Definition RevisionConfig_default : RevisionConfig :=
  mkRevisionConfig false None None None None None None None None None None None None None None default_revision_chunk_bytes
    default_revision_text_bytes default_revision_object_format RevisionLimitConfig_default.
Definition MediaConfig_default : MediaConfig :=
  mkMediaConfig false None default_media_capability_signing None None None default_media_generation_recheck_seconds
    default_media_cache_quota_percent default_media_cache_high_watermark_percent default_media_cache_low_watermark_percent false.
Definition HeadscaleSyncConfig_default : HeadscaleSyncConfig :=
  mkHeadscaleSyncConfig false None None None None default_headscale_sync_seconds.
Definition SmbMountConfig_default : SmbMountConfig :=
  mkSmbMountConfig false default_smb_gateway_uri_san None.
Definition FtpFtpsMountConfig_default : FtpFtpsMountConfig :=
  mkFtpFtpsMountConfig false default_ftp_ftps_gateway_uri_san None.
Definition NfsMountConfig_default : NfsMountConfig :=
  mkNfsMountConfig false default_nfs_gateway_uri_san None None None None default_key_generation default_nfs_grace_seconds.
Definition MountConfig_default : MountConfig :=
  mkMountConfig None None default_key_generation None None None None None None None None None HeadscaleSyncConfig_default
    SmbMountConfig_default FtpFtpsMountConfig_default NfsMountConfig_default.
