(* ===== verification/Config.v ===== *)
(** Model of the validation of [source/crates/filebelt-control-protocol/src/lib.rs]:
    [Config::validate] with the rules of every component, [apply_environment] and
    [load].  The URL parser is the parameter of [Web]; a test of several disjuncts
    without effects is written in the order of the source, or shared where the
    source repeats the same disjuncts. *)
From S2P Require Import Prelude Collections Libraries Frames Net Web ConfigTypes.

Open Scope string_scope.
Open Scope Z_scope.
Open Scope list_scope.
Open Scope bool_scope.

Inductive ConfigError := Io | Parse | Invalid (message : string).
Definition invalid (message : string) : ConfigError := Invalid message.

(** [if rejected { return Err(invalid(message)); }] *)
Definition reject_if (rejected : bool) (message : string) : result ConfigError unit :=
  if rejected then Err (invalid message) else Ok tt.

(** [path.is_none_or(|path| !path.is_absolute())] and
    [path.is_some_and(|path| !path.is_absolute())]. *)
Definition not_absolute (path : string) : bool := negb (path_is_absolute path).
Definition absent_or_relative (path : option string) : bool := is_none_or path not_absolute.
Definition present_and_relative (path : option string) : bool := is_some_and path not_absolute.

(** ** Names *)

Definition lower_digit_hyphen (b : byte) : bool := is_ascii_lowercase b || is_ascii_digit b || byte_is "-" b.

Definition valid_dns_label (label : string) : bool :=
  negb (is_empty label) && (str_len label <=? 63) && negb (str_starts_with "-" label) && negb (str_ends_with "-" label)
  && forallb lower_digit_hyphen (as_bytes label).
Definition valid_dns_policy_name (name : string) : bool :=
  negb (is_empty name) && (str_len name <=? 253) && forallb valid_dns_label (split_char "." name).
Definition is_dns_label (name : string) : bool := negb (str_contains_char "." name) && valid_dns_policy_name name.

Definition policy_name_invalid (name : string) : bool :=
  is_empty name || (63 <? str_len name) || negb (forallb lower_digit_hyphen (as_bytes name)).
Definition validate_policy_name (name kind : string) : result ConfigError unit :=
  reject_if (policy_name_invalid name) (kind +:+ " name is invalid").

Definition valid_cidr (value : string) : bool :=
  match split_once_char "/" value with
  | None => false
  | Some (address, prefix) =>
      match parse_ip_addr address with
      | None => false
      | Some address =>
          match parse_unsigned 255 prefix with
          | None => false
          | Some prefix => prefix <=? (if ip_is_ipv4 address then 32 else 128)
          end
      end
  end.

Definition is_lower_hex (b : byte) : bool := is_ascii_digit b || range_contains 97 102 (byte_val b).
Definition digest_reference (digit : byte -> bool) (value : string) : bool :=
  match rsplit_once_str "@sha256:" value with
  | None => false
  | Some (name, digest) =>
      negb (is_empty name) && (str_len digest =? 64) && forallb digit (as_bytes digest) && negb (has_whitespace (as_bytes value))
  end.
Definition valid_digest_reference (value : string) : bool := digest_reference is_ascii_hexdigit value.
Definition is_digest_pinned_image (value : string) : bool := digest_reference is_lower_hex value.

(** ** URLs *)

Definition scheme_is (expected : string) (u : Url) : bool := String.eqb (scheme u) expected.
Definition path_is (expected : string) (u : Url) : bool := String.eqb (url_path u) expected.
Definition host_ends_with_dot (u : Url) : bool := is_some_and (host_str u) (str_ends_with ".").
Definition has_credentials (u : Url) : bool := negb (is_empty (username u)) || is_some (password u).
Definition has_query_or_fragment (u : Url) : bool := is_some (query u) || is_some (fragment u).
Definition http_or_https (u : Url) : bool := scheme_is "http" u || scheme_is "https" u.
Definition same_host (u v : Url) : bool := bool_decide (host_str u = host_str v).

(** The tests of every internal service URL: the expected scheme, a host, an
    explicit port, the path [/], and nothing else. *)
Definition not_service_origin (expected_scheme : string) (u : Url) : bool :=
  negb (scheme_is expected_scheme u) || is_none (host_str u) || is_none (url_port u) || negb (path_is "/" u)
  || has_credentials u || has_query_or_fragment u.

Definition mode_is_kubernetes (mode : DeploymentMode) : bool := bool_decide (mode = Kubernetes).
Definition expected_scheme (mode : DeploymentMode) : string := if mode_is_kubernetes mode then "https" else "http".

Definition validate_internal_service_url (url : option Url) (mode : DeploymentMode) (service : string) : result ConfigError unit :=
  let? url := ok_or (invalid ("enabled feature requires an internal " +:+ service +:+ " URL")) url in
  let loopback_http :=
    match host_str url with
    | Some host => is_some_and (parse_ip_addr host) ip_is_loopback
    | None => false
    end in
  let expected_scheme :=
    if mode_is_kubernetes mode then "https" else if scheme_is "http" url && loopback_http then "http" else "https" in
  reject_if (not_service_origin expected_scheme url) ("internal " +:+ service +:+ " URL is invalid").

Definition validate_document_provider_origin (url : option Url) (public_origin : Url) : result ConfigError unit :=
  let? url := ok_or (invalid "enabled documents require an exact provider HTTPS origin") url in
  reject_if
    (negb (scheme_is "https" url) || is_none (host_str url) || host_ends_with_dot url || has_credentials url
     || is_some (url_port url) || negb (path_is "/" url) || has_query_or_fragment url || same_host url public_origin)
    "document provider origin must be an exact HTTPS origin without credentials, path, query, or fragment".

Definition validate_document_launch_action (url : option Url) (public_origin : Url) (provider_origin : option Url)
  : result ConfigError unit :=
  let? url := ok_or (invalid "enabled documents require an exact isolated HTTPS launch action URL") url in
  reject_if
    (negb (scheme_is "https" url) || is_none (host_str url) || host_ends_with_dot url || has_credentials url
     || is_some (url_port url) || has_query_or_fragment url || negb (path_is "/onlyoffice/launch" url)
     || same_host url public_origin || is_some_and provider_origin (same_host url))
    "document launch action must be an exact isolated HTTPS /onlyoffice/launch URL without credentials, query, or fragment".

(** ** Keys *)

Definition validate_signing_key (key : SigningKeyConfig) (purpose : string) : result ConfigError unit :=
  reject_if
    (not_absolute (SigningKeyConfig_private_key_file key) || not_absolute (SigningKeyConfig_public_keyset_file key)
     || (SigningKeyConfig_current_generation key =? 0))
    (purpose +:+ " signing requires absolute private and public-keyset paths and a positive current generation").

Definition opt_list {A} (o : option A) : list A := match o with Some a => [a] | None => [] end.

Definition configured_keys (c : Config) : list SigningKeyConfig :=
  [KeyConfig_api_storage (Config_keys c); MediaConfig_capability_signing (Config_media c)]
  ++ opt_list (KeyConfig_api_collaboration_grant (Config_keys c)) ++ opt_list (KeyConfig_api_mcp_delegation (Config_keys c))
  ++ opt_list (CollaborationConfig_capability_signing (Config_collaboration c))
  ++ opt_list (DocumentConfig_capability_signing (Config_documents c))
  ++ opt_list (RevisionConfig_capability_signing (Config_revisions c)) ++ opt_list (MountConfig_capability_signing (Config_mounts c)).

Definition key_paths (key : SigningKeyConfig) : list string :=
  [SigningKeyConfig_private_key_file key; SigningKeyConfig_public_keyset_file key].

(** [paths.windows(2).any(|pair| pair[0] == pair[1])] *)
Fixpoint has_equal_neighbours {A} `{EqDecision A} (l : list A) : bool :=
  match l with
  | [] => false
  | a :: rest => match rest with b :: _ => bool_decide (a = b) | [] => false end || has_equal_neighbours rest
  end.

(** Paths are sorted and compared by their components. *)
Definition validate_signing_key_topology (c : Config) : result ConfigError unit :=
  let? _ := try_each (fun key =>
              reject_if (paths_equal (SigningKeyConfig_private_key_file key) (SigningKeyConfig_public_keyset_file key))
                "signing private and public-keyset paths must differ") (configured_keys c) in
  reject_if (has_equal_neighbours (sort_unstable (map path_components (flat_map key_paths (configured_keys c)))))
    "configured signing private and public-keyset paths must be purpose-distinct".

(** ** Limits *)

Definition validate_mcp_limits (l : McpLimitConfig) : result ConfigError unit :=
  reject_if
    (negb (range_contains 1 30 (McpLimitConfig_connect_timeout_seconds l))
     || negb (range_contains 1 60 (McpLimitConfig_discovery_timeout_seconds l))
     || negb (range_contains 1 60 (McpLimitConfig_progress_idle_timeout_seconds l))
     || negb (range_contains 1 120 (McpLimitConfig_operation_timeout_seconds l))
     || (McpLimitConfig_absolute_timeout_seconds l <? McpLimitConfig_operation_timeout_seconds l)
     || (300 <? McpLimitConfig_absolute_timeout_seconds l)
     || negb (range_contains 65536 1048576 (McpLimitConfig_message_bytes l))
     || (McpLimitConfig_result_bytes l <? McpLimitConfig_message_bytes l)
     || (4194304 <? McpLimitConfig_result_bytes l)
     || negb (range_contains 1048576 16777216 (McpLimitConfig_attachment_bytes l))
     || negb (McpLimitConfig_attachment_hard_bytes l =? 16777216)
     || negb (McpLimitConfig_encoded_wire_bytes l =? 25165824)
     || (McpLimitConfig_principal_concurrency l =? 0)
     || (McpLimitConfig_registration_concurrency l =? 0)
     || (McpLimitConfig_principal_concurrency l <? McpLimitConfig_registration_concurrency l)
     || (McpLimitConfig_replica_concurrency l <? McpLimitConfig_principal_concurrency l)
     || (256 <? McpLimitConfig_replica_concurrency l)
     || negb (range_contains 1 64 (McpLimitConfig_queue_depth l)))
    "MCP limits are outside the accepted envelope".

Definition validate_collaboration_limits (l : CollaborationLimitConfig) : result ConfigError unit :=
  reject_if
    (negb (range_contains 1 32 (CollaborationLimitConfig_max_participants l))
     || negb (range_contains 16384 262144 (CollaborationLimitConfig_max_update_bytes l))
     || (CollaborationLimitConfig_max_operation_group_bytes l <? CollaborationLimitConfig_max_update_bytes l)
     || (2097152 <? CollaborationLimitConfig_max_operation_group_bytes l)
     || negb (range_contains 1 50 (CollaborationLimitConfig_client_updates_per_second l))
     || negb (range_contains 262144 2097152 (CollaborationLimitConfig_client_bytes_per_second l))
     || (CollaborationLimitConfig_room_updates_per_second l <? CollaborationLimitConfig_client_updates_per_second l)
     || (500 <? CollaborationLimitConfig_room_updates_per_second l)
     || (CollaborationLimitConfig_room_bytes_per_second l <? CollaborationLimitConfig_client_bytes_per_second l)
     || (16777216 <? CollaborationLimitConfig_room_bytes_per_second l)
     || negb (range_contains 1024 8192 (CollaborationLimitConfig_max_awareness_bytes l))
     || negb (range_contains 1 10 (CollaborationLimitConfig_client_awareness_per_second l))
     || (CollaborationLimitConfig_room_awareness_per_second l <? CollaborationLimitConfig_client_awareness_per_second l)
     || (100 <? CollaborationLimitConfig_room_awareness_per_second l)
     || negb (range_contains 2097152 67108864 (CollaborationLimitConfig_max_state_bytes l))
     || (CollaborationLimitConfig_max_retained_room_bytes l <? CollaborationLimitConfig_max_state_bytes l)
     || (268435456 <? CollaborationLimitConfig_max_retained_room_bytes l)
     || negb (range_contains 1 60 (CollaborationLimitConfig_generation_recheck_seconds l))
     || negb (CollaborationLimitConfig_dirty_retention_seconds l =? 2592000)
     || negb (CollaborationLimitConfig_expiry_warning_seconds l =? 1987200)
     || (CollaborationLimitConfig_dirty_retention_seconds l <=? CollaborationLimitConfig_expiry_warning_seconds l))
    "collaboration limits are outside the accepted Large profile".

Definition validate_document_limits (d : DocumentConfig) : result ConfigError unit :=
  reject_if
    (negb (range_contains 1 20 (DocumentConfig_max_active_tabs d)) || negb (range_contains 1 104857600 (DocumentConfig_max_document_bytes d))
     || negb (DocumentConfig_generation_recheck_seconds d =? 60))
    "document limits exceed the accepted tab, byte, or generation-recheck caps".

(** The limits section of [validate]. *)
Definition validate_limits (l : LimitConfig) : result ConfigError unit :=
  let? _ := reject_if (1073741824 <? LimitConfig_whole_threshold_bytes l) "whole threshold exceeds 1 GiB" in
  let? _ := reject_if (negb (range_contains 1048576 268435456 (LimitConfig_chunk_size_bytes l))
                       || negb (is_power_of_two (LimitConfig_chunk_size_bytes l)))
              "chunk size must be a power of two from 1 to 256 MiB" in
  let? _ := reject_if (negb (range_contains 1 1048576 (LimitConfig_max_parts l))) "part count is outside the accepted envelope" in
  let? _ := reject_if (negb (range_contains 1048576 70368744177664 (LimitConfig_max_file_bytes l)))
              "maximum file is outside 1 MiB to 64 TiB" in
  let? _ := reject_if (is_none_or (checked_mul_u64 (LimitConfig_chunk_size_bytes l) (LimitConfig_max_parts l))
                         (fun capacity => capacity <? LimitConfig_max_file_bytes l))
              "chunk size and part count cannot represent maximum file" in
  let? _ := reject_if (negb (range_contains 300 2592000 (LimitConfig_upload_ttl_seconds l)))
              "upload lifetime is outside 5 minutes to 30 days" in
  let? _ := reject_if (negb (range_contains 1 60 (LimitConfig_generation_recheck_seconds l)))
              "generation recheck must be 1 to 60 seconds" in
  let? _ := reject_if (negb (range_contains 3600 2592000 (LimitConfig_orphan_grace_seconds l))
                       || (604800 <? LimitConfig_expired_part_grace_seconds l))
              "storage grace period is outside the accepted envelope" in
  reject_if (negb (range_contains 1073741824 1125899906842624 (LimitConfig_private_drive_quota_bytes l))
             || negb (range_contains 1073741824 1125899906842624 (LimitConfig_shared_drive_quota_bytes l)))
    "drive quota is outside 1 GiB to 1 PiB".

(** ** Mutual TLS *)

Definition mount_any_protocol_enabled (m : MountConfig) : bool :=
  SmbMountConfig_enabled (MountConfig_smb m) || FtpFtpsMountConfig_enabled (MountConfig_ftp_ftps m)
  || NfsMountConfig_enabled (MountConfig_nfs m).
Definition mount_headscale_required (m : MountConfig) : bool :=
  HeadscaleSyncConfig_enabled (MountConfig_headscale m)
  && (SmbMountConfig_enabled (MountConfig_smb m) || FtpFtpsMountConfig_enabled (MountConfig_ftp_ftps m)).

Section urls.
Context `{UrlLib}.

Definition valid_exact_spiffe_uri_san (identity : string) : bool :=
  is_some_and (url_parse identity) (fun uri =>
    scheme_is "spiffe" uri && is_some (host_str uri) && is_empty (username uri) && is_none (password uri)
    && is_none (url_port uri) && negb (path_is "" uri || path_is "/" uri) && is_none (query uri) && is_none (fragment uri)).

(** The loop over [allowed_client_uri_sans] with its set [unique]. *)
Fixpoint check_uri_sans (unique : list string) (identities : list string) : result ConfigError unit :=
  match identities with
  | [] => Ok tt
  | identity :: rest =>
      if negb (valid_exact_spiffe_uri_san identity) || bset_contains identity unique
      then Err (invalid "client URI SAN must be a unique absolute spiffe URI")
      else check_uri_sans (bset_insert identity unique) rest
  end.

Definition validate_backend_tls (t : BackendServerTlsConfig) : result ConfigError unit :=
  let? _ := reject_if (not_absolute (BackendServerTlsConfig_certificate_chain_file t)
                       || not_absolute (BackendServerTlsConfig_private_key_file t)
                       || not_absolute (BackendServerTlsConfig_client_ca_file t)) "backend TLS paths must be absolute" in
  let? _ := reject_if ((len (BackendServerTlsConfig_allowed_client_uri_sans t) =? 0)
                       && (len (BackendServerTlsConfig_allowed_client_trust_domains t) =? 0))
              "backend TLS requires an exact client URI SAN or trust domain" in
  let? _ := reject_if ((8 <? len (BackendServerTlsConfig_allowed_client_uri_sans t))
                       || (8 <? len (BackendServerTlsConfig_allowed_client_trust_domains t)))
              "backend TLS client identity policy is too large" in
  let? _ := check_uri_sans [] (BackendServerTlsConfig_allowed_client_uri_sans t) in
  try_each (fun domain => reject_if (negb (valid_dns_policy_name domain)) "backend TLS trust domain is invalid")
    (BackendServerTlsConfig_allowed_client_trust_domains t).

Definition spiffe_identity_uses_domain (identity : string) (domains : list string) : bool :=
  match url_parse identity with
  | Some uri => is_some_and (host_str uri) (fun domain => bset_contains domain domains)
  | None => false
  end.

(** [BTreeSet::is_disjoint] *)
Definition bset_is_disjoint (a b : list string) : bool := forallb (fun x => negb (bset_contains x b)) a.

Definition backend_tls_identity_policies_overlap (api io : BackendServerTlsConfig) : bool :=
  let api_identities := bset_of_list (BackendServerTlsConfig_allowed_client_uri_sans api) in
  let io_identities := bset_of_list (BackendServerTlsConfig_allowed_client_uri_sans io) in
  let api_domains := bset_of_list (BackendServerTlsConfig_allowed_client_trust_domains api) in
  let io_domains := bset_of_list (BackendServerTlsConfig_allowed_client_trust_domains io) in
  negb (bset_is_disjoint api_identities io_identities) || negb (bset_is_disjoint api_domains io_domains)
  || existsb (fun identity => spiffe_identity_uses_domain identity io_domains) api_identities
  || existsb (fun identity => spiffe_identity_uses_domain identity api_domains) io_identities.

(** One of the loops of [validate] over the other roles of the deployment. *)
Definition check_role_overlap (name : string) (role : BackendServerTlsConfig)
    (others : list (string * option BackendServerTlsConfig)) : result ConfigError unit :=
  try_each (fun '(other_name, other) =>
    reject_if (is_some_and other (backend_tls_identity_policies_overlap role))
      (name +:+ " and " +:+ other_name +:+ " backend TLS client identities and trust domains must not overlap")) others.

Definition validate_role (name : string) (role : option BackendServerTlsConfig)
    (others : list (string * option BackendServerTlsConfig)) : result ConfigError unit :=
  match role with
  | None => Ok tt
  | Some tls => let? _ := validate_backend_tls tls in check_role_overlap name tls others
  end.
Definition validate_optional_tls (role : option BackendServerTlsConfig) : result ConfigError unit :=
  match role with None => Ok tt | Some tls => validate_backend_tls tls end.

(** The [backend_tls] section of [validate]. *)
Definition validate_tls (t : BackendTlsConfig) : result ConfigError unit :=
  let? _ := validate_backend_tls (BackendTlsConfig_api t) in
  let? _ := validate_backend_tls (BackendTlsConfig_io t) in
  let? _ := reject_if (backend_tls_identity_policies_overlap (BackendTlsConfig_api t) (BackendTlsConfig_io t))
              "API and I/O backend TLS client identities and trust domains must not overlap" in
  let? _ := validate_optional_tls (BackendTlsConfig_mcp_broker t) in
  let? _ := validate_optional_tls (BackendTlsConfig_controller t) in
  let? _ := validate_optional_tls (BackendTlsConfig_collaboration t) in
  let? _ := validate_role "document" (BackendTlsConfig_document t)
              [("API", Some (BackendTlsConfig_api t)); ("I/O", Some (BackendTlsConfig_io t));
               ("MCP broker", BackendTlsConfig_mcp_broker t); ("controller", BackendTlsConfig_controller t);
               ("collaboration", BackendTlsConfig_collaboration t); ("VFS", BackendTlsConfig_vfs t);
               ("VFS management", BackendTlsConfig_vfs_management t)] in
  let? _ := validate_role "document adapter" (BackendTlsConfig_document_adapter t)
              [("API", Some (BackendTlsConfig_api t)); ("I/O", Some (BackendTlsConfig_io t));
               ("MCP broker", BackendTlsConfig_mcp_broker t); ("controller", BackendTlsConfig_controller t);
               ("collaboration", BackendTlsConfig_collaboration t); ("document API", BackendTlsConfig_document t);
               ("VFS", BackendTlsConfig_vfs t); ("VFS management", BackendTlsConfig_vfs_management t)] in
  let? _ := validate_role "revision" (BackendTlsConfig_revision t)
              [("API", Some (BackendTlsConfig_api t)); ("I/O", Some (BackendTlsConfig_io t));
               ("MCP broker", BackendTlsConfig_mcp_broker t); ("controller", BackendTlsConfig_controller t);
               ("collaboration", BackendTlsConfig_collaboration t); ("document API", BackendTlsConfig_document t);
               ("document adapter", BackendTlsConfig_document_adapter t); ("VFS", BackendTlsConfig_vfs t);
               ("VFS management", BackendTlsConfig_vfs_management t)] in
  let? _ := validate_optional_tls (BackendTlsConfig_vfs t) in
  validate_optional_tls (BackendTlsConfig_vfs_management t).

(** [self.backend_tls.as_ref().and_then(|tls| tls.role.as_ref())] *)
Definition tls_role (c : Config) (role : BackendTlsConfig -> option BackendServerTlsConfig) : option BackendServerTlsConfig :=
  match Config_backend_tls c with Some tls => role tls | None => None end.

(** ** Mounts *)

Definition validate_mount_gateway_identity (protocol : string) (enabled : bool) (current expected_current : string)
    (previous : option string) : result ConfigError unit :=
  let? _ := reject_if (negb (String.eqb current expected_current) || negb (valid_exact_spiffe_uri_san current))
              (protocol +:+ " current gateway URI SAN must match the fixed deployment identity") in
  let? _ := reject_if (negb enabled && is_some previous)
              ("disabled " +:+ protocol +:+ " must not configure a previous gateway URI SAN") in
  reject_if (is_some_and previous (fun identity => negb (valid_exact_spiffe_uri_san identity)))
    (protocol +:+ " previous gateway URI SAN must be an exact spiffe URI").

(** The current and previous identities of the three protocols, in the order of the source. *)
Definition mount_gateway_identities (m : MountConfig) : list string :=
  let smb := MountConfig_smb m in
  let ftp := MountConfig_ftp_ftps m in
  let nfs := MountConfig_nfs m in
  SmbMountConfig_gateway_uri_san smb :: opt_list (SmbMountConfig_previous_gateway_uri_san smb)
  ++ FtpFtpsMountConfig_gateway_uri_san ftp :: opt_list (FtpFtpsMountConfig_previous_gateway_uri_san ftp)
  ++ NfsMountConfig_gateway_uri_san nfs :: opt_list (NfsMountConfig_previous_gateway_uri_san nfs).

Fixpoint check_disjoint (identities : list string) (l : list string) : result ConfigError unit :=
  match l with
  | [] => Ok tt
  | identity :: rest =>
      if bset_contains identity identities
      then Err (invalid "mount gateway current and previous URI SANs must be disjoint")
      else check_disjoint (bset_insert identity identities) rest
  end.
Definition validate_disjoint_mount_gateway_identities (m : MountConfig) : result ConfigError unit :=
  check_disjoint [] (mount_gateway_identities m).

(** The identities [expected] collects: those of the enabled protocols. *)
Definition enabled_identities (m : MountConfig) : list string :=
  let smb := MountConfig_smb m in
  let ftp := MountConfig_ftp_ftps m in
  let nfs := MountConfig_nfs m in
  (if SmbMountConfig_enabled smb
   then SmbMountConfig_gateway_uri_san smb :: opt_list (SmbMountConfig_previous_gateway_uri_san smb) else [])
  ++ (if FtpFtpsMountConfig_enabled ftp
      then FtpFtpsMountConfig_gateway_uri_san ftp :: opt_list (FtpFtpsMountConfig_previous_gateway_uri_san ftp) else [])
  ++ (if NfsMountConfig_enabled nfs
      then NfsMountConfig_gateway_uri_san nfs :: opt_list (NfsMountConfig_previous_gateway_uri_san nfs) else []).

Definition validate_vfs_mount_gateway_identities (m : MountConfig) (t : BackendServerTlsConfig) : result ConfigError unit :=
  let? _ := reject_if (negb (len (BackendServerTlsConfig_allowed_client_trust_domains t) =? 0))
              "VFS backend TLS must authorize mount gateways by exact URI SAN only" in
  let expected := bset_of_list (enabled_identities m) in
  let configured := bset_of_list (BackendServerTlsConfig_allowed_client_uri_sans t) in
  reject_if (negb (bool_decide (configured = expected)))
    "VFS backend TLS exact URI SAN allowlist must match enabled mount gateways".

Definition realm_byte (b : byte) : bool := is_ascii_uppercase b || is_ascii_digit b || byte_is "." b || byte_is "-" b.

Definition validate_nfs (c : Config) : result ConfigError unit :=
  let nfs := MountConfig_nfs (Config_mounts c) in
  if negb (NfsMountConfig_enabled nfs) then
    reject_if (is_some (NfsMountConfig_realm nfs) || is_some (NfsMountConfig_idmap_domain nfs)
               || is_some (NfsMountConfig_handle_keyring_file nfs)
               || negb (NfsMountConfig_handle_key_generation nfs =? default_key_generation))
      "disabled NFS must not configure realm, idmap, or handle-key authority"
  else
    let? _ := reject_if (negb (mode_is_kubernetes (DeploymentConfig_mode (Config_deployment c))))
                "NFS requires Kubernetes deployment with verified gateway mTLS" in
    let? realm := ok_or (invalid "enabled NFS requires an external Kerberos realm") (NfsMountConfig_realm nfs) in
    let? idmap_domain := ok_or (invalid "enabled NFS requires an NFSv4 idmap domain") (NfsMountConfig_idmap_domain nfs) in
    let? _ := reject_if (is_empty realm || (255 <? str_len realm) || negb (forallb realm_byte (as_bytes realm))
                         || negb (valid_dns_policy_name idmap_domain)) "NFS Kerberos realm or idmap domain is invalid" in
    reject_if (absent_or_relative (NfsMountConfig_handle_keyring_file nfs)
               || negb (range_contains 30 300 (NfsMountConfig_grace_seconds nfs)) || (NfsMountConfig_handle_key_generation nfs =? 0))
      "NFS requires an absolute handle-key path, a 30 to 300 second grace period, and a positive handle-key generation".

(** The Headscale section of [validate_mounts]. *)
Definition validate_headscale (h : HeadscaleSyncConfig) : result ConfigError unit :=
  let? _ := reject_if (negb (range_contains 5 300 (HeadscaleSyncConfig_sync_seconds h))
                       || existsb absent_or_relative [HeadscaleSyncConfig_api_token_file h; HeadscaleSyncConfig_server_ca_file h])
              "Headscale sync requires absolute token and CA paths and a 5 to 300 second interval" in
  let? api := ok_or (invalid "Headscale sync requires an API URL") (HeadscaleSyncConfig_api_url h) in
  let? _ := reject_if (negb (scheme_is "https" api) || is_none (host_str api) || negb (path_is "/" api) || has_credentials api
                       || has_query_or_fragment api) "Headscale API URL must be a bare HTTPS origin" in
  let? issuer := ok_or (invalid "Headscale sync requires the exact OIDC issuer") (HeadscaleSyncConfig_oidc_issuer h) in
  reject_if (negb (scheme_is "https" issuer) || is_none (host_str issuer) || has_credentials issuer || has_query_or_fragment issuer)
    "Headscale OIDC issuer must use HTTPS".

(** The identity checks at the beginning of [validate_mounts]. *)
Definition validate_mount_identities (m : MountConfig) : result ConfigError unit :=
  let smb := MountConfig_smb m in
  let ftp := MountConfig_ftp_ftps m in
  let nfs := MountConfig_nfs m in
  let? _ := validate_mount_gateway_identity "SMB" (SmbMountConfig_enabled smb) (SmbMountConfig_gateway_uri_san smb)
              SMB_GATEWAY_URI_SAN (SmbMountConfig_previous_gateway_uri_san smb) in
  let? _ := validate_mount_gateway_identity "FTP/FTPS" (FtpFtpsMountConfig_enabled ftp) (FtpFtpsMountConfig_gateway_uri_san ftp)
              FTP_FTPS_GATEWAY_URI_SAN (FtpFtpsMountConfig_previous_gateway_uri_san ftp) in
  let? _ := validate_mount_gateway_identity "NFS" (NfsMountConfig_enabled nfs) (NfsMountConfig_gateway_uri_san nfs)
              NFS_GATEWAY_URI_SAN (NfsMountConfig_previous_gateway_uri_san nfs) in
  validate_disjoint_mount_gateway_identities m.

(** The service section of [validate_mounts], for an enabled protocol. *)
Definition validate_mount_services (c : Config) : result ConfigError unit :=
  let m := Config_mounts c in
  let mode := DeploymentConfig_mode (Config_deployment c) in
  let? _ := reject_if ((MountConfig_vault_key_generation m =? 0)
                       || existsb absent_or_relative [MountConfig_database_url_file m; MountConfig_vault_keyring_file m])
              "an enabled mount protocol requires absolute database and vault paths plus a positive vault generation" in
  let? signing := ok_or (invalid "an enabled mount protocol requires capability signing") (MountConfig_capability_signing m) in
  let? _ := validate_signing_key signing "mount storage" in
  let? io_url := ok_or (invalid "enabled mounts require an internal I/O URL") (MountConfig_io_url m) in
  let? _ := reject_if (not_service_origin (expected_scheme mode) io_url) "VFS I/O URL is invalid" in
  let? management := ok_or (invalid "enabled mounts require an internal VFS management URL") (MountConfig_management_url m) in
  let? _ := reject_if (not_service_origin (expected_scheme mode) management) "VFS management URL is invalid" in
  reject_if (mode_is_kubernetes mode
             && (is_none (tls_role c BackendTlsConfig_vfs) || is_none (tls_role c BackendTlsConfig_vfs_management)
                 || existsb absent_or_relative
                      [MountConfig_io_client_certificate_chain_file m; MountConfig_io_client_private_key_file m;
                       MountConfig_io_server_ca_file m; MountConfig_management_client_certificate_chain_file m;
                       MountConfig_management_client_private_key_file m; MountConfig_management_server_ca_file m]))
    "Kubernetes mount protocols require separate VFS I/O and management mTLS identities".

Definition validate_mounts (c : Config) : result ConfigError unit :=
  let m := Config_mounts c in
  let? _ := validate_mount_identities m in
  let? _ := validate_nfs c in
  let? _ := reject_if (negb (Bool.eqb (HeadscaleSyncConfig_enabled (MountConfig_headscale m))
                               (SmbMountConfig_enabled (MountConfig_smb m) || FtpFtpsMountConfig_enabled (MountConfig_ftp_ftps m))))
              "Headscale synchronization must be enabled exactly when SMB or FTP/FTPS is enabled" in
  if negb (mount_any_protocol_enabled m) then Ok tt
  else
    let? _ := validate_mount_services c in
    let? _ := match tls_role c BackendTlsConfig_vfs with
              | Some vfs_tls => validate_vfs_mount_gateway_identities m vfs_tls
              | None => Ok tt
              end in
    if negb (mount_headscale_required m) then Ok tt else validate_headscale (MountConfig_headscale m).
End urls.

Section rules.
Context `{UrlLib}.

(** ** Documents and revisions *)

Definition provider_id_byte (b : byte) : bool := is_ascii_lowercase b || is_ascii_digit b || byte_is "-" b || byte_is "_" b.

(** The addresses of every listener but those of documents and revisions. *)
Definition other_listeners (l : ListenerConfig) : list SocketAddr :=
  [ListenerConfig_api l; ListenerConfig_io l; ListenerConfig_operations l; ListenerConfig_mcp_broker l;
   ListenerConfig_mcp_runner_relay l; ListenerConfig_controller l; ListenerConfig_collaboration_ws l;
   ListenerConfig_collaboration_webtransport l; ListenerConfig_vfs l; ListenerConfig_vfs_management l].
Definition listener_in (a : SocketAddr) (l : list SocketAddr) : bool := existsb (fun b => bool_decide (a = b)) l.

Definition document_tls_paths (d : DocumentConfig) : list (option string) :=
  [DocumentConfig_client_certificate_chain_file d; DocumentConfig_client_private_key_file d; DocumentConfig_server_ca_file d].

Definition disabled_documents_configured (c : Config) : bool :=
  let d := Config_documents c in
  is_some (DocumentConfig_database_url_file d) || is_some (DocumentConfig_url d) || is_some (DocumentConfig_launch_action d)
  || is_some (DocumentConfig_provider_origin d) || existsb is_some (document_tls_paths d)
  || is_some (DocumentConfig_capability_signing d)
  || is_some_and (Config_backend_tls c) (fun tls => is_some (BackendTlsConfig_document tls) || is_some (BackendTlsConfig_document_adapter tls)).

Definition validate_documents (c : Config) : result ConfigError unit :=
  let d := Config_documents c in
  let l := Config_listeners c in
  let mode := DeploymentConfig_mode (Config_deployment c) in
  let? _ := validate_document_limits d in
  if negb (DocumentConfig_enabled d) then
    reject_if (disabled_documents_configured c)
      "disabled documents must not configure database, service, capability, or TLS authority"
  else
    let? _ := reject_if (is_empty (DocumentConfig_provider_id d) || (128 <? str_len (DocumentConfig_provider_id d))
                         || negb (forallb provider_id_byte (as_bytes (DocumentConfig_provider_id d)))
                         || absent_or_relative (DocumentConfig_database_url_file d))
                "enabled documents require a provider ID and an absolute database path" in
    let? signing := ok_or (invalid "enabled documents require capability signing") (DocumentConfig_capability_signing d) in
    let? _ := validate_signing_key signing "document storage" in
    let? _ := validate_internal_service_url (DocumentConfig_url d) mode "document service" in
    let? _ := validate_document_provider_origin (DocumentConfig_provider_origin d) (Config_public_origin c) in
    let? _ := validate_document_launch_action (DocumentConfig_launch_action d) (Config_public_origin c)
                (DocumentConfig_provider_origin d) in
    let? _ := reject_if (listener_in (ListenerConfig_document l) (other_listeners l ++ [ListenerConfig_document_adapter l])
                         || listener_in (ListenerConfig_document_adapter l) (other_listeners l))
                "document API and adapter listeners must be distinct from every other listener" in
    if mode_is_kubernetes mode then
      let? _ := reject_if (existsb absent_or_relative (document_tls_paths d))
                  "Kubernetes documents require absolute API-to-document TLS paths" in
      reject_if (is_none_or (Config_backend_tls c)
                   (fun tls => is_none (BackendTlsConfig_document tls) || is_none (BackendTlsConfig_document_adapter tls)))
        "Kubernetes documents require distinct API and adapter backend mTLS configurations"
    else reject_if (existsb present_and_relative (document_tls_paths d)) "document TLS paths must be absolute when configured".

Definition revision_authority_paths (r : RevisionConfig) : list (option string) :=
  [RevisionConfig_database_url_file r; RevisionConfig_client_certificate_chain_file r; RevisionConfig_client_private_key_file r;
   RevisionConfig_server_ca_file r; RevisionConfig_adapter_client_certificate_chain_file r;
   RevisionConfig_adapter_client_private_key_file r; RevisionConfig_adapter_server_ca_file r;
   RevisionConfig_io_client_certificate_chain_file r; RevisionConfig_io_client_private_key_file r;
   RevisionConfig_io_server_ca_file r].

Definition validate_revisions (c : Config) : result ConfigError unit :=
  let r := Config_revisions c in
  let l := Config_listeners c in
  let mode := DeploymentConfig_mode (Config_deployment c) in
  let? _ := reject_if (negb (RevisionConfig_chunk_size_bytes r =? default_revision_chunk_bytes)
                       || negb (RevisionConfig_max_text_bytes r =? default_revision_text_bytes)
                       || negb (String.eqb (RevisionConfig_git_object_format r) "sha256"))
              "revision storage requires 16 MiB fixed chunks, a 100 MiB text cap, and SHA-256 Git objects" in
  let? _ := reject_if (negb (range_contains 1 32 (RevisionLimitConfig_global_comparisons (RevisionConfig_limits r)))
                       || negb (range_contains 1 8 (RevisionLimitConfig_per_user_comparisons (RevisionConfig_limits r)))
                       || (RevisionLimitConfig_global_comparisons (RevisionConfig_limits r)
                           <? RevisionLimitConfig_per_user_comparisons (RevisionConfig_limits r)))
              "revision comparison concurrency is outside the accepted envelope" in
  if negb (RevisionConfig_enabled r) then
    reject_if (existsb is_some (revision_authority_paths r) || is_some (RevisionConfig_url r) || is_some (RevisionConfig_adapter_url r)
               || is_some (RevisionConfig_io_url r) || is_some (RevisionConfig_capability_signing r)
               || is_some_and (Config_backend_tls c) (fun tls => is_some (BackendTlsConfig_revision tls)))
      "disabled revisions must not configure database, service, capability, or TLS authority"
  else
    let? _ := reject_if (existsb absent_or_relative (revision_authority_paths r))
                "enabled revisions require absolute database and mTLS paths" in
    let? signing := ok_or (invalid "enabled revisions require capability signing") (RevisionConfig_capability_signing r) in
    let? _ := validate_signing_key signing "revision storage" in
    let? _ := try_each (fun '(url, label) => validate_internal_service_url url mode label)
                [(RevisionConfig_url r, "revision service"); (RevisionConfig_adapter_url r, "revision adapter");
                 (RevisionConfig_io_url r, "revision I/O")] in
    let? _ := reject_if (listener_in (ListenerConfig_revision l)
                           (other_listeners l ++ [ListenerConfig_document l; ListenerConfig_document_adapter l]))
                "revision listener must be distinct from every other listener" in
    let? _ := reject_if (mode_is_kubernetes mode && is_none (tls_role c BackendTlsConfig_revision))
                "Kubernetes revisions require a dedicated backend mTLS configuration" in
    validate_optional_tls (tls_role c BackendTlsConfig_revision).

(** ** Media *)

Definition validate_media (c : Config) : result ConfigError unit :=
  let m := Config_media c in
  let? _ := validate_signing_key (MediaConfig_capability_signing m) "media storage" in
  if negb (MediaConfig_enabled m) then
    reject_if (is_some (MediaConfig_database_url_file m) || is_some (MediaConfig_job_namespace m)
               || is_some (MediaConfig_transcoder_image m) || is_some (MediaConfig_cache_claim m) || MediaConfig_experimental_vaapi m)
      "disabled media must not configure database, Job, cache, image, or VAAPI authority"
  else
    let? _ := reject_if (absent_or_relative (MediaConfig_database_url_file m)) "enabled media requires an absolute database path" in
    let? namespace := ok_or (invalid "enabled media requires a Job namespace") (MediaConfig_job_namespace m) in
    let? claim := ok_or (invalid "enabled media requires a cache claim") (MediaConfig_cache_claim m) in
    let? _ := reject_if (negb (is_dns_label namespace) || negb (is_dns_label claim))
                "media Job namespace and cache claim must be lowercase DNS labels" in
    let? image := ok_or (invalid "enabled media requires a digest-pinned transcoder image") (MediaConfig_transcoder_image m) in
    let? _ := reject_if (negb (is_digest_pinned_image image))
                "media transcoder image must use an immutable lowercase sha256 digest" in
    reject_if (negb (range_contains 1 60 (MediaConfig_generation_recheck_seconds m)) || negb (range_contains 1 50 (MediaConfig_cache_quota_percent m))
               || negb (range_contains 50 95 (MediaConfig_cache_high_watermark_percent m))
               || (MediaConfig_cache_high_watermark_percent m <=? MediaConfig_cache_low_watermark_percent m))
      "media limits are outside the accepted envelope".

(** ** Collaboration *)

(** The WebTransport section of [validate_collaboration]. *)
Definition validate_webtransport (c : Config) : result ConfigError unit :=
  let k := Config_collaboration c in
  if CollaborationConfig_webtransport_enabled k then
    let? endpoint := ok_or (invalid "enabled WebTransport requires a public endpoint") (CollaborationConfig_webtransport_endpoint k) in
    reject_if (negb (scheme_is "https" endpoint) || negb (same_origin endpoint (Config_public_origin c))
               || negb (path_is "/collaboration/v1/wt" endpoint) || has_query_or_fragment endpoint || has_credentials endpoint
               || negb (CollaborationConfig_webtransport_idle_seconds k =? 75)
               || negb (CollaborationConfig_webtransport_drain_seconds k =? 300))
      "WebTransport requires the same-origin /collaboration/v1/wt endpoint with qualified idle and drain limits"
  else reject_if (is_some (CollaborationConfig_webtransport_endpoint k)) "disabled WebTransport must not advertise an endpoint".

Definition validate_collaboration (c : Config) : result ConfigError unit :=
  let k := Config_collaboration c in
  let l := Config_listeners c in
  let mode := DeploymentConfig_mode (Config_deployment c) in
  let? _ := validate_collaboration_limits (CollaborationConfig_limits k) in
  if negb (CollaborationConfig_enabled k) then
    reject_if (CollaborationConfig_webtransport_enabled k || is_some (CollaborationConfig_webtransport_endpoint k)
               || is_some (CollaborationConfig_capability_signing k)) "WebTransport requires collaboration.enabled=true"
  else
    let? _ := reject_if (absent_or_relative (CollaborationConfig_database_url_file k))
                "enabled collaboration requires an absolute database path" in
    let? signing := ok_or (invalid "enabled collaboration requires capability signing") (CollaborationConfig_capability_signing k) in
    let? _ := validate_signing_key signing "collaboration storage" in
    let? io_url := ok_or (invalid "enabled collaboration requires an internal I/O URL") (CollaborationConfig_io_url k) in
    let? _ := reject_if (not_service_origin (expected_scheme mode) io_url) "collaboration internal I/O URL is invalid" in
    let? _ := reject_if (bool_decide (ListenerConfig_collaboration_ws l = ListenerConfig_collaboration_webtransport l))
                "collaboration WebSocket and WebTransport listeners must be distinct" in
    let? _ := validate_webtransport c in
    if mode_is_kubernetes mode then
      let? _ := reject_if (existsb absent_or_relative
                             [CollaborationConfig_client_certificate_chain_file k; CollaborationConfig_client_private_key_file k;
                              CollaborationConfig_server_ca_file k])
                  "Kubernetes collaboration requires absolute I/O client TLS paths" in
      reject_if (is_none (tls_role c BackendTlsConfig_collaboration))
        "Kubernetes collaboration requires backend mTLS configuration"
    else Ok tt.
End rules.

Section configuration.
Context `{UrlLib}.

(** ** MCP *)

(** The outcome of [expect] on an absent URL does not arise: all fields are present there. *)
Definition validate_mcp_gateway (g : McpEgressConfig) (required : bool) (gateway_scope : string) : result ConfigError unit :=
  let fields_present :=
    [is_some (McpEgressConfig_gateway_url g); is_some (McpEgressConfig_client_certificate_chain_file g);
     is_some (McpEgressConfig_client_private_key_file g); is_some (McpEgressConfig_server_ca_file g)] in
  let incomplete := "MCP " +:+ gateway_scope +:+ " gateway requires a URL and absolute TLS paths" in
  if negb (existsb id fields_present) then reject_if required "enabled MCP requires an egress gateway"
  else
    let? _ := reject_if (existsb negb fields_present) incomplete in
    match McpEgressConfig_gateway_url g with
    | None => Ok tt
    | Some gateway =>
        let? _ := reject_if (not_service_origin "https" gateway)
                    "MCP egress gateway must be a credential-free HTTPS origin with a port" in
        reject_if (existsb absent_or_relative
                     [McpEgressConfig_client_certificate_chain_file g; McpEgressConfig_client_private_key_file g;
                      McpEgressConfig_server_ca_file g]) incomplete
    end.

Definition profile_gateway (m : McpConfig) (p : McpTrustProfile) : result ConfigError McpEgressConfig :=
  match McpTrustProfile_gateway p with
  | Some gateway => ok_or (invalid "MCP trust profile selects an unknown gateway") (bt_get gateway (McpConfig_gateways m))
  | None => Ok (McpConfig_egress m)
  end.

Definition validate_trust_profile (m : McpConfig) (entry : string * McpTrustProfile) : result ConfigError unit :=
  let '(name, p) := entry in
  let? _ := validate_policy_name name "MCP trust profile" in
  let? gateway := profile_gateway m p in
  let? _ := reject_if ((len (McpTrustProfile_ports p) =? 0) || existsb (Z.eqb 0) (McpTrustProfile_ports p))
              "MCP trust profile ports must be non-zero" in
  let? _ := reject_if (existsb (fun host => negb (valid_dns_policy_name host)) (McpTrustProfile_hosts p))
              "MCP trust profile host is invalid" in
  let? _ := reject_if (existsb (fun cidr => negb (valid_cidr cidr)) (McpTrustProfile_cidrs p)) "MCP trust profile CIDR is invalid" in
  let? _ := reject_if (present_and_relative (McpTrustProfile_custom_ca_file p)) "MCP trust profile CA path must be absolute" in
  let? _ := reject_if (negb (McpTrustProfile_public_webpki p) && (len (McpTrustProfile_hosts p) =? 0)
                       && (len (McpTrustProfile_cidrs p) =? 0)) "private MCP trust profile requires hosts or CIDRs" in
  reject_if (bool_decide (McpEgressConfig_kind gateway = PrivateTunnel) && McpTrustProfile_allow_dynamic_client_registration p)
    "private-tunnel MCP gateways forbid dynamic client registration".

Definition validate_oauth_client (entry : string * McpOauthClient) : result ConfigError unit :=
  let '(name, client) := entry in
  let? _ := validate_policy_name name "MCP OAuth client" in
  reject_if (negb (scheme_is "https" (McpOauthClient_issuer client)) || has_query_or_fragment (McpOauthClient_issuer client)
             || is_empty (McpOauthClient_client_id client) || (512 <? str_len (McpOauthClient_client_id client))
             || present_and_relative (McpOauthClient_client_secret_file client)) "MCP OAuth client is invalid".

Fixpoint check_trust_domains (trust_domains l : list string) : result ConfigError unit :=
  match l with
  | [] => Ok tt
  | domain :: rest =>
      if negb (valid_dns_policy_name domain) || bset_contains domain trust_domains
      then Err (invalid "MCP service trust domains must be unique DNS names")
      else check_trust_domains (bset_insert domain trust_domains) rest
  end.

(** The internal services of [validate_mcp]: its broker and the I/O service of attachments. *)
Definition validate_mcp_services (c : Config) : result ConfigError unit :=
  let m := Config_mcp c in
  let b := McpConfig_broker m in
  let a := McpConfig_attachments m in
  let mode := DeploymentConfig_mode (Config_deployment c) in
  let? _ := reject_if (existsb absent_or_relative [McpConfig_database_url_file m; McpVaultConfig_keyring_file (McpConfig_vault m)])
              "enabled MCP requires absolute database and vault paths" in
  let? broker := ok_or (invalid "enabled MCP requires an internal broker URL") (McpBrokerClientConfig_url b) in
  let? _ := reject_if (not_service_origin (expected_scheme mode) broker) "MCP internal broker URL is invalid" in
  let? _ := reject_if (mode_is_kubernetes mode
                       && existsb absent_or_relative
                            [McpBrokerClientConfig_client_certificate_chain_file b; McpBrokerClientConfig_client_private_key_file b;
                             McpBrokerClientConfig_server_ca_file b])
              "Kubernetes MCP requires absolute broker client TLS paths" in
  let? io_url := ok_or (invalid "enabled MCP requires an internal I/O URL") (McpAttachmentConfig_io_url a) in
  let? _ := reject_if (not_service_origin (expected_scheme mode) io_url) "MCP internal I/O URL is invalid" in
  reject_if (mode_is_kubernetes mode
             && existsb absent_or_relative
                  [McpAttachmentConfig_client_certificate_chain_file a; McpAttachmentConfig_client_private_key_file a;
                   McpAttachmentConfig_server_ca_file a])
    "Kubernetes MCP attachment mediation requires absolute I/O client TLS paths".

(** The runner section of [validate_mcp]. *)
Definition validate_runners (c : Config) : result ConfigError unit :=
  let r := McpConfig_runners (Config_mcp c) in
  let l := Config_listeners c in
  let? _ := reject_if (bool_decide (ListenerConfig_mcp_runner_relay l = ListenerConfig_mcp_broker l)
                       || bool_decide (ListenerConfig_mcp_runner_relay l = ListenerConfig_controller l))
              "MCP runner relay listener must be distinct" in
  let? _ := reject_if (is_empty (McpRunnerConfig_namespace r) || (63 <? str_len (McpRunnerConfig_namespace r))
                       || negb (valid_dns_policy_name (McpRunnerConfig_namespace r))
                       || absent_or_relative (McpRunnerConfig_catalog_file r) || absent_or_relative (McpRunnerConfig_trusted_root_file r)
                       || absent_or_relative (McpRunnerConfig_bundle_directory r)
                       || is_none_or (McpRunnerConfig_runner_image r) (fun image => negb (valid_digest_reference image))
                       || is_none_or (McpRunnerConfig_controller_url r) (not_service_origin "https")
                       || existsb absent_or_relative
                            [McpRunnerConfig_controller_client_certificate_chain_file r;
                             McpRunnerConfig_controller_client_private_key_file r; McpRunnerConfig_controller_server_ca_file r]
                       || (McpRunnerConfig_max_per_principal r =? 0)
                       || (McpRunnerConfig_max_per_tenant r <? McpRunnerConfig_max_per_principal r))
              "MCP runner configuration is invalid" in
  let? _ := reject_if (negb (mode_is_kubernetes (DeploymentConfig_mode (Config_deployment c))))
              "MCP runners require Kubernetes deployment mode" in
  reject_if (is_none (tls_role c BackendTlsConfig_controller)) "MCP runners require controller backend mTLS".

Definition validate_mcp (c : Config) : result ConfigError unit :=
  let m := Config_mcp c in
  let? _ := reject_if (negb (String.eqb (McpConfig_callback_path m) "/api/v1/mcp/oauth/callback"))
              "MCP OAuth callback path is not allowlisted" in
  if negb (McpConfig_enabled m) then reject_if (McpRunnerConfig_enabled (McpConfig_runners m)) "MCP runners require the MCP broker"
  else
    let? _ := validate_mcp_services c in
    let? _ := reject_if (McpVaultConfig_current_generation (McpConfig_vault m) =? 0) "MCP vault key generation must be positive" in
    let? _ := reject_if (len (McpConfig_trust_profiles m) =? 0) "enabled MCP requires at least one trust profile" in
    let legacy_gateway_required := existsb (fun '(_, p) => is_none (McpTrustProfile_gateway p)) (McpConfig_trust_profiles m) in
    let? _ := validate_mcp_gateway (McpConfig_egress m) legacy_gateway_required "legacy" in
    let? _ := try_each (fun '(name, gateway) =>
                let? _ := validate_policy_name name "MCP gateway" in validate_mcp_gateway gateway true "named") (McpConfig_gateways m) in
    let? _ := try_each (validate_trust_profile m) (McpConfig_trust_profiles m) in
    let? _ := try_each validate_oauth_client (McpConfig_oauth_clients m) in
    let? _ := check_trust_domains [] (McpConfig_service_trust_domains m) in
    let? _ := validate_mcp_limits (McpConfig_limits m) in
    let? _ := reject_if (mode_is_kubernetes (DeploymentConfig_mode (Config_deployment c)) && is_none (tls_role c BackendTlsConfig_mcp_broker))
                "Kubernetes MCP requires broker backend mTLS configuration" in
    if McpRunnerConfig_enabled (McpConfig_runners m) then validate_runners c else Ok tt.

(** ** The whole configuration *)

Definition validate_public_origin (u : Url) : result ConfigError unit :=
  reject_if (negb (scheme_is "https" u) || is_none (host_str u) || host_ends_with_dot u || has_credentials u
             || negb (path_is "/" u) || has_query_or_fragment u) "public_origin must be a bare https origin".

Definition validate_tenant (t : TenantConfig) : result ConfigError unit :=
  let? _ := reject_if (is_empty (TenantConfig_slug t) || (63 <? str_len (TenantConfig_slug t))
                       || negb (forallb lower_digit_hyphen (as_bytes (TenantConfig_slug t))))
              "tenant slug must be lowercase ASCII" in
  reject_if (len (TenantConfig_administrator t) =? 0) "at least one exact administrator subject is required".

Definition validate_oidc (o : OidcConfig) : result ConfigError unit :=
  let? _ := reject_if (negb (scheme_is "https" (OidcConfig_issuer o)) && negb (OidcConfig_development_allow_insecure o))
              "OIDC issuer must use https" in
  let? _ := reject_if (is_some_and (OidcConfig_egress_proxy_url o) (fun proxy =>
                         negb (http_or_https proxy) || is_none (host_str proxy) || is_none (url_port proxy) || has_credentials proxy
                         || negb (path_is "/" proxy) || has_query_or_fragment proxy))
              "OIDC egress proxy must be a credential-free HTTP(S) origin with a port" in
  reject_if (negb (String.eqb (OidcConfig_callback_path o) "/api/v1/auth/callback")) "OIDC callback path is not allowlisted".

Definition validate_paths (c : Config) : result ConfigError unit :=
  reject_if (not_absolute (DatabaseConfig_url_file (Config_database c)) || not_absolute (OidcConfig_client_secret_file (Config_oidc c))
             || not_absolute (StorageConfig_root (Config_storage c)) || not_absolute (KeyConfig_digest_key_file (Config_keys c))
             || present_and_relative (OidcConfig_custom_ca_file (Config_oidc c))
             || present_and_relative (TelemetryConfig_otlp_custom_ca_file (Config_telemetry c))
             || existsb (fun '(_, path) => not_absolute path) (TelemetryConfig_otlp_header_files (Config_telemetry c)))
    "secret and storage paths must be absolute".

(** The addresses of the enabled listeners, each with whether it is enabled. *)
Definition enabled_listeners (c : Config) : list (bool * SocketAddr) :=
  let l := Config_listeners c in
  let mcp := McpConfig_enabled (Config_mcp c) in
  let runners := McpRunnerConfig_enabled (McpConfig_runners (Config_mcp c)) in
  let collaboration := CollaborationConfig_enabled (Config_collaboration c) in
  let webtransport := CollaborationConfig_webtransport_enabled (Config_collaboration c) in
  let documents := DocumentConfig_enabled (Config_documents c) in
  let mounts := mount_any_protocol_enabled (Config_mounts c) in
  [(true, ListenerConfig_api l); (true, ListenerConfig_io l); (true, ListenerConfig_operations l);
   (mcp, ListenerConfig_mcp_broker l); (runners, ListenerConfig_mcp_runner_relay l); (runners, ListenerConfig_controller l);
   (collaboration, ListenerConfig_collaboration_ws l); (collaboration && webtransport, ListenerConfig_collaboration_webtransport l);
   (documents, ListenerConfig_document l); (documents, ListenerConfig_document_adapter l);
   (RevisionConfig_enabled (Config_revisions c), ListenerConfig_revision l);
   (mounts, ListenerConfig_vfs l); (mounts, ListenerConfig_vfs_management l)].

Definition validate_listeners (c : Config) : result ConfigError unit :=
  reject_if (negb (ListenerConfig_allow_container_wildcard (Config_listeners c))
             && existsb (fun '(enabled, a) => enabled && unspecified a) (enabled_listeners c))
    "backend wildcard listeners require allow_container_wildcard".

Definition effective_trace_sample_ratio (t : TelemetryConfig) : f64 :=
  match TelemetryConfig_trace_sample_ratio t with
  | Some ratio => ratio
  | None => if is_some (TelemetryConfig_otlp_http_endpoint t) then f64_tenth else f64_zero
  end.

Definition validate_telemetry (t : TelemetryConfig) : result ConfigError unit :=
  let sample_ratio := effective_trace_sample_ratio t in
  let? _ := reject_if (negb (is_finite sample_ratio) || negb (f64_in_range f64_zero f64_one sample_ratio))
              "trace sample ratio must be from 0 through 1" in
  let? _ := reject_if (is_some_and (TelemetryConfig_otlp_http_endpoint t) (fun endpoint =>
                         negb (http_or_https endpoint) || is_none (host_str endpoint) || negb (path_is "/v1/traces" endpoint)
                         || has_query_or_fragment endpoint)) "OTLP endpoint must be an HTTP(S) /v1/traces URL" in
  try_each (fun '(header, _) =>
    reject_if (is_empty header || negb (forallb (fun b => is_ascii_alphanumeric b || byte_is "-" b) (as_bytes header)))
      "OTLP header name is invalid") (TelemetryConfig_otlp_header_files t).

Definition validate_deployment (c : Config) : result ConfigError unit :=
  reject_if (mode_is_kubernetes (DeploymentConfig_mode (Config_deployment c))
             && (OidcConfig_development_allow_insecure (Config_oidc c) || negb (scheme_is "https" (OidcConfig_issuer (Config_oidc c)))
                 || is_none (OidcConfig_egress_proxy_url (Config_oidc c)) || is_none (Config_backend_tls c)
                 || negb (bool_decide (TelemetryConfig_log_format (Config_telemetry c) = Json))
                 || negb (TelemetryConfig_prometheus_enabled (Config_telemetry c))))
    "Kubernetes mode requires HTTPS OIDC through an egress proxy, backend mTLS, JSON logs, and Prometheus metrics".

(** A purpose whose signing key must be present exactly when its feature is enabled. *)
Definition validate_optional_key (key : option SigningKeyConfig) (enabled : bool) (purpose message : string) : result ConfigError unit :=
  match key, enabled with
  | Some key, true => validate_signing_key key purpose
  | None, true | Some _, false => Err (invalid message)
  | None, false => Ok tt
  end.

Definition validate_keys (c : Config) : result ConfigError unit :=
  let k := Config_keys c in
  let? _ := validate_signing_key (KeyConfig_api_storage k) "API storage" in
  let? _ := reject_if (KeyConfig_digest_key_generation k =? 0) "digest key generation must be positive" in
  let? _ := validate_optional_key (KeyConfig_api_collaboration_grant k) (CollaborationConfig_enabled (Config_collaboration c))
              "API collaboration grant"
              "API collaboration-grant signing must be present exactly when collaboration is enabled" in
  let? _ := validate_optional_key (KeyConfig_api_mcp_delegation k) (McpConfig_enabled (Config_mcp c)) "API MCP delegation"
              "API MCP-delegation signing must be present exactly when MCP is enabled" in
  validate_signing_key_topology c.

Definition validate (c : Config) : result ConfigError unit :=
  let? _ := reject_if (negb (Config_version c =? CONFIG_VERSION)) "unsupported config version" in
  let? _ := validate_public_origin (Config_public_origin c) in
  let? _ := validate_tenant (Config_tenant c) in
  let? _ := validate_oidc (Config_oidc c) in
  let? _ := validate_paths c in
  let? _ := validate_listeners c in
  let? _ := match Config_backend_tls c with Some tls => validate_tls tls | None => Ok tt end in
  let? _ := validate_telemetry (Config_telemetry c) in
  let? _ := validate_deployment c in
  let? _ := validate_limits (Config_limits c) in
  let? _ := validate_keys c in
  let? _ := reject_if (is_some_and (Config_iggy c) (fun iggy =>
                         negb (String.eqb (IggyConfig_stream iggy) "filebelt") || negb (IggyConfig_partitions iggy =? 16)))
              "Phase 2 Iggy topology is one filebelt stream with 16 partitions" in
  let? _ := validate_mcp c in
  let? _ := validate_collaboration c in
  let? _ := validate_documents c in
  let? _ := validate_revisions c in
  let? _ := validate_media c in
  validate_mounts c.

(** ** Loading *)

Definition set_public_origin (c : Config) (u : Url) : Config :=
  mkConfig (Config_version c) (Config_deployment c) u (Config_tenant c) (Config_database c) (Config_oidc c) (Config_storage c)
    (Config_keys c) (Config_backend_tls c) (Config_telemetry c) (Config_listeners c) (Config_limits c) (Config_iggy c) (Config_mcp c)
    (Config_collaboration c) (Config_documents c) (Config_revisions c) (Config_media c) (Config_mounts c).
Definition set_database (c : Config) (d : DatabaseConfig) : Config :=
  mkConfig (Config_version c) (Config_deployment c) (Config_public_origin c) (Config_tenant c) d (Config_oidc c) (Config_storage c)
    (Config_keys c) (Config_backend_tls c) (Config_telemetry c) (Config_listeners c) (Config_limits c) (Config_iggy c) (Config_mcp c)
    (Config_collaboration c) (Config_documents c) (Config_revisions c) (Config_media c) (Config_mounts c).
Definition set_storage (c : Config) (s : StorageConfig) : Config :=
  mkConfig (Config_version c) (Config_deployment c) (Config_public_origin c) (Config_tenant c) (Config_database c) (Config_oidc c) s
    (Config_keys c) (Config_backend_tls c) (Config_telemetry c) (Config_listeners c) (Config_limits c) (Config_iggy c) (Config_mcp c)
    (Config_collaboration c) (Config_documents c) (Config_revisions c) (Config_media c) (Config_mounts c).

(** [std::env::var] is the argument [env]. *)
Definition apply_environment (env : string -> option string) (c : Config) : result ConfigError Config :=
  let? c := match env "FILEBELT_PUBLIC_ORIGIN" with
            | Some value => let? u := ok_or (invalid "FILEBELT_PUBLIC_ORIGIN is invalid") (url_parse value) in Ok (set_public_origin c u)
            | None => Ok c
            end in
  let c := match env "FILEBELT_DATABASE_URL_FILE" with
           | Some value => set_database c (mkDatabaseConfig value (DatabaseConfig_max_connections (Config_database c)))
           | None => c
           end in
  Ok (match env "FILEBELT_STORAGE_ROOT" with
      | Some value => set_storage c (mkStorageConfig value (StorageConfig_backend_id (Config_storage c)))
      | None => c
      end).

(** The file and the TOML decoder are the arguments [source] and [from_str]. *)
Definition load (source : option string) (from_str : string -> option Config) (env : string -> option string) : result ConfigError Config :=
  let? source := ok_or Io source in
  let? c := ok_or Parse (from_str source) in
  let? c := apply_environment env c in
  let? _ := validate c in
  Ok c.

(** ** Secret files *)

(** [while bytes.last().is_some_and(..) { bytes.pop(); }] on the reversed bytes. *)
Fixpoint drop_whitespace (reversed : bytes) : bytes :=
  match reversed with b :: rest => if is_ascii_whitespace b then drop_whitespace rest else reversed | [] => [] end.
Definition read_secret (file : option bytes) : result ConfigError bytes :=
  let? contents := ok_or Io file in
  let trimmed := rev (drop_whitespace (rev contents)) in
  let? _ := reject_if (len trimmed =? 0) "secret file is empty" in
  Ok trimmed.
Definition read_secret_string (file : option bytes) : result ConfigError string :=
  let? contents := read_secret file in
  if utf8_valid contents then Ok (str_of_bytes contents) else Err (invalid "secret file is not UTF-8").
End configuration.
