(* ===== verification/RateLimit.v ===== *)
(** Model of [source/apps/filebelt-collaboration/src/rate_limit.rs]: one-second
    admission windows per client and per room. An [Instant] is a number of
    nanoseconds, the release build's [+=] wraps at 64 bits, and the client maps
    are finite maps. *)
From S2P Require Import Prelude Libraries Frames Net Web ConfigTypes.

Inductive AdmissionKind := Update | Awareness.
#[export] Instance AdmissionKind_eq_dec : EqDecision AdmissionKind.
Proof. solve_decision. Defined.
Inductive RateAdmission := RateAdmitted | ClientLimited | RoomLimited.

Record Window := mkWindow { started : Z; events : Z; window_bytes : Z }.
Definition Window_new (now : Z) : Window := mkWindow now 0 0.

Definition SECOND : Z := 1000000000.
(** [Instant::duration_since] saturates at zero. *)
Definition duration_since (now earlier : Z) : Z := Z.max 0 (now - earlier).

Definition reset_if_elapsed (w : Window) (now : Z) : Window :=
  if SECOND <=? duration_since now (started w) then Window_new now else w.

Definition wrapping_add_u64 (a b : Z) : Z := (a + b) mod (u64_max + 1).

Record RateLimiter := mkLimiter {
  limits : CollaborationLimitConfig;
  room_updates : Window;
  room_awareness : Window;
  client_updates : gmap N Window;
  client_awareness : gmap N Window
}.

Definition RateLimiter_new (l : CollaborationLimitConfig) (now : Z) : RateLimiter :=
  mkLimiter l (Window_new now) (Window_new now) ∅ ∅.

(** The limits of one kind, as the match of [limiter_admit] selects them. *)
Record KindLimits := mkKindLimits {
  kl_client_events : Z;
  kl_client_bytes : Z;
  kl_room_events : Z;
  kl_room_bytes : Z
}.
Definition kind_limits (l : CollaborationLimitConfig) (k : AdmissionKind) : KindLimits :=
  match k with
  | Update => mkKindLimits (CollaborationLimitConfig_client_updates_per_second l) (CollaborationLimitConfig_client_bytes_per_second l)
                (CollaborationLimitConfig_room_updates_per_second l) (CollaborationLimitConfig_room_bytes_per_second l)
  | Awareness => mkKindLimits (CollaborationLimitConfig_client_awareness_per_second l) (CollaborationLimitConfig_max_awareness_bytes l)
                   (CollaborationLimitConfig_room_awareness_per_second l)
                   (saturating_mul_u64 (CollaborationLimitConfig_max_awareness_bytes l) (CollaborationLimitConfig_room_awareness_per_second l))
  end.

Definition room_of (r : RateLimiter) (k : AdmissionKind) : Window :=
  match k with Update => room_updates r | Awareness => room_awareness r end.
Definition clients_of (r : RateLimiter) (k : AdmissionKind) : gmap N Window :=
  match k with Update => client_updates r | Awareness => client_awareness r end.
Definition with_kind (r : RateLimiter) (k : AdmissionKind) (room : Window) (clients : gmap N Window)
  : RateLimiter :=
  match k with
  | Update => mkLimiter (limits r) room (room_awareness r) clients (client_awareness r)
  | Awareness => mkLimiter (limits r) (room_updates r) room (client_updates r) clients
  end.

(** [saturating_add(1) > events || saturating_add(bytes) > bytes_limit] *)
Definition window_exceeds (w : Window) (bytes_ max_events max_bytes : Z) : bool :=
  (max_events <? saturating_add_u64 (events w) 1)
  || (max_bytes <? saturating_add_u64 (window_bytes w) bytes_).

Definition window_count (w : Window) (bytes_ : Z) : Window :=
  mkWindow (started w) (wrapping_add_u64 (events w) 1) (wrapping_add_u64 (window_bytes w) bytes_).

Definition limiter_admit (r : RateLimiter) (client_id : N) (k : AdmissionKind) (bytes_ now : Z)
  : RateLimiter * RateAdmission :=
  let lim := kind_limits (limits r) k in
  let client := reset_if_elapsed (default (Window_new now) (clients_of r k !! client_id)) now in
  let room := reset_if_elapsed (room_of r k) now in
  if window_exceeds client bytes_ (kl_client_events lim) (kl_client_bytes lim) then
    (with_kind r k room (<[client_id := client]> (clients_of r k)), ClientLimited)
  else if window_exceeds room bytes_ (kl_room_events lim) (kl_room_bytes lim) then
    (with_kind r k room (<[client_id := client]> (clients_of r k)), RoomLimited)
  else
    (with_kind r k (window_count room bytes_)
       (<[client_id := window_count client bytes_]> (clients_of r k)), RateAdmitted).

Definition remove_client (r : RateLimiter) (client_id : N) : RateLimiter :=
  mkLimiter (limits r) (room_updates r) (room_awareness r)
    (delete client_id (client_updates r)) (delete client_id (client_awareness r)).

(** ** Traces *)

Inductive request := RAdmit (client : N) (k : AdmissionKind) (bytes_ now : Z) | RRemove (client : N).

(** What was admitted: the kind, the client, the size, the time, and the start
    of the room window that counted it. *)
Record admission := mkAdmitted {
  ad_kind : AdmissionKind; ad_client : N; ad_bytes : Z; ad_time : Z; ad_window : Z
}.

Definition step (st : RateLimiter * list admission) (q : request) : RateLimiter * list admission :=
  match q with
  | RRemove c => (remove_client st.1 c, st.2)
  | RAdmit c k b now =>
      let '(r', d) := limiter_admit st.1 c k b now in
      match d with
      | RateAdmitted => (r', mkAdmitted k c b now (started (room_of r' k)) :: st.2)
      | _ => (r', st.2)
      end
  end.
Definition run (r : RateLimiter) (qs : list request) : RateLimiter * list admission :=
  fold_left step qs (r, []).

(** ** Live rooms *)

(** Each replica that serves a document keeps a live room with a limiter of its own, which
    [load_room] creates and [leave_room] drops with the last client; a client that comes back
    finds a new one.  The live rooms of a document, with what each of them has admitted. *)
Record Fleet := mkFleet { fl_rooms : gmap nat RateLimiter; fl_log : list (nat * admission) }.

(** a room is loaded, or serves a request; one that was dropped serves no more *)
Inductive fleet_event := Load (room : nat) (now : Z) | On (room : nat) (q : request).

Definition fleet_step (l : CollaborationLimitConfig) (st : Fleet) (e : fleet_event) : Fleet :=
  match e with
  | Load i now => match fl_rooms st !! i with Some _ => st | None => mkFleet (<[i := RateLimiter_new l now]> (fl_rooms st)) (fl_log st) end
  | On i q => match fl_rooms st !! i with
              | Some r => let '(r', admitted) := step (r, []) q in mkFleet (<[i := r']> (fl_rooms st)) (map (pair i) admitted ++ fl_log st)
              | None => st
              end
  end.
Definition fleet_run (l : CollaborationLimitConfig) (es : list fleet_event) : Fleet := fold_left (fleet_step l) es (mkFleet ∅ []).

(** the start of a room and its requests, among the events of all of them *)
Definition track (i : nat) (acc : option (Z * list request)) (e : fleet_event) : option (Z * list request) :=
  match acc, e with
  | None, Load j now => if decide (j = i) then Some (now, []) else None
  | Some (now, qs), On j q => if decide (j = i) then Some (now, qs ++ [q]) else acc
  | _, _ => acc
  end.
Definition room_events (i : nat) (es : list fleet_event) : option (Z * list request) := fold_left (track i) es None.

(** what one of the rooms has admitted *)
Definition log_of (i : nat) (log : list (nat * admission)) : list admission := map snd (filter (fun x => x.1 = i) log).

(** Requests arrive in the order of a monotonic clock. *)
Fixpoint clock_ordered (now : Z) (qs : list request) : Prop :=
  match qs with
  | [] => True
  | RRemove _ :: qs' => clock_ordered now qs'
  | RAdmit _ _ b t :: qs' => now <= t /\ is_u64 b /\ clock_ordered t qs'
  end.

Definition fleet_ordered (es : list fleet_event) : Prop := forall i now qs, room_events i es = Some (now, qs) -> clock_ordered now qs.

Definition config_wf (l : CollaborationLimitConfig) : Prop :=
  forall k, let lim := kind_limits l k in
    0 <= kl_client_events lim < u64_max /\ 0 <= kl_client_bytes lim < u64_max /\
    0 <= kl_room_events lim < u64_max /\ 0 <= kl_room_bytes lim < u64_max.

Definition total (f : admission -> bool) (l : list admission) : Z :=
  fold_right (fun a acc => (if f a then ad_bytes a else 0) + acc) 0 l.
Definition count (f : admission -> bool) (l : list admission) : Z :=
  fold_right (fun a acc => (if f a then 1 else 0) + acc) 0 l.

Definition in_window (k : AdmissionKind) (s : Z) (a : admission) : bool :=
  bool_decide (ad_kind a = k) && (ad_window a =? s).
Definition in_second (k : AdmissionKind) (t : Z) (a : admission) : bool :=
  bool_decide (ad_kind a = k) && (t <=? ad_time a) && (ad_time a <? t + SECOND).

(** the rooms that admitted something in a second *)
Definition active_rooms (k : AdmissionKind) (t : Z) (log : list (nat * admission)) : list nat := remove_dups (map fst (filter (fun x => in_second k t x.2 = true) log)).

(** ** Window lemmas *)

Definition window_ok (w : Window) (max_events max_bytes : Z) : Prop :=
  0 <= events w <= max_events /\ 0 <= window_bytes w <= max_bytes.

Lemma reset_ok w now me mb :
  0 <= me -> 0 <= mb -> window_ok w me mb -> window_ok (reset_if_elapsed w now) me mb.
Proof.
  intros Hme Hmb Hw. unfold reset_if_elapsed. case_match; [|done]. unfold window_ok. simpl. lia.
Qed.

Lemma count_ok w b me mb :
  me < u64_max -> mb < u64_max -> is_u64 b -> window_ok w me mb -> window_exceeds w b me mb = false ->
  window_ok (window_count w b) me mb /\ events (window_count w b) = events w + 1 /\
  window_bytes (window_count w b) = window_bytes w + b.
Proof.
  intros Hme Hmb Hb [He Hwb] Hx. unfold window_exceeds, saturating_add_u64 in Hx.
  rewrite orb_false_iff, !Z.ltb_ge in Hx. destruct Hx as [Hx1 Hx2]. unfold is_u64 in Hb.
  unfold window_count, window_ok, wrapping_add_u64. cbn [events window_bytes].
  rewrite !Z.mod_small by lia. lia.
Qed.

Record limiter_inv (r : RateLimiter) : Prop := {
  li_room : forall k, let lim := kind_limits (limits r) k in
    window_ok (room_of r k) (kl_room_events lim) (kl_room_bytes lim);
  li_clients : forall k c w, clients_of r k !! c = Some w ->
    let lim := kind_limits (limits r) k in window_ok w (kl_client_events lim) (kl_client_bytes lim)
}.

Lemma with_kind_get r k k' room clients :
  limits (with_kind r k room clients) = limits r /\
  room_of (with_kind r k room clients) k' = (if decide (k' = k) then room else room_of r k') /\
  clients_of (with_kind r k room clients) k' = (if decide (k' = k) then clients else clients_of r k').
Proof. destruct k, k'; simpl; done. Qed.

Lemma with_kind_inv r k room clients :
  let lim := kind_limits (limits r) k in
  limiter_inv r -> window_ok room (kl_room_events lim) (kl_room_bytes lim) ->
  (forall c w, clients !! c = Some w -> window_ok w (kl_client_events lim) (kl_client_bytes lim)) ->
  limiter_inv (with_kind r k room clients).
Proof.
  intros lim [Hr Hc] Hroom Hcl. split.
  - intros k'. destruct (with_kind_get r k k' room clients) as (-> & -> & _).
    case_decide; subst; [done|apply Hr].
  - intros k' c w. destruct (with_kind_get r k k' room clients) as (-> & _ & ->).
    case_decide; subst; [apply Hcl|apply Hc].
Qed.

(** The windows [limiter_admit] works on satisfy the limits before it counts. *)
Lemma admit_windows r c k now :
  config_wf (limits r) -> limiter_inv r ->
  let lim := kind_limits (limits r) k in
  window_ok (reset_if_elapsed (default (Window_new now) (clients_of r k !! c)) now)
    (kl_client_events lim) (kl_client_bytes lim) /\
  window_ok (reset_if_elapsed (room_of r k) now) (kl_room_events lim) (kl_room_bytes lim).
Proof.
  intros Hcfg [Hr Hc] lim. destruct (Hcfg k) as (H1 & H2 & H3 & H4). fold lim in H1, H2, H3, H4.
  split; apply reset_ok; try lia; [|apply Hr].
  destruct (clients_of r k !! c) as [w|] eqn:Hw; simpl; [by eapply Hc|].
  unfold window_ok. simpl. lia.
Qed.

Lemma admit_inv r c k b now :
  config_wf (limits r) -> is_u64 b -> limiter_inv r -> limiter_inv (limiter_admit r c k b now).1.
Proof.
  intros Hcfg Hb Hinv. destruct (admit_windows r c k now Hcfg Hinv) as [Hw Hroom].
  destruct (Hcfg k) as (H1 & H2 & H3 & H4). unfold limiter_admit. cbv zeta.
  assert (forall w' c' w, window_ok w' (kl_client_events (kind_limits (limits r) k))
     (kl_client_bytes (kind_limits (limits r) k)) ->
     <[c := w']> (clients_of r k) !! c' = Some w ->
     window_ok w (kl_client_events (kind_limits (limits r) k)) (kl_client_bytes (kind_limits (limits r) k)))
    as Hins.
  { intros w' c' w Hw' Hget. apply lookup_insert_Some in Hget as [[_ <-]|[_ Hget]]; [done|].
    by eapply Hinv. }
  case_match eqn:Hx1; [|case_match eqn:Hx2]; simpl; apply with_kind_inv; try done; eauto.
  - eapply count_ok; try done; lia.
  - intros c' w. apply Hins. eapply count_ok; try done; lia.
Qed.

Lemma remove_inv r c : limiter_inv r -> limiter_inv (remove_client r c).
Proof.
  intros [Hr Hc]. split; [intros []; [apply (Hr Update)|apply (Hr Awareness)]|]. intros k c' w Hw.
  apply (Hc k c' w). destruct k; simpl in Hw |- *; by apply lookup_delete_Some in Hw as [_ ?].
Qed.

Lemma admit_limits r c k b now : limits (limiter_admit r c k b now).1 = limits r.
Proof. unfold limiter_admit. cbv zeta. repeat case_match; simpl; apply with_kind_get; exact k. Qed.

(** ** Accounting *)

(** The log of admissions agrees with the room windows of every kind [k]. *)
Record log_inv (k : AdmissionKind) (now : Z) (r : RateLimiter) (l : list admission) : Prop := {
  lo_now : started (room_of r k) <= now;
  lo_entry : forall a, a ∈ l -> ad_kind a = k ->
    ad_window a <= ad_time a < ad_window a + SECOND /\ 0 <= ad_bytes a;
  lo_window : forall a, a ∈ l -> ad_kind a = k ->
    ad_window a = started (room_of r k) \/ ad_window a + SECOND <= started (room_of r k);
  lo_apart : forall a b, a ∈ l -> b ∈ l -> ad_kind a = k -> ad_kind b = k -> ad_window a < ad_window b ->
    ad_window a + SECOND <= ad_window b;
  lo_bytes : total (in_window k (started (room_of r k))) l = window_bytes (room_of r k);
  lo_events : count (in_window k (started (room_of r k))) l = events (room_of r k);
  lo_bound : forall s, total (in_window k s) l <= kl_room_bytes (kind_limits (limits r) k) /\
    count (in_window k s) l <= kl_room_events (kind_limits (limits r) k)
}.

Lemma total_none f l : (forall a, a ∈ l -> f a = false) -> total f l = 0 /\ count f l = 0.
Proof.
  induction l as [|a l IH]; intros Hf; [done|]. simpl. rewrite Hf by left.
  destruct IH as [-> ->]; [|done]. intros b Hb. apply Hf. by right.
Qed.

(** Starting a new room window, or keeping the current one, keeps the log in order. *)
Lemma log_reset k now r l room :
  log_inv k now r l -> started room = now -> events room = 0 -> window_bytes room = 0 ->
  started (room_of r k) + SECOND <= now ->
  0 <= kl_room_bytes (kind_limits (limits r) k) -> 0 <= kl_room_events (kind_limits (limits r) k) ->
  forall clients, log_inv k now (with_kind r k room clients) l.
Proof.
  intros [Hn He Hw Ha Hb Hv Hbd] Hs H0 H1 Hel Hp1 Hp2 clients.
  destruct (with_kind_get r k k room clients) as (Hl & Hr & _). rewrite decide_True in Hr by done.
  split; rewrite ?Hr, ?Hl; try done; try lia.
  - intros a Hin Hk. right. destruct (Hw a Hin Hk); lia.
  - rewrite H1. apply total_none. intros a Hin. unfold in_window. apply andb_false_iff.
    destruct (decide (ad_kind a = k)) as [Hk|Hk]; [right|left; by apply bool_decide_eq_false].
    apply Z.eqb_neq. destruct (Hw a Hin Hk); unfold SECOND in *; lia.
  - rewrite H0. apply total_none. intros a Hin. unfold in_window. apply andb_false_iff.
    destruct (decide (ad_kind a = k)) as [Hk|Hk]; [right|left; by apply bool_decide_eq_false].
    apply Z.eqb_neq. destruct (Hw a Hin Hk); unfold SECOND in *; lia.
Qed.

Lemma log_same k now now' r r' l :
  log_inv k now r l -> now <= now' -> room_of r' k = room_of r k -> limits r' = limits r ->
  log_inv k now' r' l.
Proof. intros [Hn He Hw Ha Hb Hv Hbd] Hle Hroom Hlim. split; rewrite ?Hroom, ?Hlim; try done. lia. Qed.

Lemma log_clock k now now' r l : log_inv k now r l -> now <= now' -> log_inv k now' r l.
Proof. intros H Hle. by eapply log_same. Qed.

(** The room window [limiter_admit] uses at [now]. *)
Lemma log_room k now r l :
  log_inv k now r l ->
  0 <= kl_room_bytes (kind_limits (limits r) k) -> 0 <= kl_room_events (kind_limits (limits r) k) ->
  forall clients, log_inv k now (with_kind r k (reset_if_elapsed (room_of r k) now) clients) l /\
    now < started (reset_if_elapsed (room_of r k) now) + SECOND.
Proof.
  intros Hinv H1 H2 clients. unfold reset_if_elapsed, duration_since.
  destruct (with_kind_get r k k (room_of r k) clients) as (Hl & Hr & _). rewrite decide_True in Hr by done.
  pose proof (lo_now _ _ _ _ Hinv).
  destruct (Z.leb_spec SECOND (Z.max 0 (now - started (room_of r k)))); unfold SECOND in *.
  - split; [|simpl; lia]. apply log_reset; try done. unfold SECOND. lia.
  - split; [|lia]. eapply log_same; [exact Hinv|lia|done|done].
Qed.

Lemma log_other k k' now r l room clients :
  k' <> k -> log_inv k' now r l -> log_inv k' now (with_kind r k room clients) l.
Proof.
  intros Hne Hinv. destruct (with_kind_get r k k' room clients) as (Hl & Hr & _).
  rewrite decide_False in Hr by done. eapply log_same; [exact Hinv|lia|done|done].
Qed.

Lemma log_push_other k now r l a : ad_kind a <> k -> log_inv k now r l -> log_inv k now r (a :: l).
Proof.
  intros Hne [Hn He Hw Ha Hb Hv Hbd].
  assert (forall s, in_window k s a = false) as Hf.
  { intros s. unfold in_window. by rewrite bool_decide_eq_false_2. }
  split; try done.
  - intros b [->|Hb']%elem_of_cons Hk; [done|by apply He].
  - intros b [->|Hb']%elem_of_cons Hk; [done|by apply Hw].
  - intros b c [->|Hb']%elem_of_cons [->|Hc']%elem_of_cons Hk Hk'; try done. by apply Ha.
  - simpl. rewrite Hf. lia.
  - simpl. rewrite Hf. lia.
  - intros s. simpl. rewrite Hf. specialize (Hbd s). lia.
Qed.

Lemma log_push k now r l room clients c b :
  log_inv k now (with_kind r k room clients) l -> is_u64 b -> now < started room + SECOND ->
  window_ok room (kl_room_events (kind_limits (limits r) k)) (kl_room_bytes (kind_limits (limits r) k)) ->
  kl_room_events (kind_limits (limits r) k) < u64_max -> kl_room_bytes (kind_limits (limits r) k) < u64_max ->
  window_exceeds room b (kl_room_events (kind_limits (limits r) k)) (kl_room_bytes (kind_limits (limits r) k))
    = false ->
  forall clients',
  log_inv k now (with_kind r k (window_count room b) clients') (mkAdmitted k c b now (started room) :: l).
Proof.
  intros [Hn He Hw Ha Hb Hv Hbd] Hu Hlt Hok Hm1 Hm2 Hx clients'.
  destruct (with_kind_get r k k room clients) as (Hl & Hr & _). rewrite decide_True in Hr by done.
  destruct (with_kind_get r k k (window_count room b) clients') as (Hl' & Hr' & _).
  rewrite decide_True in Hr' by done. rewrite Hr in *. rewrite Hl in Hbd.
  destruct (count_ok _ _ _ _ Hm1 Hm2 Hu Hok Hx) as ([Hok1 Hok2] & Hc1 & Hc2). unfold is_u64 in Hu.
  assert (forall s, in_window k s (mkAdmitted k c b now (started room)) = (started room =? s)) as Hf.
  { intros s. unfold in_window. simpl. by rewrite bool_decide_eq_true_2. }
  split; rewrite ?Hr', ?Hl'; cbn [window_count started].
  - done.
  - intros a [->|Hin]%elem_of_cons Hk; [simpl; lia|by apply He].
  - intros a [->|Hin]%elem_of_cons Hk; [by left|by apply Hw].
  - intros a a' [->|Hin]%elem_of_cons [->|Hin']%elem_of_cons Hk Hk' Hlt'; simpl in *; [lia| | |].
    + destruct (Hw a' Hin' Hk'); unfold SECOND in *; lia.
    + destruct (Hw a Hin Hk); lia.
    + by apply Ha.
  - simpl. rewrite Hf, Z.eqb_refl, Hb. cbn [window_bytes window_count] in Hc2. lia.
  - simpl. rewrite Hf, Z.eqb_refl, Hv. cbn [events window_count] in Hc1. lia.
  - intros s. simpl. rewrite Hf. destruct (Z.eqb_spec (started room) s) as [<-|]; [|apply Hbd].
    rewrite Hb, Hv. lia.
Qed.

Lemma admit_log r c k b now l k' :
  config_wf (limits r) -> is_u64 b -> limiter_inv r -> log_inv k' now r l ->
  let st := step (r, l) (RAdmit c k b now) in log_inv k' now st.1 st.2.
Proof.
  intros Hcfg Hb Hinv Hlog. unfold step. cbn [fst snd].
  destruct (admit_windows r c k now Hcfg Hinv) as [_ Hroom].
  destruct (Hcfg k) as (_ & _ & H3 & H4). unfold limiter_admit. cbv zeta.
  set (lim := kind_limits (limits r) k) in *.
  destruct (decide (k' = k)) as [->|Hne].
  - destruct (log_room k now r l Hlog ltac:(subst lim; lia) ltac:(subst lim; lia) ∅) as [_ Hlt].
    pose proof (fun cl => proj1 (log_room k now r l Hlog ltac:(subst lim; lia) ltac:(subst lim; lia) cl)) as Hr.
    destruct (window_exceeds _ _ (kl_client_events lim) _) eqn:Hx1; [apply Hr|].
    destruct (window_exceeds _ _ (kl_room_events lim) _) eqn:Hx2; [apply Hr|].
    cbn [fst snd]. destruct (with_kind_get r k k (window_count (reset_if_elapsed (room_of r k) now) b)
      (<[c:=window_count (reset_if_elapsed (default (Window_new now) (clients_of r k !! c)) now) b]>
         (clients_of r k))) as (_ & Hst & _). rewrite decide_True in Hst by done. rewrite Hst.
    change (started (window_count (reset_if_elapsed (room_of r k) now) b))
      with (started (reset_if_elapsed (room_of r k) now)).
    refine (log_push k now r l _ ∅ c b (Hr ∅) Hb Hlt Hroom _ _ Hx2 _); subst lim; lia.
  - destruct (window_exceeds _ _ (kl_client_events lim) _) eqn:Hx1; [by apply log_other|].
    destruct (window_exceeds _ _ (kl_room_events lim) _) eqn:Hx2; [by apply log_other|].
    cbn [fst snd]. apply log_push_other; [done|]. by apply log_other.
Qed.

Lemma step_admit r l c k b now : (step (r, l) (RAdmit c k b now)).1 = (limiter_admit r c k b now).1.
Proof. unfold step. cbn [fst snd]. by destruct (limiter_admit r c k b now) as [r' []]. Qed.

Lemma run_inv qs r l now :
  config_wf (limits r) -> clock_ordered now qs -> limiter_inv r -> (forall k, log_inv k now r l) ->
  let st := fold_left step qs (r, l) in
  limits st.1 = limits r /\ limiter_inv st.1 /\ exists now', forall k, log_inv k now' st.1 st.2.
Proof.
  revert r l now. induction qs as [|q qs IH]; intros r l now Hcfg Hord Hinv Hlog; cbn [fold_left].
  { split; [done|]. eauto. }
  destruct q as [c k b t|c]; cbn [clock_ordered] in Hord.
  - destruct Hord as (Hle & Hb & Hord).
    pose proof (fun k' => admit_log r c k b t l k' Hcfg Hb Hinv (log_clock k' now t r l (Hlog k') Hle)) as Hlog'.
    pose proof (admit_inv r c k b t Hcfg Hb Hinv) as Hinv'. pose proof (admit_limits r c k b t) as Hlim.
    rewrite <-(step_admit r l) in Hinv', Hlim.
    destruct (step (r, l) (RAdmit c k b t)) as [r' l']. cbn [fst snd] in *.
    rewrite <-Hlim. apply (IH r' l' t); rewrite ?Hlim; done.
  - change (step (r, l) (RRemove c)) with (remove_client r c, l).
    assert (limits (remove_client r c) = limits r) as Hlim by done.
    rewrite <-Hlim. apply (IH _ _ now); [done|done|by apply remove_inv|].
    intros k. eapply log_same; [apply Hlog|lia|by destruct k|done].
Qed.

Lemma new_inv l now k :
  config_wf l -> limiter_inv (RateLimiter_new l now) /\ log_inv k now (RateLimiter_new l now) [].
Proof.
  intros Hcfg. split; split.
  - intros k'. destruct (Hcfg k') as (H1 & H2 & H3 & H4).
    destruct k'; unfold window_ok; simpl in *; lia.
  - intros k' c w Hw. destruct k'; simpl in Hw; by rewrite lookup_empty in Hw.
  - destruct k; simpl; lia.
  - intros a Ha. by apply not_elem_of_nil in Ha.
  - intros a Ha. by apply not_elem_of_nil in Ha.
  - intros a b Ha. by apply not_elem_of_nil in Ha.
  - by destruct k.
  - by destruct k.
  - intros s. destruct (Hcfg k) as (_ & _ & H3 & H4). simpl. cbn in H3, H4. lia.
Qed.

(** A second of the clock meets at most two room windows. *)
Lemma second_two_windows k t (l : list admission) :
  (forall a, a ∈ l -> ad_kind a = k -> ad_window a <= ad_time a < ad_window a + SECOND /\ 0 <= ad_bytes a) ->
  (forall a b, a ∈ l -> b ∈ l -> ad_kind a = k -> ad_kind b = k -> ad_window a < ad_window b ->
     ad_window a + SECOND <= ad_window b) ->
  exists s1 s2, forall a, a ∈ l -> in_second k t a = true -> ad_window a = s1 \/ ad_window a = s2.
Proof.
  intros Hent Hap.
  destruct (decide (Exists (fun a => in_second k t a = true) l)) as [Hex|Hno].
  2: { exists 0, 0. intros a Ha Hs. destruct Hno. apply Exists_exists. eauto. }
  apply Exists_exists in Hex as (a1 & Ha1 & Hs1).
  destruct (decide (Exists (fun a => in_second k t a = true /\ ad_window a <> ad_window a1) l)) as [Hex|Hno].
  2: { exists (ad_window a1), 0. intros a Ha Hs. left.
       destruct (Z.eq_dec (ad_window a) (ad_window a1)); [done|]. destruct Hno. apply Exists_exists. eauto. }
  apply Exists_exists in Hex as (a2 & Ha2 & Hs2 & Hne).
  exists (ad_window a1), (ad_window a2). intros a Ha Hs.
  destruct (Z.eq_dec (ad_window a) (ad_window a1)); [by left|].
  destruct (Z.eq_dec (ad_window a) (ad_window a2)); [by right|]. exfalso.
  unfold in_second in *. rewrite !andb_true_iff, bool_decide_eq_true, Z.leb_le, Z.ltb_lt in *.
  destruct_and?. pose proof (Hent a ltac:(done) ltac:(done)). pose proof (Hent a1 ltac:(done) ltac:(done)).
  pose proof (Hent a2 ltac:(done) ltac:(done)).
  pose proof (Hap a a1 ltac:(done) ltac:(done) ltac:(done) ltac:(done)).
  pose proof (Hap a1 a ltac:(done) ltac:(done) ltac:(done) ltac:(done)).
  pose proof (Hap a a2 ltac:(done) ltac:(done) ltac:(done) ltac:(done)).
  pose proof (Hap a2 a ltac:(done) ltac:(done) ltac:(done) ltac:(done)).
  pose proof (Hap a1 a2 ltac:(done) ltac:(done) ltac:(done) ltac:(done)).
  pose proof (Hap a2 a1 ltac:(done) ltac:(done) ltac:(done) ltac:(done)).
  lia.
Qed.

Lemma total_cover f g h l :
  (forall a, a ∈ l -> f a = true -> g a = true \/ h a = true) ->
  (forall a, a ∈ l -> g a = true \/ h a = true -> 0 <= ad_bytes a) ->
  total f l <= total g l + total h l /\ count f l <= count g l + count h l.
Proof.
  induction l as [|a l IH]; intros Hc Hp; [done|]. simpl.
  destruct IH as [IH1 IH2]; [intros; apply Hc; [by right|done]|intros b Hb; apply Hp; by right|].
  pose proof (Hc a ltac:(left)) as H1. pose proof (Hp a ltac:(left)) as H2.
  destruct (f a), (g a), (h a); naive_solver lia.
Qed.

(** ** Properties *)

(** The counters never exceed the configured limits, and never wrap: after
    any history of admissions and departures every room and client window of
    either kind is within its event and byte limit. *)
Theorem rate_windows_bounded l now qs k c w :
  config_wf l -> clock_ordered now qs ->
  let r := (run (RateLimiter_new l now) qs).1 in
  let lim := kind_limits l k in
  window_ok (room_of r k) (kl_room_events lim) (kl_room_bytes lim) /\
  (clients_of r k !! c = Some w -> window_ok w (kl_client_events lim) (kl_client_bytes lim)).
Proof.
  intros Hcfg Hord r lim. subst r lim.
  destruct (run_inv qs (RateLimiter_new l now) [] now Hcfg Hord) as (Hlim & [Hr Hc] & _).
  - by apply (new_inv l now k).
  - intros k'. by apply new_inv.
  - cbn [limits RateLimiter_new] in Hlim. rewrite Hlim in Hr, Hc. split; [apply Hr|apply Hc].
Qed.

(** What one live room lets through. *)
Lemma life_bounded l now qs k t :
  config_wf l -> clock_ordered now qs ->
  let log := (run (RateLimiter_new l now) qs).2 in
  let lim := kind_limits l k in
  (forall s, total (in_window k s) log <= kl_room_bytes lim /\
             count (in_window k s) log <= kl_room_events lim) /\
  total (in_second k t) log <= 2 * kl_room_bytes lim /\
  count (in_second k t) log <= 2 * kl_room_events lim /\ (forall a, a ∈ log -> ad_kind a = k -> 0 <= ad_bytes a).
Proof.
  intros Hcfg Hord log lim. subst log lim.
  destruct (run_inv qs (RateLimiter_new l now) [] now Hcfg Hord) as (Hlim & _ & now' & Hlog).
  { by apply (new_inv l now k). }
  { intros k'. by apply new_inv. }
  destruct (Hlog k) as [_ He _ Ha _ _ Hbd]. cbn [limits RateLimiter_new] in Hlim. rewrite Hlim in Hbd.
  unfold run. set (lg := (fold_left step qs (RateLimiter_new l now, [])).2) in *. split; [done|].
  destruct (second_two_windows k t lg He Ha) as (s1 & s2 & Hs).
  destruct (total_cover (in_second k t) (in_window k s1) (in_window k s2) lg) as [H1 H2].
  - intros a Hin Hsec. destruct (Hs a Hin Hsec) as [Hw|Hw]; [left|right];
      unfold in_window; unfold in_second in Hsec; rewrite !andb_true_iff in Hsec;
      rewrite andb_true_iff, Z.eqb_eq; tauto.
  - intros a Hin Hor. unfold in_window in Hor. rewrite !andb_true_iff, bool_decide_eq_true in Hor.
    apply He; tauto.
  - destruct (Hbd s1), (Hbd s2). split_and!; [lia|lia|]. intros a Hin Hk. by apply He.
Qed.

(** ** The rooms of a document *)

Lemma step_log r log q : step (r, log) q = ((step (r, []) q).1, (step (r, []) q).2 ++ log).
Proof. destruct q as [c k b now|c]; [|done]. unfold step. cbn [fst snd]. by destruct (limiter_admit r c k b now) as [r' []]. Qed.

Lemma log_of_app i a b : log_of i (a ++ b) = log_of i a ++ log_of i b.
Proof. unfold log_of. by rewrite filter_app, map_app. Qed.
Lemma log_of_tagged i j (l : list admission) : log_of i (map (pair j) l) = if decide (j = i) then l else [].
Proof.
  unfold log_of. induction l as [|a l IH]; [by destruct (decide (j = i))|]. cbn [map]. rewrite filter_cons. cbn [fst]. destruct (decide (j = i)); [cbn [map snd]; by rewrite IH|done].
Qed.

(** each room runs on its own *)
Lemma fleet_projects l es i :
  match room_events i es with
  | Some (now, qs) => fl_rooms (fleet_run l es) !! i = Some (run (RateLimiter_new l now) qs).1 /\ log_of i (fl_log (fleet_run l es)) = (run (RateLimiter_new l now) qs).2
  | None => fl_rooms (fleet_run l es) !! i = None /\ log_of i (fl_log (fleet_run l es)) = []
  end.
Proof.
  induction es as [|e es IH] using rev_ind; [done|]. unfold room_events, fleet_run in *. rewrite !fold_left_app. cbn [fold_left]. set (st := fold_left (fleet_step l) es (mkFleet ∅ [])) in *.
  destruct (fold_left (track i) es None) as [[now qs]|] eqn:Ht; destruct IH as [Hr Hl], e as [j t|j q]; cbn [track fleet_step].
  - destruct (fl_rooms st !! j) as [r|] eqn:Hj; [done|]. cbn [fl_rooms fl_log]. rewrite lookup_insert_ne by congruence. done.
  - destruct (decide (j = i)) as [-> |Hne].
    + unfold run in *. rewrite fold_left_app. cbn [fold_left]. destruct (fold_left step qs (RateLimiter_new l now, [])) as [r0 l0]. cbn [fst snd] in Hr, Hl. rewrite Hr, (step_log r0 l0 q).
      destruct (step (r0, []) q) as [r' d]. cbn [fst snd fl_rooms fl_log]. rewrite lookup_insert_eq, log_of_app, log_of_tagged, decide_True by done. by rewrite Hl.
    + destruct (fl_rooms st !! j) as [r|] eqn:Hj; [|done]. destruct (step (r, []) q) as [r' d]. cbn [fl_rooms fl_log]. rewrite lookup_insert_ne, log_of_app, log_of_tagged, decide_False by done. done.
  - destruct (decide (j = i)) as [-> |Hne]; [rewrite Hr; cbn [fl_rooms fl_log]; by rewrite lookup_insert_eq|]. destruct (fl_rooms st !! j) as [r|] eqn:Hj; [done|]. cbn [fl_rooms fl_log]. by rewrite lookup_insert_ne.
  - destruct (decide (j = i)) as [-> |Hne]; [by rewrite Hr|]. destruct (fl_rooms st !! j) as [r|] eqn:Hj; [|done]. destruct (step (r, []) q) as [r' d]. cbn [fl_rooms fl_log].
    rewrite lookup_insert_ne, log_of_app, log_of_tagged, decide_False by done. done.
Qed.

Definition weigh (f : admission -> bool) (g : admission -> Z) (l : list admission) : Z := fold_right (fun a acc => (if f a then g a else 0) + acc) 0 l.

(** a total over all rooms is at most a bound for each room that takes part *)
Lemma sum_over_rooms f (g : admission -> Z) (tags : list nat) log : (forall a, 0 <= g a) -> (forall x, x ∈ log -> f x.2 = true -> x.1 ∈ tags) ->
  weigh f g (map snd log) <= fold_right (fun i acc => weigh f g (log_of i log) + acc) 0 tags.
Proof.
  intros Hg.
  induction log as [|[j a] log IH]; intros Hin; [induction tags as [|i tags IHt]; [done|]; cbn in *; apply IHt; intros x Hx; by apply elem_of_nil in Hx|].
  change (weigh f g (map snd ((j, a) :: log))) with ((if f a then g a else 0) + weigh f g (map snd log)).
  assert (forall i, weigh f g (log_of i ((j, a) :: log)) = (if decide (j = i) then if f a then g a else 0 else 0) + weigh f g (log_of i log)) as Hcons.
  { intros i. unfold log_of. rewrite filter_cons. cbn [fst]. destruct (decide (j = i)); [done|]. lia. }
  assert (weigh f g (map snd log) <= fold_right (fun i acc => weigh f g (log_of i log) + acc) 0 tags) as IH' by (apply IH; intros x Hx; apply Hin; by right). clear IH.
  assert (fold_right (fun i acc => weigh f g (log_of i log) + acc) 0 tags + (if decide (j ∈ tags) then if f a then g a else 0 else 0) <= fold_right (fun i acc => weigh f g (log_of i ((j, a) :: log)) + acc) 0 tags) as Hsum.
  { clear IH' Hin. pose proof (Hg a). induction tags as [|i tags IHt]; [done|]. cbn [fold_right]. rewrite Hcons. destruct (decide (j = i)) as [<- |Hne].
    - rewrite decide_True by left. assert (fold_right (fun i acc => weigh f g (log_of i log) + acc) 0 tags <= fold_right (fun i acc => weigh f g (log_of i ((j, a) :: log)) + acc) 0 tags) by (destruct (decide (j ∈ tags)), (f a); lia). lia.
    - assert ((if decide (j ∈ i :: tags) then if f a then g a else 0 else 0) = (if decide (j ∈ tags) then if f a then g a else 0 else 0)) as ->; [|lia].
      destruct (decide (j ∈ tags)); [rewrite decide_True by (by right)|rewrite decide_False by (rewrite elem_of_cons; naive_solver)]; done. }
  destruct (f a) eqn:Hf; [|destruct (decide (j ∈ tags)); lia]. rewrite decide_True in Hsum by (apply (Hin (j, a)); [left|done]). lia.
Qed.
Lemma sum_bound {A} (h : A -> Z) (l : list A) b : (forall x, x ∈ l -> h x <= b) -> fold_right (fun x acc => h x + acc) 0 l <= b * Z.of_nat (length l).
Proof. induction l as [|x l IH]; intros Hb; cbn [fold_right length]; [lia|]. pose proof (Hb x ltac:(left)). assert (forall y, y ∈ l -> h y <= b) as Hl by (intros; apply Hb; by right). specialize (IH Hl). lia. Qed.

Lemma room_second l es k t i : config_wf l -> fleet_ordered es -> let lim := kind_limits l k in let log := log_of i (fl_log (fleet_run l es)) in
  (forall s, total (in_window k s) log <= kl_room_bytes lim /\ count (in_window k s) log <= kl_room_events lim)
  /\ total (in_second k t) log <= 2 * kl_room_bytes lim /\ count (in_second k t) log <= 2 * kl_room_events lim /\ (forall a, a ∈ log -> ad_kind a = k -> 0 <= ad_bytes a).
Proof.
  intros Hcfg Hord lim log. pose proof (fleet_projects l es i) as Hp. destruct (room_events i es) as [[now qs]|] eqn:He; destruct Hp as [_ Hl]; subst log; rewrite Hl.
  - apply life_bounded; [done|by apply (Hord i)].
  - destruct (Hcfg k) as (_ & _ & ? & ?). subst lim. split_and!; [intros s; cbn; lia|cbn; lia|cbn; lia|]. intros a Ha. by apply elem_of_nil in Ha.
Qed.

(** C35. What a document's live rooms let through. Every replica that serves the document has
    a live room with a limiter of its own, and a room that was dropped with its last client
    is loaded again with a new limiter. Whatever the clients of all these rooms do: within
    one window of a live room the admitted events and bytes are within the limits; in any
    second of the clock, wherever it starts, a live room admits at most twice the limits; and
    all of them together admit at most twice the limits for each live room that admitted
    something in that second. *)
Theorem room_admissions_bounded l es k t :
  config_wf l -> fleet_ordered es ->
  let log := fl_log (fleet_run l es) in
  let lim := kind_limits l k in
  (forall i s, total (in_window k s) (log_of i log) <= kl_room_bytes lim /\ count (in_window k s) (log_of i log) <= kl_room_events lim) /\
  (forall i, total (in_second k t) (log_of i log) <= 2 * kl_room_bytes lim /\ count (in_second k t) (log_of i log) <= 2 * kl_room_events lim) /\
  total (in_second k t) (map snd log) <= 2 * kl_room_bytes lim * len (active_rooms k t log) /\
  count (in_second k t) (map snd log) <= 2 * kl_room_events lim * len (active_rooms k t log).
Proof.
  intros Hcfg Hord log lim. pose proof (fun i => room_second l es k t i Hcfg Hord) as Hroom. fold log lim in Hroom. cbv zeta in Hroom.
  assert (forall x, x ∈ log -> in_second k t x.2 = true -> x.1 ∈ active_rooms k t log) as Hactive.
  { intros x Hx Hs. apply elem_of_remove_dups, list_elem_of_In, in_map, list_elem_of_In, list_elem_of_filter. done. }
  assert (forall i, total (in_second k t) (log_of i log) = weigh (in_second k t) (fun a => Z.max 0 (ad_bytes a)) (log_of i log)) as Hmax.
  { intros i. destruct (Hroom i) as (_ & _ & _ & Hpos). induction (log_of i log) as [|a w IH]; [done|]. change (total (in_second k t) (a :: w)) with ((if in_second k t a then ad_bytes a else 0) + total (in_second k t) w).
    change (weigh (in_second k t) (fun a => Z.max 0 (ad_bytes a)) (a :: w)) with ((if in_second k t a then Z.max 0 (ad_bytes a) else 0) + weigh (in_second k t) (fun a => Z.max 0 (ad_bytes a)) w). rewrite IH by (intros; apply Hpos; [by right|done]). f_equal.
    destruct (in_second k t a) eqn:Hs; [|done]. rewrite Z.max_r; [done|]. apply Hpos; [left|]. unfold in_second in Hs. rewrite !andb_true_iff, bool_decide_eq_true in Hs. tauto. }
  split; [intros i s; apply Hroom|]. split; [intros i; destruct (Hroom i) as (_ & ? & ? & _); done|]. split.
  - etrans; [|etrans; [apply (sum_over_rooms (in_second k t) (fun a => Z.max 0 (ad_bytes a)) (active_rooms k t log) log); [lia|exact Hactive]|]].
    + unfold total, weigh. induction (map snd log) as [|a w IH]; cbn [fold_right]; [lia|]. destruct (in_second k t a); lia.
    + apply sum_bound. intros i _. rewrite <-Hmax. apply Hroom.
  - etrans; [apply (sum_over_rooms (in_second k t) (fun _ => 1) (active_rooms k t log) log); [lia|exact Hactive]|]. apply sum_bound. intros i _. apply Hroom.
Qed.

(** ** Witnesses *)

Definition demo_limits : CollaborationLimitConfig := 
  mkCollaborationLimitConfig 32 262144 2097152 2 100 3 150 50 2 4 67108864 268435456 60 2592000 1987200.
Definition demo_requests : list request :=
  [RAdmit 1 Update 60 0; RAdmit 1 Update 60 5; RAdmit 2 Update 60 10; RRemove 1;
   RAdmit 1 Awareness 10 20; RAdmit 1 Update 60 1000000000].

Lemma demo_config : config_wf demo_limits.
Proof. intros []; vm_compute; done. Qed.

Lemma rate_windows_bounded_witness :
  window_ok (room_of (run (RateLimiter_new demo_limits 0) demo_requests).1 Update) 3 150.
Proof.
  apply (rate_windows_bounded demo_limits 0 demo_requests Update 1%N (Window_new 0) demo_config).
  vm_compute. done.
Defined.

(** The room is left and loaded again, and another replica serves the document too. *)
Definition demo_fleet : list fleet_event :=
  [Load 0 0; On 0 (RAdmit 1 Update 60 0); Load 1 3; On 1 (RAdmit 2 Update 60 5); On 0 (RRemove 1); Load 2 8; On 2 (RAdmit 1 Update 60 9); On 2 (RAdmit 1 Update 60 10)].
Lemma demo_fleet_ordered : fleet_ordered demo_fleet.
Proof.
  intros i now qs. destruct i as [|[|[|i]]]; [intros Heq; vm_compute in Heq; injection Heq as <- <-; cbn [clock_ordered]; unfold is_u64, u64_max; lia..|].
  unfold room_events, demo_fleet. cbn [fold_left track]. by rewrite !decide_False by lia.
Qed.
Lemma room_admissions_bounded_witness :
  active_rooms Update 0 (fl_log (fleet_run demo_limits demo_fleet)) = [2%nat; 1%nat; 0%nat]
  /\ total (in_second Update 0) (map snd (fl_log (fleet_run demo_limits demo_fleet))) = 180
  /\ total (in_second Update 0) (map snd (fl_log (fleet_run demo_limits demo_fleet))) <= 2 * 150 * 3.
Proof.
  split; [vm_compute; reflexivity|]. split; [vm_compute; reflexivity|]. apply (room_admissions_bounded demo_limits demo_fleet Update 0 demo_config demo_fleet_ordered).
Defined.
