(* ===== verification/Markdown.v ===== *)
(** Model of [source/apps/filebelt-collaboration/src/source.rs]: the decoding of a
    Markdown file into normalized text with its formatting, and the bytes that are
    saved again.  The loops over characters are loops over bytes here, since line
    endings are ASCII. *)
From S2P Require Import Prelude Collections Libraries Frames Web.

Open Scope string_scope.
Open Scope Z_scope.
Open Scope list_scope.
Open Scope bool_scope.

(** [MAX_MARKDOWN_SOURCE_BYTES] of [lib.rs] *)
Definition MAX_MARKDOWN_SOURCE_BYTES : Z := 16 * 1024 * 1024.

Inductive LineEnding := Lf | CrLf | Mixed.
#[export] Instance LineEnding_eq_dec : EqDecision LineEnding.
Proof. solve_decision. Defined.

Record MarkdownSource := mkSource { ms_text : bytes; ms_bom : bool; ms_line_ending : LineEnding }.
Inductive MarkdownSourceError := SourceIsTooLarge | SourceInvalidUtf8 | SourceHasNul.

Definition CR : byte := byte_of_Z 13.
Definition LF : byte := byte_of_Z 10.
Definition BOM : bytes := map byte_of_Z [239; 187; 191].

(** [bytes.strip_prefix(&BOM)] *)
Definition strip_bom (b : bytes) : option bytes := if bool_decide (take 3 b = BOM) then Some (drop 3 b) else None.

(** The loop over the characters with a peek at the next one: the normalized text,
    [saw_lf] and [saw_crlf]. *)
Fixpoint normalize_lines (s : bytes) : bytes * bool * bool :=
  match s with
  | [] => ([], false, false)
  | b :: rest =>
      match rest with
      | next :: rest' =>
          if bool_decide (b = CR) && bool_decide (next = LF)
          then let '(text, saw_lf, _) := normalize_lines rest' in (LF :: text, saw_lf, true)
          else let '(text, saw_lf, saw_crlf) := normalize_lines rest in (b :: text, saw_lf || bool_decide (b = LF), saw_crlf)
      | [] => ([b], bool_decide (b = LF), false)
      end
  end.

Definition MarkdownSource_decode (b : bytes) : result MarkdownSourceError MarkdownSource :=
  if MAX_MARKDOWN_SOURCE_BYTES <? len b then Err SourceIsTooLarge
  else
    let '(bom, content) := match strip_bom b with Some content => (true, content) | None => (false, b) end in
    if existsb (fun c => byte_val c =? 0) content then Err SourceHasNul
    else if negb (utf8_valid content) then Err SourceInvalidUtf8
    else
      let '(normalized, saw_lf, saw_crlf) := normalize_lines content in
      let line_ending := match saw_lf, saw_crlf with false, true => CrLf | true, true => Mixed | _, _ => Lf end in
      Ok (mkSource normalized bom line_ending).

(** [str::split_inclusive('\n')] *)
Fixpoint split_inclusive (s : bytes) : list bytes :=
  match s with
  | [] => []
  | b :: rest =>
      if bool_decide (b = LF) then [b] :: split_inclusive rest
      else match split_inclusive rest with [] => [[b]] | segment :: segments => (b :: segment) :: segments end
  end.
Definition save_segment (segment : bytes) : bytes :=
  match rev segment with
  | last :: content => if bool_decide (last = LF) then rev content ++ [CR; LF] else segment
  | [] => []
  end.

Definition encode_for_save (s : MarkdownSource) : bytes :=
  (if ms_bom s then BOM else [])
  ++ (if bool_decide (ms_line_ending s = CrLf) then flat_map save_segment (split_inclusive (ms_text s)) else ms_text s).

(** ** Proofs *)

(** What saving with CRLF does to the text. *)
Fixpoint expand_lf (s : bytes) : bytes :=
  match s with [] => [] | b :: rest => if bool_decide (b = LF) then CR :: LF :: expand_lf rest else b :: expand_lf rest end.

Lemma CR_ne_LF : CR <> LF.
Proof. done. Qed.

Lemma split_inclusive_segments s : Forall (fun seg => seg <> []) (split_inclusive s).
Proof.
  induction s as [|b s IH]; simpl; [constructor|]. case_match; [by constructor|]. destruct (split_inclusive s); [by repeat constructor|].
  apply Forall_cons in IH as [_ IH]. by constructor.
Qed.

Lemma save_segment_cons b seg : b <> LF -> seg <> [] -> save_segment (b :: seg) = b :: save_segment seg.
Proof.
  intros Hb Hne. unfold save_segment. simpl. destruct (rev seg) as [|l content] eqn:Hr.
  - apply (f_equal (@rev _)) in Hr. rewrite rev_involutive in Hr. done.
  - simpl. case_bool_decide; [|done]. by rewrite rev_app_distr.
Qed.

Lemma save_segments s : flat_map save_segment (split_inclusive s) = expand_lf s.
Proof.
  induction s as [|b s IH]; [done|]. cbn [split_inclusive expand_lf]. destruct (bool_decide_reflect (b = LF)) as [-> | Hb].
  - cbn [flat_map]. by rewrite IH.
  - pose proof (split_inclusive_segments s) as Hs. destruct (split_inclusive s) as [|seg segs].
    + simpl in *. rewrite <-IH. unfold save_segment. simpl. by rewrite bool_decide_eq_false_2.
    + apply Forall_cons in Hs as [Hs _]. cbn [flat_map] in *. rewrite save_segment_cons by done. by rewrite <-IH.
Qed.

Lemma bytes_pair_ind (P : bytes -> Prop) :
  P [] -> (forall b, P [b]) -> (forall b c s, P s -> P (c :: s) -> P (b :: c :: s)) -> forall s, P s.
Proof.
  intros H0 H1 H2. assert (forall s, P s /\ forall b, P (b :: s)) as H; [|intros s; apply H].
  induction s as [|c s [IH IH']]; split; auto.
Qed.

Lemma normalize_lines_cons b c s :
  normalize_lines (b :: c :: s) =
    if bool_decide (b = CR) && bool_decide (c = LF)
    then let '(text, saw_lf, _) := normalize_lines s in (LF :: text, saw_lf, true)
    else let '(text, saw_lf, saw_crlf) := normalize_lines (c :: s) in (b :: text, saw_lf || bool_decide (b = LF), saw_crlf).
Proof. done. Qed.
Lemma normalize_lines_single b : normalize_lines [b] = ([b], bool_decide (b = LF), false).
Proof. done. Qed.

(** Uniform LF: nothing changes.  Uniform CRLF: expanding gives the file back. *)
Lemma normalize_uniform s text saw_lf saw_crlf :
  normalize_lines s = (text, saw_lf, saw_crlf) ->
  (saw_crlf = false -> text = s) /\ (saw_lf = false -> expand_lf text = s).
Proof.
  revert text saw_lf saw_crlf. induction s as [|b|b c s IH IH'] using bytes_pair_ind; intros text saw_lf saw_crlf; rewrite ?normalize_lines_cons, ?normalize_lines_single.
  - intros [= <- <- <-]. done.
  - intros [= <- <- <-]. split; [done|]. rewrite bool_decide_eq_false. intros Hb. simpl. by rewrite bool_decide_eq_false_2.
  - destruct (bool_decide (b = CR) && bool_decide (c = LF)) eqn:Hcr.
    + rewrite andb_true_iff, !bool_decide_eq_true in Hcr. destruct Hcr as [-> ->].
      destruct (normalize_lines s) as [[t l] cr]. intros [= <- <- <-]. split; [done|]. intros Hl. simpl.
      by rewrite (proj2 (IH _ _ _ eq_refl) Hl).
    + destruct (normalize_lines (c :: s)) as [[t l] cr] eqn:Hn. intros [= <- <- <-].
      destruct (IH' _ _ _ eq_refl) as [H1 H2]. split; [intros Hc; by rewrite H1|]. rewrite orb_false_iff, bool_decide_eq_false.
      intros [Hl Hb]. cbn [expand_lf]. by rewrite bool_decide_eq_false_2, H2.
Qed.

(** A text without CRLF is not changed by normalization. *)
Fixpoint has_crlf (s : bytes) : bool :=
  match s with
  | [] => false
  | b :: rest => match rest with next :: _ => bool_decide (b = CR) && bool_decide (next = LF) | [] => false end || has_crlf rest
  end.

Lemma normalize_fixed s : has_crlf s = false -> normalize_lines s = (s, bool_decide (LF ∈ s), false).
Proof.
  induction s as [|b|b c s IH IH'] using bytes_pair_ind; intros Hc.
  - cbn [normalize_lines]. by rewrite bool_decide_eq_false_2 by apply not_elem_of_nil.
  - rewrite normalize_lines_single. f_equal. f_equal. apply bool_decide_ext. rewrite list_elem_of_singleton. naive_solver.
  - cbn [has_crlf] in Hc. apply orb_false_iff in Hc as [Hb Hc]. rewrite normalize_lines_cons, Hb, IH' by exact Hc. f_equal. f_equal. rewrite <-bool_decide_or. apply bool_decide_ext.
    rewrite (elem_of_cons (c :: s) LF b). naive_solver.
Qed.

Lemma in_range_CR lo hi b : in_range lo hi b = true -> 14 <= lo -> b <> CR /\ b <> LF.
Proof.
  unfold in_range. rewrite andb_true_iff, !Z.leb_le. intros [H _] Hlo. split; intros ->;
    [change (byte_val CR) with 13 in H|change (byte_val LF) with 10 in H]; lia.
Qed.

Lemma normalize_text_cons b s : b <> CR -> (normalize_lines (b :: s)).1.1 = b :: (normalize_lines s).1.1.
Proof.
  intros Hb. destruct s as [|c s]; [done|]. rewrite normalize_lines_cons, bool_decide_eq_false_2 by done. simpl andb. cbv iota. by destruct (normalize_lines (c :: s)) as [[t l] cr].
Qed.

Lemma utf8_valid_ascii b s : in_range 0 127 b = true -> utf8_valid (b :: s) = utf8_valid s.
Proof. intros H. cbn [utf8_valid]. by rewrite H. Qed.

Lemma continuation_not_CR b : continuation b = true -> b <> CR.
Proof. intros H ->. done. Qed.

Lemma high_byte_not_CR b : in_range 0 127 b = false -> b <> CR.
Proof. intros H ->. done. Qed.
Lemma high_range_not_CR lo hi b : in_range lo hi b = true -> 14 <= lo -> b <> CR.
Proof. intros H Hlo. by apply (in_range_CR lo hi b). Qed.

(** Normalization keeps a string a string: line endings are ASCII. *)
Lemma normalize_utf8 s : utf8_valid s = true -> utf8_valid (normalize_lines s).1.1 = true.
Proof.
  induction s as [s IH] using (induction_ltof1 _ length). unfold ltof in IH. destruct s as [|b s1]; [done|].
  destruct (in_range 0 127 b) eqn:Hb.
  { rewrite utf8_valid_ascii by done. intros Hv. destruct (decide (b = CR)) as [-> | Hcr].
    - destruct s1 as [|c s2]; [done|]. rewrite normalize_lines_cons. rewrite bool_decide_eq_true_2 by done.
      destruct (bool_decide_reflect (c = LF)) as [-> | Hc]; simpl andb; cbv iota.
      + specialize (IH s2 ltac:(simpl; lia) Hv). by destruct (normalize_lines s2) as [[t l] cr].
      + specialize (IH (c :: s2) ltac:(simpl; lia) Hv). by destruct (normalize_lines (c :: s2)) as [[t l] cr].
    - rewrite normalize_text_cons, utf8_valid_ascii by done. apply IH; [simpl; lia|done]. }
  cbn [utf8_valid]. rewrite Hb. destruct s1 as [|c s2]; [done|].
  rewrite (normalize_text_cons b) by by apply high_byte_not_CR.
  assert (forall lo hi, in_range lo hi c = true -> 14 <= lo -> (normalize_lines (c :: s2)).1.1 = c :: (normalize_lines s2).1.1) as Hc.
  { intros lo hi H Hlo. apply normalize_text_cons. by eapply high_range_not_CR. }
  unfold continuation in *.
  destruct (in_range 194 223 b) eqn:H2.
  { rewrite andb_true_iff. intros [Hcc Hv]. rewrite (Hc _ _ Hcc) by lia. cbn [utf8_valid]. rewrite Hb, H2. unfold continuation. rewrite Hcc. apply IH; [simpl; lia|done]. }
  destruct s2 as [|d s3]; [done|].
  assert (forall lo hi, in_range lo hi d = true -> 14 <= lo -> (normalize_lines (d :: s3)).1.1 = d :: (normalize_lines s3).1.1) as Hd.
  { intros lo hi H Hlo. apply normalize_text_cons. by eapply high_range_not_CR. }
  destruct (in_range 224 224 b) eqn:H3; [|destruct (in_range 225 236 b || in_range 238 239 b) eqn:H4; [|destruct (in_range 237 237 b) eqn:H5]].
  1-3: rewrite !andb_true_iff; intros [[Hcc Hdd] Hv]; rewrite (Hc _ _ Hcc), (Hd _ _ Hdd) by lia; cbn [utf8_valid]; rewrite Hb, H2, H3, ?H4, ?H5;
    unfold continuation; rewrite Hcc, Hdd; apply IH; [simpl; lia|done].
  destruct s3 as [|e s4]; [done|]. rewrite !andb_true_iff. intros [[[Hcc Hdd] Hee] Hv].
  assert (c <> CR) as Hc'. { intros ->. repeat case_match; discriminate. }
  rewrite (normalize_text_cons c), (Hd _ _ Hdd), (normalize_text_cons e) by first [done | lia | by eapply high_range_not_CR].
  cbn [utf8_valid]. rewrite Hb, H2, H3, H4, H5. unfold continuation. rewrite Hcc, Hdd, Hee. apply IH; [simpl; lia|done].
Qed.

Lemma normalize_elem s b : b ∈ (normalize_lines s).1.1 -> b ∈ s.
Proof.
  induction s as [|x|x y s IH IH'] using bytes_pair_ind; [done..|]. rewrite normalize_lines_cons.
  destruct (bool_decide (x = CR) && bool_decide (y = LF)) eqn:Hcr.
  - rewrite andb_true_iff, !bool_decide_eq_true in Hcr. destruct Hcr as [-> ->]. destruct (normalize_lines s) as [[t l] cr]. simpl in *. set_solver.
  - destruct (normalize_lines (y :: s)) as [[t l] cr]. simpl in *. set_solver.
Qed.

Lemma normalize_head s : (normalize_lines s).1.1 = [] /\ s = []
  \/ exists x s' , s = x :: s' /\ ((exists t, (normalize_lines s).1.1 = LF :: t) \/ (normalize_lines s).1.1 = x :: (normalize_lines s').1.1).
Proof.
  destruct s as [|x [|y s]]; [by left|right..].
  - exists x, []. split; [done|]. by right.
  - exists x, (y :: s). split; [done|]. rewrite normalize_lines_cons. case_match.
    + destruct (normalize_lines s) as [[t l] cr]. simpl. eauto.
    + destruct (normalize_lines (y :: s)) as [[t l] cr]. by right.
Qed.

Lemma normalize_length s : (length (normalize_lines s).1.1 <= length s)%nat.
Proof.
  induction s as [|x|x y s IH IH'] using bytes_pair_ind; [done..|]. rewrite normalize_lines_cons. case_match.
  - destruct (normalize_lines s) as [[t l] cr]. simpl in *. lia.
  - destruct (normalize_lines (y :: s)) as [[t l] cr]. simpl in *. lia.
Qed.

(** Normalization does not bring a byte order mark to the front. *)
Lemma normalize_bom s : take 3 (normalize_lines s).1.1 = BOM -> take 3 s = BOM.
Proof.
  destruct (normalize_head s) as [[-> _]|(x & s1 & -> & [[t ->]| ->])]; [done..|].
  destruct (normalize_head s1) as [[-> _]|(y & s2 & -> & [[t ->]| ->])]; [done| |].
  { intros H. simpl in H. simplify_eq. }
  destruct (normalize_head s2) as [[-> _]|(z & s3 & -> & [[t ->]| ->])]; [done| |done].
  intros H. simpl in H. simplify_eq.
Qed.

Lemma strip_bom_Some b content : strip_bom b = Some content <-> b = BOM ++ content.
Proof.
  unfold strip_bom. split.
  - case_bool_decide as H; [|done]. intros [= <-]. by rewrite <-H, take_drop.
  - intros ->. by rewrite bool_decide_eq_true_2.
Qed.

(** What an accepted file is. *)
Lemma decode_Ok b s : MarkdownSource_decode b = Ok s ->
  len b <= MAX_MARKDOWN_SOURCE_BYTES /\ exists content saw_lf saw_crlf,
    b = (if ms_bom s then BOM else []) ++ content /\ (ms_bom s = false -> strip_bom b = None)
    /\ existsb (fun c => byte_val c =? 0) content = false /\ utf8_valid content = true
    /\ normalize_lines content = (ms_text s, saw_lf, saw_crlf)
    /\ ms_line_ending s = match saw_lf, saw_crlf with false, true => CrLf | true, true => Mixed | _, _ => Lf end.
Proof.
  unfold MarkdownSource_decode. case_match eqn:Hlen; [done|]. apply Z.ltb_ge in Hlen. intros H. split; [done|].
  destruct (strip_bom b) as [content|] eqn:Hb; [apply strip_bom_Some in Hb|]; repeat case_match; simplify_eq; simpl;
    match goal with H : normalize_lines ?c = _, N : negb _ = false |- _ => exists c; apply negb_false_iff in N end; naive_solver.
Qed.

Lemma no_nul_normalized s : existsb (fun c => byte_val c =? 0) s = false -> existsb (fun c => byte_val c =? 0) (normalize_lines s).1.1 = false.
Proof.
  intros H. apply not_true_is_false. rewrite existsb_exists. intros (x & Hx & H0). apply list_elem_of_In, normalize_elem in Hx.
  apply (not_true_iff_false (existsb _ s)) in H. apply H. rewrite existsb_exists. exists x. by rewrite <-list_elem_of_In.
Qed.

(** C32. A Markdown file with uniform line endings is saved again as the very bytes it
    was loaded from, byte order mark included; one with mixed line endings whose text
    has no carriage return before a line feed is saved with LF only, so that loading it
    again gives the same text and byte order mark. *)
Theorem markdown_save_round_trip b s :
  MarkdownSource_decode b = Ok s ->
  (ms_line_ending s <> Mixed -> encode_for_save s = b)
  /\ (ms_line_ending s = Mixed -> has_crlf (ms_text s) = false ->
        MarkdownSource_decode (encode_for_save s) = Ok (mkSource (ms_text s) (ms_bom s) Lf)).
Proof.
  intros (Hlen & content & saw_lf & saw_crlf & Hb & Hbom & Hnul & Hutf & Hn & He)%decode_Ok.
  unfold encode_for_save. rewrite save_segments. destruct (normalize_uniform _ _ _ _ Hn) as [Hu1 Hu2]. split.
  - intros Hm. rewrite Hb. f_equal. destruct saw_lf, saw_crlf; rewrite He; rewrite ?He in Hm; simpl; try done; auto.
  - intros Hm Hc. rewrite Hm. simpl. pose proof (normalize_length content) as Hl. pose proof (normalize_utf8 _ Hutf) as Hu.
    pose proof (no_nul_normalized _ Hnul) as Hz. pose proof (normalize_bom content) as Hbm. rewrite Hn in *. simpl in *.
    unfold MarkdownSource_decode. rewrite (proj2 (Z.ltb_ge _ _)).
    2:{ etrans; [|exact Hlen]. rewrite Hb. unfold len. rewrite !length_app. lia. }
    assert (match strip_bom ((if ms_bom s then BOM else []) ++ ms_text s) with Some c => (true, c) | None => (false, (if ms_bom s then BOM else []) ++ ms_text s) end
            = (ms_bom s, ms_text s)) as ->.
    { destruct (ms_bom s) eqn:Hs; [by rewrite (proj2 (strip_bom_Some _ _) eq_refl)|]. simpl in *. subst b.
      specialize (Hbom eq_refl). unfold strip_bom in *.
      rewrite bool_decide_eq_false_2; [done|]. intros H3. rewrite bool_decide_eq_true_2 in Hbom by auto. done. }
    rewrite Hz, Hu, normalize_fixed by done. simpl. by case_bool_decide.
Qed.

Module Demo.
(** A byte order mark, "a", CRLF, "b", LF. *)
Definition mixed : bytes := map byte_of_Z [239; 187; 191; 97; 13; 10; 98; 10].
Definition uniform : bytes := map byte_of_Z [239; 187; 191; 97; 13; 10; 98; 13; 10].

Lemma markdown_save_round_trip_witness :
  encode_for_save (mkSource (map byte_of_Z [97; 10; 98; 10]) true CrLf) = uniform
  /\ MarkdownSource_decode (encode_for_save (mkSource (map byte_of_Z [97; 10; 98; 10]) true Mixed))
     = Ok (mkSource (map byte_of_Z [97; 10; 98; 10]) true Lf).
Proof.
  split.
  - apply (markdown_save_round_trip uniform _ ltac:(vm_compute; reflexivity)). done.
  - apply (markdown_save_round_trip mixed _ ltac:(vm_compute; reflexivity)); [done|vm_compute; reflexivity].
Defined.

(** A carriage return in front of a CRLF survives normalization and joins the line feed
    that the CRLF became: a mixed file is then saved with a CRLF, and its text changes
    at the next load. *)
Lemma mixed_save_keeps_crlf :
  let b := map byte_of_Z [10; 13; 13; 10] in
  MarkdownSource_decode b = Ok (mkSource (map byte_of_Z [10; 13; 10]) false Mixed)
  /\ has_crlf (encode_for_save (mkSource (map byte_of_Z [10; 13; 10]) false Mixed)) = true
  /\ MarkdownSource_decode (encode_for_save (mkSource (map byte_of_Z [10; 13; 10]) false Mixed)) = Ok (mkSource (map byte_of_Z [10; 10]) false Mixed).
Proof. vm_compute. done. Qed.
End Demo.
