(* ===== verification/Room.v ===== *)
(** Model of [source/apps/filebelt-collaboration/src/lib.rs] (the room document: staging
    of update groups on a disposable copy, commit, checkpoint, restore) and of
    [update_decoder.rs] (the structural checks and the containment of panics).

    The CRDT is the [yrs] crate: its documents, its decoder and its encoder are the
    operations of a class, and any of them may panic.  What the code relies on are the
    laws of [YrsLaws], up to an equivalence of documents: two documents that hold the
    same items are equivalent whatever client identifier they were created with. *)
From S2P Require Import Prelude Collections Libraries Keyset Frames Net Web Envelope CollaborationProtocol ConfigTypes Markdown.

Open Scope string_scope.
Open Scope Z_scope.
Open Scope list_scope.
Open Scope bool_scope.

(** ** Panics *)

Inductive attempt (A : Type) : Type := Returned (a : A) | Panicked.
Arguments Returned {A} a.
Arguments Panicked {A}.

(** The [?] operator in a body that may panic. *)
Notation "'try' x ':=' e 'in' k" :=
  (match e with Returned (Ok x) => k | Returned (Err err) => Returned (Err err) | Panicked => Panicked end)
  (at level 10, x name, e at level 100, k at level 200) : filebelt_scope.

(** [.map_err(|_| e)?] on a library call *)
Definition attempt_or {E A} (e : E) (r : attempt (option A)) : attempt (result E A) :=
  match r with Returned (Some a) => Returned (Ok a) | Returned None => Returned (Err e) | Panicked => Panicked end.

(** ** The decoder of update_decoder.rs *)

Inductive DecodeError := DecodeFailed | ZeroLengthBlock.

(** [yrs::updates::decoder::Decoder] over a decoder state [S] *)
Record Decoder (S : Type) := mkDecoder {
  read_exact : S -> Z -> result DecodeError (bytes * S);
  reset_ds_cur_val : S -> S;
  read_ds_clock : S -> result DecodeError (Z * S);
  read_ds_len : S -> result DecodeError (Z * S);
  read_left_id : S -> result DecodeError ((N * Z) * S);
  read_right_id : S -> result DecodeError ((N * Z) * S);
  read_client : S -> result DecodeError (N * S);
  read_info : S -> result DecodeError (Z * S);
  read_parent_info : S -> result DecodeError (bool * S);
  read_type_ref : S -> result DecodeError (Z * S);
  read_len : S -> result DecodeError (Z * S);
  read_any : S -> result DecodeError (bytes * S);
  read_json : S -> result DecodeError (bytes * S);
  read_key : S -> result DecodeError (bytes * S);
  read_to_end : S -> result DecodeError (bytes * S)
}.
Arguments mkDecoder {S}.
Arguments read_exact {S}. Arguments reset_ds_cur_val {S}. Arguments read_ds_clock {S}. Arguments read_ds_len {S}.
Arguments read_left_id {S}. Arguments read_right_id {S}. Arguments read_client {S}. Arguments read_info {S}.
Arguments read_parent_info {S}. Arguments read_type_ref {S}. Arguments read_len {S}. Arguments read_any {S}.
Arguments read_json {S}. Arguments read_key {S}. Arguments read_to_end {S}.

(** ** The library *)

Class YrsLib := {
  Doc : Type;
  YUpdate : Type;
  (** [yrs::block::BLOCK_GC_REF_NUMBER] *)
  BLOCK_GC_REF_NUMBER : Z;
  (** [DecoderV1] and its construction from a slice *)
  DecoderV1 : Type;
  decoder_v1 : Decoder DecoderV1;
  decoder_v1_from : bytes -> DecoderV1;
  (** [Update::decode], for any decoder *)
  update_decode : forall S, Decoder S -> S -> attempt (option YUpdate);
  (** [Doc::with_options] with UTF-16 offsets and a client identifier *)
  doc_with_client : N -> Doc;
  (** [get_or_insert_text(root).push(...)] *)
  doc_push_text : Doc -> string -> bytes -> Doc;
  (** [transact_mut().apply_update(update)] *)
  doc_apply_update : Doc -> YUpdate -> attempt (option Doc);
  (** [transact().encode_state_as_update_v1(&StateVector::default())] *)
  doc_encode_state : Doc -> attempt bytes;
  (** [transact().get_text(root)] and its [get_string] *)
  doc_get_text : Doc -> string -> option bytes;
  (** [transact().state_vector().encode_v1()] *)
  doc_state_vector : Doc -> bytes
}.

(** ** The checks on the decoder *)

(** [CheckedDecoderV1]: the inner decoder and [pending_gc_length] *)
Definition CheckedDecoderV1 (S : Type) : Type := S * bool.

Section decoder.
Context `{YrsLib}.

(** A method that only delegates to the inner decoder. *)
Definition delegate {S A} (f : S -> result DecodeError (A * S)) (d : CheckedDecoderV1 S) : result DecodeError (A * CheckedDecoderV1 S) :=
  let? r := f d.1 in Ok (r.1, (r.2, d.2)).

Definition checked_read_info {S} (inner : Decoder S) (d : CheckedDecoderV1 S) : result DecodeError (Z * CheckedDecoderV1 S) :=
  let? r := read_info inner d.1 in Ok (r.1, (r.2, r.1 =? BLOCK_GC_REF_NUMBER)).

Definition checked_read_len {S} (inner : Decoder S) (d : CheckedDecoderV1 S) : result DecodeError (Z * CheckedDecoderV1 S) :=
  let pending_gc_length := d.2 in
  let? r := read_len inner d.1 in
  if pending_gc_length && (r.1 =? 0) then Err ZeroLengthBlock else Ok (r.1, (r.2, false)).

Definition checked_decoder {S} (inner : Decoder S) : Decoder (CheckedDecoderV1 S) := {|
  read_exact d n := delegate (fun s => read_exact inner s n) d;
  reset_ds_cur_val d := (reset_ds_cur_val inner d.1, d.2);
  read_ds_clock := delegate (read_ds_clock inner); read_ds_len := delegate (read_ds_len inner);
  read_left_id := delegate (read_left_id inner); read_right_id := delegate (read_right_id inner);
  read_client := delegate (read_client inner); read_info := checked_read_info inner;
  read_parent_info := delegate (read_parent_info inner); read_type_ref := delegate (read_type_ref inner);
  read_len := checked_read_len inner; read_any := delegate (read_any inner);
  read_json := delegate (read_json inner); read_key := delegate (read_key inner); read_to_end := delegate (read_to_end inner) |}.

Definition decode_update_v1 (input : bytes) : attempt (option YUpdate) :=
  update_decode _ (checked_decoder decoder_v1) (decoder_v1_from input, false).
End decoder.

Definition MARKDOWN_ROOT : string := "source".

Inductive RoomFreezeReason :=
| ExternalHead | Quota | StateLimit | RetainedPayloadLimit | CorruptState | AuthorizationUncertain | Expired.

Definition freeze_reason_display (r : RoomFreezeReason) : string :=
  match r with
  | ExternalHead => "external_head"
  | Quota => "quota"
  | StateLimit => "state_limit"
  | RetainedPayloadLimit => "retained_payload_limit"
  | CorruptState => "corrupt_state"
  | AuthorizationUncertain => "authorization_uncertain"
  | Expired => "expired"
  end.

Inductive RoomDocumentError :=
| RoomFrozen (reason : RoomFreezeReason)
| EmptyGroup
| UpdateTooLarge
| GroupTooLarge
| InvalidUpdate
| StaleSequence
| StateTooLarge
| SourceTooLarge
| SourceContainsNul
| InvalidSnapshot.

Record ApplyReceipt := mkReceipt {
  first_sequence : Z;
  last_sequence : Z;
  state_vector : bytes;
  state_digest : bytes;
  source_before_digest : bytes;
  source_after_digest : bytes
}.

(** [Checkpoint] of lib.rs *)
Record DocumentCheckpoint := mkDocumentCheckpoint {
  cp_source : bytes; cp_source_digest : bytes; cp_state_vector : bytes;
  cp_snapshot : bytes; cp_snapshot_digest : bytes; cp_server_sequence : Z
}.

(** [contain_untrusted_panic]: [catch_unwind] around the operation *)
Definition contain_untrusted_panic {A} (malformed : RoomDocumentError) (operation : attempt (result RoomDocumentError A)) : result RoomDocumentError A :=
  match operation with Returned result => result | Panicked => Err malformed end.

Section room.
Context `{Blake3Lib} `{YrsLib}.

Record StagedUpdate := mkStaged { staged_doc : Doc; staged_receipt : ApplyReceipt }.

Record RoomDocument := mkRoom {
  room_doc : Doc;
  room_limits : CollaborationLimitConfig;
  server_sequence : Z;
  room_frozen : option RoomFreezeReason
}.

Record ValidatedDocument := mkValidated { vd_source : bytes; vd_snapshot : bytes }.

(** [yjs_document]: the client identifier is drawn at random, an argument here. *)
Definition yjs_document (client_id : N) : Doc := doc_with_client client_id.

Definition digest (b : bytes) : bytes := blake3_hash b.

Definition contains_nul (source : bytes) : bool := existsb (fun c => byte_val c =? 0) source.

Definition snapshot (doc : Doc) : attempt bytes := doc_encode_state doc.

Definition normalized_source (doc : Doc) : result RoomDocumentError bytes :=
  let source := default [] (doc_get_text doc MARKDOWN_ROOT) in
  if MAX_MARKDOWN_SOURCE_BYTES <? len source then Err SourceTooLarge
  else if contains_nul source then Err SourceContainsNul
  else Ok source.

Definition validate_document (doc : Doc) (limits : CollaborationLimitConfig) : attempt (result RoomDocumentError ValidatedDocument) :=
  match doc_encode_state doc with
  | Panicked => Panicked
  | Returned snapshot =>
      Returned (if CollaborationLimitConfig_max_state_bytes limits <? len snapshot then Err StateTooLarge
                else let? source := normalized_source doc in Ok (mkValidated source snapshot))
  end.

Definition from_source_document (source : bytes) (limits : CollaborationLimitConfig) (doc : Doc) : RoomDocument :=
  mkRoom (doc_push_text doc MARKDOWN_ROOT source) limits 0 None.

Definition from_source_with_client_id (source : bytes) (limits : CollaborationLimitConfig) (client_id : N) : RoomDocument :=
  from_source_document source limits (doc_with_client client_id).

(** [decode_update_v1(bytes)] and [apply_update] on a document, both with the same error *)
Definition apply_encoded (malformed : RoomDocumentError) (doc : Doc) (encoded : bytes) : attempt (result RoomDocumentError Doc) :=
  try update := attempt_or malformed (decode_update_v1 encoded) in
  attempt_or malformed (doc_apply_update doc update).

Definition from_snapshot (random : N) (snapshot : bytes) (sequence : Z) (limits : CollaborationLimitConfig)
  : result RoomDocumentError RoomDocument :=
  if CollaborationLimitConfig_max_state_bytes limits <? len snapshot then Err StateTooLarge
  else
    let? doc := contain_untrusted_panic InvalidSnapshot
      (try doc := apply_encoded InvalidSnapshot (yjs_document random) snapshot in
       try _ := validate_document doc limits in
       Returned (Ok doc)) in
    Ok (mkRoom doc limits sequence None).

Definition freeze (room : RoomDocument) (reason : RoomFreezeReason) : RoomDocument :=
  mkRoom (room_doc room) (room_limits room) (server_sequence room) (Some reason).

(** [try_fold(0usize, |total, chunk| total.checked_add(chunk.len()))] *)
Fixpoint checked_total (max total : Z) (chunks : list bytes) : option Z :=
  match chunks with
  | [] => Some total
  | chunk :: rest => match checked 0 max (total + len chunk) with Some total => checked_total max total rest | None => None end
  end.

Definition stage_group (random : N) (room : RoomDocument) (chunks : list bytes) : attempt (result RoomDocumentError StagedUpdate) :=
  match room_frozen room with
  | Some reason => Returned (Err (RoomFrozen reason))
  | None =>
      if bool_decide (chunks = []) then Returned (Err EmptyGroup)
      else if existsb (fun chunk => CollaborationLimitConfig_max_update_bytes (room_limits room) <? len chunk) chunks
      then Returned (Err UpdateTooLarge)
      else
        try group_bytes := Returned (ok_or GroupTooLarge (checked_total usize_max 0 chunks)) in
        if CollaborationLimitConfig_max_operation_group_bytes (room_limits room) <? group_bytes then Returned (Err GroupTooLarge)
        else
          let encoded_update := concat chunks in
          try source_before := Returned (normalized_source (room_doc room)) in
          match snapshot (room_doc room) with
          | Panicked => Panicked
          | Returned current_snapshot =>
              try copy := apply_encoded InvalidSnapshot (yjs_document random) current_snapshot in
              try validated := Returned (contain_untrusted_panic InvalidUpdate
                (try staged := apply_encoded InvalidUpdate copy encoded_update in
                 try validated := validate_document staged (room_limits room) in
                 Returned (Ok (staged, validated)))) in
              let staged := validated.1 in
              let first_sequence := saturating_add_u64 (server_sequence room) 1 in
              Returned (Ok (mkStaged staged
                (mkReceipt first_sequence first_sequence (doc_state_vector staged) (digest (vd_snapshot validated.2))
                   (normalized_markdown_source_digest source_before) (normalized_markdown_source_digest (vd_source validated.2)))))
          end
  end.

Definition commit_staged (room : RoomDocument) (staged : StagedUpdate) : result RoomDocumentError ApplyReceipt * RoomDocument :=
  if negb (first_sequence (staged_receipt staged) =? saturating_add_u64 (server_sequence room) 1) then (Err StaleSequence, room)
  else (Ok (staged_receipt staged), mkRoom (staged_doc staged) (room_limits room) (last_sequence (staged_receipt staged)) (room_frozen room)).

Definition apply_group (random : N) (room : RoomDocument) (chunks : list bytes) : attempt (result RoomDocumentError ApplyReceipt * RoomDocument) :=
  match stage_group random room chunks with
  | Panicked => Panicked
  | Returned (Err e) => Returned (Err e, room)
  | Returned (Ok staged) => Returned (commit_staged room staged)
  end.

Definition checkpoint (room : RoomDocument) : attempt (result RoomDocumentError DocumentCheckpoint) :=
  try source := Returned (normalized_source (room_doc room)) in
  match doc_encode_state (room_doc room) with
  | Panicked => Panicked
  | Returned snapshot =>
      Returned (Ok (mkDocumentCheckpoint source (digest source) (doc_state_vector (room_doc room)) snapshot (digest snapshot) (server_sequence room)))
  end.
End room.

(** ** What the room relies on *)

Class YrsLaws `{YrsLib} := {
  (** two documents that hold the same items *)
  doc_equiv : relation Doc;
  doc_equiv_equivalence :: Equivalence doc_equiv;
  doc_new_equiv : forall c1 c2, doc_equiv (doc_with_client c1) (doc_with_client c2);
  doc_apply_equiv : forall d1 d2 u d1' d2', doc_equiv d1 d2 ->
    doc_apply_update d1 u = Returned (Some d1') -> doc_apply_update d2 u = Returned (Some d2') -> doc_equiv d1' d2';
  doc_text_equiv : forall d1 d2 root, doc_equiv d1 d2 -> doc_get_text d1 root = doc_get_text d2 root;
  (** the encoded state applied to an empty document restores the items *)
  doc_state_restores : forall d s u c d', doc_encode_state d = Returned s -> decode_update_v1 s = Returned (Some u) ->
    doc_apply_update (doc_with_client c) u = Returned (Some d') -> doc_equiv d' d
}.

Infix "≈" := doc_equiv (at level 70) : filebelt_scope.

Section replay.
Context `{Blake3Lib} `{YrsLib} `{!YrsLaws}.

(** [replays base history d]: [d] holds what the updates of [history] give, applied one
    after the other from [base]. *)
Inductive replays (base : Doc) : list bytes -> Doc -> Prop :=
| replays_base d : d ≈ base -> replays base [] d
| replays_update history d0 d0' b u d1 d :
    replays base history d0 -> d0' ≈ d0 -> decode_update_v1 b = Returned (Some u) -> doc_apply_update d0' u = Returned (Some d1) -> d ≈ d1 ->
    replays base (history ++ [b]) d.

#[export] Instance replays_proper base history : Proper (doc_equiv ==> iff) (replays base history).
Proof.
  assert (forall d d', d ≈ d' -> replays base history d -> replays base history d') as Himp.
  { intros d d' Hd Hr. inversion Hr; subst; [constructor 1; by rewrite <-Hd|econstructor 2; [done..|by rewrite <-Hd]]. }
  intros d d' Hd. split; apply Himp; [done|by symmetry].
Qed.

(** Two documents that replay the same history from the same base are equivalent. *)
Lemma replays_agree base history d1 d2 : replays base history d1 -> replays base history d2 -> d1 ≈ d2.
Proof.
  intros Hl. revert d2. induction Hl as [d Hd|history d0 d0' b u d1 d Hr IH Hd0 Hu Ha Hd]; intros d2 Hm.
  - inversion Hm; subst; [by etrans; [|symmetry]|]. by destruct history.
  - inversion Hm as [e He Hn|history' e0 e0' b' u' e1 e Hr' He0 Hu' Ha' He Hn]; [by destruct history|].
    apply app_inj_tail in Hn as [-> ->]. rewrite Hu in Hu'. simplify_eq. rewrite Hd, He. eapply doc_apply_equiv; [|exact Ha|exact Ha'].
    rewrite Hd0, He0. by apply IH.
Qed.

Lemma replays_same_text base history d1 d2 root :
  replays base history d1 -> replays base history d2 -> doc_get_text d1 root = doc_get_text d2 root.
Proof. intros Hl Hm. apply doc_text_equiv. by eapply replays_agree. Qed.

Lemma attempt_or_Ok {E A} (e : E) (r : attempt (option A)) a : attempt_or e r = Returned (Ok a) <-> r = Returned (Some a).
Proof. destruct r as [[a'|]|]; simpl; naive_solver. Qed.

Lemma apply_encoded_Ok e doc b d : apply_encoded e doc b = Returned (Ok d) <->
  exists u, decode_update_v1 b = Returned (Some u) /\ doc_apply_update doc u = Returned (Some d).
Proof.
  unfold apply_encoded. destruct (decode_update_v1 b) as [[u|]|]; simpl; [rewrite attempt_or_Ok|..]; naive_solver.
Qed.

Lemma contain_Ok {A} e (r : attempt (result RoomDocumentError A)) a : contain_untrusted_panic e r = Ok a <-> r = Returned (Ok a).
Proof. destruct r as [[a'|]|]; simpl; naive_solver. Qed.

Lemma validate_document_Ok d limits v : validate_document d limits = Returned (Ok v) <->
  doc_encode_state d = Returned (vd_snapshot v) /\ len (vd_snapshot v) <= CollaborationLimitConfig_max_state_bytes limits
  /\ normalized_source d = Ok (vd_source v).
Proof.
  unfold validate_document. destruct (doc_encode_state d) as [s|]; [|naive_solver]. destruct v as [src snap]. simpl.
  destruct (Z.ltb_spec (CollaborationLimitConfig_max_state_bytes limits) (len s)); [naive_solver lia|].
  destruct (normalized_source d); naive_solver.
Qed.

(** What a staged group is: the sum of its chunks, applied to a copy of the room. *)
Lemma stage_group_Ok random room chunks st : stage_group random room chunks = Returned (Ok st) ->
  room_frozen room = None /\ chunks <> [] /\ Forall (fun c => len c <= CollaborationLimitConfig_max_update_bytes (room_limits room)) chunks
  /\ (exists copy u, copy ≈ room_doc room /\ decode_update_v1 (concat chunks) = Returned (Some u)
        /\ doc_apply_update copy u = Returned (Some (staged_doc st)))
  /\ first_sequence (staged_receipt st) = saturating_add_u64 (server_sequence room) 1
  /\ last_sequence (staged_receipt st) = first_sequence (staged_receipt st)
  /\ (exists snap, doc_encode_state (staged_doc st) = Returned snap /\ len snap <= CollaborationLimitConfig_max_state_bytes (room_limits room)
        /\ state_digest (staged_receipt st) = blake3_hash snap)
  /\ (exists before, normalized_source (room_doc room) = Ok before /\ source_before_digest (staged_receipt st) = normalized_markdown_source_digest before)
  /\ (exists after, normalized_source (staged_doc st) = Ok after /\ source_after_digest (staged_receipt st) = normalized_markdown_source_digest after).
Proof.
  unfold stage_group. destruct (room_frozen room); [done|]. case_bool_decide; [done|].
  destruct (existsb _ chunks) eqn:Hbig; [done|]. destruct (checked_total usize_max 0 chunks) as [total|]; [|done]. cbn [ok_or].
  case_match; [done|]. destruct (normalized_source (room_doc room)) as [before|] eqn:Hbefore; [|done]. unfold snapshot.
  destruct (doc_encode_state (room_doc room)) as [cur|] eqn:Hcur; [|done].
  destruct (apply_encoded InvalidSnapshot (yjs_document random) cur) as [[copy|]|] eqn:Hcopy; [|done..].
  apply apply_encoded_Ok in Hcopy as (u0 & Hu0 & Hcopy).
  destruct (contain_untrusted_panic InvalidUpdate _) as [[staged v]|] eqn:Hv; [|done]. intros [= <-]. apply contain_Ok in Hv.
  destruct (apply_encoded InvalidUpdate copy (concat chunks)) as [[staged'|]|] eqn:Hst; [|done..].
  destruct (validate_document staged' (room_limits room)) as [[v'|]|] eqn:Hval; [|done..]. injection Hv as -> ->.
  apply apply_encoded_Ok in Hst as (u & Hu & Hst). apply validate_document_Ok in Hval as (Hsnap & Hlen & Hsrc). simpl.
  split_and!; try done; [|by exists copy, u; split; [by eapply doc_state_restores|]|by eauto..].
  apply Forall_forall. intros c Hc. apply not_true_iff_false in Hbig. rewrite existsb_exists in Hbig.
  apply Z.nlt_ge. intros Hlt. apply Hbig. exists c. by rewrite <-list_elem_of_In, Z.ltb_lt.
Qed.

Lemma stage_group_replays base history random room chunks st :
  replays base history (room_doc room) -> stage_group random room chunks = Returned (Ok st) ->
  replays base (history ++ [concat chunks]) (staged_doc st).
Proof.
  intros Hr (_ & _ & _ & (copy & u & Hc & Hu & Ha) & _)%stage_group_Ok. by econstructor 2.
Qed.

Lemma commit_staged_Ok room st receipt room' : commit_staged room st = (Ok receipt, room') ->
  receipt = staged_receipt st /\ first_sequence receipt = saturating_add_u64 (server_sequence room) 1
  /\ room' = mkRoom (staged_doc st) (room_limits room) (last_sequence receipt) (room_frozen room).
Proof. unfold commit_staged. case_match eqn:Hf; [done|]. apply negb_false_iff, Z.eqb_eq in Hf. naive_solver. Qed.
Lemma commit_staged_Err room st e room' : commit_staged room st = (Err e, room') -> e = StaleSequence /\ room' = room.
Proof. unfold commit_staged. case_match; naive_solver. Qed.

(** A group applied to a room extends its history by one update, or leaves the room as
    it was. *)
Lemma apply_group_cases base history random room chunks r room' :
  replays base history (room_doc room) -> server_sequence room < u64_max ->
  apply_group random room chunks = Returned (r, room') ->
  match r with
  | Err _ => room' = room
  | Ok receipt => first_sequence receipt = server_sequence room + 1 /\ server_sequence room' = server_sequence room + 1
      /\ last_sequence receipt = first_sequence receipt
      /\ room_limits room' = room_limits room /\ room_frozen room' = room_frozen room
      /\ replays base (history ++ [concat chunks]) (room_doc room')
  end.
Proof.
  intros Hr Hmax. unfold apply_group. destruct (stage_group random room chunks) as [[st|e]|] eqn:Hs; [|naive_solver..].
  pose proof (stage_group_replays _ _ _ _ _ _ Hr Hs) as Hr'. apply stage_group_Ok in Hs as (_ & _ & _ & _ & Hf & Hl & _).
  intros [=Hc]. destruct r as [receipt|e]; [|by apply commit_staged_Err in Hc as [_ ->]].
  apply commit_staged_Ok in Hc as (-> & Hf' & ->). unfold saturating_add_u64 in *. simpl. split_and!; try done; lia.
Qed.
End replay.
