(* ===== verification/CollaborationStore.v ===== *)
(** Model of [source/crates/filebelt-database/src/collaboration.rs]: the transactions
    on the durable state of collaboration rooms.

    The state is the rows of one tenant: every statement selects by [tenant_id=$1], so
    the column is left out.  A table is the list of its rows in insertion order; a
    [WHERE] clause is a boolean on rows; a transaction is a function of the tables that
    returns the tables unchanged when it does not commit.  [clock_timestamp()] is the
    argument [now] in microseconds, [Uuid::new_v4()] an argument.  The checks and unique
    indexes of [migrations/postgres/000003_phase5_markdown.sql] that the statements can
    violate are checked by the operations and give the error [Sql]; the security-definer
    functions of [000018_collaboration_backend_reservation.sql] are translated with the
    statement that calls them.  Foreign keys are not modelled.  The rows that the
    authorization fence reads (sessions, users, principals, drives, nodes) are given by
    the generations they project to. *)
From S2P Require Import Prelude Collections Libraries Frames.

Open Scope string_scope.
Open Scope Z_scope.
Open Scope list_scope.
Open Scope bool_scope.

Inductive DatabaseError :=
| Sql | Migration | NotFound | Conflict | QuotaExceeded | StorageUnavailable | AdmissionLimited | SecurityAdmissionBlocked
| StaleGeneration | InvalidPersistedValue.
#[export] Instance DatabaseError_eq_dec : EqDecision DatabaseError.
Proof. solve_decision. Defined.

(** ** Rows *)

Inductive EpochState := EpochActive | EpochFrozen | EpochClosed | EpochTombstoned.
#[export] Instance EpochState_eq_dec : EqDecision EpochState.
Proof. solve_decision. Defined.
Inductive ObjectState := Staging | Durable | Superseded | DeleteIntent | Tombstoned | Quarantined | Abandoned.
#[export] Instance ObjectState_eq_dec : EqDecision ObjectState.
Proof. solve_decision. Defined.
Inductive PayloadState := PStaging | PFinalized | PReferenced | PDeleteIntent | PDeleting | PDeleted | PAbandoned.
#[export] Instance PayloadState_eq_dec : EqDecision PayloadState.
Proof. solve_decision. Defined.
Inductive ReservationState := ReservationActive | ReservationCommitted | ReservationReleased.
#[export] Instance ReservationState_eq_dec : EqDecision ReservationState.
Proof. solve_decision. Defined.
Inductive Purpose := UpdateGroupPurpose | SnapshotPurpose.
#[export] Instance Purpose_eq_dec : EqDecision Purpose.
Proof. solve_decision. Defined.

Record RoomRow := mkRoomRow { r_id : Uuid; r_drive : Uuid; r_node : Uuid; r_current_epoch : Z; r_created_by : Uuid }.
Record EpochRow := mkEpochRow {
  e_room : Uuid; e_epoch : Z; e_drive : Uuid; e_node : Uuid; e_base_version : Uuid;
  e_state : EpochState; e_freeze_reason : option string; e_dirty : bool; e_durable_sequence : Z; e_fencing_token : Z;
  e_expires_at : Z; e_warning_at : Z; e_warning_emitted_at : option Z; e_closed_at : option Z
}.
Record ObjectRow := mkObjectRow {
  o_id : Uuid; o_room : Uuid; o_epoch : Z; o_drive : Uuid; o_payload : Uuid; o_purpose : Purpose; o_state : ObjectState;
  o_reserved_bytes : Z; o_size_bytes : option Z; o_blake3 : option bytes; o_created_at : Z; o_durable_at : option Z; o_delete_after : option Z
}.
Record PayloadRow := mkPayloadRow {
  p_id : Uuid; p_drive : Uuid; p_backend : Uuid; p_locator : Uuid; p_state : PayloadState; p_size_bytes : Z; p_blake3 : option bytes
}.
Record ReservationRow := mkReservationRow {
  rv_object : Uuid; rv_drive : Uuid; rv_bytes : Z; rv_state : ReservationState; rv_expires_at : Z
}.
Record DriveRow := mkDriveRow { d_id : Uuid; d_used_physical_bytes : Z; d_reserved_bytes : Z; d_quota_bytes : Z }.
Record BackendRow := mkBackendRow {
  b_id : Uuid; b_posix : bool; b_storage_ready : bool; b_capacity_checked_at : Z; b_capacity_free_bytes : Z; b_capacity_total_bytes : Z
}.

(** [CollaborationUpdateChunkInput] *)
Record ChunkInput := mkChunkInput { chunk_index : Z; object_offset : Z; size_bytes : Z; chunk_blake3 : bytes }.
#[export] Instance ChunkInput_eq_dec : EqDecision ChunkInput.
Proof. solve_decision. Defined.

Record GroupRow := mkGroupRow {
  g_room : Uuid; g_epoch : Z; g_id : Uuid; g_client : Uuid; g_client_update : Uuid; g_actor : Uuid;
  g_mcp_invocation : option Uuid; g_source_before : bytes; g_source_after : bytes; g_object : Uuid;
  g_chunk_count : Z; g_total_bytes : Z; g_first_sequence : Z; g_last_sequence : Z; g_state_vector : bytes; g_state_digest : bytes
}.
Record ChunkRow := mkChunkRow { ck_group : Uuid; ck_input : ChunkInput }.
Record SnapshotRow := mkSnapshotRow {
  s_room : Uuid; s_epoch : Z; s_id : Uuid; s_object : Uuid; s_covered_sequence : Z; s_state_vector : bytes; s_superseded_at : option Z
}.
(** [CollaborationAuthorizationGenerations] and [CollaborationAuthorizationContext] *)
Record Generations := mkGenerations { gen_membership : Z; gen_drive_acl : Z; gen_namespace : Z; gen_resource_acl : Z }.
#[export] Instance Generations_eq_dec : EqDecision Generations.
Proof. solve_decision. Defined.
Record AuthorizationContext := mkAuthorization {
  au_principal : Uuid; au_session : Uuid; au_drive : Uuid; au_node : Uuid; au_generations : Generations
}.
Record JoinGrantRow := mkJoinGrantRow {
  jg_id : Uuid; jg_token_digest : bytes; jg_room : Uuid; jg_epoch : Z; jg_principal : Uuid; jg_session : Uuid; jg_client : Uuid;
  jg_presence_mode : string; jg_presence_label : string; jg_generations : Generations; jg_can_checkpoint : bool; jg_expires_at : Z; jg_consumed_at : option Z
}.
Record ParticipantRow := mkParticipantRow {
  pt_room : Uuid; pt_epoch : Z; pt_client : Uuid; pt_connection : Uuid; pt_principal : Uuid; pt_session : Uuid; pt_expires_at : Z
}.
Inductive CheckpointRowState := Prepared | Committed | CheckpointExpired | Rejected.
#[export] Instance CheckpointRowState_eq_dec : EqDecision CheckpointRowState.
Proof. solve_decision. Defined.
Record CheckpointRow := mkCheckpointRow {
  ch_id : Uuid; ch_room : Uuid; ch_epoch : Z; ch_node : Uuid; ch_base_version : Uuid; ch_durable_sequence : Z; ch_state_vector : bytes;
  ch_source_size : Z; ch_source_blake3 : bytes; ch_created_by : Uuid; ch_mcp_assisted : bool; ch_state : CheckpointRowState; ch_expires_at : Z
}.
(** the columns of [filebelt_mcp.invocations] that the statements read *)
Record InvocationRow := mkInvocationRow {
  i_id : Uuid; i_principal : Uuid; i_application : string; i_succeeded : bool; i_node : Uuid; i_base_version : Uuid;
  i_input_digest : bytes; i_output_digest : bytes
}.
(** a queued [payload_delete] job: the prefix of its idempotency key and the payload *)
Record JobRow := mkJobRow { j_prefix : string; j_payload : Uuid }.

Record FenceRow := mkFenceRow { f_principal : Uuid; f_session : Uuid; f_drive : Uuid; f_node : Uuid; f_generations : Generations }.

Record Tables := mkTables {
  t_rooms : list RoomRow; t_epochs : list EpochRow; t_objects : list ObjectRow; t_payloads : list PayloadRow;
  t_reservations : list ReservationRow; t_drives : list DriveRow; t_backends : list BackendRow; t_groups : list GroupRow;
  t_chunks : list ChunkRow; t_snapshots : list SnapshotRow; t_join_grants : list JoinGrantRow; t_participants : list ParticipantRow;
  t_checkpoints : list CheckpointRow; t_invocations : list InvocationRow; t_jobs : list JobRow; t_fence : list FenceRow
}.

Definition with_rooms db x := mkTables x (t_epochs db) (t_objects db) (t_payloads db) (t_reservations db) (t_drives db) (t_backends db) (t_groups db) (t_chunks db) (t_snapshots db) (t_join_grants db) (t_participants db) (t_checkpoints db) (t_invocations db) (t_jobs db) (t_fence db).
Definition with_epochs db x := mkTables (t_rooms db) x (t_objects db) (t_payloads db) (t_reservations db) (t_drives db) (t_backends db) (t_groups db) (t_chunks db) (t_snapshots db) (t_join_grants db) (t_participants db) (t_checkpoints db) (t_invocations db) (t_jobs db) (t_fence db).
Definition with_objects db x := mkTables (t_rooms db) (t_epochs db) x (t_payloads db) (t_reservations db) (t_drives db) (t_backends db) (t_groups db) (t_chunks db) (t_snapshots db) (t_join_grants db) (t_participants db) (t_checkpoints db) (t_invocations db) (t_jobs db) (t_fence db).
Definition with_payloads db x := mkTables (t_rooms db) (t_epochs db) (t_objects db) x (t_reservations db) (t_drives db) (t_backends db) (t_groups db) (t_chunks db) (t_snapshots db) (t_join_grants db) (t_participants db) (t_checkpoints db) (t_invocations db) (t_jobs db) (t_fence db).
Definition with_reservations db x := mkTables (t_rooms db) (t_epochs db) (t_objects db) (t_payloads db) x (t_drives db) (t_backends db) (t_groups db) (t_chunks db) (t_snapshots db) (t_join_grants db) (t_participants db) (t_checkpoints db) (t_invocations db) (t_jobs db) (t_fence db).
Definition with_drives db x := mkTables (t_rooms db) (t_epochs db) (t_objects db) (t_payloads db) (t_reservations db) x (t_backends db) (t_groups db) (t_chunks db) (t_snapshots db) (t_join_grants db) (t_participants db) (t_checkpoints db) (t_invocations db) (t_jobs db) (t_fence db).
Definition with_groups db x := mkTables (t_rooms db) (t_epochs db) (t_objects db) (t_payloads db) (t_reservations db) (t_drives db) (t_backends db) x (t_chunks db) (t_snapshots db) (t_join_grants db) (t_participants db) (t_checkpoints db) (t_invocations db) (t_jobs db) (t_fence db).
Definition with_chunks db x := mkTables (t_rooms db) (t_epochs db) (t_objects db) (t_payloads db) (t_reservations db) (t_drives db) (t_backends db) (t_groups db) x (t_snapshots db) (t_join_grants db) (t_participants db) (t_checkpoints db) (t_invocations db) (t_jobs db) (t_fence db).
Definition with_snapshots db x := mkTables (t_rooms db) (t_epochs db) (t_objects db) (t_payloads db) (t_reservations db) (t_drives db) (t_backends db) (t_groups db) (t_chunks db) x (t_join_grants db) (t_participants db) (t_checkpoints db) (t_invocations db) (t_jobs db) (t_fence db).
Definition with_join_grants db x := mkTables (t_rooms db) (t_epochs db) (t_objects db) (t_payloads db) (t_reservations db) (t_drives db) (t_backends db) (t_groups db) (t_chunks db) (t_snapshots db) x (t_participants db) (t_checkpoints db) (t_invocations db) (t_jobs db) (t_fence db).
Definition with_participants db x := mkTables (t_rooms db) (t_epochs db) (t_objects db) (t_payloads db) (t_reservations db) (t_drives db) (t_backends db) (t_groups db) (t_chunks db) (t_snapshots db) (t_join_grants db) x (t_checkpoints db) (t_invocations db) (t_jobs db) (t_fence db).
Definition with_checkpoints db x := mkTables (t_rooms db) (t_epochs db) (t_objects db) (t_payloads db) (t_reservations db) (t_drives db) (t_backends db) (t_groups db) (t_chunks db) (t_snapshots db) (t_join_grants db) (t_participants db) x (t_invocations db) (t_jobs db) (t_fence db).
Definition with_jobs db x := mkTables (t_rooms db) (t_epochs db) (t_objects db) (t_payloads db) (t_reservations db) (t_drives db) (t_backends db) (t_groups db) (t_chunks db) (t_snapshots db) (t_join_grants db) (t_participants db) (t_checkpoints db) (t_invocations db) x (t_fence db).

(** ** Statements *)

(** [UPDATE ... SET f WHERE p] and the number of rows it affects *)
Definition update_rows {R} (p : R -> bool) (f : R -> R) (rows : list R) : list R := map (fun r => if p r then f r else r) rows.
Definition rows_affected {R} (p : R -> bool) (rows : list R) : Z := len (List.filter p rows).

(** A step of a transaction: an error rolls back to the tables [db]. *)
Notation "'tx' db 'let' x ':=' e 'in' k" :=
  (match e with Ok x => k | Err err => (Err err, db) end)
  (at level 10, db at level 0, x name, e at level 100, k at level 200) : filebelt_scope.
Notation "'tx' db 'ensure' c 'else' err 'in' k" :=
  (if c then k else (Err err, db))
  (at level 10, db at level 0, c at level 100, err at level 100, k at level 200) : filebelt_scope.

Definition SECOND_US : Z := 1000000.
Definition MINUTE_US : Z := 60 * SECOND_US.
Definition DAY_US : Z := 24 * 60 * MINUTE_US.

Definition FREEZE_REASONS : list string :=
  ["external_head"; "authorization_uncertain"; "quota"; "state_limit"; "retained_payload_limit"; "corrupt_state"; "expired"; "discarded"].

(** The [CHECK] constraints of the table [epochs]. *)
Definition epoch_checks (e : EpochRow) : bool :=
  (0 <? e_epoch e) && (0 <=? e_durable_sequence e) && (0 <? e_fencing_token e) && (e_fencing_token e <=? i64_max) && (e_warning_at e <? e_expires_at e)
  && match e_freeze_reason e with None => true | Some reason => existsb (String.eqb reason) FREEZE_REASONS end
  && Bool.eqb (bool_decide (e_state e = EpochActive \/ e_state e = EpochFrozen)) (bool_decide (e_closed_at e = None))
  && Bool.eqb (bool_decide (e_state e = EpochFrozen)) (bool_decide (e_freeze_reason e <> None)).

(** An [UPDATE] of [epochs]: every updated row has to satisfy the constraints. *)
Definition update_epochs (p : EpochRow -> bool) (f : EpochRow -> EpochRow) (db : Tables) : result DatabaseError (Z * Tables) :=
  if forallb (fun e => epoch_checks (f e)) (List.filter p (t_epochs db))
  then Ok (rows_affected p (t_epochs db), with_epochs db (update_rows p f (t_epochs db)))
  else Err Sql.

Definition at_epoch (room : Uuid) (epoch : Z) (e : EpochRow) : bool := N.eqb (e_room e) room && (e_epoch e =? epoch).
Definition is_active (e : EpochRow) : bool := bool_decide (e_state e = EpochActive).
Definition find_epoch (db : Tables) (room : Uuid) (epoch : Z) : option EpochRow := List.find (at_epoch room epoch) (t_epochs db).

Definition find_object (db : Tables) (id : Uuid) : option ObjectRow := List.find (fun o => N.eqb (o_id o) id) (t_objects db).
Definition find_payload (db : Tables) (id : Uuid) : option PayloadRow := List.find (fun p => N.eqb (p_id p) id) (t_payloads db).
Definition find_reservation (db : Tables) (object : Uuid) : option ReservationRow :=
  List.find (fun r => N.eqb (rv_object r) object) (t_reservations db).
Definition find_drive (db : Tables) (id : Uuid) : option DriveRow := List.find (fun d => N.eqb (d_id d) id) (t_drives db).

(** [lock_collaboration_authorization_fence] *)
Definition lock_authorization_fence (db : Tables) (a : AuthorizationContext) : result DatabaseError unit :=
  match List.find (fun f => N.eqb (f_principal f) (au_principal a) && N.eqb (f_session f) (au_session a)
                            && N.eqb (f_drive f) (au_drive a) && N.eqb (f_node f) (au_node a)) (t_fence db) with
  | None => Err StaleGeneration
  | Some f => if bool_decide (f_generations f = au_generations a) then Ok tt else Err StaleGeneration
  end.

(** ** Setters of rows *)

Definition set_object_state (s : ObjectState) (delete_after : option Z) (o : ObjectRow) : ObjectRow :=
  mkObjectRow (o_id o) (o_room o) (o_epoch o) (o_drive o) (o_payload o) (o_purpose o) s (o_reserved_bytes o) (o_size_bytes o) (o_blake3 o)
    (o_created_at o) (o_durable_at o) delete_after.
Definition set_object_durable (size : Z) (blake3 : bytes) (now : Z) (o : ObjectRow) : ObjectRow :=
  mkObjectRow (o_id o) (o_room o) (o_epoch o) (o_drive o) (o_payload o) (o_purpose o) Durable (o_reserved_bytes o) (Some size) (Some blake3)
    (o_created_at o) (Some now) (o_delete_after o).
Definition set_payload_state (s : PayloadState) (p : PayloadRow) : PayloadRow :=
  mkPayloadRow (p_id p) (p_drive p) (p_backend p) (p_locator p) s (p_size_bytes p) (p_blake3 p).
Definition set_reservation_state (s : ReservationState) (r : ReservationRow) : ReservationRow :=
  mkReservationRow (rv_object r) (rv_drive r) (rv_bytes r) s (rv_expires_at r).
Definition set_drive (used reserved : Z) (d : DriveRow) : DriveRow :=
  mkDriveRow (d_id d) used reserved (d_quota_bytes d).
Definition set_epoch_state (s : EpochState) (reason : option string) (dirty : bool) (closed : option Z) (e : EpochRow) : EpochRow :=
  mkEpochRow (e_room e) (e_epoch e) (e_drive e) (e_node e) (e_base_version e) s reason dirty (e_durable_sequence e) (e_fencing_token e + 1)
    (e_expires_at e) (e_warning_at e) (e_warning_emitted_at e) closed.

Definition supersede (now : Z) : ObjectRow -> ObjectRow := set_object_state Superseded (Some (now + DAY_US)).
Definition object_in_state (id : Uuid) (s : ObjectState) (o : ObjectRow) : bool := N.eqb (o_id o) id && bool_decide (o_state o = s).

(** ** Records returned to the callers *)

(** [CollaborationSummaryRecord] *)
Record Summary := mkSummary {
  sm_room_id : Uuid; sm_epoch : Z; sm_drive_id : Uuid; sm_node_id : Uuid; sm_base_version_id : Uuid; sm_state : EpochState;
  sm_durable_sequence : Z; sm_fencing_token : Z; sm_expires_at : Z; sm_warning_at : Z
}.
Definition summary_from_row (e : EpochRow) : Summary :=
  mkSummary (e_room e) (e_epoch e) (e_drive e) (e_node e) (e_base_version e) (e_state e) (e_durable_sequence e) (e_fencing_token e)
    (e_expires_at e) (e_warning_at e).

(** [CollaborationObjectRecord] *)
Record ObjectRecord := mkObjectRecord {
  ob_id : Uuid; ob_room_id : Uuid; ob_epoch : Z; ob_drive_id : Uuid; ob_node_id : Uuid; ob_fencing_token : Z; ob_payload_id : Uuid;
  ob_backend_id : Uuid; ob_payload_locator : Uuid; ob_purpose : Purpose; ob_state : ObjectState; ob_reserved_bytes : Z;
  ob_size_bytes : option Z; ob_blake3 : option bytes
}.
(** [object_from_row] on the join of an object with its epoch and payload *)
Definition object_from_row (o : ObjectRow) (e : EpochRow) (p : PayloadRow) : ObjectRecord :=
  mkObjectRecord (o_id o) (o_room o) (o_epoch o) (o_drive o) (e_node e) (e_fencing_token e) (o_payload o) (p_backend p) (p_locator p)
    (o_purpose o) (o_state o) (o_reserved_bytes o) (o_size_bytes o) (o_blake3 o).
Definition join_object (db : Tables) (o : ObjectRow) : option ObjectRecord :=
  match find_epoch db (o_room o) (o_epoch o), find_payload db (o_payload o) with
  | Some e, Some p => Some (object_from_row o e p)
  | _, _ => None
  end.

(** [CollaborationReplayGroupRecord] and [CollaborationSnapshotRecord] *)
Record ReplayGroup := mkReplayGroup { rg_object : ObjectRecord; rg_first_sequence : Z; rg_last_sequence : Z; rg_chunks : list ChunkInput }.
Record SnapshotRecord := mkSnapshotRecord { sr_object : ObjectRecord; sr_covered_sequence : Z; sr_state_vector : bytes }.

(** ** Rooms and epochs *)

Definition collaboration_room (db : Tables) (drive node : Uuid) : option Summary :=
  match List.find (fun r => N.eqb (r_drive r) drive && N.eqb (r_node r) node) (t_rooms db) with
  | None => None
  | Some r => option_map summary_from_row (find_epoch db (r_id r) (r_current_epoch r))
  end.

Definition collaboration_freeze (db : Tables) (room : Uuid) (epoch : Z) (reason : string) : result DatabaseError unit * Tables :=
  tx db let r := update_epochs (fun e => at_epoch room epoch e && is_active e)
                   (fun e => set_epoch_state EpochFrozen (Some reason) (e_dirty e) (e_closed_at e) e) db in
  tx db ensure r.1 =? 1 else Conflict in (Ok tt, r.2).

(** The columns of an [INSERT INTO epochs] that has only the keys: the defaults of the table. *)
Definition new_epoch (room : Uuid) (epoch : Z) (drive node base_version : Uuid) (now : Z) : EpochRow :=
  mkEpochRow room epoch drive node base_version EpochActive None false 0 1 (now + 30 * DAY_US) (now + 23 * DAY_US) None None.
(** the primary key and the index of the one active epoch of a room *)
Definition insert_epoch (db : Tables) (e : EpochRow) : result DatabaseError Tables :=
  if epoch_checks e && negb (existsb (fun x => at_epoch (e_room e) (e_epoch e) x || (N.eqb (e_room x) (e_room e) && is_active x && is_active e)) (t_epochs db))
  then Ok (with_epochs db (t_epochs db ++ [e])) else Err Sql.

Inductive RoomWrite := RoomReady (s : Summary) | ConflictAfterFreeze.

(** [collaboration_locked_room_tx]: the room of a node with its current epoch *)
Definition locked_room (db : Tables) (drive node : Uuid) : option EpochRow :=
  match List.find (fun r => N.eqb (r_drive r) drive && N.eqb (r_node r) node) (t_rooms db) with
  | None => None
  | Some r => find_epoch db (r_id r) (r_current_epoch r)
  end.

(** [collaboration_reuse_locked_room_tx]: in an open transaction, so the tables come back with the value. *)
Definition reuse_locked_room (db : Tables) (drive node base_version : Uuid) (row : EpochRow) (now : Z) : result DatabaseError (RoomWrite * Tables) :=
  let at_row := at_epoch (e_room row) (e_epoch row) in
  if bool_decide (e_state row = EpochActive) && negb (N.eqb (e_base_version row) base_version) && e_dirty row then
    let? r := update_epochs (fun e => at_row e && is_active e)
                (fun e => set_epoch_state EpochFrozen (Some "external_head") (e_dirty e) (e_closed_at e) e) db in
    Ok (ConflictAfterFreeze, r.2)
  else if bool_decide (e_state row = EpochActive) && N.eqb (e_base_version row) base_version then Ok (RoomReady (summary_from_row row), db)
  else if bool_decide (e_state row = EpochFrozen) && e_dirty row then Err Conflict
  else
    let? db :=
      (if bool_decide (e_state row = EpochActive \/ e_state row = EpochFrozen) then
         let? r := update_epochs (fun e => at_row e && bool_decide (e_state e = EpochActive \/ e_state e = EpochFrozen) && negb (e_dirty e))
                     (fun e => set_epoch_state EpochClosed (Some (default "external_head" (e_freeze_reason e))) false (Some now) e) db in
         if r.1 =? 1 then Ok r.2 else Err Conflict
       else Ok db) in
    let? epoch := ok_or InvalidPersistedValue (checked i64_min i64_max (e_epoch row + 1)) in
    let next := new_epoch (e_room row) epoch drive node base_version now in
    let? db := insert_epoch db next in
    Ok (RoomReady (summary_from_row next),
        with_rooms db (update_rows (fun r => N.eqb (r_id r) (e_room row))
                         (fun r => mkRoomRow (r_id r) (r_drive r) (r_node r) epoch (r_created_by r)) (t_rooms db))).

(** [collaboration_get_or_create_room_tx]; the transactions are serial here, so the
    insertion of a room that was not found does not meet a conflicting one: [ON CONFLICT]
    finds what the first statement did not. *)
Definition get_or_create_room_tx (db : Tables) (drive node base_version created_by fresh : Uuid) (now : Z) : result DatabaseError (RoomWrite * Tables) :=
  match locked_room db drive node with
  | Some row => reuse_locked_room db drive node base_version row now
  | None =>
      if existsb (fun r => N.eqb (r_drive r) drive && N.eqb (r_node r) node) (t_rooms db) then Err Conflict
      else if existsb (fun r => N.eqb (r_id r) fresh) (t_rooms db) then Err Sql
      else
        let db := with_rooms db (t_rooms db ++ [mkRoomRow fresh drive node 1 created_by]) in
        let row := new_epoch fresh 1 drive node base_version now in
        let? db := insert_epoch db row in
        Ok (RoomReady (summary_from_row row), db)
  end.

Definition collaboration_get_or_create_room (db : Tables) (drive node base_version created_by fresh : Uuid) (now : Z)
  : result DatabaseError Summary * Tables :=
  tx db let r := get_or_create_room_tx db drive node base_version created_by fresh now in
  match r.1 with
  | RoomReady s => (Ok s, r.2)
  | ConflictAfterFreeze => (Err Conflict, r.2)
  end.

(** [collaboration_discard] *)
Definition collaboration_discard (db : Tables) (room : Uuid) (epoch : Z) (a : AuthorizationContext) (now : Z) : result DatabaseError unit * Tables :=
  tx db let _ := lock_authorization_fence db a in
  tx db let r := update_epochs
    (fun e => at_epoch room epoch e && N.eqb (e_drive e) (au_drive a) && N.eqb (e_node e) (au_node a)
              && bool_decide (e_state e = EpochActive \/ e_state e = EpochFrozen))
    (fun e => mkEpochRow (e_room e) (e_epoch e) (e_drive e) (e_node e) (e_base_version e)
                (if e_dirty e then EpochFrozen else EpochClosed) (if e_dirty e then Some "discarded" else None) (e_dirty e)
                (e_durable_sequence e) (e_fencing_token e + 1)
                (if e_dirty e then now else e_expires_at e) (if e_dirty e then now - 1 else e_warning_at e) (e_warning_emitted_at e)
                (if e_dirty e then None else Some now)) db in
  tx db ensure r.1 =? 1 else Conflict in (Ok tt, r.2).

(** ** Join grants and participants *)

(** characters of a UTF-8 text: the bytes that start one *)
Definition char_count (s : bytes) : Z := rows_affected (fun b => negb (continuation b)) s.

(** The [CHECK] constraints of the table [join_grants]; [length] counts characters. *)
Definition join_grant_checks (g : JoinGrantRow) : bool :=
  (len (jg_token_digest g) =? 32) && existsb (String.eqb (jg_presence_mode g)) ["pseudonym"; "display_name"]
  && (1 <=? char_count (as_bytes (jg_presence_label g))) && (char_count (as_bytes (jg_presence_label g)) <=? 120)
  && (0 <? gen_resource_acl (jg_generations g)) && (0 <? gen_drive_acl (jg_generations g)) && (0 <? gen_membership (jg_generations g))
  && (0 <? gen_namespace (jg_generations g)).

(** [collaboration_create_join_grant]: [INSERT ... SELECT] from the active epoch *)
Definition collaboration_create_join_grant (db : Tables) (id room : Uuid) (epoch : Z) (token_digest : bytes) (principal session client : Uuid)
    (presence_mode presence_label : string) (generations : Generations) (can_checkpoint : bool) (now : Z) : result DatabaseError JoinGrantRow * Tables :=
  match List.find (fun e => at_epoch room epoch e && is_active e) (t_epochs db) with
  | None => (Err Conflict, db)
  | Some _ =>
      let row := mkJoinGrantRow id token_digest room epoch principal session client presence_mode presence_label generations can_checkpoint
                   (now + 60 * SECOND_US) None in
      tx db ensure join_grant_checks row else Sql in
      tx db ensure negb (existsb (fun g => N.eqb (jg_id g) id || bool_decide (jg_token_digest g = token_digest)) (t_join_grants db)) else Sql in
      (Ok row, with_join_grants db (t_join_grants db ++ [row]))
  end.

Definition grant_open (db : Tables) (token_digest : bytes) (now : Z) (g : JoinGrantRow) : bool :=
  bool_decide (jg_token_digest g = token_digest) && bool_decide (jg_consumed_at g = None) && (now <? jg_expires_at g)
  && existsb (fun e => at_epoch (jg_room g) (jg_epoch g) e && is_active e) (t_epochs db).

Definition collaboration_consume_join_grant (db : Tables) (token_digest : bytes) (now : Z) : result DatabaseError JoinGrantRow * Tables :=
  let consume g := mkJoinGrantRow (jg_id g) (jg_token_digest g) (jg_room g) (jg_epoch g) (jg_principal g) (jg_session g) (jg_client g)
                     (jg_presence_mode g) (jg_presence_label g) (jg_generations g) (jg_can_checkpoint g) (jg_expires_at g) (Some now) in
  match List.find (grant_open db token_digest now) (t_join_grants db) with
  | None => (Err NotFound, db)
  | Some g => (Ok (consume g), with_join_grants db (update_rows (grant_open db token_digest now) consume (t_join_grants db)))
  end.

Definition participant_in (room : Uuid) (epoch : Z) (p : ParticipantRow) : bool := N.eqb (pt_room p) room && (pt_epoch p =? epoch).

Definition collaboration_join_participant (db : Tables) (room : Uuid) (epoch : Z) (client principal session : Uuid) (max_participants : Z)
    (connection : Uuid) (now : Z) : result DatabaseError Uuid * Tables :=
  tx db ensure (1 <=? max_participants) && (max_participants <=? 32) else InvalidPersistedValue in
  tx db ensure existsb (fun e => at_epoch room epoch e && is_active e) (t_epochs db) else Conflict in
  let live := List.filter (fun p => negb (participant_in room epoch p && (pt_expires_at p <=? now))) (t_participants db) in
  tx db ensure rows_affected (participant_in room epoch) live <? max_participants else AdmissionLimited in
  tx db ensure negb (existsb (fun p => participant_in room epoch p && N.eqb (pt_client p) client) live) else Conflict in
  tx db ensure negb (existsb (fun p => N.eqb (pt_connection p) connection) live) else Sql in
  (Ok connection, with_participants db (live ++ [mkParticipantRow room epoch client connection principal session (now + 90 * SECOND_US)])).

Definition collaboration_heartbeat_participant (db : Tables) (connection : Uuid) (now : Z) : result DatabaseError unit * Tables :=
  let live p := N.eqb (pt_connection p) connection && (now <? pt_expires_at p) in
  tx db ensure rows_affected live (t_participants db) =? 1 else StaleGeneration in
  (Ok tt, with_participants db (update_rows live
            (fun p => mkParticipantRow (pt_room p) (pt_epoch p) (pt_client p) (pt_connection p) (pt_principal p) (pt_session p) (now + 90 * SECOND_US))
            (t_participants db))).

Definition collaboration_leave_participant (db : Tables) (connection : Uuid) : result DatabaseError unit * Tables :=
  (Ok tt, with_participants db (List.filter (fun p => negb (N.eqb (pt_connection p) connection)) (t_participants db))).

(** ** Objects *)

Definition reserved_total (db : Tables) : Z := foldr (fun d total => d_reserved_bytes d + total) 0 (t_drives db).

(** [reserve_posix_storage_backend]: the ready backend with room above both thresholds,
    the least by identifier *)
Definition backend_eligible (db : Tables) (now : Z) (b : BackendRow) : bool :=
  let free := b_capacity_free_bytes b - reserved_total db in
  b_posix b && b_storage_ready b && (now - 2 * MINUTE_US <? b_capacity_checked_at b) && (10737418240 <=? free) && (b_capacity_total_bytes b <=? 20 * free).
Definition reserve_posix_storage_backend (db : Tables) (now : Z) : option Uuid :=
  match List.filter (backend_eligible db now) (t_backends db) with
  | [] => None
  | b :: rest => Some (foldr (fun x least => N.min (b_id x) least) (b_id b) rest)
  end.

Definition collaboration_reserve_object (db : Tables) (room : Uuid) (epoch : Z) (drive : Uuid) (purpose : Purpose) (reserved_bytes expected_fencing_token : Z)
    (object payload locator : Uuid) (now : Z) : result DatabaseError ObjectRecord * Tables :=
  tx db ensure 0 <=? reserved_bytes else InvalidPersistedValue in
  match List.find (fun e => at_epoch room epoch e && N.eqb (e_drive e) drive && is_active e) (t_epochs db) with
  | None => (Err StaleGeneration, db)
  | Some e =>
      tx db ensure e_fencing_token e =? expected_fencing_token else StaleGeneration in
      let has_room d := N.eqb (d_id d) drive && (d_used_physical_bytes d + d_reserved_bytes d + reserved_bytes <=? d_quota_bytes d) in
      tx db ensure existsb has_room (t_drives db) else QuotaExceeded in
      let db' := with_drives db (update_rows has_room (fun d => set_drive (d_used_physical_bytes d) (d_reserved_bytes d + reserved_bytes) d) (t_drives db)) in
      match reserve_posix_storage_backend db' now with
      | None => (Err StorageUnavailable, db)
      | Some backend =>
          tx db ensure negb (existsb (fun o => N.eqb (o_id o) object || N.eqb (o_payload o) payload) (t_objects db'))
                       && negb (existsb (fun p => N.eqb (p_id p) payload) (t_payloads db')) else Sql in
          let db' := with_payloads db' (t_payloads db' ++ [mkPayloadRow payload drive backend locator PStaging reserved_bytes None]) in
          let db' := with_objects db' (t_objects db' ++ [mkObjectRow object room epoch drive payload purpose Staging reserved_bytes None None now None None]) in
          let db' := with_reservations db' (t_reservations db' ++ [mkReservationRow object drive reserved_bytes ReservationActive (now + 5 * MINUTE_US)]) in
          (Ok (mkObjectRecord object room epoch drive (e_node e) expected_fencing_token payload backend locator purpose Staging reserved_bytes None None), db')
      end
  end.

Definition collaboration_object (db : Tables) (id : Uuid) : result DatabaseError ObjectRecord :=
  ok_or NotFound (match find_object db id with Some o => join_object db o | None => None end).

(** The function [finalize_object] of the migration: the object becomes durable, its
    reservation is committed, and the drive accounts its size instead. *)
Definition finalize_object (db : Tables) (id : Uuid) (size : Z) (blake3 : bytes) (now : Z) : option Tables :=
  match find_object db id, find_reservation db id with
  | Some o, Some rv =>
      match find_drive db (o_drive o) with
      | None => None
      | Some d =>
          if bool_decide (o_state o = Staging) && bool_decide (o_size_bytes o = None) && bool_decide (o_blake3 o = None) && (0 <=? o_reserved_bytes o)
             && (0 <=? size) && (size <=? o_reserved_bytes o) && (len blake3 =? 32) && N.eqb (rv_drive rv) (o_drive o)
             && (rv_bytes rv =? o_reserved_bytes o) && bool_decide (rv_state rv = ReservationActive) && (o_reserved_bytes o <=? d_reserved_bytes d)
          then
            let db := with_objects db (update_rows (object_in_state id Staging) (set_object_durable size blake3 now) (t_objects db)) in
            let db := with_reservations db (update_rows (fun r => N.eqb (rv_object r) id && N.eqb (rv_drive r) (o_drive o) && (rv_bytes r =? o_reserved_bytes o)
                                                                 && bool_decide (rv_state r = ReservationActive))
                                              (set_reservation_state ReservationCommitted) (t_reservations db)) in
            Some (with_drives db (update_rows (fun x => N.eqb (d_id x) (o_drive o))
                                    (fun x => set_drive (d_used_physical_bytes x + size) (d_reserved_bytes x - o_reserved_bytes o) x) (t_drives db)))
          else None
      end
  | _, _ => None
  end.

Definition collaboration_finalize_object (db : Tables) (id : Uuid) (expected_fencing_token : Z) (a : AuthorizationContext) (size : Z) (blake3 : bytes) (now : Z)
  : result DatabaseError ObjectRecord * Tables :=
  tx db ensure (0 <=? size) && (len blake3 =? 32) else InvalidPersistedValue in
  tx db let _ := lock_authorization_fence db a in
  match find_object db id with
  | None => (Err NotFound, db)
  | Some o =>
      match find_epoch db (o_room o) (o_epoch o) with
      | None => (Err StaleGeneration, db)
      | Some e =>
          match find_reservation db id, find_payload db (o_payload o) with
          | Some rv, Some p =>
              if bool_decide (o_state o = Durable) then
                (if bool_decide (o_size_bytes o = Some size) && bool_decide (o_blake3 o = Some blake3) then collaboration_object db id else Err Conflict, db)
              else if negb (N.eqb (e_node e) (au_node a)) || negb (N.eqb (o_drive o) (au_drive a)) || negb (bool_decide (o_state o = Staging))
                      || negb (is_active e) || negb (e_fencing_token e =? expected_fencing_token)
                      || negb (bool_decide (rv_state rv = ReservationActive)) || (o_reserved_bytes o <? size)
              then (Err StaleGeneration, db)
              else if negb (bool_decide (p_state p = PStaging)) then (Err Conflict, db)
              else
                let db' := with_payloads db (update_rows (fun x => N.eqb (p_id x) (o_payload o) && bool_decide (p_state x = PStaging))
                             (fun x => mkPayloadRow (p_id x) (p_drive x) (p_backend x) (p_locator x) PFinalized size (Some blake3)) (t_payloads db)) in
                match finalize_object db' id size blake3 now with
                | None => (Err Conflict, db)
                | Some db' => (collaboration_object db' id, db')
                end
          | _, _ => (Err NotFound, db)
          end
      end
  end.

Definition object_referenced (db : Tables) (id : Uuid) : bool :=
  existsb (fun g => N.eqb (g_object g) id) (t_groups db) || existsb (fun s => N.eqb (s_object s) id) (t_snapshots db).

(** [INSERT INTO jobs ... ON CONFLICT DO NOTHING] and the rows it inserts *)
Definition enqueue_delete (db : Tables) (prefix : string) (payload : Uuid) : Z * Tables :=
  if existsb (fun j => String.eqb (j_prefix j) prefix && N.eqb (j_payload j) payload) (t_jobs db) then (0, db)
  else (1, with_jobs db (t_jobs db ++ [mkJobRow prefix payload])).

Definition collaboration_abandon_object (db : Tables) (id : Uuid) (now : Z) : result DatabaseError unit * Tables :=
  match find_object db id, find_reservation db id with
  | Some o, Some rv =>
      match find_payload db (o_payload o) with
      | None => (Err NotFound, db)
      | Some p =>
          if bool_decide (o_state o = Quarantined \/ o_state o = DeleteIntent \/ o_state o = Tombstoned \/ o_state o = Abandoned) then (Ok tt, db)
          else if object_referenced db id then (Err Conflict, db)
          else
            tx db let step :=
              match o_state o with
              | Staging =>
                  let active r := N.eqb (rv_object r) id && bool_decide (rv_state r = ReservationActive) in
                  if negb (rows_affected active (t_reservations db) =? 1) || negb (bool_decide (rv_state rv = ReservationActive)) then Err StaleGeneration
                  else
                    let db' := with_reservations db (update_rows active (set_reservation_state ReservationReleased) (t_reservations db)) in
                    let holds d := N.eqb (d_id d) (o_drive o) && (o_reserved_bytes o <=? d_reserved_bytes d) in
                    if negb (rows_affected holds (t_drives db') =? 1) || negb (rows_affected (object_in_state id Staging) (t_objects db') =? 1)
                    then Err StaleGeneration
                    else
                      let db' := with_drives db' (update_rows holds (fun d => set_drive (d_used_physical_bytes d) (d_reserved_bytes d - o_reserved_bytes o) d) (t_drives db')) in
                      let db' := with_objects db' (update_rows (object_in_state id Staging) (fun x => set_object_state Quarantined (o_delete_after x) x) (t_objects db')) in
                      Ok (PAbandoned, db')
              | Durable | Superseded =>
                  if negb (bool_decide (rv_state rv = ReservationCommitted)) || bool_decide (o_size_bytes o = None) then Err StaleGeneration
                  else
                    Ok (PDeleteIntent, with_objects db (update_rows (fun x => N.eqb (o_id x) id && bool_decide (o_state x = Durable \/ o_state x = Superseded))
                                                          (set_object_state DeleteIntent (Some now)) (t_objects db)))
              | _ => Err Conflict
              end in
            tx db ensure bool_decide (p_state p = PStaging \/ p_state p = PFinalized) else StaleGeneration in
            let db' := with_payloads step.2 (update_rows (fun x => N.eqb (p_id x) (o_payload o) && bool_decide (p_state x = PStaging \/ p_state x = PFinalized))
                                               (set_payload_state step.1) (t_payloads step.2)) in
            (Ok tt, (enqueue_delete db' "collaboration-abandon" (o_payload o)).2)
      end
  | _, _ => (Err NotFound, db)
  end.

(** ** The manifest of update groups *)

(** [chunks[..index].iter().map(size).sum()] *)
Fixpoint chunks_contiguous (index offset : Z) (chunks : list ChunkInput) : bool :=
  match chunks with
  | [] => true
  | c :: rest =>
      negb ((chunk_index c <? 0) || negb (chunk_index c =? index) || negb (object_offset c =? offset) || (size_bytes c <=? 0)
            || (262144 <? size_bytes c) || negb (len (chunk_blake3 c) =? 32))
      && chunks_contiguous (index + 1) (offset + size_bytes c) rest
  end.
Fixpoint chunks_total (total : Z) (chunks : list ChunkInput) : option Z :=
  match chunks with
  | [] => Some total
  | c :: rest => match checked i64_min i64_max (total + size_bytes c) with Some total => chunks_total total rest | None => None end
  end.

Definition in_room (room : Uuid) (epoch : Z) (g : GroupRow) : bool := N.eqb (g_room g) room && (g_epoch g =? epoch).

(** The arguments of [collaboration_persist_update_group] *)
Record PersistGroup := mkPersistGroup {
  pg_room : Uuid; pg_epoch : Z; pg_fencing_token : Z; pg_base_sequence : Z; pg_client : Uuid; pg_client_update : Uuid;
  pg_authorization : AuthorizationContext; pg_mcp_invocation : option Uuid; pg_source_before : bytes; pg_source_after : bytes;
  pg_object : Uuid; pg_chunks : list ChunkInput; pg_state_vector : bytes; pg_state_digest : bytes
}.

Definition persist_arguments_invalid (q : PersistGroup) : bool :=
  bool_decide (pg_chunks q = []) || (16 <? len (pg_chunks q)) || (pg_base_sequence q <? 0) || (1048576 <? len (pg_state_vector q))
  || negb (len (pg_state_digest q) =? 32) || negb (len (pg_source_before q) =? 32) || negb (len (pg_source_after q) =? 32).

(** The invocation whose proposal the group carries *)
Definition mcp_invocation_valid (db : Tables) (q : PersistGroup) (base_version : Uuid) : bool :=
  match pg_mcp_invocation q with
  | None => true
  | Some invocation =>
      existsb (fun i => N.eqb (i_id i) invocation && N.eqb (i_principal i) (au_principal (pg_authorization q))
                        && String.eqb (i_application i) "filebelt-web-markdown-proposal" && i_succeeded i
                        && N.eqb (i_node i) (au_node (pg_authorization q)) && N.eqb (i_base_version i) base_version
                        && bool_decide (i_input_digest i = pg_source_before q) && bool_decide (i_output_digest i = pg_source_after q)) (t_invocations db)
  end.

Definition supersede_object (db : Tables) (id : Uuid) (now : Z) : Tables :=
  with_objects db (update_rows (object_in_state id Durable) (supersede now) (t_objects db)).

Definition group_of_update (q : PersistGroup) (g : GroupRow) : bool :=
  in_room (pg_room q) (pg_epoch q) g && N.eqb (g_client g) (pg_client q) && N.eqb (g_client_update g) (pg_client_update q).

(** the epoch after a group: [durable_sequence], [dirty] and the retention times *)
Definition epoch_after_group (last now : Z) (e : EpochRow) : EpochRow :=
  mkEpochRow (e_room e) (e_epoch e) (e_drive e) (e_node e) (e_base_version e) (e_state e) (e_freeze_reason e) true last (e_fencing_token e)
    (now + 30 * DAY_US) (now + 23 * DAY_US) (e_warning_emitted_at e) (e_closed_at e).

Definition collaboration_persist_update_group (db : Tables) (q : PersistGroup) (fresh : Uuid) (now : Z) : result DatabaseError (Uuid * Z * Z) * Tables :=
  tx db ensure negb (persist_arguments_invalid q) else InvalidPersistedValue in
  tx db let total := ok_or InvalidPersistedValue (chunks_total 0 (pg_chunks q)) in
  tx db ensure negb ((total <=? 0) || (2097152 <? total) || negb (chunks_contiguous 0 0 (pg_chunks q))) else InvalidPersistedValue in
  tx db let _ := lock_authorization_fence db (pg_authorization q) in
  match List.find (fun e => at_epoch (pg_room q) (pg_epoch q) e && N.eqb (e_drive e) (au_drive (pg_authorization q))
                            && N.eqb (e_node e) (au_node (pg_authorization q)) && is_active e) (t_epochs db) with
  | None => (Err Conflict, db)
  | Some e =>
      tx db ensure e_fencing_token e =? pg_fencing_token q else StaleGeneration in
      tx db ensure mcp_invocation_valid db q (e_base_version e) else Conflict in
      match List.find (fun o => N.eqb (o_id o) (pg_object q) && N.eqb (o_room o) (pg_room q) && (o_epoch o =? pg_epoch q)
                                && bool_decide (o_state o = Durable)) (t_objects db) with
      | None => (Err Conflict, db)
      | Some o =>
          match List.find (group_of_update q) (t_groups db) with
          | Some existing =>
              match find_object db (g_object existing) with
              | None => (Err Sql, db)
              | Some durable =>
                  if negb (bool_decide (g_state_digest existing = pg_state_digest q)) || negb (bool_decide (o_blake3 durable = o_blake3 o))
                     || negb (bool_decide (g_mcp_invocation existing = pg_mcp_invocation q))
                     || negb (bool_decide (g_source_before existing = pg_source_before q)) || negb (bool_decide (g_source_after existing = pg_source_after q))
                  then (Err Conflict, db)
                  else
                    (Ok (g_object existing, g_first_sequence existing, g_last_sequence existing),
                     if N.eqb (g_object existing) (pg_object q) then db else supersede_object db (pg_object q) now)
              end
          | None =>
              if negb (e_durable_sequence e =? pg_base_sequence q) then (Err StaleGeneration, supersede_object db (pg_object q) now)
              else
                tx db let first := ok_or InvalidPersistedValue (checked i64_min i64_max (e_durable_sequence e + 1)) in
                let row := mkGroupRow (pg_room q) (pg_epoch q) fresh (pg_client q) (pg_client_update q) (au_principal (pg_authorization q))
                             (pg_mcp_invocation q) (pg_source_before q) (pg_source_after q) (pg_object q) (len (pg_chunks q)) total first first
                             (pg_state_vector q) (pg_state_digest q) in
                tx db ensure negb (existsb (fun g => N.eqb (g_id g) fresh || (in_room (pg_room q) (pg_epoch q) g && (g_first_sequence g =? first))) (t_groups db)) else Sql in
                let db' := with_groups db (t_groups db ++ [row]) in
                let db' := with_chunks db' (t_chunks db' ++ map (mkChunkRow fresh) (pg_chunks q)) in
                tx db let r := update_epochs (at_epoch (pg_room q) (pg_epoch q)) (epoch_after_group first now) db' in
                (Ok (pg_object q, first, first), r.2)
          end
      end
  end.

(** [ORDER BY first_sequence] and [ORDER BY chunk_index] *)
#[export] Instance group_ord : Ord GroupRow := ord_via g_first_sequence.
#[export] Instance chunk_ord : Ord ChunkInput := ord_via chunk_index.

(** the chunks of the groups of the room that carry an object *)
Definition chunks_of_object (db : Tables) (room : Uuid) (epoch : Z) (object : Uuid) : list ChunkInput :=
  sort_unstable (flat_map (fun g => if in_room room epoch g && N.eqb (g_object g) object
                                    then map ck_input (List.filter (fun c => N.eqb (ck_group c) (g_id g)) (t_chunks db)) else []) (t_groups db)).

Definition replay_row (db : Tables) (room : Uuid) (epoch : Z) (g : GroupRow) : option ReplayGroup :=
  match find_object db (g_object g) with
  | None => None
  | Some o =>
      if bool_decide (o_state o = Durable) then
        option_map (fun object => mkReplayGroup object (g_first_sequence g) (g_last_sequence g) (chunks_of_object db room epoch (o_id o))) (join_object db o)
      else None
  end.

(** The groups after a sequence whose objects are durable.  The list of groups and the
    lists of chunks are read by separate statements; rows of chunks never change. *)
Definition collaboration_replay_groups (db : Tables) (room : Uuid) (epoch after : Z) : list ReplayGroup :=
  omap (replay_row db room epoch) (sort_unstable (List.filter (fun g => in_room room epoch g && (after <? g_last_sequence g)) (t_groups db))).

(** ** Snapshots *)

Definition snapshot_in (room : Uuid) (epoch : Z) (s : SnapshotRow) : bool :=
  N.eqb (s_room s) room && (s_epoch s =? epoch) && bool_decide (s_superseded_at s = None).

Definition collaboration_current_snapshot (db : Tables) (room : Uuid) (epoch : Z) : option SnapshotRecord :=
  match List.find (snapshot_in room epoch) (t_snapshots db) with
  | None => None
  | Some s =>
      match find_object db (s_object s) with
      | None => None
      | Some o =>
          match find_payload db (o_payload o) with
          | Some p =>
              if bool_decide (o_state o = Durable) && bool_decide (p_state p = PFinalized)
              then option_map (fun object => mkSnapshotRecord object (s_covered_sequence s) (s_state_vector s)) (join_object db o) else None
          | None => None
          end
      end
  end.

(** The insertion of a snapshot in the transaction that began at [db], and the objects it
    supersedes: those of the groups it covers *)
Definition insert_snapshot (db db' : Tables) (room : Uuid) (epoch : Z) (object : Uuid) (covered : Z) (state_vector : bytes) (fresh : Uuid) (now : Z)
  : result DatabaseError Uuid * Tables :=
  if existsb (fun s => N.eqb (s_id s) fresh || (N.eqb (s_room s) room && (s_epoch s =? epoch) && (s_covered_sequence s =? covered))) (t_snapshots db')
  then (Err Sql, db)
  else
    let db' := with_snapshots db' (t_snapshots db' ++ [mkSnapshotRow room epoch fresh object covered state_vector None]) in
    let covers o := existsb (fun g => N.eqb (g_object g) (o_id o) && in_room room epoch g && (g_last_sequence g <=? covered)) (t_groups db')
                    && bool_decide (o_state o = Durable) in
    (Ok fresh, with_objects db' (update_rows covers (supersede now) (t_objects db'))).

Definition collaboration_commit_snapshot (db : Tables) (room : Uuid) (epoch expected_fencing_token : Z) (a : AuthorizationContext) (object : Uuid)
    (covered : Z) (state_vector : bytes) (fresh : Uuid) (now : Z) : result DatabaseError Uuid * Tables :=
  tx db ensure negb ((covered <? 0) || (1048576 <? len state_vector)) else InvalidPersistedValue in
  tx db let _ := lock_authorization_fence db a in
  match List.find (fun e => at_epoch room epoch e && N.eqb (e_drive e) (au_drive a) && N.eqb (e_node e) (au_node a) && is_active e) (t_epochs db) with
  | None => (Err Conflict, db)
  | Some e =>
      tx db ensure negb (negb (e_fencing_token e =? expected_fencing_token) || (e_durable_sequence e <? covered)) else StaleGeneration in
      tx db ensure existsb (fun o => N.eqb (o_id o) object && N.eqb (o_room o) room && (o_epoch o =? epoch)
                                     && bool_decide (o_purpose o = SnapshotPurpose) && bool_decide (o_state o = Durable)) (t_objects db) else Conflict in
      match List.find (snapshot_in room epoch) (t_snapshots db) with
      | None => insert_snapshot db db room epoch object covered state_vector fresh now
      | Some current =>
          if covered <? s_covered_sequence current then (Err StaleGeneration, db)
          else if s_covered_sequence current =? covered then
            (if N.eqb (s_object current) object then Ok (s_id current) else Err Conflict, db)
          else
            let db' := with_snapshots db (update_rows (fun s => N.eqb (s_id s) (s_id current) && bool_decide (s_superseded_at s = None))
                         (fun s => mkSnapshotRow (s_room s) (s_epoch s) (s_id s) (s_object s) (s_covered_sequence s) (s_state_vector s) (Some now)) (t_snapshots db)) in
            insert_snapshot db (supersede_object db' (s_object current) now) room epoch object covered state_vector fresh now
      end
  end.

(** ** Checkpoints *)

Definition mcp_assisted (db : Tables) (room : Uuid) (epoch durable_sequence : Z) (node base_version : Uuid) : bool :=
  existsb (fun g =>
    in_room room epoch g && (g_last_sequence g <=? durable_sequence)
    && match g_mcp_invocation g with
       | None => false
       | Some invocation =>
           existsb (fun i => N.eqb (i_id i) invocation && N.eqb (i_principal i) (g_actor g) && String.eqb (i_application i) "filebelt-web-markdown-proposal"
                             && i_succeeded i && N.eqb (i_node i) node && N.eqb (i_base_version i) base_version
                             && bool_decide (i_input_digest i = g_source_before g) && bool_decide (i_output_digest i = g_source_after g)) (t_invocations db)
       end) (t_groups db).

Definition collaboration_prepare_checkpoint (db : Tables) (room : Uuid) (epoch expected_fencing_token : Z) (a : AuthorizationContext) (durable_sequence : Z)
    (state_vector : bytes) (source_size : Z) (source_blake3 : bytes) (fresh : Uuid) (now : Z) : result DatabaseError Uuid * Tables :=
  tx db ensure negb ((durable_sequence <? 0) || (1048576 <? len state_vector) || negb ((0 <=? source_size) && (source_size <=? 16777216))
                     || negb (len source_blake3 =? 32)) else InvalidPersistedValue in
  tx db let _ := lock_authorization_fence db a in
  match List.find (fun e => at_epoch room epoch e && is_active e) (t_epochs db) with
  | None => (Err Conflict, db)
  | Some e =>
      tx db ensure N.eqb (e_node e) (au_node a) && (e_durable_sequence e =? durable_sequence) && (e_fencing_token e =? expected_fencing_token) else StaleGeneration in
      let assisted := mcp_assisted db room epoch durable_sequence (au_node a) (e_base_version e) in
      let prepared c := N.eqb (ch_room c) room && (ch_epoch c =? epoch) && bool_decide (ch_state c = Prepared) in
      let expire c := mkCheckpointRow (ch_id c) (ch_room c) (ch_epoch c) (ch_node c) (ch_base_version c) (ch_durable_sequence c) (ch_state_vector c)
                        (ch_source_size c) (ch_source_blake3 c) (ch_created_by c) (ch_mcp_assisted c) CheckpointExpired (ch_expires_at c) in
      tx db ensure negb (existsb (fun c => N.eqb (ch_id c) fresh) (t_checkpoints db)) else Sql in
      (Ok fresh, with_checkpoints db (update_rows prepared expire (t_checkpoints db)
         ++ [mkCheckpointRow fresh room epoch (e_node e) (e_base_version e) durable_sequence state_vector source_size source_blake3
               (au_principal a) assisted Prepared (now + 5 * MINUTE_US)]))
  end.

(** ** Retention *)

(** [ORDER BY column LIMIT n] *)
Definition order_limit {R} (column : R -> Z) (limit : Z) (rows : list R) : list R :=
  take (Z.to_nat limit) (@sort_unstable R (ord_via column) rows).

Record RetentionReport := mkReport { warnings_emitted : Z; epochs_expired : Z; payload_deletions_enqueued : Z; objects_abandoned : Z }.

Definition abandon_candidate (db : Tables) (now : Z) (o : ObjectRow) : bool :=
  match find_reservation db (o_id o) with
  | None => false
  | Some rv =>
      (bool_decide (o_state o = Staging) && bool_decide (rv_state rv = ReservationActive) && (rv_expires_at rv <=? now))
      || (bool_decide (o_state o = Durable) && match o_durable_at o with Some t => t <=? now - 5 * MINUTE_US | None => false end
          && negb (object_referenced db (o_id o)))
  end.

(** The loop over the candidates, each in a transaction of its own *)
Fixpoint abandon_all (db : Tables) (ids : list Uuid) (now count : Z) : result DatabaseError Z * Tables :=
  match ids with
  | [] => (Ok count, db)
  | id :: rest =>
      let '(r, db') := collaboration_abandon_object db id now in
      match r with
      | Ok _ => abandon_all db' rest now (count + 1)
      | Err Conflict | Err StaleGeneration | Err NotFound => abandon_all db' rest now count
      | Err e => (Err e, db')
      end
  end.

Definition enqueue_all (prefix : string) (db : Tables) (payloads : list Uuid) : Z * Tables :=
  foldl (fun acc p => let r := enqueue_delete acc.2 prefix p in (acc.1 + r.1, r.2)) (0, db) payloads.

Definition same_epoch (rows : list EpochRow) (e : EpochRow) : bool := existsb (fun x => at_epoch (e_room x) (e_epoch x) e) rows.

(** one expired epoch: its finalized payloads and durable objects become deletable *)
Definition expire_epoch_payloads (now : Z) (db : Tables) (e : EpochRow) : Z * Tables :=
  let mine o := N.eqb (o_room o) (e_room e) && (o_epoch o =? e_epoch e) && bool_decide (o_state o = Durable \/ o_state o = Superseded) in
  let deletable p := bool_decide (p_state p = PFinalized) && existsb (fun o => N.eqb (o_payload o) (p_id p) && mine o) (t_objects db) in
  let payloads := map p_id (List.filter deletable (t_payloads db)) in
  let db := with_payloads db (update_rows deletable (set_payload_state PDeleteIntent) (t_payloads db)) in
  let db := with_objects db (update_rows mine (set_object_state DeleteIntent (Some now)) (t_objects db)) in
  enqueue_all "collaboration-expire" db payloads.

(** one superseded object past its recovery window *)
Definition delete_superseded (acc : Z * Tables) (o : ObjectRow) : Z * Tables :=
  let finalized p := N.eqb (p_id p) (o_payload o) && bool_decide (p_state p = PFinalized) in
  let db := acc.2 in
  if rows_affected finalized (t_payloads db) =? 1 then
    let db := with_payloads db (update_rows finalized (set_payload_state PDeleteIntent) (t_payloads db)) in
    let db := with_objects db (update_rows (object_in_state (o_id o) Superseded) (fun x => set_object_state DeleteIntent (o_delete_after x) x) (t_objects db)) in
    let r := enqueue_delete db "collaboration-superseded" (o_payload o) in
    (acc.1 + r.1, r.2)
  else acc.

Definition collaboration_retention_sweep (db : Tables) (limit now : Z) : result DatabaseError RetentionReport * Tables :=
  tx db ensure (1 <=? limit) && (limit <=? 1000) else InvalidPersistedValue in
  let candidates := map o_id (order_limit o_created_at limit (List.filter (abandon_candidate db now) (t_objects db))) in
  let '(abandoned, db) := abandon_all db candidates now 0 in
  tx db let abandoned := abandoned in
  let dirty_open e := e_dirty e && bool_decide (e_state e = EpochActive \/ e_state e = EpochFrozen) in
  let warned := order_limit e_warning_at limit
    (List.filter (fun e => dirty_open e && (e_warning_at e <=? now) && (now <? e_expires_at e) && bool_decide (e_warning_emitted_at e = None)) (t_epochs db)) in
  tx db let warnings := update_epochs (same_epoch warned)
    (fun e => mkEpochRow (e_room e) (e_epoch e) (e_drive e) (e_node e) (e_base_version e) (e_state e) (e_freeze_reason e) (e_dirty e) (e_durable_sequence e)
                (e_fencing_token e) (e_expires_at e) (e_warning_at e) (Some now) (e_closed_at e)) db in
  let expired := order_limit e_expires_at limit (List.filter (fun e => dirty_open e && (e_expires_at e <=? now)) (t_epochs warnings.2)) in
  tx db let closed := update_epochs (same_epoch expired) (set_epoch_state EpochTombstoned None false (Some now)) warnings.2 in
  let swept := foldl (fun acc e => let r := expire_epoch_payloads now acc.2 e in (acc.1 + r.1, r.2)) (0, closed.2) expired in
  let superseded := order_limit (fun o => default 0 (o_delete_after o)) limit
    (List.filter (fun o => bool_decide (o_state o = Superseded) && match o_delete_after o with Some t => t <=? now | None => false end) (t_objects swept.2)) in
  let deleted := foldl delete_superseded swept superseded in
  (Ok (mkReport warnings.1 (len expired) deleted.1 abandoned), deleted.2).

(** [complete_collaboration_payload_deletion] *)
Definition complete_payload_deletion (db : Tables) (payload : Uuid) : result DatabaseError unit * Tables :=
  match List.find (fun o => N.eqb (o_payload o) payload
                            && bool_decide (o_state o = DeleteIntent \/ o_state o = Quarantined \/ o_state o = Tombstoned \/ o_state o = Abandoned)) (t_objects db) with
  | None => (Err StaleGeneration, db)
  | Some o =>
      match find_payload db payload, find_reservation db (o_id o) with
      | Some p, Some rv =>
          if negb (bool_decide (p_state p = PDeleting \/ p_state p = PDeleted \/ p_state p = PAbandoned)) then (Err StaleGeneration, db)
          else if bool_decide (o_state o = Tombstoned \/ o_state o = Abandoned) then (Ok tt, db)
          else if bool_decide (p_state p = PDeleted) then (Err StaleGeneration, db)
          else
            let deleting x := N.eqb (p_id x) payload && bool_decide (p_state x = PDeleting) in
            let payload_rows := if bool_decide (p_state p = PDeleting) then rows_affected deleting (t_payloads db) else 1 in
            let db' := if bool_decide (p_state p = PDeleting) then with_payloads db (update_rows deleting (set_payload_state PDeleted) (t_payloads db)) else db in
            let mine x := N.eqb (o_id x) (o_id o) && bool_decide (o_state x = DeleteIntent \/ o_state x = Quarantined) in
            let final := match o_size_bytes o with Some _ => Tombstoned | None => Abandoned end in
            let object_rows := rows_affected mine (t_objects db') in
            let db' := with_objects db' (update_rows mine (fun x => set_object_state final (o_delete_after x) x) (t_objects db')) in
            tx db let drive :=
              match o_size_bytes o with
              | Some size =>
                  if negb (bool_decide (rv_state rv = ReservationCommitted)) then Err StaleGeneration
                  else
                    let holds d := N.eqb (d_id d) (o_drive o) && (size <=? d_used_physical_bytes d) in
                    Ok (rows_affected holds (t_drives db'),
                        with_drives db' (update_rows holds (fun d => set_drive (d_used_physical_bytes d - size) (d_reserved_bytes d) d) (t_drives db')))
              | None => if negb (bool_decide (rv_state rv = ReservationReleased)) then Err StaleGeneration else Ok (1, db')
              end in
            tx db ensure (payload_rows =? 1) && (object_rows =? 1) && (drive.1 =? 1) else StaleGeneration in
            (Ok tt, drive.2)
      | _, _ => (Err StaleGeneration, db)
      end
  end.

(** ** What the publication of a version does to the rooms of its node (database lib.rs) *)

(** the commit of an upload that consumes a prepared checkpoint *)
Definition commit_checkpoint (db : Tables) (checkpoint version : Uuid) (now : Z) : result DatabaseError unit * Tables :=
  let prepared c := N.eqb (ch_id c) checkpoint && bool_decide (ch_state c = Prepared) in
  let commit c := mkCheckpointRow (ch_id c) (ch_room c) (ch_epoch c) (ch_node c) (ch_base_version c) (ch_durable_sequence c) (ch_state_vector c)
                    (ch_source_size c) (ch_source_blake3 c) (ch_created_by c) (ch_mcp_assisted c) Committed (ch_expires_at c) in
  let db' := with_checkpoints db (update_rows prepared commit (t_checkpoints db)) in
  let its_epoch e := existsb (fun c => N.eqb (ch_id c) checkpoint && at_epoch (ch_room c) (ch_epoch c) e) (t_checkpoints db') && is_active e in
  tx db let r := update_epochs its_epoch (fun e => set_epoch_state EpochClosed (e_freeze_reason e) false (Some now) e) db' in
  tx db ensure (rows_affected prepared (t_checkpoints db) =? 1) && (r.1 =? 1) else Conflict in (Ok tt, r.2).

(** any other new version: the active epochs of the node freeze *)
Definition freeze_external_head (db : Tables) (drive node : Uuid) : result DatabaseError Tables :=
  let its_epoch e := existsb (fun r => N.eqb (r_drive r) drive && N.eqb (r_node r) node && N.eqb (r_id r) (e_room e)) (t_rooms db) && is_active e in
  let? r := update_epochs its_epoch (fun e => set_epoch_state EpochFrozen (Some "external_head") (e_dirty e) (e_closed_at e) e) db in
  Ok r.2.
