(* ===== verification/CollaborationLog.v ===== *)
(** The manifest of a collaboration room over every sequence of the transactions of
    [CollaborationStore]: the sequence numbers of an epoch are gap-free, what was made
    durable stays, and the drive quota is never exceeded. *)
From S2P Require Import Prelude Collections Libraries Frames CollaborationStore.

Open Scope string_scope.
Open Scope Z_scope.
Open Scope list_scope.
Open Scope bool_scope.

(** ** Operations *)

Inductive StoreOp :=
| OpFreeze (room : Uuid) (epoch : Z) (reason : string)
| OpOpenRoom (drive node base_version created_by fresh : Uuid) (now : Z)
| OpDiscard (room : Uuid) (epoch : Z) (a : AuthorizationContext) (now : Z)
| OpCreateGrant (id room : Uuid) (epoch : Z) (token_digest : bytes) (principal session client : Uuid) (mode label : string) (g : Generations) (can_checkpoint : bool) (now : Z)
| OpConsumeGrant (token_digest : bytes) (now : Z)
| OpJoin (room : Uuid) (epoch : Z) (client principal session : Uuid) (max_participants : Z) (connection : Uuid) (now : Z)
| OpHeartbeat (connection : Uuid) (now : Z)
| OpLeave (connection : Uuid)
| OpReserve (room : Uuid) (epoch : Z) (drive : Uuid) (purpose : Purpose) (bytes_ token : Z) (object payload locator : Uuid) (now : Z)
| OpFinalize (id : Uuid) (token : Z) (a : AuthorizationContext) (size : Z) (blake3 : bytes) (now : Z)
| OpPersist (q : PersistGroup) (fresh : Uuid) (now : Z)
| OpCommitSnapshot (room : Uuid) (epoch token : Z) (a : AuthorizationContext) (object : Uuid) (covered : Z) (state_vector : bytes) (fresh : Uuid) (now : Z)
| OpAbandon (id : Uuid) (now : Z)
| OpPrepareCheckpoint (room : Uuid) (epoch token : Z) (a : AuthorizationContext) (sequence : Z) (state_vector : bytes) (size : Z) (blake3 : bytes) (fresh : Uuid) (now : Z)
| OpCommitCheckpoint (checkpoint version : Uuid) (now : Z)
| OpExternalHead (drive node : Uuid)
| OpSweep (limit now : Z)
| OpCompleteDeletion (payload : Uuid)
(** the maintenance worker takes up a deletion *)
| OpStartDeletion (payload : Uuid)
(** what other parts of the system do to the tables that are only read here *)
| OpOutside (backends : list BackendRow) (invocations : list InvocationRow) (fence : list FenceRow).

Definition run_op (db : Tables) (op : StoreOp) : Tables :=
  match op with
  | OpFreeze room epoch reason => (collaboration_freeze db room epoch reason).2
  | OpOpenRoom drive node base created_by fresh now => (collaboration_get_or_create_room db drive node base created_by fresh now).2
  | OpDiscard room epoch a now => (collaboration_discard db room epoch a now).2
  | OpCreateGrant id room epoch digest principal session client mode label g can now =>
      (collaboration_create_join_grant db id room epoch digest principal session client mode label g can now).2
  | OpConsumeGrant digest now => (collaboration_consume_join_grant db digest now).2
  | OpJoin room epoch client principal session max connection now => (collaboration_join_participant db room epoch client principal session max connection now).2
  | OpHeartbeat connection now => (collaboration_heartbeat_participant db connection now).2
  | OpLeave connection => (collaboration_leave_participant db connection).2
  | OpReserve room epoch drive purpose b token object payload locator now =>
      (collaboration_reserve_object db room epoch drive purpose b token object payload locator now).2
  | OpFinalize id token a size blake3 now => (collaboration_finalize_object db id token a size blake3 now).2
  | OpPersist q fresh now => (collaboration_persist_update_group db q fresh now).2
  | OpCommitSnapshot room epoch token a object covered sv fresh now => (collaboration_commit_snapshot db room epoch token a object covered sv fresh now).2
  | OpAbandon id now => (collaboration_abandon_object db id now).2
  | OpPrepareCheckpoint room epoch token a sequence sv size blake3 fresh now =>
      (collaboration_prepare_checkpoint db room epoch token a sequence sv size blake3 fresh now).2
  | OpCommitCheckpoint checkpoint version now => (commit_checkpoint db checkpoint version now).2
  | OpExternalHead drive node => match freeze_external_head db drive node with Ok db' => db' | Err _ => db end
  | OpSweep limit now => (collaboration_retention_sweep db limit now).2
  | OpCompleteDeletion payload => (complete_payload_deletion db payload).2
  | OpStartDeletion payload =>
      with_payloads db (update_rows (fun p => N.eqb (p_id p) payload && bool_decide (p_state p = PDeleteIntent)) (set_payload_state PDeleting) (t_payloads db))
  | OpOutside backends invocations fence =>
      mkTables (t_rooms db) (t_epochs db) (t_objects db) (t_payloads db) (t_reservations db) (t_drives db) backends (t_groups db) (t_chunks db)
        (t_snapshots db) (t_join_grants db) (t_participants db) (t_checkpoints db) invocations (t_jobs db) fence
  end.
Definition run_ops (db : Tables) (ops : list StoreOp) : Tables := foldl run_op db ops.

(** ** The manifest *)

Definition log (db : Tables) (room : Uuid) (epoch : Z) : list GroupRow := List.filter (in_room room epoch) (t_groups db).

(** What no operation but the persistence of a group changes of an epoch. *)
Definition epoch_key (e : EpochRow) : Uuid * Z * Z := (e_room e, e_epoch e, e_durable_sequence e).

(** An object row moves on: its digest, once set, stays. *)
Definition object_le (o o' : ObjectRow) : Prop :=
  o_id o' = o_id o /\ o_room o' = o_room o /\ o_epoch o' = o_epoch o
  /\ (forall h, o_blake3 o = Some h -> o_blake3 o' = Some h /\ o_size_bytes o' = o_size_bytes o).

Record log_ok (db : Tables) : Prop := {
  ok_epochs : NoDup (map epoch_key (t_epochs db)).*1;
  ok_objects : NoDup (map o_id (t_objects db));
  ok_sequence : forall e, e ∈ t_epochs db ->
    0 <= e_durable_sequence e <= i64_max /\ map g_first_sequence (log db (e_room e) (e_epoch e)) = seqZ 1 (e_durable_sequence e);
  ok_groups : forall g, g ∈ t_groups db ->
    g_last_sequence g = g_first_sequence g /\ (exists e, e ∈ t_epochs db /\ at_epoch (g_room g) (g_epoch g) e = true)
    /\ (exists o, o ∈ t_objects db /\ o_id o = g_object g /\ o_room o = g_room g /\ o_epoch o = g_epoch g /\ o_blake3 o <> None);
  ok_updates : NoDup (map (fun g => (g_room g, g_epoch g, g_client g, g_client_update g)) (t_groups db));
  ok_durable : forall o, o ∈ t_objects db -> o_state o = Durable -> o_blake3 o <> None
}.

(** A change that leaves the manifest as it is: objects move on or are added. *)
Record quiet (db db' : Tables) : Prop := {
  q_groups : t_groups db' = t_groups db;
  q_epochs : map epoch_key (t_epochs db') = map epoch_key (t_epochs db);
  q_objects : exists moved fresh, t_objects db' = moved ++ fresh /\ Forall2 object_le (t_objects db) moved
    /\ (NoDup (map o_id (t_objects db)) -> NoDup (map o_id (t_objects db')))
    /\ ((forall o, o ∈ t_objects db -> o_state o = Durable -> o_blake3 o <> None) -> forall o, o ∈ t_objects db' -> o_state o = Durable -> o_blake3 o <> None)
}.

(** What holds across any change: the manifest of every epoch only grows. *)
Record evolution (db db' : Tables) : Prop := {
  ev_ok : log_ok db';
  ev_log : forall room epoch, log db room epoch `prefix_of` log db' room epoch;
  ev_objects : forall o, o ∈ t_objects db -> exists o', o' ∈ t_objects db' /\ object_le o o'
}.
Definition evolves (db db' : Tables) : Prop := log_ok db -> evolution db db'.

(** ** Quiet changes *)

Lemma object_le_refl o : object_le o o.
Proof. by unfold object_le. Qed.
Lemma object_le_trans o1 o2 o3 : object_le o1 o2 -> object_le o2 o3 -> object_le o1 o3.
Proof. intros (H1 & H2 & H3 & H4) (K1 & K2 & K3 & K4). split_and!; [congruence..|]. intros h Hh. destruct (H4 h Hh) as [Hb Hs]. destruct (K4 h Hb). split; congruence. Qed.

Lemma Forall2_object_le_trans l1 l2 l3 : Forall2 object_le l1 l2 -> Forall2 object_le l2 l3 -> Forall2 object_le l1 l3.
Proof. revert l2 l3. induction l1; intros ?? H1 H2; inversion H1; subst; inversion H2; subst; constructor; eauto using object_le_trans. Qed.

Lemma quiet_refl db : quiet db db.
Proof. split; [done..|]. exists (t_objects db), []. rewrite app_nil_r. split_and!; [done| |done|done]. apply Forall_Forall2_diag, Forall_forall. auto using object_le_refl. Qed.

Lemma quiet_trans db1 db2 db3 : quiet db1 db2 -> quiet db2 db3 -> quiet db1 db3.
Proof.
  intros [G1 E1 (m1 & f1 & O1 & L1 & N1 & D1)] [G2 E2 (m2 & f2 & O2 & L2 & N2 & D2)]. split; [congruence..|].
  rewrite O1 in L2. apply Forall2_app_inv_l in L2 as (m1' & f1' & La & Lb & ->).
  exists m1', (f1' ++ f2). rewrite O2, app_assoc. split_and!; [done|by eapply Forall2_object_le_trans| |].
  - intros HN. rewrite <-app_assoc, app_assoc, <-O2. auto.
  - intros HD. rewrite <-O2. auto.
Qed.

#[export] Instance quiet_preorder : PreOrder quiet.
Proof. split; [intros ?; apply quiet_refl|intros ???; apply quiet_trans]. Qed.

Lemma quiet_same db db' : t_groups db' = t_groups db -> map epoch_key (t_epochs db') = map epoch_key (t_epochs db) -> t_objects db' = t_objects db -> quiet db db'.
Proof. intros G E O. destruct (quiet_refl db) as [_ _ HO]. split; [done..|]. by rewrite O. Qed.

(** a change of object rows that keeps the digests *)
Definition object_step (f : ObjectRow -> ObjectRow) (o : ObjectRow) : Prop :=
  object_le o (f o) /\ (o_state (f o) = Durable -> o_blake3 (f o) <> None).

Lemma update_rows_In {R} p (f : R -> R) l x : x ∈ update_rows p f l <-> exists y, y ∈ l /\ x = if p y then f y else y.
Proof. unfold update_rows. rewrite list_elem_of_fmap. naive_solver. Qed.

Lemma update_rows_map {R A} p (f : R -> R) (k : R -> A) l : (forall o, o ∈ l -> p o = true -> k (f o) = k o) -> map k (update_rows p f l) = map k l.
Proof. intros Hf. unfold update_rows. rewrite map_map. apply map_ext_in. intros o Ho%list_elem_of_In. destruct (p o) eqn:Hp; auto. Qed.

Lemma quiet_objects db db' p f : (forall o, o ∈ t_objects db -> p o = true -> object_step f o) -> t_groups db' = t_groups db ->
  map epoch_key (t_epochs db') = map epoch_key (t_epochs db) -> t_objects db' = update_rows p f (t_objects db) -> quiet db db'.
Proof.
  intros Hf G E O. split; [done..|]. exists (t_objects db'), []. rewrite app_nil_r. split_and!; [done|..].
  - rewrite O. unfold update_rows. apply Forall2_fmap_r, Forall_Forall2_diag, Forall_forall. intros o Ho. simpl.
    destruct (p o) eqn:Hp; [by apply Hf|apply object_le_refl].
  - rewrite O, update_rows_map; [done|]. intros o Ho Hp. by destruct (Hf o Ho Hp) as [(-> & _) _].
  - intros HD o. rewrite O, update_rows_In. intros (x & Hx & ->). destruct (p x) eqn:Hp; [by apply Hf|auto].
Qed.

Lemma quiet_update_epochs p f db n db' : (forall e, epoch_key (f e) = epoch_key e) -> update_epochs p f db = Ok (n, db') -> quiet db db'.
Proof.
  intros Hf. unfold update_epochs. case_match; [|done]. intros [= _ <-]. apply quiet_same; [done| |done]. simpl. unfold update_rows. rewrite map_map.
  apply map_ext. intros e. destruct (p e); auto.
Qed.

Lemma step_state s delete o : s <> Durable -> object_step (set_object_state s delete) o.
Proof. intros Hs. split; [by unfold object_le|]. simpl. congruence. Qed.
Lemma step_state_keep s o : s <> Durable -> object_step (fun o => set_object_state s (o_delete_after o) o) o.
Proof. intros Hs. split; [by unfold object_le|]. simpl. congruence. Qed.
Lemma step_durable size h now o : o_blake3 o = None -> object_step (set_object_durable size h now) o.
Proof. intros Hb. split; [|done]. unfold object_le. simpl. split_and!; try done. intros h' Hh. by rewrite Hb in Hh. Qed.

Ltac tx_cases := repeat (case_match; simplify_eq/=; try (by apply quiet_refl)).

Ltac epochs_quiet := cbn [snd]; match goal with H : update_epochs _ _ _ = Ok ?r |- quiet _ ?r.2 => destruct r; by eapply quiet_update_epochs; [|exact H] end.

Lemma find_In {A} (p : A -> bool) l x : List.find p l = Some x -> x ∈ l /\ p x = true.
Proof. intros H. apply find_some in H. by rewrite list_elem_of_In. Qed.

Lemma find_object_In db id o : find_object db id = Some o -> o ∈ t_objects db /\ o_id o = id.
Proof. intros [Ho Hid%N.eqb_eq]%find_In. done. Qed.

Lemma object_unique db o o' : log_ok db -> o ∈ t_objects db -> o' ∈ t_objects db -> o_id o = o_id o' -> o = o'.
Proof.
  intros [_ Hn _ _ _ _] Ho Ho' Hid. apply list_elem_of_lookup in Ho as [i Hi]. apply list_elem_of_lookup in Ho' as [j Hj].
  assert (i = j) as ->; [|congruence]. eapply NoDup_lookup; [exact Hn|..]; rewrite list_lookup_fmap; [by rewrite Hi|by rewrite Hj, Hid].
Qed.

(** ** The operations that leave the manifest as it is *)

Lemma freeze_quiet db room epoch reason : quiet db (collaboration_freeze db room epoch reason).2.
Proof. unfold collaboration_freeze. tx_cases. epochs_quiet. Qed.

Lemma discard_quiet db room epoch a now : quiet db (collaboration_discard db room epoch a now).2.
Proof. unfold collaboration_discard. tx_cases. epochs_quiet. Qed.

Lemma commit_checkpoint_quiet db checkpoint version now : quiet db (commit_checkpoint db checkpoint version now).2.
Proof.
  unfold commit_checkpoint. tx_cases. etrans; [|epochs_quiet]. by apply quiet_same.
Qed.

Lemma external_head_quiet db drive node db' : freeze_external_head db drive node = Ok db' -> quiet db db'.
Proof. unfold freeze_external_head. tx_cases; intros [= <-]. epochs_quiet. Qed.

Lemma supersede_quiet db id now : quiet db (supersede_object db id now).
Proof. eapply quiet_objects; [|done..]. intros o _ _. by apply step_state. Qed.

Lemma reserve_quiet db room epoch drive purpose b token object payload locator now :
  quiet db (collaboration_reserve_object db room epoch drive purpose b token object payload locator now).2.
Proof.
  unfold collaboration_reserve_object. tx_cases. match goal with H : _ && _ = true |- _ => apply andb_true_iff in H as [Hfree%negb_true_iff _] end.
  split; [done..|]. simpl. eexists _, _. split; [done|]. split_and!.
  - apply Forall_Forall2_diag, Forall_forall. auto using object_le_refl.
  - rewrite map_app. intros Hn. apply NoDup_app. split_and!; [done| |apply NoDup_singleton].
    intros x Hx ->%list_elem_of_singleton. apply not_true_iff_false in Hfree. apply Hfree. apply existsb_exists.
    apply list_elem_of_fmap in Hx as (o & Hid & Ho). exists o. rewrite <-list_elem_of_In, orb_true_iff, N.eqb_eq. auto.
  - intros HD o [Ho | ->%list_elem_of_singleton]%elem_of_app; [auto|done].
Qed.

Lemma finalize_object_quiet db id size h now db' : log_ok db -> finalize_object db id size h now = Some db' -> quiet db db'.
Proof.
  intros Hok. unfold finalize_object. destruct (find_object db id) as [o|] eqn:Ho; [|done]. tx_cases; intros [= <-].
  apply find_object_In in Ho as [Ho Hid]. repeat match goal with H : _ && _ = true |- _ => apply andb_true_iff in H as [H ?] end.
  eapply quiet_objects; [|done..]. intros x Hx [Hxid%N.eqb_eq _]%andb_true_iff. apply step_durable.
  assert (x = o) as -> by (by eapply object_unique; [..|congruence]). by eapply bool_decide_eq_true_1.
Qed.

Lemma log_ok_same db db' : t_groups db' = t_groups db -> t_epochs db' = t_epochs db -> t_objects db' = t_objects db -> log_ok db -> log_ok db'.
Proof. intros G E O [H1 H2 H3 H4 H5 H6]. split; unfold log; rewrite ?G, ?E, ?O; done. Qed.

Lemma finalize_quiet db id token a size h now : log_ok db -> quiet db (collaboration_finalize_object db id token a size h now).2.
Proof.
  intros Hok. unfold collaboration_finalize_object. tx_cases.
  match goal with H : finalize_object _ _ _ _ _ = Some _ |- _ => apply finalize_object_quiet in H; [|by eapply log_ok_same; [..|exact Hok]] end.
  etrans; [|done]. by apply quiet_same.
Qed.

Lemma enqueue_quiet db prefix payload : quiet db (enqueue_delete db prefix payload).2.
Proof. unfold enqueue_delete. case_match; [done|]. by apply quiet_same. Qed.

Lemma abandon_quiet db id now : quiet db (collaboration_abandon_object db id now).2.
Proof.
  unfold collaboration_abandon_object. tx_cases; (etrans; [|apply enqueue_quiet]).
  all: eapply quiet_objects; [|done..]; intros ? _ _; by first [apply step_state|apply step_state_keep].
Qed.

Lemma insert_snapshot_quiet db db' room epoch object covered sv fresh now :
  quiet db db' -> quiet db (insert_snapshot db db' room epoch object covered sv fresh now).2.
Proof.
  intros Hq. unfold insert_snapshot. case_match; [done|]. etrans; [exact Hq|].
  eapply (quiet_objects _ _ _ (supersede now)); [|done..]. intros o _ _. by apply step_state.
Qed.

Lemma commit_snapshot_quiet db room epoch token a object covered sv fresh now :
  quiet db (collaboration_commit_snapshot db room epoch token a object covered sv fresh now).2.
Proof.
  unfold collaboration_commit_snapshot. tx_cases; apply insert_snapshot_quiet; [|done].
  etrans; [|apply supersede_quiet]. by apply quiet_same.
Qed.

Lemma abandon_all_quiet db ids now count : quiet db (abandon_all db ids now count).2.
Proof.
  revert db count. induction ids as [|id ids IH]; intros db count; [done|]. simpl. pose proof (abandon_quiet db id now) as Hq.
  destruct (collaboration_abandon_object db id now) as [[[]|[]] db']; simpl in *; try done; (etrans; [exact Hq|apply IH]).
Qed.

Lemma enqueue_all_quiet prefix db payloads : quiet db (enqueue_all prefix db payloads).2.
Proof.
  unfold enqueue_all. generalize 0. revert db. induction payloads as [|p payloads IH]; intros db n; [done|]. simpl.
  etrans; [apply enqueue_quiet|apply IH].
Qed.

Lemma expire_epoch_quiet now db e : quiet db (expire_epoch_payloads now db e).2.
Proof.
  unfold expire_epoch_payloads. etrans; [|apply enqueue_all_quiet].
  eapply (quiet_objects _ _ _ (set_object_state DeleteIntent (Some now))); [|done..]. intros o _ _. by apply step_state.
Qed.

Lemma delete_superseded_quiet acc o : quiet acc.2 (delete_superseded acc o).2.
Proof.
  unfold delete_superseded. case_match; [|done]. simpl. etrans; [|apply enqueue_quiet].
  eapply (quiet_objects _ _ _ (fun x => set_object_state DeleteIntent (o_delete_after x) x)); [|done..]. intros x _ _. by apply step_state_keep.
Qed.

Lemma fold_quiet {A} (f : Z * Tables -> A -> Z * Tables) l acc : (forall acc x, quiet acc.2 (f acc x).2) -> quiet acc.2 (foldl f acc l).2.
Proof. intros Hf. revert acc. induction l as [|x l IH]; intros acc; [done|]. simpl. etrans; [apply Hf|apply IH]. Qed.

Lemma sweep_quiet db limit now : quiet db (collaboration_retention_sweep db limit now).2.
Proof.
  unfold collaboration_retention_sweep. case_match; [|done].
  match goal with |- context [abandon_all db ?ids now 0] => pose proof (abandon_all_quiet db ids now 0) as Hq; destruct (abandon_all db ids now 0) as [[count|] db'] end; [|done].
  simpl in Hq. etrans; [exact Hq|]. clear Hq.
  destruct (update_epochs _ _ db') as [w|] eqn:Hw; [|done]. assert (quiet db' w.2) as Hq1 by (destruct w; by eapply quiet_update_epochs; [|exact Hw]).
  destruct (update_epochs _ _ w.2) as [c|] eqn:Hc; [|done]. assert (quiet w.2 c.2) as Hq2 by (destruct c; by eapply quiet_update_epochs; [|exact Hc]).
  simpl. etrans; [exact Hq1|]. etrans; [exact Hq2|].
  etrans; [|apply fold_quiet, delete_superseded_quiet].
  apply (fold_quiet (fun acc e => let r := expire_epoch_payloads now acc.2 e in (acc.1 + r.1, r.2)) _ (0, c.2)). intros acc e. apply expire_epoch_quiet.
Qed.

Lemma complete_deletion_quiet db payload : quiet db (complete_payload_deletion db payload).2.
Proof.
  unfold complete_payload_deletion. tx_cases.
  all: eapply quiet_objects; [|done..]; intros ? _ _; by apply step_state_keep.
Qed.

(** ** Evolution *)

Lemma evolution_trans db1 db2 db3 : evolution db1 db2 -> evolution db2 db3 -> evolution db1 db3.
Proof.
  intros [K1 L1 O1] [K2 L2 O2]. split; [done|intros room epoch; etrans; [apply L1|apply L2]|]. intros o (o' & Ho' & Hle)%O1. destruct (O2 o' Ho') as (o'' & Ho'' & Hle').
  eauto using object_le_trans.
Qed.

#[export] Instance evolves_preorder : PreOrder evolves.
Proof.
  split.
  - intros db Hok. split; [done|done|]. eauto using object_le_refl.
  - intros db1 db2 db3 H12 H23 Hok. eapply evolution_trans; [by apply H12|]. by apply H23, H12.
Qed.

Lemma key_In db db' e : map epoch_key (t_epochs db') = map epoch_key (t_epochs db) -> e ∈ t_epochs db' -> exists e0, e0 ∈ t_epochs db /\ epoch_key e0 = epoch_key e.
Proof.
  intros Hk He. assert (epoch_key e ∈ map epoch_key (t_epochs db)) as Hin by (rewrite <-Hk; by apply list_elem_of_fmap_2).
  apply list_elem_of_fmap in Hin as (e0 & ? & ?). eauto.
Qed.

Lemma quiet_object db db' o : quiet db db' -> o ∈ t_objects db -> exists o', o' ∈ t_objects db' /\ object_le o o'.
Proof.
  intros [_ _ (moved & fresh & -> & HF & _)] Ho. apply list_elem_of_lookup in Ho as [i Hi].
  destruct (Forall2_lookup_l _ _ _ _ _ HF Hi) as (o' & Ho' & Hle). exists o'. rewrite elem_of_app. eauto using list_elem_of_lookup_2.
Qed.

Lemma at_epoch_key room epoch e e0 : epoch_key e0 = epoch_key e -> at_epoch room epoch e0 = at_epoch room epoch e.
Proof. unfold at_epoch, epoch_key. intros [= -> -> _]. done. Qed.

Lemma quiet_evolves db db' : quiet db db' -> evolves db db'.
Proof.
  intros Hq [K1 K2 K3 K4 K5 K6]. pose proof Hq as [G E (moved & fresh & O & HF & HN & HD)].
  assert (forall room epoch, log db' room epoch = log db room epoch) as Hlog by (intros; unfold log; by rewrite G).
  split; [split|by intros; rewrite Hlog|intros o; by apply quiet_object].
  - by rewrite E.
  - auto.
  - intros e He. destruct (key_In _ _ _ E He) as (e0 & He0 & Hk). rewrite Hlog. specialize (K3 e0 He0). unfold epoch_key in Hk. by simplify_eq; congruence.
  - intros g. rewrite G. intros Hg. destruct (K4 g Hg) as (Hl & (e & He & Hat) & (o & Ho & Hid & Hr & Hep & Hb)). split; [done|]. split.
    + destruct (key_In db' db e (eq_sym E) He) as (e0 & He0 & Hk). exists e0. by rewrite (at_epoch_key _ _ _ _ Hk).
    + destruct (quiet_object _ _ _ Hq Ho) as (o' & Ho' & (Hi' & Hr' & He' & Hh)). exists o'. split_and!; [done|congruence..|].
      destruct (o_blake3 o) as [h|]; [|done]. by destruct (Hh h eq_refl) as [-> _].
  - by rewrite G.
  - auto.
Qed.

Lemma log_empty db room epoch : log_ok db -> (forall e, e ∈ t_epochs db -> at_epoch room epoch e = false) -> log db room epoch = [].
Proof.
  intros Hok Hne. unfold log. destruct (List.filter (in_room room epoch) (t_groups db)) as [|g l] eqn:Hf; [done|]. exfalso.
  assert (g ∈ List.filter (in_room room epoch) (t_groups db)) as [Hg Hin]%list_elem_of_In%filter_In by (rewrite Hf; left).
  apply list_elem_of_In in Hg. destruct (ok_groups _ Hok g Hg) as (_ & (e & He & Hat) & _). specialize (Hne e He).
  unfold in_room in Hin. apply andb_true_iff in Hin as [Hr%N.eqb_eq He'%Z.eqb_eq]. rewrite Hr, He' in Hat. congruence.
Qed.

Lemma insert_epoch_evolves db e db' : e_durable_sequence e = 0 -> insert_epoch db e = Ok db' -> evolves db db'.
Proof.
  intros H0 Hi Hok. unfold insert_epoch in Hi. case_match eqn:Hc; [|done]. injection Hi as <-. apply andb_true_iff in Hc as [_ Hc%negb_true_iff].
  assert (forall x, x ∈ t_epochs db -> at_epoch (e_room e) (e_epoch e) x = false) as Hne.
  { intros x Hx. apply not_true_iff_false. intros Hat. apply (not_true_iff_false (existsb _ _)) in Hc. apply Hc, existsb_exists. exists x.
    rewrite <-list_elem_of_In. by rewrite Hat. }
  pose proof Hok as [K1 K2 K3 K4 K5 K6]. split; [split|done|eauto using object_le_refl]; simpl; try done.
  - rewrite map_app, fmap_app. apply NoDup_app. split_and!; [done| |apply NoDup_singleton]. intros k Hk ->%list_elem_of_singleton.
    apply list_elem_of_fmap in Hk as ([[r n] d] & Hkk & Hk). apply list_elem_of_fmap in Hk as (x & Hx & Hin). specialize (Hne x Hin).
    apply not_true_iff_false in Hne. apply Hne. unfold at_epoch. rewrite andb_true_iff, N.eqb_eq, Z.eqb_eq. unfold epoch_key in *. simpl in *. naive_solver.
  - intros x [Hx | ->%list_elem_of_singleton]%elem_of_app; [by apply K3|]. change (log (with_epochs db _)) with (log db).
    rewrite H0, (log_empty db) by done. done.
  - intros g Hg. destruct (K4 g Hg) as (? & (x & Hx & Hat) & ?). split_and!; [done| |done]. exists x. split; [|done]. rewrite elem_of_app. by left.
Qed.

Lemma evolves_rooms db db' rooms : evolves db db' -> evolves db (with_rooms db' rooms).
Proof. intros H. etrans; [exact H|]. by apply quiet_evolves, quiet_same. Qed.

Lemma reuse_room_evolves db drive node base row now r : reuse_locked_room db drive node base row now = Ok r -> evolves db r.2.
Proof.
  unfold reuse_locked_room. case_match.
  { destruct (update_epochs _ _ db) as [u|] eqn:Hu; [|done]. intros [= <-]. apply quiet_evolves. epochs_quiet. }
  case_match; [by intros [= <-]|]. case_match; [done|].
  match goal with |- (let? _ := ?e in _) = _ -> _ => assert (forall db1, e = Ok db1 -> evolves db db1) as Hclose; [|destruct e as [db1|]; [|done]] end.
  { intros db1. case_match; [|by intros [= <-]]. destruct (update_epochs _ _ db) as [u|] eqn:Hu; [|done]. case_match; [|done]. intros [= <-].
    apply quiet_evolves. epochs_quiet. }
  destruct (checked _ _ _) as [epoch|]; [|done]. cbn [ok_or]. destruct (insert_epoch db1 _) as [db2|] eqn:Hi; [|done]. intros [= <-].
  apply evolves_rooms. etrans; [by apply Hclose|]. by eapply insert_epoch_evolves; [|exact Hi].
Qed.

Lemma open_room_evolves db drive node base created_by fresh now : evolves db (collaboration_get_or_create_room db drive node base created_by fresh now).2.
Proof.
  unfold collaboration_get_or_create_room. destruct (get_or_create_room_tx _ _ _ _ _ _ _) as [r|] eqn:Hr; [|done].
  assert (evolves db r.2) as He; [|by destruct r as [[] ?]]. unfold get_or_create_room_tx in Hr.
  destruct (locked_room db drive node) as [row|]; [by eapply reuse_room_evolves|]. case_match; [done|]. case_match; [done|].
  destruct (insert_epoch _ _) as [db2|] eqn:Hi; [|done]. injection Hr as <-. simpl.
  etrans; [|by eapply insert_epoch_evolves; [|exact Hi]]. by apply quiet_evolves, quiet_same.
Qed.

(** ** The persistence of a group *)

Lemma epoch_unique db e e' : log_ok db -> e ∈ t_epochs db -> e' ∈ t_epochs db -> e_room e = e_room e' -> e_epoch e = e_epoch e' -> e = e'.
Proof.
  intros Hok He He' Hr Hn. pose proof (ok_epochs _ Hok) as HN. apply list_elem_of_lookup in He as [i Hi]. apply list_elem_of_lookup in He' as [j Hj].
  assert (i = j) as ->; [|congruence]. eapply NoDup_lookup; [exact HN|..]; rewrite !list_lookup_fmap; [by rewrite Hi|by rewrite Hj; simpl; rewrite Hr, Hn].
Qed.

Lemma at_epoch_true room epoch e : at_epoch room epoch e = true <-> e_room e = room /\ e_epoch e = epoch.
Proof. unfold at_epoch. by rewrite andb_true_iff, N.eqb_eq, Z.eqb_eq. Qed.
Lemma in_room_true room epoch g : in_room room epoch g = true <-> g_room g = room /\ g_epoch g = epoch.
Proof. unfold in_room. by rewrite andb_true_iff, N.eqb_eq, Z.eqb_eq. Qed.

Section append.
Context (db : Tables) (e : EpochRow) (o : ObjectRow) (row : GroupRow) (now : Z) (chunks : list ChunkRow).
Let first := e_durable_sequence e + 1.
Let db' := with_epochs (with_chunks (with_groups db (t_groups db ++ [row])) (t_chunks db ++ chunks))
             (update_rows (at_epoch (e_room e) (e_epoch e)) (epoch_after_group first now) (t_epochs db)).
Context (Hok : log_ok db) (He : e ∈ t_epochs db) (Ho : o ∈ t_objects db) (Hfirst : first <= i64_max).
Context (Hroom : g_room row = e_room e) (Hepoch : g_epoch row = e_epoch e) (Hseq : g_first_sequence row = first) (Hlast : g_last_sequence row = first).
Context (Hobj : o_id o = g_object row) (Horoom : o_room o = e_room e) (Hoepoch : o_epoch o = e_epoch e) (Hdurable : o_blake3 o <> None).
Context (Hnew : (g_room row, g_epoch row, g_client row, g_client_update row) ∉ map (fun g => (g_room g, g_epoch g, g_client g, g_client_update g)) (t_groups db)).

Lemma append_log room epoch : log db' room epoch = log db room epoch ++ (if in_room room epoch row then [row] else []).
Proof. unfold log. simpl. rewrite List.filter_app. simpl. by destruct (in_room room epoch row). Qed.

Lemma append_epoch x : x ∈ t_epochs db' ->
  (x = epoch_after_group first now e) \/ (x ∈ t_epochs db /\ at_epoch (e_room e) (e_epoch e) x = false).
Proof.
  simpl. rewrite update_rows_In. intros (y & Hy & ->). destruct (at_epoch _ _ y) eqn:Hat; [left|by right].
  apply at_epoch_true in Hat as [Hr Hn]. f_equal. by eapply epoch_unique.
Qed.

Lemma append_evolution : evolution db db'.
Proof.
  pose proof Hok as [K1 K2 K3 K4 K5 K6]. split; [split|intros room epoch; rewrite append_log; by apply prefix_app_r|simpl; eauto using object_le_refl]; try done.
  - enough ((map epoch_key (t_epochs db')).*1 = (map epoch_key (t_epochs db)).*1) as -> by done. simpl. change (list_fmap _ _ fst) with (map (A:=Uuid*Z*Z) fst).
    rewrite !map_map. by apply update_rows_map.
  - intros x [-> | [Hx Hat]]%append_epoch.
    + destruct (K3 e He) as [Hd Hs]. rewrite append_log. simpl. rewrite (proj2 (in_room_true _ _ _) (conj Hroom Hepoch)), map_app, Hs. simpl. rewrite Hseq.
      unfold first in *. split; [lia|]. rewrite seqZ_app by lia. f_equal. unfold seqZ. simpl. f_equal. lia.
    + rewrite append_log. destruct (in_room _ _ row) eqn:Hin; [|rewrite app_nil_r; by apply K3]. apply in_room_true in Hin as [Hr Hn].
      exfalso. apply not_true_iff_false in Hat. apply Hat, at_epoch_true. split; congruence.
  - simpl. intros g [Hg | ->%list_elem_of_singleton]%elem_of_app.
    + destruct (K4 g Hg) as (? & (x & Hx & Hat) & ?). split_and!; [done| |done].
      exists (if at_epoch (e_room e) (e_epoch e) x then epoch_after_group first now x else x). split; [apply update_rows_In; eauto|]. by case_match.
    + split_and!; [congruence| |by exists o; rewrite Hroom, Hepoch]. exists (epoch_after_group first now e). split; [|by apply at_epoch_true].
      apply update_rows_In. exists e. split; [done|]. by rewrite (proj2 (at_epoch_true _ _ _) (conj eq_refl eq_refl)).
  - simpl. rewrite map_app. apply NoDup_app. split_and!; [done| |apply NoDup_singleton]. by intros k Hk ->%list_elem_of_singleton.
Qed.
End append.

(** What a call of [collaboration_persist_update_group] did: it found the group of an
    earlier call, appended one to the manifest, or left the manifest alone. *)
Definition found (db : Tables) (q : PersistGroup) (object : Uuid) (first : Z) (db' : Tables) : Prop :=
  quiet db db' /\ exists g, g ∈ log db (pg_room q) (pg_epoch q) /\ group_of_update q g = true /\ g_first_sequence g = first /\ g_object g = object
    /\ g_source_before g = pg_source_before q /\ g_source_after g = pg_source_after q /\ g_state_digest g = pg_state_digest q
    /\ exists o o', o ∈ t_objects db /\ o_id o = pg_object q /\ o' ∈ t_objects db /\ o_id o' = object /\ o_blake3 o' = o_blake3 o.
Definition appended (db : Tables) (q : PersistGroup) (object : Uuid) (first : Z) (db' : Tables) : Prop :=
  evolution db db' /\ t_objects db' = t_objects db /\ object = pg_object q /\ first = pg_base_sequence q + 1
  /\ (exists e, e ∈ t_epochs db /\ at_epoch (pg_room q) (pg_epoch q) e = true /\ e_durable_sequence e = pg_base_sequence q)
  /\ (exists o, o ∈ t_objects db /\ o_id o = pg_object q /\ o_state o = Durable)
  /\ exists g, log db' (pg_room q) (pg_epoch q) = log db (pg_room q) (pg_epoch q) ++ [g] /\ group_of_update q g = true /\ g_first_sequence g = first
       /\ g_object g = object /\ g_source_before g = pg_source_before q /\ g_source_after g = pg_source_after q.

Lemma find_None_In {A} (p : A -> bool) l x : List.find p l = None -> x ∈ l -> p x = false.
Proof. intros Hf Hx%list_elem_of_In. by eapply find_none. Qed.

Lemma filter_elem {A} (p : A -> bool) l x : x ∈ List.filter p l <-> x ∈ l /\ p x = true.
Proof. by rewrite !list_elem_of_In, filter_In. Qed.


Lemma group_of_update_in_room q g : group_of_update q g = true -> in_room (pg_room q) (pg_epoch q) g = true.
Proof. unfold group_of_update. rewrite !andb_true_iff. tauto. Qed.

Lemma persist_cases db q fresh now : log_ok db ->
  let '(r, db') := collaboration_persist_update_group db q fresh now in
  match r with
  | Err _ => quiet db db'
  | Ok (object, first, last) => last = first /\ (found db q object first db' \/ appended db q object first db')
  end.
Proof.
  intros Hok. unfold collaboration_persist_update_group. destruct (persist_arguments_invalid q); [apply quiet_refl|]. cbn [negb].
  destruct (chunks_total _ _) as [total|]; [|apply quiet_refl]. cbn [ok_or]. destruct (negb (_ || _ || _)); [|apply quiet_refl]. destruct (lock_authorization_fence _ _); [|apply quiet_refl].
  destruct (List.find _ (t_epochs db)) as [e|] eqn:He; [|apply quiet_refl]. destruct (e_fencing_token e =? _); [|apply quiet_refl]. destruct (mcp_invocation_valid _ _ _); [|apply quiet_refl].
  destruct (List.find _ (t_objects db)) as [o|] eqn:Ho; [|apply quiet_refl]. apply find_In in He as [He Hee]. apply find_In in Ho as [Ho Hoo].
  repeat match goal with H : _ && _ = true |- _ => apply andb_true_iff in H as [H ?] end.
  destruct (List.find (group_of_update q) (t_groups db)) as [g|] eqn:Hg.
  - apply find_In in Hg as [Hg Hgu]. destruct (find_object db (g_object g)) as [durable|] eqn:Hdurable; [|apply quiet_refl]. match goal with |- context [if ?c then (Err Conflict, db) else _] => destruct c eqn:Hsame; [apply quiet_refl|] end.
    repeat match goal with H : _ || _ = false |- _ => apply orb_false_iff in H as [H ?] end.
    repeat match goal with H : negb (bool_decide _) = false |- _ => apply negb_false_iff, bool_decide_eq_true in H end.
    split; [by apply (ok_groups _ Hok)|left]. split; [case_match; [done|apply supersede_quiet]|]. exists g. apply find_object_In in Hdurable as [Hdur Hdid].
    split_and!; try done; [apply filter_elem; split; [done|by apply group_of_update_in_room]|]. exists o, durable. split_and!; try done. by apply N.eqb_eq.
  - destruct (negb (e_durable_sequence e =? _)) eqn:Hbase; [apply supersede_quiet|]. apply negb_false_iff, Z.eqb_eq in Hbase. destruct (checked _ _ _) as [first|] eqn:Hf; [|apply quiet_refl].
    apply checked_Some in Hf as [<- Hf]. cbn [ok_or]. destruct (negb (existsb _ _)); [|apply quiet_refl].
    match goal with |- context [update_epochs ?p ?f ?d] => destruct (update_epochs p f d) as [[n db']|] eqn:Hu; [|apply quiet_refl] end.
    unfold update_epochs in Hu. case_match; [|done]. injection Hu as _ <-. split; [done|right]. simpl.
    match goal with H : at_epoch _ _ _ = true |- _ => apply at_epoch_true in H as [Hr Hn] end.
    match goal with |- appended _ _ _ _ (with_epochs (with_chunks (with_groups _ (_ ++ [?row])) _) _) => set (r := row) end.
    repeat match goal with H : N.eqb _ _ = true |- _ => apply N.eqb_eq in H | H : Z.eqb _ _ = true |- _ => apply Z.eqb_eq in H
      | H : bool_decide (o_state _ = _) = true |- _ => apply bool_decide_eq_true in H end.
    assert (group_of_update q r = true) as Hgr by (unfold group_of_update, r; rewrite !andb_true_iff, in_room_true, !N.eqb_eq; done).
    unfold appended. split; [|split_and!; try done; [by lia|by exists e; rewrite at_epoch_true|by exists o|]].
    + rewrite <-Hr, <-Hn. apply (append_evolution db e o r); try done; [lia|congruence|congruence|by apply (ok_durable _ Hok)|].
      intros (g & Hgk & Hgin)%list_elem_of_fmap. apply (find_None_In _ _ g) in Hg; [|done]. apply not_true_iff_false in Hg. apply Hg.
      unfold group_of_update, r in *. simpl in *. rewrite !andb_true_iff, in_room_true, !N.eqb_eq. naive_solver.
    + exists r. split_and!; try done. unfold log. simpl. rewrite List.filter_app. simpl. by rewrite (group_of_update_in_room q r Hgr).
Qed.

Lemma persist_evolves db q fresh now : evolves db (collaboration_persist_update_group db q fresh now).2.
Proof.
  intros Hok. pose proof (persist_cases db q fresh now Hok) as Hc. destruct (collaboration_persist_update_group db q fresh now) as [[[[object first] last]|] db']; simpl in *.
  - destruct Hc as [_ [[Hq _]|[He _]]]; [by apply quiet_evolves|done].
  - by apply quiet_evolves.
Qed.

Lemma run_op_evolves db op : evolves db (run_op db op).
Proof.
  destruct op; simpl;
    first [ apply open_room_evolves | apply persist_evolves
          | intros Hok; apply quiet_evolves; [|done];
            first [ apply freeze_quiet | apply discard_quiet | apply reserve_quiet | by apply finalize_quiet | apply commit_snapshot_quiet | apply abandon_quiet
                  | apply commit_checkpoint_quiet | apply sweep_quiet | apply complete_deletion_quiet | by apply quiet_same | idtac ] ].
  - unfold collaboration_create_join_grant. tx_cases; by apply quiet_same.
  - unfold collaboration_consume_join_grant. tx_cases; by apply quiet_same.
  - unfold collaboration_join_participant. tx_cases; by apply quiet_same.
  - unfold collaboration_heartbeat_participant. tx_cases; by apply quiet_same.
  - unfold collaboration_prepare_checkpoint. tx_cases; by apply quiet_same.
  - destruct (freeze_external_head db drive node) eqn:Hf; [by eapply external_head_quiet|done].
Qed.

Lemma run_ops_evolves db ops : evolves db (run_ops db ops).
Proof. revert db. induction ops as [|op ops IH]; intros db; [done|]. simpl. etrans; [apply run_op_evolves|apply IH]. Qed.

(** C30. The manifest of a collaboration room: whatever sequence of transactions runs
    (joins, reservations, finalizations, persisted groups with their retries, snapshots,
    abandoned objects, freezes, new epochs, retention), the groups of every epoch carry
    the sequence numbers 1, 2, ..., [durable_sequence] in order, no update of a client is
    in it twice, every group names an object whose digest is recorded, the manifest of
    an epoch is only ever extended, and a recorded digest never changes. *)
Theorem manifest_gap_free db ops :
  log_ok db ->
  let db' := run_ops db ops in
  (forall e, e ∈ t_epochs db' -> map g_first_sequence (log db' (e_room e) (e_epoch e)) = seqZ 1 (e_durable_sequence e))
  /\ NoDup (map (fun g => (g_room g, g_epoch g, g_client g, g_client_update g)) (t_groups db'))
  /\ (forall g, g ∈ t_groups db' -> exists o, o ∈ t_objects db' /\ o_id o = g_object g /\ o_blake3 o <> None)
  /\ (forall room epoch, log db room epoch `prefix_of` log db' room epoch)
  /\ (forall o h, o ∈ t_objects db -> o_blake3 o = Some h -> exists o', o' ∈ t_objects db' /\ o_id o' = o_id o /\ o_blake3 o' = Some h).
Proof.
  intros Hok. destruct (run_ops_evolves db ops Hok) as [[K1 K2 K3 K4 K5 K6] Hl Ho]. cbv zeta. split_and!; [|done| |done|].
  - intros e He. by apply K3.
  - intros g Hg. destruct (K4 g Hg) as (_ & _ & (o & ? & ? & _ & _ & ?)). eauto.
  - intros o h (o' & Hin & (Hid & _ & _ & Hh))%Ho Hb. exists o'. split_and!; [done..|]. by apply Hh.
Qed.

(** An epoch without unsaved edits is not replaced: the statement that would close it
    leaves its freeze reason in place, or sets one, and a closed epoch must not have a
    freeze reason.  Opening the room again after the file changed gives an error. *)
Theorem clean_epoch_not_replaced db drive node base created_by fresh now row :
  locked_room db drive node = Some row -> e_dirty row = false ->
  e_state row = EpochFrozen \/ (e_state row = EpochActive /\ e_base_version row <> base) ->
  collaboration_get_or_create_room db drive node base created_by fresh now = (Err Sql, db).
Proof.
  intros Hrow Hd Hs. unfold collaboration_get_or_create_room, get_or_create_room_tx. rewrite Hrow. unfold reuse_locked_room. rewrite Hd, !andb_false_r.
  rewrite (bool_decide_eq_true_2 (_ \/ _)) by naive_solver.
  assert (bool_decide (e_state row = EpochActive) && (e_base_version row =? base)%N = false) as ->.
  { destruct Hs as [-> | [-> Hb]]; [done|]. rewrite bool_decide_eq_true_2 by done. by apply N.eqb_neq. }
  unfold update_epochs. match goal with |- context [if ?c then _ else Err Sql] => destruct c eqn:Hall; [exfalso|done] end. rewrite forallb_forall in Hall.
  assert (row ∈ t_epochs db) as Hin.
  { unfold locked_room in Hrow. destruct (List.find _ (t_rooms db)); [|done]. by apply find_In in Hrow as [? _]. }
  specialize (Hall row). rewrite filter_In, Hd in Hall. ospecialize (Hall _).
  { rewrite <-list_elem_of_In. split; [done|]. rewrite (proj2 (at_epoch_true _ _ _) (conj eq_refl eq_refl)), bool_decide_eq_true_2; [done|naive_solver]. }
  unfold epoch_checks in Hall. simpl in Hall. rewrite !andb_true_iff in Hall. destruct Hall as [_ Hall].
  destruct (e_freeze_reason row); discriminate Hall.
Qed.
