(* ===== verification/CollaborationQuota.v ===== *)
(** The drive accounting of collaboration objects over every sequence of the
    transactions of [CollaborationStore]: what a drive has reserved and used for objects
    is what its objects hold, to the byte, and the quota is never exceeded. *)
From S2P Require Import Prelude Collections Libraries Frames CollaborationStore CollaborationLog.

Open Scope string_scope.
Open Scope Z_scope.
Open Scope list_scope.
Open Scope bool_scope.

(** ** What an object holds of its drive *)

Definition object_reserves (o : ObjectRow) : Z := if bool_decide (o_state o = Staging) then o_reserved_bytes o else 0.
Definition object_uses (o : ObjectRow) : Z :=
  match o_state o with Durable | Superseded | DeleteIntent => default 0 (o_size_bytes o) | _ => 0 end.

Definition held (weight : ObjectRow -> Z) (drive : Uuid) (objects : list ObjectRow) : Z :=
  foldr (fun o total => (if N.eqb (o_drive o) drive then weight o else 0) + total) 0 objects.
Definition reserved_for (db : Tables) (drive : Uuid) : Z := held object_reserves drive (t_objects db).
Definition used_for (db : Tables) (drive : Uuid) : Z := held object_uses drive (t_objects db).

Definition object_ok (o : ObjectRow) : Prop :=
  0 <= o_reserved_bytes o
  /\ match o_state o with
     | Staging | Quarantined | Abandoned => o_size_bytes o = None
     | _ => exists size, o_size_bytes o = Some size /\ 0 <= size <= o_reserved_bytes o
     end.

Record accounts_ok (db : Tables) : Prop := {
  ac_objects : NoDup (map o_id (t_objects db));
  ac_drives : NoDup (map d_id (t_drives db));
  ac_rows : Forall object_ok (t_objects db)
}.

(** A drive row keeps its share of other uses: the difference between what it accounts
    and what the collaboration objects hold. *)
Definition same_share (db db' : Tables) (d d' : DriveRow) : Prop :=
  d_quota_bytes d' = d_quota_bytes d
  /\ d_reserved_bytes d' - reserved_for db' (d_id d) = d_reserved_bytes d - reserved_for db (d_id d)
  /\ d_used_physical_bytes d' - used_for db' (d_id d) = d_used_physical_bytes d - used_for db (d_id d)
  /\ (d_used_physical_bytes d + d_reserved_bytes d <= d_quota_bytes d -> d_used_physical_bytes d' + d_reserved_bytes d' <= d_quota_bytes d').

Record accounting (db db' : Tables) : Prop := {
  acc_ok : accounts_ok db';
  acc_drives : Forall2 (fun d d' => d_id d' = d_id d /\ same_share db db' d d') (t_drives db) (t_drives db')
}.
Definition accounts (db db' : Tables) : Prop := accounts_ok db -> accounting db db'.

#[export] Instance accounts_preorder : PreOrder accounts.
Proof.
  split.
  - intros db Hok. split; [done|]. apply Forall_Forall2_diag, Forall_forall. intros d _. by unfold same_share.
  - intros db1 db2 db3 H12 H23 Hok. destruct (H12 Hok) as [Hok2 HF]. destruct (H23 Hok2) as [Hok3 HF']. split; [done|].
    clear -HF HF'. revert HF'. generalize (t_drives db3). induction HF as [|d d' l l' [Hid Hs] _ IH]; intros l3 HF'; inversion HF' as [|? d'' ? l'' [Hid' Hs']]; subst; constructor; [|auto].
    split; [congruence|]. unfold same_share in *. rewrite Hid in Hs'. naive_solver lia.
Qed.

(** ** Objects that move without moving bytes *)

Definition weightless (f : ObjectRow -> ObjectRow) (o : ObjectRow) : Prop :=
  o_id (f o) = o_id o /\ o_drive (f o) = o_drive o /\ object_reserves (f o) = object_reserves o /\ object_uses (f o) = object_uses o /\ (object_ok o -> object_ok (f o)).

Lemma held_update weight drive p f objects : (forall o, o ∈ objects -> p o = true -> o_drive (f o) = o_drive o /\ weight (f o) = weight o) ->
  held weight drive (update_rows p f objects) = held weight drive objects.
Proof.
  intros Hf. unfold held, update_rows. induction objects as [|o objects IH]; [done|]. simpl. rewrite IH by (intros; apply Hf; [by right|done]).
  destruct (p o) eqn:Hp; [|done]. by destruct (Hf o ltac:(left) Hp) as [-> ->].
Qed.

Lemma same_share_id db db' l : (forall drive, reserved_for db' drive = reserved_for db drive) -> (forall drive, used_for db' drive = used_for db drive) ->
  Forall2 (fun d d' => d_id d' = d_id d /\ same_share db db' d d') l l.
Proof. intros HR HU. apply Forall_Forall2_diag, Forall_forall. intros d _. split; [done|]. unfold same_share. by rewrite HR, HU. Qed.

Lemma accounts_objects db db' p f : (forall o, o ∈ t_objects db -> p o = true -> accounts_ok db -> weightless f o) ->
  t_drives db' = t_drives db -> t_objects db' = update_rows p f (t_objects db) -> accounts db db'.
Proof.
  intros Hf HD HO Hok. split.
  - split; rewrite ?HD, ?HO; [rewrite update_rows_map; [apply Hok|intros o Ho Hp; by apply Hf]|apply Hok|].
    apply Forall_forall. intros x (o & Ho & ->)%update_rows_In. pose proof (proj1 (Forall_forall _ _) (ac_rows _ Hok) o Ho). destruct (p o) eqn:Hp; [|done]. by apply Hf.
  - rewrite HD. apply same_share_id; intros drive; unfold reserved_for, used_for; rewrite HO; apply held_update; intros o Ho Hp; by destruct (Hf o Ho Hp Hok) as (_ & ? & ? & ? & _).
Qed.

Lemma accounts_same db db' : t_drives db' = t_drives db -> t_objects db' = t_objects db -> accounts db db'.
Proof.
  intros HD HO. apply (accounts_objects _ _ (fun _ => false) id); [done..|]. rewrite HO. unfold update_rows. by rewrite map_id.
Qed.

(** ** One object that moves bytes *)

Lemma held_one weight drive p f objects o : NoDup (map o_id objects) -> o ∈ objects -> p o = true -> (forall x, p x = true -> o_id x = o_id o) ->
  o_drive (f o) = o_drive o ->
  held weight drive (update_rows p f objects) = held weight drive objects + (if N.eqb (o_drive o) drive then weight (f o) - weight o else 0).
Proof.
  intros HN Ho Hp Honly Hd. induction objects as [|x objects IH]; [by apply elem_of_nil in Ho|]. simpl in HN. apply NoDup_cons in HN as [Hx HN].
  change (held weight drive (update_rows p f (x :: objects)))
    with ((if N.eqb (o_drive (if p x then f x else x)) drive then weight (if p x then f x else x) else 0) + held weight drive (update_rows p f objects)).
  change (held weight drive (x :: objects)) with ((if N.eqb (o_drive x) drive then weight x else 0) + held weight drive objects).
  apply elem_of_cons in Ho as [-> | Hin].
  - rewrite Hp, Hd, (held_update weight drive p f objects); [destruct (N.eqb _ _); lia|]. intros y Hy Hpy. exfalso. apply Hx.
    apply list_elem_of_fmap. exists y. split; [|done]. symmetry. by apply Honly.
  - rewrite (IH HN Hin). destruct (p x) eqn:Hpx; [|lia]. exfalso. apply Hx. rewrite (Honly x Hpx).
    apply list_elem_of_fmap. eauto.
Qed.

Lemma held_snoc weight drive objects o : held weight drive (objects ++ [o]) = held weight drive objects + if N.eqb (o_drive o) drive then weight o else 0.
Proof. unfold held. induction objects as [|x objects IH]; simpl; [lia|]. rewrite IH. lia. Qed.

Lemma share_moves db db' drive q g dR dU :
  NoDup (map d_id (t_drives db)) ->
  (forall x, reserved_for db' x = reserved_for db x + if N.eqb drive x then dR else 0) ->
  (forall x, used_for db' x = used_for db x + if N.eqb drive x then dU else 0) ->
  t_drives db' = update_rows q g (t_drives db) ->
  (forall d, q d = true -> d_id d = drive) -> (exists d, d ∈ t_drives db /\ q d = true) ->
  (forall d, q d = true -> d_id (g d) = d_id d /\ d_quota_bytes (g d) = d_quota_bytes d /\ d_reserved_bytes (g d) = d_reserved_bytes d + dR
     /\ d_used_physical_bytes (g d) = d_used_physical_bytes d + dU
     /\ (d_used_physical_bytes d + d_reserved_bytes d <= d_quota_bytes d -> d_used_physical_bytes d + d_reserved_bytes d + dR + dU <= d_quota_bytes d)) ->
  Forall2 (fun d d' => d_id d' = d_id d /\ same_share db db' d d') (t_drives db) (t_drives db').
Proof.
  intros HN HR HU -> Hid (d0 & Hd0 & Hq0) Hg. unfold update_rows. apply Forall2_fmap_r, Forall_Forall2_diag, Forall_forall. intros d Hd. unfold same_share. simpl.
  rewrite HR, HU. destruct (q d) eqn:Hq.
  - destruct (Hg d Hq) as (-> & -> & -> & -> & Hle). rewrite (Hid d Hq), N.eqb_refl. split_and!; [done|done|lia|lia|]. intros H. specialize (Hle H). lia.
  - assert ((drive =? d_id d)%N = false) as ->; [|split_and!; [done|done|lia|lia|done]]. apply N.eqb_neq. intros Heq.
    assert (d = d0) as ->; [|congruence]. apply list_elem_of_lookup in Hd as [i Hi]. apply list_elem_of_lookup in Hd0 as [j Hj].
    assert (i = j) as ->; [|congruence]. eapply NoDup_lookup; [exact HN|..]; rewrite list_lookup_fmap; [by rewrite Hi|]. rewrite Hj. simpl. f_equal. rewrite (Hid d0 Hq0). done.
Qed.

Lemma used_state s o : s = Superseded \/ s = DeleteIntent -> o_state o = Durable \/ o_state o = Superseded \/ o_state o = DeleteIntent ->
  forall delete, weightless (set_object_state s delete) o.
Proof.
  intros Hs Ho delete. unfold weightless, object_reserves, object_uses, object_ok. simpl.
  destruct Hs as [-> | ->], Ho as [-> | [-> | ->]]; simpl; split_and!; try done.
Qed.

Lemma in_state_eq id s o : object_in_state id s o = true -> o_id o = id /\ o_state o = s.
Proof. unfold object_in_state. rewrite andb_true_iff, N.eqb_eq, bool_decide_eq_true. done. Qed.

Lemma supersede_accounts db id now : accounts db (supersede_object db id now).
Proof. eapply accounts_objects; [|done..]. intros o _ [_ Hs]%in_state_eq _. apply used_state; auto. Qed.

Lemma enqueue_accounts db prefix payload : accounts db (enqueue_delete db prefix payload).2.
Proof. unfold enqueue_delete. case_match; [done|]. by apply accounts_same. Qed.

Lemma update_epochs_accounts p f db r : update_epochs p f db = Ok r -> accounts db r.2.
Proof. unfold update_epochs. case_match; [|done]. intros [= <-]. by apply accounts_same. Qed.

Ltac epochs_accounts := match goal with H : update_epochs _ _ _ = Ok _ |- _ => apply update_epochs_accounts in H; exact H end.
Ltac acc_cases := repeat (case_match; simplify_eq/=; try done).

Lemma existsb_In {A} (p : A -> bool) l : existsb p l = true -> exists x, x ∈ l /\ p x = true.
Proof. rewrite existsb_exists. intros (x & Hx%list_elem_of_In & Hp). eauto. Qed.

Lemma reserve_accounts db room epoch drive purpose b token object payload locator now :
  accounts db (collaboration_reserve_object db room epoch drive purpose b token object payload locator now).2.
Proof.
  unfold collaboration_reserve_object. destruct (Z.leb_spec 0 b) as [Hb|]; [|done]. destruct (List.find _ _); [|done]. case_match; [|done].
  destruct (existsb _ (t_drives db)) eqn:Hroom; [|done]. destruct (reserve_posix_storage_backend _ _); [|done]. case_match eqn:Hfree; [|done]. simpl.
  apply andb_true_iff in Hfree as [Hfree%negb_true_iff _]. intros [HN HD HR]. split.
  - split; simpl.
    + rewrite map_app. apply NoDup_app. split_and!; [done| |apply NoDup_singleton]. intros x Hx ->%list_elem_of_singleton. apply list_elem_of_fmap in Hx as (o & Hid & Ho).
      apply not_true_iff_false in Hfree. apply Hfree, existsb_exists. exists o. rewrite <-list_elem_of_In, orb_true_iff, N.eqb_eq. auto.
    + rewrite update_rows_map; [done|by intros].
    + apply Forall_app. split; [done|]. constructor; [|done]. split; simpl; [lia|done].
  - eapply (share_moves _ _ drive _ _ b 0); [exact HD| | |done| |by apply existsb_In|].
    + intros x. unfold reserved_for. simpl. by rewrite held_snoc.
    + intros x. unfold used_for. simpl. rewrite held_snoc. simpl. by case_match.
    + intros d [Hd%N.eqb_eq _]%andb_true_iff. done.
    + intros d [_ Hle%Z.leb_le]%andb_true_iff. simpl. split_and!; try done; lia.
Qed.

Lemma same_id_eq objects o x : NoDup (map o_id objects) -> o ∈ objects -> x ∈ objects -> o_id x = o_id o -> x = o.
Proof.
  intros HN Ho Hx Hid. apply list_elem_of_lookup in Ho as [i Hi]. apply list_elem_of_lookup in Hx as [j Hj]. assert (i = j) as ->; [|congruence].
  eapply NoDup_lookup; [exact HN|..]; rewrite list_lookup_fmap; [by rewrite Hi|by rewrite Hj, <-Hid].
Qed.

(** one object changes, and the drive with it *)
Lemma accounts_move db db' o p f q g dR dU :
  o ∈ t_objects db -> p o = true -> (forall x, p x = true -> o_id x = o_id o) -> o_id (f o) = o_id o -> o_drive (f o) = o_drive o ->
  (accounts_ok db -> object_ok (f o) /\ object_reserves (f o) = object_reserves o + dR /\ object_uses (f o) = object_uses o + dU) ->
  t_objects db' = update_rows p f (t_objects db) -> t_drives db' = update_rows q g (t_drives db) ->
  (forall d, q d = true -> d_id d = o_drive o) -> (exists d, d ∈ t_drives db /\ q d = true) ->
  (accounts_ok db -> forall d, q d = true -> d_id (g d) = d_id d /\ d_quota_bytes (g d) = d_quota_bytes d /\ d_reserved_bytes (g d) = d_reserved_bytes d + dR
     /\ d_used_physical_bytes (g d) = d_used_physical_bytes d + dU
     /\ (d_used_physical_bytes d + d_reserved_bytes d <= d_quota_bytes d -> d_used_physical_bytes d + d_reserved_bytes d + dR + dU <= d_quota_bytes d)) ->
  accounts db db'.
Proof.
  intros Ho Hp Honly Hfid Hfd Hf HO HD Hq Hex Hg Hok. pose proof Hok as [HN HDN HR]. destruct (Hf Hok) as (Hfok & HfR & HfU).
  assert (forall x, x ∈ t_objects db -> p x = true -> x = o) as Hone by (intros x Hx Hpx; by eapply same_id_eq, Honly).
  split.
  - split; rewrite ?HO, ?HD.
    + rewrite update_rows_map; [done|]. intros x Hx Hpx. by rewrite (Hone x Hx Hpx).
    + rewrite update_rows_map; [done|]. intros d _ Hqd. by apply Hg.
    + apply Forall_forall. intros x (y & Hy & ->)%update_rows_In. destruct (p y) eqn:Hpy; [by rewrite (Hone y Hy Hpy)|]. by apply (proj1 (Forall_forall _ _) HR).
  - eapply (share_moves _ _ (o_drive o) q g dR dU); try done; [..|by apply Hg].
    + intros x. unfold reserved_for. rewrite HO, (held_one _ _ _ _ _ o) by done. destruct (N.eqb _ _); lia.
    + intros x. unfold used_for. rewrite HO, (held_one _ _ _ _ _ o) by done. destruct (N.eqb _ _); lia.
Qed.

Lemma rows_one_In {R} (p : R -> bool) rows : rows_affected p rows = 1 -> exists r, r ∈ rows /\ p r = true.
Proof.
  unfold rows_affected, len. intros H. destruct (List.filter p rows) as [|r l] eqn:Hf; [done|]. exists r. apply filter_elem. rewrite Hf. left.
Qed.

Lemma finalize_object_accounts db id size h now db' : finalize_object db id size h now = Some db' -> accounts db db'.
Proof.
  unfold finalize_object. destruct (find_object db id) as [o|] eqn:Ho; [|done]. destruct (find_reservation db id); [|done].
  destruct (find_drive db (o_drive o)) as [d|] eqn:Hd; [|done]. case_match eqn:Hc; [|done]. intros [= <-]. apply find_object_In in Ho as [Ho Hid].
  repeat match goal with H : _ && _ = true |- _ => apply andb_true_iff in H as [H ?] end.
  repeat match goal with H : bool_decide _ = true |- _ => apply bool_decide_eq_true in H | H : (_ <=? _) = true |- _ => apply Z.leb_le in H end.
  apply find_In in Hd as [Hd Hdid%N.eqb_eq].
  eapply (accounts_move _ _ o (object_in_state id Staging) (set_object_durable size h now) _ _ (- o_reserved_bytes o) size); try done.
  - unfold object_in_state. rewrite Hid, N.eqb_refl. by rewrite bool_decide_eq_true_2.
  - intros x [-> _]%in_state_eq. done.
  - intros _. unfold object_ok, object_reserves, object_uses. simpl. rewrite bool_decide_eq_true_2 by done. match goal with H : o_state o = Staging |- _ => rewrite H end.
    split_and!; [done|by exists size|lia|lia].
  - intros x Hx. by apply N.eqb_eq.
  - exists d. split; [done|]. by apply N.eqb_eq.
  - intros _ x Hx. simpl. split_and!; try done; lia.
Qed.

Lemma finalize_accounts db id token a size h now : accounts db (collaboration_finalize_object db id token a size h now).2.
Proof.
  unfold collaboration_finalize_object. acc_cases. match goal with H : finalize_object _ _ _ _ _ = Some _ |- _ => apply finalize_object_accounts in H end.
  etrans; [|done]. by apply accounts_same.
Qed.

Lemma abandon_accounts db id now : accounts db (collaboration_abandon_object db id now).2.
Proof.
  unfold collaboration_abandon_object. destruct (find_object db id) as [o|] eqn:Ho; [|done]. destruct (find_reservation db id) as [rv|]; [|done].
  destruct (find_payload db (o_payload o)) as [p|]; [|done]. case_match; [done|]. case_match; [done|]. apply find_object_In in Ho as [Ho Hid].
  destruct (o_state o) eqn:Hs; try done.
  - destruct (negb _ || negb _); [done|]. match goal with |- context [if ?c then Err StaleGeneration else _] => destruct c eqn:Hrows; [done|] end. cbv iota.
    apply orb_false_iff in Hrows as [Hdr%negb_false_iff%Z.eqb_eq _]. case_match; [|done]. cbn [snd]. etrans; [|apply enqueue_accounts].
    apply rows_one_In in Hdr as (d & Hd & Hq). simpl in Hd.
    eapply (accounts_move _ _ o (object_in_state id Staging) (fun x => set_object_state Quarantined (o_delete_after x) x) _ _ (- o_reserved_bytes o) 0); try done.
    + unfold object_in_state. by rewrite Hid, N.eqb_refl, bool_decide_eq_true_2.
    + intros x [-> _]%in_state_eq. done.
    + intros [_ _ HR]. pose proof (proj1 (Forall_forall _ _) HR o Ho) as [Hpos Hok]. unfold object_ok, object_reserves, object_uses. rewrite Hs in *. simpl.
      split_and!; [done|done|lia|done].
    + intros x [Hx%N.eqb_eq _]%andb_true_iff. done.
    + by exists d.
    + intros [_ _ HR] x _. pose proof (proj1 (Forall_forall _ _) HR o Ho) as [Hpos _]. simpl. split_and!; try done; lia.
  - destruct (negb _ || _); [done|]. case_match; [|done]. cbn [snd]. etrans; [|apply enqueue_accounts]. eapply accounts_objects; [|done..].
    intros x _ [_ Hx%bool_decide_eq_true]%andb_true_iff _. apply used_state; tauto.
  - destruct (negb _ || _); [done|]. case_match; [|done]. cbn [snd]. etrans; [|apply enqueue_accounts]. eapply accounts_objects; [|done..].
    intros x _ [_ Hx%bool_decide_eq_true]%andb_true_iff _. apply used_state; tauto.
Qed.

Lemma insert_snapshot_accounts db db' room epoch object covered sv fresh now : accounts db db' ->
  accounts db (insert_snapshot db db' room epoch object covered sv fresh now).2.
Proof.
  intros Hq. unfold insert_snapshot. case_match; [done|]. etrans; [exact Hq|]. eapply (accounts_objects _ _ _ (supersede now)); [|done..].
  intros o _ [_ Ho%bool_decide_eq_true]%andb_true_iff _. apply used_state; tauto.
Qed.

Lemma commit_snapshot_accounts db room epoch token a object covered sv fresh now :
  accounts db (collaboration_commit_snapshot db room epoch token a object covered sv fresh now).2.
Proof.
  unfold collaboration_commit_snapshot. acc_cases; apply insert_snapshot_accounts; [|done]. etrans; [|apply supersede_accounts]. by apply accounts_same.
Qed.

Lemma abandon_all_accounts db ids now count : accounts db (abandon_all db ids now count).2.
Proof.
  revert db count. induction ids as [|id ids IH]; intros db count; [done|]. simpl. pose proof (abandon_accounts db id now) as Hq.
  destruct (collaboration_abandon_object db id now) as [[[]|[]] db']; simpl in *; try done; (etrans; [exact Hq|apply IH]).
Qed.

Lemma fold_accounts {A} (f : Z * Tables -> A -> Z * Tables) l acc : (forall acc x, accounts acc.2 (f acc x).2) -> accounts acc.2 (foldl f acc l).2.
Proof. intros Hf. revert acc. induction l as [|x l IH]; intros acc; [done|]. simpl. etrans; [apply Hf|apply IH]. Qed.

Lemma expire_epoch_accounts now db e : accounts db (expire_epoch_payloads now db e).2.
Proof.
  unfold expire_epoch_payloads. etrans; [|apply (fold_accounts _ _ (0, _)); intros acc p; apply enqueue_accounts].
  eapply (accounts_objects _ _ _ (set_object_state DeleteIntent (Some now))); [|done..].
  intros o _ [_ Ho%bool_decide_eq_true]%andb_true_iff _. apply used_state; tauto.
Qed.

Lemma delete_superseded_accounts acc o : accounts acc.2 (delete_superseded acc o).2.
Proof.
  unfold delete_superseded. case_match; [|done]. simpl. etrans; [|apply enqueue_accounts].
  eapply (accounts_objects _ _ _ (fun x => set_object_state DeleteIntent (o_delete_after x) x)); [|done..].
  intros x _ [_ Hs]%in_state_eq _. apply (used_state DeleteIntent x); auto.
Qed.

Lemma sweep_accounts db limit now : accounts db (collaboration_retention_sweep db limit now).2.
Proof.
  unfold collaboration_retention_sweep. case_match; [|done].
  match goal with |- context [abandon_all db ?ids now 0] => pose proof (abandon_all_accounts db ids now 0) as Hq; destruct (abandon_all db ids now 0) as [[count|] db'] end; [|done].
  simpl in Hq. etrans; [exact Hq|]. clear Hq.
  destruct (update_epochs _ _ db') as [w|] eqn:Hw; [|done]. apply update_epochs_accounts in Hw.
  destruct (update_epochs _ _ w.2) as [c|] eqn:Hc; [|done]. apply update_epochs_accounts in Hc.
  simpl. etrans; [exact Hw|]. etrans; [exact Hc|]. etrans; [|apply fold_accounts, delete_superseded_accounts].
  apply (fold_accounts (fun acc e => let r := expire_epoch_payloads now acc.2 e in (acc.1 + r.1, r.2)) _ (0, c.2)). intros acc e. apply expire_epoch_accounts.
Qed.

Lemma complete_deletion_accounts db payload : accounts db (complete_payload_deletion db payload).2.
Proof.
  unfold complete_payload_deletion. destruct (List.find _ (t_objects db)) as [o|] eqn:Ho; [|done]. apply find_In in Ho as [Ho Hst]. apply andb_true_iff in Hst as [_ Hst].
  destruct (find_payload db payload) as [p|]; [|done]. destruct (find_reservation db (o_id o)) as [rv|]; [|done].
  case_match; [done|]. case_match eqn:Hfinal; [done|]. case_match; [done|].
  assert (o_state o = DeleteIntent \/ o_state o = Quarantined) as Hs by (apply bool_decide_eq_true in Hst; apply bool_decide_eq_false in Hfinal; tauto).
  set (db1 := if bool_decide (p_state p = PDeleting) then _ else db).
  assert (t_objects db1 = t_objects db /\ t_drives db1 = t_drives db) as [HO HD] by (unfold db1; by case_match).
  set (mine := fun x => N.eqb (o_id x) (o_id o) && bool_decide (o_state x = DeleteIntent \/ o_state x = Quarantined)).
  assert (mine o = true) as Hmine by (unfold mine; rewrite N.eqb_refl; by apply bool_decide_eq_true).
  assert (forall x, mine x = true -> o_id x = o_id o) as Honly by (intros x [Hx%N.eqb_eq _]%andb_true_iff; done).
  destruct (o_size_bytes o) as [size|] eqn:Hsize.
  - destruct (negb (bool_decide (rv_state rv = ReservationCommitted))); [done|]. cbn [fst snd].
    match goal with |- context [if ?b then (Ok tt, _) else _] => destruct b eqn:Hrows; [|done] end. simpl in *. repeat match goal with H : _ && _ = true |- _ => apply andb_true_iff in H as [H ?] end.
    match goal with H : (rows_affected _ _ =? 1) = true |- _ => apply Z.eqb_eq, rows_one_In in H as (d & Hd & Hq) end. simpl in Hd. rewrite HD in Hd.
    assert (accounts_ok db -> o_state o = DeleteIntent /\ 0 <= size) as Hdi.
    { intros [_ _ HR]. pose proof (proj1 (Forall_forall _ _) HR o Ho) as [_ Hok]. destruct Hs as [Hs|Hs]; rewrite Hs, Hsize in Hok; [naive_solver|done]. }
    eapply (accounts_move _ _ o mine (fun x => set_object_state Tombstoned (o_delete_after x) x) _ _ 0 (- size)); try done; simpl; [|by rewrite HO|by rewrite HD| | |].
    + intros Hok. destruct (Hdi Hok) as [Hdel _]. destruct Hok as [_ _ HR]. pose proof (proj1 (Forall_forall _ _) HR o Ho) as [Hpos Ho2]. rewrite Hdel in Ho2.
      unfold object_ok, object_reserves, object_uses. simpl. rewrite Hdel, Hsize. simpl. split_and!; [done|by rewrite Hsize in Ho2|done|lia].
    + intros x [Hx%N.eqb_eq _]%andb_true_iff. done.
    + by exists d.
    + intros Hok x _. destruct (Hdi Hok). simpl. split_and!; try done; lia.
  - destruct (negb (bool_decide (rv_state rv = ReservationReleased))); [done|]. cbn [fst snd].
    match goal with |- context [if ?b then (Ok tt, _) else _] => destruct b; [|done] end. simpl. eapply (accounts_objects _ _ mine (fun x => set_object_state Abandoned (o_delete_after x) x)); simpl; [|done|by rewrite HO].
    intros x Hx Hmx [HN _ HR]. assert (x = o) as -> by (by eapply same_id_eq, Honly). pose proof (proj1 (Forall_forall _ _) HR o Ho) as [Hpos Hok].
    destruct Hs as [Hs|Hs]; rewrite Hs, Hsize in Hok; [naive_solver|]. unfold weightless, object_reserves, object_uses, object_ok. simpl. rewrite Hs, Hsize. done.
Qed.

Lemma open_room_accounts db drive node base created_by fresh now : accounts db (collaboration_get_or_create_room db drive node base created_by fresh now).2.
Proof.
  assert (t_objects (collaboration_get_or_create_room db drive node base created_by fresh now).2 = t_objects db
          /\ t_drives (collaboration_get_or_create_room db drive node base created_by fresh now).2 = t_drives db) as [HO HD]; [|by apply accounts_same].
  unfold collaboration_get_or_create_room, get_or_create_room_tx, reuse_locked_room, insert_epoch, update_epochs. acc_cases.
Qed.

Lemma persist_accounts db q fresh now : accounts db (collaboration_persist_update_group db q fresh now).2.
Proof.
  unfold collaboration_persist_update_group. repeat (case_match; simplify_eq/=; try done; try apply supersede_accounts).
  match goal with H : update_epochs _ _ _ = Ok _ |- _ => apply update_epochs_accounts in H; etrans; [|exact H] end. by apply accounts_same.
Qed.

Lemma run_op_accounts db op : accounts db (run_op db op).
Proof.
  destruct op; simpl;
    first [ apply open_room_accounts | apply persist_accounts | apply reserve_accounts | apply finalize_accounts | apply commit_snapshot_accounts | apply abandon_accounts
          | apply sweep_accounts | apply complete_deletion_accounts | by apply accounts_same | idtac ].
  - unfold collaboration_freeze. acc_cases. epochs_accounts.
  - unfold collaboration_discard. acc_cases. epochs_accounts.
  - unfold collaboration_create_join_grant. acc_cases; by apply accounts_same.
  - unfold collaboration_consume_join_grant. acc_cases; by apply accounts_same.
  - unfold collaboration_join_participant. acc_cases; by apply accounts_same.
  - unfold collaboration_heartbeat_participant. acc_cases; by apply accounts_same.
  - unfold collaboration_prepare_checkpoint. acc_cases; by apply accounts_same.
  - unfold commit_checkpoint. acc_cases. match goal with H : update_epochs _ _ _ = Ok _ |- _ => apply update_epochs_accounts in H; etrans; [|exact H] end. by apply accounts_same.
  - unfold freeze_external_head. acc_cases; epochs_accounts.
Qed.

(** C31. Collaboration storage is accounted to the byte: over any sequence of the room
    transactions (reservations, finalizations, abandoned and superseded objects,
    retention sweeps, completed deletions), a drive row keeps the difference between
    its reserved bytes and the reservations of its staging objects, and the difference
    between its used bytes and the sizes of its objects that are not deleted yet; so
    bytes are returned exactly once.  A drive within its quota stays within it. *)
Theorem collaboration_accounting_exact db ops :
  accounts_ok db ->
  let db' := run_ops db ops in
  Forall2 (fun d d' =>
    d_id d' = d_id d /\ d_quota_bytes d' = d_quota_bytes d
    /\ d_reserved_bytes d' - reserved_for db' (d_id d) = d_reserved_bytes d - reserved_for db (d_id d)
    /\ d_used_physical_bytes d' - used_for db' (d_id d) = d_used_physical_bytes d - used_for db (d_id d)
    /\ (d_used_physical_bytes d + d_reserved_bytes d <= d_quota_bytes d -> d_used_physical_bytes d' + d_reserved_bytes d' <= d_quota_bytes d'))
    (t_drives db) (t_drives db').
Proof.
  intros Hok. assert (accounts db (run_ops db ops)) as Ha.
  { clear Hok. revert db. induction ops as [|op ops IH]; intros db; [done|]. simpl. etrans; [apply run_op_accounts|apply IH]. }
  eapply Forall2_impl; [apply Ha, Hok|]. intros d d' [Hid Hs]. split; [done|exact Hs].
Qed.
