(* ===== verification/RoomServer.v ===== *)
(** Model of [source/apps/filebelt-collaboration/src/server.rs] and [io_client.rs]: the
    handlers of a collaboration session against the durable manifest.

    A handler runs in a world: the tables, the live room of this replica and a step
    counter.  Between two calls of a handler everything else may run: before each database
    call the environment changes the tables by [env_db], and each time the lock of
    the room is taken again it may have changed the live room by [env_live].  The
    identifiers, random numbers and times a handler draws, and what comes of each request to
    the I/O worker, are given by the environment as well.  The bytes the worker stages are
    the bytes it was sent (see [StorageProofs]); its database transaction is
    [collaboration_finalize_object]. *)
From S2P Require Import Prelude Collections Libraries Keyset Frames Net Web Envelope ConfigTypes RateLimit CollaborationProtocol Markdown Room CollaborationStore CollaborationLog.

Open Scope string_scope.
Open Scope Z_scope.
Open Scope list_scope.
Open Scope bool_scope.

Definition MAX_SYNC_CHUNK_BYTES : Z := 256 * 1024.
Definition SNAPSHOT_INTERVAL_GROUPS : Z := 64.

Inductive SessionError :=
| Authentication | Authorization | Capacity | Protocol | RateLimited | SessionConflict | Unavailable | Internal.

Inductive IoClientError :=
| InvalidContext | InvalidCapability | IoRejected | IoUnavailable | IoSourceTooLarge | IoDatabase (e : DatabaseError).

Definition database_session_error (e : DatabaseError) : SessionError :=
  match e with
  | NotFound | StaleGeneration => Authorization
  | Conflict => SessionConflict
  | QuotaExceeded | AdmissionLimited => Capacity
  | StorageUnavailable | SecurityAdmissionBlocked | Sql | Migration => Unavailable
  | InvalidPersistedValue => Internal
  end.

Definition io_session_error (e : IoClientError) : SessionError :=
  match e with
  | InvalidContext | InvalidCapability => Authorization
  | IoRejected => SessionConflict
  | IoUnavailable | IoDatabase _ => Unavailable
  | IoSourceTooLarge => Capacity
  end.

Definition document_session_error (e : RoomDocumentError) : SessionError :=
  match e with
  | RoomFrozen _ => Authorization
  | UpdateTooLarge | GroupTooLarge | StateTooLarge | SourceTooLarge => Capacity
  | EmptyGroup | InvalidUpdate | InvalidSnapshot | SourceContainsNul => Protocol
  | StaleSequence => SessionConflict
  end.

(** [error_frame]: the code of [CollaborationErrorCode], the message and the retry delay *)
Definition error_frame (e : SessionError) : CollaborationError :=
  match e with
  | Authentication => mkCollaborationError 1 "Authentication failed" 0
  | Authorization => mkCollaborationError 4 "Authorization changed" 0
  | Capacity => mkCollaborationError 12 "Room participant limit reached" 5000
  | Protocol => mkCollaborationError 8 "Protocol frame rejected" 0
  | RateLimited => mkCollaborationError 11 "Rate limit reached" 1000
  | SessionConflict => mkCollaborationError 7 "Durable state resynchronization required" 0
  | Unavailable => mkCollaborationError 13 "Authoritative state is unavailable" 1000
  | Internal => mkCollaborationError 14 "Collaboration failed" 0
  end.

(** ** The world of a handler *)

(** What comes of an HTTP request: it is refused with a status, it never arrives, the
    reply is lost after it was executed, or it succeeds. *)
Inductive Exchange := Succeeds | RefusedWith (server_error : bool) | NeverArrives | ReplyLost.

(** A database call may lose its connection, before it does anything or after it committed. *)
Inductive Fault := NoFault | LostBefore | LostAfter.

Section server.
Context `{UuidLib, Blake3Lib} `{YrsLib} `{!ProstMessage CollaborationFrame, !ProstMessage CollaborationProtocol.Awareness}.
(** [StickyIndex::decode_v1(bytes).is_ok()] *)
Context (sticky_index_ok : bytes -> bool).

(** [LiveRoom]; the channel is the list of the frames that were sent on it. *)
Record LiveRoom := mkLive {
  live_document : RoomDocument;
  live_source_format : MarkdownSource;
  live_clients : list Uuid;
  live_rate_limiter : RateLimiter;
  live_sent : list bytes
}.
Definition set_document (l : LiveRoom) (d : RoomDocument) : LiveRoom :=
  mkLive d (live_source_format l) (live_clients l) (live_rate_limiter l) (live_sent l).
Definition set_limiter (l : LiveRoom) (r : RateLimiter) : LiveRoom :=
  mkLive (live_document l) (live_source_format l) (live_clients l) r (live_sent l).
Definition send (l : LiveRoom) (frame : bytes) : LiveRoom :=
  mkLive (live_document l) (live_source_format l) (live_clients l) (live_rate_limiter l) (live_sent l ++ [frame]).

Record World := mkWorld { w_db : Tables; w_live : LiveRoom; w_tick : nat }.

Record Env := mkEnv {
  env_db : nat -> Tables -> Tables;
  env_live : nat -> LiveRoom -> LiveRoom;
  env_fault : nat -> Fault;
  env_exchange : nat -> Exchange;
  env_body : nat -> bytes;
  env_uuid : nat -> nat -> Uuid;
  env_random : nat -> N;
  env_now : nat -> Z;
  env_instant : nat -> Z
}.
Context (env : Env).

Definition Act (E A : Type) : Type := World -> attempt (result E A) * World.
Definition act_ret {E A} (r : result E A) : Act E A := fun w => (Returned r, w).
Definition act_bind {E A B} (m : Act E A) (k : A -> Act E B) : Act E B :=
  fun w => match m w with
           | (Returned (Ok a), w') => k a w'
           | (Returned (Err e), w') => (Returned (Err e), w')
           | (Panicked, w') => (Panicked, w')
           end.
Definition act_map_err {E F A} (f : E -> F) (m : Act E A) : Act F A :=
  fun w => let '(r, w') := m w in (match r with Returned r => Returned (map_err f r) | Panicked => Panicked end, w').
(** [match m { Ok(a) => ..., Err(e) => ... }] *)
Definition act_match {E F A B} (m : Act E A) (k : result E A -> Act F B) : Act F B :=
  fun w => match m w with (Returned r, w') => k r w' | (Panicked, w') => (Panicked, w') end.
(** [let _ = m] *)
Definition act_ignore {E F A} (m : Act E A) : Act F unit := act_match m (fun _ => act_ret (Ok tt)).
Notation "'do' x ':=' m 'in' k" := (act_bind m (fun x => k)) (at level 10, x name, m at level 100, k at level 200).

Definition tick (w : World) : World := mkWorld (w_db w) (w_live w) (S (w_tick w)).

(** a transaction, after whatever the others committed *)
Definition db_call {A} (f : nat -> Tables -> result DatabaseError A * Tables) : Act DatabaseError A :=
  fun w =>
    let db := env_db env (w_tick w) (w_db w) in
    let done db := mkWorld db (w_live w) (S (w_tick w)) in
    let '(r, db') := f (w_tick w) db in
    match env_fault env (w_tick w) with
    | NoFault => (Returned r, done db')
    | LostBefore => (Returned (Err Sql), done db)
    | LostAfter => (Returned (Err Sql), done db')
    end.
(** a query *)
Definition db_query {A} (f : Tables -> A) : Act DatabaseError A := db_call (fun _ db => (Ok (f db), db)).

(** [room.lock().await]: the other sessions of the replica had the room meanwhile *)
Definition lock_room {E} : Act E LiveRoom :=
  fun w => let live := env_live env (w_tick w) (w_live w) in (Returned (Ok live), mkWorld (env_db env (w_tick w) (w_db w)) live (S (w_tick w))).
Definition get_live {E} : Act E LiveRoom := fun w => (Returned (Ok (w_live w)), w).
Definition put_live {E} (l : LiveRoom) : Act E unit := fun w => (Returned (Ok tt), mkWorld (w_db w) l (w_tick w)).
Definition run_attempt {E A} (f : nat -> attempt (result E A)) : Act E A := fun w => (f (w_tick w), tick w).

(** ** io_client.rs *)

Definition io_parse_uuid (value : string) : result IoClientError Uuid := ok_or InvalidContext (uuid_parse_str value).

Definition i64_field {E} (e : E) (x : Z) : result E Z := ok_or e (i64_try_from x).

Definition io_authorization_context (c : CollaborationGrantClaims) : result IoClientError AuthorizationContext :=
  let? principal := io_parse_uuid (CollaborationGrantClaims_principal_id c) in
  let? session := io_parse_uuid (CollaborationGrantClaims_session_id c) in
  let? drive := io_parse_uuid (CollaborationGrantClaims_drive_id c) in
  let? node := io_parse_uuid (CollaborationGrantClaims_node_id c) in
  let? membership := i64_field InvalidContext (CollaborationGrantClaims_membership_generation c) in
  let? drive_acl := i64_field InvalidContext (CollaborationGrantClaims_drive_acl_generation c) in
  let? namespace := i64_field InvalidContext (CollaborationGrantClaims_namespace_generation c) in
  let? resource_acl := i64_field InvalidContext (CollaborationGrantClaims_resource_acl_generation c) in
  Ok (mkAuthorization principal session drive node (mkGenerations membership drive_acl namespace resource_acl)).

Definition status_error (server_error : bool) : IoClientError := if server_error then IoUnavailable else IoRejected.

Definition object_bytes_match (object : ObjectRecord) (b : bytes) : bool :=
  match ob_size_bytes object with
  | None => false
  | Some size => bool_decide (i64_try_from (len b) = Some size) && bool_decide (ob_blake3 object = Some (blake3_hash b))
  end.

(** a request to the worker that changes nothing here *)
Definition exchange_plain : Act IoClientError unit :=
  fun w => (Returned match env_exchange env (w_tick w) with
                     | Succeeds => Ok tt
                     | RefusedWith server_error => Err (status_error server_error)
                     | NeverArrives | ReplyLost => Err IoUnavailable
                     end, tick w).

(** [read_object]; the capability it carries is signed for this object *)
Definition read_object (object : ObjectRecord) : Act IoClientError bytes :=
  do size := act_ret (ok_or InvalidContext (ob_size_bytes object)) in
  do _ := act_ret (ok_or InvalidContext (u64_try_from size)) in
  do _ := exchange_plain in
  fun w => let b := env_body env (w_tick w) in
           (Returned (if object_bytes_match object b then Ok b else Err IoRejected), tick w).

(** the worker's handler of a finalization: the staged object has the reserved size *)
Definition worker_finalize (c : AuthorizationContext) (object : ObjectRecord) (body : bytes) (now : Z) (db : Tables) : result DatabaseError ObjectRecord * Tables :=
  match collaboration_object db (ob_id object) with
  | Err e => (Err e, db)
  | Ok current =>
      if negb (N.eqb (ob_room_id current) (ob_room_id object)) || negb (N.eqb (ob_payload_id current) (ob_payload_id object))
         || negb (N.eqb (ob_node_id current) (au_node c)) || negb (ob_fencing_token current =? ob_fencing_token object)
         || negb (ob_reserved_bytes current =? len body)
      then (Err Conflict, db)
      else collaboration_finalize_object db (ob_id object) (ob_fencing_token current) (mkAuthorization (au_principal c) (au_session c) (ob_drive_id current) (au_node c) (au_generations c))
             (len body) (blake3_hash body) now
  end.

(** [write_and_finalize]: the bytes are sent, then the object is finalized *)
Definition write_and_finalize (c : CollaborationGrantClaims) (object : ObjectRecord) (body : bytes) : Act IoClientError unit :=
  do _ := exchange_plain in
  do authorization := act_ret (io_authorization_context c) in
  fun w =>
    let db := env_db env (w_tick w) (w_db w) in
    let '(reply, db') := worker_finalize authorization object body (env_now env (w_tick w)) db in
    let done db := mkWorld db (w_live w) (S (w_tick w)) in
    match env_exchange env (w_tick w) with
    | NeverArrives => (Returned (Err IoUnavailable), done db)
    | RefusedWith server_error => (Returned (Err (status_error server_error)), done db)
    | ReplyLost => (Returned (Err IoUnavailable), done db')
    | Succeeds => (Returned match reply with Ok _ => Ok tt | Err _ => Err IoRejected end, done db')
    end.

(** the manifest of the chunks of a group *)
Fixpoint manifest_chunks (index offset : Z) (chunks : list bytes) : result IoClientError (list ChunkInput) :=
  match chunks with
  | [] => Ok []
  | chunk :: rest =>
      let? size := ok_or InvalidContext (checked (-2147483648) 2147483647 (len chunk)) in
      let? index' := ok_or InvalidContext (checked (-2147483648) 2147483647 index) in
      let? next := ok_or InvalidContext (checked i64_min i64_max (offset + size)) in
      let? more := manifest_chunks (index + 1) next rest in
      Ok (mkChunkInput index' offset size (blake3_hash chunk) :: more)
  end.

Record PersistUpdateGroupInput := mkPersistInput {
  pi_claims : CollaborationGrantClaims; pi_chunks : list bytes; pi_receipt : ApplyReceipt; pi_client_update_id : Uuid;
  pi_mcp_invocation_id : option Uuid; pi_expected_base_sequence : Z
}.

Definition abandon (object : Uuid) : Act IoClientError unit := act_ignore (db_call (fun k db => collaboration_abandon_object db object (env_now env k))).

(** The first calls of both persistence functions: the context, the room row, the
    reservation and the bytes. *)
Definition reserve_and_write (c : CollaborationGrantClaims) (purpose : Purpose) (total : result IoClientError Z) (body : bytes) : Act IoClientError (Uuid * Z * Summary * ObjectRecord) :=
  do room_id := act_ret (io_parse_uuid (CollaborationGrantClaims_room_id c)) in
  do drive_id := act_ret (io_parse_uuid (CollaborationGrantClaims_drive_id c)) in
  do epoch := act_ret (i64_field InvalidContext (CollaborationGrantClaims_room_epoch c)) in
  do node_id := act_ret (io_parse_uuid (CollaborationGrantClaims_node_id c)) in
  do room := act_map_err IoDatabase (db_query (fun db => collaboration_room db drive_id node_id)) in
  do room := act_ret (ok_or InvalidContext room) in
  do _ := act_ret (if negb (N.eqb (sm_room_id room) room_id) || negb (sm_epoch room =? epoch) || negb (bool_decide (sm_state room = EpochActive))
                   then Err InvalidContext else Ok tt) in
  do total := act_ret total in
  do object := act_map_err IoDatabase (db_call (fun k db =>
     collaboration_reserve_object db room_id epoch drive_id purpose total (sm_fencing_token room)
       (env_uuid env k 0) (env_uuid env k 1) (env_uuid env k 2) (env_now env k))) in
  act_match (write_and_finalize c object body) (fun r =>
    match r with
    | Ok _ => act_ret (Ok (room_id, epoch, room, object))
    | Err e => do _ := abandon (ob_id object) in act_ret (Err e)
    end).

Definition persist_update_group (i : PersistUpdateGroupInput) : Act IoClientError (Uuid * Z * Z) :=
  do _ := act_ret (io_parse_uuid (CollaborationGrantClaims_tenant_id (pi_claims i))) in
  do client_id := act_ret (io_parse_uuid (CollaborationGrantClaims_client_id (pi_claims i))) in
  do written := reserve_and_write (pi_claims i) UpdateGroupPurpose (ok_or InvalidContext (checked_total i64_max 0 (pi_chunks i))) (concat (pi_chunks i)) in
  let '(room_id, epoch, room, object) := written in
  do chunks := act_ret (manifest_chunks 0 0 (pi_chunks i)) in
  do authorization := act_ret (io_authorization_context (pi_claims i)) in
  act_match (db_call (fun k db =>
     collaboration_persist_update_group db
       (mkPersistGroup room_id epoch (sm_fencing_token room) (pi_expected_base_sequence i) client_id (pi_client_update_id i) authorization
          (pi_mcp_invocation_id i) (source_before_digest (pi_receipt i)) (source_after_digest (pi_receipt i)) (ob_id object) chunks
          (state_vector (pi_receipt i)) (state_digest (pi_receipt i)))
       (env_uuid env k 0) (env_now env k))) (fun r =>
    match r with
    | Ok result => act_ret (Ok result)
    | Err e => do _ := abandon (ob_id object) in act_ret (Err (IoDatabase e))
    end).

Definition persist_snapshot (c : CollaborationGrantClaims) (snapshot : bytes) (covered_sequence : Z) (state_vector : bytes) : Act IoClientError Uuid :=
  do _ := act_ret (io_parse_uuid (CollaborationGrantClaims_tenant_id c)) in
  do written := reserve_and_write c SnapshotPurpose (i64_field InvalidContext (len snapshot)) snapshot in
  let '(room_id, epoch, room, object) := written in
  do authorization := act_ret (io_authorization_context c) in
  act_match (db_call (fun k db =>
     collaboration_commit_snapshot db room_id epoch (sm_fencing_token room) authorization (ob_id object) covered_sequence state_vector
       (env_uuid env k 0) (env_now env k))) (fun r =>
    match r with
    | Ok id => act_ret (Ok id)
    | Err e => do _ := abandon (ob_id object) in act_ret (Err (IoDatabase e))
    end).
(** ** server.rs *)

Definition parse_claim_uuid (value : string) : result SessionError Uuid := ok_or Authentication (uuid_parse_str value).

Definition authorization_context (c : CollaborationGrantClaims) : result SessionError AuthorizationContext :=
  let? principal := parse_claim_uuid (CollaborationGrantClaims_principal_id c) in
  let? session := parse_claim_uuid (CollaborationGrantClaims_session_id c) in
  let? drive := parse_claim_uuid (CollaborationGrantClaims_drive_id c) in
  let? node := parse_claim_uuid (CollaborationGrantClaims_node_id c) in
  let? membership := i64_field Authorization (CollaborationGrantClaims_membership_generation c) in
  let? drive_acl := i64_field Authorization (CollaborationGrantClaims_drive_acl_generation c) in
  let? namespace := i64_field Authorization (CollaborationGrantClaims_namespace_generation c) in
  let? resource_acl := i64_field Authorization (CollaborationGrantClaims_resource_acl_generation c) in
  Ok (mkAuthorization principal session drive node (mkGenerations membership drive_acl namespace resource_acl)).

(** The loop of [split_replay_chunks] over the manifest, at an index and an offset *)
Fixpoint split_loop (b : bytes) (index offset : Z) (manifest : list ChunkInput) : result SessionError (list bytes * Z) :=
  match manifest with
  | [] => Ok ([], offset)
  | chunk :: rest =>
      let? start := ok_or SessionConflict (u64_try_from (object_offset chunk)) in
      let? size := ok_or SessionConflict (u64_try_from (size_bytes chunk)) in
      if negb (chunk_index chunk =? default 2147483647 (checked (-2147483648) 2147483647 index)) || negb (start =? offset) || (size =? 0)
         || (MAX_SYNC_CHUNK_BYTES <? size)
      then Err SessionConflict
      else
        let? end_ := ok_or SessionConflict (checked 0 usize_max (start + size)) in
        if len b <? end_ then Err SessionConflict
        else
          let value := take (Z.to_nat size) (drop (Z.to_nat start) b) in
          if negb (bool_decide (blake3_hash value = chunk_blake3 chunk)) then Err SessionConflict
          else let? more := split_loop b (index + 1) end_ rest in Ok (value :: more.1, more.2)
  end.
Definition split_replay_chunks (b : bytes) (manifest : list ChunkInput) : result SessionError (list bytes) :=
  let? r := split_loop b 0 0 manifest in
  if r.2 =? len b then Ok r.1 else Err SessionConflict.

(** the document of the live room takes a group *)
Definition live_apply_group (chunks : list bytes) : Act SessionError ApplyReceipt :=
  fun w =>
    match apply_group (env_random env (w_tick w)) (live_document (w_live w)) chunks with
    | Panicked => (Panicked, tick w)
    | Returned (r, document) => (Returned (map_err document_session_error r), mkWorld (w_db w) (set_document (w_live w) document) (S (w_tick w)))
    end.

Definition apply_replay_group (group : ReplayGroup) : Act SessionError (list bytes) :=
  do b := act_map_err io_session_error (read_object (rg_object group)) in
  do chunks := act_ret (split_replay_chunks b (rg_chunks group)) in
  do receipt := live_apply_group chunks in
  act_ret (if negb (bool_decide (i64_try_from (first_sequence receipt) = Some (rg_first_sequence group)))
              || negb (bool_decide (i64_try_from (last_sequence receipt) = Some (rg_last_sequence group)))
           then Err SessionConflict else Ok chunks).

Fixpoint act_each {E A} (f : A -> Act E unit) (l : list A) : Act E unit :=
  match l with [] => act_ret (Ok tt) | x :: rest => do _ := f x in act_each f rest end.

Definition replay_query (c : CollaborationGrantClaims) (after : Z) : Act SessionError (list ReplayGroup) :=
  do room := act_ret (parse_claim_uuid (CollaborationGrantClaims_room_id c)) in
  do epoch := act_ret (i64_field Protocol (CollaborationGrantClaims_room_epoch c)) in
  act_map_err database_session_error (db_query (fun db => collaboration_replay_groups db room epoch after)).

(** [replay_durable_groups], on the document that [load_room_after_lock] builds *)
Definition replay_durable_groups (c : CollaborationGrantClaims) : Act SessionError unit :=
  do live := get_live in
  do after := act_ret (i64_field Protocol (server_sequence (live_document live))) in
  do groups := replay_query c after in
  act_each (fun group => do _ := apply_replay_group group in act_ret (Ok tt)) groups.

Definition freeze_claimed_room (c : CollaborationGrantClaims) (reason : string) : Act SessionError unit :=
  match uuid_parse_str (CollaborationGrantClaims_room_id c), i64_try_from (CollaborationGrantClaims_room_epoch c) with
  | Some room, Some epoch => act_ignore (db_call (fun _ db => collaboration_freeze db room epoch reason))
  | _, _ => act_ret (Ok tt)
  end.

(** [u32::try_from(x).map_err(Internal)] *)
Definition u32_or_internal (x : Z) : result SessionError Z := ok_or Internal (u32_try_from x).

Definition encode_or_internal (f : Frame) : result SessionError bytes := map_err (fun _ => Internal) (wire_encode_frame f).

(** the frames of the chunks of a group, each sent on the channel *)
Fixpoint broadcast_chunks (sequence count index : Z) (chunks : list bytes) : Act SessionError unit :=
  match chunks with
  | [] => act_ret (Ok tt)
  | chunk :: rest =>
      do i := act_ret (u32_or_internal index) in
      do frame := act_ret (encode_or_internal (Frame_SyncChunk (mkSyncChunk sequence i count chunk false))) in
      do live := get_live in
      do _ := put_live (send live frame) in
      broadcast_chunks sequence count (index + 1) rest
  end.

Definition catch_up_group (c : CollaborationGrantClaims) (group : ReplayGroup) : Act SessionError unit :=
  act_match (apply_replay_group group) (fun r =>
    match r with
    | Err e => do _ := freeze_claimed_room c "corrupt_state" in act_ret (Err e)
    | Ok chunks =>
        do count := act_ret (u32_or_internal (len chunks)) in
        do sequence := act_ret (ok_or SessionConflict (u64_try_from (rg_first_sequence group))) in
        broadcast_chunks sequence count 0 chunks
    end).

Definition catch_up_room (c : CollaborationGrantClaims) : Act SessionError unit :=
  do live := lock_room in
  do after := act_ret (i64_field Internal (server_sequence (live_document live))) in
  do groups := replay_query c after in
  act_each (catch_up_group c) groups.

(** [chunk_index] of the [expected]-th chunk of a group *)
Fixpoint ordered_chunks (expected : Z) (chunks : list UpdateChunk) : result SessionError (list bytes) :=
  match chunks with
  | [] => Ok []
  | chunk :: rest =>
      if negb (UpdateChunk_chunk_index chunk =? default u32_max (u32_try_from expected)) then Err Protocol
      else let? more := ordered_chunks (expected + 1) rest in Ok (UpdateChunk_update chunk :: more)
  end.

Definition optional_uuid (value : string) : result SessionError (option Uuid) :=
  if is_empty value then Ok None else let? id := ok_or Protocol (uuid_parse_str value) in Ok (Some id).

Record Persisted := mkPersisted { ps_staged : StagedUpdate; ps_object : Uuid; ps_first : Z; ps_last : Z }.

(** The loop that stages and persists: at most three attempts, each after catching up. *)
Fixpoint persist_loop (attempts : nat) (c : CollaborationGrantClaims) (chunks : list bytes) (update_id : Uuid) (invocation : option Uuid) : Act SessionError Persisted :=
  do live := get_live in
  do staged := act_map_err document_session_error (run_attempt (fun k => stage_group (env_random env k) (live_document live) chunks)) in
  do base := act_ret (i64_field Protocol (server_sequence (live_document live))) in
  act_match (persist_update_group (mkPersistInput c chunks (staged_receipt staged) update_id invocation base)) (fun r =>
    match r with
    | Ok (object, first, last) => act_ret (Ok (mkPersisted staged object first last))
    | Err (IoDatabase StaleGeneration) =>
        match attempts with
        | O => act_ret (Err SessionConflict)
        | S more => do _ := catch_up_room c in do _ := lock_room in persist_loop more c chunks update_id invocation
        end
    | Err e => act_ret (Err (io_session_error e))
    end).

(** the snapshot that every 64th group takes *)
Definition due_snapshot (receipt : ApplyReceipt) (document : RoomDocument) : attempt (result SessionError (option (bytes * Z * bytes))) :=
  if last_sequence receipt mod SNAPSHOT_INTERVAL_GROUPS =? 0 then
    match checkpoint document with
    | Panicked => Panicked
    | Returned (Err e) => Returned (Err (document_session_error e))
    | Returned (Ok cp) => Returned (let? sequence := i64_field Internal (cp_server_sequence cp) in Ok (Some (cp_snapshot cp, sequence, cp_state_vector cp)))
    end
  else Returned (Ok None).

Definition live_commit (staged : StagedUpdate) : Act SessionError ApplyReceipt :=
  fun w => let '(r, document) := commit_staged (live_document (w_live w)) staged in
           (Returned (map_err document_session_error r), mkWorld (w_db w) (set_document (w_live w) document) (w_tick w)).

Definition admit_update (c : CollaborationGrantClaims) (total : Z) : Act SessionError unit :=
  do client := act_ret (parse_claim_uuid (CollaborationGrantClaims_client_id c)) in
  fun w =>
    let '(limiter, admission) := limiter_admit (live_rate_limiter (w_live w)) client RateLimit.Update total (env_instant env (w_tick w)) in
    (Returned match admission with RateAdmitted => Ok tt | _ => Err RateLimited end, mkWorld (w_db w) (set_limiter (w_live w) limiter) (S (w_tick w))).

(** [apply_update]: the acknowledgement and the snapshot that is persisted afterwards by a
    task of its own *)
Definition apply_update (c : CollaborationGrantClaims) (group : UpdateGroup) : Act SessionError (list bytes * option (bytes * Z * bytes)) :=
  do update_id := act_ret (ok_or Protocol (uuid_parse_str (UpdateGroup_client_update_id group))) in
  do invocation := act_ret (optional_uuid (UpdateGroup_mcp_invocation_id group)) in
  do _ := act_ret (if bool_decide (UpdateGroup_chunks group = []) || (16 <? len (UpdateGroup_chunks group)) then Err Protocol else Ok tt) in
  do chunks := act_ret (ordered_chunks 0 (UpdateGroup_chunks group)) in
  do total := act_ret (ok_or Protocol (checked_total u64_max 0 chunks)) in
  do _ := catch_up_room c in
  do live := lock_room in
  do _ := act_ret (if server_sequence (live_document live) <? UpdateGroup_base_sequence group then Err SessionConflict else Ok tt) in
  do _ := admit_update c total in
  do persisted := persist_loop 2 c chunks update_id invocation in
  let expected := staged_receipt (ps_staged persisted) in
  do _ := act_ret (if negb (bool_decide (i64_try_from (first_sequence expected) = Some (ps_first persisted)))
                      || negb (bool_decide (i64_try_from (last_sequence expected) = Some (ps_last persisted))) then Err SessionConflict else Ok tt) in
  do receipt := live_commit (ps_staged persisted) in
  do live := get_live in
  do snapshot := run_attempt (fun _ => due_snapshot receipt (live_document live)) in
  do count := act_ret (u32_or_internal (len chunks)) in
  do _ := broadcast_chunks (first_sequence receipt) count 0 chunks in
  do acknowledgement := act_ret (encode_or_internal (Frame_Acknowledgement
    (mkAcknowledgement (UpdateGroup_client_update_id group) (last_sequence receipt) (uuid_hyphenated (ps_object persisted))))) in
  act_ret (Ok ([acknowledgement], snapshot)).
End server.
