(* ===== verification/RoomReplica.v ===== *)
(** The replicas of a collaboration room refine its manifest: whatever the other replicas
    and services do between the calls of a handler, the document of a live room is what the
    updates of the manifest up to its sequence give, and an acknowledged update is in
    the manifest at the acknowledged sequence. *)
From S2P Require Import Prelude Collections Libraries Keyset Frames Net Web Envelope ConfigTypes RateLimit CollaborationProtocol Markdown Room CollaborationStore CollaborationLog RoomServer.

Open Scope string_scope.
Open Scope Z_scope.
Open Scope list_scope.
Open Scope bool_scope.

(** ** Chunks *)

Section chunks.
Context `{Blake3Lib}.

Lemma split_loop_concat b index offset manifest chunks end_ : 0 <= offset <= len b ->
  split_loop b index offset manifest = Ok (chunks, end_) ->
  offset <= end_ <= len b /\ concat chunks = take (Z.to_nat (end_ - offset)) (drop (Z.to_nat offset) b).
Proof.
  revert index offset chunks end_. induction manifest as [|c manifest IH]; intros index offset chunks end_ Ho; cbn [split_loop].
  - intros [= <- <-]. rewrite Z.sub_diag. simpl. split; [lia|]. by rewrite take_0.
  - destruct (u64_try_from (object_offset c)) as [start|] eqn:Hstart; [|done]. destruct (u64_try_from (size_bytes c)) as [size|] eqn:Hsize; [|done].
    cbn [ok_or]. case_match eqn:Hg; [done|]. destruct (checked 0 usize_max (start + size)) as [e|] eqn:He; [|done]. cbn [ok_or].
    case_match eqn:Hlen; [done|]. case_match; [done|]. destruct (split_loop b _ e manifest) as [[more e']|] eqn:Hm; [|done]. intros [= <- <-].
    apply checked_Some in He as [<- He]. unfold u64_try_from in Hsize. apply checked_Some in Hsize as [<- Hsize].
    repeat match goal with H : _ || _ = false |- _ => apply orb_false_iff in H as [H ?] end. rewrite negb_false_iff, Z.eqb_eq in *. subst start. apply Z.ltb_ge in Hlen.
    match goal with H : (_ =? 0) = false |- _ => apply Z.eqb_neq in H end.
    apply IH in Hm as [Hr Hc]; [|lia]. split; [lia|]. cbn [concat fst]. rewrite Hc.
    replace (Z.to_nat (e' - offset)) with (Z.to_nat (size_bytes c) + Z.to_nat (e' - (offset + size_bytes c)))%nat by lia.
    rewrite <-take_take_drop, drop_drop. by replace (Z.to_nat (offset + size_bytes c)) with (Z.to_nat offset + Z.to_nat (size_bytes c))%nat by lia.
Qed.

(** The chunks of a replayed group are the bytes of its object. *)
Lemma split_replay_chunks_concat b manifest chunks : split_replay_chunks b manifest = Ok chunks -> concat chunks = b.
Proof.
  unfold split_replay_chunks. destruct (split_loop b 0 0 manifest) as [[cs e]|] eqn:Hs; [|done]. case_match eqn:He; [|done]. intros [= <-].
  apply Z.eqb_eq in He. simpl in He. subst e. apply split_loop_concat in Hs as [_ Hc]; [|unfold len; lia]. simpl. rewrite Hc, Z.sub_0_r. simpl.
  rewrite drop_0. unfold len. rewrite Nat2Z.id. apply take_ge. done.
Qed.
End chunks.

(** ** Manifest positions *)

Lemma log_lookup db room epoch g : log_ok db -> g ∈ log db room epoch ->
  1 <= g_first_sequence g <= len (log db room epoch) /\ log db room epoch !! Z.to_nat (g_first_sequence g - 1) = Some g.
Proof.
  intros Hok Hg. pose proof Hg as [Hin Hr]%filter_elem. destruct (ok_groups _ Hok g Hin) as (_ & (e & He & Hat) & _).
  apply in_room_true in Hr as [Hroom Hepoch]. apply at_epoch_true in Hat as [Her Hee]. destruct (ok_sequence _ Hok e He) as [Hd Hs].
  rewrite Her, Hee, Hroom, Hepoch in Hs. apply list_elem_of_lookup in Hg as [i Hi].
  assert (map g_first_sequence (log db room epoch) !! i = Some (g_first_sequence g)) as Hf by (rewrite list_lookup_fmap, Hi; done).
  rewrite Hs in Hf. apply lookup_seqZ in Hf as [Hf Hlt]. pose proof (lookup_lt_Some _ _ _ Hi). unfold len. split; [lia|].
  replace (Z.to_nat (g_first_sequence g - 1)) with i by lia. done.
Qed.

Lemma log_length db room epoch : log_ok db -> len (log db room epoch) <= i64_max.
Proof.
  intros Hok. destruct (log db room epoch) as [|g l] eqn:Hl; [unfold len, i64_max; simpl; lia|]. rewrite <-Hl.
  assert (g ∈ log db room epoch) as Hg by (rewrite Hl; left). pose proof Hg as [Hin Hr]%filter_elem.
  destruct (ok_groups _ Hok g Hin) as (_ & (e & He & Hat) & _). apply in_room_true in Hr as [Hroom Hepoch]. apply at_epoch_true in Hat as [Her Hee].
  destruct (ok_sequence _ Hok e He) as [Hd Hs]. rewrite Her, Hee, Hroom, Hepoch in Hs. apply (f_equal length) in Hs. rewrite length_map, length_seqZ in Hs.
  unfold len. lia.
Qed.

Section replica.
Context `{UuidLib, Blake3Lib} `{YrsLib} `{!YrsLaws} `{!ProstMessage CollaborationFrame}.
(** the room, the document its updates start from, and what the environment may do *)
Context (room : Uuid) (epoch : Z) (base : Doc).

(** the object of a group has the digest of these bytes *)
Definition carries (db : Tables) (b : bytes) (g : GroupRow) : Prop :=
  exists o, o ∈ t_objects db /\ o_id o = g_object g /\ o_blake3 o = Some (blake3_hash b).

(** A document at sequence [n] holds the updates of the first [n] groups of the manifest. *)
Definition replica_ok (db : Tables) (d : RoomDocument) : Prop :=
  exists history, server_sequence d = len history /\ Forall2 (carries db) history (take (length history) (log db room epoch))
    /\ replays base history (room_doc d).

Lemma carries_evolution db db' b g : evolution db db' -> carries db b g -> carries db' b g.
Proof.
  intros Hev (o & Ho & Hid & Hb). destruct (ev_objects _ _ Hev o Ho) as (o' & Ho' & (Hid' & _ & _ & Hh)). destruct (Hh _ Hb). exists o'. split_and!; [done|congruence|done].
Qed.

Lemma replica_ok_evolution db db' d : evolution db db' -> replica_ok db d -> replica_ok db' d.
Proof.
  intros Hev (history & Hs & HF & Hr). exists history. split_and!; [done| |done]. destruct (ev_log _ _ Hev room epoch) as [more Hmore].
  rewrite Hmore. pose proof (Forall2_length _ _ _ HF) as Hlen. rewrite length_take in Hlen. rewrite take_app_le by lia.
  eapply Forall2_impl; [exact HF|]. intros b g. by apply carries_evolution.
Qed.

Lemma replica_ok_sequence db d : log_ok db -> replica_ok db d -> 0 <= server_sequence d <= len (log db room epoch) /\ server_sequence d <= i64_max.
Proof.
  intros Hok (history & -> & HF & _). pose proof (Forall2_length _ _ _ HF) as Hlen. rewrite length_take in Hlen. pose proof (log_length db room epoch Hok).
  unfold len in *. lia.
Qed.

(** One more group: the manifest's group at the next sequence. *)
Lemma replica_ok_extend db d d' b g history : server_sequence d = len history ->
  Forall2 (carries db) history (take (length history) (log db room epoch)) ->
  log db room epoch !! length history = Some g -> carries db b g -> server_sequence d' = server_sequence d + 1 ->
  replays base (history ++ [b]) (room_doc d') -> replica_ok db d'.
Proof.
  intros Hs HF Hg Hc Hs' Hr. exists (history ++ [b]). split_and!; [rewrite Hs', Hs; unfold len; rewrite length_app; simpl; lia| |done].
  rewrite length_app. simpl. rewrite Nat.add_1_r, (take_S_r _ _ g) by done. apply Forall2_app; [done|]. by constructor.
Qed.

(** ** What keeps the document *)

Definition keeps (w w' : World) : Prop := evolves (w_db w) (w_db w') /\ live_document (w_live w') = live_document (w_live w).
#[local] Instance keeps_preorder : PreOrder keeps.
Proof. split; [by intros w; split|]. intros w1 w2 w3 [? ?] [? ?]. split; [by etrans|congruence]. Qed.

Context (env : Env) (env_evolves : forall k db, evolves db (env_db env k db)).

Definition Keeps {E A} (m : Act E A) : Prop := forall w, keeps w (m w).2.

Lemma Keeps_ret {E A} (r : result E A) : Keeps (act_ret r).
Proof. intros w. done. Qed.
Lemma Keeps_bind {E A B} (m : Act E A) (k : A -> Act E B) : Keeps m -> (forall a, Keeps (k a)) -> Keeps (act_bind m k).
Proof.
  intros Hm Hk w. specialize (Hm w). unfold act_bind. destruct (m w) as [[[a|e]|] w']; simpl in *; try done. etrans; [exact Hm|apply Hk].
Qed.
Lemma Keeps_match {E F A B} (m : Act E A) (k : result E A -> Act F B) : Keeps m -> (forall r, Keeps (k r)) -> Keeps (act_match m k).
Proof. intros Hm Hk w. specialize (Hm w). unfold act_match. destruct (m w) as [[r|] w']; simpl in *; [|done]. etrans; [exact Hm|apply Hk]. Qed.
Lemma Keeps_map_err {E F A} (f : E -> F) (m : Act E A) : Keeps m -> Keeps (act_map_err f m).
Proof. intros Hm w. specialize (Hm w). unfold act_map_err. by destruct (m w). Qed.
Lemma Keeps_ignore {E F A} (m : Act E A) : Keeps m -> Keeps (act_ignore (F := F) m).
Proof. intros Hm. apply Keeps_match; [done|]. intros r. apply Keeps_ret. Qed.
Lemma Keeps_get {E} : Keeps (get_live (E := E)).
Proof. intros w. done. Qed.
Lemma Keeps_attempt {E A} (f : nat -> attempt (result E A)) : Keeps (run_attempt f).
Proof. intros w. done. Qed.
Lemma Keeps_call {A} (f : nat -> Tables -> result DatabaseError A * Tables) : (forall k db, evolves db (f k db).2) -> Keeps (db_call env f).
Proof.
  intros Hf w. unfold db_call. specialize (Hf (w_tick w) (env_db env (w_tick w) (w_db w))). destruct (f _ _) as [r db']. simpl in Hf.
  destruct (env_fault env (w_tick w)); split; simpl; try done; etrans; eauto.
Qed.
Lemma Keeps_query {A} (f : Tables -> A) : Keeps (db_query env f).
Proof. apply Keeps_call. intros k db. done. Qed.
Lemma Keeps_exchange : Keeps (exchange_plain env).
Proof. intros w. done. Qed.
Lemma Keeps_if {E A} (b : bool) (m1 m2 : Act E A) : Keeps m1 -> Keeps m2 -> Keeps (if b then m1 else m2).
Proof. by destruct b. Qed.

Create HintDb keeps.
#[local] Hint Resolve Keeps_ret Keeps_bind Keeps_match Keeps_map_err Keeps_ignore Keeps_get Keeps_attempt Keeps_query Keeps_exchange : keeps.

Lemma op_evolves db op : evolves db (run_op db op).
Proof. apply run_op_evolves. Qed.

Lemma Keeps_abandon object : Keeps (abandon env object).
Proof. apply Keeps_ignore, Keeps_call. intros k db. exact (op_evolves db (OpAbandon object _)). Qed.

Lemma Keeps_read object : Keeps (read_object env object).
Proof. unfold read_object. repeat (apply Keeps_bind; [eauto with keeps|intros ?]). intros w. done. Qed.

Lemma worker_finalize_evolves a object body now db : evolves db (worker_finalize a object body now db).2.
Proof.
  unfold worker_finalize. destruct (collaboration_object db (ob_id object)) as [current|]; [|done]. case_match; [done|].
  exact (op_evolves db (OpFinalize _ _ _ _ _ _)).
Qed.

Lemma Keeps_write c object body : Keeps (write_and_finalize env c object body).
Proof.
  unfold write_and_finalize. repeat (apply Keeps_bind; [eauto with keeps|intros ?]). intros w.
  match goal with |- context [worker_finalize ?a object body ?n ?db] => pose proof (worker_finalize_evolves a object body n db) as He; destruct (worker_finalize a object body n db) as [r db'] end.
  destruct (env_exchange env (w_tick w)); split; simpl in *; try done; etrans; eauto.
Qed.
#[local] Hint Resolve Keeps_abandon Keeps_read Keeps_write : keeps.

Lemma Keeps_reserve c purpose total body : Keeps (reserve_and_write env c purpose total body).
Proof.
  unfold reserve_and_write. do 7 (apply Keeps_bind; [eauto with keeps|intros ?]). apply Keeps_bind; [eauto with keeps|intros ?]. apply Keeps_bind.
  - apply Keeps_map_err, Keeps_call. intros k db. exact (op_evolves db (OpReserve _ _ _ _ _ _ _ _ _ _)).
  - intros object. apply Keeps_match; [eauto with keeps|]. intros []; eauto with keeps.
Qed.
#[local] Hint Resolve Keeps_reserve : keeps.

Lemma Keeps_persist i : Keeps (persist_update_group env i).
Proof.
  unfold persist_update_group. repeat (apply Keeps_bind; [eauto with keeps|intros ?]). match goal with |- Keeps (let '_ := ?x in _) => destruct x as [[[? ?] ?] ?] end.
  repeat (apply Keeps_bind; [eauto with keeps|intros ?]). apply Keeps_match; [|intros []; eauto with keeps].
  apply Keeps_call. intros k db. exact (op_evolves db (OpPersist _ _ _)).
Qed.

Lemma Keeps_persist_snapshot c snapshot covered sv : Keeps (persist_snapshot env c snapshot covered sv).
Proof.
  unfold persist_snapshot. repeat (apply Keeps_bind; [eauto with keeps|intros ?]). match goal with |- Keeps (let '_ := ?x in _) => destruct x as [[[? ?] ?] ?] end.
  repeat (apply Keeps_bind; [eauto with keeps|intros ?]). apply Keeps_match; [|intros []; eauto with keeps].
  apply Keeps_call. intros k db. exact (op_evolves db (OpCommitSnapshot _ _ _ _ _ _ _ _ _)).
Qed.

Lemma Keeps_freeze c reason : Keeps (freeze_claimed_room env c reason).
Proof.
  unfold freeze_claimed_room. repeat case_match; eauto with keeps. apply Keeps_ignore, Keeps_call. intros k db. exact (op_evolves db (OpFreeze _ _ _)).
Qed.

Lemma Keeps_replay_query c after : Keeps (replay_query env c after).
Proof. unfold replay_query. eauto 10 with keeps. Qed.

Lemma Keeps_broadcast sequence count index chunks : Keeps (broadcast_chunks sequence count index chunks).
Proof.
  revert index. induction chunks as [|chunk chunks IH]; intros index; [apply Keeps_ret|]. cbn [broadcast_chunks].
  do 2 (apply Keeps_bind; [eauto with keeps|intros ?]). intros w. simpl. etrans; [|apply IH]. done.
Qed.
(** ** What a successful call did *)

Lemma bind_Returned {E A B} (m : Act E A) (k : A -> Act E B) w b w' : act_bind m k w = (Returned (Ok b), w') ->
  exists a w1, m w = (Returned (Ok a), w1) /\ k a w1 = (Returned (Ok b), w').
Proof. unfold act_bind. destruct (m w) as [[[a|e]|] w1]; [|done..]. eauto. Qed.
Lemma ret_Returned {E A} (r : result E A) w a w' : act_ret r w = (Returned (Ok a), w') -> r = Ok a /\ w' = w.
Proof. unfold act_ret. naive_solver. Qed.
Lemma map_err_Returned {E F A} (f : E -> F) (m : Act E A) w a w' : act_map_err f m w = (Returned (Ok a), w') -> m w = (Returned (Ok a), w').
Proof. unfold act_map_err. destruct (m w) as [[[|]|] w1]; simpl; naive_solver. Qed.
Lemma call_Returned {A} (f : nat -> Tables -> result DatabaseError A * Tables) w a w' : db_call env f w = (Returned (Ok a), w') ->
  f (w_tick w) (env_db env (w_tick w) (w_db w)) = (Ok a, w_db w') /\ w_live w' = w_live w.
Proof. unfold db_call. destruct (f _ _) as [r db']. destruct (env_fault env (w_tick w)); naive_solver. Qed.
Lemma match_Returned {E F A B} (m : Act E A) (k : result E A -> Act F B) w b w' : act_match m k w = (Returned (Ok b), w') ->
  exists r w1, m w = (Returned r, w1) /\ k r w1 = (Returned (Ok b), w').
Proof. unfold act_match. destruct (m w) as [[r|] w1]; [|done]. eauto. Qed.

Ltac act_inv H :=
  match type of H with
  | act_bind _ _ _ = _ => let H1 := fresh "Hr" in apply bind_Returned in H as (? & ? & H1 & H); act_inv H1
  | act_ret _ _ = _ => apply ret_Returned in H as [H ->]
  | act_map_err _ _ _ = _ => apply map_err_Returned in H; act_inv H
  | _ => idtac
  end.

Lemma finalize_Ok db id token a size h now r db' : collaboration_finalize_object db id token a size h now = (Ok r, db') ->
  exists o, o ∈ t_objects db' /\ o_id o = id /\ o_blake3 o = Some h.
Proof.
  unfold collaboration_finalize_object. repeat (case_match; try done); intros Hr; simplify_eq.
  - match goal with H : find_object db' id = Some _ |- _ => apply find_object_In in H as [Ho Hid] end.
    repeat match goal with H : _ && _ = true |- _ => apply andb_true_iff in H as [H ?] end. eexists. split_and!; [done..|]. by eapply bool_decide_eq_true_1.
  - match goal with H : finalize_object _ _ _ _ _ = Some _ |- _ => rename H into Hf end. unfold finalize_object in Hf.
    destruct (find_object (with_payloads _ _) id) as [o'|] eqn:Ho; [|done]. repeat (case_match; try done). injection Hf as <-. apply find_object_In in Ho as [Ho Hid].
    repeat match goal with H : _ && _ = true |- _ => apply andb_true_iff in H as [H ?] end.
    exists (set_object_durable size h now o'). split_and!; [|done..]. simpl. apply update_rows_In. exists o'. split; [done|].
    unfold object_in_state. rewrite Hid, N.eqb_refl. match goal with H : bool_decide (o_state o' = Staging) = true |- _ => by rewrite H end.
Qed.

Lemma write_Ok c object body w w' : write_and_finalize env c object body w = (Returned (Ok tt), w') ->
  exists o, o ∈ t_objects (w_db w') /\ o_id o = ob_id object /\ o_blake3 o = Some (blake3_hash body).
Proof.
  unfold write_and_finalize. intros Hw. act_inv Hw. act_inv Hw.
  match type of Hw with context [worker_finalize ?a object body ?n ?db] => destruct (worker_finalize a object body n db) as [reply db'] eqn:Hf end.
  destruct (env_exchange env _) in Hw; try done. destruct reply as [record|]; [|done]. injection Hw as <-. simpl. unfold worker_finalize in Hf.
  destruct (collaboration_object _ _); [|done]. case_match; [done|]. by eapply finalize_Ok.
Qed.

Lemma reserve_Ok c purpose total body w r e s object w' : reserve_and_write env c purpose total body w = (Returned (Ok (r, e, s, object)), w') ->
  io_parse_uuid (CollaborationGrantClaims_room_id c) = Ok r /\ i64_field InvalidContext (CollaborationGrantClaims_room_epoch c) = Ok e
  /\ exists o, o ∈ t_objects (w_db w') /\ o_id o = ob_id object /\ o_blake3 o = Some (blake3_hash body).
Proof.
  unfold reserve_and_write. intros Hw. do 9 act_inv Hw. apply match_Returned in Hw as (rw & w1 & Hwrite & Hw). destruct rw as [[]|].
  - act_inv Hw. simplify_eq. split_and!; [done..|]. by eapply write_Ok.
  - act_inv Hw. done.
Qed.

(** the group of a client's update in the manifest of the room *)
Definition in_manifest (db : Tables) (sequence : Z) (client update object : Uuid) (b : bytes) : Prop :=
  exists g, log db room epoch !! Z.to_nat (sequence - 1) = Some g /\ 1 <= sequence /\ g_first_sequence g = sequence /\ g_client g = client
    /\ g_client_update g = update /\ g_object g = object /\ carries db b g.

Lemma in_manifest_evolution db db' sequence client update object b : evolution db db' ->
  in_manifest db sequence client update object b -> in_manifest db' sequence client update object b.
Proof.
  intros Hev (g & Hl & ? & ? & ? & ? & ? & Hc). exists g. split_and!; try done; [|by eapply carries_evolution].
  destruct (ev_log _ _ Hev room epoch) as [more ->]. by apply lookup_app_l_Some.
Qed.

Context (c : CollaborationGrantClaims) (client : Uuid).
Context (claims_room : uuid_parse_str (CollaborationGrantClaims_room_id c) = Some room).
Context (claims_epoch : i64_try_from (CollaborationGrantClaims_room_epoch c) = Some epoch).
Context (claims_client : uuid_parse_str (CollaborationGrantClaims_client_id c) = Some client).

Lemma keeps_evolution w w' : keeps w w' -> log_ok (w_db w) -> evolution (w_db w) (w_db w').
Proof. intros [He _]. apply He. Qed.

(** The digest of an object is the one that was recorded when it became durable. *)
Lemma digest_of db o o' h : log_ok db -> o ∈ t_objects db -> o' ∈ t_objects db -> o_id o = o_id o' -> o_blake3 o = Some h -> o_blake3 o' = Some h.
Proof. intros Hok Ho Ho' Hid Hb. by rewrite <-(object_unique db o o'). Qed.

Lemma persist_Ok i w object first last w' : pi_claims i = c -> log_ok (w_db w) -> persist_update_group env i w = (Returned (Ok (object, first, last)), w') ->
  last = first /\ in_manifest (w_db w') first client (pi_client_update_id i) object (concat (pi_chunks i)).
Proof.
  intros Hc Hok. unfold persist_update_group. rewrite Hc. intros Hw. act_inv Hw. act_inv Hw. act_inv Hw. act_inv Hw.
  match goal with H : reserve_and_write _ _ _ _ _ ?w0 = (Returned (Ok ?x), ?w1) |- _ => destruct x as [[[r e] s] ob]; rename H into Hres; rename w1 into wr end.
  match type of Hres with reserve_and_write _ _ _ ?t ?b ?w0 = _ => pose proof (Keeps_reserve c UpdateGroupPurpose t b w0) as Hk end. rewrite Hres in Hk.
  pose proof (keeps_evolution _ _ Hk Hok) as Hev. apply reserve_Ok in Hres as (Hroom & Hepoch & (o & Ho & Hid & Hb)). cbn [snd] in Hev.
  unfold io_parse_uuid in *. rewrite claims_room in Hroom. unfold i64_field in Hepoch. rewrite claims_epoch in Hepoch. simpl in Hroom, Hepoch.
  match goal with H : ok_or InvalidContext (uuid_parse_str (CollaborationGrantClaims_client_id c)) = _ |- _ => rewrite claims_client in H; simpl in H end. simplify_eq.
  act_inv Hw. act_inv Hw. apply match_Returned in Hw as (res & w1 & Hcall & Hw). destruct res as [[[ob' f'] l']|]; [|by act_inv Hw]. act_inv Hw. simplify_eq.
  apply call_Returned in Hcall as [Hcall _]. set (db := env_db env (w_tick wr) (w_db wr)) in *.
  assert (evolution (w_db wr) db) as Hev' by (apply env_evolves; by apply (ev_ok _ _ Hev)). pose proof (ev_ok _ _ Hev') as Hok'.
  destruct (ev_objects _ _ Hev' o Ho) as (od & Hod & (Hidd & _ & _ & Hh)). destruct (Hh _ Hb) as [Hbd _].
  match type of Hcall with collaboration_persist_update_group _ ?q ?fr ?n = _ => pose proof (persist_cases db q fr n Hok') as Hcases; rewrite Hcall in Hcases end.
  destruct Hcases as [-> [Hf|Ha]]; (split; [done|]).
  - destruct Hf as (Hq & g & Hg & Hgu & Hgf & Hgo & _ & _ & _ & (ox & oy & Hox & Hoxid & Hoy & Hoyid & Heq)). simpl in *.
    assert (carries db (concat (pi_chunks i)) g) as Hcar.
    { exists oy. split_and!; [done|congruence|]. rewrite Heq. eapply (digest_of db od ox); try done. congruence. }
    destruct (log_lookup _ _ _ _ Hok' Hg) as [Hrange Hl]. unfold group_of_update in Hgu. rewrite !andb_true_iff, !N.eqb_eq in Hgu. simpl in Hgu.
    eapply in_manifest_evolution; [by apply (quiet_evolves _ _ Hq Hok')|]. exists g. subst. split_and!; try done; [|tauto..]. lia.
  - destruct Ha as (Hev'' & Hobj & -> & -> & _ & _ & (g & Hlog & Hgu & Hgf & Hgo & _)). simpl in *. pose proof (ev_ok _ _ Hev'') as Hok''.
    assert (g ∈ log (w_db w1) room epoch) as Hg by (rewrite Hlog; apply elem_of_app; right; by apply list_elem_of_singleton).
    destruct (log_lookup _ _ _ _ Hok'' Hg) as [Hrange Hl]. unfold group_of_update in Hgu. rewrite !andb_true_iff, !N.eqb_eq in Hgu. simpl in Hgu.
    exists g. rewrite Hgf in Hrange, Hl. split_and!; try done; [lia|tauto..|]. exists od. rewrite Hobj. split_and!; [done|congruence|done].
Qed.
(** ** Catching up *)

Definition world_ok (w : World) : Prop := log_ok (w_db w) /\ replica_ok (w_db w) (live_document (w_live w)).

Lemma keeps_world_ok w w' : keeps w w' -> world_ok w -> world_ok w'.
Proof. intros Hk [Hok Hr]. pose proof (keeps_evolution _ _ Hk Hok) as Hev. destruct Hk as [_ Hd]. split; [by apply (ev_ok _ _ Hev)|]. rewrite Hd. by eapply replica_ok_evolution. Qed.

(** The other sessions of the replica, when they have the room, leave it with a document that
    holds the manifest if they found it so.  They do not if one of them is refused a replayed
    group for its sequence, which the document then has all the same, and the call that would
    freeze the room is lost. *)
Definition others_keep : Prop := forall k db live, log_ok db -> replica_ok db (live_document live) ->
  replica_ok (env_db env k db) (live_document (env_live env k live)) /\ server_sequence (live_document live) <= server_sequence (live_document (env_live env k live)).

(** The manifest only grows; and a document that holds it goes on to hold it and goes forward. *)
Definition advances (w w' : World) : Prop :=
  evolves (w_db w) (w_db w') /\ (others_keep -> world_ok w -> world_ok w' /\ server_sequence (live_document (w_live w)) <= server_sequence (live_document (w_live w'))).
#[local] Instance advances_preorder : PreOrder advances.
Proof.
  split; [by intros w; split|]. intros w1 w2 w3 [? H12] [? H23]. split; [by etrans|]. intros Ho Hw1. destruct (H12 Ho Hw1) as [Hw2 ?], (H23 Ho Hw2) as [? ?]. split; [done|lia].
Qed.
Lemma keeps_advances w w' : keeps w w' -> advances w w'.
Proof. intros Hk. pose proof Hk as [He Hd]. split; [done|]. intros _ Hw. split; [by eapply keeps_world_ok|]. by rewrite Hd. Qed.
Lemma advances_ok w w' : advances w w' -> log_ok (w_db w) -> log_ok (w_db w').
Proof. intros [He _] Hok. by apply (ev_ok _ _ (He Hok)). Qed.

(** a replayed group is the group of the manifest at its sequence *)
Definition replayed (db : Tables) (rg : ReplayGroup) : Prop :=
  1 <= rg_first_sequence rg /\ exists g, log db room epoch !! Z.to_nat (rg_first_sequence rg - 1) = Some g
    /\ forall b, ob_blake3 (rg_object rg) = Some (blake3_hash b) -> carries db b g.

Lemma replayed_evolution db db' rg : evolution db db' -> replayed db rg -> replayed db' rg.
Proof.
  intros Hev (Hle & g & Hl & Hc). split; [done|]. exists g. destruct (ev_log _ _ Hev room epoch) as [more Hm]. rewrite Hm. split; [by apply lookup_app_l_Some|].
  intros b Hb. eapply carries_evolution; eauto.
Qed.

Lemma replay_groups_replayed db after : log_ok db -> Forall (replayed db) (collaboration_replay_groups db room epoch after).
Proof.
  intros Hok. apply Forall_forall. intros rg Hin. unfold collaboration_replay_groups in Hin. apply list_elem_of_omap in Hin as (g & Hg & Hrow).
  apply elem_of_order, filter_elem in Hg as [Hg [Hroom _]%andb_true_iff]. assert (g ∈ log db room epoch) as Hlog by (by apply filter_elem).
  destruct (log_lookup _ _ _ _ Hok Hlog) as [Hr Hl]. unfold replay_row in Hrow. destruct (find_object db (g_object g)) as [o|] eqn:Ho; [|done].
  apply find_object_In in Ho as [Ho Hid]. case_match; [|done]. unfold join_object in Hrow. destruct (find_epoch _ _ _); [|discriminate Hrow]. destruct (find_payload _ _); [|discriminate Hrow].
  injection Hrow as <-. simpl in *. split; [simpl; lia|]. exists g. split; [done|]. simpl. intros b Hb. by exists o.
Qed.

Lemma read_object_Ok object b w w' : read_object env object w = (Returned (Ok b), w') -> ob_blake3 object = Some (blake3_hash b).
Proof.
  unfold read_object. intros Hw. act_inv Hw. act_inv Hw. apply bind_Returned in Hw as (? & ? & _ & Hw). case_match eqn:Hm; [|done]. simplify_eq.
  unfold object_bytes_match in Hm. case_match; [|done]. apply andb_true_iff in Hm as [_ Hm]. by eapply bool_decide_eq_true_1.
Qed.

Lemma apply_replay_group_Ok rg w chunks w' : log_ok (w_db w) -> replayed (w_db w) rg -> apply_replay_group env rg w = (Returned (Ok chunks), w') -> advances w w'.
Proof.
  intros Hok Hrg Hw. unfold apply_replay_group in Hw. apply bind_Returned in Hw as (b & w1 & Hread & Hw). apply map_err_Returned in Hread.
  pose proof (Keeps_read (rg_object rg) w) as Hk. rewrite Hread in Hk. cbn [snd] in Hk. apply read_object_Ok in Hread. pose proof (keeps_evolution _ _ Hk Hok) as Hev.
  act_inv Hw. apply bind_Returned in Hw as (receipt & w2 & Happ & Hw). apply ret_Returned in Hw as [Hw ->]. case_match eqn:Hseq; [done|]. simplify_eq.
  apply orb_false_iff in Hseq as [Hfirst%negb_false_iff%bool_decide_eq_true _].
  match goal with H : split_replay_chunks _ _ = Ok _ |- _ => apply split_replay_chunks_concat in H as Hcat end.
  unfold live_apply_group in Happ. destruct (apply_group _ _ _) as [[res document]|] eqn:Hag; [|done]. destruct res as [rec|]; [|done]. simpl in Happ. simplify_eq.
  split; [exact (proj1 Hk)|]. intros _ Hw. assert (world_ok w1) as [Hok1 Hrep1] by (eapply keeps_world_ok; [exact Hk|done]).
  pose proof (replica_ok_sequence _ _ Hok1 Hrep1) as [Hlen Hmax]. destruct Hrep1 as (history & Hs & HF & Hrp).
  pose proof (apply_group_cases _ _ _ _ _ _ _ Hrp ltac:(unfold u64_max, i64_max in *; lia) Hag) as (Hf & Hs' & _ & _ & _ & Hr').
  unfold i64_try_from in Hfirst. apply checked_Some in Hfirst as [Hfirst%symmetry _]. destruct (replayed_evolution _ _ _ Hev Hrg) as (Hge & g & Hl & Hc).
  split; [|destruct Hk as [_ Hd]; simpl; rewrite <-Hd; lia]. split; [done|]. simpl. eapply replica_ok_extend; [exact Hs|exact HF| |by apply Hc|done|done].
  replace (length history) with (Z.to_nat (rg_first_sequence rg - 1)); [done|]. rewrite Hfirst, Hf, Hs. unfold len. lia.
Qed.

(** groups that are replayed one after another *)
Lemma each_Ok (f : ReplayGroup -> Act SessionError unit) groups w w' :
  (forall rg w w', log_ok (w_db w) -> replayed (w_db w) rg -> f rg w = (Returned (Ok tt), w') -> advances w w') ->
  log_ok (w_db w) -> Forall (replayed (w_db w)) groups -> act_each f groups w = (Returned (Ok tt), w') -> advances w w'.
Proof.
  intros Hf. revert w. induction groups as [|rg groups IH]; intros w Hok Hgs; cbn [act_each]; [intros Hr; by act_inv Hr|].
  intros Hr. apply bind_Returned in Hr as ([] & w1 & Hg & Hr). apply Forall_cons in Hgs as [Hrg Hgs]. apply Hf in Hg as Hev; [|done..].
  etrans; [exact Hev|]. apply IH; [by eapply advances_ok| |done]. eapply Forall_impl; [exact Hgs|]. intros x. apply replayed_evolution, (proj1 Hev), Hok.
Qed.
Lemma catch_up_group_Ok rg w w' : log_ok (w_db w) -> replayed (w_db w) rg -> catch_up_group env c rg w = (Returned (Ok tt), w') -> advances w w'.
Proof.
  intros Hok Hrg Hg. unfold catch_up_group in Hg. apply match_Returned in Hg as (res & w2 & Ha & Hg). destruct res as [chunks|]; [|by act_inv Hg].
  apply apply_replay_group_Ok in Ha as Hev2; [|done..]. act_inv Hg. act_inv Hg.
  match type of Hg with broadcast_chunks ?a ?b ?x ?d _ = _ => pose proof (Keeps_broadcast a b x d w2) as Hk end. rewrite Hg in Hk. etrans; [exact Hev2|by apply keeps_advances].
Qed.

(** the groups that a query found are those of the manifest *)
Lemma replay_query_Ok after w groups w' : log_ok (w_db w) -> replay_query env c after w = (Returned (Ok groups), w') -> advances w w' /\ Forall (replayed (w_db w')) groups.
Proof.
  intros Hok Hq. pose proof (Keeps_replay_query c after w) as Hk. rewrite Hq in Hk. cbn [snd] in Hk. apply keeps_advances in Hk. split; [done|]. apply (advances_ok w w') in Hok; [|done].
  unfold replay_query in Hq. act_inv Hq. act_inv Hq. apply map_err_Returned in Hq. unfold db_query in Hq. apply call_Returned in Hq as [Hq _]. simplify_eq.
  unfold parse_claim_uuid, i64_field in *. rewrite claims_room in *. rewrite claims_epoch in *. simpl in *. simplify_eq.
  match goal with H : _ = w_db w' |- _ => rewrite H end. by apply replay_groups_replayed.
Qed.

Lemma lock_room_ok {E} w (live : LiveRoom) w' : lock_room env (E := E) w = (Returned (Ok live), w') -> advances w w' /\ live = w_live w'.
Proof.
  intros Hl. unfold lock_room in Hl. simplify_eq. split; [|done]. split; [apply env_evolves|]. intros Ho [Hok Hr]. destruct (Ho (w_tick w) (w_db w) (w_live w) Hok Hr) as [Hr' Hle]. split; [|exact Hle].
  split; simpl; [by apply (ev_ok _ _ (env_evolves _ _ Hok))|done].
Qed.

Lemma catch_up_Ok w w' : log_ok (w_db w) -> catch_up_room env c w = (Returned (Ok tt), w') -> advances w w'.
Proof.
  intros Hok Hr. unfold catch_up_room in Hr. apply bind_Returned in Hr as (live & w1 & Hl & Hr). apply lock_room_ok in Hl as (Hev1 & ->).
  act_inv Hr. apply bind_Returned in Hr as (groups & w2 & Hq & Hr). pose proof (advances_ok _ _ Hev1 Hok) as Hok1. apply replay_query_Ok in Hq as [Hev2 Hgs]; [|done].
  etrans; [exact Hev1|]. etrans; [exact Hev2|]. apply each_Ok in Hr; [done|apply catch_up_group_Ok|by eapply advances_ok|done].
Qed.
Lemma replay_durable_Ok w w' : log_ok (w_db w) -> replay_durable_groups env c w = (Returned (Ok tt), w') -> advances w w'.
Proof.
  intros Hok Hr. unfold replay_durable_groups in Hr. apply bind_Returned in Hr as (live & w1 & Hl & Hr). unfold get_live in Hl. simplify_eq. act_inv Hr. apply bind_Returned in Hr as (groups & w2 & Hq & Hr).
  apply replay_query_Ok in Hq as [Hev2 Hgs]; [|done]. etrans; [exact Hev2|]. apply each_Ok in Hr; [done| |by eapply advances_ok|done].
  intros rg v v' Hv Hrg Hg. apply bind_Returned in Hg as (chunks & v1 & Ha & Hg). act_inv Hg. by eapply apply_replay_group_Ok.
Qed.

(** ** Persisting and acknowledging *)

Lemma persist_loop_Ok attempts chunks update_id invocation w p w' : log_ok (w_db w) ->
  persist_loop env attempts c chunks update_id invocation w = (Returned (Ok p), w') ->
  advances w w' /\ ps_last p = ps_first p
  /\ in_manifest (w_db w') (ps_first p) client update_id (ps_object p) (concat chunks)
  /\ exists random, stage_group random (live_document (w_live w')) chunks = Returned (Ok (ps_staged p)).
Proof.
  revert w. induction attempts as [|attempts IH]; intros w Hok; cbn [persist_loop]; intros Hr.
  all: apply bind_Returned in Hr as (live & w1 & Hg & Hr); unfold get_live in Hg; simplify_eq;
    apply bind_Returned in Hr as (staged & w2 & Hst & Hr); apply map_err_Returned in Hst; unfold run_attempt in Hst; injection Hst as Hst <-;
    apply bind_Returned in Hr as (b & w3 & Hb & Hr); apply ret_Returned in Hb as [_ ->];
    apply match_Returned in Hr as (res & w4 & Hp & Hr);
    match type of Hp with persist_update_group _ ?i ?w0 = _ => pose proof (Keeps_persist i w0) as Hk; rewrite Hp in Hk; cbn [snd] in Hk; set (input := i) in * end;
    assert (advances w1 w4) as Hev4 by (by apply keeps_advances in Hk);
    (destruct res as [[[object first] last]|e];
      [act_inv Hr; simplify_eq; apply persist_Ok in Hp as [-> Hm]; [|done|done];
       split_and!; [done|done|done|]; exists (env_random env (w_tick w1)); destruct Hk as [_ Hd]; simpl; by rewrite Hd|]).
  - destruct e as [| | | | |[]]; by act_inv Hr.
  - destruct e as [| | | | |[]]; try (by act_inv Hr). pose proof (advances_ok _ _ Hev4 Hok) as Hok4. apply bind_Returned in Hr as ([] & w5 & Hc & Hr). apply catch_up_Ok in Hc as Hev5; [|done].
    apply bind_Returned in Hr as (live & w6 & Hl & Hr). apply lock_room_ok in Hl as (Hev6 & _). pose proof (advances_ok _ _ Hev6 (advances_ok _ _ Hev5 Hok4)) as Hok6.
    apply IH in Hr as (Hev7 & ? & ? & ?); [|done]. split_and!; try done. etrans; [exact Hev4|]. etrans; [exact Hev5|]. by etrans.
Qed.

(** A document restored from an encoded state holds what the state held. *)
Lemma from_snapshot_ok db d s random limits d' : replica_ok db d -> doc_encode_state (room_doc d) = Returned s ->
  from_snapshot random s (server_sequence d) limits = Ok d' -> replica_ok db d'.
Proof.
  intros (history & Hs & HF & Hr) He. unfold from_snapshot. case_match; [done|]. destruct (contain_untrusted_panic _ _) as [doc|] eqn:Hc; [|done]. intros [= <-].
  apply contain_Ok in Hc. destruct (apply_encoded _ _ _) as [[doc'|]|] eqn:Ha; [|done..]. destruct (validate_document _ _) as [[v|]|]; [|done..].
  injection Hc as ->. apply apply_encoded_Ok in Ha as (u & Hu & Ha). exists history. split_and!; [done..|]. simpl.
  assert (doc ≈ room_doc d) as ->; [|done]. by eapply doc_state_restores.
Qed.

Lemma due_snapshot_Ok receipt d s sequence sv : due_snapshot receipt d = Returned (Ok (Some (s, sequence, sv))) ->
  doc_encode_state (room_doc d) = Returned s /\ sequence = server_sequence d.
Proof.
  unfold due_snapshot. case_match; [|done]. unfold checkpoint. destruct (normalized_source _); [|done]. destruct (doc_encode_state _) as [snap|]; [|done].
  simpl. unfold i64_field, i64_try_from. destruct (checked _ _ _) as [x|] eqn:Hx; [|done]. apply checked_Some in Hx as [<- _]. naive_solver.
Qed.

Lemma Keeps_admit total : Keeps (admit_update env c total).
Proof. unfold admit_update. apply Keeps_bind; [eauto with keeps|]. intros id w. by destruct (limiter_admit _ _ _ _ _). Qed.

Lemma live_commit_Ok staged chunks object update_id random w receipt w' : log_ok (w_db w) ->
  stage_group random (live_document (w_live w)) chunks = Returned (Ok staged) ->
  in_manifest (w_db w) (first_sequence (staged_receipt staged)) client update_id object (concat chunks) ->
  live_commit staged w = (Returned (Ok receipt), w') ->
  w_db w' = w_db w /\ receipt = staged_receipt staged /\ server_sequence (live_document (w_live w')) = first_sequence receipt
  /\ last_sequence receipt = first_sequence receipt
  /\ (world_ok w -> world_ok w' /\ first_sequence receipt = server_sequence (live_document (w_live w)) + 1).
Proof.
  intros Hok Hst Hm Hc. unfold live_commit in Hc. destruct (commit_staged _ _) as [[rec|e] d] eqn:Hcs; [|done]. simpl in Hc. simplify_eq.
  apply commit_staged_Ok in Hcs as (-> & Hf & ->). pose proof (stage_group_Ok _ _ _ _ Hst) as (_ & _ & _ & _ & _ & Hl & _). simpl. rewrite Hl. split_and!; try done. intros [_ Hrep].
  pose proof (replica_ok_sequence _ _ Hok Hrep) as [Hlen Hmax]. destruct Hrep as (history & Hs & HF & Hrp). pose proof (stage_group_replays _ _ _ _ _ _ Hrp Hst) as Hrp'.
  destruct Hm as (g & Hg & _ & _ & _ & _ & _ & Hcar). unfold saturating_add_u64, u64_max, i64_max in *. rewrite Z.min_r in Hf by lia.
  split; [|done]. split; [done|]. simpl. eapply (replica_ok_extend _ (live_document (w_live w))); [exact Hs|exact HF| |exact Hcar|simpl; lia|done].
  rewrite Hf, Hs in Hg. by replace (Z.to_nat (len history + 1 - 1)) with (length history) in Hg by (unfold len; lia).
Qed.

(** What [apply_update] acknowledged: the group is in the manifest at the acknowledged
    sequence, which is also the sequence of the live document. *)
Lemma apply_update_Ok group w frames snapshot w' : log_ok (w_db w) ->
  apply_update env c group w = (Returned (Ok (frames, snapshot)), w') ->
  evolves (w_db w) (w_db w')
  /\ (others_keep -> world_ok w -> world_ok w' /\ server_sequence (live_document (w_live w)) < server_sequence (live_document (w_live w'))
       /\ forall s sequence sv random limits d, snapshot = Some (s, sequence, sv) -> from_snapshot random s sequence limits = Ok d -> replica_ok (w_db w') d)
  /\ exists update_id chunks object ack,
    uuid_parse_str (UpdateGroup_client_update_id group) = Some update_id /\ ordered_chunks 0 (UpdateGroup_chunks group) = Ok chunks
    /\ frames = [ack]
    /\ wire_encode_frame (Frame_Acknowledgement (mkAcknowledgement (UpdateGroup_client_update_id group)
         (server_sequence (live_document (w_live w'))) (uuid_hyphenated object))) = Ok ack
    /\ in_manifest (w_db w') (server_sequence (live_document (w_live w'))) client update_id object (concat chunks).
Proof.
  intros Hok Hr. unfold apply_update in Hr. do 5 act_inv Hr.
  apply bind_Returned in Hr as ([] & w1 & Hc & Hr). apply catch_up_Ok in Hc as Hev1; [|done]. pose proof (advances_ok _ _ Hev1 Hok) as Hok1.
  apply bind_Returned in Hr as (live & w2 & Hl & Hr). apply lock_room_ok in Hl as (Hev2 & ->). pose proof (advances_ok _ _ Hev2 Hok1) as Hok2.
  act_inv Hr. apply bind_Returned in Hr as ([] & w3 & Hadmit & Hr).
  match type of Hadmit with admit_update _ _ ?t _ = _ => pose proof (Keeps_admit t w2) as Hk3 end. rewrite Hadmit in Hk3. cbn [snd] in Hk3. apply keeps_advances in Hk3 as Hev3. pose proof (advances_ok _ _ Hev3 Hok2) as Hok3.
  apply bind_Returned in Hr as (p & w4 & Hp & Hr). apply persist_loop_Ok in Hp as (Hev4 & Hlast & Hm & (random & Hst)); [|done]. pose proof (advances_ok _ _ Hev4 Hok3) as Hok4.
  apply bind_Returned in Hr as ([] & w4' & Heq & Hr). apply ret_Returned in Heq as [Heq ->]. case_match eqn:Hseq; [done|].
  apply orb_false_iff in Hseq as [Hfirst%negb_false_iff%bool_decide_eq_true _]. unfold i64_try_from in Hfirst. apply checked_Some in Hfirst as [Hfirst%symmetry _].
  apply bind_Returned in Hr as (receipt & w5 & Hcm & Hr). rewrite Hfirst in Hm. pose proof (live_commit_Ok _ _ _ _ _ _ _ _ Hok4 Hst Hm Hcm) as (Hdb5 & -> & Hs5 & Hl5 & Hn5).
  apply bind_Returned in Hr as (live & w6 & Hlive & Hr). unfold get_live in Hlive. simplify_eq.
  apply bind_Returned in Hr as (snap & w7 & Hsnap & Hr). unfold run_attempt in Hsnap. injection Hsnap as Hsnap <-.
  act_inv Hr. apply bind_Returned in Hr as ([] & w8 & Hbc & Hr).
  match type of Hbc with broadcast_chunks ?a ?b ?x ?d ?w0 = _ => pose proof (Keeps_broadcast a b x d w0) as Hk8 end. rewrite Hbc in Hk8. cbn [snd] in Hk8. act_inv Hr. act_inv Hr. simplify_eq.
  match type of Hk8 with keeps ?w0 _ => assert (log_ok (w_db w0)) as Hok5 by (simpl; by rewrite Hdb5) end. pose proof (keeps_evolution _ _ Hk8 Hok5) as Hev8. simpl in Hev8. rewrite Hdb5 in Hev8. pose proof Hk8 as [_ Hd8]. simpl in Hd8.
  assert (advances w w4) as [Hev Hkeep] by (etrans; [exact Hev1|]; etrans; [exact Hev2|]; etrans; [exact Hev3|exact Hev4]).
  split; [etrans; [exact Hev|]; intros _; exact Hev8|]. split.
  - intros Ho Hw. destruct (Hkeep Ho Hw) as [Hw4 Hle]. destruct (Hn5 Hw4) as [Hw5 Hn]. rewrite Hd8, Hs5. split; [eapply keeps_world_ok; [exact Hk8|exact Hw5]|]. split; [lia|].
    intros s sequence sv random' limits d -> Hfs. apply due_snapshot_Ok in Hsnap as [He ->]. eapply replica_ok_evolution; [exact Hev8|]. rewrite <-Hdb5. eapply from_snapshot_ok; [apply Hw5|exact He|exact Hfs].
  - rewrite Hd8, Hs5. do 4 eexists. split_and!; [|done|done| |by eapply in_manifest_evolution].
    + unfold ok_or in *. repeat case_match; simplify_eq. done.
    + match goal with H : encode_or_internal _ = Ok _ |- _ => unfold encode_or_internal in H; rewrite Hl5 in H; destruct (wire_encode_frame _) eqn:Henc in H; [|discriminate H]; injection H as <-; exact Henc end.
Qed.

(** C12. An acknowledged update is durable, whatever state the live room was in, whatever the
    other sessions, replicas and services do between the steps of the handler (the manifest
    only growing), and whichever database call or request is lost: when [apply_update]
    answers with an acknowledgement, the manifest of the room holds, at the acknowledged
    sequence, then and ever after, the group of this client and update identifier, whose
    object has the digest of the concatenated chunks, and the live document is at that
    sequence. If moreover the live document held exactly the updates of the manifest up to
    its sequence before the call, and the other sessions of the replica leave it so, then it
    does so after the call, and a snapshot that is then persisted restores such a document. *)
Theorem acknowledged_update_durable group w frames snapshot w' : log_ok (w_db w) ->
  apply_update env c group w = (Returned (Ok (frames, snapshot)), w') ->
  (exists update_id chunks object sequence ack,
    uuid_parse_str (UpdateGroup_client_update_id group) = Some update_id /\ ordered_chunks 0 (UpdateGroup_chunks group) = Ok chunks
    /\ frames = [ack]
    /\ wire_encode_frame (Frame_Acknowledgement (mkAcknowledgement (UpdateGroup_client_update_id group) sequence (uuid_hyphenated object))) = Ok ack
    /\ sequence = server_sequence (live_document (w_live w'))
    /\ in_manifest (w_db w') sequence client update_id object (concat chunks)
    /\ forall db, evolution (w_db w') db -> in_manifest db sequence client update_id object (concat chunks))
  /\ (others_keep -> replica_ok (w_db w) (live_document (w_live w)) ->
      replica_ok (w_db w') (live_document (w_live w'))
      /\ forall s covered sv random limits d, snapshot = Some (s, covered, sv) -> from_snapshot random s covered limits = Ok d -> replica_ok (w_db w') d).
Proof.
  intros Hok Hr. destruct (apply_update_Ok _ _ _ _ _ Hok Hr) as (_ & Hkeep & update_id & chunks & object & ack & Hid & Hch & Hfr & Henc & Hm). split.
  - exists update_id, chunks, object, (server_sequence (live_document (w_live w'))), ack. split_and!; try done. intros db Hev. by eapply in_manifest_evolution.
  - intros Ho Hrep. destruct (Hkeep Ho (conj Hok Hrep)) as ([_ ?] & _ & ?). done.
Qed.

(** An update is committed once: a resent update whose group is in the manifest at or
    before the sequence of the live document is never acknowledged again, so that it
    does not get a second place in the manifest. *)
Theorem resent_update_refused group w update_id g :
  others_keep -> world_ok w -> uuid_parse_str (UpdateGroup_client_update_id group) = Some update_id -> g ∈ log (w_db w) room epoch ->
  g_client g = client -> g_client_update g = update_id -> g_first_sequence g <= server_sequence (live_document (w_live w)) ->
  forall answer w', apply_update env c group w <> (Returned (Ok answer), w').
Proof.
  intros Ho Hw Hid Hg Hgc Hgu Hle [frames snapshot] w' Hr.
  destruct (apply_update_Ok _ _ _ _ _ (proj1 Hw) Hr) as (Hev & Hkeep & update_id' & chunks & object & ack & Hid' & _ & _ & _ & Hm). destruct (Hkeep Ho Hw) as ([Hok' _] & Hlt & _).
  rewrite Hid in Hid'. injection Hid' as <-. destruct Hm as (g' & Hl' & _ & Hf' & Hc' & Hu' & _ & _). specialize (Hev (proj1 Hw)).
  assert (g ∈ log (w_db w') room epoch) as Hg' by (destruct (ev_log _ _ Hev room epoch) as [more ->]; apply elem_of_app; by left).
  apply list_elem_of_lookup_2 in Hl'. apply filter_elem in Hg' as [Hin Hr1]. apply filter_elem in Hl' as [Hin' Hr2].
  rewrite in_room_true in Hr1, Hr2. assert (g = g') as ->; [|lia]. pose proof (ok_updates _ Hok') as HN.
  apply list_elem_of_lookup in Hin as [i Hi]. apply list_elem_of_lookup in Hin' as [j Hj].
  assert (i = j) as ->; [|congruence]. eapply NoDup_lookup; [exact HN|..]; rewrite list_lookup_fmap; [by rewrite Hi|]. rewrite Hj. simpl. f_equal. destruct Hr1, Hr2. congruence.
Qed.

End replica.

(** ** Convergence *)

Section convergence.
Context `{UuidLib, Blake3Lib} `{YrsLib} `{!YrsLaws} `{!ProstMessage CollaborationFrame}.
Context (room : Uuid) (epoch : Z) (base : Doc).

Lemma carries_collision db h1 h2 gs : log_ok db -> Forall2 (carries db) h1 gs -> Forall2 (carries db) h2 gs ->
  h1 = h2 \/ exists b1 b2, b1 <> b2 /\ blake3_hash b1 = blake3_hash b2.
Proof.
  intros Hok Hc1. revert h2. induction Hc1 as [|b1 g h1 gs (o & Ho & Hid & Hb) _ IH]; intros h2 Hc2; [apply Forall2_nil_inv_r in Hc2 as ->; by left|].
  apply Forall2_cons_inv_r in Hc2 as (b2 & h2' & (o' & Ho' & Hid' & Hb') & Hc2 & ->).
  assert (o = o') as <- by (eapply object_unique; eauto; congruence). destruct (decide (b1 = b2)) as [-> | Hne]; [|right; exists b1, b2; split; congruence].
  destruct (IH _ Hc2) as [-> | ?]; [by left|by right].
Qed.

(** What a replica's calls are made with: claims for this room, and an environment in which
    the manifest only grows and the replica has no other session at work. *)
Record serving (env : Env) (c : CollaborationGrantClaims) (client : Uuid) : Prop := {
  sv_evolves : forall k db, evolves db (env_db env k db);
  sv_alone : forall k live, env_live env k live = live;
  sv_room : uuid_parse_str (CollaborationGrantClaims_room_id c) = Some room;
  sv_epoch : i64_try_from (CollaborationGrantClaims_room_epoch c) = Some epoch;
  sv_client : uuid_parse_str (CollaborationGrantClaims_client_id c) = Some client
}.

(** The states of a replica: it loads the room from the base document, and from then on
    replays, catches up and applies the updates of its clients, of which all succeed, while
    others change the database; or it is restored from a snapshot that a replica encoded. *)
Inductive replica_state : World -> Prop :=
| rs_loaded w : log_ok (w_db w) -> server_sequence (live_document (w_live w)) = 0 -> room_doc (live_document (w_live w)) ≈ base -> replica_state w
| rs_others w db tick : replica_state w -> evolution (w_db w) db -> replica_state (mkWorld db (w_live w) tick)
| rs_replayed env c client w w' : serving env c client -> replica_state w -> replay_durable_groups env c w = (Returned (Ok tt), w') -> replica_state w'
| rs_caught_up env c client w w' : serving env c client -> replica_state w -> catch_up_room env c w = (Returned (Ok tt), w') -> replica_state w'
| rs_updated env c client group answer w w' : serving env c client -> replica_state w -> apply_update env c group w = (Returned (Ok answer), w') -> replica_state w'
| rs_restored w live tick snapshot random limits d : replica_state w -> doc_encode_state (room_doc (live_document (w_live w))) = Returned snapshot ->
    from_snapshot random snapshot (server_sequence (live_document (w_live w))) limits = Ok d -> replica_state (mkWorld (w_db w) (set_document live d) tick).

Lemma serving_keep env c client : serving env c client -> others_keep room epoch base env.
Proof. intros Hs k db live Hok Hr. rewrite (sv_alone _ _ _ Hs). split; [|done]. eapply replica_ok_evolution; [by apply (sv_evolves _ _ _ Hs)|done]. Qed.

(** a replica in one of these states holds the manifest up to its sequence *)
Lemma replica_state_ok w : replica_state w -> world_ok room epoch base w.
Proof.
  induction 1 as [w Hok Hs Hd|w db tick _ [Hok Hr] Hev|env c client w w' Hsv _ IH Hr|env c client w w' Hsv _ IH Hr|env c client group [frames snapshot] w w' Hsv _ IH Hr|w live tick snapshot random limits d _ [Hok Hr] He Hf].
  - split; [done|]. exists []. split_and!; [done|constructor|by constructor].
  - split; [by apply (ev_ok _ _ Hev)|by eapply replica_ok_evolution].
  - pose proof (serving_keep _ _ _ Hsv) as Ho. destruct Hsv. destruct (replay_durable_Ok room epoch base env sv_evolves0 c sv_room0 sv_epoch0 w w' (proj1 IH) Hr) as [_ Hk]. by apply Hk.
  - pose proof (serving_keep _ _ _ Hsv) as Ho. destruct Hsv. destruct (catch_up_Ok room epoch base env sv_evolves0 c sv_room0 sv_epoch0 w w' (proj1 IH) Hr) as [_ Hk]. by apply Hk.
  - pose proof (serving_keep _ _ _ Hsv) as Ho. destruct Hsv. destruct (apply_update_Ok room epoch base env sv_evolves0 c client sv_room0 sv_epoch0 sv_client0 group w frames snapshot w' (proj1 IH) Hr) as (_ & Hk & _). by apply Hk.
  - split; [done|]. by eapply from_snapshot_ok.
Qed.

(** C29. Replicas converge. Two replicas that have each loaded the room from its base document
    (or from a snapshot that such a replica encoded) and have since replayed, caught up and
    applied updates, each with its own losses of calls and with others changing the tables
    in between, all of these calls having succeeded and one session of a replica being at work
    at a time: when they are at the same sequence they show the same source text, unless two
    byte strings with the same BLAKE3 digest are known. *)
Theorem replicas_converge w1 w2 db :
  replica_state w1 -> replica_state w2 -> evolution (w_db w1) db -> evolution (w_db w2) db ->
  server_sequence (live_document (w_live w1)) = server_sequence (live_document (w_live w2)) ->
  normalized_source (room_doc (live_document (w_live w1))) = normalized_source (room_doc (live_document (w_live w2))) \/ exists b1 b2, b1 <> b2 /\ blake3_hash b1 = blake3_hash b2.
Proof.
  intros [_ Hr1]%replica_state_ok [_ Hr2]%replica_state_ok He1 He2 Hs. apply (replica_ok_evolution _ _ _ _ _ _ He1) in Hr1. apply (replica_ok_evolution _ _ _ _ _ _ He2) in Hr2.
  destruct Hr1 as (h1 & Hs1 & HF1 & Hr1), Hr2 as (h2 & Hs2 & HF2 & Hr2). assert (length h1 = length h2) as Hlen by (unfold len in *; lia). rewrite Hlen in HF1.
  destruct (carries_collision _ _ _ _ (ev_ok _ _ He1) HF1 HF2) as [-> | ?]; [left|by right]. unfold normalized_source. by rewrite (replays_same_text _ _ _ _ _ Hr1 Hr2).
Qed.
End convergence.
