(* ===== verification/RoomDemo.v ===== *)
(** Collaboration rooms on concrete data: a document type for the laws of [YrsLaws], one
    room, two replicas, and the races between compaction, resends and catching up. *)
From S2P Require Import Prelude Collections Libraries Keyset Frames Net Web Envelope ConfigTypes RateLimit CollaborationProtocol Markdown Room CollaborationStore CollaborationLog CollaborationQuota RoomServer RoomReplica ConcreteCodecs.

Open Scope string_scope.
Open Scope Z_scope.
Open Scope list_scope.
Open Scope bool_scope.

Import Concrete.

(** ** A document that appends *)

Definition append_decoder : Decoder bytes := {|
  read_exact _ _ := Err DecodeFailed; reset_ds_cur_val s := s; read_ds_clock _ := Err DecodeFailed; read_ds_len _ := Err DecodeFailed;
  read_left_id _ := Err DecodeFailed; read_right_id _ := Err DecodeFailed; read_client _ := Err DecodeFailed; read_info _ := Err DecodeFailed;
  read_parent_info _ := Err DecodeFailed; read_type_ref _ := Err DecodeFailed; read_len _ := Err DecodeFailed; read_any _ := Err DecodeFailed;
  read_json _ := Err DecodeFailed; read_key _ := Err DecodeFailed; read_to_end s := Ok (s, []) |}.

#[local] Instance append_yrs : YrsLib := {|
  Doc := bytes; YUpdate := bytes; BLOCK_GC_REF_NUMBER := 0; DecoderV1 := bytes; decoder_v1 := append_decoder; decoder_v1_from b := b;
  update_decode _ decoder s := match read_to_end decoder s with Ok r => Returned (Some r.1) | Err _ => Returned None end;
  doc_with_client _ := []; doc_push_text d _ s := d ++ s; doc_apply_update d u := Returned (Some (d ++ u)); doc_encode_state d := Returned d;
  doc_get_text d _ := Some d; doc_state_vector d := [] |}.

#[local] Instance append_laws : YrsLaws.
Proof.
  refine {| doc_equiv := eq |}; try done; simpl.
  - intros d1 d2 u d1' d2' -> [= <-] [= <-]. done.
  - intros d1 d2 root ->. done.
  - intros d s u c d' [= ->] [= <-] [= <-]. done.
Defined.

#[local] Instance frame_codec : ProstMessage CollaborationFrame := {| encode_to_vec _ := [zero_byte]; decode_message _ := None |}.

(** ** One room *)

(** the document the updates start from *)
Definition base : Doc := as_bytes "hi".


Definition ROOM : Uuid := 1%N.
Definition CLIENT : Uuid := 7%N.
Definition NOW : Z := 1000000000000.

Definition claims : CollaborationGrantClaims :=
  mkCollaborationGrantClaims (uuid_hyphenated 10) (uuid_hyphenated 11) (uuid_hyphenated ROOM) 1 (uuid_hyphenated 2) (uuid_hyphenated 3) (uuid_hyphenated 4)
    (uuid_hyphenated 5) (uuid_hyphenated 6) (uuid_hyphenated CLIENT) 1 "guest" 1 1 1 1 true 0 60 [] "fbcap1.x".

Definition db0 : Tables :=
  mkTables [mkRoomRow ROOM 2 3 1 5] [new_epoch ROOM 1 2 3 4 0] [] [] [] [mkDriveRow 2 0 0 1000000]
    [mkBackendRow 8 true true NOW 100000000000 100000000000] [] [] [] [] [] [] [] [] [mkFenceRow 5 6 2 3 (mkGenerations 1 1 1 1)].

Definition limits : CollaborationLimitConfig := mkCollaborationLimitConfig 32 262144 2097152 10 1000000 100 10000000 8192 10 100 16777216 1000000000 5 100 50.

Definition live0 : LiveRoom :=
  mkLive (from_source_with_client_id (as_bytes "hi") limits 42) (mkSource (as_bytes "hi") false Lf) [CLIENT] (RateLimiter_new limits 0) [].

Definition env (body : bytes) : Env :=
  mkEnv (fun _ db => db) (fun _ live => live) (fun _ => NoFault) (fun _ => Succeeds) (fun _ => body)
    (fun k i => N.of_nat (100 + 10 * k + i)) (fun _ => 9%N) (fun _ => NOW) (fun _ => 0).

Definition group (n : N) (text : string) : UpdateGroup := mkUpdateGroup (uuid_hyphenated n) 0 [mkUpdateChunk 0 (as_bytes text)] "".

Definition w0 : World := mkWorld db0 live0 0.
Definition w1 : World := (apply_update (env []) claims (group 20 " there") w0).2.
(** the replica persists a snapshot at sequence 1, then a second update *)
Definition w2 : World := (persist_snapshot (env []) claims (as_bytes "hi there") 1 [] w1).2.
Definition w3 : World := (apply_update (env []) claims (group 21 "!") w2).2.
(** another replica, which has not seen the first update when all that is done *)
Definition lagging : World := mkWorld (w_db w3) live0 0.

Lemma log_ok_db0 : log_ok db0.
Proof.
  split; simpl; [apply NoDup_singleton|constructor| |intros g Hg; by apply elem_of_nil in Hg|constructor|intros o Ho; by apply elem_of_nil in Ho].
  intros e ->%list_elem_of_singleton. simpl. unfold i64_max. split; [lia|done].
Qed.

Lemma world_ok_w0 : world_ok ROOM 1 base w0.
Proof. split; [apply log_ok_db0|]. exists []. split_and!; [done|constructor|]. by constructor. Qed.

Lemma env_evolves body k db : evolves db (env_db (env body) k db).
Proof. done. Qed.
Lemma demo_serving body : serving ROOM 1 (env body) claims CLIENT.
Proof. split; [apply env_evolves|done|vm_compute; reflexivity..]. Qed.
Lemma demo_others body : others_keep ROOM 1 base (env body).
Proof. exact (serving_keep ROOM 1 base _ _ _ (demo_serving body)). Qed.

Lemma first_update : apply_update (env []) claims (group 20 " there") w0 = (Returned (Ok ([[zero_byte]], None)), w1).
Proof. vm_compute. reflexivity. Qed.

Lemma acknowledged_update_durable_witness :
  (exists update_id chunks object sequence ack,
    uuid_parse_str (UpdateGroup_client_update_id (group 20 " there")) = Some update_id /\ ordered_chunks 0 (UpdateGroup_chunks (group 20 " there")) = Ok chunks
    /\ [[zero_byte]] = [ack]
    /\ wire_encode_frame (Frame_Acknowledgement (mkAcknowledgement (uuid_hyphenated 20) sequence (uuid_hyphenated object))) = Ok ack
    /\ sequence = server_sequence (live_document (w_live w1))
    /\ in_manifest ROOM 1 (w_db w1) sequence CLIENT update_id object (concat chunks)
    /\ forall db, evolution (w_db w1) db -> in_manifest ROOM 1 db sequence CLIENT update_id object (concat chunks))
  /\ replica_ok ROOM 1 base (w_db w1) (live_document (w_live w1)).
Proof.
  destruct (acknowledged_update_durable ROOM 1 base (env []) (env_evolves []) claims CLIENT (sv_room _ _ _ _ _ (demo_serving [])) (sv_epoch _ _ _ _ _ (demo_serving [])) (sv_client _ _ _ _ _ (demo_serving []))
    (group 20 " there") w0 [[zero_byte]] None w1 log_ok_db0 first_update) as [Hm Hk].
  split; [exact Hm|exact (proj1 (Hk (demo_others []) (proj2 world_ok_w0)))].
Defined.

(** ** The states of two replicas *)

Lemma w0_loaded : replica_state ROOM 1 base w0.
Proof. apply rs_loaded; [apply log_ok_db0|done|done]. Qed.
Lemma w1_state : replica_state ROOM 1 base w1.
Proof. exact (rs_updated ROOM 1 base (env []) claims CLIENT (group 20 " there") _ w0 w1 (demo_serving []) w0_loaded first_update). Qed.
Lemma world_ok_w1 : world_ok ROOM 1 base w1.
Proof. apply replica_state_ok, w1_state. Qed.

(** the group of the first update *)
Definition first_group : GroupRow := List.hd (mkGroupRow 0 0 0 0 0 0 None [] [] 0 0 0 0 0 [] []) (t_groups (w_db w1)).

Lemma resent_update_refused_witness : forall answer w', apply_update (env []) claims (group 20 " there") w1 <> (Returned (Ok answer), w').
Proof.
  refine (resent_update_refused ROOM 1 base (env []) (env_evolves []) claims CLIENT _ _ _ (group 20 " there") w1 20%N first_group (demo_others []) world_ok_w1 _ _ _ _ _);
    try (vm_compute; reflexivity).
  - replace (log (w_db w1) ROOM 1) with [first_group] by (vm_compute; reflexivity). by apply list_elem_of_singleton.
  - vm_compute. congruence.
Defined.

(** another replica loads the room when the first update is in the manifest, and replays it *)
Definition late0 : World := mkWorld (w_db w1) live0 0.
Definition late1 : World := (replay_durable_groups (env (as_bytes " there")) claims late0).2.
Lemma late1_state : replica_state ROOM 1 base late1.
Proof.
  apply (rs_replayed ROOM 1 base (env (as_bytes " there")) claims CLIENT late0 late1); [apply demo_serving| |vm_compute; reflexivity].
  apply rs_loaded; [apply world_ok_w1|done|done].
Qed.

Lemma replicas_converge_witness :
  normalized_source (room_doc (live_document (w_live late1))) = Ok (as_bytes "hi there")
  /\ (normalized_source (room_doc (live_document (w_live w1))) = normalized_source (room_doc (live_document (w_live late1))) \/ exists b1 b2, b1 <> b2 /\ blake3_hash b1 = blake3_hash b2).
Proof.
  split; [vm_compute; reflexivity|].
  assert (evolution (w_db w1) (w_db w1)) as He by (apply (reflexivity (R := evolves)), world_ok_w1). assert (w_db late1 = w_db w1) as Hdb by (vm_compute; reflexivity).
  refine (replicas_converge ROOM 1 base w1 late1 (w_db w1) w1_state late1_state He _ _); [rewrite Hdb; exact He|vm_compute; reflexivity].
Defined.

Lemma world_ok_w2 : world_ok ROOM 1 base w2.
Proof. eapply keeps_world_ok; [|exact world_ok_w1]. apply Keeps_persist_snapshot. exact (env_evolves []). Qed.

Lemma second_update : apply_update (env []) claims (group 21 "!") w2 = (Returned (Ok ([[zero_byte]], None)), w3).
Proof. vm_compute. reflexivity. Qed.

Lemma world_ok_w3 : world_ok ROOM 1 base w3.
Proof.
  refine (proj1 (proj1 (proj2 (apply_update_Ok ROOM 1 base (env []) (env_evolves []) claims CLIENT _ _ _ (group 21 "!") w2 _ _ w3 (proj1 world_ok_w2) second_update)) (demo_others []) world_ok_w2));
    vm_compute; reflexivity.
Qed.

(** The snapshot at sequence 1 supersedes the object of the first group, and the replay of
    a replica at sequence 0 starts with the second group.  The sequence check refuses it,
    but after the update was applied, and the healthy room is frozen as corrupt. *)
Theorem compaction_freezes_lagging_replica :
  world_ok ROOM 1 base lagging
  /\ map g_first_sequence (log (w_db lagging) ROOM 1) = [1; 2]
  /\ map rg_first_sequence (collaboration_replay_groups (w_db lagging) ROOM 1 0) = [2]
  /\ (catch_up_room (env (as_bytes "!")) claims lagging).1 = Returned (Err SessionConflict)
  /\ map (fun e => (e_state e, e_freeze_reason e)) (t_epochs (w_db (catch_up_room (env (as_bytes "!")) claims lagging).2)) = [(EpochFrozen, Some "corrupt_state")]
  /\ normalized_source (room_doc (live_document (w_live (catch_up_room (env (as_bytes "!")) claims lagging).2))) = Ok (as_bytes "hi!").
Proof.
  split; [|vm_compute; done]. split; [apply world_ok_w3|]. exists []. split_and!; [done|constructor|]. by constructor.
Qed.

(** ** A history of transactions *)

Definition authority : AuthorizationContext := mkAuthorization 5 6 2 3 (mkGenerations 1 1 1 1).
Definition digest32 : bytes := List.repeat zero_byte 32.

(** two groups of five bytes, a snapshot of the first, a write that is abandoned, retention *)
Definition history : list StoreOp :=
  let write object := [OpReserve ROOM 1 2 UpdateGroupPurpose 10 1 object (object + 1) (object + 2) NOW; OpFinalize object 1 authority 5 digest32 NOW]%N in
  let persist object base update :=
    OpPersist (mkPersistGroup ROOM 1 1 base CLIENT update authority None digest32 digest32 object [mkChunkInput 0 0 5 digest32] [] digest32) (object + 3)%N NOW in
  write 30%N ++ [persist 30%N 0 60%N; OpReserve ROOM 1 2 SnapshotPurpose 8 1 40 41 42 NOW; OpFinalize 40 1 authority 8 digest32 NOW; OpCommitSnapshot ROOM 1 1 authority 40 1 [] 43 NOW]
  ++ write 50%N ++ [persist 50%N 1 61%N; OpReserve ROOM 1 2 UpdateGroupPurpose 10 1 70 71 72 NOW; OpAbandon 70 NOW; OpSweep 100 (NOW + 2 * DAY_US); OpStartDeletion 31; OpCompleteDeletion 31].

Lemma manifest_gap_free_witness :
  map (fun e => e_durable_sequence e) (t_epochs (run_ops db0 history)) = [2]
  /\ (forall e, e ∈ t_epochs (run_ops db0 history) -> map g_first_sequence (log (run_ops db0 history) (e_room e) (e_epoch e)) = seqZ 1 (e_durable_sequence e)).
Proof. split; [vm_compute; reflexivity|]. exact (proj1 (manifest_gap_free db0 history log_ok_db0)). Defined.

Lemma collaboration_accounting_exact_witness :
  map (fun d => (d_used_physical_bytes d, d_reserved_bytes d)) (t_drives (run_ops db0 history)) = [(13, 0)]
  /\ used_for (run_ops db0 history) 2 = 13 /\ reserved_for (run_ops db0 history) 2 = 0
  /\ Forall2 (fun d d' => d_used_physical_bytes d' - used_for (run_ops db0 history) (d_id d) = d_used_physical_bytes d - used_for db0 (d_id d))
       (t_drives db0) (t_drives (run_ops db0 history)).
Proof.
  split; [vm_compute; reflexivity|]. split; [vm_compute; reflexivity|]. split; [vm_compute; reflexivity|].
  eapply Forall2_impl; [apply (collaboration_accounting_exact db0 history)|intros d d' (_ & _ & _ & H & _); exact H].
  split; [constructor|apply NoDup_singleton|constructor].
Defined.
