(* ===== verification/RevisionProtocol.v ===== *)
(** Model of [source/crates/filebelt-revision-protocol/src/lib.rs]: frames and
    the request, response, comparison and text validation of the isolated
    revision-store adapter. The messages are those of
    [protocol/generated/rust/filebelt/revision/v1]. *)
From stdpp Require Import countable.
From S2P Require Import Prelude Libraries ConcreteCodecs Frames.

Open Scope string_scope.
Open Scope Z_scope.
Open Scope list_scope.
Open Scope bool_scope.

Definition MAX_TEXT_BYTES : Z := 100 * 1024 * 1024.
Definition MAX_EDIT_BYTES : Z := 16 * 1024 * 1024.
Definition MAX_FRAME_BYTES : Z := MAX_TEXT_BYTES + 4096.
Definition MAX_LINE_DIFF_OUTPUT_BYTES : Z := 8 * 1024 * 1024.
Definition MAX_REQUEST_ID_BYTES : Z := 128.
Definition MAX_LINE_DIFF_HUNKS : Z := 4096.
Definition MAX_LINE_DIFF_LINES : Z := 50000.

Inductive ValidationError :=
| ERequestId | EMissingOperation | EIdentifier | EObjectId | EContentTooLarge | EContentNotText
| ETimestamp | EComparison | EResponseMismatch | EError.

(** ** Messages *)

Record PrepareRevisionCommit := mkPrepare {
  pc_repository_id : string;
  pc_version_id : string;
  pc_ordinal : Z;
  pc_committed_at_unix_seconds : Z;
  pc_content : bytes;
  pc_expected_old_commit_oid : string;
  pc_migration_import : bool
}.
Record PreparedRevisionCommit := mkPrepared {
  pd_commit_oid : string; pd_blob_oid : string; pd_tree_oid : string; pd_repository_size_kib : Z
}.
Record ReadRevisionBlob := mkReadBlob { rb_repository_id : string; rb_commit_oid : string }.
Record RevisionBlob := mkBlob { bl_commit_oid : string; bl_blob_oid : string; bl_content : bytes }.
Record CompareRevisionCommits := mkCompare {
  cc_repository_id : string; cc_base_commit_oid : string; cc_target_commit_oid : string; cc_kind : Z
}.
Record RevisionHistogram := mkHistogram { added_lines : Z; deleted_lines : Z; changed_files : Z }.
Record RevisionLine := mkLine { line_kind : Z; line_text : string }.
Record RevisionLineDiffHunk := mkHunk {
  old_start : Z; old_lines : Z; new_start : Z; new_lines : Z; hunk_lines : list RevisionLine
}.
Record RevisionComparison := mkComparison {
  cmp_kind : Z; histogram : option RevisionHistogram; line_diff : list RevisionLineDiffHunk
}.
Record ReconcileRevisionRef := mkReconcile {
  rr_repository_id : string; rr_expected_old_commit_oid : string; rr_new_commit_oid : string
}.
Record ReconcileRevisionRefResult := mkReconcileResult { rf_advanced : bool; rf_observed_commit_oid : string }.
Record VerifyRevisionRepositoryResult := mkVerifyResult {
  vr_head_commit_oid : string; vr_loose_objects : Z; vr_packed_objects : Z
}.
Record MaintainRevisionRepositoryResult := mkMaintainResult {
  mr_loose_objects : Z; mr_packed_objects : Z; mr_size_kib : Z
}.
Record RevisionError := mkRevisionError { re_code : Z; re_message : string; re_retry_after_millis : Z }.

Inductive Operation :=
| PrepareCommit (o : PrepareRevisionCommit)
| ReadBlob (o : ReadRevisionBlob)
| CompareCommits (o : CompareRevisionCommits)
| ReconcileRef (o : ReconcileRevisionRef)
| VerifyRepository (repository_id : string)
| MaintainRepository (repository_id : string)
| DeleteRepository (repository_id : string).
Record RevisionExecuteRequest := mkRevRequest { rq_request_id : string; rq_operation : option Operation }.

Inductive ExecuteResult :=
| PreparedCommit (r : PreparedRevisionCommit)
| Blob (r : RevisionBlob)
| Comparison (r : RevisionComparison)
| ReconcileResult (r : ReconcileRevisionRefResult)
| VerifyResult (r : VerifyRevisionRepositoryResult)
| MaintainResult (r : MaintainRevisionRepositoryResult)
| DeleteResult (deleted : bool)
| ErrorResult (e : RevisionError).
Record RevisionExecuteResponse := mkRevResponse { rp_request_id : string; rp_result : option ExecuteResult }.

Inductive RevisionComparisonKind := KindUnspecified | Histogram | LineDiff.
#[export] Instance RevisionComparisonKind_eq_dec : EqDecision RevisionComparisonKind.
Proof. solve_decision. Defined.
Definition comparison_kind_try_from (k : Z) : option RevisionComparisonKind :=
  if k =? 0 then Some KindUnspecified else if k =? 1 then Some Histogram
  else if k =? 2 then Some LineDiff else None.

Inductive RevisionLineKind := LineUnspecified | Context | Added | Deleted.
#[export] Instance RevisionLineKind_eq_dec : EqDecision RevisionLineKind.
Proof. solve_decision. Defined.
Definition line_kind_try_from (k : Z) : option RevisionLineKind :=
  if k =? 0 then Some LineUnspecified else if k =? 1 then Some Context
  else if k =? 2 then Some Added else if k =? 3 then Some Deleted else None.

Inductive RevisionErrorCode :=
| CodeUnspecified | InvalidRequest | NotFound | Conflict | ResourceExhausted | Unavailable
| IntegrityFailure | Internal | AdmissionLimited.
Definition error_code_try_from (k : Z) : option RevisionErrorCode :=
  if k =? 0 then Some CodeUnspecified else if k =? 1 then Some InvalidRequest
  else if k =? 2 then Some NotFound else if k =? 3 then Some Conflict
  else if k =? 4 then Some ResourceExhausted else if k =? 5 then Some Unavailable
  else if k =? 6 then Some IntegrityFailure else if k =? 7 then Some Internal
  else if k =? 8 then Some AdmissionLimited else None.

(** ** Scalar validation *)

Definition validate_request_id (value : string) : result ValidationError unit :=
  if String.eqb value "" || (MAX_REQUEST_ID_BYTES <? str_len value) || negb (is_ascii value)
  then Err ERequestId else Ok tt.

Definition lower_hex (b : byte) : bool := is_ascii_hexdigit b && negb (is_ascii_uppercase b).

Definition validate_oid (value : string) : result ValidationError unit :=
  if negb (str_len value =? 64) || negb (forallb lower_hex (as_bytes value))
  then Err EObjectId else Ok tt.

Definition validate_optional_oid (value : string) : result ValidationError unit :=
  if String.eqb value "" then Ok tt else validate_oid value.

Definition contains_byte (b : byte) (s : bytes) : bool := existsb (Ascii.eqb b) s.

Definition validate_text (value : bytes) (maximum : Z) : result ValidationError unit :=
  if maximum <? len value then Err EContentTooLarge
  else if contains_byte zero_byte value then Err EContentNotText
  else if utf8_valid value then Ok tt else Err EContentNotText.
Definition validate_edit_text (value : bytes) := validate_text value MAX_EDIT_BYTES.
Definition validate_read_text (value : bytes) := validate_text value MAX_TEXT_BYTES.

(** [i64::try_from(kib).ok().and_then(|size| size.checked_mul(1024))] *)
Definition kib_fits (kib : Z) : result ValidationError unit :=
  match i64_try_from kib with
  | Some size => match checked_mul_i64 size 1024 with Some _ => Ok tt | None => Err EIdentifier end
  | None => Err EIdentifier
  end.
Definition objects_fit (loose packed : Z) : result ValidationError unit :=
  match checked_add_u64 loose packed with Some _ => Ok tt | None => Err EIdentifier end.

Definition validate_error (e : RevisionError) : result ValidationError unit :=
  match error_code_try_from (re_code e) with
  | Some (InvalidRequest | NotFound | Conflict | ResourceExhausted | Unavailable | IntegrityFailure
         | Internal) => if re_retry_after_millis e =? 0 then Ok tt else Err EError
  | Some AdmissionLimited => if re_retry_after_millis e =? 5000 then Ok tt else Err EError
  | Some CodeUnspecified | None => Err EError
  end.

(** ** Line diffs *)

Definition checked_incr (n : Z) : result ValidationError Z :=
  ok_or EComparison (checked_add_u64 n 1).

(** The body of [for line in &hunk.lines]: total, old and new line counters. *)
Definition count_line (acc : Z * Z * Z) (line : RevisionLine) : result ValidationError (Z * Z * Z) :=
  let '(total_lines, old, new) := acc in
  let? total_lines := checked_incr total_lines in
  if (MAX_LINE_DIFF_LINES <? total_lines) || (1048576 <? str_len (line_text line))
     || contains_byte zero_byte (as_bytes (line_text line))
  then Err EComparison
  else
    match line_kind_try_from (line_kind line) with
    | Some Context =>
        let? old := checked_incr old in let? new := checked_incr new in Ok (total_lines, old, new)
    | Some Added => let? new := checked_incr new in Ok (total_lines, old, new)
    | Some Deleted => let? old := checked_incr old in Ok (total_lines, old, new)
    | Some LineUnspecified | None => Err EComparison
    end.

Fixpoint count_lines (acc : Z * Z * Z) (lines : list RevisionLine)
  : result ValidationError (Z * Z * Z) :=
  match lines with
  | [] => Ok acc
  | line :: rest => let? acc := count_line acc line in count_lines acc rest
  end.

Fixpoint validate_hunks (total_lines : Z) (hunks : list RevisionLineDiffHunk)
  : result ValidationError unit :=
  match hunks with
  | [] => Ok tt
  | hunk :: rest =>
      match count_lines (total_lines, 0, 0) (hunk_lines hunk) with
      | Err e => Err e
      | Ok (total_lines, old, new) =>
          if negb (old =? old_lines hunk) || negb (new =? new_lines hunk)
             || match checked_add_u64 (old_start hunk) (old_lines hunk) with None => true | _ => false end
             || match checked_add_u64 (new_start hunk) (new_lines hunk) with None => true | _ => false end
          then Err EComparison
          else validate_hunks total_lines rest
      end
  end.

Section validation.
Context `{UuidLib, !ProstMessage RevisionComparison}.

Definition validate_uuid (value : string) : result ValidationError unit :=
  match uuid_parse_str value with Some _ => Ok tt | None => Err EIdentifier end.

Definition validate_line_diff (c : RevisionComparison) : result ValidationError unit :=
  if match histogram c with Some _ => true | None => false end
     || (MAX_LINE_DIFF_HUNKS <? len (line_diff c))
     || (MAX_LINE_DIFF_OUTPUT_BYTES <? len (encode_to_vec c))
  then Err EComparison
  else validate_hunks 0 (line_diff c).

Definition bool_u64 (b : bool) : Z := if b then 1 else 0.

Definition validate_comparison (q : CompareRevisionCommits) (c : RevisionComparison)
  : result ValidationError unit :=
  let? requested_kind := ok_or EComparison (comparison_kind_try_from (cc_kind q)) in
  let? response_kind := ok_or EComparison (comparison_kind_try_from (cmp_kind c)) in
  if negb (bool_decide (response_kind = requested_kind)) then Err EResponseMismatch
  else
    match response_kind with
    | Histogram =>
        let? h := ok_or EComparison (histogram c) in
        if negb (len (line_diff c) =? 0)
           || match checked_add_u64 (added_lines h) (deleted_lines h) with None => true | _ => false end
           || negb (changed_files h
                    =? bool_u64 (negb (added_lines h =? 0) || negb (deleted_lines h =? 0)))
        then Err EComparison else Ok tt
    | LineDiff => validate_line_diff c
    | KindUnspecified => Err EComparison
    end.

Definition validate_operation (o : Operation) : result ValidationError unit :=
  match o with
  | PrepareCommit p =>
      let? _ := validate_uuid (pc_repository_id p) in
      let? _ := validate_uuid (pc_version_id p) in
      let? _ := validate_optional_oid (pc_expected_old_commit_oid p) in
      let? _ := if pc_migration_import p then validate_read_text (pc_content p)
                else validate_edit_text (pc_content p) in
      if negb ((0 <=? pc_committed_at_unix_seconds p) && (pc_committed_at_unix_seconds p <=? 4102444800))
      then Err ETimestamp else Ok tt
  | ReadBlob r =>
      let? _ := validate_uuid (rb_repository_id r) in validate_oid (rb_commit_oid r)
  | CompareCommits c =>
      let? _ := validate_uuid (cc_repository_id c) in
      let? _ := validate_oid (cc_base_commit_oid c) in
      let? _ := validate_oid (cc_target_commit_oid c) in
      if negb (bool_decide (comparison_kind_try_from (cc_kind c) = Some Histogram))
         && negb (bool_decide (comparison_kind_try_from (cc_kind c) = Some LineDiff))
      then Err EComparison else Ok tt
  | ReconcileRef r =>
      let? _ := validate_uuid (rr_repository_id r) in
      let? _ := validate_optional_oid (rr_expected_old_commit_oid r) in
      validate_oid (rr_new_commit_oid r)
  | VerifyRepository id | MaintainRepository id | DeleteRepository id => validate_uuid id
  end.

Definition validate_request (q : RevisionExecuteRequest) : result ValidationError unit :=
  let? _ := validate_request_id (rq_request_id q) in
  match rq_operation q with
  | None => Err EMissingOperation
  | Some o => validate_operation o
  end.

Definition validate_result (o : Operation) (r : ExecuteResult) : result ValidationError unit :=
  match o, r with
  | PrepareCommit _, PreparedCommit p =>
      let? _ := validate_oid (pd_commit_oid p) in
      let? _ := validate_oid (pd_blob_oid p) in
      let? _ := validate_oid (pd_tree_oid p) in
      kib_fits (pd_repository_size_kib p)
  | ReadBlob q, Blob b =>
      if negb (String.eqb (bl_commit_oid b) (rb_commit_oid q)) then Err EResponseMismatch
      else
        let? _ := validate_oid (bl_commit_oid b) in
        let? _ := validate_oid (bl_blob_oid b) in
        validate_read_text (bl_content b)
  | CompareCommits q, Comparison c => validate_comparison q c
  | ReconcileRef q, ReconcileResult r =>
      let? _ := validate_optional_oid (rf_observed_commit_oid r) in
      if rf_advanced r && negb (String.eqb (rf_observed_commit_oid r) (rr_new_commit_oid q))
      then Err EResponseMismatch else Ok tt
  | VerifyRepository _, VerifyResult r =>
      let? _ := validate_optional_oid (vr_head_commit_oid r) in
      objects_fit (vr_loose_objects r) (vr_packed_objects r)
  | MaintainRepository _, MaintainResult r =>
      let? _ := objects_fit (mr_loose_objects r) (mr_packed_objects r) in
      kib_fits (mr_size_kib r)
  | DeleteRepository _, DeleteResult _ => Ok tt
  | _, _ => Err EResponseMismatch
  end.

Definition validate_response (q : RevisionExecuteRequest) (r : RevisionExecuteResponse)
  : result ValidationError unit :=
  let? _ := validate_request q in
  let? _ := validate_request_id (rp_request_id r) in
  if negb (String.eqb (rp_request_id r) (rq_request_id q)) then Err EResponseMismatch
  else
    match rq_operation q with
    | None => Err EMissingOperation
    | Some o =>
        match rp_result r with
        | None => Err EMissingOperation
        | Some (ErrorResult e) => validate_error e
        | Some res => validate_result o res
        end
    end.
End validation.

(** ** Specification of line diffs *)

Definition old_line (l : RevisionLine) : bool :=
  match line_kind_try_from (line_kind l) with Some (Context | Deleted) => true | _ => false end.
Definition new_line (l : RevisionLine) : bool :=
  match line_kind_try_from (line_kind l) with Some (Context | Added) => true | _ => false end.
Definition count_if {A} (f : A -> bool) (l : list A) : Z := len (List.filter f l).

(** A line a diff may contain. *)
Definition line_ok (l : RevisionLine) : Prop :=
  (old_line l = true \/ new_line l = true) /\ str_len (line_text l) <= 1048576 /\
  (zero_byte ∉ as_bytes (line_text l)).

Definition hunk_ok (h : RevisionLineDiffHunk) : Prop :=
  Forall line_ok (hunk_lines h) /\
  old_lines h = count_if old_line (hunk_lines h) /\
  new_lines h = count_if new_line (hunk_lines h) /\
  old_start h + old_lines h <= u64_max /\ new_start h + new_lines h <= u64_max.

Definition total_lines (hs : list RevisionLineDiffHunk) : Z :=
  fold_right (fun h acc => len (hunk_lines h) + acc) 0 hs.

Lemma contains_byte_false b s : contains_byte b s = false <-> (b ∉ s).
Proof.
  unfold contains_byte. rewrite <-not_true_iff_false, existsb_exists. f_equiv.
  rewrite list_elem_of_In. split.
  - intros (x & Hx & ->%Ascii.eqb_eq). done.
  - intros Hb. exists b. by rewrite Ascii.eqb_refl.
Qed.

Lemma count_if_cons {A} (f : A -> bool) x l : count_if f (x :: l) = (if f x then 1 else 0) + count_if f l.
Proof. unfold count_if, len. simpl. destruct (f x); simpl; lia. Qed.

Lemma count_if_nonneg {A} (f : A -> bool) l : 0 <= count_if f l.
Proof. unfold count_if. apply len_nonneg. Qed.

Lemma checked_incr_Ok n : 0 <= n < u64_max -> checked_incr n = Ok (n + 1).
Proof.
  intros Hn. unfold checked_incr, checked_add_u64, checked.
  rewrite (proj2 (Z.leb_le 0 (n + 1))) by lia. rewrite (proj2 (Z.leb_le (n + 1) u64_max)) by lia. done.
Qed.

Lemma count_line_spec t o n l acc :
  0 <= o <= t -> 0 <= n <= t -> t <= MAX_LINE_DIFF_LINES ->
  count_line (t, o, n) l = Ok acc <->
  line_ok l /\ t + 1 <= MAX_LINE_DIFF_LINES /\
  acc = (t + 1, o + (if old_line l then 1 else 0), n + (if new_line l then 1 else 0)).
Proof.
  intros Ho Hn Ht. unfold count_line, line_ok, old_line, new_line. unfold MAX_LINE_DIFF_LINES in *.
  rewrite !checked_incr_Ok by (unfold u64_max; lia). rewrite guard_Ok. autorewrite with bools.
  rewrite contains_byte_false.
  destruct (line_kind_try_from (line_kind l)) as [[]|]; cbv match; rewrite ?Z.add_0_r; split; intros H;
    destruct_and?; try (by destruct_or?); try done; simplify_eq; try tauto; repeat split; auto; lia.
Qed.

Lemma count_lines_spec t o n ls acc :
  0 <= o <= t -> 0 <= n <= t -> t <= MAX_LINE_DIFF_LINES ->
  count_lines (t, o, n) ls = Ok acc <->
  Forall line_ok ls /\ t + len ls <= MAX_LINE_DIFF_LINES /\
  acc = (t + len ls, o + count_if old_line ls, n + count_if new_line ls).
Proof.
  revert t o n. induction ls as [|l ls IH]; intros t o n Ho Hn Ht; cbn [count_lines].
  - unfold count_if, len. simpl. rewrite !Z.add_0_r. rewrite Forall_nil. naive_solver.
  - rewrite bind_Ok. setoid_rewrite count_line_spec; [|done..]. rewrite Forall_cons, !count_if_cons.
    assert (len (l :: ls) = len ls + 1) as -> by (unfold len; cbn [length]; lia).
    pose proof (len_nonneg ls). split.
    + intros (a & (Hl & Hle & ->) & Hr). apply IH in Hr as (H1 & H2 & ->);
        [|destruct (old_line l); lia|destruct (new_line l); lia|lia].
      split; [done|]. split; [lia|]. f_equal; [f_equal|]; lia.
    + intros ([Hl Hls] & Hle & ->). eexists. split; [split; [done|split; [lia|done]]|].
      apply IH; [destruct (old_line l); lia|destruct (new_line l); lia|lia|].
      split; [done|]. split; [lia|]. f_equal; [f_equal|]; lia.
Qed.

Lemma checked_add_none a b :
  0 <= a -> 0 <= b ->
  match checked_add_u64 a b with None => true | _ => false end = false <-> a + b <= u64_max.
Proof.
  intros Ha Hb. unfold checked_add_u64. destruct (checked 0 u64_max (a + b)) eqn:Hc.
  - rewrite checked_Some in Hc. naive_solver lia.
  - rewrite checked_None in Hc. naive_solver lia.
Qed.

Definition hunk_fields_u64 (h : RevisionLineDiffHunk) : Prop :=
  0 <= old_start h /\ 0 <= old_lines h /\ 0 <= new_start h /\ 0 <= new_lines h.

Lemma validate_hunks_spec t hs :
  0 <= t <= MAX_LINE_DIFF_LINES -> Forall hunk_fields_u64 hs ->
  validate_hunks t hs = Ok tt <-> Forall hunk_ok hs /\ t + total_lines hs <= MAX_LINE_DIFF_LINES.
Proof.
  revert t. induction hs as [|h hs IH]; intros t Ht Hu; cbn [validate_hunks].
  - rewrite Forall_nil. simpl. naive_solver lia.
  - rewrite Forall_cons in Hu. destruct Hu as [(Hu1 & Hu2 & Hu3 & Hu4) Hus].
    rewrite Forall_cons. change (total_lines (h :: hs)) with (len (hunk_lines h) + total_lines hs).
    pose proof (len_nonneg (hunk_lines h)).
    assert (0 <= total_lines hs) as Hpos.
    { clear. induction hs as [|h hs IH]; simpl; [lia|]. pose proof (len_nonneg (hunk_lines h)). lia. }
    pose proof (fun acc => count_lines_spec t 0 0 (hunk_lines h) acc ltac:(lia) ltac:(lia) ltac:(lia)) as Hc.
    destruct (count_lines (t, 0, 0) (hunk_lines h)) as [[[t' o] n]|e] eqn:Hrun.
    + destruct (proj1 (Hc _) eq_refl) as (Hls & Hle & [= -> -> ->]).
      rewrite guard_Ok, IH by (done || lia). autorewrite with bools.
      rewrite !checked_add_none by done. unfold hunk_ok. rewrite !Z.add_0_l. split.
      * intros ((((-> & ->) & ?) & ?) & Hf & ?). repeat split; try done; try lia.
      * intros [[(_ & Ho & Hn & ? & ?) Hf] ?]. repeat split; try done; lia.
    + split; [done|]. intros [[(Hls & _) _] Hle].
      assert (Err e = Ok (t + len (hunk_lines h), 0 + count_if old_line (hunk_lines h),
                          0 + count_if new_line (hunk_lines h))) as Hbad; [|done].
      apply Hc. split; [done|]. split; [lia|done].
Qed.

(** ** Properties *)

Section properties.
Context `{UuidLib, !ProstMessage RevisionComparison}.

(** A line diff is accepted exactly when it carries no histogram, stays
    within 4096 hunks, 50000 lines in all and 8 MiB encoded, every line has a
    known kind and at most 1 MiB of NUL-free text, and every hunk header counts
    its own context, added and deleted lines without overflowing its ranges. *)
Theorem line_diff_accepted_iff c :
  Forall hunk_fields_u64 (line_diff c) ->
  validate_line_diff c = Ok tt <->
  histogram c = None /\ len (line_diff c) <= MAX_LINE_DIFF_HUNKS /\
  len (encode_to_vec c) <= MAX_LINE_DIFF_OUTPUT_BYTES /\
  Forall hunk_ok (line_diff c) /\ total_lines (line_diff c) <= MAX_LINE_DIFF_LINES.
Proof.
  intros Hu. unfold validate_line_diff. rewrite guard_Ok, !orb_false_iff, !Z.ltb_ge.
  rewrite validate_hunks_spec by (done || (unfold MAX_LINE_DIFF_LINES; lia)). rewrite Z.add_0_l.
  destruct (histogram c); naive_solver.
Qed.

(** What a valid response tells about its request. *)
Definition response_facts (o : Operation) (r : ExecuteResult) : Prop :=
  match o, r with
  | _, ErrorResult e =>
      (re_code e = 8 /\ re_retry_after_millis e = 5000) \/
      (1 <= re_code e <= 7 /\ re_retry_after_millis e = 0)
  | PrepareCommit _, PreparedCommit p =>
      str_len (pd_commit_oid p) = 64 /\ pd_repository_size_kib p * 1024 <= i64_max
  | ReadBlob q, Blob b =>
      bl_commit_oid b = rb_commit_oid q /\ len (bl_content b) <= MAX_TEXT_BYTES /\
      (zero_byte ∉ bl_content b) /\ utf8_valid (bl_content b) = true
  | CompareCommits q, Comparison c =>
      cmp_kind c = cc_kind q /\ (cc_kind q = 1 \/ cc_kind q = 2) /\
      (cc_kind q = 1 <-> is_Some (histogram c))
  | ReconcileRef q, ReconcileResult r =>
      rf_advanced r = true -> rf_observed_commit_oid r = rr_new_commit_oid q
  | VerifyRepository _, VerifyResult r => vr_loose_objects r + vr_packed_objects r <= u64_max
  | MaintainRepository _, MaintainResult r => mr_size_kib r * 1024 <= i64_max
  | DeleteRepository _, DeleteResult _ => True
  | _, _ => False
  end.

Lemma comparison_kind_code k c : comparison_kind_try_from k = Some c ->
  k = match c with KindUnspecified => 0 | Histogram => 1 | LineDiff => 2 end.
Proof.
  unfold comparison_kind_try_from.
  destruct (Z.eqb_spec k 0), (Z.eqb_spec k 1), (Z.eqb_spec k 2); naive_solver.
Qed.

Lemma kib_fits_Ok k : kib_fits k = Ok tt -> k * 1024 <= i64_max.
Proof.
  unfold kib_fits, i64_try_from, checked_mul_i64. destruct (checked _ _ k) as [s|] eqn:Hs; [|done].
  apply checked_Some in Hs as [<- _]. destruct (checked _ _ (k * 1024)) as [s'|] eqn:Hs'; [|done].
  apply checked_Some in Hs' as [_ ?]. lia.
Qed.

Lemma forallb_Forall {A} (f : A -> bool) l : forallb f l = true <-> Forall (fun x => f x = true) l.
Proof. rewrite forallb_forall, Forall_forall. setoid_rewrite list_elem_of_In. done. Qed.

Lemma validate_oid_Ok s :
  validate_oid s = Ok tt <-> str_len s = 64 /\ Forall (fun b => lower_hex b = true) (as_bytes s).
Proof. unfold validate_oid. checks_in_goal. rewrite forallb_Forall. naive_solver. Qed.

Lemma validate_text_Ok v max :
  validate_text v max = Ok tt <-> len v <= max /\ (zero_byte ∉ v) /\ utf8_valid v = true.
Proof.
  unfold validate_text. rewrite !guard_Ok, Z.ltb_ge, contains_byte_false.
  destruct (utf8_valid v); naive_solver.
Qed.

Lemma validate_error_Ok e : validate_error e = Ok tt ->
  (re_code e = 8 /\ re_retry_after_millis e = 5000) \/
  (1 <= re_code e <= 7 /\ re_retry_after_millis e = 0).
Proof.
  unfold validate_error, error_code_try_from.
  destruct (Z.eqb_spec (re_code e) 0), (Z.eqb_spec (re_code e) 1), (Z.eqb_spec (re_code e) 2),
    (Z.eqb_spec (re_code e) 3), (Z.eqb_spec (re_code e) 4), (Z.eqb_spec (re_code e) 5),
    (Z.eqb_spec (re_code e) 6), (Z.eqb_spec (re_code e) 7), (Z.eqb_spec (re_code e) 8); try done;
    destruct (Z.eqb_spec (re_retry_after_millis e) 0), (Z.eqb_spec (re_retry_after_millis e) 5000);
    try done; intros _; lia.
Qed.

Lemma validate_comparison_Ok q c : validate_comparison q c = Ok tt ->
  cmp_kind c = cc_kind q /\ (cc_kind q = 1 \/ cc_kind q = 2) /\ (cc_kind q = 1 <-> is_Some (histogram c)).
Proof.
  unfold validate_comparison.
  destruct (comparison_kind_try_from (cc_kind q)) as [rk|] eqn:Hq; [|done]. cbn [ok_or].
  destruct (comparison_kind_try_from (cmp_kind c)) as [ck|] eqn:Hc; [|done]. cbn [ok_or].
  rewrite guard_Ok, negb_false_iff, bool_decide_eq_true. intros [-> Hv].
  apply comparison_kind_code in Hq. apply comparison_kind_code in Hc. rewrite Hq, Hc.
  split; [done|]. destruct rk; [done| |].
  - split; [by left|]. destruct (histogram c); [naive_solver|done].
  - split; [by right|]. unfold validate_line_diff in Hv. rewrite guard_Ok, !orb_false_iff in Hv.
    destruct (histogram c); [naive_solver|]. split; [lia|by intros []].
Qed.

(** A response that validates against its request answers that request: it
    carries the same request id and the result variant of the requested
    operation (or an explicit error with its exact retry delay), the blob it
    returns is of the requested commit and is bounded NUL-free UTF-8 text, a
    comparison has the requested kind, an advanced ref is at the requested
    commit, and reported sizes fit their machine integers. *)
Theorem response_answers_request q r :
  validate_response q r = Ok tt ->
  rp_request_id r = rq_request_id q /\ validate_request q = Ok tt /\
  exists o res, rq_operation q = Some o /\ rp_result r = Some res /\ response_facts o res.
Proof.
  unfold validate_response. rewrite !seq_Ok, guard_Ok, negb_false_iff, String.eqb_eq.
  intros (Hq & _ & Hid & Hr). split; [done|]. split; [done|].
  destruct (rq_operation q) as [o|]; [|done]. destruct (rp_result r) as [res|]; [|done].
  exists o, res. split; [done|]. split; [done|].
  destruct o, res; simpl in Hr |- *; try done; try (by apply validate_error_Ok).
  - rewrite !seq_Ok in Hr. destruct Hr as (Ho & _ & _ & Hk). rewrite validate_oid_Ok in Ho.
    split; [tauto|by apply kib_fits_Ok].
  - rewrite guard_Ok, !seq_Ok, negb_false_iff, String.eqb_eq in Hr. destruct Hr as (Hc & _ & _ & Ht).
    unfold validate_read_text in Ht. rewrite validate_text_Ok in Ht. tauto.
  - by apply validate_comparison_Ok.
  - rewrite seq_Ok, guard_Ok in Hr. destruct Hr as (_ & Hb & _). intros Ha. rewrite Ha in Hb. simpl in Hb.
    by rewrite negb_false_iff, String.eqb_eq in Hb.
  - rewrite seq_Ok in Hr. destruct Hr as [_ Hr]. unfold objects_fit, checked_add_u64 in Hr.
    destruct (checked _ _ _) eqn:Hs; [|done]. apply checked_Some in Hs as [_ ?]. lia.
  - rewrite seq_Ok in Hr. destruct Hr as [_ Hr]. by apply kib_fits_Ok.
Qed.
End properties.

(** Frames are self-delimiting: the concatenation of any written frames
    reads back as exactly the same messages and leaves the rest of the stream,
    and a buffer decodes as one frame exactly when reading it as a stream gives
    the message and ends at its last byte. *)
Theorem frames_round_trip {M} `{ProstMessage M} (ms : list M) written out rest frame m :
  (forall m, m ∈ ms -> decode_message (encode_to_vec m) = Some m) ->
  write_frames MAX_FRAME_BYTES written ms = Ok out ->
  (exists body, out = written ++ body /\
     read_frames MAX_FRAME_BYTES (length ms) (body ++ rest) = Ok (ms, rest)) /\
  (decode_frame MAX_FRAME_BYTES frame = Ok m <-> read_frame MAX_FRAME_BYTES frame = Ok (m, [])).
Proof.
  intros Hdec Hw. split; [|apply decode_frame_read_frame].
  destruct (write_frames_app _ _ _ _ Hw) as (body & -> & Hr). exists body. split; [done|]. by apply Hr.
Qed.

(** ** Witnesses *)

Module Demo.
Import Concrete.
#[local] Instance line_eq_dec : EqDecision RevisionLine.
Proof. solve_decision. Defined.
#[local] Instance hunk_eq_dec : EqDecision RevisionLineDiffHunk.
Proof. solve_decision. Defined.
#[local] Instance histogram_eq_dec : EqDecision RevisionHistogram.
Proof. solve_decision. Defined.
#[local] Instance comparison_eq_dec : EqDecision RevisionComparison.
Proof. solve_decision. Defined.
#[local] Instance line_countable : Countable RevisionLine.
Proof. refine (inj_countable' (fun l => (line_kind l, line_text l)) (fun t => mkLine t.1 t.2) _). by intros []. Defined.
#[local] Instance hunk_countable : Countable RevisionLineDiffHunk.
Proof.
  refine (inj_countable' (fun h => (old_start h, old_lines h, new_start h, new_lines h, hunk_lines h))
            (fun t => mkHunk t.1.1.1.1 t.1.1.1.2 t.1.1.2 t.1.2 t.2) _). by intros [].
Defined.
#[local] Instance histogram_countable : Countable RevisionHistogram.
Proof.
  refine (inj_countable' (fun h => (added_lines h, deleted_lines h, changed_files h))
            (fun t => mkHistogram t.1.1 t.1.2 t.2) _). by intros [].
Defined.
#[local] Instance comparison_countable : Countable RevisionComparison.
Proof.
  refine (inj_countable' (fun c => (cmp_kind c, histogram c, line_diff c))
            (fun t => mkComparison t.1.1 t.1.2 t.2) _). by intros [].
Defined.
#[local] Instance comparison_codec : ProstMessage RevisionComparison := countable_codec _.

Definition demo_diff : RevisionComparison :=
  mkComparison 2 None [mkHunk 1 2 1 2 [mkLine 1 "a"; mkLine 3 "b"; mkLine 2 "c"]].

Lemma line_diff_accepted_iff_witness : validate_line_diff demo_diff = Ok tt.
Proof.
  apply (line_diff_accepted_iff demo_diff).
  - repeat constructor; vm_compute; done.
  - split; [done|]. split; [vm_compute; done|]. split; [vm_compute; done|]. split; [|vm_compute; done].
    repeat constructor; try (vm_compute; done); try (left; reflexivity); try (right; reflexivity);
      apply (bool_decide_unpack _); vm_compute; done.
Defined.

Definition oid : string := "00112233445566778899aabbccddeeff00112233445566778899aabbccddeeff".
Definition repo : string := "11111111-1111-4111-8111-111111111111".
Definition demo_request : RevisionExecuteRequest :=
  mkRevRequest "r-1" (Some (ReconcileRef (mkReconcile repo "" oid))).
Definition demo_response : RevisionExecuteResponse :=
  mkRevResponse "r-1" (Some (ReconcileResult (mkReconcileResult true oid))).

Lemma response_answers_request_witness :
  rp_request_id demo_response = rq_request_id demo_request /\ validate_request demo_request = Ok tt /\
  exists o res, rq_operation demo_request = Some o /\ rp_result demo_response = Some res /\
    response_facts o res.
Proof. apply (response_answers_request demo_request demo_response). vm_compute. reflexivity. Defined.

Lemma frames_round_trip_witness :
  exists out, write_frames MAX_FRAME_BYTES [] [demo_diff; demo_diff] = Ok out /\
  exists body, out = [] ++ body /\
     read_frames MAX_FRAME_BYTES 2 (body ++ []) = Ok ([demo_diff; demo_diff], []).
Proof.
  eexists. split; [vm_compute; reflexivity|].
  refine (proj1 (frames_round_trip [demo_diff; demo_diff] [] _ [] [] demo_diff _ _)).
  - intros m _. apply (countable_codec_laws _ (fun _ => True)). done.
  - vm_compute. reflexivity.
Defined.
End Demo.
