(* ===== verification/DirectoryProtocol.v ===== *)
(** Model of [source/crates/filebelt-directory-repository-protocol/src/lib.rs]:
    bounds and canonical-tree validation of the private directory-repository
    adapter. The messages are those of
    [protocol/generated/rust/filebelt/directory_repository/v1]; names and paths
    are validated by the model of [filebelt-domain] in [Domain]. *)
From S2P Require Import Prelude Collections Libraries Domain Frames.

Open Scope string_scope.
Open Scope Z_scope.
Open Scope list_scope.
Open Scope bool_scope.

Definition MAX_BLOB_BYTES : Z := 100 * 1024 * 1024.
Definition MAX_PACK_BYTES : Z := 1024 * 1024 * 1024.
Definition MAX_PUSH_COMMITS : Z := 32.
Definition MAX_CHANGED_PATHS_PER_COMMIT : Z := 10000.
Definition MAX_TREE_ENTRIES : Z := 100000.
Definition MAX_REQUEST_ID_BYTES : Z := 64.
Definition MAX_FRAME_BYTES : Z := 16 * 1024 * 1024.

Inductive ObjectFormat := Sha1 | Sha256.
#[export] Instance ObjectFormat_eq_dec : EqDecision ObjectFormat.
Proof. solve_decision. Defined.
Definition oid_bytes (f : ObjectFormat) : Z := match f with Sha1 => 20 | Sha256 => 32 end.

Record ObjectId := mkOid { oid_format : ObjectFormat; oid_value : bytes }.
Inductive TreeMode := Directory | File.
#[export] Instance TreeMode_eq_dec : EqDecision TreeMode.
Proof. solve_decision. Defined.
Record TreeEntry := mkTreeEntry {
  te_path : list string; te_mode : TreeMode; te_object_id : ObjectId; te_size : Z
}.
Inductive ChangeKind := Upsert | DeletePath.
Record TreeChange := mkChange { tc_path : list string; tc_kind : ChangeKind; tc_entry : option TreeEntry }.
Record OperationFence := mkFence {
  fence_tenant_id : N; fence_directory_root_id : N; fence_operation_id : N; fence_token : Z
}.

Inductive ValidationError :=
| FrameTooLarge | FrameLength | FrameCodec | FrameIo | ERequestId | EMissingOperation | EFence
| EObjectId | ETreeEntries | EPath | EPathCollision | EPathOrder | EMissingAncestor | ETreeEntry
| EGitDirectory | EFileBeltKeep | EChangedPaths | EChange | ECommitChain | EPackSize | EContract
| EResponseMismatch.

Definition frame_error (e : FrameError) : ValidationError :=
  match e with
  | TooLarge => FrameTooLarge
  | InvalidLength => FrameLength
  | Decode | Encode => FrameCodec
  | Io => FrameIo
  end.
Definition dr_encode_frame {M} `{ProstMessage M} (m : M) : result ValidationError bytes :=
  map_err frame_error (encode_frame MAX_FRAME_BYTES m).
Definition dr_decode_frame {M} `{ProstMessage M} (frame : bytes) : result ValidationError M :=
  map_err frame_error (decode_frame MAX_FRAME_BYTES frame).
Definition dr_read_frame {M} `{ProstMessage M} (stream : bytes) : result ValidationError (M * bytes) :=
  map_err frame_error (read_frame MAX_FRAME_BYTES stream).
Definition dr_write_frame {M} `{ProstMessage M} (written : bytes) (m : M) : result ValidationError bytes :=
  map_err frame_error (write_frame MAX_FRAME_BYTES written m).

(** ** Bounded values *)

Definition validate_fence (f : OperationFence) : result ValidationError unit :=
  if uuid_is_nil (fence_tenant_id f) || uuid_is_nil (fence_directory_root_id f)
     || uuid_is_nil (fence_operation_id f) || (fence_token f =? 0)
  then Err EFence else Ok tt.

Definition validate_object_id (o : ObjectId) (expected : ObjectFormat) : result ValidationError unit :=
  if negb (bool_decide (oid_format o = expected)) || negb (len (oid_value o) =? oid_bytes expected)
     || forallb (fun b => byte_val b =? 0) (oid_value o)
  then Err EObjectId else Ok tt.

Definition validate_entry (e : TreeEntry) (expected : ObjectFormat) : result ValidationError unit :=
  let? _ := validate_object_id (te_object_id e) expected in
  match te_mode e with
  | Directory => if te_size e =? 0 then Ok tt else Err ETreeEntry
  | File => if te_size e <=? MAX_BLOB_BYTES then Ok tt else Err ETreeEntry
  end.

Definition validate_commit_chain (commits : list ObjectId) (expected : ObjectFormat)
  : result ValidationError unit :=
  if (len commits =? 0) || (MAX_PUSH_COMMITS <? len commits) then Err ECommitChain
  else try_each (fun c => validate_object_id c expected) commits.

Definition validate_pack_size (n : Z) : result ValidationError unit :=
  if MAX_PACK_BYTES <? n then Err EPackSize else Ok tt.

(** ** Paths *)

Section paths.
Context `{UnicodeLib}.

Definition validate_component (component : string) : result ValidationError NormalizedName :=
  match NormalizedName_new component with
  | Err _ => Err EPath
  | Ok n =>
      if negb (String.eqb (display n) component) then Err EPath
      else if String.eqb (comparison_key n) ".git" then Err EGitDirectory
      else Ok n
  end.

Definition validate_path (path : list string) : result ValidationError (list NormalizedName) :=
  match path with
  | [] => Err EPath
  | _ =>
      let? components := try_map validate_component path in
      match from_components components with
      | Err _ => Err EPath
      | Ok _ => Ok components
      end
  end.

(** [split_last]: the last name and the case-folded parent. *)
Definition split_folded (path : list NormalizedName) : option (NormalizedName * list string) :=
  match last path with
  | None => None
  | Some name => Some (name, map comparison_key (removelast path))
  end.

Fixpoint check_siblings (children : btmap (list string) (btmap string string))
    (paths : list (list NormalizedName)) : result ValidationError unit :=
  match paths with
  | [] => Ok tt
  | path :: rest =>
      match split_folded path with
      | None => Err EPath
      | Some (name, parent) =>
          let siblings := default [] (bt_get parent children) in
          if bt_contains (comparison_key name) siblings then Err EPathCollision
          else
            check_siblings
              (bt_insert parent (bt_insert (comparison_key name) (display name) siblings) children) rest
      end
  end.
Definition validate_sibling_casefold_collisions (paths : list (list NormalizedName))
  : result ValidationError unit := check_siblings [] paths.

(** [prior.is_some_and(|path| path >= entry.path_components)] *)
Definition out_of_order (prior : option (list string)) (path : list string) : bool :=
  match prior with
  | None => false
  | Some p => match cmp p path with Lt => false | _ => true end
  end.

(** ** Trees *)

(** The first loop of [validate_tree]: the normalized paths and the modes. *)
Fixpoint scan_entries (expected : ObjectFormat) (prior : option (list string))
    (modes : btmap (list string) TreeMode) (paths : list (list NormalizedName)) (entries : list TreeEntry)
  : result ValidationError (btmap (list string) TreeMode * list (list NormalizedName)) :=
  match entries with
  | [] => Ok (modes, paths)
  | e :: rest =>
      let? path := validate_path (te_path e) in
      if out_of_order prior (te_path e) then Err EPathOrder
      else
        let? _ := validate_entry e expected in
        scan_entries expected (Some (te_path e)) (bt_insert (te_path e) (te_mode e) modes)
          (paths ++ [path]) rest
  end.

Definition starts_with (p prefix : list string) : bool := bool_decide (take (length prefix) p = prefix).

Definition validate_filebeltkeep (entries : list TreeEntry) (keep : TreeEntry)
  : result ValidationError unit :=
  if negb (bool_decide (te_mode keep = File)) || negb (te_size keep =? 0) then Err EFileBeltKeep
  else
    let parent := removelast (te_path keep) in
    if existsb (fun e => (Nat.ltb (length parent) (length (te_path e))) && starts_with (te_path e) parent
                         && negb (bool_decide (te_path e = te_path keep))) entries
    then Err EFileBeltKeep else Ok tt.

(** The second loop of [validate_tree], for one entry. *)
Definition check_entry (entries : list TreeEntry) (modes : btmap (list string) TreeMode) (e : TreeEntry)
  : result ValidationError unit :=
  if negb (forallb (fun n => bool_decide (bt_get (take n (te_path e)) modes = Some Directory))
             (seq 1 (length (te_path e) - 1)))
  then Err EMissingAncestor
  else if bool_decide (last (te_path e) = Some ".filebeltkeep") then validate_filebeltkeep entries e
  else Ok tt.

Definition validate_tree (entries : list TreeEntry) (expected : ObjectFormat)
  : result ValidationError unit :=
  if MAX_TREE_ENTRIES <? len entries then Err ETreeEntries
  else
    match scan_entries expected None [] [] entries with
    | Err e => Err e
    | Ok (modes, paths) =>
        let? _ := validate_sibling_casefold_collisions paths in
        try_each (check_entry entries modes) entries
    end.

Definition validate_change (c : TreeChange) (expected : ObjectFormat) : result ValidationError unit :=
  match tc_kind c, tc_entry c with
  | DeletePath, None => Ok tt
  | Upsert, Some e =>
      if bool_decide (te_path e = tc_path c) then validate_entry e expected else Err EChange
  | _, _ => Err EChange
  end.

Fixpoint scan_changes (expected : ObjectFormat) (prior : option (list string))
    (paths : list (list NormalizedName)) (changes : list TreeChange)
  : result ValidationError (list (list NormalizedName)) :=
  match changes with
  | [] => Ok paths
  | c :: rest =>
      let? path := validate_path (tc_path c) in
      if out_of_order prior (tc_path c) then Err EPathOrder
      else
        let? _ := validate_change c expected in
        scan_changes expected (Some (tc_path c)) (paths ++ [path]) rest
  end.

Definition validate_changes (changes : list TreeChange) (expected : ObjectFormat)
  : result ValidationError unit :=
  if MAX_CHANGED_PATHS_PER_COMMIT <? len changes then Err EChangedPaths
  else
    let? paths := scan_changes expected None [] changes in
    validate_sibling_casefold_collisions paths.
End paths.

(** ** Wire messages *)

Record DirectoryRepositoryFence := mkWireFence {
  wf_tenant_id : string; wf_directory_root_id : string; wf_operation_id : string; wf_fencing_token : Z
}.
Record GitObjectId := mkWireOid { wo_format : Z; wo_value : bytes }.
#[export] Instance GitObjectId_eq_dec : EqDecision GitObjectId.
Proof. solve_decision. Defined.
Record DirectoryRepositoryTreeEntry := mkWireEntry {
  we_path : list string; we_mode : Z; we_object_id : option GitObjectId; we_size : Z
}.
#[export] Instance WireEntry_eq_dec : EqDecision DirectoryRepositoryTreeEntry.
Proof. solve_decision. Defined.
Record DirectoryRepositoryTreeChange := mkWireChange {
  wc_path : list string; wc_kind : Z; wc_mode : Z; wc_object_id : option GitObjectId; wc_size : Z
}.

Inductive Operation :=
| Prepare (fence : option DirectoryRepositoryFence) (object_format : Z) (expected_head : option GitObjectId)
| Stage (fence : option DirectoryRepositoryFence) (changes : list DirectoryRepositoryTreeChange)
    (object_format : Z)
| Verify (fence : option DirectoryRepositoryFence) (object_format : Z)
    (entries : list DirectoryRepositoryTreeEntry) (commits : list GitObjectId) (pack_size_bytes : Z)
| Promote (fence : option DirectoryRepositoryFence) (expected_head new_head : option GitObjectId)
    (commits : list GitObjectId)
| Rollback (fence : option DirectoryRepositoryFence) (expected_head rollback_head : option GitObjectId)
| Advertise (fence : option DirectoryRepositoryFence) (maximum_entries : Z)
| Fsck (fence : option DirectoryRepositoryFence)
| Gc (fence : option DirectoryRepositoryFence) (maximum_reclaim_bytes : Z).
Record DirectoryRepositoryExecuteRequest := mkDrRequest {
  dq_request_id : string; dq_operation : option Operation
}.

Record DirectoryRepositoryAccepted := mkAccepted { ac_head : option GitObjectId; ac_tree : option GitObjectId }.
Inductive ExecuteResult :=
| Accepted (a : DirectoryRepositoryAccepted)
| TreeInspection (object_format : Z) (entries : list DirectoryRepositoryTreeEntry)
    (commit_count pack_size_bytes : Z)
| Advertisement (object_format : Z) (head : option GitObjectId) (entry_count : Z)
| FsckResult (checked_objects checked_entries : Z)
| GcResult (reclaimed_bytes remaining_pack_bytes : Z)
| ErrorResult (code : Z) (message : string).
Record DirectoryRepositoryExecuteResponse := mkDrResponse {
  dp_request_id : string; dp_result : option ExecuteResult
}.

(** [GitObjectFormat::try_from], [GitTreeMode::try_from] and
    [DirectoryRepositoryChangeKind::try_from] on the values that are used. *)
Definition wire_format (value : Z) (allow_default : bool) : result ValidationError ObjectFormat :=
  if value =? 1 then Ok Sha1
  else if value =? 2 then Ok Sha256
  else if (value =? 0) && allow_default then Ok Sha256
  else Err EObjectId.
Definition tree_mode_try_from (value : Z) : option TreeMode :=
  if value =? 1 then Some Directory else if value =? 2 then Some File else None.
Definition change_kind_try_from (value : Z) : option ChangeKind :=
  if value =? 1 then Some Upsert else if value =? 2 then Some DeletePath else None.

Definition wire_object_id (v : GitObjectId) (expected : ObjectFormat) : result ValidationError ObjectId :=
  let? f := wire_format (wo_format v) false in
  let o := mkOid f (wo_value v) in
  let? _ := validate_object_id o expected in
  Ok o.
Definition required_wire_object_id (v : option GitObjectId) : result ValidationError ObjectId :=
  let? v := ok_or EObjectId v in
  let? f := wire_format (wo_format v) false in
  wire_object_id v f.
Definition validate_optional_wire_object_id (v : option GitObjectId) (expected : ObjectFormat)
  : result ValidationError unit :=
  match v with
  | None => Ok tt
  | Some v => let? _ := wire_object_id v expected in Ok tt
  end.
Definition required_wire_object_id_with_format (v : option GitObjectId) (expected : ObjectFormat)
  : result ValidationError ObjectId :=
  let? v := ok_or EObjectId v in wire_object_id v expected.

Definition wire_tree_entry (v : DirectoryRepositoryTreeEntry) (expected : ObjectFormat)
  : result ValidationError TreeEntry :=
  match tree_mode_try_from (we_mode v) with
  | None => Err ETreeEntry
  | Some mode =>
      let? o := required_wire_object_id_with_format (we_object_id v) expected in
      Ok (mkTreeEntry (we_path v) mode o (we_size v))
  end.

Definition wire_change (c : DirectoryRepositoryTreeChange) (expected : ObjectFormat)
  : result ValidationError TreeChange :=
  match change_kind_try_from (wc_kind c) with
  | None => Err EChange
  | Some DeletePath =>
      if negb (wc_mode c =? 0) || negb (bool_decide (wc_object_id c = None)) || negb (wc_size c =? 0)
      then Err EChange
      else Ok (mkChange (wc_path c) DeletePath None)
  | Some Upsert =>
      let? o := required_wire_object_id_with_format (wc_object_id c) expected in
      match tree_mode_try_from (wc_mode c) with
      | None => Err EChange
      | Some mode => Ok (mkChange (wc_path c) Upsert (Some (mkTreeEntry (wc_path c) mode o (wc_size c))))
      end
  end.

Definition validate_accepted (a : DirectoryRepositoryAccepted) (f : ObjectFormat)
  : result ValidationError unit :=
  let? _ := validate_optional_wire_object_id (ac_head a) f in
  validate_optional_wire_object_id (ac_tree a) f.

Definition validate_accepted_head (a : DirectoryRepositoryAccepted) (expected : option GitObjectId)
  : result ValidationError unit :=
  let? h := ok_or EObjectId expected in
  if negb (bool_decide (ac_head a = Some h)) then Err EResponseMismatch
  else let? f := wire_format (wo_format h) false in validate_accepted a f.

Definition validate_error (code : Z) (message : string) : result ValidationError unit :=
  if negb ((1 <=? code) && (code <=? 7)) || String.eqb message "" || (4096 <? str_len message)
  then Err EContract else Ok tt.

Section requests.
Context `{UuidLib, UnicodeLib}.

Definition validate_request_id (value : string) : result ValidationError unit :=
  if (MAX_REQUEST_ID_BYTES <? str_len value)
     || match uuid_parse_str value with None => true | Some _ => false end
  then Err ERequestId else Ok tt.

Definition wire_fence (v : option DirectoryRepositoryFence) : result ValidationError OperationFence :=
  let? v := ok_or EFence v in
  let? t := ok_or EFence (uuid_parse_str (wf_tenant_id v)) in
  let? d := ok_or EFence (uuid_parse_str (wf_directory_root_id v)) in
  let? o := ok_or EFence (uuid_parse_str (wf_operation_id v)) in
  Ok (mkFence t d o (wf_fencing_token v)).

Definition check_fence (v : option DirectoryRepositoryFence) : result ValidationError unit :=
  let? f := wire_fence v in validate_fence f.

Definition validate_wire_changes (changes : list DirectoryRepositoryTreeChange) (expected : ObjectFormat)
  : result ValidationError unit :=
  if MAX_CHANGED_PATHS_PER_COMMIT <? len changes then Err EChangedPaths
  else
    let? translated := try_map (fun c => wire_change c expected) changes in
    validate_changes translated expected.

Definition validate_operation (o : Operation) : result ValidationError unit :=
  match o with
  | Prepare fence object_format expected_head =>
      let? f := wire_fence fence in
      let? fmt := wire_format object_format false in
      let? _ := validate_fence f in
      validate_optional_wire_object_id expected_head fmt
  | Stage fence changes object_format =>
      let? _ := check_fence fence in
      let? fmt := wire_format object_format false in
      validate_wire_changes changes fmt
  | Verify fence object_format entries commits pack_size_bytes =>
      let? _ := check_fence fence in
      let? fmt := wire_format object_format false in
      if MAX_TREE_ENTRIES <? len entries then Err ETreeEntries
      else if (len commits =? 0) || (MAX_PUSH_COMMITS <? len commits) then Err ECommitChain
      else
        let? entries := try_map (fun e => wire_tree_entry e fmt) entries in
        let? commits := try_map (fun c => wire_object_id c fmt) commits in
        let? _ := validate_tree entries fmt in
        let? _ := validate_commit_chain commits fmt in
        validate_pack_size pack_size_bytes
  | Promote fence expected_head new_head commits =>
      let? _ := check_fence fence in
      if (len commits =? 0) || (MAX_PUSH_COMMITS <? len commits) then Err ECommitChain
      else
        let? h := required_wire_object_id new_head in
        let? _ := validate_optional_wire_object_id expected_head (oid_format h) in
        let? commits := try_map (fun c => wire_object_id c (oid_format h)) commits in
        validate_commit_chain commits (oid_format h)
  | Rollback fence expected_head rollback_head =>
      let? _ := check_fence fence in
      let? h := required_wire_object_id rollback_head in
      validate_optional_wire_object_id expected_head (oid_format h)
  | Advertise fence maximum_entries =>
      let? _ := check_fence fence in
      if MAX_TREE_ENTRIES <? maximum_entries then Err ETreeEntries else Ok tt
  | Fsck fence => check_fence fence
  | Gc fence maximum_reclaim_bytes =>
      let? _ := check_fence fence in
      if MAX_PACK_BYTES <? maximum_reclaim_bytes then Err EPackSize else Ok tt
  end.

Definition validate_request (q : DirectoryRepositoryExecuteRequest) : result ValidationError unit :=
  let? _ := validate_request_id (dq_request_id q) in
  let? o := ok_or EMissingOperation (dq_operation q) in
  validate_operation o.

Definition validate_result (o : Operation) (r : ExecuteResult) : result ValidationError unit :=
  match o, r with
  | Verify _ object_format entries commits pack, TreeInspection fmt' entries' commit_count pack' =>
      let? fmt := wire_format object_format false in
      let? f' := wire_format fmt' false in
      if negb (bool_decide (f' = fmt)) || negb (commit_count =? len commits mod (u32_max + 1))
         || negb (pack' =? pack) || negb (bool_decide (entries' = entries))
      then Err EResponseMismatch
      else
        let? es := try_map (fun e => wire_tree_entry e fmt) entries' in
        validate_tree es fmt
  | Advertise _ maximum_entries, Advertisement fmt head entry_count =>
      let? f := wire_format fmt false in
      if maximum_entries <? entry_count then Err EResponseMismatch
      else validate_optional_wire_object_id head f
  | Fsck _, FsckResult _ checked_entries =>
      if MAX_TREE_ENTRIES <? checked_entries then Err ETreeEntries else Ok tt
  | Gc _ maximum, GcResult reclaimed remaining =>
      if (maximum <? reclaimed) || (MAX_PACK_BYTES <? remaining) then Err EResponseMismatch else Ok tt
  | Prepare _ fmt _, Accepted a => let? f := wire_format fmt false in validate_accepted a f
  | Stage _ _ fmt, Accepted a => let? f := wire_format fmt false in validate_accepted a f
  | Promote _ _ new_head _, Accepted a => validate_accepted_head a new_head
  | Rollback _ _ rollback_head, Accepted a => validate_accepted_head a rollback_head
  | _, _ => Err EResponseMismatch
  end.

Definition validate_response (q : DirectoryRepositoryExecuteRequest) (r : DirectoryRepositoryExecuteResponse)
  : result ValidationError unit :=
  let? _ := validate_request q in
  let? _ := validate_request_id (dp_request_id r) in
  if negb (String.eqb (dp_request_id r) (dq_request_id q)) then Err EResponseMismatch
  else
    let? o := ok_or EMissingOperation (dq_operation q) in
    let? res := ok_or EMissingOperation (dp_result r) in
    match res with
    | ErrorResult code message => validate_error code message
    | _ => validate_result o res
    end.
End requests.

(** ** Canonical trees *)

Definition folded (p : list NormalizedName) : list string := map comparison_key p.

Section sibling_lemmas.

(** [fp] is recorded as a child of its parent. *)
Definition occupied (children : btmap (list string) (btmap string string)) (parent : list string)
    (key : string) : Prop :=
  exists siblings, bt_get parent children = Some siblings /\ is_Some (bt_get key siblings).

Record children_wf (children : btmap (list string) (btmap string string)) : Prop := {
  cw_outer : bt_wf children;
  cw_inner : forall parent siblings, bt_get parent children = Some siblings -> bt_wf siblings
}.

Lemma split_folded_Some p name parent :
  split_folded p = Some (name, parent) ->
  folded p = parent ++ [comparison_key name] /\ p <> [].
Proof.
  unfold split_folded, folded. destruct (last p) as [n|] eqn:Hl; [|done]. intros [= <- <-].
  apply last_Some in Hl as [q ->]. rewrite removelast_last, map_app. split; [done|]. by destruct q.
Qed.

Lemma split_folded_None p : split_folded p = None <-> p = [].
Proof.
  unfold split_folded. destruct (last p) as [n|] eqn:Hl; [|by apply last_None in Hl].
  split; [done|]. intros ->. done.
Qed.

Lemma children_insert children parent name_key name_display :
  children_wf children ->
  bt_contains name_key (default [] (bt_get parent children)) = false ->
  let children' :=
    bt_insert parent (bt_insert name_key name_display (default [] (bt_get parent children))) children in
  children_wf children' /\
  (forall q k, occupied children' q k <-> (q = parent /\ k = name_key) \/ occupied children q k).
Proof.
  intros [Ho Hi] Hc children'. set (sib := default [] (bt_get parent children)) in *.
  assert (bt_wf sib) as Hsib.
  { subst sib. destruct (bt_get parent children) eqn:Hg; simpl; [by eapply Hi|constructor]. }
  assert (forall q, bt_get q children' = if decide (q = parent) then Some (bt_insert name_key name_display sib)
                                         else bt_get q children) as Hget.
  { intros q. subst children'. by apply bt_get_insert. }
  assert (forall k, bt_get k (bt_insert name_key name_display sib)
                    = if decide (k = name_key) then Some name_display else bt_get k sib) as Hsg.
  { intros k. by apply bt_get_insert. }
  split.
  - split; [by apply bt_insert_wf|]. intros q s. rewrite Hget. case_decide; [|apply Hi].
    intros [= <-]. by apply bt_insert_wf.
  - intros q k. unfold occupied. rewrite Hget. case_decide as Hq; [|naive_solver].
    subst q. setoid_rewrite (inj_iff Some). split.
    + intros (s & <- & Hs). rewrite Hsg in Hs. case_decide; [naive_solver|]. right.
      subst sib. destruct (bt_get parent children) as [s|]; simpl in Hs; [eauto|by destruct Hs].
    + intros [[_ ->]|(s & Hs & Hk)]; (eexists; split; [reflexivity|]); rewrite Hsg;
        [rewrite decide_True by done; eauto|].
      case_decide; [eauto|]. subst sib. by rewrite Hs.
Qed.

Lemma snoc_inj {A} (l1 l2 : list A) x y : l1 ++ [x] = l2 ++ [y] <-> l1 = l2 /\ x = y.
Proof. split; [apply app_inj_tail|]. by intros [-> ->]. Qed.

Lemma check_siblings_iff children paths :
  children_wf children ->
  check_siblings children paths = Ok tt <->
  Forall (fun p => p <> []) paths /\ NoDup (map folded paths) /\
  (forall p parent key, p ∈ paths -> folded p = parent ++ [key] -> ~ occupied children parent key).
Proof.
  revert children. induction paths as [|p paths IH]; intros children Hwf; cbn [check_siblings map].
  { rewrite Forall_nil. split; [|done]. intros _. split; [done|]. split; [constructor|].
    intros p parent key Hp. by apply not_elem_of_nil in Hp. }
  rewrite Forall_cons, NoDup_cons.
  destruct (split_folded p) as [[name parent]|] eqn:Hs.
  2: { apply split_folded_None in Hs as ->. naive_solver. }
  apply split_folded_Some in Hs as [Hp Hne]. cbv zeta.
  destruct (bt_contains _ _) eqn:Hc.
  - split; [done|]. intros (_ & _ & Hno). exfalso. apply (Hno p parent (comparison_key name)); [left|done|].
    apply bt_contains_true in Hc. unfold occupied.
    destruct (bt_get parent children) as [s|]; simpl in Hc; [eauto|by destruct Hc].
  - destruct (children_insert children parent (comparison_key name) (display name) Hwf Hc) as [Hwf' Hocc].
    rewrite (IH _ Hwf'). setoid_rewrite Hocc. split.
    + intros (Hf & Hnd & Hno). split; [done|]. split; [split; [|done]|].
      * rewrite Hp. intros (q & Hq & Hqin)%list_elem_of_fmap.
        apply (Hno q parent (comparison_key name) Hqin); [done|]. by left.
      * intros q par key [->|Hq]%elem_of_cons Hfq Hoc.
        -- rewrite Hp in Hfq. apply snoc_inj in Hfq as [<- <-]. unfold occupied in Hoc.
           destruct Hoc as (s & Hs & Hk). rewrite Hs in Hc. simpl in Hc.
           apply bt_contains_true in Hk. congruence.
        -- apply (Hno q par key Hq Hfq). by right.
    + intros ([_ Hf] & [Hnin Hnd] & Hno). split; [done|]. split; [done|].
      intros q par key Hq Hfq [[-> ->]|Hoc].
      * apply Hnin. apply list_elem_of_fmap. exists q. split; [congruence|done].
      * apply (Hno q par key); [by right|done|done].
Qed.
End sibling_lemmas.

Section tree_lemmas.
Context `{UnicodeLib}.

(** Consecutive paths strictly ascend. *)
Fixpoint ascending (prior : option (list string)) (paths : list (list string)) : Prop :=
  match paths with
  | [] => True
  | p :: rest => out_of_order prior p = false /\ ascending (Some p) rest
  end.

Lemma ascending_Some q paths : ascending (Some q) paths <-> StronglySorted olt (q :: paths).
Proof.
  revert q. induction paths as [|p paths IH]; intros q; cbn [ascending].
  - split; [|done]. intros _. by repeat constructor.
  - rewrite IH. unfold out_of_order. split.
    + intros [Hc Hs]. constructor; [done|]. apply StronglySorted_inv in Hs as Hs'. destruct Hs' as [_ Hs'].
      assert (olt q p) as Hqp by (unfold olt; by destruct (cmp q p)).
      constructor; [done|]. eapply Forall_impl; [exact Hs'|]. intros x Hx. by eapply cmp_trans.
    + intros [Hs Hq]%StronglySorted_inv. apply Forall_cons in Hq as [Hq _]. unfold olt in Hq.
      by rewrite Hq.
Qed.

Lemma ascending_None paths : ascending None paths <-> StronglySorted olt paths.
Proof.
  destruct paths as [|p paths]; cbn [ascending].
  - split; [constructor|done].
  - rewrite ascending_Some. simpl. tauto.
Qed.

Definition insert_modes (modes : btmap (list string) TreeMode) (entries : list TreeEntry) :=
  fold_left (fun m e => bt_insert (te_path e) (te_mode e) m) entries modes.

Lemma scan_entries_iff f prior modes paths entries modes' paths' :
  scan_entries f prior modes paths entries = Ok (modes', paths') <->
  exists ps, Forall2 (fun e p => validate_path (te_path e) = Ok p) entries ps /\
    paths' = paths ++ ps /\ ascending prior (map te_path entries) /\
    Forall (fun e => validate_entry e f = Ok tt) entries /\ modes' = insert_modes modes entries.
Proof.
  revert prior modes paths. induction entries as [|e entries IH]; intros prior modes paths;
    cbn [scan_entries].
  - split.
    + intros [= <- <-]. exists []. rewrite app_nil_r. by repeat split; try constructor.
    + intros (ps & Hps & -> & _ & _ & ->). inversion Hps. by rewrite app_nil_r.
  - rewrite bind_Ok. split.
    + intros (p & Hp & Hr). rewrite guard_Ok in Hr. destruct Hr as [Ho Hr].
      destruct (validate_entry e f) as [[]|] eqn:He; [|done]. apply IH in Hr as (ps & Hps & -> & Ha & Hv & ->).
      exists (p :: ps). rewrite <-app_assoc. split; [by constructor|]. split; [done|].
      split; [done|]. split; [by constructor|done].
    + intros (ps & Hps & -> & [Ho Ha] & Hv & ->). inversion Hps as [|? p ? ps' Hp Hps']; subst.
      apply Forall_cons in Hv as [He Hv]. exists p. split; [done|]. rewrite guard_Ok. split; [done|].
      rewrite He. apply IH. exists ps'. rewrite <-app_assoc. done.
Qed.

Lemma insert_modes_get modes entries k :
  bt_wf modes -> NoDup (map te_path entries) -> (forall e, e ∈ entries -> bt_get (te_path e) modes = None) ->
  bt_wf (insert_modes modes entries) /\
  forall v, bt_get k (insert_modes modes entries) = Some v <->
    bt_get k modes = Some v \/ exists e, e ∈ entries /\ te_path e = k /\ te_mode e = v.
Proof.
  revert modes. induction entries as [|e entries IH]; intros modes Hwf Hnd Hno; cbn [insert_modes fold_left].
  - split; [done|]. intros v. split; [auto|]. intros [?|(e & He & _)]; [done|]. by apply not_elem_of_nil in He.
  - cbn [map] in Hnd. rewrite NoDup_cons in Hnd. destruct Hnd as [Hnin Hnd].
    assert (forall x, bt_get x (bt_insert (te_path e) (te_mode e) modes)
              = if decide (x = te_path e) then Some (te_mode e) else bt_get x modes) as Hg
      by (intros; by apply bt_get_insert).
    destruct (IH (bt_insert (te_path e) (te_mode e) modes)) as [Hwf' Hget]; [by apply bt_insert_wf|done| |].
    { intros e' He'. rewrite Hg, decide_False; [apply Hno; by right|]. intros Heq. apply Hnin.
      rewrite <-Heq. by apply list_elem_of_fmap_2. }
    split; [exact Hwf'|]. intros v. etransitivity; [apply Hget|]. rewrite Hg.
    pose proof (Hno e ltac:(left)) as Hnone. case_decide as Hk.
    + subst k. split.
      * intros [[= <-]|(e' & He' & Hp & <-)]; right; [exists e; split; [left|done]|].
        exists e'. split; [by right|done].
      * intros [Hc|(e' & [->|He']%elem_of_cons & Hp & <-)]; [congruence|by left|]. right. eauto.
    + split.
      * intros [?|(e' & He' & Hp & <-)]; [by left|right]. exists e'. split; [by right|done].
      * intros [?|(e' & [->|He']%elem_of_cons & Hp & <-)]; [by left|congruence|]. right. eauto.
Qed.
End tree_lemmas.

Section trees.
Context `{UnicodeLib}.

(** A path in canonical form: its components are normalized display names, none
    folds to [.git], and the whole is a legal logical path. *)
Definition canonical_path (path : list string) (names : list NormalizedName) : Prop :=
  path <> [] /\ map display names = path /\
  Forall (fun n => NormalizedName_new (display n) = Ok n /\ comparison_key n <> ".git") names /\
  validate_path_limits names = Ok tt.

Lemma validate_component_Ok c n :
  validate_component c = Ok n <->
  display n = c /\ NormalizedName_new (display n) = Ok n /\ comparison_key n <> ".git".
Proof.
  unfold validate_component. destruct (NormalizedName_new c) as [n'|] eqn:Hn.
  - rewrite !guard_Ok, negb_false_iff, String.eqb_eq, String.eqb_neq. split.
    + intros (Hd & Hk & [= <-]). rewrite Hd. done.
    + intros (<- & Hnew & Hk). rewrite Hn in Hnew. injection Hnew as ->. done.
  - split; [done|]. intros (<- & Hnew & _). congruence.
Qed.

Lemma validate_path_Ok path names : validate_path path = Ok names <-> canonical_path path names.
Proof.
  unfold validate_path, canonical_path. destruct path as [|c path]; [naive_solver|].
  rewrite bind_Ok. setoid_rewrite try_map_Ok. unfold from_components.
  assert (forall path names, Forall2 (fun x y => validate_component x = Ok y) path names <->
    map display names = path /\
    Forall (fun n => NormalizedName_new (display n) = Ok n /\ comparison_key n <> ".git") names) as Hf2.
  { clear. intros path names. split.
    - induction 1 as [|x y path names Hx Hall IH]; [by split|]. simpl.
      apply validate_component_Ok in Hx as (<- & Hn & Hk). destruct IH as [<- IH]. by repeat constructor.
    - intros [<- Hall]. induction Hall as [|n names [Hn Hk] Hall IH]; [constructor|]. simpl.
      constructor; [|done]. by apply validate_component_Ok. }
  setoid_rewrite Hf2. split.
  - intros (ns & [Hm Hall] & Hl). destruct (validate_path_limits ns) as [[]|] eqn:Hv; [|done].
    injection Hl as <-. done.
  - intros (_ & Hm & Hall & Hv). exists names. rewrite Hv. done.
Qed.

(** The comparison path of [path]: its components folded. *)
Definition folded_path (path : list string) : list string := map default_case_fold path.

Lemma canonical_folded path names : canonical_path path names -> folded names = folded_path path.
Proof.
  intros (_ & <- & Hall & _). unfold folded, folded_path. rewrite map_map.
  induction Hall as [|n names [Hn _] Hall IH]; [done|]. simpl. f_equal; [|done].
  unfold NormalizedName_new in Hn. destruct (validate_display_name _); [|done].
  injection Hn as Hn. pose proof (f_equal display Hn) as H1. pose proof (f_equal comparison_key Hn) as H2.
  cbn [display comparison_key] in H1, H2. by rewrite <-H2, H1.
Qed.

(** An entry with an object id of the tree's format, of its length and not zero, whose size is
    zero for a directory and within the bound of a blob for a file. *)
Record legal_entry (e : TreeEntry) (f : ObjectFormat) : Prop := {
  le_format : oid_format (te_object_id e) = f;
  le_length : len (oid_value (te_object_id e)) = match f with Sha1 => 20 | Sha256 => 32 end;
  le_nonzero : exists b, b ∈ oid_value (te_object_id e) /\ byte_val b <> 0;
  le_size : match te_mode e with Directory => te_size e = 0 | File => te_size e <= MAX_BLOB_BYTES end
}.
Lemma validate_entry_Ok e f : validate_entry e f = Ok tt <-> legal_entry e f.
Proof.
  assert (forallb (fun b => byte_val b =? 0) (oid_value (te_object_id e)) = false <-> exists b, b ∈ oid_value (te_object_id e) /\ byte_val b <> 0) as Hzero.
  { induction (oid_value (te_object_id e)) as [|b l IH]; cbn [forallb]; [split; [done|by intros (b & ?%elem_of_nil & _)]|]. rewrite andb_false_iff, Z.eqb_neq, IH. setoid_rewrite elem_of_cons. naive_solver. }
  unfold validate_entry, validate_object_id. split.
  - destruct (_ || _) eqn:Ho; [done|]. rewrite !orb_false_iff, !negb_false_iff, bool_decide_eq_true, Z.eqb_eq, Hzero in Ho. destruct Ho as [[Hf Hl] Hz]. intros Hm. split; [done|by destruct f|done|].
    destruct (te_mode e); (case_match eqn:Hs; [|done]); [by apply Z.eqb_eq in Hs|by apply Z.leb_le in Hs].
  - intros [Hf Hl Hz Hs]. rewrite (bool_decide_eq_true_2 _ Hf), (proj2 Hzero Hz). assert (len (oid_value (te_object_id e)) = oid_bytes f) as -> by (by destruct f). rewrite Z.eqb_refl. cbn [negb orb].
    destruct (te_mode e); [by rewrite Hs|by rewrite (proj2 (Z.leb_le _ _) Hs)].
Qed.

(** The trees [validate_tree] accepts. *)
Record canonical_tree (entries : list TreeEntry) (f : ObjectFormat) : Prop := {
  ct_count : len entries <= MAX_TREE_ENTRIES;
  ct_paths : Forall (fun e => exists names, canonical_path (te_path e) names) entries;
  ct_sorted : StronglySorted olt (map te_path entries);
  ct_entries : Forall (fun e => legal_entry e f) entries;
  ct_folded : NoDup (map (fun e => folded_path (te_path e)) entries);
  ct_ancestors : forall e n, e ∈ entries -> (1 <= n < length (te_path e))%nat ->
    exists d, d ∈ entries /\ te_path d = take n (te_path e) /\ te_mode d = Directory;
  ct_keep : forall e, e ∈ entries -> last (te_path e) = Some ".filebeltkeep" ->
    te_mode e = File /\ te_size e = 0 /\
    (forall e', e' ∈ entries -> removelast (te_path e) `prefix_of` te_path e' ->
       te_path e' = te_path e \/ te_path e' = removelast (te_path e))
}.

Lemma sorted_NoDup {A} `{OrdLaws A} (l : list A) : StronglySorted olt l -> NoDup l.
Proof.
  induction 1 as [|x l Hl IH Hx]; constructor; [|done]. intros Hin.
  rewrite Forall_forall in Hx. by apply (olt_irrefl x), Hx.
Qed.

Lemma starts_with_true p prefix : starts_with p prefix = true <-> prefix `prefix_of` p.
Proof.
  unfold starts_with. rewrite bool_decide_eq_true. split.
  - intros <-. exists (drop (length prefix) p). by rewrite take_drop.
  - intros [k ->]. by rewrite take_app_length.
Qed.

Lemma prefix_length_eq {A} (l k : list A) : l `prefix_of` k -> length k = length l -> k = l.
Proof. intros [r ->] Hlen. rewrite length_app in Hlen. destruct r; [by rewrite app_nil_r|simpl in Hlen; lia]. Qed.

Lemma validate_filebeltkeep_Ok entries e :
  validate_filebeltkeep entries e = Ok tt <->
  te_mode e = File /\ te_size e = 0 /\
  (forall e', e' ∈ entries -> removelast (te_path e) `prefix_of` te_path e' ->
     te_path e' = te_path e \/ te_path e' = removelast (te_path e)).
Proof.
  unfold validate_filebeltkeep. rewrite !guard_Ok. autorewrite with bools.
  rewrite <-not_true_iff_false, existsb_exists.
  assert (forall e', ((Nat.ltb (length (removelast (te_path e))) (length (te_path e')))
      && starts_with (te_path e') (removelast (te_path e)) && negb (bool_decide (te_path e' = te_path e))) = true <->
    (length (removelast (te_path e)) < length (te_path e'))%nat /\
    removelast (te_path e) `prefix_of` te_path e' /\ te_path e' <> te_path e) as Hb.
  { intros e'. rewrite !andb_true_iff, starts_with_true, Nat.ltb_lt, negb_true_iff, bool_decide_eq_false. tauto. }
  setoid_rewrite Hb. setoid_rewrite <-list_elem_of_In. split.
  - intros ((Hm & Hs) & Hno & _). split; [done|]. split; [done|]. intros e' He' Hpre.
    destruct (decide (te_path e' = te_path e)) as [|Hne]; [by left|]. right.
    apply prefix_length_eq; [done|]. pose proof (prefix_length _ _ Hpre).
    destruct (Nat.eq_dec (length (te_path e')) (length (removelast (te_path e)))); [done|].
    exfalso. apply Hno. exists e'. split; [done|]. split; [lia|done].
  - intros (Hm & Hs & Hall). split; [done|]. split; [|done].
    intros (e' & He' & Hlt & Hpre & Hne). destruct (Hall e' He' Hpre) as [|Heq]; [done|].
    rewrite Heq in Hlt. lia.
Qed.

Lemma check_entry_Ok entries modes e :
  check_entry entries modes e = Ok tt <->
  (forall n, (1 <= n < length (te_path e))%nat -> bt_get (take n (te_path e)) modes = Some Directory) /\
  (last (te_path e) = Some ".filebeltkeep" -> validate_filebeltkeep entries e = Ok tt).
Proof.
  unfold check_entry. rewrite guard_Ok, negb_false_iff, forallb_forall.
  setoid_rewrite bool_decide_eq_true. setoid_rewrite in_seq. f_equiv.
  - split; intros Hx n Hn; apply Hx; lia.
  - case_bool_decide; [|naive_solver]. naive_solver.
Qed.

Lemma insert_modes_root entries k :
  NoDup (map te_path entries) ->
  (bt_get k (insert_modes [] entries) = Some Directory <->
   exists e, e ∈ entries /\ te_path e = k /\ te_mode e = Directory).
Proof.
  intros Hnd. destruct (insert_modes_get [] entries k) as [_ Hget]; [constructor|done|done|].
  rewrite Hget. simpl. naive_solver.
Qed.

Lemma folded_names entries ps :
  Forall2 (fun e p => validate_path (te_path e) = Ok p) entries ps ->
  map folded ps = map (fun e => folded_path (te_path e)) entries /\ Forall (fun p => p <> []) ps.
Proof.
  induction 1 as [|e p entries ps Hp Hall IH]; [by split|]. simpl. destruct IH as [-> IH].
  apply validate_path_Ok in Hp. split; [by rewrite (canonical_folded _ _ Hp)|].
  constructor; [|done]. destruct Hp as (Hne & Hm & _). intros ->. simpl in Hm. done.
Qed.

(** ** Properties *)

(** C38. [validate_tree] accepts exactly the canonical trees: bounded, every path
    made of normalized names with no [.git] in any case folding, strictly sorted,
    unique even after case folding, every ancestor present as a directory, every
    entry with a nonzero object id of the right format and length and a legal size, and every
    [.filebeltkeep] an empty file that is alone in its directory. *)
Theorem validate_tree_canonical entries f :
  validate_tree entries f = Ok tt <-> canonical_tree entries f.
Proof.
  unfold validate_tree. rewrite guard_Ok, Z.ltb_ge. split.
  - intros [Hlen Hr]. destruct (scan_entries f None [] [] entries) as [[modes paths]|] eqn:Hs; [|done].
    apply scan_entries_iff in Hs as (ps & Hps & -> & Ha & Hv & ->). apply ascending_None in Ha.
    rewrite seq_Ok, try_each_Ok in Hr. destruct Hr as [Hsib Hall]. cbn [app] in *.
    destruct (folded_names _ _ Hps) as [Hfold Hne].
    unfold validate_sibling_casefold_collisions in Hsib.
    apply check_siblings_iff in Hsib as (_ & Hnd & _); [|by split; [constructor|]].
    rewrite Forall_forall in Hall. setoid_rewrite check_entry_Ok in Hall.
    pose proof (sorted_NoDup _ Ha) as Hnp. split; try done.
    2: { eapply Forall_impl; [exact Hv|]. intros e. apply validate_entry_Ok. }
    + apply Forall_forall. intros e He. apply list_elem_of_lookup in He as [i Hi].
      eapply Forall2_lookup_l in Hps as (p & _ & Hp); [|exact Hi]. exists p. by apply validate_path_Ok.
    + by rewrite <-Hfold.
    + intros e n He Hn. by apply insert_modes_root, Hall.
    + intros e He Hk. apply validate_filebeltkeep_Ok. by apply Hall.
  - intros [Hlen Hp Ha Hv Hnd Han Hk]. split; [done|].
    assert (exists ps, Forall2 (fun e p => validate_path (te_path e) = Ok p) entries ps) as [ps Hps].
    { clear -Hp. induction Hp as [|e entries [p Hp] Hall [ps IH]]; [by exists []|].
      exists (p :: ps). constructor; [by apply validate_path_Ok|done]. }
    assert (scan_entries f None [] [] entries = Ok (insert_modes [] entries, ps)) as ->.
    { apply scan_entries_iff. exists ps. rewrite ascending_None. split_and!; try done. eapply Forall_impl; [exact Hv|]. intros e. apply validate_entry_Ok. }
    rewrite seq_Ok, try_each_Ok. destruct (folded_names _ _ Hps) as [Hfold Hne]. split.
    + apply check_siblings_iff; [by split; [constructor|]|]. rewrite Hfold. split; [done|]. split; [done|].
      intros p parent key _ _ (s & Hs & _). done.
    + apply Forall_forall. intros e He. apply check_entry_Ok. split.
      * intros n Hn. apply insert_modes_root; [by apply sorted_NoDup|]. by apply Han.
      * intros Hl. apply validate_filebeltkeep_Ok. by apply Hk.
Qed.

Lemma scan_changes_Ok f prior paths changes paths' :
  scan_changes f prior paths changes = Ok paths' ->
  exists ps, Forall2 (fun c p => validate_path (tc_path c) = Ok p) changes ps /\
    paths' = paths ++ ps /\ ascending prior (map tc_path changes) /\
    Forall (fun c => validate_change c f = Ok tt) changes.
Proof.
  revert prior paths. induction changes as [|c changes IH]; intros prior paths; cbn [scan_changes].
  - intros [= <-]. exists []. rewrite app_nil_r. by repeat split; try constructor.
  - rewrite bind_Ok. intros (p & Hp & Hr). rewrite guard_Ok in Hr. destruct Hr as [Ho Hr].
    destruct (validate_change c f) as [[]|] eqn:Hc; [|done]. apply IH in Hr as (ps & Hps & -> & Ha & Hv).
    exists (p :: ps). rewrite <-app_assoc. by repeat constructor.
Qed.

Lemma folded_changes changes ps :
  Forall2 (fun c p => validate_path (tc_path c) = Ok p) changes ps ->
  map folded ps = map (fun c => folded_path (tc_path c)) changes.
Proof.
  induction 1 as [|c p changes ps Hp Hall IH]; [done|]. simpl. rewrite IH.
  apply validate_path_Ok in Hp. by rewrite (canonical_folded _ _ Hp).
Qed.

(** An accepted change set names every path at most once, even after case
    folding, in strictly ascending order, and every change is either a deletion
    without an entry or an upsert of a valid entry at that very path. *)
Theorem accepted_changes_are_canonical changes f :
  validate_changes changes f = Ok tt ->
  len changes <= MAX_CHANGED_PATHS_PER_COMMIT /\
  StronglySorted olt (map tc_path changes) /\
  NoDup (map (fun c => folded_path (tc_path c)) changes) /\
  Forall (fun c => (exists names, canonical_path (tc_path c) names) /\
    match tc_kind c, tc_entry c with
    | DeletePath, None => True
    | Upsert, Some e => te_path e = tc_path c /\ validate_entry e f = Ok tt
    | _, _ => False
    end) changes.
Proof.
  unfold validate_changes. rewrite guard_Ok, Z.ltb_ge, bind_Ok. intros (Hlen & paths & Hs & Hsib).
  apply scan_changes_Ok in Hs as (ps & Hps & -> & Ha & Hv). apply ascending_None in Ha.
  apply check_siblings_iff in Hsib as (_ & Hnd & _); [|by split; [constructor|]].
  cbn [app] in Hnd. rewrite (folded_changes _ _ Hps) in Hnd.
  split; [done|]. split; [done|]. split; [done|].
  apply Forall_forall. intros c Hc. split.
  - apply list_elem_of_lookup in Hc as [i Hi].
    eapply Forall2_lookup_l in Hps as (p & _ & Hp); [|exact Hi]. exists p. by apply validate_path_Ok.
  - rewrite Forall_forall in Hv. specialize (Hv c Hc). unfold validate_change in Hv.
    destruct (tc_kind c), (tc_entry c) as [e|]; try done. by case_bool_decide.
Qed.
End trees.

Section responses.
Context `{UuidLib, UnicodeLib}.

(** A valid response is bound to its request: same request id, an explicit
    error or the result of the same operation; a promotion or rollback is only
    acknowledged with exactly the requested head, a verification echoes the very
    entries, commit count and pack size it inspected, and garbage collection
    reclaims no more than it was allowed to. *)
Theorem directory_response_bound q r :
  validate_response q r = Ok tt ->
  dp_request_id r = dq_request_id q /\ validate_request q = Ok tt /\
  exists o res, dq_operation q = Some o /\ dp_result r = Some res /\
  match o, res with
  | _, ErrorResult code message => 1 <= code <= 7 /\ message <> "" /\ str_len message <= 4096
  | Promote _ _ new_head _, Accepted a => ac_head a = new_head /\ is_Some new_head
  | Rollback _ _ rollback_head, Accepted a => ac_head a = rollback_head /\ is_Some rollback_head
  | (Prepare _ _ _ | Stage _ _ _), Accepted _ => True
  | Verify _ _ entries commits pack, TreeInspection _ entries' count pack' =>
      entries' = entries /\ count = len commits /\ pack' = pack
  | Advertise _ maximum, Advertisement _ _ count => count <= maximum
  | Fsck _, FsckResult _ checked => checked <= MAX_TREE_ENTRIES
  | Gc _ maximum, GcResult reclaimed remaining => reclaimed <= maximum /\ remaining <= MAX_PACK_BYTES
  | _, _ => False
  end.
Proof.
  unfold validate_response. rewrite !seq_Ok, guard_Ok, negb_false_iff, String.eqb_eq.
  intros (Hq & _ & Hid & Hr). split; [done|]. split; [done|].
  destruct (dq_operation q) as [o|] eqn:Ho; [|done]. cbn [ok_or] in Hr.
  destruct (dp_result r) as [res|]; [|done]. cbn [ok_or] in Hr.
  exists o, res. split; [done|]. split; [done|].
  assert (forall a h, validate_accepted_head a h = Ok tt -> ac_head a = h /\ is_Some h) as Hhead.
  { intros a h. unfold validate_accepted_head. destruct h as [h|]; [|done]. cbn [ok_or].
    rewrite guard_Ok, negb_false_iff, bool_decide_eq_true. intros [-> _]. eauto. }
  assert (forall code message, validate_error code message = Ok tt ->
    1 <= code <= 7 /\ message <> "" /\ str_len message <= 4096) as Herr.
  { intros code message. unfold validate_error. checks_in_goal. tauto. }
  destruct o, res; simpl in Hr |- *; try done; auto.
  - rewrite bind_Ok in Hr. destruct Hr as (fmt & _ & Hr). rewrite bind_Ok in Hr.
    destruct Hr as (f' & _ & Hr). rewrite guard_Ok in Hr. destruct Hr as [Hb _].
    autorewrite with bools in Hb. destruct Hb as (((_ & Hc) & Hp) & He).
    split; [done|]. split; [|done]. rewrite Hc. apply Z.mod_small.
    unfold validate_request in Hq. rewrite Ho in Hq. rewrite seq_Ok in Hq. destruct Hq as [_ Hq].
    cbn [ok_or validate_operation] in Hq. rewrite seq_Ok, bind_Ok in Hq.
    destruct Hq as (_ & fm & _ & Hq). rewrite !guard_Ok, orb_false_iff, !Z.ltb_ge in Hq.
    destruct Hq as (_ & (_ & Hle) & _). pose proof (len_nonneg commits). unfold MAX_PUSH_COMMITS, u32_max in *. lia.
  - rewrite bind_Ok in Hr. destruct Hr as (f & _ & Hr). rewrite guard_Ok, Z.ltb_ge in Hr. tauto.
  - rewrite guard_Ok, Z.ltb_ge in Hr. tauto.
  - rewrite guard_Ok, orb_false_iff, !Z.ltb_ge in Hr. tauto.
Qed.
End responses.

(** ** Witnesses *)

Module Demo.
Import Concrete.

Definition demo_oid : ObjectId := mkOid Sha256 (replicate 32 "1"%char).
Definition demo_change : TreeChange :=
  mkChange ["docs"; "a.txt"] Upsert (Some (mkTreeEntry ["docs"; "a.txt"] File demo_oid 10)).

Lemma accepted_changes_are_canonical_witness :
  len [demo_change; mkChange ["docs"; "b.txt"] DeletePath None] <= MAX_CHANGED_PATHS_PER_COMMIT /\
  StronglySorted olt (map tc_path [demo_change; mkChange ["docs"; "b.txt"] DeletePath None]).
Proof.
  destruct (accepted_changes_are_canonical [demo_change; mkChange ["docs"; "b.txt"] DeletePath None] Sha256)
    as (H1 & H2 & _); [vm_compute; reflexivity|]. split; assumption.
Defined.

Definition demo_tree : list TreeEntry :=
  [mkTreeEntry ["docs"] Directory demo_oid 0; mkTreeEntry ["docs"; "a.txt"] File demo_oid 10].

(** A tree that is accepted, and one refused for a case-folding collision. *)
Example demo_trees :
  validate_tree demo_tree Sha256 = Ok tt /\
  validate_tree [mkTreeEntry ["A"] File demo_oid 1; mkTreeEntry ["a"] File demo_oid 1] Sha256
    = Err EPathCollision.
Proof. vm_compute. done. Qed.

Definition demo_id : string := "11111111-1111-4111-8111-111111111111".
Definition demo_fence : option DirectoryRepositoryFence :=
  Some (mkWireFence demo_id demo_id demo_id 1).
Definition demo_request : DirectoryRepositoryExecuteRequest := mkDrRequest demo_id (Some (Gc demo_fence 100)).

Lemma directory_response_bound_witness :
  dp_request_id (mkDrResponse demo_id (Some (GcResult 90 5))) = dq_request_id demo_request.
Proof.
  refine (proj1 (directory_response_bound demo_request (mkDrResponse demo_id (Some (GcResult 90 5))) _)).
  vm_compute. reflexivity.
Defined.
End Demo.
