(* ===== verification/PosixFs.v ===== *)
(** The part of [std::fs] the storage engine uses, over a POSIX name space:
    directory entries, inodes shared by hard links, symbolic links, owners and
    modes.  A program is a state-and-error computation in which every system
    call may also fail, as scheduled by the world; a weakest-precondition
    predicate over all such schedules is the proof principle of the files that
    model the engine. *)
From S2P Require Import Prelude.

(** ** State *)

(** An absolute path is the list of its components; [[]] is the root. *)
Abbreviation path := (list string) (only parsing).

Inductive Kind := KFile (data : bytes) | KDir | KSymlink (target : path).
Record Inode := mkInode { i_kind : Kind; i_mode : Z; i_uid : Z }.

Record Fs := mkFs {
  names : gmap (list string) N;
  inodes : gmap N Inode;
  next_ino : N;
  fs_uid : Z;
  fs_umask : Z
}.

(** [io::ErrorKind], as far as the sources distinguish it. *)
Inductive IoError := NotFound | AlreadyExists | OtherIo.

Definition is_directory (n : Inode) : bool := match i_kind n with KDir => true | _ => false end.
Definition is_regular (n : Inode) : bool := match i_kind n with KFile _ => true | _ => false end.

(** [Path::parent], [Path::join] of one component. *)
Definition path_parent_dir (p : path) : option (list string) :=
  match p with [] => None | _ => Some (removelast p) end.
Definition join (p : path) (c : string) : list string := p ++ [c].

Definition node_at (s : Fs) (p : path) : option (N * Inode) :=
  match names s !! p with
  | None => None
  | Some i => match inodes s !! i with Some n => Some (i, n) | None => None end
  end.

(** Path resolution: every component but the last must be a directory.  (A
    symbolic link in the middle of a path is an error here; the engine never
    builds such a path without having verified its directories.) *)
Fixpoint walk (s : Fs) (done rest : path) : result IoError (N * Inode) :=
  match node_at s done with
  | None => Err NotFound
  | Some (i, n) =>
      match rest with
      | [] => Ok (i, n)
      | c :: rest' => if is_directory n then walk s (join done c) rest' else Err OtherIo
      end
  end.
Definition lookup_path (s : Fs) (p : path) : result IoError (N * Inode) := walk s [] p.

(** ** System calls *)

Definition set_names (s : Fs) (m : gmap (list string) N) : Fs :=
  mkFs m (inodes s) (next_ino s) (fs_uid s) (fs_umask s).
Definition set_inode (s : Fs) (i : N) (n : Inode) : Fs :=
  mkFs (names s) (<[i := n]> (inodes s)) (next_ino s) (fs_uid s) (fs_umask s).
Definition add_inode (s : Fs) (p : path) (n : Inode) : Fs :=
  mkFs (<[p := next_ino s]> (names s)) (<[next_ino s := n]> (inodes s)) (N.succ (next_ino s))
    (fs_uid s) (fs_umask s).

(** [lstat(2)] *)
Definition sys_symlink_metadata (p : path) (s : Fs) : result IoError ((N * Inode) * Fs) :=
  let? x := lookup_path s p in Ok (x, s).

(** [stat(2)] and [open(2)] for reading: symbolic links are followed, at most
    forty of them. *)
Fixpoint follow (fuel : nat) (s : Fs) (p : path) : result IoError (N * Inode) :=
  match lookup_path s p with
  | Err e => Err e
  | Ok (i, n) =>
      match i_kind n with
      | KSymlink t => match fuel with O => Err OtherIo | S f => follow f s t end
      | _ => Ok (i, n)
      end
  end.
Definition MAX_SYMLINKS : nat := 40.
Definition sys_open (p : path) (s : Fs) : result IoError ((N * Inode) * Fs) :=
  let? x := follow MAX_SYMLINKS s p in Ok (x, s).

(** Reading an open file to its end. *)
Definition sys_read_to_end (i : N) (s : Fs) : result IoError (bytes * Fs) :=
  match inodes s !! i with
  | Some n => match i_kind n with KFile d => Ok (d, s) | _ => Err OtherIo end
  | None => Err OtherIo
  end.

(** The directory that is to receive the entry [p]. *)
Definition entry_parent (p : path) (s : Fs) : result IoError unit :=
  match path_parent_dir p with
  | None => Err OtherIo
  | Some q => let? x := lookup_path s q in if is_directory (snd x) then Ok tt else Err OtherIo
  end.

(** [linkat(2)] without [AT_SYMLINK_FOLLOW] *)
Definition sys_hard_link (src dst : path) (s : Fs) : result IoError (unit * Fs) :=
  let? x := lookup_path s src in
  let? _ := entry_parent dst s in
  match node_at s dst with
  | Some _ => Err AlreadyExists
  | None =>
      if is_directory (snd x) then Err OtherIo
      else Ok (tt, set_names s (<[dst := fst x]> (names s)))
  end.

(** [unlink(2)], [rmdir(2)] *)
Definition sys_remove_file (p : path) (s : Fs) : result IoError (unit * Fs) :=
  let? x := lookup_path s p in
  if is_directory (snd x) then Err OtherIo else Ok (tt, set_names s (delete p (names s))).

Definition children (s : Fs) (p : path) : list string :=
  omap (fun kv => if bool_decide (path_parent_dir kv.1 = Some p) then last kv.1 else None)
    (map_to_list (names s)).

Definition sys_remove_dir (p : path) (s : Fs) : result IoError (unit * Fs) :=
  let? x := lookup_path s p in
  match p with
  | [] => Err OtherIo
  | _ =>
      if is_directory (snd x) && bool_decide (children s p = [])
      then Ok (tt, set_names s (delete p (names s)))
      else Err OtherIo
  end.

(** [mkdir(2)], and [open(2)] with [O_CREAT | O_EXCL] *)
Definition sys_create (k : Kind) (p : path) (mode : Z) (s : Fs) : result IoError (N * Fs) :=
  let? _ := entry_parent p s in
  match node_at s p with
  | Some _ => Err AlreadyExists
  | None =>
      Ok (next_ino s, add_inode s p (mkInode k (Z.land mode (Z.lnot (fs_umask s))) (fs_uid s)))
  end.

(** [fchmod(2)], [ftruncate(2)] and [pwrite(2)] on an open file *)
Definition sys_fchmod (i : N) (mode : Z) (s : Fs) : result IoError (unit * Fs) :=
  match inodes s !! i with
  | Some n => Ok (tt, set_inode s i (mkInode (i_kind n) mode (i_uid n)))
  | None => Err OtherIo
  end.
Definition sys_chmod (p : path) (mode : Z) (s : Fs) : result IoError (unit * Fs) :=
  let? x := follow MAX_SYMLINKS s p in sys_fchmod (fst x) mode s.
Definition sys_update (i : N) (f : bytes -> bytes) (s : Fs) : result IoError (unit * Fs) :=
  match inodes s !! i with
  | Some n =>
      match i_kind n with
      | KFile d => Ok (tt, set_inode s i (mkInode (KFile (f d)) (i_mode n) (i_uid n)))
      | _ => Err OtherIo
      end
  | None => Err OtherIo
  end.

(** [rename(2)].  Renaming a directory moves everything below it. *)
Definition is_prefix (p q : path) : bool := bool_decide (take (length p) q = p).
Definition move_path (src dst k : path) : list string :=
  if is_prefix src k then dst ++ drop (length src) k else k.
Definition move_tree (src dst : path) (m : gmap (list string) N) : gmap (list string) N :=
  list_to_map ((fun kv => (move_path src dst kv.1, kv.2))
    <$> map_to_list (filter (fun kv => is_prefix dst kv.1 = false) m)).

Definition sys_rename (src dst : path) (s : Fs) : result IoError (unit * Fs) :=
  let? x := lookup_path s src in
  let? _ := entry_parent dst s in
  match node_at s dst with
  | None =>
      if is_directory (snd x) then
        if is_prefix src dst then Err OtherIo
        else Ok (tt, set_names s (move_tree src dst (names s)))
      else Ok (tt, set_names s (<[dst := fst x]> (delete src (names s))))
  | Some (j, m) =>
      if bool_decide (fst x = j) then Ok (tt, s)
      else if is_directory (snd x) then
        if is_directory m && bool_decide (children s dst = []) && negb (is_prefix src dst)
           && negb (is_prefix dst src)
        then Ok (tt, set_names s (move_tree src dst (names s)))
        else Err OtherIo
      else if is_directory m then Err OtherIo
      else Ok (tt, set_names s (<[dst := fst x]> (delete src (names s))))
  end.

(** [readdir(3)] returns the entries in an order of the file system's choosing. *)
Class Readdir := readdir_order : list string -> list string.
Class ReaddirLaws `{Readdir} : Prop := readdir_permutation : forall l, readdir_order l ≡ₚ l.
Definition sys_read_dir `{Readdir} (p : path) (s : Fs) : result IoError (list string * Fs) :=
  let? x := follow MAX_SYMLINKS s p in
  if is_directory (snd x) then Ok (readdir_order (children s p), s) else Err OtherIo.

(** [fsync(2)]: no effect on what a running process observes. *)
Definition sys_fsync (i : N) (s : Fs) : result IoError (unit * Fs) := Ok (tt, s).

(** Modification times are kept by the file system. *)
Class FileTimes := modified : Fs -> N -> Z.

(** [symlink(2)] *)
Definition sys_symlink (target p : path) (s : Fs) : result IoError (unit * Fs) :=
  let? _ := entry_parent p s in
  match node_at s p with
  | Some _ => Err AlreadyExists
  | None => Ok (tt, add_inode s p (mkInode (KSymlink target) 511 (fs_uid s)))
  end.

(** ** Computations *)

(** The file system, and which of the coming system calls fail. *)
Record World := mkWorld { w_fs : Fs; w_faults : list bool }.

Definition M (E A : Type) : Type := World -> result E A * World.

(** [#[from] io::Error] *)
Class FromIo (E : Type) := from_io : IoError -> E.

Section computations.
Context {E : Type}.

Definition ret {A} (a : A) : M E A := fun w => (Ok a, w).
Definition fail {A} (e : E) : M E A := fun w => (Err e, w).
Definition bind {A B} (m : M E A) (k : A -> M E B) : M E B := fun w =>
  match m w with (Ok a, w') => k a w' | (Err e, w') => (Err e, w') end.
(** [match m { Ok(a) => .., Err(e) => .. }] *)
Definition attempt {A} (m : M E A) : M E (result E A) := fun w =>
  let '(r, w') := m w in (Ok r, w').
Definition of_result {A} (r : result E A) : M E A := fun w => (r, w).

(** One system call: it fails without effect when the schedule says so. *)
Definition sys `{FromIo E} {A} (f : Fs -> result IoError (A * Fs)) : M E A := fun w =>
  match w_faults w with
  | true :: fl => (Err (from_io OtherIo), mkWorld (w_fs w) fl)
  | fl =>
      match f (w_fs w) with
      | Ok (a, s') => (Ok a, mkWorld s' (tail fl))
      | Err e => (Err (from_io e), mkWorld (w_fs w) (tail fl))
      end
  end.

(** [for x in l { f(x)?; }] *)
Fixpoint for_each {A} (f : A -> M E unit) (l : list A) : M E unit :=
  match l with
  | [] => ret tt
  | x :: l' => bind (f x) (fun _ => for_each f l')
  end.

(** [iter().map(f).collect::<Result<Vec<_>, _>>()] *)
Fixpoint map_each {A B} (f : A -> M E B) (l : list A) : M E (list B) :=
  match l with
  | [] => ret []
  | x :: l' => bind (f x) (fun y => bind (map_each f l') (fun ys => ret (y :: ys)))
  end.
End computations.

Notation "'let!' x ':=' m 'in' k" := (bind m (fun x => k))
  (at level 10, x name, m at level 100, k at level 200) : filebelt_scope.

(** ** Proof principle *)

(** [wp b m s Q]: started in [s], with any schedule of failures ([b = true]) or
    with none ([b = false]), [m] ends with an outcome and a state in [Q]. *)
Definition wp (b : bool) {E A} (m : M E A) (s : Fs) (Q : result E A -> Fs -> Prop) : Prop :=
  forall fl, (b = false -> fl = []) ->
    let '(r, w') := m (mkWorld s fl) in Q r (w_fs w') /\ (b = false -> w_faults w' = []).

Section wp_rules.
Context {E : Type} (b : bool).

Lemma wp_ret {A} (a : A) s (Q : result E A -> Fs -> Prop) : Q (Ok a) s -> wp b (ret a) s Q.
Proof. intros HQ fl Hfl. by split. Qed.

Lemma wp_fail {A} (e : E) s (Q : result E A -> Fs -> Prop) : Q (Err e) s -> wp b (fail e) s Q.
Proof. intros HQ fl Hfl. by split. Qed.

Lemma wp_of_result {A} (r : result E A) s (Q : result E A -> Fs -> Prop) :
  Q r s -> wp b (of_result r) s Q.
Proof. intros HQ fl Hfl. by split. Qed.

Lemma wp_bind {A B} (m : M E A) (k : A -> M E B) s (Q : result E B -> Fs -> Prop) :
  wp b m s (fun r s' => match r with Ok a => wp b (k a) s' Q | Err e => Q (Err e) s' end) ->
  wp b (bind m k) s Q.
Proof.
  intros Hm fl Hfl. specialize (Hm fl Hfl). unfold bind.
  destruct (m (mkWorld s fl)) as [[a|e] [s' fl']]; simpl in *; [|done].
  destruct Hm as [Hk Hfl']. by apply Hk.
Qed.

Lemma wp_attempt {A} (m : M E A) s (Q : result E (result E A) -> Fs -> Prop) :
  wp b m s (fun r s' => Q (Ok r) s') -> wp b (attempt m) s Q.
Proof.
  intros Hm fl Hfl. specialize (Hm fl Hfl). unfold attempt.
  by destruct (m (mkWorld s fl)) as [r w'].
Qed.

Lemma wp_sys `{FromIo E} {A} (f : Fs -> result IoError (A * Fs)) s (Q : result E A -> Fs -> Prop) :
  (b = true -> Q (Err (from_io OtherIo)) s) ->
  match f s with Ok (a, s') => Q (Ok a) s' | Err e => Q (Err (from_io e)) s end ->
  wp b (sys f) s Q.
Proof.
  intros Hb Hf fl Hfl. unfold sys. simpl.
  destruct fl as [|[] fl].
  - destruct (f s) as [[a s']|e]; done.
  - destruct b; [|by specialize (Hfl eq_refl)]. split; [by apply Hb|done].
  - destruct b; [|by specialize (Hfl eq_refl)]. destruct (f s) as [[a s']|e]; done.
Qed.

Lemma wp_mono {A} (m : M E A) s (Q Q' : result E A -> Fs -> Prop) :
  wp b m s Q -> (forall r s', Q r s' -> Q' r s') -> wp b m s Q'.
Proof.
  intros Hm HQ fl Hfl. specialize (Hm fl Hfl).
  destruct (m (mkWorld s fl)) as [r w']. naive_solver.
Qed.

(** A loop with an invariant indexed by what is left to do. *)
Lemma wp_for_each {A} (f : A -> M E unit) (I : list A -> Fs -> Prop) l s
    (Q : result E unit -> Fs -> Prop) :
  I l s ->
  (forall x l' s', I (x :: l') s' ->
     wp b (f x) s' (fun r s'' => match r with Ok _ => I l' s'' | Err e => Q (Err e) s'' end)) ->
  (forall s', I [] s' -> Q (Ok tt) s') ->
  wp b (for_each f l) s Q.
Proof.
  intros HI Hstep Hend. revert s HI. induction l as [|x l IH]; intros s HI; simpl.
  - apply wp_ret. by apply Hend.
  - apply wp_bind. eapply wp_mono; [by apply Hstep|].
    intros [[]|e] s' Hs'; [by apply IH|done].
Qed.
End wp_rules.

(** A computation run without failures. *)
Lemma wp_run {E A} (m : M E A) s (Q : result E A -> Fs -> Prop) :
  wp false m s Q -> let '(r, w') := m (mkWorld s []) in Q r (w_fs w') /\ w_faults w' = [].
Proof. intros Hm. specialize (Hm [] ltac:(done)). destruct (m _) as [r w']. naive_solver. Qed.

Create HintDb wp discriminated.
#[export] Hint Resolve wp_ret wp_fail wp_of_result wp_bind wp_attempt wp_sys : wp.

(** ** Well-formed file systems *)

Definition dir_at (s : Fs) (p : path) : Prop :=
  exists i n, node_at s p = Some (i, n) /\ is_directory n = true.

Record fs_wf (s : Fs) : Prop := {
  wf_root : dir_at s [];
  wf_ino : forall p i, names s !! p = Some i -> is_Some (inodes s !! i);
  wf_parent : forall p c i, names s !! (p ++ [c]) = Some i -> dir_at s p;
  wf_next : forall i, is_Some (inodes s !! i) -> (i < next_ino s)%N
}.

Section wf_lemmas.
Implicit Types (s : Fs) (p q : list string) (c : string) (i : N) (n : Inode).

Lemma node_at_Some s p i n :
  node_at s p = Some (i, n) <-> names s !! p = Some i /\ inodes s !! i = Some n.
Proof.
  unfold node_at. destruct (names s !! p) as [j|] eqn:Hp; [|naive_solver].
  destruct (inodes s !! j) eqn:Hj; naive_solver.
Qed.

Lemma node_at_None s p : fs_wf s -> node_at s p = None <-> names s !! p = None.
Proof.
  intros Hwf. unfold node_at. destruct (names s !! p) as [j|] eqn:Hp; [|done].
  destruct (wf_ino s Hwf p j Hp) as [n ->]. done.
Qed.

Lemma prefix_dir s p c q x : fs_wf s -> node_at s (p ++ c :: q) = Some x -> dir_at s p.
Proof.
  intros Hwf. revert x. induction q as [|d q IH] using rev_ind; intros [i n] Hx.
  - apply node_at_Some in Hx as [Hx _]. by eapply wf_parent.
  - rewrite app_comm_cons, app_assoc in Hx. apply node_at_Some in Hx as [Hx _].
    destruct (wf_parent s Hwf _ _ _ Hx) as (j & m & Hj & _). by eapply IH.
Qed.

Lemma walk_Ok s pre rest x : walk s pre rest = Ok x -> node_at s (pre ++ rest) = Some x.
Proof.
  revert pre. induction rest as [|c rest IH]; intros pre; simpl;
    destruct (node_at s pre) as [[i n]|] eqn:Hd; try done.
  - intros [= <-]. by rewrite app_nil_r.
  - destruct (is_directory n); [|done]. intros Hw%IH. unfold join in Hw. by rewrite <-app_assoc in Hw.
Qed.

Lemma lookup_path_Ok s p x : lookup_path s p = Ok x -> node_at s p = Some x.
Proof. apply (walk_Ok s []). Qed.

Lemma walk_node s pre rest x :
  fs_wf s -> node_at s (pre ++ rest) = Some x -> walk s pre rest = Ok x.
Proof.
  intros Hwf. revert pre. induction rest as [|c rest IH]; intros pre Hx; simpl.
  - rewrite app_nil_r in Hx. rewrite Hx. by destruct x.
  - destruct (prefix_dir s pre c rest x Hwf Hx) as (i & n & -> & ->).
    apply IH. unfold join. by rewrite <-app_assoc.
Qed.

Lemma lookup_path_node s p x : fs_wf s -> node_at s p = Some x -> lookup_path s p = Ok x.
Proof. apply (walk_node s []). Qed.

Lemma walk_missing s pre rest c :
  fs_wf s -> dir_at s (pre ++ rest) -> node_at s (pre ++ rest ++ [c]) = None ->
  walk s pre (rest ++ [c]) = Err NotFound.
Proof.
  intros Hwf. revert pre. induction rest as [|d rest IH]; intros pre Hd Hx; simpl.
  - rewrite app_nil_r in Hd. destruct Hd as (i & n & -> & ->). simpl in Hx. unfold join. by rewrite Hx.
  - destruct Hd as (j & m & Hd & Hm).
    destruct (prefix_dir s pre d rest _ Hwf Hd) as (i & n & -> & ->).
    unfold join. apply IH; rewrite <-app_assoc; simpl; [by exists j, m|done].
Qed.

Lemma lookup_path_missing s p c :
  fs_wf s -> dir_at s p -> node_at s (p ++ [c]) = None -> lookup_path s (p ++ [c]) = Err NotFound.
Proof. apply (walk_missing s []). Qed.

Lemma lookup_path_NotFound s p e : fs_wf s -> lookup_path s p = Err e -> node_at s p = None.
Proof.
  intros Hwf He. destruct (node_at s p) as [x|] eqn:Hx; [|done].
  by rewrite (lookup_path_node s p x Hwf Hx) in He.
Qed.

Lemma parent_dir_snoc p c : path_parent_dir (p ++ [c]) = Some p.
Proof.
  unfold path_parent_dir. destruct (p ++ [c]) eqn:Hp; [by destruct p|]. rewrite <-Hp.
  by rewrite removelast_last.
Qed.

Lemma parent_dir_Some p q : path_parent_dir p = Some q <-> exists c, p = q ++ [c].
Proof.
  split.
  - destruct p as [|c p _] using rev_ind; [done|]. rewrite parent_dir_snoc. intros [= <-]. by exists c.
  - intros [c ->]. apply parent_dir_snoc.
Qed.

Lemma entry_parent_Ok s p : fs_wf s ->
  entry_parent p s = Ok tt <-> exists q c, p = q ++ [c] /\ dir_at s q.
Proof.
  intros Hwf. unfold entry_parent. split.
  - destruct (path_parent_dir p) as [q|] eqn:Hp; [|done]. apply parent_dir_Some in Hp as [c ->].
    destruct (lookup_path s q) as [[i n]|] eqn:Hq; [|done]. apply lookup_path_Ok in Hq.
    simpl. case_match eqn:Hn; [|done]. intros _. exists q, c. split; [done|]. by exists i, n.
  - intros (q & c & -> & i & n & Hq & Hn). rewrite parent_dir_snoc.
    rewrite (lookup_path_node s q _ Hwf Hq). simpl. by rewrite Hn.
Qed.

Lemma children_nil s p : children s p = [] <-> forall c, names s !! (p ++ [c]) = None.
Proof.
  unfold children. split.
  - intros Hc c. destruct (names s !! (p ++ [c])) as [i|] eqn:Hi; [|done].
    assert (c ∈ children s p) as Hin; [|by unfold children in Hin; rewrite Hc in Hin; apply not_elem_of_nil in Hin].
    unfold children. apply list_elem_of_omap. exists (p ++ [c], i). split; [by apply elem_of_map_to_list|].
    simpl. rewrite parent_dir_snoc, bool_decide_true by done. by rewrite last_snoc.
  - intros Hn. apply elem_of_nil_inv. intros c Hin. apply list_elem_of_omap in Hin as ([q i] & Hq & Hc).
    apply elem_of_map_to_list in Hq. simpl in Hc. case_bool_decide as Hp; [|done].
    apply parent_dir_Some in Hp as [d ->]. by rewrite Hn in Hq.
Qed.
End wf_lemmas.

(** ** Updates *)

Section update_lemmas.
Implicit Types (s : Fs) (p q src dst : list string) (c : string) (i : N) (n : Inode).

Lemma is_prefix_true p q : is_prefix p q = true <-> exists r, q = p ++ r.
Proof.
  unfold is_prefix. rewrite bool_decide_eq_true. split.
  - intros Hp. exists (drop (length p) q). by rewrite <-Hp at 1; rewrite take_drop.
  - intros [r ->]. by rewrite take_app_length.
Qed.

Lemma is_prefix_false p q : is_prefix p q = false <-> forall r, q <> p ++ r.
Proof. rewrite <-not_true_iff_false, is_prefix_true. naive_solver. Qed.

Lemma node_at_names s m p :
  node_at (set_names s m) p = match m !! p with
                              | None => None
                              | Some i => match inodes s !! i with Some n => Some (i, n) | None => None end
                              end.
Proof. done. Qed.

Lemma node_at_other s m p : m !! p = names s !! p -> node_at (set_names s m) p = node_at s p.
Proof. intros Hm. unfold node_at. simpl. by rewrite Hm. Qed.

Lemma dir_at_other s m p : m !! p = names s !! p -> dir_at (set_names s m) p <-> dir_at s p.
Proof. intros Hm. unfold dir_at. by setoid_rewrite (node_at_other s m p Hm). Qed.

(** Nothing is below a path that is absent or not a directory. *)
Lemma no_children s p : fs_wf s -> ~ dir_at s p -> forall c, names s !! (p ++ [c]) = None.
Proof.
  intros Hwf Hp c. destruct (names s !! (p ++ [c])) eqn:Hc; [|done].
  destruct Hp. by eapply wf_parent.
Qed.

Lemma not_dir_node s p i n : node_at s p = Some (i, n) -> is_directory n = false -> ~ dir_at s p.
Proof. intros Hp Hn (j & m & Hj & Hm). congruence. Qed.

Lemma not_dir_none s p : node_at s p = None -> ~ dir_at s p.
Proof. intros Hp (j & m & Hj & Hm). congruence. Qed.

Lemma wf_insert s p c i :
  fs_wf s -> dir_at s p -> (forall d, names s !! ((p ++ [c]) ++ [d]) = None) ->
  is_Some (inodes s !! i) -> fs_wf (set_names s (<[p ++ [c] := i]> (names s))).
Proof.
  intros Hwf Hp Hc Hi.
  assert (forall q, q <> p ++ [c] -> dir_at s q -> dir_at (set_names s (<[p ++ [c] := i]> (names s))) q) as Hkeep.
  { intros q Hq Hd. apply dir_at_other; [|done]. by apply lookup_insert_ne. }
  split.
  - apply Hkeep; [|apply wf_root; done]. intros Hnil. by destruct p.
  - intros q j. simpl. rewrite lookup_insert_Some. intros [[_ <-]|[_ Hq]]; [done|]. by eapply wf_ino.
  - intros q d j. simpl. rewrite lookup_insert_Some. intros [[Heq _]|[_ Hq]].
    + apply app_inj_tail in Heq as [<- <-]. apply Hkeep; [|done]. intros Hq. apply (f_equal length) in Hq.
      rewrite length_app in Hq. simpl in Hq. lia.
    + apply Hkeep; [|by eapply wf_parent]. intros ->. by rewrite Hc in Hq.
  - apply (wf_next s Hwf).
Qed.

Lemma wf_delete s p :
  fs_wf s -> p <> [] -> (forall d, names s !! (p ++ [d]) = None) ->
  fs_wf (set_names s (delete p (names s))).
Proof.
  intros Hwf Hp Hc.
  assert (forall q, q <> p -> dir_at s q -> dir_at (set_names s (delete p (names s))) q) as Hkeep.
  { intros q Hq Hd. apply dir_at_other; [|done]. by apply lookup_delete_ne. }
  split.
  - apply Hkeep; [done|apply wf_root; done].
  - intros q j. simpl. rewrite lookup_delete_Some. intros [_ Hq]. by eapply wf_ino.
  - intros q d j. simpl. rewrite lookup_delete_Some. intros [_ Hq].
    apply Hkeep; [|by eapply wf_parent]. intros ->. by rewrite Hc in Hq.
  - apply (wf_next s Hwf).
Qed.

Lemma add_inode_as s p n :
  add_inode s p n =
  set_names (mkFs (names s) (<[next_ino s := n]> (inodes s)) (N.succ (next_ino s)) (fs_uid s) (fs_umask s))
    (<[p := next_ino s]> (names s)).
Proof. done. Qed.

Lemma next_fresh s : fs_wf s -> inodes s !! next_ino s = None.
Proof.
  intros Hwf. destruct (inodes s !! next_ino s) eqn:Hn; [|done].
  assert (next_ino s < next_ino s)%N; [|lia]. apply wf_next; [done|]. by rewrite Hn.
Qed.

Lemma wf_grow s n :
  fs_wf s ->
  let s' := mkFs (names s) (<[next_ino s := n]> (inodes s)) (N.succ (next_ino s)) (fs_uid s) (fs_umask s) in
  fs_wf s' /\ forall p x, node_at s p = Some x -> node_at s' p = Some x.
Proof.
  intros Hwf s'.
  assert (forall p x, node_at s p = Some x -> node_at s' p = Some x) as Hkeep.
  { intros p [i m] [Hp Hi]%node_at_Some. apply node_at_Some. split; [done|]. simpl.
    rewrite lookup_insert_ne; [done|]. intros Heq. rewrite <-Heq, next_fresh in Hi by done. done. }
  split; [|done]. split.
  - destruct (wf_root s Hwf) as (i & m & Hi & Hm). exists i, m. by split; [apply Hkeep|].
  - intros q j Hq. simpl. destruct (decide (j = next_ino s)) as [->|Hj]; [rewrite lookup_insert_eq; by eexists|].
    rewrite lookup_insert_ne by done. by eapply wf_ino.
  - intros q d j Hq. destruct (wf_parent s Hwf q d j Hq) as (i & m & Hi & Hm). exists i, m. by split; [apply Hkeep|].
  - intros j. simpl. destruct (decide (j = next_ino s)) as [->|Hj]; [lia|].
    rewrite lookup_insert_ne by done. intros Hj'. apply (wf_next s Hwf) in Hj'. lia.
Qed.

Lemma wf_add s p c n :
  fs_wf s -> dir_at s p -> node_at s (p ++ [c]) = None -> fs_wf (add_inode s (p ++ [c]) n).
Proof.
  intros Hwf Hp Hc. rewrite add_inode_as. destruct (wf_grow s n Hwf) as [Hg Hkeep]. cbv zeta in *.
  apply (wf_insert (mkFs (names s) (<[next_ino s := n]> (inodes s)) (N.succ (next_ino s)) (fs_uid s) (fs_umask s)));
    [done|..].
  - destruct Hp as (i & m & Hi & Hm). exists i, m. by split; [apply Hkeep|].
  - intros d. simpl. by apply no_children, not_dir_none.
  - simpl. rewrite lookup_insert_eq. by eexists.
Qed.

Lemma wf_set_inode s i n n' :
  fs_wf s -> inodes s !! i = Some n -> is_directory n' = is_directory n -> fs_wf (set_inode s i n').
Proof.
  intros Hwf Hi Hn.
  assert (forall q, dir_at s q -> dir_at (set_inode s i n') q) as Hkeep.
  { intros q (j & m & [Hq Hj]%node_at_Some & Hm). destruct (decide (j = i)) as [->|Hji].
    - exists i, n'. split; [|congruence]. apply node_at_Some. split; [done|]. simpl. by rewrite lookup_insert_eq.
    - exists j, m. split; [|done]. apply node_at_Some. split; [done|]. simpl. by rewrite lookup_insert_ne. }
  split.
  - apply Hkeep, wf_root. done.
  - intros q j Hq. simpl. destruct (decide (j = i)) as [->|Hji]; [rewrite lookup_insert_eq; by eexists|].
    rewrite lookup_insert_ne by done. by eapply wf_ino.
  - intros q d j Hq. by eapply Hkeep, wf_parent.
  - intros j. simpl. destruct (decide (j = i)) as [->|Hji].
    + intros _. apply (wf_next s Hwf). by rewrite Hi.
    + rewrite lookup_insert_ne by done. apply (wf_next s Hwf).
Qed.
End update_lemmas.

(** ** Moving a directory *)

Section move_lemmas.
Implicit Types (s : Fs) (p q src dst : list string) (m : gmap (list string) N).

Lemma move_path_under src dst r : move_path src dst (src ++ r) = dst ++ r.
Proof.
  unfold move_path. rewrite (proj2 (is_prefix_true src (src ++ r))) by (by exists r).
  by rewrite drop_app_length.
Qed.

Lemma move_path_other src dst k : is_prefix src k = false -> move_path src dst k = k.
Proof. intros Hk. unfold move_path. by rewrite Hk. Qed.

Lemma move_path_inj src dst k k' :
  is_prefix dst k = false -> is_prefix dst k' = false -> move_path src dst k = move_path src dst k' -> k = k'.
Proof.
  intros Hk Hk' Heq. unfold move_path in Heq.
  destruct (is_prefix src k) eqn:H1, (is_prefix src k') eqn:H2; [|..|done].
  - apply app_inv_head in Heq. apply is_prefix_true in H1 as [r ->], H2 as [r' ->].
    rewrite !drop_app_length in Heq. by subst.
  - rewrite <-Heq in Hk'. rewrite is_prefix_false in Hk'. by destruct (Hk' (drop (length src) k)).
  - rewrite Heq in Hk. rewrite is_prefix_false in Hk. by destruct (Hk (drop (length src) k')).
Qed.

Lemma move_tree_Some src dst m p i :
  move_tree src dst m !! p = Some i <->
  exists k, m !! k = Some i /\ is_prefix dst k = false /\ p = move_path src dst k.
Proof.
  unfold move_tree. rewrite <-elem_of_list_to_map.
  - rewrite list_elem_of_fmap. split.
    + intros ([k j] & [= -> ->] & Hk). apply elem_of_map_to_list, map_lookup_filter_Some in Hk as [Hk Hd].
      by exists k.
    + intros (k & Hk & Hd & ->). exists (k, i). split; [done|].
      by apply elem_of_map_to_list, map_lookup_filter_Some.
  - rewrite <-list_fmap_compose. apply NoDup_fmap_2_strong; [|apply NoDup_map_to_list].
    intros [k j] [k' j'] Hk Hk' Heq. simpl in Heq.
    apply elem_of_map_to_list, map_lookup_filter_Some in Hk as [Hk Hd], Hk' as [Hk' Hd'].
    apply move_path_inj in Heq; [|done..]. subst. by simplify_eq.
Qed.

Lemma disjoint_under src dst r :
  is_prefix src dst = false -> is_prefix dst src = false -> is_prefix dst (src ++ r) = false.
Proof.
  intros H1 H2. apply is_prefix_false. intros t Ht.
  apply app_eq_app in Ht as (l & [[Hs _]|[Hd _]]).
  - rewrite is_prefix_false in H2. by destruct (H2 l).
  - rewrite is_prefix_false in H1. by destruct (H1 l).
Qed.

(** Everything below [src] is now below [dst], nothing is below [src], and every
    other path is as before. *)
Lemma move_tree_lookup src dst m p :
  is_prefix src dst = false -> is_prefix dst src = false ->
  (forall r, move_tree src dst m !! (dst ++ r) = m !! (src ++ r)) /\
  (forall r, move_tree src dst m !! (src ++ r) = None) /\
  (is_prefix src p = false -> is_prefix dst p = false -> move_tree src dst m !! p = m !! p).
Proof.
  intros Hsd Hds. split; [|split].
  - intros r. apply option_eq. intros i. rewrite move_tree_Some. split.
    + intros (k & Hk & Hd & Heq). destruct (is_prefix src k) eqn:Hs.
      * apply is_prefix_true in Hs as [t ->]. rewrite move_path_under in Heq.
        apply app_inv_head in Heq. by subst.
      * rewrite move_path_other in Heq by done. subst k. rewrite is_prefix_false in Hd. by destruct (Hd r).
    + intros Hr. exists (src ++ r). by rewrite move_path_under, disjoint_under.
  - intros r. apply eq_None_ne_Some. intros i. rewrite move_tree_Some. intros (k & Hk & Hd & Heq).
    destruct (is_prefix src k) eqn:Hs.
    + apply is_prefix_true in Hs as [t ->]. rewrite move_path_under in Heq.
      pose proof (disjoint_under src dst r Hsd Hds) as Hp. rewrite is_prefix_false in Hp. by destruct (Hp t).
    + rewrite move_path_other in Heq by done. subst k. rewrite is_prefix_false in Hs. by destruct (Hs r).
  - intros Hs Hd. apply option_eq. intros i. rewrite move_tree_Some. split.
    + intros (k & Hk & Hdk & Heq). destruct (is_prefix src k) eqn:Hsk.
      * apply is_prefix_true in Hsk as [t ->]. rewrite move_path_under in Heq.
        rewrite is_prefix_false in Hd. by destruct (Hd t).
      * rewrite move_path_other in Heq by done. by subst.
    + intros Hp. exists p. by rewrite move_path_other.
Qed.

Lemma dir_at_move s src dst p :
  is_prefix src dst = false -> is_prefix dst src = false ->
  let s' := set_names s (move_tree src dst (names s)) in
  (is_prefix src p = false -> is_prefix dst p = false -> dir_at s' p <-> dir_at s p) /\
  (forall r, dir_at s' (dst ++ r) <-> dir_at s (src ++ r)).
Proof.
  intros Hsd Hds s'. destruct (move_tree_lookup src dst (names s) p Hsd Hds) as (Hnew & Hold & Hother). split.
  - intros H1 H2. apply dir_at_other. by apply Hother.
  - intros r. unfold dir_at, s'. setoid_rewrite node_at_names. by rewrite Hnew.
Qed.

Lemma wf_move_tree s src dst q c :
  fs_wf s -> dst = q ++ [c] -> dir_at s q -> is_prefix src dst = false -> is_prefix dst src = false ->
  fs_wf (set_names s (move_tree src dst (names s))).
Proof.
  intros Hwf Hdst Hq Hsd Hds.
  assert (is_prefix src [] = false) as Hs0.
  { apply is_prefix_false. intros r Hr. symmetry in Hr. apply app_eq_nil in Hr as [-> ->].
    rewrite is_prefix_false in Hsd. by destruct (Hsd dst). }
  assert (forall x d, is_prefix x (q ++ [d]) = false -> is_prefix x q = false) as Hup.
  { intros x d. rewrite !is_prefix_false. intros Hx r ->. apply (Hx (r ++ [d])). by rewrite app_assoc. }
  split.
  - apply dir_at_move; [done..|by subst; apply is_prefix_false; intros r Hr; destruct q|by apply wf_root].
  - intros p i. simpl. rewrite move_tree_Some. intros (k & Hk & _). by eapply wf_ino.
  - intros p d i. simpl. rewrite move_tree_Some. intros (k & Hk & Hd & Heq).
    destruct (is_prefix src k) eqn:Hsk.
    + apply is_prefix_true in Hsk as [r ->]. rewrite move_path_under in Heq.
      destruct r as [|e r _] using rev_ind.
      * rewrite app_nil_r in Heq. subst dst. apply app_inj_tail in Heq as [-> ->].
        apply dir_at_move; try done; [by eapply Hup|].
        apply is_prefix_false. intros r Hr. apply (f_equal length) in Hr. rewrite !length_app in Hr. simpl in Hr. lia.
      * rewrite app_assoc in Heq, Hk. apply app_inj_tail in Heq as [-> ->].
        apply dir_at_move; [done..|]. by eapply wf_parent.
    + rewrite move_path_other in Heq by done. subst k. apply wf_parent in Hk; [|done].
      assert (is_prefix src p = false) as Hp1.
      { rewrite is_prefix_false in *. intros r ->. apply (Hsk (r ++ [d])). by rewrite app_assoc. }
      assert (is_prefix dst p = false) as Hp2.
      { rewrite is_prefix_false in *. intros r ->. apply (Hd (r ++ [d])). by rewrite app_assoc. }
      by apply dir_at_move.
  - apply (wf_next s Hwf).
Qed.
End move_lemmas.
