(* ===== verification/StorageLayout.v ===== *)
(** Model of [source/crates/filebelt-storage/src/lib.rs]: the UUID-only POSIX
    layout of immutable objects, the verification of stored bytes, publication
    by hard link, finalization of uploads, quarantine and deletion, verified
    range reads, and the clean-up of abandoned temporaries.  The records come
    from [source/crates/filebelt-database/src/lib.rs]. *)
From S2P Require Import Prelude Libraries Frames PosixFs.
Open Scope string_scope.
Open Scope Z_scope.
Open Scope list_scope.
Open Scope bool_scope.

Definition DIRECTORY_MODE : Z := 448.
Definition FILE_MODE : Z := 384.
Definition PERMISSION_BITS : Z := 511.
Definition REVISION_CHUNK_SIZE_BYTES : Z := 16 * 1024 * 1024.

Inductive StorageError :=
| Io (e : IoError) | UnsafeObject | CorruptObject | InvalidContent | StateConflict
| UnsupportedFilesystem | Join.
#[export] Instance StorageError_from_io : FromIo StorageError := Io.
Abbreviation St := (M StorageError).

Record RevisionChunkLocator := mkLocator { rl_drive_id : N; rl_digest : bytes; rl_size : Z }.
Definition RevisionChunkLocator_new (drive_id : N) (digest : bytes) (size : Z)
  : result StorageError RevisionChunkLocator :=
  if uuid_is_nil drive_id || (size =? 0) || (REVISION_CHUNK_SIZE_BYTES <? size) then Err StateConflict
  else Ok (mkLocator drive_id digest size).

Record FinalizedObject := mkFinalized { fo_digest : bytes; fo_size : Z }.
Record TemporaryCleanupReport := mkReport { writing_removed : Z; finalizing_removed : Z }.
Definition total_removed (r : TemporaryCleanupReport) : Z := writing_removed r + finalizing_removed r.
Record DownloadSegment := mkSegment { seg_path : list string; seg_offset : Z; seg_length : Z }.

Record PayloadRecord := mkPayload {
  p_tenant_id : N; p_payload_id : N; p_drive_id : N; p_backend_id : N; p_locator : N;
  p_layout : string; p_state : string; p_size_bytes : Z; p_blake3 : option bytes
}.
Record UploadPartRecord := mkPart {
  part_number : Z; part_locator : N; part_state : string; part_size_bytes : Z; part_blake3 : option bytes
}.
(** The columns of [UploadRecord] the storage engine reads. *)
Record UploadRecord := mkUpload {
  u_tenant_id : N; u_drive_id : N; u_payload_id : N; u_backend_id : N; u_payload_locator : N;
  u_declared_size_bytes : Z; u_part_count : Z; u_declared_media_type : option string
}.

Inductive PathKind := Missing | Present.
Inductive TemporaryKind := Writing | Finalizing.

(** [cow.rs]: one chunk of a chunked payload, as its manifest row records it. *)
Record CowBaseChunk := mkBaseChunk { bc_chunk_number : Z; bc_size : Z; bc_digest : bytes }.

(** ** Verification of stored objects *)

Definition symlink_metadata (p : path) : St (N * Inode) := sys (sys_symlink_metadata p).

Definition path_kind (p : path) : St PathKind :=
  let! r := attempt (symlink_metadata p) in
  match r with
  | Ok _ => ret Present
  | Err (Io NotFound) => ret Missing
  | Err e => fail e
  end.

Definition verify_directory (p : path) : St unit :=
  let! m := symlink_metadata p in
  if negb (is_directory (snd m)) || negb (Z.land (i_mode (snd m)) PERMISSION_BITS =? DIRECTORY_MODE)
  then fail UnsafeObject else ret tt.

Definition verify_same_owner (p expected_owner_path : path) : St unit :=
  let! m := symlink_metadata p in
  let! expected := symlink_metadata expected_owner_path in
  if negb (i_uid (snd m) =? i_uid (snd expected)) then fail UnsafeObject else ret tt.

Definition parent (p : path) : St (list string) := of_result (ok_or StateConflict (path_parent_dir p)).

Definition verify_regular_file (p : path) : St unit :=
  let! m := symlink_metadata p in
  if negb (is_regular (snd m)) || negb (Z.land (i_mode (snd m)) PERMISSION_BITS =? FILE_MODE)
  then fail UnsafeObject
  else let! q := parent p in verify_same_owner p q.

Definition sync_directory (p : path) : St unit :=
  let! _ := verify_directory p in
  let! f := sys (sys_open p) in
  sys (sys_fsync (fst f)).

Definition create_secure_directory (p : path) : St unit :=
  let! r := attempt (symlink_metadata p) in
  match r with
  | Ok _ => verify_directory p
  | Err (Io NotFound) =>
      let! _ := sys (sys_create KDir p DIRECTORY_MODE) in
      let! _ := sys (sys_chmod p DIRECTORY_MODE) in
      let! _ := verify_directory p in
      let! _ := sync_directory p in
      match path_parent_dir p with
      | Some q => let! f := sys (sys_open q) in sys (sys_fsync (fst f))
      | None => ret tt
      end
  | Err e => fail e
  end.

Definition create_new_file (p : path) : St N :=
  let! i := sys (sys_create (KFile []) p FILE_MODE) in
  let! _ := sys (sys_fchmod i FILE_MODE) in
  ret i.

(** ** Names *)

Definition hex_digit (d : Z) : ascii :=
  byte_of_Z (if d <? 10 then 48 + d else 87 + d).
(** [format!("{byte:02x}")] *)
Definition hex_byte (b : byte) : string :=
  String (hex_digit (byte_val b / 16)) (String (hex_digit (byte_val b mod 16)) "").

Definition is_shard_name (name : string) : bool :=
  (str_len name =? 2)
  && forallb (fun b => is_ascii_digit b || ((97 <=? byte_val b) && (byte_val b <=? 102))) (as_bytes name).

Definition part_file_name (n : Z) : string := pad_zero 8 (dec_to_string n) +:+ ".part".
Definition is_part_file_name (name : string) : bool :=
  match strip_suffix ".part" name with
  | None => false
  | Some number => (str_len number =? 8) && forallb is_ascii_digit (as_bytes number)
  end.

Definition revision_chunk_file_name (l : RevisionChunkLocator) : string :=
  fold_right (fun b s => hex_byte b +:+ s) "" (rl_digest l) +:+ "-" +:+ dec_to_string (rl_size l) +:+ ".chunk".

Section names.
Context `{UuidLib}.

Definition is_canonical_uuid (value : string) : bool :=
  match uuid_parse_str value with
  | Some parsed => String.eqb (uuid_hyphenated parsed) value
  | None => false
  end.

Definition is_writing_temporary (name : string) : bool :=
  match strip_suffix ".writing" name with
  | None => false
  | Some without_suffix =>
      match split_char "." without_suffix with
      | [locator; operation] => is_canonical_uuid locator && is_canonical_uuid operation
      | _ => false
      end
  end.

Definition is_finalizing_temporary (name : string) : bool :=
  match strip_prefix "." name with
  | None => false
  | Some without_prefix =>
      match strip_suffix ".finalizing" without_prefix with
      | None => false
      | Some without_suffix =>
          match split_char "." without_suffix with
          | [operation] => is_canonical_uuid operation
          | [locator; operation] => is_canonical_uuid locator && is_canonical_uuid operation
          | _ => false
          end
      end
  end.
End names.

(** ** Content *)

Section content.
Context `{Blake3Lib}.

Definition verify_file (p : path) (expected_size : Z) (expected_digest : bytes) : St unit :=
  let! _ := verify_regular_file p in
  let! f := sys (sys_open p) in
  let! data := sys (sys_read_to_end (fst f)) in
  if negb (len data =? expected_size) then fail CorruptObject
  else if negb (bool_decide (blake3_hash data = expected_digest)) then fail CorruptObject
  else ret tt.

(** [<[u8; 32]>::try_from(slice)] *)
Definition digest_of (e : StorageError) (d : option bytes) : result StorageError bytes :=
  match d with
  | None => Err e
  | Some d => if len d =? 32 then Ok d else Err e
  end.

Definition verify_part (p : path) (part : UploadPartRecord) : St unit :=
  let! expected_digest := of_result (digest_of StateConflict (part_blake3 part)) in
  let! size := of_result (ok_or StateConflict (u64_try_from (part_size_bytes part))) in
  verify_file p size expected_digest.

(** The hasher is what it was fed; the total is a checked [u64]. *)
Definition hash_file (p : path) (st : bytes * Z) : St (bytes * Z) :=
  let! _ := verify_regular_file p in
  let! f := sys (sys_open p) in
  let! data := sys (sys_read_to_end (fst f)) in
  let! total := of_result (ok_or StateConflict (checked_add_u64 (snd st) (len data))) in
  ret (fst st ++ data, total).

(** The [enumerate().any] clause: the parts are numbered from zero. *)
Definition numbered_from_zero (parts : list UploadPartRecord) : bool :=
  forallb (fun x => part_number (snd x) =? Z.of_nat (fst x)) (imap (fun i p => (i, p)) parts).

Definition validate_manifest (u : UploadRecord) (p : PayloadRecord) (parts : list UploadPartRecord)
  : result StorageError unit :=
  if negb (N.eqb (u_tenant_id u) (p_tenant_id p))
     || negb (N.eqb (u_drive_id u) (p_drive_id p))
     || negb (N.eqb (u_backend_id u) (p_backend_id p))
     || negb (N.eqb (u_payload_id u) (p_payload_id p))
     || negb (N.eqb (u_payload_locator u) (p_locator p))
     || negb (len parts =? u_part_count u)
     || existsb (fun part => negb (String.eqb (part_state part) "durable")
          || match part_blake3 part with None => true | Some d => negb (len d =? 32) end) parts
     || (String.eqb (p_layout p) "whole" && negb (len parts =? 1))
     || (String.eqb (p_layout p) "chunked" && (len parts <? 2))
     || negb (numbered_from_zero parts)
  then Err StateConflict else Ok tt.

Definition read_file_at (p : path) : St bytes :=
  let! f := sys (sys_open p) in sys (sys_read_to_end (fst f)).

Definition strip_bom (b : bytes) : bytes :=
  match b with
  | "239"%char :: "187"%char :: "191"%char :: rest => rest
  | _ => b
  end.

Definition validate_markdown_payload (final_path : path) (p : PayloadRecord)
    (parts : list UploadPartRecord) : St unit :=
  let! capacity := of_result (ok_or InvalidContent (u64_try_from (p_size_bytes p))) in
  if 2097152 <? capacity then fail InvalidContent
  else
    let! data :=
      if String.eqb (p_layout p) "whole" then read_file_at final_path
      else if String.eqb (p_layout p) "chunked" then
        let! contents :=
          map_each (fun part => read_file_at (join final_path (part_file_name (part_number part)))) parts in
        ret (concat contents)
      else fail StateConflict in
    let content := strip_bom data in
    if existsb (Ascii.eqb zero_byte) content || negb (utf8_valid content)
    then fail InvalidContent else ret tt.
End content.

(** ** The layout *)

Section layout.
Context `{UuidLib, Blake3Lib, Readdir, FileTimes}.
Variable root : path.

Definition AREAS : list string :=
  ["whole"; "chunks"; "staging"; "quarantine"; "revision-chunks"; "revision-quarantine"].

Definition prepare : St unit :=
  let! _ := create_secure_directory root in
  for_each (fun name =>
    let! _ := create_secure_directory (join root name) in
    verify_same_owner (join root name) root) AREAS.

(** One level of a sharded directory. *)
Definition child_directory (p : path) (name : string) : St (list string) :=
  let! _ := create_secure_directory (join p name) in
  let! _ := verify_same_owner (join p name) p in
  ret (join p name).

Definition shard_directory (area : string) (locator : N) : St (list string) :=
  let hexadecimal := uuid_simple locator in
  let! area := child_directory root area in
  let! first := child_directory area (String.substring 0 2 hexadecimal) in
  child_directory first (String.substring 2 2 hexadecimal).

Definition revision_chunk_directory (area : string) (drive_id : N) (digest : bytes) : St (list string) :=
  if uuid_is_nil drive_id then fail StateConflict
  else
    let! area_path := child_directory root area in
    let! drive := child_directory area_path (uuid_hyphenated drive_id) in
    child_directory drive (hex_byte (default zero_byte (head digest))).

Definition staging_part_path (locator : N) : St (list string) :=
  let! d := shard_directory "staging" locator in
  ret (join d (uuid_hyphenated locator +:+ ".part")).

Definition staging_temporary_path (locator operation_id : N) : St (list string) :=
  let! d := shard_directory "staging" locator in
  ret (join d (uuid_hyphenated locator +:+ "." +:+ uuid_hyphenated operation_id +:+ ".writing")).

Definition revision_staging_name (drive_id operation_id : N) : string :=
  "revision-" +:+ uuid_hyphenated drive_id +:+ "-" +:+ uuid_hyphenated operation_id +:+ ".writing".
Definition revision_chunk_staging_path (drive_id operation_id : N) : St (list string) :=
  if uuid_is_nil drive_id || uuid_is_nil operation_id then fail StateConflict
  else
    let! d := shard_directory "staging" operation_id in
    ret (join d (revision_staging_name drive_id operation_id)).

Definition revision_chunk_path (l : RevisionChunkLocator) : St (list string) :=
  let! d := revision_chunk_directory "revision-chunks" (rl_drive_id l) (rl_digest l) in
  ret (join d (revision_chunk_file_name l)).

(** [match fs::hard_link(..) { Ok => sync parent, AlreadyExists => verify, .. }] *)
Definition link_or_verify (temporary destination : path) (on_exists : St unit) : St unit :=
  let! r := attempt (sys (sys_hard_link temporary destination)) in
  match r with
  | Ok _ => let! q := parent destination in sync_directory q
  | Err (Io AlreadyExists) => on_exists
  | Err e => fail e
  end.

Definition publish_revision_chunk (temporary : path) (l : RevisionChunkLocator) : St (list string) :=
  let! _ := verify_file temporary (rl_size l) (rl_digest l) in
  let! destination := revision_chunk_path l in
  let! _ := link_or_verify temporary destination (verify_file destination (rl_size l) (rl_digest l)) in
  let! _ := verify_file destination (rl_size l) (rl_digest l) in
  let! _ := sys (sys_remove_file temporary) in
  let! q := parent temporary in
  let! _ := sync_directory q in
  ret destination.

Definition verified_revision_chunk_segment (l : RevisionChunkLocator) (start end_inclusive : Z)
  : St DownloadSegment :=
  if (end_inclusive <? start) || (rl_size l <=? end_inclusive) then fail StateConflict
  else
    let! p := revision_chunk_path l in
    let! _ := verify_file p (rl_size l) (rl_digest l) in
    ret (mkSegment p start (end_inclusive - start + 1)).

Definition quarantine_file_name (l : RevisionChunkLocator) (operation_id : N) : string :=
  revision_chunk_file_name l +:+ "." +:+ uuid_hyphenated operation_id +:+ ".quarantine".

(** The rename of [quarantine_revision_chunk], with a concurrent retry that
    already moved the chunk treated as success. *)
Definition rename_or_moved (source destination : path) : St unit :=
  let! r := attempt (sys (sys_rename source destination)) in
  match r with
  | Ok _ => ret tt
  | Err (Io NotFound) =>
      let! ks := path_kind source in
      match ks with
      | Present => fail (Io NotFound)
      | Missing =>
          let! kd := path_kind destination in
          match kd with Missing => fail (Io NotFound) | Present => ret tt end
      end
  | Err e => fail e
  end.

Definition quarantine_revision_chunk (l : RevisionChunkLocator) (operation_id : N) : St (list string) :=
  if uuid_is_nil operation_id then fail StateConflict
  else
    let! source := revision_chunk_path l in
    let! d := revision_chunk_directory "revision-quarantine" (rl_drive_id l) (rl_digest l) in
    let destination := join d (quarantine_file_name l operation_id) in
    let! ks := path_kind source in
    let! kd := path_kind destination in
    match ks, kd with
    | Missing, Present =>
        let! _ := verify_file destination (rl_size l) (rl_digest l) in ret destination
    | Missing, Missing => ret destination
    | Present, Present => fail StateConflict
    | Present, Missing =>
        let! _ := verify_file source (rl_size l) (rl_digest l) in
        let! _ := rename_or_moved source destination in
        let! _ := verify_file destination (rl_size l) (rl_digest l) in
        let! qs := parent source in
        let! _ := sync_directory qs in
        let! qd := parent destination in
        let! _ := sync_directory qd in
        ret destination
    end.

(** [match fs::symlink_metadata(path) { Ok(_) => action, NotFound => Ok(()), .. }] *)
Definition if_present (p : path) (action : St unit) : St unit :=
  let! r := attempt (symlink_metadata p) in
  match r with
  | Ok _ => action
  | Err (Io NotFound) => ret tt
  | Err e => fail e
  end.

Definition remove_and_sync (p : path) : St unit :=
  let! _ := sys (sys_remove_file p) in
  let! q := parent p in
  sync_directory q.

Definition delete_revision_chunk (l : RevisionChunkLocator) (operation_id : N) : St unit :=
  let! quarantined := quarantine_revision_chunk l operation_id in
  if_present quarantined
    (let! _ := verify_file quarantined (rl_size l) (rl_digest l) in remove_and_sync quarantined).

(** ** Payload objects *)

Definition payload_path (p : PayloadRecord) : St (list string) :=
  let! area := of_result (if String.eqb (p_layout p) "whole" then Ok "whole"
                          else if String.eqb (p_layout p) "chunked" then Ok "chunks"
                          else Err StateConflict) in
  let! d := shard_directory area (p_locator p) in
  ret (join d (uuid_hyphenated (p_locator p))).

Definition verify_payload_container (path_ : path) (p : PayloadRecord) : St unit :=
  if String.eqb (p_layout p) "whole" then verify_regular_file path_
  else if String.eqb (p_layout p) "chunked" then
    let! _ := verify_directory path_ in
    let! q := parent path_ in
    verify_same_owner path_ q
  else fail StateConflict.

Definition publish_staging_part (temporary : path) (locator : N) (expected_size : Z)
    (expected_digest : bytes) : St (list string) :=
  let! _ := verify_regular_file temporary in
  let! destination := staging_part_path locator in
  let! _ := link_or_verify temporary destination (verify_file destination expected_size expected_digest) in
  let! _ := sys (sys_remove_file temporary) in
  let! q := parent destination in
  let! _ := sync_directory q in
  let! _ := verify_file destination expected_size expected_digest in
  ret destination.

(** [for entry in fs::read_dir(path)? { body(entry) }] *)
Definition for_each_entry (p : path) (body : string -> St unit) : St unit :=
  let! entries := sys (sys_read_dir p) in for_each body entries.

Definition remove_empty_or_operation_directory (p : path) : St unit :=
  if_present p
    (let! _ := verify_directory p in
     let! _ := for_each_entry p (fun name =>
       if negb (is_part_file_name name) then fail UnsafeObject
       else
         let! _ := verify_regular_file (join p name) in
         sys (sys_remove_file (join p name))) in
     sys (sys_remove_dir p)).

(** [Path::exists] *)
Definition path_exists (p : path) : St bool :=
  let! r := attempt (sys (sys_open p)) in ret (is_ok r).

Definition hash_parts (final_path : path) (parts : list UploadPartRecord) : bytes * Z -> St (bytes * Z) :=
  fold_right (fun part k st =>
    let p := join final_path (part_file_name (part_number part)) in
    let! _ := verify_part p part in
    let! st := hash_file p st in
    k st) (fun st => ret st) parts.

Definition verify_finalized (u : UploadRecord) (p : PayloadRecord) (parts : list UploadPartRecord)
  : St FinalizedObject :=
  let! _ := of_result (validate_manifest u p parts) in
  let! final_path := payload_path p in
  let! st :=
    if String.eqb (p_layout p) "whole" then hash_file final_path ([], 0)
    else if String.eqb (p_layout p) "chunked" then
      let! _ := verify_directory final_path in
      let! q := parent final_path in
      let! _ := verify_same_owner final_path q in
      hash_parts final_path parts ([], 0)
    else fail StateConflict in
  let! declared := of_result (ok_or StateConflict (u64_try_from (u_declared_size_bytes u))) in
  if negb (snd st =? declared) then fail CorruptObject
  else
    let! _ := if bool_decide (u_declared_media_type u = Some "text/markdown")
              then validate_markdown_payload final_path p parts else ret tt in
    ret (mkFinalized (blake3_hash (fst st)) (snd st)).

Definition finalizing_name (locator operation_id : N) : string :=
  "." +:+ uuid_hyphenated locator +:+ "." +:+ uuid_hyphenated operation_id +:+ ".finalizing".

Definition finalize (u : UploadRecord) (p : PayloadRecord) (parts : list UploadPartRecord)
    (operation_id : N) : St FinalizedObject :=
  let! _ := of_result (validate_manifest u p parts) in
  let! final_path := payload_path p in
  let! present := path_exists final_path in
  if present then verify_finalized u p parts
  else
    let! _ :=
      if String.eqb (p_layout p) "whole" then
        match parts with
        | [] => fail StateConflict (* excluded by [validate_manifest], as below *)
        | part :: _ =>
            let! source := staging_part_path (part_locator part) in
            let! _ := verify_part source part in
            link_or_verify source final_path (ret tt)
        end
      else if String.eqb (p_layout p) "chunked" then
        let! final_parent := parent final_path in
        let temporary := join final_parent (finalizing_name (p_locator p) operation_id) in
        let! _ := create_secure_directory temporary in
        let! _ := verify_same_owner temporary final_parent in
        let! _ := for_each (fun part =>
          let! source := staging_part_path (part_locator part) in
          let! _ := verify_part source part in
          sys (sys_hard_link source (join temporary (part_file_name (part_number part))))) parts in
        let! _ := sync_directory temporary in
        let! r := attempt (sys (sys_rename temporary final_path)) in
        match r with
        | Ok _ => sync_directory final_parent
        | Err e =>
            let! present := path_exists final_path in
            if present then remove_empty_or_operation_directory temporary else fail e
        end
      else fail StateConflict in
    verify_finalized u p parts.

(** The loop of [verified_download_segments] over the parts, from the logical
    offset of the first one. *)
Fixpoint part_segments (final_path : path) (start end_inclusive logical_offset : Z)
    (parts : list UploadPartRecord) : St (list DownloadSegment) :=
  match parts with
  | [] => ret []
  | part :: rest =>
      let! part_size := of_result (ok_or StateConflict (u64_try_from (part_size_bytes part))) in
      let part_end := saturating_add_u64 logical_offset part_size in
      let overlap_start := Z.max start logical_offset in
      let overlap_end_exclusive := Z.min (saturating_add_u64 end_inclusive 1) part_end in
      let! here :=
        if overlap_start <? overlap_end_exclusive then
          let p := join final_path (part_file_name (part_number part)) in
          let! _ := verify_part p part in
          ret [mkSegment p (overlap_start - logical_offset) (overlap_end_exclusive - overlap_start)]
        else ret [] in
      let! later := part_segments final_path start end_inclusive part_end rest in
      ret (here ++ later)
  end.

Definition segments_length (l : list DownloadSegment) : Z := fold_right (fun s n => seg_length s + n) 0 l.

Definition verified_download_segments (u : UploadRecord) (p : PayloadRecord)
    (parts : list UploadPartRecord) (start end_inclusive : Z) : St (list DownloadSegment) :=
  let! _ := of_result (validate_manifest u p parts) in
  let! final_path := payload_path p in
  if p_size_bytes p =? 0 then
    match parts with
    | [] => fail StateConflict
    | part :: _ => let! _ := verify_part final_path part in ret []
    end
  else
    let! size := of_result (ok_or StateConflict (u64_try_from (p_size_bytes p))) in
    if (end_inclusive <? start) || (size <=? end_inclusive) then fail StateConflict
    else if String.eqb (p_layout p) "whole" then
      match parts with
      | [] => fail StateConflict
      | part :: _ =>
          let! _ := verify_part final_path part in
          ret [mkSegment final_path start (end_inclusive - start + 1)]
      end
    else
      let! _ := verify_directory final_path in
      let! result := part_segments final_path start end_inclusive 0 parts in
      if negb (segments_length result =? end_inclusive - start + 1) then fail CorruptObject
      else ret result.

Definition finalize_whole_object (p : PayloadRecord) (expected_size : Z) (expected_digest : bytes)
  : St FinalizedObject :=
  if negb (String.eqb (p_layout p) "whole") then fail StateConflict
  else
    let! source := staging_part_path (p_locator p) in
    let! _ := verify_file source expected_size expected_digest in
    let! destination := payload_path p in
    let! _ := link_or_verify source destination (verify_file destination expected_size expected_digest) in
    let! _ := verify_file destination expected_size expected_digest in
    ret (mkFinalized expected_digest expected_size).

Definition verify_staging_object (locator : N) (expected_size : Z) : St FinalizedObject :=
  let! p := staging_part_path locator in
  let! _ := verify_regular_file p in
  let! st := hash_file p ([], 0) in
  if negb (snd st =? expected_size) then fail CorruptObject
  else ret (mkFinalized (blake3_hash (fst st)) (snd st)).

Definition verified_whole_object_segment (p : PayloadRecord) (start end_inclusive : Z)
  : St (list DownloadSegment) :=
  if negb (String.eqb (p_layout p) "whole") then fail StateConflict
  else
    let! size := of_result (ok_or StateConflict (u64_try_from (p_size_bytes p))) in
    let! digest := of_result (digest_of StateConflict (p_blake3 p)) in
    let! path_ := payload_path p in
    let! _ := verify_file path_ size digest in
    if size =? 0 then ret []
    else if (end_inclusive <? start) || (size <=? end_inclusive) then fail StateConflict
    else ret [mkSegment path_ start (end_inclusive - start + 1)].

(** The loop of [verified_chunked_object_segments], from chunk [index] at
    [logical_offset]; it also returns the offset where the chunks end. *)
Fixpoint chunk_segments (directory : path) (size start end_inclusive : Z) (index : nat)
    (logical_offset : Z) (chunks : list CowBaseChunk) : St (list DownloadSegment * Z) :=
  match chunks with
  | [] => ret ([], logical_offset)
  | chunk :: rest =>
      if negb (bc_chunk_number chunk =? Z.of_nat index) || (99999999 <? bc_chunk_number chunk)
      then fail CorruptObject
      else
        let! chunk_end := of_result (ok_or StateConflict (checked_add_u64 logical_offset (bc_size chunk))) in
        if (bc_size chunk =? 0) || (size <? chunk_end) then fail CorruptObject
        else
          let overlap_start := Z.max start logical_offset in
          let overlap_end_exclusive := Z.min (saturating_add_u64 end_inclusive 1) chunk_end in
          let! here :=
            if overlap_start <? overlap_end_exclusive then
              let p := join directory (pad_zero 8 (dec_to_string (bc_chunk_number chunk)) +:+ ".part") in
              let! _ := verify_file p (bc_size chunk) (bc_digest chunk) in
              ret [mkSegment p (overlap_start - logical_offset) (overlap_end_exclusive - overlap_start)]
            else ret [] in
          let! later := chunk_segments directory size start end_inclusive (S index) chunk_end rest in
          ret (here ++ fst later, snd later)
  end.

Definition verified_chunked_object_segments (p : PayloadRecord) (chunks : list CowBaseChunk)
    (start end_inclusive : Z) : St (list DownloadSegment) :=
  if negb (String.eqb (p_layout p) "chunked") then fail StateConflict
  else
    let! size := of_result (ok_or StateConflict (u64_try_from (p_size_bytes p))) in
    if size =? 0 then match chunks with [] => ret [] | _ => fail CorruptObject end
    else if (end_inclusive <? start) || (size <=? end_inclusive) then fail StateConflict
    else
      let! directory := payload_path p in
      let! _ := verify_directory directory in
      let! r := chunk_segments directory size start end_inclusive 0 0 chunks in
      if negb (snd r =? size) || negb (segments_length (fst r) =? end_inclusive - start + 1)
      then fail CorruptObject
      else ret (fst r).

(** ** Removal *)

Definition remove_regular_file (p : path) : St unit :=
  let! _ := verify_regular_file p in remove_and_sync p.

Definition remove_staging_locator (locator : N) : St unit :=
  let! p := staging_part_path locator in if_present p (remove_regular_file p).

Definition remove_staging_parts (parts : list UploadPartRecord) : St unit :=
  for_each (fun part => remove_staging_locator (part_locator part)) parts.

Definition delete_payload (p : PayloadRecord) : St unit :=
  let! path_ := payload_path p in
  if String.eqb (p_layout p) "whole" then if_present path_ (remove_regular_file path_)
  else if String.eqb (p_layout p) "chunked" then
    if_present path_
      (let! _ := verify_directory path_ in
       let! _ := for_each_entry path_ (fun name =>
         let! _ := verify_regular_file (join path_ name) in
         sys (sys_remove_file (join path_ name))) in
       let! _ := sys (sys_remove_dir path_) in
       let! q := parent path_ in
       sync_directory q)
  else fail StateConflict.

Definition quarantine_payload (p : PayloadRecord) : St (list string) :=
  let! source := payload_path p in
  let! d := shard_directory "quarantine" (p_locator p) in
  let destination := join d (uuid_hyphenated (p_locator p)) in
  let! qs := parent source in
  let! qd := parent destination in
  let! ks := path_kind source in
  let! kd := path_kind destination in
  match ks, kd with
  | Missing, Present =>
      let! _ := verify_payload_container destination p in
      let! _ := sync_directory qs in
      let! _ := sync_directory qd in
      ret destination
  | Missing, Missing => ret destination
  | Present, Present => fail StateConflict
  | Present, Missing =>
      let! _ := verify_payload_container source p in
      let! r := attempt (sys (sys_rename source destination)) in
      let! _ :=
        match r with
        | Ok _ => ret tt
        | Err (Io NotFound) =>
            let! ks := path_kind source in
            match ks with
            | Present => fail (Io NotFound)
            | Missing =>
                let! kd := path_kind destination in
                match kd with
                | Missing => fail (Io NotFound)
                | Present => verify_payload_container destination p
                end
            end
        | Err e => fail e
        end in
      let! _ := sync_directory qs in
      let! _ := sync_directory qd in
      let! _ := verify_payload_container destination p in
      ret destination
  end.

(** ** Clean-up of abandoned temporaries *)

Definition temporary_kind (area name : string) : option TemporaryKind :=
  if String.eqb area "staging" && is_writing_temporary name then Some Writing
  else if String.eqb area "chunks" && is_finalizing_temporary name then Some Finalizing
  else None.

(** One entry of the innermost loop of [cleanup_sharded_area]. *)
Definition cleanup_entry (area : string) (now minimum_age : Z) (second_path : path) (name : string)
    (report : TemporaryCleanupReport) : St TemporaryCleanupReport :=
  match temporary_kind area name with
  | None => ret report
  | Some kind =>
      let p := join second_path name in
      let! m := symlink_metadata p in
      let! mtime := sys (fun s => Ok (modified s (fst m), s)) in
      if Z.max 0 (now - mtime) <? minimum_age then ret report
      else
        match kind with
        | Writing =>
            let! _ := verify_regular_file p in
            let! _ := sys (sys_remove_file p) in
            let! _ := sync_directory second_path in
            ret (mkReport (writing_removed report + 1) (finalizing_removed report))
        | Finalizing =>
            let! _ := remove_empty_or_operation_directory p in
            let! _ := sync_directory second_path in
            ret (mkReport (writing_removed report) (finalizing_removed report + 1))
        end
  end.

(** A loop that threads the report and stops early ([return Ok(())]) when the
    budget is used up; the flag says whether it stopped. *)
Fixpoint budgeted {A} (max_removals : Z) (check : bool)
    (body : A -> TemporaryCleanupReport -> St (TemporaryCleanupReport * bool)) (l : list A)
    (report : TemporaryCleanupReport) : St (TemporaryCleanupReport * bool) :=
  match l with
  | [] => ret (report, false)
  | x :: rest =>
      if check && (max_removals <=? total_removed report) then ret (report, true)
      else
        let! r := body x report in
        if snd r then ret r else budgeted max_removals check body rest (fst r)
  end.

Definition open_shard (parent_path : path) (name : string) : St (list string) :=
  if negb (is_shard_name name) then fail UnsafeObject
  else
    let! _ := verify_directory (join parent_path name) in
    let! _ := verify_same_owner (join parent_path name) parent_path in
    ret (join parent_path name).

Definition cleanup_sharded_area (area : string) (now minimum_age max_removals : Z)
    (report : TemporaryCleanupReport) : St TemporaryCleanupReport :=
  let area_path := join root area in
  let! _ := verify_directory area_path in
  let! _ := verify_same_owner area_path root in
  let! firsts := sys (sys_read_dir area_path) in
  let! r := budgeted max_removals false (fun first report =>
    let! first_path := open_shard area_path first in
    let! seconds := sys (sys_read_dir first_path) in
    budgeted max_removals false (fun second report =>
      let! second_path := open_shard first_path second in
      let! entries := sys (sys_read_dir second_path) in
      budgeted max_removals true (fun name report =>
        let! report := cleanup_entry area now minimum_age second_path name report in
        ret (report, false)) entries report) seconds report) firsts report in
  ret (fst r).

Definition cleanup_operation_temporaries_at (now minimum_age max_removals : Z)
  : St TemporaryCleanupReport :=
  let! _ := prepare in
  let report := mkReport 0 0 in
  if max_removals =? 0 then ret report
  else
    let! report := cleanup_sharded_area "staging" now minimum_age max_removals report in
    if total_removed report <? max_removals
    then cleanup_sharded_area "chunks" now minimum_age max_removals report
    else ret report.

(** The start-up probe, with the bytes it writes; [probe_id] is random. *)
Definition probe_blocking (probe_id : N) : St unit :=
  let! _ := prepare in
  let! directory := shard_directory "staging" probe_id in
  let name suffix := join directory (uuid_hyphenated probe_id +:+ suffix) in
  let source := name ".probe" in
  let linked := name ".linked" in
  let destination := name ".renamed" in
  let symbolic := name ".symlink" in
  let! file := create_new_file source in
  let! _ := sys (sys_update file (fun d => d ++ as_bytes "filebelt-storage-probe-v1")) in
  let! _ := sys (sys_fsync file) in
  let! _ := sys (sys_hard_link source linked) in
  let! _ := verify_regular_file linked in
  let! _ := sys (sys_remove_file linked) in
  let! _ := sys (sys_rename source destination) in
  let! _ := sync_directory directory in
  let! _ := verify_regular_file destination in
  let! _ := sys (sys_symlink destination symbolic) in
  let! r := attempt (verify_regular_file symbolic) in
  match r with
  | Err UnsafeObject =>
      let! _ := sys (sys_remove_file symbolic) in
      let! _ := sys (sys_remove_file destination) in
      sync_directory directory
  | _ => fail UnsafeObject
  end.
End layout.
