(* ===== verification/StorageFacts.v ===== *)
(** Specifications of the storage engine's checks and of the directories it
    creates, in the weakest-precondition style of [PosixFs]: what holds after
    every outcome under any schedule of I/O failures, and when success is
    guaranteed without failures. *)
From S2P Require Import Prelude Libraries Frames PosixFs StorageLayout.
Open Scope string_scope.
Open Scope Z_scope.
Open Scope list_scope.
Open Scope bool_scope.

(** ** Assertions *)

Definition secure_dir (s : Fs) (p : path) : Prop :=
  exists i n, node_at s p = Some (i, n) /\ is_directory n = true /\
    Z.land (i_mode n) PERMISSION_BITS = DIRECTORY_MODE.

(** A directory of the process itself. *)
Definition own_dir (s : Fs) (p : path) : Prop :=
  exists i n, node_at s p = Some (i, n) /\ is_directory n = true /\
    Z.land (i_mode n) PERMISSION_BITS = DIRECTORY_MODE /\ i_uid n = fs_uid s.

Definition same_owner (s : Fs) (p q : path) : Prop :=
  exists x y, node_at s p = Some x /\ node_at s q = Some y /\ i_uid (snd x) = i_uid (snd y).

(** A regular file of mode 0600 that belongs to the owner of its directory. *)
Definition secure_file (s : Fs) (p : path) (d : bytes) : Prop :=
  exists i m u q, node_at s p = Some (i, mkInode (KFile d) m u) /\
    Z.land m PERMISSION_BITS = FILE_MODE /\ path_parent_dir p = Some q /\ same_owner s p q.

Definition stored `{Blake3Lib} (s : Fs) (p : path) (size : Z) (digest : bytes) : Prop :=
  exists d, secure_file s p d /\ len d = size /\ blake3_hash d = digest.

(** What an operation may do to the name space: no inode changes, only the names
    in [R] may disappear or be replaced, and a new name is one of [A] or a
    directory. *)
Record evolves (R A : list (list string)) (s s' : Fs) : Prop := {
  ev_inodes : inodes s ⊆ inodes s';
  ev_kept : forall p i, names s !! p = Some i -> p ∉ R -> names s' !! p = Some i;
  ev_new : forall p i, names s' !! p = Some i -> names s !! p = Some i \/ p ∈ A \/ dir_at s' p;
  ev_uid : fs_uid s' = fs_uid s;
  ev_umask : fs_umask s' = fs_umask s
}.

Section evolution.
Lemma evolves_refl R A s : evolves R A s s.
Proof. split; naive_solver. Qed.

Lemma evolves_weaken R R' A A' s s' : R ⊆ R' -> A ⊆ A' -> evolves R A s s' -> evolves R' A' s s'.
Proof. intros HR HA [? ? ? ? ?]. split; [done|set_solver|set_solver|done..]. Qed.

Lemma evolves_trans R A s1 s2 s3 : evolves R A s1 s2 -> evolves R A s2 s3 -> evolves R A s1 s3.
Proof.
  intros [I1 K1 N1 U1 V1] [I2 K2 N2 U2 V2]. split.
  - by etrans.
  - intros p i Hp HR. by apply K2; [apply K1|].
  - intros p i Hp. destruct (N2 p i Hp) as [Hp2|[HA|Hd]]; [|by auto..].
    destruct (N1 p i Hp2) as [Hp1|[HA|(j & n & [Hj Hn]%node_at_Some & Hdn)]]; [by auto..|].
    right. right. exists j, n. split; [|done]. apply node_at_Some. simplify_eq. split; [done|].
    by eapply lookup_weaken.
  - by rewrite U2.
  - by rewrite V2.
Qed.

Lemma evolves_node R A s s' p x :
  evolves R A s s' -> node_at s p = Some x -> p ∉ R -> node_at s' p = Some x.
Proof.
  intros Hev Hx HR. destruct x as [i n]. apply node_at_Some in Hx as [Hp Hi]. apply node_at_Some.
  split; [by eapply ev_kept|]. eapply lookup_weaken; [done|apply Hev].
Qed.

Lemma evolves_dir R A s s' p : evolves R A s s' -> dir_at s p -> p ∉ R -> dir_at s' p.
Proof. intros Hev (i & n & Hp & Hn) HR. exists i, n. split; [by eapply evolves_node|done]. Qed.

Lemma evolves_same_owner R A s s' p q :
  evolves R A s s' -> same_owner s p q -> p ∉ R -> q ∉ R -> same_owner s' p q.
Proof. intros Hev (x & y & Hx & Hy & Hu) Hp Hq. exists x, y. by repeat split; [eapply evolves_node..|]. Qed.

Lemma evolves_secure_file R A s s' p q d :
  evolves R A s s' -> secure_file s p d -> path_parent_dir p = Some q -> p ∉ R -> q ∉ R -> secure_file s' p d.
Proof.
  intros Hev (i & m & u & q' & Hn & Hm & Hq & Ho) Hq' Hp HqR. simplify_eq.
  exists i, m, u, q'. split; [by eapply evolves_node|]. split; [done|]. split; [done|].
  by eapply evolves_same_owner.
Qed.

(** A new name that is neither expected nor a directory cannot be a file. *)
Lemma evolves_file_old R A s s' p i n :
  evolves R A s s' -> node_at s' p = Some (i, n) -> is_directory n = false -> p ∉ A -> names s !! p = Some i.
Proof.
  intros Hev [Hp Hi]%node_at_Some Hn HA. destruct (ev_new _ _ _ _ Hev p i Hp) as [?|[?|Hd]]; [done..|].
  destruct Hd as (j & m & [Hj Hm]%node_at_Some & Hd). congruence.
Qed.

Lemma own_secure s p : own_dir s p -> secure_dir s p.
Proof. intros (i & n & ? & ? & ? & _). by exists i, n. Qed.

Lemma secure_dir_at s p : secure_dir s p -> dir_at s p.
Proof. intros (i & n & ? & ? & _). by exists i, n. Qed.

Lemma evolves_own_dir R A s s' p : evolves R A s s' -> own_dir s p -> p ∉ R -> own_dir s' p.
Proof.
  intros Hev (i & n & Hp & Hn & Hm & Hu) HR. exists i, n. split; [by eapply evolves_node|].
  split; [done|]. split; [done|]. by rewrite (ev_uid _ _ _ _ Hev).
Qed.

Lemma own_same_owner s p q : own_dir s p -> own_dir s q -> same_owner s p q.
Proof.
  intros (i & n & Hp & _ & _ & Hu) (j & m & Hq & _ & _ & Hv). exists (i, n), (j, m). simpl. by rewrite Hu, Hv.
Qed.
End evolution.
#[export] Hint Resolve evolves_refl : filebelt.

(** ** Checks *)

(** A computation that changes nothing, and succeeds exactly when [P] holds
    (only when, if I/O may fail). *)
Definition checks (b : bool) (m : St unit) (s : Fs) (P : Prop) : Prop :=
  wp b m s (fun r s' => s' = s /\ (r = Ok tt -> P) /\ (b = false -> P -> r = Ok tt)).

Section checks_lemmas.
Context (b : bool) (s : Fs) (Hwf : fs_wf s).

Lemma wp_check m P Q :
  checks b m s P -> (P -> Q (Ok tt) s) -> (forall e, (b = false -> ~ P) -> Q (Err e) s) -> wp b m s Q.
Proof.
  intros Hm Hok Herr. eapply wp_mono; [exact Hm|]. intros [[]|e] s' (-> & H1 & H2); [by apply Hok, H1|].
  apply Herr. intros Hb HP. by specialize (H2 Hb HP).
Qed.

(** The shape of [wp_check] after a bind. *)
Lemma wp_check_bind {B} m P (k : unit -> St B) Q :
  checks b m s P -> (P -> wp b (k tt) s Q) -> (forall e, (b = false -> ~ P) -> Q (Err e) s) ->
  wp b (bind m k) s Q.
Proof. intros Hm Hok Herr. apply wp_bind. by eapply wp_check. Qed.

Lemma checks_bind m1 m2 P1 P2 :
  checks b m1 s P1 -> (P1 -> checks b (m2 tt) s P2) -> checks b (bind m1 m2) s (P1 /\ P2).
Proof.
  intros H1 H2. apply (wp_check_bind m1 P1 m2); [done|..].
  - intros HP. eapply wp_mono; [by apply H2|]. intros r s' (-> & Ha & Hb). naive_solver.
  - intros e He. split; [done|]. split; [done|]. intros Hb [HP _]. by destruct (He Hb).
Qed.

Lemma checks_iff m P P' : (P <-> P') -> checks b m s P -> checks b m s P'.
Proof. intros HP Hm. eapply wp_mono; [exact Hm|]. intros r s' (-> & H1 & H2). naive_solver. Qed.

Lemma wp_symlink_metadata p (Q : result StorageError (N * Inode) -> Fs -> Prop) :
  (forall x, node_at s p = Some x -> Q (Ok x) s) ->
  (forall e, (e = OtherIo /\ b = true) \/ (lookup_path s p = Err e /\ node_at s p = None) ->
     Q (Err (Io e)) s) ->
  wp b (symlink_metadata p) s Q.
Proof.
  intros Hok Herr. apply wp_sys.
  - intros Hb. apply Herr. by left.
  - unfold sys_symlink_metadata. destruct (lookup_path s p) as [x|e] eqn:Hl.
    + by apply Hok, lookup_path_Ok.
    + apply Herr. right. split; [done|]. by eapply lookup_path_NotFound.
Qed.

Lemma verify_directory_checks p : checks b (verify_directory p) s (secure_dir s p).
Proof.
  apply wp_bind, wp_symlink_metadata.
  - intros [i n] Hp. case_match eqn:Hc; [apply wp_fail|apply wp_ret]; (split; [done|]); autorewrite with bools in Hc; simpl in Hc.
    + split; [done|]. intros _ (j & m & Hj & Hd & Hm). simplify_eq. destruct Hc; congruence.
    + split; [|done]. intros _. by exists i, n.
  - intros e He. split; [done|]. split; [done|]. intros Hb (i & n & Hn & _). destruct He as [[_ ?]|[_ ?]]; congruence.
Qed.

Lemma verify_same_owner_checks p q : checks b (verify_same_owner p q) s (same_owner s p q).
Proof.
  apply wp_bind, wp_symlink_metadata.
  - intros x Hx. apply wp_bind, wp_symlink_metadata.
    + intros y Hy. case_match eqn:Hc; [apply wp_fail|apply wp_ret]; (split; [done|]); autorewrite with bools in Hc.
      * split; [done|]. intros _ (x' & y' & Hx' & Hy' & Hu). simplify_eq.
      * split; [|done]. intros _. by exists x, y.
    + intros e He. split; [done|]. split; [done|]. intros Hb (x' & y & Hx' & Hy & _). destruct He as [[_ ?]|[_ ?]]; congruence.
  - intros e He. split; [done|]. split; [done|]. intros Hb (x' & y & Hx' & Hy & _). destruct He as [[_ ?]|[_ ?]]; congruence.
Qed.

Lemma verify_regular_file_checks p : checks b (verify_regular_file p) s (exists d, secure_file s p d).
Proof.
  apply wp_bind, wp_symlink_metadata.
  - intros [i [k m u]] Hp. case_match eqn:Hc.
    + apply wp_fail. split; [done|]. split; [done|]. intros _ (d & j & m' & u' & q & Hj & Hm & _).
      rewrite Hp in Hj. autorewrite with bools in Hc. unfold is_regular in Hc. simpl in Hc. simplify_eq. destruct Hc; congruence.
    + autorewrite with bools in Hc. unfold is_regular in Hc. simpl in Hc. destruct Hc as [Hk Hm].
      destruct k as [d| |]; try discriminate Hk.
      apply wp_bind, wp_of_result. destruct (path_parent_dir p) as [q|] eqn:Hq; simpl.
      * eapply wp_mono; [apply verify_same_owner_checks|]. intros r s' (-> & H1 & H2). split; [done|]. split.
        -- intros Hr. exists d, i, m, u, q. auto.
        -- intros Hb (d' & j & m' & u' & q' & _ & _ & Hq' & Ho). simplify_eq. auto.
      * split; [done|]. split; [done|]. intros _ (d' & j & m' & u' & q' & _ & _ & Hq' & Ho). congruence.
  - intros e He. split; [done|]. split; [done|]. intros Hb (d & i & m & u & q & Hi & _). destruct He as [[_ ?]|[_ ?]]; congruence.
Qed.
End checks_lemmas.

(** An injected failure never contradicts a check. *)
Ltac io_err := intros; split; [done|]; split; [done|]; congruence.

Section more_checks.
Context `{Blake3Lib} (b : bool) (s : Fs) (Hwf : fs_wf s).

Lemma follow_node fuel p i n :
  node_at s p = Some (i, n) -> (forall t, i_kind n <> KSymlink t) -> follow fuel s p = Ok (i, n).
Proof.
  intros Hp Hn. destruct fuel; simpl; rewrite (lookup_path_node s p _ Hwf Hp);
    destruct (i_kind n) eqn:Hk; done || (by destruct (Hn target)).
Qed.

Lemma wp_open_read p i d m u (Q : result StorageError bytes -> Fs -> Prop) :
  node_at s p = Some (i, mkInode (KFile d) m u) ->
  Q (Ok d) s -> (forall e, b = true -> Q (Err e) s) ->
  wp b (let! f := sys (sys_open p) in sys (sys_read_to_end (fst f))) s Q.
Proof.
  intros Hp Hok Herr. apply wp_bind, wp_sys; [by apply Herr|].
  unfold sys_open. rewrite (follow_node _ p i _ Hp) by done.
  apply wp_sys; [by apply Herr|]. unfold sys_read_to_end. simpl.
  apply node_at_Some in Hp as [_ ->]. done.
Qed.

Lemma verify_file_checks p size digest : checks b (verify_file p size digest) s (stored s p size digest).
Proof.
  apply (wp_check_bind b s _ (exists d, secure_file s p d)); [by apply verify_regular_file_checks|..].
  - intros (d & i & m & u & q & Hp & Hm & Hq & Ho).
    assert (secure_file s p d) as Hd by (exists i, m, u, q; auto).
    apply wp_bind, wp_sys; [io_err|]. unfold sys_open. rewrite (follow_node _ p i _ Hp) by done.
    apply wp_bind, wp_sys; [io_err|]. unfold sys_read_to_end. simpl.
    pose proof Hp as [_ Hi]%node_at_Some. rewrite Hi. cbn [i_kind].
    assert (stored s p size digest <-> len d = size /\ blake3_hash d = digest) as Hst.
    { unfold stored. split; [|by eauto]. intros (d' & (j & m' & u' & q' & Hj & _) & Hl & Hh). naive_solver. }
    case_match eqn:H1; [|case_match eqn:H2]; (apply wp_fail || apply wp_ret); autorewrite with bools in *;
      (split; [done|]); split; rewrite ?Hst; naive_solver.
  - intros e He. split; [done|]. split; [done|]. intros Hb (d & Hd & _). destruct (He Hb). by exists d.
Qed.

Lemma sync_directory_checks p : checks b (sync_directory p) s (secure_dir s p).
Proof.
  apply (wp_check_bind b s _ (secure_dir s p)); [by apply verify_directory_checks|..].
  - intros (i & n & Hp & Hd & Hm). apply wp_bind, wp_sys; [io_err|].
    unfold sys_open. rewrite (follow_node _ p i n Hp).
    + apply wp_sys; [io_err|]. simpl. split; [done|]. split; [|done]. intros _. by exists i, n.
    + intros t Ht. unfold is_directory in Hd. by rewrite Ht in Hd.
  - intros e He. split; [done|]. split; [done|]. intros Hb HP. by destruct (He Hb).
Qed.

Lemma wp_path_kind p (Q : result StorageError PathKind -> Fs -> Prop) :
  (forall x, node_at s p = Some x -> Q (Ok Present) s) ->
  (node_at s p = None -> Q (Ok Missing) s) ->
  (forall e, (b = false -> lookup_path s p = Err OtherIo) -> Q (Err (Io e)) s) ->
  wp b (path_kind p) s Q.
Proof.
  intros Hp Hm He. apply wp_bind, wp_attempt, wp_sys.
  - intros Hb. apply wp_fail. apply He. by rewrite Hb.
  - unfold sys_symlink_metadata. destruct (lookup_path s p) as [x|e] eqn:Hl.
    + apply wp_ret. eapply Hp. by apply lookup_path_Ok.
    + pose proof (lookup_path_NotFound s p e Hwf Hl). destruct e; cbn [from_io StorageError_from_io].
      * by apply wp_ret, Hm.
      * apply wp_fail, He. intros _. exfalso. clear -Hl. unfold lookup_path in Hl. revert Hl. generalize (@nil string) as q.
        induction p as [|c p IH]; intros q; simpl; destruct (node_at s q) as [[i n]|]; try done.
        destruct (is_directory n); [apply IH|done].
      * by apply wp_fail, He.
Qed.

(** [if_present] runs its action on a path that is there, and does nothing on
    one that is not. *)
Lemma wp_if_present p action Q :
  (forall x, node_at s p = Some x -> wp b action s Q) ->
  (node_at s p = None -> Q (Ok tt) s) ->
  (forall e, (b = false -> lookup_path s p = Err OtherIo) -> Q (Err (Io e)) s) ->
  wp b (if_present p action) s Q.
Proof.
  intros Hp Hm He. assert (wp b (path_kind p) s (fun r s' => match r with
    | Ok Present => s' = s /\ exists x, node_at s p = Some x | Ok Missing => s' = s /\ node_at s p = None
    | Err e => s' = s /\ exists e', e = Io e' /\ (b = false -> lookup_path s p = Err OtherIo) end)) as Hk.
  { apply wp_path_kind; [by eauto..|]. intros e He'. split; [done|]. by eexists. }
  intros fl Hfl. specialize (Hk fl Hfl). unfold path_kind, if_present, bind, attempt in *.
  destruct (symlink_metadata p (mkWorld s fl)) as [[x|[[]| | | | | |]] [s' fl']] eqn:Hsm; simpl in Hk;
    repeat match goal with H : _ /\ _ |- _ => destruct H | H : exists _, _ |- _ => destruct H end; simplify_eq;
    try (simpl; split; [by eauto|done]).
  by eapply Hp.
Qed.

(** Below an existing directory only an I/O failure is an error. *)
Lemma child_lookup q c : dir_at s q -> lookup_path s (join q c) <> Err OtherIo.
Proof.
  intros Hq Hl. destruct (node_at s (join q c)) as [y|] eqn:Hy.
  - by rewrite (lookup_path_node _ _ _ Hwf Hy) in Hl.
  - unfold join in *. by rewrite lookup_path_missing in Hl.
Qed.

Lemma wp_path_kind_in q c (Q : result StorageError PathKind -> Fs -> Prop) :
  dir_at s q ->
  (forall x, node_at s (join q c) = Some x -> Q (Ok Present) s) ->
  (node_at s (join q c) = None -> Q (Ok Missing) s) ->
  (forall e, b = true -> Q (Err e) s) -> wp b (path_kind (join q c)) s Q.
Proof.
  intros Hq Hp Hm He. apply wp_path_kind; [done..|]. intros e Hl. apply He. destruct b; [done|].
  by destruct (child_lookup q c), Hl.
Qed.

Lemma wp_if_present_in q c action Q :
  dir_at s q ->
  (forall x, node_at s (join q c) = Some x -> wp b action s Q) ->
  (node_at s (join q c) = None -> Q (Ok tt) s) ->
  (forall e, b = true -> Q (Err e) s) -> wp b (if_present (join q c) action) s Q.
Proof.
  intros Hq Hp Hm He. apply wp_if_present; [done..|]. intros e Hl. apply He. destruct b; [done|].
  by destruct (child_lookup q c), Hl.
Qed.
End more_checks.

(** ** Directories *)

Section directories.
Implicit Types (s : Fs) (p q : list string) (n : Inode).

Lemma add_inode_node s p n q :
  node_at (add_inode s p n) q = if decide (q = p) then Some (next_ino s, n) else
    match names s !! q with
    | Some i => if decide (i = next_ino s) then Some (i, n) else node_at s q
    | None => None
    end.
Proof.
  unfold node_at, add_inode. simpl. destruct (decide (q = p)) as [->|Hq].
  - by rewrite !lookup_insert_eq.
  - rewrite lookup_insert_ne by done. destruct (names s !! q) as [i|]; [|done].
    destruct (decide (i = next_ino s)) as [->|Hi]; [by rewrite lookup_insert_eq|by rewrite lookup_insert_ne].
Qed.

Lemma set_add_inode s p n n' : set_inode (add_inode s p n) (next_ino s) n' = add_inode s p n'.
Proof. unfold set_inode, add_inode. simpl. by rewrite insert_insert_eq. Qed.

Lemma add_inode_inodes s p n : fs_wf s -> inodes s ⊆ inodes (add_inode s p n).
Proof. intros Hwf. apply insert_subseteq. by apply next_fresh. Qed.

Lemma add_dir_evolves s p n :
  fs_wf s -> node_at s p = None -> is_directory n = true -> evolves [] [] s (add_inode s p n).
Proof.
  intros Hwf Hp Hn. apply node_at_None in Hp; [|done]. split; [by apply add_inode_inodes|..|done|done].
  - intros q i Hq _. simpl. rewrite lookup_insert_ne; [done|]. congruence.
  - intros q i. simpl. rewrite lookup_insert_Some. intros [[<- <-]|[_ Hq]]; [|by left].
    right. right. exists (next_ino s), n. split; [|done]. rewrite add_inode_node. by rewrite decide_True.
Qed.

(** The directory can be created, or is there already. *)
Definition creatable s p : Prop :=
  (node_at s p = None /\ exists q c, p = q ++ [c] /\ dir_at s q) \/ own_dir s p.

(** A path the engine may create as a directory of its own. *)
Definition free_or_own s p : Prop := node_at s p = None \/ own_dir s p.

(** The umask leaves the owner's bits alone. *)
Definition usual_umask s : Prop :=
  Z.land (Z.land DIRECTORY_MODE (Z.lnot (fs_umask s))) PERMISSION_BITS = DIRECTORY_MODE.

(** What creating a directory guarantees, whatever its outcome. *)
Definition created (b : bool) p s (r : result StorageError unit) s' : Prop :=
  fs_wf s' /\ evolves [] [] s s' /\ (forall q, q <> p -> names s' !! q = names s !! q) /\
  (r = Ok tt -> secure_dir s' p) /\ (b = false -> creatable s p -> r = Ok tt /\ own_dir s' p) /\
  (usual_umask s -> free_or_own s p -> free_or_own s' p).

Lemma created_unchanged b p s e : fs_wf s -> (b = false -> ~ creatable s p) -> created b p s (Err e) s.
Proof.
  intros Hwf Hc. split; [done|]. split; [apply evolves_refl|]. split; [done|]. split; [done|].
  split; [|done]. intros Hb Hp. by destruct (Hc Hb).
Qed.

Lemma created_new b p s r m :
  fs_wf s -> node_at s p = None -> (exists q c, p = q ++ [c] /\ dir_at s q) ->
  (r = Ok tt /\ Z.land m PERMISSION_BITS = DIRECTORY_MODE) \/ ((exists e, r = Err e) /\ b = true) ->
  m = DIRECTORY_MODE \/ m = Z.land DIRECTORY_MODE (Z.lnot (fs_umask s)) ->
  created b p s r (add_inode s p (mkInode KDir m (fs_uid s))).
Proof.
  intros Hwf Hp (q & c & -> & Hq) Hr Hm. split; [by apply wf_add|].
  split; [by apply add_dir_evolves|]. split; [intros t Ht; by apply lookup_insert_ne|].
  assert (node_at (add_inode s (q ++ [c]) (mkInode KDir m (fs_uid s))) (q ++ [c])
          = Some (next_ino s, mkInode KDir m (fs_uid s))) as Hnew.
  { by rewrite add_inode_node, decide_True. }
  assert (usual_umask s -> own_dir (add_inode s (q ++ [c]) (mkInode KDir m (fs_uid s))) (q ++ [c])) as Hown.
  { intros Hu. eexists _, _. split; [done|]. split; [done|]. split; [|done]. simpl. destruct Hm as [->| ->]; [done|].
    exact Hu. }
  destruct Hr as [[-> Hmode]|[[e ->] Hb]].
  - split; [intros _; by eexists _, _|]. split; [|by right; auto]. intros _ _. split; [done|]. by eexists _, _.
  - split; [done|]. split; [congruence|]. by right; auto.
Qed.

Lemma wp_create_secure_directory b s p : fs_wf s -> wp b (create_secure_directory p) s (created b p s).
Proof.
  intros Hwf. apply wp_bind, wp_attempt, wp_symlink_metadata; [done|..].
  { intros x Hx. eapply wp_mono; [by apply verify_directory_checks|]. intros r s' (-> & H1 & H2).
    split; [done|]. split; [apply evolves_refl|]. split; [done|]. split; [done|]. split; [|done].
    intros Hb [[? _]|Ho]; [congruence|]. split; [|done]. by apply H2; [|apply own_secure]. }
  intros e He. destruct e; cbn [from_io StorageError_from_io].
  2,3: apply wp_fail, created_unchanged; [done|]; intros Hb [(Hn & q & c & -> & Hq)|(i & n & Hi & _)];
    destruct He as [[? ?]|[Hl ?]]; try congruence; by rewrite lookup_path_missing in Hl.
  destruct He as [[? _]|[Hl Hp]]; [done|]. apply wp_bind, wp_sys; [intros Hb; apply created_unchanged; congruence|].
  unfold sys_create. destruct (entry_parent p s) as [[]|e] eqn:He.
  2:{ apply created_unchanged; [done|]. intros Hb [(_ & Hq)|(i & n & Hi & _)]; [|congruence].
      by rewrite (proj2 (entry_parent_Ok s p Hwf) Hq) in He. }
  apply entry_parent_Ok in He; [|done]. rewrite Hp.
  set (n1 := mkInode KDir (Z.land DIRECTORY_MODE (Z.lnot (fs_umask s))) (fs_uid s)).
  assert (fs_wf (add_inode s p n1)) as Hwf1 by (destruct He as (q & c & -> & Hq); by apply wf_add).
  assert (node_at (add_inode s p n1) p = Some (next_ino s, n1)) as Hn1 by (by rewrite add_inode_node, decide_True).
  assert (forall e, b = true -> created b p s (Err e) (add_inode s p n1)) as Hfail1.
  { intros e Hb. apply created_new; [done..| |by auto]. right. by eauto. }
  apply wp_bind, wp_sys; [by apply Hfail1|].
  unfold sys_chmod. rewrite (follow_node _ Hwf1 _ p _ _ Hn1) by done. cbn [fst].
  unfold sys_fchmod. apply node_at_Some in Hn1 as [_ Hi1]. rewrite Hi1. cbn [i_kind i_uid n1]. rewrite set_add_inode.
  set (s2 := add_inode s p (mkInode KDir DIRECTORY_MODE (fs_uid s))).
  assert (fs_wf s2) as Hwf2 by (destruct He as (q & c & -> & Hq); by apply wf_add).
  assert (forall e, b = true -> created b p s (Err e) s2) as Hfail2.
  { intros e Hb. apply created_new; [done..| |by auto]. right. by eauto. }
  assert (created b p s (Ok tt) s2) as Hok by (apply created_new; auto).
  assert (secure_dir s2 p) as Hs2 by apply Hok, eq_refl.
  assert (forall e, (b = false -> ~ secure_dir s2 p) -> created b p s (Err e) s2) as Hno.
  { intros e Hb. apply Hfail2. destruct b; [done|]. by destruct (Hb eq_refl). }
  eapply (wp_check_bind _ s2); [by apply verify_directory_checks| |done]. intros _.
  eapply (wp_check_bind _ s2); [by apply sync_directory_checks| |done]. intros _.
  destruct He as (q & c & Heq & Hq). assert (path_parent_dir p = Some q) as -> by (rewrite Heq; apply parent_dir_snoc).
  apply wp_bind, wp_sys; [by apply Hfail2|]. unfold sys_open.
  assert (dir_at s2 q) as (i & n & Hi & Hn) by (eapply evolves_dir; [apply Hok|done|set_solver]).
  rewrite (follow_node _ Hwf2 _ q i n Hi) by (intros t Ht; unfold is_directory in Hn; by rewrite Ht in Hn).
  apply wp_sys; [by apply Hfail2|done].
Qed.
End directories.

Section levels.
Implicit Types (s : Fs) (p q : list string).

(** The directories [p/a], [p/a/f] and [p/a/f/c]. *)
Definition levels p (a f c : string) : list (list string) := [join p a; join (join p a) f; join (join (join p a) f) c].
Definition leaf p (a f c : string) : list string := join (join (join p a) f) c.

(** The guarantees of opening the directory [d] below [p], which may create the
    directories of [ls]. *)
Definition placed (b : bool) p (ls : list (list string)) (d : list string) s
    (r : result StorageError (list string)) s' : Prop :=
  fs_wf s' /\ evolves [] [] s s' /\ (forall q, q ∉ ls -> names s' !! q = names s !! q) /\
  (forall d', r = Ok d' -> d' = d /\ secure_dir s' d) /\
  (b = false -> own_dir s p -> Forall (free_or_own s) ls -> r = Ok d /\ own_dir s' d) /\
  (usual_umask s -> forall q, free_or_own s q -> free_or_own s' q).

Lemma free_or_own_frame s s' (ls : list (list string)) q :
  fs_wf s -> fs_wf s' -> evolves [] [] s s' -> (forall q, q ∉ ls -> names s' !! q = names s !! q) ->
  free_or_own s q -> q ∉ ls -> free_or_own s' q.
Proof.
  intros Hwf Hwf' Hev Hfr [Hq|Hq] Hin.
  - left. apply node_at_None; [done|]. rewrite Hfr by done. by apply node_at_None.
  - right. eapply evolves_own_dir; [done..|set_solver].
Qed.

Lemma join_neq p c : p <> join p c.
Proof. intros Hp. apply (f_equal length) in Hp. unfold join in Hp. rewrite length_app in Hp. simpl in Hp. lia. Qed.

Lemma wp_child_directory b s p c :
  fs_wf s -> wp b (child_directory p c) s (placed b p [join p c] (join p c) s).
Proof.
  intros Hwf. unfold child_directory. apply wp_bind.
  eapply wp_mono; [by apply wp_create_secure_directory|].
  intros r s' (Hwf' & Hev & Hfr & Hsec & Hlive & Hfree).
  assert (forall q, q ∉ [join p c] -> names s' !! q = names s !! q) as Hfr' by (intros q Hq; apply Hfr; set_solver).
  assert (usual_umask s -> forall q, free_or_own s q -> free_or_own s' q) as Hfree'.
  { intros Hu q Hq. destruct (decide (q = join p c)) as [->|Hne]; [by apply Hfree|].
    eapply (free_or_own_frame s s' [join p c] q); [done..|set_solver]. }
  assert (b = false -> own_dir s p -> Forall (free_or_own s) [join p c] ->
          r = Ok tt /\ own_dir s' (join p c) /\ own_dir s' p) as Hl.
  { intros Hb Hp Hc. rewrite Forall_singleton in Hc.
    assert (creatable s (join p c)) as Hcr.
    { destruct Hc as [Hc|Ho]; [left|by right]. split; [done|]. exists p, c. split; [done|].
      by apply secure_dir_at, own_secure. }
    destruct (Hlive Hb Hcr) as [-> Ho]. split; [done|]. split; [done|].
    eapply evolves_own_dir; [done..|set_solver]. }
  destruct r as [[]|e].
  - eapply (wp_check_bind _ s'); [by apply verify_same_owner_checks|..].
    + intros Ho. apply wp_ret. split; [done|]. split; [done|]. split; [done|]. split; [|split; [|done]].
      * intros d [= <-]. auto.
      * intros Hb Hp Hc. by destruct (Hl Hb Hp Hc) as (_ & ? & _).
    + intros e He. split; [done|]. split; [done|]. split; [done|]. split; [done|]. split; [|done].
      intros Hb Hp Hc. destruct (Hl Hb Hp Hc) as (_ & H1 & H2). destruct (He Hb). by apply own_same_owner.
  - split; [done|]. split; [done|]. split; [done|]. split; [done|]. split; [|done].
    intros Hb Hp Hc. by destruct (Hl Hb Hp Hc) as [? _].
Qed.

(** Opening one more level below a directory that was just opened. *)
Lemma wp_next_level b s p ls d (m : list string -> St (list string)) (ls' : list (list string)) d' r1 s1 :
  fs_wf s -> placed b p ls d s r1 s1 -> d ∉ ls' -> (forall q, q ∈ ls' -> q ∉ ls) ->
  (forall s, fs_wf s -> wp b (m d) s (placed b d ls' d' s)) ->
  match r1 with
  | Ok a => wp b (m a) s1 (placed b p (ls ++ ls') d' s)
  | Err e => placed b p (ls ++ ls') d' s (Err e) s1
  end.
Proof.
  intros Hwf (Hwf1 & Hev1 & Hfr1 & Hok1 & Hl1 & Hfree1) Hd Hdisj Hm. destruct r1 as [a|e].
  - destruct (Hok1 a eq_refl) as [-> Hs1].
    eapply wp_mono; [by apply Hm|]. intros r s2 (Hwf2 & Hev2 & Hfr2 & Hok2 & Hl2 & Hfree2).
    split; [done|]. split; [by eapply evolves_trans|].
    split; [intros q Hq; rewrite Hfr2, Hfr1; set_solver|]. split; [done|].
    split; [|intros Hu q Hq; apply Hfree2, Hfree1, Hq; [|done]; unfold usual_umask; by rewrite (ev_umask _ _ _ _ Hev1)].
    intros Hb Hp Hls. apply Forall_app in Hls as [Hls Hls']. destruct (Hl1 Hb Hp Hls) as [_ Ho].
    apply Hl2; [done..|]. apply Forall_forall. intros q Hq. rewrite Forall_forall in Hls'.
    eapply (free_or_own_frame s s1 ls q); [done..|by apply Hls'|by apply Hdisj].
  - split; [done|]. split; [done|]. split; [intros q Hq; apply Hfr1; set_solver|]. split; [done|]. split; [|done].
    intros Hb Hp Hls. apply Forall_app in Hls as [Hls _]. by destruct (Hl1 Hb Hp Hls) as [? _].
Qed.

Lemma wp_three_levels b s p a f c :
  fs_wf s ->
  wp b (let! x := child_directory p a in let! y := child_directory x f in child_directory y c) s
    (placed b p (levels p a f c) (leaf p a f c) s).
Proof.
  intros Hwf. apply wp_bind. eapply wp_mono; [by apply wp_child_directory|]. intros r1 s1 H1.
  assert (forall x y z : list string, length x <> length y -> z = x -> z <> y) as Hlen by (intros x y z ? -> ->; done).
  assert (forall x c, length (join x c) = S (length x)) as Hj.
  { intros x k. unfold join. rewrite length_app. simpl. lia. }
  refine (wp_next_level b s p [join p a] (join p a)
            (fun x => let! y := child_directory x f in child_directory y c)
            [join (join p a) f; leaf p a f c] (leaf p a f c) r1 s1 Hwf H1 _ _ _).
  - set_unfold. intros [Hq|[Hq|[]]]; apply (f_equal length) in Hq; unfold leaf in Hq; rewrite !Hj in Hq; lia.
  - intros q. set_unfold. intros [->|[->|[]]] [Hq|[]]; apply (f_equal length) in Hq; unfold leaf in Hq; rewrite !Hj in Hq; lia.
  - clear s s1 r1 Hwf H1. intros s Hwf. apply wp_bind. eapply wp_mono; [by apply wp_child_directory|]. intros r1 s1 H1.
    refine (wp_next_level b s (join p a) [join (join p a) f] (join (join p a) f)
            (fun y => child_directory y c) [leaf p a f c] (leaf p a f c) r1 s1 Hwf H1 _ _ _).
    + rewrite list_elem_of_singleton. intros Hq. apply (f_equal length) in Hq. unfold leaf in Hq. rewrite !Hj in Hq. lia.
    + intros q. rewrite !list_elem_of_singleton. intros -> Hq. apply (f_equal length) in Hq. unfold leaf in Hq.
      rewrite !Hj in Hq. lia.
    + intros s' Hwf'. by apply wp_child_directory.
Qed.
End levels.
