(* ===== verification/StorageProofs.v ===== *)
(** Correctness of publication, quarantine, deletion and verified reads of the
    storage engine, under every schedule of I/O failures. *)
From S2P Require Import Prelude Libraries Frames PosixFs StorageLayout StorageFacts.
Open Scope string_scope.
Open Scope Z_scope.
Open Scope list_scope.
Open Scope bool_scope.

(** ** Names that come and go *)

Section links.
Implicit Types (s : Fs) (p q src dst : list string).

Definition linkable s src dst : Prop :=
  (exists i n, node_at s src = Some (i, n) /\ is_directory n = false) /\
  (exists q c, dst = q ++ [c] /\ dir_at s q).

Lemma link_evolves s src dst i n q c :
  fs_wf s -> node_at s src = Some (i, n) -> node_at s dst = None -> dst = q ++ [c] -> dir_at s q ->
  let s' := set_names s (<[dst := i]> (names s)) in
  fs_wf s' /\ evolves [] [dst] s s' /\ node_at s' dst = Some (i, n).
Proof.
  intros Hwf Hsrc Hdst -> Hq s'. pose proof Hsrc as [_ Hi]%node_at_Some.
  assert (names s !! (q ++ [c]) = None) as Hnone by by apply node_at_None.
  split; [|split].
  - apply wf_insert; [done..| |by eexists]. by apply no_children, not_dir_none.
  - split; [done|..|done|done].
    + intros p j Hp _. simpl. rewrite lookup_insert_ne; [done|]. congruence.
    + intros p j. simpl. rewrite lookup_insert_Some. intros [[<- _]|[_ Hp]]; [|by left]. right. left. set_solver.
  - apply node_at_Some. simpl. by rewrite lookup_insert_eq.
Qed.

Lemma wp_hard_link b s src dst (Q : result StorageError unit -> Fs -> Prop) :
  fs_wf s ->
  (forall i n s', node_at s src = Some (i, n) -> node_at s dst = None ->
     fs_wf s' -> evolves [] [dst] s s' -> node_at s' dst = Some (i, n) -> Q (Ok tt) s') ->
  (forall x, node_at s dst = Some x -> Q (Err (Io AlreadyExists)) s) ->
  (forall e, e <> AlreadyExists -> (b = false -> ~ linkable s src dst) -> Q (Err (Io e)) s) ->
  wp b (sys (sys_hard_link src dst)) s Q.
Proof.
  intros Hwf Hok Hex Herr. apply wp_sys; [intros Hb; apply Herr; [done|congruence]|].
  assert (forall q e, lookup_path s q = Err e -> e <> AlreadyExists) as Hne.
  { intros q e. unfold lookup_path. generalize (@nil string) as x. induction q as [|c q IH]; intros x; simpl;
      destruct (node_at s x) as [[i n]|]; intros He; simplify_eq; try done.
    destruct (is_directory n); [by eapply IH|]. by simplify_eq. }
  unfold sys_hard_link. destruct (lookup_path s src) as [[i n]|e] eqn:Hsrc.
  2:{ apply Herr; [by eapply Hne|]. intros _ [(i & n & Hi & _) _].
      by rewrite (lookup_path_node s src _ Hwf Hi) in Hsrc. }
  apply lookup_path_Ok in Hsrc. destruct (entry_parent dst s) as [[]|e] eqn:Hp.
  2:{ apply Herr.
      - unfold entry_parent in Hp. destruct (path_parent_dir dst) as [q|]; [|by simplify_eq].
        destruct (lookup_path s q) as [x|] eqn:Hq; [|simplify_eq; by eapply Hne].
        destruct (is_directory x.2); by simplify_eq.
      - intros _ [_ Hq]. by rewrite (proj2 (entry_parent_Ok s dst Hwf) Hq) in Hp. }
  apply entry_parent_Ok in Hp as (q & c & -> & Hq); [|done].
  destruct (node_at s (q ++ [c])) as [x|] eqn:Hdst; [by eapply Hex|]. cbn [fst snd].
  destruct (is_directory n) eqn:Hn.
  - apply Herr; [done|]. intros _ [(i' & n' & Hi & Hn') _]. congruence.
  - destruct (link_evolves s src (q ++ [c]) i n q c) as (H1 & H2 & H3); [done..|]. by eapply Hok.
Qed.

Lemma unlink_evolves s p i n :
  fs_wf s -> node_at s p = Some (i, n) -> is_directory n = false ->
  let s' := set_names s (delete p (names s)) in
  fs_wf s' /\ evolves [p] [] s s' /\ node_at s' p = None.
Proof.
  intros Hwf Hp Hn s'. split; [|split].
  - apply wf_delete; [done|..].
    + intros ->. by eapply not_dir_node, wf_root.
    + by eapply no_children, not_dir_node.
  - split; [done|..|done|done].
    + intros q j Hq HR. simpl. rewrite lookup_delete_ne; [done|]. set_solver.
    + intros q j. simpl. rewrite lookup_delete_Some. intros [_ Hq]. by left.
  - unfold s'. rewrite node_at_names. by rewrite lookup_delete_eq.
Qed.

Lemma wp_remove_file b s p (Q : result StorageError unit -> Fs -> Prop) :
  fs_wf s ->
  (forall i n s', node_at s p = Some (i, n) -> is_directory n = false ->
     fs_wf s' -> evolves [p] [] s s' -> s' = set_names s (delete p (names s)) -> Q (Ok tt) s') ->
  (forall e, (b = false -> ~ exists i n, node_at s p = Some (i, n) /\ is_directory n = false) -> Q (Err e) s) ->
  wp b (sys (sys_remove_file p)) s Q.
Proof.
  intros Hwf Hok Herr. apply wp_sys; [intros Hb; apply Herr; congruence|].
  unfold sys_remove_file. destruct (lookup_path s p) as [[i n]|e] eqn:Hp.
  - apply lookup_path_Ok in Hp. simpl. destruct (is_directory n) eqn:Hn.
    + apply Herr. intros _ (i' & n' & Hi & Hn'). congruence.
    + destruct (unlink_evolves s p i n) as (H1 & H2 & H3); [done..|]. by eapply Hok.
  - apply Herr. intros _ (i & n & Hi & _). by rewrite (lookup_path_node s p _ Hwf Hi) in Hp.
Qed.
End links.

(** ** Publication by hard link *)

Section publication.
Context `{Blake3Lib}.
Implicit Types (s : Fs) (p q tmp dst : list string).

Lemma evolves_stored R A s s' p q size digest :
  evolves R A s s' -> stored s p size digest -> path_parent_dir p = Some q -> p ∉ R -> q ∉ R ->
  stored s' p size digest.
Proof. intros Hev (d & Hd & Hl & Hh) Hq Hp HqR. exists d. split; [by eapply evolves_secure_file|done]. Qed.

Lemma stored_node s p size digest :
  stored s p size digest -> exists i n, node_at s p = Some (i, n) /\ is_directory n = false.
Proof. intros (d & (i & m & u & q & Hp & _) & _). by eexists _, _. Qed.

(** The two outcomes of linking: the destination is the inode of [tmp], or
    nothing changed. *)
Definition linked tmp dst s s' : Prop :=
  (node_at s dst = None /\ node_at s' dst = node_at s tmp) \/ s' = s.

Lemma wp_link_or_verify b s tmp dst q on_exists P :
  fs_wf s -> path_parent_dir dst = Some q -> secure_dir s q ->
  (exists i n, node_at s tmp = Some (i, n) /\ is_directory n = false) -> checks b on_exists s P ->
  wp b (link_or_verify tmp dst on_exists) s (fun r s' =>
    fs_wf s' /\ evolves [] [dst] s s' /\ linked tmp dst s s' /\
    (r = Ok tt -> (node_at s dst = None /\ node_at s' dst = node_at s tmp) \/
                  (s' = s /\ (exists x, node_at s dst = Some x) /\ P)) /\
    (b = false -> node_at s dst = None \/ P -> r = Ok tt)).
Proof.
  intros Hwf Hq Hsec Htmp Hchk. pose proof Hq as [c Hdst]%parent_dir_Some.
  unfold link_or_verify. apply wp_bind, wp_attempt. apply wp_hard_link; [done|..].
  - intros i n s' Ht Hd Hwf' Hev Hd'. apply wp_bind, wp_of_result. rewrite Hq. simpl.
    assert (secure_dir s' q) as Hsec'.
    { destruct Hsec as (j & m & Hj & ?). exists j, m. split; [|done]. eapply evolves_node; [done..|set_solver]. }
    assert (linked tmp dst s s') as Hl by (left; split; [done|congruence]).
    eapply (wp_check _ s'); [by apply sync_directory_checks|..].
    + intros _. split; [done|]. split; [done|]. split; [done|]. split; [|done]. intros _. left. split; [done|congruence].
    + intros e He. split; [done|]. split; [done|]. split; [done|]. split; [done|].
      intros Hb _. by destruct (He Hb).
  - intros x Hx. eapply wp_mono; [exact Hchk|]. intros r s' (-> & H1 & H2).
    split; [done|]. split; [apply evolves_refl|]. split; [by right|]. split.
    + intros Hr. right. split; [done|]. split; [by exists x|auto].
    + intros Hb [?|HP]; [congruence|auto].
  - intros e Hne He. destruct e; [|done|]; apply wp_fail; (split; [done|]); (split; [apply evolves_refl|]);
      (split; [by right|]); (split; [done|]); intros Hb _; destruct (He Hb); (split; [done|]);
      exists q, c; (split; [done|]); by apply secure_dir_at.
Qed.

(** Whatever [dst] becomes, it has the expected content. *)
Definition content_at s p (size : Z) (digest : bytes) : Prop :=
  exists i d m u, node_at s p = Some (i, mkInode (KFile d) m u) /\ len d = size /\ blake3_hash d = digest.

Lemma stored_content s p size digest : stored s p size digest -> content_at s p size digest.
Proof. intros (d & (i & m & u & q & Hp & _) & Hl & Hh). by exists i, d, m, u. Qed.

(** The guarantees of publishing the file [tmp] as [dst]. *)
Record published (tmp dst : list string) (size : Z) (digest : bytes) s s' : Prop := {
  pub_wf : fs_wf s';
  pub_evolves : evolves [tmp] [dst] s s';
  pub_content : node_at s dst = None -> (exists x, node_at s' dst = Some x) -> content_at s' dst size digest
}.

Lemma published_none tmp dst size digest s s' :
  fs_wf s -> fs_wf s' -> evolves [] [] s s' -> names s' !! dst = names s !! dst ->
  published tmp dst size digest s s'.
Proof.
  intros Hwf Hwf' Hev Hdst. split; [done|by eapply evolves_weaken; [..|exact Hev]; set_solver|].
  intros Hn ([i n] & [Hx _]%node_at_Some). apply node_at_None in Hn; [|done]. congruence.
Qed.

(** Linking a verified file. *)
Lemma published_linked tmp dst size digest s s1 s2 :
  published tmp dst size digest s s1 -> fs_wf s -> names s1 !! dst = names s !! dst ->
  stored s1 tmp size digest -> fs_wf s2 -> evolves [] [dst] s1 s2 -> linked tmp dst s1 s2 ->
  published tmp dst size digest s s2.
Proof.
  intros [_ Hev Hc] Hwf Hdst Ht Hwf2 Hev2 Hl. split; [done|..].
  - eapply evolves_trans; [done|]. eapply evolves_weaken; [..|exact Hev2]; set_solver.
  - intros Hn Hx. destruct Hl as [[Hn1 Hn2]| ->]; [|by apply Hc].
    apply stored_content in Ht as (i & d & m & u & Hp & Hh). exists i, d, m, u. by rewrite Hn2.
Qed.

(** Removing the temporary afterwards. *)
Lemma published_unlinked tmp dst size digest s s2 s3 :
  published tmp dst size digest s s2 -> tmp <> dst -> fs_wf s3 -> evolves [tmp] [] s2 s3 ->
  s3 = set_names s2 (delete tmp (names s2)) -> published tmp dst size digest s s3.
Proof.
  intros [Hwf2 Hev Hc] Hne Hwf3 Hev3 Hd. split; [done|..].
  - eapply evolves_trans; [done|]. eapply evolves_weaken; [..|exact Hev3]; set_solver.
  - intros Hn ([i n] & [Hx _]%node_at_Some). rewrite Hd in Hx. simpl in Hx. rewrite lookup_delete_ne in Hx by done.
    destruct (wf_ino s2 Hwf2 dst i Hx) as [n' Hn'].
    destruct (Hc Hn) as (j & d & m & u & Hj & Hh); [exists (i, n'); by apply node_at_Some|].
    exists j, d, m, u. split; [|done]. eapply evolves_node; [done..|set_solver].
Qed.

Lemma node_at_deleted s s' p : s' = set_names s (delete p (names s)) -> node_at s' p = None.
Proof. intros ->. unfold node_at. simpl. by rewrite lookup_delete_eq. Qed.

Lemma published_refl tmp dst size digest s : fs_wf s -> published tmp dst size digest s s.
Proof. intros Hwf. by apply published_none; [..|apply evolves_refl|]. Qed.
(** A link between two directories of the process is as good as the original. *)
Lemma linked_stored tmp dst q qt size digest s s' :
  stored s tmp size digest -> path_parent_dir tmp = Some qt -> own_dir s qt ->
  path_parent_dir dst = Some q -> own_dir s q -> q <> dst ->
  evolves [] [dst] s s' -> node_at s' dst = node_at s tmp -> stored s' dst size digest.
Proof.
  intros (d & (i & m & u & qt' & Ht & Hm & Hqt' & Ho) & Hl & Hh) Hqt (j & n & Hj & _ & _ & Hu)
    Hq (k & n' & Hk & _ & _ & Hv) Hne Hev Hdst. simplify_eq.
  exists d. split; [|done]. exists i, m, u, q. rewrite Hdst. split; [done|]. split; [done|]. split; [done|].
  destruct Ho as (x & y & Hx & Hy & Hxy). simplify_eq. simpl in *.
  exists (i, mkInode (KFile d) m u), (k, n'). rewrite Hdst. split; [done|].
  split; [eapply evolves_node; [done..|set_solver]|]. simpl. congruence.
Qed.

Lemma parent_neq p q : path_parent_dir p = Some q -> q <> p.
Proof. intros [c ->]%parent_dir_Some. apply join_neq. Qed.

(** When the second half of a publication, from the link on, must succeed. *)
Definition link_live tmp dst q size digest s : Prop :=
  own_dir s q /\ (exists qt, path_parent_dir tmp = Some qt /\ own_dir s qt) /\
  (node_at s dst = None \/ stored s dst size digest).

(** Linking, and verifying what is then at the destination. *)
Lemma wp_link_verified b s tmp dst q size digest {B} (k : St B) Q :
  fs_wf s -> path_parent_dir dst = Some q -> secure_dir s q -> stored s tmp size digest ->
  (forall s', fs_wf s' -> evolves [] [dst] s s' -> linked tmp dst s s' -> stored s' dst size digest ->
     wp b k s' Q) ->
  (forall e s', fs_wf s' -> evolves [] [dst] s s' -> linked tmp dst s s' ->
     (b = false -> ~ link_live tmp dst q size digest s) -> Q (Err e) s') ->
  wp b (let! _ := link_or_verify tmp dst (verify_file dst size digest) in
        let! _ := verify_file dst size digest in k) s Q.
Proof.
  intros Hwf Hq Hsec Ht Hok Herr. apply wp_bind.
  eapply wp_mono; [eapply wp_link_or_verify; [done..|by eapply stored_node|by apply verify_file_checks]|].
  intros [[]|e] s' (Hwf' & Hev & Hl & Hr & Hlive).
  - apply (wp_check_bind b s' _ (stored s' dst size digest)); [by apply verify_file_checks|by apply Hok|].
    intros e He. apply Herr; [done..|]. intros Hb (Hoq & (qt & Hqt & Hot) & Hd). destruct (He Hb).
    destruct (Hr eq_refl) as [[Hn Hl']|(-> & Hx & HP)]; [|done].
    eapply linked_stored; [exact Ht|done|done|done|done|by eapply parent_neq|done..].
  - apply Herr; [done..|]. intros Hb (_ & _ & Hd). by specialize (Hlive Hb Hd).
Qed.

(** Releasing the temporary once the destination is verified. *)
Lemma wp_release b s s2 tmp qt dst q size digest :
  fs_wf s2 -> published tmp dst size digest s s2 -> tmp <> dst ->
  path_parent_dir tmp = Some qt -> path_parent_dir dst = Some q -> secure_dir s2 q ->
  stored s2 dst size digest -> stored s2 tmp size digest ->
  wp b (let! _ := sys (sys_remove_file tmp) in
        let! p := parent tmp in let! _ := sync_directory p in ret dst) s2 (fun r s' =>
    published tmp dst size digest s s' /\
    (forall p, r = Ok p -> p = dst /\ stored s' dst size digest /\ node_at s' tmp = None) /\
    (b = false -> own_dir s2 qt -> r = Ok dst)).
Proof.
  intros Hwf2 Hpub2 Hne Hqt Hq Hsec Hst2 Ht2. apply wp_bind. apply wp_remove_file; [done|..].
  2:{ intros e He. split; [done|]. split; [done|]. intros Hb _. destruct (He Hb). by eapply stored_node. }
  intros i n s3 Hi Hn Hwf3 Hev3 Hdel.
  assert (published tmp dst size digest s s3) as Hpub3 by by eapply published_unlinked.
  apply wp_bind, wp_of_result. rewrite Hqt. simpl.
  eapply (wp_check_bind b s3); [by apply sync_directory_checks|..].
  - intros _. apply wp_ret. split; [done|]. split; [|done]. intros p [= <-]. split; [done|].
    split; [|by eapply node_at_deleted]. eapply evolves_stored; [exact Hev3|done|done|set_solver|].
    intros Heq%list_elem_of_singleton. subst q.
    eapply not_dir_node; [exact Hi|done|]. by apply secure_dir_at.
  - intros e He. split; [done|]. split; [done|]. intros Hb Hot. destruct (He Hb). apply own_secure.
    eapply evolves_own_dir; [exact Hev3|done|]. intros Heq%list_elem_of_singleton. by apply parent_neq in Hqt.
Qed.
End publication.

(** ** Revision chunks *)

Section revision_chunks.
Context `{UuidLib, Blake3Lib, Readdir}.
Variable root : list string.
Implicit Types (s : Fs) (p q tmp dst : list string) (l : RevisionChunkLocator).

Definition revision_levels (area : string) l : list (list string) :=
  levels root area (uuid_hyphenated (rl_drive_id l)) (hex_byte (default zero_byte (head (rl_digest l)))).
Definition revision_shard (area : string) l : list string :=
  leaf root area (uuid_hyphenated (rl_drive_id l)) (hex_byte (default zero_byte (head (rl_digest l)))).

(** Where a locator is stored. *)
Definition chunk_destination l : list string :=
  join (revision_shard "revision-chunks" l) (revision_chunk_file_name l).

Lemma wp_revision_chunk_directory b s area l :
  fs_wf s -> uuid_is_nil (rl_drive_id l) = false ->
  wp b (revision_chunk_directory root area (rl_drive_id l) (rl_digest l)) s
    (placed b root (revision_levels area l) (revision_shard area l) s).
Proof. intros Hwf Hnil. unfold revision_chunk_directory. rewrite Hnil. by apply wp_three_levels. Qed.

Lemma wp_revision_chunk_path b s l :
  fs_wf s -> uuid_is_nil (rl_drive_id l) = false ->
  wp b (revision_chunk_path root l) s (fun r s' =>
    fs_wf s' /\ evolves [] [] s s' /\
    (forall q, q ∉ revision_levels "revision-chunks" l -> names s' !! q = names s !! q) /\
    (forall d, r = Ok d -> d = chunk_destination l /\ secure_dir s' (revision_shard "revision-chunks" l)) /\
    (b = false -> own_dir s root -> Forall (free_or_own s) (revision_levels "revision-chunks" l) ->
     r = Ok (chunk_destination l) /\ own_dir s' (revision_shard "revision-chunks" l)) /\
    (usual_umask s -> forall q, free_or_own s q -> free_or_own s' q)).
Proof.
  intros Hwf Hnil. unfold revision_chunk_path. apply wp_bind.
  eapply wp_mono; [by apply wp_revision_chunk_directory|]. intros [d|e] s' (Hw & He & Hf & Hk & Hv & Hu).
  - destruct (Hk d eq_refl) as [-> Hs]. apply wp_ret. split; [done|]. split; [done|]. split; [done|].
    split; [by intros d' [= <-]|]. split; [|done]. intros Hb Hr Hl. split; [done|]. by apply Hv.
  - split; [done|]. split; [done|]. split; [done|]. split; [done|]. split; [|done].
    intros Hb Hr Hl. by destruct (Hv Hb Hr Hl) as [? _].
Qed.

Lemma levels_length p a f c q : q ∈ levels p a f c -> (length q <= length p + 3)%nat.
Proof. unfold levels, join. set_unfold. intros [->|[->|[->|[]]]]; rewrite !length_app; simpl; lia. Qed.

Lemma destination_not_level l area : chunk_destination l ∉ revision_levels area l.
Proof.
  intros Hq%levels_length. unfold chunk_destination, revision_shard, leaf, join in Hq.
  rewrite !length_app in Hq. simpl in Hq. lia.
Qed.

(** When publication must succeed: the temporary is the verified chunk in a
    directory of the process, and the destination is free or already holds it. *)
Definition publishable tmp l s : Prop :=
  stored s tmp (rl_size l) (rl_digest l) /\
  (exists q, path_parent_dir tmp = Some q /\ own_dir s q) /\
  own_dir s root /\ Forall (free_or_own s) (revision_levels "revision-chunks" l) /\
  (node_at s (chunk_destination l) = None \/ stored s (chunk_destination l) (rl_size l) (rl_digest l)).

Lemma wp_publish_revision_chunk b s tmp l :
  fs_wf s -> tmp <> chunk_destination l ->
  wp b (publish_revision_chunk root tmp l) s (fun r s' =>
    published tmp (chunk_destination l) (rl_size l) (rl_digest l) s s' /\
    (forall p, r = Ok p -> p = chunk_destination l /\
       stored s' (chunk_destination l) (rl_size l) (rl_digest l) /\ node_at s' tmp = None) /\
    (b = false -> uuid_is_nil (rl_drive_id l) = false -> publishable tmp l s -> r = Ok (chunk_destination l))).
Proof.
  intros Hwf Hne. set (dst := chunk_destination l) in *. set (size := rl_size l). set (digest := rl_digest l).
  unfold publish_revision_chunk.
  apply (wp_check_bind b s _ (stored s tmp size digest)); [by apply verify_file_checks|..].
  2:{ intros e He. split; [by apply published_refl|]. split; [done|].
      intros Hb _ (Ht & _). by destruct (He Hb). }
  intros Ht. destruct (uuid_is_nil (rl_drive_id l)) eqn:Hnil.
  { unfold revision_chunk_path, revision_chunk_directory. rewrite Hnil. do 2 apply wp_bind. apply wp_fail.
    split; [by apply published_refl|]. by split. }
  apply wp_bind. eapply wp_mono; [by apply wp_revision_chunk_path|].
  intros [d|e] s1 (Hwf1 & Hev1 & Hfr1 & Hok1 & Hl1 & _).
  2:{ split; [by apply published_none, Hfr1, destination_not_level|]. split; [done|].
      intros Hb _ (_ & _ & Hr & Hlv & _). by destruct (Hl1 Hb Hr Hlv). }
  destruct (Hok1 d eq_refl) as [-> Hsec]. fold dst.
  assert (names s1 !! dst = names s !! dst) as Hdst1 by apply Hfr1, destination_not_level.
  assert (published tmp dst size digest s s1) as Hpub1 by by apply published_none.
  assert (path_parent_dir tmp <> None) as Hqt.
  { destruct Ht as (d & (i & m & u & qt & _ & _ & Hqt & _) & _). congruence. }
  destruct (path_parent_dir tmp) as [qt|] eqn:Hqt'; [clear Hqt|done].
  assert (stored s1 tmp size digest) as Ht1 by (eapply evolves_stored; [done..|set_solver|set_solver]).
  assert (path_parent_dir dst = Some (revision_shard "revision-chunks" l)) as Hq by apply parent_dir_snoc.
  assert (b = false -> publishable tmp l s ->
          link_live tmp dst (revision_shard "revision-chunks" l) size digest s1) as Hlive1.
  { intros Hb (_ & (qt' & Hqt'' & Hot) & Hr & Hlv & Hd). destruct (Hl1 Hb Hr Hlv) as [_ Hos].
    split; [done|]. split; [exists qt'; split; [done|]; eapply evolves_own_dir; [done..|set_solver]|].
    destruct Hd as [Hd|Hd]; [left|right].
    - apply node_at_None; [done|]. rewrite Hfr1 by apply destination_not_level. by apply node_at_None.
    - eapply evolves_stored; [done..|set_solver|set_solver]. }
  apply (wp_link_verified b s1 tmp dst (revision_shard "revision-chunks" l)); [done..| |].
  2:{ intros e s2 Hwf2 Hev2 Hlk Hno. split; [|split; [done|]].
      - eapply published_linked; [exact Hpub1|done..].
      - intros Hb _ Hpb. by destruct (Hno Hb), (Hlive1 Hb Hpb). }
  intros s2 Hwf2 Hev2 Hlk Hst2.
  assert (published tmp dst size digest s s2) as Hpub2.
  { eapply published_linked; [exact Hpub1|done..]. }
  eapply wp_mono; [eapply (wp_release b s s2); [done..| |exact Hst2|]|].
  - destruct Hsec as (j & m & Hj & ?). exists j, m. split; [|done]. eapply evolves_node; [exact Hev2|done|set_solver].
  - eapply evolves_stored; [exact Hev2|done..|set_solver|set_solver].
  - intros r s3 (Hpub3 & Hok3 & Hl3). split; [done|]. split; [done|].
    intros Hb _ (_ & (qt' & Hqt'' & Hot) & _). simplify_eq. apply Hl3; [done|].
    eapply evolves_own_dir; [exact Hev2|eapply evolves_own_dir; [exact Hev1|done|]|]; set_solver.
Qed.
End revision_chunks.

(** ** Quarantine and deletion *)

Section renaming.
Implicit Types (s : Fs) (p q src dst : list string).

Lemma rename_evolves s src dst i n q c :
  fs_wf s -> node_at s src = Some (i, n) -> is_directory n = false -> node_at s dst = None ->
  dst = q ++ [c] -> dir_at s q ->
  let s' := set_names s (<[dst := i]> (delete src (names s))) in
  fs_wf s' /\ evolves [src] [dst] s s' /\ node_at s' dst = Some (i, n) /\ node_at s' src = None.
Proof.
  intros Hwf Hsrc Hn Hdst -> Hq s'. pose proof Hsrc as [Hs Hi]%node_at_Some.
  destruct (unlink_evolves s src i n Hwf Hsrc Hn) as (Hwf1 & Hev1 & Hs1).
  set (s1 := set_names s (delete src (names s))) in *.
  assert (node_at s1 (q ++ [c]) = None) as Hd1.
  { apply node_at_None in Hdst; [|done]. apply node_at_None; [done|]. simpl. by rewrite lookup_delete_None; right. }
  assert (dir_at s1 q) as Hq1.
  { eapply evolves_dir; [exact Hev1|done|]. intros ->%list_elem_of_singleton. by eapply not_dir_node. }
  assert (src <> q ++ [c]) as Hne by congruence.
  assert (fs_wf s') as Hwf'.
  { apply (wf_insert s1); [done..| |by eexists]. by apply no_children, not_dir_none. }
  split; [done|]. split; [|split].
  - split; [done|..|done|done].
    + intros p j Hp HR. simpl. rewrite lookup_insert_ne.
      * rewrite lookup_delete_ne; [done|set_solver].
      * intros <-. apply node_at_None in Hdst; [|done]. congruence.
    + intros p j. simpl. rewrite lookup_insert_Some, lookup_delete_Some.
      intros [[<- _]|(_ & _ & Hp)]; [|by left]. right. left. set_solver.
  - apply node_at_Some. simpl. by rewrite lookup_insert_eq.
  - apply node_at_None; [done|]. simpl. rewrite lookup_insert_ne by done. by rewrite lookup_delete_eq.
Qed.

Lemma wp_rename_or_moved b s src dst i n q c (Q : result StorageError unit -> Fs -> Prop) :
  fs_wf s -> node_at s src = Some (i, n) -> is_directory n = false -> node_at s dst = None ->
  dst = q ++ [c] -> dir_at s q ->
  (forall s', fs_wf s' -> evolves [src] [dst] s s' -> node_at s' dst = Some (i, n) -> node_at s' src = None ->
     s' = set_names s (<[dst := i]> (delete src (names s))) -> Q (Ok tt) s') ->
  (forall e, b = true -> Q (Err e) s) ->
  wp b (rename_or_moved src dst) s Q.
Proof.
  intros Hwf Hsrc Hn Hdst Hq Hd Hok Herr. unfold rename_or_moved. apply wp_bind, wp_attempt, wp_sys.
  - intros Hb. by apply wp_fail, Herr.
  - unfold sys_rename. rewrite (lookup_path_node s src _ Hwf Hsrc).
    rewrite (proj2 (entry_parent_Ok s dst Hwf)) by (by exists q, c). rewrite Hdst. cbn [fst snd]. rewrite Hn.
    apply wp_ret. destruct (rename_evolves s src dst i n q c) as (?&?&?&?); [done..|]. by apply Hok.
Qed.
End renaming.

Section deletion.
Context `{UuidLib, Blake3Lib, Readdir}.
Variable root : list string.
Implicit Types (s : Fs) (p q : list string) (l : RevisionChunkLocator) (op : N).

Definition quarantine_destination l op : list string :=
  join (revision_shard root "revision-quarantine" l) (quarantine_file_name l op).

(** A chunk on its way out: published, quarantined, or gone. *)
Definition chunk_state l op s : Prop :=
  let src := chunk_destination root l in
  let dst := quarantine_destination l op in
  (stored s src (rl_size l) (rl_digest l) /\ node_at s dst = None) \/
  (node_at s src = None /\ stored s dst (rl_size l) (rl_digest l)) \/
  (node_at s src = None /\ node_at s dst = None).

Definition both_levels l : list (list string) :=
  revision_levels root "revision-chunks" l ++ revision_levels root "revision-quarantine" l.

(** A state in which deletion can be carried through. *)
Definition deletable l op s : Prop :=
  own_dir s root /\ usual_umask s /\ Forall (free_or_own s) (both_levels l) /\ chunk_state l op s.

Lemma quarantine_not_level l op area : quarantine_destination l op ∉ revision_levels root area l.
Proof.
  intros Hq%levels_length. unfold quarantine_destination, revision_shard, leaf, join in Hq.
  rewrite !length_app in Hq. simpl in Hq. lia.
Qed.

Lemma source_not_quarantine l op : chunk_destination root l <> quarantine_destination l op.
Proof.
  unfold chunk_destination, quarantine_destination, revision_shard, leaf, join. intros Heq.
  rewrite <-!app_assoc in Heq. apply app_inv_head in Heq. simpl in Heq. discriminate Heq.
Qed.

Lemma shard_parents l op :
  path_parent_dir (chunk_destination root l) = Some (revision_shard root "revision-chunks" l) /\
  path_parent_dir (quarantine_destination l op) = Some (revision_shard root "revision-quarantine" l).
Proof. split; apply parent_dir_snoc. Qed.

Lemma shard_level area l : revision_shard root area l ∈ revision_levels root area l.
Proof. unfold revision_shard, revision_levels, levels, leaf. set_solver. Qed.

(** Only directories appeared, at the levels of the two shards. *)
Lemma deletable_grown l op s s' :
  fs_wf s -> fs_wf s' -> evolves [] [] s s' -> (forall q, q ∉ both_levels l -> names s' !! q = names s !! q) ->
  (forall q, free_or_own s q -> free_or_own s' q) -> deletable l op s -> deletable l op s'.
Proof.
  intros Hwf Hwf' Hev Hfr Hfree (Hr & Hu & Hlv & Hst). destruct (shard_parents l op) as [Hp1 Hp2].
  split; [eapply evolves_own_dir; [done..|set_solver]|]. split; [unfold usual_umask; by rewrite (ev_umask _ _ _ _ Hev)|].
  split; [by eapply Forall_impl|].
  assert (forall q, q ∉ both_levels l -> node_at s q = None -> node_at s' q = None) as Hnone.
  { intros q Hq Hn. apply node_at_None in Hn; [|done]. apply node_at_None; [done|]. by rewrite Hfr. }
  assert (chunk_destination root l ∉ both_levels l) as Hn1.
  { unfold both_levels. rewrite elem_of_app. intros [?|?]; by eapply destination_not_level. }
  assert (quarantine_destination l op ∉ both_levels l) as Hn2.
  { unfold both_levels. rewrite elem_of_app. intros [?|?]; by eapply quarantine_not_level. }
  destruct Hst as [[H3 H4]|[[H3 H4]|[H3 H4]]].
  - left. split; [|by apply Hnone]. eapply evolves_stored; [done..|set_solver|set_solver].
  - right. left. split; [by apply Hnone|]. eapply evolves_stored; [done..|set_solver|set_solver].
  - right. right. auto.
Qed.

(** The state after opening the two shards. *)
Record opened l s s2 : Prop := {
  op_wf : fs_wf s2;
  op_evolves : evolves [] [] s s2;
  op_frame : forall q, q ∉ both_levels l -> names s2 !! q = names s !! q;
  op_free : usual_umask s -> forall q, free_or_own s q -> free_or_own s2 q
}.

Lemma opened_deletable l op s s2 : fs_wf s -> opened l s s2 -> deletable l op s -> deletable l op s2.
Proof.
  intros Hwf [H3 H4 H5 H6] Hd. eapply deletable_grown; [exact Hwf|done..|apply H6, Hd|done].
Qed.

Lemma wp_open_shards b s l op {B} (k : list string -> list string -> St B) Q :
  fs_wf s -> uuid_is_nil (rl_drive_id l) = false ->
  (forall s2, opened l s s2 -> secure_dir s2 (revision_shard root "revision-chunks" l) ->
     secure_dir s2 (revision_shard root "revision-quarantine" l) ->
     wp b (k (chunk_destination root l) (revision_shard root "revision-quarantine" l)) s2 Q) ->
  (forall e s2, opened l s s2 -> (b = false -> ~ deletable l op s) -> Q (Err e) s2) ->
  wp b (let! source := revision_chunk_path root l in
        let! d := revision_chunk_directory root "revision-quarantine" (rl_drive_id l) (rl_digest l) in
        k source d) s Q.
Proof.
  intros Hwf Hnil Hok Herr. apply wp_bind. eapply wp_mono; [by apply wp_revision_chunk_path|].
  intros r1 s1 (Hwf1 & Hev1 & Hfr1 & Hr1 & Hl1 & Hf1).
  assert (opened l s s1) as Hop1.
  { split; [done|done| |done]. intros q [Hq _]%not_elem_of_app. by apply Hfr1. }
  assert (b = false -> deletable l op s -> r1 = Ok (chunk_destination root l)) as Hlive1.
  { intros Hb (Hr & _ & Hlv & _). apply Forall_app in Hlv as [Hlv _]. by destruct (Hl1 Hb Hr Hlv). }
  destruct r1 as [d1|e]; [|apply Herr; [done|]; intros Hb Hd; by specialize (Hlive1 Hb Hd)].
  destruct (Hr1 d1 eq_refl) as [-> Hs1]. apply wp_bind.
  eapply wp_mono; [by apply wp_revision_chunk_directory|].
  intros r2 s2 (Hwf2 & Hev2 & Hfr2 & Hr2 & Hl2 & Hf2).
  assert (opened l s s2) as Hop2.
  { split; [done|by eapply evolves_trans|..].
    - intros q [Hq1 Hq2]%not_elem_of_app. by rewrite Hfr2, Hfr1.
    - intros Hu q Hq. apply Hf2, Hf1, Hq; [|done]. unfold usual_umask. by rewrite (ev_umask _ _ _ _ Hev1). }
  destruct r2 as [d2|e].
  - destruct (Hr2 d2 eq_refl) as [-> Hs2]. apply Hok; [done| |done].
    destruct Hs1 as (i & n & Hi & ?). exists i, n. split; [|done]. eapply evolves_node; [exact Hev2|done|set_solver].
  - apply Herr; [done|]. intros Hb Hd. pose proof (opened_deletable l op s s1 Hwf Hop1 Hd) as (Hr & _ & Hlv & _).
    apply Forall_app in Hlv as [_ Hlv]. by destruct (Hl2 Hb Hr Hlv).
Qed.

Lemma deletable_shards l op s :
  deletable l op s -> dir_at s (revision_shard root "revision-chunks" l) ->
  dir_at s (revision_shard root "revision-quarantine" l) ->
  own_dir s (revision_shard root "revision-chunks" l) /\ own_dir s (revision_shard root "revision-quarantine" l).
Proof.
  intros (_ & _ & Hlv & _) (i & n & Hi & _) (j & m & Hj & _).
  unfold both_levels in Hlv. rewrite Forall_app, !Forall_forall in Hlv. destruct Hlv as [H3 H4].
  destruct (H3 _ (shard_level "revision-chunks" l)); [congruence|].
  destruct (H4 _ (shard_level "revision-quarantine" l)); [congruence|]. done.
Qed.

(** Names outside the levels come and go without disturbing them. *)
Lemma levels_kept l s s' :
  fs_wf s -> fs_wf s' -> inodes s = inodes s' -> fs_uid s' = fs_uid s ->
  (forall q, (length q <= length root + 3)%nat -> names s' !! q = names s !! q) ->
  (forall q, (length q <= length root + 3)%nat -> node_at s' q = node_at s q) /\
  (own_dir s root -> own_dir s' root) /\
  (Forall (free_or_own s) (both_levels l) -> Forall (free_or_own s') (both_levels l)).
Proof.
  intros Hwf Hwf' Hi Hu Hn.
  assert (forall q, (length q <= length root + 3)%nat -> node_at s' q = node_at s q) as Hnode.
  { intros q Hq. unfold node_at. by rewrite Hn, Hi. }
  assert (forall q, (length q <= length root + 3)%nat -> own_dir s q -> own_dir s' q) as Hown.
  { intros q Hq (i & n & Hq' & ?). exists i, n. by rewrite Hnode, Hu. }
  split; [done|]. split; [apply Hown; lia|].
  rewrite !Forall_forall. intros Hl q Hq.
  assert (length q <= length root + 3)%nat as Hlen.
  { unfold both_levels in Hq. apply elem_of_app in Hq as [Hq|Hq]; by eapply levels_length. }
  destruct (Hl q Hq) as [?|?]; [left; by rewrite Hnode|right; by apply Hown].
Qed.

Lemma long_paths l op :
  length (chunk_destination root l) = (length root + 4)%nat /\
  length (quarantine_destination l op) = (length root + 4)%nat.
Proof.
  unfold chunk_destination, quarantine_destination, revision_shard, leaf, join. rewrite !length_app. simpl. lia.
Qed.

(** Moving the chunk keeps the deletion on its way. *)
Lemma deletable_moved l op s s' i n :
  fs_wf s -> fs_wf s' -> deletable l op s -> stored s (chunk_destination root l) (rl_size l) (rl_digest l) ->
  secure_dir s (revision_shard root "revision-chunks" l) ->
  secure_dir s (revision_shard root "revision-quarantine" l) ->
  evolves [chunk_destination root l] [quarantine_destination l op] s s' ->
  node_at s (chunk_destination root l) = Some (i, n) ->
  node_at s' (quarantine_destination l op) = Some (i, n) -> node_at s' (chunk_destination root l) = None ->
  s' = set_names s (<[quarantine_destination l op := i]> (delete (chunk_destination root l) (names s))) ->
  deletable l op s' /\ stored s' (quarantine_destination l op) (rl_size l) (rl_digest l).
Proof.
  intros Hwf Hwf' Hd Hst Hsec1 Hsec2 Hev Hsrc Hdst Hgone Hn. destruct (long_paths l op) as [Hlen1 Hlen2].
  destruct (shard_parents l op) as [Hp1 Hp2].
  destruct (deletable_shards l op s Hd) as [Ho1 Ho2]; [by apply secure_dir_at..|].
  destruct (levels_kept l s s' Hwf Hwf' ltac:(by rewrite Hn) (ev_uid _ _ _ _ Hev)) as (Hnode & Hroot & Hlv).
  { intros q Hq. rewrite Hn. simpl. rewrite lookup_insert_ne, lookup_delete_ne; [done|intros <-; lia|intros <-; lia]. }
  assert (stored s' (quarantine_destination l op) (rl_size l) (rl_digest l)) as Hst'.
  { destruct Hst as (d & (i' & m & u & q & Hi' & Hm & Hq & Ho) & Hc). simplify_eq.
    exists d. split; [|done]. exists i', m, u, (revision_shard root "revision-quarantine" l).
    split; [done|]. split; [done|]. split; [done|].
    destruct Ho as (x & y & Hx & Hy & Hxy). destruct Ho1 as (j & nj & Hj & _ & _ & Hju).
    destruct Ho2 as (k & nk & Hk & _ & _ & Hku). simplify_eq.
    exists (i', mkInode (KFile d) m u), (k, nk). split; [done|].
    split; [|simpl in *; congruence]. rewrite Hnode; [done|].
    unfold revision_shard, leaf, join. rewrite !length_app. simpl. lia. }
  split; [|done]. destruct Hd as (Hr & Hu & Hl & _). split; [auto|].
  split; [unfold usual_umask; by rewrite (ev_umask _ _ _ _ Hev)|]. split; [auto|]. right. left. done.
Qed.

(** Removing the quarantined chunk completes it. *)
Lemma deletable_removed l op s s' :
  fs_wf s -> fs_wf s' -> deletable l op s -> node_at s (chunk_destination root l) = None ->
  evolves [quarantine_destination l op] [] s s' ->
  s' = set_names s (delete (quarantine_destination l op) (names s)) ->
  deletable l op s' /\ node_at s' (chunk_destination root l) = None /\ node_at s' (quarantine_destination l op) = None.
Proof.
  intros Hwf Hwf' (Hr & Hu & Hl & _) Hgone Hev Hn. destruct (long_paths l op) as [Hlen1 Hlen2].
  destruct (levels_kept l s s' Hwf Hwf' ltac:(by rewrite Hn) (ev_uid _ _ _ _ Hev)) as (Hnode & Hroot & Hlv).
  { intros q Hq. rewrite Hn. simpl. rewrite lookup_delete_ne; [done|intros <-; lia]. }
  assert (node_at s' (chunk_destination root l) = None) as Hs.
  { apply node_at_None; [done|]. rewrite Hn. simpl. rewrite lookup_delete_None. right. by apply node_at_None. }
  assert (node_at s' (quarantine_destination l op) = None) as Hq by by eapply node_at_deleted.
  split; [|done]. split; [auto|]. split; [unfold usual_umask; by rewrite (ev_umask _ _ _ _ Hev)|].
  split; [auto|]. right. by right.
Qed.

(** What quarantining and deleting guarantee, whatever the outcome: only the
    chunk's two names are touched, and a deletion that could be carried through
    still can. *)
Definition reclaiming l op s s' : Prop :=
  fs_wf s' /\
  evolves [chunk_destination root l; quarantine_destination l op] [quarantine_destination l op] s s' /\
  (deletable l op s -> deletable l op s').

Lemma reclaiming_opened l op s s2 : fs_wf s -> opened l s s2 -> reclaiming l op s s2.
Proof.
  intros Hwf Hop. split; [apply Hop|]. split; [|by apply opened_deletable].
  eapply evolves_weaken; [..|apply Hop]; set_solver.
Qed.

Lemma reclaiming_trans l op s s1 s2 : reclaiming l op s s1 -> reclaiming l op s1 s2 -> reclaiming l op s s2.
Proof. intros (H3 & H4 & H5) (H6 & H7 & H8). split; [done|]. split; [by eapply evolves_trans|auto]. Qed.

(** The quarantine step proper: the chunk is published and not yet quarantined. *)
Lemma wp_move_to_quarantine b s l op :
  fs_wf s -> node_at s (quarantine_destination l op) = None ->
  secure_dir s (revision_shard root "revision-chunks" l) ->
  secure_dir s (revision_shard root "revision-quarantine" l) ->
  (exists x, node_at s (chunk_destination root l) = Some x) ->
  wp b (let! _ := verify_file (chunk_destination root l) (rl_size l) (rl_digest l) in
        let! _ := rename_or_moved (chunk_destination root l) (quarantine_destination l op) in
        let! _ := verify_file (quarantine_destination l op) (rl_size l) (rl_digest l) in
        let! qs := parent (chunk_destination root l) in
        let! _ := sync_directory qs in
        let! qd := parent (quarantine_destination l op) in
        let! _ := sync_directory qd in
        ret (quarantine_destination l op)) s (fun r s' =>
    reclaiming l op s s' /\
    (forall d, r = Ok d -> d = quarantine_destination l op /\ node_at s' (chunk_destination root l) = None /\
       secure_dir s' (revision_shard root "revision-quarantine" l)) /\
    (b = false -> deletable l op s -> r = Ok (quarantine_destination l op))).
Proof.
  intros Hwf Hnone Hsec1 Hsec2 [x Hx]. destruct (shard_parents l op) as [Hp1 Hp2].
  assert (reclaiming l op s s) as Hrefl by (split; [done|]; split; [apply evolves_refl|done]).
  eapply (wp_check_bind b s); [by apply verify_file_checks|..].
  2:{ intros e He. split; [done|]. split; [done|]. intros Hb Hd. destruct (He Hb).
      destruct Hd as (_ & _ & _ & [[? _]|[[? _]|[? _]]]); [done|congruence..]. }
  intros Hst. destruct (stored_node _ _ _ _ Hst) as (i & n & Hi & Hn). apply wp_bind.
  eapply (wp_rename_or_moved b s _ _ i n (revision_shard root "revision-quarantine" l) (quarantine_file_name l op));
    [done..|by apply secure_dir_at| |].
  2:{ intros e Hb. split; [done|]. split; [done|]. congruence. }
  intros s' Hwf' Hev Hdst Hsrc Hs'.
  assert (deletable l op s -> deletable l op s' /\ stored s' (quarantine_destination l op) (rl_size l) (rl_digest l))
    as Hmoved by (intros Hd; by apply (deletable_moved l op s s' i n)).
  assert (reclaiming l op s s') as Hrec.
  { split; [done|]. split; [eapply evolves_weaken; [..|exact Hev]; set_solver|]. intros Hd. by apply Hmoved. }
  assert (forall q, q <> chunk_destination root l -> secure_dir s q -> secure_dir s' q) as Hkeep.
  { intros q Hq (j & m & Hj & ?). exists j, m. split; [|done]. eapply evolves_node; [done..|set_solver]. }
  assert (secure_dir s' (revision_shard root "revision-chunks" l)) as Hs1.
  { apply Hkeep; [by apply parent_neq|done]. }
  assert (secure_dir s' (revision_shard root "revision-quarantine" l)) as Hs2.
  { apply Hkeep; [|done]. intros Heq. rewrite Heq in Hsec2. eapply not_dir_node; [exact Hi|done|by apply secure_dir_at]. }
  eapply (wp_check_bind b s'); [by apply verify_file_checks|..].
  2:{ intros e He. split; [done|]. split; [done|]. intros Hb Hd. by destruct (He Hb), (Hmoved Hd). }
  intros Hst'. apply wp_bind, wp_of_result. rewrite Hp1. simpl.
  eapply (wp_check_bind b s'); [by apply sync_directory_checks| |by intros e He; split; [done|]; split; [done|]; intros Hb; destruct (He Hb)].
  intros _. apply wp_bind, wp_of_result. rewrite Hp2. simpl.
  eapply (wp_check_bind b s'); [by apply sync_directory_checks| |by intros e He; split; [done|]; split; [done|]; intros Hb; destruct (He Hb)].
  intros _. apply wp_ret. split; [done|]. split; [|done]. by intros d [= <-].
Qed.

Lemma wp_quarantine_revision_chunk b s l op :
  fs_wf s -> uuid_is_nil (rl_drive_id l) = false -> uuid_is_nil op = false ->
  wp b (quarantine_revision_chunk root l op) s (fun r s' =>
    reclaiming l op s s' /\
    (forall d, r = Ok d -> d = quarantine_destination l op /\ node_at s' (chunk_destination root l) = None /\
       secure_dir s' (revision_shard root "revision-quarantine" l)) /\
    (b = false -> deletable l op s -> r = Ok (quarantine_destination l op))).
Proof.
  intros Hwf Hnil Hop. unfold quarantine_revision_chunk. rewrite Hop. eapply (wp_open_shards b s l op); [done..| |].
  2:{ intros e s2 Ho Hd. split; [by apply reclaiming_opened|]. split; [done|]. intros Hb Hdel. by destruct (Hd Hb). }
  intros s2 Ho Hs1 Hs2. pose proof (op_wf _ _ _ Ho) as Hwf2. pose proof (reclaiming_opened l op s s2 Hwf Ho) as Hrec.
  assert (forall e : StorageError, b = true ->
    reclaiming l op s s2 /\ (forall d, Err e = Ok d -> d = quarantine_destination l op /\
      node_at s2 (chunk_destination root l) = None /\ secure_dir s2 (revision_shard root "revision-quarantine" l)) /\
    (b = false -> deletable l op s -> Err e = Ok (quarantine_destination l op))) as Hio.
  { intros e Hb. split; [done|]. split; [done|congruence]. }
  assert (deletable l op s -> deletable l op s2) as Hdel by by apply opened_deletable.
  apply wp_bind. apply wp_path_kind_in; [done|by apply secure_dir_at|..|exact (fun e => Hio e)].
  - intros x Hx. fold (chunk_destination root l) in Hx. apply wp_bind. apply wp_path_kind_in; [done|by apply secure_dir_at|..|exact (fun e => Hio e)].
    + intros y Hy. fold (quarantine_destination l op) in Hy. apply wp_fail. split; [done|]. split; [done|]. intros Hb Hd.
      destruct (Hdel Hd) as (_ & _ & _ & [[_ ?]|[[? _]|[? _]]]); congruence.
    + intros Hnone. fold (quarantine_destination l op) in Hnone. eapply wp_mono; [eapply wp_move_to_quarantine; [done..|by exists x]|].
      intros r s3 (Hrec3 & Hr3 & Hl3). split; [by eapply reclaiming_trans|]. split; [done|auto].
  - intros Hx. fold (chunk_destination root l) in Hx. apply wp_bind. apply wp_path_kind_in; [done|by apply secure_dir_at|..|exact (fun e => Hio e)].
    + intros y Hy. fold (quarantine_destination l op) in Hy. eapply (wp_check_bind b s2); [by apply verify_file_checks|..].
      * intros Hst. apply wp_ret. split; [done|]. split; [|done]. by intros d [= <-].
      * intros e He. split; [done|]. split; [done|]. intros Hb Hd. destruct (He Hb).
        destruct (Hdel Hd) as (_ & _ & _ & [[_ ?]|[[_ ?]|[_ ?]]]); [congruence|done|congruence].
    + intros Hy. fold (quarantine_destination l op) in Hy. apply wp_ret. split; [done|]. split; [|done]. by intros d [= <-].
Qed.


Lemma wp_delete_revision_chunk b s l op :
  fs_wf s -> uuid_is_nil (rl_drive_id l) = false -> uuid_is_nil op = false ->
  wp b (delete_revision_chunk root l op) s (fun r s' =>
    reclaiming l op s s' /\
    (r = Ok tt -> node_at s' (chunk_destination root l) = None /\ node_at s' (quarantine_destination l op) = None) /\
    (b = false -> deletable l op s -> r = Ok tt)).
Proof.
  intros Hwf Hnil Hop. unfold delete_revision_chunk. apply wp_bind.
  eapply wp_mono; [by apply wp_quarantine_revision_chunk|].
  intros [d|e] s1 (Hrec & Hr & Hl); [|split; [done|]; split; [done|]; intros Hb Hd; by specialize (Hl Hb Hd)].
  destruct (Hr d eq_refl) as (-> & Hsrc & Hsec). pose proof Hrec as (Hwf1 & _ & Hdel).
  apply wp_if_present_in; [done|by apply secure_dir_at|..].
  2:{ intros Hnone. done. }
  2:{ intros e Hb. split; [done|]. split; [done|congruence]. }
  intros x Hx. fold (quarantine_destination l op) in Hx. eapply (wp_check_bind b s1); [by apply verify_file_checks|..].
  2:{ intros e He. split; [done|]. split; [done|]. intros Hb Hd. destruct (He Hb).
      destruct (Hdel Hd) as (_ & _ & _ & [[_ Hq]|[[_ Hq]|[_ Hq]]]); [congruence|done|congruence]. }
  intros Hst. unfold remove_and_sync. apply wp_bind. apply wp_remove_file; [done|..].
  2:{ intros e He. split; [done|]. split; [done|]. intros Hb _. destruct (He Hb). by eapply stored_node. }
  intros i n s2 Hi Hn Hwf2 Hev Hs2.
  assert (deletable l op s1 -> deletable l op s2) as Hdel2 by (intros Hd; by apply (deletable_removed l op s1 s2)).
  assert (reclaiming l op s s2) as Hrec2.
  { eapply reclaiming_trans; [exact Hrec|]. split; [done|]. split; [|done].
    eapply evolves_weaken; [..|exact Hev]; [|set_solver]. unfold quarantine_destination. set_solver. }
  destruct (shard_parents l op) as [_ Hpar]. apply wp_bind, wp_of_result. rewrite Hpar. simpl.
  assert (secure_dir s2 (revision_shard root "revision-quarantine" l)) as Hsec2.
  { destruct Hsec as (j & m & Hj & ?). exists j, m. split; [|done]. eapply evolves_node; [exact Hev|done|].
    intros Heq%list_elem_of_singleton. by apply parent_neq in Hpar. }
  eapply (wp_check b s2); [by apply sync_directory_checks|..].
  - intros _. split; [done|]. split; [|done]. intros _. split; [|by eapply node_at_deleted].
    apply node_at_None; [done|]. rewrite Hs2. simpl. rewrite lookup_delete_None. right. by apply node_at_None.
  - intros e He. split; [done|]. split; [done|]. intros Hb. by destruct (He Hb).
Qed.
End deletion.
