(* ===== verification/StorageReads.v ===== *)
(** Correctness of the verified range reads of the storage engine: the returned
    file segments, read back, are exactly the requested range of the object the
    manifest describes. *)
From S2P Require Import Prelude Libraries Frames PosixFs StorageLayout StorageFacts.
Open Scope string_scope.
Open Scope Z_scope.
Open Scope list_scope.
Open Scope bool_scope.

(** ** Byte ranges *)

(** The bytes [a..b) of [d]. *)
Definition slice (a b : Z) (d : bytes) : bytes := take (Z.to_nat b - Z.to_nat a) (drop (Z.to_nat a) d).

Section slices.
Lemma slice_app a b (d1 d2 : bytes) :
  slice a b (d1 ++ d2) = slice a (Z.min b (len d1)) d1 ++ slice (a - len d1) (b - len d1) d2.
Proof.
  unfold slice, len. rewrite drop_app, take_app, length_drop. f_equal.
  - destruct (decide (Z.to_nat b <= length d1)%nat).
    + f_equal. lia.
    + rewrite !take_ge; [done|rewrite length_drop; lia..].
  - f_equal; [lia|]. f_equal. lia.
Qed.

Lemma slice_nil a b : slice a b [] = [].
Proof. unfold slice. by rewrite drop_nil, take_nil. Qed.

Lemma slice_empty a b d : b <= Z.max 0 a -> slice a b d = [].
Proof. intros H. unfold slice. replace (Z.to_nat b - Z.to_nat a)%nat with 0%nat by lia. done. Qed.

Lemma slice_max a b d : slice (Z.max 0 a) b d = slice a b d.
Proof. unfold slice. by replace (Z.to_nat (Z.max 0 a)) with (Z.to_nat a) by lia. Qed.

(** A segment of positive length, as the engine describes it. *)
Lemma slice_segment o n d : 0 <= o -> 0 <= n -> take (Z.to_nat n) (drop (Z.to_nat o) d) = slice o (o + n) d.
Proof. intros Ho Hn. unfold slice. f_equal. lia. Qed.

Lemma slice_length a b d : 0 <= a <= b -> b <= len d -> len (slice a b d) = b - a.
Proof. intros Ha Hb. unfold slice, len in *. rewrite length_take, length_drop. lia. Qed.
End slices.

(** What a client reads for a segment: [pread(path, length, offset)]. *)
Definition read_segment (s : Fs) (g : DownloadSegment) : bytes :=
  match node_at s (seg_path g) with
  | Some (_, mkInode (KFile d) _ _) => take (Z.to_nat (seg_length g)) (drop (Z.to_nat (seg_offset g)) d)
  | _ => []
  end.
Definition read_segments (s : Fs) (l : list DownloadSegment) : bytes := concat (map (read_segment s) l).

Section chunked.
Context `{UuidLib, Blake3Lib, Readdir}.
Implicit Types (s : Fs) (p directory : list string).

(** [d] has the recorded size, and no file of the file system with that size and
    digest has another content: no collision among the stored files. *)
Definition pins s (size : Z) (digest : bytes) (d : bytes) : Prop :=
  len d = size /\ forall q i d' m u, node_at s q = Some (i, mkInode (KFile d') m u) ->
    len d' = size -> blake3_hash d' = digest -> d' = d.

Lemma pinned_stored s p size digest d : pins s size digest d -> stored s p size digest -> secure_file s p d.
Proof.
  intros [_ Hu] (d' & Hd & Hl & Hh). pose proof Hd as (i & m & u & q & Hp & _). by rewrite <-(Hu _ _ _ _ _ Hp Hl Hh).
Qed.

(** Creating directories adds no file that could collide. *)
Lemma pins_kept s s' size digest d : evolves [] [] s s' -> fs_wf s -> pins s size digest d -> pins s' size digest d.
Proof.
  intros Hev Hwf [Hl Hu]. split; [done|]. intros q i d' m u Hq. apply (Hu q i d' m u).
  pose proof (evolves_file_old _ _ _ _ _ _ _ Hev Hq eq_refl ltac:(set_solver)) as Hold.
  apply node_at_Some in Hq as [_ Hi]. apply node_at_Some. split; [done|].
  destruct (wf_ino s Hwf q i Hold) as [n Hn]. rewrite <-Hi, Hn. symmetry. eapply lookup_weaken; [done|apply Hev].
Qed.

Lemma read_secure s p d o n : secure_file s p d -> 0 <= o -> 0 <= n ->
  read_segment s (mkSegment p o n) = slice o (o + n) d.
Proof.
  intros (i & m & u & q & Hp & _) Ho Hn. unfold read_segment. simpl. rewrite Hp. by apply slice_segment.
Qed.

Definition sizes_total (chunks : list CowBaseChunk) : Z := fold_right (fun c n => bc_size c + n) 0 chunks.
Definition chunk_path directory (c : CowBaseChunk) : list string :=
  join directory (pad_zero 8 (dec_to_string (bc_chunk_number c)) +:+ ".part").

(** The chunks of a manifest are numbered from [index] and not empty. *)
Fixpoint numbered (index : nat) (chunks : list CowBaseChunk) : Prop :=
  match chunks with
  | [] => True
  | c :: rest => bc_chunk_number c = Z.of_nat index /\ bc_chunk_number c <= 99999999 /\ 0 < bc_size c /\
                 numbered (S index) rest
  end.

Lemma sizes_total_nonneg chunks : Forall (fun c => 0 <= bc_size c) chunks -> 0 <= sizes_total chunks.
Proof. induction 1; simpl; lia. Qed.

Lemma segments_length_app l1 l2 : segments_length (l1 ++ l2) = segments_length l1 + segments_length l2.
Proof. unfold segments_length. induction l1 as [|g l1 IH]; simpl; [done|]. rewrite IH. lia. Qed.

(** The part of the range that falls into one stored object at [off]. *)
Lemma wp_overlap b s p size digest d start end_ off (verify : St unit) :
  0 <= start -> 0 <= off -> off + size <= u64_max -> end_ < u64_max -> pins s size digest d ->
  checks b verify s (stored s p size digest) ->
  wp b (let overlap_start := Z.max start off in
        let overlap_end_exclusive := Z.min (saturating_add_u64 end_ 1) (off + size) in
        if overlap_start <? overlap_end_exclusive then
          let! _ := verify in
          ret [mkSegment p (overlap_start - off) (overlap_end_exclusive - overlap_start)]
        else ret []) s (fun r s' => s' = s /\
    (forall here, r = Ok here -> read_segments s here = slice (start - off) (Z.min (end_ + 1 - off) (len d)) d /\
       segments_length here = Z.max 0 (Z.min (end_ + 1) (off + size) - Z.max start off)) /\
    (b = false -> stored s p size digest -> exists here, r = Ok here)).
Proof.
  intros Hs Ho Hmax He Hpin Hchk. cbv zeta. unfold saturating_add_u64. rewrite (Z.min_r u64_max) by lia.
  pose proof Hpin as [Hlen _]. case_match eqn:Hov; autorewrite with bools in Hov.
  - eapply (wp_check_bind b s); [exact Hchk|..].
    + intros Hst. apply wp_ret. split; [done|]. split; [|by eauto]. intros here [= <-].
      unfold read_segments, segments_length. simpl. rewrite app_nil_r. split; [|lia].
      rewrite (read_secure s p d) by (eauto using pinned_stored; lia).
      rewrite <-(slice_max (start - off)). f_equal; lia.
    + intros e Hb. split; [done|]. split; [done|]. intros Hf Hst. by destruct (Hb Hf).
  - apply wp_ret. split; [done|]. split; [|by eauto]. intros here [= <-]. simpl. split; [|lia].
    rewrite slice_empty; [done|lia].
Qed.

Lemma wp_chunk_segments b s directory size start end_ index off chunks ds :
  fs_wf s -> 0 <= start -> end_ < u64_max -> 0 <= off -> size <= u64_max ->
  Forall (fun c => 0 <= bc_size c) chunks ->
  Forall2 (fun c d => pins s (bc_size c) (bc_digest c) d) chunks ds ->
  wp b (chunk_segments directory size start end_ index off chunks) s (fun r s' => s' = s /\
    (forall x, r = Ok x -> snd x = off + sizes_total chunks /\
       read_segments s (fst x) = slice (start - off) (end_ + 1 - off) (concat ds) /\
       segments_length (fst x) = Z.max 0 (Z.min (end_ + 1) (off + sizes_total chunks) - Z.max start off)) /\
    (b = false -> numbered index chunks -> off + sizes_total chunks <= size ->
     Forall (fun c => stored s (chunk_path directory c) (bc_size c) (bc_digest c)) chunks -> exists x, r = Ok x)).
Proof.
  intros Hwf Hs He Hoff Hsz Hpos Hds. revert index off Hoff Hpos.
  induction Hds as [|c d chunks ds Hpin Hds IH]; intros index off Hoff Hpos; simpl.
  - apply wp_ret. split; [done|]. split; [|by eauto]. intros x [= <-]. simpl. rewrite slice_nil.
    split; [lia|]. split; [done|lia].
  - rewrite Forall_cons in Hpos. destruct Hpos as [Hc Hpos]. pose proof (sizes_total_nonneg _ Hpos).
    case_match eqn:Hnum; [apply wp_fail|]; autorewrite with bools in Hnum.
    { split; [done|]. split; [done|]. intros _ (? & ? & _) _ _. lia. }
    apply wp_bind, wp_of_result. unfold checked_add_u64. destruct (checked _ _ _) as [chunk_end|] eqn:Hend; simpl.
    2:{ apply checked_None in Hend. split; [done|]. split; [done|]. intros _ (? & ? & ? & _). lia. }
    apply checked_Some in Hend as [<- Hend].
    case_match eqn:Hsize; [apply wp_fail|]; autorewrite with bools in Hsize.
    { split; [done|]. split; [done|]. intros _ (? & ? & ? & _). lia. }
    apply wp_bind. pose proof Hpin as [Hlen _].
    eapply wp_mono; [apply (wp_overlap b s (chunk_path directory c) (bc_size c) (bc_digest c) d start end_ off);
      [lia..|done|by apply verify_file_checks]|].
    intros [here|e] s' (-> & Hhere & Hlive).
    2:{ split; [done|]. split; [done|]. intros Hb _ _ Hst. rewrite Forall_cons in Hst. by destruct (Hlive Hb (proj1 Hst)). }
    apply wp_bind. eapply wp_mono; [apply (IH (S index) (off + bc_size c)); [lia|done]|].
    intros [later|e] s' (-> & Hlater & Hlive').
    + apply wp_ret. split; [done|]. split; [|by eauto]. intros x [= <-]. simpl.
      destruct (Hlater later eq_refl) as (Hsnd & Hread & Hln). destruct (Hhere here eq_refl) as (Hread' & Hln').
      split; [lia|]. split.
      * unfold read_segments in *. rewrite map_app, concat_app, Hread, Hread', slice_app. f_equal. f_equal; lia.
      * rewrite segments_length_app, Hln, Hln'. lia.
    + split; [done|]. split; [done|]. intros Hb (_ & _ & _ & Hn) Htot Hst. rewrite Forall_cons in Hst.
      apply Hlive'; [done|done|lia|apply Hst].
Qed.

Variable root : list string.

(** Where the payload of a locator lives, below its area. *)
Definition shard_levels (area : string) (locator : N) : list (list string) :=
  levels root area (String.substring 0 2 (uuid_simple locator)) (String.substring 2 2 (uuid_simple locator)).
Definition shard_leaf (area : string) (locator : N) : list string :=
  leaf root area (String.substring 0 2 (uuid_simple locator)) (String.substring 2 2 (uuid_simple locator)).
Definition payload_area (p : PayloadRecord) : string := if String.eqb (p_layout p) "whole" then "whole" else "chunks".
Definition payload_destination (p : PayloadRecord) : list string :=
  join (shard_leaf (payload_area p) (p_locator p)) (uuid_hyphenated (p_locator p)).

Lemma wp_shard_directory b s area locator :
  fs_wf s ->
  wp b (shard_directory root area locator) s
    (placed b root (shard_levels area locator) (shard_leaf area locator) s).
Proof. apply wp_three_levels. Qed.

Lemma wp_payload_path b s (p : PayloadRecord) :
  fs_wf s -> p_layout p = "whole" \/ p_layout p = "chunked" ->
  wp b (payload_path root p) s (fun r s' =>
    placed b root (shard_levels (payload_area p) (p_locator p)) (shard_leaf (payload_area p) (p_locator p)) s
      (match r with Ok _ => Ok (shard_leaf (payload_area p) (p_locator p)) | Err e => Err e end) s' /\
    (forall d, r = Ok d -> d = payload_destination p)).
Proof.
  intros Hwf Hl. unfold payload_path. apply wp_bind, wp_of_result.
  assert ((if String.eqb (p_layout p) "whole" then Ok "whole"
           else if String.eqb (p_layout p) "chunked" then Ok "chunks" else Err StateConflict)
          = Ok (E := StorageError) (payload_area p)) as ->.
  { unfold payload_area. by destruct Hl as [->| ->]. }
  apply wp_bind. eapply wp_mono; [by apply wp_shard_directory|]. intros [d|e] s' Hpl.
  - pose proof Hpl as (_ & _ & _ & Hd & _). destruct (Hd d eq_refl) as [-> _]. apply wp_ret. split; [done|].
    by intros d' [= <-].
  - by split.
Qed.

Lemma payload_not_level (p : PayloadRecord) area : payload_destination p ∉ shard_levels area (p_locator p).
Proof.
  intros Hq. assert (length (payload_destination p) <= length root + 3)%nat as Hlen.
  { unfold shard_levels, levels, join in Hq. set_unfold.
    destruct Hq as [->|[->|[->|[]]]]; rewrite !length_app; simpl; lia. }
  unfold payload_destination, shard_leaf, leaf, join in Hlen. rewrite !length_app in Hlen. simpl in Hlen. lia.
Qed.

(** A chunked object as its manifest describes it, completely stored. *)
Definition object_stored s (p : PayloadRecord) (chunks : list CowBaseChunk) : Prop :=
  own_dir s root /\ Forall (free_or_own s) (shard_levels "chunks" (p_locator p)) /\
  secure_dir s (payload_destination p) /\ numbered 0 chunks /\ sizes_total chunks = p_size_bytes p /\
  Forall (fun c => stored s (chunk_path (payload_destination p) c) (bc_size c) (bc_digest c)) chunks.

Lemma object_stored_kept s s' (p : PayloadRecord) chunks :
  evolves [] [] s s' -> fs_wf s -> fs_wf s' -> object_stored s p chunks ->
  secure_dir s' (payload_destination p) /\
  Forall (fun c => stored s' (chunk_path (payload_destination p) c) (bc_size c) (bc_digest c)) chunks.
Proof.
  intros Hev Hwf Hwf' (_ & _ & (i & n & Hi & Hn) & _ & _ & Hst). split.
  - exists i, n. split; [|done]. eapply evolves_node; [done..|set_solver].
  - eapply Forall_impl; [exact Hst|]. intros c (d & Hd & Hc). exists d. split; [|done].
    eapply evolves_secure_file; [done..|apply parent_dir_snoc|set_solver|set_solver].
Qed.

Lemma wp_verified_chunked b s (p : PayloadRecord) chunks ds start end_ :
  fs_wf s -> 0 <= start -> Forall (fun c => 0 <= bc_size c) chunks ->
  Forall2 (fun c d => pins s (bc_size c) (bc_digest c) d) chunks ds ->
  wp b (verified_chunked_object_segments root p chunks start end_) s (fun r s' =>
    (forall segs, r = Ok segs ->
       read_segments s' segs = slice start (end_ + 1) (concat ds) /\
       (chunks <> [] -> start <= end_ < p_size_bytes p /\ len (concat ds) = p_size_bytes p)) /\
    (b = false -> p_layout p = "chunked" -> is_i64 (p_size_bytes p) -> start <= end_ < p_size_bytes p ->
     object_stored s p chunks -> exists segs, r = Ok segs)).
Proof.
  intros Hwf Hs Hpos Hds. unfold verified_chunked_object_segments.
  assert (len (concat ds) = sizes_total chunks) as Hlen.
  { clear -Hds. induction Hds as [|c d chunks ds [Hl _] Hds IH]; simpl; [done|]. rewrite len_app. lia. }
  case_match eqn:Hlay; autorewrite with bools in Hlay; [apply wp_fail; split; [done|]; congruence|].
  apply wp_bind, wp_of_result. unfold u64_try_from. destruct (checked _ _ _) as [size|] eqn:Hsize; simpl.
  2:{ apply checked_None in Hsize. split; [done|]. unfold is_i64, i64_max, u64_max in *. intros. lia. }
  apply checked_Some in Hsize as [<- Hsize]. case_match eqn:Hz; autorewrite with bools in Hz.
  { destruct chunks as [|c chunks]; [apply wp_ret|apply wp_fail]; (split; [|intros; lia]); [|done].
    intros segs [= <-]. inversion Hds; subst. by rewrite slice_nil. }
  case_match eqn:Hr; autorewrite with bools in Hr; [apply wp_fail; split; [done|]; intros; lia|].
  apply wp_bind. eapply wp_mono; [apply wp_payload_path; [done|by right]|].
  intros [d|e] s1 [(Hwf1 & Hev1 & _ & _ & Hl1 & _) Hd].
  2:{ split; [done|]. intros Hb _ _ _ (Ho & Hlv & _).
      unfold payload_area in Hl1. rewrite Hlay in Hl1. by destruct (Hl1 Hb Ho Hlv). }
  rewrite (Hd d eq_refl). eapply (wp_check_bind b s1); [by apply verify_directory_checks|..].
  2:{ intros e He. split; [done|]. intros Hb _ _ _ Hob. destruct (He Hb). by eapply object_stored_kept in Hob as [? _]. }
  intros _. apply wp_bind.
  eapply wp_mono; [eapply (wp_chunk_segments b s1 _ _ _ _ _ _ _ ds); [done|done|lia|lia|lia|done|]; eapply Forall2_impl; [exact Hds|];
    intros ? ?; by apply pins_kept|].
  intros [[segs fin]|e] s' (-> & Hok & Hlive).
  - destruct (Hok _ eq_refl) as (Hfin & Hread & Hseg). cbn [fst snd] in *.
    case_match eqn:Hc; autorewrite with bools in Hc; [apply wp_fail|apply wp_ret].
    + split; [done|]. intros _ _ _ _ (_ & _ & _ & _ & Htot & _). lia.
    + split; [|by eauto]. intros segs' [= <-]. split; [by rewrite Hread, !Z.sub_0_r|]. lia.
  - split; [done|]. intros Hb _ _ _ Hob. pose proof (object_stored_kept s s1 p chunks Hev1 Hwf Hwf1 Hob) as [_ Hst].
    destruct Hob as (_ & _ & _ & Hnum & Htot & _).
    by destruct (Hlive Hb Hnum ltac:(lia) Hst).
Qed.
End chunked.
