(* ===== verification/StorageCleanup.v ===== *)
(** What the clean-up of abandoned temporaries may remove: only temporaries that
    are old enough, and no more of them than its budget, whatever the order of
    directory entries and whichever system calls fail. *)
From S2P Require Import Prelude Libraries Frames PosixFs StorageLayout StorageFacts StorageProofs.
Open Scope string_scope.
Open Scope Z_scope.
Open Scope list_scope.
Open Scope bool_scope.

Section cleanup.
Context `{UuidLib, Readdir, FileTimes}.
Variable root : list string.
Variables now minimum_age : Z.
Implicit Types (s : Fs) (p q d : list string) (report : TemporaryCleanupReport).

(** A directory entry the clean-up recognises as an operation temporary. *)
Definition temporary_root d : Prop :=
  exists area a f n, d = join (leaf root area a f) n /\ temporary_kind area n <> None.

(** An inode the file system reports as too young to be collected. *)
Definition young (i : N) : Prop := forall t, Z.max 0 (now - modified t i) < minimum_age.

(** Not a temporary, nor inside one, or only of one that is too young. *)
Definition protected s p : Prop :=
  forall d rest, p = d ++ rest -> temporary_root d -> exists j, names s !! d = Some j /\ young j.

Definition spares s s' : Prop :=
  fs_wf s' /\ inodes s ⊆ inodes s' /\
  forall p i, names s !! p = Some i -> protected s p -> names s' !! p = Some i.

Lemma temporary_root_length d : temporary_root d -> length d = (length root + 4)%nat.
Proof. intros (area & a & f & n & -> & _). unfold leaf, join. rewrite !length_app. simpl. lia. Qed.

Lemma temporary_root_unique d d' rest : temporary_root d -> temporary_root d' -> d = d' ++ rest -> d' = d /\ rest = [].
Proof.
  intros Hd%temporary_root_length Hd'%temporary_root_length ->. rewrite length_app in Hd.
  destruct rest; [by rewrite app_nil_r|simpl in Hd; lia].
Qed.

Lemma spares_refl s : fs_wf s -> spares s s.
Proof. by split. Qed.

Lemma spares_trans s1 s2 s3 : spares s1 s2 -> spares s2 s3 -> spares s1 s3.
Proof.
  intros (Hwf2 & Hi2 & H2) (Hwf3 & Hi3 & H3). split; [done|]. split; [by etrans|].
  intros p i Hp Hprot. apply H3; [by apply H2|]. intros d rest -> Hd.
  destruct (Hprot d rest eq_refl Hd) as (j & Hj & Hy). exists j. split; [|done]. apply H2; [done|].
  intros d' rest' Heq Hd'. destruct (temporary_root_unique d d' rest' Hd Hd' Heq) as [-> ->]. by exists j.
Qed.

Lemma spares_evolves s s' : fs_wf s' -> evolves [] [] s s' -> spares s s'.
Proof. intros Hwf Hev. split; [done|]. split; [apply Hev|]. intros p i Hp _. eapply ev_kept; [done..|set_solver]. Qed.

(** Removing an entry of an old temporary. *)
Lemma spares_delete s d rest j :
  fs_wf (set_names s (delete (d ++ rest) (names s))) -> temporary_root d -> names s !! d = Some j -> ~ young j ->
  spares s (set_names s (delete (d ++ rest) (names s))).
Proof.
  intros Hwf Hd Hj Hy. split; [done|]. split; [done|]. intros p i Hp Hprot. simpl.
  apply lookup_delete_Some. split; [|done]. intros <-.
  destruct (Hprot d rest eq_refl Hd) as (j' & Hj' & Hyj). by simplify_eq.
Qed.

(** Computations that only check. *)
Lemma wp_checks_spare s (m : St unit) P : fs_wf s -> checks true m s P -> wp true m s (fun r s' => s' = s /\ spares s s').
Proof. intros Hwf Hm. eapply wp_mono; [exact Hm|]. intros r s' (-> & _). auto using spares_refl. Qed.

Lemma wp_check_then {B} s (m : St unit) P (k : unit -> St B) (Q : result StorageError B -> Fs -> Prop) :
  checks true m s P -> (P -> wp true (k tt) s Q) -> (forall e, Q (Err e) s) -> wp true (bind m k) s Q.
Proof. intros Hm Hk He. eapply (wp_check_bind true s); [exact Hm|done|by intros e _]. Qed.

(** Reading a directory. *)
Lemma wp_entries {A} s p (k : list string -> St A) Q :
  (forall l, wp true (k l) s Q) -> (forall e, Q (Err e) s) -> wp true (let! l := sys (sys_read_dir p) in k l) s Q.
Proof.
  intros Hk He. apply wp_bind, wp_sys; [by intros|]. unfold sys_read_dir.
  destruct (follow _ _ _) as [y|e]; simpl; [|done]. destruct (is_directory _); [apply Hk|done].
Qed.

Lemma wp_remove_temporary_part s d name j :
  fs_wf s -> temporary_root d -> names s !! d = Some j -> ~ young j ->
  wp true (sys (E := StorageError) (sys_remove_file (join d name))) s (fun r s' => spares s s' /\ names s' !! d = Some j).
Proof.
  intros Hwf Hd Hj Hy. apply wp_remove_file; [done|..|by auto using spares_refl].
  intros i n s' _ _ Hwf' _ ->. split; [by eapply spares_delete|]. simpl. apply lookup_delete_Some. split; [|done].
  intros Heq. symmetry in Heq. by apply join_neq in Heq.
Qed.

Lemma wp_remove_temporary_directory s d j :
  fs_wf s -> temporary_root d -> names s !! d = Some j -> ~ young j ->
  wp true (sys (E := StorageError) (sys_remove_dir d)) s (fun r s' => spares s s').
Proof.
  intros Hwf Hd Hj Hy. apply wp_sys; [by auto using spares_refl|]. unfold sys_remove_dir.
  destruct (lookup_path s d) as [x|e]; [|by apply spares_refl].
  assert (d <> []) as Hne by (intros ->; apply temporary_root_length in Hd; simpl in Hd; lia).
  simpl. destruct d as [|c d]; [done|]. destruct (is_directory _ && _) eqn:Hc; [|by apply spares_refl].
  apply andb_true_iff in Hc as [_ Hc%bool_decide_eq_true]. pose proof (proj1 (children_nil s (c :: d)) Hc) as Hch.
  pose proof (spares_delete s (c :: d) [] j) as Hdel. rewrite app_nil_r in Hdel. apply Hdel; [|done..]. by apply wf_delete.
Qed.

Lemma wp_remove_operation_directory s d j :
  fs_wf s -> temporary_root d -> names s !! d = Some j -> ~ young j ->
  wp true (remove_empty_or_operation_directory d) s (fun r s' => spares s s').
Proof.
  intros Hwf Hd Hj Hy. apply wp_if_present; [done|..|by auto using spares_refl|by auto using spares_refl].
  intros x _. eapply wp_check_then; [by apply verify_directory_checks| |by auto using spares_refl]. intros _.
  apply wp_bind, wp_entries; [|by auto using spares_refl]. intros entries.
  eapply (wp_for_each _ _ (fun _ s' => fs_wf s' /\ spares s s' /\ names s' !! d = Some j)).
  - auto using spares_refl.
  - intros name l' s' (Hwf' & Hsp & Hj'). case_match; [by apply wp_fail|].
    eapply wp_check_then; [by apply verify_regular_file_checks| |done]. intros _.
    eapply wp_mono; [by eapply wp_remove_temporary_part|]. intros [[]|e] s'' [Hsp' Hj'']; [|by eapply spares_trans].
    split; [apply Hsp'|]. split; [by eapply spares_trans|done].
  - intros s' (Hwf' & Hsp & Hj'). eapply wp_mono; [by eapply wp_remove_temporary_directory|].
    intros r s'' Hsp'. by eapply spares_trans.
Qed.

Lemma wp_cleanup_entry s area a f name report :
  fs_wf s ->
  wp true (cleanup_entry area now minimum_age (leaf root area a f) name report) s (fun r s' =>
    spares s s' /\ forall report', r = Ok report' -> total_removed report' <= total_removed report + 1).
Proof.
  intros Hwf. unfold cleanup_entry. destruct (temporary_kind area name) as [kind|] eqn:Hk.
  2:{ apply wp_ret. split; [by apply spares_refl|]. intros ? [= <-]. lia. }
  set (d := join (leaf root area a f) name). assert (temporary_root d) as Hd.
  { exists area, a, f, name. by rewrite Hk. }
  assert (forall e : StorageError, spares s s /\ forall r', Err e = Ok r' -> total_removed r' <= total_removed report + 1)
    as Herr by (intros e; split; [by apply spares_refl|done]).
  apply wp_bind, wp_symlink_metadata; [done|..|by auto]. intros [i n] [Hi _]%node_at_Some. cbn [fst].
  apply wp_bind, wp_sys; [by auto|]. case_match eqn:Hage.
  { apply wp_ret. split; [by apply spares_refl|]. intros ? [= <-]. lia. }
  autorewrite with bools in Hage. assert (~ young i) as Hy by (intros Hy; specialize (Hy s); lia).
  assert (forall s' report', fs_wf s' -> spares s s' -> total_removed report' = total_removed report + 1 ->
    wp true (let! _ := sync_directory (leaf root area a f) in ret report') s' (fun r s'' =>
      spares s s'' /\ forall r', r = Ok r' -> total_removed r' <= total_removed report + 1)) as Hend.
  { intros s' report' Hwf' Hsp Htot. eapply wp_check_then; [by apply sync_directory_checks|..|done].
    intros _. apply wp_ret. split; [done|]. intros ? [= <-]. lia. }
  destruct kind.
  - eapply wp_check_then; [by apply verify_regular_file_checks|..|by auto]. intros _.
    apply wp_bind, wp_remove_file; [done|..|by auto]. intros j m s' _ _ Hwf' _ ->.
    apply Hend; [done| |unfold total_removed; simpl; lia].
    pose proof (spares_delete s d [] i) as Hdel. rewrite app_nil_r in Hdel. by apply Hdel.
  - apply wp_bind. eapply wp_mono; [by eapply wp_remove_operation_directory|].
    intros [[]|e] s' Hsp; [|by split]. apply Hend; [apply Hsp|done|unfold total_removed; simpl; lia].
Qed.

(** The outcome of a pass that started in [s] with the budget respected. *)
Definition cleaned (budget : Z) s {A} (total : A -> Z) (r : result StorageError A) s' : Prop :=
  spares s s' /\ forall x, r = Ok x -> total x <= budget.
Abbreviation total1 := (fun x : TemporaryCleanupReport * bool => total_removed x.1).

Lemma wp_budgeted {A} budget check (body : A -> TemporaryCleanupReport -> St (TemporaryCleanupReport * bool)) l report s :
  fs_wf s -> total_removed report <= budget ->
  (forall x report s', fs_wf s' -> total_removed report <= budget -> (check = true -> total_removed report < budget) ->
     x ∈ l -> wp true (body x report) s' (cleaned budget s' total1)) ->
  wp true (budgeted budget check body l report) s (cleaned budget s total1).
Proof.
  revert s report. induction l as [|x l IH]; intros s report Hwf Hb Hbody; simpl.
  - apply wp_ret. split; [by apply spares_refl|]. by intros ? [= <-].
  - case_match eqn:Hc.
    { apply wp_ret. split; [by apply spares_refl|]. by intros ? [= <-]. }
    apply wp_bind. eapply wp_mono.
    { apply Hbody; [done|done| |set_solver]. intros ->. simpl in Hc. by autorewrite with bools in Hc. }
    intros [[report' []]|e] s' [Hsp Hr]; [apply wp_ret; by split| |by split].
    eapply wp_mono; [apply IH; [apply Hsp|by apply (Hr _ eq_refl)|set_solver]|].
    intros r s'' [Hsp' Hr']. split; [by eapply spares_trans|done].
Qed.

Lemma wp_open_shard {A} s p name (k : list string -> St A) Q :
  fs_wf s -> wp true (k (join p name)) s Q -> (forall e, Q (Err e) s) -> wp true (let! d := open_shard p name in k d) s Q.
Proof.
  intros Hwf Hk He. apply wp_bind. unfold open_shard. case_match; [by apply wp_fail|].
  eapply wp_check_then; [by apply verify_directory_checks|..|done]. intros _.
  eapply wp_check_then; [by apply verify_same_owner_checks|..|done]. intros _. by apply wp_ret.
Qed.

Lemma wp_cleanup_area s area budget report :
  fs_wf s -> total_removed report <= budget ->
  wp true (cleanup_sharded_area root area now minimum_age budget report) s (cleaned budget s total_removed).
Proof.
  intros Hwf Hb. unfold cleanup_sharded_area.
  assert (forall {B} (t : B -> Z) s' (e : StorageError), fs_wf s' -> cleaned budget s' t (Err e) s') as Herr.
  { intros B t s' e Hwf'. split; [by apply spares_refl|done]. }
  eapply wp_check_then; [by apply verify_directory_checks|..|by auto]. intros _.
  eapply wp_check_then; [by apply verify_same_owner_checks|..|by auto]. intros _.
  apply wp_entries; [|by auto]. intros firsts. apply wp_bind. eapply wp_mono; [apply wp_budgeted; [done..|]|].
  - intros a report1 s1 Hwf1 Hb1 _ _. apply wp_open_shard; [done| |by auto].
    apply wp_entries; [|by auto]. intros seconds. apply wp_budgeted; [done..|].
    intros f report2 s2 Hwf2 Hb2 _ _. apply wp_open_shard; [done| |by auto].
    apply wp_entries; [|by auto]. intros entries. apply wp_budgeted; [done..|].
    intros n report3 s3 Hwf3 Hb3 Hlt _. apply wp_bind.
    eapply wp_mono; [apply (wp_cleanup_entry s3 area a f n report3 Hwf3)|]. intros [report'|e] s4 [Hsp Hr]; [|by split].
    apply wp_ret. split; [done|]. intros x [= <-]. specialize (Hr _ eq_refl). specialize (Hlt eq_refl). simpl. lia.
  - intros [[report' flag]|e] s' [Hsp Hr]; [|by split]. apply wp_ret. split; [done|]. intros x [= <-]. by apply (Hr _ eq_refl).
Qed.

Lemma wp_prepare s : fs_wf s -> wp true (prepare root) s (fun r s' => spares s s').
Proof.
  intros Hwf. unfold prepare. apply wp_bind. eapply wp_mono; [by apply wp_create_secure_directory|].
  intros [[]|e] s1 (Hwf1 & Hev1 & _); [|by apply spares_evolves].
  eapply (wp_for_each _ _ (fun _ s' => spares s s')); [by apply spares_evolves| |done].
  intros name l' s' Hsp. apply wp_bind. eapply wp_mono; [apply wp_create_secure_directory, Hsp|].
  intros r s2 (Hwf2 & Hev2 & _). assert (spares s s2) by (eapply spares_trans; [done|by apply spares_evolves]).
  destruct r as [[]|e]; [|done]. eapply wp_mono; [by apply verify_same_owner_checks|]. intros [[]|e] s3 [-> _]; done.
Qed.

Lemma wp_cleanup s budget :
  fs_wf s -> 0 <= budget ->
  wp true (cleanup_operation_temporaries_at root now minimum_age budget) s (cleaned budget s total_removed).
Proof.
  intros Hwf Hb. unfold cleanup_operation_temporaries_at. apply wp_bind. eapply wp_mono; [by apply wp_prepare|].
  intros [[]|e] s1 Hsp1; [|by split]. pose proof Hsp1 as (Hwf1 & _). case_match.
  { apply wp_ret. split; [done|]. intros x [= <-]. done. }
  apply wp_bind. eapply wp_mono; [by apply wp_cleanup_area|]. intros [report|e] s2 [Hsp2 Hr]; [|split; [by eapply spares_trans|done]].
  pose proof (spares_trans _ _ _ Hsp1 Hsp2) as Hsp. specialize (Hr _ eq_refl). case_match.
  - eapply wp_mono; [apply wp_cleanup_area; [apply Hsp2|done]|]. intros r s3 [Hsp3 Hr']. split; [by eapply spares_trans|done].
  - apply wp_ret. split; [done|]. by intros x [= <-].
Qed.
End cleanup.
