(* ===== verification/StorageEngine.v ===== *)
(** The guarantees of the storage engine as its callers see them: theorems over
    every initial file system and every schedule of I/O failures, derived from
    the specifications of the preceding files. *)
From S2P Require Import Prelude Libraries ConcreteCodecs Frames PosixFs StorageLayout StorageFacts StorageProofs.
From S2P Require Import StorageReads StorageCleanup.
Open Scope string_scope.
Open Scope Z_scope.
Open Scope list_scope.
Open Scope bool_scope.

(** ** From [wp] to runs *)

(** What a run from [s] with the failures [faults] ends in. *)
Definition outcome {A} (m : St A) (s : Fs) (faults : list bool) : result StorageError A * Fs :=
  let '(r, w) := m (mkWorld s faults) in (r, w_fs w).

Lemma outcome_wp {A} b (m : St A) s faults Q :
  wp b m s Q -> (b = false -> faults = []) -> Q (outcome m s faults).1 (outcome m s faults).2.
Proof. intros Hm Hf. unfold outcome. specialize (Hm faults Hf). destruct (m _) as [r w]. apply Hm. Qed.

Section runs.
Context `{UuidLib, Blake3Lib, Readdir, FileTimes}.
Variable root : list string.

(** C4. Publishing a revision chunk is safe under any I/O failures: no inode
    ever changes, no name but the staging file's is taken away or redirected, and
    if the destination did not exist before, whatever appears there has the
    locator's size and digest.  Success means that the verified chunk is at its
    content-derived path and the staging name is gone; and without failures the
    publication of a valid staging file does succeed, also when the same chunk is
    already there. *)
Theorem publish_revision_chunk_correct s faults tmp l :
  fs_wf s -> tmp <> chunk_destination root l ->
  let dst := chunk_destination root l in
  let '(r, s') := outcome (publish_revision_chunk root tmp l) s faults in
  fs_wf s' /\ inodes s ⊆ inodes s' /\
  (forall p i, names s !! p = Some i -> p <> tmp -> names s' !! p = Some i) /\
  (node_at s dst = None -> forall x, node_at s' dst = Some x -> content_at s' dst (rl_size l) (rl_digest l)) /\
  (forall p, r = Ok p -> p = dst /\ stored s' dst (rl_size l) (rl_digest l) /\ node_at s' tmp = None) /\
  (faults = [] -> uuid_is_nil (rl_drive_id l) = false -> publishable root tmp l s -> r = Ok dst).
Proof.
  intros Hwf Hne dst. destruct (outcome _ s faults) as [r s'] eqn:Hout.
  destruct (outcome_wp _ _ s faults _ (wp_publish_revision_chunk root true s tmp l Hwf Hne)) as ([H3 H4 H5] & H6 & _); [done|].
  rewrite Hout in *. simpl in *. split; [done|]. split; [apply H4|]. split.
  { intros p i Hp Hpt. eapply ev_kept; [done..|]. by rewrite list_elem_of_singleton. }
  split; [intros Hn x Hx; apply H5; eauto|]. split; [done|]. intros -> Hnil Hpub.
  destruct (outcome_wp _ _ s [] _ (wp_publish_revision_chunk root false s tmp l Hwf Hne)) as (_ & _ & H7); [done|].
  rewrite Hout in H7. by apply H7.
Qed.

(** C5. Deleting a revision chunk is restartable: whatever system calls fail on
    the way, only the chunk's published and quarantined names are touched and no
    inode changes; success means that both names are gone; and from a state in
    which deletion was possible, after any interrupted attempt a retry without
    failures succeeds. *)
Theorem delete_revision_chunk_restartable s faults l op :
  fs_wf s -> uuid_is_nil (rl_drive_id l) = false -> uuid_is_nil op = false ->
  let src := chunk_destination root l in
  let quarantined := quarantine_destination root l op in
  let '(r, s') := outcome (delete_revision_chunk root l op) s faults in
  inodes s ⊆ inodes s' /\
  (forall p i, names s !! p = Some i -> p <> src -> p <> quarantined -> names s' !! p = Some i) /\
  (r = Ok tt -> node_at s' src = None /\ node_at s' quarantined = None) /\
  (deletable root l op s ->
   let '(retry, s'') := outcome (delete_revision_chunk root l op) s' [] in
   retry = Ok tt /\ node_at s'' src = None /\ node_at s'' quarantined = None).
Proof.
  intros Hwf Hd Hop src quarantined. destruct (outcome _ s faults) as [r s'] eqn:Hout.
  destruct (outcome_wp _ _ s faults _ (wp_delete_revision_chunk root true s l op Hwf Hd Hop)) as ((Hwf' & Hev & Hdel) & Hr & _); [done|].
  rewrite Hout in *. cbn [fst snd] in *. split; [apply Hev|]. split.
  { intros p i Hp H3 H4. eapply ev_kept; [done..|]. subst src quarantined. by intros [->|[->|[]%elem_of_nil]%elem_of_cons]%elem_of_cons. }
  split; [done|]. intros Hs. destruct (outcome _ s' []) as [retry s''] eqn:Hretry.
  destruct (outcome_wp _ _ s' [] _ (wp_delete_revision_chunk root false s' l op Hwf' Hd Hop)) as (_ & Hr' & Hlive); [done|].
  rewrite Hretry in *. cbn [fst snd] in *. specialize (Hlive eq_refl (Hdel Hs)). by split; [|apply Hr'].
Qed.

(** C6. A verified range read of a chunked object returns exactly the bytes it
    was asked for: reading the returned file segments gives the bytes
    [start..=end] of the concatenated chunks the manifest describes, whenever
    the call succeeds, and without failures it succeeds for every range within a
    completely stored object. *)
Theorem chunked_range_reads_exact s faults (p : PayloadRecord) chunks contents start end_ :
  fs_wf s -> 0 <= start -> Forall (fun c => 0 <= bc_size c) chunks ->
  Forall2 (fun c d => pins s (bc_size c) (bc_digest c) d) chunks contents ->
  let '(r, s') := outcome (verified_chunked_object_segments root p chunks start end_) s faults in
  (forall segments, r = Ok segments ->
     read_segments s' segments = slice start (end_ + 1) (concat contents) /\
     (chunks <> [] -> start <= end_ < p_size_bytes p /\ len (concat contents) = p_size_bytes p)) /\
  (faults = [] -> p_layout p = "chunked" -> is_i64 (p_size_bytes p) -> start <= end_ < p_size_bytes p ->
   object_stored root s p chunks -> exists segments, r = Ok segments).
Proof.
  intros Hwf Hs Hpos Hpins. destruct (outcome _ s faults) as [r s'] eqn:Hout.
  destruct (outcome_wp _ _ s faults _ (wp_verified_chunked root true s p chunks contents start end_ Hwf Hs Hpos Hpins)) as (Hread & _); [done|].
  rewrite Hout in *. split; [done|]. intros -> ? ? ? ?.
  destruct (outcome_wp _ _ s [] _ (wp_verified_chunked root false s p chunks contents start end_ Hwf Hs Hpos Hpins)) as (_ & Hlive); [done|].
  rewrite Hout in Hlive. by apply Hlive.
Qed.

(** A clean-up pass removes at most its budget of temporaries and never
    touches anything else: under any order of directory entries and any I/O
    failures, no inode changes, and every name survives that is not an operation
    temporary (nor inside one), as does every temporary whose file system age is
    below the minimum. *)
Theorem cleanup_spares_objects s faults now minimum_age budget :
  fs_wf s -> 0 <= budget ->
  let '(r, s') := outcome (cleanup_operation_temporaries_at root now minimum_age budget) s faults in
  fs_wf s' /\ inodes s ⊆ inodes s' /\
  (forall p i, names s !! p = Some i -> protected root now minimum_age s p -> names s' !! p = Some i) /\
  (forall report, r = Ok report -> total_removed report <= budget).
Proof.
  intros Hwf Hb. destruct (outcome _ s faults) as [r s'] eqn:Hout.
  destruct (outcome_wp _ _ s faults _ (wp_cleanup root now minimum_age s budget Hwf Hb)) as [(H3 & H4 & H5) H6]; [done|].
  by rewrite Hout in *.
Qed.

Lemma staging_name_kind `{!UuidLaws} area drive_id op : temporary_kind area (revision_staging_name drive_id op) = None.
Proof.
  unfold temporary_kind.
  assert (is_writing_temporary (revision_staging_name drive_id op) = false) as ->.
  { unfold is_writing_temporary, revision_staging_name. rewrite (proj2 (strip_suffix_Some _ _
      ("revision-" +:+ uuid_hyphenated drive_id +:+ "-" +:+ uuid_hyphenated op)))
      by (by rewrite !str_app_assoc).
    rewrite split_char_free_id; [done|]. unfold char_free. rewrite !as_bytes_app, !not_elem_of_app.
    assert (forall u, "."%char ∉ as_bytes (uuid_hyphenated u)) as Hdot by (intros u Hu%uuid_hyphenated_alphabet; done).
    repeat split; [by apply (bool_decide_unpack _)|done|by apply (bool_decide_unpack _)|done]. }
  rewrite andb_false_r. unfold is_finalizing_temporary, revision_staging_name. simpl. by rewrite andb_false_r.
Qed.

(** The staging file of a revision chunk is never collected: its name has
    no dot between the two identifiers, so no clean-up pass of any age and any
    budget removes it, and a staging file left by a crashed or failed publication
    stays for ever. *)
Theorem revision_staging_never_collected `{!UuidLaws} s faults now minimum_age budget a f drive_id op i :
  fs_wf s -> 0 <= budget ->
  let p := join (leaf root "staging" a f) (revision_staging_name drive_id op) in
  names s !! p = Some i ->
  names (outcome (cleanup_operation_temporaries_at root now minimum_age budget) s faults).2 !! p = Some i.
Proof.
  intros Hwf Hb p Hp.
  destruct (outcome_wp _ _ s faults _ (wp_cleanup root now minimum_age s budget Hwf Hb)) as [(_ & _ & Hkept) _]; [done|].
  apply Hkept; [done|]. intros d rest Heq (area & a' & f' & n & -> & Hk). exfalso. apply Hk.
  assert (rest = []) as ->.
  { apply (f_equal length) in Heq. subst p. unfold leaf, join in Heq. rewrite !length_app in Heq. simpl in Heq.
    destruct rest; [done|simpl in Heq; lia]. }
  rewrite app_nil_r in Heq. subst p. apply app_inj_tail in Heq as [_ <-]. apply staging_name_kind.
Qed.
End runs.

(** ** Checking well-formedness of concrete file systems *)

Definition dir_atb (s : Fs) (p : list string) : bool :=
  match node_at s p with Some (_, n) => is_directory n | None => false end.
Definition fs_wfb (s : Fs) : bool :=
  dir_atb s [] &&
  forallb (fun kv => bool_decide (is_Some (inodes s !! kv.2)) && (bool_decide (kv.1 = []) || dir_atb s (removelast kv.1)))
    (map_to_list (names s)) &&
  forallb (fun kv => N.ltb kv.1 (next_ino s)) (map_to_list (inodes s)).

Lemma dir_atb_true s p : dir_atb s p = true -> dir_at s p.
Proof. unfold dir_atb, dir_at. destruct (node_at s p) as [[i n]|]; [by eauto|done]. Qed.

Lemma fs_wfb_sound s : fs_wfb s = true -> fs_wf s.
Proof.
  unfold fs_wfb. rewrite !andb_true_iff, !forallb_forall. intros [[Hroot Hn] Hi].
  assert (forall p i, names s !! p = Some i -> is_Some (inodes s !! i) /\ (p = [] \/ dir_at s (removelast p))) as Hp.
  { intros p i Hp. specialize (Hn (p, i)). simpl in Hn. rewrite andb_true_iff, orb_true_iff, !bool_decide_eq_true in Hn.
    destruct Hn as [H1 [H2|H2%dir_atb_true]]; [by apply list_elem_of_In, elem_of_map_to_list|by auto..]. }
  split.
  - by apply dir_atb_true.
  - intros p i H1. by apply (Hp p i).
  - intros p c i H1. destruct (Hp _ _ H1) as [_ [H2|H2]]; [by destruct p|]. by rewrite removelast_last in H2.
  - intros i [n Hin]. specialize (Hi (i, n)). simpl in Hi. apply N.ltb_lt, Hi. by apply list_elem_of_In, elem_of_map_to_list.
Qed.

Definition own_dirb (s : Fs) (p : list string) : bool :=
  match node_at s p with
  | Some (_, n) => is_directory n && (Z.land (i_mode n) PERMISSION_BITS =? DIRECTORY_MODE) && (i_uid n =? fs_uid s)
  | None => false
  end.
Lemma own_dirb_sound s p : own_dirb s p = true -> own_dir s p.
Proof.
  unfold own_dirb, own_dir. destruct (node_at s p) as [[i n]|]; [|done]. rewrite !andb_true_iff, !Z.eqb_eq.
  intros [[H1 H2] H3]. by exists i, n.
Qed.

Definition storedb `{Blake3Lib} (s : Fs) (p : list string) (size : Z) (digest : bytes) : bool :=
  match node_at s p, node_at s (removelast p) with
  | Some (_, mkInode (KFile d) m u), Some (_, n) =>
      (Z.land m PERMISSION_BITS =? FILE_MODE) && (u =? i_uid n) && (len d =? size)
      && bool_decide (blake3_hash d = digest) && bool_decide (p <> [])
  | _, _ => false
  end.
Lemma storedb_sound `{Blake3Lib} s p size digest : storedb s p size digest = true -> stored s p size digest.
Proof.
  unfold storedb. destruct (node_at s p) as [[i [[d| |] m u]]|] eqn:Hp; try done.
  destruct (node_at s (removelast p)) as [[j n]|] eqn:Hq; [|done].
  rewrite !andb_true_iff, !Z.eqb_eq, !bool_decide_eq_true. intros [[[[H1 H2] H3] H4] H5].
  exists d. split; [|done]. exists i, m, u, (removelast p). split; [done|]. split; [done|].
  split; [by destruct p|]. by exists (i, mkInode (KFile d) m u), (j, n).
Qed.

Ltac holds := lazymatch goal with
  | |- fs_wf _ => apply fs_wfb_sound; vm_compute; reflexivity
  | |- own_dir _ _ => apply own_dirb_sound; vm_compute; reflexivity
  | |- stored _ _ _ _ => apply storedb_sound; vm_compute; reflexivity
  | |- free_or_own ?s ?p =>
      let r := eval vm_compute in (own_dirb s p) in
      lazymatch r with true => right; holds | false => left; holds end
  | |- _ <> _ => vm_compute; discriminate
  | |- _ => vm_compute; reflexivity
  end.
Ltac levels_hold := repeat (constructor; [holds|]); constructor.

(** ** A small store *)

Module Demo.
Import Concrete.
Definition readdir : Readdir := fun l => l.
Definition old_files : FileTimes := fun _ _ => 0.
#[local] Existing Instance readdir.
#[local] Existing Instance old_files.

Definition root : list string := ["store"].
Definition dir : Inode := mkInode KDir DIRECTORY_MODE 7.
Definition file (d : string) : Inode := mkInode (KFile (as_bytes d)) FILE_MODE 7.
Definition store (files : list (list string * Inode)) : Fs :=
  let nodes := [([], mkInode KDir 493 0); (root, dir)] ++ files in
  mkFs (list_to_map (imap (fun i x => (x.1, N.of_nat i)) nodes))
    (list_to_map (imap (fun i x => (N.of_nat i, x.2)) nodes)) (N.of_nat (length nodes)) 7 63.

Definition drive : N := 18.
Definition operation : N := 52.
Definition text : string := "chunk".
Definition locator : RevisionChunkLocator := mkLocator drive (blake3_hash (as_bytes text)) 5.
Definition staged : Fs := store [(["store"; "tmp"], file text)].
Definition published_fs : Fs := (outcome (publish_revision_chunk root ["store"; "tmp"] locator) staged []).2.

Lemma publish_revision_chunk_correct_witness :
  (outcome (publish_revision_chunk root ["store"; "tmp"] locator) staged []).1 = Ok (chunk_destination root locator) /\
  stored published_fs (chunk_destination root locator) 5 (rl_digest locator).
Proof.
  pose proof (publish_revision_chunk_correct root staged [] ["store"; "tmp"] locator
    ltac:(holds) ltac:(holds)) as Hthm.
  unfold published_fs. cbv zeta in Hthm. destruct (outcome _ staged []) as [r s'].
  destruct Hthm as (_ & _ & _ & _ & Hok & Hlive). cbn [fst snd].
  assert (r = Ok (chunk_destination root locator)) as ->; [|by split; [|apply (Hok _ eq_refl)]].
  apply Hlive; [done|done|]. split; [holds|]. split; [exists root; split; holds|]. split; [holds|].
  split; [levels_hold|left; holds].
Defined.

Lemma delete_revision_chunk_restartable_witness :
  let first := outcome (delete_revision_chunk root locator operation) published_fs (repeat false 60 ++ [true]) in
  node_at (outcome (delete_revision_chunk root locator operation) first.2 []).2 (chunk_destination root locator) = None.
Proof.
  pose proof (delete_revision_chunk_restartable root published_fs (repeat false 60 ++ [true]) locator operation
    ltac:(holds) ltac:(holds) ltac:(holds)) as Hthm.
  cbv zeta in *. destruct (outcome _ published_fs _) as [r s']. destruct Hthm as (_ & _ & _ & Hretry). cbn [fst snd].
  destruct (outcome _ s' []) as [r' s'']. apply Hretry.
  split; [holds|]. split; [holds|]. split; [levels_hold|]. left. split; holds.
Defined.

Definition object : PayloadRecord := mkPayload 1 2 drive 3 5 "chunked" "ready" 5 None.
Definition object_chunks : list CowBaseChunk :=
  [mkBaseChunk 0 3 (blake3_hash (as_bytes "chu")); mkBaseChunk 1 2 (blake3_hash (as_bytes "nk"))].
Definition object_dir : list string := ["store"; "chunks"; "00"; "00"; uuid_hyphenated 5].
Definition objects : Fs := store
  [(["store"; "chunks"], dir); (["store"; "chunks"; "00"], dir); (["store"; "chunks"; "00"; "00"], dir); (object_dir, dir);
   (object_dir ++ ["00000000.part"], file "chu"); (object_dir ++ ["00000001.part"], file "nk")].

Lemma chunked_range_reads_exact_witness :
  exists segments,
    (outcome (verified_chunked_object_segments root object object_chunks 1 3) objects []).1 = Ok segments /\
    read_segments (outcome (verified_chunked_object_segments root object object_chunks 1 3) objects []).2 segments
    = as_bytes "hun".
Proof.
  assert (forall size digest d,
    len d = size -> forallb (fun kv => match i_kind kv.2 with KFile d' =>
      negb (len d' =? size) || negb (bool_decide (blake3_hash d' = digest)) || bool_decide (d' = d) | _ => true end)
      (map_to_list (inodes objects)) = true -> pins objects size digest d) as Hpins.
  { intros size digest d Hl Hall. split; [done|]. intros q i d' m u [_ Hi]%node_at_Some Hl' Hh.
    rewrite forallb_forall in Hall. specialize (Hall (i, mkInode (KFile d') m u)).
    simpl in Hall. rewrite (proj2 (Z.eqb_eq _ _) Hl'), bool_decide_eq_true_2 in Hall by done.
    apply (bool_decide_eq_true_1 _), Hall. by apply list_elem_of_In, elem_of_map_to_list. }
  pose proof (chunked_range_reads_exact root objects [] object object_chunks [as_bytes "chu"; as_bytes "nk"] 1 3
    ltac:(holds) ltac:(lia) ltac:(repeat constructor; simpl; lia)) as Hthm.
  destruct (outcome _ objects []) as [r s'].
  destruct Hthm as [Hread Hlive].
  { repeat constructor; apply Hpins; holds. }
  destruct (Hlive eq_refl eq_refl ltac:(by vm_compute) ltac:(simpl; lia)) as [segments ->].
  { split; [holds|]. split; [levels_hold|]. split; [apply own_secure; holds|]. split; [repeat split; simpl; lia|].
    split; [holds|]. repeat constructor; holds. }
  exists segments. split; [done|]. by apply (Hread segments).
Defined.

(** One abandoned upload temporary among the objects, and one revision staging file. *)
Definition writing_name : string := uuid_hyphenated 5 +:+ "." +:+ uuid_hyphenated operation +:+ ".writing".
Definition staging_dir : list string := ["store"; "staging"; "00"; "00"].
Definition abandoned : Fs := store
  [(["store"; "staging"], dir); (["store"; "staging"; "00"], dir); (staging_dir, dir);
   (staging_dir ++ [writing_name], file "half"); (staging_dir ++ [revision_staging_name drive operation], file text);
   (["store"; "whole"], dir); (["store"; "whole"; "object"], file text)].

Lemma cleanup_spares_objects_witness :
  let '(r, s') := outcome (cleanup_operation_temporaries_at root 100000 86400 3) abandoned [] in
  r = Ok (mkReport 1 0) /\ node_at s' (staging_dir ++ [writing_name]) = None /\
  names s' !! ["store"; "whole"; "object"] = names abandoned !! ["store"; "whole"; "object"].
Proof.
  pose proof (cleanup_spares_objects root abandoned [] 100000 86400 3 ltac:(holds) ltac:(lia)) as Hthm.
  destruct (outcome _ abandoned []) as [r s'] eqn:Hout. destruct Hthm as (_ & _ & Hkept & _).
  assert (r = Ok (mkReport 1 0) /\ node_at s' (staging_dir ++ [writing_name]) = None) as [-> Hgone].
  { pose proof (f_equal fst Hout) as Hr. pose proof (f_equal snd Hout) as Hs. cbn [fst snd] in Hr, Hs.
    rewrite <-Hr, <-Hs. split; vm_compute; reflexivity. }
  split; [done|]. split; [done|]. change (names abandoned !! ["store"; "whole"; "object"]) with (Some 8%N).
  apply Hkept; [holds|]. intros d rest Heq Hd. apply temporary_root_length in Hd. apply (f_equal length) in Heq.
  rewrite length_app, Hd in Heq. simpl in Heq. lia.
Defined.

Lemma revision_staging_never_collected_witness :
  is_Some (names (outcome (cleanup_operation_temporaries_at root 100000 86400 3) abandoned []).2
             !! (staging_dir ++ [revision_staging_name drive operation])).
Proof.
  exists 6%N. apply (revision_staging_never_collected root abandoned [] 100000 86400 3 "00" "00" drive operation);
    [holds|lia|holds].
Defined.
End Demo.
