(* ===== verification/Cow.v ===== *)
(** Model of [source/crates/filebelt-storage/src/cow.rs]: copy-on-write staging
    of mount writes.  A session is a directory of fixed-size chunks, some of them
    hard links to a published payload; every mutation builds a new file and
    renames it over the chunk.  The lock files of [lock_cow] are not part of this
    model: every operation here runs under the lock of its session. *)
From S2P Require Import Prelude Collections Libraries Frames PosixFs StorageLayout.
Open Scope string_scope.
Open Scope Z_scope.
Open Scope list_scope.
Open Scope bool_scope.

Definition MIN_CHUNK_SIZE : Z := 64 * 1024.
Definition MAX_CHUNK_SIZE : Z := 64 * 1024 * 1024.
Definition MAX_CHUNK_COUNT : Z := 100000000.
(** The copy buffers of the module. *)
Definition COPY_BUFFER : Z := 64 * 1024.

Record CowWriteResult := mkWritten { logical_size : Z; reservation_delta : Z }.
Record CowChunkDigest := mkChunkDigest { cd_chunk_number : Z; cd_size : Z; cd_digest : bytes }.
Record CowManifest := mkManifest { mf_logical_size : Z; mf_digest : bytes; mf_chunks : list CowChunkDigest }.
Inductive SparseSeek := Data | Hole.

#[export] Instance CowChunkDigest_eq_dec : EqDecision CowChunkDigest.
Proof. solve_decision. Defined.
#[export] Instance CowManifest_eq_dec : EqDecision CowManifest.
Proof. solve_decision. Defined.

(** ** What the file system decides

    Where a file has holes, how many blocks it occupies and whether
    [fallocate(2)] is supported are the file system's business. *)

Inductive Errno := NXIO | INVAL | NOTSUP | OtherErrno.
Class SparseFs := {
  seek_data : Fs -> N -> Z -> result Errno Z;
  seek_hole : Fs -> N -> Z -> result Errno Z;
  fallocate_refused : Fs -> N -> option Errno;
  st_blocks : Fs -> N -> Z
}.

Definition file_data (s : Fs) (i : N) : bytes :=
  match inodes s !! i with
  | Some n => match i_kind n with KFile d => d | _ => [] end
  | None => []
  end.

(** [lseek(2)]: [SEEK_DATA] skips only bytes that read as zero and reports
    [ENXIO] when nothing but such bytes follows; from an offset that
    [SEEK_DATA] reported, the next hole lies behind it.  These operations and
    [fallocate(2)] are supported, which the start-up probe establishes. *)
Class SparseLaws `{SparseFs} : Prop := {
  seek_data_found : forall s i o d, seek_data s i o = Ok d -> o <= d /\
    forall k, o <= k < d -> file_data s i !! Z.to_nat k = None \/ file_data s i !! Z.to_nat k = Some zero_byte;
  seek_data_none : forall s i o, seek_data s i o = Err NXIO ->
    forall k, o <= k -> file_data s i !! Z.to_nat k = None \/ file_data s i !! Z.to_nat k = Some zero_byte;
  seek_data_supported : forall s i o e, seek_data s i o = Err e -> e = NXIO;
  seek_hole_found : forall s i o d, 0 <= o -> seek_data s i o = Ok d -> d < len (file_data s i) ->
    exists h, seek_hole s i d = Ok h /\ d < h;
  fallocate_supported : forall s i, fallocate_refused s i = None
}.

Definition storage_errno (e : Errno) : StorageError :=
  match e with INVAL | NOTSUP => UnsupportedFilesystem | _ => Io OtherIo end.

(** A system call whose error number the caller looks at. *)
Definition sys_try {A} (f : Fs -> result Errno A) : St (result Errno A) := sys (fun s => Ok (f s, s)).

(** ** Names *)

Definition cow_chunk_name (chunk_number : Z) : string := pad_zero 8 (dec_to_string chunk_number) +:+ ".part".

Definition parse_cow_chunk_name (name : string) : result StorageError Z :=
  match strip_suffix ".part" name with
  | Some digits =>
      if str_len digits =? 8 then ok_or UnsafeObject (parse_unsigned u64_max digits) else Err UnsafeObject
  | None => Err UnsafeObject
  end.

Section cow_names.
Context `{UuidLib}.

Definition parse_cow_writing_name (name : string) : result StorageError Z :=
  match strip_prefix "." name with
  | None => Err UnsafeObject
  | Some value =>
      match strip_suffix ".writing" value with
      | None => Err UnsafeObject
      | Some temporary =>
          match split_once_str ".part." temporary with
          | None => Err UnsafeObject
          | Some (digits, operation_id) =>
              let? chunk_number := parse_cow_chunk_name (digits +:+ ".part") in
              let? parsed := ok_or UnsafeObject (uuid_parse_str operation_id) in
              if negb (String.eqb (uuid_hyphenated parsed) operation_id) then Err UnsafeObject
              else Ok chunk_number
          end
      end
  end.

Definition parse_cow_entry_name (name : string) : result StorageError Z :=
  match parse_cow_chunk_name name with
  | Ok chunk_number => Ok chunk_number
  | Err _ => parse_cow_writing_name name
  end.
End cow_names.

(** ** Validation *)

Definition validate_chunk_size (chunk_size : Z) : result StorageError unit :=
  if negb ((MIN_CHUNK_SIZE <=? chunk_size) && (chunk_size <=? MAX_CHUNK_SIZE))
     || negb (is_power_of_two chunk_size)
  then Err StateConflict else Ok tt.

Definition checked_nonempty_range_end (offset length : Z) : result StorageError Z :=
  if length =? 0 then Err StateConflict else ok_or StateConflict (checked_add_u64 offset length).

(** The size of chunk [n] of [count]. *)
Definition expected_chunk_size (chunk_size logical_size count n : Z) : Z :=
  if n + 1 =? count then logical_size - n * chunk_size else chunk_size.

Definition validate_base_chunks (chunks : list CowBaseChunk) (chunk_size logical_size : Z)
  : result StorageError unit :=
  let expected_count := div_ceil logical_size chunk_size in
  if negb (len chunks =? expected_count) then Err StateConflict
  else if existsb (fun x =>
            negb (bc_chunk_number (snd x) =? fst x)
            || negb (bc_size (snd x) =? expected_chunk_size chunk_size logical_size expected_count (fst x)))
          (imap (fun i c => (Z.of_nat i, c)) chunks)
  then Err StateConflict else Ok tt.

Definition validate_cow_payload_evidence (payload : PayloadRecord) (expected manifest : CowManifest)
  : result StorageError unit :=
  if negb (bool_decide (manifest = expected))
     || match p_blake3 payload with None => false | Some d => negb (bool_decide (d = mf_digest manifest)) end
     || match u64_try_from (p_size_bytes payload) with
        | Some size => if size =? 0 then false else negb (size =? mf_logical_size expected)
        | None => true
        end
  then Err CorruptObject else Ok tt.

(** ** Open files *)

(** [ftruncate(2)]: cut, or extend with zeros. *)
Definition resize (n : Z) (d : bytes) : bytes :=
  take (Z.to_nat n) d ++ replicate (Z.to_nat n - length d) zero_byte.
(** [pwrite(2)] of all of [b] at [o]; a gap reads as zeros. *)
Definition write_at (o : Z) (b d : bytes) : bytes :=
  resize o d ++ b ++ drop (Z.to_nat o + length b) d.
(** What [fallocate(2)] does to the content. *)
Definition extend_to (n : Z) (d : bytes) : bytes := if len d <? n then resize n d else d.
Definition punch (o n : Z) (d : bytes) : bytes :=
  let e := Z.min (o + n) (len d) in
  if o <? e then write_at o (replicate (Z.to_nat (e - o)) zero_byte) d else d.

Definition sys_len (i : N) (s : Fs) : result IoError (Z * Fs) :=
  match inodes s !! i with Some _ => Ok (len (file_data s i), s) | None => Err OtherIo end.
Definition set_len (i : N) (n : Z) : St unit := sys (sys_update i (resize n)).
Definition write_all (i : N) (o : Z) (b : bytes) : St unit := sys (sys_update i (write_at o b)).
(** [read_exact] of [n] bytes at [o] *)
Definition read_exact_at (i : N) (o n : Z) : St bytes :=
  sys (fun s => let b := take (Z.to_nat n) (drop (Z.to_nat o) (file_data s i)) in
                if len b =? n then Ok (b, s) else Err OtherIo).

Definition pad_file_to (file : N) (offset : Z) : St unit :=
  let! current := sys (sys_len file) in
  if current <? offset then set_len file offset else ret tt.

Definition fallocate `{SparseFs} (file : N) (f : bytes -> bytes) : St unit :=
  let! r := sys_try (fun s => match fallocate_refused s file with Some e => Err e | None => Ok tt end) in
  match r with
  | Err e => fail (storage_errno e)
  | Ok _ => sys (sys_update file f)
  end.

(** The inner copy loop: [n] bytes from [o], a buffer at a time. *)
Fixpoint copy_range (fuel : nat) (source destination : N) (from to n : Z) : St unit :=
  match fuel with
  | O => ret tt
  | S fuel' =>
      if n <=? 0 then ret tt
      else
        let take := Z.min n COPY_BUFFER in
        let! buffer := read_exact_at source from take in
        let! _ := write_all destination to buffer in
        copy_range fuel' source destination (from + take) (to + take) (n - take)
  end.
Definition copy_bytes (source destination : N) (from to n : Z) : St unit :=
  copy_range (Z.to_nat (n / COPY_BUFFER + 1)) source destination from to n.

Definition open_file (p : path) : St (N * Inode) := sys (sys_open p).

Section sparse.
Context `{SparseFs}.

Fixpoint copy_extents (fuel : nat) (source destination : N) (size cursor : Z) : St unit :=
  match fuel with
  | O => ret tt
  | S fuel' =>
      if size <=? cursor then ret tt
      else
        let! found := sys_try (fun s => seek_data s source cursor) in
        match found with
        | Err NXIO => ret tt
        | Err e => fail (storage_errno e)
        | Ok data =>
            if size <=? data then ret tt
            else
              let! end_ := sys_try (fun s => seek_hole s source data) in
              match end_ with
              | Err e => fail (storage_errno e)
              | Ok h =>
                  let hole := Z.min h size in
                  if hole <=? data then fail UnsupportedFilesystem
                  else
                    let! _ := copy_bytes source destination data data (hole - data) in
                    copy_extents fuel' source destination size hole
              end
        end
  end.

(** The cursor grows with every extent, so [size] rounds are enough. *)
Definition copy_sparse_file (source destination : N) : St unit :=
  let! size := sys (sys_len source) in
  let! _ := set_len destination size in
  copy_extents (Z.to_nat size + 1) source destination size 0.
End sparse.

(** ** Chunks of a session *)

(** The loop of [extend_cow_with_holes] and [for_each_cow_range]: one call per
    chunk the range [offset..offset+length) meets. *)
Fixpoint range_loop (fuel : nat) (chunk_size offset length : Z) (body : Z -> Z -> Z -> St unit) : St unit :=
  match fuel with
  | O => ret tt
  | S fuel' =>
      if length <=? 0 then ret tt
      else
        let chunk_number := offset / chunk_size in
        let within := offset mod chunk_size in
        let take := Z.min length (chunk_size - within) in
        let! _ := body chunk_number within take in
        let! offset' := of_result (ok_or StateConflict (checked_add_u64 offset take)) in
        range_loop fuel' chunk_size offset' (length - take) body
  end.
(** A range meets at most [length / chunk_size + 2] chunks. *)
Definition for_chunks (chunk_size offset length : Z) (body : Z -> Z -> Z -> St unit) : St unit :=
  range_loop (Z.to_nat (length / chunk_size + 2)) chunk_size offset length body.

Section chunks.
Context `{UuidLib, Blake3Lib, Readdir, SparseFs}.
Variable root : path.

Definition cow_directory (write_session_id : N) : St (list string) :=
  let! d := shard_directory root "staging" write_session_id in
  ret (join d (uuid_hyphenated write_session_id +:+ ".cow")).

Definition writing_chunk_name (chunk_number : Z) (operation_id : N) : string :=
  "." +:+ cow_chunk_name chunk_number +:+ "." +:+ uuid_hyphenated operation_id +:+ ".writing".

Definition replace_chunk (write_session_id operation_id : N) (chunk_number : Z) (mutate : N -> St unit) : St unit :=
  if MAX_CHUNK_COUNT <=? chunk_number then fail StateConflict
  else
    let! directory := cow_directory write_session_id in
    let! _ := verify_directory directory in
    let destination := join directory (cow_chunk_name chunk_number) in
    let temporary := join directory (writing_chunk_name chunk_number operation_id) in
    let! kind := path_kind destination in
    let! file :=
      match kind with
      | Present =>
          let! _ := verify_regular_file destination in
          let! source := open_file destination in
          let! temporary_file := create_new_file temporary in
          let! _ := copy_sparse_file (fst source) temporary_file in
          ret temporary_file
      | Missing => create_new_file temporary
      end in
    let! _ := mutate file in
    let! _ := sys (sys_fsync file) in
    let! _ := sys (sys_rename temporary destination) in
    sync_directory directory.

Fixpoint write_loop (fuel : nat) (write_session_id operation_id : N) (chunk_size offset : Z) (data : bytes) : St unit :=
  match fuel with
  | O => ret tt
  | S fuel' =>
      match data with
      | [] => ret tt
      | _ =>
          let chunk_number := offset / chunk_size in
          let within := offset mod chunk_size in
          let n := Z.min (len data) (chunk_size - within) in
          let segment := take (Z.to_nat n) data in
          let! _ := replace_chunk write_session_id operation_id chunk_number (fun file =>
            let! _ := pad_file_to file within in
            write_all file within segment) in
          let! offset' := of_result (ok_or StateConflict (checked_add_u64 offset n)) in
          write_loop fuel' write_session_id operation_id chunk_size offset' (drop (Z.to_nat n) data)
      end
  end.
(** Every round takes at least one byte. *)
Definition write_cow_range (write_session_id operation_id : N) (chunk_size offset : Z) (data : bytes) : St unit :=
  write_loop (length data) write_session_id operation_id chunk_size offset data.

Definition for_each_cow_range (write_session_id operation_id : N) (chunk_size offset length : Z)
    (operation : N -> Z -> Z -> St unit) : St unit :=
  for_chunks chunk_size offset length (fun chunk_number within take =>
    replace_chunk write_session_id operation_id chunk_number (fun file => operation file within take)).

(** [within + take] is at most the chunk size. *)
Definition pad_to_end (file : N) (within take : Z) : St unit :=
  let! n := of_result (ok_or StateConflict (checked_add_u64 within take)) in
  pad_file_to file n.

Definition extend_cow_with_holes (write_session_id operation_id : N) (chunk_size offset length : Z) : St unit :=
  for_each_cow_range write_session_id operation_id chunk_size offset length pad_to_end.

Definition written (current_logical_size logical_size : Z) : CowWriteResult :=
  mkWritten logical_size (saturating_sub_u64 logical_size current_logical_size).

Definition write_cow_at (write_session_id operation_id : N) (chunk_size current_logical_size offset : Z)
    (data : bytes) : St CowWriteResult :=
  let! _ := of_result (validate_chunk_size chunk_size) in
  let! end_ := of_result (ok_or StateConflict (checked_add_u64 offset (len data))) in
  let! _ :=
    if current_logical_size <? offset then
      extend_cow_with_holes write_session_id operation_id chunk_size current_logical_size (offset - current_logical_size)
    else ret tt in
  let! _ := write_cow_range write_session_id operation_id chunk_size offset data in
  ret (written current_logical_size (Z.max current_logical_size end_)).

Definition truncate_cow (write_session_id operation_id : N) (chunk_size current_logical_size new_logical_size : Z)
  : St CowWriteResult :=
  let! _ := of_result (validate_chunk_size chunk_size) in
  let! _ :=
    if current_logical_size <? new_logical_size then
      extend_cow_with_holes write_session_id operation_id chunk_size current_logical_size
        (new_logical_size - current_logical_size)
    else if new_logical_size <? current_logical_size then
      let! directory := cow_directory write_session_id in
      let! _ := verify_directory directory in
      let retained_chunks := div_ceil new_logical_size chunk_size in
      let! _ := for_each_entry directory (fun name =>
        let! number := of_result (parse_cow_chunk_name name) in
        if retained_chunks <=? number then
          let! _ := verify_regular_file (join directory name) in
          sys (sys_remove_file (join directory name))
        else ret tt) in
      let! _ :=
        if 0 <? new_logical_size then
          let final_number := (new_logical_size - 1) / chunk_size in
          let final_size := new_logical_size - final_number * chunk_size in
          replace_chunk write_session_id operation_id final_number (fun file => set_len file final_size)
        else ret tt in
      sync_directory directory
    else ret tt in
  ret (written current_logical_size new_logical_size).

Definition allocate_cow_range (write_session_id operation_id : N)
    (chunk_size current_logical_size offset length : Z) : St CowWriteResult :=
  let! _ := of_result (validate_chunk_size chunk_size) in
  let! end_ := of_result (checked_nonempty_range_end offset length) in
  let! _ :=
    if current_logical_size <? offset then
      extend_cow_with_holes write_session_id operation_id chunk_size current_logical_size (offset - current_logical_size)
    else ret tt in
  let! _ := for_each_cow_range write_session_id operation_id chunk_size offset length (fun file within take =>
    let! _ := pad_to_end file within take in
    fallocate file (extend_to (within + take))) in
  ret (written current_logical_size (Z.max current_logical_size end_)).

Definition deallocate_cow_range (write_session_id operation_id : N)
    (chunk_size current_logical_size offset length : Z) : St CowWriteResult :=
  let! _ := of_result (validate_chunk_size chunk_size) in
  let! requested_end := of_result (checked_nonempty_range_end offset length) in
  let end_ := Z.min requested_end current_logical_size in
  let! _ :=
    if offset <? end_ then
      for_each_cow_range write_session_id operation_id chunk_size offset (end_ - offset) (fun file within take =>
        fallocate file (punch within take))
    else ret tt in
  ret (mkWritten current_logical_size 0).

(** ** Sparse offsets *)

Definition seek_kind (kind : SparseSeek) (i : N) (within : Z) (s : Fs) : result Errno Z :=
  match kind with Data => seek_data s i within | Hole => seek_hole s i within end.
Definition then_some {A} (b : bool) (a : A) : option A := if b then Some a else None.
Definition is_hole (kind : SparseSeek) : bool := match kind with Hole => true | Data => false end.

Fixpoint sparse_loop (fuel : nat) (directory : path) (chunk_size total chunk_count chunk_number within : Z)
    (kind : SparseSeek) : St (option Z) :=
  match fuel with
  | O => ret (then_some (is_hole kind) total)
  | S fuel' =>
      if chunk_count <=? chunk_number then ret (then_some (is_hole kind) total)
      else
        let chunk_logical_size := expected_chunk_size chunk_size total chunk_count chunk_number in
        let p := join directory (cow_chunk_name chunk_number) in
        let! _ := verify_regular_file p in
        let! file := open_file p in
        let! r := sys_try (seek_kind kind (fst file) within) in
        match r with
        | Ok found =>
            if found <? chunk_logical_size then
              let! base := of_result (ok_or StateConflict (checked_mul_u64 chunk_number chunk_size)) in
              let! x := of_result (ok_or StateConflict (checked_add_u64 base found)) in
              ret (Some x)
            else sparse_loop fuel' directory chunk_size total chunk_count (chunk_number + 1) 0 kind
        | Err NXIO => sparse_loop fuel' directory chunk_size total chunk_count (chunk_number + 1) 0 kind
        | Err e => fail (storage_errno e)
        end
  end.

Definition cow_next_sparse_offset (write_session_id : N) (chunk_size total offset : Z) (kind : SparseSeek)
  : St (option Z) :=
  let! _ := of_result (validate_chunk_size chunk_size) in
  if total <=? offset then ret (then_some (is_hole kind && (offset =? total)) offset)
  else
    let! directory := cow_directory write_session_id in
    let! _ := verify_directory directory in
    let chunk_count := div_ceil total chunk_size in
    sparse_loop (Z.to_nat (chunk_count - offset / chunk_size)) directory chunk_size total chunk_count
      (offset / chunk_size) (offset mod chunk_size) kind.

Definition cow_next_data (w : N) (chunk_size total offset : Z) : St (option Z) :=
  cow_next_sparse_offset w chunk_size total offset Data.
Definition cow_next_hole (w : N) (chunk_size total offset : Z) : St (option Z) :=
  cow_next_sparse_offset w chunk_size total offset Hole.

(** ** Sessions *)

Definition sync_cow_files (directory : path) : St unit :=
  let! _ := verify_directory directory in
  for_each_entry directory (fun name =>
    let! _ := of_result (parse_cow_chunk_name name) in
    let! _ := verify_regular_file (join directory name) in
    let! f := open_file (join directory name) in
    sys (sys_fsync (fst f))).

Definition sync_cow (write_session_id : N) : St unit :=
  let! directory := cow_directory write_session_id in
  let! _ := sync_cow_files directory in
  sync_directory directory.

Definition remove_cow_directory (directory : path) : St unit :=
  let! kind := path_kind directory in
  match kind with
  | Missing => ret tt
  | Present =>
      let! _ := verify_directory directory in
      let! q := parent directory in
      let! _ := verify_same_owner directory q in
      let! _ := for_each_entry directory (fun name =>
        let! _ := of_result (parse_cow_chunk_name name) in
        let! _ := verify_regular_file (join directory name) in
        sys (sys_remove_file (join directory name))) in
      let! _ := sys (sys_remove_dir directory) in
      sync_directory q
  end.

(** [mode & 0o7077], [mode & 0o7177] *)
Definition verify_interrupted (want : Inode -> bool) (mask : Z) (p : path) : St unit :=
  let! m := symlink_metadata p in
  if negb (want (snd m)) || negb (Z.land (i_mode (snd m)) mask =? 0) then fail UnsafeObject
  else
    let! q := parent p in
    let! n := symlink_metadata q in
    if negb (i_uid (snd m) =? i_uid (snd n)) then fail UnsafeObject else ret tt.
Definition verify_interrupted_cow_directory : path -> St unit := verify_interrupted is_directory 3647.
Definition verify_interrupted_cow_file : path -> St unit := verify_interrupted is_regular 3711.

Definition remove_interrupted_cow_directory (directory : path) : St unit :=
  let! kind := path_kind directory in
  match kind with
  | Missing => ret tt
  | Present =>
      let! _ := verify_interrupted_cow_directory directory in
      let! _ := sys (sys_chmod directory DIRECTORY_MODE) in
      let! _ := for_each_entry directory (fun name =>
        let! _ := of_result (parse_cow_chunk_name name) in
        let! _ := verify_interrupted_cow_file (join directory name) in
        sys (sys_remove_file (join directory name))) in
      let! _ := sys (sys_remove_dir directory) in
      let! q := parent directory in
      sync_directory q
  end.

(** [for entry in fs::read_dir(p)? { changed |= body(entry)?; }] *)
Fixpoint any_entry (body : string -> St bool) (entries : list string) (changed : bool) : St bool :=
  match entries with
  | [] => ret changed
  | name :: rest => let! c := body name in any_entry body rest (changed || c)
  end.

Definition initialization_prefix (write_session_id : N) : string :=
  "." +:+ uuid_hyphenated write_session_id +:+ ".cow.init.".

(** One entry of the session's parent directory during recovery. *)
Definition recover_initialization (write_session_id : N) (directory_parent : path) (name : string) : St bool :=
  match strip_prefix (initialization_prefix write_session_id) name with
  | None => ret false
  | Some suffix =>
      let! id := of_result (ok_or UnsafeObject (uuid_parse_str suffix)) in
      if negb (String.eqb (uuid_hyphenated id) suffix) then fail UnsafeObject
      else
        let! _ := remove_interrupted_cow_directory (join directory_parent name) in
        ret true
  end.

(** One entry of the session directory during recovery. *)
Definition recover_chunk (directory : path) (name : string) : St bool :=
  match parse_cow_chunk_name name with
  | Ok _ => let! _ := verify_regular_file (join directory name) in ret false
  | Err _ =>
      let! _ := of_result (parse_cow_writing_name name) in
      let! _ := verify_interrupted_cow_file (join directory name) in
      let! _ := sys (sys_remove_file (join directory name)) in
      ret true
  end.

Definition recover_cow_under_lock (write_session_id : N) : St unit :=
  let! _ := prepare root in
  let! directory := cow_directory write_session_id in
  let! directory_parent := parent directory in
  let! entries := sys (sys_read_dir directory_parent) in
  let! parent_changed := any_entry (recover_initialization write_session_id directory_parent) entries false in
  let! _ := if parent_changed then sync_directory directory_parent else ret tt in
  let! kind := path_kind directory in
  match kind with
  | Missing => ret tt
  | Present =>
      let! _ := verify_directory directory in
      let! entries := sys (sys_read_dir directory) in
      let! directory_changed := any_entry (recover_chunk directory) entries false in
      let! _ := if directory_changed then sync_directory directory else ret tt in
      sync_directory directory_parent
  end.

(** ** Manifests *)

Definition manifest_chunk (directory : path) (chunk_size total chunk_count chunk_number : Z)
  : St (bytes * CowChunkDigest) :=
  let p := join directory (cow_chunk_name chunk_number) in
  let! _ := verify_regular_file p in
  let! file := open_file p in
  let! data := sys (sys_read_to_end (fst file)) in
  if negb (len data =? expected_chunk_size chunk_size total chunk_count chunk_number) then fail CorruptObject
  else ret (data, mkChunkDigest chunk_number (len data) (blake3_hash data)).

Definition cow_manifest_in (directory : path) (chunk_size total : Z) : St CowManifest :=
  let! _ := of_result (validate_chunk_size chunk_size) in
  let! _ := verify_directory directory in
  let chunk_count := div_ceil total chunk_size in
  if MAX_CHUNK_COUNT <? chunk_count then fail StateConflict
  else
    let! entries := sys (sys_read_dir directory) in
    if negb (len entries =? chunk_count) then fail CorruptObject
    else
      let! chunks := map_each (manifest_chunk directory chunk_size total chunk_count) (seqZ 0 chunk_count) in
      ret (mkManifest total (blake3_hash (concat (map fst chunks))) (map snd chunks)).

Definition cow_manifest (write_session_id : N) (chunk_size total : Z) : St CowManifest :=
  let! _ := of_result (validate_chunk_size chunk_size) in
  let! directory := cow_directory write_session_id in
  cow_manifest_in directory chunk_size total.

Definition cow_staging_manifest (write_session_id : N) (payload : PayloadRecord) (chunk_size total : Z)
  : St CowManifest :=
  let! source := cow_directory write_session_id in
  let! destination := payload_path root payload in
  let! ks := path_kind source in
  let! kd := path_kind destination in
  match ks, kd with
  | Present, Missing => cow_manifest_in source chunk_size total
  | Missing, Present => cow_manifest_in destination chunk_size total
  | _, _ => fail StateConflict
  end.

Definition sync_rename_parents (source destination : path) : St unit :=
  let! source_parent := parent source in
  let! destination_parent := parent destination in
  let! _ := sync_directory source_parent in
  if bool_decide (source_parent = destination_parent) then ret tt else sync_directory destination_parent.

Definition publish_cow (write_session_id : N) (payload : PayloadRecord) (chunk_size : Z) (expected : CowManifest)
  : St FinalizedObject :=
  if negb (String.eqb (p_layout payload) "chunked") then fail StateConflict
  else
    let! source := cow_directory write_session_id in
    let! destination := payload_path root payload in
    let! ks := path_kind source in
    let! kd := path_kind destination in
    let! manifest :=
      match ks, kd with
      | Present, Missing =>
          let! manifest := cow_manifest_in source chunk_size (mf_logical_size expected) in
          let! _ := of_result (validate_cow_payload_evidence payload expected manifest) in
          let! _ := sys (sys_rename source destination) in
          let! _ := sync_rename_parents source destination in
          ret manifest
      | Missing, Present =>
          let! manifest := cow_manifest_in destination chunk_size (mf_logical_size expected) in
          let! _ := of_result (validate_cow_payload_evidence payload expected manifest) in
          let! _ := sync_rename_parents source destination in
          ret manifest
      | _, _ => fail StateConflict
      end in
    ret (mkFinalized (mf_digest manifest) (mf_logical_size manifest)).

Definition abort_cow (write_session_id : N) : St unit :=
  let! _ := recover_cow_under_lock write_session_id in
  let! directory := cow_directory write_session_id in
  let! kind := path_kind directory in
  match kind with
  | Missing => ret tt
  | Present =>
      let! _ := verify_directory directory in
      let! _ := for_each_entry directory (fun name =>
        let! _ := of_result (parse_cow_entry_name name) in
        let! _ := verify_regular_file (join directory name) in
        sys (sys_remove_file (join directory name))) in
      let! _ := sys (sys_remove_dir directory) in
      let! q := parent directory in
      sync_directory q
  end.

Definition delete_cow_staging (write_session_id : N) (payload : PayloadRecord) : St unit :=
  let! _ := abort_cow write_session_id in
  delete_payload root payload.

(** [sort_unstable_by_key(|(chunk_number, _)| *chunk_number)] *)
Fixpoint insert_by_number (x : Z * Z) (l : list (Z * Z)) : list (Z * Z) :=
  match l with
  | [] => [x]
  | y :: rest => if fst x <=? fst y then x :: l else y :: insert_by_number x rest
  end.
Definition sort_by_number (l : list (Z * Z)) : list (Z * Z) := fold_right insert_by_number [] l.

(** The check of [cow_logical_size] over the sorted chunks. *)
Fixpoint sum_chunk_sizes (chunk_size : Z) (index : Z) (chunks : list (Z * Z)) (total : Z) : result StorageError Z :=
  match chunks with
  | [] => Ok total
  | (chunk_number, size) :: rest =>
      if negb (chunk_number =? index) || (size =? 0) || (chunk_size <? size)
         || (match rest with [] => false | _ => true end && negb (size =? chunk_size))
      then Err CorruptObject
      else
        let? total := ok_or StateConflict (checked_add_u64 total size) in
        sum_chunk_sizes chunk_size (index + 1) rest total
  end.

Definition cow_logical_size (write_session_id : N) (chunk_size : Z) : St Z :=
  let! _ := of_result (validate_chunk_size chunk_size) in
  let! directory := cow_directory write_session_id in
  let! _ := verify_directory directory in
  let! entries := sys (sys_read_dir directory) in
  let! chunks := map_each (fun name =>
    let! chunk_number := of_result (parse_cow_chunk_name name) in
    let! _ := verify_regular_file (join directory name) in
    let! m := symlink_metadata (join directory name) in
    let! n := sys (sys_len (fst m)) in
    ret (chunk_number, n)) entries in
  of_result (sum_chunk_sizes chunk_size 0 (sort_by_number chunks) 0).

Definition cow_chunk_allocated_bytes (write_session_id : N) (chunk_number : Z) : St Z :=
  let! directory := cow_directory write_session_id in
  let p := join directory (cow_chunk_name chunk_number) in
  let! _ := verify_regular_file p in
  let! m := open_file p in
  let! blocks := sys (fun s => Ok (st_blocks s (fst m), s)) in
  of_result (ok_or StateConflict (checked_mul_u64 blocks 512)).

(** ** Starting a session *)

Fixpoint split_loop (fuel : nat) (source : N) (destination : path) (chunk_size chunk_number position remaining : Z)
    (created : list (list string)) : St (result StorageError unit * list (list string)) :=
  match fuel with
  | O => ret (Ok tt, created)
  | S fuel' =>
      if remaining <=? 0 then ret (Ok tt, created)
      else
        let p := join destination (cow_chunk_name chunk_number) in
        let! made := attempt (create_new_file p) in
        match made with
        | Err e => ret (Err e, created)
        | Ok chunk =>
            let n := Z.min remaining chunk_size in
            let! copied := attempt
              (let! _ := copy_bytes source chunk position 0 n in
               let! _ := sys (sys_fsync chunk) in
               of_result (ok_or StateConflict (checked_add_u64 chunk_number 1))) in
            match copied with
            | Err e => ret (Err e, p :: created)
            | Ok next =>
                split_loop fuel' source destination chunk_size next (position + n) (remaining - n) (p :: created)
            end
        end
  end.

(** [created] holds the paths with the newest first, which is the order of the
    clean-up. *)
Definition split_whole_payload (source destination : path) (chunk_size : Z) : St unit :=
  let! m := open_file source in
  let! size := sys (sys_len (fst m)) in
  if size =? 0 then ret tt
  else if size <=? chunk_size then sys (sys_hard_link source (join destination (cow_chunk_name 0)))
  else
    let! f := open_file source in
    let! r := split_loop (Z.to_nat (size / chunk_size + 1)) (fst f) destination chunk_size 0 0 size [] in
    match fst r with
    | Ok _ => ret tt
    | Err e =>
        let! _ := for_each (fun p =>
          let! present := path_exists p in
          if present then sys (sys_remove_file p) else ret tt) (snd r) in
        let! _ := sync_directory destination in
        fail e
    end.

(** The closure of [begin_cow_write]: fill the new directory from the payload. *)
Definition initialize_cow (temporary : path) (chunk_size : Z) (base_payload : option PayloadRecord)
    (base_chunks : list CowBaseChunk) : St unit :=
  match base_payload with
  | None => match base_chunks with [] => ret tt | _ => fail StateConflict end
  | Some payload =>
      let! source := payload_path root payload in
      let! total := of_result (ok_or StateConflict (u64_try_from (p_size_bytes payload))) in
      let! digest := of_result (digest_of CorruptObject (p_blake3 payload)) in
      let! _ :=
        if String.eqb (p_layout payload) "whole" then
          let! _ := verify_file source total digest in
          split_whole_payload source temporary chunk_size
        else if String.eqb (p_layout payload) "chunked" then
          let! _ := verify_directory source in
          let! _ := of_result (validate_base_chunks base_chunks chunk_size total) in
          for_each (fun chunk =>
            let source_part := join source (cow_chunk_name (bc_chunk_number chunk)) in
            let! _ := verify_file source_part (bc_size chunk) (bc_digest chunk) in
            sys (sys_hard_link source_part (join temporary (cow_chunk_name (bc_chunk_number chunk))))) base_chunks
        else fail StateConflict in
      let! _ := sync_cow_files temporary in
      let! manifest := cow_manifest_in temporary chunk_size total in
      if negb (mf_logical_size manifest =? total) || negb (bool_decide (mf_digest manifest = digest))
      then fail CorruptObject else ret tt
  end.

(** Clean up and report the clean-up's error, if any, before the original one. *)
Definition discard {A} (temporary : path) (error : StorageError) : St A :=
  let! cleanup := attempt (remove_cow_directory temporary) in
  match cleanup with Ok _ => fail error | Err e => fail e end.

(** [init_id] is the random suffix of the initialization directory. *)
Definition begin_cow_write (write_session_id init_id : N) (chunk_size : Z) (base_payload : option PayloadRecord)
    (base_chunks : list CowBaseChunk) : St unit :=
  let! _ := of_result (validate_chunk_size chunk_size) in
  let! _ := prepare root in
  let! directory := cow_directory write_session_id in
  let! _ := recover_cow_under_lock write_session_id in
  let! kind := path_kind directory in
  match kind with
  | Present => fail StateConflict
  | Missing =>
      let! directory_parent := parent directory in
      let temporary := join directory_parent (initialization_prefix write_session_id +:+ uuid_hyphenated init_id) in
      let! _ := create_secure_directory temporary in
      let! _ := verify_same_owner temporary directory_parent in
      let! initialized := attempt (initialize_cow temporary chunk_size base_payload base_chunks) in
      match initialized with
      | Err error => discard temporary error
      | Ok _ =>
          let! _ := sync_directory temporary in
          let! renamed := attempt (sys (sys_rename temporary directory)) in
          match renamed with
          | Err error => discard temporary error
          | Ok _ => sync_directory directory_parent
          end
      end
  end.

(** The start-up probe of sparse files, on a session of its own. *)
Definition probe_sparse_files_blocking (write_session_id operation_id init_id : N) : St unit :=
  let! _ := begin_cow_write write_session_id init_id MIN_CHUNK_SIZE None [] in
  let w := write_session_id in
  let! result := attempt
    (let! _ := write_cow_at w operation_id MIN_CHUNK_SIZE 0 0 (replicate (Z.to_nat MIN_CHUNK_SIZE) (byte_of_Z 1)) in
     let! d := cow_next_data w MIN_CHUNK_SIZE MIN_CHUNK_SIZE 0 in
     if negb (bool_decide (d = Some 0)) then fail UnsupportedFilesystem
     else
       let! _ := deallocate_cow_range w operation_id MIN_CHUNK_SIZE MIN_CHUNK_SIZE 0 MIN_CHUNK_SIZE in
       let! d := cow_next_data w MIN_CHUNK_SIZE MIN_CHUNK_SIZE 0 in
       let! h := match d with Some _ => ret None | None => cow_next_hole w MIN_CHUNK_SIZE MIN_CHUNK_SIZE 0 end in
       if negb (bool_decide (h = Some 0)) then fail UnsupportedFilesystem
       else
         let! _ := allocate_cow_range w operation_id MIN_CHUNK_SIZE MIN_CHUNK_SIZE 0 MIN_CHUNK_SIZE in
         let! n := cow_chunk_allocated_bytes w 0 in
         if n =? 0 then fail UnsupportedFilesystem else ret tt) in
  let! cleanup := attempt (abort_cow w) in
  of_result (match result with Ok _ => cleanup | Err e => Err e end).
End chunks.
