(* ===== verification/CowBytes.v ===== *)
(** The byte-level operations of the copy-on-write engine: files of a session as
    byte strings, how a flat file is cut into chunks, and the names of chunks and of
    their temporaries. *)
From Stdlib Require Import DecimalString DecimalN.
From S2P Require Import Prelude Collections Libraries Frames PosixFs StorageLayout StorageReads Cow.
Open Scope string_scope.
Open Scope Z_scope.
Open Scope list_scope.
Open Scope bool_scope.

Section byte_strings.
Implicit Types (d a b : bytes) (o n : Z) (k : nat).

Lemma length_resize n d : 0 <= n -> len (resize n d) = n.
Proof. intros Hn. unfold len, resize. rewrite length_app, length_take, length_replicate. lia. Qed.

(** Reading past the end gives zeros. *)
Definition byte_at d k : ascii := default zero_byte (d !! k).

Lemma byte_at_lt d k : (k < length d)%nat -> d !! k = Some (byte_at d k).
Proof. intros [x Hx]%lookup_lt_is_Some. unfold byte_at. by rewrite Hx. Qed.

Lemma byte_at_ge d k : (length d <= k)%nat -> byte_at d k = zero_byte.
Proof. intros Hk. unfold byte_at. by rewrite lookup_ge_None_2. Qed.

Lemma bytes_ext a b : len a = len b -> (forall k, (k < length a)%nat -> byte_at a k = byte_at b k) -> a = b.
Proof.
  unfold len. intros Hl Hk. apply list_eq. intros k. destruct (decide (k < length a)%nat) as [H|H].
  - rewrite !byte_at_lt by lia. by rewrite Hk.
  - rewrite !lookup_ge_None_2 by lia. done.
Qed.

Lemma byte_at_app a b k : byte_at (a ++ b) k = if decide (k < length a)%nat then byte_at a k else byte_at b (k - length a).
Proof. unfold byte_at. case_decide; [by rewrite lookup_app_l by done|]. by rewrite lookup_app_r by lia. Qed.

Lemma byte_at_take (n : nat) d k : byte_at (take n d) k = if decide (k < n)%nat then byte_at d k else zero_byte.
Proof. unfold byte_at. case_decide; [by rewrite lookup_take_lt|]. by rewrite lookup_take_ge by lia. Qed.

Lemma byte_at_drop (n : nat) d k : byte_at (drop n d) k = byte_at d (n + k).
Proof. unfold byte_at. by rewrite lookup_drop. Qed.

Lemma byte_at_zeros (n : nat) k : byte_at (replicate n zero_byte) k = zero_byte.
Proof.
  destruct (decide (k < n)%nat); [unfold byte_at; by rewrite lookup_replicate_2|].
  apply byte_at_ge. rewrite length_replicate. lia.
Qed.

Lemma byte_at_resize n d k : byte_at (resize n d) k = if decide (k < Z.to_nat n)%nat then byte_at d k else zero_byte.
Proof.
  unfold resize. rewrite byte_at_app, length_take, byte_at_take, byte_at_zeros.
  repeat case_decide; try done; try lia. symmetry. apply byte_at_ge. lia.
Qed.

Lemma byte_at_write o a d k : 0 <= o ->
  byte_at (write_at o a d) k =
    if decide (Z.to_nat o <= k < Z.to_nat o + length a)%nat then byte_at a (k - Z.to_nat o) else byte_at d k.
Proof.
  intros Ho. unfold write_at. pose proof (length_resize o d Ho) as Hl. unfold len in Hl.
  rewrite !byte_at_app, byte_at_resize, byte_at_drop.
  repeat case_decide; try lia; try done; f_equal; lia.
Qed.

Lemma length_write o a d : 0 <= o -> len (write_at o a d) = Z.max (o + len a) (len d).
Proof.
  intros Ho. unfold write_at. rewrite !len_app, length_resize by done.
  unfold len. rewrite length_drop. lia.
Qed.

(** Consecutive writes are one write. *)
Lemma write_write o a b d : 0 <= o -> write_at (o + len a) b (write_at o a d) = write_at o (a ++ b) d.
Proof.
  intros Ho. pose proof (len_nonneg a). pose proof (len_nonneg b). apply bytes_ext.
  - rewrite !length_write, len_app by lia. lia.
  - intros k _. rewrite !byte_at_write, byte_at_app, length_app by lia.
    unfold len. repeat case_decide; try lia; try done; f_equal; lia.
Qed.

Lemma write_nil o d : 0 <= o <= len d -> write_at o [] d = d.
Proof.
  intros Ho. apply bytes_ext; [rewrite length_write by lia; change (len (@nil ascii)) with 0; lia|].
  intros k _. rewrite byte_at_write by lia. simpl. case_decide; [lia|done].
Qed.

Lemma byte_at_slice x y d k : 0 <= x <= y ->
  byte_at (slice x y d) k = if decide (k < Z.to_nat (y - x))%nat then byte_at d (Z.to_nat x + k) else zero_byte.
Proof.
  intros Hx. unfold slice. rewrite byte_at_take, byte_at_drop.
  replace (Z.to_nat y - Z.to_nat x)%nat with (Z.to_nat (y - x)) by lia. done.
Qed.

Lemma slice_split x y z d : 0 <= x <= y -> y <= z -> z <= len d -> slice x y d ++ slice y z d = slice x z d.
Proof.
  intros Hx Hy Hz. apply bytes_ext; [rewrite len_app, !slice_length by lia; lia|].
  intros k _. rewrite byte_at_app, !byte_at_slice by lia. pose proof (slice_length x y d ltac:(lia) ltac:(lia)) as Hl.
  unfold len in Hl. repeat case_decide; try lia; try done. f_equal. lia.
Qed.

Lemma resize_grow n m d : 0 <= n <= m -> len d <= n -> resize m (resize n d) = resize m d.
Proof.
  intros Hn Hd. apply bytes_ext; [by rewrite !length_resize by lia|].
  intros k _. rewrite !byte_at_resize. repeat case_decide; try lia; try done. symmetry. apply byte_at_ge. unfold len in Hd. lia.
Qed.

Lemma resize_id d : resize (len d) d = d.
Proof.
  apply bytes_ext; [apply length_resize, len_nonneg|]. intros k _. rewrite byte_at_resize. case_decide as Hk; [done|].
  symmetry. apply byte_at_ge. unfold len in Hk. lia.
Qed.
End byte_strings.

(** ** Flat files and their chunks *)

Definition chunk_of (cs : Z) (d : bytes) (k : Z) : bytes := slice (k * cs) ((k + 1) * cs) d.

Section flat.
Variable cs : Z.
Hypothesis Hcs : 0 < cs.
Implicit Types (d a b : bytes) (o n k : Z).

Lemma length_chunk d k : 0 <= k -> len (chunk_of cs d k) = Z.max 0 (Z.min cs (len d - k * cs)).
Proof.
  intros Hk. unfold chunk_of, slice, len. rewrite length_take, length_drop.
  assert (0 <= k * cs) by nia. replace ((k + 1) * cs) with (k * cs + cs) by lia. lia.
Qed.

Lemma byte_at_chunk d k j : 0 <= k ->
  byte_at (chunk_of cs d k) j = if decide (Z.of_nat j < cs) then byte_at d (Z.to_nat (k * cs) + j) else zero_byte.
Proof.
  intros Hk. unfold chunk_of. assert (0 <= k * cs) by nia. replace ((k + 1) * cs) with (k * cs + cs) by lia.
  rewrite byte_at_slice by lia. repeat case_decide; try lia; done.
Qed.

Lemma length_extend n d : len (extend_to n d) = Z.max n (len d).
Proof.
  pose proof (len_nonneg d). unfold extend_to. case_match eqn:Hn; autorewrite with bools in Hn; [|lia].
  rewrite length_resize; lia.
Qed.

Lemma byte_at_extend n d j : byte_at (extend_to n d) j = byte_at d j.
Proof.
  unfold extend_to. case_match eqn:Hn; autorewrite with bools in Hn; [|done]. rewrite byte_at_resize. case_decide; [done|].
  symmetry. apply byte_at_ge. unfold len in Hn. lia.
Qed.

Lemma length_punch o n d : 0 <= o -> len (punch o n d) = len d.
Proof.
  intros Ho. unfold punch. case_match eqn:Hn; autorewrite with bools in Hn; [|done].
  rewrite length_write by done. unfold len at 1. rewrite length_replicate. lia.
Qed.

Lemma byte_at_punch o n d j : 0 <= o ->
  byte_at (punch o n d) j = if decide (o <= Z.of_nat j < o + n) then zero_byte else byte_at d j.
Proof.
  intros Ho. unfold punch. case_match eqn:Hn; autorewrite with bools in Hn.
  - rewrite byte_at_write, length_replicate, byte_at_zeros by done. repeat case_decide; try lia; try done.
    apply byte_at_ge. unfold len in *. lia.
  - case_decide; [|done]. apply byte_at_ge. unfold len in *. lia.
Qed.

(** [g] on chunk [k] does to the chunks what [f] does to the flat file [d]. *)
Definition local (k : Z) (f g : bytes -> bytes) (d : bytes) : Prop :=
  chunk_of cs (f d) k = g (chunk_of cs d k) /\
  forall k', 0 <= k' -> k' <> k -> chunk_of cs (f d) k' = chunk_of cs d k'.

(** Chunks do not overlap. *)
Lemma chunks_apart k k' : k' <> k -> k' * cs + cs <= k * cs \/ k * cs + cs <= k' * cs.
Proof. intros Hne. destruct (Z.lt_trichotomy k k') as [?|[?|?]]; [right; nia|lia|left; nia]. Qed.

Lemma local_write k within a d :
  0 <= k -> 0 <= within -> a <> [] -> within + len a <= cs -> k * cs + within <= len d ->
  local k (write_at (k * cs + within) a) (write_at within a) d.
Proof.
  intros Hk Hw Ha Hfit Hin. assert (0 <= k * cs) by nia. assert (0 < len a).
  { destruct a; [done|]. unfold len. simpl. lia. }
  split.
  - apply bytes_ext.
    + rewrite length_chunk, !length_write, length_chunk by lia. lia.
    + intros j _. rewrite byte_at_chunk, !byte_at_write, byte_at_chunk by lia.
      unfold len in *. repeat case_decide; try lia; try done; f_equal; lia.
  - intros k' Hk' Hne. assert (0 <= k' * cs) by nia. pose proof (chunks_apart k k' Hne). apply bytes_ext.
    + rewrite !length_chunk, length_write by lia. lia.
    + intros j _. rewrite !byte_at_chunk, byte_at_write by lia. unfold len in *. repeat case_decide; try lia; done.
Qed.

Lemma local_extend k within n d :
  0 <= k -> 0 <= within -> 0 < n -> within + n <= cs -> k * cs + within <= len d ->
  local k (extend_to (k * cs + within + n)) (extend_to (within + n)) d.
Proof.
  intros Hk Hw Hn Hfit Hin. assert (0 <= k * cs) by nia. split.
  - apply bytes_ext.
    + rewrite length_chunk, !length_extend, length_chunk by lia. lia.
    + intros j _. rewrite byte_at_chunk, !byte_at_extend, byte_at_chunk by lia. done.
  - intros k' Hk' Hne. assert (0 <= k' * cs) by nia. pose proof (chunks_apart k k' Hne). apply bytes_ext.
    + rewrite !length_chunk, length_extend by lia. lia.
    + intros j _. by rewrite !byte_at_chunk, byte_at_extend by lia.
Qed.

Lemma local_punch k within n d :
  0 <= k -> 0 <= within -> 0 < n -> within + n <= cs -> k * cs + within + n <= len d ->
  local k (punch (k * cs + within) n) (punch within n) d.
Proof.
  intros Hk Hw Hn Hfit Hin. assert (0 <= k * cs) by nia. split.
  - apply bytes_ext.
    + rewrite length_chunk, !length_punch, length_chunk by lia. lia.
    + intros j _. rewrite byte_at_chunk, !byte_at_punch, byte_at_chunk by lia. repeat case_decide; try lia; done.
  - intros k' Hk' Hne. assert (0 <= k' * cs) by nia. pose proof (chunks_apart k k' Hne). apply bytes_ext.
    + rewrite !length_chunk, length_punch by lia. lia.
    + intros j _. rewrite !byte_at_chunk, byte_at_punch by lia. repeat case_decide; try lia; done.
Qed.

(** Cutting the file at [n]: later chunks go, the chunk of the last byte is cut. *)
Lemma truncate_chunks n d k :
  0 <= k -> 0 <= n <= len d ->
  chunk_of cs (resize n d) k =
    if decide (div_ceil n cs <= k) then []
    else if decide (k = (n - 1) / cs) then resize (n - k * cs) (chunk_of cs d k) else chunk_of cs d k.
Proof.
  intros Hk Hn. assert (0 <= k * cs) by nia.
  assert (div_ceil n cs <= k <-> n <= k * cs) as Hc.
  { unfold div_ceil. split; intros Hx; [|apply Z.lt_succ_r, Z.div_lt_upper_bound; lia].
    pose proof (Z.div_mod (n + cs - 1) cs). pose proof (Z.mod_pos_bound (n + cs - 1) cs). nia. }
  assert (k = (n - 1) / cs <-> k * cs < n <= k * cs + cs) as Hl.
  { split; [intros ->; pose proof (Z.div_mod (n - 1) cs); pose proof (Z.mod_pos_bound (n - 1) cs); lia|].
    intros Hx. apply (Z.div_unique_pos _ _ _ (n - 1 - k * cs)); lia. }
  repeat case_decide; apply bytes_ext.
  - rewrite length_chunk, length_resize by lia. change (len (@nil ascii)) with 0. lia.
  - intros j Hj. exfalso. pose proof (length_chunk (resize n d) k Hk) as Hlen. rewrite length_resize in Hlen by lia.
    unfold len in Hlen. lia.
  - rewrite length_chunk, !length_resize by lia. lia.
  - intros j _. rewrite byte_at_chunk, !byte_at_resize, byte_at_chunk by lia. repeat case_decide; try lia; done.
  - rewrite !length_chunk, !length_resize by lia. lia.
  - intros j _. rewrite !byte_at_chunk, !byte_at_resize by lia. repeat case_decide; try lia; done.
Qed.
End flat.

(** ** Names of chunks *)

Section decimal_width.
Lemma of_uint_acc_lower u p :
  Z.pos p * 10 ^ Z.of_nat (Decimal.nb_digits u) <= Z.pos (Pos.of_uint_acc u p).
Proof.
  revert p. induction u; intros p; cbn [Decimal.nb_digits Pos.of_uint_acc]; [lia|..];
    rewrite Nat2Z.inj_succ, Z.pow_succ_r by lia;
    match goal with |- _ <= Z.pos (Pos.of_uint_acc ?u ?q) =>
      specialize (IHu q); assert (10 * Z.pos p <= Z.pos q) by lia end;
    pose proof (Z.pow_nonneg 10 (Z.of_nat (Decimal.nb_digits u)) ltac:(lia)); nia.
Qed.

(** The head of a rendering is not a zero. *)
Definition nonzero_head (u : Decimal.uint) : Prop := match u with Decimal.Nil | Decimal.D0 _ => False | _ => True end.

Lemma nzhead_nonzero u : Decimal.nzhead u = Decimal.Nil \/ nonzero_head (Decimal.nzhead u).
Proof. induction u; simpl; auto. Qed.

Lemma of_uint_lower u : nonzero_head u -> 10 ^ (Z.of_nat (Decimal.nb_digits u) - 1) <= Z.of_N (N.of_uint u).
Proof.
  intros Hu. destruct u; try done; cbn [Decimal.nb_digits N.of_uint Pos.of_uint Z.of_N];
    rewrite Nat2Z.inj_succ; unfold Z.succ; rewrite Z.add_simpl_r;
    match goal with |- _ <= Z.pos (Pos.of_uint_acc ?u ?q) => pose proof (of_uint_acc_lower u q) end;
    pose proof (Z.pow_nonneg 10 (Z.of_nat (Decimal.nb_digits u)) ltac:(lia)); nia.
Qed.

Lemma to_uint_head n : N.to_uint n = Decimal.D0 Decimal.Nil \/ nonzero_head (N.to_uint n).
Proof.
  pose proof (DecimalN.Unsigned.to_of (N.to_uint n)) as Hto. rewrite DecimalN.Unsigned.of_to in Hto.
  unfold Decimal.unorm in Hto. destruct (nzhead_nonzero (N.to_uint n)) as [Hn|Hn].
  - rewrite Hn in Hto. by left.
  - right. rewrite Hto. by destruct (Decimal.nzhead (N.to_uint n)).
Qed.

Lemma dec_to_string_width m z : 0 <= z < 10 ^ Z.of_nat m -> (0 < m)%nat -> (String.length (dec_to_string z) <= m)%nat.
Proof.
  intros Hz Hm. unfold dec_to_string. pose proof (N_to_uint_ne (Z.to_N z)) as Hne.
  assert (NilZero.string_of_uint (N.to_uint (Z.to_N z)) = NilEmpty.string_of_uint (N.to_uint (Z.to_N z))) as ->.
  { by destruct (N.to_uint (Z.to_N z)). }
  rewrite string_of_uint_length. destruct (to_uint_head (Z.to_N z)) as [->|Hn]; [simpl; lia|].
  pose proof (of_uint_lower _ Hn) as Hl. rewrite DecimalN.Unsigned.of_to, Z2N.id in Hl by lia.
  destruct (decide (Decimal.nb_digits (N.to_uint (Z.to_N z)) <= m)%nat) as [?|Hgt]; [done|]. exfalso.
  assert (10 ^ Z.of_nat m <= 10 ^ (Z.of_nat (Decimal.nb_digits (N.to_uint (Z.to_N z))) - 1)); [|lia].
  apply Z.pow_le_mono_r; lia.
Qed.
End decimal_width.

Section padding.
Lemma zeros_length n s : String.length (zeros n s) = (n + String.length s)%nat.
Proof. induction n as [|n IH]; simpl; [done|]. by rewrite IH. Qed.

Lemma uint_of_zeros n s u :
  NilEmpty.uint_of_string s = Some u ->
  exists v, NilEmpty.uint_of_string (zeros n s) = Some v /\ N.of_uint v = N.of_uint u.
Proof.
  intros Hs. induction n as [|n (v & Hv & He)]; simpl; [by eauto|]. exists (Decimal.D0 v). rewrite Hv. done.
Qed.

Lemma parse_padded m hi z : 0 <= z <= hi -> parse_unsigned hi (pad_zero m (dec_to_string z)) = Some z.
Proof.
  intros Hz. unfold pad_zero. destruct (m - String.length (dec_to_string z))%nat as [|n]; [by apply parse_dec_to_string|].
  destruct (uint_of_zeros (S n) _ _ (uint_of_dec_to_string z)) as (v & Hv & He).
  unfold parse_unsigned. cbn [zeros] in *. unfold parse_digits. rewrite Hv. simpl.
  rewrite He, DecimalN.Unsigned.of_to, Z2N.id by lia. destruct (Z.leb_spec z hi); [done|lia].
Qed.
End padding.

Section chunk_names.
Lemma cow_chunk_name_length k : 0 <= k < MAX_CHUNK_COUNT -> String.length (pad_zero 8 (dec_to_string k)) = 8%nat.
Proof.
  intros Hk. unfold pad_zero. rewrite zeros_length.
  pose proof (dec_to_string_width 8 k ltac:(change (10 ^ Z.of_nat 8) with MAX_CHUNK_COUNT; lia) ltac:(lia)). lia.
Qed.

Lemma parse_chunk_name k : 0 <= k < MAX_CHUNK_COUNT -> parse_cow_chunk_name (cow_chunk_name k) = Ok k.
Proof.
  intros Hk. unfold parse_cow_chunk_name, cow_chunk_name.
  rewrite (proj2 (strip_suffix_Some ".part" _ (pad_zero 8 (dec_to_string k))) eq_refl).
  unfold str_len. rewrite cow_chunk_name_length by done. simpl.
  rewrite parse_padded; [done|]. unfold MAX_CHUNK_COUNT, u64_max in *. lia.
Qed.

Lemma cow_chunk_name_inj k k' :
  0 <= k < MAX_CHUNK_COUNT -> 0 <= k' < MAX_CHUNK_COUNT -> cow_chunk_name k = cow_chunk_name k' -> k = k'.
Proof. intros Hk Hk' Heq. pose proof (parse_chunk_name k Hk) as H. rewrite Heq, parse_chunk_name in H by done. congruence. Qed.

(** A temporary is never named like a chunk. *)
Lemma writing_name_neq `{UuidLib} k op : cow_chunk_name k <> writing_chunk_name k op.
Proof.
  intros Heq. apply (f_equal String.length) in Heq. unfold writing_chunk_name in Heq. rewrite !str_length_app in Heq.
  simpl in Heq. lia.
Qed.

Lemma writing_name_no_chunk `{UuidLib} k k' op :
  0 <= k < MAX_CHUNK_COUNT -> 0 <= k' < MAX_CHUNK_COUNT -> writing_chunk_name k op <> cow_chunk_name k'.
Proof.
  intros Hk Hk' Heq. apply (f_equal String.length) in Heq. unfold writing_chunk_name, cow_chunk_name in Heq.
  rewrite !str_length_app, !cow_chunk_name_length in Heq by done. simpl in Heq. lia.
Qed.
End chunk_names.
