(* ===== verification/CowFacts.v ===== *)
(** Specifications of the copy-on-write primitives: what happens to the one file
    that is being built, the copy of a sparse chunk, and the replacement of a
    chunk by rename. *)
From S2P Require Import Prelude Collections Libraries Frames PosixFs StorageLayout StorageFacts StorageProofs.
From S2P Require Import StorageReads StorageCleanup Cow CowBytes.
Open Scope string_scope.
Open Scope Z_scope.
Open Scope list_scope.
Open Scope bool_scope.

(** ** Building one file *)

(** [s] with the content [d] in the open file [j]. *)
Definition put (s : Fs) (j : N) (mode uid : Z) (d : bytes) : Fs := set_inode s j (mkInode (KFile d) mode uid).

Section building.
Context `{SparseFs}.
Implicit Types (s : Fs) (d : bytes).

Lemma put_lookup s j mode uid d : inodes (put s j mode uid d) !! j = Some (mkInode (KFile d) mode uid).
Proof. apply lookup_insert_eq. Qed.

Lemma put_other s j mode uid d i : i <> j -> inodes (put s j mode uid d) !! i = inodes s !! i.
Proof. intros Hi. by apply lookup_insert_ne. Qed.

Lemma put_put s j mode uid d d' : set_inode (put s j mode uid d) j (mkInode (KFile d') mode uid) = put s j mode uid d'.
Proof. unfold put, set_inode. simpl. by rewrite insert_insert_eq. Qed.

Lemma put_data s j mode uid d : file_data (put s j mode uid d) j = d.
Proof. unfold file_data. by rewrite put_lookup. Qed.

Lemma put_data_other s j mode uid d i : i <> j -> file_data (put s j mode uid d) i = file_data s i.
Proof. intros Hi. unfold file_data. by rewrite put_other. Qed.

(** An operation on the open file [j] that changes nothing else and, if [pre d],
    turns its content [d] into [f d]; then only an I/O failure is an error. *)
Definition file_op (b : bool) (j : N) (m : St unit) (pre : bytes -> Prop) (f : bytes -> bytes) s : Prop :=
  forall mode uid d, wp b m (put s j mode uid d) (fun r s' => exists d',
    s' = put s j mode uid d' /\
    (SparseLaws -> pre d -> (r = Ok tt -> d' = f d) /\ (b = false -> r = Ok tt))).

(** Closes the case of an injected failure. *)
Ltac op_fault d := intros ?Hb; exists d; split; [done|]; intros _ _; split; [done|congruence].

Lemma update_op b j f s : file_op b j (sys (sys_update j f)) (fun _ => True) f s.
Proof.
  intros mode uid d. apply wp_sys; [op_fault d|].
  unfold sys_update. rewrite put_lookup. simpl. rewrite put_put. exists (f d). done.
Qed.

Lemma seq_op b j (m1 : St unit) (m2 : St unit) pre1 pre2 f1 f2 s :
  file_op b j m1 pre1 f1 s -> file_op b j m2 pre2 f2 s ->
  file_op b j (let! _ := m1 in m2) (fun d => pre1 d /\ pre2 (f1 d)) (fun d => f2 (f1 d)) s.
Proof.
  intros H1 H2 mode uid d. apply wp_bind. eapply wp_mono; [apply H1|].
  intros [[]|e] s' (d1 & -> & Hd1).
  - eapply wp_mono; [apply H2|]. intros r s'' (d2 & -> & Hd2). exists d2. split; [done|].
    intros HL [Hp1 Hp2]. destruct (Hd1 HL Hp1) as [Heq _]. specialize (Heq eq_refl). subst d1. by apply Hd2.
  - exists d1. split; [done|]. intros HL [Hp1 _]. split; [done|]. intros Hb. by apply (Hd1 HL Hp1).
Qed.

Lemma ret_op b j s : file_op b j (ret tt) (fun _ => True) (fun d => d) s.
Proof. intros mode uid d. apply wp_ret. by exists d. Qed.

Lemma pad_op b j n s : file_op b j (pad_file_to j n) (fun _ => True) (extend_to n) s.
Proof.
  intros mode uid d. apply wp_bind, wp_sys; [op_fault d|].
  unfold sys_len. rewrite put_lookup, put_data. unfold extend_to. case_match; [apply update_op|]. apply wp_ret. by exists d.
Qed.

Lemma mono_op b j m (pre pre' : bytes -> Prop) f f' s :
  file_op b j m pre f s -> (forall d, pre' d -> pre d /\ f d = f' d) -> file_op b j m pre' f' s.
Proof.
  intros Hm Hl mode uid d. eapply wp_mono; [apply Hm|]. intros r s' (d' & -> & H1).
  exists d'. split; [done|]. intros HL Hp. destruct (Hl d Hp) as [Hp' <-]. by apply H1.
Qed.

Lemma fallocate_op b j f s : file_op b j (fallocate j f) (fun _ => True) f s.
Proof.
  intros mode uid d. apply wp_bind, wp_sys; [op_fault d|]. simpl.
  destruct (fallocate_refused _ j) as [e|] eqn:He; [|apply update_op].
  apply wp_fail. exists d. split; [done|]. intros HL _. by rewrite fallocate_supported in He.
Qed.

(** Copying bytes out of another file. *)
Definition copies (fuel : nat) (from to n : Z) (source d : bytes) : Prop :=
  0 <= from /\ 0 <= to <= len d /\ n <= Z.of_nat fuel * COPY_BUFFER /\ from + Z.max 0 n <= len source.

Lemma copy_range_op b fuel i j from to n s :
  i <> j ->
  file_op b j (copy_range fuel i j from to n) (copies fuel from to n (file_data s i))
    (write_at to (slice from (from + Z.max 0 n) (file_data s i))) s.
Proof.
  intros Hij. revert from to n. induction fuel as [|fuel IH]; intros from to n; simpl.
  { eapply mono_op; [apply ret_op|]. intros d (? & ? & ? & _). split; [done|]. by rewrite slice_empty, write_nil by lia. }
  case_match eqn:Hn; autorewrite with bools in Hn.
  { eapply mono_op; [apply ret_op|]. intros d (? & ? & _). split; [done|]. by rewrite slice_empty, write_nil by lia. }
  set (c := Z.min n COPY_BUFFER). assert (0 < c <= n) as Hc by (unfold c, COPY_BUFFER; lia).
  intros mode uid d. apply wp_bind, wp_sys; [op_fault d|].
  rewrite put_data_other by done. set (buffer := take (Z.to_nat c) (drop (Z.to_nat from) (file_data s i))).
  assert (0 <= from -> buffer = slice from (from + c) (file_data s i)) as Hslice by (intros; apply slice_segment; lia).
  cbv zeta. destruct (len buffer =? c) eqn:Hbuf; autorewrite with bools in Hbuf.
  2:{ cbv beta iota. exists d. split; [done|]. intros _ (? & ? & ? & ?). rewrite Hslice, slice_length in Hbuf by lia. lia. }
  enough (file_op b j (let! _ := write_all j to buffer in copy_range fuel i j (from + c) (to + c) (n - c))
    (copies (S fuel) from to n (file_data s i))
    (write_at to (slice from (from + Z.max 0 n) (file_data s i))) s) as Hop by apply Hop.
  eapply mono_op.
  - apply (seq_op b j _ _ (fun _ => True) (copies fuel (from + c) (to + c) (n - c) (file_data s i)) (write_at to buffer)
      (write_at (to + c) (slice (from + c) (from + c + Z.max 0 (n - c)) (file_data s i)))); [apply update_op|apply IH].
  - intros d' (? & ? & ? & ?). unfold copies. rewrite length_write by lia.
    split; [unfold c, COPY_BUFFER in *; lia|]. rewrite <-Hbuf at 1. rewrite write_write, Hslice by lia. f_equal.
    replace (from + Z.max 0 n) with (from + c + Z.max 0 (n - c)) by lia. apply slice_split; lia.
Qed.

Lemma copy_bytes_op b i j from to n s :
  i <> j ->
  file_op b j (copy_bytes i j from to n)
    (fun d => 0 <= from /\ 0 <= to <= len d /\ 0 <= n /\ from + n <= len (file_data s i))
    (write_at to (slice from (from + n) (file_data s i))) s.
Proof.
  intros Hij. eapply mono_op; [by apply copy_range_op|]. intros d (? & ? & ? & ?).
  rewrite (Z.max_r 0 n) by lia. split; [|done]. split; [done|]. split; [done|]. split; [|lia].
  pose proof (Z.div_mod n COPY_BUFFER ltac:(done)). pose proof (Z.mod_pos_bound n COPY_BUFFER ltac:(done)).
  pose proof (Z.div_pos n COPY_BUFFER ltac:(lia) ltac:(done)). unfold COPY_BUFFER in *. lia.
Qed.

(** The copy of a sparse file up to [c]. *)
Definition copied (source : bytes) (c : Z) : bytes := resize (len source) (take (Z.to_nat c) source).

Lemma byte_at_copied d c k : byte_at (copied d c) k = if decide (Z.of_nat k < c) then byte_at d k else zero_byte.
Proof.
  unfold copied. rewrite byte_at_resize, byte_at_take. repeat case_decide; try lia; try done.
  apply eq_sym, byte_at_ge. unfold len in *. lia.
Qed.

Lemma length_copied d c : len (copied d c) = len d.
Proof. apply length_resize, len_nonneg. Qed.

(** Skipping bytes that read as zero. *)
Lemma copied_skip d c c' :
  c <= c' -> (forall k, c <= k < c' -> d !! Z.to_nat k = None \/ d !! Z.to_nat k = Some zero_byte) ->
  copied d c = copied d c'.
Proof.
  intros Hc Hz. apply bytes_ext; [by rewrite !length_copied|]. intros k _. rewrite !byte_at_copied.
  repeat case_decide; try done; try lia. symmetry. unfold byte_at.
  destruct (Hz (Z.of_nat k) ltac:(lia)) as [Hk|Hk]; rewrite Nat2Z.id in Hk; by rewrite Hk.
Qed.

Lemma copied_all d c : len d <= c -> copied d c = d.
Proof.
  intros Hc. apply bytes_ext; [apply length_copied|]. intros k Hk. rewrite byte_at_copied. case_decide; [done|].
  pose proof (length_copied d c). unfold len in *. lia.
Qed.

Lemma copied_write d x y : 0 <= x <= y -> y <= len d -> write_at x (slice x y d) (copied d x) = copied d y.
Proof.
  intros Hx Hy. pose proof (slice_length x y d ltac:(lia) ltac:(lia)) as Hl. apply bytes_ext.
  - rewrite length_write, Hl, !length_copied by lia. lia.
  - intros k _. rewrite byte_at_write, !byte_at_copied, byte_at_slice by lia. unfold len in Hl.
    repeat case_decide; try lia; try done. f_equal. lia.
Qed.

Lemma copy_extents_op b fuel i j size cursor s :
  i <> j ->
  file_op b j (copy_extents fuel i j size cursor)
    (fun d => 0 <= cursor /\ size = len (file_data s i) /\ d = copied (file_data s i) cursor /\ size - cursor < Z.of_nat fuel)
    (fun _ => file_data s i) s.
Proof.
  intros Hij. revert cursor. induction fuel as [|fuel IH]; intros cursor; simpl.
  { eapply mono_op; [apply ret_op|]. intros d (? & ? & -> & ?). split; [done|]. apply copied_all. lia. }
  case_match eqn:Hsz; autorewrite with bools in Hsz.
  { eapply mono_op; [apply ret_op|]. intros d (? & ? & -> & ?). split; [done|]. apply copied_all. lia. }
  intros mode uid d. apply wp_bind, wp_sys; [op_fault d|]. simpl. set (t := put s j mode uid d).
  assert (file_data t i = file_data s i) as Hdata by by apply put_data_other.
  assert (forall x, (forall k, cursor <= k < x -> file_data t i !! Z.to_nat k = None \/ file_data t i !! Z.to_nat k = Some zero_byte) ->
    size <= x -> 0 <= cursor -> size = len (file_data s i) -> copied (file_data s i) cursor = file_data s i) as Hrest.
  { intros x Hx ? ? ->. rewrite Hdata in Hx. rewrite (copied_skip _ cursor x) by (auto; lia). by apply copied_all. }
  destruct (seek_data t i cursor) as [data|e] eqn:Hseek.
  2:{ destruct e; [apply wp_ret|apply wp_fail..]; exists d; (split; [done|]); intros HL (? & ? & -> & ?).
      - split; [|done]. intros _. apply (Hrest size); [|done..]. intros k [Hk _]. by apply (seek_data_none t i cursor Hseek).
      - by specialize (seek_data_supported _ _ _ _ Hseek).
      - by specialize (seek_data_supported _ _ _ _ Hseek).
      - by specialize (seek_data_supported _ _ _ _ Hseek). }
  case_match eqn:Hd; autorewrite with bools in Hd.
  { apply wp_ret. exists d. split; [done|]. intros HL (? & ? & -> & ?). split; [|done]. intros _.
    apply (Hrest data); [|done..]. apply (seek_data_found t i cursor data Hseek). }
  apply wp_bind, wp_sys; [op_fault d|]. simpl. fold t. destruct (seek_hole t i data) as [h|e] eqn:Hh.
  2:{ apply wp_fail. exists d. split; [done|]. intros HL (? & ? & -> & ?).
      destruct (seek_hole_found t i cursor data) as (h & Hh' & _); [lia|done|rewrite Hdata; lia|congruence]. }
  destruct (Z.min h size <=? data) eqn:Hhole; autorewrite with bools in Hhole.
  { apply wp_fail. exists d. split; [done|]. intros HL (? & ? & -> & ?).
    destruct (seek_hole_found t i cursor data) as (h' & Hh' & ?); [lia|done|rewrite Hdata; lia|]. assert (h' = h) as -> by congruence. lia. }
  enough (file_op b j (let! _ := copy_bytes i j data data (Z.min h size - data) in
      copy_extents fuel i j size (Z.min h size))
    (fun d => 0 <= cursor <= data /\ size = len (file_data s i) /\ d = copied (file_data s i) data /\ size - cursor < Z.of_nat (S fuel))
    (fun _ => file_data s i) s) as Hop.
  { eapply wp_mono; [apply Hop|]. intros r s' (d' & -> & Hd'). exists d'. split; [done|]. intros HL (? & ? & -> & ?).
    destruct (seek_data_found t i cursor data Hseek) as [? Hz]. rewrite Hdata in Hz. apply Hd'; [done|].
    split; [lia|]. split; [done|]. split; [|lia]. by apply copied_skip. }
  eapply mono_op.
  - apply (seq_op b j _ _ _ _ _ (fun _ => file_data s i) s (copy_bytes_op b i j data data (Z.min h size - data) s Hij)
      (IH (Z.min h size))).
  - intros d' (? & ? & -> & ?). split; [|done]. rewrite length_copied. split; [lia|]. split; [lia|]. split; [done|].
    split; [|lia]. replace (data + (Z.min h size - data)) with (Z.min h size) by lia. apply copied_write; lia.
Qed.

Lemma copy_sparse_op b i j s :
  i <> j -> is_Some (inodes s !! i) ->
  file_op b j (copy_sparse_file i j) (fun d => d = []) (fun _ => file_data s i) s.
Proof.
  intros Hij [n Hn] mode uid d. apply wp_bind, wp_sys; [op_fault d|]. unfold sys_len.
  rewrite put_other, Hn, put_data_other by done. set (size := len (file_data s i)).
  enough (file_op b j (let! _ := set_len j size in copy_extents (Z.to_nat size + 1) i j size 0)
    (fun d => d = []) (fun _ => file_data s i) s) as Hop by apply Hop.
  eapply mono_op.
  - apply (seq_op b j _ _ _ _ _ (fun _ => file_data s i) s (update_op b j (resize size) s) (copy_extents_op b _ i j size 0 s Hij)).
  - intros d' ->. pose proof (len_nonneg (file_data s i)). split; [|done]. split; [done|]. split; [lia|]. split; [done|].
    split; [done|]. unfold size in *. lia.
Qed.
End building.

(** ** Replacing a file by rename *)

Section replacing.
Context `{SparseFs}.
Implicit Types (s : Fs) (dir : list string) (n : Inode) (d : bytes).

Definition new_file s d : Inode := mkInode (KFile d) FILE_MODE (fs_uid s).

Lemma wf_place s dir c n :
  fs_wf s -> dir_at s dir -> ~ dir_at s (join dir c) -> fs_wf (add_inode s (join dir c) n).
Proof.
  intros Hwf Hp Hc. rewrite add_inode_as. destruct (wf_grow s n Hwf) as [Hg Hkeep]. cbv zeta in *.
  apply (wf_insert (mkFs (names s) (<[next_ino s := n]> (inodes s)) (N.succ (next_ino s)) (fs_uid s) (fs_umask s)));
    [done|..].
  - destruct Hp as (i & m & Hi & Hm). exists i, m. by split; [apply Hkeep|].
  - intros d. simpl. by apply no_children.
  - simpl. rewrite lookup_insert_eq. by eexists.
Qed.

Lemma add_inode_put s p d d' : put (add_inode s p (new_file s d)) (next_ino s) FILE_MODE (fs_uid s) d' = add_inode s p (new_file s d').
Proof. apply set_add_inode. Qed.

(** [create_new_file] either does nothing, leaves an incomplete file behind, or
    returns an empty file. *)
Lemma wp_create_new_file b s dir c (Q : result StorageError N -> Fs -> Prop) :
  fs_wf s -> dir_at s dir ->
  (forall e, (b = false -> node_at s (join dir c) <> None) -> Q (Err e) s) ->
  (forall e n, b = true -> node_at s (join dir c) = None -> is_directory n = false -> Q (Err e) (add_inode s (join dir c) n)) ->
  (node_at s (join dir c) = None -> Q (Ok (next_ino s)) (add_inode s (join dir c) (new_file s []))) ->
  wp b (create_new_file (join dir c)) s Q.
Proof.
  intros Hwf Hdir Hsame Hleft Hok. apply wp_bind, wp_sys; [intros Hb; apply Hsame; congruence|].
  unfold sys_create. rewrite (proj2 (entry_parent_Ok s (join dir c) Hwf)) by (by exists dir, c).
  destruct (node_at s (join dir c)) as [x|] eqn:Hx; [by apply Hsame|].
  apply wp_bind, wp_sys; [by intros Hb; apply Hleft|]. unfold sys_fchmod. simpl. rewrite lookup_insert_eq.
  apply wp_ret. rewrite set_add_inode. by apply Hok.
Qed.

Definition old_data s p : bytes :=
  match node_at s p with Some (i, _) => file_data s i | None => [] end.

(** A file being built as [join dir t], with the content [d0] so far. *)
Lemma wp_build b s dir t d0 (m : St unit) pre f {B} (k : unit -> St B) (Q : result StorageError B -> Fs -> Prop) :
  file_op b (next_ino s) m pre f (add_inode s (join dir t) (new_file s [])) ->
  (forall d, (SparseLaws -> pre d0 -> d = f d0) -> wp b (k tt) (add_inode s (join dir t) (new_file s d)) Q) ->
  (forall e d, (b = false -> SparseLaws -> ~ pre d0) -> Q (Err e) (add_inode s (join dir t) (new_file s d))) ->
  wp b (let! x := m in k x) (add_inode s (join dir t) (new_file s d0)) Q.
Proof.
  intros Hm Hok Herr. rewrite <-(add_inode_put s (join dir t) [] d0). apply wp_bind.
  eapply wp_mono; [apply Hm|]. intros [[]|e] s' (d & -> & Hd); rewrite add_inode_put.
  - apply Hok. intros HL Hp. by apply Hd.
  - apply Herr. intros Hb HL Hp. by destruct (Hd HL Hp) as [_ Hd']; specialize (Hd' Hb).
Qed.

(** The states a replacement of [dst], through [tmp], can leave: nothing done, an
    unfinished [tmp], or [dst] replaced as a whole. *)
Inductive replaced (pre : bytes -> Prop) (f : bytes -> bytes) s (dst tmp : list string) : Fs -> Prop :=
| replaced_same : replaced pre f s dst tmp s
| replaced_left n : node_at s tmp = None -> is_directory n = false -> replaced pre f s dst tmp (add_inode s tmp n)
| replaced_done d : node_at s tmp = None -> ~ dir_at s dst ->
    (SparseLaws -> pre (old_data s dst) -> d = f (old_data s dst)) ->
    replaced pre f s dst tmp (add_inode s dst (new_file s d)).

Lemma rename_over s dir c t n :
  fs_wf s -> dir_at s dir -> node_at s (join dir t) = None -> c <> t -> ~ dir_at s (join dir c) ->
  is_directory n = false ->
  sys_rename (join dir t) (join dir c) (add_inode s (join dir t) n) = Ok (tt, add_inode s (join dir c) n).
Proof.
  intros Hwf Hdir Ht Hct Hdst Hn. assert (join dir c <> join dir t) as Hne.
  { intros Heq. apply app_inj_tail in Heq as [_ Heq]. done. }
  assert (fs_wf (add_inode s (join dir t) n)) as Hwf' by (by apply wf_add).
  assert (forall q x, node_at s q = Some x -> node_at (add_inode s (join dir t) n) q = Some x) as Hkeep.
  { intros q x Hq. destruct (wf_grow s n Hwf) as [_ Hk]. rewrite add_inode_as, node_at_other; [by apply Hk|].
    simpl. rewrite lookup_insert_ne; [done|]. intros <-. congruence. }
  assert (node_at (add_inode s (join dir t) n) (join dir t) = Some (next_ino s, n)) as Hself.
  { by rewrite add_inode_node, decide_True. }
  unfold sys_rename. rewrite (lookup_path_node _ _ _ Hwf' Hself).
  rewrite (proj2 (entry_parent_Ok _ (join dir c) Hwf')).
  2:{ exists dir, c. split; [done|]. destruct Hdir as (i & x & Hi & Hx). exists i, x. split; [by apply Hkeep|done]. }
  assert (set_names (add_inode s (join dir t) n) (<[join dir c := next_ino s]> (delete (join dir t) (names (add_inode s (join dir t) n))))
    = add_inode s (join dir c) n) as Hfin.
  { unfold set_names, add_inode. simpl. rewrite delete_insert_id; [done|]. by apply node_at_None. }
  cbn [fst snd]. rewrite Hn. destruct (node_at (add_inode s (join dir t) n) (join dir c)) as [[j m]|] eqn:Hj; [|by rewrite Hfin].
  rewrite add_inode_node, decide_False in Hj by done. destruct (names s !! join dir c) as [i|] eqn:Hi; [|done].
  destruct (wf_ino s Hwf _ _ Hi) as [y Hy]. assert (i < next_ino s)%N by (apply (wf_next s Hwf); by rewrite Hy).
  rewrite decide_False in Hj by lia. rewrite bool_decide_eq_false_2.
  2:{ apply node_at_Some in Hj as [Hj _]. rewrite Hi in Hj. simplify_eq. lia. }
  destruct (is_directory m) eqn:Hm; [|by rewrite Hfin]. destruct Hdst. by exists j, m.
Qed.

Lemma old_data_secure s p d : secure_file s p d -> old_data s p = d.
Proof. intros (i & m & u & q & [Hp Hi]%node_at_Some & _). unfold old_data, node_at, file_data. by rewrite Hp, Hi, Hi. Qed.

(** [dst] can be replaced through [tmp]. *)
Definition replaceable s (dst tmp : list string) : Prop :=
  node_at s tmp = None /\ (node_at s dst = None \/ exists d, secure_file s dst d).

Lemma wp_fresh b s dir c t {B} (k : N -> St B) pre f (Q : result StorageError B -> Fs -> Prop) :
  let dst := join dir c in
  let tmp := join dir t in
  fs_wf s -> dir_at s dir ->
  (forall d, node_at s tmp = None -> ~ dir_at s dst -> (SparseLaws -> d = old_data s dst) ->
     wp b (k (next_ino s)) (add_inode s tmp (new_file s d)) Q) ->
  (forall e s', replaced pre f s dst tmp s' -> (b = false -> SparseLaws -> ~ replaceable s dst tmp) -> Q (Err e) s') ->
  wp b (let! kind := path_kind dst in
        let! file := match kind with
          | Present =>
              let! _ := verify_regular_file dst in
              let! source := open_file dst in
              let! temporary_file := create_new_file tmp in
              let! _ := copy_sparse_file (fst source) temporary_file in
              ret temporary_file
          | Missing => create_new_file tmp
          end in
        k file) s Q.
Proof.
  intros dst tmp Hwf Hdir Hok Herr.
  assert (forall e, b = true -> Q (Err e) s) as Hio by (intros e Hb; apply Herr; [constructor|congruence]).
  apply wp_bind, wp_path_kind_in; [done..| | |done]; fold dst.
  - intros x Hx. apply wp_bind. eapply (wp_check_bind b s); [by apply verify_regular_file_checks|..].
    2:{ intros e He. apply Herr; [constructor|]. intros Hb _ [_ [?|?]]; [congruence|]. by destruct (He Hb). }
    intros (d & Hd). pose proof Hd as (i & m & u & q & Hi & _).
    assert (~ dir_at s dst) as Hndir by by eapply not_dir_node.
    pose proof (old_data_secure s dst d Hd) as Hold. apply wp_bind, wp_sys; [by apply Hio|]. unfold sys_open.
    rewrite (follow_node _ Hwf _ dst i _ Hi) by done. cbn [fst]. apply wp_bind.
    apply wp_create_new_file; [done..| | |]; fold tmp.
    + intros e He. apply Herr; [constructor|]. intros Hb _ [? _]. by destruct (He Hb).
    + intros e n Hb Hn Hnd. apply Herr; [by constructor|congruence].
    + intros Hn. pose proof Hi as [Hnm Hino]%node_at_Some.
      assert (i < next_ino s)%N by (apply (wf_next s Hwf); by rewrite Hino).
      assert (inodes (add_inode s tmp (new_file s [])) !! i = inodes s !! i) as Hsame.
      { simpl. rewrite lookup_insert_ne; [done|lia]. }
      eapply wp_build; [eapply copy_sparse_op; [lia|eexists; exact (eq_trans Hsame Hino)]|..].
      * intros d' Hd'. apply wp_ret. apply Hok; [done..|]. intros HL. rewrite (Hd' HL eq_refl).
        unfold old_data. rewrite Hi. unfold file_data. unfold tmp in Hsame. by rewrite Hsame.
      * intros e d' Hd'. apply Herr; [by constructor|]. intros Hb HL _. by apply (Hd' Hb HL).
  - intros Hx. apply wp_bind. apply wp_create_new_file; [done..| | |]; fold tmp.
    + intros e He. apply Herr; [constructor|]. intros Hb _ [? _]. by destruct (He Hb).
    + intros e n Hb Hn Hnd. apply Herr; [by constructor|congruence].
    + intros Hn. apply Hok; [done|by apply not_dir_none|]. intros _. unfold old_data. by rewrite Hx.
Qed.

(** The whole replacement, up to and including the rename. *)
Lemma wp_replace b s dir c t (mutate : N -> St unit) pre f (k : unit -> St unit) Q :
  let dst := join dir c in
  let tmp := join dir t in
  fs_wf s -> dir_at s dir -> c <> t ->
  file_op b (next_ino s) (mutate (next_ino s)) pre f (add_inode s tmp (new_file s [])) ->
  (forall d, node_at s tmp = None -> ~ dir_at s dst ->
     (SparseLaws -> pre (old_data s dst) -> d = f (old_data s dst)) ->
     wp b (k tt) (add_inode s dst (new_file s d)) Q) ->
  (forall e s', replaced pre f s dst tmp s' ->
     (b = false -> SparseLaws -> ~ (replaceable s dst tmp /\ pre (old_data s dst))) -> Q (Err e) s') ->
  wp b (let! kind := path_kind dst in
        let! file := match kind with
          | Present =>
              let! _ := verify_regular_file dst in
              let! source := open_file dst in
              let! temporary_file := create_new_file tmp in
              let! _ := copy_sparse_file (fst source) temporary_file in
              ret temporary_file
          | Missing => create_new_file tmp
          end in
        let! _ := mutate file in
        let! _ := sys (sys_fsync file) in
        let! x := sys (sys_rename tmp dst) in
        k x) s Q.
Proof.
  intros dst tmp Hwf Hdir Hct Hop Hok Herr. apply (wp_fresh b s dir c t _ pre f); [done..| |].
  2:{ intros e s' Hr Hl. apply Herr; [done|]. intros Hb HL [? _]. by apply (Hl Hb HL). }
  fold dst tmp. intros d Htmp Hdst Hd. eapply wp_build; [exact Hop|..].
  2:{ intros e d' Hd'. apply Herr; [by constructor|]. intros Hb HL [_ Hp]. apply (Hd' Hb HL). by rewrite (Hd HL). }
  intros d' Hd'. assert (forall e, b = true -> Q (Err e) (add_inode s tmp (new_file s d'))) as Hio.
  { intros e Hb. apply Herr; [by constructor|congruence]. }
  apply wp_bind, wp_sys; [by apply Hio|]. simpl. apply wp_bind, wp_sys; [by apply Hio|].
  unfold dst, tmp. rewrite rename_over by done. apply Hok; [done..|].
  intros HL Hp. rewrite (Hd HL) in Hd'. by apply Hd'.
Qed.
End replacing.
