(* ===== verification/CowSessions.v ===== *)
(** Copy-on-write sessions as a whole: isolation of every mutation from the rest
    of the store, and refinement of a flat file by the chunks of a session. *)
From S2P Require Import Prelude Collections Libraries Frames PosixFs StorageLayout StorageFacts StorageProofs.
From S2P Require Import StorageReads StorageCleanup Cow CowBytes CowFacts.
Open Scope string_scope.
Open Scope Z_scope.
Open Scope list_scope.
Open Scope bool_scope.

Section sessions.
Context `{UuidLib, Blake3Lib, Readdir, SparseFs}.
Variable root : list string.
Implicit Types (s : Fs) (w op : N) (k : Z) (p q : list string).

Definition cow_dir w : list string := join (shard_leaf root "staging" w) (uuid_hyphenated w +:+ ".cow").
Definition cow_chunk w k : list string := join (cow_dir w) (cow_chunk_name k).
Definition cow_temporary w k op : list string := join (cow_dir w) (writing_chunk_name k op).
Abbreviation cow_levels := (shard_levels root "staging").

(** ** Isolation *)

Definition in_session w p : Prop := exists name, p = join (cow_dir w) name.

(** No existing inode changes, names outside the session's directory stay, and
    new ones are in it or are directories. *)
Record isolated w s s' : Prop := {
  iso_wf : fs_wf s';
  iso_inodes : inodes s ⊆ inodes s';
  iso_kept : forall p i, names s !! p = Some i -> ~ in_session w p -> names s' !! p = Some i;
  iso_new : forall p i, names s' !! p = Some i -> names s !! p = Some i \/ in_session w p \/ dir_at s' p;
  iso_uid : fs_uid s' = fs_uid s
}.

Lemma isolated_evolves w s s' : fs_wf s' -> evolves [] [] s s' -> isolated w s s'.
Proof.
  intros Hwf [H3 H4 H5 H6 H7]. split; [done|done|..|done].
  - intros p i Hp _. apply H4; [done|set_solver].
  - intros p i Hp. destruct (H5 p i Hp) as [?|[?|?]]; [by auto|set_solver|by auto].
Qed.

Lemma isolated_refl w s : fs_wf s -> isolated w s s.
Proof. intros Hwf. apply isolated_evolves; [done|apply evolves_refl]. Qed.

Lemma isolated_trans w s1 s2 s3 : isolated w s1 s2 -> isolated w s2 s3 -> isolated w s1 s3.
Proof.
  intros [W2 I2 K2 N2 U2] [W3 I3 K3 N3 U3]. split; [done|by etrans|..|congruence].
  - intros p i Hp Hn. by apply K3; [apply K2|].
  - intros p i Hp. destruct (N3 p i Hp) as [Hp2|[?|?]]; [|by auto..].
    destruct (N2 p i Hp2) as [?|[?|(j & n & [Hj Hn]%node_at_Some & Hd)]]; [by auto..|].
    right. right. exists j, n. split; [|done]. apply node_at_Some. simplify_eq. split; [done|]. by eapply lookup_weaken.
Qed.

Lemma isolated_add w s name n :
  fs_wf s -> fs_wf (add_inode s (join (cow_dir w) name) n) -> isolated w s (add_inode s (join (cow_dir w) name) n).
Proof.
  intros Hwf Hwf'. split; [done|by apply add_inode_inodes|..|done].
  - intros p i Hp Hn. simpl. rewrite lookup_insert_ne; [done|]. intros <-. apply Hn. by exists name.
  - intros p i. simpl. rewrite lookup_insert_Some. intros [[<- _]|[_ ?]]; [right; left; by exists name|by left].
Qed.

Lemma replaced_isolated pre f w s name name' s' :
  fs_wf s -> dir_at s (cow_dir w) ->
  replaced pre f s (join (cow_dir w) name) (join (cow_dir w) name') s' -> isolated w s s'.
Proof.
  intros Hwf Hdir [|n Hn Hd|d Hn Hd _]; [by apply isolated_refl|..]; apply isolated_add; try done.
  - apply wf_place; [done..|]. by apply not_dir_none.
  - by apply wf_place.
Qed.

(** ** Opening the session's directory *)

(** The session's directory and the directories above it belong to the process. *)
Definition ready w s : Prop :=
  own_dir s root /\ Forall (own_dir s) (cow_levels w) /\ own_dir s (cow_dir w).

Lemma own_free w s : ready w s -> Forall (free_or_own s) (cow_levels w).
Proof. intros (_ & Hl & _). eapply Forall_impl; [exact Hl|]. by right. Qed.

Lemma wp_cow_directory b s w {B} (k : list string -> St B) (Q : result StorageError B -> Fs -> Prop) :
  fs_wf s ->
  (forall s1, fs_wf s1 -> evolves [] [] s s1 -> (forall q, q ∉ cow_levels w -> names s1 !! q = names s !! q) ->
     wp b (k (cow_dir w)) s1 Q) ->
  (forall e s1, fs_wf s1 -> evolves [] [] s s1 -> (b = false -> ~ ready w s) -> Q (Err e) s1) ->
  wp b (let! d := cow_directory root w in k d) s Q.
Proof.
  intros Hwf Hok Herr. apply wp_bind. unfold cow_directory. apply wp_bind.
  eapply wp_mono; [by apply wp_shard_directory|]. intros [d|e] s1 (Hwf1 & Hev & Hfr & Hd & Hl & _).
  - destruct (Hd d eq_refl) as [-> _]. apply wp_ret. by apply Hok.
  - apply Herr; [done..|]. intros Hb Hr. destruct (Hl Hb) as [? _]; [apply Hr|by apply own_free|done].
Qed.

Lemma cow_dir_not_level w : cow_dir w ∉ cow_levels w.
Proof.
  intros Hq. assert (length (cow_dir w) <= length root + 3)%nat as Hlen by by eapply levels_length.
  unfold cow_dir, shard_leaf, leaf, join in Hlen. rewrite !length_app in Hlen. simpl in Hlen. lia.
Qed.

Lemma in_session_not_level w name : join (cow_dir w) name ∉ cow_levels w.
Proof.
  intros Hq. assert (length (join (cow_dir w) name) <= length root + 3)%nat as Hlen by by eapply levels_length.
  unfold cow_dir, shard_leaf, leaf, join in Hlen. rewrite !length_app in Hlen. simpl in Hlen. lia.
Qed.

(** What is in the session does not change while its directory is opened. *)
Lemma opened_nodes w s s1 name :
  fs_wf s -> fs_wf s1 -> evolves [] [] s s1 -> (forall q, q ∉ cow_levels w -> names s1 !! q = names s !! q) ->
  node_at s1 (join (cow_dir w) name) = node_at s (join (cow_dir w) name).
Proof.
  intros Hwf Hwf1 Hev Hfr. destruct (node_at s (join (cow_dir w) name)) as [x|] eqn:Hx.
  - eapply evolves_node; [done..|set_solver].
  - apply node_at_None; [done|]. rewrite Hfr by apply in_session_not_level. by apply node_at_None.
Qed.

Lemma opened_old w s s1 name :
  fs_wf s -> fs_wf s1 -> evolves [] [] s s1 -> (forall q, q ∉ cow_levels w -> names s1 !! q = names s !! q) ->
  old_data s1 (join (cow_dir w) name) = old_data s (join (cow_dir w) name).
Proof.
  intros Hwf Hwf1 Hev Hfr. unfold old_data. rewrite (opened_nodes w s s1 name) by done.
  destruct (node_at s (join (cow_dir w) name)) as [[i n]|] eqn:Hi; [|done]. apply node_at_Some in Hi as [_ Hi].
  unfold file_data. by rewrite Hi, (lookup_weaken _ _ _ _ Hi (ev_inodes _ _ _ _ Hev)).
Qed.

(** Chunk [k] of the session replaced by [d]. *)
Definition chunk_replaced w op k s d s' : Prop :=
  exists s1, fs_wf s1 /\ evolves [] [] s s1 /\ (forall q, q ∉ cow_levels w -> names s1 !! q = names s !! q) /\
    node_at s (cow_temporary w k op) = None /\ s' = add_inode s1 (cow_chunk w k) (new_file s1 d).

Lemma wp_replace_chunk b s w op k mutate pre f :
  fs_wf s -> (forall s' j, file_op b j (mutate j) pre f s') ->
  wp b (replace_chunk root w op k mutate) s (fun r s' =>
    isolated w s s' /\
    (r = Ok tt -> SparseLaws -> pre (old_data s (cow_chunk w k)) ->
     chunk_replaced w op k s (f (old_data s (cow_chunk w k))) s') /\
    (b = false -> SparseLaws -> k < MAX_CHUNK_COUNT -> ready w s ->
     replaceable s (cow_chunk w k) (cow_temporary w k op) -> pre (old_data s (cow_chunk w k)) -> r = Ok tt)).
Proof.
  intros Hwf Hop. unfold replace_chunk. case_match eqn:Hk; autorewrite with bools in Hk.
  { apply wp_fail. split; [by apply isolated_refl|]. split; [done|]. lia. }
  apply wp_cow_directory; [done|..].
  2:{ intros e s1 Hwf1 Hev Hr. split; [by apply isolated_evolves|]. split; [done|]. intros Hb _ _ Hrd. by destruct (Hr Hb). }
  intros s1 Hwf1 Hev Hfr. assert (isolated w s s1) as Hiso by by apply isolated_evolves.
  eapply (wp_check_bind b s1); [by apply verify_directory_checks|..].
  2:{ intros e He. split; [done|]. split; [done|]. intros Hb _ _ (_ & _ & Hr). destruct (He Hb). apply own_secure.
      eapply evolves_own_dir; [done..|set_solver]. }
  intros Hsec. pose proof (secure_dir_at _ _ Hsec) as Hdir.
  pose proof (opened_old w s s1 (cow_chunk_name k) Hwf Hwf1 Hev Hfr) as Hold.
  pose proof (opened_nodes w s s1 (writing_chunk_name k op) Hwf Hwf1 Hev Hfr) as Htn.
  pose proof (opened_nodes w s s1 (cow_chunk_name k) Hwf Hwf1 Hev Hfr) as Hcn.
  apply (wp_replace b s1 (cow_dir w) _ _ mutate pre f (fun _ => sync_directory (cow_dir w)));
    [done|done|apply writing_name_neq|apply Hop|..]; fold (cow_chunk w k) (cow_temporary w k op) in *.
  - intros d Htmp Hdst Hd. set (s2 := add_inode s1 (cow_chunk w k) (new_file s1 d)).
    assert (isolated w s1 s2) as Hiso2.
    { eapply (replaced_isolated pre f w s1 _ (writing_chunk_name k op)); [done..|]. by apply replaced_done. }
    pose proof (isolated_trans _ _ _ _ Hiso Hiso2) as Hiso'.
    assert (secure_dir s2 (cow_dir w)) as Hsec2.
    { destruct Hsec as (i & n & Hi & ?). exists i, n. split; [|done]. apply node_at_Some in Hi as [Hn Hi].
      apply node_at_Some. split; [|eapply lookup_weaken; [exact Hi|apply Hiso2]].
      eapply (iso_kept w s1 s2 Hiso2); [exact Hn|]. intros [nm Heq]. by apply join_neq in Heq. }
    eapply (wp_check b s2); [apply sync_directory_checks; apply Hiso'|..].
    + intros _. split; [done|]. split; [|done]. intros _ HL Hp. exists s1. split; [done|]. split; [done|]. split; [done|].
      split; [congruence|]. unfold s2. rewrite (Hd HL), Hold; [done|]. by rewrite Hold.
    + intros e He. split; [done|]. split; [done|]. intros Hb. by destruct (He Hb).
  - intros e s' Hrep Hl. split; [eapply isolated_trans; [done|]; by eapply replaced_isolated|]. split; [done|].
    intros Hb HL _ Hr [Ht Hc] Hp. destruct (Hl Hb HL). rewrite Hold. split; [|done]. split; [congruence|].
    destruct Hc as [Hc|[d Hd]]; [left; congruence|right]. exists d.
    eapply evolves_secure_file; [exact Hev|done|apply parent_dir_snoc|set_solver|set_solver].
Qed.

(** ** Isolation of the loops *)

Lemma isolated_delete w s name i n :
  fs_wf s -> node_at s (join (cow_dir w) name) = Some (i, n) -> is_directory n = false ->
  isolated w s (set_names s (delete (join (cow_dir w) name) (names s))).
Proof.
  intros Hwf Hi Hn. destruct (unlink_evolves s (join (cow_dir w) name) i n Hwf Hi Hn) as (Hwf' & [H3 H4 H5 H6 H7] & _).
  split; [done|done|..|done].
  - intros p j Hp Hs. apply H4; [done|]. intros ->%list_elem_of_singleton. apply Hs. by exists name.
  - intros p j Hp. destruct (H5 p j Hp) as [?|[?|?]]; [by auto|set_solver|by auto].
Qed.

Lemma wp_range_isolated b w fuel cs o n body s :
  fs_wf s -> (forall k within take s', fs_wf s' -> wp b (body k within take) s' (fun _ s'' => isolated w s' s'')) ->
  wp b (range_loop fuel cs o n body) s (fun _ s' => isolated w s s').
Proof.
  intros Hwf Hbody. revert o n s Hwf. induction fuel as [|fuel IH]; intros o n s Hwf; simpl.
  { by apply wp_ret, isolated_refl. }
  case_match; [by apply wp_ret, isolated_refl|]. apply wp_bind. eapply wp_mono; [by apply Hbody|].
  intros [[]|e] s1 Hiso; [|done]. apply wp_bind, wp_of_result. destruct (ok_or _ _) as [o'|e]; [|done].
  eapply wp_mono; [apply IH, Hiso|]. intros r s2 Hiso2. by eapply isolated_trans.
Qed.

(** An operation on the open file that leaves everything else alone. *)
Definition confined b (m : N -> St unit) : Prop :=
  exists pre f, forall s j, file_op b j (m j) pre f s.

Lemma wp_range_confined b w op cs o n operation s :
  fs_wf s -> (forall within take, confined b (fun file => operation file within take)) ->
  wp b (for_each_cow_range root w op cs o n operation) s (fun _ s' => isolated w s s').
Proof.
  intros Hwf Hc. apply wp_range_isolated; [done|]. intros k within take s' Hwf'. destruct (Hc within take) as (pre & f & Hop).
  eapply wp_mono; [apply (wp_replace_chunk b s' w op k _ pre f Hwf' Hop)|]. by intros r s'' [? _].
Qed.

Lemma pad_to_end_op b j within n s : file_op b j (pad_to_end j within n) (fun _ => is_u64 (within + n)) (extend_to (within + n)) s.
Proof.
  intros mode uid d. apply wp_bind, wp_of_result. unfold checked_add_u64.
  destruct (checked 0 u64_max (within + n)) as [x|] eqn:Hx; simpl.
  - apply checked_Some in Hx as [<- Hx]. eapply wp_mono; [apply pad_op|]. intros r s' (d' & -> & Hd'). exists d'.
    split; [done|]. intros HL _. by apply Hd'.
  - apply checked_None in Hx. exists d. split; [done|]. intros _ Hu. unfold is_u64 in Hu. lia.
Qed.

Lemma extend_isolated b w op cs o n s :
  fs_wf s -> wp b (extend_cow_with_holes root w op cs o n) s (fun _ s' => isolated w s s').
Proof. intros Hwf. apply wp_range_confined; [done|]. intros within take. eexists _, _. intros s' j. apply pad_to_end_op. Qed.

Definition write_segment (within : Z) (segment : bytes) (file : N) : St unit :=
  let! _ := pad_file_to file within in write_all file within segment.

Lemma write_segment_op b within segment s j :
  0 <= within -> file_op b j (write_segment within segment j) (fun _ => True) (write_at within segment) s.
Proof.
  intros Hw. eapply mono_op; [apply (seq_op b j _ _ _ _ _ _ s (pad_op b j within s) (update_op b j (write_at within segment) s))|].
  intros d _. split; [done|]. apply bytes_ext.
  - rewrite !length_write, length_extend by done. pose proof (len_nonneg segment). lia.
  - intros i _. by rewrite !byte_at_write, byte_at_extend.
Qed.

Lemma write_loop_isolated b w op cs fuel o data s :
  fs_wf s -> 0 < cs -> wp b (write_loop root fuel w op cs o data) s (fun _ s' => isolated w s s').
Proof.
  intros Hwf Hcs. revert o data s Hwf. induction fuel as [|fuel IH]; intros o data s Hwf; simpl.
  { by apply wp_ret, isolated_refl. }
  destruct data as [|x data]; [by apply wp_ret, isolated_refl|]. set (dd := x :: data). apply wp_bind.
  pose proof (Z.mod_pos_bound o cs Hcs). eapply wp_mono.
  { apply (wp_replace_chunk b s w op (o / cs) _ (fun _ => True)
      (write_at (o mod cs) (take (Z.to_nat (Z.min (len dd) (cs - o mod cs))) dd)) Hwf).
    intros s' j. apply write_segment_op. lia. }
  intros [[]|e] s1 [Hiso _]; [|done]. apply wp_bind, wp_of_result. destruct (ok_or _ _) as [o'|e]; [|done].
  eapply wp_mono; [apply IH, Hiso|]. intros r s2 Hiso2. by eapply isolated_trans.
Qed.

(** ** Isolation of the operations *)

Lemma chunk_size_valid cs : validate_chunk_size cs = Ok tt -> MIN_CHUNK_SIZE <= cs <= MAX_CHUNK_SIZE.
Proof.
  unfold validate_chunk_size. destruct (negb (_ && _) || _) eqn:Hc; [done|]. intros _.
  apply orb_false_iff in Hc as [Hc _]. apply negb_false_iff, andb_true_iff in Hc as [Hlo Hhi]. lia.
Qed.

(** The prefix every mutation starts with. *)
Lemma wp_validated {B} b w cs (k : unit -> St B) s :
  fs_wf s -> (0 < cs -> wp b (k tt) s (fun _ s' => isolated w s s')) ->
  wp b (let! x := of_result (validate_chunk_size cs) in k x) s (fun _ s' => isolated w s s').
Proof.
  intros Hwf Hk. apply wp_bind, wp_of_result. destruct (validate_chunk_size cs) as [[]|e] eqn:Hv; [|by apply isolated_refl].
  apply Hk. apply chunk_size_valid in Hv. unfold MIN_CHUNK_SIZE in Hv. lia.
Qed.

Lemma wp_isolated_bind {A B} b w (m : St A) (k : A -> St B) s :
  wp b m s (fun _ s' => isolated w s s') ->
  (forall a s', fs_wf s' -> wp b (k a) s' (fun _ s'' => isolated w s' s'')) ->
  wp b (bind m k) s (fun _ s' => isolated w s s').
Proof.
  intros Hm Hk. apply wp_bind. eapply wp_mono; [exact Hm|]. intros [a|e] s1 Hiso; [|done].
  eapply wp_mono; [apply Hk, Hiso|]. intros r s2 Hiso2. by eapply isolated_trans.
Qed.

Lemma wp_isolated_check b w (m : St unit) P s : fs_wf s -> checks b m s P -> wp b m s (fun _ s' => isolated w s s').
Proof. intros Hwf Hm. eapply wp_mono; [exact Hm|]. intros r s' [-> _]. by apply isolated_refl. Qed.

Lemma wp_isolated_ret {A} b w (a : A) s : fs_wf s -> wp b (ret a : St A) s (fun _ s' => isolated w s s').
Proof. intros Hwf. by apply wp_ret, isolated_refl. Qed.

Lemma wp_isolated_result {A} b w (r : result StorageError A) s : fs_wf s -> wp b (of_result r) s (fun _ s' => isolated w s s').
Proof. intros Hwf. by apply wp_of_result, isolated_refl. Qed.

Lemma write_isolated b w op cs cur o data s :
  fs_wf s -> wp b (write_cow_at root w op cs cur o data) s (fun _ s' => isolated w s s').
Proof.
  intros Hwf. apply wp_validated; [done|]. intros Hcs. apply wp_isolated_bind; [by apply wp_isolated_result|]. intros e1 s1 Hwf1.
  apply wp_isolated_bind; [case_match; [by apply extend_isolated|by apply wp_isolated_ret]|]. intros _ s2 Hwf2.
  apply wp_isolated_bind; [by apply write_loop_isolated|]. intros _ s3 Hwf3. by apply wp_isolated_ret.
Qed.

Lemma allocate_isolated b w op cs cur o n s :
  fs_wf s -> wp b (allocate_cow_range root w op cs cur o n) s (fun _ s' => isolated w s s').
Proof.
  intros Hwf. apply wp_validated; [done|]. intros Hcs. apply wp_isolated_bind; [by apply wp_isolated_result|]. intros e1 s1 Hwf1.
  apply wp_isolated_bind; [case_match; [by apply extend_isolated|by apply wp_isolated_ret]|]. intros _ s2 Hwf2.
  apply wp_isolated_bind; [|intros _ s3 Hwf3; by apply wp_isolated_ret].
  apply wp_range_confined; [done|]. intros within take. eexists _, _. intros s' j.
  apply (seq_op b j _ _ _ _ _ _ s' (pad_to_end_op b j within take s') (fallocate_op b j (extend_to (within + take)) s')).
Qed.

Lemma deallocate_isolated b w op cs cur o n s :
  fs_wf s -> wp b (deallocate_cow_range root w op cs cur o n) s (fun _ s' => isolated w s s').
Proof.
  intros Hwf. apply wp_validated; [done|]. intros Hcs. apply wp_isolated_bind; [by apply wp_isolated_result|]. intros e1 s1 Hwf1.
  apply wp_isolated_bind; [|intros _ s3 Hwf3; by apply wp_isolated_ret]. case_match; [|by apply wp_isolated_ret].
  apply wp_range_confined; [done|]. intros within take. eexists _, _. intros s' j. apply fallocate_op.
Qed.

Lemma truncate_isolated b w op cs cur n s :
  fs_wf s -> wp b (truncate_cow root w op cs cur n) s (fun _ s' => isolated w s s').
Proof.
  intros Hwf. apply wp_validated; [done|]. intros Hcs.
  apply wp_isolated_bind; [|intros _ s3 Hwf3; by apply wp_isolated_ret].
  case_match; [by apply extend_isolated|]. case_match; [|by apply wp_isolated_ret].
  apply wp_cow_directory; [done| |by intros; apply isolated_evolves].
  intros s1 Hwf1 Hev _. assert (isolated w s s1) as Hiso by by apply isolated_evolves.
  eapply (wp_mono _ _ _ (fun _ s' => isolated w s1 s')); [|intros r s' ?; by eapply isolated_trans].
  apply wp_isolated_bind; [by eapply wp_isolated_check, verify_directory_checks|]. intros _ s2 Hwf2.
  apply wp_isolated_bind.
  { apply wp_bind, wp_sys; [intros _; by apply isolated_refl|]. unfold sys_read_dir.
    destruct (follow _ _ _) as [y|e]; simpl; [|by apply isolated_refl]. destruct (is_directory _); [|by apply isolated_refl].
    eapply (wp_for_each _ _ (fun _ s' => isolated w s2 s')); [by apply isolated_refl| |done].
    intros name l s3 Hiso3. pose proof (iso_wf _ _ _ Hiso3) as Hwf3. apply wp_bind, wp_of_result.
    destruct (parse_cow_chunk_name name) as [number|e]; [|done]. case_match; [|by apply wp_ret].
    eapply (wp_check_bind b s3); [by apply verify_regular_file_checks| |by intros e _]. intros _.
    apply wp_remove_file; [done| |by intros e _]. intros i m s4 Hi Hm _ _ ->. eapply isolated_trans; [done|].
    by eapply isolated_delete. }
  intros _ s3 Hwf3. apply wp_isolated_bind; [|intros _ s4 Hwf4; by eapply wp_isolated_check, sync_directory_checks].
  case_match; [|by apply wp_isolated_ret].
  eapply wp_mono; [apply (wp_replace_chunk b s3 w op _ _ (fun _ => True) (resize (n - (n - 1) / cs * cs)) Hwf3); intros s' j; apply update_op|]. by intros r s4 [? _].
Qed.
End sessions.
