(* ===== verification/CowFlat.v ===== *)
(** A copy-on-write session implements a flat file: without I/O failures, every
    mutation of the chunks is the corresponding operation on the concatenated
    bytes. *)
From S2P Require Import Prelude Collections Libraries Frames PosixFs StorageLayout StorageFacts StorageProofs.
From S2P Require Import StorageReads StorageCleanup Cow CowBytes CowFacts CowSessions.
Open Scope string_scope.
Open Scope Z_scope.
Open Scope list_scope.
Open Scope bool_scope.

Section flat_sessions.
Context `{UuidLib, Blake3Lib, Readdir, SparseFs, !SparseLaws}.
Variable root : list string.
Variables (w : N) (cs : Z).
Hypothesis Hcs : 0 < cs.
Hypothesis Hmax : MAX_CHUNK_COUNT * cs <= u64_max.
Implicit Types (s : Fs) (op : N) (k : Z) (d : bytes).

Abbreviation cow_dir := (cow_dir root w).
Abbreviation cow_chunk := (cow_chunk root w).
Abbreviation cow_temporary := (cow_temporary root w).

(** The session's directory holds exactly the chunks of the flat file [d]. *)
Record session d s : Prop := {
  ses_wf : fs_wf s;
  ses_ready : ready root w s;
  ses_size : len d <= MAX_CHUNK_COUNT * cs;
  ses_names : forall name i, names s !! join cow_dir name = Some i ->
    exists k, 0 <= k < MAX_CHUNK_COUNT /\ name = cow_chunk_name k;
  ses_chunks : forall k, 0 <= k < MAX_CHUNK_COUNT ->
    if decide (chunk_of cs d k = []) then node_at s (cow_chunk k) = None
    else secure_file s (cow_chunk k) (chunk_of cs d k)
}.

Lemma session_old d s k : session d s -> 0 <= k < MAX_CHUNK_COUNT -> old_data s (cow_chunk k) = chunk_of cs d k.
Proof.
  intros Hs Hk. pose proof (ses_chunks _ _ Hs k Hk) as Hc. case_decide as He; [|by apply old_data_secure].
  unfold old_data. by rewrite Hc, He.
Qed.

Lemma session_replaceable d s k op :
  session d s -> 0 <= k < MAX_CHUNK_COUNT -> replaceable s (cow_chunk k) (cow_temporary k op).
Proof.
  intros Hs Hk. split.
  - apply node_at_None; [apply Hs|]. destruct (names s !! cow_temporary k op) as [i|] eqn:Hi; [|done].
    destruct (ses_names _ _ Hs _ _ Hi) as (k' & Hk' & Hn). by apply writing_name_no_chunk in Hn.
  - pose proof (ses_chunks _ _ Hs k Hk) as Hc. case_decide; [by left|right; by eexists].
Qed.

Lemma isolated_own_dir s s' p : isolated root w s s' -> own_dir s p -> ~ in_session root w p -> own_dir s' p.
Proof.
  intros Hiso (i & n & [Hp Hi]%node_at_Some & Hn & Hm & Hu) Hs. exists i, n. split; [|by rewrite (iso_uid _ _ _ _ Hiso)].
  apply node_at_Some. split; [by eapply iso_kept|]. eapply lookup_weaken; [done|apply Hiso].
Qed.

Lemma short_not_in_session p : (length p <= length root + 4)%nat -> ~ in_session root w p.
Proof.
  intros Hl [name ->]. unfold CowSessions.cow_dir, shard_leaf, leaf, join in Hl. rewrite !length_app in Hl. simpl in Hl. lia.
Qed.

Lemma ready_kept s s' : isolated root w s s' -> ready root w s -> ready root w s'.
Proof.
  intros Hiso (Hr & Hl & Hd). split; [|split].
  - eapply isolated_own_dir; [done..|]. apply short_not_in_session. lia.
  - rewrite Forall_forall in Hl |- *. intros q Hq. eapply isolated_own_dir; [done|by apply Hl|].
    apply short_not_in_session. apply levels_length in Hq. lia.
  - eapply isolated_own_dir; [done..|]. apply short_not_in_session.
    unfold CowSessions.cow_dir, shard_leaf, leaf, join. rewrite !length_app. simpl. lia.
Qed.

(** A chunk whose name is left alone. *)
Lemma secure_kept s s' name d :
  isolated root w s s' -> names s' !! join cow_dir name = names s !! join cow_dir name ->
  secure_file s (join cow_dir name) d -> secure_file s' (join cow_dir name) d.
Proof.
  intros Hiso Hn (i & m & u & q & [Hp Hi]%node_at_Some & Hm & Hq & Ho).
  pose proof (parent_dir_snoc cow_dir name) as Hq'. unfold join in Hq. simplify_eq.
  assert (forall x y, inodes s !! x = Some y -> inodes s' !! x = Some y) as Hino.
  { intros x y Hx. eapply lookup_weaken; [done|apply Hiso]. }
  exists i, m, u, cow_dir. split; [|split; [done|split; [done|]]].
  - apply node_at_Some. rewrite Hn. auto.
  - destruct Ho as ([xi x] & [j y] & [Hx Hxi]%node_at_Some & [Hy Hj]%node_at_Some & Hxy). exists (xi, x), (j, y).
    split; [apply node_at_Some; rewrite Hn; auto|]. split; [|done]. apply node_at_Some. split; [|auto].
    eapply (iso_kept _ _ _ _ Hiso); [done|]. apply short_not_in_session.
    unfold CowSessions.cow_dir, shard_leaf, leaf, join. rewrite !length_app. simpl. lia.
Qed.

Lemma missing_kept s s' name :
  fs_wf s -> isolated root w s s' -> names s' !! join cow_dir name = names s !! join cow_dir name ->
  node_at s (join cow_dir name) = None -> node_at s' (join cow_dir name) = None.
Proof.
  intros Hwf Hiso Hn Hm. apply node_at_None; [apply Hiso|]. rewrite Hn. by apply node_at_None.
Qed.

(** Writing a new chunk into a session. *)
Lemma session_replaced d s op k f g s' :
  session d s -> 0 <= k < MAX_CHUNK_COUNT -> local cs k f g d -> g (chunk_of cs d k) <> [] ->
  len (f d) <= MAX_CHUNK_COUNT * cs -> isolated root w s s' ->
  chunk_replaced root w op k s (g (chunk_of cs d k)) s' -> session (f d) s'.
Proof.
  intros Hs Hk [Hlk Hlo] Hne Hlen Hiso (s1 & Hwf1 & Hev & Hfr & _ & ->).
  assert (forall name, names (add_inode s1 (cow_chunk k) (new_file s1 (g (chunk_of cs d k)))) !! join cow_dir name =
    if decide (name = cow_chunk_name k) then Some (next_ino s1) else names s !! join cow_dir name) as Hn.
  { intros name. simpl. case_decide as Hd; [subst; by rewrite lookup_insert_eq|]. rewrite lookup_insert_ne.
    - apply Hfr, in_session_not_level.
    - intros Heq. apply app_inj_tail in Heq as [_ Heq]. by subst. }
  pose proof (ready_kept _ _ Hiso (ses_ready _ _ Hs)) as Hready. split; [apply Hiso|done|done|..].
  - intros name i. rewrite Hn. case_decide as Hd; [by eauto|]. apply (ses_names _ _ Hs).
  - intros k' Hk'. destruct (decide (k' = k)) as [->|Hkk].
    + rewrite Hlk, decide_False by done. destruct Hready as (_ & _ & (i & n & Hi & _ & _ & Hu)).
      eexists (next_ino s1), FILE_MODE, (fs_uid s1), cow_dir. split; [|split; [done|split; [apply parent_dir_snoc|]]].
      * rewrite add_inode_node, decide_True; done.
      * eexists _, (i, n). split; [rewrite add_inode_node, decide_True; done|]. split; [done|]. simpl. by rewrite Hu.
    + rewrite Hlo by (done || lia). pose proof (ses_chunks _ _ Hs k' Hk') as Hc.
      assert (cow_chunk_name k' <> cow_chunk_name k) as Hnm by (intros Heq; by apply cow_chunk_name_inj in Heq).
      specialize (Hn (cow_chunk_name k')). rewrite decide_False in Hn by done. case_decide.
      * by eapply missing_kept; [apply Hs|..].
      * by eapply secure_kept.
Qed.

(** Success, with the flat file [d] as the new content. *)
Definition now_holds {A} (a : A) d (r : result StorageError A) s' : Prop := r = Ok a /\ session d s'.

(** One chunk replaced is one step of the flat file. *)
Lemma wp_session_step d s op k mutate pre f g :
  session d s -> 0 <= k < MAX_CHUNK_COUNT -> (forall s' j, file_op false j (mutate j) pre g s') ->
  pre (chunk_of cs d k) -> local cs k f g d -> g (chunk_of cs d k) <> [] -> len (f d) <= MAX_CHUNK_COUNT * cs ->
  wp false (replace_chunk root w op k mutate) s (now_holds tt (f d)).
Proof.
  intros Hs Hk Hop Hp Hl Hne Hlen. pose proof (session_old d s k Hs Hk) as Hold.
  eapply wp_mono; [apply (wp_replace_chunk root false s w op k mutate pre g (ses_wf _ _ Hs) Hop)|].
  intros r s' (Hiso & Hok & Hlive). rewrite Hold in Hok, Hlive.
  assert (r = Ok tt) as ->.
  { apply Hlive; [done|done|lia|apply Hs|by eapply session_replaceable|done]. }
  split; [done|]. eapply session_replaced; [exact Hs|done..|]. by apply Hok.
Qed.

Lemma divided o : 0 <= o -> o = o / cs * cs + o mod cs /\ 0 <= o / cs /\ 0 <= o mod cs < cs.
Proof.
  intros Ho. pose proof (Z.div_mod o cs ltac:(lia)). pose proof (Z.mod_pos_bound o cs Hcs).
  pose proof (Z.div_pos o cs Ho Hcs). lia.
Qed.

(** A byte below the limit lies in a chunk below the limit. *)
Lemma chunk_bound o : 0 <= o < MAX_CHUNK_COUNT * cs -> 0 <= o / cs < MAX_CHUNK_COUNT.
Proof. intros Ho. split; [apply Z.div_pos; lia|]. apply Z.div_lt_upper_bound; lia. Qed.

Lemma write_ne o a d : 0 <= o -> a <> [] -> write_at o a d <> [].
Proof.
  intros Ho Ha Hw. apply (f_equal len) in Hw. rewrite length_write in Hw by done. change (len (@nil ascii)) with 0 in Hw.
  assert (0 < len a) by (destruct a; [done|]; unfold len; simpl; lia). pose proof (len_nonneg d). lia.
Qed.

Lemma write_loop_flat op fuel o data d s :
  session d s -> (length data <= fuel)%nat -> 0 <= o <= len d -> o + len data <= MAX_CHUNK_COUNT * cs ->
  wp false (write_loop root fuel w op cs o data) s (now_holds tt (write_at o data d)).
Proof.
  revert o data d s. induction fuel as [|fuel IH]; intros o data d s Hs Hf Ho Hfit.
  { destruct data; [|simpl in Hf; lia]. apply wp_ret. by rewrite write_nil. }
  destruct data as [|x data]; simpl; [apply wp_ret; by rewrite write_nil|]. set (dd := x :: data) in *.
  destruct (divided o ltac:(lia)) as (Hdiv & Hk & Hw). set (n := Z.min (len dd) (cs - o mod cs)).
  assert (0 < n <= len dd) as Hn by (unfold n, dd, len; simpl; lia).
  assert (len (take (Z.to_nat n) dd) = n) as Hseg by (unfold len in *; rewrite length_take; lia).
  assert (take (Z.to_nat n) dd <> []) as Hne by (intros He; rewrite He in Hseg; unfold len in Hseg; simpl in Hseg; lia).
  apply wp_bind. eapply wp_mono.
  { apply (wp_session_step d s op (o / cs) _ (fun _ => True) (write_at o (take (Z.to_nat n) dd))
      (write_at (o mod cs) (take (Z.to_nat n) dd))); [done|apply chunk_bound; lia| |done|..].
    - intros s' j. apply write_segment_op. lia.
    - rewrite Hdiv at 2. apply local_write; [done..|lia|done|rewrite Hseg; unfold n; lia|lia].
    - apply write_ne; [lia|done].
    - rewrite length_write by lia. pose proof (ses_size _ _ Hs). lia. }
  intros r s1 [-> Hs1]. apply wp_bind, wp_of_result. unfold checked_add_u64.
  destruct (checked 0 u64_max (o + n)) as [o'|] eqn:Hc; simpl; [|apply checked_None in Hc; lia].
  apply checked_Some in Hc as [<- _].
  replace (write_at o dd d) with (write_at (o + n) (drop (Z.to_nat n) dd) (write_at o (take (Z.to_nat n) dd) d)).
  - apply IH; [done|rewrite length_drop; lia|rewrite length_write by lia; lia|].
    unfold len in *. rewrite length_drop. lia.
  - rewrite <-Hseg at 1. rewrite write_write by lia. by rewrite take_drop.
Qed.

(** A flat operation on ranges that can be carried out chunk by chunk. *)
Section ranges.
Variables (flat : Z -> Z -> bytes -> bytes) (J : Z -> Z -> bytes -> Prop) (body : Z -> Z -> Z -> St unit).
Hypothesis flat_nil : forall o d, J o 0 d -> flat o 0 d = d.
Hypothesis flat_split : forall o m n d, 0 <= o -> 0 < m <= n -> J o n d ->
  J (o + m) (n - m) (flat o m d) /\ flat (o + m) (n - m) (flat o m d) = flat o n d.
Hypothesis flat_step : forall o m n d s,
  session d s -> J o n d -> 0 <= o -> 0 < m <= n -> o mod cs + m <= cs -> o + n <= MAX_CHUNK_COUNT * cs ->
  wp false (body (o / cs) (o mod cs) m) s (now_holds tt (flat o m d)).

Lemma range_loop_flat fuel o n d s :
  session d s -> J o n d -> 0 <= o -> 0 <= n -> o + n <= MAX_CHUNK_COUNT * cs ->
  n = 0 \/ o mod cs + n <= Z.of_nat fuel * cs ->
  wp false (range_loop fuel cs o n body) s (now_holds tt (flat o n d)).
Proof.
  revert o n d s. induction fuel as [|fuel IH]; intros o n d s Hs HJ Ho Hn Hfit Hf; simpl;
    destruct (divided o Ho) as (Hdiv & Hk & Hw).
  { assert (n = 0) as -> by lia. apply wp_ret. by rewrite flat_nil. }
  case_match eqn:Hz; autorewrite with bools in Hz.
  { assert (n = 0) as -> by lia. apply wp_ret. by rewrite flat_nil. }
  set (m := Z.min n (cs - o mod cs)). assert (0 < m <= n) as Hm by lia. destruct (flat_split o m n d Ho Hm HJ) as [HJ' Hflat].
  apply wp_bind. eapply wp_mono; [apply (flat_step o m n); [done..|unfold m; lia|done]|].
  intros r s1 [-> Hs1]. apply wp_bind, wp_of_result. unfold checked_add_u64.
  destruct (checked 0 u64_max (o + m)) as [o'|] eqn:Hc; simpl; [|apply checked_None in Hc; lia].
  apply checked_Some in Hc as [<- _]. rewrite <-Hflat. apply IH; [done..|lia|lia|lia|].
  destruct (decide (m = n)) as [->|Hmn]; [left; lia|right]. assert (m = cs - o mod cs) as Hmm by lia.
  replace (o + m) with ((o / cs + 1) * cs) by lia. rewrite Z_mod_mult. lia.
Qed.

Lemma for_chunks_flat o n d s :
  session d s -> J o n d -> 0 <= o -> 0 <= n -> o + n <= MAX_CHUNK_COUNT * cs ->
  wp false (for_chunks cs o n body) s (now_holds tt (flat o n d)).
Proof.
  intros Hs HJ Ho Hn Hfit. apply range_loop_flat; [done..|]. right.
  pose proof (Z.div_mod n cs ltac:(lia)). pose proof (Z.mod_pos_bound n cs Hcs). pose proof (Z.mod_pos_bound o cs Hcs).
  pose proof (Z.div_pos n cs Hn Hcs). nia.
Qed.
End ranges.

Lemma extend_ne n d : 0 < n -> extend_to n d <> [].
Proof. intros Hn He. apply (f_equal len) in He. rewrite length_extend in He. change (len (@nil ascii)) with 0 in He. lia. Qed.

Lemma extend_extend m n d : extend_to n (extend_to m d) = extend_to (Z.max m n) d.
Proof.
  apply bytes_ext; [rewrite !length_extend; lia|]. intros i _. by rewrite !byte_at_extend.
Qed.

Lemma extend_id n d : n <= len d -> extend_to n d = d.
Proof. intros Hn. unfold extend_to. case_match eqn:Hc; autorewrite with bools in Hc; [lia|done]. Qed.

(** Ranges that start within the file and are extended, padded or allocated. *)
Lemma extend_chunks_flat op o n d s operation :
  session d s -> 0 <= o <= len d -> 0 <= n -> o + n <= MAX_CHUNK_COUNT * cs ->
  (forall within m s' j, 0 <= within -> 0 <= m -> within + m <= cs ->
     file_op false j (operation j within m) (fun _ => True) (extend_to (within + m)) s') ->
  wp false (for_each_cow_range root w op cs o n operation) s (now_holds tt (extend_to (o + n) d)).
Proof.
  intros Hs Ho Hn Hfit Hop.
  apply (for_chunks_flat (fun o n => extend_to (o + n)) (fun o _ d => o <= len d)); try done; try lia.
  - intros o' d' Ho'. apply extend_id. lia.
  - intros o' m n' d' Ho' Hm Hd'. rewrite length_extend, extend_extend. split; [lia|]. f_equal. lia.
  - intros o' m n' d' s' Hs' Hd' Ho' Hm Hcm Hfit'. destruct (divided o' Ho') as (Hdiv & Hk & Hw).
    apply (wp_session_step d' s' op (o' / cs) _ (fun _ => True) (extend_to (o' + m)) (extend_to (o' mod cs + m)));
      [done|apply chunk_bound; lia| |done|..].
    + intros s'' j. apply Hop; lia.
    + replace (o' + m) with (o' / cs * cs + o' mod cs + m) by lia. apply local_extend; lia.
    + apply extend_ne. lia.
    + rewrite length_extend. pose proof (ses_size _ _ Hs'). lia.
Qed.

Lemma extend_flat op n d s :
  session d s -> 0 <= n -> len d + n <= MAX_CHUNK_COUNT * cs ->
  wp false (extend_cow_with_holes root w op cs (len d) n) s (now_holds tt (extend_to (len d + n) d)).
Proof.
  intros Hs Hn Hfit. pose proof (len_nonneg d). apply extend_chunks_flat; [done|lia..|].
  intros within m s' j Hw Hm Hcm. eapply mono_op; [apply pad_to_end_op|]. intros d' _. split; [|done].
  unfold is_u64, MAX_CHUNK_COUNT in *. lia.
Qed.

Lemma punch_punch o m n d : 0 <= o -> 0 < m <= n -> punch (o + m) (n - m) (punch o m d) = punch o n d.
Proof.
  intros Ho Hm. apply bytes_ext; [by rewrite !length_punch by lia|]. intros i _.
  rewrite !byte_at_punch by lia. repeat case_decide; try lia; done.
Qed.

Lemma punch_nil o d : punch o 0 d = d.
Proof. unfold punch. case_match eqn:Hc; autorewrite with bools in Hc; [lia|done]. Qed.

Lemma punch_flat op o n d s :
  session d s -> 0 <= o -> 0 <= n -> o + n <= len d ->
  wp false (for_each_cow_range root w op cs o n (fun file within m => fallocate file (punch within m))) s
    (now_holds tt (punch o n d)).
Proof.
  intros Hs Ho Hn Hfit. pose proof (ses_size _ _ Hs).
  apply (for_chunks_flat punch (fun o n d => o + n <= len d)); try done; try lia.
  - intros o' d' _. apply punch_nil.
  - intros o' m n' d' Ho' Hm Hd'. rewrite length_punch, punch_punch by lia. split; [lia|done].
  - intros o' m n' d' s' Hs' Hd' Ho' Hm Hcm Hfit'. destruct (divided o' Ho') as (Hdiv & Hk & Hw).
    apply (wp_session_step d' s' op (o' / cs) _ (fun _ => True) (punch o' m) (punch (o' mod cs) m));
      [done|apply chunk_bound; lia| |done|..].
    + intros s'' j. apply fallocate_op.
    + rewrite Hdiv at 2. apply local_punch; lia.
    + intros He. apply (f_equal len) in He. rewrite length_punch, length_chunk in He by lia.
      change (len (@nil ascii)) with 0 in He. lia.
    + rewrite length_punch by lia. apply Hs'.
Qed.

(** ** The operations *)

Lemma write_extended o data d : 0 <= o -> write_at o data (extend_to o d) = write_at o data d.
Proof.
  intros Ho. pose proof (len_nonneg data). apply bytes_ext; [rewrite !length_write, length_extend by done; lia|].
  intros i _. by rewrite !byte_at_write, byte_at_extend by done.
Qed.

Hypothesis Hvalid : validate_chunk_size cs = Ok tt.

Lemma wp_valid {B} (k : unit -> St B) s Q :
  wp false (k tt) s Q -> wp false (let! x := of_result (validate_chunk_size cs) in k x) s Q.
Proof. intros Hk. apply wp_bind, wp_of_result. by rewrite Hvalid. Qed.

(** Growing the file to [o], if it ends before it. *)
Lemma grow_flat op o d s :
  session d s -> 0 <= o <= MAX_CHUNK_COUNT * cs ->
  wp false (if len d <? o then extend_cow_with_holes root w op cs (len d) (o - len d) else ret tt) s
    (now_holds tt (extend_to o d)).
Proof.
  intros Hs Ho. case_match eqn:Hc; autorewrite with bools in Hc.
  - replace (extend_to o d) with (extend_to (len d + (o - len d)) d) by (f_equal; lia). apply extend_flat; [done|lia..].
  - apply wp_ret. by rewrite extend_id.
Qed.

Lemma write_flat op o data d s :
  session d s -> 0 <= o -> o + len data <= MAX_CHUNK_COUNT * cs ->
  wp false (write_cow_at root w op cs (len d) o data) s
    (now_holds (written (len d) (len (write_at o data d))) (write_at o data d)).
Proof.
  intros Hs Ho Hfit. pose proof (len_nonneg data). apply wp_valid, wp_bind, wp_of_result.
  unfold checked_add_u64. destruct (checked 0 u64_max (o + len data)) as [e|] eqn:He; simpl; [|apply checked_None in He; lia].
  apply checked_Some in He as [<- _]. apply wp_bind. eapply wp_mono; [apply grow_flat; [done|lia]|].
  intros r s1 [-> Hs1]. apply wp_bind. eapply wp_mono.
  { apply write_loop_flat; [exact Hs1|done|rewrite length_extend; lia|done]. }
  intros r s2 [-> Hs2]. apply wp_ret. rewrite write_extended in Hs2 by done. split; [|done].
  rewrite length_write by done. do 2 f_equal. lia.
Qed.

Lemma allocate_flat op o n d s :
  session d s -> 0 <= o -> 0 < n -> o + n <= MAX_CHUNK_COUNT * cs ->
  wp false (allocate_cow_range root w op cs (len d) o n) s
    (now_holds (written (len d) (len (extend_to (o + n) d))) (extend_to (o + n) d)).
Proof.
  intros Hs Ho Hn Hfit. apply wp_valid, wp_bind, wp_of_result. unfold checked_nonempty_range_end, checked_add_u64.
  rewrite (proj2 (Z.eqb_neq n 0)) by lia.
  destruct (checked 0 u64_max (o + n)) as [e|] eqn:He; simpl; [|apply checked_None in He; lia].
  apply checked_Some in He as [<- _]. apply wp_bind. eapply wp_mono; [apply grow_flat; [done|lia]|].
  intros r s1 [-> Hs1]. apply wp_bind. eapply wp_mono.
  { apply extend_chunks_flat; [exact Hs1|rewrite length_extend; lia|lia|done|].
    intros within m s' j Hw Hm Hcm. eapply mono_op.
    - apply (seq_op false j _ _ _ _ _ _ s' (pad_to_end_op false j within m s') (fallocate_op false j (extend_to (within + m)) s')).
    - intros d' _. cbv beta. rewrite extend_extend, Z.max_id. split; [|done]. unfold is_u64, MAX_CHUNK_COUNT in *. lia. }
  intros r s2 [-> Hs2]. apply wp_ret. rewrite extend_extend in Hs2. rewrite Z.max_r in Hs2 by lia. split; [|done].
  rewrite length_extend. do 2 f_equal. lia.
Qed.

Lemma punch_clip o n d : punch o (Z.min (o + n) (len d) - o) d = punch o n d.
Proof. unfold punch. replace (Z.min (o + (Z.min (o + n) (len d) - o)) (len d)) with (Z.min (o + n) (len d)) by lia. done. Qed.

Lemma deallocate_flat op o n d s :
  session d s -> 0 <= o -> 0 < n -> is_u64 (o + n) ->
  wp false (deallocate_cow_range root w op cs (len d) o n) s (now_holds (mkWritten (len d) 0) (punch o n d)).
Proof.
  intros Hs Ho Hn Hu. apply wp_valid, wp_bind, wp_of_result. unfold checked_nonempty_range_end, checked_add_u64.
  rewrite (proj2 (Z.eqb_neq n 0)) by lia.
  destruct (checked 0 u64_max (o + n)) as [e|] eqn:He; simpl; [|apply checked_None in He; unfold is_u64 in Hu; lia].
  apply checked_Some in He as [<- _]. apply wp_bind. rewrite <-punch_clip. case_match eqn:Hc; autorewrite with bools in Hc.
  - eapply wp_mono; [apply punch_flat; [exact Hs|lia..]|]. intros r s1 [-> Hs1]. by apply wp_ret.
  - apply wp_ret, wp_ret. split; [done|]. unfold punch.
    case_match eqn:Hp; autorewrite with bools in Hp; [lia|done].
Qed.

(** ** Truncation *)

Lemma elem_of_children s p c : c ∈ children s p <-> is_Some (names s !! (p ++ [c])).
Proof.
  unfold children. rewrite list_elem_of_omap. split.
  - intros ([q i] & Hq%elem_of_map_to_list & Hc). simpl in Hc. case_bool_decide as Hp; [|done].
    apply parent_dir_Some in Hp as [x ->]. rewrite last_snoc in Hc. simplify_eq. by exists i.
  - intros [i Hi]. exists (p ++ [c], i). split; [by apply elem_of_map_to_list|]. simpl.
    by rewrite parent_dir_snoc, bool_decide_true, last_snoc.
Qed.

Lemma NoDup_children s p : NoDup (children s p).
Proof.
  unfold children. pose proof (NoDup_map_to_list (names s)) as Hnd. pose proof (NoDup_fst_map_to_list (names s)) as Hk.
  induction (map_to_list (names s)) as [|[q i] l IH]; [constructor|]. rewrite NoDup_cons in Hnd.
  simpl in Hk. rewrite NoDup_cons in Hk. destruct Hk as [Hq Hk], Hnd as [_ Hnd]. specialize (IH Hnd Hk).
  simpl. case_bool_decide as Hp; [|done]. apply parent_dir_Some in Hp as [c ->]. rewrite last_snoc. constructor; [|done].
  rewrite list_elem_of_omap. intros ([q' i'] & Hq' & Hc). simpl in Hc. case_bool_decide as Hp'; [|done].
  apply parent_dir_Some in Hp' as [c' ->]. rewrite last_snoc in Hc. simplify_eq. apply Hq.
  apply list_elem_of_fmap. by exists (p ++ [c], i').
Qed.

Lemma trim_chunks r d k : 0 <= r -> 0 <= k ->
  chunk_of cs (take (Z.to_nat (r * cs)) d) k = if decide (k < r) then chunk_of cs d k else [].
Proof.
  intros Hr Hk. assert (0 <= k * cs) by nia. assert (0 <= r * cs) by nia.
  assert (len (take (Z.to_nat (r * cs)) d) = Z.min (r * cs) (len d)) as Hl by (unfold len; rewrite length_take; lia).
  apply bytes_ext.
  - rewrite length_chunk, Hl by done. case_decide; [rewrite length_chunk by done|change (len (@nil ascii)) with 0]; nia.
  - intros j Hj. rewrite byte_at_chunk, byte_at_take by done. destruct (decide (k < r)) as [Hkr|Hkr].
    + rewrite byte_at_chunk by done. repeat case_decide; try done. nia.
    + exfalso. pose proof (length_chunk cs Hcs (take (Z.to_nat (r * cs)) d) k Hk) as Hlc. rewrite Hl in Hlc.
      unfold len in *. nia.
Qed.

(** Cutting the last chunk that is left. *)
Lemma local_cut n d :
  0 < n <= len d -> let k := (n - 1) / cs in
  local cs k (resize n) (resize (n - k * cs)) (take (Z.to_nat ((k + 1) * cs)) d) /\
  resize n (take (Z.to_nat ((k + 1) * cs)) d) = resize n d.
Proof.
  intros Hn k. pose proof (divided (n - 1) ltac:(lia)) as (Hdiv & Hk & Hw). fold k in Hdiv, Hk.
  assert (resize n (take (Z.to_nat ((k + 1) * cs)) d) = resize n d) as Heq.
  { apply bytes_ext; [by rewrite !length_resize by lia|]. intros i _. rewrite !byte_at_resize, byte_at_take.
    repeat case_decide; try lia; done. }
  split; [|done]. assert (div_ceil n cs = k + 1) as Hceil.
  { unfold div_ceil. replace (n + cs - 1) with (n - 1 + 1 * cs) by lia. by rewrite Z.div_add by lia. }
  split.
  - rewrite Heq, truncate_chunks, trim_chunks by lia. rewrite decide_False by lia. by rewrite !decide_True by lia.
  - intros k' Hk' Hne. rewrite Heq, truncate_chunks, trim_chunks by lia. rewrite Hceil. fold k.
    repeat case_decide; try lia; done.
Qed.

Lemma session_frame d s s1 :
  session d s -> isolated root w s s1 -> (forall name, names s1 !! join cow_dir name = names s !! join cow_dir name) ->
  session d s1.
Proof.
  intros Hs Hiso Hn. split; [apply Hiso|by eapply ready_kept, Hs|apply Hs|..].
  - intros name i. rewrite Hn. apply (ses_names _ _ Hs).
  - intros k Hk. pose proof (ses_chunks _ _ Hs k Hk). case_decide; [by eapply missing_kept; [apply Hs|..]|by eapply secure_kept].
Qed.

Lemma session_opened d s s1 :
  session d s -> fs_wf s1 -> evolves [] [] s s1 ->
  (forall q, q ∉ shard_levels root "staging" w -> names s1 !! q = names s !! q) -> session d s1.
Proof.
  intros Hs Hwf1 Hev Hfr. eapply session_frame; [done|by apply isolated_evolves|].
  intros name. apply Hfr, in_session_not_level.
Qed.

(** While the entries [l] are left, those of the others beyond [r] are gone. *)
Definition trimming (r : Z) s l s' : Prop :=
  isolated root w s s' /\ NoDup l /\
  (forall name, name ∈ l -> names s' !! join cow_dir name = names s !! join cow_dir name /\ is_Some (names s !! join cow_dir name)) /\
  (forall name, name ∉ l -> names s' !! join cow_dir name =
     match parse_cow_chunk_name name with
     | Ok k => if decide (r <= k) then None else names s !! join cow_dir name
     | Err _ => names s !! join cow_dir name
     end).

Lemma trimmed_session r d s s' : 0 <= r -> session d s -> trimming r s [] s' -> session (take (Z.to_nat (r * cs)) d) s'.
Proof.
  intros Hr Hs (Hiso & _ & _ & Hn).
  split; [apply Hiso|by eapply ready_kept, Hs| |..].
  - pose proof (ses_size _ _ Hs). unfold len in *. rewrite length_take. lia.
  - intros name i Hi. destruct (ses_names _ _ Hs name i) as (k & Hk & ->); [|by eauto].
    rewrite Hn in Hi by set_solver. by destruct (parse_cow_chunk_name name); [case_decide|].
  - intros k Hk. rewrite trim_chunks by lia. specialize (Hn (cow_chunk_name k) ltac:(set_solver)).
    rewrite parse_chunk_name in Hn by done. pose proof (ses_chunks _ _ Hs k Hk) as Hc.
    destruct (decide (k < r)) as [Hkr|Hkr].
    + rewrite decide_False in Hn by lia. case_decide; [by eapply missing_kept; [apply Hs|..]|by eapply secure_kept].
    + rewrite decide_True by done. rewrite decide_True in Hn by lia. apply node_at_None; [apply Hiso|done].
Qed.

Lemma trim_keep r s name l s' :
  trimming r s (name :: l) s' ->
  (forall k, parse_cow_chunk_name name = Ok k -> k < r) -> trimming r s l s'.
Proof.
  intros (Hiso & Hnd & Hin & Hout) Hk. apply NoDup_cons in Hnd as [Hnl Hnd]. split; [done|]. split; [done|].
  split; [set_solver|]. intros name' Hn'. destruct (decide (name' = name)) as [->|Hne]; [|apply Hout; set_solver].
  rewrite (proj1 (Hin name ltac:(set_solver))). destruct (parse_cow_chunk_name name) as [k|]; [|done].
  rewrite decide_False; [done|]. specialize (Hk k eq_refl). lia.
Qed.

Lemma trim_remove r s name l s' k i n :
  trimming r s (name :: l) s' -> parse_cow_chunk_name name = Ok k -> r <= k ->
  node_at s' (join cow_dir name) = Some (i, n) -> is_directory n = false ->
  trimming r s l (set_names s' (delete (join cow_dir name) (names s'))).
Proof.
  intros (Hiso & Hnd & Hin & Hout) Hk Hr Hi Hn. apply NoDup_cons in Hnd as [Hnl Hnd].
  assert (forall name', name' <> name -> names (set_names s' (delete (join cow_dir name) (names s'))) !! join cow_dir name'
    = names s' !! join cow_dir name') as Hother.
  { intros name' Hne. simpl. rewrite lookup_delete_ne; [done|]. intros Heq. apply app_inj_tail in Heq as [_ Heq]. by subst. }
  split; [eapply isolated_trans; [exact Hiso|]; eapply isolated_delete; [apply Hiso|done..]|]. split; [done|]. split.
  - intros name' Hn'. rewrite Hother by (intros ->; done). apply Hin. set_solver.
  - intros name' Hn'. destruct (decide (name' = name)) as [->|Hne].
    + simpl. rewrite lookup_delete_eq, Hk. by rewrite decide_True.
    + rewrite Hother by done. apply Hout. set_solver.
Qed.

Context `{!ReaddirLaws}.

Lemma trim_flat r d s :
  session d s -> 0 <= r ->
  wp false (for_each_entry cow_dir (fun name =>
    let! number := of_result (parse_cow_chunk_name name) in
    if r <=? number then
      let! _ := verify_regular_file (join cow_dir name) in
      sys (sys_remove_file (join cow_dir name))
    else ret tt)) s (now_holds tt (take (Z.to_nat (r * cs)) d)).
Proof.
  intros Hs Hr. pose proof (ses_wf _ _ Hs) as Hwf. unfold for_each_entry. apply wp_bind, wp_sys; [done|].
  pose proof (ses_ready _ _ Hs) as (_ & _ & (i & n & Hi & Hn & _)). unfold sys_read_dir.
  rewrite (follow_node _ Hwf _ cow_dir i n Hi) by (intros t Ht; unfold is_directory in Hn; by rewrite Ht in Hn). simpl. rewrite Hn.
  eapply (wp_for_each _ _ (trimming r s)).
  - split; [by apply isolated_refl|]. split; [rewrite readdir_permutation; apply NoDup_children|].
    split; [intros name Hin; rewrite readdir_permutation, elem_of_children in Hin; done|].
    intros name Hin. rewrite readdir_permutation, elem_of_children in Hin.
    assert (names s !! join cow_dir name = None) as Hnone by (apply eq_None_not_Some; exact Hin).
    rewrite Hnone. destruct (parse_cow_chunk_name name); [by case_decide|done].
  - intros name l s' Htr. pose proof Htr as (Hiso & _ & Hin & _). destruct (Hin name ltac:(set_solver)) as [Hnm [j Hj]].
    destruct (ses_names _ _ Hs name j Hj) as (k & Hk & ->). apply wp_bind, wp_of_result. rewrite parse_chunk_name by done.
    case_match eqn:Hc; autorewrite with bools in Hc.
    + pose proof (ses_chunks _ _ Hs k Hk) as Hch. case_decide; [apply node_at_None in Hch; [unfold CowSessions.cow_chunk in Hch; congruence|done]|].
      pose proof (secure_kept _ _ _ _ Hiso Hnm Hch) as Hsec.
      eapply (wp_check_bind false s'); [apply verify_regular_file_checks; apply Hiso| |].
      2:{ intros e He. destruct (He eq_refl). by eexists. }
      intros _. pose proof Hsec as (x & m & u & q & Hx & _). apply wp_remove_file; [apply Hiso|..].
      * intros y z s'' Hy Hz _ _ ->. eapply trim_remove; [done|by apply parse_chunk_name|done..].
      * intros e He. destruct (He eq_refl). by eexists _, _.
    + apply wp_ret. eapply trim_keep; [done|]. intros k' Hk'. rewrite parse_chunk_name in Hk' by done. congruence.
  - intros s' Htr. split; [done|]. by eapply trimmed_session.
Qed.

Lemma truncate_flat op n d s :
  session d s -> 0 <= n <= MAX_CHUNK_COUNT * cs ->
  wp false (truncate_cow root w op cs (len d) n) s (now_holds (written (len d) n) (resize n d)).
Proof.
  intros Hs Hn. apply wp_valid, wp_bind. pose proof (ses_wf _ _ Hs) as Hwf.
  eapply (wp_mono _ _ _ (now_holds tt (resize n d))); [|intros r s' [-> Hs']; by apply wp_ret].
  destruct (len d <? n) eqn:Hlt; autorewrite with bools in Hlt.
  { eapply wp_mono; [apply extend_flat; [exact Hs|lia..]|]. intros r s' [-> Hs']. split; [done|].
    replace (len d + (n - len d)) with n in Hs' by lia. unfold extend_to in Hs'. by rewrite (proj2 (Z.ltb_lt _ _) Hlt) in Hs'. }
  destruct (n <? len d) eqn:Hgt; autorewrite with bools in Hgt.
  2:{ apply wp_ret. split; [done|]. assert (n = len d) as -> by lia. by rewrite resize_id. }
  apply wp_cow_directory; [done| |]; fold cow_dir.
  2:{ intros e s1 _ _ Hr. destruct (Hr eq_refl). apply Hs. }
  intros s1 Hwf1 Hev Hfr. pose proof (session_opened d s s1 Hs Hwf1 Hev Hfr) as Hs1.
  assert (forall d' s', session d' s' -> secure_dir s' cow_dir) as Hsec by (intros d' s' Hs'; apply own_secure, Hs').
  eapply (wp_check_bind false s1); [by apply verify_directory_checks| |intros e He; destruct (He eq_refl); by eapply Hsec].
  intros _. apply wp_bind. assert (0 <= div_ceil n cs) as Hceil by (unfold div_ceil; apply Z.div_pos; lia).
  eapply wp_mono; [by apply trim_flat|]. intros r s2 [-> Hs2]. apply wp_bind.
  eapply (wp_mono _ _ _ (now_holds tt (resize n d))).
  2:{ intros r s3 [-> Hs3]. eapply (wp_check false s3); [apply sync_directory_checks, Hs3|by intros|].
      intros e He. destruct (He eq_refl). by eapply Hsec. }
  destruct (0 <? n) eqn:Hpos; autorewrite with bools in Hpos.
  - destruct (local_cut n d ltac:(lia)) as [Hloc Heq]. set (k := (n - 1) / cs) in *.
    pose proof (divided (n - 1) ltac:(lia)) as (Hdiv & Hk & Hw). fold k in Hdiv, Hk.
    assert (div_ceil n cs = k + 1) as Hc.
    { unfold div_ceil. replace (n + cs - 1) with (n - 1 + 1 * cs) by lia. by rewrite Z.div_add by lia. }
    rewrite Hc in Hs2. rewrite <-Heq.
    apply (wp_session_step _ s2 op k _ (fun _ => True) (resize n) (resize (n - k * cs))); [done|apply chunk_bound; lia| |done|done|..].
    + intros s' j. apply update_op.
    + intros He. apply (f_equal len) in He. rewrite length_resize in He by lia. change (len (@nil ascii)) with 0 in He. lia.
    + rewrite length_resize by lia. lia.
  - apply wp_ret. split; [done|]. assert (n = 0) as -> by lia.
    replace (div_ceil 0 cs) with 0 in Hs2; [done|]. unfold div_ceil. symmetry. apply Z.div_small. lia.
Qed.
End flat_sessions.
