(* ===== verification/CowEngine.v ===== *)
(** The guarantees of copy-on-write sessions: isolation from everything that is
    already stored, and refinement of a flat file by sequences of operations. *)
From S2P Require Import Prelude Collections Libraries ConcreteCodecs Frames PosixFs StorageLayout StorageFacts StorageProofs.
From S2P Require Import StorageReads StorageCleanup StorageEngine Cow CowBytes CowFacts CowSessions CowFlat.
Open Scope string_scope.
Open Scope Z_scope.
Open Scope list_scope.
Open Scope bool_scope.

(** ** Mutations *)

(** The mutations a mount can request, and what they mean for a flat file. *)
Inductive CowOp :=
| OpWrite (offset : Z) (data : bytes)
| OpTruncate (new_size : Z)
| OpAllocate (offset length : Z)
| OpDeallocate (offset length : Z).

Definition flat_op (m : CowOp) (d : bytes) : bytes :=
  match m with
  | OpWrite o data => write_at o data d
  | OpTruncate n => resize n d
  | OpAllocate o n => extend_to (o + n) d
  | OpDeallocate o n => punch o n d
  end.

(** The operation stays below the largest file of [MAX_CHUNK_COUNT] chunks. *)
Definition fits (cs : Z) (m : CowOp) : Prop :=
  match m with
  | OpWrite o data => 0 <= o /\ o + len data <= MAX_CHUNK_COUNT * cs
  | OpTruncate n => 0 <= n <= MAX_CHUNK_COUNT * cs
  | OpAllocate o n => 0 <= o /\ 0 < n /\ o + n <= MAX_CHUNK_COUNT * cs
  | OpDeallocate o n => 0 <= o /\ 0 < n /\ is_u64 (o + n)
  end.

Section engine.
Context `{UuidLib, Blake3Lib, Readdir, SparseFs}.
Variable root : list string.

Definition run_op (w op : N) (cs current : Z) (m : CowOp) : St CowWriteResult :=
  match m with
  | OpWrite o data => write_cow_at root w op cs current o data
  | OpTruncate n => truncate_cow root w op cs current n
  | OpAllocate o n => allocate_cow_range root w op cs current o n
  | OpDeallocate o n => deallocate_cow_range root w op cs current o n
  end.

(** A sequence of requests, each under its own operation identifier, with the
    logical size the caller keeps. *)
Fixpoint run_ops (w : N) (cs current : Z) (ms : list (N * CowOp)) : St Z :=
  match ms with
  | [] => ret current
  | (op, m) :: rest =>
      let! r := run_op w op cs current m in
      run_ops w cs (logical_size r) rest
  end.

Lemma wp_run_op_isolated b s w op cs current m :
  fs_wf s -> wp b (run_op w op cs current m) s (fun _ s' => isolated root w s s').
Proof.
  intros Hwf. destruct m; simpl;
    [by apply write_isolated|by apply truncate_isolated|by apply allocate_isolated|by apply deallocate_isolated].
Qed.

Lemma wp_run_op_flat `{!SparseLaws, !ReaddirLaws} w op cs m d s :
  validate_chunk_size cs = Ok tt -> fits cs m -> session root w cs d s ->
  wp false (run_op w op cs (len d) m) s (fun r s' =>
    exists x, r = Ok x /\ logical_size x = len (flat_op m d) /\ session root w cs (flat_op m d) s').
Proof.
  intros Hv Hf Hs. pose proof (chunk_size_valid cs Hv) as Hcs. unfold MIN_CHUNK_SIZE, MAX_CHUNK_SIZE in Hcs.
  assert (0 < cs) as Hpos by lia. assert (MAX_CHUNK_COUNT * cs <= u64_max) as Hmax.
  { unfold MAX_CHUNK_COUNT, u64_max. lia. }
  destruct m as [o data|n|o n|o n]; simpl in *.
  - eapply wp_mono; [apply (write_flat root w cs); [done..|lia|lia]|]. intros r s' [-> Hs']. by eexists.
  - eapply wp_mono; [apply (truncate_flat root w cs); done|]. intros r s' [-> Hs']. eexists. split; [done|]. simpl.
    by rewrite length_resize by lia.
  - eapply wp_mono; [apply (allocate_flat root w cs); [done..|lia|lia|lia]|]. intros r s' [-> Hs']. by eexists.
  - eapply wp_mono; [apply (deallocate_flat root w cs); [done..|lia|lia|apply Hf]|]. intros r s' [-> Hs']. eexists. split; [done|]. simpl.
    by rewrite length_punch by lia.
Qed.

Lemma wp_run_ops_flat `{!SparseLaws, !ReaddirLaws} w cs ms d s :
  validate_chunk_size cs = Ok tt -> Forall (fun x => fits cs x.2) ms -> session root w cs d s ->
  wp false (run_ops w cs (len d) ms) s (fun r s' =>
    let d' := fold_left (fun d x => flat_op x.2 d) ms d in r = Ok (len d') /\ session root w cs d' s').
Proof.
  intros Hv. revert d s. induction ms as [|[op m] ms IH]; intros d s Hall Hs; simpl; [by apply wp_ret|].
  rewrite Forall_cons in Hall. destruct Hall as [Hf Hall]. apply wp_bind.
  eapply wp_mono; [by apply wp_run_op_flat|]. intros r s1 (x & -> & Hx & Hs1). rewrite Hx. by apply IH.
Qed.

(** C8. Copy-on-write mutations are isolated: whatever system calls fail, a
    write, truncation, allocation or deallocation changes no inode that existed
    before, so every file hard-linked into the session keeps its bytes, and no
    directory entry outside the session's own directory is removed, redirected
    or added, apart from new directories. *)
Theorem cow_mutations_isolated s faults w op cs current m :
  fs_wf s ->
  let s' := (outcome (run_op w op cs current m) s faults).2 in
  fs_wf s' /\ inodes s ⊆ inodes s' /\
  (forall p i, names s !! p = Some i -> ~ in_session root w p -> names s' !! p = Some i) /\
  (forall p i, names s' !! p = Some i -> names s !! p = Some i \/ in_session root w p \/ dir_at s' p).
Proof.
  intros Hwf. destruct (outcome_wp _ _ s faults _ (wp_run_op_isolated true s w op cs current m Hwf)) as [W I K N U]; [done|].
  done.
Qed.

(** C7. A session implements a flat file: starting from a session that holds the
    bytes [d], any sequence of writes, truncations, allocations and deallocations
    below the size limit succeeds without I/O failures, returns the size of the
    flat result, and leaves a session whose chunks are exactly the chunks of the
    flat result; gaps and holes read as zeros, and the sparse copy of every chunk
    is faithful on any file system that reports holes as documented. *)
Theorem cow_refines_flat_file `{!SparseLaws, !ReaddirLaws} w cs ms d s :
  validate_chunk_size cs = Ok tt -> Forall (fun x => fits cs x.2) ms -> session root w cs d s ->
  let d' := fold_left (fun d x => flat_op x.2 d) ms d in
  let '(r, s') := outcome (run_ops w cs (len d) ms) s [] in
  r = Ok (len d') /\ session root w cs d' s'.
Proof.
  intros Hv Hall Hs d'. destruct (outcome _ s []) as [r s'] eqn:Hout.
  pose proof (outcome_wp _ _ s [] _ (wp_run_ops_flat w cs ms d s Hv Hall Hs) ltac:(done)) as Hthm. by rewrite Hout in Hthm.
Qed.
End engine.

(** ** A small session *)

Module Demo.
Import Concrete.
#[local] Existing Instance StorageEngine.Demo.readdir.
Lemma readdir_laws : ReaddirLaws.
Proof. intros l. done. Qed.
#[local] Existing Instance readdir_laws.

(** A file system without holes. *)
#[local] Instance dense : SparseFs := {|
  seek_data s i o := if o <? len (file_data s i) then Ok o else Err NXIO;
  seek_hole s i o := Ok (len (file_data s i));
  fallocate_refused _ _ := None;
  st_blocks s i := div_ceil (len (file_data s i)) 512
|}.
#[local] Instance dense_laws : SparseLaws.
Proof.
  split.
  - intros s i o d. simpl. case_match; [|done]. intros [= <-]. split; [lia|]. intros k Hk. lia.
  - intros s i o. simpl. case_match eqn:Hc; [done|]. autorewrite with bools in Hc. intros _ k Hk. left.
    apply lookup_ge_None_2. unfold len in Hc. lia.
  - intros s i o e. simpl. case_match; congruence.
  - intros s i o d Ho. simpl. intros _ Hd. by exists (len (file_data s i)).
  - done.
Qed.

Definition root : list string := StorageEngine.Demo.root.
Definition writer : N := 7.
Definition session_dir : list string := cow_dir root writer.
Definition opened_session : Fs := StorageEngine.Demo.store
  [(["store"; "staging"], StorageEngine.Demo.dir); (["store"; "staging"; "00"], StorageEngine.Demo.dir);
   (["store"; "staging"; "00"; "00"], StorageEngine.Demo.dir); (session_dir, StorageEngine.Demo.dir);
   (session_dir ++ [cow_chunk_name 0], StorageEngine.Demo.file "hello")].

Definition only_entryb (s : Fs) (p : list string) (c : string) : bool :=
  forallb (fun kv => negb (bool_decide (path_parent_dir kv.1 = Some p)) || bool_decide (kv.1 = p ++ [c])) (map_to_list (names s)).
Lemma only_entry s p c name i : only_entryb s p c = true -> names s !! join p name = Some i -> name = c.
Proof.
  unfold only_entryb. rewrite forallb_forall. intros Hall Hi. specialize (Hall (join p name, i)).
  rewrite orb_true_iff, negb_true_iff, bool_decide_eq_false, bool_decide_eq_true in Hall. cbn [fst] in Hall.
  destruct Hall as [Hne|Heq].
  - by apply list_elem_of_In, elem_of_map_to_list.
  - destruct Hne. apply parent_dir_snoc.
  - by apply app_inj_tail in Heq as [_ ->].
Qed.

Lemma hello_session : session root writer MIN_CHUNK_SIZE (as_bytes "hello") opened_session.
Proof.
  assert (only_entryb opened_session (cow_dir root writer) (cow_chunk_name 0) = true) as Honly by (vm_compute; reflexivity).
  split; [holds|..].
  - split; [holds|]. split; [levels_hold|holds].
  - by vm_compute.
  - intros name i Hi. exists 0. split; [unfold MAX_CHUNK_COUNT; lia|]. exact (only_entry opened_session (cow_dir root writer) (cow_chunk_name 0) _ i Honly Hi).
  - intros k Hk. destruct (decide (k = 0)) as [->|Hne].
    + rewrite decide_False by (vm_compute; discriminate). change (chunk_of MIN_CHUNK_SIZE (as_bytes "hello") 0) with (as_bytes "hello").
      eexists 6%N, _, _, _. split; [vm_compute; reflexivity|]. split; [done|]. split; [vm_compute; reflexivity|].
      eexists _, _. split; [vm_compute; reflexivity|]. split; [vm_compute; reflexivity|reflexivity].
    + rewrite decide_True.
      * apply node_at_None; [holds|]. destruct (names opened_session !! cow_chunk root writer k) as [i|] eqn:Hi; [|reflexivity].
        exfalso. apply Hne, cow_chunk_name_inj; [exact Hk|unfold MAX_CHUNK_COUNT; lia|]. exact (only_entry opened_session (cow_dir root writer) (cow_chunk_name 0) _ i Honly Hi).
      * apply nil_length_inv. pose proof (length_chunk MIN_CHUNK_SIZE ltac:(done) (as_bytes "hello") k ltac:(lia)) as Hl.
        change (len (as_bytes "hello")) with 5 in Hl. unfold len, MIN_CHUNK_SIZE in *. lia.
Qed.

Lemma cow_mutations_isolated_witness :
  let s' := (outcome (run_op root writer 3 MIN_CHUNK_SIZE 5 (OpWrite 1 (as_bytes "ELL"))) opened_session [false; false; true]).2 in
  file_data s' 6%N = as_bytes "hello".
Proof.
  pose proof (cow_mutations_isolated root opened_session [false; false; true] writer 3 MIN_CHUNK_SIZE 5
    (OpWrite 1 (as_bytes "ELL")) ltac:(holds)) as (_ & Hino & _). cbv zeta in *.
  destruct (outcome _ _ _) as [r s']. cbn [snd] in *. unfold file_data.
  assert (inodes opened_session !! 6%N = Some (StorageEngine.Demo.file "hello")) as Hold by (vm_compute; reflexivity).
  rewrite (lookup_weaken _ _ _ _ Hold Hino). reflexivity.
Defined.

Definition requests : list (N * CowOp) :=
  [(3%N, OpWrite 1 (as_bytes "ELL")); (4%N, OpTruncate 300); (5%N, OpDeallocate 2 10)].

Lemma cow_refines_flat_file_witness :
  (outcome (run_ops root writer MIN_CHUNK_SIZE (len (as_bytes "hello")) requests) opened_session []).1 = Ok 300.
Proof.
  assert (Forall (fun x => fits MIN_CHUNK_SIZE x.2) requests) as Hfits by (repeat constructor; by vm_compute).
  pose proof (cow_refines_flat_file root writer MIN_CHUNK_SIZE requests (as_bytes "hello") opened_session eq_refl
    Hfits hello_session) as Hthm.
  revert Hthm.
  generalize (outcome (run_ops root writer MIN_CHUNK_SIZE (len (as_bytes "hello")) requests) opened_session []). intros [r s'] [Hr _].
  unfold requests in Hr. cbn [fold_left flat_op snd] in Hr. rewrite length_punch, length_resize in Hr by lia. exact Hr.
Defined.
End Demo.
