(* ===== verification/CowPublish.v ===== *)
(** Publication of a copy-on-write session: its manifest describes the flat file,
    and the directory moved into place is a completely stored chunked object. *)
From S2P Require Import Prelude Collections Libraries Frames PosixFs StorageLayout StorageFacts StorageProofs.
From S2P Require Import StorageReads StorageCleanup Cow CowBytes CowFacts CowSessions CowFlat.
Open Scope string_scope.
Open Scope Z_scope.
Open Scope list_scope.
Open Scope bool_scope.

(** ** Manifests *)

Section manifests.
Context `{UuidLib, Blake3Lib, Readdir, !ReaddirLaws}.
Variables (cs : Z) (d : bytes).
Hypothesis Hvalid : validate_chunk_size cs = Ok tt.
Hypothesis Hsize : len d <= MAX_CHUNK_COUNT * cs.
Implicit Types (s : Fs) (k : Z).

Definition chunk_count : Z := div_ceil (len d) cs.
Definition digest_of_chunk k : CowChunkDigest := mkChunkDigest k (len (chunk_of cs d k)) (blake3_hash (chunk_of cs d k)).
Definition manifest_of : CowManifest :=
  mkManifest (len d) (blake3_hash d) (map digest_of_chunk (seqZ 0 chunk_count)).

Lemma cs_pos : 0 < cs.
Proof. pose proof (chunk_size_valid cs Hvalid). unfold MIN_CHUNK_SIZE in *. lia. Qed.

Lemma chunk_count_spec k : 0 <= k -> k < chunk_count <-> k * cs < len d.
Proof.
  intros Hk. pose proof cs_pos. unfold chunk_count, div_ceil. split.
  - intros Hlt. pose proof (Z.div_mod (len d + cs - 1) cs ltac:(lia)). pose proof (Z.mod_pos_bound (len d + cs - 1) cs ltac:(lia)). nia.
  - intros Hlt. apply Z.lt_le_trans with (k + 1); [lia|]. apply Z.div_le_lower_bound; nia.
Qed.

Lemma chunk_count_bound : 0 <= chunk_count <= MAX_CHUNK_COUNT.
Proof.
  pose proof cs_pos. pose proof (len_nonneg d). unfold chunk_count, div_ceil. split; [apply Z.div_pos; lia|].
  apply Z.lt_succ_r, Z.div_lt_upper_bound; lia.
Qed.

Lemma chunk_present k : 0 <= k -> chunk_of cs d k <> [] <-> k < chunk_count.
Proof.
  intros Hk. pose proof cs_pos. pose proof (length_chunk cs cs_pos d k Hk) as Hl. rewrite chunk_count_spec by done. split.
  - intros Hne. assert (0 < len (chunk_of cs d k)) by (destruct (chunk_of cs d k); [done|unfold len; simpl; lia]). lia.
  - intros Hlt He. rewrite He in Hl. change (len (@nil ascii)) with 0 in Hl. lia.
Qed.

Lemma concat_chunks (n : nat) : concat (map (chunk_of cs d) (seqZ 0 (Z.of_nat n))) = take (Z.to_nat (Z.of_nat n * cs)) d.
Proof.
  pose proof cs_pos. induction n as [|n IH]; [done|].
  rewrite Nat2Z.inj_succ. unfold Z.succ. rewrite seqZ_app by lia. change (seqZ (0 + Z.of_nat n) 1) with [0 + Z.of_nat n].
  rewrite map_app, concat_app, IH. simpl. rewrite app_nil_r. unfold chunk_of, slice.
  replace (Z.to_nat ((Z.of_nat n + 1) * cs) - Z.to_nat (Z.of_nat n * cs))%nat with (Z.to_nat cs) by nia.
  rewrite take_take_drop. f_equal. nia.
Qed.

Lemma concat_all_chunks : concat (map (chunk_of cs d) (seqZ 0 chunk_count)) = d.
Proof.
  pose proof chunk_count_bound. pose proof cs_pos. rewrite <-(Z2Nat.id chunk_count), concat_chunks by lia.
  rewrite Z2Nat.id by lia. apply take_ge. pose proof (chunk_count_spec chunk_count ltac:(lia)) as Hc. unfold len in Hc. nia.
Qed.

(** A directory that holds exactly the chunks of [d]. *)
Record holds_chunks (dir : list string) s : Prop := {
  hc_wf : fs_wf s;
  hc_dir : secure_dir s dir;
  hc_names : forall name, is_Some (names s !! join dir name) <-> exists k, 0 <= k < chunk_count /\ name = cow_chunk_name k;
  hc_chunks : forall k, 0 <= k < chunk_count -> secure_file s (join dir (cow_chunk_name k)) (chunk_of cs d k)
}.

Lemma entries_count dir s : holds_chunks dir s -> len (readdir_order (children s dir)) = chunk_count.
Proof.
  intros Hh. pose proof chunk_count_bound as Hb. assert (readdir_order (children s dir) ≡ₚ map cow_chunk_name (seqZ 0 chunk_count)) as Hp.
  { rewrite readdir_permutation. apply NoDup_Permutation; [apply NoDup_children| |].
    - apply NoDup_fmap_2_strong; [|apply NoDup_seqZ]. intros k k' Hk%elem_of_seqZ Hk'%elem_of_seqZ. apply cow_chunk_name_inj; lia.
    - intros name. rewrite elem_of_children. fold (join dir name). rewrite (hc_names _ _ Hh). rewrite list_elem_of_fmap.
      split.
      + intros (k & Hk & ->). exists k. split; [done|]. apply elem_of_seqZ. lia.
      + intros (k & -> & Hk%elem_of_seqZ). exists k. split; [lia|done]. }
  unfold len. rewrite Hp, length_map, length_seqZ. lia.
Qed.

Lemma wp_map_each {A B} (f : A -> St B) (g : A -> B) l s :
  (forall x, x ∈ l -> wp false (f x) s (fun r s' => r = Ok (g x) /\ s' = s)) ->
  wp false (map_each f l) s (fun r s' => r = Ok (map g l) /\ s' = s).
Proof.
  induction l as [|x l IH]; intros Hf; simpl; [by apply wp_ret|]. apply wp_bind.
  eapply wp_mono; [apply Hf; set_solver|]. intros r s' [-> ->]. apply wp_bind.
  eapply wp_mono; [apply IH; set_solver|]. intros r s' [-> ->]. by apply wp_ret.
Qed.

Lemma expected_size k : 0 <= k < chunk_count -> expected_chunk_size cs (len d) chunk_count k = len (chunk_of cs d k).
Proof.
  intros Hk. pose proof cs_pos. rewrite length_chunk by lia. unfold expected_chunk_size.
  pose proof (proj1 (chunk_count_spec k ltac:(lia)) ltac:(lia)). case_match eqn:Hc; autorewrite with bools in Hc.
  - pose proof (chunk_count_spec (k + 1) ltac:(lia)). nia.
  - pose proof (proj1 (chunk_count_spec (k + 1) ltac:(lia)) ltac:(lia)). nia.
Qed.

Lemma wp_manifest_chunk dir s k :
  holds_chunks dir s -> 0 <= k < chunk_count ->
  wp false (manifest_chunk dir cs (len d) chunk_count k) s
    (fun r s' => r = Ok (chunk_of cs d k, digest_of_chunk k) /\ s' = s).
Proof.
  intros Hh Hk. pose proof (hc_chunks _ _ Hh k Hk) as Hsec. pose proof (hc_wf _ _ Hh) as Hwf. unfold manifest_chunk.
  eapply (wp_check_bind false s); [by apply verify_regular_file_checks| |intros e He; destruct (He eq_refl); by eexists].
  intros _. pose proof Hsec as (i & m & u & q & Hi & _). unfold open_file. apply wp_bind, wp_sys; [done|]. unfold sys_open.
  rewrite (follow_node _ Hwf _ _ i _ Hi) by done. simpl. apply wp_bind, wp_sys; [done|]. unfold sys_read_to_end.
  apply node_at_Some in Hi as [_ Hi]. rewrite Hi. simpl.
  rewrite expected_size, Z.eqb_refl by done. by apply wp_ret.
Qed.

Lemma wp_manifest dir s :
  holds_chunks dir s -> wp false (cow_manifest_in dir cs (len d)) s (fun r s' => r = Ok manifest_of /\ s' = s).
Proof.
  intros Hh. pose proof (hc_wf _ _ Hh) as Hwf. pose proof chunk_count_bound as Hb. unfold cow_manifest_in.
  apply wp_bind, wp_of_result. rewrite Hvalid.
  eapply (wp_check_bind false s); [by apply verify_directory_checks| |intros e He; destruct (He eq_refl); apply Hh].
  intros _. fold chunk_count. destruct (MAX_CHUNK_COUNT <? chunk_count) eqn:Hc; autorewrite with bools in Hc; [lia|].
  pose proof (hc_dir _ _ Hh) as (i & n & Hi & Hn & _). apply wp_bind, wp_sys; [done|]. unfold sys_read_dir.
  rewrite (follow_node _ Hwf _ dir i n Hi) by (intros t Ht; unfold is_directory in Hn; by rewrite Ht in Hn). simpl. rewrite Hn.
  rewrite entries_count, Z.eqb_refl by done. simpl. apply wp_bind.
  eapply wp_mono; [apply (wp_map_each _ (fun k => (chunk_of cs d k, digest_of_chunk k)))|].
  - intros k Hk%elem_of_seqZ. apply wp_manifest_chunk; [done|lia].
  - intros r s' [-> ->]. apply wp_ret. split; [|done]. rewrite !map_map. simpl. unfold manifest_of.
    do 2 f_equal. exact (f_equal blake3_hash concat_all_chunks).
Qed.
End manifests.

(** ** Moving a session into place *)

Section moving.
Implicit Types (s : Fs) (src dst q : list string).

Lemma same_length_prefix p q : length p = length q -> p <> q -> is_prefix p q = false.
Proof.
  intros Hl Hne. apply is_prefix_false. intros r ->. rewrite length_app in Hl. destruct r; [by rewrite app_nil_r in Hne|].
  simpl in Hl. lia.
Qed.

Lemma shorter_prefix p q : (length q < length p)%nat -> is_prefix p q = false.
Proof. intros Hl. apply is_prefix_false. intros r ->. rewrite length_app in Hl. lia. Qed.

Definition moved s src dst : Fs := set_names s (move_tree src dst (names s)).

Lemma moved_node s src dst :
  is_prefix src dst = false -> is_prefix dst src = false ->
  (forall r, node_at (moved s src dst) (dst ++ r) = node_at s (src ++ r)) /\
  node_at (moved s src dst) src = None /\
  (forall q, is_prefix src q = false -> is_prefix dst q = false -> node_at (moved s src dst) q = node_at s q).
Proof.
  intros Hsd Hds. assert (forall q, node_at (moved s src dst) q =
    match move_tree src dst (names s) !! q with Some i => match inodes s !! i with Some n => Some (i, n) | None => None end | None => None end) as Hn by done.
  split; [|split].
  - intros r. rewrite Hn. destruct (move_tree_lookup src dst (names s) [] Hsd Hds) as (H1 & _). by rewrite H1.
  - rewrite Hn. destruct (move_tree_lookup src dst (names s) [] Hsd Hds) as (_ & H2 & _). specialize (H2 []).
    rewrite app_nil_r in H2. by rewrite H2.
  - intros q Hq1 Hq2. rewrite Hn. destruct (move_tree_lookup src dst (names s) q Hsd Hds) as (_ & _ & H3). by rewrite H3.
Qed.

(** Every node was somewhere before. *)
Lemma moved_origin s src dst q x : node_at (moved s src dst) q = Some x -> exists q', node_at s q' = Some x.
Proof.
  destruct x as [i n]. intros [Hq Hi]%node_at_Some. simpl in Hq, Hi. apply move_tree_Some in Hq as (k & Hk & _).
  exists k. by apply node_at_Some.
Qed.
End moving.

Section publication.
Context `{UuidLib, Blake3Lib, Readdir, SparseFs, !ReaddirLaws}.
Variables (root : list string) (w : N) (cs : Z) (p : PayloadRecord).
Hypothesis Hvalid : validate_chunk_size cs = Ok tt.
Implicit Types (s : Fs) (d : bytes).

Abbreviation src := (cow_dir root w).
Abbreviation dst := (payload_destination root p).
Abbreviation object_levels := (shard_levels root "chunks" (p_locator p)).

Lemma session_holds d s : session root w cs d s -> holds_chunks cs d src s.
Proof.
  intros Hs. pose proof (ses_size _ _ _ _ _ Hs) as Hsize. pose proof (chunk_count_bound cs d Hvalid Hsize).
  assert (forall k, 0 <= k < chunk_count cs d -> secure_file s (cow_chunk root w k) (chunk_of cs d k)) as Hc.
  { intros k Hk. pose proof (ses_chunks _ _ _ _ _ Hs k ltac:(lia)) as Hc.
    rewrite decide_False in Hc; [done|]. apply chunk_present; [done|lia..]. }
  split; [apply Hs|apply own_secure, Hs| |done]. intros name. split.
  - intros [i Hi]. destruct (ses_names _ _ _ _ _ Hs name i Hi) as (k & Hk & ->). exists k. split; [|done].
    pose proof (ses_chunks _ _ _ _ _ Hs k Hk) as Hck. case_decide as He.
    + apply node_at_None in Hck; [|apply Hs]. unfold CowSessions.cow_chunk in Hck. congruence.
    + apply chunk_present in He; [lia|done|done|lia].
  - intros (k & Hk & ->). destruct (Hc k Hk) as (i & m & u & q & [Hi _]%node_at_Some & _). by exists i.
Qed.

Lemma area_disjoint q : q ∈ object_levels -> q ∉ shard_levels root "staging" w.
Proof.
  unfold shard_levels, levels, join. rewrite <-!app_assoc. simpl. intros Ha Hb. set_unfold.
  destruct Ha as [->|[->|[->|[]]]], Hb as [Hb|[Hb|[Hb|[]]]]; apply app_inv_head in Hb; discriminate Hb.
Qed.

Lemma src_dst_apart : p_layout p = "chunked" -> is_prefix src dst = false /\ is_prefix dst src = false.
Proof.
  intros Hl. assert (src <> dst) as Hne.
  { unfold cow_dir, payload_destination, shard_leaf, leaf, join, payload_area. rewrite Hl. simpl. rewrite <-!app_assoc. simpl.
    intros Heq. apply app_inv_head in Heq. discriminate Heq. }
  assert (length src = length dst) as Hlen.
  { unfold cow_dir, payload_destination, shard_leaf, leaf, join. rewrite !length_app. simpl. lia. }
  split; apply same_length_prefix; done || by apply not_eq_sym.
Qed.

(** The session can be published as the payload [p]. *)
Record publishable_session d s : Prop := {
  pb_session : session root w cs d s;
  pb_layout : p_layout p = "chunked";
  pb_free : node_at s dst = None;
  pb_umask : usual_umask s;
  pb_levels : Forall (free_or_own s) object_levels;
  pb_evidence : validate_cow_payload_evidence p (manifest_of cs d) (manifest_of cs d) = Ok tt
}.

(** The object is in place, and the session is gone. *)
Record published_object d s s' : Prop := {
  po_wf : fs_wf s';
  po_root : own_dir s' root;
  po_levels : Forall (free_or_own s') object_levels;
  po_chunks : holds_chunks cs d dst s';
  po_gone : node_at s' src = None;
  po_files : forall q x, node_at s' q = Some x -> is_directory x.2 = false -> exists q', node_at s q' = Some x
}.

Lemma dst_join : p_layout p = "chunked" ->
  dst = join (shard_leaf root "chunks" (p_locator p)) (uuid_hyphenated (p_locator p)).
Proof. intros Hl. unfold payload_destination, payload_area. by rewrite Hl. Qed.

Lemma leaf_in_levels area l : shard_leaf root area l ∈ shard_levels root area l.
Proof. unfold shard_leaf, shard_levels, leaf, levels. set_solver. Qed.

Lemma level_short area l q : q ∈ shard_levels root area l -> (length q < length src)%nat /\ (length q < length dst)%nat.
Proof.
  intros Hq%levels_length. unfold cow_dir, payload_destination, shard_leaf, leaf, join. rewrite !length_app. simpl. lia.
Qed.

(** Files are not created by making directories. *)
Lemma evolved_file s s' q x :
  fs_wf s -> evolves [] [] s s' -> node_at s' q = Some x -> is_directory x.2 = false -> node_at s q = Some x.
Proof.
  intros Hwf Hev Hq Hx. destruct x as [i n]. pose proof (evolves_file_old _ _ _ _ _ _ _ Hev Hq Hx ltac:(set_solver)) as Hold.
  destruct (wf_ino s Hwf q i Hold) as [n' Hn']. apply node_at_Some in Hq as [_ Hi]. apply node_at_Some. split; [done|].
  rewrite (lookup_weaken _ _ _ _ Hn' (ev_inodes _ _ _ _ Hev)) in Hi. by simplify_eq.
Qed.

Lemma moved_published d s :
  session root w cs d s -> p_layout p = "chunked" -> node_at s dst = None ->
  Forall (free_or_own s) object_levels -> own_dir s (shard_leaf root "chunks" (p_locator p)) ->
  published_object d s (moved s src dst).
Proof.
  intros Hs Hl Hfree Hlev Hleaf. destruct (src_dst_apart Hl) as [Hsd Hds]. destruct (moved_node s src dst Hsd Hds) as (Hnew & Hgone & Hother).
  pose proof (session_holds d s Hs) as [Hwf Hdir Hnames Hchunks]. pose proof (Hnew []) as Hnew0. rewrite !app_nil_r in Hnew0.
  assert (forall q, (length q < length src)%nat -> (length q < length dst)%nat -> node_at (moved s src dst) q = node_at s q) as Hshort.
  { intros q Hq1 Hq2. apply Hother; by apply shorter_prefix. }
  assert (forall q, (length q < length src)%nat -> (length q < length dst)%nat -> own_dir s q -> own_dir (moved s src dst) q) as Hown.
  { intros q Hq1 Hq2 (i & n & Hi & ?). exists i, n. by rewrite Hshort. }
  assert (fs_wf (moved s src dst)) as Hwf'.
  { eapply wf_move_tree; [done|apply dst_join, Hl| |done..].
    destruct Hleaf as (i & n & Hi & Hn & _). by exists i, n. }
  split; [done|..|done|].
  - apply Hown; [..|apply Hs]; unfold cow_dir, payload_destination, shard_leaf, leaf, join; rewrite !length_app; simpl; lia.
  - rewrite Forall_forall in Hlev |- *. intros q Hq. pose proof (level_short _ _ q Hq) as [? ?].
    destruct (Hlev q Hq) as [Hq'|Hq']; [left; by rewrite Hshort|right; by apply Hown].
  - split; [done|..].
    + destruct Hdir as (i & n & Hi & ?). exists i, n. by rewrite Hnew0.
    + intros name. rewrite <-Hnames. unfold join. specialize (Hnew [name]). split; intros [i Hi].
      * destruct (wf_ino _ Hwf' _ _ Hi) as [n Hn]. rewrite (proj2 (node_at_Some _ _ _ _) (conj Hi Hn)) in Hnew.
        symmetry in Hnew. apply node_at_Some in Hnew as [Hnew _]. by exists i.
      * destruct (wf_ino _ Hwf _ _ Hi) as [n Hn]. rewrite (proj2 (node_at_Some _ _ _ _) (conj Hi Hn)) in Hnew.
        apply node_at_Some in Hnew as [Hnew _]. by exists i.
    + intros k Hk. destruct (Hchunks k Hk) as (i & m & u & q & Hi & Hm & Hq & (x & y & Hx & Hy & Hxy)).
      pose proof (parent_dir_snoc src (cow_chunk_name k)) as Hq'. unfold join in *. assert (q = src) as -> by congruence.
      exists i, m, u, dst. unfold join. rewrite Hnew. split; [done|]. split; [done|]. split; [apply parent_dir_snoc|].
      exists x, y. rewrite Hnew. split; [done|]. by rewrite Hnew0.
  - intros q x Hq _. by eapply moved_origin.
Qed.

Lemma levels_not_session q : q ∈ object_levels -> ~ in_session root w q.
Proof.
  intros Hq [name ->]. apply level_short in Hq as [Hq _]. unfold join in Hq. rewrite length_app in Hq. simpl in Hq. lia.
Qed.

(** Opening both directories leaves the session as it is. *)
Lemma wp_open_both d s {B} (k : list string -> list string -> St B) Q :
  publishable_session d s ->
  (forall s2, session root w cs d s2 -> Forall (free_or_own s2) object_levels -> node_at s2 dst = None ->
     own_dir s2 (shard_leaf root "chunks" (p_locator p)) -> evolves [] [] s s2 -> wp false (k src dst) s2 Q) ->
  wp false (let! source := cow_directory root w in let! destination := payload_path root p in k source destination) s Q.
Proof.
  intros [Hs Hl Hfree Humask Hlev Hev'] Hk. pose proof (ses_wf _ _ _ _ _ Hs) as Hwf.
  apply wp_cow_directory; [done| |intros e s1 _ _ Hr; destruct (Hr eq_refl); apply Hs].
  intros s1 Hwf1 Hev Hfr. pose proof (session_opened root w cs d s s1 Hs Hwf1 Hev Hfr) as Hs1.
  assert (Forall (free_or_own s1) object_levels) as Hlev1.
  { rewrite Forall_forall in Hlev |- *. intros q Hq.
    apply (free_or_own_frame s s1 (shard_levels root "staging" w) q Hwf Hwf1 Hev Hfr (Hlev q Hq)). by apply area_disjoint. }
  apply wp_bind. eapply wp_mono; [apply wp_payload_path; [done|by right]|].
  assert (payload_area p = "chunks") as Harea by (unfold payload_area; by rewrite Hl). rewrite Harea.
  intros r s2 [(Hwf2 & Hev2 & Hfr2 & Hd2 & Hlive & Hfree2) Hr].
  destruct (Hlive eq_refl) as [Hok Hown]; [apply Hs1|done|]. destruct r as [x|e]; [|done]. rewrite (Hr x eq_refl).
  assert (forall q, (length root + 3 < length q)%nat -> names s2 !! q = names s !! q) as Hlong.
  { intros q Hq. rewrite Hfr2, Hfr; [done|..]; intros Hin%levels_length; lia. }
  apply Hk; [..|done|by eapply evolves_trans].
  - eapply session_frame; [exact Hs1|by apply isolated_evolves|]. intros name. apply Hfr2. intros Hin.
    by apply (levels_not_session _ Hin); exists name.
  - eapply Forall_impl; [exact Hlev1|]. intros q. apply Hfree2. unfold usual_umask. by rewrite (ev_umask _ _ _ _ Hev).
  - apply node_at_None; [done|]. rewrite Hlong; [by apply node_at_None|].
    unfold payload_destination, shard_leaf, leaf, join. rewrite !length_app. simpl. lia.
Qed.

Lemma src_join : src = join (shard_leaf root "staging" w) (uuid_hyphenated w +:+ ".cow").
Proof. reflexivity. Qed.

(** The rename of the session directory onto the free destination. *)
Lemma rename_moves d s :
  session root w cs d s -> p_layout p = "chunked" -> node_at s dst = None ->
  own_dir s (shard_leaf root "chunks" (p_locator p)) -> sys_rename src dst s = Ok (tt, moved s src dst).
Proof.
  intros Hs Hl Hfree Hleaf. pose proof (ses_wf _ _ _ _ _ Hs) as Hwf. destruct (src_dst_apart Hl) as [Hsd _].
  pose proof (hc_dir _ _ _ _ (session_holds d s Hs)) as (i & n & Hi & Hn & _). unfold sys_rename.
  rewrite (lookup_path_node s src _ Hwf Hi). simpl. assert (entry_parent dst s = Ok tt) as ->.
  { apply entry_parent_Ok; [done|]. eexists _, _. split; [by apply dst_join|]. by apply secure_dir_at, own_secure. }
  simpl. by rewrite Hfree, Hn, Hsd.
Qed.

Lemma wp_sync_rename_parents s :
  fs_wf s -> p_layout p = "chunked" ->
  secure_dir s (shard_leaf root "staging" w) -> secure_dir s (shard_leaf root "chunks" (p_locator p)) ->
  wp false (sync_rename_parents src dst) s (fun r s' => r = Ok tt /\ s' = s).
Proof.
  intros Hwf Hl Hsrc Hdst. unfold sync_rename_parents, parent. rewrite src_join, (dst_join Hl). unfold join.
  apply wp_bind, wp_of_result. rewrite (parent_dir_snoc (shard_leaf root "staging" w)). simpl.
  apply wp_bind, wp_of_result. rewrite (parent_dir_snoc (shard_leaf root "chunks" (p_locator p))). simpl.
  eapply (wp_check_bind false s); [by apply sync_directory_checks|intros _|by intros e He; destruct (He eq_refl)].
  case_bool_decide; [by apply wp_ret|].
  eapply (wp_check false s); [by apply sync_directory_checks|by intros|by intros e He; destruct (He eq_refl)].
Qed.

Lemma leaf_kept d s area l :
  session root w cs d s -> p_layout p = "chunked" ->
  own_dir s (shard_leaf root area l) -> own_dir (moved s src dst) (shard_leaf root area l).
Proof.
  intros Hs Hl (i & n & Hi & ?). destruct (src_dst_apart Hl) as [Hsd Hds].
  destruct (moved_node s src dst Hsd Hds) as (_ & _ & Hother). exists i, n.
  rewrite Hother; [done|apply shorter_prefix; by eapply level_short, leaf_in_levels..].
Qed.

(** Publishing a session that matches its evidence. *)
Lemma wp_publish_cow d s :
  publishable_session d s ->
  wp false (publish_cow root w p cs (manifest_of cs d)) s (fun r s' =>
    r = Ok (mkFinalized (blake3_hash d) (len d)) /\ published_object d s s').
Proof.
  intros Hp. pose proof Hp as [Hs Hl _ _ _ Hevid]. unfold publish_cow. rewrite Hl. simpl.
  apply wp_open_both with d; [done|]. intros s2 Hs2 Hlev Hfree Hleaf Hev. pose proof (ses_wf _ _ _ _ _ Hs2) as Hwf2.
  pose proof (session_holds d s2 Hs2) as Hh. pose proof (hc_dir _ _ _ _ Hh) as (i & n & Hi & _).
  assert (own_dir s2 (shard_leaf root "staging" w)) as Hsrc.
  { destruct (ses_ready _ _ _ _ _ Hs2) as (_ & Hlv & _). rewrite Forall_forall in Hlv. by apply Hlv, leaf_in_levels. }
  apply wp_bind. rewrite src_join at 1. apply wp_path_kind_in; [done|by apply secure_dir_at, own_secure| | |done];
    rewrite <-src_join; [intros _ _|congruence].
  apply wp_bind. rewrite (dst_join Hl) at 1. apply wp_path_kind_in; [done|by apply secure_dir_at, own_secure| | |done];
    rewrite <-(dst_join Hl); [congruence|intros _].
  apply wp_bind, wp_bind. eapply wp_mono; [apply wp_manifest; [done|apply Hs2|exact Hh]|]. intros r s' [-> ->].
  apply wp_bind, wp_of_result. rewrite Hevid. apply wp_bind, wp_sys; [done|]. rewrite (rename_moves d s2) by done.
  pose proof (moved_published d s2 Hs2 Hl Hfree Hlev Hleaf) as [Hwf3 Hroot3 Hlev3 Hc3 Hg3 Hf3].
  apply wp_bind. eapply wp_mono; [apply wp_sync_rename_parents; [done..| |]; by eapply own_secure, leaf_kept|].
  intros r s' [-> ->]. apply wp_ret, wp_ret. split; [done|]. split; [done..|].
  intros q x Hq Hx. destruct (Hf3 q x Hq Hx) as [q' Hq']. exists q'. by eapply evolved_file; [apply Hs|..].
Qed.
End publication.
