(* ===== verification/CowRoundtrip.v ===== *)
(** From a published session back to its bytes: the object that publication moves
    into place is read by the verified range reads. *)
From S2P Require Import Prelude Collections Libraries ConcreteCodecs Frames PosixFs StorageLayout StorageFacts StorageProofs.
From S2P Require Import StorageReads StorageCleanup StorageEngine Cow CowBytes CowFacts CowSessions CowFlat.
From S2P Require Import CowEngine CowPublish.
Open Scope string_scope.
Open Scope Z_scope.
Open Scope list_scope.
Open Scope bool_scope.

Section reading.
Context `{UuidLib, Blake3Lib, Readdir, SparseFs, !ReaddirLaws}.
Variables (root : list string) (w : N) (cs : Z).
Hypothesis Hvalid : validate_chunk_size cs = Ok tt.
Implicit Types (s : Fs) (d : bytes) (p : PayloadRecord).

(** The rows a publication records for its chunks. *)
Definition recorded_chunks (m : CowManifest) : list CowBaseChunk :=
  map (fun c => mkBaseChunk (cd_chunk_number c) (cd_size c) (cd_digest c)) (mf_chunks m).

Abbreviation contents d := (map (chunk_of cs d) (seqZ 0 (chunk_count cs d))).

Lemma recorded_forall d (P : CowBaseChunk -> Prop) :
  (forall k, 0 <= k < chunk_count cs d -> P (mkBaseChunk k (len (chunk_of cs d k)) (blake3_hash (chunk_of cs d k)))) ->
  Forall P (recorded_chunks (manifest_of cs d)).
Proof.
  intros HP. unfold recorded_chunks, manifest_of. simpl. rewrite map_map. apply Forall_fmap, Forall_forall.
  intros k Hk%elem_of_seqZ. apply (HP k). lia.
Qed.

Lemma recorded_pins d s :
  (forall k, 0 <= k < chunk_count cs d -> pins s (len (chunk_of cs d k)) (blake3_hash (chunk_of cs d k)) (chunk_of cs d k)) ->
  Forall2 (fun c x => pins s (bc_size c) (bc_digest c) x) (recorded_chunks (manifest_of cs d)) (contents d).
Proof.
  intros HP. unfold recorded_chunks, manifest_of. simpl. rewrite map_map. apply Forall2_fmap, Forall_Forall2_diag, Forall_forall.
  intros k Hk%elem_of_seqZ. apply (HP k). lia.
Qed.

Lemma recorded_numbered d : len d <= MAX_CHUNK_COUNT * cs -> numbered 0 (recorded_chunks (manifest_of cs d)).
Proof.
  intros Hsize. pose proof (chunk_count_bound cs d Hvalid Hsize) as Hb. unfold recorded_chunks, manifest_of. simpl. rewrite map_map.
  assert (forall (n : nat) (k : nat), Z.of_nat k + Z.of_nat n <= chunk_count cs d ->
    numbered k (map (fun k => mkBaseChunk k (len (chunk_of cs d k)) (blake3_hash (chunk_of cs d k))) (seqZ (Z.of_nat k) (Z.of_nat n)))) as Hgen.
  { induction n as [|n IH]; intros k Hk; [done|]. rewrite seqZ_cons by lia. simpl.
    split; [done|]. split; [unfold MAX_CHUNK_COUNT in *; lia|]. split.
    - assert (chunk_of cs d (Z.of_nat k) <> []) as Hne by (apply chunk_present; [done|lia..]).
      unfold len. destruct (chunk_of cs d (Z.of_nat k)); [done|simpl; lia].
    - replace (Z.succ (Z.of_nat k)) with (Z.of_nat (S k)) by lia. replace (Z.pred (Z.of_nat (S n))) with (Z.of_nat n) by lia.
      apply IH. lia. }
  rewrite <-(Z2Nat.id (chunk_count cs d)) by lia. apply (Hgen _ 0%nat). lia.
Qed.

Lemma recorded_total d : len d <= MAX_CHUNK_COUNT * cs -> sizes_total (recorded_chunks (manifest_of cs d)) = len d.
Proof.
  intros Hsize. rewrite <-(concat_all_chunks cs d Hvalid Hsize) at 2. unfold recorded_chunks, manifest_of. simpl. rewrite map_map.
  induction (seqZ 0 (chunk_count cs d)) as [|k l IH]; cbn [map concat]; [done|]. rewrite len_app, <-IH. reflexivity.
Qed.

(** The published object is completely stored. *)
Lemma published_stored d p p' s s' :
  len d <= MAX_CHUNK_COUNT * cs -> p_layout p = "chunked" -> p_layout p' = "chunked" -> p_locator p' = p_locator p ->
  p_size_bytes p' = len d ->
  published_object root w cs p d s s' -> object_stored root s' p' (recorded_chunks (manifest_of cs d)).
Proof.
  intros Hsize Hl Hl' Hloc Hlen [Hwf Hroot Hlev Hc _ _].
  assert (payload_destination root p' = payload_destination root p) as Hdest.
  { unfold payload_destination, payload_area. by rewrite Hl, Hl', Hloc. }
  split; [done|]. rewrite Hloc, Hdest. split; [done|]. split; [apply Hc|]. split; [by apply recorded_numbered|].
  split; [by rewrite recorded_total|]. apply recorded_forall. intros k Hk. exists (chunk_of cs d k). split; [|done].
  by apply (hc_chunks _ _ _ _ Hc).
Qed.

Lemma published_pins d p s s' size digest x :
  published_object root w cs p d s s' -> pins s size digest x -> pins s' size digest x.
Proof.
  intros Hpub [Hl Hu]. split; [done|]. intros q i d' m u Hq. destruct (po_files _ _ _ _ _ _ _ Hpub q _ Hq eq_refl) as [q' Hq'].
  by eapply Hu.
Qed.

(** C9. Publication keeps the bytes: without I/O failures, a session that holds
    the flat file [d] and matches its evidence is published with the digest and
    the size of [d], and every verified range read of the published object, by
    the chunk rows of its manifest, then succeeds and returns exactly the bytes
    [start..=end] of [d]. *)
Theorem published_session_reads_back p p' d s start end_ :
  publishable_session root w cs p d s ->
  (forall k, 0 <= k < chunk_count cs d ->
     pins s (len (chunk_of cs d k)) (blake3_hash (chunk_of cs d k)) (chunk_of cs d k)) ->
  p_layout p' = "chunked" -> p_locator p' = p_locator p -> p_size_bytes p' = len d -> 0 <= start -> start <= end_ < len d ->
  let '(r1, s1) := outcome (publish_cow root w p cs (manifest_of cs d)) s [] in
  let '(r2, s2) := outcome (verified_chunked_object_segments root p' (recorded_chunks (manifest_of cs d)) start end_) s1 [] in
  r1 = Ok (mkFinalized (blake3_hash d) (len d)) /\
  exists segments, r2 = Ok segments /\ read_segments s2 segments = slice start (end_ + 1) d.
Proof.
  intros Hpub Hpins Hl' Hloc Hlen Hstart Hrange. pose proof (ses_size _ _ _ _ _ (pb_session _ _ _ _ _ _ Hpub)) as Hsize.
  pose proof (outcome_wp _ _ s [] _ (wp_publish_cow root w cs p Hvalid d s Hpub) ltac:(done)) as [Hr1 Hpo].
  destruct (outcome (publish_cow _ _ _ _ _) s []) as [r1 s1]. cbn [fst snd] in *.
  pose proof (published_stored d p p' s s1 Hsize (pb_layout _ _ _ _ _ _ Hpub) Hl' Hloc Hlen Hpo) as Hst.
  pose proof (wp_verified_chunked root false s1 p' (recorded_chunks (manifest_of cs d)) (contents d) start end_) as Hread.
  apply outcome_wp with (faults := []) in Hread; [|apply Hpo|lia|apply recorded_forall; intros; apply len_nonneg|
    apply recorded_pins; intros k Hk; by eapply published_pins, Hpins|done].
  destruct (outcome (verified_chunked_object_segments _ _ _ _ _) s1 []) as [r2 s2]. cbn [fst snd] in *.
  destruct Hread as [Hread Hlive]. split; [done|]. destruct Hlive as [segs ->]; [done..| |lia|done|].
  - rewrite Hlen. pose proof (chunk_size_valid cs Hvalid). unfold is_i64, i64_min, i64_max, MAX_CHUNK_SIZE, MAX_CHUNK_COUNT in *. lia.
  - exists segs. split; [done|]. destruct (Hread segs eq_refl) as [-> _]. by rewrite concat_all_chunks.
Qed.
End reading.

(** ** The small session, published *)

Module Demo.
Import Concrete.
Import CowEngine.Demo.
#[local] Existing Instance StorageEngine.Demo.readdir.
#[local] Existing Instance readdir_laws.
#[local] Existing Instance dense.

Definition pending : PayloadRecord := mkPayload 1 2 3 4 5 "chunked" "pending" 0 None.
Definition published : PayloadRecord := mkPayload 1 2 3 4 5 "chunked" "ready" 5 None.

Lemma hello_publishable : publishable_session root writer MIN_CHUNK_SIZE pending (as_bytes "hello") opened_session.
Proof.
  split; [exact hello_session|reflexivity|vm_compute; reflexivity|vm_compute; reflexivity|levels_hold|vm_compute; reflexivity].
Qed.

Lemma published_session_reads_back_witness :
  exists segments,
    (outcome (publish_cow root writer pending MIN_CHUNK_SIZE (manifest_of MIN_CHUNK_SIZE (as_bytes "hello"))) opened_session []).1
      = Ok (mkFinalized (blake3_hash (as_bytes "hello")) 5) /\
    read_segments (outcome (verified_chunked_object_segments root published
        (recorded_chunks (manifest_of MIN_CHUNK_SIZE (as_bytes "hello"))) 1 3)
      (outcome (publish_cow root writer pending MIN_CHUNK_SIZE (manifest_of MIN_CHUNK_SIZE (as_bytes "hello"))) opened_session []).2 []).2
      segments = as_bytes "ell".
Proof.
  pose proof (published_session_reads_back root writer MIN_CHUNK_SIZE eq_refl pending published (as_bytes "hello") opened_session 1 3
    hello_publishable) as Hthm.
  revert Hthm. generalize (outcome (publish_cow root writer pending MIN_CHUNK_SIZE (manifest_of MIN_CHUNK_SIZE (as_bytes "hello"))) opened_session []).
  intros [r1 s1]. cbn [fst snd].
  generalize (outcome (verified_chunked_object_segments root published (recorded_chunks (manifest_of MIN_CHUNK_SIZE (as_bytes "hello"))) 1 3) s1 []).
  intros [r2 s2] Hthm. cbn [fst snd]. destruct Hthm as (Hr1 & segs & _ & Hread); [|reflexivity..|lia|vm_compute; intuition congruence|].
  - intros k Hk. assert (k = 0) as -> by (change (chunk_count MIN_CHUNK_SIZE (as_bytes "hello")) with 1 in Hk; lia).
    split; [reflexivity|]. intros q i d' m u [_ Hi]%node_at_Some Hl Hh.
    assert (forallb (fun kv => match i_kind kv.2 with KFile x => bool_decide (x = as_bytes "hello") | _ => true end)
              (map_to_list (inodes opened_session)) = true) as Hall by (vm_compute; reflexivity).
    rewrite forallb_forall in Hall. specialize (Hall (i, mkInode (KFile d') m u)). cbn [snd i_kind] in Hall.
    apply (bool_decide_eq_true_1 _), Hall. apply list_elem_of_In, elem_of_map_to_list. exact Hi.
  - exists segs. split; [exact Hr1|]. rewrite Hread. vm_compute. reflexivity.
Defined.
End Demo.
