(* ===== verification/CowLock.v ===== *)
(** The per-session advisory locks of copy-on-write sessions: [lock_cow] with its
    shard coordinator, the terminal removal of a lock file, and the release of a
    guard, as interleaved system calls of any number of processes. *)
From S2P Require Import Prelude Collections Libraries ConcreteCodecs PosixFs StorageLayout Cow.
Open Scope string_scope.
Open Scope Z_scope.
Open Scope list_scope.
Open Scope bool_scope.

Section lock_names.
Context `{UuidLib}.

Definition COW_LOCK_COORDINATOR : string := ".cow-lock-coordinator".
Definition lock_name (write_session_id : N) : string := "." +:+ uuid_hyphenated write_session_id +:+ ".cow.lock".

Lemma lock_name_inj `{!UuidLaws} w w' : is_uuid w -> is_uuid w' -> lock_name w = lock_name w' -> w = w'.
Proof.
  unfold lock_name. intros Hw Hw' Heq. apply (f_equal as_bytes) in Heq. rewrite !as_bytes_app in Heq.
  apply app_inv_head, app_inv_tail, as_bytes_inj in Heq. pose proof (uuid_parse_hyphenated w Hw) as Hp.
  rewrite Heq, uuid_parse_hyphenated in Hp by done. congruence.
Qed.

Lemma lock_name_no_coordinator `{!UuidLaws} w : lock_name w <> COW_LOCK_COORDINATOR.
Proof.
  unfold lock_name, COW_LOCK_COORDINATOR. intros Heq. apply (f_equal as_bytes) in Heq. rewrite !as_bytes_app in Heq.
  pose proof (uuid_hyphenated_alphabet w) as Ha. destruct (as_bytes (uuid_hyphenated w)) as [|a [|b l]] eqn:Hb; simpl in Heq; [done..|].
  injection Heq as _ Hb' _. specialize (Ha b ltac:(set_solver)). subst b. done.
Qed.
End lock_names.

(** ** Processes *)

(** Where a process stands. [c] is the inode of its open coordinator, [l] that of
    its open lock file. *)
Inductive Stage :=
| Opening
| Entering (c : N)
| Locating (c : N)
| Located (c l : N)
| Waiting (l : N)
| Rechecking (l : N)
| Reentering (l c : N)
| Comparing (l c : N)
| Compared (l c : N) (current_matches : bool)
| Retrying (l : N)
| Held (l : N)
| Removing (l : N)
| RemovalEntering (l c : N)
| RemovalComparing (l c : N)
| Unlinking (l c : N)
| Syncing (l c : N)
| Unlocking (l c : N)
| Leaving (c : N)
| Closing (files : list N).

(** The shard directory, the inodes that pass the checks on type, mode and owner,
    the holder of each inode's [flock(2)] lock, and the processes with their
    sessions. *)
Record Locks := mkLocks {
  lk_names : gmap string N;
  lk_secure : gset N;
  lk_flock : gmap N nat;
  lk_agents : gmap nat (N * Stage)
}.

(** What the scheduler and the kernel decide: a system call that proceeds, the
    inode of a created file with whether it passes the checks, a failing
    [symlink_metadata], any other failure or the end of the process, the order in
    which files are closed, and what the holder does with the guard. *)
Inductive Move :=
| Go
| Create (x : N) (secure : bool)
| StatError
| Crash
| Close (x : N)
| Release
| Remove.

Definition open_files (st : Stage) : list N :=
  match st with
  | Opening => []
  | Entering c | Locating c | Leaving c => [c]
  | Located c l | Reentering l c | Comparing l c | Compared l c _ | RemovalEntering l c | RemovalComparing l c
  | Unlinking l c | Syncing l c | Unlocking l c => [c; l]
  | Waiting l | Rechecking l | Retrying l | Held l | Removing l => [l]
  | Closing files => files
  end.

(** The effect of one system call. *)
Inductive Outcome :=
| Quiet
| Made (name : string) (x : N) (secure : bool)
| Locked (x : N)
| Unlocked (x : N)
| Unlinked (name : string).

Definition is_free (s : Locks) (x : N) : bool :=
  forallb (fun kv => negb (N.eqb kv.2 x)) (map_to_list (lk_names s))
  && forallb (fun kv => negb (bool_decide (x ∈ open_files kv.2.2))) (map_to_list (lk_agents s)).

Definition apply_effect (i : nat) (e : Outcome) (s : Locks) : Locks :=
  match e with
  | Quiet => s
  | Made name x secure =>
      mkLocks (<[name := x]> (lk_names s)) (if secure then {[x]} ∪ lk_secure s else lk_secure s ∖ {[x]}) (lk_flock s) (lk_agents s)
  | Locked x => mkLocks (lk_names s) (lk_secure s) (<[x := i]> (lk_flock s)) (lk_agents s)
  | Unlocked x =>
      mkLocks (lk_names s) (lk_secure s) (if bool_decide (lk_flock s !! x = Some i) then delete x (lk_flock s) else lk_flock s) (lk_agents s)
  | Unlinked name => mkLocks (delete name (lk_names s)) (lk_secure s) (lk_flock s) (lk_agents s)
  end.

Definition set_agent (i : nat) (a : option (N * Stage)) (s : Locks) : Locks :=
  mkLocks (lk_names s) (lk_secure s) (lk_flock s) (partial_alter (fun _ => a) i (lk_agents s)).

(** [open_cow_lock_file]: open or create, then check the metadata. A file that
    fails the check is closed with the files already open. *)
Definition open_cow_lock_file (s : Locks) (name : string) (m : Move) (held : list N) (k : N -> Stage) : option (Outcome * Stage) :=
  match lk_names s !! name, m with
  | Some x, Go => Some (Quiet, if bool_decide (x ∈ lk_secure s) then k x else Closing (x :: held))
  | None, Create x secure => if is_free s x then Some (Made name x secure, if secure then k x else Closing (x :: held)) else None
  | _, _ => None
  end.

(** A blocking [flock(LOCK_EX)]. *)
Definition flock (s : Locks) (x : N) (m : Move) (st : Stage) : option (Outcome * Stage) :=
  match lk_flock s !! x, m with None, Go => Some (Locked x, st) | _, _ => None end.

Section steps.
Context `{UuidLib}.

(** One system call of [lock_cow]. *)
Definition lock_cow_step (s : Locks) (w : N) (st : Stage) (m : Move) : option (Outcome * Stage) :=
  match st, m with
  | Opening, _ => open_cow_lock_file s COW_LOCK_COORDINATOR m [] Entering
  | Entering c, _ => flock s c m (Locating c)
  | Locating c, _ => open_cow_lock_file s (lock_name w) m [c] (Located c)
  | Located c l, Go => Some (Unlocked c, Waiting l)
  | Waiting l, _ => flock s l m (Rechecking l)
  | Rechecking l, _ => open_cow_lock_file s COW_LOCK_COORDINATOR m [l] (Reentering l)
  | Reentering l c, _ => flock s c m (Comparing l c)
  | Comparing l c, Go => Some (Quiet, Compared l c (bool_decide (lk_names s !! lock_name w = Some l) && bool_decide (l ∈ lk_secure s)))
  | Comparing l c, StatError => Some (Quiet, Compared l c false)
  | Compared l c current_matches, Go => Some (Unlocked c, if current_matches then Held l else Retrying l)
  | Retrying l, Go => Some (Unlocked l, Opening)
  | _, _ => None
  end.

(** One system call of [CowLockGuard::remove_current_inode]. *)
Definition remove_current_inode_step (s : Locks) (w : N) (st : Stage) (m : Move) : option (Outcome * Stage) :=
  match st, m with
  | Removing l, _ => open_cow_lock_file s COW_LOCK_COORDINATOR m [l] (RemovalEntering l)
  | RemovalEntering l c, _ => flock s c m (RemovalComparing l c)
  | RemovalComparing l c, Go =>
      Some (Quiet, match lk_names s !! lock_name w with
                   | None => Unlocking l c
                   | Some x => if N.eqb x l && bool_decide (x ∈ lk_secure s) then Unlinking l c else Closing [c; l]
                   end)
  | Unlinking l c, Go =>
      match lk_names s !! lock_name w with Some _ => Some (Unlinked (lock_name w), Syncing l c) | None => None end
  | Syncing l c, Go => Some (Quiet, Unlocking l c)
  | Unlocking l c, Go => Some (Unlocked l, Leaving c)
  | Leaving c, Go => Some (Unlocked c, Closing [])
  | _, _ => None
  end.

(** The guard in its holder's hands, and files closed on the way out. *)
Definition guard_step (st : Stage) (m : Move) : option (Outcome * Stage) :=
  match st, m with
  | Held l, Release => Some (Unlocked l, Closing [])
  | Held l, Remove => Some (Quiet, Removing l)
  | Closing files, Close x => if bool_decide (x ∈ files) then Some (Unlocked x, Closing (filter (fun y => y <> x) files)) else None
  | _, _ => None
  end.

Definition next (s : Locks) (w : N) (st : Stage) (m : Move) : option (Outcome * Stage) :=
  match st, m with
  | Closing _, Crash => None
  | _, Crash => Some (Quiet, Closing (open_files st))
  | _, _ =>
      match st with
      | Held _ | Closing _ => guard_step st m
      | Removing _ | RemovalEntering _ _ | RemovalComparing _ _ | Unlinking _ _ | Syncing _ _ | Unlocking _ _ | Leaving _ =>
          remove_current_inode_step s w st m
      | _ => lock_cow_step s w st m
      end
  end.

(** A process calls [lock_cow], makes one system call, or is done. *)
Inductive lock_step : Locks -> Locks -> Prop :=
| step_start s i w : is_uuid w -> lk_agents s !! i = None -> lock_step s (set_agent i (Some (w, Opening)) s)
| step_next s i w st m e st' :
    lk_agents s !! i = Some (w, st) -> next s w st m = Some (e, st') ->
    lock_step s (set_agent i (Some (w, st')) (apply_effect i e s))
| step_done s i w : lk_agents s !! i = Some (w, Closing []) -> lock_step s (set_agent i None s).

(** Before any process starts, the directory may already hold lock files, of
    which no two are one inode. *)
Definition quiescent (s : Locks) : Prop :=
  lk_flock s = ∅ /\ lk_agents s = ∅ /\
  (forall n n' x, lk_names s !! n = Some x -> lk_names s !! n' = Some x -> n = n').
Inductive lock_reachable : Locks -> Prop :=
| reach_initial s : quiescent s -> lock_reachable s
| reach_step s s' : lock_reachable s -> lock_step s s' -> lock_reachable s'.
End steps.

(** ** Invariant *)

Section invariant.
Context `{UuidLib, !UuidLaws}.
Implicit Types (s : Locks) (i j : nat) (w x c l : N) (st : Stage) (e : Outcome).

Definition coordinator_of st : option N :=
  match st with
  | Entering c | Locating c | Leaving c | Located c _ | Reentering _ c | Comparing _ c | Compared _ c _ | RemovalEntering _ c
  | RemovalComparing _ c | Unlinking _ c | Syncing _ c | Unlocking _ c => Some c
  | _ => None
  end.
Definition lock_of st : option N :=
  match st with
  | Located _ l | Reentering l _ | Comparing l _ | Compared l _ _ | RemovalEntering l _ | RemovalComparing l _
  | Unlinking l _ | Syncing l _ | Unlocking l _ | Waiting l | Rechecking l | Retrying l | Held l | Removing l => Some l
  | _ => None
  end.
(** The inodes a process surely holds locked, and those it may. *)
Definition must_hold st : list N :=
  match st with
  | Locating c | Located c _ | Leaving c => [c]
  | Rechecking l | Reentering l _ | Retrying l | Held l | Removing l | RemovalEntering l _ => [l]
  | Comparing l c | Compared l c _ | RemovalComparing l c | Unlinking l c | Syncing l c | Unlocking l c => [l; c]
  | _ => []
  end.
Definition may_hold st : list N := match st with Closing files => files | _ => must_hold st end.
(** The lock file at the path was seen to be the one held, or is removed. *)
Definition verified_lock st : option N :=
  match st with
  | Compared l _ true | Held l | Removing l | RemovalEntering l _ | Unlinking l _ | RemovalComparing l _ => Some l
  | _ => None
  end.
Definition removed st : bool := match st with Syncing _ _ | Unlocking _ _ => true | _ => false end.
(** The process owns the guard. *)
Definition guarding st : bool :=
  match st with
  | Held _ | Removing _ | RemovalEntering _ _ | RemovalComparing _ _ | Unlinking _ _ | Syncing _ _ | Unlocking _ _ => true
  | _ => false
  end.

Record agent_ok s i w st : Prop := {
  ag_uuid : is_uuid w;
  ag_coordinator : forall c, coordinator_of st = Some c -> lk_names s !! COW_LOCK_COORDINATOR = Some c;
  ag_lock : forall l n, lock_of st = Some l -> lk_names s !! n = Some l -> n = lock_name w;
  ag_holds : forall x, x ∈ must_hold st -> lk_flock s !! x = Some i;
  ag_verified : forall l, verified_lock st = Some l -> lk_names s !! lock_name w = Some l;
  ag_removed : removed st = true -> lk_names s !! lock_name w = None
}.

Record locks_ok s : Prop := {
  ok_names : forall n n' x, lk_names s !! n = Some x -> lk_names s !! n' = Some x -> n = n';
  ok_agents : forall i w st, lk_agents s !! i = Some (w, st) -> agent_ok s i w st;
  ok_flock : forall x i, lk_flock s !! x = Some i -> exists w st, lk_agents s !! i = Some (w, st) /\ x ∈ may_hold st
}.

Lemma is_free_spec s x : is_free s x = true ->
  (forall n, ~ (lk_names s !! n = Some x)) /\ (forall i w st, lk_agents s !! i = Some (w, st) -> x ∉ open_files st).
Proof.
  unfold is_free. rewrite andb_true_iff, !forallb_forall. intros [Hn Ha]. split.
  - intros n Hx. specialize (Hn (n, x)). rewrite negb_true_iff, N.eqb_neq in Hn. apply Hn; [|done].
    by apply list_elem_of_In, elem_of_map_to_list.
  - intros i w st Hst. specialize (Ha (i, (w, st))). rewrite negb_true_iff, bool_decide_eq_false in Ha. apply Ha.
    by apply list_elem_of_In, elem_of_map_to_list.
Qed.

Lemma lock_open st l : lock_of st = Some l -> l ∈ open_files st.
Proof. destruct st; simpl; intros [= <-]; set_solver. Qed.

(** When process [i] may cause the effect [e] without harm to process [j]. *)
Definition harmless s (i : nat) e (j : nat) (w : N) st : Prop :=
  match e with
  | Quiet => True
  | Made name x _ => lk_names s !! name = None /\ ~ x ∈ open_files st /\ (name = lock_name w -> removed st = false)
  | Locked x => lk_flock s !! x = None
  | Unlocked x => i <> j \/ x ∉ must_hold st
  | Unlinked name => name <> COW_LOCK_COORDINATOR /\ (name = lock_name w -> verified_lock st = None)
  end.

Lemma agent_ok_effect s i e j w st : harmless s i e j w st -> agent_ok s j w st -> agent_ok (apply_effect i e s) j w st.
Proof.
  intros Hh [Hu Hc Hl Hm Hv Hr]. destruct e as [|name x sec|x|x|name]; simpl in *; [by split|..].
  - destruct Hh as (Hnone & Hopen & Hrem). split; simpl; [done|..|done| |].
    + intros c Hc'. rewrite lookup_insert_ne; [by apply Hc|]. intros ->. by rewrite (Hc c Hc') in Hnone.
    + intros l n Hl' [[-> ->]|[_ Hn]]%lookup_insert_Some; [by apply lock_open in Hl'|by eapply Hl].
    + intros l Hl'. rewrite lookup_insert_ne; [by apply Hv|]. intros ->. by rewrite (Hv l Hl') in Hnone.
    + intros Hr'. rewrite lookup_insert_ne; [by apply Hr|]. intros Heq. by rewrite (Hrem Heq) in Hr'.
  - split; simpl; [done..| |done|done]. intros y Hy. rewrite lookup_insert_ne; [by apply Hm|]. intros ->. by rewrite (Hm y Hy) in Hh.
  - split; simpl; [done..| |done|done]. intros y Hy. case_bool_decide as Ho; [|by apply Hm].
    rewrite lookup_delete_ne; [by apply Hm|]. intros ->. destruct Hh as [Hne|Hh]; [|done]. rewrite (Hm y Hy) in Ho. congruence.
  - destruct Hh as [Hne Hver]. split; simpl; [done|..|done| |].
    + intros c Hc'. rewrite lookup_delete_ne by done. by apply Hc.
    + intros l n Hl' [_ Hn]%lookup_delete_Some. by eapply Hl.
    + intros l Hl'. rewrite lookup_delete_ne; [by apply Hv|]. intros ->. by rewrite Hver in Hl'.
    + intros Hr'. apply lookup_delete_None. right. by apply Hr.
Qed.

(** What can be told from the effect of a system call. *)
Lemma next_effect s w st m e st' : next s w st m = Some (e, st') ->
  match e with
  | Made name x _ => lk_names s !! name = None /\ is_free s x = true /\
                     (name = COW_LOCK_COORDINATOR \/ name = lock_name w /\ exists c, st = Locating c)
  | Locked x => lk_flock s !! x = None
  | Unlinked name => name = lock_name w /\ exists l c, st = Unlinking l c
  | _ => True
  end.
Proof.
  destruct st, m; simpl; unfold open_cow_lock_file, flock; intros Hn; repeat case_match; simplify_eq; eauto 10.
Qed.

Lemma verified_held st l : verified_lock st = Some l -> l ∈ must_hold st.
Proof. destruct st; simpl; try done; try (intros [= <-]; set_solver). destruct current_matches; [|done]. intros [= <-]. set_solver. Qed.

Lemma removed_holds st : removed st = true -> exists c, coordinator_of st = Some c /\ c ∈ must_hold st.
Proof. destruct st; try done; intros _; exists c; set_solver. Qed.

Lemma next_harmless s i w st m e st' j w' st2 :
  locks_ok s -> lk_agents s !! i = Some (w, st) -> next s w st m = Some (e, st') -> i <> j ->
  lk_agents s !! j = Some (w', st2) -> harmless s i e j w' st2.
Proof.
  intros Hok Hi Hn Hne Hj. pose proof (ok_agents _ Hok _ _ _ Hi) as Ai. pose proof (ok_agents _ Hok _ _ _ Hj) as Aj.
  apply next_effect in Hn. destruct e as [|name x sec|x|x|name]; simpl; [done|..|done|by left|].
  - destruct Hn as (Hnone & [_ Hfree]%is_free_spec & Hname). split; [done|]. split; [by eapply Hfree|].
    intros ->. destruct (removed st2) eqn:Hr; [|done]. destruct Hname as [Hc|[_ [c ->]]]; [by apply lock_name_no_coordinator in Hc|].
    destruct (removed_holds _ Hr) as (c' & Hc' & Hm). pose proof (ag_coordinator _ _ _ _ Ai c eq_refl) as Hci.
    rewrite (ag_coordinator _ _ _ _ Aj c' Hc') in Hci. simplify_eq.
    pose proof (ag_holds _ _ _ _ Aj c Hm) as H3. rewrite (ag_holds _ _ _ _ Ai c) in H3 by set_solver. by simplify_eq.
  - destruct Hn as (-> & l & c & ->). split; [apply lock_name_no_coordinator|]. intros Heq.
    destruct (verified_lock st2) as [l'|] eqn:Hv; [|done]. pose proof (ag_verified _ _ _ _ Aj l' Hv) as Hl'.
    rewrite <-Heq, (ag_verified _ _ _ _ Ai l eq_refl) in Hl'. simplify_eq.
    pose proof (ag_holds _ _ _ _ Aj l' (verified_held _ _ Hv)) as H3. rewrite (ag_holds _ _ _ _ Ai l') in H3 by set_solver. by simplify_eq.
Qed.

Lemma lock_not_coordinator s i w st l c :
  agent_ok s i w st -> lock_of st = Some l -> lk_names s !! COW_LOCK_COORDINATOR = Some c -> l <> c.
Proof. intros Ha Hl Hc ->. exact (lock_name_no_coordinator w (eq_sym (ag_lock _ _ _ _ Ha c _ Hl Hc))). Qed.

(** The process itself after its system call. *)
Lemma next_self s i w st m e st' :
  locks_ok s -> lk_agents s !! i = Some (w, st) -> next s w st m = Some (e, st') -> agent_ok (apply_effect i e s) i w st'.
Proof.
  intros Hok Hi Hn. pose proof (ok_agents _ Hok _ _ _ Hi) as Ha. pose proof (lock_not_coordinator s i w st) as Hdiff.
  assert (forall n n' x, lk_names s !! n = Some x -> lk_names s !! n' = Some x -> n = n') as Hinj by apply Hok.
  pose proof (lock_name_no_coordinator w) as Hlc.
  assert (forall x, is_free s x = true -> (forall n, ~ (lk_names s !! n = Some x)) /\ ~ x ∈ open_files st) as Hfree.
  { intros x [Hx1 Hx2]%is_free_spec. split; [done|]. by eapply Hx2. }
  assert (forall l c, lock_of st = Some l -> coordinator_of st = Some c -> l <> c) as Hdiff'.
  { intros l c Hl Hc. eapply Hdiff; [done..|]. by apply Ha. }
  clear Hok Hi. destruct Ha as [Hu Hc Hl Hm Hv Hr].
  destruct st, m; simpl in Hn; unfold open_cow_lock_file, flock in Hn; repeat case_match; simplify_eq.
  all: split; simpl; try done; intros; simplify_eq; set_unfold; destruct_or?; simplify_map_eq; try done; eauto.
  all: try (apply Hm; set_solver).
  all: try (rewrite lookup_insert_ne by (done || by apply not_eq_sym); by eauto).
  all: try (rewrite lookup_insert_ne by (apply not_eq_sym; by eauto); apply Hm; set_solver).
  all: try (case_bool_decide; [|done]; rewrite lookup_delete_ne by (by eauto || (apply not_eq_sym; by eauto)); apply Hm; set_solver).
  all: try match goal with Hx : <[_ := _]> _ !! _ = Some _ |- _ => apply lookup_insert_Some in Hx as [[<- <-]|[_ Hx]]; by naive_solver end.
  all: try match goal with Hx : delete _ _ !! _ = Some _ |- _ => apply lookup_delete_Some in Hx as [_ Hx]; by eauto end.
  - match goal with Hx : <[_ := _]> _ !! _ = Some _ |- _ => apply lookup_insert_Some in Hx as [[<- _]|[_ Hx]]; [done|] end.
    exfalso. by eapply (proj1 (Hfree l ltac:(done))).
  - destruct (bool_decide (lk_names s !! lock_name w = Some l)) eqn:Hb; simpl in *; [|done]. apply bool_decide_eq_true in Hb.
    by destruct (bool_decide (l ∈ lk_secure s)); simplify_eq.
Qed.

(** The inodes a process may hold after its system call are still locked by it
    only if it did not release them. *)
Lemma next_may_hold s i w st m e st' x :
  next s w st m = Some (e, st') -> lk_flock (apply_effect i e s) !! x = Some i ->
  (lk_flock s !! x = Some i -> x ∈ may_hold st) -> x ∈ may_hold st'.
Proof.
  intros Hn Hx Hold.
  destruct st, m; simpl in Hn; unfold open_cow_lock_file, flock in Hn; repeat case_match; simplify_eq; simpl in *;
    rewrite ?lookup_insert_Some in Hx; try (case_bool_decide; rewrite ?lookup_delete_Some in Hx);
    rewrite ?list_elem_of_filter; set_unfold; try naive_solver.
Qed.

Lemma agent_ok_set s i a j w st : agent_ok s j w st -> agent_ok (set_agent i a s) j w st.
Proof. by intros [? ? ? ? ? ?]. Qed.

Lemma set_agent_Some s i a j w st :
  lk_agents (set_agent i a s) !! j = Some (w, st) -> i = j /\ a = Some (w, st) \/ i <> j /\ lk_agents s !! j = Some (w, st).
Proof. simpl. destruct (decide (i = j)) as [->|Hne]; [rewrite lookup_partial_alter_eq|rewrite lookup_partial_alter_ne by done]; auto. Qed.

Lemma effect_agents i e s : lk_agents (apply_effect i e s) = lk_agents s.
Proof. by destruct e. Qed.

Lemma effect_names i e s w st m st' :
  locks_ok s -> next s w st m = Some (e, st') ->
  forall n n' x, lk_names (apply_effect i e s) !! n = Some x -> lk_names (apply_effect i e s) !! n' = Some x -> n = n'.
Proof.
  intros Hok Hn%next_effect. pose proof (ok_names _ Hok) as Hinj. destruct e as [|name y sec|y|y|name]; simpl; try exact Hinj.
  - destruct Hn as (_ & [Hfree _]%is_free_spec & _). intros n n' x. rewrite !lookup_insert_Some. naive_solver.
  - intros n n' x. rewrite !lookup_delete_Some. naive_solver.
Qed.

(** The locks of other processes are not affected by a system call. *)
Lemma effect_flock i e s x j : lk_flock (apply_effect i e s) !! x = Some j -> i <> j -> lk_flock s !! x = Some j.
Proof.
  destruct e; simpl; try done.
  - rewrite lookup_insert_Some. naive_solver.
  - case_bool_decide; [rewrite lookup_delete_Some|]; naive_solver.
Qed.

Lemma next_ok s i w st m e st' :
  locks_ok s -> lk_agents s !! i = Some (w, st) -> next s w st m = Some (e, st') ->
  locks_ok (set_agent i (Some (w, st')) (apply_effect i e s)).
Proof.
  intros Hok Hi Hn. split.
  - by eapply effect_names.
  - intros j w' st2 [[<- [= <- <-]]|[Hne Hj]]%set_agent_Some; apply agent_ok_set; [by eapply next_self|].
    rewrite effect_agents in Hj. apply agent_ok_effect; [by eapply next_harmless|by eapply ok_agents].
  - intros x j Hx. simpl in Hx |- *. rewrite effect_agents. destruct (decide (i = j)) as [<-|Hne].
    + exists w, st'. rewrite lookup_partial_alter_eq. split; [done|]. eapply next_may_hold; [done..|]. intros Hold.
      destruct (ok_flock _ Hok x i Hold) as (w0 & st0 & Hi' & Hst). rewrite Hi in Hi'. by simplify_eq.
    + apply effect_flock in Hx; [|done]. rewrite lookup_partial_alter_ne by done. by eapply ok_flock.
Qed.

Lemma step_ok s s' : locks_ok s -> lock_step s s' -> locks_ok s'.
Proof.
  intros Hok Hstep. revert Hok. destruct Hstep as [s i w Hu Hi|s i w st m e st' Hi Hn|s i w Hi]; intros Hok; [|by eapply next_ok|].
  - split; [apply Hok|..].
    + intros j w' st' [[<- [= <- <-]]|[Hne Hj]]%set_agent_Some; apply agent_ok_set; [split; simpl; [done..|set_solver|done|done]|by apply Hok].
    + intros x j Hx. destruct (ok_flock _ Hok x j Hx) as (w0 & st0 & Hj & Hst). exists w0, st0. simpl.
      rewrite lookup_partial_alter_ne by congruence. done.
  - split; [apply Hok|..].
    + intros j w' st' [[_ [=]]|[Hne Hj]]%set_agent_Some. apply agent_ok_set. by apply Hok.
    + intros x j Hx. destruct (ok_flock _ Hok x j Hx) as (w0 & st0 & Hj & Hst). exists w0, st0. simpl.
      rewrite lookup_partial_alter_ne; [done|]. intros ->. rewrite Hi in Hj. simplify_eq. by apply not_elem_of_nil in Hst.
Qed.

Lemma reachable_ok s : lock_reachable s -> locks_ok s.
Proof.
  induction 1 as [s (Hf & Ha & Hn)|s s' _ IH Hs]; [|by eapply step_ok].
  split; [done|..]; [rewrite Ha|rewrite Hf]; by intros; simplify_map_eq.
Qed.

Lemma guarding_cases st : guarding st = true ->
  (exists l, verified_lock st = Some l /\ l ∈ must_hold st) \/
  (removed st = true /\ exists c, coordinator_of st = Some c /\ c ∈ must_hold st).
Proof. destruct st; simpl; try done; intros _; set_solver. Qed.

(** ** Progress *)

(** The process can make a system call, close a file or finish, without failing. *)
Definition can_proceed s (w : N) st : Prop :=
  st = Closing [] \/ exists m e st', m <> Crash /\ next s w st m = Some (e, st').
(** The inode whose lock the process waits for. *)
Definition waits_for st : option N :=
  match st with Entering c | Reentering _ c | RemovalEntering _ c => Some c | Waiting l => Some l | _ => None end.

Lemma free_inode s : exists x, is_free s x = true.
Proof.
  pose (used := map snd (map_to_list (lk_names s)) ++ mjoin (map (fun kv => open_files kv.2.2) (map_to_list (lk_agents s)))).
  exists (fresh (list_to_set used : gset N)). pose proof (is_fresh (list_to_set used : gset N)) as Hf.
  revert Hf. generalize (fresh (list_to_set used : gset N)). intros x. rewrite elem_of_list_to_set. unfold used.
  rewrite elem_of_app. intros Hf. unfold is_free. rewrite andb_true_iff, !forallb_forall. split; intros [k v] Hk%list_elem_of_In.
  - apply negb_true_iff, N.eqb_neq. intros <-. apply Hf. left. apply list_elem_of_fmap. by exists (k, v).
  - apply negb_true_iff, bool_decide_eq_false. intros Hx. apply Hf. right. apply list_elem_of_join.
    exists (open_files v.2). split; [done|]. apply list_elem_of_fmap. by exists (k, v).
Qed.

Lemma can_open s name held k : exists m e st', m <> Crash /\ open_cow_lock_file s name m held k = Some (e, st').
Proof.
  unfold open_cow_lock_file. destruct (lk_names s !! name).
  - exists Go. eexists _, _. split; [done|reflexivity].
  - destruct (free_inode s) as [x Hx]. exists (Create x true). rewrite Hx. eexists _, _. split; [done|reflexivity].
Qed.

Lemma opens_proceeds s w st name held k :
  (forall m, m <> Crash -> next s w st m = open_cow_lock_file s name m held k) -> can_proceed s w st.
Proof.
  intros Hn. right. destruct (can_open s name held k) as (m & e & st' & Hm & Ho). exists m, e, st'. by rewrite Hn.
Qed.

Lemma not_waiting_proceeds s i w st : agent_ok s i w st -> waits_for st = None -> can_proceed s w st.
Proof.
  intros Ha Hw. destruct st; try done;
    try (by eapply opens_proceeds; intros [] Hm); try (right; exists Go; eexists _, _; by split).
  - right. exists Release. eexists _, _. by split.
  - right. exists Go. simpl. rewrite (ag_verified _ _ _ _ Ha l eq_refl). eexists _, _. by split.
  - destruct files as [|x files]; [by left|]. right. exists (Close x). simpl. rewrite bool_decide_eq_true_2 by set_solver.
    eexists _, _. by split.
Qed.

Lemma waiting_proceeds s w st x : waits_for st = Some x -> lk_flock s !! x = None -> can_proceed s w st.
Proof.
  intros Hw Hx. right. exists Go. destruct st; simpl in Hw; try done; injection Hw as ->; simpl; unfold flock; rewrite Hx; eexists _, _; by split.
Qed.

(** The holder of the coordinator never waits for another lock. *)
Lemma coordinator_holder_proceeds s c j :
  locks_ok s -> lk_names s !! COW_LOCK_COORDINATOR = Some c -> lk_flock s !! c = Some j ->
  exists w st, lk_agents s !! j = Some (w, st) /\ can_proceed s w st.
Proof.
  intros Hok Hc Hj. destruct (ok_flock _ Hok c j Hj) as (w & st & Hst & Hm). pose proof (ok_agents _ Hok _ _ _ Hst) as Ha.
  exists w, st. split; [done|]. eapply not_waiting_proceeds; [done|].
  pose proof (lock_not_coordinator s j w st c c Ha) as Hne.
  destruct st; simpl in *; try done; set_unfold; destruct_or?; simplify_eq; by destruct Hne.
Qed.

Lemma lock_holder_progress s i w st :
  locks_ok s -> lk_agents s !! i = Some (w, st) ->
  exists j w' st', lk_agents s !! j = Some (w', st') /\ can_proceed s w' st'.
Proof.
  intros Hok Hi. pose proof (ok_agents _ Hok _ _ _ Hi) as Ha.
  assert (forall c j w st, lk_agents s !! j = Some (w, st) -> coordinator_of st = Some c -> waits_for st = Some c ->
    exists j w' st', lk_agents s !! j = Some (w', st') /\ can_proceed s w' st') as Hcoord.
  { intros c j w' st' Hj Hc Hw. pose proof (ok_agents _ Hok _ _ _ Hj) as Aj. destruct (lk_flock s !! c) as [k|] eqn:Hk.
    - destruct (coordinator_holder_proceeds s c k Hok) as (w2 & st2 & ?); [by apply Aj|done|]. by exists k, w2, st2.
    - exists j, w', st'. split; [done|]. by eapply waiting_proceeds. }
  assert (waits_for st = None -> exists j w' st', lk_agents s !! j = Some (w', st') /\ can_proceed s w' st') as Hfree.
  { intros Hw. exists i, w, st. split; [done|]. by eapply not_waiting_proceeds. }
  destruct st; try by apply Hfree. all: try (eapply Hcoord; [exact Hi|reflexivity..]).
  destruct (lk_flock s !! l) as [j|] eqn:Hl; [|exists i, w, (Waiting l); split; [done|]; by eapply waiting_proceeds].
  destruct (ok_flock _ Hok l j Hl) as (w' & st' & Hj & Hm). pose proof (ok_agents _ Hok _ _ _ Hj) as Aj.
  destruct (waits_for st') as [x|] eqn:Hw; [|exists j, w', st'; split; [done|]; by eapply not_waiting_proceeds].
  destruct st'; simplify_eq; try (by apply not_elem_of_nil in Hm); eapply Hcoord; try exact Hj; reflexivity.
Qed.

(** C10. Mutual exclusion: however the system calls of any number of processes
    interleave, with failures and crashes at any point, lock files created and
    removed, and stale waiters on removed inodes, at most one process owns the
    guard of a session at any time: from the moment [lock_cow] returns until the
    guard's file is closed, terminal removal included. *)
Theorem cow_lock_mutual_exclusion s i j w st st' :
  lock_reachable s -> lk_agents s !! i = Some (w, st) -> lk_agents s !! j = Some (w, st') ->
  guarding st = true -> guarding st' = true -> i = j.
Proof.
  intros Hr%reachable_ok Hi Hj Hg Hg'. pose proof (ok_agents _ Hr _ _ _ Hi) as Ai. pose proof (ok_agents _ Hr _ _ _ Hj) as Aj.
  assert (forall x, x ∈ must_hold st -> x ∈ must_hold st' -> i = j) as Hsame.
  { intros x Hx%(ag_holds _ _ _ _ Ai) Hx'%(ag_holds _ _ _ _ Aj). congruence. }
  destruct (guarding_cases _ Hg) as [(l & Hl & Hm)|(Hrm & c & Hc & Hm)], (guarding_cases _ Hg') as [(l' & Hl' & Hm')|(Hrm' & c' & Hc' & Hm')].
  - apply (Hsame l); [done|]. assert (l = l') as -> by (apply (ag_verified _ _ _ _ Ai) in Hl; apply (ag_verified _ _ _ _ Aj) in Hl'; congruence). done.
  - apply (ag_verified _ _ _ _ Ai) in Hl. apply (ag_removed _ _ _ _ Aj) in Hrm'. congruence.
  - apply (ag_removed _ _ _ _ Ai) in Hrm. apply (ag_verified _ _ _ _ Aj) in Hl'. congruence.
  - apply (Hsame c); [done|]. assert (c = c') as -> by (apply (ag_coordinator _ _ _ _ Ai) in Hc; apply (ag_coordinator _ _ _ _ Aj) in Hc'; congruence). done.
Qed.

(** C11. No deadlock: in every reachable state in which some process is inside
    [lock_cow] or holds or removes a lock, some process can proceed without any
    failure: locks are always taken in the order session lock, coordinator, and
    nobody waits for a session lock while holding the coordinator. *)
Theorem cow_lock_no_deadlock s i w st :
  lock_reachable s -> lk_agents s !! i = Some (w, st) ->
  exists j w' st', lk_agents s !! j = Some (w', st') /\ can_proceed s w' st'.
Proof. intros Hr%reachable_ok Hi. by eapply lock_holder_progress. Qed.
End invariant.

(** ** Schedules *)

(** A schedule as data: the processes that start, and the system calls in order. *)
Inductive Event := Begins (i : nat) (w : N) | Calls (i : nat) (m : Move).

Section schedules.
Context `{UuidLib}.

Definition run_event (ev : Event) (s : Locks) : option Locks :=
  match ev with
  | Begins i w =>
      match lk_agents s !! i with
      | None => if (w <? 2 ^ 128)%N then Some (set_agent i (Some (w, Opening)) s) else None
      | Some _ => None
      end
  | Calls i m =>
      match lk_agents s !! i with
      | Some (w, st) => match next s w st m with Some (e, st') => Some (set_agent i (Some (w, st')) (apply_effect i e s)) | None => None end
      | None => None
      end
  end.

Fixpoint run_schedule (evs : list Event) (s : Locks) : option Locks :=
  match evs with
  | [] => Some s
  | ev :: rest => match run_event ev s with Some s' => run_schedule rest s' | None => None end
  end.

Lemma schedule_reachable evs s s' : lock_reachable s -> run_schedule evs s = Some s' -> lock_reachable s'.
Proof.
  revert s. induction evs as [|ev evs IH]; intros s Hs Hrun; simpl in Hrun; [by simplify_eq|].
  destruct (run_event ev s) as [s1|] eqn:Hev; [|done]. apply (IH s1); [|done]. eapply reach_step; [done|].
  destruct ev as [i w|i m]; simpl in Hev.
  - destruct (lk_agents s !! i) eqn:Hi; [done|]. destruct (w <? 2 ^ 128)%N eqn:Hw; [|done]. simplify_eq.
    apply step_start; [|done]. unfold is_uuid. by apply N.ltb_lt.
  - destruct (lk_agents s !! i) as [[w st]|] eqn:Hi; [|done]. destruct (next s w st m) as [[e st']|] eqn:Hn; [|done]. simplify_eq.
    by eapply step_next.
Qed.
End schedules.

(** ** Two processes, one session *)

Module Demo.
Import Concrete.

Definition empty_shard : Locks := mkLocks ∅ ∅ ∅ ∅.
Lemma empty_reachable : lock_reachable empty_shard.
Proof. apply reach_initial. split; [reflexivity|]. split; [reflexivity|]. intros n n' x Hn. simpl in Hn. rewrite lookup_empty in Hn. discriminate Hn. Qed.

(** Process 0 acquires the lock and starts to remove it while process 1 waits on
    the old inode. *)
Definition contention : list Event :=
  [Begins 0 7; Begins 1 7; Calls 0 (Create 1 true); Calls 0 Go; Calls 0 (Create 2 true); Calls 0 Go; Calls 0 Go;
   Calls 0 Go; Calls 1 Go; Calls 0 Go; Calls 0 Go; Calls 0 Go; Calls 1 Go; Calls 1 Go; Calls 1 Go].
Definition removal : list Event :=
  contention ++ [Calls 0 Remove; Calls 0 Go; Calls 0 Go; Calls 0 Go; Calls 0 Go].

Lemma cow_lock_mutual_exclusion_witness :
  exists s, run_schedule removal empty_shard = Some s /\ lk_agents s !! 0%nat = Some (7%N, Syncing 2 1) /\
    lk_agents s !! 1%nat = Some (7%N, Waiting 2) /\
    forall j st, lk_agents s !! j = Some (7%N, st) -> guarding st = true -> 0%nat = j.
Proof.
  assert (exists s, run_schedule removal empty_shard = Some s) as [s Hs] by (eexists; vm_compute; reflexivity).
  assert (lk_agents s !! 0%nat = Some (7%N, Syncing 2 1) /\ lk_agents s !! 1%nat = Some (7%N, Waiting 2)) as [H0 H1].
  { assert (option_map (fun s => (lk_agents s !! 0%nat, lk_agents s !! 1%nat)) (run_schedule removal empty_shard)
      = Some (Some (7%N, Syncing 2 1), Some (7%N, Waiting 2))) as He by (vm_compute; reflexivity).
    rewrite Hs in He. cbn [option_map] in He. injection He as Ha Hb. split; [exact Ha|exact Hb]. }
  exists s. split; [exact Hs|]. split; [exact H0|]. split; [exact H1|]. intros j st Hj Hg.
  exact (cow_lock_mutual_exclusion s 0 j 7 (Syncing 2 1) st (schedule_reachable _ _ _ empty_reachable Hs) H0 Hj eq_refl Hg).
Defined.

Lemma cow_lock_no_deadlock_witness :
  exists s, run_schedule contention empty_shard = Some s /\
    exists j w st, lk_agents s !! j = Some (w, st) /\ can_proceed s w st.
Proof.
  assert (exists s, run_schedule contention empty_shard = Some s) as [s Hs] by (eexists; vm_compute; reflexivity).
  assert (lk_agents s !! 1%nat = Some (7%N, Waiting 2)) as H1.
  { assert (option_map (fun s => lk_agents s !! 1%nat) (run_schedule contention empty_shard) = Some (Some (7%N, Waiting 2))) as He
      by (vm_compute; reflexivity).
    rewrite Hs in He. cbn [option_map] in He. injection He as Ha. exact Ha. }
  exists s. split; [exact Hs|].
  exact (cow_lock_no_deadlock s 1 7 (Waiting 2) (schedule_reachable _ _ _ empty_reachable Hs) H1).
Defined.
End Demo.
