(* ===== verification/EnvelopeProofs.v ===== *)
(** Theorems on the signed texts of FileBelt: what an accepted join grant and an
    accepted MCP delegation prove, the separation of the four envelope families, the
    JSON pointers of attachments, and the frames of an invocation. *)
From stdpp Require Import countable.
From S2P Require Import Prelude Collections Libraries ConcreteCodecs Keyset Capability Frames Net Web Envelope CollaborationProtocol McpProtocol.

Open Scope string_scope.
Open Scope Z_scope.
Open Scope list_scope.
Open Scope bool_scope.

(** ** Lifetimes *)

Lemma wrapping_sub_i64_spec expires issued :
  is_i64 issued -> is_i64 expires -> issued <= expires ->
  wrapping_sub_i64 expires issued = if expires - issued <=? i64_max then expires - issued else expires - issued - (u64_max + 1).
Proof.
  unfold is_i64, wrapping_sub_i64, i64_min, i64_max, u64_max. intros Hi He Hle.
  case_match; breflect; Z.to_euclidean_division_equations; lia.
Qed.

(** What the lifetime test of both crates accepts. *)
Definition lifetime_accepted (maximum issued expires : Z) : Prop := expires - issued <= maximum \/ i64_max < expires - issued.

Lemma lifetime_test_iff maximum issued expires :
  0 <= maximum <= i64_max -> is_i64 issued -> is_i64 expires ->
  (expires <? issued) || (maximum <? wrapping_sub_i64 expires issued) = false <->
  issued <= expires /\ lifetime_accepted maximum issued expires.
Proof.
  intros Hmax Hi He. rewrite orb_false_iff, !Z.ltb_ge. unfold lifetime_accepted. split; intros [Hle Hw]; (split; [done|]).
  - rewrite wrapping_sub_i64_spec in Hw by done. case_match; breflect; lia.
  - rewrite wrapping_sub_i64_spec by done. unfold is_i64, i64_min, i64_max, u64_max in *. case_match; breflect; lia.
Qed.

(** ** Join grants *)

Section grants.
Context `{UuidLib}.

(** What a grant must say to be admitted at a time. *)
Record grant_admits (c : CollaborationGrantClaims) (now : Z) : Prop := {
  ga_ids : Forall (fun s => is_Some (uuid_parse_str s)) (grant_identifiers c);
  ga_fences : Forall (fun g => g <> 0)
    [CollaborationGrantClaims_room_epoch c; CollaborationGrantClaims_resource_acl_generation c;
     CollaborationGrantClaims_drive_acl_generation c; CollaborationGrantClaims_membership_generation c;
     CollaborationGrantClaims_namespace_generation c];
  ga_mode : CollaborationGrantClaims_presence_mode c = 1 \/ CollaborationGrantClaims_presence_mode c = 2;
  ga_label : 1 <= str_len (CollaborationGrantClaims_presence_label c) <= 120 /\
             has_control (as_bytes (CollaborationGrantClaims_presence_label c)) = false;
  ga_nonce : 16 <= len (CollaborationGrantClaims_nonce c) <= 64;
  ga_bootstrap : str_starts_with "fbcap1." (CollaborationGrantClaims_bootstrap_download_capability c) = true;
  ga_lifetime : lifetime_accepted MAX_GRANT_LIFETIME_SECONDS (CollaborationGrantClaims_issued_at_unix_seconds c)
                  (CollaborationGrantClaims_expires_at_unix_seconds c);
  ga_time : CollaborationGrantClaims_issued_at_unix_seconds c <= now < CollaborationGrantClaims_expires_at_unix_seconds c
}.

Lemma parsed_Ok {E} (e : E) s : result_map (fun _ => tt) (ok_or e (uuid_parse_str s)) = Ok tt <-> is_Some (uuid_parse_str s).
Proof. destruct (uuid_parse_str s); simpl; naive_solver. Qed.

Lemma presence_mode_specified_iff m : presence_mode_specified m = true <-> m = 1 \/ m = 2.
Proof.
  unfold presence_mode_specified, PresenceMode_try_from. split; [|by intros [-> | ->]].
  destruct m as [|p|p]; try done. repeat (destruct p as [p|p|]; try done; auto).
Qed.

Lemma is_empty_len s : is_empty s = false <-> 1 <= str_len s.
Proof. unfold is_empty, str_len. destruct s; simpl; [split; [done|lia]|split; [lia|done]]. Qed.

Lemma grant_validate_at_iff c now :
  is_i64 (CollaborationGrantClaims_issued_at_unix_seconds c) -> is_i64 (CollaborationGrantClaims_expires_at_unix_seconds c) ->
  grant_validate_at c now = Ok tt <-> grant_admits c now.
Proof.
  intros Hi He. unfold grant_validate_at. cbv zeta. rewrite seq_Ok, try_each_Ok, !guard_Ok, lifetime_test_iff by done.
  setoid_rewrite parsed_Ok. rewrite !orb_false_iff, !negb_false_iff, !Z.eqb_neq, !Z.ltb_ge, Z.leb_gt, presence_mode_specified_iff, is_empty_len.
  split.
  - intros (Hids & Hall & [Hle Hl] & Ht & _). destruct_and?. split; try done; try lia. by repeat constructor.
  - intros [Hids Hf Hm [Hl Hc] Hn Hb Hlt Ht]. repeat (apply Forall_cons in Hf as [? Hf]). repeat split; try done; try lia.
Qed.
End grants.

Section grant_envelopes.
Context `{UuidLib, Base64Laws, Blake3Lib, Ed25519Laws}.
Context `{!ProstMessage CollaborationGrantClaims, !ProstMessage SignedCollaborationGrant}.

Lemma verify_grant_Ok wire keys now v :
  verify_collaboration_grant wire keys now = Ok v <-> vouched grant_family wire keys v /\ grant_validate_at (at_claims v) now = Ok tt.
Proof.
  unfold verify_collaboration_grant. rewrite bind_Ok. split.
  - intros (a & Ha%unseal_Ok & Hv). rewrite bind_Ok in Hv. destruct Hv as ([] & Hv & [= <-]). done.
  - intros [Hv%unseal_Ok Ha]. exists v. split; [done|]. by rewrite Ha.
Qed.
End grant_envelopes.

Section grant_round_trip.
Context `{UuidLib, Base64Laws, Blake3Lib, Ed25519Laws}.
Context `{!ProstMessage CollaborationGrantClaims, !ProstMessage SignedCollaborationGrant}.
Context (valid_claims : CollaborationGrantClaims -> Prop) (valid_signed : SignedCollaborationGrant -> Prop).
Context `{!ProstLaws CollaborationGrantClaims valid_claims, !ProstLaws SignedCollaborationGrant valid_signed}.
Hypothesis signed_u32 : forall g c s, is_u32 g -> valid_signed (mkSignedCollaborationGrant g c s).

(** A join grant: signing refuses only the generation 0, and the signed text is
    accepted at a time exactly when its claims admit it then, with exactly the
    signed claims and the generation of the key. *)
Theorem join_grant_round_trip c g kp (keys : TypedKeyset ApiCollaborationGrant) now v :
  valid_claims c -> is_u32 g -> g <> 0 -> public_key keys g = Some (ed_public kp) ->
  is_i64 (CollaborationGrantClaims_issued_at_unix_seconds c) -> is_i64 (CollaborationGrantClaims_expires_at_unix_seconds c) ->
  exists wire, sign_collaboration_grant c g kp = Ok wire /\
    (verify_collaboration_grant wire keys now = Ok v <-> v = mkAuthenticated c g /\ grant_admits c now).
Proof.
  intros Hc Hg Hg0 Hk Hi He. unfold sign_collaboration_grant. rewrite (proj2 (Z.eqb_neq g 0)) by done.
  eexists. split; [reflexivity|].
  assert (vouched grant_family (seal grant_family c g kp) keys (mkAuthenticated c g)) as Hv
    by (eapply (unseal_seal _ valid_claims valid_signed); by eauto).
  rewrite verify_grant_Ok. split.
  - intros [Hv' Ha]. assert (v = mkAuthenticated c g) as -> by exact (vouched_functional _ _ _ _ _ _ Hv' Hv).
    split; [done|]. by apply grant_validate_at_iff.
  - intros [-> Ha]. split; [exact Hv|]. by apply grant_validate_at_iff.
Qed.
End grant_round_trip.

(** ** JSON pointers *)

(** RFC 6901, section 4: [~0] stands for [~] and [~1] for [/]; any other [~] is an error. *)
Fixpoint unescape (token : bytes) : option bytes :=
  match token with
  | [] => Some []
  | b :: rest =>
      if byte_is "~" b then
        match rest with
        | c :: rest' =>
            if byte_is "0" c then (cons "~"%char) <$> unescape rest'
            else if byte_is "1" c then (cons "/"%char) <$> unescape rest'
            else None
        | [] => None
        end
      else (cons b) <$> unescape rest
  end.

(** The reference tokens of a pointer: the text after each [/], unescaped. *)
Definition reference_tokens (value : string) : option (list bytes) :=
  match split_char "/" value with
  | first :: tokens => if is_empty first then mapM (fun t => unescape (as_bytes t)) tokens else None
  | [] => None
  end.

Lemma invalid_tilde_unescape token : invalid_tilde token = false <-> is_Some (unescape token).
Proof.
  induction token as [token IH] using (induction_ltof1 _ (@length byte)); unfold ltof in IH.
  destruct token as [|b rest]; [done|]. cbn [invalid_tilde unescape]. rewrite orb_false_iff.
  destruct (byte_is "~" b) eqn:Hb; simpl.
  - destruct rest as [|c rest']; simpl; [split; [by intros [? _]|by intros []]|].
    rewrite negb_false_iff, orb_true_iff. specialize (IH rest' ltac:(simpl; lia)).
    assert (forall x : byte, byte_is "~" x = true -> byte_is "0" x = false /\ byte_is "1" x = false) as Hd.
    { intros x. unfold byte_is. rewrite Ascii.eqb_eq. by intros ->. }
    destruct (byte_is "~" c) eqn:Hc.
    + apply Hd in Hc as [-> ->]. split; [intros [[]]; done|by intros []].
    + simpl. destruct (byte_is "0" c) eqn:H0; [|destruct (byte_is "1" c) eqn:H1].
      * rewrite fmap_is_Some. rewrite <-IH. tauto.
      * rewrite fmap_is_Some. rewrite <-IH. tauto.
      * split; [intros [[] _]; done|by intros []].
  - rewrite fmap_is_Some. rewrite <-IH by (simpl; lia). tauto.
Qed.

Lemma invalid_tilde_contains token : existsb (byte_is "~") token && invalid_tilde token = invalid_tilde token.
Proof.
  destruct (invalid_tilde token) eqn:Hi; [|by rewrite andb_false_r]. rewrite andb_true_r.
  induction token as [|b rest IH]; [done|]. cbn [invalid_tilde existsb] in *. destruct (byte_is "~" b); simpl in *; [done|]. auto.
Qed.

Lemma tokens_unescape tokens :
  existsb (fun token => existsb (byte_is "~") (as_bytes token) && invalid_tilde (as_bytes token)) tokens = false <->
  is_Some (mapM (fun t => unescape (as_bytes t)) tokens).
Proof.
  induction tokens as [|t tokens IH]; [simpl; naive_solver|]. cbn [existsb]. rewrite invalid_tilde_contains, orb_false_iff, IH, invalid_tilde_unescape.
  simpl. destruct (unescape (as_bytes t)) as [x|]; simpl; [|naive_solver].
  destruct (mapM _ tokens) as [y|]; simpl; naive_solver.
Qed.

(** The pointers that attachments are bound to are exactly the non-empty JSON
    pointers of RFC 6901 of at most 512 bytes: the text starts with a slash, and
    every reference token between slashes unescapes. *)
Theorem json_pointer_rfc6901 value :
  valid_json_pointer value = true <-> value <> "" /\ str_len value <= 512 /\ is_Some (reference_tokens value).
Proof.
  unfold valid_json_pointer, reference_tokens, str_starts_with. destruct value as [|a value]; [naive_solver|].
  cbn [is_empty String.eqb negb andb split_char strip_prefix]. rewrite !andb_true_iff, Z.leb_le, negb_true_iff.
  destruct (Ascii.eqb a "/") eqn:Ha.
  - apply Ascii.eqb_eq in Ha as ->. cbn [Ascii.eqb eqb is_empty String.eqb drop is_some]. rewrite drop_0, tokens_unescape. naive_solver.
  - destruct (split_char "/" value) as [|p ps] eqn:Hs; [by apply split_char_ne in Hs|].
    assert (Ascii.eqb "/" a = false) as -> by (rewrite Ascii.eqb_sym; exact Ha).
    cbn [is_empty String.eqb is_some]. split; [naive_solver|]. by intros (_ & _ & []).
Qed.

(** ** Delegations *)

Definition DOWNLOAD_PATH : string := "/io/v1/downloads/".

(** Which encoding a disclosed field may have: the size is a decimal number, the
    content is text or Base64, a name or media type is not a number. *)
Definition field_admits (f : AttachmentFieldClaim) : Prop :=
  valid_json_pointer (AttachmentFieldClaim_target_json_pointer f) = true /\
  match AttachmentDisclosure_try_from (AttachmentFieldClaim_disclosure f), AttachmentEncoding_try_from (AttachmentFieldClaim_encoding f) with
  | Some AttachmentDisclosure_Size, Some AttachmentEncoding_Decimal => True
  | Some AttachmentDisclosure_Content, Some (AttachmentEncoding_Utf8 | AttachmentEncoding_Base64) => True
  | Some (AttachmentDisclosure_Basename | AttachmentDisclosure_MediaType), Some (AttachmentEncoding_Utf8 | AttachmentEncoding_Base64) => True
  | _, _ => False
  end.

Lemma field_validate_iff f : AttachmentFieldClaim_validate f = Ok tt <-> field_admits f.
Proof.
  unfold AttachmentFieldClaim_validate, field_admits. destruct (AttachmentDisclosure_try_from _) as [d|]; [|naive_solver].
  destruct (AttachmentEncoding_try_from _) as [e|]; [|by simpl; destruct d; naive_solver]. cbn [ok_or]. cbv beta iota.
  destruct (valid_json_pointer _), d, e; vm_compute; naive_solver.
Qed.

Section delegation_claims.
Context `{UuidLib}.

(** What an attachment of a delegation is bound to. *)
Record attachment_admits (c : AttachmentClaim) : Prop := {
  aa_ids : Forall (fun s => is_Some (uuid_parse_str s))
    [AttachmentClaim_drive_id c; AttachmentClaim_node_id c; AttachmentClaim_version_id c; AttachmentClaim_data_grant_id c];
  aa_fields : 1 <= len (AttachmentClaim_fields c) <= 4 /\ Forall field_admits (AttachmentClaim_fields c);
  aa_size : 0 < AttachmentClaim_maximum_raw_bytes c <= 16777216 /\ AttachmentClaim_size_bytes c <= AttachmentClaim_maximum_raw_bytes c;
  aa_fences : Forall (fun g => g <> 0)
    [AttachmentClaim_drive_acl_generation c; AttachmentClaim_resource_acl_generation c;
     AttachmentClaim_membership_generation c; AttachmentClaim_namespace_generation c];
  aa_path : exists id, AttachmentClaim_download_path c = DOWNLOAD_PATH +:+ id /\ is_Some (uuid_parse_str id) /\
              str_len (AttachmentClaim_download_path c) <= 128;
  aa_authorization : str_starts_with "fbcap1." (AttachmentClaim_authorization c) = true /\ str_len (AttachmentClaim_authorization c) <= 4096;
  aa_names : 1 <= str_len (AttachmentClaim_basename c) <= 255 /\ 1 <= str_len (AttachmentClaim_media_type c) <= 255
}.

Lemma is_err_false {E} (r : result E unit) : is_err r = false <-> r = Ok tt.
Proof. destruct r as [[]|]; simpl; naive_solver. Qed.

Lemma existsb_is_err {E A} (f : A -> result E unit) (P : A -> Prop) l :
  (forall x, f x = Ok tt <-> P x) -> existsb (fun x => is_err (f x)) l = false <-> Forall P l.
Proof.
  intros Hf. induction l as [|x l IH]; simpl; [naive_solver|]. rewrite orb_false_iff, is_err_false, Hf, IH, Forall_cons. done.
Qed.

Lemma download_path_iff path :
  is_none_or (strip_prefix DOWNLOAD_PATH path) (fun id => is_none (uuid_parse_str id)) = false <->
  exists id, path = DOWNLOAD_PATH +:+ id /\ is_Some (uuid_parse_str id).
Proof.
  split.
  - destruct (strip_prefix DOWNLOAD_PATH path) as [id|] eqn:Hp; [|done]. apply strip_prefix_Some in Hp as ->.
    cbn [is_none_or]. unfold is_none. rewrite negb_false_iff. intros Hi. exists id. split; [done|]. destruct (uuid_parse_str id); naive_solver.
  - intros (id & -> & [u Hu]). rewrite strip_prefix_app. cbn [is_none_or]. by rewrite Hu.
Qed.

Lemma attachment_validate_iff c : 0 <= AttachmentClaim_maximum_raw_bytes c -> AttachmentClaim_validate c = Ok tt <-> attachment_admits c.
Proof.
  intros Hmax. unfold AttachmentClaim_validate. rewrite seq_Ok, try_each_Ok, guard_Ok. unfold check_uuid. setoid_rewrite parsed_Ok.
  change "/io/v1/downloads/" with DOWNLOAD_PATH.
  rewrite !orb_false_iff, !negb_false_iff, !Z.eqb_neq, !Z.ltb_ge, !is_empty_len, (existsb_is_err _ _ _ field_validate_iff), download_path_iff.
  pose proof (len_nonneg (AttachmentClaim_fields c)). split.
  - intros (Hids & Hall & _). destruct_and?. split; try done; try lia.
    + split; [lia|done].
    + by repeat constructor.
    + naive_solver.
  - intros [Hids [Hn Hf] [Hm Hs] Hg (id & Hp & Hid & Hl) [Ha Hal] [Hb Hmt]]. repeat (apply Forall_cons in Hg as [? Hg]).
    repeat split; try done; try lia. eauto.
Qed.

(** What a delegation must say to be admitted for an audience, an operation and a time. *)
Record delegation_admits (c : DelegationClaims) (audience : string) (operation : McpOperation) (now : Z) : Prop := {
  da_ids : Forall (fun s => is_Some (uuid_parse_str s))
    [DelegationClaims_capability_id c; DelegationClaims_tenant_id c; DelegationClaims_principal_id c; DelegationClaims_registration_id c];
  da_optional : Forall (fun s => s = "" \/ is_Some (uuid_parse_str s)) [DelegationClaims_session_id c; DelegationClaims_service_grant_id c];
  da_audience : DelegationClaims_audience c = audience;
  da_operation : DelegationClaims_operation c = McpOperation_i32 operation /\ operation <> McpOperation_Unspecified;
  da_lifetime : lifetime_accepted MAX_DELEGATION_LIFETIME_SECONDS (DelegationClaims_issued_at_unix_seconds c)
                  (DelegationClaims_expires_at_unix_seconds c);
  da_time : DelegationClaims_issued_at_unix_seconds c <= now < DelegationClaims_expires_at_unix_seconds c;
  da_application : 1 <= str_len (DelegationClaims_application_id c) <= 128;
  da_digests : len (DelegationClaims_capability_fingerprint c) = 32 /\ len (DelegationClaims_arguments_digest c) = 32 /\
               16 <= len (DelegationClaims_nonce c) <= 64;
  da_generations : DelegationClaims_policy_generation c <> 0 /\ DelegationClaims_membership_generation c <> 0;
  da_attachments : len (DelegationClaims_attachments c) <= 4 /\ Forall attachment_admits (DelegationClaims_attachments c)
}.

(** The values a decoded message can hold. *)
Definition delegation_typed (c : DelegationClaims) : Prop :=
  is_i64 (DelegationClaims_issued_at_unix_seconds c) /\ is_i64 (DelegationClaims_expires_at_unix_seconds c) /\
  Forall (fun a => 0 <= AttachmentClaim_maximum_raw_bytes a) (DelegationClaims_attachments c).

Lemma check_optional_uuid_Ok s : check_optional_uuid s = Ok tt <-> s = "" \/ is_Some (uuid_parse_str s).
Proof.
  unfold check_optional_uuid, check_uuid, is_empty. destruct (String.eqb_spec s "") as [-> | Hs]; [naive_solver|]. rewrite parsed_Ok. naive_solver.
Qed.

Lemma operation_of_i32 z o : McpOperation_try_from z = Some o <-> z = McpOperation_i32 o.
Proof.
  split; [|intros ->; by destruct o]. unfold McpOperation_try_from. destruct z as [|p|p]; try done; [by intros [= <-]|].
  repeat (destruct p as [p|p|]; try done; try (by intros [= <-])).
Qed.

Lemma operation_specified_of o : operation_specified (McpOperation_i32 o) = true <-> o <> McpOperation_Unspecified.
Proof. destruct o; vm_compute; naive_solver. Qed.

Lemma attachments_valid_iff l : Forall (fun a => 0 <= AttachmentClaim_maximum_raw_bytes a) l ->
  existsb (fun claim => is_err (AttachmentClaim_validate claim)) l = false <-> Forall attachment_admits l.
Proof.
  induction 1 as [|a l Ha Hl IH]; simpl; [naive_solver|]. by rewrite orb_false_iff, is_err_false, attachment_validate_iff, IH, Forall_cons.
Qed.

Lemma delegation_validate_at_iff c audience operation now :
  delegation_typed c ->
  delegation_validate_at c audience now = Ok tt /\ DelegationClaims_operation c = McpOperation_i32 operation <->
  delegation_admits c audience operation now.
Proof.
  intros (Hi & He & Hm). unfold delegation_validate_at. cbv zeta. rewrite !seq_Ok, try_each_Ok, !guard_Ok, lifetime_test_iff by done.
  rewrite !check_optional_uuid_Ok. unfold check_uuid. setoid_rewrite parsed_Ok.
  rewrite !orb_false_iff, !negb_false_iff, String.eqb_eq, !Z.eqb_eq, !Z.eqb_neq, !Z.ltb_ge, Z.leb_gt, is_empty_len, attachments_valid_iff by done.
  unfold range_contains. rewrite andb_true_iff, !Z.leb_le. split.
  - intros [(Hids & Hs & Hsg & Ha & Hop & [_ Hl] & Ht & Hall & _) Ho]. rewrite Ho, operation_specified_of in Hop. destruct_and?.
    split; try done; try lia. by repeat (apply Forall_cons; split; [assumption|]).
  - intros [Hids Hopt Ha [Ho Hop] Hl Ht Happ (Hf & Hd & Hn) [Hp Hmem] [Hc Hatt]]. rewrite Ho, operation_specified_of.
    repeat (apply Forall_cons in Hopt as [? Hopt]). repeat split; try done; try lia.
Qed.
End delegation_claims.

Section delegation_envelopes.
Context `{UuidLib, Base64Laws, Ed25519Laws}.
Context `{!ProstMessage DelegationClaims, !ProstMessage SignedDelegation}.

Lemma verify_delegation_Ok wire keys audience operation now v :
  verify_mcp_delegation wire keys audience operation now = Ok v <->
  vouched delegation_family wire keys v /\ delegation_validate_at (at_claims v) audience now = Ok tt /\
  DelegationClaims_operation (at_claims v) = McpOperation_i32 operation.
Proof.
  unfold verify_mcp_delegation. rewrite bind_Ok. split.
  - intros (a & Ha%unseal_Ok & Hv). rewrite bind_Ok in Hv. destruct Hv as ([] & Hv & Ho).
    rewrite guard_Ok, negb_false_iff, Z.eqb_eq in Ho. destruct Ho as [Ho [= <-]]. done.
  - intros (Hv%unseal_Ok & Ha & Ho). exists v. split; [done|]. rewrite Ha, Ho, Z.eqb_refl. done.
Qed.

(** What an accepted MCP delegation proves, and what suffices: a key of the
    delegation keyset, at the reported generation, signed the domain-separated
    claims; the claims name this audience and this operation and are in their
    validity window; they carry 32 byte digests of the capability and of the
    arguments and at most four attachments, each within 16 MiB, with its four
    fences, a storage capability, a download path that is exactly one identifier
    below the download route, and one to four disclosed fields whose encoding fits
    the disclosure.  The window test compares the lifetime in wrapping arithmetic,
    so it bounds the lifetime by 120 seconds unless it exceeds 2^63-1. *)
Theorem delegation_accepted_iff wire (keys : TypedKeyset ApiMcpDelegation) audience operation now v :
  delegation_typed (at_claims v) ->
  verify_mcp_delegation wire keys audience operation now = Ok v <->
  vouched delegation_family wire keys v /\ delegation_admits (at_claims v) audience operation now.
Proof. intros Ht. rewrite verify_delegation_Ok. by rewrite delegation_validate_at_iff. Qed.
End delegation_envelopes.

(** ** The four families *)

Inductive EnvelopeFamily := StorageCapability | MountCapability | CollaborationGrant | McpDelegation.

Definition family_prefix (f : EnvelopeFamily) : string :=
  match f with
  | StorageCapability => "fbcap1." | MountCapability => "fbcap2."
  | CollaborationGrant => fam_prefix grant_family | McpDelegation => fam_prefix delegation_family
  end.
Definition family_domain (f : EnvelopeFamily) : bytes :=
  match f with
  | StorageCapability => CAPABILITY_SIGNATURE_DOMAIN | MountCapability => MOUNT_CAPABILITY_SIGNATURE_DOMAIN
  | CollaborationGrant => fam_domain grant_family | McpDelegation => fam_domain delegation_family
  end.

Section families.
Context `{UuidLib, Base64Laws, Blake3Lib, Ed25519Laws}.
Context `{!ProstMessage CapabilityClaims, !ProstMessage SignedCapability}.
Context `{!ProstMessage MountCapabilityClaims, !ProstMessage SignedMountCapability}.
Context `{!ProstMessage CollaborationGrantClaims, !ProstMessage SignedCollaborationGrant}.
Context `{!ProstMessage DelegationClaims, !ProstMessage SignedDelegation}.

(** Some verifier of the family accepts the text, with some keys, for some use, at some time. *)
Definition accepted_as (f : EnvelopeFamily) (wire : string) : Prop :=
  match f with
  | StorageCapability => exists p (K : CapabilityKeyset (TypedKeyset p)) keys audience operation now v,
      verify_capability wire keys audience operation now = Ok v
  | MountCapability => exists keys audience use now v, verify_mount_storage_capability wire keys audience use now = Ok v
  | CollaborationGrant => exists keys now v, verify_collaboration_grant wire keys now = Ok v
  | McpDelegation => exists keys audience operation now v, verify_mcp_delegation wire keys audience operation now = Ok v
  end.

Lemma accepted_prefix f wire : accepted_as f wire -> exists rest, wire = family_prefix f +:+ rest.
Proof.
  destruct f; cbn [accepted_as family_prefix].
  - intros (p & K & keys & audience & operation & now & v & Hv). apply verify_capability_iff in Hv as (s & k & Hw & _).
    destruct (strip_prefix "fbcap1." wire) as [rest|] eqn:Hp; [|done]. exists rest. by apply strip_prefix_Some.
  - intros (keys & audience & use & now & v & Hv). apply verify_mount_iff in Hv as (s & k & Hw & _).
    destruct (strip_prefix "fbcap2." wire) as [rest|] eqn:Hp; [|done]. exists rest. by apply strip_prefix_Some.
  - intros (keys & now & v & Hv). apply verify_grant_Ok in Hv as [Hv _]. by apply vouched_prefix in Hv.
  - intros (keys & audience & operation & now & v & Hv). apply verify_delegation_Ok in Hv as [Hv _]. by apply vouched_prefix in Hv.
Qed.

(** The signed texts of the four families never stand in for one another: a
    text is accepted by the verifiers of one family only, whatever their keys and
    expectations, and no signing input of one family is a signing input of another,
    so a signature made for one family says nothing in another even under a shared
    key. *)
Theorem envelope_families_separated f g :
  (forall wire, accepted_as f wire -> accepted_as g wire -> f = g) /\
  (forall claims claims', family_domain f ++ claims = family_domain g ++ claims' -> f = g /\ claims = claims').
Proof.
  split.
  - intros wire Hf Hg. destruct (accepted_prefix f wire Hf) as [r Hr], (accepted_prefix g wire Hg) as [s Hs].
    rewrite Hr in Hs. clear Hf Hg Hr.
    destruct f, g; try done; exfalso; vm_compute in Hs; discriminate Hs.
  - intros c c' Heq. destruct (decide (family_domain f = family_domain g)) as [Hd|Hd].
    + rewrite Hd in Heq. apply app_inv_head in Heq as ->. split; [|done]. destruct f, g; try done; discriminate Hd.
    + exfalso. destruct f, g; try done; apply (f_equal (take 20)) in Heq; vm_compute in Heq; discriminate Heq.
Qed.
End families.

(** ** Frames *)

Section invocation_frames.
Context `{!ProstDelimited InvocationFrame} (valid : InvocationFrame -> Prop) `{!ProstDelimitedLaws InvocationFrame valid}.

Lemma decode_frames_loop_app frames budget :
  Forall valid frames -> Forall (fun f => encoded_len f <= McpProtocol.MAX_FRAME_BYTES) frames ->
  decode_frames_loop budget (concat (map encode_delimited frames)) =
  if (length frames <=? budget)%nat then Ok frames else Err McpInvalidEncoding.
Proof.
  revert budget. induction frames as [|f frames IH]; intros budget Hv Hs; [by destruct budget|].
  apply Forall_cons in Hv as [Hf Hv]. apply Forall_cons in Hs as [Hfs Hs]. cbn [map concat].
  pose proof (encoded_len_delimited f) as Hlen. pose proof (decode_delimited_app f (concat (map encode_delimited frames)) Hf) as Hd.
  set (rest := concat (map encode_delimited frames)) in *.
  assert (0 < len (encode_delimited f ++ rest)) as Hne by (rewrite len_app; pose proof (len_nonneg rest); lia).
  destruct budget as [|budget]; cbn [decode_frames_loop]; destruct (encode_delimited f ++ rest) as [|x l] eqn:Hx; try done.
  rewrite Hd, <-Hx, len_app, (proj2 (Z.eqb_neq _ _)), (proj2 (Z.ltb_ge _ _)) by lia. cbn [orb length]. subst rest. rewrite IH by done.
  change (S (length frames) <=? S budget)%nat with (length frames <=? budget)%nat. by destruct (length frames <=? budget)%nat.
Qed.

(** Frames of an invocation: a body of valid frames, each within 4 MiB and all
    within 16 MiB, decodes to exactly these frames when there are at most 128, and
    is refused as a whole when there are more; whatever the body is, at most 128
    frames come out of it. *)
Theorem invocation_frames_round_trip frames body decoded :
  Forall valid frames -> Forall (fun f => encoded_len f <= McpProtocol.MAX_FRAME_BYTES) frames ->
  len (concat (map encode_delimited frames)) <= 4 * McpProtocol.MAX_FRAME_BYTES ->
  decode_frames (concat (map encode_delimited frames)) = (if (length frames <=? 128)%nat then Ok frames else Err McpInvalidEncoding) /\
  (decode_frames body = Ok decoded -> (length decoded <= 128)%nat /\ len body <= 4 * McpProtocol.MAX_FRAME_BYTES).
Proof.
  intros Hv Hs Hl. split.
  - unfold decode_frames. rewrite (proj2 (Z.ltb_ge _ _)) by (unfold McpProtocol.MAX_FRAME_BYTES, usize_max, u64_max in *; lia).
    by apply decode_frames_loop_app.
  - unfold decode_frames. rewrite guard_Ok, Z.ltb_ge. intros [Hb Hd]. split; [|unfold McpProtocol.MAX_FRAME_BYTES in *; lia].
    revert Hd. clear. generalize 128%nat as budget. intros budget. revert body decoded.
    induction budget as [|budget IH]; intros body decoded; cbn [decode_frames_loop]; destruct body as [|x body]; try done; try (intros [= <-]; simpl; lia).
    destruct (decode_delimited _) as [[f rest]|]; [|done]. rewrite guard_Ok, bind_Ok. intros (_ & fs & Hfs & [= <-]).
    apply IH in Hfs. simpl. lia.
Qed.
End invocation_frames.

Section runner_frames.
Context `{UuidLib} `{!ProstMessage RunnerRelayFrame} (valid : RunnerRelayFrame -> Prop) `{!ProstLaws RunnerRelayFrame valid}.

(** A frame of the runner relay is sent and received alike: what the encoder emits
    decodes to the same frame, and a decoded frame ends the relay exactly when it
    is not data. *)
Theorem runner_frame_round_trip frame bytes_ decoded :
  valid frame -> encode_runner_relay_frame frame = Ok bytes_ -> bytes_ <> [] ->
  decode_runner_relay_frame bytes_ = Ok frame /\
  (decode_runner_relay_frame bytes_ = Ok decoded ->
   RunnerRelayFrame_terminal decoded = negb (RunnerRelayFrame_kind decoded =? 1) /\
   len (RunnerRelayFrame_payload decoded) <= MAX_RUNNER_RELAY_PAYLOAD_BYTES).
Proof.
  intros Hv Hb Hne. unfold encode_runner_relay_frame in Hb. rewrite bind_Ok in Hb. destruct Hb as ([] & Hval & Henc).
  unfold encode_runner_message in Henc. rewrite guard_Ok, Z.ltb_ge in Henc. destruct Henc as [Hle [= <-]].
  unfold decode_runner_relay_frame, decode_runner_message. split.
  - rewrite (proj2 (Z.ltb_ge _ _)) by done. rewrite (proj2 (Z.eqb_neq _ _)) by (unfold len; destruct (encode_to_vec frame); simpl; lia || done).
    cbn [orb]. rewrite decode_encode by done. cbn [ok_or]. by rewrite Hval.
  - rewrite bind_Ok. intros (f & _ & Hf). rewrite bind_Ok in Hf. destruct Hf as ([] & Hf & [= <-]).
    unfold validate_runner_relay_frame in Hf. rewrite guard_Ok, bind_Ok in Hf. destruct Hf as (_ & kind & Hk & Hs).
    apply ok_or_Ok in Hk. rewrite guard_Ok, negb_false_iff in Hs. destruct Hs as [Hs _].
    assert (RunnerRelayFrame_kind f = match kind with RunnerRelayFrameKind_Unspecified => 0 | RunnerRelayFrameKind_Data => 1
              | RunnerRelayFrameKind_Close => 2 | RunnerRelayFrameKind_Error => 3 end) as ->.
    { unfold RunnerRelayFrameKind_try_from in Hk. destruct (RunnerRelayFrame_kind f) as [|p|p]; try done; [by simplify_eq|].
      repeat (destruct p as [p|p|]; try done; try (by simplify_eq)). }
    unfold MAX_RUNNER_RELAY_PAYLOAD_BYTES in *.
    destruct kind; cbn [runner_frame_shape] in Hs; rewrite ?andb_true_iff, ?negb_true_iff, ?Z.leb_le, ?Z.eqb_eq in Hs; try done;
      destruct_and?; simpl; (split; [done|]); unfold MAX_RUNNER_RELAY_PAYLOAD_BYTES in *; lia.
Qed.
End runner_frames.

(** ** Witnesses *)

Module Demo.
Import Concrete.

#[local] Instance field_eq_dec : EqDecision AttachmentFieldClaim.
Proof. solve_decision. Defined.
#[local] Instance attachment_eq_dec : EqDecision AttachmentClaim.
Proof. solve_decision. Defined.
#[local] Instance delegation_eq_dec : EqDecision DelegationClaims.
Proof. solve_decision. Defined.
#[local] Instance signed_delegation_eq_dec : EqDecision SignedDelegation.
Proof. solve_decision. Defined.
#[local] Instance grant_eq_dec : EqDecision CollaborationGrantClaims.
Proof. solve_decision. Defined.
#[local] Instance signed_grant_eq_dec : EqDecision SignedCollaborationGrant.
Proof. solve_decision. Defined.
#[local] Instance frame_eq_dec : EqDecision InvocationFrame.
Proof. solve_decision. Defined.

#[local] Instance field_countable : Countable AttachmentFieldClaim.
Proof.
  refine (inj_countable' (fun f => (AttachmentFieldClaim_disclosure f, AttachmentFieldClaim_target_json_pointer f, AttachmentFieldClaim_encoding f))
            (fun t => mkAttachmentFieldClaim t.1.1 t.1.2 t.2) _). by intros [].
Defined.

Definition attachment_fields (c : AttachmentClaim) : list string * list Z * list AttachmentFieldClaim :=
  ([AttachmentClaim_drive_id c; AttachmentClaim_node_id c; AttachmentClaim_version_id c; AttachmentClaim_data_grant_id c;
    AttachmentClaim_download_path c; AttachmentClaim_authorization c; AttachmentClaim_basename c; AttachmentClaim_media_type c],
   [AttachmentClaim_maximum_raw_bytes c; AttachmentClaim_drive_acl_generation c; AttachmentClaim_resource_acl_generation c;
    AttachmentClaim_membership_generation c; AttachmentClaim_namespace_generation c; AttachmentClaim_size_bytes c], AttachmentClaim_fields c).
Definition attachment_of_fields (t : list string * list Z * list AttachmentFieldClaim) : option AttachmentClaim :=
  match t with
  | ([a; b; c; d; e; f; g; h], [i; j; k; l; m; n], fields) => Some (mkAttachmentClaim a b c d fields i j k l m e f g h n)
  | _ => None
  end.
#[local] Instance attachment_countable : Countable AttachmentClaim.
Proof. refine (inj_countable attachment_fields attachment_of_fields _). by intros []. Defined.

Definition delegation_fields (c : DelegationClaims) : list string * list Z * list bytes * list AttachmentClaim :=
  ([DelegationClaims_capability_id c; DelegationClaims_audience c; DelegationClaims_tenant_id c; DelegationClaims_principal_id c;
    DelegationClaims_session_id c; DelegationClaims_application_id c; DelegationClaims_registration_id c; DelegationClaims_service_grant_id c],
   [DelegationClaims_operation c; DelegationClaims_policy_generation c; DelegationClaims_membership_generation c;
    DelegationClaims_issued_at_unix_seconds c; DelegationClaims_expires_at_unix_seconds c],
   [DelegationClaims_capability_fingerprint c; DelegationClaims_arguments_digest c; DelegationClaims_nonce c], DelegationClaims_attachments c).
Definition delegation_of_fields (t : list string * list Z * list bytes * list AttachmentClaim) : option DelegationClaims :=
  match t with
  | ([a; b; c; d; e; f; g; h], [i; j; k; l; m], [n; o; p], attachments) =>
      Some (mkDelegationClaims a b i c d e f g n o attachments j k p l m h)
  | _ => None
  end.
#[local] Instance delegation_countable : Countable DelegationClaims.
Proof. refine (inj_countable delegation_fields delegation_of_fields _). by intros []. Defined.
#[local] Instance signed_delegation_countable : Countable SignedDelegation.
Proof.
  refine (inj_countable' (fun s => (SignedDelegation_key_generation s, SignedDelegation_claims s, SignedDelegation_signature s))
            (fun t => mkSignedDelegation t.1.1 t.1.2 t.2) _). by intros [].
Defined.
#[local] Instance delegation_codec : ProstMessage DelegationClaims := countable_codec _.
#[local] Instance signed_delegation_codec : ProstMessage SignedDelegation := countable_codec _.
#[local] Instance delegation_laws : ProstLaws DelegationClaims (fun _ => True) := countable_codec_laws _ _.
#[local] Instance signed_delegation_laws : ProstLaws SignedDelegation (fun _ => True) := countable_codec_laws _ _.

Definition id1 : string := "11111111-1111-4111-8111-111111111111".
Definition demo_attachment : AttachmentClaim :=
  mkAttachmentClaim id1 id1 id1 id1 [mkAttachmentFieldClaim 1 "/document" 1; mkAttachmentFieldClaim 4 "/a~1b" 3] 1048576 1 1 1 1
    (DOWNLOAD_PATH +:+ id1) "fbcap1.signed" "document.txt" "text/plain" 8.
Definition demo_delegation (issued expires : Z) : DelegationClaims :=
  mkDelegationClaims id1 "filebelt-mcp-broker" 1 id1 id1 "" "filebelt.settings.mcp-test" id1 (replicate 32 "f"%char) (replicate 32 "a"%char)
    [demo_attachment] 1 1 (replicate 16 "n"%char) issued expires "".
Definition demo_keys : TypedKeyset ApiMcpDelegation := Typed ApiMcpDelegation [(2, demo_key "d")].
Definition demo_pair : @ed_keypair ed25519_lib := demo_key "d".
Definition demo_wire : string := seal delegation_family (demo_delegation 100 220) 2 demo_pair.

Lemma demo_delegation_typed issued expires : is_i64 issued -> is_i64 expires -> delegation_typed (demo_delegation issued expires).
Proof. intros Hi He. split; [exact Hi|]. split; [exact He|]. by apply Forall_singleton. Qed.

Lemma demo_vouched : vouched delegation_family demo_wire demo_keys (mkAuthenticated (demo_delegation 100 220) 2).
Proof. eapply (unseal_seal _ (fun _ => True) (fun _ => True)); done. Qed.

Lemma demo_delegation_admits : delegation_admits (demo_delegation 100 220) "filebelt-mcp-broker" McpOperation_Invoke 110.
Proof. apply delegation_validate_at_iff; [by apply demo_delegation_typed|]. by vm_compute. Qed.

Lemma delegation_accepted_iff_witness :
  verify_mcp_delegation demo_wire demo_keys "filebelt-mcp-broker" McpOperation_Invoke 110 = Ok (mkAuthenticated (demo_delegation 100 220) 2).
Proof.
  apply (delegation_accepted_iff demo_wire demo_keys "filebelt-mcp-broker" McpOperation_Invoke 110 (mkAuthenticated (demo_delegation 100 220) 2)).
  - by apply demo_delegation_typed.
  - split; [apply demo_vouched|apply demo_delegation_admits].
Defined.

(** Join grants. *)
Definition grant_fields (c : CollaborationGrantClaims) : list string * list Z * bool * bytes :=
  ([CollaborationGrantClaims_grant_id c; CollaborationGrantClaims_tenant_id c; CollaborationGrantClaims_room_id c;
    CollaborationGrantClaims_drive_id c; CollaborationGrantClaims_node_id c; CollaborationGrantClaims_base_version_id c;
    CollaborationGrantClaims_principal_id c; CollaborationGrantClaims_session_id c; CollaborationGrantClaims_client_id c;
    CollaborationGrantClaims_presence_label c; CollaborationGrantClaims_bootstrap_download_capability c],
   [CollaborationGrantClaims_room_epoch c; CollaborationGrantClaims_presence_mode c; CollaborationGrantClaims_resource_acl_generation c;
    CollaborationGrantClaims_drive_acl_generation c; CollaborationGrantClaims_membership_generation c;
    CollaborationGrantClaims_namespace_generation c; CollaborationGrantClaims_issued_at_unix_seconds c;
    CollaborationGrantClaims_expires_at_unix_seconds c], CollaborationGrantClaims_can_checkpoint c, CollaborationGrantClaims_nonce c).
Definition grant_of_fields (t : list string * list Z * bool * bytes) : option CollaborationGrantClaims :=
  match t with
  | ([a; b; c; d; e; f; g; h; i; label; boot], [epoch; mode; r; dr; m; n; issued; expires], checkpoint, nonce) =>
      Some (mkCollaborationGrantClaims a b c epoch d e f g h i mode label r dr m n checkpoint issued expires nonce boot)
  | _ => None
  end.
#[local] Instance grant_countable : Countable CollaborationGrantClaims.
Proof. refine (inj_countable grant_fields grant_of_fields _). by intros []. Defined.
#[local] Instance signed_grant_countable : Countable SignedCollaborationGrant.
Proof.
  refine (inj_countable' (fun s => (SignedCollaborationGrant_key_generation s, SignedCollaborationGrant_claims s, SignedCollaborationGrant_signature s))
            (fun t => mkSignedCollaborationGrant t.1.1 t.1.2 t.2) _). by intros [].
Defined.
#[local] Instance grant_codec : ProstMessage CollaborationGrantClaims := countable_codec _.
#[local] Instance signed_grant_codec : ProstMessage SignedCollaborationGrant := countable_codec _.
#[local] Instance grant_laws : ProstLaws CollaborationGrantClaims (fun _ => True) := countable_codec_laws _ _.
#[local] Instance signed_grant_laws : ProstLaws SignedCollaborationGrant (fun _ => True) := countable_codec_laws _ _.

Definition demo_grant (issued expires : Z) : CollaborationGrantClaims :=
  mkCollaborationGrantClaims id1 id1 id1 1 id1 id1 id1 id1 id1 id1 1 "Editor 7" 1 1 1 1 true issued expires (replicate 32 "n"%char) "fbcap1.test".
Definition grant_keys : TypedKeyset ApiCollaborationGrant := Typed ApiCollaborationGrant [(3, demo_key "g")].
Definition grant_pair : @ed_keypair ed25519_lib := demo_key "g".

Lemma join_grant_round_trip_witness :
  exists wire, sign_collaboration_grant (demo_grant 100 160) 3 grant_pair = Ok wire /\
    verify_collaboration_grant wire grant_keys 120 = Ok (mkAuthenticated (demo_grant 100 160) 3).
Proof.
  destruct (join_grant_round_trip (fun _ => True) (fun _ => True) (fun _ _ _ _ => I) (demo_grant 100 160) 3 grant_pair grant_keys 120
              (mkAuthenticated (demo_grant 100 160) 3)) as (wire & Hs & Hv); try done.
  exists wire. split; [exact Hs|]. apply Hv. split; [done|]. apply grant_validate_at_iff; by vm_compute.
Defined.

(** The lifetime tests do not bound lifetimes by themselves: the subtraction of
    the two times wraps around, so there are claims with times of 64 bits, valid for
    far more than the 60 or 120 seconds, that are accepted at every time from the
    epoch to the last one. *)
Theorem lifetime_checks_wrap :
  exists grant delegation,
    let issued := CollaborationGrantClaims_issued_at_unix_seconds grant in
    let expires := CollaborationGrantClaims_expires_at_unix_seconds grant in
    let issued' := DelegationClaims_issued_at_unix_seconds delegation in
    let expires' := DelegationClaims_expires_at_unix_seconds delegation in
    (is_i64 issued /\ is_i64 expires /\ MAX_GRANT_LIFETIME_SECONDS < expires - issued) /\
    (is_i64 issued' /\ is_i64 expires' /\ MAX_DELEGATION_LIFETIME_SECONDS < expires' - issued') /\
    forall now, 0 <= now < i64_max ->
      grant_validate_at grant now = Ok tt /\ delegation_validate_at delegation "filebelt-mcp-broker" now = Ok tt.
Proof.
  exists (demo_grant i64_min i64_max), (demo_delegation i64_min i64_max). cbv zeta. do 2 (split; [done|]).
  intros now Hnow. assert (i64_min <= now < i64_max) as Ht by (unfold i64_min in *; lia). split.
  - apply grant_validate_at_iff; [done|done|].
    assert (grant_admits (demo_grant i64_min i64_max) 0) as [] by (apply grant_validate_at_iff; by vm_compute). by split.
  - apply (delegation_validate_at_iff _ _ McpOperation_Invoke); [by apply demo_delegation_typed|].
    assert (delegation_admits (demo_delegation i64_min i64_max) "filebelt-mcp-broker" McpOperation_Invoke 0) as []
      by (apply delegation_validate_at_iff; [by apply demo_delegation_typed|by vm_compute]).
    by split.
Qed.

(** Frames: a codec with two length bytes, for messages up to 65535 bytes. *)
Definition frame_tuple (f : InvocationFrame) : string * Z * Z * bytes * string * bool :=
  (InvocationFrame_request_id f, InvocationFrame_sequence f, InvocationFrame_kind f, InvocationFrame_payload f, InvocationFrame_code f,
   InvocationFrame_terminal f).
#[local] Instance frame_countable : Countable InvocationFrame.
Proof.
  refine (inj_countable' frame_tuple (fun '(a, b, c, d, e, f) => mkInvocationFrame a b c d e f) _). by intros [].
Defined.
#[local] Instance frame_codec : ProstMessage InvocationFrame := countable_codec _.
#[local] Instance frame_delimited : ProstDelimited InvocationFrame := {|
  encode_delimited m := byte_of_Z (len (encode_to_vec m) / 256) :: byte_of_Z (len (encode_to_vec m)) :: encode_to_vec m;
  decode_delimited b :=
    match b with
    | h :: l :: rest =>
        let n := Z.to_nat (256 * byte_val h + byte_val l) in
        if (n <=? length rest)%nat then (fun m => (m, drop n rest)) <$> decode_message (take n rest) else None
    | _ => None
    end;
  encoded_len m := len (encode_to_vec m) |}.
#[local] Instance frame_delimited_laws : ProstDelimitedLaws InvocationFrame (fun m => len (encode_to_vec m) <= 65535).
Proof.
  split.
  - intros m rest Hm. cbn [encode_delimited decode_delimited frame_delimited app]. cbv zeta. pose proof (len_nonneg (encode_to_vec m)).
    rewrite !byte_val_of_Z. replace (Z.to_nat _) with (length (encode_to_vec m)); cycle 1.
    { unfold len in *. Z.to_euclidean_division_equations; lia. }
    rewrite length_app.
    rewrite (proj2 (Nat.leb_le _ _)) by lia. rewrite take_app_length, drop_app_length.
    by rewrite (@decode_encode _ frame_codec _ (countable_codec_laws InvocationFrame (fun _ => True)) m I).
  - intros m. cbn [encode_delimited encoded_len frame_delimited]. unfold len. simpl. lia.
Qed.

Definition demo_frame (n : Z) : InvocationFrame := mkInvocationFrame "r" n 4 (as_bytes "{}") "" false.

Lemma forallb_Forall_len b l :
  forallb (fun m => len (encode_to_vec m) <=? b) l = true -> Forall (fun m : InvocationFrame => len (encode_to_vec m) <= b) l.
Proof. rewrite forallb_forall, Forall_forall. intros Hl x Hx. apply Z.leb_le, Hl, list_elem_of_In, Hx. Qed.

Lemma invocation_frames_round_trip_witness :
  decode_frames (concat (map encode_delimited [demo_frame 1; demo_frame 2])) = Ok [demo_frame 1; demo_frame 2].
Proof.
  apply (invocation_frames_round_trip (fun m => len (encode_to_vec m) <= 65535) [demo_frame 1; demo_frame 2] [] []).
  - apply forallb_Forall_len. vm_compute. reflexivity.
  - apply forallb_Forall_len. vm_compute. reflexivity.
  - by vm_compute.
Defined.
End Demo.
