(* ===== verification/VfsMessages.v ===== *)
(** The messages of the virtual file system gateway protocol, as in
    [protocol/generated/rust/filebelt/vfs/v1]: a record per message, with the
    fields of a message [M] named [M_field], and the enumerations with the
    conversion from their wire numbers. *)
From S2P Require Import Prelude.

Open Scope string_scope.
Open Scope Z_scope.

(** ** Enumerations *)

Inductive MountProtocol :=
| MountProtocol_Unspecified | MountProtocol_Smb | MountProtocol_Ftps | MountProtocol_Nfs.
#[export] Instance MountProtocol_eq_dec : EqDecision MountProtocol.
Proof. solve_decision. Defined.
Definition MountProtocol_try_from (k : Z) : option MountProtocol :=
  match k with
  | 0 => Some MountProtocol_Unspecified
  | 1 => Some MountProtocol_Smb
  | 2 => Some MountProtocol_Ftps
  | 3 => Some MountProtocol_Nfs
  | _ => None
  end.

Inductive AuthenticationScheme :=
| AuthenticationScheme_Unspecified | AuthenticationScheme_Ntlmv2Response | AuthenticationScheme_PasswordHmacSha256.
#[export] Instance AuthenticationScheme_eq_dec : EqDecision AuthenticationScheme.
Proof. solve_decision. Defined.
Definition AuthenticationScheme_try_from (k : Z) : option AuthenticationScheme :=
  match k with
  | 0 => Some AuthenticationScheme_Unspecified
  | 1 => Some AuthenticationScheme_Ntlmv2Response
  | 2 => Some AuthenticationScheme_PasswordHmacSha256
  | _ => None
  end.

Inductive NfsGatewayFeature :=
| NfsGatewayFeature_Unspecified | NfsGatewayFeature_RpcsecGssPrivacy | NfsGatewayFeature_PersistentHandles | NfsGatewayFeature_Nfs4Acl | NfsGatewayFeature_SparseFiles | NfsGatewayFeature_Xattr | NfsGatewayFeature_Symlink.
#[export] Instance NfsGatewayFeature_eq_dec : EqDecision NfsGatewayFeature.
Proof. solve_decision. Defined.
Definition NfsGatewayFeature_try_from (k : Z) : option NfsGatewayFeature :=
  match k with
  | 0 => Some NfsGatewayFeature_Unspecified
  | 1 => Some NfsGatewayFeature_RpcsecGssPrivacy
  | 2 => Some NfsGatewayFeature_PersistentHandles
  | 3 => Some NfsGatewayFeature_Nfs4Acl
  | 4 => Some NfsGatewayFeature_SparseFiles
  | 5 => Some NfsGatewayFeature_Xattr
  | 6 => Some NfsGatewayFeature_Symlink
  | _ => None
  end.

Inductive RpcsecGssProtection :=
| RpcsecGssProtection_Unspecified | RpcsecGssProtection_Privacy.
#[export] Instance RpcsecGssProtection_eq_dec : EqDecision RpcsecGssProtection.
Proof. solve_decision. Defined.
Definition RpcsecGssProtection_try_from (k : Z) : option RpcsecGssProtection :=
  match k with
  | 0 => Some RpcsecGssProtection_Unspecified
  | 1 => Some RpcsecGssProtection_Privacy
  | _ => None
  end.

Inductive SparseControlKind :=
| SparseControlKind_Unspecified | SparseControlKind_SeekData | SparseControlKind_SeekHole | SparseControlKind_Allocate | SparseControlKind_Deallocate.
#[export] Instance SparseControlKind_eq_dec : EqDecision SparseControlKind.
Proof. solve_decision. Defined.
Definition SparseControlKind_try_from (k : Z) : option SparseControlKind :=
  match k with
  | 0 => Some SparseControlKind_Unspecified
  | 1 => Some SparseControlKind_SeekData
  | 2 => Some SparseControlKind_SeekHole
  | 3 => Some SparseControlKind_Allocate
  | 4 => Some SparseControlKind_Deallocate
  | _ => None
  end.

Inductive VfsAction :=
| VfsAction_Unspecified | VfsAction_ReadMetadata | VfsAction_ReadContent | VfsAction_CreateChild | VfsAction_WriteContent | VfsAction_Delete | VfsAction_Rename | VfsAction_Move | VfsAction_WriteMetadata | VfsAction_ManageLock | VfsAction_ListChildren | VfsAction_Traverse | VfsAction_ManageAcl.
#[export] Instance VfsAction_eq_dec : EqDecision VfsAction.
Proof. solve_decision. Defined.
Definition VfsAction_try_from (k : Z) : option VfsAction :=
  match k with
  | 0 => Some VfsAction_Unspecified
  | 1 => Some VfsAction_ReadMetadata
  | 2 => Some VfsAction_ReadContent
  | 3 => Some VfsAction_CreateChild
  | 4 => Some VfsAction_WriteContent
  | 5 => Some VfsAction_Delete
  | 6 => Some VfsAction_Rename
  | 7 => Some VfsAction_Move
  | 8 => Some VfsAction_WriteMetadata
  | 9 => Some VfsAction_ManageLock
  | 10 => Some VfsAction_ListChildren
  | 11 => Some VfsAction_Traverse
  | 12 => Some VfsAction_ManageAcl
  | _ => None
  end.

Inductive LeaseState :=
| LeaseState_Unspecified | LeaseState_Granted | LeaseState_Breaking | LeaseState_Broken | LeaseState_Released.
#[export] Instance LeaseState_eq_dec : EqDecision LeaseState.
Proof. solve_decision. Defined.
Definition LeaseState_try_from (k : Z) : option LeaseState :=
  match k with
  | 0 => Some LeaseState_Unspecified
  | 1 => Some LeaseState_Granted
  | 2 => Some LeaseState_Breaking
  | 3 => Some LeaseState_Broken
  | 4 => Some LeaseState_Released
  | _ => None
  end.

Inductive NodeKind :=
| NodeKind_Unspecified | NodeKind_File | NodeKind_Directory | NodeKind_Symlink.
#[export] Instance NodeKind_eq_dec : EqDecision NodeKind.
Proof. solve_decision. Defined.
Definition NodeKind_try_from (k : Z) : option NodeKind :=
  match k with
  | 0 => Some NodeKind_Unspecified
  | 1 => Some NodeKind_File
  | 2 => Some NodeKind_Directory
  | 3 => Some NodeKind_Symlink
  | _ => None
  end.

Inductive AclRepresentation :=
| AclRepresentation_Unspecified | AclRepresentation_Tagged | AclRepresentation_Synthesized.
#[export] Instance AclRepresentation_eq_dec : EqDecision AclRepresentation.
Proof. solve_decision. Defined.
Definition AclRepresentation_try_from (k : Z) : option AclRepresentation :=
  match k with
  | 0 => Some AclRepresentation_Unspecified
  | 1 => Some AclRepresentation_Tagged
  | 2 => Some AclRepresentation_Synthesized
  | _ => None
  end.

Inductive AclEntryType :=
| AclEntryType_Unspecified | AclEntryType_Allow | AclEntryType_Deny.
#[export] Instance AclEntryType_eq_dec : EqDecision AclEntryType.
Proof. solve_decision. Defined.
Definition AclEntryType_try_from (k : Z) : option AclEntryType :=
  match k with
  | 0 => Some AclEntryType_Unspecified
  | 1 => Some AclEntryType_Allow
  | 2 => Some AclEntryType_Deny
  | _ => None
  end.

Inductive AclPrincipalKind :=
| AclPrincipalKind_Unspecified | AclPrincipalKind_Owner | AclPrincipalKind_OwnerGroup | AclPrincipalKind_Everyone | AclPrincipalKind_NamedUser | AclPrincipalKind_NamedGroup.
#[export] Instance AclPrincipalKind_eq_dec : EqDecision AclPrincipalKind.
Proof. solve_decision. Defined.
Definition AclPrincipalKind_try_from (k : Z) : option AclPrincipalKind :=
  match k with
  | 0 => Some AclPrincipalKind_Unspecified
  | 1 => Some AclPrincipalKind_Owner
  | 2 => Some AclPrincipalKind_OwnerGroup
  | 3 => Some AclPrincipalKind_Everyone
  | 4 => Some AclPrincipalKind_NamedUser
  | 5 => Some AclPrincipalKind_NamedGroup
  | _ => None
  end.

Inductive AclInheritance :=
| AclInheritance_Unspecified | AclInheritance_ThisResource | AclInheritance_Children | AclInheritance_Descendants.
#[export] Instance AclInheritance_eq_dec : EqDecision AclInheritance.
Proof. solve_decision. Defined.
Definition AclInheritance_try_from (k : Z) : option AclInheritance :=
  match k with
  | 0 => Some AclInheritance_Unspecified
  | 1 => Some AclInheritance_ThisResource
  | 2 => Some AclInheritance_Children
  | 3 => Some AclInheritance_Descendants
  | _ => None
  end.

Inductive VfsError :=
| VfsError_Unspecified | VfsError_Ok | VfsError_InvalidRequest | VfsError_Unauthenticated | VfsError_AccessDenied | VfsError_NotFound | VfsError_AlreadyExists | VfsError_NotDirectory | VfsError_IsDirectory | VfsError_DirectoryNotEmpty | VfsError_NameInvalid | VfsError_Conflict | VfsError_StaleGeneration | VfsError_LockConflict | VfsError_LeaseBreakRequired | VfsError_QuotaExceeded | VfsError_StorageUnavailable | VfsError_RateLimited | VfsError_NotSupported | VfsError_Unavailable.
#[export] Instance VfsError_eq_dec : EqDecision VfsError.
Proof. solve_decision. Defined.
Definition VfsError_try_from (k : Z) : option VfsError :=
  match k with
  | 0 => Some VfsError_Unspecified
  | 1 => Some VfsError_Ok
  | 2 => Some VfsError_InvalidRequest
  | 3 => Some VfsError_Unauthenticated
  | 4 => Some VfsError_AccessDenied
  | 5 => Some VfsError_NotFound
  | 6 => Some VfsError_AlreadyExists
  | 7 => Some VfsError_NotDirectory
  | 8 => Some VfsError_IsDirectory
  | 9 => Some VfsError_DirectoryNotEmpty
  | 10 => Some VfsError_NameInvalid
  | 11 => Some VfsError_Conflict
  | 12 => Some VfsError_StaleGeneration
  | 13 => Some VfsError_LockConflict
  | 14 => Some VfsError_LeaseBreakRequired
  | 15 => Some VfsError_QuotaExceeded
  | 16 => Some VfsError_StorageUnavailable
  | 17 => Some VfsError_RateLimited
  | 18 => Some VfsError_NotSupported
  | 19 => Some VfsError_Unavailable
  | _ => None
  end.

(** ** Messages *)

Record AuthenticateRequest := mkAuthenticateRequest {
  AuthenticateRequest_username : string;
  AuthenticateRequest_scheme : Z;
  AuthenticateRequest_exchange : bytes;
  AuthenticateRequest_channel_binding : bytes;
  AuthenticateRequest_source_address : string;
  AuthenticateRequest_device_id : string
}.
Record ListRequest := mkListRequest {
  ListRequest_drive_id : string;
  ListRequest_directory_id : string;
  ListRequest_cursor : string;
  ListRequest_limit : Z;
  ListRequest_directory_handle : bytes
}.
Record StatRequest := mkStatRequest {
  StatRequest_drive_id : string;
  StatRequest_resource_id : string;
  StatRequest_persistent_handle : bytes
}.
Record OpenRequest := mkOpenRequest {
  OpenRequest_drive_id : string;
  OpenRequest_resource_id : string;
  OpenRequest_expected_version_id : string;
  OpenRequest_requested_actions : list Z;
  OpenRequest_share_read : bool;
  OpenRequest_share_write : bool;
  OpenRequest_share_delete : bool;
  OpenRequest_persistent_handle : bytes
}.
Record ReadRequest := mkReadRequest {
  ReadRequest_handle_id : string;
  ReadRequest_offset : Z;
  ReadRequest_length : Z
}.
Record WriteRequest := mkWriteRequest {
  WriteRequest_handle_id : string;
  WriteRequest_write_session_id : string;
  WriteRequest_fencing_token : Z;
  WriteRequest_offset : Z;
  WriteRequest_data : bytes
}.
Record FlushRequest := mkFlushRequest {
  FlushRequest_handle_id : string;
  FlushRequest_write_session_id : string;
  FlushRequest_fencing_token : Z
}.
Record CommitRequest := mkCommitRequest {
  CommitRequest_handle_id : string;
  CommitRequest_write_session_id : string;
  CommitRequest_fencing_token : Z;
  CommitRequest_expected_head_version_id : string
}.
Record CloseRequest := mkCloseRequest {
  CloseRequest_handle_id : string
}.
Record CreateRequest := mkCreateRequest {
  CreateRequest_drive_id : string;
  CreateRequest_parent_id : string;
  CreateRequest_display_name : string;
  CreateRequest_expected_parent_generation : Z;
  CreateRequest_requested_actions : list Z;
  CreateRequest_parent_handle : bytes;
  CreateRequest_mode : option Z
}.
Record MkdirRequest := mkMkdirRequest {
  MkdirRequest_drive_id : string;
  MkdirRequest_parent_id : string;
  MkdirRequest_display_name : string;
  MkdirRequest_expected_parent_generation : Z;
  MkdirRequest_parent_handle : bytes;
  MkdirRequest_mode : option Z
}.
Record RenameRequest := mkRenameRequest {
  RenameRequest_drive_id : string;
  RenameRequest_resource_id : string;
  RenameRequest_target_parent_id : string;
  RenameRequest_target_display_name : string;
  RenameRequest_expected_namespace_generation : Z;
  RenameRequest_resource_handle : bytes;
  RenameRequest_target_parent_handle : bytes
}.
Record RemoveRequest := mkRemoveRequest {
  RemoveRequest_drive_id : string;
  RemoveRequest_resource_id : string;
  RemoveRequest_expected_namespace_generation : Z;
  RemoveRequest_recursive : bool;
  RemoveRequest_persistent_handle : bytes
}.
Record SetAttributesRequest := mkSetAttributesRequest {
  SetAttributesRequest_drive_id : string;
  SetAttributesRequest_resource_id : string;
  SetAttributesRequest_modified_at_unix_seconds : option Z;
  SetAttributesRequest_accessed_at_unix_seconds : option Z;
  SetAttributesRequest_read_only : option bool;
  SetAttributesRequest_size_bytes : option Z;
  SetAttributesRequest_mode : option Z;
  SetAttributesRequest_projected_uid : option Z;
  SetAttributesRequest_projected_gid : option Z;
  SetAttributesRequest_owner_name : option string;
  SetAttributesRequest_group_name : option string;
  SetAttributesRequest_persistent_handle : bytes
}.
Record LockRequest := mkLockRequest {
  LockRequest_handle_id : string;
  LockRequest_owner_key : string;
  LockRequest_offset : Z;
  LockRequest_length : Z;
  LockRequest_exclusive : bool;
  LockRequest_to_eof : bool
}.
Record UnlockRequest := mkUnlockRequest {
  UnlockRequest_handle_id : string;
  UnlockRequest_lock_id : string
}.
Record LeaseAcknowledgeRequest := mkLeaseAcknowledgeRequest {
  LeaseAcknowledgeRequest_handle_id : string;
  LeaseAcknowledgeRequest_lease_id : string;
  LeaseAcknowledgeRequest_fencing_token : Z;
  LeaseAcknowledgeRequest_state : Z
}.
Record AllocatePassivePortRequest := mkAllocatePassivePortRequest {
  AllocatePassivePortRequest_source_address : string;
  AllocatePassivePortRequest_binding_digest : bytes
}.
Record HeartbeatRequest := mkHeartbeatRequest { }.
Record EndSessionRequest := mkEndSessionRequest {
  EndSessionRequest_reason_code : string
}.
Record NfsGatewayCompatibility := mkNfsGatewayCompatibility {
  NfsGatewayCompatibility_minimum_protocol_version : Z;
  NfsGatewayCompatibility_maximum_protocol_version : Z;
  NfsGatewayCompatibility_features : list Z;
  NfsGatewayCompatibility_release_revision : string;
  NfsGatewayCompatibility_config_format : Z;
  NfsGatewayCompatibility_authority_schema_revision : Z
}.
Record GatewayHelloRequest := mkGatewayHelloRequest {
  GatewayHelloRequest_shard_key : string;
  GatewayHelloRequest_tenant_slug : string;
  GatewayHelloRequest_boot_id : string;
  GatewayHelloRequest_nfs_compatibility : option NfsGatewayCompatibility
}.
Record NfsAuthenticateRequest := mkNfsAuthenticateRequest {
  NfsAuthenticateRequest_kerberos_principal : string;
  NfsAuthenticateRequest_gss_binding_digest : bytes;
  NfsAuthenticateRequest_source_address : string;
  NfsAuthenticateRequest_protection : Z;
  NfsAuthenticateRequest_context_expires_at_unix_seconds : Z
}.
Record GetXattrRequest := mkGetXattrRequest {
  GetXattrRequest_drive_id : string;
  GetXattrRequest_resource_id : string;
  GetXattrRequest_name : string;
  GetXattrRequest_persistent_handle : bytes
}.
Record SetXattrRequest := mkSetXattrRequest {
  SetXattrRequest_drive_id : string;
  SetXattrRequest_resource_id : string;
  SetXattrRequest_name : string;
  SetXattrRequest_value : bytes;
  SetXattrRequest_create_only : bool;
  SetXattrRequest_replace_only : bool;
  SetXattrRequest_persistent_handle : bytes
}.
Record ListXattrRequest := mkListXattrRequest {
  ListXattrRequest_drive_id : string;
  ListXattrRequest_resource_id : string;
  ListXattrRequest_persistent_handle : bytes
}.
Record RemoveXattrRequest := mkRemoveXattrRequest {
  RemoveXattrRequest_drive_id : string;
  RemoveXattrRequest_resource_id : string;
  RemoveXattrRequest_name : string;
  RemoveXattrRequest_persistent_handle : bytes
}.
Record ReadlinkRequest := mkReadlinkRequest {
  ReadlinkRequest_drive_id : string;
  ReadlinkRequest_resource_id : string;
  ReadlinkRequest_persistent_handle : bytes
}.
Record SymlinkRequest := mkSymlinkRequest {
  SymlinkRequest_drive_id : string;
  SymlinkRequest_parent_id : string;
  SymlinkRequest_display_name : string;
  SymlinkRequest_target : string;
  SymlinkRequest_expected_parent_generation : Z;
  SymlinkRequest_parent_handle : bytes;
  SymlinkRequest_mode : option Z
}.
Record SparseWriteRequest := mkSparseWriteRequest {
  SparseWriteRequest_handle_id : string;
  SparseWriteRequest_write_session_id : string;
  SparseWriteRequest_fencing_token : Z;
  SparseWriteRequest_offset : Z;
  SparseWriteRequest_length : Z;
  SparseWriteRequest_data : bytes;
  SparseWriteRequest_hole : bool
}.
Record ReclaimRequest := mkReclaimRequest {
  ReclaimRequest_client_id : string;
  ReclaimRequest_state_id : string;
  ReclaimRequest_gateway_epoch : Z
}.
Record OpenUnlinkedRequest := mkOpenUnlinkedRequest {
  OpenUnlinkedRequest_handle_id : string;
  OpenUnlinkedRequest_write_session_id : string;
  OpenUnlinkedRequest_fencing_token : Z
}.
Record ResolveHandleRequest := mkResolveHandleRequest {
  ResolveHandleRequest_persistent_handle : bytes
}.
Record ExportRootRequest := mkExportRootRequest {
  ExportRootRequest_export_id : Z
}.
Record LookupRequest := mkLookupRequest {
  LookupRequest_parent_handle : bytes;
  LookupRequest_display_name : string
}.
Record AccessRequest := mkAccessRequest {
  AccessRequest_persistent_handle : bytes;
  AccessRequest_requested_actions : list Z
}.
Record FilesystemInfoRequest := mkFilesystemInfoRequest {
  FilesystemInfoRequest_export_id : Z
}.
Record GetAclRequest := mkGetAclRequest {
  GetAclRequest_persistent_handle : bytes
}.
Record VfsAclEntry := mkVfsAclEntry {
  VfsAclEntry_entry_type : Z;
  VfsAclEntry_principal_kind : Z;
  VfsAclEntry_principal : string;
  VfsAclEntry_actions : list Z;
  VfsAclEntry_inheritance : Z;
  VfsAclEntry_inherited : bool
}.
Record VfsAcl := mkVfsAcl {
  VfsAcl_representation : Z;
  VfsAcl_generation : Z;
  VfsAcl_entries : list VfsAclEntry
}.
Record SetAclRequest := mkSetAclRequest {
  SetAclRequest_persistent_handle : bytes;
  SetAclRequest_acl : option VfsAcl;
  SetAclRequest_expected_acl_generation : Z
}.
Record SparseControlRequest := mkSparseControlRequest {
  SparseControlRequest_handle_id : string;
  SparseControlRequest_kind : Z;
  SparseControlRequest_offset : Z;
  SparseControlRequest_length : Z
}.
Record GatewayDrainRequest := mkGatewayDrainRequest {
  GatewayDrainRequest_boot_id : string
}.
Record NfsAppliedExport := mkNfsAppliedExport {
  NfsAppliedExport_export_id : Z;
  NfsAppliedExport_generation : Z;
  NfsAppliedExport_root_handle_digest : bytes
}.
Record GatewayReconcileRequest := mkGatewayReconcileRequest {
  GatewayReconcileRequest_boot_id : string;
  GatewayReconcileRequest_feature_generation : Z;
  GatewayReconcileRequest_export_generation : Z;
  GatewayReconcileRequest_manifest_digest : bytes;
  GatewayReconcileRequest_applied_exports : list NfsAppliedExport
}.
Record TestLockRequest := mkTestLockRequest {
  TestLockRequest_handle_id : string;
  TestLockRequest_owner_key : string;
  TestLockRequest_offset : Z;
  TestLockRequest_length : Z;
  TestLockRequest_exclusive : bool;
  TestLockRequest_to_eof : bool
}.
Inductive Operation :=
| Op_Authenticate (request : AuthenticateRequest)
| Op_List (request : ListRequest)
| Op_Stat (request : StatRequest)
| Op_Open (request : OpenRequest)
| Op_Read (request : ReadRequest)
| Op_Write (request : WriteRequest)
| Op_Flush (request : FlushRequest)
| Op_Commit (request : CommitRequest)
| Op_Close (request : CloseRequest)
| Op_Create (request : CreateRequest)
| Op_Mkdir (request : MkdirRequest)
| Op_Rename (request : RenameRequest)
| Op_Remove (request : RemoveRequest)
| Op_SetAttributes (request : SetAttributesRequest)
| Op_Lock (request : LockRequest)
| Op_Unlock (request : UnlockRequest)
| Op_LeaseAcknowledge (request : LeaseAcknowledgeRequest)
| Op_AllocatePassivePort (request : AllocatePassivePortRequest)
| Op_Heartbeat (request : HeartbeatRequest)
| Op_EndSession (request : EndSessionRequest)
| Op_GatewayHello (request : GatewayHelloRequest)
| Op_NfsAuthenticate (request : NfsAuthenticateRequest)
| Op_GetXattr (request : GetXattrRequest)
| Op_SetXattr (request : SetXattrRequest)
| Op_ListXattr (request : ListXattrRequest)
| Op_RemoveXattr (request : RemoveXattrRequest)
| Op_Readlink (request : ReadlinkRequest)
| Op_Symlink (request : SymlinkRequest)
| Op_SparseWrite (request : SparseWriteRequest)
| Op_Reclaim (request : ReclaimRequest)
| Op_OpenUnlinked (request : OpenUnlinkedRequest)
| Op_ResolveHandle (request : ResolveHandleRequest)
| Op_ExportRoot (request : ExportRootRequest)
| Op_Lookup (request : LookupRequest)
| Op_Access (request : AccessRequest)
| Op_FilesystemInfo (request : FilesystemInfoRequest)
| Op_GetAcl (request : GetAclRequest)
| Op_SetAcl (request : SetAclRequest)
| Op_SparseControl (request : SparseControlRequest)
| Op_GatewayDrain (request : GatewayDrainRequest)
| Op_GatewayReconcile (request : GatewayReconcileRequest)
| Op_TestLock (request : TestLockRequest).

Record NfsRequestContext := mkNfsRequestContext {
  NfsRequestContext_gss_binding_digest : bytes;
  NfsRequestContext_client_id : string;
  NfsRequestContext_nfs_session_id : string;
  NfsRequestContext_slot_id : Z;
  NfsRequestContext_sequence_id : Z;
  NfsRequestContext_operation_index : Z;
  NfsRequestContext_request_digest : bytes
}.
Record VfsRequest := mkVfsRequest {
  VfsRequest_protocol_version : Z;
  VfsRequest_request_id : string;
  VfsRequest_tenant_id : string;
  VfsRequest_protocol : Z;
  VfsRequest_gateway_id : string;
  VfsRequest_gateway_epoch : Z;
  VfsRequest_session_id : string;
  VfsRequest_credential_generation : Z;
  VfsRequest_authorization_generation : Z;
  VfsRequest_nfs_context : option NfsRequestContext;
  VfsRequest_operation : option Operation
}.
Record NfsSessionProjection := mkNfsSessionProjection {
  NfsSessionProjection_posix_name : string;
  NfsSessionProjection_primary_group_name : string;
  NfsSessionProjection_projected_uid : Z;
  NfsSessionProjection_projected_gid : Z;
  NfsSessionProjection_mapping_generation : Z;
  NfsSessionProjection_feature_generation : Z;
  NfsSessionProjection_absolute_expires_at_unix_seconds : Z;
  NfsSessionProjection_allowed_export_ids : list Z
}.
Record FilesystemInfo := mkFilesystemInfo {
  FilesystemInfo_total_bytes : Z;
  FilesystemInfo_free_bytes : Z;
  FilesystemInfo_available_bytes : Z;
  FilesystemInfo_total_files : Z;
  FilesystemInfo_free_files : Z;
  FilesystemInfo_maximum_file_size : Z;
  FilesystemInfo_maximum_name_bytes : Z;
  FilesystemInfo_preferred_io_bytes : Z;
  FilesystemInfo_supports_sparse_files : bool;
  FilesystemInfo_supports_acl : bool;
  FilesystemInfo_supports_xattr : bool
}.
Record LockConflict := mkLockConflict {
  LockConflict_offset : Z;
  LockConflict_length : Z;
  LockConflict_exclusive : bool;
  LockConflict_to_eof : bool
}.
Record NfsExportManifestEntry := mkNfsExportManifestEntry {
  NfsExportManifestEntry_export_id : Z;
  NfsExportManifestEntry_drive_id : string;
  NfsExportManifestEntry_export_path : string;
  NfsExportManifestEntry_generation : Z;
  NfsExportManifestEntry_root_handle : bytes;
  NfsExportManifestEntry_read_only : bool
}.
Record NfsGatewayHelloResponse := mkNfsGatewayHelloResponse {
  NfsGatewayHelloResponse_tenant_id : string;
  NfsGatewayHelloResponse_feature_generation : Z;
  NfsGatewayHelloResponse_export_generation : Z;
  NfsGatewayHelloResponse_lease_seconds : Z;
  NfsGatewayHelloResponse_active_exports : list NfsExportManifestEntry
}.
Record NodeAttributes := mkNodeAttributes {
  NodeAttributes_kind : Z;
  NodeAttributes_size_bytes : Z;
  NodeAttributes_head_version_id : string;
  NodeAttributes_namespace_generation : Z;
  NodeAttributes_acl_generation : Z;
  NodeAttributes_modified_at_unix_seconds : Z;
  NodeAttributes_read_only : bool;
  NodeAttributes_mode : Z;
  NodeAttributes_projected_uid : Z;
  NodeAttributes_projected_gid : Z;
  NodeAttributes_link_count : Z;
  NodeAttributes_sparse : bool;
  NodeAttributes_accessed_at_unix_seconds : Z;
  NodeAttributes_created_at_unix_seconds : Z;
  NodeAttributes_changed_at_unix_seconds : Z;
  NodeAttributes_owner_name : string;
  NodeAttributes_group_name : string
}.
Record DirectoryEntry := mkDirectoryEntry {
  DirectoryEntry_resource_id : string;
  DirectoryEntry_display_name : string;
  DirectoryEntry_attributes : option NodeAttributes;
  DirectoryEntry_persistent_handle : bytes
}.
Record VfsResponse := mkVfsResponse {
  VfsResponse_protocol_version : Z;
  VfsResponse_request_id : string;
  VfsResponse_error : Z;
  VfsResponse_reason_code : string;
  VfsResponse_session_id : string;
  VfsResponse_handle_id : string;
  VfsResponse_write_session_id : string;
  VfsResponse_lock_id : string;
  VfsResponse_lease_id : string;
  VfsResponse_version_id : string;
  VfsResponse_credential_generation : Z;
  VfsResponse_authorization_generation : Z;
  VfsResponse_fencing_token : Z;
  VfsResponse_passive_port : Z;
  VfsResponse_data : bytes;
  VfsResponse_attributes : option NodeAttributes;
  VfsResponse_entries : list DirectoryEntry;
  VfsResponse_next_cursor : string;
  VfsResponse_gateway_epoch : Z;
  VfsResponse_xattr_value : bytes;
  VfsResponse_xattr_names : list string;
  VfsResponse_symlink_target : string;
  VfsResponse_state_id : string;
  VfsResponse_resource_id : string;
  VfsResponse_persistent_handle : bytes;
  VfsResponse_export_id : Z;
  VfsResponse_nfs_gateway_hello : option NfsGatewayHelloResponse;
  VfsResponse_filesystem_info : option FilesystemInfo;
  VfsResponse_acl : option VfsAcl;
  VfsResponse_sparse_offset : Z;
  VfsResponse_end_of_file : bool;
  VfsResponse_allowed_actions : list Z;
  VfsResponse_nfs_session_projection : option NfsSessionProjection;
  VfsResponse_lock_conflict : option LockConflict
}.
