(* ===== verification/VfsProtocol.v ===== *)
(** Model of [source/crates/filebelt-vfs-protocol/src/lib.rs]: validation of the
    requests and responses of the virtual file system gateways, and the replay
    identity of NFS requests. *)
From S2P Require Import Prelude Libraries Frames Net VfsMessages.

Open Scope string_scope.
Open Scope Z_scope.
Open Scope list_scope.
Open Scope bool_scope.

Definition PROTOCOL_VERSION : Z := 1.
Definition MAX_DATA_BYTES : Z := 1048576.
Definition MAX_DIRECTORY_ENTRIES : Z := 1000.
Definition MAX_PERSISTENT_HANDLE_BYTES : Z := 128.
Definition MAX_XATTR_BYTES : Z := 65536.
Definition NFS_GATEWAY_LEASE_SECONDS : Z := 30.
Definition NFS_CONFIG_FORMAT : Z := 8.
Definition NFS_AUTHORITY_SCHEMA_REVISION : Z := 1.
Definition DEFAULT_FILE_MODE : Z := 420.
Definition DEFAULT_DIRECTORY_MODE : Z := 493.
Definition DEFAULT_SYMLINK_MODE : Z := 511.
Definition MAX_ACL_ENTRIES : Z := 256.
Definition MAX_PROJECTED_ID : Z := 4294967294.
Definition NFS_NOBODY_PROJECTED_ID : Z := 65534.
Definition NFS_REQUEST_DIGEST_DOMAIN : bytes := as_bytes "filebelt.nfs.vfs-mutation.v1" ++ [zero_byte].

Inductive OperationKind :=
| Authenticate | NfsAuthenticate | List_ | Stat | Open_ | Read | Write | Flush | Commit | Close | Create | Mkdir | Rename | Remove
| SetAttributes | Lock | TestLock | Unlock | LeaseAcknowledge | AllocatePassivePort | Heartbeat | EndSession | GatewayHello
| GetXattr | SetXattr | ListXattr | RemoveXattr | Readlink | Symlink | SparseWrite | Reclaim | OpenUnlinked | ResolveHandle
| ExportRoot | Lookup | Access | FilesystemInfo_ | GetAcl | SetAcl | SparseControl | GatewayDrain | GatewayReconcile.

Inductive RequestClass := Bootstrap | GatewayControl | Session.
#[export] Instance RequestClass_eq_dec : EqDecision RequestClass.
Proof. solve_decision. Defined.

Record ValidatedNfsContext := mkValidatedNfsContext {
  vc_gss_binding_digest : bytes;
  vc_client_id : string;
  vc_nfs_session_id : string;
  vc_slot_id : Z;
  vc_sequence_id : Z;
  vc_operation_index : Z;
  vc_request_digest : option bytes
}.

Record RequestFence := mkRequestFence {
  rf_request_id : N;
  rf_tenant_id : N;
  rf_protocol : MountProtocol;
  rf_gateway_id : string;
  rf_gateway_epoch : Z;
  rf_session_id : option N;
  rf_credential_generation : option Z;
  rf_authorization_generation : option Z;
  rf_nfs_context : option ValidatedNfsContext;
  rf_operation : OperationKind
}.

Inductive ValidationError := Version | Envelope | Operation_ | Identifier | Name | Limit.

(** The casts of the source, which keep the low bits. *)
Definition as_i64 (x : Z) : Z := (x + 2 ^ 63) mod 2 ^ 64 - 2 ^ 63.
Definition as_u16 (x : Z) : Z := x mod 2 ^ 16.
Definition as_u8 (x : Z) : Z := x mod 2 ^ 8.

(** ** Scalars *)

Definition is_ascii_lowercase (b : byte) : bool := (97 <=? byte_val b) && (byte_val b <=? 122).
Definition is_ascii_alphanumeric (b : byte) : bool := is_ascii_lowercase b || is_ascii_uppercase b || is_ascii_digit b.
Definition is_ascii_graphic (b : byte) : bool := (33 <=? byte_val b) && (byte_val b <=? 126).
Definition one_of (s : string) (b : byte) : bool := existsb (Ascii.eqb b) (as_bytes s).
Definition first_is (f : byte -> bool) (s : bytes) : bool := match s with b :: _ => f b | [] => false end.
Definition last_is (f : byte -> bool) (s : bytes) : bool := match last s with Some b => f b | None => false end.
Definition contains_byte (c : byte) (s : bytes) : bool := existsb (Ascii.eqb c) s.

Section scalars.
Context `{UuidLib}.

Definition uuid (value : string) : result ValidationError N := ok_or Identifier (uuid_parse_str value).
Definition optional_uuid (value : string) : result ValidationError unit :=
  if String.eqb value "" then Ok tt else let? _ := uuid value in Ok tt.
Definition uuids (values : list string) : result ValidationError unit := try_each (fun v => let? _ := uuid v in Ok tt) values.
End scalars.

Definition positive (value : Z) : result ValidationError unit :=
  if (value =? 0) || (i64_max <? value) then Err Operation_ else Ok tt.

Definition validate_xattr_name (value : string) : result ValidationError unit :=
  if match strip_prefix "user." value with Some _ => false | None => true end
     || negb ((6 <=? str_len value) && (str_len value <=? 255))
     || contains_byte zero_byte (as_bytes value)
     || has_control (as_bytes value)
  then Err Name else Ok tt.

Definition valid_tenant_slug (value : string) : bool :=
  (1 <=? str_len value) && (str_len value <=? 63)
  && forallb (fun b => is_ascii_lowercase b || is_ascii_digit b || Ascii.eqb b "-"%char) (as_bytes value)
  && first_is is_ascii_alphanumeric (as_bytes value)
  && last_is is_ascii_alphanumeric (as_bytes value).

Definition valid_projected_id (value : Z) : bool :=
  (1 <=? value) && (value <=? MAX_PROJECTED_ID) && negb (value =? NFS_NOBODY_PROJECTED_ID).

Definition valid_lowercase_posix_name (value : string) : bool :=
  match as_bytes value with
  | [] => false
  | b :: rest =>
      (is_ascii_lowercase b || Ascii.eqb b "_"%char)
      && (str_len value <=? 255)
      && forallb (fun b => is_ascii_lowercase b || is_ascii_digit b || one_of "_.-" b) rest
  end.

Definition valid_kerberos_principal (value : string) : bool :=
  if String.eqb value "" || (512 <? str_len value) then false
  else
    match split_char "@"%char value with
    | user :: realm :: rest =>
        negb
          (match rest with [] => false | _ => true end
           || String.eqb user ""
           || negb (forallb (fun b => is_ascii_graphic b && negb (one_of "/\@" b)) (as_bytes user))
           || String.eqb realm ""
           || negb (forallb (fun b => is_ascii_uppercase b || is_ascii_digit b || one_of ".-" b) (as_bytes realm))
           || negb (first_is is_ascii_alphanumeric (as_bytes realm))
           || negb (last_is is_ascii_alphanumeric (as_bytes realm)))
    | _ => false
    end.

Definition stable_key (value : string) (maximum : Z) : bool :=
  negb (String.eqb value "") && (str_len value <=? maximum)
  && forallb (fun b => is_ascii_alphanumeric b || one_of "-_.:@" b) (as_bytes value).

Definition validate_display_name (value : string) : result ValidationError unit :=
  if String.eqb value "" || (255 <? str_len value) || String.eqb value "." || String.eqb value ".."
     || existsb (fun b => one_of "/\" b || Ascii.eqb b zero_byte) (as_bytes value) || has_control (as_bytes value)
  then Err Name else Ok tt.

Definition digest_32 (value : bytes) : result ValidationError bytes :=
  if len value =? 32 then Ok value else Err Envelope.

Definition required_persistent_handle (value : bytes) : result ValidationError unit :=
  if (len value =? 0) || (MAX_PERSISTENT_HANDLE_BYTES <? len value) then Err Limit else Ok tt.

Definition is_nfs (protocol : MountProtocol) : bool := bool_decide (protocol = MountProtocol_Nfs).
Definition nfs_only (protocol : MountProtocol) : result ValidationError unit :=
  if is_nfs protocol then Ok tt else Err Operation_.

Definition optional_persistent_handle (value : bytes) (protocol : MountProtocol) : result ValidationError unit :=
  if len value =? 0 then Ok tt
  else if negb (is_nfs protocol) then Err Operation_
  else required_persistent_handle value.

(** The actions of the list, each at most once. *)
Fixpoint check_actions (seen : list VfsAction) (actions : list Z) : result ValidationError unit :=
  match actions with
  | [] => Ok tt
  | k :: rest =>
      let? action := ok_or Operation_ (VfsAction_try_from k) in
      if bool_decide (action = VfsAction_Unspecified) || bool_decide (action ∈ seen) then Err Operation_
      else check_actions (action :: seen) rest
  end.
Definition validate_actions (actions : list Z) : result ValidationError unit :=
  if (len actions =? 0) || (12 <? len actions) then Err Operation_ else check_actions [] actions.

Definition outside_permissions (mode : Z) : bool := negb (Z.land mode (Z.lnot 511) =? 0).
Definition is_some_and {A} (o : option A) (f : A -> bool) : bool := match o with Some a => f a | None => false end.
Definition is_some {A} (o : option A) : bool := match o with Some _ => true | None => false end.

Definition validate_initial_mode (mode : option Z) : result ValidationError unit :=
  if is_some_and mode outside_permissions then Err Operation_ else Ok tt.

Definition validate_lock_range (offset length : Z) (to_eof : bool) : result ValidationError unit :=
  if to_eof then (if length =? 0 then Ok tt else Err Operation_)
  else if negb (length =? 0) && is_some (checked_add_u64 offset length) then Ok tt
  else Err Operation_.

(** ** Structures *)

(** Wire numbers of an enumeration in strictly increasing order, none unspecified. *)
Fixpoint check_features (previous : Z) (features : list Z) : result ValidationError unit :=
  match features with
  | [] => Ok tt
  | feature :: rest =>
      let? parsed := ok_or Operation_ (NfsGatewayFeature_try_from feature) in
      if bool_decide (parsed = NfsGatewayFeature_Unspecified) || (feature <=? previous) then Err Operation_
      else check_features feature rest
  end.

Definition validate_nfs_compatibility (c : NfsGatewayCompatibility) : result ValidationError unit :=
  if (NfsGatewayCompatibility_minimum_protocol_version c =? 0)
     || (PROTOCOL_VERSION <? NfsGatewayCompatibility_minimum_protocol_version c)
     || (NfsGatewayCompatibility_maximum_protocol_version c <? PROTOCOL_VERSION)
     || (NfsGatewayCompatibility_maximum_protocol_version c <? NfsGatewayCompatibility_minimum_protocol_version c)
     || (len (NfsGatewayCompatibility_features c) =? 0)
     || (6 <? len (NfsGatewayCompatibility_features c))
     || (str_len (NfsGatewayCompatibility_release_revision c) <? 7)
     || negb (stable_key (NfsGatewayCompatibility_release_revision c) 64)
     || negb (NfsGatewayCompatibility_config_format c =? NFS_CONFIG_FORMAT)
     || negb (NfsGatewayCompatibility_authority_schema_revision c =? NFS_AUTHORITY_SCHEMA_REVISION)
  then Err Operation_
  else check_features 0 (NfsGatewayCompatibility_features c).

Section structures.
Context `{UuidLib}.

Fixpoint check_active_exports (export_generation previous : Z) (exports : list NfsExportManifestEntry) : result ValidationError unit :=
  match exports with
  | [] => Ok tt
  | e :: rest =>
      let? _ := positive (NfsExportManifestEntry_export_id e) in
      let? _ := positive (NfsExportManifestEntry_generation e) in
      let? drive_id := uuid (NfsExportManifestEntry_drive_id e) in
      if (NfsExportManifestEntry_export_id e <=? previous)
         || (export_generation <? NfsExportManifestEntry_generation e)
         || negb (String.eqb (NfsExportManifestEntry_export_path e) ("/filebelt/" +:+ uuid_hyphenated drive_id))
      then Err Envelope
      else
        let? _ := required_persistent_handle (NfsExportManifestEntry_root_handle e) in
        check_active_exports export_generation (NfsExportManifestEntry_export_id e) rest
  end.

Definition validate_nfs_gateway_hello_response (r : NfsGatewayHelloResponse) : result ValidationError unit :=
  let? _ := uuid (NfsGatewayHelloResponse_tenant_id r) in
  let? _ := positive (NfsGatewayHelloResponse_feature_generation r) in
  let? _ := positive (NfsGatewayHelloResponse_export_generation r) in
  if negb (NfsGatewayHelloResponse_lease_seconds r =? NFS_GATEWAY_LEASE_SECONDS)
     || (MAX_DIRECTORY_ENTRIES <? len (NfsGatewayHelloResponse_active_exports r))
  then Err Envelope
  else check_active_exports (NfsGatewayHelloResponse_export_generation r) 0 (NfsGatewayHelloResponse_active_exports r).

Fixpoint check_export_ids (previous : Z) (ids : list Z) : result ValidationError unit :=
  match ids with
  | [] => Ok tt
  | id :: rest => if (id =? 0) || (id <=? previous) then Err Envelope else check_export_ids id rest
  end.

Definition validate_nfs_session_projection (p : NfsSessionProjection) : result ValidationError unit :=
  if negb (valid_lowercase_posix_name (NfsSessionProjection_posix_name p))
     || negb (valid_lowercase_posix_name (NfsSessionProjection_primary_group_name p))
     || negb (valid_projected_id (NfsSessionProjection_projected_uid p))
     || negb (valid_projected_id (NfsSessionProjection_projected_gid p))
     || (NfsSessionProjection_mapping_generation p =? 0)
     || (NfsSessionProjection_feature_generation p =? 0)
     || (NfsSessionProjection_absolute_expires_at_unix_seconds p <=? 0)
     || (len (NfsSessionProjection_allowed_export_ids p) =? 0)
     || (MAX_DIRECTORY_ENTRIES <? len (NfsSessionProjection_allowed_export_ids p))
  then Err Envelope
  else check_export_ids 0 (NfsSessionProjection_allowed_export_ids p).

Definition validate_filesystem_info (i : FilesystemInfo) : result ValidationError unit :=
  if (FilesystemInfo_total_bytes i <? FilesystemInfo_free_bytes i)
     || (FilesystemInfo_free_bytes i <? FilesystemInfo_available_bytes i)
     || (FilesystemInfo_total_files i <? FilesystemInfo_free_files i)
     || (FilesystemInfo_maximum_file_size i =? 0)
     || negb ((1 <=? FilesystemInfo_maximum_name_bytes i) && (FilesystemInfo_maximum_name_bytes i <=? 255))
     || negb ((1 <=? FilesystemInfo_preferred_io_bytes i) && (FilesystemInfo_preferred_io_bytes i <=? MAX_DATA_BYTES))
  then Err Envelope else Ok tt.

Definition validate_acl_entry (e : VfsAclEntry) : result ValidationError unit :=
  let? entry_type := ok_or Operation_ (AclEntryType_try_from (VfsAclEntry_entry_type e)) in
  let? principal_kind := ok_or Operation_ (AclPrincipalKind_try_from (VfsAclEntry_principal_kind e)) in
  let? inheritance := ok_or Operation_ (AclInheritance_try_from (VfsAclEntry_inheritance e)) in
  if bool_decide (entry_type = AclEntryType_Unspecified)
     || bool_decide (principal_kind = AclPrincipalKind_Unspecified)
     || bool_decide (inheritance = AclInheritance_Unspecified)
  then Err Operation_
  else
    let? _ :=
      match principal_kind with
      | AclPrincipalKind_Owner | AclPrincipalKind_OwnerGroup | AclPrincipalKind_Everyone =>
          if negb (String.eqb (VfsAclEntry_principal e) "") then Err Operation_ else Ok tt
      | AclPrincipalKind_NamedUser =>
          if negb (valid_kerberos_principal (VfsAclEntry_principal e)) then Err Operation_ else Ok tt
      | AclPrincipalKind_NamedGroup =>
          if negb (valid_lowercase_posix_name (VfsAclEntry_principal e)) then Err Operation_ else Ok tt
      | AclPrincipalKind_Unspecified => Err Operation_
      end in
    validate_actions (VfsAclEntry_actions e).

Definition validate_acl (acl : VfsAcl) (expected_representation : option AclRepresentation) : result ValidationError unit :=
  let? representation := ok_or Operation_ (AclRepresentation_try_from (VfsAcl_representation acl)) in
  if bool_decide (representation = AclRepresentation_Unspecified)
     || is_some_and expected_representation (fun expected => negb (bool_decide (representation = expected)))
     || (VfsAcl_generation acl =? 0)
     || (MAX_ACL_ENTRIES <? len (VfsAcl_entries acl))
  then Err Operation_
  else try_each validate_acl_entry (VfsAcl_entries acl).

Definition validate_attributes (a : NodeAttributes) : result ValidationError unit :=
  let? kind := ok_or Envelope (NodeKind_try_from (NodeAttributes_kind a)) in
  let owner_empty := String.eqb (NodeAttributes_owner_name a) "" in
  let group_empty := String.eqb (NodeAttributes_group_name a) "" in
  if bool_decide (kind = NodeKind_Unspecified)
     || (NodeAttributes_namespace_generation a =? 0)
     || (NodeAttributes_acl_generation a =? 0)
     || outside_permissions (NodeAttributes_mode a)
     || ((NodeAttributes_projected_uid a =? 0) && negb (NodeAttributes_projected_gid a =? 0))
     || ((NodeAttributes_projected_gid a =? 0) && negb (NodeAttributes_projected_uid a =? 0))
     || (MAX_PROJECTED_ID <? NodeAttributes_projected_uid a)
     || (MAX_PROJECTED_ID <? NodeAttributes_projected_gid a)
     || negb (Bool.eqb owner_empty group_empty)
     || (negb owner_empty && negb (valid_lowercase_posix_name (NodeAttributes_owner_name a)))
     || (negb group_empty && negb (valid_lowercase_posix_name (NodeAttributes_group_name a)))
  then Err Envelope
  else
    let? _ := optional_uuid (NodeAttributes_head_version_id a) in
    if bool_decide (kind = NodeKind_Directory)
       && (negb (String.eqb (NodeAttributes_head_version_id a) "") || negb (NodeAttributes_size_bytes a =? 0))
    then Err Envelope else Ok tt.

(** ** Operations *)

Definition ip_address_valid (value : string) : bool := is_some (parse_ip_addr value).

Definition validate_authenticate (protocol : MountProtocol) (r : AuthenticateRequest) : result ValidationError unit :=
  let? scheme := ok_or Operation_ (AuthenticationScheme_try_from (AuthenticateRequest_scheme r)) in
  if negb (stable_key (AuthenticateRequest_username r) 96)
     || (str_len (AuthenticateRequest_username r) <? 16)
     || negb ((32 <=? len (AuthenticateRequest_exchange r)) && (len (AuthenticateRequest_exchange r) <=? 4096))
     || (512 <? len (AuthenticateRequest_channel_binding r))
     || negb (ip_address_valid (AuthenticateRequest_source_address r))
     || negb (is_ok (optional_uuid (AuthenticateRequest_device_id r)))
     || negb match protocol, scheme with
             | MountProtocol_Smb, AuthenticationScheme_Ntlmv2Response
             | MountProtocol_Ftps, AuthenticationScheme_PasswordHmacSha256 => true
             | _, _ => false
             end
  then Err Operation_ else Ok tt.

Definition validate_nfs_authenticate (protocol : MountProtocol) (r : NfsAuthenticateRequest) : result ValidationError unit :=
  let? protection := ok_or Operation_ (RpcsecGssProtection_try_from (NfsAuthenticateRequest_protection r)) in
  if negb (is_nfs protocol)
     || negb (valid_kerberos_principal (NfsAuthenticateRequest_kerberos_principal r))
     || negb (len (NfsAuthenticateRequest_gss_binding_digest r) =? 32)
     || negb (ip_address_valid (NfsAuthenticateRequest_source_address r))
     || negb (bool_decide (protection = RpcsecGssProtection_Privacy))
     || (NfsAuthenticateRequest_context_expires_at_unix_seconds r <=? 0)
  then Err Operation_ else Ok tt.

Definition validate_set_attributes (protocol : MountProtocol) (r : SetAttributesRequest) : result ValidationError unit :=
  let? _ := uuids [SetAttributesRequest_drive_id r; SetAttributesRequest_resource_id r] in
  let? _ := optional_persistent_handle (SetAttributesRequest_persistent_handle r) protocol in
  let nfs_attributes :=
    is_some (SetAttributesRequest_size_bytes r) || is_some (SetAttributesRequest_mode r)
    || is_some (SetAttributesRequest_projected_uid r) || is_some (SetAttributesRequest_projected_gid r)
    || is_some (SetAttributesRequest_owner_name r) || is_some (SetAttributesRequest_group_name r) in
  let outside_ids value := negb ((1 <=? value) && (value <=? MAX_PROJECTED_ID)) in
  if negb (is_some (SetAttributesRequest_modified_at_unix_seconds r))
     && negb (is_some (SetAttributesRequest_accessed_at_unix_seconds r))
     && negb (is_some (SetAttributesRequest_read_only r)) && negb nfs_attributes
  then Err Operation_
  else if (nfs_attributes && negb (is_nfs protocol))
     || is_some_and (SetAttributesRequest_mode r) outside_permissions
     || is_some_and (SetAttributesRequest_projected_uid r) outside_ids
     || is_some_and (SetAttributesRequest_projected_gid r) outside_ids
     || is_some_and (SetAttributesRequest_owner_name r) (fun v => negb (valid_lowercase_posix_name v))
     || is_some_and (SetAttributesRequest_group_name r) (fun v => negb (valid_lowercase_posix_name v))
  then Err Operation_ else Ok tt.

Definition validate_gateway_hello (protocol : MountProtocol) (gateway_id : string) (r : GatewayHelloRequest)
  : result ValidationError unit :=
  if is_nfs protocol then
    if negb (String.eqb (GatewayHelloRequest_shard_key r) "")
       || negb (valid_tenant_slug (GatewayHelloRequest_tenant_slug r))
       || negb (is_ok (uuid (GatewayHelloRequest_boot_id r)))
       || negb (String.eqb gateway_id (GatewayHelloRequest_boot_id r))
       || match GatewayHelloRequest_nfs_compatibility r with
          | None => true
          | Some value => negb (is_ok (validate_nfs_compatibility value))
          end
    then Err Operation_ else Ok tt
  else
    if negb (stable_key (GatewayHelloRequest_shard_key r) 255)
       || negb (String.eqb (GatewayHelloRequest_tenant_slug r) "")
       || negb (String.eqb (GatewayHelloRequest_boot_id r) "")
       || is_some (GatewayHelloRequest_nfs_compatibility r)
    then Err Operation_ else Ok tt.

Definition validate_symlink (protocol : MountProtocol) (r : SymlinkRequest) : result ValidationError unit :=
  let? _ := uuids [SymlinkRequest_drive_id r; SymlinkRequest_parent_id r] in
  let? _ := validate_display_name (SymlinkRequest_display_name r) in
  if String.eqb (SymlinkRequest_target r) "" || (4096 <? str_len (SymlinkRequest_target r))
     || first_is (Ascii.eqb "/"%char) (as_bytes (SymlinkRequest_target r))
     || contains_byte zero_byte (as_bytes (SymlinkRequest_target r))
  then Err Name
  else
    let? _ := positive (SymlinkRequest_expected_parent_generation r) in
    let? _ := optional_persistent_handle (SymlinkRequest_parent_handle r) protocol in
    validate_initial_mode (SymlinkRequest_mode r).

Definition validate_set_acl (protocol : MountProtocol) (r : SetAclRequest) : result ValidationError unit :=
  let? _ := nfs_only protocol in
  let? _ := required_persistent_handle (SetAclRequest_persistent_handle r) in
  let? _ := positive (SetAclRequest_expected_acl_generation r) in
  let? acl := ok_or Operation_ (SetAclRequest_acl r) in
  if negb (VfsAcl_representation acl =? 1) || negb (VfsAcl_generation acl =? SetAclRequest_expected_acl_generation r)
  then Err Operation_
  else
    let? _ := validate_acl acl (Some AclRepresentation_Tagged) in
    if existsb (fun e => negb (VfsAclEntry_entry_type e =? 1)) (VfsAcl_entries acl) then Err Operation_ else Ok tt.

Definition validate_sparse_control (protocol : MountProtocol) (r : SparseControlRequest) : result ValidationError unit :=
  let? _ := nfs_only protocol in
  let? _ := uuid (SparseControlRequest_handle_id r) in
  let? kind := ok_or Operation_ (SparseControlKind_try_from (SparseControlRequest_kind r)) in
  match kind with
  | SparseControlKind_SeekData | SparseControlKind_SeekHole =>
      if negb (SparseControlRequest_length r =? 0) then Err Operation_ else Ok tt
  | SparseControlKind_Allocate | SparseControlKind_Deallocate =>
      if (SparseControlRequest_length r =? 0)
         || negb (is_some (checked_add_u64 (SparseControlRequest_offset r) (SparseControlRequest_length r)))
      then Err Limit else Ok tt
  | SparseControlKind_Unspecified => Err Operation_
  end.

Fixpoint check_applied_exports (export_generation previous : Z) (exports : list NfsAppliedExport) : result ValidationError unit :=
  match exports with
  | [] => Ok tt
  | e :: rest =>
      let? _ := positive (NfsAppliedExport_export_id e) in
      let? _ := positive (NfsAppliedExport_generation e) in
      let? _ := digest_32 (NfsAppliedExport_root_handle_digest e) in
      if (NfsAppliedExport_export_id e <=? previous) || (export_generation <? NfsAppliedExport_generation e)
      then Err Operation_
      else check_applied_exports export_generation (NfsAppliedExport_export_id e) rest
  end.

Definition validate_gateway_reconcile (protocol : MountProtocol) (gateway_id : string) (gateway_epoch : Z) (r : GatewayReconcileRequest)
  : result ValidationError unit :=
  let? _ := nfs_only protocol in
  let? _ := uuid (GatewayReconcileRequest_boot_id r) in
  let? _ := positive gateway_epoch in
  let? _ := positive (GatewayReconcileRequest_feature_generation r) in
  let? _ := positive (GatewayReconcileRequest_export_generation r) in
  let? _ := digest_32 (GatewayReconcileRequest_manifest_digest r) in
  if negb (String.eqb gateway_id (GatewayReconcileRequest_boot_id r))
     || (MAX_DIRECTORY_ENTRIES <? len (GatewayReconcileRequest_applied_exports r))
  then Err Operation_
  else check_applied_exports (GatewayReconcileRequest_export_generation r) 0 (GatewayReconcileRequest_applied_exports r).
End structures.

Section operations.
Context `{UuidLib}.
Variable protocol : MountProtocol.

Definition validate_list (r : ListRequest) : result ValidationError unit :=
  let? _ := uuids [ListRequest_drive_id r; ListRequest_directory_id r] in
  let? _ := optional_persistent_handle (ListRequest_directory_handle r) protocol in
  if negb ((1 <=? ListRequest_limit r) && (ListRequest_limit r <=? MAX_DIRECTORY_ENTRIES)) || (4096 <? str_len (ListRequest_cursor r))
  then Err Limit else Ok tt.

Definition validate_stat (r : StatRequest) : result ValidationError unit :=
  let? _ := uuids [StatRequest_drive_id r; StatRequest_resource_id r] in
  optional_persistent_handle (StatRequest_persistent_handle r) protocol.

Definition validate_open (r : OpenRequest) : result ValidationError unit :=
  let? _ := uuids [OpenRequest_drive_id r; OpenRequest_resource_id r] in
  let? _ := optional_uuid (OpenRequest_expected_version_id r) in
  let? _ := validate_actions (OpenRequest_requested_actions r) in
  optional_persistent_handle (OpenRequest_persistent_handle r) protocol.

Definition validate_read (r : ReadRequest) : result ValidationError unit :=
  let? _ := uuid (ReadRequest_handle_id r) in
  if (ReadRequest_length r =? 0) || (MAX_DATA_BYTES <? ReadRequest_length r)
     || negb (is_some (checked_add_u64 (ReadRequest_offset r) (ReadRequest_length r)))
  then Err Limit else Ok tt.

Definition validate_write (r : WriteRequest) : result ValidationError unit :=
  let? _ := uuids [WriteRequest_handle_id r; WriteRequest_write_session_id r] in
  if (WriteRequest_fencing_token r =? 0) || (len (WriteRequest_data r) =? 0) || (MAX_DATA_BYTES <? len (WriteRequest_data r))
     || negb (is_some (checked_add_u64 (WriteRequest_offset r) (len (WriteRequest_data r))))
  then Err Limit else Ok tt.

Definition validate_flush (r : FlushRequest) : result ValidationError unit :=
  let? _ := uuids [FlushRequest_handle_id r; FlushRequest_write_session_id r] in
  positive (FlushRequest_fencing_token r).

Definition validate_commit (r : CommitRequest) : result ValidationError unit :=
  let? _ := uuids [CommitRequest_handle_id r; CommitRequest_write_session_id r] in
  let? _ := optional_uuid (CommitRequest_expected_head_version_id r) in
  positive (CommitRequest_fencing_token r).

Definition validate_create (r : CreateRequest) : result ValidationError unit :=
  let? _ := uuids [CreateRequest_drive_id r; CreateRequest_parent_id r] in
  let? _ := validate_display_name (CreateRequest_display_name r) in
  let? _ := positive (CreateRequest_expected_parent_generation r) in
  let? _ := validate_actions (CreateRequest_requested_actions r) in
  let? _ := optional_persistent_handle (CreateRequest_parent_handle r) protocol in
  validate_initial_mode (CreateRequest_mode r).

Definition validate_mkdir (r : MkdirRequest) : result ValidationError unit :=
  let? _ := uuids [MkdirRequest_drive_id r; MkdirRequest_parent_id r] in
  let? _ := validate_display_name (MkdirRequest_display_name r) in
  let? _ := positive (MkdirRequest_expected_parent_generation r) in
  let? _ := optional_persistent_handle (MkdirRequest_parent_handle r) protocol in
  validate_initial_mode (MkdirRequest_mode r).

Definition validate_rename (r : RenameRequest) : result ValidationError unit :=
  let? _ := uuids [RenameRequest_drive_id r; RenameRequest_resource_id r; RenameRequest_target_parent_id r] in
  let? _ := validate_display_name (RenameRequest_target_display_name r) in
  let? _ := positive (RenameRequest_expected_namespace_generation r) in
  let? _ := optional_persistent_handle (RenameRequest_resource_handle r) protocol in
  optional_persistent_handle (RenameRequest_target_parent_handle r) protocol.

Definition validate_remove (r : RemoveRequest) : result ValidationError unit :=
  let? _ := uuids [RemoveRequest_drive_id r; RemoveRequest_resource_id r] in
  let? _ := positive (RemoveRequest_expected_namespace_generation r) in
  optional_persistent_handle (RemoveRequest_persistent_handle r) protocol.

(** The arms of [Lock] and [TestLock] are the same over their messages. *)
Definition validate_lock (handle_id owner_key : string) (offset length : Z) (to_eof : bool) : result ValidationError unit :=
  let? _ := uuid handle_id in
  if negb (stable_key owner_key 255) || negb (is_ok (validate_lock_range offset length to_eof)) then Err Operation_ else Ok tt.

Definition validate_lease_acknowledge (r : LeaseAcknowledgeRequest) : result ValidationError unit :=
  let? _ := uuids [LeaseAcknowledgeRequest_handle_id r; LeaseAcknowledgeRequest_lease_id r] in
  let? _ := positive (LeaseAcknowledgeRequest_fencing_token r) in
  let? state := ok_or Operation_ (LeaseState_try_from (LeaseAcknowledgeRequest_state r)) in
  match state with LeaseState_Broken | LeaseState_Released => Ok tt | _ => Err Operation_ end.

Definition validate_allocate_passive_port (r : AllocatePassivePortRequest) : result ValidationError unit :=
  if negb (bool_decide (protocol = MountProtocol_Ftps)) || negb (ip_address_valid (AllocatePassivePortRequest_source_address r))
     || negb (len (AllocatePassivePortRequest_binding_digest r) =? 32)
  then Err Operation_ else Ok tt.

Definition validate_named_xattr (drive_id resource_id name : string) (persistent_handle : bytes) : result ValidationError unit :=
  let? _ := uuids [drive_id; resource_id] in
  let? _ := validate_xattr_name name in
  optional_persistent_handle persistent_handle protocol.

Definition validate_set_xattr (r : SetXattrRequest) : result ValidationError unit :=
  let? _ := validate_named_xattr (SetXattrRequest_drive_id r) (SetXattrRequest_resource_id r) (SetXattrRequest_name r)
              (SetXattrRequest_persistent_handle r) in
  if (MAX_XATTR_BYTES <? len (SetXattrRequest_value r)) || (SetXattrRequest_create_only r && SetXattrRequest_replace_only r)
  then Err Limit else Ok tt.

Definition validate_sparse_write (r : SparseWriteRequest) : result ValidationError unit :=
  let? _ := uuids [SparseWriteRequest_handle_id r; SparseWriteRequest_write_session_id r] in
  let? _ := positive (SparseWriteRequest_fencing_token r) in
  if (SparseWriteRequest_length r =? 0) || (MAX_DATA_BYTES <? SparseWriteRequest_length r)
     || negb (is_some (checked_add_u64 (SparseWriteRequest_offset r) (SparseWriteRequest_length r)))
     || (SparseWriteRequest_hole r && negb (len (SparseWriteRequest_data r) =? 0))
     || (negb (SparseWriteRequest_hole r) && negb (len (SparseWriteRequest_data r) =? SparseWriteRequest_length r))
  then Err Limit else Ok tt.

Definition validate_reclaim (r : ReclaimRequest) : result ValidationError unit :=
  if negb (is_nfs protocol) || negb (stable_key (ReclaimRequest_client_id r) 255) || negb (is_ok (uuid (ReclaimRequest_state_id r)))
     || (ReclaimRequest_gateway_epoch r =? 0)
  then Err Operation_ else Ok tt.

Definition validate_operation (operation : Operation) (gateway_id : string) (gateway_epoch : Z) : result ValidationError unit :=
  match operation with
  | Op_Authenticate r => validate_authenticate protocol r
  | Op_NfsAuthenticate r => validate_nfs_authenticate protocol r
  | Op_List r => validate_list r
  | Op_Stat r => validate_stat r
  | Op_Open r => validate_open r
  | Op_Read r => validate_read r
  | Op_Write r => validate_write r
  | Op_Flush r => validate_flush r
  | Op_Commit r => validate_commit r
  | Op_Close r => let? _ := uuid (CloseRequest_handle_id r) in Ok tt
  | Op_Create r => validate_create r
  | Op_Mkdir r => validate_mkdir r
  | Op_Rename r => validate_rename r
  | Op_Remove r => validate_remove r
  | Op_SetAttributes r => validate_set_attributes protocol r
  | Op_Lock r =>
      validate_lock (LockRequest_handle_id r) (LockRequest_owner_key r) (LockRequest_offset r) (LockRequest_length r) (LockRequest_to_eof r)
  | Op_TestLock r =>
      validate_lock (TestLockRequest_handle_id r) (TestLockRequest_owner_key r) (TestLockRequest_offset r) (TestLockRequest_length r)
        (TestLockRequest_to_eof r)
  | Op_Unlock r => uuids [UnlockRequest_handle_id r; UnlockRequest_lock_id r]
  | Op_LeaseAcknowledge r => validate_lease_acknowledge r
  | Op_AllocatePassivePort r => validate_allocate_passive_port r
  | Op_Heartbeat _ => Ok tt
  | Op_EndSession r => if negb (stable_key (EndSessionRequest_reason_code r) 64) then Err Operation_ else Ok tt
  | Op_GatewayHello r => validate_gateway_hello protocol gateway_id r
  | Op_GetXattr r =>
      validate_named_xattr (GetXattrRequest_drive_id r) (GetXattrRequest_resource_id r) (GetXattrRequest_name r)
        (GetXattrRequest_persistent_handle r)
  | Op_RemoveXattr r =>
      validate_named_xattr (RemoveXattrRequest_drive_id r) (RemoveXattrRequest_resource_id r) (RemoveXattrRequest_name r)
        (RemoveXattrRequest_persistent_handle r)
  | Op_SetXattr r => validate_set_xattr r
  | Op_ListXattr r =>
      let? _ := uuids [ListXattrRequest_drive_id r; ListXattrRequest_resource_id r] in
      optional_persistent_handle (ListXattrRequest_persistent_handle r) protocol
  | Op_Readlink r =>
      let? _ := uuids [ReadlinkRequest_drive_id r; ReadlinkRequest_resource_id r] in
      optional_persistent_handle (ReadlinkRequest_persistent_handle r) protocol
  | Op_Symlink r => validate_symlink protocol r
  | Op_SparseWrite r => validate_sparse_write r
  | Op_Reclaim r => validate_reclaim r
  | Op_OpenUnlinked r =>
      let? _ := uuids [OpenUnlinkedRequest_handle_id r; OpenUnlinkedRequest_write_session_id r] in
      positive (OpenUnlinkedRequest_fencing_token r)
  | Op_ResolveHandle r =>
      let? _ := nfs_only protocol in required_persistent_handle (ResolveHandleRequest_persistent_handle r)
  | Op_ExportRoot r => let? _ := nfs_only protocol in positive (ExportRootRequest_export_id r)
  | Op_Lookup r =>
      let? _ := nfs_only protocol in
      let? _ := required_persistent_handle (LookupRequest_parent_handle r) in
      validate_display_name (LookupRequest_display_name r)
  | Op_Access r =>
      let? _ := nfs_only protocol in
      let? _ := required_persistent_handle (AccessRequest_persistent_handle r) in
      validate_actions (AccessRequest_requested_actions r)
  | Op_FilesystemInfo r => let? _ := nfs_only protocol in positive (FilesystemInfoRequest_export_id r)
  | Op_GetAcl r => let? _ := nfs_only protocol in required_persistent_handle (GetAclRequest_persistent_handle r)
  | Op_SetAcl r => validate_set_acl protocol r
  | Op_SparseControl r => validate_sparse_control protocol r
  | Op_GatewayDrain r =>
      let? _ := nfs_only protocol in
      let? _ := uuid (GatewayDrainRequest_boot_id r) in
      let? _ := positive gateway_epoch in
      if negb (String.eqb gateway_id (GatewayDrainRequest_boot_id r)) then Err Operation_ else Ok tt
  | Op_GatewayReconcile r => validate_gateway_reconcile protocol gateway_id gateway_epoch r
  end.
End operations.

Definition operation_kind (operation : Operation) : OperationKind :=
  match operation with
  | Op_Authenticate _ => Authenticate
  | Op_NfsAuthenticate _ => NfsAuthenticate
  | Op_List _ => List_
  | Op_Stat _ => Stat
  | Op_Open _ => Open_
  | Op_Read _ => Read
  | Op_Write _ => Write
  | Op_Flush _ => Flush
  | Op_Commit _ => Commit
  | Op_Close _ => Close
  | Op_Create _ => Create
  | Op_Mkdir _ => Mkdir
  | Op_Rename _ => Rename
  | Op_Remove _ => Remove
  | Op_SetAttributes _ => SetAttributes
  | Op_Lock _ => Lock
  | Op_TestLock _ => TestLock
  | Op_Unlock _ => Unlock
  | Op_LeaseAcknowledge _ => LeaseAcknowledge
  | Op_AllocatePassivePort _ => AllocatePassivePort
  | Op_Heartbeat _ => Heartbeat
  | Op_EndSession _ => EndSession
  | Op_GatewayHello _ => GatewayHello
  | Op_GetXattr _ => GetXattr
  | Op_SetXattr _ => SetXattr
  | Op_ListXattr _ => ListXattr
  | Op_RemoveXattr _ => RemoveXattr
  | Op_Readlink _ => Readlink
  | Op_Symlink _ => Symlink
  | Op_SparseWrite _ => SparseWrite
  | Op_Reclaim _ => Reclaim
  | Op_OpenUnlinked _ => OpenUnlinked
  | Op_ResolveHandle _ => ResolveHandle
  | Op_ExportRoot _ => ExportRoot
  | Op_Lookup _ => Lookup
  | Op_Access _ => Access
  | Op_FilesystemInfo _ => FilesystemInfo_
  | Op_GetAcl _ => GetAcl
  | Op_SetAcl _ => SetAcl
  | Op_SparseControl _ => SparseControl
  | Op_GatewayDrain _ => GatewayDrain
  | Op_GatewayReconcile _ => GatewayReconcile
  end.

Definition request_class (operation : Operation) : RequestClass :=
  match operation with
  | Op_Authenticate _ | Op_NfsAuthenticate _ | Op_GatewayHello _ => Bootstrap
  | Op_GatewayDrain _ | Op_GatewayReconcile _ => GatewayControl
  | _ => Session
  end.

Definition nfs_operation_requires_digest (operation : Operation) : result ValidationError bool :=
  match operation with
  | Op_Open _ | Op_Write _ | Op_Flush _ | Op_Commit _ | Op_Close _ | Op_Create _ | Op_Mkdir _ | Op_Rename _ | Op_Remove _
  | Op_SetAttributes _ | Op_Lock _ | Op_Unlock _ | Op_LeaseAcknowledge _ | Op_EndSession _ | Op_SetXattr _ | Op_RemoveXattr _
  | Op_Symlink _ | Op_SparseWrite _ | Op_Reclaim _ | Op_OpenUnlinked _ | Op_SetAcl _ => Ok true
  | Op_SparseControl r =>
      let? kind := ok_or Operation_ (SparseControlKind_try_from (SparseControlRequest_kind r)) in
      Ok match kind with SparseControlKind_Allocate | SparseControlKind_Deallocate => true | _ => false end
  | _ => Ok false
  end.

Definition validate_nfs_context (context : option NfsRequestContext) (protocol : MountProtocol) (bootstrap : bool) (operation : Operation)
  : result ValidationError (option ValidatedNfsContext) :=
  if negb (is_nfs protocol) || bootstrap then
    match context with None => Ok None | Some _ => Err Envelope end
  else
    let? c := ok_or Envelope context in
    if negb (stable_key (NfsRequestContext_client_id c) 255)
       || negb (stable_key (NfsRequestContext_nfs_session_id c) 255)
       || (1023 <? NfsRequestContext_slot_id c)
       || (NfsRequestContext_sequence_id c =? 0)
       || (i64_max <? NfsRequestContext_sequence_id c)
       || (63 <? NfsRequestContext_operation_index c)
    then Err Envelope
    else
      let? mutation := nfs_operation_requires_digest operation in
      let? request_digest :=
        if mutation : bool then let? d := digest_32 (NfsRequestContext_request_digest c) in Ok (Some d)
        else if len (NfsRequestContext_request_digest c) =? 0 then Ok None
        else Err Envelope in
      let? gss_binding_digest := digest_32 (NfsRequestContext_gss_binding_digest c) in
      Ok (Some (mkValidatedNfsContext gss_binding_digest (NfsRequestContext_client_id c) (NfsRequestContext_nfs_session_id c)
            (as_u16 (NfsRequestContext_slot_id c)) (as_i64 (NfsRequestContext_sequence_id c))
            (as_u8 (NfsRequestContext_operation_index c)) request_digest)).

(** ** Requests *)

Section requests.
Context `{UuidLib}.

Definition is_gateway_hello (operation : Operation) : bool := match operation with Op_GatewayHello _ => true | _ => false end.
Definition is_session (operation : Operation) : bool := bool_decide (request_class operation = Session).

(** The session columns of the envelope: present exactly for session requests. *)
Definition validate_session (r : VfsRequest) (operation : Operation) : result ValidationError (option N * option Z * option Z) :=
  if negb (is_session operation) then
    if negb (String.eqb (VfsRequest_session_id r) "") || negb (VfsRequest_credential_generation r =? 0)
       || negb (VfsRequest_authorization_generation r =? 0)
    then Err Envelope else Ok (None, None, None)
  else
    if (VfsRequest_credential_generation r =? 0) || (VfsRequest_authorization_generation r =? 0)
       || (i64_max <? VfsRequest_credential_generation r) || (i64_max <? VfsRequest_authorization_generation r)
    then Err Envelope
    else
      let? session_id := uuid (VfsRequest_session_id r) in
      Ok (Some session_id, Some (as_i64 (VfsRequest_credential_generation r)), Some (as_i64 (VfsRequest_authorization_generation r))).

Definition validate_tenant (r : VfsRequest) (protocol : MountProtocol) (operation : Operation) : result ValidationError N :=
  if is_nfs protocol && is_gateway_hello operation && String.eqb (VfsRequest_tenant_id r) "" then Ok uuid_nil
  else uuid (VfsRequest_tenant_id r).

Definition VfsRequest_validate (r : VfsRequest) : result ValidationError RequestFence :=
  if negb (VfsRequest_protocol_version r =? PROTOCOL_VERSION) then Err Version
  else
    let? request_id := uuid (VfsRequest_request_id r) in
    let? protocol := ok_or Envelope (MountProtocol_try_from (VfsRequest_protocol r)) in
    if bool_decide (protocol = MountProtocol_Unspecified) || (i64_max <? VfsRequest_gateway_epoch r)
       || negb (stable_key (VfsRequest_gateway_id r) 255)
    then Err Envelope
    else
      let? operation := ok_or Operation_ (VfsRequest_operation r) in
      let kind := operation_kind operation in
      let? _ := validate_operation protocol operation (VfsRequest_gateway_id r) (VfsRequest_gateway_epoch r) in
      let? tenant_id := validate_tenant r protocol operation in
      if negb (Bool.eqb (is_gateway_hello operation) (VfsRequest_gateway_epoch r =? 0)) then Err Envelope
      else
        let? session := validate_session r operation in
        let? nfs_context := validate_nfs_context (VfsRequest_nfs_context r) protocol (negb (is_session operation)) operation in
        Ok (mkRequestFence request_id tenant_id protocol (VfsRequest_gateway_id r) (as_i64 (VfsRequest_gateway_epoch r))
              session.1.1 session.1.2 session.2 nfs_context kind).
End requests.

Definition CreateRequest_effective_mode (r : CreateRequest) : Z := default DEFAULT_FILE_MODE (CreateRequest_mode r).
Definition MkdirRequest_effective_mode (r : MkdirRequest) : Z := default DEFAULT_DIRECTORY_MODE (MkdirRequest_mode r).
Definition SymlinkRequest_effective_mode (r : SymlinkRequest) : Z := default DEFAULT_SYMLINK_MODE (SymlinkRequest_mode r).

(** ** Replay identity *)

Section digest.
Context `{Blake3Lib, ProstMessage VfsRequest}.

(** [canonical.request_id.clear()] and [context.request_digest.clear()]. *)
Definition clear_request_digest (c : NfsRequestContext) : NfsRequestContext :=
  mkNfsRequestContext (NfsRequestContext_gss_binding_digest c) (NfsRequestContext_client_id c) (NfsRequestContext_nfs_session_id c)
    (NfsRequestContext_slot_id c) (NfsRequestContext_sequence_id c) (NfsRequestContext_operation_index c) [].
Definition canonical_request (r : VfsRequest) : VfsRequest :=
  mkVfsRequest (VfsRequest_protocol_version r) "" (VfsRequest_tenant_id r) (VfsRequest_protocol r) (VfsRequest_gateway_id r)
    (VfsRequest_gateway_epoch r) (VfsRequest_session_id r) (VfsRequest_credential_generation r) (VfsRequest_authorization_generation r)
    (option_map clear_request_digest (VfsRequest_nfs_context r)) (VfsRequest_operation r).
Definition canonical_nfs_request_digest (r : VfsRequest) : bytes :=
  blake3_hash (NFS_REQUEST_DIGEST_DOMAIN ++ encode_to_vec (canonical_request r)).
End digest.

(** ** Responses *)

Section responses.
Context `{UuidLib}.

Definition VfsError_i32 (e : VfsError) : Z :=
  match e with
  | VfsError_Unspecified => 0 | VfsError_Ok => 1 | VfsError_InvalidRequest => 2 | VfsError_Unauthenticated => 3
  | VfsError_AccessDenied => 4 | VfsError_NotFound => 5 | VfsError_AlreadyExists => 6 | VfsError_NotDirectory => 7
  | VfsError_IsDirectory => 8 | VfsError_DirectoryNotEmpty => 9 | VfsError_NameInvalid => 10 | VfsError_Conflict => 11
  | VfsError_StaleGeneration => 12 | VfsError_LockConflict => 13 | VfsError_LeaseBreakRequired => 14 | VfsError_QuotaExceeded => 15
  | VfsError_StorageUnavailable => 16 | VfsError_RateLimited => 17 | VfsError_NotSupported => 18 | VfsError_Unavailable => 19
  end.

Definition VfsResponse_failure (request_id : N) (error : VfsError) (reason_code : string) : VfsResponse :=
  mkVfsResponse PROTOCOL_VERSION (uuid_hyphenated request_id) (VfsError_i32 error) reason_code
    "" "" "" "" "" "" 0 0 0 0 [] None [] "" 0 [] [] "" "" "" [] 0 None None None 0 false [] None None.

(** The size limits of a response. *)
Definition exceeds_limits (r : VfsResponse) (error : VfsError) : bool :=
  bool_decide (error = VfsError_Unspecified)
  || (negb (String.eqb (VfsResponse_reason_code r) "") && negb (stable_key (VfsResponse_reason_code r) 128))
  || (MAX_DATA_BYTES <? len (VfsResponse_data r))
  || (MAX_DIRECTORY_ENTRIES <? len (VfsResponse_entries r))
  || (4096 <? str_len (VfsResponse_next_cursor r))
  || (MAX_XATTR_BYTES <? len (VfsResponse_xattr_value r))
  || (256 <? len (VfsResponse_xattr_names r))
  || (4096 <? str_len (VfsResponse_symlink_target r))
  || contains_byte zero_byte (as_bytes (VfsResponse_symlink_target r))
  || (MAX_PERSISTENT_HANDLE_BYTES <? len (VfsResponse_persistent_handle r))
  || (i64_max <? VfsResponse_export_id r).

Definition validate_option {A} (f : A -> result ValidationError unit) (o : option A) : result ValidationError unit :=
  match o with Some a => f a | None => Ok tt end.

Definition validate_directory_entry (e : DirectoryEntry) : result ValidationError unit :=
  let? _ := uuid (DirectoryEntry_resource_id e) in
  let? _ := validate_display_name (DirectoryEntry_display_name e) in
  let? _ := optional_persistent_handle (DirectoryEntry_persistent_handle e) MountProtocol_Nfs in
  validate_option validate_attributes (DirectoryEntry_attributes e).

Definition validate_hello (r : VfsResponse) (error : VfsError) (hello : NfsGatewayHelloResponse) : result ValidationError unit :=
  if negb (bool_decide (error = VfsError_Ok)) || (VfsResponse_gateway_epoch r =? 0) then Err Envelope
  else validate_nfs_gateway_hello_response hello.

Definition validate_projection (r : VfsResponse) (error : VfsError) (projection : NfsSessionProjection) : result ValidationError unit :=
  if negb (bool_decide (error = VfsError_Ok)) || String.eqb (VfsResponse_session_id r) ""
     || (VfsResponse_credential_generation r =? 0) || (VfsResponse_authorization_generation r =? 0)
  then Err Envelope
  else validate_nfs_session_projection projection.

Definition validate_lock_conflict (error : VfsError) (c : LockConflict) : result ValidationError unit :=
  if negb (bool_decide (error = VfsError_Ok) || bool_decide (error = VfsError_LockConflict))
     || negb (is_ok (validate_lock_range (LockConflict_offset c) (LockConflict_length c) (LockConflict_to_eof c)))
  then Err Envelope else Ok tt.

Definition validate_for (r : VfsResponse) (request_id : N) : result ValidationError unit :=
  if negb (VfsResponse_protocol_version r =? PROTOCOL_VERSION) then Err Envelope
  else
    let? id := uuid (VfsResponse_request_id r) in
    if negb (N.eqb id request_id) then Err Envelope
    else
      let? error := ok_or Envelope (VfsError_try_from (VfsResponse_error r)) in
      if exceeds_limits r error then Err Limit
      else
        let? _ := try_each optional_uuid
          [VfsResponse_session_id r; VfsResponse_handle_id r; VfsResponse_write_session_id r; VfsResponse_lock_id r;
           VfsResponse_lease_id r; VfsResponse_version_id r; VfsResponse_state_id r; VfsResponse_resource_id r] in
        if bool_decide (error = VfsError_Ok) && negb (String.eqb (VfsResponse_reason_code r) "") then Err Envelope
        else
          let? _ := try_each validate_directory_entry (VfsResponse_entries r) in
          let? _ := validate_option validate_attributes (VfsResponse_attributes r) in
          let? _ := try_each validate_xattr_name (VfsResponse_xattr_names r) in
          let? _ := validate_option (validate_hello r error) (VfsResponse_nfs_gateway_hello r) in
          let? _ := validate_option (validate_projection r error) (VfsResponse_nfs_session_projection r) in
          let? _ := validate_option (validate_lock_conflict error) (VfsResponse_lock_conflict r) in
          let? _ := validate_option validate_filesystem_info (VfsResponse_filesystem_info r) in
          let? _ := validate_option (fun acl => validate_acl acl None) (VfsResponse_acl r) in
          if len (VfsResponse_allowed_actions r) =? 0 then Ok tt else validate_actions (VfsResponse_allowed_actions r).
End responses.
