(* ===== verification/VfsProofs.v ===== *)
(** Properties of the virtual file system gateway protocol: the typed fence of a
    validated request, the bounds of its byte ranges, the confinement of NFS
    features to NFS gateways, the replay identity, and failure responses. *)
From S2P Require Import Prelude Libraries ConcreteCodecs Frames Net VfsMessages VfsProtocol.

Open Scope string_scope.
Open Scope Z_scope.
Open Scope list_scope.
Open Scope bool_scope.

(** ** Validated requests *)

(** Every step of a successful validation, as hypotheses. *)
Ltac steps_in H :=
  repeat first
    [ rewrite bind_Ok in H; let x := fresh "x" in let Hx := fresh "Hx" in destruct H as (x & Hx & H)
    | rewrite guard_Ok in H; let Hc := fresh "Hc" in destruct H as (Hc & H) ].

Lemma as_i64_id x : 0 <= x <= i64_max -> as_i64 x = x.
Proof. intros Hx. unfold as_i64, i64_max in *. rewrite Z.mod_small; lia. Qed.
Lemma as_u16_id x : 0 <= x < 2 ^ 16 -> as_u16 x = x.
Proof. apply Z.mod_small. Qed.
Lemma as_u8_id x : 0 <= x < 2 ^ 8 -> as_u8 x = x.
Proof. apply Z.mod_small. Qed.

Section requests.
Context `{UuidLib}.
Implicit Types (r : VfsRequest) (o : Operation) (f : RequestFence).

(** The integer fields are in the range of their wire types. *)
Definition wire_context (c : NfsRequestContext) : Prop :=
  is_u32 (NfsRequestContext_slot_id c) /\ is_u64 (NfsRequestContext_sequence_id c) /\ is_u32 (NfsRequestContext_operation_index c).
Definition wire_request r : Prop :=
  is_u64 (VfsRequest_gateway_epoch r) /\ is_u64 (VfsRequest_credential_generation r) /\ is_u64 (VfsRequest_authorization_generation r) /\
  (forall c, VfsRequest_nfs_context r = Some c -> wire_context c).

(** What validation establishes, step by step. *)
Record validated r o f : Prop := {
  va_version : VfsRequest_protocol_version r = PROTOCOL_VERSION;
  va_operation : VfsRequest_operation r = Some o;
  va_request_id : uuid_parse_str (VfsRequest_request_id r) = Some (rf_request_id f);
  va_protocol : MountProtocol_try_from (VfsRequest_protocol r) = Some (rf_protocol f);
  va_specified : rf_protocol f <> MountProtocol_Unspecified;
  va_epoch : VfsRequest_gateway_epoch r <= i64_max;
  va_gateway : stable_key (VfsRequest_gateway_id r) 255 = true;
  va_accepted : validate_operation (rf_protocol f) o (VfsRequest_gateway_id r) (VfsRequest_gateway_epoch r) = Ok tt;
  va_tenant : validate_tenant r (rf_protocol f) o = Ok (rf_tenant_id f);
  va_hello : is_gateway_hello o = (VfsRequest_gateway_epoch r =? 0);
  va_session : validate_session r o = Ok (rf_session_id f, rf_credential_generation f, rf_authorization_generation f);
  va_context : validate_nfs_context (VfsRequest_nfs_context r) (rf_protocol f) (negb (is_session o)) o = Ok (rf_nfs_context f);
  va_gateway_id : rf_gateway_id f = VfsRequest_gateway_id r;
  va_gateway_epoch : rf_gateway_epoch f = as_i64 (VfsRequest_gateway_epoch r);
  va_kind : rf_operation f = operation_kind o
}.

Lemma validate_Ok r f : VfsRequest_validate r = Ok f -> exists o, validated r o f.
Proof.
  unfold VfsRequest_validate. intros Hv. steps_in Hv. destruct x4 as [[sid cg] ag]. injection Hv as <-.
  unfold uuid in Hx. apply ok_or_Ok in Hx, Hx0, Hx1. destruct x2. breflect. exists x1.
  split; try done. by apply Bool.eqb_prop.
Qed.

(** The session columns of a typed fence. *)
Definition session_typed r o f : Prop :=
  if is_session o then
    exists id, uuid_parse_str (VfsRequest_session_id r) = Some id /\ rf_session_id f = Some id /\
      rf_credential_generation f = Some (VfsRequest_credential_generation r) /\ 1 <= VfsRequest_credential_generation r <= i64_max /\
      rf_authorization_generation f = Some (VfsRequest_authorization_generation r) /\ 1 <= VfsRequest_authorization_generation r <= i64_max
  else rf_session_id f = None /\ rf_credential_generation f = None /\ rf_authorization_generation f = None.

(** The replay coordinates of a typed fence. *)
Definition context_typed (c : NfsRequestContext) o (v : ValidatedNfsContext) : Prop :=
  vc_client_id v = NfsRequestContext_client_id c /\ vc_nfs_session_id v = NfsRequestContext_nfs_session_id c /\
  vc_slot_id v = NfsRequestContext_slot_id c /\ 0 <= vc_slot_id v <= 1023 /\
  vc_sequence_id v = NfsRequestContext_sequence_id c /\ 1 <= vc_sequence_id v <= i64_max /\
  vc_operation_index v = NfsRequestContext_operation_index c /\ 0 <= vc_operation_index v <= 63 /\
  vc_gss_binding_digest v = NfsRequestContext_gss_binding_digest c /\ len (vc_gss_binding_digest v) = 32 /\
  match vc_request_digest v with
  | Some d => nfs_operation_requires_digest o = Ok true /\ d = NfsRequestContext_request_digest c /\ len d = 32
  | None => nfs_operation_requires_digest o = Ok false /\ NfsRequestContext_request_digest c = []
  end.

Lemma digest_32_Ok d d' : digest_32 d = Ok d' <-> d' = d /\ len d = 32.
Proof. unfold digest_32. case_match eqn:Hc; autorewrite with bools in Hc; naive_solver. Qed.

Lemma len_zero {A} (l : list A) : len l = 0 <-> l = [].
Proof. unfold len. destruct l; simpl; split; try done; lia. Qed.

Lemma session_typed_Ok r o f a b c : wire_request r ->
  validate_session r o = Ok (a, b, c) -> rf_session_id f = a -> rf_credential_generation f = b -> rf_authorization_generation f = c ->
  session_typed r o f.
Proof.
  intros (_ & Hc & Ha & _) Hv <- <- <-. unfold validate_session, session_typed in *. destruct (is_session o); simpl in Hv.
  - steps_in Hv. unfold uuid in Hx. rewrite ok_or_Ok in Hx. injection Hv as <- <- <-. breflect. unfold is_u64, u64_max in *.
    rewrite !as_i64_id by lia. exists x. repeat split; try done; lia.
  - steps_in Hv. by injection Hv as <- <- <-.
Qed.

Lemma context_typed_Ok c p o v : wire_context c ->
  validate_nfs_context (Some c) p false o = Ok (Some v) -> is_nfs p = true -> context_typed c o v.
Proof.
  intros (Hs & Hq & Hi) Hv Hp. unfold validate_nfs_context in Hv. rewrite Hp in Hv. simpl in Hv. steps_in Hv. injection Hv as <-.
  apply digest_32_Ok in Hx1 as [-> Hg]. breflect. unfold is_u32, is_u64, u32_max, u64_max, context_typed in *. simpl.
  rewrite as_u16_id, as_i64_id, as_u8_id by lia. repeat split; try done; try lia.
  destruct x; steps_in Hx0; [apply digest_32_Ok in Hx1 as [-> Hd]; injection Hx0 as <-; done|].
  destruct (len (NfsRequestContext_request_digest c) =? 0) eqn:Hz; [|done]. injection Hx0 as <-. apply Z.eqb_eq, len_zero in Hz. done.
Qed.

Lemma tenant_typed_Ok r p o t : validate_tenant r p o = Ok t ->
  uuid_parse_str (VfsRequest_tenant_id r) = Some t \/ VfsRequest_tenant_id r = "" /\ t = uuid_nil /\ p = MountProtocol_Nfs /\ is_gateway_hello o = true.
Proof.
  unfold validate_tenant, is_nfs, uuid. case_match eqn:Hc; [|rewrite ok_or_Ok; by left]. intros [= <-]. right.
  apply andb_true_iff in Hc as [[Hp%bool_decide_eq_true Hh]%andb_true_iff He%String.eqb_eq]. done.
Qed.

(** C36. A validated request is typed: the fence carries the request's own values (its id,
    tenant, protocol, gateway and epoch, its session with its generations, and the client,
    session, slot, sequence number, index and digests of its NFS coordinates; the tenant may
    be empty, and is then nil, only in the first request of an NFS gateway),
    every narrowing cast is lossless and every value is in the range of its type,
    the session columns are present exactly for session requests and the NFS
    replay coordinates exactly for session requests of an NFS gateway, with a
    request digest of 32 bytes exactly when the operation changes state. *)
Theorem validated_fence_typed r f :
  wire_request r -> VfsRequest_validate r = Ok f ->
  exists o, VfsRequest_operation r = Some o /\ rf_operation f = operation_kind o /\
    uuid_parse_str (VfsRequest_request_id r) = Some (rf_request_id f) /\
    MountProtocol_try_from (VfsRequest_protocol r) = Some (rf_protocol f) /\ rf_protocol f <> MountProtocol_Unspecified /\
    (uuid_parse_str (VfsRequest_tenant_id r) = Some (rf_tenant_id f)
     \/ VfsRequest_tenant_id r = "" /\ rf_tenant_id f = uuid_nil /\ rf_protocol f = MountProtocol_Nfs /\ is_gateway_hello o = true) /\
    rf_gateway_id f = VfsRequest_gateway_id r /\
    rf_gateway_epoch f = VfsRequest_gateway_epoch r /\ 0 <= rf_gateway_epoch f <= i64_max /\
    (rf_gateway_epoch f = 0 <-> is_gateway_hello o = true) /\
    session_typed r o f /\
    match rf_nfs_context f with
    | Some v => rf_protocol f = MountProtocol_Nfs /\ is_session o = true /\
                exists c, VfsRequest_nfs_context r = Some c /\ context_typed c o v
    | None => VfsRequest_nfs_context r = None /\ (rf_protocol f <> MountProtocol_Nfs \/ is_session o = false)
    end.
Proof.
  intros Hw Hv. destruct (validate_Ok r f Hv) as [o Ho]. exists o. pose proof Hw as (He & _ & _ & Hc).
  pose proof (va_epoch _ _ _ Ho). unfold is_u64 in He. rewrite (va_gateway_epoch _ _ _ Ho), as_i64_id by lia.
  split; [apply Ho|]. split; [apply Ho|]. split; [apply Ho|]. split; [apply Ho|]. split; [apply Ho|].
  split; [by apply tenant_typed_Ok; [apply Ho]|]. split; [apply Ho|]. split; [done|]. split; [lia|].
  split; [rewrite (va_hello _ _ _ Ho), Z.eqb_eq; done|]. split; [by eapply session_typed_Ok; [..|apply Ho| | |]|].
  pose proof (va_context _ _ _ Ho) as Hctx. destruct (is_nfs (rf_protocol f)) eqn:Hn, (is_session o) eqn:Hs.
  - pose proof Hn as Hp%bool_decide_eq_true. destruct (VfsRequest_nfs_context r) as [c|]; [|by unfold validate_nfs_context in Hctx; rewrite Hn in Hctx].
    destruct (rf_nfs_context f) as [v|].
    + split; [done|]. split; [done|]. exists c. split; [done|]. eapply context_typed_Ok; eauto.
    + unfold validate_nfs_context in Hctx. rewrite Hn in Hctx. simpl in Hctx. steps_in Hctx. done.
  - unfold validate_nfs_context in Hctx. rewrite orb_true_r in Hctx. destruct (VfsRequest_nfs_context r); [done|].
    injection Hctx as <-. split; [done|by right].
  - pose proof Hn as Hp%bool_decide_eq_false. unfold validate_nfs_context in Hctx. rewrite Hn in Hctx. simpl in Hctx.
    destruct (VfsRequest_nfs_context r); [done|]. injection Hctx as <-. split; [done|by left].
  - unfold validate_nfs_context in Hctx. rewrite orb_true_r in Hctx. destruct (VfsRequest_nfs_context r); [done|].
    injection Hctx as <-. split; [done|by right].
Qed.

(** ** Byte ranges *)

(** The range of bytes an operation is about. *)
Definition byte_range o : option (Z * Z) :=
  match o with
  | Op_Read q => Some (ReadRequest_offset q, ReadRequest_length q)
  | Op_Write q => Some (WriteRequest_offset q, len (WriteRequest_data q))
  | Op_SparseWrite q => Some (SparseWriteRequest_offset q, SparseWriteRequest_length q)
  | Op_SparseControl q =>
      match SparseControlKind_try_from (SparseControlRequest_kind q) with
      | Some SparseControlKind_Allocate | Some SparseControlKind_Deallocate =>
          Some (SparseControlRequest_offset q, SparseControlRequest_length q)
      | _ => None
      end
  | Op_Lock q => if LockRequest_to_eof q then None else Some (LockRequest_offset q, LockRequest_length q)
  | Op_TestLock q => if TestLockRequest_to_eof q then None else Some (TestLockRequest_offset q, TestLockRequest_length q)
  | _ => None
  end.

(** The content a request carries or asks for. *)
Definition content_size o : Z :=
  match o with
  | Op_Read q => ReadRequest_length q
  | Op_Write q => len (WriteRequest_data q)
  | Op_SparseWrite q => Z.max (SparseWriteRequest_length q) (len (SparseWriteRequest_data q))
  | Op_SetXattr q => len (SetXattrRequest_value q)
  | _ => 0
  end.

Lemma checked_add_some a b : is_some (checked_add_u64 a b) = true -> 0 <= a + b <= u64_max.
Proof. unfold checked_add_u64. destruct (checked _ _ _) eqn:Hc; [|done]. intros _. apply checked_Some in Hc. lia. Qed.

Lemma lock_range_Ok a n e : validate_lock_range a n e = Ok tt -> e = false -> n <> 0 /\ 0 <= a + n <= u64_max.
Proof.
  intros Hv ->. unfold validate_lock_range in Hv. destruct (negb (n =? 0) && _) eqn:Hc; [|done]. breflect.
  split; [done|]. by apply checked_add_some.
Qed.

Lemma validate_lock_Ok h k a n e : validate_lock h k a n e = Ok tt -> e = false -> n <> 0 /\ 0 <= a + n <= u64_max.
Proof.
  unfold validate_lock. intros Hv He. steps_in Hv. breflect. destruct (validate_lock_range a n e) as [[]|] eqn:Hl; [|done].
  by eapply lock_range_Ok.
Qed.

(** Accepted byte ranges are safe to compute with: a validated request for a
    range of bytes, be it read, written, punched, allocated, sought or locked,
    names a non-empty range whose end does not overflow 64 bits, and carries or
    asks for at most [MAX_DATA_BYTES] of content. *)
Theorem accepted_ranges_bounded r f o :
  VfsRequest_validate r = Ok f -> VfsRequest_operation r = Some o ->
  (forall offset length, byte_range o = Some (offset, length) -> length <> 0 /\ 0 <= offset + length <= u64_max) /\
  content_size o <= MAX_DATA_BYTES.
Proof.
  intros Hv Ho. destruct (validate_Ok r f Hv) as [o' Ha]. rewrite (va_operation _ _ _ Ha) in Ho. injection Ho as ->.
  pose proof (va_accepted _ _ _ Ha) as Hop. clear Hv Ha.
  destruct o as [q|q|q|q|q|q|q|q|q|q|q|q|q|q|q|q|q|q|q|q|q|q|q|q|q|q|q|q|q|q|q|q|q|q|q|q|q|q|q|q|q|q];
    simpl in *; (split; [intros a n Hr; try discriminate Hr|try (unfold MAX_DATA_BYTES; lia)]).
  - injection Hr as <- <-. unfold validate_read in Hop. steps_in Hop. breflect. split; [done|]. by apply checked_add_some.
  - unfold validate_read in Hop. steps_in Hop. by breflect.
  - injection Hr as <- <-. unfold validate_write in Hop. steps_in Hop. breflect. split; [done|]. by apply checked_add_some.
  - unfold validate_write in Hop. steps_in Hop. by breflect.
  - destruct (LockRequest_to_eof q) eqn:He; [done|]. injection Hr as <- <-. by eapply validate_lock_Ok.
  - unfold validate_set_xattr in Hop. steps_in Hop. breflect. unfold MAX_XATTR_BYTES, MAX_DATA_BYTES in *. lia.
  - injection Hr as <- <-. unfold validate_sparse_write in Hop. steps_in Hop. breflect. split; [done|]. by apply checked_add_some.
  - unfold validate_sparse_write in Hop. steps_in Hop. destruct (SparseWriteRequest_hole q); simpl in *; breflect; unfold MAX_DATA_BYTES in *; lia.
  - unfold validate_sparse_control in Hop. steps_in Hop. apply ok_or_Ok in Hx1. rewrite Hx1 in Hr. destruct x1; simplify_eq; steps_in Hop;
      breflect; (split; [done|]; by apply checked_add_some).
  - destruct (TestLockRequest_to_eof q) eqn:He; [done|]. injection Hr as <- <-. by eapply validate_lock_Ok.
Qed.

(** ** Confinement *)

(** The persistent handles and the new names an operation carries. *)
Definition handles_of o : list bytes :=
  match o with
  | Op_List q => [ListRequest_directory_handle q]
  | Op_Stat q => [StatRequest_persistent_handle q]
  | Op_Open q => [OpenRequest_persistent_handle q]
  | Op_Create q => [CreateRequest_parent_handle q]
  | Op_Mkdir q => [MkdirRequest_parent_handle q]
  | Op_Rename q => [RenameRequest_resource_handle q; RenameRequest_target_parent_handle q]
  | Op_Remove q => [RemoveRequest_persistent_handle q]
  | Op_SetAttributes q => [SetAttributesRequest_persistent_handle q]
  | Op_GetXattr q => [GetXattrRequest_persistent_handle q]
  | Op_SetXattr q => [SetXattrRequest_persistent_handle q]
  | Op_ListXattr q => [ListXattrRequest_persistent_handle q]
  | Op_RemoveXattr q => [RemoveXattrRequest_persistent_handle q]
  | Op_Readlink q => [ReadlinkRequest_persistent_handle q]
  | Op_Symlink q => [SymlinkRequest_parent_handle q]
  | Op_ResolveHandle q => [ResolveHandleRequest_persistent_handle q]
  | Op_Lookup q => [LookupRequest_parent_handle q]
  | Op_Access q => [AccessRequest_persistent_handle q]
  | Op_GetAcl q => [GetAclRequest_persistent_handle q]
  | Op_SetAcl q => [SetAclRequest_persistent_handle q]
  | _ => []
  end.
Definition names_of o : list string :=
  match o with
  | Op_Create q => [CreateRequest_display_name q]
  | Op_Mkdir q => [MkdirRequest_display_name q]
  | Op_Rename q => [RenameRequest_target_display_name q]
  | Op_Symlink q => [SymlinkRequest_display_name q]
  | Op_Lookup q => [LookupRequest_display_name q]
  | _ => []
  end.
(** Operations of the NFS gateway alone. *)
Definition nfs_operation o : bool :=
  match o with
  | Op_NfsAuthenticate _ | Op_Reclaim _ | Op_ResolveHandle _ | Op_ExportRoot _ | Op_Lookup _ | Op_Access _ | Op_FilesystemInfo _
  | Op_GetAcl _ | Op_SetAcl _ | Op_SparseControl _ | Op_GatewayDrain _ | Op_GatewayReconcile _ => true
  | _ => false
  end.

(** A single path component: no separator, no control byte, no dot component. *)
Definition safe_component (v : string) : Prop :=
  v <> "" /\ v <> "." /\ v <> ".." /\ str_len v <= 255 /\
  Forall (fun b => b <> "/"%char /\ b <> "\"%char /\ is_ascii_control b = false) (as_bytes v).
Definition handle_ok (p : MountProtocol) (h : bytes) : Prop :=
  len h <= MAX_PERSISTENT_HANDLE_BYTES /\ (p <> MountProtocol_Nfs -> h = []).

Lemma has_control_false b : has_control b = false -> Forall (fun c => is_ascii_control c = false) b.
Proof. induction b as [|c b IH]; [constructor|]. simpl. intros Hc. breflect. constructor; [done|by apply IH]. Qed.

Lemma display_name_Ok v : validate_display_name v = Ok tt -> safe_component v.
Proof.
  unfold validate_display_name. intros Hv. steps_in Hv. breflect.
  repeat match goal with Hs : String.eqb _ _ = false |- _ => apply String.eqb_neq in Hs end.
  match goal with Hc : has_control _ = false |- _ => apply has_control_false in Hc as Hctl end.
  split; [done|]. split; [done|]. split; [done|]. split; [done|]. apply Forall_forall. intros b Hb.
  match goal with He : existsb _ _ = false |- _ => rename He into Hex end.
  assert (one_of "/\" b || Ascii.eqb b zero_byte = false) as Hone.
  { destruct (one_of "/\" b || Ascii.eqb b zero_byte) eqn:E; [|done]. rewrite <-Hex. symmetry. apply existsb_exists.
    exists b. split; [by apply list_elem_of_In|done]. }
  apply orb_false_iff in Hone as [Hone _]. rewrite Forall_forall in Hctl.
  split; [|split; [|by apply Hctl]]; intros ->; discriminate Hone.
Qed.

Lemma optional_handle_Ok p h : optional_persistent_handle h p = Ok tt -> handle_ok p h.
Proof.
  unfold optional_persistent_handle, required_persistent_handle, handle_ok, is_nfs. intros Hv.
  destruct (len h =? 0) eqn:Hz; [apply Z.eqb_eq in Hz; split; [unfold MAX_PERSISTENT_HANDLE_BYTES; lia|by intros _; apply len_zero]|].
  steps_in Hv. breflect. split; [done|]. intros ?. done.
Qed.

Lemma required_handle_Ok p h : is_nfs p = true -> required_persistent_handle h = Ok tt -> handle_ok p h.
Proof.
  unfold required_persistent_handle. intros Hp%bool_decide_eq_true Hv. steps_in Hv. breflect. split; [done|]. congruence.
Qed.

Lemma nfs_only_Ok p : nfs_only p = Ok tt -> is_nfs p = true.
Proof. unfold nfs_only. by destruct (is_nfs p). Qed.

Ltac confine Hop :=
  steps_in Hop;
  repeat match goal with x : () |- _ => destruct x end;
  repeat match goal with
  | Hn : nfs_only _ = Ok tt |- _ => apply nfs_only_Ok in Hn
  | Hn : validate_display_name _ = Ok tt |- _ => apply display_name_Ok in Hn
  | Hn : optional_persistent_handle _ _ = Ok tt |- _ => apply optional_handle_Ok in Hn
  | Hn : required_persistent_handle _ = Ok tt, Hp : is_nfs _ = true |- _ => apply (required_handle_Ok _ _ Hp) in Hn
  end.

Lemma operation_confined p o g e :
  validate_operation p o g e = Ok tt ->
  (nfs_operation o = true -> is_nfs p = true) /\ Forall (handle_ok p) (handles_of o) /\ Forall safe_component (names_of o).
Proof.
  intros Hop. destruct o as [q|q|q|q|q|q|q|q|q|q|q|q|q|q|q|q|q|q|q|q|q|q|q|q|q|q|q|q|q|q|q|q|q|q|q|q|q|q|q|q|q|q];
    simpl in *; try (split; [done|split; constructor]).
  all: unfold validate_list, validate_stat, validate_open, validate_create, validate_mkdir, validate_rename, validate_remove,
    validate_set_attributes, validate_nfs_authenticate, validate_named_xattr, validate_set_xattr, validate_symlink, validate_reclaim,
    validate_set_acl, validate_sparse_control, validate_gateway_reconcile in Hop; confine Hop.
  all: try (unfold validate_named_xattr in Hx; confine Hx).
  all: breflect; rewrite ?Forall_cons, ?Forall_nil; repeat match goal with |- _ /\ _ => split end; try done.
Qed.

(** NFS features stay with NFS gateways, and names stay single components: a
    validated request of an SMB or FTPS gateway uses no NFS operation, carries no
    persistent handle and no NFS replay context; every persistent handle of a
    validated request fits its bound; and every name it creates, renames to or
    looks up is one safe path component. *)
Theorem nfs_features_confined r f o :
  VfsRequest_validate r = Ok f -> VfsRequest_operation r = Some o ->
  (rf_protocol f <> MountProtocol_Nfs ->
     nfs_operation o = false /\ Forall (fun h => h = []) (handles_of o) /\ rf_nfs_context f = None) /\
  Forall (fun h => len h <= MAX_PERSISTENT_HANDLE_BYTES) (handles_of o) /\
  Forall safe_component (names_of o).
Proof.
  intros Hv Ho. destruct (validate_Ok r f Hv) as [o' Ha]. rewrite (va_operation _ _ _ Ha) in Ho. injection Ho as ->.
  destruct (operation_confined _ _ _ _ (va_accepted _ _ _ Ha)) as (Hn & Hh & Hc). split; [|split; [|done]].
  - intros Hp. assert (is_nfs (rf_protocol f) = false) as Hnf by by apply bool_decide_eq_false. rewrite Hnf in Hn. split; [|split].
    + destruct (nfs_operation o); [|done]. by specialize (Hn eq_refl).
    + eapply Forall_impl; [exact Hh|]. intros h [_ He]. by apply He.
    + pose proof (va_context _ _ _ Ha) as Hx. unfold validate_nfs_context in Hx. rewrite Hnf in Hx. simpl in Hx.
      by destruct (VfsRequest_nfs_context r); simplify_eq.
  - eapply Forall_impl; [exact Hh|]. by intros h [? _].
Qed.
End requests.

(** ** Replay identity *)

Section replay.
Context `{Blake3Lib, ProstMessage VfsRequest}.
Implicit Types (r : VfsRequest).

(** Equal in everything but the correlation identifier and the digest field. *)
Definition same_mutation r r' : Prop :=
  VfsRequest_protocol_version r = VfsRequest_protocol_version r' /\ VfsRequest_tenant_id r = VfsRequest_tenant_id r' /\
  VfsRequest_protocol r = VfsRequest_protocol r' /\ VfsRequest_gateway_id r = VfsRequest_gateway_id r' /\
  VfsRequest_gateway_epoch r = VfsRequest_gateway_epoch r' /\ VfsRequest_session_id r = VfsRequest_session_id r' /\
  VfsRequest_credential_generation r = VfsRequest_credential_generation r' /\
  VfsRequest_authorization_generation r = VfsRequest_authorization_generation r' /\
  option_map clear_request_digest (VfsRequest_nfs_context r) = option_map clear_request_digest (VfsRequest_nfs_context r') /\
  VfsRequest_operation r = VfsRequest_operation r'.

Lemma canonical_same r r' : canonical_request r = canonical_request r' <-> same_mutation r r'.
Proof.
  unfold canonical_request, same_mutation. split.
  - intros [= ? ? ? ? ? ? ? ? ? ?]. done.
  - intros (-> & -> & -> & -> & -> & -> & -> & -> & -> & ->). done.
Qed.

(** The replay identity binds exactly what it should: requests that differ
    only in the correlation identifier and the digest field have the same
    identity, and two requests that are not the same mutation have different
    identities, unless the hash or the encoding of the messages collides. *)
Theorem replay_identity r r' :
  (same_mutation r r' -> canonical_nfs_request_digest r = canonical_nfs_request_digest r') /\
  (~ same_mutation r r' -> canonical_nfs_request_digest r = canonical_nfs_request_digest r' ->
     (exists a b : bytes, a <> b /\ blake3_hash a = blake3_hash b) \/
     (exists a b : VfsRequest, a <> b /\ encode_to_vec a = encode_to_vec b)).
Proof.
  rewrite <-canonical_same. unfold canonical_nfs_request_digest. split; [by intros ->|]. intros Hne Hd.
  destruct (decide (encode_to_vec (canonical_request r) = encode_to_vec (canonical_request r'))) as [He|Hdiff].
  - right. by exists (canonical_request r), (canonical_request r').
  - left. eexists _, _. split; [|exact Hd]. intros Heq. by apply app_inv_head in Heq.
Qed.
End replay.

(** ** Failure responses *)

Section failures.
Context `{UuidLib, !UuidLaws}.

Lemma VfsError_round_trip e : VfsError_try_from (VfsError_i32 e) = Some e.
Proof. by destruct e. Qed.

(** C37. A failure response answers exactly the request it was made for: it is
    accepted for the identifier [id'] precisely when [id'] is the identifier it
    was built with, the error is specified, and the reason is empty or a stable
    key of at most 128 bytes beside an error other than success. *)
Theorem failure_response_accepted id id' e reason :
  is_uuid id ->
  validate_for (VfsResponse_failure id e reason) id' = Ok tt <->
  id' = id /\ e <> VfsError_Unspecified /\ (reason = "" \/ stable_key reason 128 = true /\ e <> VfsError_Ok).
Proof.
  intros Hu. unfold validate_for. simpl VfsResponse_protocol_version. rewrite Z.eqb_refl. cbn [negb].
  simpl VfsResponse_request_id. unfold uuid. rewrite uuid_parse_hyphenated by done. cbn [ok_or].
  simpl VfsResponse_error. rewrite VfsError_round_trip. cbn [ok_or].
  destruct (N.eqb id id') eqn:Hid; [apply N.eqb_eq in Hid as <-|apply N.eqb_neq in Hid; split; [done|intros (-> & _); done]].
  cbn [negb]. unfold exceeds_limits. simpl. destruct (decide (e = VfsError_Unspecified)) as [->|Hne].
  { simpl. split; [done|]. by intros (_ & ? & _). }
  rewrite bool_decide_eq_false_2 by done. simpl. destruct (String.eqb reason "") eqn:Hr.
  { apply String.eqb_eq in Hr. subst reason. rewrite andb_false_r. simpl. naive_solver. }
  apply String.eqb_neq in Hr. simpl. destruct (stable_key reason 128) eqn:Hk; simpl.
  - destruct (decide (e = VfsError_Ok)) as [->|Hok]; [simpl; naive_solver|]. rewrite bool_decide_eq_false_2 by done. simpl. naive_solver.
  - naive_solver.
Qed.
End failures.

(** ** A request *)

Module Demo.
Import Concrete.

Definition id1 : string := "00000000-0000-4000-8000-000000000001".
Definition id2 : string := "00000000-0000-4000-8000-000000000002".
Definition write : WriteRequest := mkWriteRequest id1 id2 7 100 (as_bytes "data").
Definition context : NfsRequestContext :=
  mkNfsRequestContext (replicate 32 "g"%char) "client-1" "session-1" 3 9 1 (replicate 32 "d"%char).
Definition nfs_write : VfsRequest := mkVfsRequest 1 id1 id2 3 "gateway-1" 5 id1 2 4 (Some context) (Some (Op_Write write)).
Definition smb_mkdir : VfsRequest :=
  mkVfsRequest 1 id1 id2 1 "gateway-1" 5 id1 2 4 None (Some (Op_Mkdir (mkMkdirRequest id1 id2 "reports" 3 [] None))).

Definition fence_of (r : VfsRequest) : option RequestFence := match VfsRequest_validate r with Ok f => Some f | Err _ => None end.

Lemma validated_fence_typed_witness :
  exists f, VfsRequest_validate nfs_write = Ok f /\ rf_gateway_epoch f = 5 /\ rf_credential_generation f = Some 2.
Proof.
  assert (exists f, VfsRequest_validate nfs_write = Ok f) as [f Hf] by (eexists; vm_compute; reflexivity).
  exists f. split; [exact Hf|].
  destruct (validated_fence_typed nfs_write f) as (o & Ho & _ & _ & _ & _ & _ & _ & He & _ & _ & Hs & _); [|exact Hf|].
  - split; [by vm_compute|]. split; [by vm_compute|]. split; [by vm_compute|]. intros c [= <-]. repeat split; by vm_compute.
  - injection Ho as <-. destruct Hs as (id & _ & _ & Hc & _). split; [exact He|exact Hc].
Defined.

Lemma accepted_ranges_bounded_witness : 4 <> 0 /\ 0 <= 100 + 4 <= u64_max.
Proof.
  assert (exists f, VfsRequest_validate nfs_write = Ok f) as [f Hf] by (eexists; vm_compute; reflexivity).
  exact (proj1 (accepted_ranges_bounded nfs_write f (Op_Write write) Hf eq_refl) 100 4 eq_refl).
Defined.

Lemma nfs_features_confined_witness :
  exists f, VfsRequest_validate smb_mkdir = Ok f /\ rf_nfs_context f = None /\ safe_component "reports".
Proof.
  assert (exists f, VfsRequest_validate smb_mkdir = Ok f) as [f Hf] by (eexists; vm_compute; reflexivity).
  assert (rf_protocol f <> MountProtocol_Nfs) as Hp.
  { assert (option_map rf_protocol (fence_of smb_mkdir) = Some MountProtocol_Smb) as Hs by (vm_compute; reflexivity).
    unfold fence_of in Hs. rewrite Hf in Hs. simpl in Hs. congruence. }
  destruct (nfs_features_confined smb_mkdir f (Op_Mkdir (mkMkdirRequest id1 id2 "reports" 3 [] None)) Hf eq_refl) as (Hc & _ & Hn).
  exists f. split; [exact Hf|]. split; [apply Hc, Hp|]. exact (Forall_inv Hn).
Defined.

Lemma failure_response_accepted_witness :
  validate_for (VfsResponse_failure 5 VfsError_NotFound "mount.not_found") 5 = Ok tt /\
  validate_for (VfsResponse_failure 5 VfsError_NotFound "mount.not_found") 6 <> Ok tt.
Proof.
  split.
  - apply (failure_response_accepted 5 5 VfsError_NotFound "mount.not_found"); [by vm_compute|].
    split; [reflexivity|]. split; [discriminate|]. right. split; [reflexivity|discriminate].
  - intros Hv. apply (failure_response_accepted 5 6 VfsError_NotFound "mount.not_found") in Hv; [|by vm_compute].
    destruct Hv as [Hid _]. discriminate Hid.
Defined.
End Demo.
