(* ===== verification/NfsHandles.v ===== *)
(** Model of [source/apps/filebelt-vfs/src/nfs.rs]: the opaque file handles of the NFS
    gateway with their keyring, the digests of root handles and export manifests,
    and the admission of Kerberos principals.  The keyed BLAKE3 hash, Base64 and the
    JSON decoder of the keyring are parameters. *)
From S2P Require Import Prelude Collections Libraries ConcreteCodecs Frames Web VfsMessages VfsProtocol.

Open Scope string_scope.
Open Scope Z_scope.
Open Scope list_scope.
Open Scope bool_scope.

(** crate [blake3]: [Hasher::new_keyed] *)
Class Blake3KeyedLib := blake3_keyed : bytes -> bytes -> bytes.
Class Blake3KeyedLaws `{Blake3KeyedLib} : Prop := blake3_keyed_length : forall k m, len (blake3_keyed k m) = 32.

(** ** Big-endian integers *)

Fixpoint be_bytes (width : nat) (x : Z) : bytes :=
  match width with O => [] | S width => be_bytes width (x / 256) ++ [byte_of_Z x] end.
Definition of_be_bytes (b : bytes) : Z := fold_left (fun acc c => 256 * acc + byte_val c) b 0.

(** [&value[from..to]] *)
Definition slice (from to : nat) (b : bytes) : bytes := take (to - from) (drop from b).

(** ** Handles *)

Definition NFS_HANDLE_FORMAT : Z := 2.
Definition KEYSET_FORMAT : string := "filebelt-nfs-handle-keyset-v1".
Definition TAG_BYTES : Z := 32.
Definition BODY_BYTES : Z := 1 + 4 + 16 + 8 + 16 + 8 + 8 + 8.
Definition HANDLE_BYTES : Z := BODY_BYTES + TAG_BYTES.

Record NfsHandleScope := mkHandleScope {
  hs_tenant_id : Uuid; hs_export_id : Z; hs_node_id : Uuid; hs_export_generation : Z; hs_node_generation : Z; hs_restore_generation : Z
}.
Record NfsHandleKey := mkHandleKey { hk_generation : Z; hk_material : bytes }.
Record NfsHandleKeyring := mkHandleKeyring { kr_current : NfsHandleKey; kr_previous : option NfsHandleKey }.
Inductive NfsHandleError := HandleMalformed | HandleStale.

Section handles.
Context `{Blake3KeyedLib}.

Definition tag (key body : bytes) : bytes := blake3_keyed key (as_bytes "filebelt.nfs.filehandle.v2" ++ [zero_byte] ++ body).

Definition handle_body (s : NfsHandleScope) (generation : Z) : bytes :=
  [byte_of_Z NFS_HANDLE_FORMAT] ++ be_bytes 4 generation ++ be_bytes 16 (Z.of_N (hs_tenant_id s)) ++ be_bytes 8 (hs_export_id s)
  ++ be_bytes 16 (Z.of_N (hs_node_id s)) ++ be_bytes 8 (hs_export_generation s) ++ be_bytes 8 (hs_node_generation s)
  ++ be_bytes 8 (hs_restore_generation s).
Definition issue_handle (s : NfsHandleScope) (key : NfsHandleKey) : bytes :=
  let body := handle_body s (hk_generation key) in body ++ tag (hk_material key) body.

Definition select_key (keyring : NfsHandleKeyring) (key_generation : Z) : result NfsHandleError NfsHandleKey :=
  if key_generation =? hk_generation (kr_current keyring) then Ok (kr_current keyring)
  else if is_some_and (kr_previous keyring) (fun candidate => hk_generation candidate =? key_generation)
  then ok_or HandleStale (kr_previous keyring)
  else Err HandleStale.

Definition decode_scope (handle : bytes) : NfsHandleScope :=
  mkHandleScope (Z.to_N (of_be_bytes (slice 5 21 handle))) (of_be_bytes (slice 21 29 handle)) (Z.to_N (of_be_bytes (slice 29 45 handle)))
    (of_be_bytes (slice 45 53 handle)) (of_be_bytes (slice 53 61 handle)) (of_be_bytes (slice 61 69 handle)).

Definition scope_unusable (s : NfsHandleScope) : bool :=
  uuid_is_nil (hs_tenant_id s) || uuid_is_nil (hs_node_id s) || (hs_export_id s =? 0) || (hs_export_generation s =? 0)
  || (hs_node_generation s =? 0) || (hs_restore_generation s =? 0).

Definition validate_handle (handle : bytes) (keyring : NfsHandleKeyring) : result NfsHandleError NfsHandleScope :=
  if negb (len handle =? HANDLE_BYTES) || negb (is_some_and (head handle) (fun b => byte_val b =? NFS_HANDLE_FORMAT))
  then Err HandleMalformed
  else
    let key_generation := of_be_bytes (slice 1 5 handle) in
    let? key := select_key keyring key_generation in
    let authentication_tag := tag (hk_material key) (take (Z.to_nat BODY_BYTES) handle) in
    if negb (bool_decide (authentication_tag = drop (Z.to_nat BODY_BYTES) handle)) then Err HandleMalformed
    else
      let scope := decode_scope handle in
      if scope_unusable scope then Err HandleStale else Ok scope.
End handles.

(** ** The keyring *)

Record KeyDocument := mkKeyDocument { kd_generation : Z; kd_key : string }.
Record KeysetDocument := mkKeysetDocument { kd_format : string; kd_current : KeyDocument; kd_previous : option KeyDocument }.

Section keyring.
Context `{Base64Lib}.
(** [serde_json::from_str], strict about unknown fields. *)
Variable json_keyset : string -> option KeysetDocument.

Definition decode_key (value : string) : result string bytes :=
  let? decoded := ok_or "NFS handle key is not unpadded base64url" (b64_decode value) in
  if len decoded =? 32 then Ok decoded else Err "NFS handle key must contain exactly 32 bytes".

Definition parse_previous (current : NfsHandleKey) (previous : option KeyDocument) : result string (option NfsHandleKey) :=
  match previous with
  | None => Ok None
  | Some previous =>
      if (kd_generation previous =? 0) || (hk_generation current <=? kd_generation previous)
      then Err "NFS previous handle key generation is invalid"
      else
        let? material := decode_key (kd_key previous) in
        if bool_decide (hk_material current = material) then Err "NFS current and previous handle keys must differ"
        else Ok (Some (mkHandleKey (kd_generation previous) material))
  end.

Definition parse_keyring (source : string) (expected_current_generation : Z) : result string NfsHandleKeyring :=
  let? document := ok_or "NFS handle keyset is not strict JSON" (json_keyset source) in
  if negb (String.eqb (kd_format document) KEYSET_FORMAT) || (expected_current_generation =? 0)
     || negb (kd_generation (kd_current document) =? expected_current_generation)
  then Err "NFS handle keyset format or current generation is invalid"
  else
    let? material := decode_key (kd_key (kd_current document)) in
    let current := mkHandleKey (kd_generation (kd_current document)) material in
    let? previous := parse_previous current (kd_previous document) in
    Ok (mkHandleKeyring current previous).
End keyring.

(** ** Digests *)

(** What [hash_length_prefixed] feeds to the hasher; [None] is the panic of its [expect]. *)
Definition length_prefixed (value : bytes) : option bytes :=
  match u32_try_from (len value) with Some n => Some (be_bytes 4 n ++ value) | None => None end.

Definition manifest_entry_bytes (e : NfsExportManifestEntry) : option bytes :=
  drive ← length_prefixed (as_bytes (NfsExportManifestEntry_drive_id e));
  path ← length_prefixed (as_bytes (NfsExportManifestEntry_export_path e));
  root ← length_prefixed (NfsExportManifestEntry_root_handle e);
  Some (be_bytes 8 (NfsExportManifestEntry_export_id e) ++ drive ++ be_bytes 8 (NfsExportManifestEntry_generation e)
        ++ [byte_of_Z (if NfsExportManifestEntry_read_only e then 1 else 0)] ++ path ++ root).

Definition manifest_bytes (tenant_id : Uuid) (feature_generation export_generation : Z) (exports : list NfsExportManifestEntry)
  : option bytes :=
  count ← u32_try_from (len exports);
  entries ← mapM manifest_entry_bytes exports;
  Some (as_bytes "filebelt.nfs.export-manifest.v1" ++ [zero_byte] ++ be_bytes 16 (Z.of_N tenant_id) ++ be_bytes 8 feature_generation
        ++ be_bytes 8 export_generation ++ be_bytes 4 count ++ concat entries).

Section digests.
Context `{Blake3Lib}.
Definition root_handle_digest (handle : bytes) : option bytes :=
  value ← length_prefixed handle; Some (blake3_hash (as_bytes "filebelt.nfs.root-handle.v1" ++ [zero_byte] ++ value)).
Definition manifest_digest (tenant_id : Uuid) (feature_generation export_generation : Z) (exports : list NfsExportManifestEntry)
  : option bytes :=
  blake3_hash <$> manifest_bytes tenant_id feature_generation export_generation exports.
End digests.

(** ** Principals *)

Inductive NfsPrincipalError := PrincipalInvalid.

Definition validate_authenticated_principal (principal expected_realm : string) : result NfsPrincipalError string :=
  if is_empty principal || (512 <? str_len principal) then Err PrincipalInvalid
  else
    let components := split_char "@" principal in
    let user := default "" (components !! 0%nat) in
    let realm := default "" (components !! 1%nat) in
    if is_empty user || eq_ignore_ascii_case (as_bytes user) (as_bytes "root") || negb (String.eqb realm expected_realm)
       || is_some (components !! 2%nat)
       || negb (forallb (fun b => is_ascii_graphic b && negb (byte_is "/" b || byte_is "\" b || byte_is "@" b)) (as_bytes user))
    then Err PrincipalInvalid else Ok user.

(** ** Proofs: integers and slices *)

Lemma be_bytes_length width x : length (be_bytes width x) = width.
Proof. revert x. induction width as [|w IH]; intros x; simpl; [done|]. rewrite length_app, IH. simpl. lia. Qed.

Lemma of_be_bytes_snoc b c : of_be_bytes (b ++ [c]) = 256 * of_be_bytes b + byte_val c.
Proof. unfold of_be_bytes. by rewrite fold_left_app. Qed.

Lemma of_be_be width x : 0 <= x < 256 ^ Z.of_nat width -> of_be_bytes (be_bytes width x) = x.
Proof.
  revert x. induction width as [|w IH]; intros x Hx; [simpl in *; unfold of_be_bytes; simpl; lia|].
  cbn [be_bytes]. rewrite of_be_bytes_snoc, byte_val_of_Z, IH.
  - Z.to_euclidean_division_equations. lia.
  - rewrite Nat2Z.inj_succ, Z.pow_succ_r in Hx by lia. Z.to_euclidean_division_equations. nia.
Qed.

Lemma of_be_bytes_bound b : 0 <= of_be_bytes b < 256 ^ len b.
Proof.
  unfold len. induction b as [|c b IH] using rev_ind; [done|]. rewrite of_be_bytes_snoc, length_app. simpl length.
  rewrite Nat2Z.inj_add, Z.pow_add_r by lia. pose proof (byte_val_bound c). change (256 ^ Z.of_nat 1) with 256. lia.
Qed.

Lemma be_of_be b : be_bytes (length b) (of_be_bytes b) = b.
Proof.
  induction b as [|c b IH] using rev_ind; [done|]. rewrite length_app, Nat.add_1_r. cbn [be_bytes]. rewrite of_be_bytes_snoc.
  pose proof (byte_val_bound c). f_equal.
  - replace ((256 * of_be_bytes b + byte_val c) / 256) with (of_be_bytes b); [done|]. Z.to_euclidean_division_equations. lia.
  - f_equal. apply byte_val_inj. rewrite byte_val_of_Z. Z.to_euclidean_division_equations. lia.
Qed.

Lemma handle_slice_length from to b : (from <= to <= length b)%nat -> length (slice from to b) = (to - from)%nat.
Proof. intros H. unfold slice. rewrite length_take, length_drop. lia. Qed.

Lemma slice_cat from mid to b : (from <= mid <= to)%nat -> slice from mid b ++ slice mid to b = slice from to b.
Proof.
  intros H. unfold slice. replace (to - from)%nat with ((mid - from) + (to - mid))%nat by lia.
  rewrite <-take_take_drop, drop_drop. by replace (from + (mid - from))%nat with mid by lia.
Qed.

Lemma be_slice width from to b : (to - from = width)%nat -> (from <= to <= length b)%nat -> be_bytes width (of_be_bytes (slice from to b)) = slice from to b.
Proof. intros <- H. rewrite <-(handle_slice_length from to b) by done. apply be_of_be. Qed.

Lemma slice_app_mid (a b c : bytes) from to :
  from = length a -> to = (from + length b)%nat -> slice from to (a ++ b ++ c) = b.
Proof.
  intros -> ->. unfold slice. rewrite drop_app_length. replace (length a + length b - length a)%nat with (length b) by lia.
  by rewrite take_app_length.
Qed.

(** ** Handles *)

(** The values the fields of a scope can hold, and that a handle may name. *)
Definition scope_ok (s : NfsHandleScope) : Prop :=
  (is_uuid (hs_tenant_id s) /\ hs_tenant_id s <> uuid_nil) /\ (is_uuid (hs_node_id s) /\ hs_node_id s <> uuid_nil) /\
  0 < hs_export_id s <= u64_max /\ 0 < hs_export_generation s <= u64_max /\ 0 < hs_node_generation s <= u64_max /\
  0 < hs_restore_generation s <= u64_max.

Definition key_of (keyring : NfsHandleKeyring) (key : NfsHandleKey) : Prop := kr_current keyring = key \/ kr_previous keyring = Some key.

(** What [parse_keyring] guarantees. *)
Definition keyring_ok (keyring : NfsHandleKeyring) : Prop :=
  (forall key, key_of keyring key -> 0 < hk_generation key <= u32_max /\ len (hk_material key) = 32) /\
  (forall previous, kr_previous keyring = Some previous ->
     hk_generation previous < hk_generation (kr_current keyring) /\ hk_material previous <> hk_material (kr_current keyring)).

Lemma select_key_iff keyring g key :
  keyring_ok keyring -> select_key keyring g = Ok key <-> key_of keyring key /\ hk_generation key = g.
Proof.
  intros [_ Hprev]. unfold select_key, key_of. destruct (Z.eqb_spec g (hk_generation (kr_current keyring))) as [-> | Hne].
  - split; [intros [= <-]; auto|]. intros [[<- | Hp] Hg]; [done|]. apply Hprev in Hp. lia.
  - destruct (kr_previous keyring) as [p|]; simpl; [|split; [done|intros [[<- |]]; congruence]].
    destruct (Z.eqb_spec (hk_generation p) g) as [<- | Hne']; simpl; split; try done.
    + intros [= <-]. auto.
    + intros [[<- | [= <-]] Hg]; [congruence|done].
    + intros [[<- | [= <-]] Hg]; congruence.
Qed.

Lemma scope_unusable_iff s :
  is_uuid (hs_tenant_id s) -> is_uuid (hs_node_id s) ->
  Forall (fun x => 0 <= x <= u64_max) [hs_export_id s; hs_export_generation s; hs_node_generation s; hs_restore_generation s] ->
  scope_unusable s = false <-> scope_ok s.
Proof.
  intros Ht Hn Hf. repeat (apply Forall_cons in Hf as [? Hf]). unfold scope_unusable, scope_ok, uuid_is_nil.
  rewrite !orb_false_iff, !Z.eqb_neq, !N.eqb_neq. split; [intros; destruct_and?; repeat split; try done; lia|]. intros; destruct_and?.
  repeat split; try done; lia.
Qed.

Lemma scope_ok_usable s : scope_ok s -> scope_unusable s = false.
Proof.
  intros Hs. pose proof Hs as ((Ht & _) & (Hn & _) & He & Heg & Hng & Hrg). apply scope_unusable_iff; try done.
  repeat (apply Forall_cons; split; [lia|]). constructor.
Qed.

Section handle_proofs.
Context `{Blake3KeyedLaws}.

Lemma handle_body_length s g : length (handle_body s g) = Z.to_nat BODY_BYTES.
Proof. unfold handle_body. rewrite !length_app, !be_bytes_length. done. Qed.

Lemma issue_handle_length s key : len (issue_handle s key) = HANDLE_BYTES.
Proof.
  unfold issue_handle. cbv zeta. rewrite len_app. unfold tag. rewrite blake3_keyed_length. unfold len. rewrite handle_body_length. done.
Qed.

Ltac flatten H := repeat rewrite <-app_assoc in H; repeat rewrite length_app in H.

(** The fields of a body, with whatever follows it. *)
Lemma decode_scope_body s g rest : scope_ok s -> decode_scope (handle_body s g ++ rest) = s.
Proof.
  intros ((Ht & _) & (Hn & _) & He & Heg & Hng & Hrg). destruct s as [t e n eg ng rg]. unfold decode_scope, handle_body.
  cbn [hs_tenant_id hs_export_id hs_node_id hs_export_generation hs_node_generation hs_restore_generation] in *. rewrite <-!app_assoc.
  set (f := [byte_of_Z NFS_HANDLE_FORMAT]). set (kg := be_bytes 4 g). set (bt := be_bytes 16 (Z.of_N t)). set (be := be_bytes 8 e).
  set (bn := be_bytes 16 (Z.of_N n)). set (beg := be_bytes 8 eg). set (bng := be_bytes 8 ng). set (brg := be_bytes 8 rg).
  assert (length f = 1%nat /\ length kg = 4%nat /\ length bt = 16%nat /\ length be = 8%nat /\ length bn = 16%nat /\
          length beg = 8%nat /\ length bng = 8%nat /\ length brg = 8%nat) as (L1 & L2 & L3 & L4 & L5 & L6 & L7 & L8)
    by (unfold f, kg, bt, be, bn, beg, bng, brg; rewrite !be_bytes_length; done).
  pose proof (slice_app_mid (f ++ kg) bt (be ++ bn ++ beg ++ bng ++ brg ++ rest) 5 21) as S1.
  pose proof (slice_app_mid (f ++ kg ++ bt) be (bn ++ beg ++ bng ++ brg ++ rest) 21 29) as S2.
  pose proof (slice_app_mid (f ++ kg ++ bt ++ be) bn (beg ++ bng ++ brg ++ rest) 29 45) as S3.
  pose proof (slice_app_mid (f ++ kg ++ bt ++ be ++ bn) beg (bng ++ brg ++ rest) 45 53) as S4.
  pose proof (slice_app_mid (f ++ kg ++ bt ++ be ++ bn ++ beg) bng (brg ++ rest) 53 61) as S5.
  pose proof (slice_app_mid (f ++ kg ++ bt ++ be ++ bn ++ beg ++ bng) brg rest 61 69) as S6.
  flatten S1. flatten S2. flatten S3. flatten S4. flatten S5. flatten S6.
  rewrite S1, S2, S3, S4, S5, S6 by lia. unfold bt, be, bn, beg, bng, brg, is_uuid, u64_max in *.
  rewrite !of_be_be by (simpl; lia). f_equal; lia.
Qed.

Lemma generation_body s g rest : 0 <= g <= u32_max -> of_be_bytes (slice 1 5 (handle_body s g ++ rest)) = g.
Proof.
  intros Hg. unfold handle_body. rewrite <-!app_assoc. rewrite (slice_app_mid [byte_of_Z NFS_HANDLE_FORMAT] (be_bytes 4 g));
    [|done|by rewrite be_bytes_length]. apply of_be_be. unfold u32_max in Hg. simpl. lia.
Qed.

(** A body is determined by the fields that are decoded from it. *)
Lemma body_of_handle handle :
  len handle = HANDLE_BYTES -> is_some_and (head handle) (fun b => byte_val b =? NFS_HANDLE_FORMAT) = true ->
  take (Z.to_nat BODY_BYTES) handle = handle_body (decode_scope handle) (of_be_bytes (slice 1 5 handle)).
Proof.
  intros Hlen Hf. assert (length handle = 101%nat) as Hl by (unfold len in Hlen; change HANDLE_BYTES with 101 in Hlen; lia).
  unfold handle_body, decode_scope. simpl hs_tenant_id. simpl hs_export_id. simpl hs_node_id. simpl hs_export_generation.
  simpl hs_node_generation. simpl hs_restore_generation. rewrite !Z2N.id by (apply of_be_bytes_bound).
  rewrite !be_slice by (try done; lia).
  assert ([byte_of_Z NFS_HANDLE_FORMAT] = slice 0 1 handle) as ->.
  { destruct handle as [|b handle]; [done|]. simpl in Hf. apply Z.eqb_eq in Hf. unfold slice. simpl. f_equal.
    apply byte_val_inj. rewrite byte_val_of_Z, Hf. done. }
  rewrite !slice_cat by lia. unfold slice. by rewrite drop_0.
Qed.

Lemma decode_scope_bounds handle :
  len handle = HANDLE_BYTES ->
  is_uuid (hs_tenant_id (decode_scope handle)) /\ is_uuid (hs_node_id (decode_scope handle)) /\
  Forall (fun x => 0 <= x <= u64_max) [hs_export_id (decode_scope handle); hs_export_generation (decode_scope handle);
    hs_node_generation (decode_scope handle); hs_restore_generation (decode_scope handle)].
Proof.
  intros Hlen. assert (length handle = 101%nat) as Hl by (unfold len in Hlen; change HANDLE_BYTES with 101 in Hlen; lia).
  assert (forall from to, (from <= to <= 101)%nat -> 0 <= of_be_bytes (slice from to handle) < 256 ^ Z.of_nat (to - from)) as Hb.
  { intros from to Hft. pose proof (of_be_bytes_bound (slice from to handle)) as Hb. unfold len in Hb. rewrite handle_slice_length in Hb by lia. exact Hb. }
  unfold decode_scope, is_uuid, u64_max. simpl.
  pose proof (Hb 5%nat 21%nat ltac:(lia)). pose proof (Hb 29%nat 45%nat ltac:(lia)). pose proof (Hb 21%nat 29%nat ltac:(lia)).
  pose proof (Hb 45%nat 53%nat ltac:(lia)). pose proof (Hb 53%nat 61%nat ltac:(lia)). pose proof (Hb 61%nat 69%nat ltac:(lia)). simpl in *.
  repeat split; try lia. repeat (apply Forall_cons; split; [lia|]). constructor.
Qed.

Lemma validate_handle_iff keyring handle s :
  keyring_ok keyring ->
  validate_handle handle keyring = Ok s <-> scope_ok s /\ exists key, key_of keyring key /\ handle = issue_handle s key.
Proof.
  intros Hk. unfold validate_handle. cbv zeta. rewrite guard_Ok, orb_false_iff, !negb_false_iff, Z.eqb_eq, bind_Ok. split.
  - intros ([Hlen Hf] & key & Hsel & Hrun). apply select_key_iff in Hsel as [Hin Hg]; [|done].
    rewrite !guard_Ok, negb_false_iff, bool_decide_eq_true in Hrun. destruct Hrun as (Htag & Hs & [= <-]).
    destruct (decode_scope_bounds handle Hlen) as (Ht & Hn & Hb). split; [by apply scope_unusable_iff|]. exists key. split; [done|].
    rewrite body_of_handle, <-Hg in Htag by done. unfold issue_handle. cbv zeta. rewrite Htag.
    rewrite Hg, <-body_of_handle by done. symmetry. apply take_drop.
  - intros (Hs & key & Hin & ->). pose proof (issue_handle_length s key) as Hlen. split; [split; [done|]; by vm_compute|].
    destruct (proj1 Hk key Hin) as [Hg _]. exists key. unfold issue_handle. cbv zeta. split.
    + apply select_key_iff; [done|]. split; [done|]. symmetry. apply generation_body. lia.
    + rewrite (take_app_length' _ _ _ (eq_sym (handle_body_length s (hk_generation key)))).
      rewrite (drop_app_length' _ _ _ (eq_sym (handle_body_length s (hk_generation key)))).
      rewrite bool_decide_eq_true_2 by done. simpl negb. cbv iota. rewrite decode_scope_body by done.
      by rewrite scope_ok_usable.
Qed.
End handle_proofs.

Section keyring_proofs.
Context `{Base64Lib} (json_keyset : string -> option KeysetDocument).
(** The decoder yields [u32] generations. *)
Hypothesis json_u32 : forall source document, json_keyset source = Some document ->
  is_u32 (kd_generation (kd_current document)) /\ forall p, kd_previous document = Some p -> is_u32 (kd_generation p).

Lemma decode_key_length value material : decode_key value = Ok material -> len material = 32.
Proof. unfold decode_key. rewrite bind_Ok. intros (d & _ & Hd). case_match eqn:Hl; [|done]. injection Hd as <-. by apply Z.eqb_eq. Qed.

Lemma parse_previous_ok current document previous :
  (forall p, document = Some p -> is_u32 (kd_generation p)) -> parse_previous current document = Ok previous ->
  forall key, previous = Some key ->
    0 < hk_generation key <= u32_max /\ len (hk_material key) = 32 /\ hk_generation key < hk_generation current /\
    hk_material key <> hk_material current.
Proof.
  intros Hu. unfold parse_previous. destruct document as [d|]; [|intros [= <-]; done]. rewrite guard_Ok, orb_false_iff, Z.eqb_neq, Z.leb_gt, bind_Ok.
  intros ([Hz Hlt] & material & Hm & Hr) key Hkey. rewrite guard_Ok, bool_decide_eq_false in Hr. destruct Hr as [Hne Hr].
  simplify_eq. apply decode_key_length in Hm. specialize (Hu d eq_refl). unfold is_u32 in Hu. simpl. repeat split; try done; try lia; congruence.
Qed.

Lemma parse_keyring_ok source g keyring : parse_keyring json_keyset source g = Ok keyring -> keyring_ok keyring.
Proof.
  unfold parse_keyring. rewrite bind_Ok. intros (document & Hd & Hr). apply ok_or_Ok in Hd. destruct (json_u32 _ _ Hd) as [Hc Hp].
  rewrite guard_Ok, bind_Ok, !orb_false_iff, !negb_false_iff, Z.eqb_neq, Z.eqb_eq in Hr. destruct Hr as ([[_ Hg] Hgen] & material & Hm & Hr).
  rewrite bind_Ok in Hr. destruct Hr as (previous & Hprev & [= <-]). pose proof (parse_previous_ok _ _ _ Hp Hprev) as Hk.
  unfold is_u32 in Hc. split; simpl.
  - intros key [<- | Hkey]; [apply decode_key_length in Hm; simpl; split; [lia|done]|]. by destruct (Hk key Hkey) as (? & ? & _).
  - intros key Hkey. by destruct (Hk key Hkey) as (_ & _ & ? & ?).
Qed.

Section properties.
Context `{Blake3KeyedLaws}.

(** NFS file handles are unforgeable up to the keyed hash and never ambiguous:
    under a loaded keyring a byte string is accepted, with a given scope, exactly
    when it is the handle issued for that scope under the current or the previous
    key, and the scope names a tenant, an export, a node and three generations, none
    of them zero.  So what was issued before one rotation stays valid, an accepted
    handle has one encoding, and a handle of any other key, with a changed byte or
    of another length is refused. *)
Theorem nfs_handle_accepted_iff source g keyring handle s :
  parse_keyring json_keyset source g = Ok keyring ->
  validate_handle handle keyring = Ok s <-> scope_ok s /\ exists key, key_of keyring key /\ handle = issue_handle s key.
Proof. intros Hk. apply validate_handle_iff. by eapply parse_keyring_ok. Qed.
End properties.
End keyring_proofs.

(** ** Manifests *)

Definition entry_ok (e : NfsExportManifestEntry) : Prop := is_u64 (NfsExportManifestEntry_export_id e) /\ is_u64 (NfsExportManifestEntry_generation e).

Lemma be_bytes_inj width x y r r' :
  0 <= x < 256 ^ Z.of_nat width -> 0 <= y < 256 ^ Z.of_nat width -> be_bytes width x ++ r = be_bytes width y ++ r' -> x = y /\ r = r'.
Proof.
  intros Hx Hy Heq. apply app_inj_1 in Heq as [Hb Hr]; [|by rewrite !be_bytes_length]. split; [|done].
  apply (f_equal of_be_bytes) in Hb. by rewrite !of_be_be in Hb.
Qed.

Lemma length_prefixed_inj a b pa pb r r' :
  length_prefixed a = Some pa -> length_prefixed b = Some pb -> pa ++ r = pb ++ r' -> a = b /\ r = r'.
Proof.
  unfold length_prefixed. destruct (u32_try_from (len a)) as [na|] eqn:Ha; [|done]. destruct (u32_try_from (len b)) as [nb|] eqn:Hb; [|done].
  apply checked_Some in Ha as [<- Ha]. apply checked_Some in Hb as [<- Hb]. intros <-%(inj Some) <-%(inj Some) Heq. rewrite <-!app_assoc in Heq.
  unfold u32_max in *. apply be_bytes_inj in Heq as [Hn Heq]; [|simpl; lia|simpl; lia]. apply app_inj_1 in Heq; [done|]. unfold len in Hn. lia.
Qed.

Lemma entry_bytes_inj e e' b b' r r' :
  entry_ok e -> entry_ok e' -> manifest_entry_bytes e = Some b -> manifest_entry_bytes e' = Some b' -> b ++ r = b' ++ r' -> e = e' /\ r = r'.
Proof.
  intros [Hi Hg] [Hi' Hg']. unfold manifest_entry_bytes. destruct e as [id d p g h ro], e' as [id' d' p' g' h' ro'].
  cbn [NfsExportManifestEntry_export_id NfsExportManifestEntry_drive_id NfsExportManifestEntry_export_path NfsExportManifestEntry_generation
       NfsExportManifestEntry_root_handle NfsExportManifestEntry_read_only] in *.
  destruct (length_prefixed (as_bytes d)) as [bd|] eqn:Hd; cbn [mbind option_bind]; [|done]. destruct (length_prefixed (as_bytes p)) as [bp|] eqn:Hp; cbn [mbind option_bind]; [|done].
  destruct (length_prefixed h) as [bh|] eqn:Hh; cbn [mbind option_bind]; [|done]. intros <-%(inj Some).
  destruct (length_prefixed (as_bytes d')) as [bd'|] eqn:Hd'; cbn [mbind option_bind]; [|done]. destruct (length_prefixed (as_bytes p')) as [bp'|] eqn:Hp'; cbn [mbind option_bind]; [|done].
  destruct (length_prefixed h') as [bh'|] eqn:Hh'; cbn [mbind option_bind]; [|done]. intros <-%(inj Some) Heq. rewrite <-!app_assoc in Heq. unfold is_u64, u64_max in *.
  apply be_bytes_inj in Heq as [-> Heq]; [|simpl; lia|simpl; lia]. eapply length_prefixed_inj in Heq as [Hds Heq]; [|exact Hd|exact Hd'].
  apply be_bytes_inj in Heq as [-> Heq]; [|simpl; lia|simpl; lia]. injection Heq as Hro Heq.
  eapply length_prefixed_inj in Heq as [Hps Heq]; [|exact Hp|exact Hp']. destruct (length_prefixed_inj _ _ _ _ _ _ Hh Hh' Heq) as [-> ->].
  apply as_bytes_inj in Hds as ->. apply as_bytes_inj in Hps as ->. split; [|done]. f_equal.
  destruct ro, ro'; try done; vm_compute in Hro; discriminate Hro.
Qed.

Lemma entries_bytes_inj es es' bs bs' :
  Forall entry_ok es -> Forall entry_ok es' -> length es = length es' ->
  mapM manifest_entry_bytes es = Some bs -> mapM manifest_entry_bytes es' = Some bs' -> concat bs = concat bs' -> es = es'.
Proof.
  intros Hes. revert es' bs bs'. induction Hes as [|e es He Hes IH]; intros [|e' es'] bs bs' Hes' Hlen; try done. apply Forall_cons in Hes' as [He' Hes'].
  simpl. destruct (manifest_entry_bytes e) as [b|] eqn:Hb; simpl; [|done]. destruct (mapM _ es) as [l|] eqn:Hl; simpl; [|done]. intros [= <-].
  destruct (manifest_entry_bytes e') as [b'|] eqn:Hb'; simpl; [|done]. destruct (mapM _ es') as [l'|] eqn:Hl'; simpl; [|done]. intros [= <-]. simpl.
  intros Heq. eapply entry_bytes_inj in Heq as [-> Heq]; [|done|done|exact Hb|exact Hb']. f_equal. eapply IH; eauto.
Qed.

(** The bytes that are hashed for an export manifest determine the manifest: two
    manifests with the same bytes have the same tenant, generations and entries, so
    a gateway that acknowledges a digest acknowledges one manifest, up to collisions
    of the hash. *)
Theorem manifest_bytes_injective t f g es t' f' g' es' b :
  is_uuid t -> is_uuid t' -> is_u64 f -> is_u64 f' -> is_u64 g -> is_u64 g' -> Forall entry_ok es -> Forall entry_ok es' ->
  manifest_bytes t f g es = Some b -> manifest_bytes t' f' g' es' = Some b -> t = t' /\ f = f' /\ g = g' /\ es = es'.
Proof.
  intros Ht Ht' Hf Hf' Hg Hg' Hes Hes'. unfold manifest_bytes. destruct (u32_try_from (len es)) as [n|] eqn:Hn; cbn [mbind option_bind]; [|done].
  destruct (mapM _ es) as [l|] eqn:Hl; cbn [mbind option_bind]; [|done]. intros Hb. destruct (u32_try_from (len es')) as [n'|] eqn:Hn'; cbn [mbind option_bind]; [|done].
  destruct (mapM _ es') as [l'|] eqn:Hl'; cbn [mbind option_bind]; [|done]. intros Hb'. rewrite <-Hb in Hb'. clear Hb. apply checked_Some in Hn as [<- Hn].
  apply checked_Some in Hn' as [<- Hn']. apply (inj Some) in Hb'. do 2 apply app_inv_head in Hb'. unfold is_uuid, is_u64, u64_max, u32_max in *.
  apply be_bytes_inj in Hb' as [Htt Hb']; [|simpl; lia|simpl; lia]. do 2 (apply be_bytes_inj in Hb' as [-> Hb']; [|simpl; lia|simpl; lia]).
  apply be_bytes_inj in Hb' as [Hlen Hb']; [|simpl; lia|simpl; lia]. repeat split; [lia|]. symmetry.
  eapply entries_bytes_inj; [exact Hes'|exact Hes|unfold len in Hlen; lia|exact Hl'|exact Hl|exact Hb'].
Qed.

(** ** Principals *)

(** The user part of an admissible principal. *)
Definition principal_user (user : string) : Prop :=
  user <> "" /\ eq_ignore_ascii_case (as_bytes user) (as_bytes "root") = false /\
  Forall (fun b => is_ascii_graphic b = true /\ b <> "/"%char /\ b <> "\"%char /\ b <> "@"%char) (as_bytes user).

Lemma principal_user_free user : principal_user user -> char_free "@" user.
Proof. intros (_ & _ & Hall). unfold char_free. intros Hin. rewrite Forall_forall in Hall. by destruct (Hall _ Hin) as (_ & _ & _ & ?). Qed.

Lemma principal_user_iff user :
  is_empty user || eq_ignore_ascii_case (as_bytes user) (as_bytes "root") = false /\
  forallb (fun b => is_ascii_graphic b && negb (byte_is "/" b || byte_is "\" b || byte_is "@" b)) (as_bytes user) = true <-> principal_user user.
Proof.
  unfold principal_user, is_empty. rewrite orb_false_iff, String.eqb_neq, forallb_forall, Forall_forall.
  assert (forall b, is_ascii_graphic b && negb (byte_is "/" b || byte_is "\" b || byte_is "@" b) = true <->
            is_ascii_graphic b = true /\ b <> "/"%char /\ b <> "\"%char /\ b <> "@"%char) as Hb.
  { intros b. unfold byte_is. rewrite andb_true_iff, negb_true_iff, !orb_false_iff, !Ascii.eqb_neq. tauto. }
  setoid_rewrite <-list_elem_of_In. setoid_rewrite Hb. tauto.
Qed.

(** The principals that reach the identity mapping are exactly [user@REALM] for the
    one configured realm, with a single-component user that is not the superuser. *)
Theorem authenticated_principal_iff principal realm user :
  realm <> "" ->
  validate_authenticated_principal principal realm = Ok user <->
  principal = user +:+ String "@" realm /\ char_free "@" realm /\ principal_user user /\ str_len principal <= 512.
Proof.
  intros Hr. unfold validate_authenticated_principal. cbv zeta. rewrite !guard_Ok, !orb_false_iff, !negb_false_iff, Z.ltb_ge, String.eqb_eq. split.
  - intros ([_ Hlen] & ((([He Hroot] & Hrealm) & Hthird) & Hall) & Hu). pose proof (split_char_free "@" principal) as Hfree.
    pose proof (join_split_char "@" principal) as Hjoin. destruct (split_char "@" principal) as [|u [|re [|]]]; simpl in *; try done.
    simplify_eq. apply Forall_cons in Hfree as [_ Hfree]. apply Forall_cons in Hfree as [Hfree _].
    split; [done|]. split; [done|]. split; [|done]. apply principal_user_iff. split; [|done]. rewrite He. exact Hroot.
  - intros (-> & Hf & Hu & Hl). pose proof (principal_user_free _ Hu) as Hfu. rewrite split_char_app, split_char_free_id by done.
    apply principal_user_iff in Hu as [He Hall]. apply orb_false_iff in He as [He Hroot]. simpl. repeat split; try done.
    unfold is_empty. rewrite String.eqb_neq. by destruct user.
Qed.

(** ** Witnesses *)

Module Demo.
(** A keyed hash of the documented length. *)
#[local] Instance keyed_lib : Blake3KeyedLib := fun k m => take 32 (k ++ m ++ replicate 32 zero_byte).
#[local] Instance keyed_laws : Blake3KeyedLaws.
Proof. intros k m. unfold len, blake3_keyed, keyed_lib. rewrite length_take, !length_app, length_replicate. lia. Qed.

Definition key_text (c : ascii) : string := b64_encode (replicate 32 c).
Definition demo_document : KeysetDocument :=
  mkKeysetDocument KEYSET_FORMAT (mkKeyDocument 7 (key_text "c")) (Some (mkKeyDocument 6 (key_text "p"))).
Definition demo_json (source : string) : option KeysetDocument := if String.eqb source "keys" then Some demo_document else None.
Definition demo_keyring : NfsHandleKeyring := mkHandleKeyring (mkHandleKey 7 (replicate 32 "c"%char)) (Some (mkHandleKey 6 (replicate 32 "p"%char))).
Definition demo_scope : NfsHandleScope := mkHandleScope 5 1 9 2 3 4.

Lemma demo_json_u32 source document : demo_json source = Some document ->
  is_u32 (kd_generation (kd_current document)) /\ forall p, kd_previous document = Some p -> is_u32 (kd_generation p).
Proof. unfold demo_json. case_match; [|done]. intros [= <-]. split; [done|]. intros p [= <-]. done. Qed.

Lemma nfs_handle_accepted_iff_witness :
  validate_handle (issue_handle demo_scope (mkHandleKey 6 (replicate 32 "p"%char))) demo_keyring = Ok demo_scope.
Proof.
  apply (nfs_handle_accepted_iff demo_json demo_json_u32 "keys" 7 demo_keyring
           (issue_handle demo_scope (mkHandleKey 6 (replicate 32 "p"%char))) demo_scope).
  - vm_compute. reflexivity.
  - split; [repeat split; done|]. eexists. split; [right; reflexivity|reflexivity].
Defined.
End Demo.
