(* ===== verification/MtlsPolicy.v ===== *)
(** Model of the client-certificate policy of [source/crates/filebelt-runtime/src/lib.rs]
    ([PolicyUriClientVerifier]) and of [source/apps/filebelt-vfs/src/gateway_identity.rs],
    which binds a verified gateway to the protocol of its requests.  The parser of
    X.509 certificates and the verification of chains are parameters. *)
From S2P Require Import Prelude Collections Libraries Frames Net Web ConfigTypes Config VfsMessages.

Open Scope string_scope.
Open Scope Z_scope.
Open Scope list_scope.
Open Scope bool_scope.

(** ** The client verifier *)

(** [x509_parser::GeneralName] as far as it is inspected. *)
Inductive GeneralName := URI (uri : string) | OtherName.

(** crate [x509-parser]: the subject alternative names of a certificate, [None] for
    bytes that are no certificate or have a malformed extension, [Some None] for a
    certificate without the extension. *)
Class X509Lib := {
  subject_alternative_name : bytes -> option (option (list GeneralName));
  (** [WebPkiClientVerifier::verify_client_cert] for the given client CA file *)
  chain_verified : string -> bytes -> bool
}.

Section verifier.
Context `{X509Lib}.

Definition uri_name (name : GeneralName) : option string := match name with URI uri => Some uri | OtherName => None end.

(** The error is [()]. *)
Definition certificate_single_uri_san (certificate : bytes) : result unit (option string) :=
  let? san := ok_or tt (subject_alternative_name certificate) in
  match san with
  | None => Ok None
  | Some general_names =>
      match omap uri_name general_names with
      | [uri_san] => Ok (Some uri_san)
      | _ => Ok None
      end
  end.

Definition spiffe_trust_domain (uri : string) : option string :=
  match strip_prefix "spiffe://" uri with
  | None => None
  | Some remainder =>
      match split_once_char "/" remainder with
      | None => None
      | Some (domain, path) => if negb (is_empty domain) && negb (is_empty path) then Some domain else None
      end
  end.

Definition certificate_has_allowed_uri (certificate : bytes) (allowed trust_domains : list string) : result unit bool :=
  let? san := certificate_single_uri_san certificate in
  Ok (is_some_and san (fun uri =>
        bset_contains uri allowed || is_some_and (spiffe_trust_domain uri) (fun domain => bset_contains domain trust_domains))).

Inductive CertificateError := ChainRejected | BadEncoding | ApplicationVerificationFailure.

Record PolicyUriClientVerifier := mkVerifier { inner : string; allowed_uris : list string; trust_domains : list string }.

(** The verifier [backend_server_config] builds. *)
Definition backend_client_verifier (t : BackendServerTlsConfig) : PolicyUriClientVerifier :=
  mkVerifier (BackendServerTlsConfig_client_ca_file t) (bset_of_list (BackendServerTlsConfig_allowed_client_uri_sans t))
    (bset_of_list (BackendServerTlsConfig_allowed_client_trust_domains t)).

Definition verify_client_cert (v : PolicyUriClientVerifier) (end_entity : bytes) : result CertificateError unit :=
  if negb (chain_verified (inner v) end_entity) then Err ChainRejected
  else
    let? allowed := map_err (fun _ => BadEncoding) (certificate_has_allowed_uri end_entity (allowed_uris v) (trust_domains v)) in
    if negb allowed then Err ApplicationVerificationFailure else Ok tt.

(** [verified_mtls_peer] on the certificate of a verified connection. *)
Definition verified_peer_uri_san (certificate : bytes) : option string :=
  match certificate_single_uri_san certificate with Ok san => san | Err _ => None end.
End verifier.

(** ** Gateway identities *)

Definition IDENTITY_MISMATCH : string := "vfs.gateway_identity_mismatch".
Definition NFS_REQUIRES_MTLS : string := "vfs.nfs_requires_mtls".

Definition GatewayIdentityMap : Type := btmap string MountProtocol.

Definition insert_protocol_identities (identities : GatewayIdentityMap) (protocol : MountProtocol) (current : string)
    (previous : option string) : GatewayIdentityMap :=
  let identities := bt_insert current protocol identities in
  match previous with Some previous => bt_insert previous protocol identities | None => identities end.

Definition from_mounts (m : MountConfig) : GatewayIdentityMap :=
  let smb := MountConfig_smb m in
  let ftp := MountConfig_ftp_ftps m in
  let nfs := MountConfig_nfs m in
  let by_uri_san := if SmbMountConfig_enabled smb
    then insert_protocol_identities [] MountProtocol_Smb (SmbMountConfig_gateway_uri_san smb) (SmbMountConfig_previous_gateway_uri_san smb) else [] in
  let by_uri_san := if FtpFtpsMountConfig_enabled ftp
    then insert_protocol_identities by_uri_san MountProtocol_Ftps (FtpFtpsMountConfig_gateway_uri_san ftp)
           (FtpFtpsMountConfig_previous_gateway_uri_san ftp) else by_uri_san in
  if NfsMountConfig_enabled nfs
  then insert_protocol_identities by_uri_san MountProtocol_Nfs (NfsMountConfig_gateway_uri_san nfs)
         (NfsMountConfig_previous_gateway_uri_san nfs) else by_uri_san.

Definition authorize_uri_san (identities : GatewayIdentityMap) (uri_san : string) (protocol : MountProtocol) : result string unit :=
  if bool_decide (bt_get uri_san identities = Some protocol) then Ok tt else Err IDENTITY_MISMATCH.

(** A peer is given by its URI SAN; without TLS there is none. *)
Definition authorize (identities : GatewayIdentityMap) (peer : option string) (protocol : MountProtocol) : result string unit :=
  match peer with
  | None => if bool_decide (protocol = MountProtocol_Nfs) then Err NFS_REQUIRES_MTLS else Ok tt
  | Some uri_san => authorize_uri_san identities uri_san protocol
  end.
