(* ===== verification/ConfigProofs.v ===== *)
(** What an accepted configuration guarantees: the separation of the roles that
    present client certificates to one another, the identities of mount gateways,
    the separation of signing keys, transport security, and the consistency of
    the storage limits. *)
From S2P Require Import Prelude Collections Libraries Frames Net Web ConfigTypes Config VfsMessages MtlsPolicy.

Open Scope string_scope.
Open Scope Z_scope.
Open Scope list_scope.
Open Scope bool_scope.

Lemma reject_if_Ok b m : reject_if b m = Ok tt <-> b = false.
Proof. unfold reject_if. destruct b; naive_solver. Qed.
Create Rewrite HintDb checks.
#[export] Hint Rewrite reject_if_Ok : checks.

(** Split an accepted chain of checks into its parts. *)
Ltac accepted H :=
  repeat lazymatch type of H with
  | (match ?e with Ok _ => _ | Err _ => _ end) = Ok _ =>
      let Hc := fresh "Hc" in destruct e as [[]|] eqn:Hc in H; [|discriminate H]
  end.

(** ** Sets of identities *)

Lemma bset_disjoint a b : bset_is_disjoint a b = true <-> forall x, x ∈ a -> x ∉ b.
Proof.
  unfold bset_is_disjoint. rewrite forallb_forall. setoid_rewrite <- list_elem_of_In. setoid_rewrite negb_true_iff.
  setoid_rewrite <- not_true_iff_false. setoid_rewrite bset_contains_true. done.
Qed.

Lemma bset_of_list_contains (x : string) l : bset_contains x (bset_of_list l) = true <-> x ∈ l.
Proof. by rewrite bset_contains_true, elem_of_bset_of_list. Qed.

Section roles.
Context `{X509Lib, UrlLib}.

(** The identities a listener admits. *)
Definition identity_allowed (t : BackendServerTlsConfig) (uri : string) : Prop :=
  uri ∈ BackendServerTlsConfig_allowed_client_uri_sans t
  \/ exists domain, spiffe_trust_domain uri = Some domain /\ domain ∈ BackendServerTlsConfig_allowed_client_trust_domains t.

Definition admits (t : BackendServerTlsConfig) (certificate : bytes) : Prop :=
  verify_client_cert (backend_client_verifier t) certificate = Ok tt.

Lemma admits_iff t certificate : admits t certificate <->
  chain_verified (BackendServerTlsConfig_client_ca_file t) certificate = true /\
  exists uri, verified_peer_uri_san certificate = Some uri /\ identity_allowed t uri.
Proof.
  unfold admits, verify_client_cert, certificate_has_allowed_uri, verified_peer_uri_san, identity_allowed. simpl.
  destruct (chain_verified _ _); simpl; [|naive_solver].
  destruct (certificate_single_uri_san certificate) as [[uri|]|]; simpl; [|naive_solver|naive_solver].
  destruct (bset_contains uri _) eqn:E; simpl.
  - apply bset_of_list_contains in E. naive_solver.
  - apply not_true_iff_false in E. rewrite bset_of_list_contains in E.
    destruct (spiffe_trust_domain uri) as [d|] eqn:Ed; simpl; [|naive_solver].
    destruct (bset_contains d _) eqn:E'; simpl.
    + apply bset_of_list_contains in E'. naive_solver.
    + apply not_true_iff_false in E'. rewrite bset_of_list_contains in E'. naive_solver.
Qed.

(** ** Overlapping policies *)

Context `{!UrlLaws}.

Lemma label_plain l : valid_dns_label l = true -> forallb plain_host_byte (as_bytes l) = true.
Proof.
  unfold valid_dns_label. rewrite !andb_true_iff. intros [_ Hall]. rewrite forallb_forall in *. intros b Hb.
  specialize (Hall b Hb). unfold lower_digit_hyphen, plain_host_byte in *. rewrite Hall. done.
Qed.

Lemma plain_join ps : Forall (fun l => forallb plain_host_byte (as_bytes l) = true) ps ->
  forallb plain_host_byte (as_bytes (join_char "." ps)) = true.
Proof.
  induction 1 as [|p ps Hp Hps IH]; [done|]. destruct ps as [|q ps]; [done|].
  change (join_char "." (p :: q :: ps)) with (p +:+ String "."%char (join_char "." (q :: ps))).
  rewrite as_bytes_app, forallb_app, Hp. simpl in *. done.
Qed.

Lemma policy_name_plain d : valid_dns_policy_name d = true -> d <> "" /\ forallb plain_host_byte (as_bytes d) = true.
Proof.
  unfold valid_dns_policy_name, is_empty. rewrite !andb_true_iff, negb_true_iff, String.eqb_neq. intros [[Hne _] Hall].
  split; [done|]. rewrite <- (join_split_char "." d). apply plain_join. apply Forall_forall. intros l Hl.
  apply label_plain. rewrite forallb_forall in Hall. by apply Hall, list_elem_of_In.
Qed.

(** The trust domain the verifier reads is the host the configuration compared. *)
Lemma trust_domain_host uri d u : spiffe_trust_domain uri = Some d -> valid_dns_policy_name d = true ->
  url_parse uri = Some u -> host_str u = Some d.
Proof.
  unfold spiffe_trust_domain. intros Hd Hv Hu. destruct (strip_prefix _ uri) as [rest|] eqn:Hp; [|done].
  apply strip_prefix_Some in Hp as ->. destruct (split_once_char "/" rest) as [[d' path]|] eqn:Hs; [|done].
  apply split_once_char_Some in Hs as ->. case_match; [|done]. simplify_eq.
  apply policy_name_plain in Hv as [Hne Hplain]. by apply (url_parse_spiffe_host d path u).
Qed.

Lemma check_uri_sans_Ok ids : forall unique, check_uri_sans unique ids = Ok tt ->
  Forall (fun i => valid_exact_spiffe_uri_san i = true) ids.
Proof.
  induction ids as [|i ids IH]; intros unique; simpl; [done|]. rewrite guard_Ok, orb_false_iff, negb_false_iff.
  intros [[Hv _] Hr]. constructor; [done|]. by eapply IH.
Qed.

Lemma backend_tls_Ok t : validate_backend_tls t = Ok tt ->
  Forall (fun i => valid_exact_spiffe_uri_san i = true) (BackendServerTlsConfig_allowed_client_uri_sans t) /\
  Forall (fun d => valid_dns_policy_name d = true) (BackendServerTlsConfig_allowed_client_trust_domains t).
Proof.
  unfold validate_backend_tls. rewrite !seq_Ok, try_each_Ok. intros (_ & _ & _ & Hids & Hdom). split; [by eapply check_uri_sans_Ok|].
  eapply Forall_impl; [done|]. intros d. simpl. by rewrite reject_if_Ok, negb_false_iff.
Qed.

Lemma valid_san_parses i : valid_exact_spiffe_uri_san i = true -> exists u, url_parse i = Some u.
Proof. unfold valid_exact_spiffe_uri_san. destruct (url_parse i); simpl; eauto. done. Qed.

(** An exact identity of one policy and a trust domain of the other. *)
Lemma exact_in_domain a b uri d :
  validate_backend_tls a = Ok tt -> validate_backend_tls b = Ok tt ->
  uri ∈ BackendServerTlsConfig_allowed_client_uri_sans a -> spiffe_trust_domain uri = Some d ->
  d ∈ BackendServerTlsConfig_allowed_client_trust_domains b ->
  existsb (fun identity => spiffe_identity_uses_domain identity (bset_of_list (BackendServerTlsConfig_allowed_client_trust_domains b)))
    (bset_of_list (BackendServerTlsConfig_allowed_client_uri_sans a)) = true.
Proof.
  intros Ha Hb Hin Hd Hdom. apply backend_tls_Ok in Ha as [Ha _]. apply backend_tls_Ok in Hb as [_ Hb].
  rewrite Forall_forall in Ha, Hb. destruct (valid_san_parses _ (Ha _ Hin)) as [u Hu].
  apply existsb_exists. exists uri. split; [by apply list_elem_of_In, elem_of_bset_of_list|].
  unfold spiffe_identity_uses_domain. rewrite Hu. rewrite (trust_domain_host uri d u); [|auto..]. simpl.
  by apply bset_of_list_contains.
Qed.

Lemma no_overlap a b uri :
  validate_backend_tls a = Ok tt -> validate_backend_tls b = Ok tt -> backend_tls_identity_policies_overlap a b = false ->
  identity_allowed a uri -> identity_allowed b uri -> False.
Proof.
  intros Ha Hb Ho. unfold backend_tls_identity_policies_overlap in Ho. rewrite !orb_false_iff, !negb_false_iff, !bset_disjoint in Ho.
  setoid_rewrite elem_of_bset_of_list in Ho. destruct Ho as [[[Hids Hdoms] Hab] Hba].
  intros [Ia|(d & Hd & Ia)] [Ib|(d' & Hd' & Ib)].
  - by eapply Hids.
  - by rewrite (exact_in_domain a b uri d') in Hab.
  - by rewrite (exact_in_domain b a uri d) in Hba.
  - simplify_eq. by eapply Hdoms.
Qed.

Lemma admits_disjoint a b certificate :
  validate_backend_tls a = Ok tt -> validate_backend_tls b = Ok tt -> backend_tls_identity_policies_overlap a b = false ->
  admits a certificate -> ~ admits b certificate.
Proof.
  rewrite !admits_iff. intros Ha Hb Ho (_ & uri & Hu & Ia) (_ & uri' & Hu' & Ib). simplify_eq. by apply (no_overlap a b uri).
Qed.

(** ** Roles *)

Inductive Role :=
| RApi | RIo | RMcpBroker | RController | RCollaboration | RDocument | RDocumentAdapter | RRevision | RVfs | RVfsManagement.
#[export] Instance Role_eq_dec : EqDecision Role.
Proof. solve_decision. Defined.

Definition role_tls (t : BackendTlsConfig) (r : Role) : option BackendServerTlsConfig :=
  match r with
  | RApi => Some (BackendTlsConfig_api t) | RIo => Some (BackendTlsConfig_io t) | RMcpBroker => BackendTlsConfig_mcp_broker t
  | RController => BackendTlsConfig_controller t | RCollaboration => BackendTlsConfig_collaboration t
  | RDocument => BackendTlsConfig_document t | RDocumentAdapter => BackendTlsConfig_document_adapter t
  | RRevision => BackendTlsConfig_revision t | RVfs => BackendTlsConfig_vfs t | RVfsManagement => BackendTlsConfig_vfs_management t
  end.

(** The roles whose listener is isolated from every other role. *)
Definition isolated (r : Role) : Prop := r = RDocument \/ r = RDocumentAdapter \/ r = RRevision.
Definition separated (r r' : Role) : Prop := r <> r' /\ (isolated r \/ isolated r' \/ (r = RApi /\ r' = RIo) \/ (r = RIo /\ r' = RApi)).

Lemma validate_role_Ok name role others tls : validate_role name role others = Ok tt -> role = Some tls ->
  validate_backend_tls tls = Ok tt /\
  Forall (fun '(_, other) => is_some_and other (backend_tls_identity_policies_overlap tls) = false) others.
Proof.
  unfold validate_role, check_role_overlap. intros Hv ->. rewrite seq_Ok, try_each_Ok in Hv. destruct Hv as [Hv Hall].
  split; [done|]. eapply Forall_impl; [done|]. intros [n o]. simpl. by rewrite reject_if_Ok.
Qed.

Lemma overlap_symmetric a b : backend_tls_identity_policies_overlap a b = backend_tls_identity_policies_overlap b a.
Proof.
  unfold backend_tls_identity_policies_overlap.
  assert (forall x y, bset_is_disjoint x y = bset_is_disjoint y x) as Hd.
  { intros x y. apply eq_iff_eq_true. rewrite !bset_disjoint. naive_solver. }
  rewrite (Hd (bset_of_list (BackendServerTlsConfig_allowed_client_uri_sans a))),
    (Hd (bset_of_list (BackendServerTlsConfig_allowed_client_trust_domains a))). by rewrite <- !orb_assoc, (orb_comm (existsb _ _)).
Qed.

Lemma role_pair name role others a n b : validate_role name role others = Ok tt -> role = Some a -> (n, Some b) ∈ others ->
  backend_tls_identity_policies_overlap a b = false.
Proof. intros Hv Hr Hin. destruct (validate_role_Ok _ _ _ _ Hv Hr) as [_ Hall]. rewrite Forall_forall in Hall. apply (Hall _ Hin). Qed.

Lemma optional_tls_Ok role tls : validate_optional_tls role = Ok tt -> role = Some tls -> validate_backend_tls tls = Ok tt.
Proof. by intros Hv ->. Qed.

Lemma roles_valid t r tls : validate_tls t = Ok tt -> role_tls t r = Some tls -> validate_backend_tls tls = Ok tt.
Proof.
  unfold validate_tls. rewrite !seq_Ok.
  intros (Hapi & Hio & _ & Hbroker & Hcontroller & Hcollab & Hdoc & Hadapter & Hrev & Hvfs & Hmgmt) Hr.
  destruct r; simpl in Hr; simplify_eq; try done;
    first [eapply optional_tls_Ok; [|exact Hr]; assumption | eapply validate_role_Ok; [|exact Hr]; eassumption].
Qed.

Ltac by_role_pair H Ha Hb :=
  eapply role_pair;
  [exact H|exact Ha|simpl in Hb; rewrite <- Hb; solve [repeat first [apply list_elem_of_here | apply list_elem_of_further]]].

(** The pairs the configuration compares, in the order in which it does. *)
Lemma isolated_pair t r r' a b : validate_tls t = Ok tt -> role_tls t r = Some a -> role_tls t r' = Some b ->
  separated r r' -> backend_tls_identity_policies_overlap a b = false.
Proof.
  unfold validate_tls. rewrite !seq_Ok, reject_if_Ok.
  intros (_ & _ & Hao & _ & _ & _ & Hdoc & Hadapter & Hrev & _ & _) Ha Hb [Hne Hsep].
  destruct r, r'; try done;
    first [ by_role_pair Hdoc Ha Hb | by_role_pair Hadapter Ha Hb | by_role_pair Hrev Ha Hb
          | rewrite overlap_symmetric; first [by_role_pair Hdoc Hb Ha | by_role_pair Hadapter Hb Ha | by_role_pair Hrev Hb Ha]
          | by simpl in *; simplify_eq | by rewrite overlap_symmetric; simpl in *; simplify_eq
          | exfalso; unfold isolated in Hsep; naive_solver ].
Qed.
End roles.

(** ** Mount gateways *)

Lemma check_disjoint_Ok l : forall s, StronglySorted olt s -> check_disjoint s l = Ok tt -> NoDup l /\ forall x, x ∈ l -> x ∉ s.
Proof.
  induction l as [|i l IH]; intros s Hs; simpl; [intros _; split; [constructor|by intros x ?%elem_of_nil]|].
  rewrite guard_Ok, <- not_true_iff_false, bset_contains_true. intros [Hi Hr].
  destruct (IH _ (bset_insert_sorted i s Hs) Hr) as [Hnd Hout]. setoid_rewrite elem_of_bset_insert in Hout.
  split; [constructor; [|done]; intros Hin; apply (Hout i Hin); by left|].
  intros x [->|Hx]%elem_of_cons; [done|]. intros Hxs. by apply (Hout x Hx); right.
Qed.

(** The identities of one protocol, current and previous, when it is enabled. *)
Definition protocol_identities (m : MountConfig) (p : MountProtocol) : list string :=
  match p with
  | MountProtocol_Unspecified => []
  | MountProtocol_Smb =>
      let smb := MountConfig_smb m in
      if SmbMountConfig_enabled smb then SmbMountConfig_gateway_uri_san smb :: opt_list (SmbMountConfig_previous_gateway_uri_san smb) else []
  | MountProtocol_Ftps =>
      let ftp := MountConfig_ftp_ftps m in
      if FtpFtpsMountConfig_enabled ftp
      then FtpFtpsMountConfig_gateway_uri_san ftp :: opt_list (FtpFtpsMountConfig_previous_gateway_uri_san ftp) else []
  | MountProtocol_Nfs =>
      let nfs := MountConfig_nfs m in
      if NfsMountConfig_enabled nfs then NfsMountConfig_gateway_uri_san nfs :: opt_list (NfsMountConfig_previous_gateway_uri_san nfs) else []
  end.

Lemma insert_identities_wf ids p cur prev : bt_wf ids -> bt_wf (insert_protocol_identities ids p cur prev).
Proof. intros Hwf. unfold insert_protocol_identities. destruct prev; repeat apply bt_insert_wf; done. Qed.

Lemma get_insert_identity (k x : string) (v : MountProtocol) ids :
  bt_wf ids -> bt_get x (bt_insert k v ids) = if decide (x = k) then Some v else bt_get x ids.
Proof. apply bt_get_insert. Qed.

Lemma insert_identities_get ids p cur prev x : bt_wf ids ->
  bt_get x (insert_protocol_identities ids p cur prev) = if decide (x ∈ cur :: opt_list prev) then Some p else bt_get x ids.
Proof.
  intros Hwf. unfold insert_protocol_identities. destruct prev as [q|];
    rewrite !get_insert_identity by (repeat apply bt_insert_wf; done); repeat case_decide; set_solver.
Qed.

Section gateways.
Context (m : MountConfig).

Lemma from_mounts_get uri : bt_get uri (from_mounts m) =
  if decide (uri ∈ protocol_identities m MountProtocol_Nfs) then Some MountProtocol_Nfs
  else if decide (uri ∈ protocol_identities m MountProtocol_Ftps) then Some MountProtocol_Ftps
  else if decide (uri ∈ protocol_identities m MountProtocol_Smb) then Some MountProtocol_Smb else None.
Proof.
  assert (bt_wf (@nil (string * MountProtocol))) as Hnil by constructor.
  unfold from_mounts, protocol_identities.
  destruct (SmbMountConfig_enabled _), (FtpFtpsMountConfig_enabled _), (NfsMountConfig_enabled _);
    rewrite ?insert_identities_get by (repeat apply insert_identities_wf; done); repeat case_decide; set_solver.
Qed.

Lemma enabled_identities_elem uri : uri ∈ enabled_identities m <->
  exists p, uri ∈ protocol_identities m p.
Proof.
  unfold enabled_identities. cbv zeta. rewrite !elem_of_app. split.
  - intros [Hs|[Hf|Hn]]; [by exists MountProtocol_Smb|by exists MountProtocol_Ftps|by exists MountProtocol_Nfs].
  - intros [[] Hp]; [by apply elem_of_nil in Hp|by left|by right; left|by right; right].
Qed.

Lemma protocol_identities_disjoint p p' uri : NoDup (mount_gateway_identities m) ->
  uri ∈ protocol_identities m p -> uri ∈ protocol_identities m p' -> p = p'.
Proof.
  unfold mount_gateway_identities, protocol_identities. intros Hnd Hp Hp'.
  cbv zeta in *. repeat (rewrite NoDup_cons in Hnd || rewrite NoDup_app in Hnd). destruct_and! Hnd.
  destruct p, p'; try done; repeat case_match; set_solver.
Qed.

(** The identity map finds a protocol exactly for the identities of that protocol. *)
Lemma from_mounts_Some p uri : NoDup (mount_gateway_identities m) ->
  bt_get uri (from_mounts m) = Some p <-> uri ∈ protocol_identities m p.
Proof.
  intros Hnd. rewrite from_mounts_get. split.
  - repeat case_decide; naive_solver.
  - intros Hp. repeat case_decide;
      lazymatch goal with H : uri ∈ protocol_identities m ?q |- Some ?q = Some _ => by rewrite (protocol_identities_disjoint p q uri) | _ => idtac end.
    destruct p; [by apply elem_of_nil in Hp|done..].
Qed.
End gateways.

(** ** Guarantees *)

Section guarantees.
Context `{X509Lib, UrlLib}.

Lemma validate_parts c : validate c = Ok tt ->
  match Config_backend_tls c with Some tls => validate_tls tls | None => Ok tt end = Ok tt /\
  validate_deployment c = Ok tt /\ validate_limits (Config_limits c) = Ok tt /\ validate_keys c = Ok tt /\
  validate_mcp c = Ok tt /\ validate_collaboration c = Ok tt /\ validate_documents c = Ok tt /\
  validate_revisions c = Ok tt /\ validate_mounts c = Ok tt.
Proof. unfold validate. rewrite !seq_Ok. naive_solver. Qed.

(** C33. Roles are separated: under an accepted configuration no client certificate
    is admitted both by the listener of the API and by that of the I/O service, nor
    by the listener of the document service, of the document adapter or of the
    revision service and by any other one, be it by an exact identity or by a trust
    domain. *)
Theorem roles_separated `{!UrlLaws} c t r r' a b certificate :
  validate c = Ok tt -> Config_backend_tls c = Some t -> separated r r' ->
  role_tls t r = Some a -> role_tls t r' = Some b ->
  admits a certificate -> ~ admits b certificate.
Proof.
  intros Hv Ht Hsep Ha Hb. apply validate_parts in Hv as [Htls _]. rewrite Ht in Htls.
  apply admits_disjoint; [by eapply roles_valid..|by eapply isolated_pair].
Qed.

Lemma mounts_accepted c : validate_mounts c = Ok tt -> NoDup (mount_gateway_identities (Config_mounts c)) /\
  (mount_any_protocol_enabled (Config_mounts c) = true -> forall t, tls_role c BackendTlsConfig_vfs = Some t ->
   validate_vfs_mount_gateway_identities (Config_mounts c) t = Ok tt).
Proof.
  unfold validate_mounts. rewrite !seq_Ok. intros (Hid & _ & _ & Hrest). split.
  - unfold validate_mount_identities in Hid. rewrite !seq_Ok in Hid. destruct Hid as (_ & _ & _ & Hd).
    by apply check_disjoint_Ok in Hd; [destruct Hd|constructor].
  - intros Hen t Ht. rewrite Hen in Hrest. simpl in Hrest. rewrite !seq_Ok, Ht in Hrest. tauto.
Qed.

Lemma vfs_allowlist m t uri : validate_vfs_mount_gateway_identities m t = Ok tt ->
  identity_allowed t uri <-> uri ∈ enabled_identities m.
Proof.
  unfold validate_vfs_mount_gateway_identities, identity_allowed. rewrite seq_Ok, !reject_if_Ok, !negb_false_iff, bool_decide_eq_true.
  intros [Hnone Heq]. apply Z.eqb_eq in Hnone. destruct (BackendServerTlsConfig_allowed_client_trust_domains t); [|done].
  rewrite <- (elem_of_bset_of_list uri (enabled_identities m)), <- Heq, elem_of_bset_of_list. set_solver.
Qed.

(** A mount gateway speaks for exactly one protocol: with an accepted
    configuration, the VFS listener admits exactly the certificates of the current
    and previous gateways of the enabled protocols, and the request check lets such
    a gateway use its own protocol and no other. *)
Theorem gateway_bound_to_protocol c t certificate uri :
  validate c = Ok tt -> mount_any_protocol_enabled (Config_mounts c) = true -> tls_role c BackendTlsConfig_vfs = Some t ->
  chain_verified (BackendServerTlsConfig_client_ca_file t) certificate = true -> verified_peer_uri_san certificate = Some uri ->
  (admits t certificate <-> exists p, uri ∈ protocol_identities (Config_mounts c) p) /\
  (forall p, authorize (from_mounts (Config_mounts c)) (Some uri) p = Ok tt <-> uri ∈ protocol_identities (Config_mounts c) p) /\
  (forall p p', uri ∈ protocol_identities (Config_mounts c) p -> uri ∈ protocol_identities (Config_mounts c) p' -> p = p').
Proof.
  intros Hv Hen Ht Hchain Hpeer. apply validate_parts in Hv. destruct Hv as (_ & _ & _ & _ & _ & _ & _ & _ & Hm).
  apply mounts_accepted in Hm as [Hnd Hvfs]. split; [|split].
  - rewrite admits_iff, <- enabled_identities_elem, <- (vfs_allowlist _ _ uri (Hvfs Hen t Ht)). naive_solver.
  - intros p. rewrite <- from_mounts_Some by done. simpl. unfold authorize_uri_san. case_bool_decide; naive_solver.
  - intros p p'. by apply protocol_identities_disjoint.
Qed.
End guarantees.
