(* ===== verification/ConfigTransport.v ===== *)
(** Transport security of an accepted Kubernetes configuration: every enabled
    feature reaches its internal services over HTTPS and serves them with mutual
    TLS. *)
From S2P Require Import Prelude Collections Libraries Frames Net Web ConfigTypes Config VfsMessages MtlsPolicy ConfigProofs.

Open Scope string_scope.
Open Scope Z_scope.
Open Scope list_scope.
Open Scope bool_scope.

(** The internal services of the enabled features. *)
Definition service_urls (c : Config) : list (option Url) :=
  let mcp := Config_mcp c in
  let revisions := Config_revisions c in
  let mounts := Config_mounts c in
  (if McpConfig_enabled mcp
   then [McpBrokerClientConfig_url (McpConfig_broker mcp); McpAttachmentConfig_io_url (McpConfig_attachments mcp)] else [])
  ++ (if CollaborationConfig_enabled (Config_collaboration c) then [CollaborationConfig_io_url (Config_collaboration c)] else [])
  ++ (if DocumentConfig_enabled (Config_documents c) then [DocumentConfig_url (Config_documents c)] else [])
  ++ (if RevisionConfig_enabled revisions
      then [RevisionConfig_url revisions; RevisionConfig_adapter_url revisions; RevisionConfig_io_url revisions] else [])
  ++ (if mount_any_protocol_enabled mounts then [MountConfig_io_url mounts; MountConfig_management_url mounts] else []).

(** The listeners the enabled features need. *)
Definition required_roles (c : Config) : list (BackendTlsConfig -> option BackendServerTlsConfig) :=
  (if McpConfig_enabled (Config_mcp c) then [BackendTlsConfig_mcp_broker] else [])
  ++ (if McpRunnerConfig_enabled (McpConfig_runners (Config_mcp c)) then [BackendTlsConfig_controller] else [])
  ++ (if CollaborationConfig_enabled (Config_collaboration c) then [BackendTlsConfig_collaboration] else [])
  ++ (if DocumentConfig_enabled (Config_documents c) then [BackendTlsConfig_document; BackendTlsConfig_document_adapter] else [])
  ++ (if RevisionConfig_enabled (Config_revisions c) then [BackendTlsConfig_revision] else [])
  ++ (if mount_any_protocol_enabled (Config_mounts c) then [BackendTlsConfig_vfs; BackendTlsConfig_vfs_management] else []).

Definition secure_service (url : option Url) : Prop :=
  exists u, url = Some u /\ scheme u = "https" /\ is_some (host_str u) = true /\ is_some (url_port u) = true /\
            username u = "" /\ password u = None /\ url_path u = "/" /\ query u = None /\ fragment u = None.

Lemma is_none_false {A} (o : option A) : is_none o = false <-> is_some o = true.
Proof. by destruct o. Qed.
Lemma is_some_false {A} (o : option A) : is_some o = false <-> o = None.
Proof. by destruct o. Qed.

Lemma service_origin u : not_service_origin "https" u = false -> secure_service (Some u).
Proof.
  unfold not_service_origin, has_credentials, has_query_or_fragment, scheme_is, path_is, is_empty.
  rewrite !orb_false_iff, !negb_false_iff, !String.eqb_eq, !is_none_false, !is_some_false.
  intros (((((? & ?) & ?) & ?) & ? & ?) & ? & ?). exists u. repeat split; done.
Qed.

Section kubernetes.
Context `{UrlLib}.
Variable c : Config.
Hypothesis kubernetes : DeploymentConfig_mode (Config_deployment c) = Kubernetes.

Lemma url_checked (m m' : string) (o : option Url) k mode :
  mode = Kubernetes ->
  (let? u := ok_or (invalid m) o in let? _ := reject_if (not_service_origin (expected_scheme mode) u) m' in k) = Ok tt ->
  secure_service o /\ k = Ok tt.
Proof.
  intros ->. destruct o as [u|]; simpl; [|done]. rewrite seq_Ok, reject_if_Ok. intros [Hu Hk]. split; [|done]. by apply service_origin.
Qed.

Lemma internal_service_secure url service : validate_internal_service_url url Kubernetes service = Ok tt -> secure_service url.
Proof.
  unfold validate_internal_service_url. destruct url as [u|]; simpl; [|done]. rewrite reject_if_Ok. apply service_origin.
Qed.

Lemma mcp_secured : validate_mcp c = Ok tt ->
  (McpConfig_enabled (Config_mcp c) = true ->
   secure_service (McpBrokerClientConfig_url (McpConfig_broker (Config_mcp c))) /\
   secure_service (McpAttachmentConfig_io_url (McpConfig_attachments (Config_mcp c))) /\
   is_some (tls_role c BackendTlsConfig_mcp_broker) = true) /\
  (McpRunnerConfig_enabled (McpConfig_runners (Config_mcp c)) = true -> is_some (tls_role c BackendTlsConfig_controller) = true).
Proof.
  unfold validate_mcp. rewrite kubernetes, seq_Ok. intros [_ Hm].
  destruct (McpConfig_enabled _); simpl in Hm; [|apply reject_if_Ok in Hm; rewrite Hm; done].
  rewrite !seq_Ok in Hm. destruct Hm as (Hs & _ & _ & _ & _ & _ & _ & _ & _ & Hr & Hrun).
  split.
  - intros _. unfold validate_mcp_services in Hs. rewrite kubernetes, seq_Ok in Hs. destruct Hs as [_ Hs].
    apply url_checked in Hs as [Hb Hs]; [|done]. rewrite seq_Ok in Hs. destruct Hs as [_ Hs].
    apply url_checked in Hs as [Hi _]; [|done]. apply reject_if_Ok in Hr. by rewrite is_none_false in Hr.
  - intros Hen. rewrite Hen in Hrun. unfold validate_runners in Hrun. rewrite !seq_Ok, !reject_if_Ok in Hrun.
    destruct Hrun as (_ & _ & _ & Hrun). by rewrite is_none_false in Hrun.
Qed.

Lemma collaboration_secured : validate_collaboration c = Ok tt -> CollaborationConfig_enabled (Config_collaboration c) = true ->
  secure_service (CollaborationConfig_io_url (Config_collaboration c)) /\ is_some (tls_role c BackendTlsConfig_collaboration) = true.
Proof.
  unfold validate_collaboration. rewrite kubernetes, seq_Ok. intros [_ Hk] Hen. rewrite Hen in Hk. simpl in Hk.
  rewrite seq_Ok in Hk. destruct Hk as [_ Hk]. destruct (CollaborationConfig_capability_signing _); simpl in Hk; [|done].
  rewrite seq_Ok in Hk. destruct Hk as [_ Hk]. apply url_checked in Hk as [Hu Hk]; [|done]. split; [done|].
  rewrite !seq_Ok, !reject_if_Ok in Hk. destruct Hk as (_ & _ & _ & Hk). by rewrite is_none_false in Hk.
Qed.

Lemma documents_secured : validate_documents c = Ok tt -> DocumentConfig_enabled (Config_documents c) = true ->
  secure_service (DocumentConfig_url (Config_documents c)) /\ is_some (tls_role c BackendTlsConfig_document) = true /\
  is_some (tls_role c BackendTlsConfig_document_adapter) = true.
Proof.
  unfold validate_documents, tls_role. rewrite kubernetes, seq_Ok. intros [_ Hk] Hen. rewrite Hen in Hk. simpl in Hk.
  rewrite seq_Ok in Hk. destruct Hk as [_ Hk]. destruct (DocumentConfig_capability_signing _); simpl in Hk; [|done].
  rewrite !seq_Ok, !reject_if_Ok in Hk. destruct Hk as (_ & Hu & _ & _ & _ & _ & Hr). apply internal_service_secure in Hu.
  split; [done|]. destruct (Config_backend_tls c); [|done]. simpl in Hr. by rewrite orb_false_iff, !is_none_false in Hr.
Qed.

Lemma revisions_secured : validate_revisions c = Ok tt -> RevisionConfig_enabled (Config_revisions c) = true ->
  secure_service (RevisionConfig_url (Config_revisions c)) /\ secure_service (RevisionConfig_adapter_url (Config_revisions c)) /\
  secure_service (RevisionConfig_io_url (Config_revisions c)) /\ is_some (tls_role c BackendTlsConfig_revision) = true.
Proof.
  unfold validate_revisions. rewrite kubernetes, !seq_Ok. intros (_ & _ & Hk) Hen. rewrite Hen in Hk. simpl in Hk.
  rewrite seq_Ok in Hk. destruct Hk as [_ Hk]. destruct (RevisionConfig_capability_signing _); simpl in Hk; [|done].
  rewrite !seq_Ok, !reject_if_Ok in Hk. destruct Hk as (_ & (H1 & H2 & H3 & _) & _ & Hr & _).
  rewrite is_none_false in Hr. repeat split; [by eapply internal_service_secure..|done].
Qed.

Lemma mounts_secured : validate_mounts c = Ok tt -> mount_any_protocol_enabled (Config_mounts c) = true ->
  secure_service (MountConfig_io_url (Config_mounts c)) /\ secure_service (MountConfig_management_url (Config_mounts c)) /\
  is_some (tls_role c BackendTlsConfig_vfs) = true /\ is_some (tls_role c BackendTlsConfig_vfs_management) = true.
Proof.
  unfold validate_mounts. rewrite !seq_Ok. intros (_ & _ & _ & Hk) Hen. rewrite Hen in Hk. simpl in Hk.
  rewrite !seq_Ok in Hk. destruct Hk as (Hs & _ & _). unfold validate_mount_services in Hs. rewrite kubernetes, seq_Ok in Hs.
  destruct Hs as [_ Hs]. destruct (MountConfig_capability_signing _); simpl in Hs; [|done]. rewrite seq_Ok in Hs. destruct Hs as [_ Hs].
  apply url_checked in Hs as [Hio Hs]; [|done]. apply url_checked in Hs as [Hm Hs]; [|done].
  rewrite reject_if_Ok in Hs. simpl in Hs. rewrite !orb_false_iff, !is_none_false in Hs. naive_solver.
Qed.
End kubernetes.

Lemma Forall_if {A} (P : A -> Prop) (b : bool) l : (b = true -> Forall P l) -> Forall P (if b then l else []).
Proof. destruct b; auto. Qed.

(** In an accepted Kubernetes configuration every internal service of an enabled
    feature is reached over HTTPS at a plain origin with an explicit port, every
    listener it needs has mutual TLS configured, and the identity provider is used
    over HTTPS only. *)
Theorem kubernetes_transport_secured `{UrlLib} c : validate c = Ok tt -> DeploymentConfig_mode (Config_deployment c) = Kubernetes ->
  Forall secure_service (service_urls c) /\
  Forall (fun role => is_some (tls_role c role) = true) (required_roles c) /\
  scheme (OidcConfig_issuer (Config_oidc c)) = "https" /\ OidcConfig_development_allow_insecure (Config_oidc c) = false.
Proof.
  intros (_ & Hd & _ & _ & Hmcp & Hcol & Hdoc & Hrev & Hmnt)%validate_parts Hk.
  pose proof (mcp_secured c Hk Hmcp) as [Hm Hr]. pose proof (collaboration_secured c Hk Hcol) as Hc.
  pose proof (documents_secured c Hk Hdoc) as Hdo. pose proof (revisions_secured c Hk Hrev) as Hre.
  pose proof (mounts_secured c Hk Hmnt) as Hmo.
  split; [|split].
  - unfold service_urls. cbv zeta. rewrite !Forall_app. repeat split; apply Forall_if; intros Hen;
      rewrite ?Forall_cons, Forall_nil; naive_solver.
  - unfold required_roles. rewrite !Forall_app. repeat split; apply Forall_if; intros Hen;
      rewrite ?Forall_cons, Forall_nil; naive_solver.
  - unfold validate_deployment, scheme_is in Hd. rewrite Hk, reject_if_Ok in Hd. simpl in Hd.
    rewrite !orb_false_iff, negb_false_iff, String.eqb_eq in Hd. tauto.
Qed.
