(* ===== verification/ConfigDemo.v ===== *)
(** A complete Kubernetes configuration with every feature enabled, evaluated with
    the concrete URL parser, and the guarantees of [ConfigProofs], [ConfigLimits]
    and [ConfigTransport] at it. *)
From S2P Require Import Prelude Collections Libraries Frames Net Web ConfigTypes Config VfsMessages MtlsPolicy ConfigProofs ConfigLimits ConfigTransport.
Import ConcreteUrl.

Open Scope string_scope.
Open Scope Z_scope.
Open Scope list_scope.
Open Scope bool_scope.

Definition blank_url : Url := mkUrl "" "" "" None None None false None None "" None None.
Definition url_of (s : string) : Url := default blank_url (parse s).
Definition https_origin (host : string) (port : Z) : option Url := parse ("https://" +:+ host +:+ ":" +:+ dec_to_string port +:+ "/").

Definition signing (name : string) : SigningKeyConfig :=
  mkSigningKeyConfig ("/run/secrets/" +:+ name +:+ ".pk8") ("/run/secrets/" +:+ name +:+ ".pub") 1.
Definition server_tls (identities domains : list string) : BackendServerTlsConfig :=
  mkBackendServerTlsConfig "/tls/chain.pem" "/tls/key.pem" "/tls/ca.pem" identities domains.
Definition role (name : string) : option BackendServerTlsConfig := Some (server_tls ["spiffe://filebelt/" +:+ name] []).
Definition file (name : string) : option string := Some ("/run/secrets/" +:+ name).

Definition smb_previous : string := "spiffe://filebelt/smb-gateway/vfs-previous".
Definition demo_tls : BackendTlsConfig :=
  mkBackendTlsConfig (server_tls ["spiffe://filebelt/web/api"] []) (server_tls ["spiffe://filebelt/io-client"] ["workers.filebelt"])
    (role "api/mcp") (role "mcp-broker/controller") (role "api/collaboration") (role "api/document") (role "adapter/document")
    (role "api/revision")
    (Some (server_tls [NFS_GATEWAY_URI_SAN; SMB_GATEWAY_URI_SAN; smb_previous] [])) (role "api/vfs").

Definition demo_mcp : McpConfig :=
  mkMcpConfig true (file "mcp-database") default_mcp_callback_path
    (mkMcpBrokerClientConfig (https_origin "broker.internal" 8082) (file "a") (file "b") (file "c"))
    (mkMcpVaultConfig (file "mcp-vault") 1)
    (mkMcpEgressConfig Public (https_origin "egress.internal" 8443) (file "a") (file "b") (file "c"))
    [("tunnel", mkMcpEgressConfig PrivateTunnel (https_origin "tunnel.internal" 8443) (file "a") (file "b") (file "c"))]
    (mkMcpAttachmentConfig (https_origin "io.internal" 8081) (file "a") (file "b") (file "c"))
    [("private", mkMcpTrustProfile (Some "tunnel") false ["llm.private.example"] ["10.0.0.0/8"] [443] None false);
     ("public", mkMcpTrustProfile None true [] [] [443] None true)]
    [("client", mkMcpOauthClient (url_of "https://id.example.test/") "filebelt" None)]
    ["example.test"] McpLimitConfig_default
    (mkMcpRunnerConfig true "filebelt-mcp-runners" (file "catalog") (file "root") (file "bundles")
       (Some "registry/runner@sha256:0123456789abcdef0123456789abcdef0123456789abcdef0123456789abcdef")
       (https_origin "controller.internal" 8083) (file "a") (file "b") (file "c") 1 8).

Definition demo_config : Config :=
  mkConfig 9 (mkDeploymentConfig Kubernetes) (url_of "https://files.example.test/")
    (mkTenantConfig "example" [mkExternalSubject (url_of "https://id.example.test/") "admin"])
    (mkDatabaseConfig "/run/secrets/database-url" 16)
    (mkOidcConfig (url_of "https://id.example.test/") "filebelt" "/run/secrets/oidc" default_callback_path None None
       (parse "http://proxy.internal:3128/") false)
    (mkStorageConfig "/var/lib/filebelt" 1)
    (mkKeyConfig "/run/secrets/digest-key" 1 (signing "api-storage") (Some (signing "grant")) (Some (signing "delegation")))
    (Some demo_tls) (mkTelemetryConfig Json true (parse "http://otel.internal:4318/v1/traces") None [("x-token", "/run/secrets/otlp")] None)
    ListenerConfig_default LimitConfig_default (Some (mkIggyConfig "iggy:8090" default_iggy_stream default_iggy_partitions)) demo_mcp
    (mkCollaborationConfig true (file "collaboration-database") (Some (signing "collaboration")) (https_origin "io.internal" 8081)
       (file "a") (file "b") (file "c") true (parse "https://files.example.test/collaboration/v1/wt") 75 300
       CollaborationLimitConfig_default)
    (mkDocumentConfig true default_document_provider_id (file "document-database") (https_origin "document.internal" 8089)
       (parse "https://office.example.test/onlyoffice/launch") (parse "https://provider.example.test/") (file "a") (file "b") (file "c")
       (Some (signing "document")) 20 104857600 60)
    (mkRevisionConfig true (file "revision-database") (https_origin "revision.internal" 8091) (https_origin "adapter.internal" 8092)
       (https_origin "io.internal" 8081) (file "a") (file "b") (file "c") (file "d") (file "e") (file "f") (file "g") (file "h") (file "i")
       (Some (signing "revision")) default_revision_chunk_bytes default_revision_text_bytes default_revision_object_format
       RevisionLimitConfig_default)
    MediaConfig_default
    (mkMountConfig (file "mount-database") (file "mount-vault") 1 (Some (signing "mount")) (https_origin "io.internal" 8081)
       (file "a") (file "b") (file "c") (https_origin "vfs.internal" 8088) (file "d") (file "e") (file "f")
       (mkHeadscaleSyncConfig true (parse "https://headscale.example.test/") (file "token") (file "ca") (parse "https://id.example.test/") 15)
       (mkSmbMountConfig true SMB_GATEWAY_URI_SAN (Some smb_previous)) FtpFtpsMountConfig_default
       (mkNfsMountConfig true NFS_GATEWAY_URI_SAN None (Some "EXAMPLE.TEST") (Some "example.test") (file "handles") 1 90)).

(** A certificate is the text of its one URI name. *)
#[local] Instance demo_x509 : X509Lib :=
  {| subject_alternative_name b := Some (Some [URI (str_of_bytes b)]); chain_verified _ _ := true |}.

Example demo_accepted : validate demo_config = Ok tt.
Proof. vm_compute. reflexivity. Qed.

(** The smallest development configuration, with every optional section at its default. *)
Definition development_config : Config :=
  mkConfig CONFIG_VERSION (mkDeploymentConfig Development) (url_of "https://files.example.test/")
    (mkTenantConfig "example" [mkExternalSubject (url_of "https://id.example.test/") "admin"])
    (mkDatabaseConfig "/run/secrets/database-url" default_database_connections)
    (mkOidcConfig (url_of "https://id.example.test/") "filebelt" "/run/secrets/oidc" default_callback_path None None None false)
    (mkStorageConfig "/var/lib/filebelt" 1) (mkKeyConfig "/run/secrets/digest-key" 1 (signing "api-storage") None None) None
    TelemetryConfig_default ListenerConfig_default LimitConfig_default None McpConfig_default CollaborationConfig_default
    DocumentConfig_default RevisionConfig_default MediaConfig_default MountConfig_default.
Example defaults_accepted : validate development_config = Ok tt.
Proof. vm_compute. reflexivity. Qed.

Definition worker_certificate : bytes := as_bytes "spiffe://workers.filebelt/io-1".
Lemma roles_separated_witness :
  admits (BackendTlsConfig_io demo_tls) worker_certificate /\ ~ admits (BackendTlsConfig_api demo_tls) worker_certificate.
Proof.
  split; [vm_compute; reflexivity|].
  apply (roles_separated demo_config demo_tls RIo RApi (BackendTlsConfig_io demo_tls) (BackendTlsConfig_api demo_tls)).
  - exact demo_accepted.
  - reflexivity.
  - split; [discriminate|]. right. right. right. split; reflexivity.
  - reflexivity.
  - reflexivity.
  - vm_compute. reflexivity.
Defined.

Definition vfs_tls : BackendServerTlsConfig := server_tls [NFS_GATEWAY_URI_SAN; SMB_GATEWAY_URI_SAN; smb_previous] [].
Lemma gateway_bound_to_protocol_witness :
  (admits vfs_tls (as_bytes smb_previous) <-> exists p, smb_previous ∈ protocol_identities (Config_mounts demo_config) p) /\
  (forall p, authorize (from_mounts (Config_mounts demo_config)) (Some smb_previous) p = Ok tt <->
             smb_previous ∈ protocol_identities (Config_mounts demo_config) p) /\
  (forall p p', smb_previous ∈ protocol_identities (Config_mounts demo_config) p ->
                smb_previous ∈ protocol_identities (Config_mounts demo_config) p' -> p = p').
Proof.
  apply (gateway_bound_to_protocol demo_config vfs_tls (as_bytes smb_previous) smb_previous).
  - exact demo_accepted.
  - reflexivity.
  - reflexivity.
  - reflexivity.
  - vm_compute. reflexivity.
Defined.

Lemma signing_keys_separated_witness : NoDup (key_files demo_config).
Proof. apply (signing_keys_separated demo_config). exact demo_accepted. Defined.

Lemma accepted_limits_consistent_witness :
  (65535 + 1) * LimitConfig_chunk_size_bytes (Config_limits demo_config) <= i64_max.
Proof.
  apply (accepted_limits_consistent demo_config 1099511627776 65535).
  - exact demo_accepted.
  - split; vm_compute; discriminate.
  - split; [vm_compute; discriminate|vm_compute; reflexivity].
Defined.

Lemma kubernetes_transport_secured_witness : Forall secure_service (service_urls demo_config).
Proof. apply (kubernetes_transport_secured demo_config); [exact demo_accepted|reflexivity]. Defined.
