(* ===== verification/EgressGateway.v ===== *)
(** Model of [source/apps/filebelt-private-egress-gateway/src]: the configuration of
    the gateway ([config.rs]), its request policies ([policy.rs]), and the admission
    and forwarding of requests ([service.rs]).  Sockets, TLS and the HTTP client are
    not modelled; the JSON decoder, the URL parser and the validity of TLS server
    names are parameters. *)
From S2P Require Import Prelude Collections Libraries Frames Net Web ConfigTypes.

Open Scope string_scope.
Open Scope Z_scope.
Open Scope list_scope.
Open Scope bool_scope.

Definition MAX_RESPONSE_BYTES : Z := 104857600.
Definition MAX_RELAY_ADDRESSES : Z := 8.
Definition MAX_REQUEST_BYTES : Z := 16777216.
Definition MAX_CONCURRENCY : Z := 64.
Definition MAX_CONNECT_TIMEOUT_SECONDS : Z := 60.
Definition MAX_REQUEST_TIMEOUT_SECONDS : Z := 3600.
Definition MAX_HEADER_BYTES : Z := 32768.

(** ** Configuration *)

Inductive GatewayMode := Mcp | OnlyofficeOutput.
Record RelayAddresses := mkRelay {
  rl_addresses : list SocketAddr; rl_server_name : string; rl_ca_file : string; rl_certificate_chain_file : string; rl_private_key_file : string
}.
Record Limits := mkLimits {
  max_concurrency : Z; max_request_bytes : Z; max_response_bytes : Z; connect_timeout_seconds : Z; request_timeout_seconds : Z
}.
Record McpTarget := mkMcpTarget { mt_canonical_url : string; mt_trust_profile : string; mt_server_name : string; mt_ca_file : string; mt_port : Z }.
Record OnlyofficeTarget := mkOnlyofficeTarget {
  ot_canonical_origin : string; ot_path_prefix : string; ot_server_name : string; ot_ca_file : string; ot_port : Z
}.
Record GatewayConfig := mkGatewayConfig {
  gc_version : Z; gc_mode : GatewayMode; gc_listen_address : SocketAddr; gc_operations_address : SocketAddr;
  gc_server_tls : BackendServerTlsConfig; gc_relay : RelayAddresses; gc_limits : Limits;
  gc_mcp : option McpTarget; gc_onlyoffice_output : option OnlyofficeTarget
}.
Inductive TargetPolicy :=
| TpMcp (url : Url) (trust_profile server_name ca_file : string)
| TpOnlyofficeOutput (origin : Url) (path_prefix server_name ca_file : string).

(** crate [rustls]: [ServerName::try_from(name).is_ok()] *)
Class ServerNameLib := server_name_ok : string -> bool.

Definition reject (b : bool) (message : string) : result string unit := if b then Err message else Ok tt.

Section config.
Context `{UrlLib, ServerNameLib}.

Definition validate_server_name (server_name : string) : result string unit :=
  let? _ := reject (is_empty server_name || (253 <? str_len server_name) || str_ends_with "." server_name
                    || existsb is_ascii_whitespace (as_bytes server_name)) "TLS server name is invalid" in
  reject (negb (server_name_ok server_name)) "TLS server name is invalid".

Definition exact_https_url (value : string) (port : Z) (bare_origin : bool) : result string Url :=
  let? url := ok_or "target URL is invalid" (url_parse value) in
  if negb (String.eqb (as_str url) value) || negb (String.eqb (scheme url) "https") || is_none (host_str url)
     || negb (is_empty (username url)) || is_some (password url) || is_some (fragment url)
     || negb (bool_decide (port_or_known_default url = Some port))
     || (bare_origin && (negb (String.eqb (url_path url) "/") || is_some (query url)))
  then Err "target URL is not the configured canonical HTTPS form" else Ok url.

Definition validate_target_identity (url : Url) (server_name : string) : result string unit :=
  let? _ := validate_server_name server_name in
  reject (negb (bool_decide (url_host_text url = Some server_name))) "target TLS server name must equal the canonical URL host".

Definition trust_profile_byte (b : byte) : bool :=
  is_ascii_alphanumeric b || existsb (Ascii.eqb b) ["."%char; "_"%char; "-"%char; "/"%char].

Definition McpTarget_policy (t : McpTarget) : result string TargetPolicy :=
  let? url := exact_https_url (mt_canonical_url t) (mt_port t) false in
  let? _ := validate_target_identity url (mt_server_name t) in
  let? _ := reject ((128 <? str_len (mt_trust_profile t)) || negb (forallb trust_profile_byte (as_bytes (mt_trust_profile t))))
              "MCP trust profile is invalid" in
  Ok (TpMcp url (mt_trust_profile t) (mt_server_name t) (mt_ca_file t)).

Definition OnlyofficeTarget_policy (t : OnlyofficeTarget) : result string TargetPolicy :=
  let? origin := exact_https_url (ot_canonical_origin t) (ot_port t) true in
  let? _ := validate_target_identity origin (ot_server_name t) in
  let prefix := ot_path_prefix t in
  let? _ := reject ((256 <? str_len prefix) || negb (str_starts_with "/" prefix) || negb (str_ends_with "/" prefix)
                    || str_contains_char "%" prefix || str_contains_char "\" prefix
                    || existsb (fun segment => String.eqb segment "." || String.eqb segment "..") (split_char "/" prefix))
              "ONLYOFFICE path prefix is invalid" in
  Ok (TpOnlyofficeOutput origin prefix (ot_server_name t) (ot_ca_file t)).

Definition RelayAddresses_validate (r : RelayAddresses) : result string unit :=
  let? _ := reject ((len (rl_addresses r) =? 0) || (MAX_RELAY_ADDRESSES <? len (rl_addresses r)))
              "relay address count is outside the allowed range" in
  let? _ := reject (existsb (fun a => sa_port a =? 0) (rl_addresses r)) "relay address port must be nonzero" in
  validate_server_name (rl_server_name r).

Definition Limits_validate (l : Limits) : result string unit :=
  let? _ := reject (negb (range_contains 1 MAX_CONCURRENCY (max_concurrency l))) "gateway concurrency is outside the allowed range" in
  let? _ := reject (negb (range_contains 1 MAX_REQUEST_BYTES (max_request_bytes l))) "gateway request limit is outside the allowed range" in
  let? _ := reject (negb (range_contains 1 MAX_RESPONSE_BYTES (max_response_bytes l)))
              "gateway response limit is outside the allowed range" in
  let? _ := reject (negb (range_contains 1 MAX_CONNECT_TIMEOUT_SECONDS (connect_timeout_seconds l)))
              "gateway connect timeout is outside the allowed range" in
  reject (negb (range_contains 1 MAX_REQUEST_TIMEOUT_SECONDS (request_timeout_seconds l)))
    "gateway request timeout is outside the allowed range".

Definition discard {E A} (r : result E A) : result E unit := result_map (fun _ => tt) r.

Definition GatewayConfig_validate (c : GatewayConfig) : result string unit :=
  let? _ := reject (negb (gc_version c =? 1)) "unsupported gateway config version" in
  let? _ := reject (negb (len (BackendServerTlsConfig_allowed_client_trust_domains (gc_server_tls c)) =? 0))
              "gateway client authorization requires exact URI SANs" in
  let? _ := RelayAddresses_validate (gc_relay c) in
  let? _ := Limits_validate (gc_limits c) in
  match gc_mode c, gc_mcp c, gc_onlyoffice_output c with
  | Mcp, Some target, None => discard (McpTarget_policy target)
  | OnlyofficeOutput, None, Some target => discard (OnlyofficeTarget_policy target)
  | _, _, _ => Err "gateway mode must have exactly one matching target section"
  end.

Definition target_policy (c : GatewayConfig) : result string TargetPolicy :=
  match gc_mode c with
  | Mcp => let? target := ok_or "MCP target is absent" (gc_mcp c) in McpTarget_policy target
  | OnlyofficeOutput => let? target := ok_or "ONLYOFFICE target is absent" (gc_onlyoffice_output c) in OnlyofficeTarget_policy target
  end.
End config.

(** ** Request policies *)

Inductive PolicyError := InvalidControl | TargetDenied | MethodDenied | PathDenied | RequestTooLarge | ResponseDenied.

Definition PolicyError_code (e : PolicyError) : string :=
  match e with
  | InvalidControl => "gateway.control.invalid" | TargetDenied => "gateway.target.denied" | MethodDenied => "gateway.method.denied"
  | PathDenied => "gateway.path.denied" | RequestTooLarge => "gateway.request.too_large" | ResponseDenied => "gateway.response.denied"
  end.
Definition PolicyError_status (e : PolicyError) : Z :=
  match e with
  | RequestTooLarge => 413
  | TargetDenied | MethodDenied | PathDenied => 403
  | InvalidControl | ResponseDenied => 400
  end.

Definition reject_transfer_coding (headers : HeaderMap) : result PolicyError unit :=
  if contains_key "transfer-encoding" headers || contains_key "content-encoding" headers then Err InvalidControl else Ok tt.

Definition required_single_header (headers : HeaderMap) (name : string) : result PolicyError string :=
  match get_all name headers with
  | [value] => ok_or InvalidControl (to_str value)
  | _ => Err InvalidControl
  end.

Inductive Method := GET | POST.
Record McpRequestPolicy := mkMcpPolicy { mp_target : Url; mp_trust_profile : string }.
Record AdmittedMcpRequest := mkAdmittedMcp { am_method : Method; am_target : Url; am_headers : HeaderMap }.

Definition FORWARDED_HEADERS : list string :=
  ["authorization"; "x-api-key"; "mcp-protocol-version"; "mcp-session-id"; "content-type"; "accept"].

(** The loop over the forwarded headers. *)
Fixpoint forward_headers (headers : HeaderMap) (names : list string) : result PolicyError HeaderMap :=
  match names with
  | [] => Ok []
  | name :: rest =>
      match get_all name headers with
      | [] => forward_headers headers rest
      | [value] => let? forwarded := forward_headers headers rest in Ok ((name, value) :: forwarded)
      | _ => Err InvalidControl
      end
  end.

Section policies.
Context `{UrlLib}.

Definition McpRequestPolicy_admit (p : McpRequestPolicy) (headers : HeaderMap) : result PolicyError AdmittedMcpRequest :=
  let? _ := reject_transfer_coding headers in
  let? target := required_single_header headers "x-filebelt-mcp-target" in
  let? parsed := ok_or TargetDenied (url_parse target) in
  if negb (String.eqb (as_str parsed) target) || negb (url_eqb parsed (mp_target p)) then Err TargetDenied
  else
    let? trust := required_single_header headers "x-filebelt-mcp-trust-profile" in
    if negb (String.eqb trust (mp_trust_profile p)) then Err TargetDenied
    else
      let? method := required_single_header headers "x-filebelt-mcp-upstream-method" in
      let? method := if String.eqb method "GET" then Ok GET else if String.eqb method "POST" then Ok POST else Err MethodDenied in
      let? forwarded := forward_headers headers FORWARDED_HEADERS in
      Ok (mkAdmittedMcp method (mp_target p) forwarded).

Record OnlyofficeRequestPolicy := mkOnlyofficePolicy { op_origin : Url; op_path_prefix : string; op_response_limit : Z }.
Record OnlyofficeFetchRequest := mkFetch { fr_url : string; fr_maximum_bytes : Z }.
Record AdmittedOnlyofficeRequest := mkAdmittedFetch { af_target : Url; af_maximum_bytes : Z }.

(** [u8::from_str_radix(text, 16)] of two bytes: a leading [+] is accepted. *)
Definition u8_from_hex (h l : byte) : option Z :=
  if byte_is "+" h then to_digit 16 l
  else match to_digit 16 h, to_digit 16 l with Some a, Some b => Some (16 * a + b) | _, _ => None end.

Definition ambiguous_byte (decoded : Z) : bool :=
  (decoded <=? 32) || existsb (Z.eqb decoded) [35; 37; 46; 47; 63; 92; 127].

Fixpoint ambiguous_path (bytes_ : bytes) : bool :=
  match bytes_ with
  | [] => false
  | b :: rest =>
      if byte_is "\" b || is_ascii_control b then true
      else if byte_is "%" b then
        match rest with
        | h :: l :: rest' =>
            if negb (utf8_valid [h; l]) then true
            else match u8_from_hex h l with
                 | None => true
                 | Some decoded => if ambiguous_byte decoded then true else ambiguous_path rest'
                 end
        | _ => true
        end
      else ambiguous_path rest
  end.
Definition has_ambiguous_path_encoding (url : Url) : bool := ambiguous_path (as_bytes (url_path url)).

Definition OnlyofficeRequestPolicy_admit (p : OnlyofficeRequestPolicy) (headers : HeaderMap) (request : OnlyofficeFetchRequest)
  : result PolicyError AdmittedOnlyofficeRequest :=
  let? _ := reject_transfer_coding headers in
  let? target := ok_or TargetDenied (url_parse (fr_url request)) in
  if negb (String.eqb (as_str target) (fr_url request)) || negb (String.eqb (scheme target) "https")
     || negb (same_origin target (op_origin p)) || negb (is_empty (username target)) || is_some (password target)
     || is_some (fragment target)
  then Err TargetDenied
  else if negb (str_starts_with (op_path_prefix p) (url_path target)) || has_ambiguous_path_encoding target then Err PathDenied
  else if range_contains 1 (op_response_limit p) (fr_maximum_bytes request)
  then Ok (mkAdmittedFetch target (fr_maximum_bytes request)) else Err RequestTooLarge.
End policies.

(** ** The service *)

Inductive RequestPolicy := RpMcp (p : McpRequestPolicy) | RpOnlyoffice (p : OnlyofficeRequestPolicy).

(** The policy [serve] builds from an accepted configuration. *)
Definition request_policy (c : GatewayConfig) (t : TargetPolicy) : RequestPolicy :=
  match t with
  | TpMcp url trust_profile _ _ => RpMcp (mkMcpPolicy url trust_profile)
  | TpOnlyofficeOutput origin prefix _ _ => RpOnlyoffice (mkOnlyofficePolicy origin prefix (max_response_bytes (gc_limits c)))
  end.

(** What a handler does: answer with an error, or send a request to the target. *)
Record Upstream := mkUpstream {
  up_method : Method; up_request_target : string; up_headers : HeaderMap; up_body : bytes; up_response_limit : Z
}.
Inductive Reply := StableError (status : Z) (code : string) | Forward (request : Upstream).
Definition policy_error (e : PolicyError) : Reply := StableError (PolicyError_status e) (PolicyError_code e).

(** [headers_within_limit]: the running total may not exceed the limit; [usize] sums do not wrap below it. *)
Fixpoint headers_total (total : Z) (headers : HeaderMap) : option Z :=
  match headers with
  | [] => Some total
  | (name, value) :: rest =>
      let size := total + str_len name + len value in
      if size <=? MAX_HEADER_BYTES then headers_total size rest else None
  end.
Definition headers_within_limit (headers : HeaderMap) : bool := is_some (headers_total 0 headers).

Definition target_host (target : Url) : string :=
  let host := match url_host_text target with
              | Some host => if url_brackets target then "[" +:+ host +:+ "]" else host
              | None => ""
              end in
  match url_port target with Some port => host +:+ ":" +:+ dec_to_string port | None => host end.

(** [HeaderMap::insert] replaces every value of the name. *)
Definition header_insert (name : string) (value : bytes) (headers : HeaderMap) : HeaderMap :=
  List.filter (fun '(n, _) => negb (String.eqb n name)) headers ++ [(name, value)].

(** The request of [forward_bounded]. *)
Definition upstream_request (method : Method) (target : Url) (headers : HeaderMap) (body : bytes) (response_limit : Z) : Upstream :=
  let path := match query target with Some q => url_path target +:+ "?" +:+ q | None => url_path target end in
  let request_headers := [("host", as_bytes (target_host target))] in
  let request_headers := fold_left (fun hs '(name, value) => header_insert name value hs) headers request_headers in
  let request_headers := header_insert "content-length" (as_bytes (dec_to_string (len body))) request_headers in
  mkUpstream method path request_headers body response_limit.

Section service.
Context `{UrlLib}.
(** [serde_json::from_slice] *)
Variable json_fetch_request : bytes -> option OnlyofficeFetchRequest.

(** [forward], with the number of free permits of the semaphore. *)
Definition forward (l : Limits) (permits : Z) (method : Method) (target : Url) (headers : HeaderMap) (body : bytes) (response_limit : Z) : Reply :=
  if max_request_bytes l <? len body then policy_error RequestTooLarge
  else if permits <=? 0 then StableError 429 "gateway.busy"
  else Forward (upstream_request method target headers body response_limit).

Definition mcp_request (policy : RequestPolicy) (l : Limits) (permits : Z) (headers : HeaderMap) (body : bytes) : Reply :=
  match policy with
  | RpOnlyoffice _ => StableError 404 "gateway.route.not_found"
  | RpMcp policy =>
      if negb (headers_within_limit headers) then policy_error InvalidControl
      else
        match McpRequestPolicy_admit policy headers with
        | Err error => policy_error error
        | Ok admitted =>
            if match am_method admitted with GET => negb (len body =? 0) | POST => false end then policy_error InvalidControl
            else forward l permits (am_method admitted) (am_target admitted) (am_headers admitted) body (max_response_bytes l)
        end
  end.

Definition content_type_is_json (headers : HeaderMap) : bool :=
  match get_all "content-type" headers with
  | value :: _ => is_some_and (to_str value) (fun v => eq_ignore_ascii_case (as_bytes v) (as_bytes "application/json"))
  | [] => false
  end.

Definition onlyoffice_request (policy : RequestPolicy) (l : Limits) (permits : Z) (headers : HeaderMap) (body : bytes) : Reply :=
  match policy with
  | RpMcp _ => StableError 404 "gateway.route.not_found"
  | RpOnlyoffice policy =>
      if negb (headers_within_limit headers) || negb (content_type_is_json headers) then policy_error InvalidControl
      else
        match json_fetch_request body with
        | None => policy_error InvalidControl
        | Some request =>
            match OnlyofficeRequestPolicy_admit policy headers request with
            | Err error => policy_error error
            | Ok admitted => forward l permits GET (af_target admitted) [] [] (af_maximum_bytes admitted)
            end
        end
  end.

(** *** Responses *)

Inductive ForwardError := Redirect | ResponseTooLarge | Unavailable.
Record Response := mkResponse { rs_status : Z; rs_headers : HeaderMap; rs_body : bytes }.

Definition admit_response_status (status : Z) : result PolicyError unit :=
  if range_contains 300 399 status then Err ResponseDenied else Ok tt.

Definition announced_length (headers : HeaderMap) : option Z :=
  match header_get "content-length" headers with
  | Some value => match to_str value with Some text => parse_unsigned usize_max text | None => None end
  | None => None
  end.

(** The answer of [forward_bounded]; [Limited] breaks the body off beyond the limit, which is [None] here. *)
Definition relay_response (response_limit : Z) (r : Response) : result ForwardError (Z * HeaderMap * option bytes) :=
  let? _ := map_err (fun _ => Redirect) (admit_response_status (rs_status r)) in
  if negb (headers_within_limit (rs_headers r)) || is_some_and (announced_length (rs_headers r)) (fun size => response_limit <? size)
  then Err ResponseTooLarge
  else
    let kept := flat_map (fun name => match header_get name (rs_headers r) with Some value => [(name, value)] | None => [] end)
                  ["content-type"; "mcp-session-id"] in
    Ok (rs_status r, kept, if len (rs_body r) <=? response_limit then Some (rs_body r) else None).

Definition forward_error (e : ForwardError) : Reply :=
  match e with
  | Redirect => StableError 502 "gateway.redirect.denied"
  | ResponseTooLarge => StableError 502 "gateway.response.too_large"
  | Unavailable => StableError 502 "gateway.upstream.unavailable"
  end.
End service.
