(* ===== verification/EgressProofs.v ===== *)
(** What the private egress gateway lets through: the ONLYOFFICE policy cannot be
    escaped by an encoded path, and an MCP request carries nothing but the
    allowlisted headers to the one configured target. *)
From S2P Require Import Prelude Collections Libraries Frames Net Web ConfigTypes EgressGateway.

Open Scope string_scope.
Open Scope Z_scope.
Open Scope list_scope.
Open Scope bool_scope.

Lemma reject_Ok b m : reject b m = Ok tt <-> b = false.
Proof. unfold reject. destruct b; naive_solver. Qed.

(** ** Percent decoding *)

(** The reference decoder of a server: every [%] with two hexadecimal digits is a byte. *)
Fixpoint percent_decode (s : bytes) : bytes :=
  match s with
  | [] => []
  | b :: rest =>
      match rest with
      | h :: l :: rest' =>
          match byte_is "%" b, to_digit 16 h, to_digit 16 l with
          | true, Some x, Some y => byte_of_Z (16 * x + y) :: percent_decode rest'
          | _, _, _ => b :: percent_decode rest
          end
      | _ => b :: percent_decode rest
      end
  end.
Definition decoded_path (path : string) : string := str_of_bytes (percent_decode (as_bytes path)).

(** An unambiguous path is a sequence of plain bytes and escapes. *)
Inductive token := Raw (b : byte) | Esc (h l v : byte).
Definition raw (t : token) : bytes := match t with Raw b => [b] | Esc h l _ => ["%"%char; h; l] end.
Definition val (t : token) : byte := match t with Raw b => b | Esc _ _ v => v end.
Definition token_ok (t : token) : Prop :=
  match t with
  | Raw b => b <> "%"%char
  | Esc h l v =>
      (exists x y, to_digit 16 h = Some x /\ to_digit 16 l = Some y /\ v = byte_of_Z (16 * x + y)) /\ v <> "."%char /\ v <> "/"%char
  end.

Lemma unambiguous_hex h l d : u8_from_hex h l = Some d -> ambiguous_byte d = false ->
  exists x y, to_digit 16 h = Some x /\ to_digit 16 l = Some y /\ d = 16 * x + y.
Proof.
  unfold u8_from_hex. case_match.
  - intros Hd%to_digit_bound Ha. unfold ambiguous_byte in Ha. apply orb_false_iff in Ha as [Ha _]. blia.
  - repeat case_match; naive_solver.
Qed.

Lemma unambiguous_value d v : ambiguous_byte d = false -> byte_val v = d -> v <> "."%char /\ v <> "/"%char.
Proof. by intros Ha <-; split; intros ->. Qed.

Lemma percent_decode_plain b s : b <> "%"%char -> percent_decode (b :: s) = b :: percent_decode s.
Proof.
  intros Hb. assert (byte_is "%" b = false) as E by (by apply Ascii.eqb_neq). simpl. rewrite E. repeat case_match; done.
Qed.

Lemma decode_tokens ts : Forall token_ok ts -> percent_decode (flat_map raw ts) = map val ts.
Proof.
  induction 1 as [|t ts Ht _ IH]; [done|]. destruct t as [b|h l v]; simpl flat_map.
  - rewrite percent_decode_plain by done. simpl. by rewrite IH.
  - destruct Ht as ((x & y & Hx & Hy & ->) & _). cbn [percent_decode app]. by rewrite Hx, Hy, IH.
Qed.

Lemma tokenise n : forall s, (length s <= n)%nat -> ambiguous_path s = false ->
  exists ts, s = flat_map raw ts /\ Forall token_ok ts.
Proof.
  induction n as [|n IH]; intros s Hn; (destruct s as [|b s]; [exists []; by repeat split|]); simpl in Hn; [lia|].
  cbn [ambiguous_path]. destruct (byte_is "\" b || is_ascii_control b); [done|]. destruct (byte_is "%" b) eqn:Hb.
  - apply Ascii.eqb_eq in Hb as ->. destruct s as [|h [|l s]]; [done..|]. destruct (negb _); [done|].
    destruct (u8_from_hex h l) as [d|] eqn:Hd; [|done]. destruct (ambiguous_byte d) eqn:Ha; [done|]. intros Hs.
    destruct (IH s) as (ts & -> & Hok); [simpl in *; lia|done|].
    destruct (unambiguous_hex h l d Hd Ha) as (x & y & Hx & Hy & ->).
    pose proof (to_digit_bound _ _ _ Hx). pose proof (to_digit_bound _ _ _ Hy).
    exists (Esc h l (byte_of_Z (16 * x + y)) :: ts). split; [done|]. constructor; [|done]. split; [by exists x, y|].
    apply (unambiguous_value (16 * x + y)); [done|]. rewrite byte_val_of_Z. apply Z.mod_small. lia.
  - apply Ascii.eqb_neq in Hb. intros Hs. destruct (IH s) as (ts & -> & Hok); [lia|done|].
    exists (Raw b :: ts). split; [done|]. by constructor.
Qed.

(** *** Segments *)

Fixpoint tsplit (ts : list token) : list (list token) :=
  match ts with
  | [] => [[]]
  | t :: rest =>
      if bool_decide (val t = "/"%char) then [] :: tsplit rest
      else match tsplit rest with [] => [[t]] | p :: ps => (t :: p) :: ps end
  end.
Definition text (f : token -> bytes) (ts : list token) : string := str_of_bytes (flat_map f ts).
Definition decoded (t : token) : bytes := [val t].

Lemma split_char_keep c a s : a <> c ->
  split_char c (String a s) = match split_char c s with [] => [String a ""] | p :: ps => String a p :: ps end.
Proof. intros Ha. simpl. by destruct (Ascii.eqb_spec a c). Qed.

Lemma split_keep_all l s p ps : Forall (fun b => b <> "/"%char) l -> split_char "/" s = p :: ps ->
  split_char "/" (str_of_bytes l +:+ s) = (str_of_bytes l +:+ p) :: ps.
Proof.
  intros Hl Hs. induction Hl as [|b l Hb _ IH]; [done|].
  change (str_of_bytes (b :: l) +:+ s) with (String b (str_of_bytes l +:+ s)). rewrite split_char_keep by done. by rewrite IH.
Qed.

Lemma tsplit_ne ts : tsplit ts <> [].
Proof. destruct ts; simpl; [done|]. repeat case_match; done. Qed.

Lemma raw_no_slash t : token_ok t -> val t <> "/"%char -> Forall (fun b => b <> "/"%char) (raw t).
Proof.
  destruct t as [b|h l v]; simpl; intros Hok Hv; [by repeat constructor|]. destruct Hok as ((x & y & Hh & Hl & _) & _).
  repeat constructor; [done|by intros ->|by intros ->].
Qed.

(** Splitting before or after decoding gives the same segments. *)
Lemma split_tokens f ts : (forall t, token_ok t -> val t = "/"%char -> f t = ["/"%char]) ->
  (forall t, token_ok t -> val t <> "/"%char -> Forall (fun b => b <> "/"%char) (f t)) ->
  Forall token_ok ts -> split_char "/" (text f ts) = map (text f) (tsplit ts).
Proof.
  intros Hslash Hkeep. unfold text. induction 1 as [|t ts Ht _ IH]; [done|]. simpl. rewrite str_of_bytes_app.
  case_bool_decide as E.
  - rewrite (Hslash t) by done. simpl. by rewrite IH.
  - destruct (tsplit ts) as [|p ps] eqn:Hp; [by apply tsplit_ne in Hp|].
    erewrite split_keep_all; [|by apply Hkeep|exact IH]. simpl. by rewrite str_of_bytes_app.
Qed.

Lemma decoded_text ts : Forall token_ok ts -> decoded_path (text raw ts) = text decoded ts.
Proof. intros Hok. unfold decoded_path, text. by rewrite as_of_str_bytes, decode_tokens. Qed.

Lemma decode_segments path : ambiguous_path (as_bytes path) = false ->
  exists ts, Forall token_ok ts /\ path = text raw ts /\
    split_char "/" path = map (text raw) (tsplit ts) /\ split_char "/" (decoded_path path) = map (text decoded) (tsplit ts).
Proof.
  intros Ha. destruct (tokenise _ _ (le_n _) Ha) as (ts & Hraw & Hok). exists ts.
  assert (path = text raw ts) as E by (unfold text; by rewrite <- Hraw, str_of_as_bytes).
  split; [done|]. split; [done|]. split.
  - rewrite E at 1. apply split_tokens; [|by apply raw_no_slash|done].
    intros [b|h l v]; simpl; naive_solver.
  - rewrite E, decoded_text by done.
    apply split_tokens; [by intros t _; unfold decoded; intros ->|by intros t _ ?; repeat constructor|done].
Qed.

(** A segment that decodes to a dot segment is written as one. *)
Lemma decoded_dots ts : Forall token_ok ts -> (text decoded ts = "." -> text raw ts = ".") /\ (text decoded ts = ".." -> text raw ts = "..").
Proof.
  intros Hok. split; intros E; apply (f_equal as_bytes) in E; unfold text, decoded in *; rewrite as_of_str_bytes in E.
  all: destruct ts as [|t1 [|t2 [|t3 ts]]]; simpl in E; try discriminate E; simplify_eq; rewrite !Forall_cons in Hok.
  all: repeat match goal with t : token |- _ => destruct t; simpl in *; simplify_eq; [|tauto] end; done.
Qed.

Lemma in_tsplit ts p : Forall token_ok ts -> p ∈ tsplit ts -> Forall token_ok p.
Proof.
  intros Hok. revert p. induction Hok as [|t ts Ht _ IH]; simpl; intros p; [intros ->%list_elem_of_singleton; done|].
  case_bool_decide; [intros [->|Hp]%elem_of_cons; [done|by apply IH]|].
  destruct (tsplit ts) as [|q qs]; [intros ->%list_elem_of_singleton; by repeat constructor|].
  intros [->|Hp]%elem_of_cons; [constructor; [done|apply IH; set_solver]|apply IH; set_solver].
Qed.

(** Decoding an unambiguous path segment by segment. *)
Lemma decode_by_segments path : ambiguous_path (as_bytes path) = false ->
  split_char "/" (decoded_path path) = map decoded_path (split_char "/" path) /\
  forall dots, dots = "." \/ dots = ".." -> dots ∈ split_char "/" (decoded_path path) -> dots ∈ split_char "/" path.
Proof.
  intros (ts & Hok & _ & Hs & Hd)%decode_segments. rewrite Hs, Hd. split.
  - rewrite map_map. apply map_ext_in. intros p Hp%list_elem_of_In. symmetry. apply decoded_text. by eapply in_tsplit.
  - intros dots Hdots (p & -> & Hp)%list_elem_of_fmap. apply list_elem_of_fmap. exists p. split; [|done].
    destruct (decoded_dots p) as [H1 H2]; [by eapply in_tsplit|]. destruct Hdots as [E|E]; rewrite E; symmetry; auto.
Qed.

Lemma decode_prefix prefix rest : str_contains_char "%" prefix = false ->
  decoded_path (prefix +:+ rest) = prefix +:+ decoded_path rest.
Proof.
  unfold decoded_path, str_contains_char. rewrite as_bytes_app. induction prefix as [|b prefix IH]; [done|].
  cbn [as_bytes list_ascii_of_string existsb]. rewrite orb_false_iff. intros [Hb Hp]. apply Ascii.eqb_neq in Hb. simpl app.
  rewrite percent_decode_plain by done. cbn [str_of_bytes string_of_list_ascii]. fold str_of_bytes.
  change (String b prefix +:+ ?x) with (String b (prefix +:+ x)). f_equal. by apply IH.
Qed.

(** ** Document downloads *)

Section claims.
Context `{UrlLib, ServerNameLib}.

Lemma exact_url_https value port bare u : exact_https_url value port bare = Ok u -> scheme u = "https".
Proof.
  unfold exact_https_url. rewrite bind_Ok. intros (u' & _ & Hu). rewrite guard_Ok, !orb_false_iff, !negb_false_iff in Hu.
  destruct Hu as [Hu E]. simplify_eq. apply String.eqb_eq. tauto.
Qed.

Lemma onlyoffice_target c origin prefix sn ca : target_policy c = Ok (TpOnlyofficeOutput origin prefix sn ca) ->
  scheme origin = "https" /\ str_contains_char "%" prefix = false.
Proof.
  unfold target_policy, McpTarget_policy, OnlyofficeTarget_policy. destruct (gc_mode c); rewrite bind_Ok; intros (t & _ & Ht).
  - rewrite !bind_Ok in Ht. destruct Ht as (? & _ & Ht). rewrite bind_Ok in Ht. destruct Ht as (? & _ & Ht).
    rewrite bind_Ok in Ht. by destruct Ht as (? & _ & Ht).
  - rewrite bind_Ok in Ht. destruct Ht as (u & Hu & Ht). rewrite bind_Ok in Ht. destruct Ht as ([] & _ & Ht).
    rewrite bind_Ok in Ht. destruct Ht as ([] & Hp & Ht). simplify_eq. rewrite reject_Ok, !orb_false_iff in Hp.
    split; [by eapply exact_url_https|tauto].
Qed.

Lemma onlyoffice_admit_Ok p headers request a : OnlyofficeRequestPolicy_admit p headers request = Ok a ->
  url_parse (fr_url request) = Some (af_target a) /\ scheme (af_target a) = "https" /\ same_origin (af_target a) (op_origin p) = true /\
  str_starts_with (op_path_prefix p) (url_path (af_target a)) = true /\ ambiguous_path (as_bytes (url_path (af_target a))) = false /\
  1 <= af_maximum_bytes a <= op_response_limit p.
Proof.
  unfold OnlyofficeRequestPolicy_admit, has_ambiguous_path_encoding, range_contains. rewrite bind_Ok. intros ([] & _ & Ha).
  rewrite bind_Ok in Ha. destruct Ha as (u & Hu & Ha). apply ok_or_Ok in Hu. rewrite !guard_Ok, !orb_false_iff, !negb_false_iff in Ha.
  destruct Ha as (Hgood & [Hpre Hamb] & Ha). case_match eqn:Hr; simplify_eq; simpl. apply andb_true_iff in Hr as [Hlo Hhi].
  repeat split; [done|by apply String.eqb_eq; tauto|tauto|done|done|lia|lia].
Qed.

Lemma limits_response l : Limits_validate l = Ok tt -> max_response_bytes l <= MAX_RESPONSE_BYTES.
Proof. unfold Limits_validate, range_contains. rewrite !seq_Ok, !reject_Ok. blia. Qed.

(** C34. A document download cannot leave the configured place: whatever a caller
    asks for, the gateway sends only a GET without a body to a URL with the host and
    port of the configured origin whose path, even after a server decodes its
    escapes, is still below the configured prefix, has the same segments as before
    decoding and no dot segments; and the limit on response bytes that goes with this
    request is at most the compiled one. *)
Theorem onlyoffice_never_escapes `{!UrlLaws} json c origin prefix sn ca permits headers body up :
  GatewayConfig_validate c = Ok tt -> target_policy c = Ok (TpOnlyofficeOutput origin prefix sn ca) ->
  onlyoffice_request json (request_policy c (TpOnlyofficeOutput origin prefix sn ca)) (gc_limits c) permits headers body = Forward up ->
  exists target,
    up = upstream_request GET target [] [] (up_response_limit up) /\ scheme target = "https" /\
    host_str target = host_str origin /\ port_or_known_default target = port_or_known_default origin /\
    str_starts_with prefix (decoded_path (url_path target)) = true /\
    split_char "/" (decoded_path (url_path target)) = map decoded_path (split_char "/" (url_path target)) /\
    ("." ∉ split_char "/" (decoded_path (url_path target))) /\ (".." ∉ split_char "/" (decoded_path (url_path target))) /\
    1 <= up_response_limit up <= MAX_RESPONSE_BYTES.
Proof.
  intros Hv Ht. apply onlyoffice_target in Ht as [Hs Hprefix]. simpl. destruct (_ || _); [done|].
  destruct (json body) as [request|]; [|done]. destruct (OnlyofficeRequestPolicy_admit _ _ _) as [a|] eqn:Ha; [|done].
  unfold forward. repeat case_match; try done. intros E. injection E as <-.
  apply onlyoffice_admit_Ok in Ha as (Hp & Hscheme & Ho & Hpre & Hamb & Hlim). simpl in *.
  destruct (same_origin_https _ _ Hscheme Hs Ho) as [Hhost Hport]. destruct (decode_by_segments _ Hamb) as [Hseg Hdots].
  assert (forall d, d = "." \/ d = ".." -> d ∉ split_char "/" (decoded_path (url_path (af_target a)))) as Hno.
  { intros d Hd Hin. destruct (url_parse_no_dots _ _ d Hp Hscheme (Hdots d Hd Hin)). naive_solver. }
  exists (af_target a). repeat (split; [auto|]); [|lia|].
  - unfold str_starts_with in *. destruct (strip_prefix prefix _) as [rest|] eqn:Er; [|done]. apply strip_prefix_Some in Er as ->.
    by rewrite decode_prefix, strip_prefix_app.
  - unfold GatewayConfig_validate in Hv. rewrite !seq_Ok in Hv. destruct Hv as (_ & _ & _ & Hl & _). apply limits_response in Hl. lia.
Qed.

(** ** MCP requests *)

Lemma forward_headers_Ok headers names : forall out, forward_headers headers names = Ok out -> NoDup names ->
  NoDup out.*1 /\ forall n v, (n, v) ∈ out -> n ∈ names /\ get_all n headers = [v].
Proof.
  induction names as [|name names IH]; simpl; intros out; [intros E _; simplify_eq; split; [constructor|set_solver]|].
  intros Ho [Hn Hnd]%NoDup_cons. destruct (get_all name headers) as [|v [|? ?]] eqn:Hg; [|rewrite bind_Ok in Ho|done].
  - destruct (IH _ Ho Hnd) as [H1 H2]. split; [done|]. intros. naive_solver set_solver.
  - destruct Ho as (out' & Ho & E). simplify_eq. destruct (IH _ Ho Hnd) as [H1 H2]. split.
    + simpl. constructor; [|done]. intros ((n & w) & E & Hin)%list_elem_of_fmap. simpl in E. subst. by destruct (H2 _ _ Hin).
    + intros n w [E|Hin]%elem_of_cons; [simplify_eq; split; [set_solver|done]|]. destruct (H2 _ _ Hin). split; [set_solver|done].
Qed.

Lemma kept_headers name (hs : HeaderMap) n v :
  (n, v) ∈ List.filter (fun '(n, _) => negb (String.eqb n name)) hs <-> n <> name /\ (n, v) ∈ hs.
Proof. rewrite !list_elem_of_In, filter_In, negb_true_iff, String.eqb_neq. tauto. Qed.

Lemma header_insert_elem name value hs n v :
  (n, v) ∈ header_insert name value hs <-> (n = name /\ v = value) \/ (n <> name /\ (n, v) ∈ hs).
Proof. unfold header_insert. rewrite elem_of_app, kept_headers, list_elem_of_singleton. naive_solver. Qed.

Lemma header_insert_NoDup name value hs : NoDup hs.*1 -> NoDup (header_insert name value hs).*1.
Proof.
  unfold header_insert. intros Hnd. rewrite fmap_app. apply NoDup_app. split; [|split; [|by repeat constructor; set_solver]].
  - induction hs as [|[n v] hs IH]; [constructor|]. simpl. apply NoDup_cons in Hnd as [Hn Hnd].
    case_match; [|auto]. simpl. constructor; [|auto]. intros ([n' w] & E & Hin)%list_elem_of_fmap. simpl in E. subst n'.
    apply kept_headers in Hin as [_ Hin]. apply Hn. by apply (list_elem_of_fmap_2 fst) in Hin.
  - intros x ([n w] & -> & Hin)%list_elem_of_fmap. apply kept_headers in Hin as [Hne _]. set_solver.
Qed.

Lemma inserts_elem l : forall hs n v, (n, v) ∈ fold_left (fun hs '(name, value) => header_insert name value hs) l hs ->
  (n, v) ∈ l \/ (n, v) ∈ hs.
Proof.
  induction l as [|[n' v'] l IH]; simpl; intros hs n v; [by right|]. intros [Hl|Hin]%IH; [left; set_solver|].
  apply header_insert_elem in Hin as [[-> ->]|[_ ?]]; [left; set_solver|by right].
Qed.
Lemma inserts_NoDup l : forall hs, NoDup hs.*1 -> NoDup (fold_left (fun hs '(name, value) => header_insert name value hs) l hs).*1.
Proof. induction l as [|[n v] l IH]; simpl; intros hs Hnd; [done|]. apply IH. by apply header_insert_NoDup. Qed.

Lemma mcp_admit_Ok p headers a : McpRequestPolicy_admit p headers = Ok a ->
  am_target a = mp_target p /\ required_single_header headers "x-filebelt-mcp-target" = Ok (as_str (mp_target p)) /\
  required_single_header headers "x-filebelt-mcp-trust-profile" = Ok (mp_trust_profile p) /\
  forward_headers headers FORWARDED_HEADERS = Ok (am_headers a).
Proof.
  unfold McpRequestPolicy_admit, url_eqb. rewrite bind_Ok. intros ([] & _ & Ha). rewrite bind_Ok in Ha. destruct Ha as (t & Ht & Ha).
  rewrite bind_Ok in Ha. destruct Ha as (u & Hu & Ha). rewrite guard_Ok, orb_false_iff, !negb_false_iff, !String.eqb_eq in Ha.
  destruct Ha as ([E1 E2] & Ha). rewrite bind_Ok in Ha. destruct Ha as (trust & Htr & Ha).
  rewrite guard_Ok, negb_false_iff, String.eqb_eq in Ha. destruct Ha as [-> Ha]. rewrite bind_Ok in Ha. destruct Ha as (m & _ & Ha).
  rewrite bind_Ok in Ha. destruct Ha as (meth & _ & Ha). rewrite bind_Ok in Ha. destruct Ha as (fwd & Hf & Ha). simplify_eq. simpl.
  repeat split; [congruence|done..].
Qed.

(** An MCP request reaches the one configured target with allowlisted headers
    only: whatever the caller sends, the gateway forwards at most one value of each
    name, and every header is the host of the configured target, the length of the
    body, or an allowlisted header of which the caller sent exactly that one value;
    the caller must have named the configured target and trust profile exactly. *)
Theorem mcp_forwards_allowlist c url trust sn ca permits headers body up :
  mcp_request (request_policy c (TpMcp url trust sn ca)) (gc_limits c) permits headers body = Forward up ->
  required_single_header headers "x-filebelt-mcp-target" = Ok (as_str url) /\
  required_single_header headers "x-filebelt-mcp-trust-profile" = Ok trust /\
  up_request_target up = up_request_target (upstream_request (up_method up) url [] [] 0) /\
  len (up_body up) <= max_request_bytes (gc_limits c) /\ NoDup (up_headers up).*1 /\
  forall n v, (n, v) ∈ up_headers up ->
    (n = "host" /\ v = as_bytes (target_host url)) \/ (n = "content-length" /\ v = as_bytes (dec_to_string (len (up_body up)))) \/
    (n ∈ FORWARDED_HEADERS /\ get_all n headers = [v]).
Proof.
  simpl. destruct (negb _); [done|]. destruct (McpRequestPolicy_admit _ _) as [a|] eqn:Ha; [|done].
  apply mcp_admit_Ok in Ha as (Et & Htarget & Htrust & Hfwd). cbn [mp_target mp_trust_profile] in *.
  destruct (match am_method a with GET => _ | POST => _ end); [done|].
  unfold forward. destruct (_ <? _) eqn:Hlen; [done|]. destruct (_ <=? _); [done|]. intros E. injection E as <-. rewrite Et.
  apply forward_headers_Ok in Hfwd as [_ Hout]; [|by apply (bool_decide_unpack _); vm_compute].
  split; [done|]. split; [done|]. split; [done|]. split; [simpl; lia|]. unfold upstream_request, up_headers, up_body. cbv zeta. split.
  - apply header_insert_NoDup, inserts_NoDup. by repeat constructor; set_solver.
  - intros n v [[-> ->]|[_ Hin]]%header_insert_elem; [auto|]. apply inserts_elem in Hin as [Hin|Hin]; [right; right; by apply Hout|].
    left. apply list_elem_of_singleton in Hin. by simplify_eq.
Qed.
End claims.

(** ** Witnesses *)

Module Demo.
Import ConcreteUrl.
#[local] Instance any_name : ServerNameLib := fun name => negb (is_empty name).

Definition tls : BackendServerTlsConfig := mkBackendServerTlsConfig "/tls/chain" "/tls/key" "/tls/ca" ["spiffe://filebelt/document"] [].
Definition relay : RelayAddresses := mkRelay [socket_v4 [10; 0; 0; 1] 8443] "relay.internal" "/ca" "/chain" "/key".
Definition config (mode : GatewayMode) (mcp : option McpTarget) (office : option OnlyofficeTarget) : GatewayConfig :=
  mkGatewayConfig 1 mode (socket_v4 [10; 0; 0; 2] 8443) (socket_v4 [127; 0; 0; 1] 9090) tls relay (mkLimits 8 1048576 104857600 5 60) mcp office.
Definition office : GatewayConfig :=
  config OnlyofficeOutput None
    (Some (mkOnlyofficeTarget "https://document.private.example/" "/cache/files/" "document.private.example" "/ca" 443)).
Definition url_of (s : string) : Url := default (mkUrl "" "" "" None None None false None None "" None None) (parse s).
Definition office_origin : Url := url_of "https://document.private.example/".
(** The JSON decoder of a witness: the body is the URL. *)
Definition json (body : bytes) : option OnlyofficeFetchRequest := Some (mkFetch (str_of_bytes body) 1000).
Definition fetched : string := "https://document.private.example/cache/files/out%41.docx?token=x".
Definition office_request (target : string) : Reply :=
  onlyoffice_request json (request_policy office (TpOnlyofficeOutput office_origin "/cache/files/" "document.private.example" "/ca"))
    (gc_limits office) 1 [("content-type", as_bytes "application/json")] (as_bytes target).
Definition office_upstream : Upstream := upstream_request GET (url_of fetched) [] [] 1000.

(** The requests the tests of the source name are refused. *)
Example escapes_refused :
  map office_request
    ["https://169.254.169.254/cache/files/output.docx"; "https://document.private.example/other/output.docx";
     "https://document.private.example/cache/files/%2e%2e/private"; "https://document.private.example/cache/files/%252e%252e%252fprivate";
     "https://document.private.example/cache/files%2fprivate"; "https://document.private.example/cache/files/output.docx#fragment"]
  = [policy_error TargetDenied; policy_error PathDenied; policy_error PathDenied; policy_error PathDenied; policy_error PathDenied;
     policy_error TargetDenied].
Proof. vm_compute. reflexivity. Qed.

Lemma onlyoffice_never_escapes_witness : exists target,
  office_upstream = upstream_request GET target [] [] 1000 /\ host_str target = host_str office_origin /\
  str_starts_with "/cache/files/" (decoded_path (url_path target)) = true.
Proof.
  destruct (onlyoffice_never_escapes json office office_origin "/cache/files/" "document.private.example" "/ca" 1
    [("content-type", as_bytes "application/json")] (as_bytes fetched) office_upstream) as (target & Hup & _ & Hhost & _ & Hpre & _).
  - vm_compute. reflexivity.
  - vm_compute. reflexivity.
  - vm_compute. reflexivity.
  - exists target. split; [exact Hup|]. split; [exact Hhost|exact Hpre].
Defined.

Definition llm : GatewayConfig :=
  config Mcp (Some (mkMcpTarget "https://llm.private.example/mcp" "private-ca-v1" "llm.private.example" "/ca" 443)) None.
Definition llm_url : Url := url_of "https://llm.private.example/mcp".
Definition mcp_headers : HeaderMap :=
  [("x-filebelt-mcp-target", as_bytes "https://llm.private.example/mcp"); ("x-filebelt-mcp-trust-profile", as_bytes "private-ca-v1");
   ("x-filebelt-mcp-upstream-method", as_bytes "POST"); ("authorization", as_bytes "Bearer sensitive"); ("cookie", as_bytes "must-not-forward")].
Definition mcp_upstream : Upstream :=
  upstream_request POST llm_url [("authorization", as_bytes "Bearer sensitive")] (as_bytes "{}") 104857600.

Lemma mcp_forwards_allowlist_witness : ("cookie", as_bytes "must-not-forward") ∉ up_headers mcp_upstream.
Proof.
  intros Hin.
  destruct (mcp_forwards_allowlist llm llm_url "private-ca-v1" "llm.private.example" "/ca" 1 mcp_headers (as_bytes "{}") mcp_upstream)
    as (_ & _ & _ & _ & _ & Hall).
  - vm_compute. reflexivity.
  - destruct (Hall _ _ Hin) as [[E _]|[[E _]|[E _]]]; [discriminate E|discriminate E|].
    apply (bool_decide_unpack ("cookie" ∉ FORWARDED_HEADERS)); [vm_compute; exact I|exact E].
Defined.
End Demo.
