(* ===== verification/TunnelRelay.v ===== *)
(** Model of [source/apps/filebelt-tunnel-relay/src]: the relay's configuration
    ([config.rs]), the SOCKS5 handshake with its proxy, and the bidirectional copy
    of a connection ([service.rs]).  A connection is the bytes its peer sends and
    the bytes written to it; TLS and timers are not modelled, an expired timer is an
    event. *)
From S2P Require Import Prelude Collections Libraries Frames Net Web ConfigTypes.

Open Scope string_scope.
Open Scope Z_scope.
Open Scope list_scope.
Open Scope bool_scope.

Definition MAX_TARGET_ADDRESSES : Z := 16.
Definition MAX_CONNECTIONS : Z := 4096.
Definition MAX_TIMEOUT_SECONDS : Z := 86400.
Definition RELAY_BUFFER_BYTES : Z := 32768.

(** ** Configuration *)

Record RelayLimits := mkRelayLimits {
  max_connections : Z; handshake_timeout_seconds : Z; rl_connect_timeout_seconds : Z; inactivity_timeout_seconds : Z; drain_timeout_seconds : Z
}.
Record RelayConfig := mkRelayConfig {
  rc_version : Z; rc_listen_address : SocketAddr; rc_operations_address : SocketAddr; rc_server_tls : BackendServerTlsConfig;
  target_addresses : list SocketAddr; socks5_proxy : option SocketAddr; rc_limits : RelayLimits
}.

Definition invalid_ipv4 (o : list Z) : bool :=
  ip_is_unspecified (V4 o) || ip_is_loopback (V4 o)
  || match o with 169 :: 254 :: _ => true | _ => false end
  || match o with first :: _ => range_contains 224 239 first | [] => false end
  || bool_decide (o = [255; 255; 255; 255]) || bool_decide (o = [100; 100; 100; 200]) || bool_decide (o = [192; 0; 0; 192]).

(** [Ipv6Addr::to_ipv4_mapped] *)
Definition to_ipv4_mapped (s : list Z) : option (list Z) :=
  match s with
  | [0; 0; 0; 0; 0; 65535; ab; cd] => Some [ab / 256; ab mod 256; cd / 256; cd mod 256]
  | _ => None
  end.

Definition invalid_target_ip (a : IpAddr) : bool :=
  match a with
  | V4 o => invalid_ipv4 o
  | V6 s =>
      ip_is_unspecified a || ip_is_loopback a
      || match s with first :: _ => Z.land first 0xffc0 =? 0xfe80 | [] => false end
      || match s with first :: _ => Z.land first 0xff00 =? 0xff00 | [] => false end
      || is_some_and (to_ipv4_mapped s) invalid_ipv4
      || bool_decide (s = [0xfd00; 0x0ec2; 0; 0; 0; 0; 0; 0x0254])
  end.

Definition deny (b : bool) (message : string) : result string unit := if b then Err message else Ok tt.

Definition RelayLimits_validate (l : RelayLimits) : result string unit :=
  let? _ := deny (negb (range_contains 1 MAX_CONNECTIONS (max_connections l))) "relay connection limit is outside the allowed range" in
  try_each (fun seconds => deny (negb (range_contains 1 MAX_TIMEOUT_SECONDS seconds)) "relay timeout is outside the allowed range")
    [handshake_timeout_seconds l; rl_connect_timeout_seconds l; inactivity_timeout_seconds l; drain_timeout_seconds l].

(** [target_addresses[0]] exists: the list is not empty there. *)
Definition first_port (l : list SocketAddr) : Z := match l with a :: _ => sa_port a | [] => 0 end.

Definition RelayConfig_validate (c : RelayConfig) : result string unit :=
  let? _ := deny (negb (rc_version c =? 1)) "unsupported relay config version" in
  let? _ := deny (negb (len (BackendServerTlsConfig_allowed_client_trust_domains (rc_server_tls c)) =? 0))
              "relay client authorization requires exact URI SANs" in
  let? _ := deny ((len (target_addresses c) =? 0) || (MAX_TARGET_ADDRESSES <? len (target_addresses c)))
              "target address count is outside the allowed range" in
  let port := first_port (target_addresses c) in
  let? _ := deny ((port =? 0) || existsb (fun a => negb (sa_port a =? port)) (target_addresses c))
              "all target addresses must use one nonzero fixed port" in
  let? _ := deny (existsb (fun a => invalid_target_ip (sa_ip a)) (target_addresses c)) "target address is not a usable unicast IP" in
  let? _ := deny (negb (len (remove_dups (target_addresses c)) =? len (target_addresses c))) "target addresses must be unique" in
  let? _ := deny (is_some_and (socks5_proxy c) (fun proxy => (sa_port proxy =? 0) || negb (ip_is_loopback (sa_ip proxy))))
              "SOCKS5 proxy must be a loopback address with a nonzero port" in
  RelayLimits_validate (rc_limits c).

(** ** SOCKS5 *)

Record Stream := mkStream { incoming : bytes; outgoing : bytes }.
Inductive IoError := UnexpectedEof | AuthenticationDenied | ConnectDenied | ReplyNotNumeric.

(** [let?] with a pattern. *)
Local Notation "'let??' p ':=' e 'in' k" := (match e with Ok p => k | Err err => Err err end)
  (at level 10, p pattern at level 0, e at level 100, k at level 200).

Definition write_all (data : bytes) (s : Stream) : Stream := mkStream (incoming s) (outgoing s ++ data).
Definition read_exact (n : nat) (s : Stream) : result IoError (bytes * Stream) :=
  if (n <=? length (incoming s))%nat then Ok (take n (incoming s), mkStream (drop n (incoming s)) (outgoing s)) else Err UnexpectedEof.

Definition be16 (x : Z) : bytes := [byte_of_Z (x / 256); byte_of_Z x].
Definition address_octets (a : IpAddr) : bytes := match a with V4 o => map byte_of_Z o | V6 s => flat_map be16 s end.
Definition socks5_request (target : SocketAddr) : bytes :=
  map byte_of_Z [5; 1; 0] ++ [byte_of_Z (match sa_ip target with V4 _ => 1 | V6 _ => 4 end)]
  ++ address_octets (sa_ip target) ++ be16 (sa_port target).

Definition socks5_greeting : bytes := map byte_of_Z [5; 1; 0].

Definition socks5_handshake (target : SocketAddr) (s : Stream) : result IoError Stream :=
  let s := write_all socks5_greeting s in
  let?? (greeting, s) := read_exact 2 s in
  if negb (bool_decide (map byte_val greeting = [5; 0])) then Err AuthenticationDenied
  else
    let s := write_all (socks5_request target) s in
    let?? (response, s) := read_exact 4 s in
    match map byte_val response with
    | [version; reply; reserved; kind] =>
        if negb (version =? 5) || negb (reply =? 0) || negb (reserved =? 0) then Err ConnectDenied
        else
          let? address_bytes := if kind =? 1 then Ok 4%nat else if kind =? 4 then Ok 16%nat else Err ReplyNotNumeric in
          let?? (_, s) := read_exact (address_bytes + 2) s in
          Ok s
    | _ => Err UnexpectedEof
    end.

(** [connect_target]; [connect a] is what the peer at [a] will send, if the connection
    succeeds in time. *)
Fixpoint connect_target (connect : SocketAddr -> option bytes) (proxy : option SocketAddr) (targets : list SocketAddr)
  : option (SocketAddr * Stream) :=
  match targets with
  | [] => None
  | target :: rest =>
      match connect (default target proxy) with
      | None => connect_target connect proxy rest
      | Some peer =>
          let stream := mkStream peer [] in
          match proxy with
          | None => Some (target, stream)
          | Some _ => match socks5_handshake target stream with
                      | Ok stream => Some (target, stream)
                      | Err _ => connect_target connect proxy rest
                      end
          end
      end
  end.

(** ** The bidirectional copy *)

(** One [relay_direction]: what its reader will still yield, what it wrote, and
    whether it has shut its writer down and returned. *)
Record Direction := mkDirection { unread : bytes; copied : bytes; closed : bool }.
Record Relay := mkRelay { client_to_target : Direction; target_to_client : Direction }.
Inductive Side := ClientToTarget | TargetToClient.
Inductive Event := Copy (s : Side) (count : nat) | Eof (s : Side) | Broken (s : Side) | Inactive.
Inductive RelayState := Running (r : Relay) | Finished (r : Relay) | Failed (r : Relay).

Definition side (r : Relay) (s : Side) : Direction :=
  match s with ClientToTarget => client_to_target r | TargetToClient => target_to_client r end.
Definition set_side (r : Relay) (s : Side) (d : Direction) : Relay :=
  match s with ClientToTarget => mkRelay d (target_to_client r) | TargetToClient => mkRelay (client_to_target r) d end.
Definition both_closed (r : Relay) : bool := closed (client_to_target r) && closed (target_to_client r).

Definition relay_start (client target : bytes) : Relay := mkRelay (mkDirection client [] false) (mkDirection target [] false).

(** One turn of the [select!] loop; [None] when the event cannot happen. *)
Definition relay_step (r : Relay) (e : Event) : option RelayState :=
  match e with
  | Copy s count =>
      let d := side r s in
      if negb (closed d) && (1 <=? count)%nat && (Z.of_nat count <=? RELAY_BUFFER_BYTES) && (count <=? length (unread d))%nat
      then Some (Running (set_side r s (mkDirection (drop count (unread d)) (copied d ++ take count (unread d)) false)))
      else None
  | Eof s =>
      let d := side r s in
      if negb (closed d) && (length (unread d) =? 0)%nat
      then let r' := set_side r s (mkDirection [] (copied d) true) in Some (if both_closed r' then Finished r' else Running r')
      else None
  | Broken s => if closed (side r s) then None else Some (Failed r)
  | Inactive => Some (Failed r)
  end.

Fixpoint relay_run (st : RelayState) (events : list Event) : option RelayState :=
  match events with
  | [] => Some st
  | e :: rest => match st with
                 | Running r => match relay_step r e with Some st' => relay_run st' rest | None => None end
                 | Finished _ | Failed _ => None
                 end
  end.
Definition relay_of (st : RelayState) : Relay := match st with Running r | Finished r | Failed r => r end.

(** ** Proofs *)

Definition direction_inv (input : bytes) (d : Direction) : Prop := copied d ++ unread d = input /\ (closed d = true -> unread d = []).
Definition relay_inv (client target : bytes) (r : Relay) : Prop :=
  direction_inv client (client_to_target r) /\ direction_inv target (target_to_client r).

Lemma relay_step_inv client target r e st : relay_inv client target r -> relay_step r e = Some st ->
  relay_inv client target (relay_of st) /\ (match st with Finished r' => both_closed r' = true | _ => True end).
Proof.
  intros [[Hc Hcc] [Ht Htc]] Hs. destruct e as [s n|s|s|]; simpl in Hs.
  - case_match; [|done]. simplify_eq. split; [|done]. destruct s; unfold relay_inv, direction_inv; simpl in *;
      rewrite <- app_assoc, take_drop; naive_solver.
  - case_match eqn:E; [|done]. apply andb_true_iff in E as [_ E]. apply Nat.eqb_eq, length_zero_iff_nil in E. simplify_eq.
    destruct s; simpl in *; rewrite E in *; case_match; unfold relay_inv, direction_inv; simpl; naive_solver.
  - case_match; simplify_eq. by split.
  - simplify_eq. by split.
Qed.

Lemma relay_run_inv client target events : forall st st', relay_inv client target (relay_of st) ->
  (match st with Finished r' => both_closed r' = true | _ => True end) -> relay_run st events = Some st' ->
  relay_inv client target (relay_of st') /\ (match st' with Finished r' => both_closed r' = true | _ => True end).
Proof.
  induction events as [|e events IH]; simpl; intros st st' Hi Hf Hr; [by simplify_eq|].
  destruct st as [r| |]; [|done..]. destruct (relay_step r e) as [st1|] eqn:Hs; [|done].
  destruct (relay_step_inv _ _ _ _ _ Hi Hs) as [Hi1 Hf1]. by eapply IH.
Qed.

(** What is still to be done, in events. *)
Definition work (r : Relay) : nat :=
  let w d := (length (unread d) + (if closed d then 0 else 1))%nat in (w (client_to_target r) + w (target_to_client r))%nat.

Lemma relay_step_work r e r' : relay_step r e = Some (Running r') -> (work r' < work r)%nat.
Proof.
  unfold work. intros Hs. destruct e as [s n|s|s|]; simpl in Hs; repeat case_match; simplify_eq;
    match goal with H : _ && _ = true |- _ => rewrite ?andb_true_iff, ?negb_true_iff, ?Nat.leb_le, ?Nat.eqb_eq in H end;
    destruct s; simpl in *; rewrite ?length_drop; destruct_and?; repeat case_match; try congruence; try lia.
Qed.

Lemma relay_run_length events : forall r st, relay_run (Running r) events = Some st -> (length events <= work r + 1)%nat.
Proof.
  induction events as [|e events IH]; simpl; intros r st Hr; [lia|]. destruct (relay_step r e) as [[r1|r1|r1]|] eqn:Hs; [| | |done].
  - apply relay_step_work in Hs. apply IH in Hr. lia.
  - destruct events; [simpl; lia|done].
  - destruct events; [simpl; lia|done].
Qed.

Lemma running_not_closed events : forall r0 r, both_closed r0 = false -> relay_run (Running r0) events = Some (Running r) -> both_closed r = false.
Proof.
  induction events as [|e events IH]; simpl; intros r0 r H0 Hr; [by simplify_eq|].
  destruct (relay_step r0 e) as [[r1|r1|r1]|] eqn:Hs; [|destruct events; simplify_eq/=..|done]. apply (IH r1); [|done].
  destruct e as [s n|s|s|]; simpl in Hs; [..|done]; case_match; simplify_eq.
  - destruct s; unfold both_closed; simpl; [done|apply andb_false_r].
  - case_match; [done|]. by simplify_eq.
Qed.

Lemma open_side_steps r s : closed (side r s) = false ->
  exists st, relay_step r (Eof s) = Some st \/ relay_step r (Copy s 1) = Some st.
Proof.
  intros Hs. destruct (unread (side r s)) as [|b rest] eqn:Hu; simpl; rewrite Hs, Hu; simpl; eauto.
Qed.

(** The relay is transparent and ends: however the events of a connection are
    ordered, each side receives a prefix of what the other sent, in order; a relay
    that finishes has delivered everything both ways and shut both sides down; the
    number of events is bounded by the bytes to copy; and a running relay can always
    go on without an error. *)
Theorem relay_transparent client target events st :
  relay_run (Running (relay_start client target)) events = Some st ->
  copied (client_to_target (relay_of st)) `prefix_of` client /\ copied (target_to_client (relay_of st)) `prefix_of` target /\
  (length events <= length client + length target + 3)%nat /\
  match st with
  | Finished r => copied (client_to_target r) = client /\ copied (target_to_client r) = target /\ both_closed r = true
  | Running r => exists s st', relay_step r (Eof s) = Some st' \/ relay_step r (Copy s 1) = Some st'
  | Failed _ => True
  end.
Proof.
  intros Hr. pose proof (relay_run_length _ _ _ Hr) as Hlen. unfold work in Hlen. simpl in Hlen.
  assert (relay_inv client target (relay_start client target)) as H0 by (repeat split; done).
  destruct (relay_run_inv client target events (Running _) _ H0 I Hr) as [[[Hc Hcc] [Ht Htc]] Hf].
  split; [by eexists|]. split; [by eexists|]. split; [lia|]. destruct st as [r|r|r]; simpl in *; [| |done].
  - apply running_not_closed in Hr; [|done]. apply andb_false_iff in Hr as [Hr|Hr]; [exists ClientToTarget|exists TargetToClient];
      by apply open_side_steps.
  - split; [|split; [|done]]; apply andb_true_iff in Hf as [E1 E2].
    + by rewrite <- Hc, (Hcc E1), app_nil_r.
    + by rewrite <- Ht, (Htc E2), app_nil_r.
Qed.

(** *** Targets *)

Lemma read_exact_Ok n s b s' : read_exact n s = Ok (b, s') ->
  incoming s = b ++ incoming s' /\ length b = n /\ outgoing s' = outgoing s.
Proof.
  unfold read_exact. case_match eqn:E; [|done]. intros. simplify_eq. simpl. apply Nat.leb_le in E.
  by rewrite take_drop, length_take, Nat.min_l.
Qed.

(** A successful handshake writes the greeting and the request and consumes exactly
    the two replies of the proxy. *)
Lemma socks5_handshake_Ok target s s' : socks5_handshake target s = Ok s' ->
  outgoing s' = outgoing s ++ socks5_greeting ++ socks5_request target /\
  exists reply, incoming s = reply ++ incoming s' /\ (length reply = 12 \/ length reply = 24)%nat.
Proof.
  unfold socks5_handshake. destruct (read_exact 2 _) as [[g s1]|] eqn:H1; [|done]. case_match; [done|].
  destruct (read_exact 4 _) as [[resp s2]|] eqn:H2; [|done]. apply read_exact_Ok in H1 as (I1 & L1 & O1), H2 as (I2 & L2 & O2).
  simpl in *. destruct (map byte_val resp) as [|v [|rep [|res [|kind [|]]]]]; try done. case_match; [done|].
  intros Hk. assert (exists n, (n = 4 \/ n = 16)%nat /\ (let?? (_, s) := read_exact (n + 2) s2 in Ok s) = Ok s') as (n & Hn & Hr).
  { destruct (kind =? 1); [exists 4%nat; auto|]. destruct (kind =? 4); [exists 16%nat; auto|done]. }
  destruct (read_exact (n + 2) s2) as [[addr s3]|] eqn:H3; [|done]. simplify_eq. apply read_exact_Ok in H3 as (I3 & L3 & O3).
  rewrite O3, O2, O1, I1, I2, I3. split; [by rewrite <- app_assoc|]. exists (g ++ resp ++ addr).
  rewrite <- !app_assoc. split; [done|]. rewrite !length_app. lia.
Qed.

Lemma connect_target_Some connect proxy targets t s : connect_target connect proxy targets = Some (t, s) ->
  t ∈ targets /\ exists peer, connect (default t proxy) = Some peer /\
  match proxy with None => s = mkStream peer [] | Some _ => socks5_handshake t (mkStream peer []) = Ok s end.
Proof.
  induction targets as [|a targets IH]; simpl; [done|]. intros Hc.
  destruct (connect (default a proxy)) as [peer|] eqn:Hp; [|by apply IH in Hc; set_solver].
  destruct proxy as [p|]; [|simplify_eq; split; [set_solver|eauto]].
  destruct (socks5_handshake a _) as [s1|] eqn:Hh; [simplify_eq; split; [set_solver|eauto]|by apply IH in Hc; set_solver].
Qed.

(** The relay reaches the configured targets only: with an accepted
    configuration, a connection it relays is to an address of the list, which is no
    loopback, link-local, multicast or metadata address even when written as a
    mapped IPv4 address; before the first relayed byte exactly the SOCKS5 greeting
    and the request for that address were written, and of what the peer sends
    exactly the replies of the proxy were consumed. *)
Theorem relay_reaches_only_targets c connect t s :
  RelayConfig_validate c = Ok tt -> connect_target connect (socks5_proxy c) (target_addresses c) = Some (t, s) ->
  t ∈ target_addresses c /\ invalid_target_ip (sa_ip t) = false /\ sa_port t <> 0 /\
  exists peer reply, connect (default t (socks5_proxy c)) = Some peer /\ peer = reply ++ incoming s /\
    match socks5_proxy c with
    | None => reply = [] /\ outgoing s = []
    | Some proxy => ip_is_loopback (sa_ip proxy) = true /\ (length reply = 12 \/ length reply = 24)%nat /\
                    outgoing s = socks5_greeting ++ socks5_request t
    end.
Proof.
  intros Hv Hc. apply connect_target_Some in Hc as (Hin & peer & Hp & Hs).
  assert (forall b m, deny b m = Ok tt <-> b = false) as Hd by (intros [] m; unfold deny; naive_solver).
  unfold RelayConfig_validate in Hv. rewrite !seq_Ok, !Hd in Hv. destruct Hv as (_ & _ & _ & Hport & Hip & _ & Hproxy & _).
  split; [done|]. split; [|split].
  - apply not_true_iff_false. intros E. apply not_true_iff_false in Hip. apply Hip, existsb_exists. exists t.
    split; [by apply list_elem_of_In|done].
  - intros E. apply orb_false_iff in Hport as [Hz Hport]. apply Z.eqb_neq in Hz. apply not_true_iff_false in Hport.
    apply Hport, existsb_exists. exists t. split; [by apply list_elem_of_In|]. rewrite E. apply negb_true_iff, Z.eqb_neq. lia.
  - destruct (socks5_proxy c) as [proxy|]; simpl in *.
    + apply socks5_handshake_Ok in Hs as (Ho & reply & Hi & Hl). exists peer, reply. simpl in *.
      apply orb_false_iff in Hproxy as [_ Hl2]. apply negb_false_iff in Hl2. auto.
    + exists peer, []. subst s. simpl. auto.
Qed.

(** ** Witnesses *)

Module Demo.
Definition tls : BackendServerTlsConfig := mkBackendServerTlsConfig "/chain" "/key" "/ca" ["spiffe://filebelt/private-egress-gateway"] [].
Definition target : SocketAddr := socket_v4 [100; 100; 100; 100] 443.
Definition config : RelayConfig :=
  mkRelayConfig 1 (socket_v4 [10; 0; 0; 1] 8443) (socket_v4 [127; 0; 0; 1] 9090) tls
    [mkSocketAddr (V6 [0xfd7a; 0x115c; 0xa1e0; 0; 0; 0; 0; 1]) 443 0 0; target] (Some (socket_v4 [127; 0; 0; 1] 1055))
    (mkRelayLimits 64 10 10 300 30).
Definition proxy_says : bytes := map byte_of_Z [5; 0; 5; 0; 0; 1; 127; 0; 0; 1; 0; 0] ++ as_bytes "hello".
Definition connected : Stream :=
  mkStream (as_bytes "hello") (map byte_of_Z ([5; 1; 0] ++ [5; 1; 0; 4; 0xfd; 0x7a; 0x11; 0x5c; 0xa1; 0xe0; 0; 0; 0; 0; 0; 0; 0; 0; 0; 1; 1; 187])).

Lemma relay_reaches_only_targets_witness :
  invalid_target_ip (V6 [0xfd7a; 0x115c; 0xa1e0; 0; 0; 0; 0; 1]) = false.
Proof.
  apply (relay_reaches_only_targets config (fun _ => Some proxy_says) (mkSocketAddr (V6 [0xfd7a; 0x115c; 0xa1e0; 0; 0; 0; 0; 1]) 443 0 0) connected).
  - vm_compute. reflexivity.
  - vm_compute. reflexivity.
Defined.

Definition done_relay : Relay := mkRelay (mkDirection [] (as_bytes "abc") true) (mkDirection [] (as_bytes "xy") true).
Lemma relay_transparent_witness : copied (client_to_target done_relay) `prefix_of` as_bytes "abc".
Proof.
  apply (relay_transparent (as_bytes "abc") (as_bytes "xy")
    [Copy ClientToTarget 2; Copy TargetToClient 2; Eof TargetToClient; Copy ClientToTarget 1; Eof ClientToTarget] (Finished done_relay)).
  vm_compute. reflexivity.
Defined.
End Demo.
