(* ===== verification/DriveStore.v ===== *)
(** Model of the transactions of [source/crates/filebelt-database/src/lib.rs] on drives: the
    namespace with its trash, file versions, and uploads from their reservation to their
    commit or deletion.

    The state is the rows of one tenant.  A table is a finite map from its primary key; the
    other unique indexes and the checks of [migrations/postgres/000001_phase2_core.sql] that
    a statement can violate are checked where it is executed.  A transaction is a function
    of the tables that returns new tables or an error, and an error leaves the tables as
    they were.  [clock_timestamp()] is the argument [now] in microseconds, every
    [Uuid::new_v4()] is an argument.  Audit rows, the POSIX columns of nodes and the columns
    [created_at] and [updated_at] are left out. *)
From S2P Require Import Prelude Collections Libraries Frames Net Web CollaborationStore StorageLayout.

Open Scope string_scope.
Open Scope Z_scope.
Open Scope list_scope.
Open Scope bool_scope.
Open Scope filebelt_scope.

(** ** Rows *)

Inductive RowKind := KindFile | KindDirectory | KindSymlink.
#[export] Instance RowKind_eq_dec : EqDecision RowKind.
Proof. solve_decision. Defined.
Inductive UploadPhase := UpOpen | UpFinalizing | UpFinalized | UpCommitted | UpAborted | UpExpired.
#[export] Instance UploadPhase_eq_dec : EqDecision UploadPhase.
Proof. solve_decision. Defined.
Inductive PayloadPhase :=
| PoStaging | PoFinalizing | PoFinalized | PoReferenced | PoAbandoned | PoDeleteIntent | PoDeleting | PoDeleted | PoQuarantining | PoQuarantined.
#[export] Instance PayloadPhase_eq_dec : EqDecision PayloadPhase.
Proof. solve_decision. Defined.

Definition upload_state_str (s : UploadPhase) : string :=
  match s with
  | UpOpen => "open" | UpFinalizing => "finalizing" | UpFinalized => "finalized" | UpCommitted => "committed" | UpAborted => "aborted" | UpExpired => "expired"
  end.
Definition payload_state_str (s : PayloadPhase) : string :=
  match s with
  | PoStaging => "staging" | PoFinalizing => "finalizing" | PoFinalized => "finalized" | PoReferenced => "referenced" | PoAbandoned => "abandoned"
  | PoDeleteIntent => "delete_intent" | PoDeleting => "deleting" | PoDeleted => "deleted" | PoQuarantining => "quarantining" | PoQuarantined => "quarantined"
  end.

Record DriveRecord := mkDrive {
  dr_namespace_generation : Z; dr_acl_generation : Z; dr_quota_bytes : Z; dr_used_bytes : Z; dr_reserved_bytes : Z; dr_trash_retention_days : Z
}.
Record NodeRow := mkNode {
  nd_parent : option Uuid; nd_kind : RowKind; nd_display_name : string; nd_name_key : string; nd_head : option Uuid;
  nd_namespace_generation : Z; nd_acl_generation : Z; nd_owner : Uuid;
  nd_trash_root : option Uuid; nd_trashed_parent : option Uuid; nd_trashed_name : option string; nd_trashed_key : option string; nd_purge_after : option Z
}.
Record VersionRow := mkVersion {
  vr_node : Uuid; vr_ordinal : Z; vr_payload : Uuid; vr_size : Z; vr_blake3 : bytes; vr_media_type : option string; vr_created_by : Uuid;
  vr_restored_from : option Uuid; vr_origin : string; vr_source : option Uuid; vr_creator : string; vr_mcp_assisted : bool
}.
Record PayloadObject := mkPayloadObject {
  po_drive : Uuid; po_backend : Uuid; po_locator : Uuid; po_layout : string; po_state : PayloadPhase; po_size : Z; po_blake3 : option bytes;
  po_finalized_at : option Z; po_authority : string
}.
Record UploadSession := mkUploadSession {
  us_drive : Uuid; us_node : option Uuid; us_parent : Uuid; us_owner : Uuid; us_payload : Uuid; us_expected_head : option Uuid;
  us_display_name : string; us_name_key : string; us_declared_size : Z; us_chunk_size : Z; us_part_count : Z; us_media_type : option string;
  us_checkpoint : option Uuid; us_intent : option Uuid; us_state : UploadPhase; us_fencing_token : Z; us_expires_at : Z;
  us_owner_lease : option (Uuid * Z); us_staging_cleaned_at : option Z; us_created_at : Z
}.
Record PartRow := mkPartRow { pa_durable : bool; pa_size : Z; pa_blake3 : option bytes; pa_locator : Uuid }.
(** a row of [quota_reservations], by its upload *)
Record QuotaRow := mkQuota { qr_id : Uuid; qr_drive : Uuid; qr_bytes : Z; qr_state : ReservationState; qr_expires_at : Z }.
(** a session with its user and principal *)
Record SessionRow := mkSession {
  se_principal : Uuid; se_membership_generation : Z; se_revoked : bool; se_idle_expires_at : Z; se_absolute_expires_at : Z;
  se_user_active : bool; se_principal_enabled : bool; se_display_name : string
}.
Record IntentRow := mkIntent {
  in_drive : Uuid; in_source_node : Uuid; in_source_version : Uuid; in_target_parent : Uuid; in_target_display_name : string; in_target_name_key : string;
  in_principal : Uuid; in_session : Uuid; in_source_generations : Generations; in_target_generations : Generations; in_active : bool; in_expires_at : Z
}.

(** The tables.  [rooms] holds the tables of collaboration rooms, of which only rooms, epochs
    and checkpoints are used here; [document_payloads] and [mount_payloads] are the payloads
    that document revisions and mount writers name; a job is its kind, its aggregate and
    the prefix of its idempotency key, an event its topic, aggregate and generation. *)
Record Store := mkStore {
  drives : gmap Uuid DriveRecord; nodes : gmap (Uuid * Uuid) NodeRow; ancestry : gmap (Uuid * Uuid * Uuid) Z; versions : gmap Uuid VersionRow; payloads : gmap Uuid PayloadObject; uploads : gmap Uuid UploadSession; parts : gmap (Uuid * Z) PartRow; quota : gmap Uuid QuotaRow; backend : option BackendRow; sessions : gmap Uuid SessionRow; intents : gmap Uuid IntentRow; rooms : Tables; document_payloads : gset Uuid; mount_payloads : gset Uuid; jobs : list (string * Uuid * string); outbox : list (string * Uuid * Z)
}.

Definition set_drives (x : gmap Uuid DriveRecord) (t : Store) : Store := mkStore x (nodes t) (ancestry t) (versions t) (payloads t) (uploads t) (parts t) (quota t) (backend t) (sessions t) (intents t) (rooms t) (document_payloads t) (mount_payloads t) (jobs t) (outbox t).
Definition set_nodes (x : gmap (Uuid * Uuid) NodeRow) (t : Store) : Store := mkStore (drives t) x (ancestry t) (versions t) (payloads t) (uploads t) (parts t) (quota t) (backend t) (sessions t) (intents t) (rooms t) (document_payloads t) (mount_payloads t) (jobs t) (outbox t).
Definition set_ancestry (x : gmap (Uuid * Uuid * Uuid) Z) (t : Store) : Store := mkStore (drives t) (nodes t) x (versions t) (payloads t) (uploads t) (parts t) (quota t) (backend t) (sessions t) (intents t) (rooms t) (document_payloads t) (mount_payloads t) (jobs t) (outbox t).
Definition set_versions (x : gmap Uuid VersionRow) (t : Store) : Store := mkStore (drives t) (nodes t) (ancestry t) x (payloads t) (uploads t) (parts t) (quota t) (backend t) (sessions t) (intents t) (rooms t) (document_payloads t) (mount_payloads t) (jobs t) (outbox t).
Definition set_payloads (x : gmap Uuid PayloadObject) (t : Store) : Store := mkStore (drives t) (nodes t) (ancestry t) (versions t) x (uploads t) (parts t) (quota t) (backend t) (sessions t) (intents t) (rooms t) (document_payloads t) (mount_payloads t) (jobs t) (outbox t).
Definition set_uploads (x : gmap Uuid UploadSession) (t : Store) : Store := mkStore (drives t) (nodes t) (ancestry t) (versions t) (payloads t) x (parts t) (quota t) (backend t) (sessions t) (intents t) (rooms t) (document_payloads t) (mount_payloads t) (jobs t) (outbox t).
Definition set_parts (x : gmap (Uuid * Z) PartRow) (t : Store) : Store := mkStore (drives t) (nodes t) (ancestry t) (versions t) (payloads t) (uploads t) x (quota t) (backend t) (sessions t) (intents t) (rooms t) (document_payloads t) (mount_payloads t) (jobs t) (outbox t).
Definition set_quota (x : gmap Uuid QuotaRow) (t : Store) : Store := mkStore (drives t) (nodes t) (ancestry t) (versions t) (payloads t) (uploads t) (parts t) x (backend t) (sessions t) (intents t) (rooms t) (document_payloads t) (mount_payloads t) (jobs t) (outbox t).
Definition set_backend (x : option BackendRow) (t : Store) : Store := mkStore (drives t) (nodes t) (ancestry t) (versions t) (payloads t) (uploads t) (parts t) (quota t) x (sessions t) (intents t) (rooms t) (document_payloads t) (mount_payloads t) (jobs t) (outbox t).
Definition set_sessions (x : gmap Uuid SessionRow) (t : Store) : Store := mkStore (drives t) (nodes t) (ancestry t) (versions t) (payloads t) (uploads t) (parts t) (quota t) (backend t) x (intents t) (rooms t) (document_payloads t) (mount_payloads t) (jobs t) (outbox t).
Definition set_intents (x : gmap Uuid IntentRow) (t : Store) : Store := mkStore (drives t) (nodes t) (ancestry t) (versions t) (payloads t) (uploads t) (parts t) (quota t) (backend t) (sessions t) x (rooms t) (document_payloads t) (mount_payloads t) (jobs t) (outbox t).
Definition set_rooms (x : Tables) (t : Store) : Store := mkStore (drives t) (nodes t) (ancestry t) (versions t) (payloads t) (uploads t) (parts t) (quota t) (backend t) (sessions t) (intents t) x (document_payloads t) (mount_payloads t) (jobs t) (outbox t).
Definition set_document_payloads (x : gset Uuid) (t : Store) : Store := mkStore (drives t) (nodes t) (ancestry t) (versions t) (payloads t) (uploads t) (parts t) (quota t) (backend t) (sessions t) (intents t) (rooms t) x (mount_payloads t) (jobs t) (outbox t).
Definition set_mount_payloads (x : gset Uuid) (t : Store) : Store := mkStore (drives t) (nodes t) (ancestry t) (versions t) (payloads t) (uploads t) (parts t) (quota t) (backend t) (sessions t) (intents t) (rooms t) (document_payloads t) x (jobs t) (outbox t).
Definition set_jobs (x : list (string * Uuid * string)) (t : Store) : Store := mkStore (drives t) (nodes t) (ancestry t) (versions t) (payloads t) (uploads t) (parts t) (quota t) (backend t) (sessions t) (intents t) (rooms t) (document_payloads t) (mount_payloads t) x (outbox t).
Definition set_outbox (x : list (string * Uuid * Z)) (t : Store) : Store := mkStore (drives t) (nodes t) (ancestry t) (versions t) (payloads t) (uploads t) (parts t) (quota t) (backend t) (sessions t) (intents t) (rooms t) (document_payloads t) (mount_payloads t) (jobs t) x.

(** ** Transactions *)

Definition Tx (A : Type) : Type := result DatabaseError (A * Store).
(** the value that the caller sees and the tables after it *)
Definition run_tx {A} (t : Store) (r : Tx A) : result DatabaseError A * Store :=
  match r with Ok (a, t') => (Ok a, t') | Err e => (Err e, t) end.

Definition i64_add (a b : Z) : result DatabaseError Z := ok_or Sql (checked i64_min i64_max (a + b)).

Definition same_uuid (a b : option Uuid) : bool := bool_decide (a = b).
Definition is_live (n : NodeRow) : bool := bool_decide (nd_trash_root n = None).

(** the [CHECK]s of the tables, with the range of the columns *)
Definition positive_i64 (x : Z) : bool := (0 <? x) && (x <=? i64_max).
Definition drive_checks (d : DriveRecord) : bool :=
  positive_i64 (dr_namespace_generation d) && positive_i64 (dr_acl_generation d) && (1073741824 <=? dr_quota_bytes d) && (dr_quota_bytes d <=? i64_max)
  && (0 <=? dr_used_bytes d) && (0 <=? dr_reserved_bytes d) && (dr_used_bytes d + dr_reserved_bytes d <=? dr_quota_bytes d).
Definition node_checks (n : NodeRow) : bool :=
  Bool.eqb (bool_decide (nd_parent n = None)) (String.eqb (nd_display_name n) "") && (bool_decide (nd_kind n = KindFile) || bool_decide (nd_head n = None))
  && positive_i64 (nd_namespace_generation n) && positive_i64 (nd_acl_generation n).

Definition put_drive (id : Uuid) (d : DriveRecord) (t : Store) : result DatabaseError Store :=
  if drive_checks d then Ok (set_drives (<[id := d]> (drives t)) t) else Err Sql.
Definition put_node (key : Uuid * Uuid) (n : NodeRow) (t : Store) : result DatabaseError Store :=
  if node_checks n then Ok (set_nodes (<[key := n]> (nodes t)) t) else Err Sql.

(** [UPDATE drives SET namespace_generation=namespace_generation+1 .. RETURNING namespace_generation] *)
Definition set_drive_quota (used reserved : Z) (d : DriveRecord) : DriveRecord :=
  mkDrive (dr_namespace_generation d) (dr_acl_generation d) (dr_quota_bytes d) used reserved (dr_trash_retention_days d).
Definition bump_drive_row (d : DriveRecord) : DriveRecord :=
  mkDrive (dr_namespace_generation d + 1) (dr_acl_generation d) (dr_quota_bytes d) (dr_used_bytes d) (dr_reserved_bytes d) (dr_trash_retention_days d).
Definition bump_drive (id : Uuid) (t : Store) : result DatabaseError (Z * Store) :=
  let? d := ok_or Sql (drives t !! id) in
  let? t := put_drive id (bump_drive_row d) t in
  Ok (dr_namespace_generation d + 1, t).

Definition set_node_head (head : option Uuid) (generation : Z) (n : NodeRow) : NodeRow :=
  mkNode (nd_parent n) (nd_kind n) (nd_display_name n) (nd_name_key n) head generation (nd_acl_generation n) (nd_owner n)
    (nd_trash_root n) (nd_trashed_parent n) (nd_trashed_name n) (nd_trashed_key n) (nd_purge_after n).

Definition insert_outbox (topic : string) (aggregate : Uuid) (generation : Z) (t : Store) : result DatabaseError Store :=
  if generation <? 0 then Err InvalidPersistedValue else Ok (set_outbox (outbox t ++ [(topic, aggregate, generation)]) t).

(** [INSERT INTO jobs .. ON CONFLICT DO NOTHING]; the key of a job is unique: its prefix and the aggregate *)
Definition enqueue_job (kind : string) (aggregate : Uuid) (prefix : string) (t : Store) : Store :=
  if existsb (fun j => N.eqb j.1.2 aggregate && String.eqb j.2 prefix) (jobs t) then t else set_jobs (jobs t ++ [(kind, aggregate, prefix)]) t.

Definition session_live (s : SessionRow) (principal : Uuid) (now : Z) : bool :=
  N.eqb (se_principal s) principal && negb (se_revoked s) && (now <? se_idle_expires_at s) && (now <? se_absolute_expires_at s)
  && se_user_active s && se_principal_enabled s.

(** [lock_authorization_fence] *)
Definition fence (t : Store) (actor session drive resource : Uuid) (expected : Generations) (now : Z) : result DatabaseError unit :=
  match sessions t !! session, drives t !! drive, nodes t !! (drive, resource) with
  | Some s, Some d, Some n =>
      if session_live s actor now
         && bool_decide (mkGenerations (se_membership_generation s) (dr_acl_generation d) (dr_namespace_generation d) (nd_acl_generation n) = expected)
      then Ok tt else Err StaleGeneration
  | _, _, _ => Err StaleGeneration
  end.

(** ** The namespace *)

(** the unique indexes of [nodes]: one root per drive, one live child per name *)
Definition node_conflicts (drive : Uuid) (n : NodeRow) (key : Uuid * Uuid) (x : NodeRow) : bool :=
  N.eqb key.1 drive
  && ((bool_decide (nd_parent n = None) && bool_decide (nd_parent x = None))
      || (is_live n && is_live x && negb (bool_decide (nd_parent n = None)) && same_uuid (nd_parent n) (nd_parent x) && String.eqb (nd_name_key n) (nd_name_key x))).

(** [INSERT INTO nodes ..] with [map_conflict] *)
Definition insert_node (drive id : Uuid) (n : NodeRow) (t : Store) : result DatabaseError Store :=
  if negb (node_checks n) then Err Sql
  else if bool_decide (is_Some (nodes t !! (drive, id))) || existsb (fun e => node_conflicts drive n e.1 e.2) (map_to_list (nodes t)) then Err Conflict
  else Ok (set_nodes (<[(drive, id) := n]> (nodes t)) t).

Definition MAX_DEPTH : Z := 128.
Definition depth_free (drive descendant : Uuid) (depth : Z) (a : gmap (Uuid * Uuid * Uuid) Z) : bool :=
  negb (existsb (fun e => N.eqb e.1.1.1 drive && N.eqb e.1.2 descendant && (e.2 =? depth)) (map_to_list a)).
Definition insert_ancestry_row (drive descendant : Uuid) (row : Uuid * Z) (a : gmap (Uuid * Uuid * Uuid) Z) : result DatabaseError (gmap (Uuid * Uuid * Uuid) Z) :=
  let '(ancestor, depth) := row in
  if negb ((0 <=? depth) && (depth <=? MAX_DEPTH)) || negb (Bool.eqb (depth =? 0) (N.eqb ancestor descendant))
     || bool_decide (is_Some (a !! (drive, ancestor, descendant))) || negb (depth_free drive descendant depth a)
  then Err Sql
  else Ok (<[(drive, ancestor, descendant) := depth]> a).
(** the ancestors of a node with their depths *)
Definition ancestors_of (drive descendant : Uuid) (a : gmap (Uuid * Uuid * Uuid) Z) : list (Uuid * Z) :=
  omap (fun e => if N.eqb e.1.1.1 drive && N.eqb e.1.2 descendant then Some (e.1.1.2, e.2) else None) (map_to_list a).
Fixpoint insert_ancestry_rows (drive descendant : Uuid) (rows : list (Uuid * Z)) (a : gmap (Uuid * Uuid * Uuid) Z) : result DatabaseError (gmap (Uuid * Uuid * Uuid) Z) :=
  match rows with
  | [] => Ok a
  | row :: rest => let? a := insert_ancestry_row drive descendant row a in insert_ancestry_rows drive descendant rest a
  end.
(** [INSERT INTO node_ancestry .. SELECT ancestor_id,$4,depth+1 .. UNION ALL SELECT $4,$4,0] *)
Definition insert_ancestry (drive parent id : Uuid) (t : Store) : result DatabaseError Store :=
  let rows := map (fun e => (e.1, e.2 + 1)) (ancestors_of drive parent (ancestry t)) ++ [(id, 0)] in
  let? a := insert_ancestry_rows drive id rows (ancestry t) in
  Ok (set_ancestry a t).

(** a node with the defaults of the table *)
Definition new_node (parent : Uuid) (kind : RowKind) (display_name name_key : string) (owner : Uuid) : NodeRow :=
  mkNode (Some parent) kind display_name name_key None 1 1 owner None None None None None.

Definition create_directory_tx (actor session drive parent : Uuid) (display_name name_key : string) (expected_generation : Z) (generations : Generations)
    (fresh : Uuid) (now : Z) (t : Store) : Tx Uuid :=
  let? _ := fence t actor session drive parent generations now in
  let? p := ok_or NotFound (nodes t !! (drive, parent)) in
  if negb (nd_namespace_generation p =? expected_generation) then Err StaleGeneration
  else
    let? t := insert_node drive fresh (new_node parent KindDirectory display_name name_key actor) t in
    let? t := insert_ancestry drive parent fresh t in
    let? t := put_node (drive, parent) (set_node_head (nd_head p) (nd_namespace_generation p + 1) p) t in
    let? r := bump_drive drive t in
    let? t := insert_outbox "filebelt.v1.namespace.changed" fresh (nd_namespace_generation p + 1) r.2 in
    Ok (fresh, t).
Definition create_directory actor session drive parent display_name name_key expected_generation generations fresh now (t : Store) : result DatabaseError Uuid * Store :=
  run_tx t (create_directory_tx actor session drive parent display_name name_key expected_generation generations fresh now t).

(** *** The trash *)

Definition in_subtree (t : Store) (drive resource id : Uuid) : bool := bool_decide (is_Some (ancestry t !! (drive, resource, id))).

Definition trash_row (resource id : Uuid) (purge_after : Z) (n : NodeRow) : NodeRow :=
  let root := N.eqb id resource in
  mkNode (nd_parent n) (nd_kind n) (nd_display_name n) (nd_name_key n) (nd_head n)
    (if root then nd_namespace_generation n + 1 else nd_namespace_generation n) (nd_acl_generation n) (nd_owner n) (Some resource)
    (if root then nd_parent n else nd_trashed_parent n) (if root then Some (nd_display_name n) else nd_trashed_name n)
    (if root then Some (nd_name_key n) else nd_trashed_key n) (Some purge_after).
Definition untrash_row (resource id : Uuid) (n : NodeRow) : NodeRow :=
  let root := N.eqb id resource in
  mkNode (nd_parent n) (nd_kind n) (nd_display_name n) (nd_name_key n) (nd_head n)
    (if root then nd_namespace_generation n + 1 else nd_namespace_generation n) (nd_acl_generation n) (nd_owner n) None
    (if root then None else nd_trashed_parent n) (if root then None else nd_trashed_name n) (if root then None else nd_trashed_key n) None.

(** An [UPDATE] of the nodes of a drive that satisfy a condition. *)
Definition update_nodes (drive : Uuid) (p : Uuid -> NodeRow -> bool) (f : Uuid -> NodeRow -> NodeRow) (ns : gmap (Uuid * Uuid) NodeRow) : gmap (Uuid * Uuid) NodeRow :=
  map_imap (fun key n => Some (if N.eqb key.1 drive && p key.2 n then f key.2 n else n)) ns.
Definition nodes_pass (ns : gmap (Uuid * Uuid) NodeRow) : bool := forallb (fun e => node_checks e.2) (map_to_list ns).
(** whether two live nodes of a directory have one name *)
Definition live_names_clash (ns : gmap (Uuid * Uuid) NodeRow) : bool :=
  existsb (fun e => existsb (fun e' => negb (bool_decide (e.1 = e'.1)) && N.eqb e.1.1 e'.1.1 && is_live e.2 && is_live e'.2
                                       && negb (bool_decide (nd_parent e.2 = None)) && same_uuid (nd_parent e.2) (nd_parent e'.2)
                                       && String.eqb (nd_name_key e.2) (nd_name_key e'.2)) (map_to_list ns)) (map_to_list ns).

Definition set_node_trash_state_tx (actor session drive resource : Uuid) (expected_namespace_generation : Z) (generations : Generations) (trash : bool)
    (now : Z) (t : Store) : Tx unit :=
  let? _ := fence t actor session drive resource generations now in
  let? n := ok_or NotFound (nodes t !! (drive, resource)) in
  let? d := ok_or NotFound (drives t !! drive) in
  if negb (nd_namespace_generation n =? expected_namespace_generation) || bool_decide (nd_parent n = None)
     || (trash && negb (is_live n)) || (negb trash && negb (same_uuid (nd_trash_root n) (Some resource)))
  then Err StaleGeneration
  else
    let? ns :=
      if trash then
        let ns := update_nodes drive (fun id x => in_subtree t drive resource id && is_live x)
                    (fun id x => trash_row resource id (now + dr_trash_retention_days d * DAY_US) x) (nodes t) in
        if nodes_pass ns then Ok ns else Err Sql
      else
        let? parent := ok_or Sql (nd_parent n) in
        if negb (match nodes t !! (drive, parent) with Some p => is_live p | None => false end) then Err Conflict
        else
          let ns := update_nodes drive (fun id x => in_subtree t drive resource id && same_uuid (nd_trash_root x) (Some resource))
                      (fun id x => untrash_row resource id x) (nodes t) in
          if negb (nodes_pass ns) then Err Sql else if live_names_clash ns then Err Conflict else Ok ns in
    let? r := bump_drive drive (set_nodes ns t) in
    let? t := insert_outbox "filebelt.v1.namespace.changed" resource r.1 r.2 in
    Ok (tt, t).
Definition trash_node actor session drive resource expected generations now (t : Store) : result DatabaseError unit * Store :=
  run_tx t (set_node_trash_state_tx actor session drive resource expected generations true now t).
Definition restore_node actor session drive resource expected generations now (t : Store) : result DatabaseError unit * Store :=
  run_tx t (set_node_trash_state_tx actor session drive resource expected generations false now t).

(** ** Versions *)

(** [SELECT COALESCE(max(ordinal),0)+1 FROM file_versions WHERE node_id=$2] *)
Definition next_ordinal (t : Store) (node : Uuid) : result DatabaseError Z :=
  i64_add (foldr (fun v m => if N.eqb (vr_node v) node then Z.max (vr_ordinal v) m else m) 0 (map snd (map_to_list (versions t)))) 1.

(** [INSERT INTO file_versions ..]: the primary key and the index of the ordinals *)
Definition insert_version (id : Uuid) (v : VersionRow) (t : Store) : result DatabaseError Store :=
  if bool_decide (is_Some (versions t !! id))
     || existsb (fun e => N.eqb (vr_node e.2) (vr_node v) && (vr_ordinal e.2 =? vr_ordinal v)) (map_to_list (versions t))
     || (vr_ordinal v <=? 0) || (vr_size v <? 0)
  then Err Sql
  else Ok (set_versions (<[id := v]> (versions t)) t).

Definition freeze_rooms (drive node : Uuid) (t : Store) : result DatabaseError Store :=
  let? r := freeze_external_head (rooms t) drive node in Ok (set_rooms r t).

Definition restore_file_version_tx (actor session drive node source_version : Uuid) (expected_head : option Uuid) (generations : Generations)
    (fresh : Uuid) (now : Z) (t : Store) : Tx Uuid :=
  let? _ := fence t actor session drive node generations now in
  let? n := ok_or NotFound (nodes t !! (drive, node)) in
  let? v := ok_or NotFound (versions t !! source_version) in
  if negb (bool_decide (nd_kind n = KindFile)) || negb (is_live n) || negb (N.eqb (vr_node v) node) then Err NotFound
  else if negb (same_uuid (nd_head n) expected_head) then Err StaleGeneration
  else
    let? ordinal := next_ordinal t node in
    let? s := ok_or Sql (sessions t !! session) in
    let? t := insert_version fresh (mkVersion node ordinal (vr_payload v) (vr_size v) (vr_blake3 v) (vr_media_type v) actor (Some source_version) "restore"
                                      (Some source_version) (se_display_name s) false) t in
    let? t := put_node (drive, node) (set_node_head (Some fresh) (nd_namespace_generation n) n) t in
    let? t := freeze_rooms drive node t in
    let? t := insert_outbox "filebelt.v1.version.created" node ordinal t in
    Ok (fresh, t).
Definition restore_file_version actor session drive node source_version expected_head generations fresh now (t : Store) : result DatabaseError Uuid * Store :=
  run_tx t (restore_file_version_tx actor session drive node source_version expected_head generations fresh now t).

(** ** Uploads *)

Record BeginUpload := mkBeginUpload {
  bu_actor : Uuid; bu_session : Uuid; bu_drive : Uuid; bu_parent : Uuid; bu_node : option Uuid; bu_expected_parent_generation : option Z; bu_expected_head : option Uuid;
  bu_display_name : string; bu_name_key : string; bu_declared_size : Z; bu_chunk_size : Z; bu_part_count : Z; bu_layout : string; bu_media_type : option string;
  bu_checkpoint : option Uuid; bu_intent : option Uuid; bu_ttl_seconds : Z; bu_generations : Generations
}.
(** the identifiers that [begin_upload_tx] draws *)
Record BeginIds := mkBeginIds { bi_upload : Uuid; bi_payload : Uuid; bi_locator : Uuid; bi_reservation : Uuid; bi_parts : Z -> Uuid }.

Definition validate_upload_expectation_shape (node : option Uuid) (expected_parent_generation : option Z) (expected_head : option Uuid) : result DatabaseError unit :=
  if match expected_parent_generation with Some g => g <=? 0 | None => false end
     || (bool_decide (node = None) && (bool_decide (expected_parent_generation = None) || bool_decide (is_Some expected_head)))
     || (bool_decide (is_Some node) && bool_decide (expected_head = None))
  then Err InvalidPersistedValue else Ok tt.

(** the layout and the bindings of an upload *)
Definition upload_shape (q : BeginUpload) : result DatabaseError unit :=
  if negb (String.eqb (bu_layout q) "whole" || String.eqb (bu_layout q) "chunked")
     || (String.eqb (bu_layout q) "whole" && negb (bu_part_count q =? 1)) || (String.eqb (bu_layout q) "chunked" && (bu_part_count q <? 2))
  then Err InvalidPersistedValue
  else if (bool_decide (is_Some (bu_checkpoint q)) && bool_decide (is_Some (bu_intent q)))
          || (bool_decide (is_Some (bu_checkpoint q)) && bool_decide (bu_node q = None))
          || (bool_decide (is_Some (bu_intent q)) && bool_decide (is_Some (bu_node q)))
  then Err InvalidPersistedValue else Ok tt.

Definition check_target (q : BeginUpload) (t : Store) : result DatabaseError unit :=
  let? _ := match bu_node q with
            | None => Ok tt
            | Some existing =>
                let? n := ok_or StaleGeneration (nodes t !! (bu_drive q, existing)) in
                if negb (same_uuid (nd_parent n) (Some (bu_parent q))) || negb (bool_decide (nd_kind n = KindFile))
                   || negb (same_uuid (nd_head n) (bu_expected_head q)) || negb (is_live n)
                then Err StaleGeneration else Ok tt
            end in
  match bu_expected_parent_generation q with
  | None => Ok tt
  | Some expected =>
      let? p := ok_or StaleGeneration (nodes t !! (bu_drive q, bu_parent q)) in
      if negb (bool_decide (nd_kind p = KindDirectory)) || negb (nd_namespace_generation p =? expected) then Err StaleGeneration else Ok tt
  end.

Definition check_checkpoint (q : BeginUpload) (now : Z) (t : Store) : result DatabaseError unit :=
  match bu_checkpoint q with
  | None => Ok tt
  | Some checkpoint =>
      let? node := ok_or InvalidPersistedValue (bu_node q) in
      let? head := ok_or InvalidPersistedValue (bu_expected_head q) in
      if existsb (fun c => N.eqb (ch_id c) checkpoint && N.eqb (ch_node c) node && N.eqb (ch_base_version c) head && N.eqb (ch_created_by c) (bu_actor q)
                           && bool_decide (ch_state c = Prepared) && (now <? ch_expires_at c)) (t_checkpoints (rooms t))
      then Ok tt else Err StaleGeneration
  end.

Definition check_intent (q : BeginUpload) (now : Z) (t : Store) : result DatabaseError unit :=
  match bu_intent q with
  | None => Ok tt
  | Some intent =>
      let? i := ok_or StaleGeneration (intents t !! intent) in
      if negb (N.eqb (in_drive i) (bu_drive q)) || negb (in_active i) || (in_expires_at i <=? now) then Err StaleGeneration
      else if negb (N.eqb (in_target_parent i) (bu_parent q)) || negb (String.eqb (in_target_display_name i) (bu_display_name q))
              || negb (String.eqb (in_target_name_key i) (bu_name_key q)) || negb (N.eqb (in_principal i) (bu_actor q)) || negb (N.eqb (in_session i) (bu_session q))
              || negb (bool_decide (in_target_generations i = bu_generations q)) || negb (bool_decide (bu_media_type q = Some "text/markdown"))
      then Err StaleGeneration
      else fence t (bu_actor q) (bu_session q) (bu_drive q) (in_source_node i) (in_source_generations i) now
  end.

(** [UPDATE drives SET reserved_bytes=reserved_bytes+$3 WHERE used_physical_bytes+reserved_bytes+$3<=quota_bytes] *)
Definition reserve_bytes (drive : Uuid) (size : Z) (t : Store) : result DatabaseError Store :=
  match drives t !! drive with
  | None => Err QuotaExceeded
  | Some d =>
      let? held := i64_add (dr_used_bytes d) (dr_reserved_bytes d) in
      let? total := i64_add held size in
      if total <=? dr_quota_bytes d then put_drive drive (set_drive_quota (dr_used_bytes d) (dr_reserved_bytes d + size) d) t else Err QuotaExceeded
  end.

Definition total_reserved (t : Store) : Z := foldr (fun d total => dr_reserved_bytes d + total) 0 (map snd (map_to_list (drives t))).
Definition backend_has_room (b : BackendRow) (now : Z) (t : Store) : bool :=
  let free := b_capacity_free_bytes b - total_reserved t in
  b_storage_ready b && (now - 2 * MINUTE_US <? b_capacity_checked_at b) && (10737418240 <=? free) && (b_capacity_total_bytes b <=? 20 * free).

(** [for part in 0..part_count] *)
Fixpoint insert_parts (upload : Uuid) (locators : Z -> Uuid) (part : Z) (count : nat) (t : Store) : result DatabaseError Store :=
  match count with
  | O => Ok t
  | S count =>
      if bool_decide (is_Some (parts t !! (upload, part))) || existsb (fun e => N.eqb (pa_locator e.2) (locators part)) (map_to_list (parts t)) then Err Sql
      else insert_parts upload locators (part + 1) count (set_parts (<[(upload, part) := mkPartRow false 0 None (locators part)]> (parts t)) t)
  end.

(** the rows of a new upload *)
Definition insert_upload (q : BeginUpload) (backend : Uuid) (i : BeginIds) (now : Z) (t : Store) : result DatabaseError Store :=
  let expires := now + bu_ttl_seconds q * SECOND_US in
  if bool_decide (is_Some (payloads t !! bi_payload i))
     || existsb (fun e => N.eqb (po_backend e.2) backend && N.eqb (po_locator e.2) (bi_locator i)) (map_to_list (payloads t)) || (bu_declared_size q <? 0)
  then Err Sql
  else
    let t := set_payloads (<[bi_payload i := mkPayloadObject (bu_drive q) backend (bi_locator i) (bu_layout q) PoStaging (bu_declared_size q) None None "file"]> (payloads t)) t in
    if bool_decide (is_Some (uploads t !! bi_upload i)) || (bu_chunk_size q <=? 0) || (bu_part_count q <=? 0) then Err Sql
    else
      let t := set_uploads (<[bi_upload i := mkUploadSession (bu_drive q) (bu_node q) (bu_parent q) (bu_actor q) (bi_payload i) (bu_expected_head q) (bu_display_name q)
                                               (bu_name_key q) (bu_declared_size q) (bu_chunk_size q) (bu_part_count q) (bu_media_type q) (bu_checkpoint q) (bu_intent q)
                                               UpOpen 1 expires None None now]> (uploads t)) t in
      if bool_decide (is_Some (quota t !! bi_upload i)) || existsb (fun e => N.eqb (qr_id e.2) (bi_reservation i)) (map_to_list (quota t)) then Err Sql
      else
        let t := set_quota (<[bi_upload i := mkQuota (bi_reservation i) (bu_drive q) (bu_declared_size q) ReservationActive expires]> (quota t)) t in
        insert_parts (bi_upload i) (bi_parts i) 0 (Z.to_nat (bu_part_count q)) t.

Definition begin_upload_tx (q : BeginUpload) (i : BeginIds) (now : Z) (t : Store) : Tx Uuid :=
  let? _ := validate_upload_expectation_shape (bu_node q) (bu_expected_parent_generation q) (bu_expected_head q) in
  let? _ := upload_shape q in
  let? _ := fence t (bu_actor q) (bu_session q) (bu_drive q) (default (bu_parent q) (bu_node q)) (bu_generations q) now in
  let? _ := check_target q t in
  let? _ := check_checkpoint q now t in
  let? _ := check_intent q now t in
  let? b := ok_or StorageUnavailable (backend t) in
  let? t := reserve_bytes (bu_drive q) (bu_declared_size q) t in
  if negb (backend_has_room b now t) then Err StorageUnavailable
  else
    let? t := insert_upload q (b_id b) i now t in
    Ok (bi_upload i, t).
Definition begin_upload (q : BeginUpload) (i : BeginIds) (now : Z) (t : Store) : result DatabaseError Uuid * Store := run_tx t (begin_upload_tx q i now t).

(** *** Parts and finalization *)

Definition set_upload (state : UploadPhase) (fencing_token : Z) (lease : option (Uuid * Z)) (cleaned : option Z) (u : UploadSession) : UploadSession :=
  mkUploadSession (us_drive u) (us_node u) (us_parent u) (us_owner u) (us_payload u) (us_expected_head u) (us_display_name u) (us_name_key u) (us_declared_size u)
    (us_chunk_size u) (us_part_count u) (us_media_type u) (us_checkpoint u) (us_intent u) state fencing_token (us_expires_at u) lease cleaned (us_created_at u).
Definition set_payload (state : PayloadPhase) (size : Z) (blake3 : option bytes) (finalized_at : option Z) (p : PayloadObject) : PayloadObject :=
  mkPayloadObject (po_drive p) (po_backend p) (po_locator p) (po_layout p) state size blake3 finalized_at (po_authority p).

(** the [CHECK]s of [upload_sessions] and [payload_objects] *)
Definition upload_checks (u : UploadSession) : bool :=
  positive_i64 (us_fencing_token u) && (bool_decide (us_staging_cleaned_at u = None) || bool_decide (us_state u = UpFinalized \/ us_state u = UpCommitted))
  && Bool.eqb (bool_decide (us_state u = UpFinalizing)) (bool_decide (is_Some (us_owner_lease u))).
Definition payload_checks (p : PayloadObject) : bool :=
  (0 <=? po_size p)
  && (bool_decide (po_state p = PoStaging \/ po_state p = PoFinalizing \/ po_state p = PoAbandoned) || bool_decide (is_Some (po_blake3 p))).
Definition put_upload (id : Uuid) (u : UploadSession) (t : Store) : result DatabaseError Store :=
  if upload_checks u then Ok (set_uploads (<[id := u]> (uploads t)) t) else Err Sql.
Definition put_payload (id : Uuid) (p : PayloadObject) (t : Store) : result DatabaseError Store :=
  if payload_checks p then Ok (set_payloads (<[id := p]> (payloads t)) t) else Err Sql.
(** [UPDATE payload_objects SET .. WHERE id=$2 AND state=$3] when it has to affect one row *)
Definition move_payload (id : Uuid) (from : PayloadPhase) (f : PayloadObject -> PayloadObject) (e : DatabaseError) (t : Store) : result DatabaseError Store :=
  match payloads t !! id with
  | Some p => if bool_decide (po_state p = from) then put_payload id (f p) t else Err e
  | None => Err e
  end.
Definition payload_to (state : PayloadPhase) (p : PayloadObject) : PayloadObject := set_payload state (po_size p) (po_blake3 p) (po_finalized_at p) p.

Definition mark_part_durable (upload : Uuid) (part fencing_token size : Z) (digest : bytes) (t : Store) : result DatabaseError unit * Store :=
  run_tx t match uploads t !! upload, parts t !! (upload, part) with
           | Some u, Some p =>
               if bool_decide (us_state u = UpOpen) && (us_fencing_token u =? fencing_token) then
                 if size <? 0 then Err Sql
                 else Ok (tt, set_parts (<[(upload, part) := mkPartRow true size (Some digest) (pa_locator p)]> (parts t)) t)
               else Err StaleGeneration
           | _, _ => Err StaleGeneration
           end.

Definition durable_parts (t : Store) (upload : Uuid) : Z := len (List.filter (fun e => N.eqb e.1.1 upload && pa_durable e.2) (map_to_list (parts t))).

Definition claim_upload_finalization (upload : Uuid) (fencing_token : Z) (owner : Uuid) (lease_seconds now : Z) (t : Store) : result DatabaseError unit * Store :=
  run_tx t match uploads t !! upload with
           | Some u =>
               if bool_decide (us_state u = UpOpen) && (us_fencing_token u =? fencing_token) && (now <? us_expires_at u) && (durable_parts t upload =? us_part_count u) then
                 let? t := put_upload upload (set_upload UpFinalizing (us_fencing_token u) (Some (owner, now + lease_seconds * SECOND_US)) (us_staging_cleaned_at u) u) t in
                 let? t := move_payload (us_payload u) PoStaging (payload_to PoFinalizing) Conflict t in
                 Ok (tt, t)
               else Err Conflict
           | None => Err Conflict
           end.

(** [state='finalizing' AND fencing_token=$3 AND finalization_owner=$4] *)
Definition holds_lease (u : UploadSession) (fencing_token : Z) (owner : Uuid) : bool :=
  bool_decide (us_state u = UpFinalizing) && (us_fencing_token u =? fencing_token) && same_uuid (option_map fst (us_owner_lease u)) (Some owner).

Definition heartbeat_upload_finalization (upload : Uuid) (fencing_token : Z) (owner : Uuid) (lease_seconds now : Z) (t : Store) : result DatabaseError unit * Store :=
  run_tx t match uploads t !! upload with
           | Some u =>
               if holds_lease u fencing_token owner then
                 let? t := put_upload upload (set_upload (us_state u) (us_fencing_token u) (Some (owner, now + lease_seconds * SECOND_US)) (us_staging_cleaned_at u) u) t in
                 Ok (tt, t)
               else Err StaleGeneration
           | None => Err StaleGeneration
           end.

Definition mark_upload_finalized (upload : Uuid) (fencing_token : Z) (owner : Uuid) (digest : bytes) (now : Z) (t : Store) : result DatabaseError unit * Store :=
  run_tx t match uploads t !! upload with
           | Some u =>
               if holds_lease u fencing_token owner then
                 let? t := put_upload upload (set_upload UpFinalized (us_fencing_token u) None (us_staging_cleaned_at u) u) t in
                 let? t := move_payload (us_payload u) PoFinalizing (set_payload PoFinalized (us_declared_size u) (Some digest) (Some now)) StaleGeneration t in
                 Ok (tt, t)
               else Err StaleGeneration
           | None => Err StaleGeneration
           end.

(** an upload that goes back to [open] under a new fencing token *)
Definition reopen_row (u : UploadSession) : UploadSession := set_upload UpOpen (us_fencing_token u + 1) None (us_staging_cleaned_at u) u.
Definition reopen (upload : Uuid) (u : UploadSession) (t : Store) : result DatabaseError Store :=
  let? t := put_upload upload (reopen_row u) t in
  move_payload (us_payload u) PoFinalizing (payload_to PoStaging) StaleGeneration t.

Definition abort_upload_finalization (upload : Uuid) (fencing_token : Z) (owner : Uuid) (t : Store) : result DatabaseError unit * Store :=
  run_tx t match uploads t !! upload with
           | Some u => if holds_lease u fencing_token owner then let? t := reopen upload u t in Ok (tt, t) else Err StaleGeneration
           | None => Err StaleGeneration
           end.

Fixpoint reopen_all (rows : list (Uuid * UploadSession)) (t : Store) : result DatabaseError Store :=
  match rows with [] => Ok t | r :: rest => let? t := reopen r.1 r.2 t in reopen_all rest t end.
Definition lease_expired (u : UploadSession) (now : Z) : bool :=
  bool_decide (us_state u = UpFinalizing) && match us_owner_lease u with Some (_, expires) => expires <=? now | None => false end.
Definition reopen_expired_upload_finalizations (now : Z) (t : Store) : result DatabaseError Z * Store :=
  let rows := List.filter (fun e => lease_expired e.2 now) (map_to_list (uploads t)) in
  run_tx t (let? t := reopen_all rows t in Ok (len rows, t)).

Definition mark_upload_staging_cleaned (upload : Uuid) (now : Z) (t : Store) : result DatabaseError unit * Store :=
  run_tx t match uploads t !! upload with
           | Some u =>
               if bool_decide (us_state u = UpFinalized \/ us_state u = UpCommitted) then
                 let? t := put_upload upload (set_upload (us_state u) (us_fencing_token u) (us_owner_lease u) (Some (default now (us_staging_cleaned_at u))) u) t in
                 Ok (tt, t)
               else Err Conflict
           | None => Err Conflict
           end.

(** *** Commit *)

(** where a committed version comes from: kind, source version, assistance *)
Definition commit_origin (u : UploadSession) (digest : bytes) (actor session node : Uuid) (now : Z) (t : Store) : result DatabaseError (string * option Uuid * bool) :=
  match us_checkpoint u, us_intent u with
  | Some checkpoint, _ =>
      let? c := ok_or StaleGeneration (List.find (fun c => N.eqb (ch_id c) checkpoint && N.eqb (ch_node c) node && N.eqb (ch_created_by c) actor
                                                            && bool_decide (ch_state c = Prepared) && (now <? ch_expires_at c)) (t_checkpoints (rooms t))) in
      let? base := ok_or StaleGeneration (versions t !! ch_base_version c) in
      if negb (N.eqb (vr_node base) node) then Err StaleGeneration
      else
        let? expected := ok_or StaleGeneration (us_expected_head u) in
        if negb (N.eqb (ch_base_version c) expected) || negb (ch_source_size c =? us_declared_size u) || negb (bool_decide (ch_source_blake3 c = digest))
           || negb (bool_decide (us_media_type u = vr_media_type base))
        then Err Conflict
        else Ok ("collaboration_checkpoint", Some (ch_base_version c), ch_mcp_assisted c)
  | None, Some intent =>
      let? i := ok_or StaleGeneration (intents t !! intent) in
      if negb (N.eqb (in_principal i) actor) || negb (N.eqb (in_session i) session) || negb (in_active i) || (in_expires_at i <=? now) then Err StaleGeneration
      else if negb (bool_decide (us_media_type u = Some "text/markdown")) then Err Conflict
      else
        let? _ := fence t actor session (us_drive u) (in_source_node i) (in_source_generations i) now in
        Ok ("import", Some (in_source_version i), false)
  | None, None =>
      if bool_decide (is_Some (us_node u)) && match us_media_type u with Some m => str_starts_with "text/" m | None => false end
      then Ok ("text_save", us_expected_head u, false)
      else Ok ("upload", None, false)
  end.

(** the node of the new version: the existing one with the expected head, or a new one *)
Definition commit_node (u : UploadSession) (actor fresh_node : Uuid) (t : Store) : result DatabaseError (Uuid * Store) :=
  match us_node u with
  | Some existing =>
      let? n := ok_or NotFound (nodes t !! (us_drive u, existing)) in
      if negb (same_uuid (nd_head n) (us_expected_head u)) then Err Conflict else Ok (existing, t)
  | None =>
      let? t := insert_node (us_drive u) fresh_node (new_node (us_parent u) KindFile (us_display_name u) (us_name_key u) actor) t in
      let? t := insert_ancestry (us_drive u) (us_parent u) fresh_node t in
      Ok (fresh_node, t)
  end.

Definition settle_rooms (u : UploadSession) (node version : Uuid) (now : Z) (t : Store) : result DatabaseError Store :=
  match us_checkpoint u with
  | Some checkpoint => match commit_checkpoint (rooms t) checkpoint version now with (Ok _, r) => Ok (set_rooms r t) | (Err e, _) => Err e end
  | None => freeze_rooms (us_drive u) node t
  end.

Definition consume_intent (u : UploadSession) (actor session : Uuid) (t : Store) : result DatabaseError Store :=
  match us_intent u with
  | None => Ok t
  | Some intent =>
      match intents t !! intent with
      | Some i =>
          if N.eqb (in_principal i) actor && N.eqb (in_session i) session && in_active i
          then Ok (set_intents (<[intent := mkIntent (in_drive i) (in_source_node i) (in_source_version i) (in_target_parent i) (in_target_display_name i)
                                              (in_target_name_key i) (in_principal i) (in_session i) (in_source_generations i) (in_target_generations i) false
                                              (in_expires_at i)]> (intents t)) t)
          else Err Conflict
      | None => Err Conflict
      end
  end.

Definition set_quota_state (s : ReservationState) (q : QuotaRow) : QuotaRow := mkQuota (qr_id q) (qr_drive q) (qr_bytes q) s (qr_expires_at q).
(** [UPDATE quota_reservations SET state=.. WHERE upload_id=$2], any number of rows *)
Definition commit_quota (upload : Uuid) (t : Store) : Store := set_quota (alter (set_quota_state ReservationCommitted) upload (quota t)) t.

(** [UPDATE drives SET reserved_bytes=reserved_bytes-$3,used_physical_bytes=used_physical_bytes+$3,namespace_generation=namespace_generation+1] *)
Definition spend_bytes (drive : Uuid) (size : Z) (t : Store) : result DatabaseError Store :=
  match drives t !! drive with
  | None => Ok t
  | Some d => put_drive drive (set_drive_quota (dr_used_bytes d + size) (dr_reserved_bytes d - size) (bump_drive_row d)) t
  end.

Definition commit_upload_tx (actor session upload : Uuid) (expected_fencing_token : Z) (generations : Generations) (fresh_node fresh_version : Uuid) (now : Z) (t : Store)
  : Tx (Uuid * Uuid) :=
  let? u := ok_or StaleGeneration (uploads t !! upload) in
  let? p := ok_or StaleGeneration (payloads t !! us_payload u) in
  if negb (N.eqb (us_owner u) actor) || negb (us_fencing_token u =? expected_fencing_token) || negb (bool_decide (us_state u = UpFinalized))
     || negb (bool_decide (po_state p = PoFinalized))
  then Err StaleGeneration
  else
    let? _ := fence t actor session (us_drive u) (default (us_parent u) (us_node u)) generations now in
    let? r := commit_node u actor fresh_node t in
    let '(node, t) := r in
    let? ordinal := next_ordinal t node in
    let? digest := ok_or Sql (po_blake3 p) in
    let? origin := commit_origin u digest actor session node now t in
    let? s := ok_or Sql (sessions t !! session) in
    let? t := insert_version fresh_version (mkVersion node ordinal (us_payload u) (us_declared_size u) digest (us_media_type u) actor None origin.1.1 origin.1.2
                                              (se_display_name s) origin.2) t in
    let? n := ok_or Sql (nodes t !! (us_drive u, node)) in
    let? t := put_node (us_drive u, node) (set_node_head (Some fresh_version) (nd_namespace_generation n + 1) n) t in
    let? t := put_payload (us_payload u) (payload_to PoReferenced p) t in
    let? t := put_upload upload (set_upload UpCommitted (us_fencing_token u) (us_owner_lease u) (us_staging_cleaned_at u) u) t in
    let? t := settle_rooms u node fresh_version now t in
    let? t := consume_intent u actor session t in
    let t := commit_quota upload t in
    let? t := spend_bytes (us_drive u) (us_declared_size u) t in
    let? t := insert_outbox "filebelt.v1.namespace.changed" node ordinal t in
    Ok ((node, fresh_version), t).
Definition commit_upload actor session upload expected_fencing_token generations fresh_node fresh_version now (t : Store) : result DatabaseError (Uuid * Uuid) * Store :=
  run_tx t (commit_upload_tx actor session upload expected_fencing_token generations fresh_node fresh_version now t).

(** ** Deletion of uploads that were never committed *)

Definition payload_unreferenced (t : Store) (payload : Uuid) : bool :=
  negb (existsb (fun e => N.eqb (vr_payload e.2) payload) (map_to_list (versions t)))
  && negb (bool_decide (payload ∈ document_payloads t)) && negb (bool_decide (payload ∈ mount_payloads t)).

(** a finalized upload with an active reservation of the payload *)
Definition owns_payload (t : Store) (payload : Uuid) (e : Uuid * UploadSession) : bool :=
  N.eqb (us_payload e.2) payload && bool_decide (us_state e.2 = UpFinalized)
  && match quota t !! e.1 with Some q => bool_decide (qr_state q = ReservationActive) | None => false end.
Definition owning_uploads (t : Store) (payload : Uuid) : list (Uuid * UploadSession) := List.filter (owns_payload t payload) (map_to_list (uploads t)).

Definition orphan (t : Store) (backend_id : Uuid) (before : Z) (e : Uuid * PayloadObject) : bool :=
  N.eqb (po_backend e.2) backend_id && String.eqb (po_authority e.2) "file" && bool_decide (po_state e.2 = PoFinalized)
  && match po_finalized_at e.2 with Some at_ => at_ <=? before | None => false end
  && negb (bool_decide (owning_uploads t e.1 = [])) && payload_unreferenced t e.1.

Definition enqueue_finalized_upload_orphans (tenant backend_id : Uuid) (grace_seconds limit now : Z) (t : Store) : result DatabaseError Z * Store :=
  if uuid_is_nil tenant || uuid_is_nil backend_id || (grace_seconds <? 0) || negb ((1 <=? limit) && (limit <=? 1000)) then (Err InvalidPersistedValue, t)
  else
    let found := take (Z.to_nat limit) (@sort_unstable _ (ord_via (fun e => (default 0 (po_finalized_at e.2), e.1)))
                   (List.filter (orphan t backend_id (now - grace_seconds * SECOND_US)) (map_to_list (payloads t)))) in
    let t' := set_payloads (foldr (fun e ps => <[e.1 := payload_to PoDeleteIntent e.2]> ps) (payloads t) found) t in
    (Ok (len found), foldr (fun e t => enqueue_job "payload_delete" e.1 "orphan" t) t' (reverse found)).

Definition admit_finalized_upload_orphan_deletion (tenant payload : Uuid) (t : Store) : result DatabaseError unit * Store :=
  run_tx t (
    if uuid_is_nil tenant || uuid_is_nil payload then Err InvalidPersistedValue
    else
      match payloads t !! payload with
      | Some p =>
          if String.eqb (po_authority p) "file" && bool_decide (po_state p = PoDeleteIntent \/ po_state p = PoDeleting)
             && negb (bool_decide (owning_uploads t payload = [])) && payload_unreferenced t payload
          then if bool_decide (po_state p = PoDeleteIntent) then let? t := put_payload payload (payload_to PoDeleting p) t in Ok (tt, t) else Ok (tt, t)
          else Err StaleGeneration
      | None => Err StaleGeneration
      end).

Definition release_quota (upload : Uuid) (t : Store) : Store :=
  set_quota (alter (fun q => if bool_decide (qr_state q = ReservationActive) then set_quota_state ReservationReleased q else q) upload (quota t)) t.

Definition complete_orphan_payload_deletion (payload : Uuid) (t : Store) : result DatabaseError unit * Store :=
  run_tx t match payloads t !! payload, owning_uploads t payload with
           | Some p, (upload, u) :: _ =>
               if bool_decide (po_state p = PoDeleting) then
                 let? t := put_payload payload (payload_to PoDeleted p) t in
                 let? t := put_upload upload (set_upload UpExpired (us_fencing_token u + 1) (us_owner_lease u) None u) t in
                 let t := release_quota upload t in
                 match drives t !! us_drive u with
                 | Some d =>
                     if us_declared_size u <=? dr_reserved_bytes d
                     then let? t := put_drive (us_drive u) (set_drive_quota (dr_used_bytes d) (dr_reserved_bytes d - us_declared_size u) d) t in Ok (tt, t)
                     else Err StaleGeneration
                 | None => Err StaleGeneration
                 end
               else Err StaleGeneration
           | _, _ => Err StaleGeneration
           end.

(** one upload of [expire_uploads]; the row itself was expired before *)
Definition expire_upload (e : Uuid * UploadSession) (t : Store) : result DatabaseError Store :=
  let '(upload, u) := e in
  let? t := put_upload upload (set_upload UpExpired (us_fencing_token u + 1) (us_owner_lease u) (us_staging_cleaned_at u) u) t in
  let t := release_quota upload t in
  let? t := match drives t !! us_drive u with
            | Some d => put_drive (us_drive u) (set_drive_quota (dr_used_bytes d) (Z.max 0 (dr_reserved_bytes d - us_declared_size u)) d) t
            | None => Ok t
            end in
  Ok (enqueue_job "upload_reconcile" upload "expire" t).
Fixpoint expire_all (rows : list (Uuid * UploadSession)) (t : Store) : result DatabaseError Store :=
  match rows with [] => Ok t | e :: rest => let? t := expire_upload e t in expire_all rest t end.
Definition expire_uploads (now : Z) (t : Store) : result DatabaseError Z * Store :=
  let rows := List.filter (fun e => bool_decide (us_state e.2 = UpOpen) && (us_expires_at e.2 <=? now)) (map_to_list (uploads t)) in
  run_tx t (let? t := expire_all rows t in Ok (len rows, t)).

(** ** Records that the services read *)

Definition upload_record (tenant upload : Uuid) (u : UploadSession) (p : PayloadObject) : UploadRecord :=
  mkUpload tenant (us_drive u) (us_payload u) (po_backend p) (po_locator p) (us_declared_size u) (us_part_count u) (us_media_type u).
Definition payload_record (tenant payload : Uuid) (p : PayloadObject) : PayloadRecord :=
  mkPayload tenant payload (po_drive p) (po_backend p) (po_locator p) (po_layout p) (payload_state_str (po_state p)) (po_size p) (po_blake3 p).
Definition part_record (part : Z) (p : PartRow) : UploadPartRecord :=
  mkPart part (pa_locator p) (if pa_durable p then "durable" else "allocated") (pa_size p) (pa_blake3 p).

Definition payload (tenant id : Uuid) (t : Store) : result DatabaseError PayloadRecord :=
  let? p := ok_or NotFound (payloads t !! id) in Ok (payload_record tenant id p).
Definition payload_for_node_tx (tenant drive node version : Uuid) (t : Store) : result DatabaseError PayloadRecord :=
  let? _ := ok_or NotFound (nodes t !! (drive, node)) in
  let? v := ok_or NotFound (versions t !! version) in
  let? p := ok_or NotFound (payloads t !! vr_payload v) in
  if N.eqb (vr_node v) node && bool_decide (po_state p = PoReferenced) then Ok (payload_record tenant (vr_payload v) p) else Err NotFound.

(** ** Sequences of transactions *)

Inductive DriveOp :=
| OpCreateDirectory (actor session drive parent : Uuid) (display_name name_key : string) (expected_generation : Z) (generations : Generations) (fresh : Uuid)
| OpTrash (actor session drive resource : Uuid) (expected : Z) (generations : Generations)
| OpRestore (actor session drive resource : Uuid) (expected : Z) (generations : Generations)
| OpRestoreVersion (actor session drive node source : Uuid) (expected_head : option Uuid) (generations : Generations) (fresh : Uuid)
| OpBegin (q : BeginUpload) (ids : BeginIds)
| OpPartDurable (upload : Uuid) (part fencing_token size : Z) (digest : bytes)
| OpClaim (upload : Uuid) (fencing_token : Z) (owner : Uuid) (lease_seconds : Z)
| OpHeartbeat (upload : Uuid) (fencing_token : Z) (owner : Uuid) (lease_seconds : Z)
| OpFinalized (upload : Uuid) (fencing_token : Z) (owner : Uuid) (digest : bytes)
| OpAbortFinalization (upload : Uuid) (fencing_token : Z) (owner : Uuid)
| OpReopenExpired
| OpStagingCleaned (upload : Uuid)
| OpCommit (actor session upload : Uuid) (fencing_token : Z) (generations : Generations) (fresh_node fresh_version : Uuid)
| OpEnqueueOrphans (tenant backend_id : Uuid) (grace_seconds limit : Z)
| OpAdmitDeletion (tenant payload_id : Uuid)
| OpCompleteDeletion (payload_id : Uuid)
| OpExpire.

Definition run_drive_op (op : DriveOp) (now : Z) (t : Store) : Store :=
  match op with
  | OpCreateDirectory actor session drive parent display key expected generations fresh =>
      (create_directory actor session drive parent display key expected generations fresh now t).2
  | OpTrash actor session drive resource expected generations => (trash_node actor session drive resource expected generations now t).2
  | OpRestore actor session drive resource expected generations => (restore_node actor session drive resource expected generations now t).2
  | OpRestoreVersion actor session drive node source head generations fresh => (restore_file_version actor session drive node source head generations fresh now t).2
  | OpBegin q ids => (begin_upload q ids now t).2
  | OpPartDurable upload part token size digest => (mark_part_durable upload part token size digest t).2
  | OpClaim upload token owner lease => (claim_upload_finalization upload token owner lease now t).2
  | OpHeartbeat upload token owner lease => (heartbeat_upload_finalization upload token owner lease now t).2
  | OpFinalized upload token owner digest => (mark_upload_finalized upload token owner digest now t).2
  | OpAbortFinalization upload token owner => (abort_upload_finalization upload token owner t).2
  | OpReopenExpired => (reopen_expired_upload_finalizations now t).2
  | OpStagingCleaned upload => (mark_upload_staging_cleaned upload now t).2
  | OpCommit actor session upload token generations fresh_node fresh_version => (commit_upload actor session upload token generations fresh_node fresh_version now t).2
  | OpEnqueueOrphans tenant backend_id grace limit => (enqueue_finalized_upload_orphans tenant backend_id grace limit now t).2
  | OpAdmitDeletion tenant payload_id => (admit_finalized_upload_orphan_deletion tenant payload_id t).2
  | OpCompleteDeletion payload_id => (complete_orphan_payload_deletion payload_id t).2
  | OpExpire => (expire_uploads now t).2
  end.

(** The identifiers that an operation draws for nodes are new in every drive. *)
Definition unused_node (t : Store) (id : Uuid) : Prop :=
  (forall drive, nodes t !! (drive, id) = None) /\ forall v row, versions t !! v = Some row -> vr_node row <> id.
Definition draws_new (op : DriveOp) (t : Store) : Prop :=
  match op with
  | OpCreateDirectory _ _ _ _ _ _ _ _ fresh => unused_node t fresh
  | OpCommit _ _ _ _ _ fresh_node _ => unused_node t fresh_node
  | _ => True
  end.

(** Steps at any times. *)
Inductive drive_step (t : Store) : Store -> Prop :=
| a_drive_step op now : draws_new op t -> drive_step t (run_drive_op op now t).
Definition drive_run : Store -> Store -> Prop := rtc drive_step.
