(* ===== verification/DriveFacts.v ===== *)
(** What the transactions of [DriveStore] do to each table. *)
From S2P Require Import Prelude Collections Libraries Frames CollaborationStore StorageLayout DriveStore.

Open Scope string_scope.
Open Scope Z_scope.
Open Scope list_scope.
Open Scope bool_scope.
Open Scope filebelt_scope.

Create HintDb drive.

(** ** Following a transaction *)

(** one step of a hypothesis that a transaction succeeded *)
Ltac tx_step H :=
  lazymatch type of H with
  | (match ?e with Ok _ => _ | Err _ => _ end) = Ok _ => let He := fresh "Hx" in destruct e eqn:He; [|discriminate H]
  | (if ?b then Err _ else _) = Ok _ => let Hb := fresh "Hb" in destruct b eqn:Hb; [discriminate H|]
  | (if ?b then _ else Err _) = Ok _ => let Hb := fresh "Hb" in destruct b eqn:Hb; [|discriminate H]
  end.
Ltac tx_steps H := repeat (tx_step H; cbn beta iota in H).

Lemma put_drive_Ok id d t t' : put_drive id d t = Ok t' <-> drive_checks d = true /\ t' = set_drives (<[id := d]> (drives t)) t.
Proof. unfold put_drive. destruct (drive_checks d); naive_solver. Qed.
Lemma put_node_Ok key n t t' : put_node key n t = Ok t' <-> node_checks n = true /\ t' = set_nodes (<[key := n]> (nodes t)) t.
Proof. unfold put_node. destruct (node_checks n); naive_solver. Qed.
Lemma put_upload_Ok id u t t' : put_upload id u t = Ok t' <-> upload_checks u = true /\ t' = set_uploads (<[id := u]> (uploads t)) t.
Proof. unfold put_upload. destruct (upload_checks u); naive_solver. Qed.
Lemma put_payload_Ok id p t t' : put_payload id p t = Ok t' <-> payload_checks p = true /\ t' = set_payloads (<[id := p]> (payloads t)) t.
Proof. unfold put_payload. destruct (payload_checks p); naive_solver. Qed.
Lemma move_payload_Ok id from f e t t' : move_payload id from f e t = Ok t' ->
  exists p, payloads t !! id = Some p /\ po_state p = from /\ payload_checks (f p) = true /\ t' = set_payloads (<[id := f p]> (payloads t)) t.
Proof.
  unfold move_payload. destruct (payloads t !! id) as [p|]; [|done]. case_bool_decide; [|done]. intros [Hc ->]%put_payload_Ok. by exists p.
Qed.
Lemma bump_drive_Ok id t r : bump_drive id t = Ok r ->
  exists d, drives t !! id = Some d /\ drive_checks (bump_drive_row d) = true /\ r = (dr_namespace_generation d + 1, set_drives (<[id := bump_drive_row d]> (drives t)) t).
Proof.
  unfold bump_drive. destruct (drives t !! id) as [d|]; [|done]. cbn [ok_or]. destruct (put_drive _ _ _) eqn:Hp; [|done]. apply put_drive_Ok in Hp as [Hc ->]. intros [= <-]. by exists d.
Qed.
Lemma insert_outbox_Ok topic aggregate g t t' : insert_outbox topic aggregate g t = Ok t' -> t' = set_outbox (outbox t ++ [(topic, aggregate, g)]) t.
Proof. unfold insert_outbox. destruct (g <? 0); [done|]. by intros [= <-]. Qed.
Lemma freeze_rooms_Ok drive node t t' : freeze_rooms drive node t = Ok t' -> exists r, t' = set_rooms r t.
Proof. unfold freeze_rooms. destruct (freeze_external_head _ _ _) as [r|]; [|done]. intros [= <-]. by exists r. Qed.
Lemma settle_rooms_Ok u node version now t t' : settle_rooms u node version now t = Ok t' -> exists r, t' = set_rooms r t.
Proof.
  unfold settle_rooms. destruct (us_checkpoint u); [|apply freeze_rooms_Ok]. destruct (commit_checkpoint _ _ _ _) as [[]r]; [|done]. intros [= <-]. by exists r.
Qed.
Lemma consume_intent_Ok u actor session t t' : consume_intent u actor session t = Ok t' -> exists i, t' = set_intents i t.
Proof.
  unfold consume_intent. destruct (us_intent u); [|intros [= <-]; exists (intents t); by destruct t]. destruct (intents t !! _); [|done]. case_match; [|done]. intros [= <-]. by eexists.
Qed.
Lemma insert_version_Ok id v t t' : insert_version id v t = Ok t' ->
  versions t !! id = None /\ (forall x y, versions t !! x = Some y -> vr_node y = vr_node v -> vr_ordinal y <> vr_ordinal v) /\ 0 < vr_ordinal v /\ 0 <= vr_size v
  /\ t' = set_versions (<[id := v]> (versions t)) t.
Proof.
  unfold insert_version. destruct (_ || _ || _ || _) eqn:Hb; [done|]. intros [= <-]. apply orb_false_iff in Hb as [[[Hi Hu]%orb_false_iff Ho]%orb_false_iff Hs]. breflect.
  split_and!; [by apply eq_None_not_Some| |lia..|done]. intros x y Hy Hn He.
  assert (existsb (fun e => N.eqb (vr_node e.2) (vr_node v) && (vr_ordinal e.2 =? vr_ordinal v)) (map_to_list (versions t)) = true) as Ht; [|by rewrite Hu in Ht].
  apply existsb_exists. exists (x, y). split; [by apply list_elem_of_In, elem_of_map_to_list|]. simpl. by rewrite Hn, N.eqb_refl, He, Z.eqb_refl.
Qed.
Lemma reserve_bytes_Ok drive size t t' : reserve_bytes drive size t = Ok t' ->
  exists d, drives t !! drive = Some d /\ drive_checks (set_drive_quota (dr_used_bytes d) (dr_reserved_bytes d + size) d) = true
    /\ t' = set_drives (<[drive := set_drive_quota (dr_used_bytes d) (dr_reserved_bytes d + size) d]> (drives t)) t.
Proof.
  unfold reserve_bytes. destruct (drives t !! drive) as [d|]; [|done]. intros Hr. tx_steps Hr. apply put_drive_Ok in Hr as [Hc ->]. by exists d.
Qed.
Lemma spend_bytes_Ok drive size t t' : spend_bytes drive size t = Ok t' ->
  drives t !! drive = None /\ t' = t \/
  exists d, let d' := set_drive_quota (dr_used_bytes d + size) (dr_reserved_bytes d - size) (bump_drive_row d) in
    drives t !! drive = Some d /\ drive_checks d' = true /\ t' = set_drives (<[drive := d']> (drives t)) t.
Proof.
  unfold spend_bytes. destruct (drives t !! drive) as [d|]; [|intros [= <-]; by left]. intros [Hc ->]%put_drive_Ok. right. by exists d.
Qed.
Lemma insert_parts_Ok upload locators part count t t' : insert_parts upload locators part count t = Ok t' -> exists ps, t' = set_parts ps t.
Proof.
  revert part t. induction count as [|count IH]; intros part t Hi; simpl in Hi; [injection Hi as <-; exists (parts t); by destruct t|].
  tx_steps Hi. apply IH in Hi as [ps ->]. by exists ps.
Qed.

(** ** Nodes *)

Lemma insert_node_Ok drive id n t t' : insert_node drive id n t = Ok t' ->
  node_checks n = true /\ nodes t !! (drive, id) = None
  /\ (forall key x, nodes t !! key = Some x -> node_conflicts drive n key x = false)
  /\ t' = set_nodes (<[(drive, id) := n]> (nodes t)) t.
Proof.
  unfold insert_node. intros Hi. tx_steps Hi. injection Hi as <-. apply orb_false_iff in Hb0 as [Hf Hc]. breflect. split_and!; [done|by apply eq_None_not_Some| |done].
  intros key x Hx. destruct (node_conflicts drive n key x) eqn:Hn; [|done]. exfalso.
  assert (existsb (fun e => node_conflicts drive n e.1 e.2) (map_to_list (nodes t)) = true) as Ht; [|by rewrite Hc in Ht].
  apply existsb_exists. exists (key, x). split; [by apply list_elem_of_In, elem_of_map_to_list|done].
Qed.
Lemma insert_ancestry_Ok drive parent id t t' : insert_ancestry drive parent id t = Ok t' ->
  exists a, insert_ancestry_rows drive id (map (fun e => (e.1, e.2 + 1)) (ancestors_of drive parent (ancestry t)) ++ [(id, 0)]) (ancestry t) = Ok a /\ t' = set_ancestry a t.
Proof. unfold insert_ancestry. intros Hi. tx_steps Hi. injection Hi as <-. by eexists. Qed.

(** a new node below [parent] *)
Record grown (drive parent id : Uuid) (n : NodeRow) (t t' : Store) : Prop := {
  gr_new : nodes t !! (drive, id) = None;
  gr_free : forall key x, nodes t !! key = Some x -> node_conflicts drive n key x = false;
  gr_checks : node_checks n = true;
  gr_nodes : nodes t' = <[(drive, id) := n]> (nodes t);
  gr_ancestry : insert_ancestry_rows drive id (map (fun e => (e.1, e.2 + 1)) (ancestors_of drive parent (ancestry t)) ++ [(id, 0)]) (ancestry t) = Ok (ancestry t');
  gr_rest : exists a, t' = set_ancestry a (set_nodes (<[(drive, id) := n]> (nodes t)) t)
}.
Lemma grow_Ok drive parent id n t t1 t2 : insert_node drive id n t = Ok t1 -> insert_ancestry drive parent id t1 = Ok t2 -> grown drive parent id n t t2.
Proof.
  intros (Hc & Hn & Hf & ->)%insert_node_Ok (a & Ha & ->)%insert_ancestry_Ok. split; try done. by exists a.
Qed.

(** ** [commit_upload] *)

Record committed (actor session upload fresh_node version : Uuid) (generations : Generations) (token now : Z) (t t' : Store) (node : Uuid) : Prop := {
  cm_rows : exists u p, uploads t !! upload = Some u /\ payloads t !! us_payload u = Some p /\ us_owner u = actor /\ us_fencing_token u = token
    /\ us_state u = UpFinalized /\ po_state p = PoFinalized
    /\ fence t actor session (us_drive u) (default (us_parent u) (us_node u)) generations now = Ok tt
    /\ payloads t' = <[us_payload u := payload_to PoReferenced p]> (payloads t)
    /\ uploads t' = <[upload := set_upload UpCommitted (us_fencing_token u) (us_owner_lease u) (us_staging_cleaned_at u) u]> (uploads t)
    /\ quota t' = alter (set_quota_state ReservationCommitted) upload (quota t)
    /\ (drives t !! us_drive u = None /\ drives t' = drives t \/
        exists d, let d' := set_drive_quota (dr_used_bytes d + us_declared_size u) (dr_reserved_bytes d - us_declared_size u) (bump_drive_row d) in
          drives t !! us_drive u = Some d /\ drive_checks d' = true /\ drives t' = <[us_drive u := d']> (drives t))
    /\ exists t1 n, (match us_node u with
                    | Some existing => node = existing /\ t1 = t /\ nd_head n = us_expected_head u
                    | None => node = fresh_node /\ grown (us_drive u) (us_parent u) fresh_node (new_node (us_parent u) KindFile (us_display_name u) (us_name_key u) actor) t t1
                    end)
      /\ nodes t1 !! (us_drive u, node) = Some n
      /\ node_checks (set_node_head (Some version) (nd_namespace_generation n + 1) n) = true
      /\ nodes t' = <[(us_drive u, node) := set_node_head (Some version) (nd_namespace_generation n + 1) n]> (nodes t1)
      /\ ancestry t' = ancestry t1
      /\ exists ordinal v, next_ordinal t node = Ok ordinal /\ vr_node v = node /\ vr_ordinal v = ordinal /\ vr_payload v = us_payload u /\ vr_size v = us_declared_size u
           /\ po_blake3 p = Some (vr_blake3 v) /\ versions t !! version = None /\ versions t' = <[version := v]> (versions t)
           /\ (forall x y, versions t !! x = Some y -> vr_node y = node -> vr_ordinal y <> ordinal);
  cm_parts : parts t' = parts t
}.

Lemma commit_node_Ok u actor fresh t r : commit_node u actor fresh t = Ok r ->
  match us_node u with
  | Some existing => r = (existing, t) /\ exists n, nodes t !! (us_drive u, existing) = Some n /\ nd_head n = us_expected_head u
  | None => r.1 = fresh /\ grown (us_drive u) (us_parent u) fresh (new_node (us_parent u) KindFile (us_display_name u) (us_name_key u) actor) t r.2
  end.
Proof.
  unfold commit_node. destruct (us_node u) as [existing|]; intros Hr; tx_steps Hr; injection Hr as <-.
  - split; [done|]. destruct (nodes t !! _) as [n|]; [|done]. injection Hx as <-. exists n. split; [done|]. unfold same_uuid in Hb. by breflect.
  - split; [done|]. by eapply grow_Ok.
Qed.

Lemma next_ordinal_versions t t' node : versions t' = versions t -> next_ordinal t' node = next_ordinal t node.
Proof. unfold next_ordinal. by intros ->. Qed.

Lemma commit_upload_Ok actor session upload token generations fresh_node fresh_version now t node version t' :
  commit_upload_tx actor session upload token generations fresh_node fresh_version now t = Ok ((node, version), t') ->
  version = fresh_version /\ committed actor session upload fresh_node fresh_version generations token now t t' node.
Proof.
  unfold commit_upload_tx. intros Hc. destruct (uploads t !! upload) as [u|] eqn:Hu; [|done]. cbn [ok_or] in Hc. destruct (payloads t !! us_payload u) as [p|] eqn:Hp; [|done]. cbn [ok_or] in Hc.
  tx_step Hc. tx_step Hc. destruct a. destruct (commit_node u actor fresh_node t) as [[node1 t1]|] eqn:Hn; [|done]. apply commit_node_Ok in Hn. cbn [fst snd] in Hn.
  tx_steps Hc. injection Hc as <- <- <-.
  apply orb_false_iff in Hb as [[[Ho Hf]%orb_false_iff Hs]%orb_false_iff Hps]. breflect. apply N.eqb_eq in Ho.
  repeat match goal with
  | H : ok_or _ _ = Ok _ |- _ => apply ok_or_Ok in H
  | H : put_node _ _ _ = Ok _ |- _ => apply put_node_Ok in H as [? ->]
  | H : put_payload _ _ _ = Ok _ |- _ => apply put_payload_Ok in H as [_ ->]
  | H : put_upload _ _ _ = Ok _ |- _ => apply put_upload_Ok in H as [_ ->]
  | H : settle_rooms _ _ _ _ _ = Ok _ |- _ => apply settle_rooms_Ok in H as [? ->]
  | H : consume_intent _ _ _ _ = Ok _ |- _ => apply consume_intent_Ok in H as [? ->]
  | H : insert_outbox _ _ _ _ = Ok _ |- _ => apply insert_outbox_Ok in H as ->
  | H : insert_version _ _ _ = Ok _ |- _ => apply insert_version_Ok in H as (Hvn & Hvu & Hvo & _ & ->)
  end.
  assert (versions t1 = versions t /\ payloads t1 = payloads t /\ uploads t1 = uploads t /\ quota t1 = quota t /\ drives t1 = drives t /\ parts t1 = parts t) as (Ev & Ep & Eu & Eq & Ed & Epa).
  { destruct (us_node u); [by destruct Hn as [[= _ ->] _]|]. destruct Hn as (_ & [_ _ _ _ _ [a' ->]]). done. }
  match goal with H : next_ordinal _ _ = Ok _ |- _ => rewrite (next_ordinal_versions t) in H by done end.
  match goal with H : spend_bytes _ _ _ = Ok _ |- _ => apply spend_bytes_Ok in H; simpl in H; rewrite Ed in H; rename H into Hspend end.
  simpl in Hvn, Hvu. rewrite Ev in Hvn, Hvu.
  match goal with H : nodes _ !! (us_drive u, node1) = Some ?n |- _ => simpl in H; rename H into Hnode; rename n into nd end.
  split; [done|]. split.
  2: { destruct Hspend as [[_ ->]|(d & _ & _ & ->)]; simpl; by rewrite Epa. }
  exists u, p. do 7 (split; [done|]).
  split; [destruct Hspend as [[_ ->]|(d & _ & _ & ->)]; simpl; by rewrite Ep|]. split; [destruct Hspend as [[_ ->]|(d & _ & _ & ->)]; simpl; by rewrite Eu|].
  split; [destruct Hspend as [[_ ->]|(d & _ & _ & ->)]; simpl; by rewrite Eq|].
  split; [destruct Hspend as [[? ->]|(d & Hd & Hch & ->)]; [left; split; [done|]; simpl; by rewrite ?Ed|right; exists d; split_and!; [done..|]; simpl; by rewrite ?Ed]|].
  exists t1, nd. split; [destruct (us_node u); [destruct Hn as [[= -> ->] (n1 & Hn1 & Hh)]; split_and!; [done..|]; rewrite Hn1 in Hnode; by injection Hnode as <-|exact Hn]|].
  split; [done|]. split; [done|]. split; [by destruct Hspend as [[_ ->]|(d & _ & _ & ->)]|]. split; [by destruct Hspend as [[_ ->]|(d & _ & _ & ->)]|].
  eexists _, (mkVersion node1 _ (us_payload u) (us_declared_size u) _ (us_media_type u) _ None _ _ _ _). split; [eassumption|]. do 4 (split; [done|]). split; [eassumption|].
  split; [done|]. split; [destruct Hspend as [[_ ->]|(d & _ & _ & ->)]; simpl; by rewrite Ev|]. done.
Qed.

Lemma fence_Ok t actor session drive resource g now : fence t actor session drive resource g now = Ok tt ->
  exists s d n, sessions t !! session = Some s /\ drives t !! drive = Some d /\ nodes t !! (drive, resource) = Some n /\ session_live s actor now = true
    /\ g = mkGenerations (se_membership_generation s) (dr_acl_generation d) (dr_namespace_generation d) (nd_acl_generation n).
Proof.
  unfold fence. destruct (sessions t !! session) as [s|], (drives t !! drive) as [d|], (nodes t !! (drive, resource)) as [n|]; try done.
  destruct (_ && _) eqn:Hb; [|done]. intros _. apply andb_true_iff in Hb as [Hs Hg]. breflect. by exists s, d, n.
Qed.

Lemma create_directory_Ok actor session drive parent display key expected g fresh now t id t' :
  create_directory_tx actor session drive parent display key expected g fresh now t = Ok (id, t') ->
  id = fresh /\ exists p t1, nodes t !! (drive, parent) = Some p /\ grown drive parent fresh (new_node parent KindDirectory display key actor) t t1
    /\ nodes t' = <[(drive, parent) := set_node_head (nd_head p) (nd_namespace_generation p + 1) p]> (nodes t1) /\ ancestry t' = ancestry t1
    /\ versions t' = versions t /\ payloads t' = payloads t /\ uploads t' = uploads t /\ quota t' = quota t /\ parts t' = parts t
    /\ exists d, drives t !! drive = Some d /\ drive_checks (bump_drive_row d) = true /\ drives t' = <[drive := bump_drive_row d]> (drives t).
Proof.
  unfold create_directory_tx. intros Hc. tx_step Hc. destruct (nodes t !! (drive, parent)) as [p|] eqn:Hp; [|done]. cbn [ok_or] in Hc. tx_steps Hc. injection Hc as <- <-. split; [done|].
  match goal with H1 : insert_node _ _ _ _ = Ok _, H2 : insert_ancestry _ _ _ _ = Ok _ |- _ => pose proof (grow_Ok _ _ _ _ _ _ _ H1 H2) as Hg; clear H1 H2 end.
  repeat match goal with
  | H : put_node _ _ _ = Ok _ |- _ => apply put_node_Ok in H as [_ ->]
  | H : bump_drive _ _ = Ok _ |- _ => apply bump_drive_Ok in H as (d & Hd & Hch & ->)
  | H : insert_outbox _ _ _ _ = Ok _ |- _ => apply insert_outbox_Ok in H as ->
  end.
  exists p. eexists. split; [done|]. split; [exact Hg|]. destruct Hg as [_ _ _ _ _ [a' ->]]. simpl in *. split_and!; try done. by exists d.
Qed.

Lemma restore_version_Ok actor session drive node source head g fresh now t id t' :
  restore_file_version_tx actor session drive node source head g fresh now t = Ok (id, t') ->
  id = fresh /\ exists n v ordinal, nodes t !! (drive, node) = Some n /\ versions t !! source = Some v /\ vr_node v = node /\ nd_head n = head /\ nd_kind n = KindFile
    /\ next_ordinal t node = Ok ordinal
    /\ nodes t' = <[(drive, node) := set_node_head (Some fresh) (nd_namespace_generation n) n]> (nodes t) /\ ancestry t' = ancestry t
    /\ (exists v', versions t' = <[fresh := v']> (versions t) /\ vr_node v' = node /\ vr_ordinal v' = ordinal /\ vr_payload v' = vr_payload v /\ vr_size v' = vr_size v
          /\ vr_blake3 v' = vr_blake3 v /\ vr_restored_from v' = Some source)
    /\ versions t !! fresh = None
    /\ payloads t' = payloads t /\ uploads t' = uploads t /\ quota t' = quota t /\ parts t' = parts t /\ drives t' = drives t.
Proof.
  unfold restore_file_version_tx. intros Hc. tx_step Hc. destruct (nodes t !! (drive, node)) as [n|] eqn:Hn; [|done]. cbn [ok_or] in Hc.
  destruct (versions t !! source) as [v|] eqn:Hv; [|done]. cbn [ok_or] in Hc. tx_steps Hc. injection Hc as <- <-. split; [done|].
  apply orb_false_iff in Hb as [[Hk _]%orb_false_iff Hvn]. breflect. apply N.eqb_eq in Hvn. unfold same_uuid in *. breflect.
  repeat match goal with
  | H : put_node _ _ _ = Ok _ |- _ => apply put_node_Ok in H as [_ ->]
  | H : insert_version _ _ _ = Ok _ |- _ => apply insert_version_Ok in H as (Hfree & _ & _ & _ & ->)
  | H : freeze_rooms _ _ _ = Ok _ |- _ => apply freeze_rooms_Ok in H as [? ->]
  | H : insert_outbox _ _ _ _ = Ok _ |- _ => apply insert_outbox_Ok in H as ->
  end.
  exists n, v. eexists. split; [done|]. split; [done|]. split; [done|]. split; [done|]. split; [done|]. split; [done|]. split; [done|]. split; [done|].
  split; [eexists; split; [done|]; done|]. done.
Qed.

(** trash and restore *)
Definition trashed (drive resource : Uuid) (purge_after : Z) (t : Store) : gmap (Uuid * Uuid) NodeRow :=
  update_nodes drive (fun id x => in_subtree t drive resource id && is_live x) (fun id x => trash_row resource id purge_after x) (nodes t).
Definition untrashed (drive resource : Uuid) (t : Store) : gmap (Uuid * Uuid) NodeRow :=
  update_nodes drive (fun id x => in_subtree t drive resource id && same_uuid (nd_trash_root x) (Some resource)) (fun id x => untrash_row resource id x) (nodes t).

Lemma trash_state_Ok actor session drive resource expected g trash now t t' :
  set_node_trash_state_tx actor session drive resource expected g trash now t = Ok (tt, t') ->
  exists n d, nodes t !! (drive, resource) = Some n /\ drives t !! drive = Some d /\ nd_namespace_generation n = expected /\ nd_parent n <> None
    /\ (if trash then is_live n = true /\ nodes t' = trashed drive resource (now + dr_trash_retention_days d * DAY_US) t /\ nodes_pass (nodes t') = true
        else nd_trash_root n = Some resource /\ (exists parent p, nd_parent n = Some parent /\ nodes t !! (drive, parent) = Some p /\ is_live p = true)
             /\ nodes t' = untrashed drive resource t /\ live_names_clash (nodes t') = false)
    /\ drive_checks (bump_drive_row d) = true /\ drives t' = <[drive := bump_drive_row d]> (drives t)
    /\ ancestry t' = ancestry t /\ versions t' = versions t /\ payloads t' = payloads t /\ uploads t' = uploads t /\ quota t' = quota t /\ parts t' = parts t.
Proof.
  unfold set_node_trash_state_tx. intros Hc. tx_step Hc. destruct (nodes t !! (drive, resource)) as [n|] eqn:Hn; [|done]. cbn [ok_or] in Hc.
  destruct (drives t !! drive) as [d|] eqn:Hd; [|done]. cbn [ok_or] in Hc. tx_steps Hc. injection Hc as <-.
  repeat match goal with
  | H : bump_drive _ _ = Ok _ |- _ => apply bump_drive_Ok in H as (d1 & Hd1 & Hch & ->)
  | H : insert_outbox _ _ _ _ = Ok _ |- _ => apply insert_outbox_Ok in H as ->
  end. simpl in Hd1. rewrite Hd in Hd1. injection Hd1 as <-.
  apply orb_false_iff in Hb as [[[He Hpar]%orb_false_iff Ht]%orb_false_iff Hr]. apply negb_false_iff, Z.eqb_eq in He. apply bool_decide_eq_false in Hpar. exists n, d. do 4 (split; [done|]). split; [|simpl; done].
  destruct trash; simpl in Ht, Hr.
  - apply negb_false_iff in Ht. split; [done|]. match goal with H : (if nodes_pass _ then _ else _) = Ok _ |- _ => tx_steps H; injection H as <- end. by split.
  - apply negb_false_iff, bool_decide_eq_true in Hr. split; [done|].
    match goal with H : _ = Ok ?ns |- _ => destruct (nd_parent n) as [parent|] eqn:Hp; [|done]; cbn [ok_or] in H; tx_steps H; injection H as <- end.
    split; [|by split]. exists parent. destruct (nodes t !! (drive, parent)) as [p|]; [|done]. exists p. split_and!; [done..|]. by apply negb_false_iff.
Qed.

Lemma update_nodes_lookup drive p f ns key : update_nodes drive p f ns !! key = (fun n => if N.eqb key.1 drive && p key.2 n then f key.2 n else n) <$> ns !! key.
Proof. unfold update_nodes. rewrite map_lookup_imap. by destruct (ns !! key). Qed.

(** ** Uploads *)

(** the tables of the namespace and of versions are as they were *)
Definition same_files (t t' : Store) : Prop := nodes t' = nodes t /\ ancestry t' = ancestry t /\ versions t' = versions t.
#[export] Instance same_files_preorder : PreOrder same_files.
Proof. split; [done|]. intros t1 t2 t3 (? & ? & ?) (? & ? & ?). unfold same_files. split_and!; congruence. Qed.

Definition begun_payload (q : BeginUpload) (backend_id : Uuid) (i : BeginIds) : PayloadObject :=
  mkPayloadObject (bu_drive q) backend_id (bi_locator i) (bu_layout q) PoStaging (bu_declared_size q) None None "file".
Lemma begin_upload_Ok q i now t id t' : begin_upload_tx q i now t = Ok (id, t') ->
  id = bi_upload i /\ same_files t t' /\ 0 <= bu_declared_size q
  /\ uploads t !! bi_upload i = None /\ payloads t !! bi_payload i = None /\ quota t !! bi_upload i = None
  /\ (exists b, backend t = Some b /\ payloads t' = <[bi_payload i := begun_payload q (b_id b) i]> (payloads t))
  /\ (exists u, uploads t' = <[bi_upload i := u]> (uploads t) /\ us_state u = UpOpen /\ us_drive u = bu_drive q /\ us_payload u = bi_payload i
        /\ us_declared_size u = bu_declared_size q /\ us_owner_lease u = None)
  /\ (exists r, quota t' = <[bi_upload i := r]> (quota t) /\ qr_state r = ReservationActive /\ qr_drive r = bu_drive q /\ qr_bytes r = bu_declared_size q)
  /\ exists d, let d' := set_drive_quota (dr_used_bytes d) (dr_reserved_bytes d + bu_declared_size q) d in
       drives t !! bu_drive q = Some d /\ drive_checks d' = true /\ drives t' = <[bu_drive q := d']> (drives t).
Proof.
  unfold begin_upload_tx. intros Hc. tx_steps Hc. injection Hc as <- <-.
  match goal with H : reserve_bytes _ _ _ = Ok _ |- _ => apply reserve_bytes_Ok in H as (d & Hd & Hch & ->) end.
  match goal with H : insert_upload _ _ _ _ _ = Ok _ |- _ => unfold insert_upload in H; tx_steps H; apply insert_parts_Ok in H as [ps ->] end.
  repeat match goal with H : _ || _ = false |- _ => apply orb_false_iff in H as [? ?] end. breflect. simpl in *.
  repeat match goal with H : ~ is_Some _ |- _ => apply eq_None_not_Some in H end. repeat match goal with H : ok_or _ _ = Ok _ |- _ => apply ok_or_Ok in H end.
  split; [done|]. split; [done|]. split; [lia|]. do 3 (split; [done|]). split; [by eexists|]. split; [by eexists|]. split; [by eexists|]. by exists d.
Qed.

(** a row of an upload changes its state, and its payload with it *)
Record moved (upload : Uuid) (u u' : UploadSession) (p p' : PayloadObject) (t t' : Store) : Prop := {
  mv_upload : uploads t !! upload = Some u;
  mv_payload : payloads t !! us_payload u = Some p;
  mv_uploads : uploads t' = <[upload := u']> (uploads t);
  mv_payloads : payloads t' = <[us_payload u := p']> (payloads t);
  mv_files : same_files t t';
  mv_quota : quota t' = quota t;
  mv_drives : drives t' = drives t;
  mv_same : us_drive u' = us_drive u /\ us_payload u' = us_payload u /\ us_declared_size u' = us_declared_size u;
  mv_kept : po_authority p' = po_authority p /\ po_drive p' = po_drive p;
  mv_size : po_size p' = po_size p \/ po_size p' = us_declared_size u
}.

Lemma reopen_Ok upload u t t' : uploads t !! upload = Some u -> reopen upload u t = Ok t' ->
  exists p, po_state p = PoFinalizing /\ moved upload u (reopen_row u) p (payload_to PoStaging p) t t'.
Proof.
  unfold reopen. intros Hu Hr. tx_steps Hr. apply put_upload_Ok in Hx as [_ ->]. apply move_payload_Ok in Hr as (p & Hp & Hs & _ & ->). exists p. split; [done|]. split; try done. by left.
Qed.

Lemma holds_lease_state u token owner : holds_lease u token owner = true -> us_state u = UpFinalizing.
Proof. unfold holds_lease. intros [[Hs _]%andb_true_iff _]%andb_true_iff. by breflect. Qed.

(** the cases of the operations on the row of one upload *)
Lemma claim_cases upload token owner lease now t : let t' := (claim_upload_finalization upload token owner lease now t).2 in
  t' = t \/ exists u u' p, us_state u = UpOpen /\ us_state u' = UpFinalizing /\ po_state p = PoStaging /\ moved upload u u' p (payload_to PoFinalizing p) t t'.
Proof.
  unfold claim_upload_finalization. destruct (uploads t !! upload) as [u|] eqn:Hu; [|by left]. destruct (_ && _ && _ && _) eqn:Hb; [|by left]. apply andb_true_iff in Hb as [[[Hs _]%andb_true_iff _]%andb_true_iff _]. breflect.
  destruct (put_upload _ _ t) as [t1|] eqn:Hx; [|by left]. apply put_upload_Ok in Hx as [_ ->]. destruct (move_payload _ _ _ _ _) as [t2|] eqn:Hm; [|by left].
  apply move_payload_Ok in Hm as (p & Hp & Hps & _ & ->). right. simpl in *. eexists u, (set_upload UpFinalizing _ _ _ u), p. do 3 (split; [done|]). split; try done. by left.
Qed.
Lemma finalized_cases upload token owner digest now t : let t' := (mark_upload_finalized upload token owner digest now t).2 in
  t' = t \/ exists u u' p, us_state u = UpFinalizing /\ us_state u' = UpFinalized /\ po_state p = PoFinalizing
    /\ moved upload u u' p (set_payload PoFinalized (us_declared_size u) (Some digest) (Some now) p) t t'.
Proof.
  unfold mark_upload_finalized. destruct (uploads t !! upload) as [u|] eqn:Hu; [|by left]. destruct (holds_lease _ _ _) eqn:Hb; [|by left]. apply holds_lease_state in Hb.
  destruct (put_upload _ _ t) as [t1|] eqn:Hx; [|by left]. apply put_upload_Ok in Hx as [_ ->]. destruct (move_payload _ _ _ _ _) as [t2|] eqn:Hm; [|by left].
  apply move_payload_Ok in Hm as (p & Hp & Hps & _ & ->). right. simpl in *. eexists u, (set_upload UpFinalized _ _ _ u), p. do 3 (split; [done|]). split; try done. by right.
Qed.
Lemma abort_cases upload token owner t : let t' := (abort_upload_finalization upload token owner t).2 in
  t' = t \/ exists u p, us_state u = UpFinalizing /\ po_state p = PoFinalizing /\ moved upload u (reopen_row u) p (payload_to PoStaging p) t t'.
Proof.
  unfold abort_upload_finalization. destruct (uploads t !! upload) as [u|] eqn:Hu; [|by left]. destruct (holds_lease _ _ _) eqn:Hb; [|by left]. apply holds_lease_state in Hb.
  destruct (reopen upload u t) as [t1|] eqn:Hr; [|by left]. apply reopen_Ok in Hr as (p & Hp & Hm); [|done]. right. by exists u, p.
Qed.

(** only the lease or the time of the clean-up of an upload changed *)
Definition touched (t t' : Store) : Prop :=
  t' = t \/ exists upload u u', uploads t !! upload = Some u /\ uploads t' = <[upload := u']> (uploads t) /\ us_state u' = us_state u /\ us_drive u' = us_drive u
    /\ us_payload u' = us_payload u /\ us_declared_size u' = us_declared_size u /\ same_files t t' /\ quota t' = quota t /\ drives t' = drives t /\ payloads t' = payloads t.
Lemma heartbeat_touched upload token owner lease now t : touched t (heartbeat_upload_finalization upload token owner lease now t).2.
Proof.
  unfold heartbeat_upload_finalization. destruct (uploads t !! upload) as [u|] eqn:Hu; [|by left]. destruct (holds_lease _ _ _); [|by left].
  destruct (put_upload _ _ t) as [t1|] eqn:Hx; [|by left]. apply put_upload_Ok in Hx as [_ ->]. right. eexists upload, u, (set_upload _ _ _ _ u). do 2 (split; [done|]). done.
Qed.
Lemma cleaned_touched upload now t : touched t (mark_upload_staging_cleaned upload now t).2.
Proof.
  unfold mark_upload_staging_cleaned. destruct (uploads t !! upload) as [u|] eqn:Hu; [|by left]. case_bool_decide; [|by left].
  destruct (put_upload _ _ t) as [t1|] eqn:Hx; [|by left]. apply put_upload_Ok in Hx as [_ ->]. right. eexists upload, u, (set_upload _ _ _ _ u). do 2 (split; [done|]). done.
Qed.

(** only parts changed *)
Lemma part_durable_same upload part token size digest t : exists ps, (mark_part_durable upload part token size digest t).2 = set_parts ps t.
Proof.
  unfold mark_part_durable. assert (exists ps, t = set_parts ps t) as Hs by (exists (parts t); by destruct t).
  destruct (uploads t !! upload), (parts t !! (upload, part)); try done. destruct (_ && _); [|done]. destruct (size <? 0); [done|]. by eexists.
Qed.

Lemma enqueue_job_same kind aggregate prefix t : exists js, enqueue_job kind aggregate prefix t = set_jobs js t.
Proof. unfold enqueue_job. case_match; [exists (jobs t); by destruct t|by eexists]. Qed.
Lemma enqueue_jobs_same {A} kind (f : A -> Uuid) prefix l t : exists js, foldr (fun e t => enqueue_job kind (f e) prefix t) t l = set_jobs js t.
Proof.
  induction l as [|e l [js IH]]; simpl; [exists (jobs t); by destruct t|]. rewrite IH. destruct (enqueue_job_same kind (f e) prefix (set_jobs js t)) as [js' ->]. by exists js'.
Qed.

(** ** Transactions that leave nodes and versions alone *)

Lemma moved_same upload u u' p p' t t' : moved upload u u' p p' t t' -> same_files t t'.
Proof. by intros []. Qed.
Lemma touched_same t t' : touched t t' -> same_files t t'.
Proof. by intros [-> |(upload & u & u' & _ & _ & _ & _ & _ & _ & Hs & _)]. Qed.

Lemma loop_same (f : Uuid * UploadSession -> Store -> result DatabaseError Store) (all : list (Uuid * UploadSession) -> Store -> result DatabaseError Store) rows t t' :
  (forall t, all [] t = Ok t) -> (forall e rest t, all (e :: rest) t = let? t := f e t in all rest t) -> (forall e t t', f e t = Ok t' -> same_files t t') ->
  all rows t = Ok t' -> same_files t t'.
Proof.
  intros Hnil Hcons Hf. revert t. induction rows as [|e rows IH]; intros t Ha; [rewrite Hnil in Ha; injection Ha as <-; done|].
  rewrite Hcons in Ha. tx_step Ha. etransitivity; [by eapply Hf|by apply IH].
Qed.
Lemma reopen_same e t t' : reopen e.1 e.2 t = Ok t' -> same_files t t'.
Proof. unfold reopen. intros Hr. tx_steps Hr. apply put_upload_Ok in Hx as [_ ->]. by apply move_payload_Ok in Hr as (p & _ & _ & _ & ->). Qed.
Lemma expire_upload_same e t t' : expire_upload e t = Ok t' -> same_files t t'.
Proof.
  destruct e as [i u]. unfold expire_upload. intros Hr. tx_step Hr. apply put_upload_Ok in Hx as [_ ->]. tx_step Hr. injection Hr as <-. destruct (enqueue_job_same "upload_reconcile" i "expire" a) as [js ->].
  destruct (drives _ !! us_drive u) as [d|]; [by apply put_drive_Ok in Hx as [_ ->]|by injection Hx as <-].
Qed.
Lemma reopen_expired_same now t : same_files t (reopen_expired_upload_finalizations now t).2.
Proof. unfold reopen_expired_upload_finalizations. destruct (reopen_all _ t) as [t'|] eqn:Hr; [|done]. eapply (loop_same (fun e => reopen e.1 e.2) reopen_all); [done|done|apply reopen_same|exact Hr]. Qed.
Lemma expire_same now t : same_files t (expire_uploads now t).2.
Proof. unfold expire_uploads. destruct (expire_all _ t) as [t'|] eqn:Hr; [|done]. eapply (loop_same expire_upload expire_all); [done|done|apply expire_upload_same|exact Hr]. Qed.
Lemma begin_same q i now t : same_files t (begin_upload q i now t).2.
Proof. unfold begin_upload. destruct (begin_upload_tx _ _ _ _) as [[id t']|] eqn:Hc; [|done]. by apply begin_upload_Ok in Hc as (_ & Hs & _). Qed.
Lemma part_durable_files upload part token size digest t : same_files t (mark_part_durable upload part token size digest t).2.
Proof. by destruct (part_durable_same upload part token size digest t) as [ps ->]. Qed.
Lemma claim_same upload token owner lease now t : same_files t (claim_upload_finalization upload token owner lease now t).2.
Proof. destruct (claim_cases upload token owner lease now t) as [-> |(u & u' & p & _ & _ & _ & Hm)]; [done|by eapply moved_same]. Qed.
Lemma finalized_same upload token owner digest now t : same_files t (mark_upload_finalized upload token owner digest now t).2.
Proof. destruct (finalized_cases upload token owner digest now t) as [-> |(u & u' & p & _ & _ & _ & Hm)]; [done|by eapply moved_same]. Qed.
Lemma abort_same upload token owner t : same_files t (abort_upload_finalization upload token owner t).2.
Proof. destruct (abort_cases upload token owner t) as [-> |(u & p & _ & _ & Hm)]; [done|by eapply moved_same]. Qed.
Lemma enqueue_orphans_same tenant backend_id grace limit now t : same_files t (enqueue_finalized_upload_orphans tenant backend_id grace limit now t).2.
Proof.
  unfold enqueue_finalized_upload_orphans. destruct (_ || _ || _ || _); [done|]. cbn [snd].
  match goal with |- same_files _ (foldr _ ?s ?l) => destruct (enqueue_jobs_same "payload_delete" (fun e : Uuid * PayloadObject => e.1) "orphan" l s) as [js ->] end. done.
Qed.
Lemma admit_same tenant payload_id t : same_files t (admit_finalized_upload_orphan_deletion tenant payload_id t).2.
Proof.
  unfold admit_finalized_upload_orphan_deletion. destruct (_ || _); [done|]. destruct (payloads t !! payload_id) as [p|]; [|done]. destruct (_ && _ && _ && _); [|done].
  case_bool_decide; [|done]. destruct (put_payload _ _ t) as [t'|] eqn:Ht; [|done]. by apply put_payload_Ok in Ht as [_ ->].
Qed.
Lemma complete_deletion_same payload_id t : same_files t (complete_orphan_payload_deletion payload_id t).2.
Proof.
  unfold complete_orphan_payload_deletion. destruct (payloads t !! payload_id) as [p|]; [|done]. destruct (owning_uploads t payload_id) as [|[upload u] rest]; [done|]. case_bool_decide; [|done].
  destruct (put_payload _ _ t) as [t1|] eqn:Ht; [|done]. apply put_payload_Ok in Ht as [_ ->]. destruct (put_upload _ _ _) as [t2|] eqn:Ht; [|done]. apply put_upload_Ok in Ht as [_ ->].
  destruct (drives _ !! us_drive u) as [d|]; [|done]. destruct (_ <=? _); [|done]. destruct (put_drive _ _ _) as [t3|] eqn:Ht; [|done]. by apply put_drive_Ok in Ht as [_ ->].
Qed.
#[export] Hint Resolve begin_same part_durable_files claim_same finalized_same abort_same touched_same heartbeat_touched cleaned_touched reopen_expired_same expire_same enqueue_orphans_same admit_same complete_deletion_same : drive.

(** An operation leaves the files alone, or it is one of five. *)
Definition files_op (op : DriveOp) : bool :=
  match op with OpCreateDirectory _ _ _ _ _ _ _ _ _ | OpTrash _ _ _ _ _ _ | OpRestore _ _ _ _ _ _ | OpRestoreVersion _ _ _ _ _ _ _ _ | OpCommit _ _ _ _ _ _ _ => true | _ => false end.
Lemma other_op_same op now t : files_op op = false -> same_files t (run_drive_op op now t).
Proof. destruct op; try done; simpl; eauto with drive. Qed.
