(* ===== verification/DriveTree.v ===== *)
(** The namespace of drives: the table of ancestors is the closure of the parents, names
    are unique among live siblings, and the trash takes and gives back whole subtrees. *)
From S2P Require Import Prelude Collections Libraries Frames CollaborationStore StorageLayout DriveStore DriveFacts.

Open Scope string_scope.
Open Scope Z_scope.
Open Scope list_scope.
Open Scope bool_scope.
Open Scope filebelt_scope.

(** ** The shape of the namespace *)

Record Shape := mkShape { sh_parent : option Uuid; sh_kind : RowKind; sh_name : string; sh_key : string; sh_trash : option Uuid }.
Definition shape (n : NodeRow) : Shape := mkShape (nd_parent n) (nd_kind n) (nd_display_name n) (nd_name_key n) (nd_trash_root n).
Abbreviation Shapes := (gmap (Uuid * Uuid) Shape).
Definition shapes (t : Store) : Shapes := shape <$> nodes t.
Abbreviation Ancestry := (gmap (Uuid * Uuid * Uuid) Z).

(** [k] steps up from a node *)
Fixpoint up (s : Shapes) (d x : Uuid) (k : nat) : option Uuid :=
  match s !! (d, x), k with
  | Some _, O => Some x
  | Some n, S k => match sh_parent n with Some p => up s d p k | None => None end
  | None, _ => None
  end.

Definition live (n : Shape) : Prop := sh_trash n = None.

Record tree_ok (s : Shapes) (a : Ancestry) : Prop := {
  tr_closure : forall d x y k, a !! (d, x, y) = Some k <-> 0 <= k /\ up s d y (Z.to_nat k) = Some x;
  tr_depth : forall d x y k, a !! (d, x, y) = Some k -> k <= MAX_DEPTH /\ (k = 0 <-> x = y);
  tr_parent : forall d x n p, s !! (d, x) = Some n -> sh_parent n = Some p -> is_Some (s !! (d, p));
  tr_names : forall d x y n m, s !! (d, x) = Some n -> s !! (d, y) = Some m -> live n -> live m ->
    sh_parent n = sh_parent m -> sh_parent n <> None -> sh_key n = sh_key m -> x = y;
  tr_root : forall d x y n m, s !! (d, x) = Some n -> s !! (d, y) = Some m -> sh_parent n = None -> sh_parent m = None -> x = y;
  tr_named : forall d x n, s !! (d, x) = Some n -> sh_parent n = None <-> sh_name n = ""
}.

Lemma up_In s d x k y : up s d x k = Some y -> is_Some (s !! (d, x)).
Proof. destruct k; simpl; destruct (s !! (d, x)); by eauto. Qed.

Lemma up_target s d x k y : up s d x k = Some y -> is_Some (s !! (d, y)).
Proof.
  revert x. induction k as [|k IH]; intros x; simpl; destruct (s !! (d, x)) as [n|] eqn:Hx; try done.
  - intros [= <-]. by rewrite Hx.
  - destruct (sh_parent n); [apply IH|done].
Qed.

(** The parents decide the ways up. *)
Lemma up_parents s s' d x k : (forall y, sh_parent <$> s' !! (d, y) = sh_parent <$> s !! (d, y)) -> up s' d x k = up s d x k.
Proof.
  intros Hp. revert x. induction k as [|k IH]; intros x; simpl; pose proof (Hp x) as Hx; destruct (s !! (d, x)) as [n|], (s' !! (d, x)) as [n'|]; try done.
  simpl in Hx. injection Hx as ->. destruct (sh_parent n); [apply IH|done].
Qed.

Section tree.
Context (s : Shapes) (a : Ancestry) (Hok : tree_ok s a).

(** No node is its own proper ancestor. *)
Lemma tree_acyclic d x k : up s d x k = Some x -> k = O.
Proof.
  intros Hk. assert (a !! (d, x, x) = Some (Z.of_nat k)) as Ha by (apply (tr_closure _ _ Hok); rewrite Nat2Z.id; split; [lia|done]).
  destruct (tr_depth _ _ Hok _ _ _ _ Ha) as [_ He]. pose proof (proj2 He eq_refl). lia.
Qed.

(** Every node is below the root of its drive, within the depth limit. *)
Lemma tree_rooted d x n : s !! (d, x) = Some n -> exists k r m, Z.of_nat k <= MAX_DEPTH /\ up s d x k = Some r /\ s !! (d, r) = Some m /\ sh_parent m = None.
Proof.
  intros Hx. assert (forall j, (exists k r m, (k < j)%nat /\ up s d x k = Some r /\ s !! (d, r) = Some m /\ sh_parent m = None) \/ is_Some (up s d x j)) as Hj.
  { intros j. induction j as [|j IH]; [right; simpl; rewrite Hx; by eexists|]. destruct IH as [(k & r & m & Hk & IH)|[y Hy]]; [left; exists k, r, m; split; [lia|done]|].
    destruct (up_target _ _ _ _ _ Hy) as [m Hm]. destruct (sh_parent m) as [p|] eqn:Hp; [right|left; exists j, y, m; split; [lia|done]].
    destruct (tr_parent _ _ Hok _ _ _ _ Hm Hp) as [q Hq]. exists p. clear Hx n. revert x Hy.
    induction j as [|j IH]; intros x Hy; simpl in Hy |- *; destruct (s !! (d, x)) as [n|] eqn:Hx; try done.
    - injection Hy as <-. rewrite Hm in Hx. injection Hx as <-. rewrite Hp. by rewrite Hq.
    - destruct (sh_parent n); [by apply IH|done]. }
  destruct (Hj (S (Z.to_nat MAX_DEPTH))) as [(k & r & m & Hk & H1)|[y Hy]]; [exists k, r, m; split; [unfold MAX_DEPTH in *; lia|done]|].
  assert (a !! (d, y, x) = Some (MAX_DEPTH + 1)) as Ha by (apply (tr_closure _ _ Hok); split; [done|]; done).
  destruct (tr_depth _ _ Hok _ _ _ _ Ha). lia.
Qed.
End tree.

(** ** A new node *)

Lemma up_insert s d f n x k : s !! (d, f) = None -> (forall y m p, s !! (d, y) = Some m -> sh_parent m = Some p -> is_Some (s !! (d, p))) -> sh_parent n <> Some f ->
  up (<[(d, f) := n]> s) d x k =
  if decide (x = f) then match k, sh_parent n with O, _ => Some f | S k, Some p => up s d p k | S _, None => None end else up s d x k.
Proof.
  intros Hf Hpar Hself. assert (forall k x, x <> f -> up (<[(d, f) := n]> s) d x k = up s d x k) as Hold.
  { clear k x. intros k. induction k as [|k IH]; intros x Hx; cbn [up]; rewrite lookup_insert_ne by congruence; [done|].
    destruct (s !! (d, x)) as [m|] eqn:Hm; [|done]. destruct (sh_parent m) as [p|] eqn:Hp; [|done]. apply IH. intros ->. destruct (Hpar _ _ _ Hm Hp) as [? Hfp]. by rewrite Hf in Hfp. }
  destruct (decide (x = f)) as [-> |Hx]; [|by apply Hold]. destruct k as [|k]; cbn [up]; rewrite lookup_insert_eq; [done|].
  destruct (sh_parent n) as [p|] eqn:Hp; [|done]. apply Hold. congruence.
Qed.

Lemma up_insert_other s d f n d' x k : d' <> d -> up (<[(d, f) := n]> s) d' x k = up s d' x k.
Proof. intros Hd. apply up_parents. intros y. by rewrite lookup_insert_ne by congruence. Qed.

(** What the rows of a new node add to the table of ancestors. *)
Lemma insert_rows_lookup d f rows a a' : insert_ancestry_rows d f rows a = Ok a' -> forall key k,
  a' !! key = Some k <-> a !! key = Some k \/ exists x, key = (d, x, f) /\ (x, k) ∈ rows.
Proof.
  revert a. induction rows as [|[x kx] rows IH]; intros a Hi key k; [injection Hi as <-; set_solver|].
  simpl in Hi. destruct (_ || _ || _ || _) eqn:Hc; [done|]. apply orb_false_iff in Hc as [[[_ _]%orb_false_iff Hfree]%orb_false_iff _]. breflect. apply eq_None_not_Some in Hfree.
  rewrite (IH _ Hi). split.
  - intros [Hk|(y & -> & Hy)]; [|right; exists y; set_solver]. destruct (decide (key = (d, x, f))) as [-> |Hne].
    + rewrite lookup_insert_eq in Hk. injection Hk as <-. right. exists x. set_solver.
    + rewrite lookup_insert_ne in Hk by done. by left.
  - intros [Hk|(y & -> & [[= -> ->]|Hy]%elem_of_cons)]; [left| |right; by exists y].
    + rewrite lookup_insert_ne; [done|congruence].
    + left. by rewrite lookup_insert_eq.
Qed.
Lemma insert_rows_depth d f rows a a' : insert_ancestry_rows d f rows a = Ok a' -> forall x k, (x, k) ∈ rows -> 0 <= k <= MAX_DEPTH /\ (k = 0 <-> x = f).
Proof.
  revert a. induction rows as [|[y ky] rows IH]; intros a Hi x k Hin; [set_solver|]. simpl in Hi. destruct (_ || _ || _ || _) eqn:Hc; [done|].
  apply orb_false_iff in Hc as [[[Hr He]%orb_false_iff _]%orb_false_iff _]. apply negb_false_iff in Hr, He. breflect. apply eqb_prop in He.
  apply elem_of_cons in Hin as [[= -> ->]|Hin]; [|by eapply IH]. split; [lia|]. rewrite <-Z.eqb_eq, He. apply N.eqb_eq.
Qed.

Lemma elem_of_ancestors d p a x k : (x, k) ∈ ancestors_of d p a <-> a !! (d, x, p) = Some k.
Proof.
  unfold ancestors_of. rewrite list_elem_of_omap. split.
  - intros ([[[d' x'] p'] k'] & Hin & He). apply elem_of_map_to_list in Hin. simpl in He. destruct (N.eqb_spec d' d), (N.eqb_spec p' p); try done. simpl in He. by simplify_eq.
  - intros Ha. exists ((d, x, p), k). split; [by apply elem_of_map_to_list|]. simpl. by rewrite !N.eqb_refl.
Qed.

Lemma tree_grow s a d p f n a' :
  tree_ok s a -> s !! (d, f) = None -> is_Some (s !! (d, p)) -> sh_parent n = Some p -> sh_name n <> "" ->
  (forall y m, s !! (d, y) = Some m -> live n -> live m -> sh_parent m = Some p -> sh_key m <> sh_key n) ->
  insert_ancestry_rows d f (map (fun e => (e.1, e.2 + 1)) (ancestors_of d p a) ++ [(f, 0)]) a = Ok a' -> tree_ok (<[(d, f) := n]> s) a'.
Proof.
  intros Hok Hf Hp Hn Hname Hkey Hi. pose proof (insert_rows_lookup _ _ _ _ _ Hi) as Hl. pose proof (insert_rows_depth _ _ _ _ _ Hi) as Hdepth.
  assert (forall x k, (x, k) ∈ map (fun e : Uuid * Z => (e.1, e.2 + 1)) (ancestors_of d p a) ++ [(f, 0)] <-> (1 <= k /\ a !! (d, x, p) = Some (k - 1)) \/ (x = f /\ k = 0)) as Hrows.
  { intros x k. rewrite elem_of_app, list_elem_of_fmap, list_elem_of_singleton. split.
    - intros [([y j] & [= -> ->] & Hy%elem_of_ancestors)|[= -> ->]]; [left|by right]. split; [apply (tr_closure _ _ Hok) in Hy; simpl; lia|]. by replace (j + 1 - 1) with j by lia.
    - intros [[Hk Hx]|[-> ->]]; [left|by right]. exists (x, k - 1). split; [simpl; f_equal; lia|by apply elem_of_ancestors]. }
  assert (p <> f) as Hpf by (intros ->; destruct Hp; congruence).
  assert (forall x y k, a !! (d, x, y) = Some k -> y <> f) as Hold.
  { intros x y k Ha ->. apply (tr_closure _ _ Hok) in Ha as [_ Ha]. apply up_In in Ha as [? Ha]. by rewrite Hf in Ha. }
  split.
  - intros d' x y k. rewrite Hl. destruct (decide (d' = d)) as [-> |Hd].
    + rewrite up_insert by (first [done|apply (tr_parent _ _ Hok)|congruence]). destruct (decide (y = f)) as [-> |Hy].
      * rewrite Hn. split.
        -- intros [Ha|(z & [= ->] & Hz%Hrows)]; [by apply Hold in Ha|]. destruct Hz as [[Hk Hz]|[-> ->]]; [|done]. apply (tr_closure _ _ Hok) in Hz as [_ Hz].
           split; [lia|]. replace (Z.to_nat k) with (S (Z.to_nat (k - 1))) by lia. done.
        -- intros [Hk Hu]. right. exists x. split; [done|]. apply Hrows. destruct (Z.to_nat k) as [|j] eqn:Hj; [right; split; [congruence|lia]|].
           left. split; [lia|]. apply (tr_closure _ _ Hok). split; [lia|]. by replace (Z.to_nat (k - 1)) with j by lia.
      * rewrite <-(tr_closure _ _ Hok). split; [intros [Ha|(z & [= ] & _)]; done|by left].
    + rewrite up_insert_other by done. rewrite <-(tr_closure _ _ Hok). split; [intros [Ha|(z & [= ] & _)]; done|by left].
  - intros d' x y k [Ha|(z & [= -> -> ->] & Hz)]%Hl; [by apply (tr_depth _ _ Hok) in Ha|]. apply Hdepth in Hz. split; [lia|]. naive_solver.
  - intros d' x m q Hm Hq. destruct (decide ((d', x) = (d, f))) as [[= -> ->]|Hne].
    + rewrite lookup_insert_eq in Hm. injection Hm as <-. rewrite Hn in Hq. injection Hq as <-. rewrite lookup_insert_ne by congruence. done.
    + rewrite lookup_insert_ne in Hm by done. destruct (tr_parent _ _ Hok _ _ _ _ Hm Hq) as [r Hr]. destruct (decide ((d', q) = (d, f))) as [[= -> ->]|Hq']; [by rewrite lookup_insert_eq|by rewrite lookup_insert_ne].
  - intros d' x y m m' Hm Hm' Hlm Hlm' Hpar Hnone Hk.
    destruct (decide (d' = d)) as [-> |Hd]; [|rewrite lookup_insert_ne in Hm, Hm' by congruence; by eapply (tr_names _ _ Hok)].
    destruct (decide (x = f)) as [-> |Hx], (decide (y = f)) as [-> |Hy]; [done|..].
    + rewrite lookup_insert_eq in Hm. injection Hm as <-. rewrite lookup_insert_ne in Hm' by congruence. exfalso. eapply Hkey; [exact Hm'|done..|congruence|congruence].
    + rewrite lookup_insert_eq in Hm'. injection Hm' as <-. rewrite lookup_insert_ne in Hm by congruence. exfalso. eapply Hkey; [exact Hm|done..|congruence|congruence].
    + rewrite lookup_insert_ne in Hm, Hm' by congruence. by eapply (tr_names _ _ Hok).
  - intros d' x y m m' Hm Hm' Hnm Hnm'.
    destruct (decide ((d', x) = (d, f))) as [[= -> ->]|Hx]; [rewrite lookup_insert_eq in Hm; congruence|]. destruct (decide ((d', y) = (d, f))) as [[= -> ->]|Hy]; [rewrite lookup_insert_eq in Hm'; congruence|].
    rewrite lookup_insert_ne in Hm, Hm' by done. by eapply (tr_root _ _ Hok).
  - intros d' x m Hm. destruct (decide ((d', x) = (d, f))) as [[= -> ->]|Hx].
    + rewrite lookup_insert_eq in Hm. injection Hm as <-. rewrite Hn. done.
    + rewrite lookup_insert_ne in Hm by done. by eapply (tr_named _ _ Hok).
Qed.

(** ** The trash *)

(** everything of a node but its trash *)
Definition outline (n : Shape) : option Uuid * RowKind * string * string := (sh_parent n, sh_kind n, sh_name n, sh_key n).

Lemma outline_parents (s s' : Shapes) d y : outline <$> s' = outline <$> s -> sh_parent <$> s' !! (d, y) = sh_parent <$> s !! (d, y).
Proof.
  intros Ho. assert ((outline <$> s') !! (d, y) = (outline <$> s) !! (d, y)) as Hk by by rewrite Ho. rewrite !lookup_fmap in Hk.
  destruct (s' !! (d, y)), (s !! (d, y)); simpl in *; try done. injection Hk as Hp _ _ _. by rewrite Hp.
Qed.
Lemma outline_lookup (s s' : Shapes) key n : outline <$> s' = outline <$> s -> s' !! key = Some n -> exists m, s !! key = Some m /\ outline n = outline m.
Proof.
  intros Ho Hn. assert ((outline <$> s') !! key = (outline <$> s) !! key) as Hk by by rewrite Ho. rewrite !lookup_fmap, Hn in Hk.
  destruct (s !! key) as [m|]; simpl in *; [|done]. exists m. split; [done|]. by apply (inj Some) in Hk.
Qed.

(** Only the trash changed, and no two live siblings have one name. *)
Lemma tree_outline s s' a : tree_ok s a -> outline <$> s' = outline <$> s ->
  (forall d x y n m, s' !! (d, x) = Some n -> s' !! (d, y) = Some m -> live n -> live m ->
     sh_parent n = sh_parent m -> sh_parent n <> None -> sh_key n = sh_key m -> x = y) -> tree_ok s' a.
Proof.
  intros Hok Ho Hnames. split; [..|done| |].
  - intros d x y k. rewrite (tr_closure _ _ Hok), (up_parents s s'); [done|]. intros z. by apply outline_parents.
  - apply (tr_depth _ _ Hok).
  - intros d x n p Hn Hp. destruct (outline_lookup _ _ _ _ Ho Hn) as (m & Hm & [= He _ _ _]). destruct (tr_parent _ _ Hok _ _ _ p Hm) as [q Hq]; [congruence|].
    destruct (outline_lookup s' s (d, p) q (eq_sym Ho) Hq) as (q' & Hq' & _). by eexists.
  - intros d x y n m Hn Hm Hpn Hpm. destruct (outline_lookup _ _ _ _ Ho Hn) as (n' & Hn' & [= He _ _ _]). destruct (outline_lookup _ _ _ _ Ho Hm) as (m' & Hm' & [= He' _ _ _]).
    eapply (tr_root _ _ Hok); [exact Hn'|exact Hm'|congruence..].
  - intros d x n Hn. destruct (outline_lookup _ _ _ _ Ho Hn) as (m & Hm & [= He _ He' _]). rewrite He, He'. by eapply (tr_named _ _ Hok).
Qed.

(** ** The transactions *)

(** A node in the trash went there with a node above it, or itself, that is in the trash. *)
Definition trash_ok (s : Shapes) : Prop :=
  forall d x n r, s !! (d, x) = Some n -> sh_trash n = Some r -> (exists k, up s d x k = Some r) /\ exists m, s !! (d, r) = Some m /\ sh_trash m = Some r.

Definition namespace_ok (t : Store) : Prop := tree_ok (shapes t) (ancestry t) /\ trash_ok (shapes t).

Lemma trash_grow s a d f n : tree_ok s a -> trash_ok s -> s !! (d, f) = None -> sh_trash n = None -> sh_parent n <> Some f -> trash_ok (<[(d, f) := n]> s).
Proof.
  intros Hok Ht Hf Hl Hself d' x m r [[[= <- <-] <-]|[Hne Hm]]%lookup_insert_Some Hr; [congruence|]. destruct (Ht _ _ _ _ Hm Hr) as [[k Hk] (m' & Hm' & Hr')]. split.
  - exists k. destruct (decide (d' = d)) as [-> |Hd]; [|by rewrite up_insert_other]. rewrite up_insert by (first [done|apply (tr_parent _ _ Hok)]). rewrite decide_False; [done|]. intros ->. done.
  - exists m'. split; [|done]. rewrite lookup_insert_ne; [done|]. intros [= <- <-]. congruence.
Qed.
Lemma trash_outline s s' : trash_ok s -> outline <$> s' = outline <$> s ->
  (forall d x n r, s' !! (d, x) = Some n -> sh_trash n = Some r -> (exists k, up s d x k = Some r) /\ exists m, s' !! (d, r) = Some m /\ sh_trash m = Some r) -> trash_ok s'.
Proof.
  intros Ht Ho Hs d x n r Hn Hr. destruct (Hs _ _ _ _ Hn Hr) as [[k Hk] Hm]. split; [|done]. exists k. rewrite (up_parents s s'); [done|]. intros z. by apply outline_parents.
Qed.

Lemma shapes_lookup t key : shapes t !! key = shape <$> nodes t !! key.
Proof. apply lookup_fmap. Qed.
(** a change that the shape does not show *)
Lemma shapes_kept (ns : gmap (Uuid * Uuid) NodeRow) key n n' : ns !! key = Some n -> shape n' = shape n -> shape <$> <[key := n']> ns = shape <$> ns.
Proof. intros Hn Hs. rewrite fmap_insert, Hs. apply insert_id. by rewrite lookup_fmap, Hn. Qed.
Lemma shape_head head g n : shape (set_node_head head g n) = shape n.
Proof. done. Qed.

Lemma named_checks parent kind display key owner : node_checks (new_node parent kind display key owner) = true -> display <> "".
Proof. unfold node_checks. simpl. destruct (String.eqb_spec display ""); done. Qed.

Lemma grown_tree drive parent id kind display key owner t t' :
  namespace_ok t -> is_Some (nodes t !! (drive, parent)) -> grown drive parent id (new_node parent kind display key owner) t t' -> namespace_ok t'.
Proof.
  intros [Hok Htr] Hp [Hnew Hfree Hch Hns Ha _]. unfold namespace_ok, shapes. rewrite Hns, fmap_insert.
  assert ((shape <$> nodes t) !! (drive, id) = None) as Hnew' by (by rewrite lookup_fmap, Hnew).
  split; [|eapply trash_grow; [done..|]; simpl; intros [= ->]; destruct Hp; congruence]. eapply tree_grow; [exact Hok|done|..|exact Ha].
  - rewrite lookup_fmap. by destruct Hp as [? ->].
  - done.
  - by eapply named_checks.
  - intros y m Hm _ Hl Hpar Hk. rewrite lookup_fmap in Hm. destruct (nodes t !! (drive, y)) as [x|] eqn:Hx; [|done]. injection Hm as <-. specialize (Hfree _ _ Hx).
    unfold node_conflicts, same_uuid, is_live in Hfree. cbn [shape sh_parent sh_key sh_trash nd_parent nd_name_key nd_trash_root new_node fst snd] in *. unfold live in Hl. cbn in Hl.
    rewrite Hl, Hpar, Hk, N.eqb_refl, String.eqb_refl, (bool_decide_eq_true_2 (Some parent = Some parent)) in Hfree by done. done.
Qed.

Lemma create_directory_tree actor session drive parent display key expected g fresh now t :
  namespace_ok t -> namespace_ok (create_directory actor session drive parent display key expected g fresh now t).2.
Proof.
  intros Hok. unfold create_directory. destruct (create_directory_tx _ _ _ _ _ _ _ _ _ _ _) as [[id t']|] eqn:Hc; [|done].
  apply create_directory_Ok in Hc as (_ & p & t1 & Hp & Hg & Hn & Ha & _). pose proof (grown_tree _ _ _ _ _ _ _ _ _ Hok (ex_intro _ _ Hp) Hg) as Hok1.
  simpl. unfold namespace_ok, shapes. rewrite Hn, Ha. destruct Hg as [Hnew _ _ Hns _ _]. rewrite (shapes_kept _ _ p); [done| |done]. rewrite Hns, lookup_insert_ne; [done|]. intros [= ->]. congruence.
Qed.
Lemma commit_tree actor session upload token g fresh_node fresh_version now t :
  namespace_ok t -> namespace_ok (commit_upload actor session upload token g fresh_node fresh_version now t).2.
Proof.
  intros Hok. unfold commit_upload. destruct (commit_upload_tx _ _ _ _ _ _ _ _ _) as [[[node version] t']|] eqn:Hc; [|done].
  apply commit_upload_Ok in Hc as (-> & [(u & p & _ & _ & _ & _ & _ & _ & Hf & _ & _ & _ & _ & t1 & n & Hnode & Hn1 & _ & Hn & Ha & _) _]).
  apply fence_Ok in Hf as (_ & _ & n0 & _ & _ & Hn0 & _). simpl. unfold namespace_ok, shapes. rewrite Hn, Ha, (shapes_kept _ _ n); [|done|done].
  destruct (us_node u); [by destruct Hnode as (_ & -> & _)|]. destruct Hnode as [_ Hg]. eapply grown_tree; [exact Hok| |exact Hg]. by eexists.
Qed.
Lemma restore_version_tree actor session drive node source head g fresh now t :
  namespace_ok t -> namespace_ok (restore_file_version actor session drive node source head g fresh now t).2.
Proof.
  intros Hok. unfold restore_file_version. destruct (restore_file_version_tx _ _ _ _ _ _ _ _ _ _) as [[id t']|] eqn:Hc; [|done].
  apply restore_version_Ok in Hc as (_ & n & v & ordinal & Hn & _ & _ & _ & _ & _ & Hns & Ha & _). simpl. unfold namespace_ok, shapes. by rewrite Hns, Ha, (shapes_kept _ _ n).
Qed.

Lemma live_names_unique ns d x y n m : live_names_clash ns = false -> ns !! (d, x) = Some n -> ns !! (d, y) = Some m -> nd_trash_root n = None -> nd_trash_root m = None ->
  nd_parent n = nd_parent m -> nd_parent n <> None -> nd_name_key n = nd_name_key m -> x = y.
Proof.
  intros Hc Hn Hm Hln Hlm Hp Hnone Hk. destruct (decide (x = y)) as [|Hne]; [done|]. exfalso. apply not_true_iff_false in Hc. apply Hc. unfold live_names_clash.
  apply existsb_exists. exists ((d, x), n). split; [by apply list_elem_of_In, elem_of_map_to_list|]. apply existsb_exists. exists ((d, y), m). split; [by apply list_elem_of_In, elem_of_map_to_list|].
  unfold is_live, same_uuid. cbn [fst snd]. rewrite (bool_decide_eq_false_2 ((d, x) = (d, y))) by congruence. rewrite N.eqb_refl, Hk, String.eqb_refl, Hln, Hlm, <-Hp.
  rewrite (bool_decide_eq_false_2 (nd_parent n = None)), (bool_decide_eq_true_2 (nd_parent n = nd_parent n)) by done. done.
Qed.

Lemma update_nodes_outline drive p f ns : (forall id n, outline (shape (f id n)) = outline (shape n)) -> outline <$> (shape <$> update_nodes drive p f ns) = outline <$> (shape <$> ns).
Proof.
  intros Hf. apply map_eq. intros key. rewrite !lookup_fmap, update_nodes_lookup. destruct (ns !! key) as [n|]; [|done]. simpl. case_match; [by rewrite Hf|done].
Qed.

Lemma subtree_up t drive resource id : tree_ok (shapes t) (ancestry t) -> in_subtree t drive resource id = true <-> exists k, up (shapes t) drive id k = Some resource.
Proof.
  intros Hok. unfold in_subtree. rewrite bool_decide_eq_true. split.
  - intros [k Hk]. apply (tr_closure _ _ Hok) in Hk as [_ Hk]. by eexists.
  - intros [k Hk]. exists (Z.of_nat k). apply (tr_closure _ _ Hok). rewrite Nat2Z.id. split; [lia|done].
Qed.

Lemma trashed_lookup drive resource purge t key :
  trashed drive resource purge t !! key = (fun n => if N.eqb key.1 drive && (in_subtree t drive resource key.2 && is_live n) then trash_row resource key.2 purge n else n) <$> nodes t !! key.
Proof. apply update_nodes_lookup. Qed.
Lemma untrashed_lookup drive resource t key :
  untrashed drive resource t !! key =
  (fun n => if N.eqb key.1 drive && (in_subtree t drive resource key.2 && same_uuid (nd_trash_root n) (Some resource)) then untrash_row resource key.2 n else n) <$> nodes t !! key.
Proof. apply update_nodes_lookup. Qed.

Lemma trashed_names drive resource purge t d x y n m : tree_ok (shapes t) (ancestry t) -> trashed drive resource purge t !! (d, x) = Some n -> trashed drive resource purge t !! (d, y) = Some m ->
  nd_trash_root n = None -> nd_trash_root m = None -> nd_parent n = nd_parent m -> nd_parent n <> None -> nd_name_key n = nd_name_key m -> x = y.
Proof.
  intros Hok. rewrite !trashed_lookup. destruct (nodes t !! (d, x)) as [n0|] eqn:Hn, (nodes t !! (d, y)) as [m0|] eqn:Hm; try done. intros [= <-] [= <-].
  case_match; [done|]. case_match; [done|]. intros. eapply (tr_names _ _ Hok d x y (shape n0) (shape m0)); rewrite ?shapes_lookup, ?Hn, ?Hm; done.
Qed.

Lemma trashed_trash drive resource purge t n0 : namespace_ok t -> nodes t !! (drive, resource) = Some n0 -> is_live n0 = true -> trash_ok (shape <$> trashed drive resource purge t).
Proof.
  intros [Hok Ht] Hn0 Hl0. eapply (trash_outline (shapes t)); [done|by apply update_nodes_outline|]. intros d x n r. rewrite !lookup_fmap, !trashed_lookup.
  destruct (nodes t !! (d, x)) as [n1|] eqn:Hn1; [|done]. intros [= <-] Hr. cbn [fst snd] in Hr. destruct (N.eqb d drive && (in_subtree t drive resource x && is_live n1)) eqn:Hb.
  - apply andb_true_iff in Hb as [->%N.eqb_eq [Hs Hl]%andb_true_iff]. injection Hr as <-. apply (subtree_up _ _ _ _ Hok) in Hs. split; [done|]. rewrite Hn0. simpl. eexists. split; [done|].
    rewrite N.eqb_refl, Hl0, (proj2 (subtree_up t drive resource resource Hok)); [done|]. exists O. simpl. by rewrite shapes_lookup, Hn0.
  - destruct (Ht d x (shape n1) r) as [Hk (m & Hm & Hr')]; [by rewrite shapes_lookup, Hn1|done|]. split; [done|]. rewrite shapes_lookup in Hm. destruct (nodes t !! (d, r)) as [m0|]; [|done]. injection Hm as <-.
    simpl in Hr'. simpl. eexists. split; [done|]. unfold is_live. rewrite Hr'. simpl. by rewrite !andb_false_r.
Qed.

Lemma untrashed_trash drive resource t : namespace_ok t -> trash_ok (shape <$> untrashed drive resource t).
Proof.
  intros [Hok Ht]. eapply (trash_outline (shapes t)); [done|by apply update_nodes_outline|]. intros d x n r. rewrite !lookup_fmap, !untrashed_lookup.
  destruct (nodes t !! (d, x)) as [n1|] eqn:Hn1; [|done]. intros [= <-] Hr. cbn [fst snd] in Hr. destruct (N.eqb d drive && (in_subtree t drive resource x && same_uuid (nd_trash_root n1) (Some resource))) eqn:Hb; [done|].
  destruct (Ht d x (shape n1) r) as [[k Hk] (m & Hm & Hr')]; [by rewrite shapes_lookup, Hn1|done|]. split; [by exists k|]. rewrite shapes_lookup in Hm. destruct (nodes t !! (d, r)) as [m0|]; [|done]. injection Hm as <-.
  simpl in Hr', Hr. simpl. eexists. split; [done|]. case_match eqn:Hb'; [|done]. exfalso. apply andb_true_iff in Hb' as [->%N.eqb_eq [_ Hs]%andb_true_iff]. unfold same_uuid in *. apply bool_decide_eq_true in Hs.
  assert (r = resource) as -> by congruence. rewrite N.eqb_refl, (proj2 (subtree_up t drive resource x Hok)), Hr, bool_decide_eq_true_2 in Hb by eauto. done.
Qed.

Lemma trash_state_tree actor session drive resource expected g trash now t :
  namespace_ok t -> namespace_ok (run_tx t (set_node_trash_state_tx actor session drive resource expected g trash now t)).2.
Proof.
  intros Hok. destruct (set_node_trash_state_tx _ _ _ _ _ _ _ _ _) as [[[] t']|] eqn:Hc; [|done].
  apply trash_state_Ok in Hc as (n & d & Hn & _ & _ & _ & Hcase & _ & _ & Ha & _). simpl. unfold namespace_ok, shapes. rewrite Ha. destruct trash.
  - destruct Hcase as (Hl & -> & _). split; [|by eapply trashed_trash]. eapply (tree_outline (shapes t)); [apply Hok|by apply update_nodes_outline|].
    intros d' x y n1 m1. rewrite !lookup_fmap. destruct (_ !! (d', x)) as [n2|] eqn:Hn2; [|done]. destruct (trashed _ _ _ _ !! (d', y)) as [m2|] eqn:Hm2; [|done]. intros [= <-] [= <-]. by eapply trashed_names; [apply Hok|..].
  - destruct Hcase as (_ & _ & Hns & Hclash). rewrite Hns in *. split; [|by apply untrashed_trash]. eapply (tree_outline (shapes t)); [apply Hok|by apply update_nodes_outline|].
    intros d' x y n1 m1. rewrite !lookup_fmap. destruct (_ !! (d', x)) as [n2|] eqn:Hn2; [|done]. destruct (untrashed _ _ _ !! (d', y)) as [m2|] eqn:Hm2; [|done]. intros [= <-] [= <-]. by eapply live_names_unique.
Qed.

Lemma op_tree op now t : namespace_ok t -> namespace_ok (run_drive_op op now t).
Proof.
  intros Hok. destruct (files_op op) eqn:Hf.
  - destruct op; try done; simpl; unfold trash_node, restore_node; auto using create_directory_tree, trash_state_tree, restore_version_tree, commit_tree.
  - destruct (other_op_same op now t Hf) as (Hn & Ha & _). unfold namespace_ok, shapes. by rewrite Hn, Ha.
Qed.

Lemma run_tree t t' : namespace_ok t -> drive_run t t' -> namespace_ok t'.
Proof. intros Hok Hr. induction Hr as [|t t1 t' [op now _] _ IH]; [done|]. apply IH. by apply op_tree. Qed.

(** C18. Along every sequence of transactions each drive stays a tree: the stored table of
    ancestors is exactly the closure of the parents with the right depths, every node is at
    most 128 levels below the one root of its drive and never its own ancestor, live
    children of a directory have different names, and whatever is in the trash is below the
    node that was thrown away, which is in the trash too. *)
Theorem namespace_stays_a_tree t t' : namespace_ok t -> drive_run t t' ->
  namespace_ok t'
  /\ (forall d x n, shapes t' !! (d, x) = Some n ->
        (exists k r m, Z.of_nat k <= MAX_DEPTH /\ up (shapes t') d x k = Some r /\ shapes t' !! (d, r) = Some m /\ sh_parent m = None)
        /\ forall k, up (shapes t') d x k = Some x -> k = O)
  /\ (forall d x y, in_subtree t' d x y = true <-> exists k, up (shapes t') d y k = Some x).
Proof.
  intros Hok Hr. pose proof (run_tree _ _ Hok Hr) as Hok'.
  split; [done|]. destruct Hok' as [Htree _]. split; [|intros; by apply subtree_up]. intros d x n Hn. split; [by eapply tree_rooted|]. intros k. by eapply tree_acyclic.
Qed.

(** ** The trash, and back *)

Lemma trash_untrash drive resource purge t t1 n0 : namespace_ok t -> nodes t !! (drive, resource) = Some n0 -> is_live n0 = true ->
  nodes t1 = trashed drive resource purge t -> ancestry t1 = ancestry t -> shape <$> untrashed drive resource t1 = shapes t.
Proof.
  intros [Hok Ht] Hn0 Hl0 Hn1 Ha. apply map_eq. intros [d x]. rewrite lookup_fmap, untrashed_lookup, Hn1, trashed_lookup, shapes_lookup. cbn [fst snd].
  destruct (nodes t !! (d, x)) as [n|] eqn:Hn; [|done]. simpl. f_equal. replace (in_subtree t1 drive resource x) with (in_subtree t drive resource x) by (unfold in_subtree; by rewrite Ha).
  destruct (N.eqb_spec d drive) as [-> |Hd]; [|done]. destruct (in_subtree t drive resource x) eqn:Hs; [|done]. simpl. destruct (is_live n) eqn:Hl.
  - unfold is_live in Hl. apply bool_decide_eq_true in Hl. unfold same_uuid. simpl. rewrite bool_decide_eq_true_2 by done. unfold shape. simpl. by rewrite Hl.
  - unfold same_uuid. case_bool_decide as Hr; [|done]. destruct (Ht drive x (shape n) resource) as [_ (m & Hm & Hmr)]; [by rewrite shapes_lookup, Hn|done|].
    rewrite shapes_lookup, Hn0 in Hm. injection Hm as <-. unfold is_live in Hl0. apply bool_decide_eq_true in Hl0. simpl in Hmr. congruence.
Qed.

Lemma shapes_clash ns s a : tree_ok s a -> shape <$> ns = s -> live_names_clash ns = false.
Proof.
  intros Hok <-. apply not_true_iff_false. unfold live_names_clash. intros ([[d x] n] & Hn & ([[d' y] m] & Hm & Hb)%existsb_exists)%existsb_exists.
  apply list_elem_of_In, elem_of_map_to_list in Hn, Hm. simpl in Hb. unfold is_live, same_uuid in Hb.
  repeat match type of Hb with _ && _ = true => apply andb_true_iff in Hb as [Hb ?] end. repeat match goal with H : negb _ = true |- _ => apply negb_true_iff in H end. breflect.
  match goal with H : (d =? d')%N = true |- _ => apply N.eqb_eq in H as -> end. apply Hb. f_equal. eapply (tr_names _ _ Hok d' x y (shape n) (shape m)); rewrite ?lookup_fmap, ?Hn, ?Hm; try done. by apply String.eqb_eq.
Qed.

Lemma nodes_pass_spec ns : nodes_pass ns = true <-> forall key n, ns !! key = Some n -> node_checks n = true.
Proof.
  unfold nodes_pass. rewrite forallb_forall. split.
  - intros Hp key n Hn. apply (Hp (key, n)). by apply list_elem_of_In, elem_of_map_to_list.
  - intros Hp [key n] Hn. apply (Hp key). by apply elem_of_map_to_list, list_elem_of_In.
Qed.

Lemma untrash_checks resource id n : node_checks n = true -> nd_namespace_generation n < i64_max -> node_checks (untrash_row resource id n) = true.
Proof.
  unfold node_checks, positive_i64. simpl. intros [[[-> Hx]%andb_true_iff [Hp Hq]%andb_true_iff]%andb_true_iff ->]%andb_true_iff Hm. rewrite Hx. apply Z.ltb_lt in Hp. apply Z.leb_le in Hq.
  destruct (N.eqb id resource); rewrite andb_true_r; simpl; apply andb_true_iff; rewrite Z.ltb_lt, Z.leb_le; lia.
Qed.

Lemma untrashed_pass drive resource t n : nodes t !! (drive, resource) = Some n -> nd_namespace_generation n < i64_max -> nodes_pass (nodes t) = true -> nodes_pass (untrashed drive resource t) = true.
Proof.
  intros Hn Hg Hp. apply nodes_pass_spec. intros [d x] m. rewrite untrashed_lookup. destruct (nodes t !! (d, x)) as [m0|] eqn:Hm; [|done]. simpl. intros [= <-].
  pose proof (proj1 (nodes_pass_spec _) Hp _ _ Hm) as Hc. destruct (N.eqb_spec d drive) as [-> |Hd]; [|done]. simpl. case_match; [|done].
  destruct (decide (x = resource)) as [-> |Hx]; [apply untrash_checks; [done|congruence]|]. unfold node_checks in *. simpl. by rewrite (proj2 (N.eqb_neq _ _) Hx).
Qed.

(** a restore whose conditions hold *)
Lemma restore_succeeds actor session drive resource g now t n parent p d :
  nodes t !! (drive, resource) = Some n -> nd_parent n = Some parent -> nodes t !! (drive, parent) = Some p -> is_live p = true -> nd_trash_root n = Some resource ->
  fence t actor session drive resource g now = Ok tt -> drives t !! drive = Some d -> drive_checks (bump_drive_row d) = true -> 0 <= dr_namespace_generation d + 1 ->
  nodes_pass (untrashed drive resource t) = true -> live_names_clash (untrashed drive resource t) = false ->
  exists t2, restore_node actor session drive resource (nd_namespace_generation n) g now t = (Ok tt, t2).
Proof.
  intros Hn Hpar Hp Hl Hr Hf Hd Hch Hg Hpass Hclash. unfold restore_node, set_node_trash_state_tx. rewrite Hf, Hn, Hd. cbn [ok_or]. rewrite Hpar, Z.eqb_refl. unfold same_uuid at 1.
  rewrite Hr, (bool_decide_eq_true_2 (Some resource = Some resource)) by done. simpl. rewrite Hp, Hl. simpl. fold (untrashed drive resource t). rewrite Hpass, Hclash. simpl.
  unfold bump_drive, put_drive. simpl. rewrite Hd. simpl. rewrite Hch. simpl. unfold insert_outbox. rewrite (proj2 (Z.ltb_ge _ _) Hg). by eexists.
Qed.

(** C19. Throwing a node away marks exactly the live nodes at or below it, as one group, and
    leaves every other node alone.  Restoring it at once gives every node the place, name and
    trash state it had before; the restore succeeds whenever its authorization holds, its
    generation is current and its directory is live. *)
Theorem trash_restore_round_trip actor session drive resource expected g now t t1 :
  namespace_ok t -> trash_node actor session drive resource expected g now t = (Ok tt, t1) ->
  (forall d x n, nodes t !! (d, x) = Some n -> exists n1, nodes t1 !! (d, x) = Some n1 /\
     (d = drive /\ (exists k, up (shapes t) d x k = Some resource) /\ is_live n = true -> nd_trash_root n1 = Some resource /\ outline (shape n1) = outline (shape n))
     /\ (~ (d = drive /\ (exists k, up (shapes t) d x k = Some resource) /\ is_live n = true) -> n1 = n))
  /\ (forall actor' session' expected' g' now' t2, restore_node actor' session' drive resource expected' g' now' t1 = (Ok tt, t2) ->
        shapes t2 = shapes t /\ ancestry t2 = ancestry t)
  /\ (forall actor' session' g' now' n parent p d, nodes t !! (drive, resource) = Some n -> nd_parent n = Some parent -> nodes t !! (drive, parent) = Some p -> is_live p = true ->
        fence t1 actor' session' drive resource g' now' = Ok tt -> drives t1 !! drive = Some d -> drive_checks (bump_drive_row d) = true -> expected + 2 <= i64_max ->
        exists t2, restore_node actor' session' drive resource (expected + 1) g' now' t1 = (Ok tt, t2)).
Proof.
  intros Hok Ht. unfold trash_node in Ht. destruct (set_node_trash_state_tx _ _ _ _ _ _ _ _ _) as [[[] t1']|] eqn:Hc; [|done]. injection Ht as <-.
  apply trash_state_Ok in Hc as (n & d & Hn & _ & Hg & _ & (Hl & Hns & Hpass) & _ & _ & Ha & _). pose proof (trash_untrash _ _ _ _ _ _ Hok Hn Hl Hns Ha) as Hback. split_and!.
  - intros d' x m Hm. rewrite Hns, trashed_lookup, Hm. simpl. eexists. split; [done|]. rewrite <-(subtree_up t d' resource x (proj1 Hok)). split.
    + intros (-> & Hs & Hlm). by rewrite N.eqb_refl, Hs, Hlm.
    + intros Hnot. case_match eqn:Hb; [|done]. exfalso. apply Hnot. apply andb_true_iff in Hb as [->%N.eqb_eq [Hs Hlm]%andb_true_iff]. done.
  - intros actor' session' expected' g' now' t2 Ht. unfold restore_node in Ht. destruct (set_node_trash_state_tx _ _ _ _ _ _ _ _ _) as [[[] t2']|] eqn:Hc; [|done]. injection Ht as <-.
    apply trash_state_Ok in Hc as (n' & d' & _ & _ & _ & _ & (_ & _ & Hns' & _) & _ & _ & Ha' & _). unfold shapes at 1. by rewrite Hns', Ha', Ha.
  - intros actor' session' g' now' n' parent p d' Hn' Hpar Hp Hlp Hf Hd Hch Hmax. rewrite Hn in Hn'. injection Hn' as <-.
    assert (in_subtree t drive resource resource = true) as Hself by (apply (subtree_up _ _ _ _ (proj1 Hok)); exists O; simpl; by rewrite shapes_lookup, Hn).
    assert (parent <> resource) as Hne.
    { intros ->. assert (up (shapes t) drive resource 1 = Some resource) as Hu by (cbn [up]; rewrite shapes_lookup, Hn; simpl; rewrite Hpar; by rewrite shapes_lookup, Hn). by apply (tree_acyclic _ _ (proj1 Hok)) in Hu. }
    assert (in_subtree t drive resource parent = false) as Hout.
    { apply not_true_iff_false. intros [k Hk]%(subtree_up _ _ _ _ (proj1 Hok)). assert (up (shapes t) drive resource (S k) = Some resource) as Hu by (cbn [up]; rewrite shapes_lookup, Hn; simpl; by rewrite Hpar).
      by apply (tree_acyclic _ _ (proj1 Hok)) in Hu. }
    assert (nodes t1' !! (drive, resource) = Some (trash_row resource resource (now + dr_trash_retention_days d * DAY_US) n)) as Hn1 by (by rewrite Hns, trashed_lookup, Hn; simpl; rewrite N.eqb_refl, Hself, Hl).
    assert (nodes t1' !! (drive, parent) = Some p) as Hp1 by (by rewrite Hns, trashed_lookup, Hp; simpl; rewrite Hout, andb_false_r).
    assert (nd_namespace_generation (trash_row resource resource (now + dr_trash_retention_days d * DAY_US) n) = expected + 1) as Hgen by (simpl; rewrite N.eqb_refl; lia).
    rewrite <-Hgen. eapply restore_succeeds; try done.
    + unfold drive_checks, positive_i64 in Hch. repeat (apply andb_true_iff in Hch as [Hch _]). apply Z.ltb_lt in Hch. simpl in Hch. lia.
    + eapply untrashed_pass; [exact Hn1|lia|done].
    + eapply shapes_clash; [apply Hok|done].
Qed.
