(* ===== verification/DriveUploads.v ===== *)
(** Uploads, their payloads and the quota of drives along every sequence of transactions:
    each transaction is a sequence of small effects on four tables, and each effect keeps
    the reservations, the payload states and the accounts of the drives in step. *)
From S2P Require Import Prelude Collections Libraries Frames CollaborationStore StorageLayout DriveStore DriveFacts.

Open Scope string_scope.
Open Scope Z_scope.
Open Scope list_scope.
Open Scope bool_scope.
Open Scope filebelt_scope.

(** ** Effects *)

(** bytes in use, bytes reserved and the quota *)
Definition account (d : DriveRecord) : Z * Z * Z := (dr_used_bytes d, dr_reserved_bytes d, dr_quota_bytes d).
Definition accounts (t : Store) : gmap Uuid (Z * Z * Z) := account <$> drives t.

(** two versions have one payload, with its size and digest *)
Definition names_same (v v0 : VersionRow) : Prop := vr_payload v = vr_payload v0 /\ vr_size v = vr_size v0 /\ vr_blake3 v = vr_blake3 v0.
(** the versions and their payloads are as they were, or one more version has the payload of an older one *)
Definition recycled (t t' : Store) : Prop :=
  versions t' = versions t \/ exists id v source v0, versions t !! source = Some v0 /\ names_same v v0 /\ versions t !! id = None /\ versions t' = <[id := v]> (versions t).

Record same_uploads (t t' : Store) : Prop := {
  su_uploads : uploads t' = uploads t;
  su_payloads : payloads t' = payloads t;
  su_quota : quota t' = quota t;
  su_accounts : accounts t' = accounts t
}.

(** upload and payload change their phases together *)
Definition phase_step (s s' : UploadPhase) (p p' : PayloadPhase) : Prop :=
  match s, p, s', p' with
  | UpOpen, PoStaging, UpFinalizing, PoFinalizing | UpFinalizing, PoFinalizing, UpOpen, PoStaging | UpFinalizing, PoFinalizing, UpFinalized, PoFinalized => True
  | _, _, _, _ => False
  end.

Inductive effect (t t' : Store) : Prop :=
| Ef_same : same_uploads t t' -> recycled t t' -> effect t t'
| Ef_touch upload u u' :
    uploads t !! upload = Some u -> uploads t' = <[upload := u']> (uploads t) -> us_state u' = us_state u -> us_drive u' = us_drive u -> us_payload u' = us_payload u ->
    us_declared_size u' = us_declared_size u -> payloads t' = payloads t -> quota t' = quota t -> accounts t' = accounts t -> versions t' = versions t -> effect t t'
| Ef_move upload u u' p p' : moved upload u u' p p' t t' -> phase_step (us_state u) (us_state u') (po_state p) (po_state p') -> effect t t'
| Ef_begin upload u p r d :
    uploads t !! upload = None -> quota t !! upload = None -> payloads t !! us_payload u = None -> uploads t' = <[upload := u]> (uploads t) ->
    payloads t' = <[us_payload u := p]> (payloads t) -> quota t' = <[upload := r]> (quota t) -> accounts t !! us_drive u = Some d ->
    accounts t' = <[us_drive u := (d.1.1, d.1.2 + us_declared_size u, d.2)]> (accounts t) -> us_state u = UpOpen -> po_state p = PoStaging -> po_authority p = "file" ->
    po_drive p = us_drive u -> po_size p = us_declared_size u -> qr_state r = ReservationActive -> qr_drive r = us_drive u -> qr_bytes r = us_declared_size u -> 0 <= us_declared_size u ->
    d.1.1 + d.1.2 + us_declared_size u <= d.2 -> versions t' = versions t -> effect t t'
| Ef_commit upload u p version v d :
    uploads t !! upload = Some u -> payloads t !! us_payload u = Some p -> us_state u = UpFinalized -> po_state p = PoFinalized ->
    uploads t' = <[upload := set_upload UpCommitted (us_fencing_token u) (us_owner_lease u) (us_staging_cleaned_at u) u]> (uploads t) ->
    payloads t' = <[us_payload u := payload_to PoReferenced p]> (payloads t) -> quota t' = alter (set_quota_state ReservationCommitted) upload (quota t) ->
    accounts t !! us_drive u = Some d -> accounts t' = <[us_drive u := (d.1.1 + us_declared_size u, d.1.2 - us_declared_size u, d.2)]> (accounts t) ->
    versions t !! version = None -> versions t' = <[version := v]> (versions t) -> vr_payload v = us_payload u -> vr_size v = us_declared_size u ->
    po_blake3 p = Some (vr_blake3 v) -> effect t t'
| Ef_doom payload_id p s upload u :
    payloads t !! payload_id = Some p -> (po_state p = PoFinalized /\ s = PoDeleteIntent \/ po_state p = PoDeleteIntent /\ s = PoDeleting) ->
    uploads t !! upload = Some u -> us_payload u = payload_id -> us_state u = UpFinalized -> payload_unreferenced t payload_id = true ->
    payloads t' = <[payload_id := payload_to s p]> (payloads t) -> uploads t' = uploads t -> quota t' = quota t -> accounts t' = accounts t -> versions t' = versions t ->
    effect t t'
| Ef_release upload u u' :
    uploads t !! upload = Some u -> us_state u' = UpExpired -> us_drive u' = us_drive u -> us_payload u' = us_payload u -> us_declared_size u' = us_declared_size u ->
    uploads t' = <[upload := u']> (uploads t) -> quota t' = quota (release_quota upload t) -> versions t' = versions t ->
    (us_state u = UpOpen /\ payloads t' = payloads t \/
     us_state u = UpFinalized /\ exists p, payloads t !! us_payload u = Some p /\ po_state p = PoDeleting /\ payloads t' = <[us_payload u := payload_to PoDeleted p]> (payloads t)) ->
    accounts t' = alter (fun d => (d.1.1, Z.max 0 (d.1.2 - us_declared_size u), d.2)) (us_drive u) (accounts t) -> effect t t'.

(** ** Every transaction is a sequence of effects *)

Lemma accounts_insert t t' drive d : drives t' = <[drive := d]> (drives t) -> accounts t' = <[drive := account d]> (accounts t).
Proof. unfold accounts. intros ->. apply fmap_insert. Qed.
Lemma accounts_lookup t drive d : drives t !! drive = Some d -> accounts t !! drive = Some (account d).
Proof. unfold accounts. intros Hd. by rewrite lookup_fmap, Hd. Qed.
(** the account did not change *)
Lemma accounts_kept t t' drive d d' : drives t !! drive = Some d -> drives t' = <[drive := d']> (drives t) -> account d' = account d -> accounts t' = accounts t.
Proof. intros Hd Hi He. rewrite (accounts_insert _ _ _ _ Hi), He. by apply insert_id, accounts_lookup. Qed.
Lemma same_accounts t t' : drives t' = drives t -> accounts t' = accounts t.
Proof. unfold accounts. by intros ->. Qed.

Lemma same_effect t t' : uploads t' = uploads t -> payloads t' = payloads t -> quota t' = quota t -> accounts t' = accounts t -> versions t' = versions t -> effect t t'.
Proof. intros. apply Ef_same; [by split|by left]. Qed.
Lemma unchanged_effect t : effect t t.
Proof. by apply same_effect. Qed.
#[export] Hint Resolve unchanged_effect : core.

Lemma touched_effect t t' : touched t t' -> effect t t'.
Proof.
  intros [-> |(upload & u & u' & Hu & Hu' & Hs & Hd & Hp & Hz & (_ & _ & Hv) & Hq & Hdr & Hpo)]; [done|]. eapply Ef_touch; try done. by apply same_accounts.
Qed.

Lemma create_directory_effect actor session drive parent display key expected g fresh now t :
  effect t (create_directory actor session drive parent display key expected g fresh now t).2.
Proof.
  unfold create_directory. destruct (create_directory_tx _ _ _ _ _ _ _ _ _ _ _) as [[id t']|] eqn:Hc; [|done].
  apply create_directory_Ok in Hc as (_ & p & t1 & _ & _ & _ & _ & Hv & Hp & Hu & Hq & _ & d & Hd & _ & Hdr). apply same_effect; try done. by eapply accounts_kept.
Qed.
Lemma trash_state_effect actor session drive resource expected g trash now t :
  effect t (run_tx t (set_node_trash_state_tx actor session drive resource expected g trash now t)).2.
Proof.
  destruct (set_node_trash_state_tx _ _ _ _ _ _ _ _ _) as [[[] t']|] eqn:Hc; [|done].
  apply trash_state_Ok in Hc as (n & d & _ & Hd & _ & _ & _ & _ & Hdr & _ & Hv & Hp & Hu & Hq & _). apply same_effect; try done. by eapply accounts_kept.
Qed.
Lemma restore_version_effect actor session drive node source head g fresh now t :
  effect t (restore_file_version actor session drive node source head g fresh now t).2.
Proof.
  unfold restore_file_version. destruct (restore_file_version_tx _ _ _ _ _ _ _ _ _ _) as [[id t']|] eqn:Hc; [|done].
  apply restore_version_Ok in Hc as (_ & n & v & ordinal & _ & Hv & _ & _ & _ & _ & _ & _ & (v' & Hv' & _ & _ & Hp' & Hz' & Hb' & _) & Hf & Hp & Hu & Hq & _ & Hdr).
  apply Ef_same; [split; try done; by apply same_accounts|]. right. by exists fresh, v', source, v.
Qed.
Lemma begin_effect q i now t : effect t (begin_upload q i now t).2.
Proof.
  unfold begin_upload. destruct (begin_upload_tx _ _ _ _) as [[id t']|] eqn:Hc; [|done].
  apply begin_upload_Ok in Hc as (_ & (_ & _ & Hv) & Hz & Hu & Hp & Hq & (b & _ & Hp') & (u & Hu' & Hs & Hd & Hpu & Hsz & _) & (r & Hr & Hrs & Hrd & Hrb) & d & Hdr & Hch & Hdr').
  eapply (Ef_begin _ _ (bi_upload i) u (begun_payload q (b_id b) i) r (account d)); try done; try congruence.
  - simpl. congruence.
  - rewrite Hd. by apply accounts_lookup.
  - simpl. rewrite (accounts_insert _ _ _ _ Hdr'), Hd, Hsz. done.
  - unfold drive_checks in Hch. apply andb_true_iff in Hch as [_ Hle]. apply Z.leb_le in Hle. simpl in *. lia.
Qed.
Lemma commit_effect actor session upload token g fresh_node fresh_version now t :
  effect t (commit_upload actor session upload token g fresh_node fresh_version now t).2.
Proof.
  unfold commit_upload. destruct (commit_upload_tx _ _ _ _ _ _ _ _ _) as [[[node version] t']|] eqn:Hc; [|done].
  apply commit_upload_Ok in Hc as (-> & [(u & p & Hu & Hp & _ & _ & Hus & Hps & Hf & Hp' & Hu' & Hq & Hdr & t1 & n & _ & _ & _ & _ & _ & ordinal & v & _ & _ & _ & Hvp & Hvz & Hvb & Hvn & Hv & _) _]).
  apply fence_Ok in Hf as (s & d & n0 & _ & Hd & _). destruct Hdr as [[Hd' _]|(d' & Hd' & _ & Hdr)]; [congruence|].
  eapply (Ef_commit _ _ upload u p fresh_version v (account d')); try done; [by apply accounts_lookup|]. simpl. by rewrite (accounts_insert _ _ _ _ Hdr).
Qed.

Lemma moved_effect upload u u' p p' t t' : moved upload u u' p p' t t' -> phase_step (us_state u) (us_state u') (po_state p) (po_state p') -> effect t t'.
Proof. apply Ef_move. Qed.
Lemma claim_effect upload token owner lease now t : effect t (claim_upload_finalization upload token owner lease now t).2.
Proof.
  destruct (claim_cases upload token owner lease now t) as [-> |(u & u' & p & Hs & Hs' & Hp & Hm)]; [done|]. eapply moved_effect; [exact Hm|]. by rewrite Hs, Hs', Hp.
Qed.
Lemma finalized_effect upload token owner digest now t : effect t (mark_upload_finalized upload token owner digest now t).2.
Proof.
  destruct (finalized_cases upload token owner digest now t) as [-> |(u & u' & p & Hs & Hs' & Hp & Hm)]; [done|]. eapply moved_effect; [exact Hm|]. by rewrite Hs, Hs', Hp.
Qed.
Lemma abort_effect upload token owner t : effect t (abort_upload_finalization upload token owner t).2.
Proof.
  destruct (abort_cases upload token owner t) as [-> |(u & p & Hs & Hp & Hm)]; [done|]. eapply moved_effect; [exact Hm|]. by rewrite Hs, Hp.
Qed.
Lemma part_durable_effect upload part token size digest t : effect t (mark_part_durable upload part token size digest t).2.
Proof. destruct (part_durable_same upload part token size digest t) as [ps ->]. by apply same_effect. Qed.

(** *** Transactions on many rows *)

(** rows of a table, each once *)
Definition rows_of {A} (m : gmap Uuid A) (rows : list (Uuid * A)) : Prop := NoDup rows.*1 /\ forall i a, (i, a) ∈ rows -> m !! i = Some a.

Lemma sublist_rows {A} (m : gmap Uuid A) rows rows' : sublist rows' rows -> rows_of m rows -> rows_of m rows'.
Proof.
  intros Hs [Hn Hr]. split; [eapply sublist_NoDup; [exact Hn|]; by apply fmap_sublist|]. intros i a Hi. apply Hr. by eapply elem_of_sublist.
Qed.
Lemma all_rows {A} (m : gmap Uuid A) : rows_of m (map_to_list m).
Proof. split; [apply NoDup_fst_map_to_list|]. intros i a. by rewrite elem_of_map_to_list. Qed.
Lemma filter_sublist {A} (p : A -> bool) l : sublist (List.filter p l) l.
Proof. induction l as [|x l IH]; simpl; [done|]. destruct (p x); by constructor. Qed.
Lemma filter_rows {A} (m : gmap Uuid A) p : rows_of m (List.filter p (map_to_list m)).
Proof. eapply sublist_rows; [apply filter_sublist|apply all_rows]. Qed.
Lemma ordered_perm {A} `{Ord A} (l : list A) : sort_unstable l ≡ₚ l.
Proof.
  assert (forall x k, sort_insert x k ≡ₚ x :: k) as Hi by (intros x k; induction k as [|y k IH]; simpl; [done|]; case_match; try done; rewrite IH; by constructor).
  induction l as [|x l IH]; simpl; [done|]. by rewrite Hi, IH.
Qed.
Lemma perm_rows {A} (m : gmap Uuid A) rows rows' : rows' ≡ₚ rows -> rows_of m rows -> rows_of m rows'.
Proof. intros Hp [Hn Hr]. split; [by rewrite Hp|]. intros i a. rewrite Hp. apply Hr. Qed.
Lemma rows_cons {A} (m : gmap Uuid A) i a rows : rows_of m ((i, a) :: rows) -> m !! i = Some a /\ (forall b, rows_of (<[i := b]> m) rows) /\ rows_of m rows /\ i ∉ rows.*1.
Proof.
  intros [[Hi Hn]%NoDup_cons Hr]. split; [apply Hr; by left|]. split; [|split; [|done]].
  - intros b. split; [done|]. intros j c Hj. rewrite lookup_insert_ne; [apply Hr; by right|]. intros <-. apply Hi, list_elem_of_fmap. by exists (i, c).
  - split; [done|]. intros j c Hj. apply Hr. by right.
Qed.

(** a loop over rows of uploads whose step has an effect and writes the row *)
Lemma loop_effects (f : Uuid * UploadSession -> Store -> result DatabaseError Store) (all : list (Uuid * UploadSession) -> Store -> result DatabaseError Store) rows (P : UploadSession -> Prop) t t' :
  (forall t, all [] t = Ok t) -> (forall e rest t, all (e :: rest) t = let? t := f e t in all rest t) ->
  (forall i u t t', uploads t !! i = Some u -> P u -> f (i, u) t = Ok t' -> effect t t' /\ exists u', uploads t' = <[i := u']> (uploads t)) ->
  rows_of (uploads t) rows -> (forall e, e ∈ rows -> P e.2) -> all rows t = Ok t' -> rtc effect t t'.
Proof.
  intros Hnil Hcons Hf. revert t. induction rows as [|[i u] rows IH]; intros t Hr HP Ha; [rewrite Hnil in Ha; injection Ha as <-; done|].
  rewrite Hcons in Ha. tx_step Ha. apply rows_cons in Hr as (Hu & Hr & _ & _). apply Hf in Hx as [He [u' Hu']]; [|done|apply (HP (i, u)); by left].
  eapply rtc_l; [exact He|]. apply IH; [rewrite Hu'; apply Hr|intros e Hin; apply HP; by right|done].
Qed.

Lemma reopen_expired_effects now t : rtc effect t (reopen_expired_upload_finalizations now t).2.
Proof.
  unfold reopen_expired_upload_finalizations. destruct (reopen_all _ t) as [t'|] eqn:Hr; [|apply rtc_refl].
  apply (loop_effects (fun e => reopen e.1 e.2) reopen_all (List.filter (fun e => lease_expired e.2 now) (map_to_list (uploads t))) (fun u => us_state u = UpFinalizing)); try done.
  - intros i u t1 t2 Hu Hs Hx. cbn [fst snd] in Hx. apply reopen_Ok in Hx as (p & Hp & Hm); [|done]. split; [eapply moved_effect; [exact Hm|]; by rewrite Hs, Hp|]. destruct Hm as [_ _ Hm _ _ _ _ _ _]. by eexists.
  - apply filter_rows.
  - intros e He. apply list_elem_of_In, filter_In in He as [_ He]. unfold lease_expired in He. apply andb_true_iff in He as [He _]. by breflect.
Qed.

Lemma released_accounts t t' u : match drives t !! us_drive u with
    | Some d => put_drive (us_drive u) (set_drive_quota (dr_used_bytes d) (Z.max 0 (dr_reserved_bytes d - us_declared_size u)) d) t
    | None => Ok t
    end = Ok t' ->
  uploads t' = uploads t /\ payloads t' = payloads t /\ quota t' = quota t /\ versions t' = versions t
  /\ accounts t' = alter (fun d => (d.1.1, Z.max 0 (d.1.2 - us_declared_size u), d.2)) (us_drive u) (accounts t).
Proof.
  destruct (drives t !! us_drive u) as [d|] eqn:Hd.
  - intros [_ ->]%put_drive_Ok. split_and!; try done. erewrite (accounts_insert t) by done. apply map_eq. intros j. destruct (decide (j = us_drive u)) as [-> |Hj].
    + by rewrite lookup_insert_eq, lookup_alter_eq, (accounts_lookup _ _ _ Hd).
    + by rewrite lookup_insert_ne, lookup_alter_ne by done.
  - intros [= <-]. split_and!; try done. apply map_eq. intros j. destruct (decide (j = us_drive u)) as [-> |Hj]; [|by rewrite lookup_alter_ne].
    rewrite lookup_alter_eq. unfold accounts. by rewrite lookup_fmap, Hd.
Qed.

Lemma expire_effects now t : rtc effect t (expire_uploads now t).2.
Proof.
  unfold expire_uploads. destruct (expire_all _ t) as [t'|] eqn:Hr; [|apply rtc_refl].
  eapply (loop_effects expire_upload expire_all _ (fun u => us_state u = UpOpen)); try done; [|apply filter_rows|].
  - intros i u t1 t2 Hu Hs He. unfold expire_upload in He. tx_step He. apply put_upload_Ok in Hx as [_ ->]. tx_step He. injection He as <-.
    apply released_accounts in Hx as (Hup & Hpo & Hq & Hv & Ha). simpl in Hup, Hpo, Hq, Hv, Ha.
    destruct (enqueue_job_same "upload_reconcile" i "expire" a) as [js ->]. split; [|eexists; simpl; rewrite Hup; done].
    eapply (Ef_release _ _ i u (set_upload UpExpired (us_fencing_token u + 1) (us_owner_lease u) (us_staging_cleaned_at u) u)); try done. by left.
  - intros e He. apply list_elem_of_In, filter_In in He as [_ He]. apply andb_true_iff in He as [He _]. by breflect.
Qed.

(** an upload that owns a payload *)
Lemma owning_upload t payload_id : owning_uploads t payload_id <> [] ->
  exists upload u rest r, owning_uploads t payload_id = (upload, u) :: rest /\ uploads t !! upload = Some u /\ us_payload u = payload_id /\ us_state u = UpFinalized
    /\ quota t !! upload = Some r /\ qr_state r = ReservationActive.
Proof.
  destruct (owning_uploads t payload_id) as [|[upload u] rest] eqn:Ho; [done|]. intros _. assert ((upload, u) ∈ owning_uploads t payload_id) as Hin by (rewrite Ho; by left).
  unfold owning_uploads in Hin. apply list_elem_of_In, filter_In in Hin as [Hin Hw]. apply list_elem_of_In, elem_of_map_to_list in Hin. unfold owns_payload in Hw. simpl in Hw.
  apply andb_true_iff in Hw as [[Hp Hs]%andb_true_iff Hq]. apply N.eqb_eq in Hp. breflect. destruct (quota t !! upload) as [r|] eqn:Hr; [|done]. breflect. by exists upload, u, rest, r.
Qed.

Lemma doom_effects t found : rows_of (payloads t) found ->
  (forall e, e ∈ found -> po_state e.2 = PoFinalized /\ owning_uploads t e.1 <> [] /\ payload_unreferenced t e.1 = true) ->
  rtc effect t (set_payloads (foldr (fun e ps => <[e.1 := payload_to PoDeleteIntent e.2]> ps) (payloads t) found) t).
Proof.
  induction found as [|[i p] found IH]; intros Hr Hf; [destruct t; apply rtc_refl|]. apply rows_cons in Hr as (Hp & _ & Hr & Hi).
  eapply rtc_r; [apply IH; [done|intros e He; apply Hf; by right]|]. cbn [foldr fst snd]. destruct (Hf (i, p)) as (Hs & Ho & Hu); [by left|]. cbn [fst snd] in *.
  destruct (owning_upload _ _ Ho) as (upload & u & _ & _ & _ & Hup & Hpu & Hst & _).
  eapply (Ef_doom _ _ i p PoDeleteIntent upload u); try done; [|by left].
  cbn [payloads set_payloads]. clear IH Hf Ho Hr. induction found as [|[j q] found IH]; [done|]. cbn [foldr fst snd]. rewrite fmap_cons, not_elem_of_cons in Hi. destruct Hi as [Hij Hi].
  rewrite lookup_insert_ne by (simpl in Hij; congruence). by apply IH.
Qed.

Lemma enqueue_orphans_effects tenant backend_id grace limit now t : rtc effect t (enqueue_finalized_upload_orphans tenant backend_id grace limit now t).2.
Proof.
  unfold enqueue_finalized_upload_orphans. destruct (_ || _ || _ || _); [apply rtc_refl|]. cbn [snd]. set (rows := List.filter _ _). set (found := take _ _).
  eapply rtc_r; [apply (doom_effects t found)|].
  - eapply sublist_rows; [apply (sublist_take _ (Z.to_nat limit))|]. eapply perm_rows; [apply ordered_perm|apply filter_rows].
  - intros e He. assert (e ∈ rows) as Hin by (eapply elem_of_order, elem_of_sublist; [exact He|apply sublist_take]).
    unfold rows in Hin. apply list_elem_of_In, filter_In in Hin as [_ Ho]. unfold orphan in Ho. apply andb_true_iff in Ho as [[[[_ Hs]%andb_true_iff _]%andb_true_iff Ho]%andb_true_iff Hu].
    apply negb_true_iff in Ho. by breflect.
  - destruct (enqueue_jobs_same "payload_delete" (fun e : Uuid * PayloadObject => e.1) "orphan" (reverse found)
      (set_payloads (foldr (fun e ps => <[e.1 := payload_to PoDeleteIntent e.2]> ps) (payloads t) found) t)) as [js ->]. by apply same_effect.
Qed.

Lemma admit_effect tenant payload_id t : effect t (admit_finalized_upload_orphan_deletion tenant payload_id t).2.
Proof.
  unfold admit_finalized_upload_orphan_deletion. destruct (_ || _); [done|]. destruct (payloads t !! payload_id) as [p|] eqn:Hp; [|done]. destruct (_ && _ && _ && _) eqn:Hb; [|done].
  apply andb_true_iff in Hb as [[[_ Hs]%andb_true_iff Ho]%andb_true_iff Hu]. apply negb_true_iff in Ho. breflect. destruct (owning_upload _ _ Ho) as (upload & u & _ & _ & _ & Hup & Hpu & Hst & _).
  case_bool_decide as Hi; [|done]. destruct (put_payload _ _ t) as [t'|] eqn:Ht; [|done]. apply put_payload_Ok in Ht as [_ ->].
  eapply (Ef_doom _ _ payload_id p PoDeleting upload u); try done. by right.
Qed.

Lemma complete_deletion_effect payload_id t : effect t (complete_orphan_payload_deletion payload_id t).2.
Proof.
  unfold complete_orphan_payload_deletion. destruct (payloads t !! payload_id) as [p|] eqn:Hp; [|done].
  destruct (decide (owning_uploads t payload_id = [])) as [-> |Ho]; [done|]. destruct (owning_upload _ _ Ho) as (upload & u & rest & r & -> & Hup & Hpu & Hst & _).
  case_bool_decide as Hs; [|done]. destruct (put_payload _ _ t) as [t1|] eqn:Ht; [|done]. apply put_payload_Ok in Ht as [_ ->].
  destruct (put_upload _ _ _) as [t2|] eqn:Ht; [|done]. apply put_upload_Ok in Ht as [_ ->]. cbn [drives release_quota set_quota set_uploads set_payloads].
  destruct (drives t !! us_drive u) as [d|] eqn:Hd; [|done]. destruct (us_declared_size u <=? dr_reserved_bytes d) eqn:Hle; [|done]. apply Z.leb_le in Hle.
  destruct (put_drive _ _ _) as [t3|] eqn:Ht; [|done]. apply put_drive_Ok in Ht as [_ ->].
  eapply (Ef_release _ _ upload u (set_upload UpExpired (us_fencing_token u + 1) (us_owner_lease u) None u)); try done.
  - right. split; [done|]. exists p. rewrite Hpu. by split_and!.
  - simpl. erewrite (accounts_insert t) by done. apply map_eq. intros j. destruct (decide (j = us_drive u)) as [-> |Hj]; [|by rewrite lookup_insert_ne, lookup_alter_ne].
    rewrite lookup_insert_eq, lookup_alter_eq, (accounts_lookup _ _ _ Hd). simpl. unfold account. simpl. by rewrite Z.max_r by lia.
Qed.

#[export] Hint Resolve create_directory_effect trash_state_effect restore_version_effect begin_effect part_durable_effect claim_effect finalized_effect abort_effect commit_effect admit_effect complete_deletion_effect : drive.
#[export] Hint Resolve rtc_once touched_effect reopen_expired_effects expire_effects enqueue_orphans_effects : drive.

Lemma op_effects op now t : rtc effect t (run_drive_op op now t).
Proof. destruct op; simpl; unfold trash_node, restore_node; eauto with drive. Qed.

Lemma run_effects t t' : drive_run t t' -> rtc effect t t'.
Proof. induction 1 as [|t t1 t' [op now _] _ IH]; [done|]. etransitivity; [apply op_effects|exact IH]. Qed.

(** ** Reservations *)

Definition contribution (s : ReservationState) (drive : Uuid) (r : QuotaRow) : Z :=
  if bool_decide (qr_state r = s) && N.eqb (qr_drive r) drive then qr_bytes r else 0.
(** the bytes of the reservations of a drive in a state *)
Definition held (s : ReservationState) (drive : Uuid) (q : gmap Uuid QuotaRow) : Z := map_fold (fun _ r total => contribution s drive r + total) 0 q.

Lemma held_new s drive q i r : q !! i = None -> held s drive (<[i := r]> q) = contribution s drive r + held s drive q.
Proof. intros Hi. unfold held. rewrite map_fold_insert_L; [done| |done]. intros. lia. Qed.
Lemma held_change s drive q i r r' : q !! i = Some r -> held s drive (<[i := r']> q) = held s drive q - contribution s drive r + contribution s drive r'.
Proof.
  intros Hi. rewrite <-(insert_delete_id q i r Hi) at 2. rewrite <-insert_delete_eq, !held_new by apply lookup_delete_eq. lia.
Qed.
Lemma contribution_nonneg s drive r : 0 <= qr_bytes r -> 0 <= contribution s drive r.
Proof. unfold contribution. case_match; lia. Qed.
Lemma held_nonneg s drive q : (forall i r, q !! i = Some r -> 0 <= qr_bytes r) -> 0 <= held s drive q.
Proof.
  induction q as [|i r q Hi IH] using map_ind; intros Hq; [done|]. rewrite held_new by done.
  assert (0 <= qr_bytes r) by (apply (Hq i); by rewrite lookup_insert_eq). pose proof (contribution_nonneg s drive r).
  assert (0 <= held s drive q); [|lia]. apply IH. intros j r' Hj. apply (Hq j). rewrite lookup_insert_ne; [done|]. intros <-. congruence.
Qed.
Lemma held_covers s drive q i r : (forall i r, q !! i = Some r -> 0 <= qr_bytes r) -> q !! i = Some r -> contribution s drive r <= held s drive q.
Proof.
  intros Hq Hi. rewrite <-(insert_delete_id q i r Hi), held_new by apply lookup_delete_eq. assert (0 <= held s drive (delete i q)); [|lia].
  apply held_nonneg. intros j r' [_ Hj]%lookup_delete_Some. by eapply Hq.
Qed.

(** ** The invariant *)

(** the states of a payload while its upload is in a state *)
Definition tied (s : UploadPhase) (p : PayloadPhase) : bool :=
  match s, p with
  | UpOpen, PoStaging | UpFinalizing, PoFinalizing | UpFinalized, (PoFinalized | PoDeleteIntent | PoDeleting) | UpCommitted, PoReferenced
  | UpExpired, (PoStaging | PoDeleted) => true
  | _, _ => false
  end.
(** the state of the reservation of an upload *)
Definition due (s : UploadPhase) : ReservationState :=
  match s with UpOpen | UpFinalizing | UpFinalized => ReservationActive | UpCommitted => ReservationCommitted | UpAborted | UpExpired => ReservationReleased end.

Record upload_ok (q : gmap Uuid QuotaRow) (ps : gmap Uuid PayloadObject) (i : Uuid) (u : UploadSession) : Prop := {
  uo_payload : exists p, ps !! us_payload u = Some p /\ po_authority p = "file" /\ po_drive p = us_drive u /\ po_size p = us_declared_size u /\ tied (us_state u) (po_state p) = true;
  uo_quota : exists r, q !! i = Some r /\ qr_drive r = us_drive u /\ qr_bytes r = us_declared_size u /\ qr_state r = due (us_state u)
}.
(** a payload holds the bytes of a version *)
Definition bears (row : VersionRow) (p : PayloadObject) : Prop := po_state p = PoReferenced /\ po_size p = vr_size row /\ po_blake3 p = Some (vr_blake3 row).

Record uploads_ok (t : Store) : Prop := {
  up_each : forall i u, uploads t !! i = Some u -> upload_ok (quota t) (payloads t) i u;
  up_one : forall i j u u', uploads t !! i = Some u -> uploads t !! j = Some u' -> us_payload u = us_payload u' -> i = j;
  up_bytes : forall i r, quota t !! i = Some r -> 0 <= qr_bytes r;
  up_version : forall v row, versions t !! v = Some row -> exists p, payloads t !! vr_payload row = Some p /\ bears row p
}.

(** what a drive has used and reserved beyond its uploads *)
Definition books (t : Store) (drive : Uuid) : option (Z * Z) :=
  (fun d => (d.1.1 - held ReservationCommitted drive (quota t), d.1.2 - held ReservationActive drive (quota t))) <$> accounts t !! drive.

(** one upload changed, with its payload and its reservation *)
Record updated (t t' : Store) (i : Uuid) (u u' : UploadSession) (p p' : PayloadObject) (r r' : QuotaRow) : Prop := {
  ud_upload : uploads t !! i = Some u;
  ud_payload : payloads t !! us_payload u = Some p;
  ud_row : quota t !! i = Some r;
  ud_uploads : uploads t' = <[i := u']> (uploads t);
  ud_payloads : payloads t' = <[us_payload u := p']> (payloads t);
  ud_quota : quota t' = <[i := r']> (quota t);
  ud_same : us_payload u' = us_payload u /\ us_drive u' = us_drive u /\ us_declared_size u' = us_declared_size u;
  ud_file : po_authority p' = po_authority p /\ po_drive p' = po_drive p /\ po_size p' = us_declared_size u;
  ud_tied : tied (us_state u') (po_state p') = true;
  ud_reserved : qr_drive r' = qr_drive r /\ qr_bytes r' = qr_bytes r /\ qr_state r' = due (us_state u');
  ud_referenced : po_state p = PoReferenced -> po_state p' = PoReferenced /\ po_blake3 p' = po_blake3 p;
  ud_versions : forall v row, versions t' !! v = Some row -> versions t !! v = Some row \/ vr_payload row = us_payload u /\ bears row p'
}.

Lemma updated_ok t t' i u u' p p' r r' : uploads_ok t -> updated t t' i u u' p p' r r' -> uploads_ok t'.
Proof.
  intros Hok [Hu Hp Hr Hu' Hp' Hr' (Hsp & Hsd & Hss) (Hfa & Hfd & Hfz) Ht (Hrd & Hrb & Hrs) Href Hv]. destruct (up_each _ Hok _ _ Hu) as [(p0 & Hp0 & Ha & Hd & Hz & _) (r0 & Hr0 & Hd0 & Hb0 & _)].
  rewrite Hp in Hp0. rewrite Hr in Hr0. injection Hp0 as <-. injection Hr0 as <-. split.
  - intros j w Hj. rewrite Hu' in Hj. rewrite Hp', Hr'. destruct (decide (j = i)) as [-> |Hji].
    + rewrite lookup_insert_eq in Hj. injection Hj as <-. split; [exists p'|exists r']; rewrite ?Hsp, lookup_insert_eq; split_and!; congruence.
    + rewrite lookup_insert_ne in Hj by done. destruct (up_each _ Hok _ _ Hj) as [Hwp Hwq]. split; [|by rewrite lookup_insert_ne].
      rewrite lookup_insert_ne; [done|]. intros He. apply Hji. by eapply (up_one _ Hok).
  - intros j k w w' Hj Hk He. rewrite Hu' in Hj, Hk. apply lookup_insert_Some in Hj as [[<- <-]|[Hij Hj]], Hk as [[<- <-]|[Hik Hk]]; [done|..].
    + eapply (up_one _ Hok); [exact Hu|exact Hk|congruence].
    + symmetry. eapply (up_one _ Hok); [exact Hu|exact Hj|congruence].
    + by eapply (up_one _ Hok).
  - intros j w Hj. rewrite Hr' in Hj. apply lookup_insert_Some in Hj as [[_ <-]|[_ Hj]]; [rewrite Hrb|]; by eapply (up_bytes _ Hok).
  - intros v row Hrow. rewrite Hp'. destruct (Hv _ _ Hrow) as [Hold|[-> Hr1]]; [|exists p'; by rewrite lookup_insert_eq].
    destruct (up_version _ Hok _ _ Hold) as (q & Hq & Hqs). destruct (decide (vr_payload row = us_payload u)) as [He|Hne]; [|exists q; by rewrite lookup_insert_ne].
    exists p'. rewrite He, lookup_insert_eq. split; [done|]. rewrite He, Hp in Hq. injection Hq as <-. destruct Hqs as (Hqs & Hqz & Hqb). destruct (Href Hqs). split_and!; congruence.
Qed.

(** what a change of the state of a reservation means for the accounts *)
Definition settled (s s' : ReservationState) (u : UploadSession) (t t' : Store) : Prop :=
  match s, s' with
  | ReservationActive, ReservationCommitted =>
      exists d, accounts t !! us_drive u = Some d /\ accounts t' = <[us_drive u := (d.1.1 + us_declared_size u, d.1.2 - us_declared_size u, d.2)]> (accounts t)
  | ReservationActive, ReservationReleased => accounts t' = alter (fun d => (d.1.1, Z.max 0 (d.1.2 - us_declared_size u), d.2)) (us_drive u) (accounts t)
  | s, s' => s = s' /\ accounts t' = accounts t
  end.

(** what an effect does, when the invariant holds *)
Lemma effect_cases t t' : uploads_ok t -> effect t t' ->
  (same_uploads t t' /\ recycled t t')
  \/ (exists upload u p r d, uploads t !! upload = None /\ quota t !! upload = None /\ payloads t !! us_payload u = None /\ uploads t' = <[upload := u]> (uploads t)
        /\ payloads t' = <[us_payload u := p]> (payloads t) /\ quota t' = <[upload := r]> (quota t) /\ versions t' = versions t /\ upload_ok (quota t') (payloads t') upload u
        /\ accounts t !! us_drive u = Some d /\ accounts t' = <[us_drive u := (d.1.1, d.1.2 + us_declared_size u, d.2)]> (accounts t) /\ qr_state r = ReservationActive
        /\ qr_drive r = us_drive u /\ qr_bytes r = us_declared_size u /\ 0 <= us_declared_size u /\ d.1.1 + d.1.2 + us_declared_size u <= d.2)
  \/ exists i u u' p p' r r', updated t t' i u u' p p' r r' /\ qr_state r = due (us_state u) /\ qr_drive r = us_drive u /\ qr_bytes r = us_declared_size u
       /\ settled (qr_state r) (qr_state r') u t t'.
Proof.
  intros Hok He. destruct He as [|upload u u' Hu Hu' Hs Hd Hp Hz Hpo Hq Hac Hv|upload u u' p p' [Hu Hp Hu' Hp' (_ & _ & Hv) Hq Hdr Hsame [Hka Hkd] Hkz] Hs
    |upload u p r d Hu Hq Hp Hu' Hp' Hq' Hd Hac Hus Hps Ha Hpd Hpz Hrs Hrd Hrb Hz Hfit Hv|upload u p version v d Hu Hp Hus Hps Hu' Hp' Hq Hd Hac Hvn Hv Hvp Hvz Hvb
    |payload_id p s upload u Hp Hs Hu <- Hus Hf Hp' Hu' Hq Hac Hv|upload u u' Hu Hs Hd Hp Hz Hu' Hq Hv Hcase Hac]; [by left|right; right|right; right|right; left|right; right|right; right|right; right].
  3: { exists upload, u, p, r, d. split_and!; try done. split; [exists p|exists r]; rewrite ?Hp', ?Hq', lookup_insert_eq; split_and!; try done; [by rewrite Hus, Hps|by rewrite Hus]. }
  all: destruct (up_each _ Hok _ _ Hu) as [(p0 & Hp0 & Hfile & Hown & Hsz & Ht) (r & Hr & Hrd & Hrb & Hrs)].
  - exists upload, u, u', p0, p0, r, r. split_and!; try done; [|by destruct (qr_state r)]. split; try done; [by rewrite insert_id|by rewrite insert_id|by rewrite Hs|by rewrite Hs|].
    intros w row. rewrite Hv. by left.
  - rewrite Hp in Hp0. injection Hp0 as <-. exists upload, u, u', p, p', r, r. apply same_accounts in Hdr. split_and!; try done; [|by destruct (qr_state r)].
    split; try done; [by rewrite insert_id|by destruct Hsame as (? & ? & ?)|split_and!; [done..|by destruct Hkz as [->|]]|by destruct (us_state u), (us_state u'), (po_state p), (po_state p')| |by intros Hpr; rewrite Hpr in Hs; destruct (us_state u)|intros w row; rewrite Hv; by left].
    split_and!; try done. rewrite Hrs. by destruct (us_state u), (us_state u'), (po_state p), (po_state p').
  - rewrite Hp in Hp0. injection Hp0 as <-. rewrite Hus in Hrs. eexists upload, u, _, p, _, r, (set_quota_state ReservationCommitted r). split_and!; [split; try done|by rewrite Hus|done..|rewrite Hrs; simpl; by exists d].
    + apply map_eq. intros j. rewrite Hq. destruct (decide (j = upload)) as [-> |Hj]; [by rewrite lookup_alter_eq, Hr, lookup_insert_eq|by rewrite lookup_alter_ne, lookup_insert_ne].
    + intros w row. rewrite Hv. intros [[_ <-]|[_ Hw]]%lookup_insert_Some; [right|by left]. split; [done|]. split_and!; simpl; congruence.
  - rewrite Hp in Hp0. injection Hp0 as <-. eexists upload, u, u, p, _, r, r. split_and!; [split; try done|done..|by destruct (qr_state r)].
    + by rewrite insert_id.
    + by rewrite insert_id.
    + rewrite Hus. by destruct Hs as [[_ ->]|[_ ->]].
    + intros Hpr. rewrite Hpr in Hs. by destruct Hs as [[? _]|[? _]].
    + intros w row. rewrite Hv. by left.
  - assert (due (us_state u) = ReservationActive) as Hdue by (by destruct Hcase as [[-> _]|[-> _]]). rewrite Hdue in Hrs.
    assert (exists p', payloads t' = <[us_payload u := p']> (payloads t) /\ po_authority p' = po_authority p0 /\ po_drive p' = po_drive p0 /\ po_size p' = us_declared_size u /\ tied UpExpired (po_state p') = true /\ po_state p0 <> PoReferenced)
      as (p' & Hp' & Hpa & Hpd & Hpz & Hpt & Hpr).
    { destruct Hcase as [[Hus Hpo]|[Hus (p & Hpp & Hps & Hpo)]]; rewrite Hus in Ht.
      - exists p0. rewrite insert_id by done. destruct (po_state p0); by split_and!.
      - rewrite Hpp in Hp0. injection Hp0 as <-. exists (payload_to PoDeleted p). rewrite Hps. by split_and!. }
    exists upload, u, u', p0, p', r, (set_quota_state ReservationReleased r). split_and!; [split; try done|congruence|done..|rewrite Hrs; simpl; done].
    + apply map_eq. intros j. rewrite Hq. simpl. destruct (decide (j = upload)) as [-> |Hj]; [|by rewrite lookup_alter_ne, lookup_insert_ne].
      rewrite lookup_alter_eq, Hr, lookup_insert_eq. simpl. by rewrite bool_decide_eq_true_2.
    + by rewrite Hs.
    + split_and!; try done. by rewrite Hs.
    + intros w row. rewrite Hv. by left.
Qed.

(** ** Preservation *)

Lemma effect_ok t t' : uploads_ok t -> effect t t' -> uploads_ok t'.
Proof.
  intros Hok He. destruct (effect_cases _ _ Hok He) as [[[Hu Hp Hq _] Hv]|[(upload & u & p & r & d & Hu & Hq & Hp & Hu' & Hp' & Hq' & Hv & Hnew & _ & _ & _ & _ & Hrb & Hz & _)|(i & u & u' & p & p' & r & r' & Hup & _)]];
    [| |by eapply updated_ok].
  - split; [rewrite Hu, Hp, Hq; apply Hok|rewrite Hu; apply Hok|rewrite Hq; apply Hok|]. rewrite Hp. intros v row Hrow. destruct Hv as [Hv|(id & v' & source & v0 & Hs & He' & _ & Hv)]; rewrite Hv in Hrow; [by eapply Hok|].
    apply lookup_insert_Some in Hrow as [[_ <-]|[_ Hrow]]; [|by eapply Hok]. destruct He' as (He1 & He2 & He3). unfold bears. rewrite He1, He2, He3. by eapply Hok.
  - assert (forall j w, uploads t !! j = Some w -> us_payload w <> us_payload u) as Hne.
    { intros j w Hj He'. destruct (up_each _ Hok _ _ Hj) as [(q & Hq0 & _) _]. rewrite He' in Hq0. congruence. }
    split.
    + rewrite Hu'. intros j w [[<- <-]|[Hj Hw]]%lookup_insert_Some; [done|]. destruct (up_each _ Hok _ _ Hw) as [Hwp Hwq]. rewrite Hp', Hq'. split; [|by rewrite lookup_insert_ne].
      rewrite lookup_insert_ne; [done|]. intros He'. by eapply Hne.
    + rewrite Hu'. intros j k w w' [[<- <-]|[Hj Hw]]%lookup_insert_Some [[<- <-]|[Hk Hw']]%lookup_insert_Some He'; [done|..].
      * by apply Hne in Hw'.
      * by apply Hne in Hw.
      * by eapply (up_one _ Hok).
    + rewrite Hq'. intros j w [[_ <-]|[_ Hw]]%lookup_insert_Some; [lia|by eapply (up_bytes _ Hok)].
    + rewrite Hv, Hp'. intros v row Hrow. destruct (up_version _ Hok _ _ Hrow) as (q & Hq0 & Hs). exists q. split; [|done]. rewrite lookup_insert_ne; [done|]. congruence.
Qed.

(** the accounts are within the quota, and reservations of uploads are part of what is reserved *)
Definition solvent (t : Store) : Prop :=
  forall drive a, accounts t !! drive = Some a -> 0 <= a.1.1 /\ held ReservationActive drive (quota t) <= a.1.2 /\ a.1.1 + a.1.2 <= a.2.

Lemma contribution_of s drive u r : qr_drive r = us_drive u -> qr_bytes r = us_declared_size u ->
  contribution s drive r = if bool_decide (qr_state r = s) && N.eqb (us_drive u) drive then us_declared_size u else 0.
Proof. unfold contribution. by intros -> ->. Qed.

(** what a reservation that changes its state adds to the total of a state *)
Definition delta (s s' kind : ReservationState) (u : UploadSession) (drive : Uuid) : Z :=
  if N.eqb (us_drive u) drive then (if bool_decide (s' = kind) then us_declared_size u else 0) - (if bool_decide (s = kind) then us_declared_size u else 0) else 0.

Lemma settled_accounts s s' u t t' : settled s s' u t t' -> (forall a, s = ReservationActive -> accounts t !! us_drive u = Some a -> us_declared_size u <= a.1.2) ->
  forall drive, accounts t' !! drive = (fun b => (b.1.1 + delta s s' ReservationCommitted u drive, b.1.2 + delta s s' ReservationActive u drive, b.2)) <$> accounts t !! drive.
Proof.
  intros Ha Hcov drive. assert (forall b : Z * Z * Z, b = (b.1.1, b.1.2, b.2)) as Hpair by (by intros [[]]). unfold delta.
  destruct (N.eqb_spec (us_drive u) drive) as [<-|Hne].
  - destruct s, s'; simpl in Ha |- *.
    2: { destruct Ha as (d & Hd & ->). rewrite lookup_insert_eq, Hd. simpl. do 3 f_equal; lia. }
    2: { rewrite Ha, lookup_alter_eq. destruct (accounts t !! us_drive u) as [b|] eqn:Hb; [|done]. simpl. specialize (Hcov _ eq_refl eq_refl). do 3 f_equal; lia. }
    all: destruct Ha as [He ->]; first [done|destruct (accounts t !! us_drive u) as [b|]; [|done]; simpl; rewrite (Hpair b) at 1; do 3 f_equal; lia].
  - assert (accounts t' !! drive = accounts t !! drive) as ->.
    { destruct s, s'; simpl in Ha; [|destruct Ha as (d & _ & ->); by rewrite lookup_insert_ne|rewrite Ha; by rewrite lookup_alter_ne|..]; by destruct Ha as [_ ->]. }
    destruct (accounts t !! drive) as [b|]; [|done]. simpl. rewrite (Hpair b) at 1. do 3 f_equal; lia.
Qed.

Lemma effect_books t t' : uploads_ok t -> solvent t -> effect t t' -> solvent t' /\ forall drive, books t' drive = books t drive.
Proof.
  intros Hok Hs He. destruct (effect_cases _ _ Hok He) as [[[_ _ Hq Ha] _]|[(upload & u & p & r & d & _ & Hq & _ & _ & _ & Hq' & _ & _ & Hd & Ha & Hrs & Hrd & Hrb & Hz & Hfit)|(i & u & u' & p & p' & r & r' & Hup & Hrs & Hrd & Hrb & Ha)]].
  - unfold solvent, books. by rewrite Hq, Ha.
  - assert (forall s drive, held s drive (quota t') = held s drive (quota t) + if bool_decide (ReservationActive = s) && N.eqb (us_drive u) drive then us_declared_size u else 0) as Hh.
    { intros s drive. rewrite Hq', held_new by done. rewrite (contribution_of _ _ u) by done. rewrite Hrs. lia. }
    split; [intros drive a|intros drive; unfold books]; rewrite Ha, !Hh; (destruct (N.eqb_spec (us_drive u) drive) as [<-|Hne]; [rewrite lookup_insert_eq|rewrite lookup_insert_ne by done]); simpl.
    + intros [= <-]. simpl. destruct (Hs _ _ Hd). lia.
    + intros Ha'. destruct (Hs _ _ Ha'). lia.
    + rewrite Hd. simpl. do 2 f_equal; lia.
    + rewrite !Z.add_0_r. done.
  - destruct Hup as [Hu _ Hr _ _ Hq' _ _ _ (Hrd' & Hrb' & _) _ _]. pose proof (up_bytes _ Hok _ _ Hr) as Hz. rewrite Hrb in Hz.
    assert (forall kind drive, held kind drive (quota t') = held kind drive (quota t) + delta (qr_state r) (qr_state r') kind u drive) as Hh.
    { intros kind drive. rewrite Hq', (held_change _ _ _ _ _ _ Hr). rewrite !(contribution_of _ _ u) by congruence. unfold delta. destruct (N.eqb _ _); rewrite ?andb_true_r, ?andb_false_r; lia. }
    pose proof (held_covers ReservationActive (us_drive u) _ _ _ (up_bytes _ Hok) Hr) as Hcov. rewrite (contribution_of _ _ u), N.eqb_refl, andb_true_r in Hcov by done.
    opose proof (settled_accounts _ _ _ _ _ Ha _) as Hacc; [intros a Hact Hd; destruct (Hs _ _ Hd); rewrite Hact in Hcov; simpl in Hcov; lia|].
    split; [intros drive a|intros drive; unfold books]; rewrite Hacc, !Hh.
    + destruct (accounts t !! drive) as [b|] eqn:Hb; [|done]. intros [= <-]. destruct (Hs _ _ Hb) as (H1 & H2 & H3). simpl. unfold delta.
      destruct (N.eqb_spec (us_drive u) drive) as [<-|Hne]; [|lia]. unfold settled in Ha. destruct (qr_state r), (qr_state r'); simpl in *; try lia; by destruct Ha as [Ha _].
    + destruct (accounts t !! drive) as [b|]; [|done]. simpl. do 2 f_equal; lia.
Qed.

Lemma run_ok t t' : uploads_ok t -> drive_run t t' -> uploads_ok t'.
Proof. intros Hok Hr%run_effects. induction Hr as [|t t1 t' He _ IH]; [done|]. apply IH. by eapply effect_ok. Qed.

(** C16. Along every sequence of the transactions of [DriveOp] on drives (the reconciling and
    quarantining of maintenance are not among them), whatever succeeds or fails: each
    upload keeps one reservation whose state follows its own, each upload and its payload
    are in states that belong together and no two uploads share a payload; the bytes a drive
    has reserved (used) minus the active (committed) reservations of its uploads never
    change, so that every byte reserved is spent or given back exactly once; and what is
    used and reserved stays within the quota. *)
Theorem uploads_account_exactly t t' : uploads_ok t -> solvent t -> drive_run t t' ->
  uploads_ok t' /\ solvent t' /\ forall drive, books t' drive = books t drive.
Proof.
  intros Hok Hs Hr%run_effects. induction Hr as [|t t1 t' He _ IH]; [done|]. destruct (effect_books _ _ Hok Hs He) as [Hs1 Hb].
  destruct (IH (effect_ok _ _ Hok He) Hs1) as (Hok' & Hs' & Hb'). split_and!; try done. intros drive. by rewrite Hb'.
Qed.

(** C17. The payload of a version is never reclaimed: at every later point, after any
    transactions of [DriveOp] (uploads, commits, expirations, orphan deletions and the rest;
    the quarantining of damaged payloads is not among them), every version has a payload in the
    referenced state with the size and the digest that the version records, so that a read
    of it finds its bytes. *)
Theorem referenced_payload_never_deleted t t' tenant drive version row n : uploads_ok t -> drive_run t t' -> versions t' !! version = Some row ->
  nodes t' !! (drive, vr_node row) = Some n ->
  exists r, payload_for_node_tx tenant drive (vr_node row) version t' = Ok r /\ p_size_bytes r = vr_size row /\ p_blake3 r = Some (vr_blake3 row).
Proof.
  intros Hok Hr Hv Hn. destruct (up_version _ (run_ok _ _ Hok Hr) _ _ Hv) as (p & Hp & Hs & Hz & Hb). exists (payload_record tenant (vr_payload row) p).
  unfold payload_for_node_tx. rewrite Hn, Hv. cbn [ok_or]. rewrite Hp. cbn [ok_or]. rewrite N.eqb_refl, Hs. by split_and!.
Qed.
