(* ===== verification/DriveHistory.v ===== *)
(** The versions of files: they are only ever added, the versions of a file are numbered
    without gaps and its head is the last one, and of two saves over one head at most one
    succeeds. *)
From S2P Require Import Prelude Collections Libraries Frames CollaborationStore StorageLayout DriveStore DriveFacts.

Open Scope string_scope.
Open Scope Z_scope.
Open Scope list_scope.
Open Scope bool_scope.
Open Scope filebelt_scope.

(** ** What a transaction does to heads and versions *)

Definition heads (t : Store) : gmap (Uuid * Uuid) (option Uuid) := nd_head <$> nodes t.

Lemma heads_lookup t key : heads t !! key = nd_head <$> nodes t !! key.
Proof. apply lookup_fmap. Qed.

Inductive history_change (t t' : Store) : Prop :=
| Hc_same : heads t' = heads t -> versions t' = versions t -> history_change t t'
| Hc_node drive fresh : unused_node t fresh -> heads t' = <[(drive, fresh) := None]> (heads t) -> versions t' = versions t -> history_change t t'
| Hc_version drive node version row : (is_Some (nodes t !! (drive, node)) \/ unused_node t node) -> versions t !! version = None -> vr_node row = node ->
    next_ordinal t node = Ok (vr_ordinal row) -> heads t' = <[(drive, node) := Some version]> (heads t) -> versions t' = <[version := row]> (versions t) -> history_change t t'.

Lemma heads_kept (ns : gmap (Uuid * Uuid) NodeRow) key n n' : ns !! key = Some n -> nd_head n' = nd_head n -> nd_head <$> <[key := n']> ns = nd_head <$> ns.
Proof. intros Hn Hh. rewrite fmap_insert, Hh. apply insert_id. by rewrite lookup_fmap, Hn. Qed.

Lemma update_nodes_heads drive p f ns : (forall id n, nd_head (f id n) = nd_head n) -> nd_head <$> update_nodes drive p f ns = nd_head <$> ns.
Proof. intros Hf. apply map_eq. intros key. rewrite !lookup_fmap, update_nodes_lookup. destruct (ns !! key) as [n|]; [|done]. simpl. case_match; [by rewrite Hf|done]. Qed.

Lemma create_directory_change actor session drive parent display key expected g fresh now t : unused_node t fresh ->
  history_change t (create_directory actor session drive parent display key expected g fresh now t).2.
Proof.
  intros Hf. unfold create_directory. destruct (create_directory_tx _ _ _ _ _ _ _ _ _ _ _) as [[id t']|] eqn:Hc; [|by apply Hc_same].
  apply create_directory_Ok in Hc as (_ & p & t1 & Hp & [Hnew _ _ Hns _ _] & Hn & _ & Hv & _). eapply (Hc_node _ _ drive fresh); [done| |done]. simpl. unfold heads. rewrite Hn, (heads_kept _ _ p); [by rewrite Hns, fmap_insert| |done].
  rewrite Hns, lookup_insert_ne; [done|]. intros [= ->]. congruence.
Qed.
Lemma trash_state_change actor session drive resource expected g trash now t :
  history_change t (run_tx t (set_node_trash_state_tx actor session drive resource expected g trash now t)).2.
Proof.
  destruct (set_node_trash_state_tx _ _ _ _ _ _ _ _ _) as [[[] t']|] eqn:Hc; [|by apply Hc_same].
  apply trash_state_Ok in Hc as (n & d & _ & _ & _ & _ & Hcase & _ & _ & _ & Hv & _). apply Hc_same; [|done]. simpl. unfold heads.
  destruct trash; [destruct Hcase as (_ & -> & _)|destruct Hcase as (_ & _ & -> & _)]; by apply update_nodes_heads.
Qed.
Lemma restore_version_change actor session drive node source head g fresh now t :
  history_change t (restore_file_version actor session drive node source head g fresh now t).2.
Proof.
  unfold restore_file_version. destruct (restore_file_version_tx _ _ _ _ _ _ _ _ _ _) as [[id t']|] eqn:Hc; [|by apply Hc_same].
  apply restore_version_Ok in Hc as (_ & n & v & ordinal & Hn & _ & _ & _ & _ & Ho & Hns & _ & (v' & Hv' & Hvn & Hvo & _) & Hfree & _).
  eapply (Hc_version _ _ drive node fresh v'); try done; [left; by eexists|congruence|]. simpl. unfold heads. by rewrite Hns, fmap_insert.
Qed.
Lemma commit_change actor session upload token g fresh_node fresh_version now t : unused_node t fresh_node ->
  history_change t (commit_upload actor session upload token g fresh_node fresh_version now t).2.
Proof.
  intros Hf. unfold commit_upload. destruct (commit_upload_tx _ _ _ _ _ _ _ _ _) as [[[node version] t']|] eqn:Hc; [|by apply Hc_same].
  apply commit_upload_Ok in Hc as (-> & [(u & p & _ & _ & _ & _ & _ & _ & _ & _ & _ & _ & _ & t1 & n & Hnode & Hn1 & _ & Hn & _ & ordinal & v & Ho & Hvn & Hvo & _ & _ & _ & Hfree & Hv & _) _]).
  eapply (Hc_version _ _ (us_drive u) node fresh_version v); try done; [|congruence|].
  - destruct (us_node u); [destruct Hnode as (-> & -> & _); left; by eexists|]. destruct Hnode as [-> _]. by right.
  - simpl. unfold heads. rewrite Hn, fmap_insert. destruct (us_node u); [by destruct Hnode as (_ & -> & _)|]. destruct Hnode as [-> [_ _ _ Hns _ _]]. by rewrite Hns, fmap_insert, insert_insert_eq.
Qed.

Lemma op_change op now t : draws_new op t -> history_change t (run_drive_op op now t).
Proof.
  intros Hd. destruct (files_op op) eqn:Hf.
  - destruct op; try done; simpl in *; unfold trash_node, restore_node; auto using create_directory_change, trash_state_change, restore_version_change, commit_change.
  - destruct (other_op_same op now t Hf) as (Hn & _ & Hv). apply Hc_same; [|done]. unfold heads. by rewrite Hn.
Qed.

(** ** The invariant *)

Definition last_version (t : Store) (node : Uuid) (head : option Uuid) : Prop :=
  match head with
  | Some h => exists row, versions t !! h = Some row /\ vr_node row = node /\ forall v' row', versions t !! v' = Some row' -> vr_node row' = node -> vr_ordinal row' <= vr_ordinal row
  | None => forall v row, versions t !! v = Some row -> vr_node row <> node
  end.

Record history_ok (t : Store) : Prop := {
  hs_unique : forall d d' x, is_Some (heads t !! (d, x)) -> is_Some (heads t !! (d', x)) -> d = d';
  hs_first : forall v row, versions t !! v = Some row -> 1 <= vr_ordinal row;
  hs_gapless : forall v row, versions t !! v = Some row -> 1 < vr_ordinal row -> exists v' row', versions t !! v' = Some row' /\ vr_node row' = vr_node row /\ vr_ordinal row' = vr_ordinal row - 1;
  hs_ordinal : forall v v' row row', versions t !! v = Some row -> versions t !! v' = Some row' -> vr_node row = vr_node row' -> vr_ordinal row = vr_ordinal row' -> v = v';
  hs_head : forall d x head, heads t !! (d, x) = Some head -> last_version t x head
}.

Lemma next_ordinal_spec t node o : next_ordinal t node = Ok o ->
  (forall v row, versions t !! v = Some row -> vr_node row = node -> vr_ordinal row < o) /\ (o = 1 \/ exists v row, versions t !! v = Some row /\ vr_node row = node /\ vr_ordinal row = o - 1) /\ 1 <= o.
Proof.
  unfold next_ordinal, i64_add. intros (Ho & _)%ok_or_Ok%checked_Some. set (m := foldr _ _ _) in Ho.
  assert (forall l, let m := foldr (fun v m => if N.eqb (vr_node v) node then Z.max (vr_ordinal v) m else m) 0 l in
    0 <= m /\ (forall v, v ∈ l -> vr_node v = node -> vr_ordinal v <= m) /\ (m = 0 \/ exists v, v ∈ l /\ vr_node v = node /\ vr_ordinal v = m)) as Hm.
  { intros l. induction l as [|v l (Hz & Hle & Hex)]; simpl; [split_and!; [done|set_solver|by left]|]. destruct (N.eqb_spec (vr_node v) node) as [Hn|Hn].
    - split_and!; [lia|intros w [-> |Hw]%elem_of_cons Hwn; [lia|]; specialize (Hle _ Hw Hwn); lia|]. destruct (Z.max_spec (vr_ordinal v) (foldr (fun v m => if N.eqb (vr_node v) node then Z.max (vr_ordinal v) m else m) 0 l)) as [[_ ->]|[_ ->]].
      + destruct Hex as [Hex|(w & Hw & Hex)]; [by left|right; exists w; set_solver].
      + right. exists v. set_solver.
    - split_and!; [done|intros w [-> |Hw]%elem_of_cons Hwn; [done|by apply Hle]|]. destruct Hex as [Hex|(w & Hw & Hex)]; [by left|right; exists w; set_solver]. }
  destruct (Hm (map snd (map_to_list (versions t)))) as (Hz & Hle & Hex). fold m in Hz, Hle, Hex.
  assert (forall v row, versions t !! v = Some row -> row ∈ map snd (map_to_list (versions t))) as Hin.
  { intros v row Hv. apply list_elem_of_fmap. exists (v, row). split; [done|]. by apply elem_of_map_to_list. }
  split_and!; [|destruct Hex as [Hex|(row & Hrow & Hn & Hr)]; [left; lia|right]|lia].
  - intros v row Hv Hn. specialize (Hle row (Hin _ _ Hv) Hn). lia.
  - apply list_elem_of_fmap in Hrow as ([v row'] & -> & Hv). apply elem_of_map_to_list in Hv. exists v, row'. split_and!; [done|done|simpl in Hr; lia].
Qed.

Lemma unused_heads t x d : unused_node t x -> heads t !! (d, x) = None.
Proof. intros [Hn _]. by rewrite heads_lookup, Hn. Qed.

Lemma node_change_ok t t' drive fresh : history_ok t -> unused_node t fresh -> heads t' = <[(drive, fresh) := None]> (heads t) -> versions t' = versions t -> history_ok t'.
Proof.
  intros Hok Hf Hh Hv. split.
  - intros d d' x. rewrite Hh, !lookup_insert_is_Some. intros [He1|[_ H1]] [He2|[_ H2]]; [congruence| | |by eapply (hs_unique _ Hok)].
    + injection He1 as <- <-. rewrite (unused_heads _ _ _ Hf) in H2. by destruct H2.
    + injection He2 as <- <-. rewrite (unused_heads _ _ _ Hf) in H1. by destruct H1.
  - rewrite Hv. apply Hok.
  - rewrite Hv. apply Hok.
  - rewrite Hv. apply Hok.
  - intros d x head. rewrite Hh. unfold last_version. rewrite Hv. intros [[[= <- <-] <-]|[_ Hx]]%lookup_insert_Some; [apply Hf|by eapply (hs_head _ Hok)].
Qed.

Lemma version_change_ok t t' drive node version row : history_ok t -> (is_Some (nodes t !! (drive, node)) \/ unused_node t node) -> versions t !! version = None -> vr_node row = node ->
  next_ordinal t node = Ok (vr_ordinal row) -> heads t' = <[(drive, node) := Some version]> (heads t) -> versions t' = <[version := row]> (versions t) -> history_ok t'.
Proof.
  intros Hok Hnode Hfree Hn (Hmax & Hprev & Hpos)%next_ordinal_spec Hh Hv.
  assert (forall d, is_Some (heads t !! (d, node)) -> d = drive) as Honly.
  { intros d Hd. destruct Hnode as [Hx|Hx]; [|rewrite (unused_heads _ _ _ Hx) in Hd; by destruct Hd]. eapply (hs_unique _ Hok); [exact Hd|]. rewrite heads_lookup. by destruct Hx as [? ->]. }
  assert (forall v w, versions t !! v = Some w -> v <> version) as Hne by congruence.
  split.
  - intros d d' x. rewrite Hh, !lookup_insert_is_Some. intros [He1|[_ H1]] [He2|[_ H2]]; [congruence|injection He1 as <- <-; symmetry; by apply Honly|injection He2 as <- <-; by apply Honly|by eapply (hs_unique _ Hok)].
  - rewrite Hv. intros v w [[_ <-]|[_ Hw]]%lookup_insert_Some; [done|by eapply (hs_first _ Hok)].
  - rewrite Hv. intros v w [[_ <-]|[_ Hw]]%lookup_insert_Some Ho.
    + destruct Hprev as [Hp|(v' & row' & Hv' & Hn' & Ho')]; [lia|]. exists v', row'. rewrite lookup_insert_ne by (by eapply not_eq_sym, Hne). split_and!; congruence.
    + destruct (hs_gapless _ Hok _ _ Hw Ho) as (v' & row' & Hv' & Hr). exists v', row'. by rewrite lookup_insert_ne by (by eapply not_eq_sym, Hne).
  - rewrite Hv. intros v v' w w' [[<- <-]|[_ Hw]]%lookup_insert_Some [[<- <-]|[_ Hw']]%lookup_insert_Some He Ho; [done|..|by eapply (hs_ordinal _ Hok)].
    + specialize (Hmax _ _ Hw'). rewrite <-He, Hn in Hmax. specialize (Hmax eq_refl). lia.
    + specialize (Hmax _ _ Hw). rewrite He, Hn in Hmax. specialize (Hmax eq_refl). lia.
  - intros d x head. rewrite Hh. intros [[[= <- <-] <-]|[Hdx Hx]]%lookup_insert_Some.
    + exists row. rewrite Hv, lookup_insert_eq. split_and!; [done|done|]. intros v' row' [[_ <-]|[_ Hv']]%lookup_insert_Some Hr; [done|]. specialize (Hmax _ _ Hv' Hr). lia.
    + assert (x <> node) as Hxn by (intros ->; apply Hdx; f_equal; symmetry; apply Honly; by eexists). apply (hs_head _ Hok) in Hx. unfold last_version in *. rewrite Hv. destruct head as [h|].
      * destruct Hx as (r & Hr & Hrn & Hlast). exists r. rewrite lookup_insert_ne by (by eapply not_eq_sym, Hne). split_and!; [done|done|]. intros v' row' [[_ <-]|[_ Hv']]%lookup_insert_Some Hrx; [congruence|by eapply Hlast].
      * intros v w [[_ <-]|[_ Hw]]%lookup_insert_Some; [congruence|by eapply Hx].
Qed.

Lemma change_ok t t' : history_ok t -> history_change t t' -> history_ok t'.
Proof.
  intros Hok [Hh Hv|drive fresh Hf Hh Hv|drive node version row Hnode Hfree Hn Ho Hh Hv]; [|by eapply node_change_ok|by eapply version_change_ok].
  split; unfold last_version; rewrite ?Hh, ?Hv; apply Hok.
Qed.

(** ** Order *)

Definition rank (t : Store) (head : option Uuid) : Z := match head with Some h => match versions t !! h with Some row => vr_ordinal row | None => 0 end | None => 0 end.

(** the history moved on: versions are kept, heads move forward *)
Record advanced (t t' : Store) : Prop := {
  fw_versions : versions t ⊆ versions t';
  fw_heads : forall d x head, heads t !! (d, x) = Some head -> exists head', heads t' !! (d, x) = Some head' /\ (head' = head \/ rank t' head < rank t' head')
}.

Lemma rank_kept t t' d x head : history_ok t -> versions t ⊆ versions t' -> heads t !! (d, x) = Some head -> rank t' head = rank t head.
Proof.
  intros Hok Hs Hh. apply (hs_head _ Hok) in Hh. destruct head as [h|]; [|done]. destruct Hh as (row & Hr & _). simpl. rewrite Hr. by rewrite (lookup_weaken _ _ _ _ Hr Hs).
Qed.

Lemma change_advanced t t' : history_ok t -> history_change t t' -> advanced t t'.
Proof.
  intros Hok [Hh Hv|drive fresh Hf Hh Hv|drive node version row Hnode Hfree Hn Ho Hh Hv].
  - split; rewrite ?Hv; [done|]. intros d x head Hx. exists head. rewrite Hh. split; [done|by left].
  - split; rewrite ?Hv; [done|]. intros d x head Hx. exists head. rewrite Hh, lookup_insert_ne; [split; [done|by left]|]. intros [= <- <-]. rewrite (unused_heads _ _ _ Hf) in Hx. done.
  - assert (versions t ⊆ versions t') as Hs by (rewrite Hv; by apply insert_subseteq). split; [done|]. intros d x head Hx. rewrite Hh.
    destruct (decide ((drive, node) = (d, x))) as [[= -> ->]|Hne]; [|exists head; rewrite lookup_insert_ne by done; split; [done|by left]].
    exists (Some version). rewrite lookup_insert_eq. split; [done|right]. rewrite (rank_kept _ _ _ _ _ Hok Hs Hx). simpl. rewrite Hv, lookup_insert_eq. apply next_ordinal_spec in Ho as (Hmax & _ & Hpos).
    apply (hs_head _ Hok) in Hx. destruct head as [h|]; simpl in Hx |- *; [|lia]. destruct Hx as (r & Hr & Hrn & _). rewrite Hr. by eapply Hmax.
Qed.

Lemma advanced_trans t1 t2 t3 : history_ok t2 -> history_ok t1 -> advanced t1 t2 -> advanced t2 t3 -> advanced t1 t3.
Proof.
  intros Hok2 Hok1 [Hv1 Hh1] [Hv2 Hh2]. split; [by etransitivity|]. intros d x head Hx. destruct (Hh1 _ _ _ Hx) as (head' & Hx' & H1). destruct (Hh2 _ _ _ Hx') as (head'' & Hx'' & H2). exists head''. split; [done|].
  assert (rank t3 head = rank t2 head) as E1 by (by rewrite (rank_kept t1 t3 d x head Hok1 (transitivity Hv1 Hv2) Hx), (rank_kept t1 t2 d x head Hok1 Hv1 Hx)).
  assert (rank t3 head' = rank t2 head') as E2 by (by apply (rank_kept t2 t3 d x)). destruct H1 as [-> |H1], H2 as [-> |H2]; [by left|by right|right; lia|right; lia].
Qed.

Lemma run_history t t' : history_ok t -> drive_run t t' -> history_ok t' /\ advanced t t'.
Proof.
  intros Hok Hr. revert Hok. induction Hr as [t|t t1 t' [op now Hd] _ IH]; intros Hok; [split; [done|]; split; [done|]; intros d x head Hx; exists head; split; [done|by left]|].
  pose proof (op_change op now t Hd) as Hc. pose proof (change_ok _ _ Hok Hc) as Hok1. destruct (IH Hok1) as [Hok' Hf]. split; [done|]. eapply advanced_trans; [exact Hok1|done|by apply change_advanced|done].
Qed.

(** C20. Along every sequence of transactions no version is ever changed or removed, the
    versions of each file are numbered 1, 2, 3, ... without gaps or repetitions, the head of
    a file is its last version (a file without a head has none), and a head only ever moves
    to a later version. *)
Theorem versions_form_a_line t t' : history_ok t -> drive_run t t' ->
  history_ok t' /\ versions t ⊆ versions t'
  /\ forall d x head, heads t !! (d, x) = Some head -> exists head', heads t' !! (d, x) = Some head' /\ (head' = head \/ rank t' head < rank t' head').
Proof. intros Hok Hr. destruct (run_history _ _ Hok Hr) as [Hok' [Hv Hh]]. by split_and!. Qed.

Lemma commit_head actor session upload token g fresh_node fresh_version now t node version t1 u existing :
  commit_upload actor session upload token g fresh_node fresh_version now t = (Ok (node, version), t1) -> uploads t !! upload = Some u -> us_node u = Some existing ->
  node = existing /\ heads t !! (us_drive u, existing) = Some (us_expected_head u) /\ heads t1 !! (us_drive u, existing) = Some (Some version) /\ versions t !! version = None.
Proof.
  unfold commit_upload. destruct (commit_upload_tx _ _ _ _ _ _ _ _ _) as [[[node' version'] t1']|] eqn:Hc; [|done]. intros [= -> -> ->] Hu Hnode.
  apply commit_upload_Ok in Hc as (-> & [(u' & p & Hu' & _ & _ & _ & _ & _ & _ & _ & _ & _ & _ & t0 & n & Hcase & Hn1 & _ & Hn & _ & ordinal & v & _ & _ & _ & _ & _ & _ & Hfree & _) _]).
  rewrite Hu in Hu'. injection Hu' as <-. rewrite Hnode in Hcase. destruct Hcase as (-> & -> & Hhead). rewrite !heads_lookup, Hn1, Hn, lookup_insert_eq. simpl. by rewrite Hhead.
Qed.

(** C15. No save is lost: once an upload over a file was committed, no other upload that
    started from the same head of that file can ever be committed, however the two and the
    other transactions of the drive (those of [DriveOp]) interleave. *)
Theorem no_lost_update actor session upload token g fresh_node fresh_version now t node version t1 u t2 actor' session' upload' token' g' fresh_node' fresh_version' now' u' :
  history_ok t -> draws_new (OpCommit actor session upload token g fresh_node fresh_version) t ->
  commit_upload actor session upload token g fresh_node fresh_version now t = (Ok (node, version), t1) -> uploads t !! upload = Some u -> us_node u = Some node ->
  drive_run t1 t2 ->
  uploads t2 !! upload' = Some u' -> us_node u' = Some node -> us_drive u' = us_drive u -> us_expected_head u' = us_expected_head u ->
  exists e, commit_upload actor' session' upload' token' g' fresh_node' fresh_version' now' t2 = (Err e, t2).
Proof.
  intros Hok Hnew Hc Hu Hnode Hr Hu' Hnode' Hd Hh. destruct (commit_head _ _ _ _ _ _ _ _ _ _ _ _ _ _ Hc Hu Hnode) as (_ & Hh0 & Hh1 & Hfree).
  assert (history_change t t1) as Hch by (pose proof (commit_change actor session upload token g fresh_node fresh_version now t Hnew) as Hch; by rewrite Hc in Hch).
  pose proof (change_ok _ _ Hok Hch) as Hok1. destruct (run_history _ _ Hok1 Hr) as [Hok2 Hf12]. pose proof (advanced_trans _ _ _ Hok1 Hok (change_advanced _ _ Hok Hch) Hf12) as Hf02.
  destruct (change_advanced _ _ Hok Hch) as [Hv01 Hf01]. destruct (Hf01 _ _ _ Hh0) as (h & Hh' & Hlt). rewrite Hh1 in Hh'. injection Hh' as <-.
  assert (Some version <> us_expected_head u) as Hne by (intros He; rewrite <-He in Hh0; apply (hs_head _ Hok) in Hh0 as (row & Hrow & _); congruence). destruct Hlt as [?|Hlt]; [done|].
  destruct (fw_heads _ _ Hf12 _ _ _ Hh1) as (h2 & Hh2 & H2).
  unfold commit_upload. destruct (commit_upload_tx actor' session' upload' token' g' fresh_node' fresh_version' now' t2) as [[[node2 version2] t3]|e] eqn:Hc2; [exfalso|by exists e].
  assert (commit_upload actor' session' upload' token' g' fresh_node' fresh_version' now' t2 = (Ok (node2, version2), t3)) as Hc3 by (unfold commit_upload; by rewrite Hc2).
  destruct (commit_head _ _ _ _ _ _ _ _ _ _ _ _ _ _ Hc3 Hu' Hnode') as (_ & Hh3 & _). rewrite Hd, Hh in Hh3. rewrite Hh2 in Hh3. injection Hh3 as ->. destruct H2 as [?|H2]; [done|].
  rewrite (rank_kept t1 t2 _ _ _ Hok1 (fw_versions _ _ Hf12) Hh1), (rank_kept t t2 _ _ _ Hok (fw_versions _ _ Hf02) Hh0) in H2. rewrite (rank_kept t t1 _ _ _ Hok Hv01 Hh0) in Hlt. lia.
Qed.
