(* ===== verification/DriveDemo.v ===== *)
(** The transactions on drives on concrete data: an upload from its reservation to its
    commit, two saves over one head, an upload that expires, and directories that go to the
    trash and come back. *)
From S2P Require Import Prelude Collections Libraries Frames CollaborationStore StorageLayout DriveStore DriveFacts DriveTree DriveUploads DriveHistory.

Open Scope string_scope.
Open Scope Z_scope.
Open Scope list_scope.
Open Scope bool_scope.

(** ** Running operations *)

Definition unused (t : Store) (id : Uuid) : bool :=
  forallb (fun e => negb (N.eqb e.1.2 id)) (map_to_list (nodes t)) && forallb (fun e => negb (N.eqb (vr_node e.2) id)) (map_to_list (versions t)).
Definition fresh (op : DriveOp) (t : Store) : bool :=
  match op with OpCreateDirectory _ _ _ _ _ _ _ _ id | OpCommit _ _ _ _ _ id _ => unused t id | _ => true end.
Fixpoint run_ops (ops : list DriveOp) (now : Z) (t : Store) : option Store :=
  match ops with [] => Some t | op :: rest => if fresh op t then run_ops rest now (run_drive_op op now t) else None end.

Lemma unused_spec t id : unused t id = true -> unused_node t id.
Proof.
  unfold unused. intros [Hn Hv]%andb_true_iff. rewrite forallb_forall in Hn, Hv. split.
  - intros d. destruct (nodes t !! (d, id)) as [n|] eqn:Hd; [|done]. specialize (Hn ((d, id), n)). rewrite <-list_elem_of_In, elem_of_map_to_list in Hn. specialize (Hn Hd). simpl in Hn. by rewrite N.eqb_refl in Hn.
  - intros v row Hr <-. specialize (Hv (v, row)). rewrite <-list_elem_of_In, elem_of_map_to_list in Hv. specialize (Hv Hr). simpl in Hv. by rewrite N.eqb_refl in Hv.
Qed.
Lemma run_ops_run ops now t t' : run_ops ops now t = Some t' -> drive_run t t'.
Proof.
  revert t. induction ops as [|op ops IH]; intros t Hr; simpl in Hr; [injection Hr as <-; apply rtc_refl|]. destruct (fresh op t) eqn:Hf; [|done].
  eapply rtc_l; [|by apply IH]. constructor. destruct op; try done; simpl in *; by apply unused_spec.
Qed.

(** ** An empty drive *)

Definition no_rooms : Tables := mkTables [] [] [] [] [] [] [] [] [] [] [] [] [] [] [] [].
Definition root_node : NodeRow := mkNode None KindDirectory "" "" None 1 1 4 None None None None None.
Definition start : Store :=
  mkStore {[1%N := mkDrive 1 1 10737418240 0 0 30]} {[(1%N, 10%N) := root_node]} {[(1%N, 10%N, 10%N) := 0]} ∅ ∅ ∅ ∅ ∅ (Some (mkBackendRow 9 true true 0 1000000000000 1000000000000))
    {[5%N := mkSession 4 1 false 1000000000000 1000000000000 true true "Ada"]} ∅ no_rooms ∅ ∅ [] [].

Lemma start_namespace : namespace_ok start.
Proof.
  assert (shapes start = {[(1%N, 10%N) := shape root_node]}) as Hs by (unfold shapes; simpl; by rewrite map_fmap_singleton).
  assert (forall d x k y, up {[(1%N, 10%N) := shape root_node]} d x k = Some y <-> d = 1%N /\ x = 10%N /\ k = O /\ y = 10%N) as Hup.
  { intros d x k y. destruct (decide ((d, x) = (1%N, 10%N))) as [[= -> ->]|Hne].
    - destruct k; cbn [up]; rewrite lookup_singleton_eq; simpl; [naive_solver|]. split; [done|]. by intros (_ & _ & ? & _).
    - destruct k; cbn [up]; rewrite lookup_singleton_ne by congruence; (split; [done|]); intros (-> & -> & _); done. }
  unfold namespace_ok. rewrite Hs. split; [split|].
  - intros d x y k. rewrite Hup. cbn [start ancestry]. rewrite lookup_singleton_Some. split; [intros [[= <- <- <-] <-]; by split_and!|]. intros (Hk & -> & -> & Hk' & ->). split; [done|lia].
  - intros d x y k. cbn [start ancestry]. rewrite lookup_singleton_Some. by intros [[= <- <- <-] <-].
  - intros d x n p [[= <- <-] <-]%lookup_singleton_Some. done.
  - intros d x y n m [[= <- <-] <-]%lookup_singleton_Some [[= <-] <-]%lookup_singleton_Some. done.
  - intros d x y n m [[= <- <-] <-]%lookup_singleton_Some [[= <-] <-]%lookup_singleton_Some. done.
  - intros d x n [[= <- <-] <-]%lookup_singleton_Some. done.
  - intros d x n r [[= <- <-] <-]%lookup_singleton_Some. done.
Qed.
Lemma start_uploads : uploads_ok start.
Proof. split; simpl; intros *; by rewrite lookup_empty. Qed.
Lemma start_solvent : solvent start.
Proof. intros drive a. unfold accounts. simpl. rewrite map_fmap_singleton. intros [<- <-]%lookup_singleton_Some. by vm_compute. Qed.
Lemma start_history : history_ok start.
Proof.
  split; try (simpl; intros *; by rewrite lookup_empty).
  - intros d d' x. unfold heads. simpl. rewrite map_fmap_singleton. by intros [? [[= <- <-] _]%lookup_singleton_Some] [? [[= <-] _]%lookup_singleton_Some].
  - intros d x head. unfold heads. simpl. rewrite map_fmap_singleton. intros [[= <- <-] <-]%lookup_singleton_Some v row. simpl. by rewrite lookup_empty.
Qed.

(** ** Uploads *)

Definition digest : bytes := replicate 32 "d"%char.
Definition generations (namespace : Z) : Generations := mkGenerations 1 1 namespace 1.
(** a whole upload of 4 bytes, over the file 20 when a head is given *)
Definition four_bytes (head : option Uuid) (namespace : Z) : BeginUpload :=
  mkBeginUpload 4 5 1 10 (match head with Some _ => Some 20%N | None => None end) (match head with Some _ => None | None => Some 1 end) head
    "a.txt" "a.txt" 4 4 1 "whole" (Some "text/plain") None None 100 (generations namespace).
Definition ids (n : Uuid) : BeginIds := mkBeginIds n (40 + n) (400 + n) (600 + n) (fun _ => (800 + n)%N).
(** everything before the commit of an upload *)
Definition transfer (n : Uuid) (head : option Uuid) (namespace : Z) : list DriveOp :=
  [OpBegin (four_bytes head namespace) (ids n); OpPartDurable n 0 1 4 digest; OpClaim n 1 7 10; OpFinalized n 1 7 digest].
Definition commit (n node version : Uuid) (namespace : Z) : DriveOp := OpCommit 4 5 n 1 (generations namespace) node version.

(** the file 20, and two finalized uploads over its first version *)
Definition racing : list DriveOp := transfer 100 None 1 ++ [commit 100 20 30 1] ++ transfer 101 (Some 30%N) 2 ++ transfer 102 (Some 30%N) 2.
Definition store_after (ops : list DriveOp) (now : Z) (t : Store) : Store := default t (run_ops ops now t).
Definition race : Store := store_after racing 0 start.

Lemma race_run : drive_run start race.
Proof. apply (run_ops_run racing 0). vm_compute. reflexivity. Qed.

Lemma first_commit : commit_upload 4 5 101 1 (generations 2) 21 31 0 race = (Ok (20%N, 31%N), run_drive_op (commit 101 21 31 2) 0 race).
Proof. vm_compute. reflexivity. Qed.

(** the second save over the first version fails, with the current generations *)
Lemma no_lost_update_witness : exists e, commit_upload 4 5 102 1 (generations 3) 21 32 0 (run_drive_op (commit 101 21 31 2) 0 race) = (Err e, run_drive_op (commit 101 21 31 2) 0 race).
Proof.
  eapply (no_lost_update 4 5 101 1 (generations 2) 21 31 0 race 20 31); [exact (proj1 (run_history _ _ start_history race_run))|apply unused_spec; vm_compute; reflexivity|exact first_commit
    |vm_compute; reflexivity|vm_compute; reflexivity|apply rtc_refl|vm_compute; reflexivity|vm_compute; reflexivity|vm_compute; reflexivity|vm_compute; reflexivity].
Defined.

(** the first version is still there, behind the new head *)
Lemma versions_form_a_line_witness : history_ok race /\ exists head', heads race !! (1%N, 10%N) = Some head' /\ (head' = None \/ rank race None < rank race head').
Proof.
  destruct (versions_form_a_line start race start_history race_run) as (Hok & _ & Hh). split; [exact Hok|]. apply (Hh 1%N 10%N None). vm_compute. reflexivity.
Defined.

(** the winner is committed, the loser is deleted as an orphan and a third upload expires *)
Definition closing : list DriveOp :=
  [commit 101 21 31 2; OpEnqueueOrphans 3 9 0 10; OpAdmitDeletion 3 142; OpCompleteDeletion 142; OpBegin (four_bytes (Some 31%N) 3) (ids 103)].
Definition closed : Store := store_after [OpExpire] 200000000 (store_after closing 0 race).

Lemma closed_run : drive_run start closed.
Proof.
  etransitivity; [exact race_run|]. etransitivity; [apply (run_ops_run closing 0); vm_compute; reflexivity|]. apply (run_ops_run [OpExpire] 200000000). vm_compute. reflexivity.
Qed.

Lemma uploads_account_exactly_witness :
  solvent closed /\ books closed 1 = books start 1 /\ accounts closed !! 1%N = Some (8, 0, 10737418240)
  /\ map (fun i => us_state <$> uploads closed !! i) [100; 101; 102; 103]%N = [Some UpCommitted; Some UpCommitted; Some UpExpired; Some UpExpired].
Proof.
  destruct (uploads_account_exactly start closed start_uploads start_solvent closed_run) as (_ & Hs & Hb). split; [exact Hs|]. split; [apply Hb|]. split; vm_compute; reflexivity.
Defined.

Lemma referenced_payload_never_deleted_witness :
  exists row r, versions closed !! 30%N = Some row /\ payload_for_node_tx 3 1 20 30 closed = Ok r /\ p_size_bytes r = 4 /\ p_blake3 r = Some digest.
Proof.
  assert (exists row n, versions closed !! 30%N = Some row /\ nodes closed !! (1%N, 20%N) = Some n /\ vr_node row = 20%N /\ vr_size row = 4 /\ vr_blake3 row = digest) as (row & n & Hv & Hn & Hr & Hz & Hb)
    by (do 2 eexists; split_and!; vm_compute; reflexivity).
  destruct (referenced_payload_never_deleted start closed 3 1 30 row n start_uploads closed_run Hv) as (r & Hp & Hz' & Hb'); [rewrite Hr; exact Hn|]. exists row, r. rewrite Hr in Hp. rewrite Hz in Hz'. rewrite Hb in Hb'. exact (conj Hv (conj Hp (conj Hz' Hb'))).
Defined.

(** ** Directories *)

(** the directory 22 in the directory 21 *)
Definition nested : list DriveOp := [OpCreateDirectory 4 5 1 10 "d" "d" 1 (generations 1) 21; OpCreateDirectory 4 5 1 21 "e" "e" 1 (generations 2) 22].
Definition tree : Store := store_after nested 0 start.
Definition tree_trashed : Store := run_drive_op (OpTrash 4 5 1 21 2 (generations 3)) 0 tree.

Lemma tree_run : drive_run start tree.
Proof. apply (run_ops_run nested 0). vm_compute. reflexivity. Qed.

Lemma namespace_stays_a_tree_witness :
  namespace_ok tree /\ in_subtree tree 1 10 22 = true /\ exists k, up (shapes tree) 1 22 k = Some 10%N.
Proof.
  destruct (namespace_stays_a_tree start tree start_namespace tree_run) as (Hok & _ & Hs). split; [exact Hok|]. split; [vm_compute; reflexivity|]. apply (Hs 1%N 10%N 22%N). vm_compute. reflexivity.
Defined.

Lemma restorable : exists n p d, nodes tree !! (1%N, 21%N) = Some n /\ nd_parent n = Some 10%N /\ nodes tree !! (1%N, 10%N) = Some p /\ is_live p = true
  /\ drives tree_trashed !! 1%N = Some d /\ drive_checks (bump_drive_row d) = true.
Proof. eexists _, _, _. do 5 (split; [vm_compute; reflexivity|]). vm_compute. reflexivity. Qed.

Lemma trash_restore_round_trip_witness : exists t2, restore_node 4 5 1 21 3 (generations 4) 0 tree_trashed = (Ok tt, t2) /\ shapes t2 = shapes tree.
Proof.
  pose proof (run_tree _ _ start_namespace tree_run) as Hok.
  destruct (trash_restore_round_trip 4 5 1 21 2 (generations 3) 0 tree tree_trashed Hok) as (_ & Hback & Hgo); [vm_compute; reflexivity|].
  destruct restorable as (n & p & d & Hn & Hpar & Hp & Hl & Hd & Hch).
  destruct (Hgo 4%N 5%N (generations 4) 0 n 10%N p d Hn Hpar Hp Hl) as [t2 Ht2]; [vm_compute; reflexivity|exact Hd|exact Hch|vm_compute; discriminate|]. exists t2. split; [exact Ht2|]. by destruct (Hback _ _ _ _ _ _ Ht2).
Defined.

(** ** Two gaps

    [create_directory] looks at the generation of the parent only: it makes a directory
    below a file, and a live directory inside one that is in the trash. *)
Definition below_file : Store := store_after [OpCreateDirectory 4 5 1 20 "d" "d" 2 (generations 2) 21] 0 race.
Lemma directory_in_a_file : drive_run start below_file /\ nd_kind <$> nodes below_file !! (1%N, 20%N) = Some KindFile /\ (nd_parent <$> nodes below_file !! (1%N, 21%N)) = Some (Some 20%N).
Proof.
  split; [|vm_compute; split; reflexivity]. etransitivity; [exact race_run|]. apply (run_ops_run [OpCreateDirectory 4 5 1 20 "d" "d" 2 (generations 2) 21] 0). vm_compute. reflexivity.
Qed.
Definition below_trash : Store := run_drive_op (OpCreateDirectory 4 5 1 21 "f" "f" 3 (generations 4) 23) 0 tree_trashed.
Lemma live_directory_in_the_trash :
  drive_run start below_trash /\ is_live <$> nodes below_trash !! (1%N, 21%N) = Some false /\ is_live <$> nodes below_trash !! (1%N, 23%N) = Some true
  /\ nd_parent <$> nodes below_trash !! (1%N, 23%N) = Some (Some 21%N).
Proof.
  split; [|vm_compute; split_and!; reflexivity]. etransitivity; [exact tree_run|]. apply (run_ops_run [OpTrash 4 5 1 21 2 (generations 3); OpCreateDirectory 4 5 1 21 "f" "f" 3 (generations 4) 23] 0). vm_compute. reflexivity.
Qed.
