(* ===== verification/WorkerIo.v ===== *)
(** Model of [source/apps/filebelt-worker-io/src/main.rs]: the service that owns the
    storage backend.  This file has the admission of requests (capabilities, records,
    ranges) and the handlers of uploads, downloads, collaboration objects, document
    revisions and revision chunks; the handlers of mounted drives are not modelled.

    A handler runs in a world: the file system of [PosixFs] with its schedule of failures,
    the table [capability_nonces], and the log of the statements that were sent to the
    database.  The other tables are read through [Db], whose answers may depend on
    everything that happened before; the system clock is an argument. *)
From S2P Require Import Prelude Collections Libraries Keyset Frames Capability Web CollaborationStore PosixFs StorageLayout.

Open Scope string_scope.
Open Scope Z_scope.
Open Scope list_scope.
Open Scope bool_scope.
Open Scope filebelt_scope.

Definition WORKER_AUDIENCE : string := "filebelt-worker-io".
Definition CAPABILITY_COOKIE_NAMES : list string := ["filebelt_capability"; "filebelt-capability"].
Definition FINALIZATION_LEASE_SECONDS : Z := 120.
Definition REVISION_CHUNK_CAPABILITY_NONCE_BYTES : Z := 64.

(** [AppError] *)
Inductive AppError :=
| BadRequest (code : string) | ObjectNotFound (code : string) | Unauthorized | Forbidden | StateConflicts (code : string)
| RangeNotSatisfiable | DependencyUnavailable | Unsupported (code : string) | StorageFailure.
#[export] Instance AppError_eq_dec : EqDecision AppError.
Proof. solve_decision. Defined.

(** [IntoResponse for AppError]: status and code *)
Definition app_error_response (e : AppError) : Z * string :=
  match e with
  | BadRequest code => (400, code)
  | ObjectNotFound code => (404, code)
  | Unauthorized => (401, "invalid_capability")
  | Forbidden => (403, "authorization_changed")
  | StateConflicts code => (409, code)
  | RangeNotSatisfiable => (416, "invalid_range")
  | DependencyUnavailable => (503, "dependency_unavailable")
  | Unsupported code => (501, code)
  | StorageFailure => (500, "storage_failure")
  end.

Definition app_storage_error (e : StorageError) : AppError :=
  match e with
  | StateConflict => StateConflicts "storage_state_conflict"
  | CorruptObject | UnsafeObject => StateConflicts "storage_integrity_failure"
  | InvalidContent => StateConflicts "content_profile_invalid"
  | UnsupportedFilesystem => Unsupported "sparse_not_supported"
  | Io _ | Join => StorageFailure
  end.

(** [From<DatabaseError> for AppError] *)
Definition app_database_error (e : DatabaseError) : AppError :=
  match e with
  | CollaborationStore.NotFound => ObjectNotFound "object_not_found"
  | Conflict => StateConflicts "state_conflict"
  | StaleGeneration => Forbidden
  | QuotaExceeded => StateConflicts "quota_exceeded"
  | AdmissionLimited | SecurityAdmissionBlocked | Sql | Migration | StorageUnavailable => DependencyUnavailable
  | InvalidPersistedValue => StorageFailure
  end.

(** ** Records *)

(** [UploadRecord]: the columns of the storage engine and the ones of the admission *)
Record UploadRow := mkUploadRow {
  up_record : UploadRecord; up_upload_id : Uuid; up_node_id : option Uuid; up_parent_id : Uuid; up_owner_principal_id : Uuid;
  up_chunk_size_bytes : Z; up_fencing_token : Z; up_state : string
}.

(** [DocumentIoContext]: the session, the participant and the revision of a document *)
Record DocumentIoContext := mkDocumentContext {
  dc_session_id : Uuid; dc_node_id : Uuid; dc_drive_id : Uuid; dc_fencing_token : Z;
  dc_user_principal_id : Uuid; dc_api_session_id : Uuid;
  dc_revision_id : Uuid; dc_revision_state : string; dc_payload_id : option Uuid; dc_reserved_bytes : Z; dc_media_type : option string
}.

(** the row that [read_document_version] selects *)
Record DocumentVersionRow := mkVersionRow { dv_drive_id : Uuid; dv_node_id : Uuid; dv_fencing_token : Z; dv_payload_id : Uuid }.

(** the columns of [MountPayloadPartRecord] *)
Record MountPayloadPartRecord := mkPayloadPart { mpp_chunk_number : Z; mpp_size_bytes : Z; mpp_blake3 : bytes }.

(** [AuthorizedCapability] *)
Record AuthorizedCapability := mkAuthorized {
  ac_claims : CapabilityClaims; ac_tenant_id : Uuid; ac_session_id : Uuid; ac_principal_id : Uuid; ac_resource_id : Uuid; ac_capability_id : Uuid
}.

(** [AppState] without its clients and the storage root *)
Record AppState := mkAppState {
  st_api_keys : TypedKeyset ApiStorage;
  st_collaboration_keys : option (TypedKeyset CollaborationStorage);
  st_document_keys : option (TypedKeyset DocumentStorage);
  st_revision_keys : option (TypedKeyset RevisionStorage);
  st_mount_keys : option (TypedKeyset MountStorage);
  st_tenant_id : Uuid; st_backend_id : Uuid; st_worker_id : Uuid; st_chunk_size : Z
}.

(** ** Capabilities in headers *)

Definition header_str (name : string) (headers : HeaderMap) : option string := header_get name headers ≫= to_str.

(** [str::trim] on the text of a header, whose only white space is the space and the tab *)
Fixpoint trim_start (s : string) : string :=
  match s with
  | String c rest => if byte_is " " c || (byte_val c =? 9) then trim_start rest else s
  | EmptyString => s
  end.
Definition str_rev (s : string) : string := str_of_bytes (rev (as_bytes s)).
Definition trim (s : string) : string := str_rev (trim_start (str_rev (trim_start s))).

(** the credential of an [Authorization] value of one scheme, with or without the scheme as its first word *)
Definition scheme_credential (scheme_ prefix value : string) : option string :=
  if str_starts_with prefix value then Some value
  else
    match split_once_char " " value with
    | Some (word, credential) =>
        if eq_ignore_ascii_case (as_bytes word) (as_bytes scheme_)
        then Some (if str_starts_with prefix credential then credential else prefix +:+ credential)
        else None
    | None => None
    end.

Definition cookie_capability (cookie : string) : option string :=
  match split_once_char "=" (trim cookie) with
  | Some (name, value) => if existsb (String.eqb name) CAPABILITY_COOKIE_NAMES then Some value else None
  | None => None
  end.

Fixpoint find_map {A B} (f : A -> option B) (l : list A) : option B :=
  match l with [] => None | x :: rest => match f x with Some y => Some y | None => find_map f rest end end.

Definition capability_wire (headers : HeaderMap) : option string :=
  match header_str "authorization" headers ≫= scheme_credential "fbcap1" "fbcap1." with
  | Some wire => Some wire
  | None => header_str "cookie" headers ≫= fun cookies => find_map cookie_capability (split_char ";" cookies)
  end.

Definition mount_capability_wire (headers : HeaderMap) : option string :=
  header_str "authorization" headers ≫= scheme_credential "fbcap2" "fbcap2.".

(** ** Admission *)

Section admission.
Context `{UuidLib, Base64Lib, Blake3Lib, Ed25519Lib}.
Context `{!ProstMessage CapabilityClaims, !ProstMessage SignedCapability}.

Definition parse_required_uuid (value : string) : result AppError Uuid := ok_or Unauthorized (uuid_parse_str value).
Definition parse_required_non_nil_uuid (value : string) : result AppError Uuid :=
  let? identifier := parse_required_uuid value in
  if uuid_is_nil identifier then Err Unauthorized else Ok identifier.

Definition verified_claims {E} (r : result E (Verified CapabilityClaims)) : result AppError CapabilityClaims :=
  match r with Ok v => Ok (v_claims v) | Err _ => Err Unauthorized end.

Definition verify_capability_for_operation (st : AppState) (wire : string) (op : CapabilityOperation) (now : Z) : result AppError CapabilityClaims :=
  let api u := verified_claims (verify_api_storage_capability wire (st_api_keys st) WORKER_AUDIENCE u now) in
  let collaboration u := let? keys := ok_or Unauthorized (st_collaboration_keys st) in
                         verified_claims (verify_collaboration_storage_capability wire keys WORKER_AUDIENCE u now) in
  let document u := let? keys := ok_or Unauthorized (st_document_keys st) in
                    verified_claims (verify_document_storage_capability wire keys WORKER_AUDIENCE u now) in
  let revision u := let? keys := ok_or Unauthorized (st_revision_keys st) in
                    verified_claims (verify_revision_storage_capability wire keys WORKER_AUDIENCE u now) in
  match op with
  | OpUploadPart => api UploadPart
  | OpFinalizeUpload => api FinalizeUpload
  | OpDownload => api Download
  | OpWriteCollaborationObject => collaboration WriteObject
  | OpFinalizeCollaborationObject => collaboration FinalizeObject
  | OpReadCollaborationObject => collaboration ReadObject
  | OpReadDocumentVersion => document ReadVersion
  | OpWriteDocumentRevision => document WriteRevision
  | OpFinalizeDocumentRevision => document FinalizeRevision
  | OpWriteRevisionChunk => revision WriteChunk
  | OpReadRevisionChunk => revision ReadChunk
  | OpDeleteRevisionChunk => revision DeleteChunk
  | OpReadRevisionLegacyPayload => revision ReadLegacyPayload
  | _ => Err Unauthorized
  end.

Definition authorize (st : AppState) (headers : HeaderMap) (op : CapabilityOperation) (now : Z) : result AppError AuthorizedCapability :=
  let? wire := ok_or Unauthorized (capability_wire headers) in
  let? claims := verify_capability_for_operation st wire op now in
  let? tenant := parse_required_uuid (tenant_id claims) in
  if negb (N.eqb tenant (st_tenant_id st)) then Err Forbidden
  else
    let? principal := parse_required_uuid (claim_principal_id claims) in
    let? resource := parse_required_uuid (resource_id claims) in
    let? capability := parse_required_uuid (capability_id claims) in
    let? session := parse_required_uuid (session_id claims) in
    Ok (mkAuthorized claims tenant session principal resource capability).

(** [i64::try_from(claims.fencing_token)] *)
Definition claimed_fence (a : AuthorizedCapability) : result AppError Z := ok_or Forbidden (i64_try_from (fencing_token (ac_claims a))).

Definition default_node (u : UploadRow) : Uuid := default (up_parent_id u) (up_node_id u).

Definition validate_upload_capability (a : AuthorizedCapability) (u : UploadRow) (claim_payload configured_backend_id : Uuid) : result AppError unit :=
  let r := up_record u in
  if negb (N.eqb (u_tenant_id r) (ac_tenant_id a)) || negb (N.eqb (up_owner_principal_id u) (ac_principal_id a))
     || negb (N.eqb (u_backend_id r) configured_backend_id) || negb (N.eqb (u_payload_id r) claim_payload)
  then Err Forbidden
  else
    let? fence := claimed_fence a in
    if negb (up_fencing_token u =? fence) || negb (N.eqb (ac_resource_id a) (default_node u)) then Err Forbidden else Ok tt.

Definition revision_chunk_locator (a : AuthorizedCapability) (expected_chunk_id : Uuid) : result AppError RevisionChunkLocator :=
  let c := ac_claims a in
  let? _ := parse_required_non_nil_uuid (upload_id c) in
  let? _ := parse_required_non_nil_uuid (grant_id c) in
  if uuid_is_nil expected_chunk_id then Err Forbidden
  else
    let? payload := parse_required_uuid (payload_id c) in
    if negb (N.eqb payload expected_chunk_id) then Err Forbidden
    else
      let? resource := parse_required_non_nil_uuid (resource_id c) in
      if negb (N.eqb resource (ac_resource_id a)) || negb (range_start c =? 0)
         || negb (len (nonce c) =? REVISION_CHUNK_CAPABILITY_NONCE_BYTES) || forallb (fun b => byte_val b =? 0) (drop 32 (nonce c))
      then Err Forbidden
      else
        let? size := ok_or Forbidden (checked_add_u64 (range_end c) 1) in
        if (size =? 0) || (REVISION_CHUNK_SIZE_BYTES <? size) then Err Forbidden
        else map_err (fun _ => Forbidden) (RevisionChunkLocator_new (ac_resource_id a) (take 32 (nonce c)) size).

Definition validate_revision_legacy_payload_capability (a : AuthorizedCapability) (expected_payload_id : Uuid) : result AppError unit :=
  let c := ac_claims a in
  let? _ := parse_required_non_nil_uuid (grant_id c) in
  let? _ := parse_required_non_nil_uuid (resource_id c) in
  let? _ := parse_required_non_nil_uuid (upload_id c) in
  if uuid_is_nil expected_payload_id then Err Forbidden
  else
    let? payload := parse_required_uuid (payload_id c) in
    if negb (N.eqb payload expected_payload_id) then Err Forbidden else Ok tt.

(** a claimed identifier names the object: [parse_required_uuid(claim)? != id] *)
Definition require_uuid (claim : string) (id : Uuid) : result AppError unit :=
  let? value := parse_required_uuid claim in
  if negb (N.eqb value id) then Err Forbidden else Ok tt.

Definition validate_collaboration_capability (a : AuthorizedCapability) (object : ObjectRecord) (configured_backend_id : Uuid) : result AppError unit :=
  let c := ac_claims a in
  let? _ := require_uuid (grant_id c) (ob_id object) in
  let? _ := require_uuid (upload_id c) (ob_room_id object) in
  let? _ := require_uuid (payload_id c) (ob_payload_id object) in
  if negb (N.eqb (ac_resource_id a) (ob_node_id object)) || negb (N.eqb (ob_backend_id object) configured_backend_id) then Err Forbidden
  else
    let? fence := claimed_fence a in
    if negb (ob_fencing_token object =? fence) then Err Forbidden else Ok tt.

Definition validate_document_revision_capability (a : AuthorizedCapability) (revision_id : Uuid) (d : DocumentIoContext) : result AppError unit :=
  let c := ac_claims a in
  let? payload := ok_or Forbidden (dc_payload_id d) in
  let? _ := require_uuid (grant_id c) revision_id in
  let? _ := require_uuid (upload_id c) (dc_session_id d) in
  let? _ := require_uuid (payload_id c) payload in
  if negb (N.eqb (ac_resource_id a) (dc_node_id d)) || negb (N.eqb (ac_principal_id a) (dc_user_principal_id d))
     || negb (N.eqb (ac_session_id a) (dc_api_session_id d))
  then Err Forbidden
  else
    let? fence := claimed_fence a in
    if negb (fence =? dc_fencing_token d) then Err Forbidden else Ok tt.

Definition validate_exact_range (a : AuthorizedCapability) (expected_size : Z) : result AppError unit :=
  let c := ac_claims a in
  if negb (range_start c =? 0) || ((expected_size =? 0) && negb (range_end c =? 0)) || ((0 <? expected_size) && negb (range_end c =? expected_size - 1))
  then Err Forbidden else Ok tt.

(** The offset of a part is [chunk_size * part]; [part_count] and [chunk_size_bytes] are [i32]. *)
Definition expected_part_size (u : UploadRow) (part : Z) : result AppError Z :=
  let count := u_part_count (up_record u) in
  if (part <? 0) || (count <=? part) || (count <=? 0) then Err (BadRequest "invalid_part_number")
  else
    let? declared := ok_or StorageFailure (u64_try_from (u_declared_size_bytes (up_record u))) in
    let? chunk := ok_or StorageFailure (u64_try_from (up_chunk_size_bytes u)) in
    if count =? 1 then Ok declared
    else
      let? offset := ok_or StorageFailure (checked_mul_u64 chunk part) in
      let? remaining := ok_or StorageFailure (checked_sub_u64 declared offset) in
      if part + 1 =? count then Ok remaining
      else if chunk <=? remaining then Ok chunk
      else Err StorageFailure.

(** The range of a request, its end included, and whether it is partial. *)
Definition requested_range (header : option bytes) (size : Z) (c : CapabilityClaims) : result AppError (Z * Z * bool) :=
  if size =? 0 then
    if is_some header || negb (range_start c =? 0) || negb (range_end c =? 0) then Err RangeNotSatisfiable else Ok (0, 0, false)
  else if (range_end c <? range_start c) || (size <=? range_end c) then Err Forbidden
  else
    match header with
    | None => Ok (range_start c, range_end c, negb (range_start c =? 0) || negb (range_end c =? size - 1))
    | Some value =>
        let? text := ok_or RangeNotSatisfiable (to_str value) in
        let? text := ok_or RangeNotSatisfiable (strip_prefix "bytes=" text) in
        if str_contains_char "," text then Err RangeNotSatisfiable
        else
          let? texts := ok_or RangeNotSatisfiable (split_once_char "-" text) in
          let? range :=
            if is_empty texts.1 then
              let? suffix := ok_or RangeNotSatisfiable (parse_unsigned u64_max texts.2) in
              if suffix =? 0 then Err RangeNotSatisfiable else Ok (saturating_sub_u64 size suffix, size - 1)
            else
              let? start := ok_or RangeNotSatisfiable (parse_unsigned u64_max texts.1) in
              let? end_ := if is_empty texts.2 then Ok (size - 1)
                           else let? e := ok_or RangeNotSatisfiable (parse_unsigned u64_max texts.2) in Ok (Z.min e (size - 1)) in
              Ok (start, end_) in
          if (range.2 <? range.1) || (range.1 <? range_start c) || (range_end c <? range.2) then Err RangeNotSatisfiable
          else Ok (range, true)
    end.

Definition nonce_digest (domain : string) (n : bytes) : bytes := blake3_hash (as_bytes domain ++ [zero_byte] ++ n).

(** [CONTENT_LENGTH], when it is sent, has to be the expected size *)
Definition check_content_length (headers : HeaderMap) (expected : Z) (code : string) : result AppError unit :=
  match header_get "content-length" headers with
  | None => Ok tt
  | Some value =>
      let? length := ok_or (BadRequest "invalid_content_length") (to_str value ≫= parse_unsigned u64_max) in
      if negb (length =? expected) then Err (StateConflicts code) else Ok tt
  end.
End admission.

(** ** The world of a handler *)

(** Statements that change tables of the database, as they are sent *)
Inductive DbWrite :=
| ConsumeNonce (digest : bytes) (operation : string) (expires_at : Z)
| MarkPartDurable (upload : Uuid) (part fencing size : Z) (digest : bytes)
| ClaimUploadFinalization (upload : Uuid) (fencing : Z) (owner : Uuid) (lease_seconds : Z)
| AbortUploadFinalization (upload : Uuid) (fencing : Z) (owner : Uuid)
| MarkUploadFinalized (upload : Uuid) (fencing : Z) (owner : Uuid) (digest : bytes)
| MarkUploadStagingCleaned (upload : Uuid)
| FinalizeCollaborationObject (object : Uuid) (fencing : Z) (authorization : AuthorizationContext) (size : Z) (digest : bytes)
| FinalizeDocumentRevision (revision : Uuid) (fencing size : Z) (digest : bytes) (media_type : string).

(** a row of [capability_nonces]: tenant, digest, operation, expiry *)
Record NonceRow := mkNonceRow { nr_tenant : Uuid; nr_digest : bytes; nr_operation : string; nr_expires_at : Z }.

#[export] Instance NonceRow_eq_dec : EqDecision NonceRow.
Proof. solve_decision. Defined.

Record Ww := mkWw { ww_storage : PosixFs.World; ww_nonces : list NonceRow; ww_log : list DbWrite }.

(** What the database answers, given what was sent to it before.  A statement that changes
    a table may have been executed although its answer was lost. *)
Record Db := mkDb {
  db_upload : list DbWrite -> Uuid -> Uuid -> result DatabaseError UploadRow;
  db_upload_part : list DbWrite -> Uuid -> Uuid -> Z -> result DatabaseError UploadPartRecord;
  db_upload_parts : list DbWrite -> Uuid -> Uuid -> result DatabaseError (list UploadPartRecord);
  db_upload_for_payload : list DbWrite -> Uuid -> Uuid -> result DatabaseError UploadRow;
  db_payload : list DbWrite -> Uuid -> Uuid -> result DatabaseError PayloadRecord;
  db_payload_parts : list DbWrite -> Uuid -> Uuid -> result DatabaseError (list MountPayloadPartRecord);
  db_object : list DbWrite -> Uuid -> Uuid -> result DatabaseError ObjectRecord;
  db_document_context : list DbWrite -> Uuid -> Uuid -> result DatabaseError DocumentIoContext;
  db_document_version : list DbWrite -> Uuid -> Uuid -> Uuid -> result DatabaseError (option DocumentVersionRow);
  db_generations : list DbWrite -> Uuid -> Uuid -> Uuid -> Uuid -> Uuid -> Z -> Z -> Z -> Z -> result DatabaseError bool;
  db_write : list DbWrite -> DbWrite -> result DatabaseError string;
  (** the connection is lost while a nonce is consumed: whether the row was inserted *)
  db_nonce_lost : list DbWrite -> option bool
}.

Definition Wk (A : Type) : Type := Ww -> result AppError A * Ww.
Definition wk_ret {A} (r : result AppError A) : Wk A := fun w => (r, w).
Definition wk_bind {A B} (m : Wk A) (k : A -> Wk B) : Wk B :=
  fun w => match m w with (Ok a, w') => k a w' | (Err e, w') => (Err e, w') end.
Notation "'wk' x ':=' m 'in' k" := (wk_bind m (fun x => k)) (at level 10, x name, m at level 100, k at level 200).
(** [match m { Ok(a) => .., Err(e) => .. }] *)
Definition wk_try {A} (m : Wk A) : Wk (result AppError A) := fun w => let '(r, w') := m w in (Ok r, w').

(** [spawn_blocking(move || storage...)] with [storage_error] *)
Definition on_storage {A} (m : St A) : Wk A :=
  fun w => let '(r, s) := m (ww_storage w) in (map_err app_storage_error r, mkWw s (ww_nonces w) (ww_log w)).

Section handlers.
Context `{UuidLib, Base64Lib, Blake3Lib, Ed25519Lib, Readdir, FileTimes}.
Context `{!ProstMessage CapabilityClaims, !ProstMessage SignedCapability}.
Variable root : path.
Context (db : Db) (st : AppState) (now : Z).
(** the mode of a new file under the umask of the process *)
Context (new_file_mode : Z).

Definition read_db {A} (f : list DbWrite -> result DatabaseError A) : Wk A :=
  fun w => (map_err app_database_error (f (ww_log w)), w).

(** a statement and its answer *)
Definition write_db (e : DbWrite) : Wk (result DatabaseError string) :=
  fun w => (Ok (db_write db (ww_log w) e), mkWw (ww_storage w) (ww_nonces w) (ww_log w ++ [e])).
Definition write_db_ (e : DbWrite) : Wk string := wk r := write_db e in wk_ret (map_err app_database_error r).

Definition same_nonce (tenant : Uuid) (digest : bytes) (r : NonceRow) : bool := N.eqb (nr_tenant r) tenant && bool_decide (nr_digest r = digest).

(** [consume_capability_nonce]: [INSERT .. ON CONFLICT DO NOTHING] *)
Definition consume_capability_nonce (tenant : Uuid) (digest : bytes) (operation : string) (expires_at : Z) : Ww -> result DatabaseError unit * Ww :=
  fun w =>
    let fresh := negb (existsb (same_nonce tenant digest) (ww_nonces w)) in
    let inserted := if fresh then ww_nonces w ++ [mkNonceRow tenant digest operation expires_at] else ww_nonces w in
    let log := ww_log w ++ [ConsumeNonce digest operation expires_at] in
    match db_nonce_lost db (ww_log w) with
    | Some true => (Err Sql, mkWw (ww_storage w) inserted log)
    | Some false => (Err Sql, mkWw (ww_storage w) (ww_nonces w) log)
    | None => (if fresh then Ok tt else Err Conflict, mkWw (ww_storage w) inserted log)
    end.

(** [cleanup_expired_capability_nonces] of the maintenance worker; the rows are told apart by
    the primary key, which the columns contain *)
Definition RETENTION_BATCH_SIZE : Z := 1000.
Definition cleanup_expired_capability_nonces (tenant : Uuid) (clock : Z) (rows : list NonceRow) : Z * list NonceRow :=
  let expired := order_limit nr_expires_at RETENTION_BATCH_SIZE (List.filter (fun r => N.eqb (nr_tenant r) tenant && (nr_expires_at r <=? clock)) rows) in
  (len expired, List.filter (fun r => negb (bool_decide (r ∈ expired))) rows).

Definition nonce_error (e : DatabaseError) : AppError :=
  match e with Conflict => StateConflicts "capability_replayed" | _ => DependencyUnavailable end.

Definition consume_nonce (a : AuthorizedCapability) (operation : string) : Wk unit :=
  fun w => let '(r, w') := consume_capability_nonce (ac_tenant_id a) (nonce_digest "filebelt-capability-nonce-v1" (nonce (ac_claims a))) operation
                             (expires_at_unix_seconds (ac_claims a)) w in
           (map_err nonce_error r, w').

Definition generations_match (a : AuthorizedCapability) (drive_id : Uuid) (log : list DbWrite) : result DatabaseError bool :=
  let c := ac_claims a in
  let? membership := ok_or InvalidPersistedValue (i64_try_from (membership_generation c)) in
  let? drive_acl := ok_or InvalidPersistedValue (i64_try_from (drive_acl_generation c)) in
  let? namespace := ok_or InvalidPersistedValue (i64_try_from (namespace_generation c)) in
  let? resource_acl := ok_or InvalidPersistedValue (i64_try_from (resource_acl_generation c)) in
  db_generations db log (ac_tenant_id a) (ac_session_id a) (ac_principal_id a) drive_id (ac_resource_id a) membership drive_acl namespace resource_acl.

Definition check_generations (a : AuthorizedCapability) (drive_id : Uuid) : Wk unit :=
  fun w => (match generations_match a drive_id (ww_log w) with
            | Ok true => Ok tt
            | Ok false => Err Forbidden
            | Err _ => Err DependencyUnavailable
            end, w).

(** ** Request bodies *)

(** A body arrives in pieces; [None] is a broken connection. *)
Definition BodyStream : Type := list (option bytes).

(** a system call with the error that the source gives it *)
Definition sys_or {A} (e : AppError) (f : Fs -> result IoError (A * Fs)) : Wk A :=
  fun w => let '(r, s) := sys (E := StorageError) f (ww_storage w) in (map_err (fun _ => e) r, mkWw s (ww_nonces w) (ww_log w)).

(** The loop of [write_body]: the pieces go to the end of the file. *)
Fixpoint write_pieces (file : N) (size expected : Z) (written : bytes) (body : BodyStream) : Wk (Z * bytes) :=
  match body with
  | [] => if negb (size =? expected) then wk_ret (Err (StateConflicts "part_size_mismatch")) else wk_ret (Ok (size, written))
  | None :: _ => wk_ret (Err (BadRequest "invalid_request_body"))
  | Some chunk :: rest =>
      wk size' := wk_ret (ok_or (BadRequest "part_too_large") (checked_add_u64 size (len chunk))) in
      if expected <? size' then wk_ret (Err (StateConflicts "part_size_mismatch"))
      else
        wk _ := sys_or StorageFailure (sys_update file (fun d => d ++ chunk)) in
        write_pieces file size' expected (written ++ chunk) rest
  end.

Definition remove_quietly (p : path) : Wk unit := wk _ := wk_try (sys_or StorageFailure (sys_remove_file p)) in wk_ret (Ok tt).

(** [write_body]: size and digest of the body, which is in a new file *)
Definition write_body (body : BodyStream) (p : path) (expected_size : Z) : Wk (Z * bytes) :=
  wk file := sys_or (StateConflicts "part_write_in_progress") (sys_create (KFile []) p new_file_mode) in
  wk _ := sys_or StorageFailure (sys_fchmod file FILE_MODE) in
  wk r := wk_try (wk r := write_pieces file 0 expected_size [] body in
                  wk _ := sys_or StorageFailure (sys_fsync file) in
                  wk_ret (Ok (r.1, blake3_hash r.2))) in
  match r with
  | Ok answer => wk_ret (Ok answer)
  | Err e => wk _ := remove_quietly p in wk_ret (Err e)
  end.

(** ** Uploads *)

Record PartResult := mkPartResult { pr_upload_id : Uuid; pr_part_number : Z; pr_size_bytes : Z; pr_blake3 : bytes }.
(** [FinalizeResult], [CollaborationObjectResult] and [DocumentRevisionResult]: the object, its payload, size, digest and state *)
Record ObjectResult := mkObjectResult { or_id : Uuid; or_payload_id : Uuid; or_size_bytes : Z; or_blake3 : bytes; or_state : string }.
Record RevisionChunkResult := mkChunkResult { rc_chunk_id : Uuid; rc_drive_id : Uuid; rc_size_bytes : Z; rc_blake3 : bytes }.

Definition path_uuid (value code : string) : result AppError Uuid := ok_or (BadRequest code) (uuid_parse_str value).

(** [str::parse::<i32>] *)
Definition parse_i32 (s : string) : option Z :=
  match s with
  | String "-" digits => match parse_digits digits with Some n => checked (-2147483648) 2147483647 (- n) | None => None end
  | _ => parse_unsigned 2147483647 s
  end.

Definition upload_part (upload_id_ part_number_ : string) (headers : HeaderMap) (body : BodyStream) : Wk PartResult :=
  wk upload := wk_ret (path_uuid upload_id_ "invalid_upload_id") in
  wk number := wk_ret (ok_or (BadRequest "invalid_part_number") (parse_i32 part_number_)) in
  if number <? 0 then wk_ret (Err (BadRequest "invalid_part_number"))
  else
    wk a := wk_ret (authorize st headers OpUploadPart now) in
    wk claim_upload := wk_ret (parse_required_uuid (upload_id (ac_claims a))) in
    wk claim_payload := wk_ret (parse_required_uuid (payload_id (ac_claims a))) in
    if negb (N.eqb claim_upload upload) || negb (Capability.part_number (ac_claims a) =? number) then wk_ret (Err Forbidden)
    else
      wk row := read_db (fun log => db_upload db log (ac_tenant_id a) upload) in
      wk _ := wk_ret (validate_upload_capability a row claim_payload (st_backend_id st)) in
      wk _ := check_generations a (u_drive_id (up_record row)) in
      wk expected_size := wk_ret (expected_part_size row number) in
      wk _ := wk_ret (validate_exact_range a expected_size) in
      wk _ := wk_ret (check_content_length headers expected_size "part_size_mismatch") in
      wk part := read_db (fun log => db_upload_part db log (ac_tenant_id a) upload number) in
      if negb (String.eqb (up_state row) "open") || uuid_is_nil (part_locator part) then wk_ret (Err (StateConflicts "upload_not_open"))
      else
        wk _ := consume_nonce a "upload_part" in
        wk temporary := on_storage (staging_temporary_path root (part_locator part) (ac_capability_id a)) in
        wk r := write_body body temporary expected_size in
        wk _ := on_storage (publish_staging_part root temporary (part_locator part) r.1 r.2) in
        wk fence := wk_ret (claimed_fence a) in
        wk size := wk_ret (ok_or (StateConflicts "part_too_large") (checked (-2147483648) 2147483647 r.1)) in
        wk _ := write_db_ (MarkPartDurable upload number fence size r.2) in
        wk_ret (Ok (mkPartResult upload number r.1 r.2)).

(** [finish_upload_finalization_inner]; the heartbeats of the lease only extend it *)
Definition finish_upload_finalization_inner (a : AuthorizedCapability) (upload : Uuid) (fence : Z) : Wk ObjectResult :=
  wk row := read_db (fun log => db_upload db log (ac_tenant_id a) upload) in
  wk parts := read_db (fun log => db_upload_parts db log (ac_tenant_id a) upload) in
  wk payload := read_db (fun log => db_payload db log (ac_tenant_id a) (u_payload_id (up_record row))) in
  if negb (String.eqb (up_state row) "finalizing") || negb (up_fencing_token row =? fence) || negb (String.eqb (StorageLayout.p_state payload) "finalizing")
     || negb (N.eqb (p_backend_id payload) (st_backend_id st))
  then wk_ret (Err (StateConflicts "payload_not_finalizing"))
  else
    wk finalized := on_storage (finalize root (up_record row) payload parts (ac_capability_id a)) in
    wk _ := check_generations a (u_drive_id (up_record row)) in
    wk _ := write_db_ (MarkUploadFinalized upload fence (ac_capability_id a) (fo_digest finalized)) in
    wk cleaned := wk_try (on_storage (remove_staging_parts root parts)) in
    wk _ := match cleaned with
            | Ok _ => wk _ := write_db (MarkUploadStagingCleaned upload) in wk_ret (Ok tt)
            | Err _ => wk_ret (Ok tt)
            end in
    wk_ret (Ok (mkObjectResult upload (u_payload_id (up_record row)) (fo_size finalized) (fo_digest finalized) "finalized")).

(** [finish_upload_finalization]: an error gives the lease back *)
Definition finish_upload_finalization (a : AuthorizedCapability) (upload : Uuid) (fence : Z) : Wk ObjectResult :=
  wk r := wk_try (finish_upload_finalization_inner a upload fence) in
  match r with
  | Ok answer => wk_ret (Ok answer)
  | Err e => wk _ := write_db (AbortUploadFinalization upload fence (ac_capability_id a)) in wk_ret (Err e)
  end.

Definition finalize_upload (upload_id_ : string) (headers : HeaderMap) : Wk ObjectResult :=
  wk upload := wk_ret (path_uuid upload_id_ "invalid_upload_id") in
  wk a := wk_ret (authorize st headers OpFinalizeUpload now) in
  wk claim_upload := wk_ret (parse_required_uuid (upload_id (ac_claims a))) in
  wk claim_payload := wk_ret (parse_required_uuid (payload_id (ac_claims a))) in
  if negb (N.eqb claim_upload upload) then wk_ret (Err Forbidden)
  else
    wk row := read_db (fun log => db_upload db log (ac_tenant_id a) upload) in
    wk _ := wk_ret (validate_upload_capability a row claim_payload (st_backend_id st)) in
    wk _ := check_generations a (u_drive_id (up_record row)) in
    wk _ := consume_nonce a "finalize_upload" in
    wk fence := wk_ret (claimed_fence a) in
    wk _ := write_db_ (ClaimUploadFinalization upload fence (ac_capability_id a) FINALIZATION_LEASE_SECONDS) in
    finish_upload_finalization a upload fence.

(** ** Reads *)

(** A response with the headers that depend on the request; the body is streamed from the
    segments, and [br_rechecks] says for which drive the stream rechecks the generations. *)
Record BinaryResponse := mkBinary {
  br_status : Z; br_content_length : string; br_content_range : option string; br_body : option (list DownloadSegment); br_rechecks : option (AuthorizedCapability * Uuid)
}.

Definition content_range (start end_ size : Z) : string :=
  "bytes " +:+ dec_to_string start +:+ "-" +:+ dec_to_string end_ +:+ "/" +:+ dec_to_string size.

Definition binary_response (head : bool) (size start end_ : Z) (partial : bool) (segments : list DownloadSegment) (rechecks : option (AuthorizedCapability * Uuid)) : BinaryResponse :=
  mkBinary (if partial then 206 else 200) (dec_to_string (if size =? 0 then 0 else end_ - start + 1))
    (if partial then Some (content_range start end_ size) else None)
    (if head || (size =? 0) then None else Some segments) rechecks.

Definition mount_base_chunk (part : MountPayloadPartRecord) : result StorageError CowBaseChunk :=
  let? number := ok_or StateConflict (u64_try_from (mpp_chunk_number part)) in
  let? size := ok_or StateConflict (u64_try_from (mpp_size_bytes part)) in
  Ok (mkBaseChunk number size (mpp_blake3 part)).

(** the segments of a payload of either layout *)
Definition payload_segments (payload : PayloadRecord) (parts : list MountPayloadPartRecord) (start end_ : Z) : St (list DownloadSegment) :=
  if String.eqb (p_layout payload) "whole" then verified_whole_object_segment root payload start end_
  else
    let! chunks := of_result (try_map mount_base_chunk parts) in
    verified_chunked_object_segments root payload chunks start end_.

Definition download (grant_id_ : string) (headers : HeaderMap) (head : bool) : Wk BinaryResponse :=
  wk grant := wk_ret (path_uuid grant_id_ "invalid_grant_id") in
  wk a := wk_ret (authorize st headers OpDownload now) in
  wk _ := wk_ret (require_uuid (grant_id (ac_claims a)) grant) in
  wk payload_ := wk_ret (parse_required_uuid (payload_id (ac_claims a))) in
  wk payload := read_db (fun log => db_payload db log (ac_tenant_id a) payload_) in
  if negb (String.eqb (StorageLayout.p_state payload) "referenced") || negb (N.eqb (p_backend_id payload) (st_backend_id st))
  then wk_ret (Err (StateConflicts "payload_not_referenced"))
  else
    wk _ := check_generations a (p_drive_id payload) in
    wk upload := read_db (fun log => db_upload_for_payload db log (ac_tenant_id a) payload_) in
    wk parts := read_db (fun log => db_upload_parts db log (ac_tenant_id a) (up_upload_id upload)) in
    wk size := wk_ret (ok_or StorageFailure (u64_try_from (StorageLayout.p_size_bytes payload))) in
    wk range := wk_ret (requested_range (header_get "range" headers) size (ac_claims a)) in
    wk segments := on_storage (verified_download_segments root (up_record upload) payload parts range.1.1 range.1.2) in
    wk _ := check_generations a (p_drive_id payload) in
    wk_ret (Ok (binary_response head size range.1.1 range.1.2 range.2 segments (Some (a, p_drive_id payload)))).

Definition read_revision_chunk (chunk_id_ : string) (headers : HeaderMap) (head : bool) : Wk BinaryResponse :=
  wk chunk := wk_ret (path_uuid chunk_id_ "invalid_chunk_id") in
  wk a := wk_ret (authorize st headers OpReadRevisionChunk now) in
  wk locator := wk_ret (revision_chunk_locator a chunk) in
  wk range := wk_ret (requested_range (header_get "range" headers) (rl_size locator) (ac_claims a)) in
  wk segment := on_storage (verified_revision_chunk_segment root locator range.1.1 range.1.2) in
  wk_ret (Ok (binary_response head (rl_size locator) range.1.1 range.1.2 range.2 [segment] None)).

Definition read_revision_legacy_payload (payload_id_ : string) (headers : HeaderMap) (head : bool) : Wk BinaryResponse :=
  wk payload_ := wk_ret (path_uuid payload_id_ "invalid_payload_id") in
  wk a := wk_ret (authorize st headers OpReadRevisionLegacyPayload now) in
  wk _ := wk_ret (validate_revision_legacy_payload_capability a payload_) in
  wk payload := read_db (fun log => db_payload db log (ac_tenant_id a) payload_) in
  if negb (String.eqb (StorageLayout.p_state payload) "referenced") || negb (N.eqb (p_backend_id payload) (st_backend_id st))
  then wk_ret (Err (StateConflicts "legacy_payload_not_referenced"))
  else if negb (N.eqb (p_drive_id payload) (ac_resource_id a)) then wk_ret (Err Forbidden)
  else
    wk size := wk_ret (ok_or StorageFailure (u64_try_from (StorageLayout.p_size_bytes payload))) in
    wk _ := wk_ret (validate_exact_range a size) in
    wk range := wk_ret (requested_range (header_get "range" headers) size (ac_claims a)) in
    wk parts := if String.eqb (p_layout payload) "chunked" then read_db (fun log => db_payload_parts db log (ac_tenant_id a) payload_) else wk_ret (Ok []) in
    wk segments := on_storage (payload_segments payload parts range.1.1 range.1.2) in
    wk_ret (Ok (binary_response head size range.1.1 range.1.2 range.2 segments None)).

(** a payload that is complete *)
Definition payload_finalized (payload : PayloadRecord) : bool :=
  String.eqb (StorageLayout.p_state payload) "finalized" || String.eqb (StorageLayout.p_state payload) "referenced".

Definition read_document_version (session_id_ version_id_ : string) (headers : HeaderMap) (head : bool) : Wk BinaryResponse :=
  wk session := wk_ret (path_uuid session_id_ "invalid_session_id") in
  wk version := wk_ret (path_uuid version_id_ "invalid_version_id") in
  wk a := wk_ret (authorize st headers OpReadDocumentVersion now) in
  wk row := fun w => (match db_document_version db (ww_log w) (ac_tenant_id a) session version with
                      | Ok row => ok_or (ObjectNotFound "document_version_not_found") row
                      | Err _ => Err StorageFailure
                      end, w) in
  wk _ := wk_ret (require_uuid (upload_id (ac_claims a)) session) in
  wk _ := wk_ret (require_uuid (grant_id (ac_claims a)) version) in
  wk _ := wk_ret (require_uuid (payload_id (ac_claims a)) (dv_payload_id row)) in
  if negb (N.eqb (ac_resource_id a) (dv_node_id row)) then wk_ret (Err Forbidden)
  else
    wk fence := wk_ret (claimed_fence a) in
    if negb (fence =? dv_fencing_token row) then wk_ret (Err Forbidden)
    else
      wk _ := check_generations a (dv_drive_id row) in
      wk payload := read_db (fun log => db_payload db log (ac_tenant_id a) (dv_payload_id row)) in
      if negb (payload_finalized payload) then wk_ret (Err (StateConflicts "payload_not_finalized"))
      else
        wk size := wk_ret (ok_or StorageFailure (u64_try_from (StorageLayout.p_size_bytes payload))) in
        wk range := wk_ret (requested_range (header_get "range" headers) size (ac_claims a)) in
        wk segments := on_storage (verified_whole_object_segment root payload range.1.1 range.1.2) in
        wk _ := check_generations a (dv_drive_id row) in
        wk_ret (Ok (binary_response head size range.1.1 range.1.2 range.2 segments (Some (a, dv_drive_id row)))).

Definition read_collaboration_object (object_id_ : string) (headers : HeaderMap) (head : bool) : Wk BinaryResponse :=
  wk id := wk_ret (path_uuid object_id_ "invalid_object_id") in
  wk a := wk_ret (authorize st headers OpReadCollaborationObject now) in
  wk object := read_db (fun log => db_object db log (ac_tenant_id a) id) in
  wk _ := wk_ret (validate_collaboration_capability a object (st_backend_id st)) in
  if negb (bool_decide (ob_state object = Durable)) then wk_ret (Err (StateConflicts "collaboration_object_not_durable"))
  else
    wk _ := check_generations a (ob_drive_id object) in
    wk payload := read_db (fun log => db_payload db log (ac_tenant_id a) (ob_payload_id object)) in
    if negb (payload_finalized payload) then wk_ret (Err (StateConflicts "payload_not_finalized"))
    else
      wk size := wk_ret (ok_or StorageFailure (u64_try_from (StorageLayout.p_size_bytes payload))) in
      wk range := wk_ret (requested_range (header_get "range" headers) size (ac_claims a)) in
      wk segments := on_storage (verified_whole_object_segment root payload range.1.1 range.1.2) in
      wk_ret (Ok (binary_response head size range.1.1 range.1.2 range.2 segments (Some (a, ob_drive_id object)))).

(** ** Writes of collaboration objects, documents and revision chunks *)

Definition write_revision_chunk (chunk_id_ : string) (headers : HeaderMap) (body : BodyStream) : Wk RevisionChunkResult :=
  wk chunk := wk_ret (path_uuid chunk_id_ "invalid_chunk_id") in
  wk a := wk_ret (authorize st headers OpWriteRevisionChunk now) in
  wk locator := wk_ret (revision_chunk_locator a chunk) in
  wk _ := wk_ret (check_content_length headers (rl_size locator) "revision_chunk_size_mismatch") in
  wk _ := consume_nonce a "revision_write_chunk" in
  wk temporary := on_storage (revision_chunk_staging_path root (rl_drive_id locator) (ac_capability_id a)) in
  wk r := write_body body temporary (rl_size locator) in
  if negb (r.1 =? rl_size locator) || negb (bool_decide (r.2 = rl_digest locator))
  then wk _ := remove_quietly temporary in wk_ret (Err (StateConflicts "revision_chunk_digest_mismatch"))
  else
    wk _ := on_storage (publish_revision_chunk root temporary locator) in
    wk_ret (Ok (mkChunkResult chunk (rl_drive_id locator) (rl_size locator) (rl_digest locator))).

Definition delete_revision_chunk_request (chunk_id_ : string) (headers : HeaderMap) : Wk unit :=
  wk chunk := wk_ret (path_uuid chunk_id_ "invalid_chunk_id") in
  wk a := wk_ret (authorize st headers OpDeleteRevisionChunk now) in
  wk locator := wk_ret (revision_chunk_locator a chunk) in
  wk _ := consume_nonce a "revision_delete_chunk" in
  on_storage (delete_revision_chunk root locator (ac_capability_id a)).

(** the checks that both requests on a document revision make, with the reserved size *)
Definition admit_document_revision (revision_id_ : string) (headers : HeaderMap) (op : CapabilityOperation) : Wk (Uuid * AuthorizedCapability * DocumentIoContext * Z) :=
  wk revision := wk_ret (path_uuid revision_id_ "invalid_revision_id") in
  wk a := wk_ret (authorize st headers op now) in
  wk context := read_db (fun log => db_document_context db log (ac_tenant_id a) revision) in
  wk _ := wk_ret (validate_document_revision_capability a revision context) in
  if negb (String.eqb (dc_revision_state context) "staging") then wk_ret (Err (StateConflicts "document_revision_not_staging"))
  else
    wk expected := wk_ret (ok_or StorageFailure (u64_try_from (dc_reserved_bytes context))) in
    wk _ := wk_ret (validate_exact_range a expected) in
    wk_ret (Ok (revision, a, context, expected)).

Definition write_document_revision (revision_id_ : string) (headers : HeaderMap) (body : BodyStream) : Wk ObjectResult :=
  wk admitted := admit_document_revision revision_id_ headers OpWriteDocumentRevision in
  let '(revision, a, context, expected) := admitted in
  wk _ := wk_ret (check_content_length headers expected "document_revision_size_mismatch") in
  wk _ := check_generations a (dc_drive_id context) in
  wk _ := consume_nonce a "write_document_revision" in
  wk temporary := on_storage (staging_temporary_path root (dc_revision_id context) (ac_capability_id a)) in
  wk r := write_body body temporary expected in
  wk payload_ := wk_ret (ok_or StorageFailure (dc_payload_id context)) in
  wk payload := read_db (fun log => db_payload db log (ac_tenant_id a) payload_) in
  wk _ := on_storage (publish_staging_part root temporary (StorageLayout.p_locator payload) r.1 r.2) in
  wk_ret (Ok (mkObjectResult revision (p_payload_id payload) r.1 r.2 "staged")).

Definition finalize_document_revision (revision_id_ : string) (headers : HeaderMap) : Wk ObjectResult :=
  wk admitted := admit_document_revision revision_id_ headers OpFinalizeDocumentRevision in
  let '(revision, a, context, expected) := admitted in
  wk _ := check_generations a (dc_drive_id context) in
  wk _ := consume_nonce a "finalize_document_revision" in
  wk payload_ := wk_ret (ok_or StorageFailure (dc_payload_id context)) in
  wk payload := read_db (fun log => db_payload db log (ac_tenant_id a) payload_) in
  wk staged := on_storage (verify_staging_object root (StorageLayout.p_locator payload) expected) in
  wk finalized := on_storage (finalize_whole_object root payload (fo_size staged) (fo_digest staged)) in
  wk _ := check_generations a (dc_drive_id context) in
  wk size := wk_ret (ok_or StorageFailure (i64_try_from (fo_size finalized))) in
  wk media := wk_ret (ok_or (BadRequest "document_media_type_missing") (dc_media_type context)) in
  wk r := write_db (FinalizeDocumentRevision revision (dc_fencing_token context) size (fo_digest finalized) media) in
  wk state := wk_ret match r with Ok state => Ok state | Err StaleGeneration => Err Forbidden | Err e => Err (app_database_error e) end in
  wk _ := wk_try (on_storage (remove_staging_locator root (StorageLayout.p_locator payload))) in
  wk_ret (Ok (mkObjectResult revision payload_ (fo_size finalized) (fo_digest finalized) (if String.eqb state "checkpoint" then "checkpoint" else "durable"))).

Definition write_collaboration_object (object_id_ : string) (headers : HeaderMap) (body : BodyStream) : Wk ObjectResult :=
  wk id := wk_ret (path_uuid object_id_ "invalid_object_id") in
  wk a := wk_ret (authorize st headers OpWriteCollaborationObject now) in
  wk object := read_db (fun log => db_object db log (ac_tenant_id a) id) in
  wk _ := wk_ret (validate_collaboration_capability a object (st_backend_id st)) in
  wk _ := check_generations a (ob_drive_id object) in
  if negb (bool_decide (ob_state object = Staging)) then wk_ret (Err (StateConflicts "collaboration_object_not_staging"))
  else
    wk expected := wk_ret (ok_or StorageFailure (u64_try_from (ob_reserved_bytes object))) in
    wk _ := wk_ret (validate_exact_range a expected) in
    wk _ := wk_ret (check_content_length headers expected "object_size_mismatch") in
    wk _ := consume_nonce a "write_collaboration_object" in
    wk temporary := on_storage (staging_temporary_path root (ob_payload_locator object) (ac_capability_id a)) in
    wk r := write_body body temporary expected in
    wk _ := on_storage (publish_staging_part root temporary (ob_payload_locator object) r.1 r.2) in
    wk_ret (Ok (mkObjectResult id (ob_payload_id object) r.1 r.2 "staged")).

Definition finalize_collaboration_object (object_id_ : string) (headers : HeaderMap) : Wk ObjectResult :=
  wk id := wk_ret (path_uuid object_id_ "invalid_object_id") in
  wk a := wk_ret (authorize st headers OpFinalizeCollaborationObject now) in
  wk object := read_db (fun log => db_object db log (ac_tenant_id a) id) in
  wk _ := wk_ret (validate_collaboration_capability a object (st_backend_id st)) in
  wk _ := check_generations a (ob_drive_id object) in
  wk expected := wk_ret (ok_or StorageFailure (u64_try_from (ob_reserved_bytes object))) in
  wk _ := wk_ret (validate_exact_range a expected) in
  wk _ := consume_nonce a "finalize_collaboration_object" in
  wk staged := on_storage (verify_staging_object root (ob_payload_locator object) expected) in
  wk payload := read_db (fun log => db_payload db log (ac_tenant_id a) (ob_payload_id object)) in
  wk finalized := on_storage (finalize_whole_object root payload (fo_size staged) (fo_digest staged)) in
  wk _ := check_generations a (ob_drive_id object) in
  let generation x := ok_or Unauthorized (i64_try_from x) in
  wk membership := wk_ret (generation (membership_generation (ac_claims a))) in
  wk drive_acl := wk_ret (generation (drive_acl_generation (ac_claims a))) in
  wk namespace := wk_ret (generation (namespace_generation (ac_claims a))) in
  wk resource_acl := wk_ret (generation (resource_acl_generation (ac_claims a))) in
  wk size := wk_ret (ok_or StorageFailure (i64_try_from (fo_size finalized))) in
  let authorization := mkAuthorization (ac_principal_id a) (ac_session_id a) (ob_drive_id object) (ac_resource_id a)
                         (mkGenerations membership drive_acl namespace resource_acl) in
  wk _ := write_db_ (FinalizeCollaborationObject id (ob_fencing_token object) authorization size (fo_digest finalized)) in
  wk _ := wk_try (on_storage (remove_staging_locator root (ob_payload_locator object))) in
  wk_ret (Ok (mkObjectResult id (ob_payload_id object) (fo_size finalized) (fo_digest finalized) "durable")).

(** ** The router *)

(** The requests of the routes for uploads, downloads, revision chunks, legacy payloads,
    document versions and revisions, and collaboration objects.  The routes [/io/v1/mount-*]
    of the same router have capabilities, replay receipts and handlers of their own, and are
    not among them. *)
Inductive Request :=
| RqUploadPart (upload part : string) (body : BodyStream)
| RqFinalizeUpload (upload : string)
| RqDownload (grant : string) (head : bool)
| RqWriteRevisionChunk (chunk : string) (body : BodyStream)
| RqReadRevisionChunk (chunk : string) (head : bool)
| RqDeleteRevisionChunk (chunk : string)
| RqReadRevisionLegacyPayload (payload : string) (head : bool)
| RqReadDocumentVersion (session version : string) (head : bool)
| RqWriteDocumentRevision (revision : string) (body : BodyStream)
| RqFinalizeDocumentRevision (revision : string)
| RqWriteCollaborationObject (object : string) (body : BodyStream)
| RqFinalizeCollaborationObject (object : string)
| RqReadCollaborationObject (object : string) (head : bool).

Inductive Answer := AnPart (r : PartResult) | AnObject (r : ObjectResult) | AnBinary (r : BinaryResponse) | AnChunk (r : RevisionChunkResult) | AnNoContent.

Definition wk_map {A B} (f : A -> B) (m : Wk A) : Wk B := wk x := m in wk_ret (Ok (f x)).

Definition route (q : Request) (headers : HeaderMap) : Wk Answer :=
  match q with
  | RqUploadPart upload part body => wk_map AnPart (upload_part upload part headers body)
  | RqFinalizeUpload upload => wk_map AnObject (finalize_upload upload headers)
  | RqDownload grant head => wk_map AnBinary (download grant headers head)
  | RqWriteRevisionChunk chunk body => wk_map AnChunk (write_revision_chunk chunk headers body)
  | RqReadRevisionChunk chunk head => wk_map AnBinary (read_revision_chunk chunk headers head)
  | RqDeleteRevisionChunk chunk => wk_map (fun _ => AnNoContent) (delete_revision_chunk_request chunk headers)
  | RqReadRevisionLegacyPayload payload head => wk_map AnBinary (read_revision_legacy_payload payload headers head)
  | RqReadDocumentVersion session version head => wk_map AnBinary (read_document_version session version headers head)
  | RqWriteDocumentRevision revision body => wk_map AnObject (write_document_revision revision headers body)
  | RqFinalizeDocumentRevision revision => wk_map AnObject (finalize_document_revision revision headers)
  | RqWriteCollaborationObject object body => wk_map AnObject (write_collaboration_object object headers body)
  | RqFinalizeCollaborationObject object => wk_map AnObject (finalize_collaboration_object object headers)
  | RqReadCollaborationObject object head => wk_map AnBinary (read_collaboration_object object headers head)
  end.
End handlers.
