(* ===== verification/WorkerProofs.v ===== *)
(** Theorems on the I/O worker: nothing but directories changes without a verified
    capability of the right operation for the named object, and a capability changes
    something at most once. *)
From S2P Require Import Prelude Collections Libraries Keyset Frames Capability Web CollaborationStore PosixFs StorageLayout StorageFacts StorageProofs StorageReads WorkerIo.

Open Scope string_scope.
Open Scope Z_scope.
Open Scope list_scope.
Open Scope bool_scope.
Open Scope filebelt_scope.

(** ** Storage operations that only look *)

Create HintDb looks.
Create HintDb worker.

(** Whatever fails, no file is created, changed or removed. *)
Definition looks {A} (m : St A) : Prop := forall s, fs_wf s -> wp true m s (fun _ s' => evolves [] [] s s' /\ fs_wf s').

Lemma looks_ret {A} (a : A) : looks (ret a).
Proof. intros s Hwf. apply wp_ret. auto with filebelt. Qed.
Lemma looks_fail {A} e : looks (A := A) (fail e).
Proof. intros s Hwf. apply wp_fail. auto with filebelt. Qed.
Lemma looks_of_result {A} (r : result StorageError A) : looks (of_result r).
Proof. intros s Hwf. apply wp_of_result. auto with filebelt. Qed.
Lemma looks_bind {A B} (m : St A) (k : A -> St B) : looks m -> (forall a, looks (k a)) -> looks (bind m k).
Proof.
  intros Hm Hk s Hwf. apply wp_bind. eapply wp_mono; [by apply Hm|]. intros [a|e] s' [Hev Hwf']; [|done].
  eapply wp_mono; [by apply Hk|]. intros r s'' [Hev' Hwf'']. split; [by eapply evolves_trans|done].
Qed.
Lemma looks_checks m (P : Fs -> Prop) : (forall s, fs_wf s -> checks true m s (P s)) -> looks m.
Proof. intros Hm s Hwf. eapply wp_mono; [by apply Hm|]. intros r s' (-> & _). auto with filebelt. Qed.
Lemma looks_if {A} (b : bool) (m m' : St A) : looks m -> looks m' -> looks (if b then m else m').
Proof. by destruct b. Qed.

Section looking.
Context `{UuidLib, Blake3Lib, Readdir, FileTimes}.
Context (root : path).

Lemma looks_verify_file p size digest : looks (verify_file p size digest).
Proof. apply (looks_checks _ (fun s => stored s p size digest)). intros s Hwf. by apply verify_file_checks. Qed.
Lemma looks_verify_directory p : looks (verify_directory p).
Proof. apply (looks_checks _ (fun s => secure_dir s p)). intros s Hwf. by apply verify_directory_checks. Qed.

Lemma looks_child p c : looks (child_directory p c).
Proof. intros s Hwf. eapply wp_mono; [by apply wp_child_directory|]. by intros r s' (? & ? & _). Qed.
Lemma looks_shard area locator : looks (shard_directory root area locator).
Proof. intros s Hwf. eapply wp_mono; [by apply wp_shard_directory|]. by intros r s' (? & ? & _). Qed.

#[local] Hint Resolve looks_ret looks_fail looks_of_result looks_bind looks_if looks_verify_file looks_verify_directory looks_child looks_shard : looks.

Lemma looks_payload_path p : looks (payload_path root p).
Proof. unfold payload_path. eauto with looks. Qed.
Lemma looks_revision_chunk_path l : looks (revision_chunk_path root l).
Proof. unfold revision_chunk_path, revision_chunk_directory. eauto 8 with looks. Qed.
Lemma looks_verify_part p part : looks (verify_part p part).
Proof. unfold verify_part. eauto with looks. Qed.
#[local] Hint Resolve looks_payload_path looks_revision_chunk_path looks_verify_part : looks.

Lemma looks_whole p a b : looks (verified_whole_object_segment root p a b).
Proof. unfold verified_whole_object_segment. eauto 12 with looks. Qed.
Lemma looks_revision l a b : looks (verified_revision_chunk_segment root l a b).
Proof. unfold verified_revision_chunk_segment. eauto 8 with looks. Qed.

Lemma looks_chunk_segments directory size a b index off chunks : looks (chunk_segments directory size a b index off chunks).
Proof. revert index off. induction chunks as [|c chunks IH]; intros index off; simpl; eauto 16 with looks. Qed.
Lemma looks_part_segments p a b off parts : looks (part_segments p a b off parts).
Proof. revert off. induction parts as [|c parts IH]; intros off; simpl; eauto 12 with looks. Qed.
#[local] Hint Resolve looks_chunk_segments looks_part_segments looks_whole looks_revision : looks.

Lemma looks_chunked p chunks a b : looks (verified_chunked_object_segments root p chunks a b).
Proof. unfold verified_chunked_object_segments. apply looks_if; [eauto with looks|]. apply looks_bind; [eauto with looks|]. intros size. apply looks_if; [destruct chunks; eauto with looks|]. eauto 12 with looks. Qed.
#[local] Hint Resolve looks_chunked : looks.

Lemma looks_payload_segments p parts a b : looks (payload_segments root p parts a b).
Proof. unfold payload_segments. eauto with looks. Qed.
Lemma looks_download u p parts a b : looks (verified_download_segments root u p parts a b).
Proof.
  unfold verified_download_segments. apply looks_bind; [eauto with looks|intros _]. apply looks_bind; [eauto with looks|intros final].
  apply looks_if; [destruct parts; eauto with looks|]. apply looks_bind; [eauto with looks|intros size]. apply looks_if; [eauto with looks|].
  apply looks_if; [destruct parts; eauto with looks|]. eauto 10 with looks.
Qed.
End looking.

(** ** Handlers *)

Abbreviation fsw w := (w_fs (ww_storage w)).

(** Nothing happened, except that directories may have been created. *)
Definition quiet (w w' : Ww) : Prop := evolves [] [] (fsw w) (fsw w') /\ fs_wf (fsw w') /\ ww_nonces w' = ww_nonces w /\ ww_log w' = ww_log w.

Lemma worker_quiet_refl w : fs_wf (fsw w) -> quiet w w.
Proof. intros. split; auto with filebelt. Qed.
Lemma worker_quiet_trans w1 w2 w3 : quiet w1 w2 -> quiet w2 w3 -> quiet w1 w3.
Proof. intros (? & ? & Hn & Hl) (? & ? & Hn' & Hl'). split; [by eapply evolves_trans|]. by rewrite Hn', Hl', Hn, Hl. Qed.

(** a part of a handler that only looks *)
Definition gentle {A} (m : Wk A) : Prop := forall w, fs_wf (fsw w) -> quiet w (m w).2.
(** a part of a handler that consumes no nonce *)
Definition later {A} (m : Wk A) : Prop := forall w, ww_nonces (m w).2 = ww_nonces w /\ ww_log w `prefix_of` ww_log (m w).2.

Lemma gentle_ret {A} (r : result AppError A) : gentle (wk_ret r).
Proof. intros w Hw. by apply worker_quiet_refl. Qed.
Lemma gentle_bind {A B} (m : Wk A) (k : A -> Wk B) : gentle m -> (forall a, gentle (k a)) -> gentle (wk_bind m k).
Proof.
  intros Hm Hk w Hw. unfold wk_bind. specialize (Hm w Hw). destruct (m w) as [[a|e] w']; [|done]. eapply worker_quiet_trans; [exact Hm|]. apply Hk. by apply Hm.
Qed.
Lemma gentle_storage {A} (m : St A) : looks m -> gentle (on_storage m).
Proof.
  intros Hm w Hw. unfold on_storage. destruct (ww_storage w) as [s fl] eqn:Hs. simpl in Hw. specialize (Hm s Hw fl ltac:(done)).
  destruct (m (PosixFs.mkWorld s fl)) as [r [s' fl']]. destruct Hm as [[Hev Hwf] _]. split; [simpl; by rewrite Hs|]. by split.
Qed.
Lemma gentle_same {A} (f : Ww -> result AppError A) : gentle (fun w => (f w, w)).
Proof. intros w Hw. by apply worker_quiet_refl. Qed.
Lemma gentle_if {A} (b : bool) (m m' : Wk A) : gentle m -> gentle m' -> gentle (if b then m else m').
Proof. by destruct b. Qed.

Lemma later_ret {A} (r : result AppError A) : later (wk_ret r).
Proof. intros w. by split. Qed.
Lemma later_bind {A B} (m : Wk A) (k : A -> Wk B) : later m -> (forall a, later (k a)) -> later (wk_bind m k).
Proof.
  intros Hm Hk w. unfold wk_bind. specialize (Hm w). destruct (m w) as [[a|e] w']; [|done]. destruct Hm as [Hn Hl]. destruct (Hk a w') as [Hn' Hl'].
  split; [by rewrite Hn'|by etrans].
Qed.
Lemma later_try {A} (m : Wk A) : later m -> later (wk_try m).
Proof. intros Hm w. unfold wk_try. specialize (Hm w). by destruct (m w). Qed.
Lemma later_storage {A} (m : St A) : later (on_storage m).
Proof. intros w. unfold on_storage. by destruct (m (ww_storage w)). Qed.
Lemma later_sys {A} e (f : Fs -> result IoError (A * Fs)) : later (sys_or e f).
Proof. intros w. unfold sys_or. by destruct (sys f (ww_storage w)). Qed.
Lemma later_same {A} (f : Ww -> result AppError A) : later (fun w => (f w, w)).
Proof. intros w. by split. Qed.
Lemma later_if {A} (b : bool) (m m' : Wk A) : later m -> later m' -> later (if b then m else m').
Proof. by destruct b. Qed.
Lemma later_map {A B} (f : A -> B) m : later m -> later (wk_map f m).
Proof. intros Hm. apply later_bind; [done|]. intros a. apply later_ret. Qed.
#[export] Hint Resolve gentle_ret gentle_storage gentle_same gentle_if later_ret later_bind later_try later_storage later_sys later_same later_if : worker.

Section guards.
Context `{UuidLib, Base64Lib, Blake3Lib, Ed25519Lib, Readdir, FileTimes}.
Context `{!ProstMessage CapabilityClaims, !ProstMessage SignedCapability}.
Context (root : path) (db : Db) (st : AppState) (now : Z) (new_file_mode : Z).

Abbreviation digest_of_nonce a := (nonce_digest "filebelt-capability-nonce-v1" (nonce (ac_claims a))).

(** The nonce of the capability was free, and is taken. *)
Definition consumed (a : AuthorizedCapability) (w w' : Ww) : Prop :=
  exists operation,
    existsb (same_nonce (ac_tenant_id a) (digest_of_nonce a)) (ww_nonces w) = false
    /\ ww_nonces w' = ww_nonces w ++ [mkNonceRow (ac_tenant_id a) (digest_of_nonce a) operation (expires_at_unix_seconds (ac_claims a))]
    /\ exists more, ww_log w' = ww_log w ++ ConsumeNonce (digest_of_nonce a) operation (expires_at_unix_seconds (ac_claims a)) :: more.

(** The nonce could not be consumed, and nothing else happened. *)
Definition refused (w w' : Ww) : Prop :=
  evolves [] [] (fsw w) (fsw w') /\ fs_wf (fsw w') /\ ww_nonces w `prefix_of` ww_nonces w' /\ exists digest operation expires, ww_log w' = ww_log w ++ [ConsumeNonce digest operation expires].

(** The row that the nonce of the capability takes. *)
Definition nonce_row (a : AuthorizedCapability) (operation : string) : NonceRow :=
  mkNonceRow (ac_tenant_id a) (digest_of_nonce a) operation (expires_at_unix_seconds (ac_claims a)).
Definition taken (a : AuthorizedCapability) (w w' : Ww) : Prop :=
  existsb (same_nonce (ac_tenant_id a) (digest_of_nonce a)) (ww_nonces w) = false /\ exists operation, nonce_row a operation ∈ ww_nonces w'.

(** Nonces are only added, and success takes the nonce of a capability with [P]. *)
Definition takes (P : AuthorizedCapability -> Prop) {A} (m : Wk A) : Prop :=
  forall w, ww_nonces w `prefix_of` ww_nonces (m w).2 /\ forall x, (m w).1 = Ok x -> exists a, P a /\ taken a w (m w).2.

(** Before a handler does anything else it consumes the nonce of a capability with [P]. *)
Definition guarded (P : AuthorizedCapability -> Prop) {A} (m : Wk A) : Prop :=
  takes P m /\ forall w, fs_wf (fsw w) ->
    (~ (exists x, (m w).1 = Ok x) /\ (quiet w (m w).2 \/ refused w (m w).2)) \/ exists a, P a /\ consumed a w (m w).2.

Lemma quiet_consumed a w1 w2 w3 : quiet w1 w2 -> consumed a w2 w3 -> consumed a w1 w3.
Proof. intros (_ & _ & Hn & Hl) (op & Hf & Hn' & more & Hl'). exists op. rewrite Hn in Hf, Hn'. split_and!; [done..|]. exists more. by rewrite Hl', Hl. Qed.
Lemma quiet_refused w1 w2 w3 : quiet w1 w2 -> refused w2 w3 -> refused w1 w3.
Proof. intros (He & _ & Hn & Hl) (He' & Hwf & Hn' & d & o & e & Hl'). split; [by eapply evolves_trans|]. rewrite <-Hn, <-Hl. eauto 10. Qed.

Lemma guarded_gentle P {A B} (m : Wk A) (k : A -> Wk B) :
  gentle m -> later m -> (forall w a w', m w = (Ok a, w') -> guarded P (k a)) -> guarded P (wk_bind m k).
Proof.
  intros Hm Hl Hk. split.
  - intros w. unfold wk_bind. destruct (Hl w) as [Hn _]. destruct (m w) as [[a|e] w'] eqn:Hmw; simpl in *; [|by rewrite Hn].
    unfold taken. rewrite <-Hn. apply (Hk _ _ _ Hmw).
  - intros w Hw. unfold wk_bind. specialize (Hm w Hw). destruct (m w) as [[a|e] w'] eqn:Hmw.
    + destruct (Hk _ _ _ Hmw) as [_ Hk']. destruct (Hk' w') as [[Hne [Hq|Hr]]|(c & Hc & Hcon)]; [by apply Hm| | |].
      * left. split; [done|]. left. by eapply worker_quiet_trans.
      * left. split; [done|]. right. by eapply quiet_refused.
      * right. exists c. split; [done|]. by eapply quiet_consumed.
    + left. split; [by intros [x ?]|by left].
Qed.
Lemma guarded_err P {A} e : guarded P (A := A) (wk_ret (Err e)).
Proof. split; [by intros w|]. intros w Hw. left. split; [by intros [x ?]|]. left. by apply worker_quiet_refl. Qed.
Lemma guarded_ret P {A B} (r : result AppError A) (k : A -> Wk B) : (forall a, r = Ok a -> guarded P (k a)) -> guarded P (wk_bind (wk_ret r) k).
Proof. intros Hk. destruct r as [a|e]; [by apply Hk|apply guarded_err]. Qed.
Lemma guarded_if P {A} (b : bool) (m m' : Wk A) : (b = true -> guarded P m) -> (b = false -> guarded P m') -> guarded P (if b then m else m').
Proof. destruct b; auto. Qed.
Lemma guarded_map P {A B} (f : A -> B) (m : Wk A) : guarded P m -> guarded P (wk_map f m).
Proof.
  intros [Ht Hm]. unfold wk_map, wk_bind, wk_ret. split.
  - intros w. specialize (Ht w) as [Hp Hx]. destruct (m w) as [[a|e] w']; simpl in *; [|by split]. split; [done|]. intros _ _. by eapply Hx.
  - intros w Hw. destruct (Hm w Hw) as [[Hne Hq]|Hc]; destruct (m w) as [[a|e] w']; eauto.
    + destruct Hne. eauto.
    + left. split; [by intros [x ?]|done].
Qed.

Lemma takes_consume (P : AuthorizedCapability -> Prop) a operation {B} (k : unit -> Wk B) :
  P a -> (forall x, later (k x)) -> takes P (wk_bind (consume_nonce db a operation) k).
Proof.
  intros HP Hk w. unfold wk_bind, consume_nonce, consume_capability_nonce. destruct (existsb _ _) eqn:Hfree; simpl.
  - by destruct (db_nonce_lost db (ww_log w)) as [[]|].
  - destruct (db_nonce_lost db (ww_log w)) as [[]|]; simpl; [by split; [apply prefix_app_r|]|done|].
    match goal with |- context [k tt ?w'] => destruct (Hk tt w') as [Hn _] end. simpl in Hn. rewrite Hn. split; [by apply prefix_app_r|].
    intros x _. exists a. split; [done|]. split; [done|]. exists operation. rewrite Hn. apply elem_of_app. right. by left.
Qed.

Lemma guarded_consume (P : AuthorizedCapability -> Prop) a operation {B} (k : unit -> Wk B) :
  P a -> (forall x, later (k x)) -> guarded P (wk_bind (consume_nonce db a operation) k).
Proof.
  intros HP Hk. split; [by apply takes_consume|]. intros w Hw. unfold wk_bind, consume_nonce, consume_capability_nonce. destruct (existsb _ _) eqn:Hfree; simpl.
  - left. assert (refused w (mkWw (ww_storage w) (ww_nonces w) (ww_log w ++ [ConsumeNonce (digest_of_nonce a) operation (expires_at_unix_seconds (ac_claims a))]))) as Hr.
    { split; [simpl; auto with filebelt|]. simpl. eauto 10. }
    destruct (db_nonce_lost db (ww_log w)) as [[]|]; simpl; (split; [by intros [x ?]|by right]).
  - destruct (db_nonce_lost db (ww_log w)) as [[]|]; simpl.
    1,2: left; split; [by intros [x ?]|]; right; split; [simpl; auto with filebelt|]; simpl; split; [done|]; split; [by first [done|apply prefix_app_r]|eauto 10].
    right. exists a. split; [done|]. match goal with |- consumed a w (k tt ?w').2 => destruct (Hk tt w') as [Hn [more Hl]] end. simpl in Hn, Hl.
    exists operation. split_and!; [done..|]. exists more. by rewrite Hl, <-app_assoc.
Qed.

(** ** The handlers, one by one *)

Lemma gentle_read_db {A} (f : list DbWrite -> result DatabaseError A) : gentle (read_db f).
Proof. apply gentle_same. Qed.
Lemma gentle_generations a drive : gentle (check_generations db a drive).
Proof. apply gentle_same. Qed.
Lemma later_read_db {A} (f : list DbWrite -> result DatabaseError A) : later (read_db f).
Proof. apply later_same. Qed.
Lemma later_generations a drive : later (check_generations db a drive).
Proof. apply later_same. Qed.
Lemma later_write_db e : later (write_db db e).
Proof. intros w. split; [done|]. simpl. by apply prefix_app_r. Qed.
#[local] Hint Resolve gentle_bind gentle_read_db gentle_generations later_read_db later_generations later_write_db : worker.
#[local] Hint Resolve looks_whole looks_revision looks_chunked looks_payload_segments looks_download : worker.

Lemma later_write_db_ e : later (write_db_ db e).
Proof. unfold write_db_. eauto with worker. Qed.
Lemma later_remove p : later (remove_quietly p).
Proof. unfold remove_quietly. eauto with worker. Qed.
Lemma later_pieces file size expected written body : later (write_pieces file size expected written body).
Proof. revert size written. induction body as [|[chunk|] body IH]; intros size written; simpl; eauto 6 with worker. Qed.
#[local] Hint Resolve later_write_db_ later_remove later_pieces : worker.
Lemma later_body body p expected : later (write_body new_file_mode body p expected).
Proof. unfold write_body. apply later_bind; [eauto with worker|intros file]. apply later_bind; [eauto with worker|intros _]. apply later_bind; [eauto 6 with worker|]. intros [r|e]; eauto with worker. Qed.
#[local] Hint Resolve later_body : worker.

Lemma later_finish a upload fence : later (finish_upload_finalization root db st a upload fence).
Proof.
  unfold finish_upload_finalization, finish_upload_finalization_inner. apply later_bind.
  - apply later_try. do 3 (apply later_bind; [eauto with worker|intros ?]). apply later_if; [eauto with worker|]. do 4 (apply later_bind; [eauto with worker|intros ?]).
    apply later_bind; [|eauto with worker]. match goal with |- later (match ?r with Ok _ => _ | Err _ => _ end) => destruct r end; eauto with worker.
  - intros [r|e]; eauto with worker.
Qed.

(** which requests change something, and the capability they need *)
Definition mutation_of (q : Request) : option CapabilityOperation :=
  match q with
  | RqUploadPart _ _ _ => Some OpUploadPart
  | RqFinalizeUpload _ => Some OpFinalizeUpload
  | RqWriteRevisionChunk _ _ => Some OpWriteRevisionChunk
  | RqDeleteRevisionChunk _ => Some OpDeleteRevisionChunk
  | RqWriteDocumentRevision _ _ => Some OpWriteDocumentRevision
  | RqFinalizeDocumentRevision _ => Some OpFinalizeDocumentRevision
  | RqWriteCollaborationObject _ _ => Some OpWriteCollaborationObject
  | RqFinalizeCollaborationObject _ => Some OpFinalizeCollaborationObject
  | _ => None
  end.

(** two texts of one identifier *)
Definition same_id (a b : string) : Prop := exists u, uuid_parse_str a = Some u /\ uuid_parse_str b = Some u.

(** The capability is about the object in the path of the request. *)
Definition names_object (q : Request) (c : CapabilityClaims) : Prop :=
  match q with
  | RqUploadPart upload part _ => same_id upload (upload_id c) /\ parse_i32 part = Some (Capability.part_number c)
  | RqFinalizeUpload upload => same_id upload (upload_id c)
  | RqWriteRevisionChunk chunk _ | RqDeleteRevisionChunk chunk => same_id chunk (payload_id c)
  | RqWriteDocumentRevision revision _ | RqFinalizeDocumentRevision revision => same_id revision (grant_id c)
  | RqWriteCollaborationObject object _ | RqFinalizeCollaborationObject object => same_id object (grant_id c)
  | _ => True
  end.

(** [SELECT ... FROM objects WHERE id=$2] *)
Context (db_object_id : forall log tenant id o, db_object db log tenant id = Ok o -> ob_id o = id).

Lemma ok_or_Some {E A} (e : E) (o : option A) a : ok_or e o = Ok a -> o = Some a.
Proof. by destruct o; simpl; [intros [= ->]|]. Qed.
Lemma require_uuid_Ok claim id : require_uuid claim id = Ok tt -> uuid_parse_str claim = Some id.
Proof. unfold require_uuid, parse_required_uuid. destruct (uuid_parse_str claim) as [v|]; [|done]. simpl. destruct (N.eqb v id) eqn:Hv; [|done]. by apply N.eqb_eq in Hv as ->. Qed.

(** the steps of a handler that only reads *)
Ltac gentle_steps :=
  repeat match goal with
  | |- gentle (wk_bind _ _) => apply gentle_bind; [eauto with worker|intros ?]
  | |- gentle (if _ then _ else _) => apply gentle_if
  | |- gentle _ => solve [eauto with worker]
  end.
(** the steps of a handler up to the nonce *)
Ltac guard_steps :=
  repeat match goal with
  | |- guarded _ (wk_bind (wk_ret _) _) => apply guarded_ret; intros ? ?
  | |- guarded _ (wk_bind (consume_nonce _ _ _) _) => apply guarded_consume; [|intros []]
  | |- guarded _ (wk_bind _ _) => apply guarded_gentle; [solve [eauto with worker]|solve [eauto with worker]|intros ? ? ? ?]
  | |- guarded _ (wk_ret (Err _)) => apply guarded_err
  | |- guarded _ (if _ then _ else _) => apply guarded_if; intros ?
  end.
(** the steps of a handler after the nonce *)
Ltac later_steps :=
  repeat match goal with
  | |- later (wk_bind _ _) => apply later_bind; [solve [eauto with worker]|intros ?]
  | |- later (if _ then _ else _) => apply later_if
  | |- later _ => solve [eauto with worker]
  end.

Section reads.
Variable headers : HeaderMap.

Lemma gentle_download grant head : gentle (download root db st now grant headers head).
Proof. unfold download. gentle_steps. Qed.
Lemma gentle_read_revision chunk head : gentle (read_revision_chunk root st now chunk headers head).
Proof. unfold read_revision_chunk. gentle_steps. Qed.
Lemma gentle_legacy payload head : gentle (read_revision_legacy_payload root db st now payload headers head).
Proof. unfold read_revision_legacy_payload. gentle_steps. Qed.
Lemma gentle_version session version head : gentle (read_document_version root db st now session version headers head).
Proof. unfold read_document_version. gentle_steps. Qed.
Lemma gentle_object object head : gentle (read_collaboration_object root db st now object headers head).
Proof. unfold read_collaboration_object. gentle_steps. Qed.

Definition admitted (q : Request) (op : CapabilityOperation) (a : AuthorizedCapability) : Prop :=
  authorize st headers op now = Ok a /\ names_object q (ac_claims a).

Lemma guarded_upload_part upload part body :
  guarded (admitted (RqUploadPart upload part body) OpUploadPart) (upload_part root db st now new_file_mode upload part headers body).
Proof.
  unfold upload_part. guard_steps; [|later_steps]. unfold path_uuid, parse_required_uuid in *. repeat match goal with H : ok_or _ _ = Ok _ |- _ => apply ok_or_Some in H end.
  split; [done|]. match goal with H : _ || _ = false |- _ => apply orb_false_iff in H as [Hu%negb_false_iff%N.eqb_eq Hn%negb_false_iff%Z.eqb_eq] end. subst.
  split; [by eexists|done].
Qed.
Lemma guarded_finalize_upload upload : guarded (admitted (RqFinalizeUpload upload) OpFinalizeUpload) (finalize_upload root db st now upload headers).
Proof.
  unfold finalize_upload. guard_steps; [|pose proof later_finish; later_steps]. unfold path_uuid, parse_required_uuid in *. repeat match goal with H : ok_or _ _ = Ok _ |- _ => apply ok_or_Some in H end.
  split; [done|]. match goal with H : negb (N.eqb _ _) = false |- _ => apply negb_false_iff, N.eqb_eq in H end. subst. by eexists.
Qed.

Lemma locator_names a chunk locator : revision_chunk_locator a chunk = Ok locator -> uuid_parse_str (payload_id (ac_claims a)) = Some chunk.
Proof.
  unfold revision_chunk_locator. destruct (parse_required_non_nil_uuid _); [|done]. simpl. destruct (parse_required_non_nil_uuid (grant_id _)); [|done]. simpl.
  destruct (uuid_is_nil chunk); [done|]. unfold parse_required_uuid. destruct (uuid_parse_str (payload_id _)) as [p|]; [|done]. simpl.
  destruct (N.eqb p chunk) eqn:Hp; [|done]. by apply N.eqb_eq in Hp as ->.
Qed.
Lemma guarded_write_chunk chunk body : guarded (admitted (RqWriteRevisionChunk chunk body) OpWriteRevisionChunk) (write_revision_chunk root db st now new_file_mode chunk headers body).
Proof.
  unfold write_revision_chunk. guard_steps; [|later_steps]. split; [done|]. match goal with H : revision_chunk_locator _ _ = Ok _ |- _ => apply locator_names in H end.
  unfold path_uuid in *. match goal with H : ok_or _ (uuid_parse_str chunk) = Ok _ |- _ => apply ok_or_Some in H end. by eexists.
Qed.
Lemma guarded_delete_chunk chunk : guarded (admitted (RqDeleteRevisionChunk chunk) OpDeleteRevisionChunk) (delete_revision_chunk_request root db st now chunk headers).
Proof.
  unfold delete_revision_chunk_request. guard_steps; [|later_steps]. split; [done|]. match goal with H : revision_chunk_locator _ _ = Ok _ |- _ => apply locator_names in H end.
  unfold path_uuid in *. match goal with H : ok_or _ (uuid_parse_str chunk) = Ok _ |- _ => apply ok_or_Some in H end. by eexists.
Qed.

Lemma read_db_Ok {A} (f : list DbWrite -> result DatabaseError A) w a w' : read_db f w = (Ok a, w') -> f (ww_log w) = Ok a.
Proof. unfold read_db. destruct (f (ww_log w)); simpl; [by intros [= ->]|done]. Qed.

Lemma validated_object_id a object backend : validate_collaboration_capability a object backend = Ok tt -> uuid_parse_str (grant_id (ac_claims a)) = Some (ob_id object).
Proof. unfold validate_collaboration_capability. destruct (require_uuid (grant_id _) _) as [[]|] eqn:Hg; [|done]. intros _. by apply require_uuid_Ok. Qed.

Lemma object_named object a id w row w' backend :
  path_uuid object "invalid_object_id" = Ok id -> read_db (fun log => db_object db log (ac_tenant_id a) id) w = (Ok row, w') ->
  validate_collaboration_capability a row backend = Ok tt -> same_id object (grant_id (ac_claims a)).
Proof.
  unfold path_uuid. intros Hid%ok_or_Some Hrow%read_db_Ok Hv%validated_object_id. apply db_object_id in Hrow as <-. by eexists.
Qed.

Lemma guarded_write_object object body : guarded (admitted (RqWriteCollaborationObject object body) OpWriteCollaborationObject) (write_collaboration_object root db st now new_file_mode object headers body).
Proof. unfold write_collaboration_object. guard_steps; [|later_steps]. split; [done|]. destruct a2. by eapply object_named. Qed.
Lemma guarded_finalize_object object : guarded (admitted (RqFinalizeCollaborationObject object) OpFinalizeCollaborationObject) (finalize_collaboration_object root db st now object headers).
Proof. unfold finalize_collaboration_object. guard_steps; [|later_steps]. split; [done|]. destruct a2. by eapply object_named. Qed.

Lemma gentle_admit revision op : gentle (admit_document_revision db st now revision headers op).
Proof. unfold admit_document_revision. gentle_steps. Qed.
Lemma later_admit revision op : later (admit_document_revision db st now revision headers op).
Proof. unfold admit_document_revision. later_steps. Qed.
#[local] Hint Resolve gentle_admit later_admit : worker.

Lemma admit_Ok revision op w id a context expected w' :
  admit_document_revision db st now revision headers op w = (Ok (id, a, context, expected), w') ->
  authorize st headers op now = Ok a /\ same_id revision (grant_id (ac_claims a)).
Proof.
  unfold admit_document_revision, wk_bind, wk_ret, path_uuid. destruct (uuid_parse_str revision) as [u|] eqn:Hu; [|done]. cbn [ok_or].
  destruct (authorize st headers op now) as [a'|] eqn:Ha; [|done]. unfold read_db. destruct (db_document_context db (ww_log w) (ac_tenant_id a') u) as [d|]; [|done]. cbn [map_err].
  destruct (validate_document_revision_capability a' u d) as [[]|] eqn:Hv; [|done]. case_match; [done|]. destruct (ok_or _ _); [|done]. destruct (validate_exact_range _ _); [|done].
  intros [= <- <- _ _ _]. split; [done|]. exists u. split; [done|]. unfold validate_document_revision_capability in Hv. destruct (ok_or _ (dc_payload_id d)); [|done]. simpl in Hv.
  destruct (require_uuid (grant_id _) u) as [[]|] eqn:Hg; [|done]. by apply require_uuid_Ok.
Qed.

Lemma guarded_write_document revision body :
  guarded (admitted (RqWriteDocumentRevision revision body) OpWriteDocumentRevision) (write_document_revision root db st now new_file_mode revision headers body).
Proof.
  unfold write_document_revision. apply guarded_gentle; [eauto with worker..|]. intros w [[[id a] context] expected] w' Hw. apply admit_Ok in Hw. guard_steps; [done|later_steps].
Qed.
Lemma guarded_finalize_document revision :
  guarded (admitted (RqFinalizeDocumentRevision revision) OpFinalizeDocumentRevision) (finalize_document_revision root db st now revision headers).
Proof.
  unfold finalize_document_revision. apply guarded_gentle; [eauto with worker..|]. intros w [[[id a] context] expected] w' Hw. apply admit_Ok in Hw. guard_steps; [done|later_steps].
Qed.

Lemma later_reads :
  (forall grant head, later (download root db st now grant headers head))
  /\ (forall chunk head, later (read_revision_chunk root st now chunk headers head))
  /\ (forall payload head, later (read_revision_legacy_payload root db st now payload headers head))
  /\ (forall session version head, later (read_document_version root db st now session version headers head))
  /\ (forall object head, later (read_collaboration_object root db st now object headers head)).
Proof.
  split_and!; intros; unfold download, read_revision_chunk, read_revision_legacy_payload, read_document_version, read_collaboration_object; later_steps.
Qed.

(** every route *)
Lemma route_cases q :
  match mutation_of q with
  | None => gentle (route root db st now new_file_mode q headers) /\ later (route root db st now new_file_mode q headers)
  | Some op => guarded (admitted q op) (route root db st now new_file_mode q headers)
  end.
Proof.
  assert (forall A (f : A -> Answer) (m : Wk A), gentle m -> gentle (wk_map f m)) as Hg.
  { intros A f m Hm. apply gentle_bind; [done|intros; apply gentle_ret]. }
  destruct later_reads as (? & ? & ? & ? & ?).
  destruct q; simpl;
    first [ split; [apply Hg; first [apply gentle_download | apply gentle_read_revision | apply gentle_legacy | apply gentle_version | apply gentle_object]|by apply later_map]
          | apply guarded_map; first [apply guarded_upload_part | apply guarded_finalize_upload | apply guarded_write_chunk | apply guarded_delete_chunk
                                     | apply guarded_write_document | apply guarded_finalize_document | apply guarded_write_object | apply guarded_finalize_object] ].
Qed.

(** C13. On its routes for uploads, downloads, revision chunks, legacy payloads, document
    versions and revisions and collaboration objects, the worker changes nothing without a
    capability.  (The routes [/io/v1/mount-*] of mounted drives, whose capabilities and
    receipts are of another kind, are not part of this.)  Whatever the request to one of these
    routes, its headers and the failures of the file system and of the database: if a file appears, changes or
    disappears, if a statement other than one attempt to take a nonce is sent, or if a request
    that mutates is answered with success, then the request carried a capability that is
    valid now, for this worker, tenant and operation, under the keys of the family of the
    operation, the capability names the object in the path of the request, its nonce was
    free, and it is taken before any other statement. *)
Theorem worker_mutations_authorized q w : fs_wf (fsw w) ->
  let (answer, w') := route root db st now new_file_mode q headers w in
  quiet w w' /\ (mutation_of q = None \/ exists e, answer = Err e)
  \/ refused w w' /\ (exists e, answer = Err e)
  \/ exists op a, mutation_of q = Some op /\ authorize st headers op now = Ok a /\ names_object q (ac_claims a) /\ consumed a w w'.
Proof.
  intros Hw. pose proof (route_cases q) as Hr. destruct (mutation_of q) as [op|] eqn:Hop.
  - destruct Hr as [_ Hr]. specialize (Hr w Hw). destruct (route _ _ _ _ _ q headers w) as [answer w']. simpl in Hr.
    destruct Hr as [[Hne Hq]|(a & [Ha Hn] & Hc)]; [|right; right; by exists op, a].
    assert (exists e, answer = Err e) as He by (destruct answer; [destruct Hne|]; eauto). destruct Hq; [left|right; left]; auto.
  - destruct Hr as [Hr _]. specialize (Hr w Hw). destruct (route _ _ _ _ _ q headers w) as [answer w']. auto.
Qed.
End reads.
End guards.

(** ** Single use *)

Section single_use.
Context `{UuidLib, Base64Laws, Blake3Lib, Ed25519Laws, Readdir, FileTimes}.
Context `{!ProstMessage CapabilityClaims, !ProstMessage SignedCapability}.
Context `{!ProstMessage MountCapabilityClaims, !ProstMessage SignedMountCapability}.

(** the claims that a capability carries *)
Definition carried_claims (wire : string) : option CapabilityClaims :=
  ((strip_prefix "fbcap1." wire ≫= b64_decode) ≫= decode_message) ≫= fun signed => decode_message (claims_bytes signed).

Lemma verified_carried {K} `{!CapabilityKeyset K} wire (keys : K) audience op now c :
  verified_claims (verify_capability wire keys audience op now) = Ok c -> carried_claims wire = Some c /\ now < expires_at_unix_seconds c.
Proof.
  unfold verified_claims. destruct (verify_capability wire keys audience op now) as [v|] eqn:Hv; [|done]. intros [= <-].
  apply verify_capability_iff in Hv as (signed & key & Hw & _ & _ & Hd & _ & Ha). split; [|by apply Ha]. unfold carried_claims. by rewrite Hw.
Qed.

Lemma authorized_carried st headers op now a :
  authorize st headers op now = Ok a ->
  exists wire, capability_wire headers = Some wire /\ carried_claims wire = Some (ac_claims a)
    /\ now < expires_at_unix_seconds (ac_claims a) /\ uuid_parse_str (tenant_id (ac_claims a)) = Some (ac_tenant_id a).
Proof.
  unfold authorize. destruct (capability_wire headers) as [wire|]; [|done]. simpl.
  destruct (verify_capability_for_operation st wire op now) as [c|] eqn:Hv; [|done]. simpl.
  unfold parse_required_uuid. destruct (uuid_parse_str (tenant_id c)) as [t|] eqn:Ht; [|done]. simpl. destruct (negb _); [done|].
  destruct (uuid_parse_str (claim_principal_id c)), (uuid_parse_str (resource_id c)), (uuid_parse_str (capability_id c)), (uuid_parse_str (session_id c)); try done. intros [= <-]. exists wire. simpl. split; [done|].
  assert (carried_claims wire = Some c /\ now < expires_at_unix_seconds c) as [Hc He]; [|done].
  unfold verify_capability_for_operation in Hv.
  destruct op; try done; try (destruct (st_collaboration_keys st) as [keys|]; [|done]); try (destruct (st_document_keys st) as [keys|]; [|done]);
    try (destruct (st_revision_keys st) as [keys|]; [|done]); first [apply (verified_carried _ (st_api_keys st)) in Hv | apply (verified_carried _ keys) in Hv]; done.
Qed.
Variable root : path.

(** ** Workers over time *)

(** A system with one table of nonces: the clock and the world. *)
Record Cluster := mkCluster { cl_clock : Z; cl_world : Ww }.

(** A request is admitted at one time, and takes the nonce at the same time or later. *)
Inductive Event := Served (admitted_at taken_at : Z) (q : Request) (headers : HeaderMap) (answer : result AppError Answer) | Elsewhere.

Definition lawful (db : Db) : Prop := forall log tenant id o, db_object db log tenant id = Ok o -> ob_id o = id.

(** Any worker serves a request, expired nonces are cleaned up, time passes, and anything
    else may happen to the storage and to the other tables. *)
Inductive cluster_step (c : Cluster) : Event -> Cluster -> Prop :=
| step_serve db st mode t q headers : lawful db -> t <= cl_clock c ->
    cluster_step c (Served t (cl_clock c) q headers (route root db st t mode q headers (cl_world c)).1)
      (mkCluster (cl_clock c) (route root db st t mode q headers (cl_world c)).2)
| step_clean tenant :
    cluster_step c Elsewhere
      (mkCluster (cl_clock c) (mkWw (ww_storage (cl_world c)) (cleanup_expired_capability_nonces tenant (cl_clock c) (ww_nonces (cl_world c))).2 (ww_log (cl_world c))))
| step_other t storage log : cl_clock c <= t -> cluster_step c Elsewhere (mkCluster t (mkWw storage (ww_nonces (cl_world c)) log)).

Inductive cluster_run (c : Cluster) : list Event -> Cluster -> Prop :=
| run_nil : cluster_run c [] c
| run_cons e c' events c'' : cluster_step c e c' -> cluster_run c' events c'' -> cluster_run c (e :: events) c''.

Lemma run_app c events events' c' : cluster_run c (events ++ events') c' -> exists c0, cluster_run c events c0 /\ cluster_run c0 events' c'.
Proof.
  revert c. induction events as [|e events IH]; simpl; intros c Hrun; [by eexists; split; [constructor|]|].
  inversion Hrun as [|? c1 ? ? Hs Hr]; subst. destruct (IH _ Hr) as (c0 & Hr1 & Hr2). exists c0. split; [by econstructor|done].
Qed.

(** The nonce of the capability is taken, or the capability is expired. *)
Definition spent (tenant : Uuid) (digest : bytes) (expires : Z) (c : Cluster) : Prop :=
  expires <= cl_clock c \/ exists operation, mkNonceRow tenant digest operation expires ∈ ww_nonces (cl_world c).

Lemma cleanup_keeps tenant clock rows r : r ∈ rows -> clock < nr_expires_at r -> r ∈ (cleanup_expired_capability_nonces tenant clock rows).2.
Proof.
  intros Hr He. simpl. apply list_elem_of_In, filter_In. split; [by apply list_elem_of_In|]. apply negb_true_iff, bool_decide_eq_false. unfold order_limit.
  intros Hin%elem_of_take. destruct Hin as (i & Hi & _). apply list_elem_of_lookup_2, elem_of_order, list_elem_of_In, filter_In in Hi as [_ [_ Hle%Z.leb_le]%andb_true_iff]. lia.
Qed.

Lemma route_grows db st t mode q headers w : lawful db -> ww_nonces w `prefix_of` ww_nonces (route root db st t mode q headers w).2.
Proof.
  intros Hdb. pose proof (route_cases root db st t mode Hdb headers q) as Hr. destruct (mutation_of q).
  - destruct Hr as [Ht _]. apply Ht.
  - destruct Hr as [_ Hl]. by rewrite (proj1 (Hl w)).
Qed.

Lemma spent_step tenant digest expires c e c' : cluster_step c e c' -> spent tenant digest expires c -> spent tenant digest expires c'.
Proof.
  intros Hs [He|[op Hop]]; [left; inversion Hs; subst; simpl; lia|]. destruct (decide (expires <= cl_clock c)) as [Hle|Hlt]; [left; inversion Hs; subst; simpl; lia|].
  right. exists op. inversion Hs; subst; simpl.
  - destruct (route_grows db st t mode q headers (cl_world c)) as [more ->]; [done|]. apply elem_of_app. by left.
  - apply cleanup_keeps; [done|]. simpl. lia.
  - done.
Qed.
Lemma spent_run tenant digest expires c events c' : cluster_run c events c' -> spent tenant digest expires c -> spent tenant digest expires c'.
Proof. induction 1; eauto using spent_step. Qed.

(** What a request that mutates and succeeds did to the nonces. *)
Lemma served_taken c t now q headers answer c' :
  cluster_step c (Served t now q headers (Ok answer)) c' -> is_Some (mutation_of q) ->
  now = cl_clock c /\ exists wire a, capability_wire headers = Some wire /\ carried_claims wire = Some (ac_claims a)
    /\ t < expires_at_unix_seconds (ac_claims a) /\ uuid_parse_str (tenant_id (ac_claims a)) = Some (ac_tenant_id a) /\ taken a (cl_world c) (cl_world c').
Proof.
  intros Hs [op Hop]. inversion Hs as [db st mode ? ? ? Hdb Ht| |]; subst. split; [done|].
  pose proof (route_cases root db st t mode Hdb headers q) as Hr. rewrite Hop in Hr. destruct Hr as [Hr _]. destruct (Hr (cl_world c)) as [_ Hx].
  destruct (Hx answer) as (a & [Ha _] & Hta); [done|]. apply authorized_carried in Ha as (wire & Hw & Hc & He & Hten). by exists wire, a.
Qed.

(** C14. A capability for one of the routes for uploads, revision chunks, document revisions
    and collaboration objects works once.  (Mount capabilities are not part of this: a repeated
    request of a mounted drive is answered with the completion that was recorded.)  In any run
    of any number of workers that serve these routes, with any databases and any failures, and
    with expired nonces cleaned up at any time: when two requests that mutate
    succeed with the same capability, then the second took the nonce only after the
    capability had expired, although it was admitted before.  A request that takes its nonce
    within the lifetime of its capability is never the second. *)
Theorem capability_single_use c before between after c' t1 now1 q1 h1 a1 t2 now2 q2 h2 a2 :
  cluster_run c (before ++ Served t1 now1 q1 h1 (Ok a1) :: between ++ Served t2 now2 q2 h2 (Ok a2) :: after) c' ->
  is_Some (mutation_of q1) -> is_Some (mutation_of q2) -> capability_wire h1 = capability_wire h2 ->
  exists wire claims, capability_wire h2 = Some wire /\ carried_claims wire = Some claims /\ t2 < expires_at_unix_seconds claims <= now2.
Proof.
  intros Hrun Hm1 Hm2 Hw. apply run_app in Hrun as (c0 & _ & Hrun). inversion Hrun as [|? c1 ? ? Hs1 Hrun1]; subst. clear Hrun.
  apply run_app in Hrun1 as (c2 & Hb & Hrun2). inversion Hrun2 as [|? c3 ? ? Hs2 _]; subst. clear Hrun2.
  destruct (served_taken _ _ _ _ _ _ _ Hs1 Hm1) as (_ & wire & a & Hw1 & Hc1 & He1 & Ht1 & _ & op & Hrow).
  destruct (served_taken _ _ _ _ _ _ _ Hs2 Hm2) as (-> & wire' & a' & Hw2 & Hc2 & He2 & Ht2 & Hfree & _).
  rewrite Hw, Hw2 in Hw1. injection Hw1 as ->. rewrite Hc1 in Hc2. injection Hc2 as Heq. rewrite Heq, Ht2 in Ht1. injection Ht1 as Hten.
  exists wire, (ac_claims a'). rewrite <-Heq at 1. split_and!; [done..|].
  assert (spent (ac_tenant_id a) (nonce_digest "filebelt-capability-nonce-v1" (nonce (ac_claims a))) (expires_at_unix_seconds (ac_claims a)) c2) as Hsp.
  { eapply spent_run; [exact Hb|]. right. by exists op. }
  rewrite Heq, <-Hten in Hsp. destruct Hsp as [Hle|[op' Hin]]; [done|].
  assert (existsb (same_nonce (ac_tenant_id a') (nonce_digest "filebelt-capability-nonce-v1" (nonce (ac_claims a')))) (ww_nonces (cl_world c2)) = true) as Ht; [|by rewrite Hfree in Ht].
  apply existsb_exists. eexists. split; [by apply list_elem_of_In|]. unfold same_nonce. simpl. by rewrite N.eqb_refl, bool_decide_true.
Qed.
End single_use.
