(* ===== verification/WorkerDemo.v ===== *)
(** The I/O worker on concrete data: an upload part that is written, and the one window in
    which a capability can be used twice. *)
From S2P Require Import Prelude Collections Libraries ConcreteCodecs Keyset Frames Capability Web CollaborationStore PosixFs StorageLayout StorageFacts StorageEngine WorkerIo WorkerProofs.

Open Scope string_scope.
Open Scope Z_scope.
Open Scope list_scope.
Open Scope bool_scope.

Import Concrete.
#[local] Existing Instance Capability.Demo.mount_codec.
#[local] Existing Instance Capability.Demo.signed_mount_codec.
#[local] Existing Instance StorageEngine.Demo.readdir.
#[local] Existing Instance StorageEngine.Demo.old_files.

(** A codec with a short form for one message, which keeps what follows small. *)
Definition short_codec {M} `{Countable M} (m : M) : ProstMessage M := {|
  encode_to_vec x := if decide (x = m) then ["m"%char] else pos_to_bytes (encode x);
  decode_message b := if decide (b = ["m"%char]) then Some m else bytes_to_pos b ≫= decode
|}.
Lemma short_codec_laws {M} `{Countable M} (m : M) valid : @ProstLaws M (short_codec m) valid.
Proof.
  split. intros x _. cbn. destruct (decide (x = m)) as [-> |Hx]; [by rewrite decide_True|]. rewrite decide_False.
  - rewrite bytes_to_pos_to_bytes. cbn. apply countable.decode_encode.
  - intros Hm. pose proof (bytes_to_pos_to_bytes (encode x)) as Hp. by rewrite Hm in Hp.
Qed.

(** [n] as the text of an identifier *)
Abbreviation id n := (uuid_hyphenated n%N).

(** A capability to delete the chunk 16 of the drive 18, valid from 1000 to 1060. *)
Definition delete_claims : CapabilityClaims :=
  mkClaims (id 11) WORKER_AUDIENCE (op_i32 OpDeleteRevisionChunk) (id 10) (id 12) (id 13) (id 18) (id 14) (id 16) 0 0 4 0 0 0 0
    (replicate 32 "d"%char ++ replicate 32 "n"%char) 1000 1060 0 (id 15).

#[local] Existing Instance Capability.Demo.claims_countable.
#[local] Existing Instance Capability.Demo.signed_countable.
#[local] Instance claims_short : ProstMessage CapabilityClaims := short_codec delete_claims.
Definition delete_signed : SignedCapability := mkSigned 3 ["m"%char] (ed_sign Capability.Demo.kp_a (CAPABILITY_SIGNATURE_DOMAIN ++ ["m"%char])).
#[local] Instance signed_short : ProstMessage SignedCapability := short_codec delete_signed.

Definition delete_wire : string :=
  match sign_capability delete_claims OpDeleteRevisionChunk 3 Capability.Demo.kp_a with Ok w => w | Err _ => "" end.

Definition worker : AppState :=
  mkAppState (Typed ApiStorage [(3, Capability.Demo.kp_a)]) None None (Some (Typed RevisionStorage [(3, Capability.Demo.kp_a)])) None 10 20 21 5242880.

Definition no_db : Db :=
  mkDb (fun _ _ _ => Err Sql) (fun _ _ _ _ => Err Sql) (fun _ _ _ => Err Sql) (fun _ _ _ => Err Sql) (fun _ _ _ => Err Sql) (fun _ _ _ => Err Sql) (fun _ _ _ => Err Sql)
    (fun _ _ _ => Err Sql) (fun _ _ _ _ => Err Sql) (fun _ _ _ _ _ _ _ _ _ _ => Err Sql) (fun _ _ => Err Sql) (fun _ => None).

Definition delete_headers : HeaderMap := [("authorization", as_bytes ("FBCAP1 " +:+ delete_wire))].
Definition start : Ww := mkWw (PosixFs.mkWorld (StorageEngine.Demo.store []) []) [] [].
Definition delete (t : Z) (w : Ww) : result AppError Answer * Ww := route StorageEngine.Demo.root no_db worker t 420 (RqDeleteRevisionChunk (id 16)) delete_headers w.


Lemma no_db_lawful : lawful no_db.
Proof. by intros log tenant i o [=]. Qed.

(** *** Two uses *)

(** The first request takes the nonce at 1059.  At 1060 the nonce is expired and is cleaned
    up, while a second request that was admitted at 1059 has not taken its nonce yet. *)
Definition first_served : Ww := (delete 1059 start).2.
Definition cleaned : Ww := mkWw (ww_storage first_served) (cleanup_expired_capability_nonces 10 1060 (ww_nonces first_served)).2 (ww_log first_served).
Definition second_served : Ww := (delete 1059 cleaned).2.

Lemma first_succeeds : (delete 1059 start).1 = Ok AnNoContent.
Proof. vm_compute. reflexivity. Qed.
Lemma second_succeeds : (delete 1059 cleaned).1 = Ok AnNoContent.
Proof. vm_compute. reflexivity. Qed.
(** without the cleanup it is refused *)
Lemma replay_refused : (delete 1059 first_served).1 = Err (StateConflicts "capability_replayed").
Proof. vm_compute. reflexivity. Qed.

Definition deletes (t now : Z) : Event := Served t now (RqDeleteRevisionChunk (id 16)) delete_headers (Ok AnNoContent).

Lemma step_delete now w : (delete 1059 w).1 = Ok AnNoContent -> 1059 <= now ->
  cluster_step StorageEngine.Demo.root (mkCluster now w) (deletes 1059 now) (mkCluster now (delete 1059 w).2).
Proof. intros Hd Hn. unfold deletes. rewrite <-Hd. exact (step_serve StorageEngine.Demo.root (mkCluster now w) no_db worker 420 1059 (RqDeleteRevisionChunk (id 16)) delete_headers no_db_lawful Hn). Qed.

#[local] Strategy opaque [delete].
Lemma two_uses : cluster_run StorageEngine.Demo.root (mkCluster 1059 start) ([] ++ deletes 1059 1059 :: [Elsewhere; Elsewhere] ++ deletes 1059 1060 :: []) (mkCluster 1060 second_served).
Proof.
  apply (run_cons _ _ _ (mkCluster 1059 first_served)); [by apply step_delete; [apply first_succeeds|]|].
  apply (run_cons _ _ _ (mkCluster 1060 first_served)).
  { pose proof (step_other StorageEngine.Demo.root (mkCluster 1059 first_served) 1060 (ww_storage first_served) (ww_log first_served) ltac:(done)) as Hs.
    by destruct first_served. }
  apply (run_cons _ _ _ (mkCluster 1060 cleaned)); [apply (step_clean StorageEngine.Demo.root (mkCluster 1060 first_served) 10)|].
  apply (run_cons _ _ _ (mkCluster 1060 second_served)); [by apply (step_delete 1060 cleaned); [apply second_succeeds|]|]. constructor.
Qed.
#[local] Strategy transparent [delete].

Lemma capability_single_use_witness :
  exists wire claims, capability_wire delete_headers = Some wire /\ carried_claims wire = Some claims /\ 1059 < expires_at_unix_seconds claims <= 1060.
Proof.
  apply (capability_single_use StorageEngine.Demo.root (mkCluster 1059 start) [] [Elsewhere; Elsewhere] [] (mkCluster 1060 second_served)
    1059 1059 (RqDeleteRevisionChunk (id 16)) delete_headers AnNoContent 1059 1060 (RqDeleteRevisionChunk (id 16)) delete_headers AnNoContent);
    [apply two_uses|by eexists|by eexists|reflexivity].
Defined.

Lemma worker_mutations_authorized_witness :
  exists op a, mutation_of (RqDeleteRevisionChunk (id 16)) = Some op /\ authorize worker delete_headers op 1059 = Ok a
    /\ names_object (RqDeleteRevisionChunk (id 16)) (ac_claims a) /\ consumed a start first_served.
Proof.
  pose proof (worker_mutations_authorized StorageEngine.Demo.root no_db worker 1059 420 no_db_lawful delete_headers (RqDeleteRevisionChunk (id 16)) start ltac:(holds)) as Hthm.
  pose proof first_succeeds as Hok. unfold delete in Hok. unfold first_served, delete. destruct (route _ _ _ _ _ _ _ _) as [answer w']. simpl in Hok. subst answer.
  destruct Hthm as [[_ [[=]|[e [=]]]]|[[_ [e [=]]]|Hthm]]. exact Hthm.
Defined.
