(* ===== verification/ApiTime.v ===== *)
(** Model of the timestamps of the HTTP front end: [rfc3339] of
    [source/apps/filebelt-api/src/resources.rs] and of [mcp.rs], and [parse_rfc3339_utc] of
    [mcp.rs], with the proleptic Gregorian calendar as their reference. *)
From S2P Require Import Prelude SnapshotPolicy.

Open Scope string_scope.
Open Scope Z_scope.
Open Scope list_scope.
Open Scope bool_scope.
Open Scope filebelt_scope.

Import Api.

(** ** Dates *)

Definition bad_request (code title : string) : ApiError := ApiError_new 400 code title.

(** a division of [i64] *)
Definition i64_div (a b : Z) : Z := Z.quot a b.

(** the date of [z] days after 0000-03-01: year, month and day *)
Definition civil_from_days (z : Z) : Z * Z * Z :=
  let era := i64_div (if 0 <=? z then z else z - 146096) 146097 in
  let day_of_era := z - era * 146097 in
  let year_of_era := i64_div (day_of_era - i64_div day_of_era 1460 + i64_div day_of_era 36524 - i64_div day_of_era 146096) 365 in
  let year := year_of_era + era * 400 in
  let day_of_year := day_of_era - (365 * year_of_era + i64_div year_of_era 4 - i64_div year_of_era 100) in
  let month_prime := i64_div (5 * day_of_year + 2) 153 in
  let day := day_of_year - i64_div (153 * month_prime + 2) 5 + 1 in
  let month := month_prime + (if month_prime <? 10 then 3 else -9) in
  (year + (if month <=? 2 then 1 else 0), month, day).

(** [{value:0width}] *)
Definition format_padded (width : nat) (value : Z) : string :=
  if value <? 0 then "-" +:+ pad_zero (width - 1) (dec_to_string (- value)) else pad_zero width (dec_to_string value).

Definition format_timestamp (date : Z * Z * Z) (seconds : Z) : string :=
  let '(year, month, day) := date in
  format_padded 4 year +:+ "-" +:+ format_padded 2 month +:+ "-" +:+ format_padded 2 day +:+ "T"
  +:+ format_padded 2 (i64_div seconds 3600) +:+ ":" +:+ format_padded 2 (i64_div (Z.rem seconds 3600) 60) +:+ ":" +:+ format_padded 2 (Z.rem seconds 60) +:+ "Z".

(** [rfc3339] of [resources.rs], which checks its one addition *)
Definition rfc3339 (unix_seconds : Z) : result ApiError string :=
  let days := unix_seconds / 86400 in
  let seconds := unix_seconds mod 86400 in
  let? z := ok_or internal (checked i64_min i64_max (days + 719468)) in
  Ok (format_timestamp (civil_from_days z) seconds).
(** [rfc3339] of [mcp.rs] *)
Definition mcp_rfc3339 (unix_seconds : Z) : string :=
  format_timestamp (civil_from_days (unix_seconds / 86400 + 719468)) (unix_seconds mod 86400).

(** [str::parse::<i64>] *)
Definition parse_i64 (s : string) : option Z :=
  let value := match s with
               | String "-" rest => option_map Z.opp (parse_digits rest)
               | String "+" rest => parse_digits rest
               | _ => parse_digits s
               end in
  value ≫= i64_try_from.

Definition time_invalid : ApiError := bad_request "time.invalid" "The timestamp is invalid".
Definition number (value : string) (from to : nat) : result ApiError Z := ok_or time_invalid (parse_i64 (substring from (to - from) value)).
Definition byte_at (value : string) (i : nat) (c : ascii) : bool := bool_decide (String.get i value = Some c).

(** the days of a date since 1970-01-01 *)
Definition days_from_civil (year month day : Z) : Z :=
  let adjusted_year := year - (if month <=? 2 then 1 else 0) in
  let era := adjusted_year / 400 in
  let year_of_era := adjusted_year - era * 400 in
  let month_prime := month + (if 2 <? month then -3 else 9) in
  let day_of_year := i64_div (153 * month_prime + 2) 5 + day - 1 in
  let day_of_era := year_of_era * 365 + i64_div year_of_era 4 - i64_div year_of_era 100 + day_of_year in
  era * 146097 + day_of_era - 719468.

Definition parse_rfc3339_utc (value : string) : result ApiError Z :=
  if negb (Nat.eqb (String.length value) 20) || negb (byte_at value 4 "-") || negb (byte_at value 7 "-") || negb (byte_at value 10 "T") || negb (byte_at value 13 ":")
     || negb (byte_at value 16 ":") || negb (byte_at value 19 "Z")
  then Err time_invalid
  else
    let? year := number value 0 4 in
    let? month := number value 5 7 in
    let? day := number value 8 10 in
    let? hour := number value 11 13 in
    let? minute := number value 14 16 in
    let? second := number value 17 19 in
    if negb ((1 <=? month) && (month <=? 12)) || negb ((1 <=? day) && (day <=? 31)) || (23 <? hour) || (59 <? minute) || (59 <? second) then Err time_invalid
    else
      let? timestamp := ok_or time_invalid (checked i64_min i64_max (days_from_civil year month day * 86400) ≫= fun value =>
                                             checked i64_min i64_max (value + (hour * 3600 + minute * 60 + second))) in
      if negb (String.eqb (mcp_rfc3339 timestamp) value) then Err time_invalid else Ok timestamp.

(** ** The Gregorian calendar *)

Definition leap (year : Z) : bool := (year mod 4 =? 0) && negb (year mod 100 =? 0) || (year mod 400 =? 0).
Definition month_days (year month : Z) : Z :=
  if (month =? 4) || (month =? 6) || (month =? 9) || (month =? 11) then 30 else if month =? 2 then (if leap year then 29 else 28) else 31.
Definition next_date (date : Z * Z * Z) : Z * Z * Z :=
  let '(year, month, day) := date in
  if day <? month_days year month then (year, month, day + 1) else if month <? 12 then (year, month + 1, 1) else (year + 1, 1, 1).
Definition valid_date (date : Z * Z * Z) : Prop := let '(year, month, day) := date in 1 <= month <= 12 /\ 1 <= day <= month_days year month.
(** the same day, [eras] times 400 years later *)
Definition eras_later (eras : Z) (date : Z * Z * Z) : Z * Z * Z := let '(year, month, day) := date in (year + eras * 400, month, day).

Lemma leap_later e year : leap (year + e * 400) = leap year.
Proof.
  unfold leap. replace ((year + e * 400) mod 400) with (year mod 400) by (symmetry; apply Z.mod_add; lia).
  replace ((year + e * 400) mod 100) with (year mod 100) by (replace (e * 400) with (e * 4 * 100) by lia; symmetry; apply Z.mod_add; lia).
  replace ((year + e * 400) mod 4) with (year mod 4) by (replace (e * 400) with (e * 100 * 4) by lia; symmetry; apply Z.mod_add; lia). done.
Qed.
Lemma month_days_later e year month : month_days (year + e * 400) month = month_days year month.
Proof. unfold month_days. by rewrite leap_later. Qed.
Lemma next_date_later e date : next_date (eras_later e date) = eras_later e (next_date date).
Proof. destruct date as [[year month] day]. simpl. rewrite month_days_later. destruct (day <? _); [done|]. destruct (month <? 12); [done|]. simpl. f_equal. f_equal. lia. Qed.
Lemma valid_later e date : valid_date date -> valid_date (eras_later e date).
Proof. destruct date as [[year month] day]. simpl. by rewrite month_days_later. Qed.
Lemma days_later e year month day : days_from_civil (year + e * 400) month day = days_from_civil year month day + e * 146097.
Proof.
  unfold days_from_civil. set (c := if month <=? 2 then 1 else 0). replace (year + e * 400 - c) with (year - c + e * 400) by lia. rewrite Z.div_add by lia.
  replace (year - c + e * 400 - ((year - c) / 400 + e) * 400) with (year - c - (year - c) / 400 * 400) by lia. lia.
Qed.

(** The calculation of a date repeats every 400 years. *)
Lemma civil_later e z : civil_from_days (z + e * 146097) = eras_later e (civil_from_days z).
Proof.
  assert (forall x, i64_div (if 0 <=? x then x else x - 146096) 146097 = x / 146097) as Hera.
  { intros x. unfold i64_div. destruct (Z.leb_spec 0 x); [apply Z.quot_div_nonneg; lia|].
    replace (x - 146096) with (- (146096 - x)) by lia. rewrite Z.quot_opp_l by done. rewrite Z.quot_div_nonneg; [|lia|lia]. apply (Z.div_unique x 146097 _ (x + 146097 * ((146096 - x) / 146097))); [|lia].
    left. pose proof (Z.div_mod (146096 - x) 146097 ltac:(lia)). pose proof (Z.mod_pos_bound (146096 - x) 146097 ltac:(lia)). lia. }
  unfold civil_from_days. rewrite !Hera, Z.div_add by lia. replace (z + e * 146097 - (z / 146097 + e) * 146097) with (z - z / 146097 * 146097) by lia.
  set (d := z - z / 146097 * 146097). unfold eras_later. apply (f_equal2 pair); [apply (f_equal2 pair); [lia|done]|done].
Qed.

(** *** Years of a period *)

(** the first day of a year of the period; years begin in March *)
Definition year_start (y : Z) : Z := 365 * y + y / 4 - y / 100.
Definition year_end (y : Z) : Z := if y =? 399 then 146097 else year_start (y + 1).
(** the number that the source divides by 365 *)
Definition leapless (doe : Z) : Z := doe - doe / 1460 + doe / 36524 - doe / 146096.

Lemma leapless_step x : 0 <= x -> leapless x <= leapless (x + 1).
Proof. intros Hx. unfold leapless. Z.to_euclidean_division_equations. lia. Qed.
Lemma leapless_mono x y : 0 <= x <= y -> leapless x <= leapless y.
Proof.
  intros [Hx Hy]. replace y with (x + (y - x)) by lia. assert (0 <= y - x) as Hd by lia. clear Hy. revert Hd. generalize (y - x). apply natlike_ind; [by rewrite Z.add_0_r|].
  intros k Hk IH. etransitivity; [exact IH|]. replace (x + Z.succ k) with (x + k + 1) by lia. apply leapless_step. lia.
Qed.

Definition year_checks (y : Z) : bool :=
  (leapless (year_start y) / 365 =? y) && (leapless (year_end y - 1) / 365 =? y) && (year_end y - year_start y =? if leap (y + 1) then 366 else 365).
Lemma years_check : forallb year_checks (seqZ 0 400) = true.
Proof. vm_compute. reflexivity. Qed.
Lemma year_check y : 0 <= y < 400 -> leapless (year_start y) / 365 = y /\ leapless (year_end y - 1) / 365 = y /\ year_end y - year_start y = if leap (y + 1) then 366 else 365.
Proof.
  intros Hy. assert (year_checks y = true) as Hc by (eapply forallb_forall; [exact years_check|]; apply list_elem_of_In, elem_of_seqZ; lia).
  unfold year_checks in Hc. apply andb_true_iff in Hc as [[H1 H2]%andb_true_iff H3]. split_and!; by apply Z.eqb_eq.
Qed.

Lemma year_of_day doe : 0 <= doe < 146097 -> let y := leapless doe / 365 in 0 <= y < 400 /\ year_start y <= doe < year_end y.
Proof.
  intros Hd. set (y := leapless doe / 365). assert (0 <= y < 400) as Hy.
  { pose proof (leapless_mono 0 doe ltac:(lia)) as H0. pose proof (leapless_mono doe 146096 ltac:(lia)) as H1. change (leapless 0) with 0 in H0. change (leapless 146096) with 145999 in H1.
    subst y. split; [apply Z.div_pos; lia|]. apply Z.div_lt_upper_bound; lia. }
  split; [done|]. split.
  - destruct (Z.le_gt_cases (year_start y) doe) as [|Hlt]; [done|]. exfalso. destruct (decide (y = 0)) as [Hy0|Hy0]; [rewrite Hy0 in Hlt; change (year_start 0) with 0 in Hlt; lia|].
    destruct (year_check (y - 1)) as (_ & He & _); [lia|]. unfold year_end in He. destruct (Z.eqb_spec (y - 1) 399); [lia|]. replace (y - 1 + 1) with y in He by lia.
    pose proof (leapless_mono doe (year_start y - 1) ltac:(lia)) as Hm. pose proof (Z.div_le_mono _ _ 365 ltac:(lia) Hm). lia.
  - destruct (Z.lt_ge_cases doe (year_end y)) as [|Hge]; [done|]. exfalso. unfold year_end in Hge. destruct (Z.eqb_spec y 399) as [|Hy9]; [lia|].
    destruct (year_check (y + 1)) as (He & _ & _); [lia|]. assert (0 <= year_start (y + 1)) as Hpos by (unfold year_start; Z.to_euclidean_division_equations; lia).
    pose proof (leapless_mono (year_start (y + 1)) doe ltac:(lia)) as Hm. pose proof (Z.div_le_mono _ _ 365 ltac:(lia) Hm). lia.
Qed.

(** *** Days of a year *)

(** month and day of a day of a year that begins in March *)
Definition month_day (doy : Z) : Z * Z :=
  let mp := (5 * doy + 2) / 153 in (mp + (if mp <? 10 then 3 else -9), doy - (153 * mp + 2) / 5 + 1).
Definition days_of_month (lp : bool) (month : Z) : Z :=
  if (month =? 4) || (month =? 6) || (month =? 9) || (month =? 11) then 30 else if month =? 2 then (if lp then 29 else 28) else 31.
(** the next day, for a year whose February has a leap day or not *)
Definition doy_checks (lp : bool) (doy : Z) : bool :=
  let '(m, d) := month_day doy in
  (1 <=? m) && (m <=? 12) && (1 <=? d) && (d <=? days_of_month lp m)
  && (if doy + 1 <? (if lp then 366 else 365)
      then bool_decide (month_day (doy + 1) = if d <? days_of_month lp m then (m, d + 1) else if m <? 12 then (m + 1, 1) else (1, 1))
           && Bool.eqb (fst (month_day (doy + 1)) <=? 2) ((m <=? 2) || (negb (d <? days_of_month lp m) && (m =? 12)))
      else (m =? 2) && (d =? days_of_month lp m)).
Lemma doys_check : forallb (doy_checks true) (seqZ 0 366) && forallb (doy_checks false) (seqZ 0 365) = true.
Proof. vm_compute. reflexivity. Qed.
Lemma doy_check (lp : bool) doy : 0 <= doy < (if lp then 366 else 365) -> doy_checks lp doy = true.
Proof.
  intros Hd. pose proof doys_check as Hc. apply andb_true_iff in Hc as [H1 H2]. destruct lp; (eapply forallb_forall; [eassumption|]; apply list_elem_of_In, elem_of_seqZ; lia).
Qed.

(** ** The dates of a period *)

Lemma civil_of_day doe : 0 <= doe < 146097 -> let y := leapless doe / 365 in let '(m, d) := month_day (doe - year_start y) in
  civil_from_days doe = (y + (if m <=? 2 then 1 else 0), m, d).
Proof.
  intros Hd. destruct (year_of_day doe Hd) as [Hy Hs]. set (y := leapless doe / 365) in *. unfold civil_from_days, i64_div, month_day. destruct (Z.leb_spec 0 doe); [|lia].
  rewrite (Z.quot_small doe 146097) by lia. replace (doe - 0 * 146097) with doe by lia.
  assert (forall a b, 0 <= a -> 0 < b -> Z.quot a b = a / b) as Hq by (intros; apply Z.quot_div_nonneg; lia). rewrite (Hq doe 1460), (Hq doe 36524), (Hq doe 146096) by lia.
  assert (0 <= leapless doe) as Hl by (pose proof (leapless_mono 0 doe ltac:(lia)) as Hl; by change (leapless 0) with 0 in Hl). fold (leapless doe). rewrite (Hq (leapless doe) 365) by lia. fold y.
  rewrite (Hq y 4), (Hq y 100) by lia. fold (year_start y). set (doy := doe - year_start y) in *. assert (0 <= doy) by lia. rewrite (Hq (5 * doy + 2) 153) by lia. set (mp := (5 * doy + 2) / 153).
  assert (0 <= mp) by (apply Z.div_pos; lia). rewrite (Hq (153 * mp + 2) 5) by lia. by rewrite Z.mul_0_l, Z.add_0_r.
Qed.

Lemma year_unique doe y : 0 <= doe < 146097 -> 0 <= y < 400 -> year_start y <= doe < year_end y -> leapless doe / 365 = y.
Proof.
  intros Hd Hy Hs. destruct (year_check y Hy) as (H1 & H2 & _). assert (0 <= year_start y) as Hpos by (unfold year_start; Z.to_euclidean_division_equations; lia).
  pose proof (Z.div_le_mono _ _ 365 ltac:(lia) (leapless_mono (year_start y) doe ltac:(lia))). pose proof (Z.div_le_mono _ _ 365 ltac:(lia) (leapless_mono doe (year_end y - 1) ltac:(lia))). lia.
Qed.

Lemma month_days_of y m : month_days (y + (if m <=? 2 then 1 else 0)) m = days_of_month (leap (y + 1)) m.
Proof. unfold month_days, days_of_month. destruct (_ || _ || _ || _); [done|]. by destruct (Z.eqb_spec m 2) as [-> |]. Qed.

(** the parts of a day of the period *)
Lemma day_parts doe : 0 <= doe < 146097 -> exists y doy m d, 0 <= y < 400 /\ doe = year_start y + doy /\ 0 <= doy < year_end y - year_start y /\ month_day doy = (m, d)
  /\ civil_from_days doe = (y + (if m <=? 2 then 1 else 0), m, d) /\ doy_checks (leap (y + 1)) doy = true.
Proof.
  intros Hd. pose proof (civil_of_day doe Hd) as Hc. cbv zeta in Hc. destruct (year_of_day doe Hd) as [Hy Hs]. set (y := leapless doe / 365) in *. destruct (month_day (doe - year_start y)) as [m d] eqn:Hm.
  exists y, (doe - year_start y), m, d. split_and!; [lia|lia|lia|lia|lia|done|exact Hc|]. apply doy_check. destruct (year_check y Hy) as (_ & _ & Hl). lia.
Qed.

Lemma next_in_period doe : 0 <= doe < 146097 -> civil_from_days (doe + 1) = next_date (civil_from_days doe).
Proof.
  intros Hd. destruct (day_parts doe Hd) as (y & doy & m & d & Hy & Hdoe & Hdoy & Hm & Hc & Hk). rewrite Hc. simpl. rewrite month_days_of. destruct (year_check y Hy) as (_ & _ & Hl). rewrite Hl in Hdoy.
  unfold doy_checks in Hk. rewrite Hm in Hk. apply andb_true_iff in Hk as [_ Hk]. destruct (Z.ltb_spec (doy + 1) (if leap (y + 1) then 366 else 365)) as [Hlt|Hge].
  - apply andb_true_iff in Hk as [Hk%bool_decide_eq_true Hc']. apply Bool.eqb_prop in Hc'. assert (doe + 1 < 146097) as Hd' by (unfold year_end in Hl; destruct (Z.eqb_spec y 399); [lia|]; destruct (year_of_day doe Hd) as [_ ?];
      assert (year_start (y + 1) <= 146097) by (unfold year_start; Z.to_euclidean_division_equations; lia); lia).
    assert (leapless (doe + 1) / 365 = y) as Hy' by (apply year_unique; [lia|done|lia]). pose proof (civil_of_day (doe + 1) ltac:(lia)) as Hn. cbv zeta in Hn. rewrite Hy' in Hn.
    replace (doe + 1 - year_start y) with (doy + 1) in Hn by lia. rewrite Hk in Hn, Hc'. destruct (d <? days_of_month (leap (y + 1)) m).
    + rewrite Hn. done.
    + simpl in Hc'. destruct (Z.ltb_spec m 12); simpl in Hc', Hn; rewrite Hn.
      * rewrite Hc'. destruct (Z.eqb_spec m 12); [lia|]. by rewrite orb_false_r.
      * destruct (Z.leb_spec m 2); [lia|]. do 2 f_equal. lia.
  - apply andb_true_iff in Hk as [->%Z.eqb_eq Hk%Z.eqb_eq]. rewrite (proj2 (Z.ltb_ge d _)) by lia. simpl. assert (doe + 1 = year_end y) as He by lia. rewrite He. unfold year_end. destruct (Z.eqb_spec y 399) as [-> |Hn]; [done|].
    assert (year_start (y + 1) < 146097 /\ 0 <= year_start (y + 1)) as [? ?] by (unfold year_start; Z.to_euclidean_division_equations; lia).
    assert (leapless (year_start (y + 1)) / 365 = y + 1) as Hy' by (destruct (year_check (y + 1) ltac:(lia)) as (Hy' & _); done). pose proof (civil_of_day (year_start (y + 1)) ltac:(lia)) as Hc'. cbv zeta in Hc'. rewrite Hy', Z.sub_diag in Hc'.
    simpl in Hc'. rewrite Hc'. do 2 f_equal. lia.
Qed.

Lemma valid_in_period doe : 0 <= doe < 146097 -> valid_date (civil_from_days doe).
Proof.
  intros Hd. destruct (day_parts doe Hd) as (y & doy & m & d & Hy & Hdoe & Hdoy & Hm & Hc & Hk). rewrite Hc. simpl. rewrite month_days_of. unfold doy_checks in Hk. rewrite Hm in Hk.
  apply andb_true_iff in Hk as [[[[? ?]%andb_true_iff ?]%andb_true_iff ?]%andb_true_iff _]. lia.
Qed.

Lemma days_in_period doe : 0 <= doe < 146097 -> let '(year, month, day) := civil_from_days doe in days_from_civil year month day = doe - 719468.
Proof.
  intros Hd. destruct (day_parts doe Hd) as (y & doy & m & d & Hy & Hdoe & Hdoy & Hm & Hc & Hk). rewrite Hc. unfold days_from_civil. set (c := if m <=? 2 then 1 else 0). replace (y + c - c) with y by lia.
  rewrite (Z.div_small y 400) by lia. replace (y - 0 * 400) with y by lia. assert (doy < 366) as Hdoy' by (destruct (year_check y Hy) as (_ & _ & Hl); destruct (leap (y + 1)); lia).
  unfold month_day in Hm. injection Hm as Hm Hday. set (mp := (5 * doy + 2) / 153) in *. assert (0 <= mp <= 11) as Hmp by (subst mp; split; [apply Z.div_pos; lia|apply Z.lt_succ_r, Z.div_lt_upper_bound; lia]).
  replace (m + (if 2 <? m then -3 else 9)) with mp by (destruct (Z.ltb_spec mp 10), (Z.ltb_spec 2 m); lia). unfold i64_div. rewrite (Z.quot_div_nonneg (153 * mp + 2) 5); [|lia|lia].
  rewrite (Z.quot_div_nonneg y 4); [|lia|lia]. rewrite (Z.quot_div_nonneg y 100); [|lia|lia]. rewrite Hdoe. unfold year_start. lia.
Qed.

(** The dates of the source are the calendar. *)
Lemma calendar z : civil_from_days (z + 1) = next_date (civil_from_days z) /\ valid_date (civil_from_days z)
  /\ let '(year, month, day) := civil_from_days z in days_from_civil year month day = z - 719468.
Proof.
  assert (exists m e, 0 <= m < 146097 /\ z = m + e * 146097) as (m & e & Hm & ->).
  { exists (z mod 146097), (z / 146097). split; [apply Z.mod_pos_bound; lia|]. pose proof (Z.div_mod z 146097 ltac:(lia)). lia. }
  replace (m + e * 146097 + 1) with (m + 1 + e * 146097) by lia. rewrite !civil_later. split; [rewrite next_date_later; by rewrite next_in_period|]. split; [by apply valid_later, valid_in_period|].
  pose proof (days_in_period m Hm) as Hdays. destruct (civil_from_days m) as [[year month] day]. simpl. rewrite days_later. lia.
Qed.

(** ** Texts *)

(** two digits, and four *)
Definition two_digits (n : Z) : bool :=
  match format_padded 2 n with String a (String b EmptyString) => bool_decide (parse_i64 (String a (String b EmptyString)) = Some n) | _ => false end.
Lemma two_digits_checked : forallb two_digits (seqZ 0 100) = true.
Proof. vm_compute. reflexivity. Qed.
Lemma format_two n : 0 <= n < 100 -> exists a b, format_padded 2 n = String a (String b EmptyString) /\ parse_i64 (String a (String b EmptyString)) = Some n.
Proof.
  intros Hn. assert (two_digits n = true) as Hc by (eapply forallb_forall; [exact two_digits_checked|]; apply list_elem_of_In, elem_of_seqZ; lia).
  unfold two_digits in Hc. destruct (format_padded 2 n) as [|a [|b [|]]]; try done. apply bool_decide_eq_true in Hc. by exists a, b.
Qed.

Definition four_digits (n : Z) : bool :=
  match format_padded 4 n with
  | String a (String b (String c (String d EmptyString))) => bool_decide (parse_i64 (String a (String b (String c (String d EmptyString)))) = Some n)
  | _ => false
  end.
Fixpoint holds_upto (p : Z -> bool) (count : nat) (n : Z) : bool := match count with O => true | S count => p n && holds_upto p count (n + 1) end.
Lemma holds_upto_spec p count n : holds_upto p count n = true -> forall m, n <= m < n + Z.of_nat count -> p m = true.
Proof.
  revert n. induction count as [|count IH]; intros n Hp m Hm; [lia|]. simpl in Hp. apply andb_true_iff in Hp as [Hp Hr]. destruct (decide (m = n)) as [-> |Hn]; [done|]. eapply IH; [exact Hr|lia].
Qed.
Lemma four_digits_checked : holds_upto four_digits (Z.to_nat 10000) 0 = true.
Proof. vm_compute. reflexivity. Qed.
Lemma format_four n : 0 <= n < 10000 -> exists a b c d, format_padded 4 n = String a (String b (String c (String d EmptyString)))
  /\ parse_i64 (String a (String b (String c (String d EmptyString)))) = Some n.
Proof.
  intros Hn. pose proof (holds_upto_spec _ _ _ four_digits_checked n ltac:(lia)) as Hc. unfold four_digits in Hc.
  destruct (format_padded 4 n) as [|a [|b [|c [|d [|]]]]]; try done. apply bool_decide_eq_true in Hc. by exists a, b, c, d.
Qed.

(** the seconds of a day *)
Lemma clock_parts s : 0 <= s < 86400 -> 0 <= i64_div s 3600 < 24 /\ 0 <= i64_div (Z.rem s 3600) 60 < 60 /\ 0 <= Z.rem s 60 < 60
  /\ i64_div s 3600 * 3600 + i64_div (Z.rem s 3600) 60 * 60 + Z.rem s 60 = s.
Proof. intros Hs. unfold i64_div. Z.to_euclidean_division_equations. lia. Qed.

Lemma parse_formatted year month day s : 0 <= year < 10000 -> valid_date (year, month, day) -> 0 <= s < 86400 ->
  let t := days_from_civil year month day * 86400 + s in i64_min <= days_from_civil year month day * 86400 <= i64_max -> i64_min <= t <= i64_max ->
  mcp_rfc3339 t = format_timestamp (year, month, day) s -> parse_rfc3339_utc (format_timestamp (year, month, day) s) = Ok t.
Proof.
  intros Hy [Hm Hd] Hs t Hdays Ht Hprint. destruct (clock_parts s Hs) as (Hh & Hmin & Hsec & Hsum). assert (month_days year month <= 31) as Hmd by (unfold month_days; repeat case_match; lia).
  destruct (format_four year Hy) as (y1 & y2 & y3 & y4 & Hy' & Py). destruct (format_two month ltac:(lia)) as (m1 & m2 & Hm' & Pm). destruct (format_two day ltac:(lia)) as (d1 & d2 & Hd' & Pd).
  destruct (format_two (i64_div s 3600) ltac:(lia)) as (h1 & h2 & Hh' & Ph). destruct (format_two (i64_div (Z.rem s 3600) 60) ltac:(lia)) as (n1 & n2 & Hn' & Pn). destruct (format_two (Z.rem s 60) ltac:(lia)) as (s1 & s2 & Hs' & Ps).
  revert Hprint. unfold format_timestamp at 1 2. rewrite Hy', Hm', Hd', Hh', Hn', Hs'. intros Hprint. unfold parse_rfc3339_utc. cbn [String.append] in Hprint |- *.
  cbn [String.length Nat.eqb byte_at]. unfold byte_at. cbn [String.get]. rewrite !bool_decide_eq_true_2 by done. cbn [negb orb]. unfold number. cbn [substring Nat.sub]. rewrite Py, Pm, Pd, Ph, Pn, Ps. cbn [ok_or].
  rewrite (proj2 (Z.leb_le 1 month)), (proj2 (Z.leb_le month 12)), (proj2 (Z.leb_le 1 day)), (proj2 (Z.leb_le day 31)), (proj2 (Z.ltb_ge 23 _)), (proj2 (Z.ltb_ge 59 _)), (proj2 (Z.ltb_ge 59 _)) by lia. cbn [negb andb orb].
  unfold checked. rewrite (proj2 (Z.leb_le i64_min _)), (proj2 (Z.leb_le _ i64_max)) by lia. cbn [andb mbind option_bind ok_or]. rewrite Hsum. fold t.
  rewrite (proj2 (Z.leb_le i64_min t)), (proj2 (Z.leb_le t i64_max)) by lia. cbn [andb ok_or]. rewrite Hprint, String.eqb_refl. done.
Qed.

(** the year of a day of the period; its last 60 days are in January and February of the year 400 *)
Lemma year_in_period doe : 0 <= doe < 146097 -> let year := fst (fst (civil_from_days doe)) in 0 <= year <= 400 /\ (year = 400 <-> 146037 <= doe).
Proof.
  intros Hd. destruct (day_parts doe Hd) as (y & doy & m & d & Hy & Hdoe & Hdoy & Hm & Hc & _). rewrite Hc. simpl. unfold month_day in Hm. injection Hm as Hm _.
  set (mp := (5 * doy + 2) / 153) in *. assert (m <= 2 <-> 306 <= doy) as Hmonth.
  { assert (0 <= mp) by (apply Z.div_pos; lia). destruct (Z.ltb_spec mp 10) as [Hlt|Hge]; subst m.
    - split; [lia|]. intros. exfalso. assert (10 <= mp); [|lia]. subst mp. apply Z.div_le_lower_bound; lia.
    - split; [intros _|intros; assert (mp <= 11); [|lia]; subst mp; assert (doy < 366) by (destruct (year_check y Hy) as (_ & _ & Hl); destruct (leap (y + 1)); lia); apply Z.lt_succ_r, Z.div_lt_upper_bound; lia].
      subst mp. Z.to_euclidean_division_equations. lia. }
  assert (y < 399 -> doe < 145731) as Hlow.
  { intros. pose proof (year_check y Hy) as (_ & _ & Hl). unfold year_end in *. destruct (Z.eqb_spec y 399); [lia|]. assert (year_start (y + 1) <= 145731); [|lia].
    unfold year_start. Z.to_euclidean_division_equations. lia. }
  assert (y = 399 -> doe = 145731 + doy) as Hlast by (intros ->; exact Hdoe).
  destruct (Z.leb_spec m 2), (decide (y = 399)); lia.
Qed.

Lemma year_bounds z : -60 <= z <= 3652364 -> 0 <= fst (fst (civil_from_days z)) < 10000.
Proof.
  intros Hz. assert (exists m e, 0 <= m < 146097 /\ z = m + e * 146097) as (m & e & Hm & ->).
  { exists (z mod 146097), (z / 146097). split; [apply Z.mod_pos_bound; lia|]. pose proof (Z.div_mod z 146097 ltac:(lia)). lia. }
  rewrite civil_later. destruct (year_in_period m Hm) as [Hy H400]. destruct (civil_from_days m) as [[year month] day]. simpl in *. lia.
Qed.

(** C40. Timestamps are correct. The date that the front end computes from a number of days
    is the proleptic Gregorian calendar: day 0 is 1 January 1970 and each next day is the
    next date. For every second of the years 0000 to 9999 both printers give the same
    text, which parses back to that second, and a text is accepted only if it is exactly
    what the printer gives for its second. *)
Theorem timestamps_correct :
  civil_from_days 719468 = (1970, 1, 1) /\ (forall z, civil_from_days (z + 1) = next_date (civil_from_days z))
  /\ (forall t, -62167219200 <= t <= 253402300799 -> rfc3339 t = Ok (mcp_rfc3339 t) /\ parse_rfc3339_utc (mcp_rfc3339 t) = Ok t)
  /\ (forall value t, parse_rfc3339_utc value = Ok t -> value = mcp_rfc3339 t).
Proof.
  split; [done|]. split; [intros; apply calendar|]. split.
  - intros t Ht. set (z := t / 86400 + 719468). assert (-719528 <= t / 86400 <= 2932896) as Hd by (split; [apply Z.div_le_lower_bound; lia|apply Z.lt_succ_r, Z.div_lt_upper_bound; lia]). assert (-60 <= z <= 3652364) as Hz by lia.
    split; [unfold rfc3339; fold z; rewrite (proj2 (checked_Some _ _ _ z)) by (split; [done|unfold i64_min, i64_max; lia]); done|].
    destruct (calendar z) as (_ & Hv & Hdays). pose proof (year_bounds z Hz) as Hy. assert (mcp_rfc3339 t = format_timestamp (civil_from_days z) (t mod 86400)) as Hp by done. rewrite Hp.
    destruct (civil_from_days z) as [[year month] day] eqn:Hc. cbn [fst] in Hy.
    assert (days_from_civil year month day * 86400 + t mod 86400 = t) as Ht' by (rewrite Hdays; subst z; pose proof (Z.div_mod t 86400 ltac:(lia)); lia).
    rewrite <-Ht' at 2. apply parse_formatted; [done|done|apply Z.mod_pos_bound; lia| | |by rewrite Ht', Hp]; rewrite ?Ht', ?Hdays; unfold i64_min, i64_max; lia.
  - intros value t. unfold parse_rfc3339_utc. destruct (_ || _ || _ || _ || _ || _ || _); [done|]. repeat (destruct (number _ _ _); [|done]). destruct (_ || _ || _ || _ || _); [done|].
    destruct (ok_or _ _) as [timestamp|]; [|done]. destruct (String.eqb_spec (mcp_rfc3339 timestamp) value) as [<-|]; [|done]. by intros [= <-].
Qed.
