(* ===== verification/ApiUploads.v ===== *)
(** Model of how the HTTP front end plans an upload and grants access to its parts:
    [upload_layout_and_part_count], [upload_part_size], [issue_capability] and the part
    grants of [get_upload] in [source/apps/filebelt-api/src/resources.rs].  The random
    identifiers and nonces are arguments. *)
From S2P Require Import Prelude Collections Libraries Keyset Frames Capability Web CollaborationStore StorageLayout SnapshotPolicy ConfigTypes Config WorkerIo ApiTime.

Open Scope string_scope.
Open Scope Z_scope.
Open Scope list_scope.
Open Scope bool_scope.
Open Scope filebelt_scope.

Import Api.

(** ** The parts of an upload *)

Definition i32_max : Z := 2147483647.
Definition i32_try_from (x : Z) : option Z := checked (-2147483648) i32_max x.

Definition too_many_parts : ApiError := bad_request "upload.too_many_parts" "The upload requires too many parts".

Definition upload_layout_and_part_count (size chunk_size whole_threshold : Z) : result ApiError (string * Z) :=
  if size <=? whole_threshold then Ok ("whole", 1)
  else
    let? rest := ok_or internal (checked_sub_u64 chunk_size 1) in
    let? total := ok_or internal (checked_add_u64 size rest) in
    let parts := Z.max (total / chunk_size) 1 in
    let? part_count := ok_or too_many_parts (i32_try_from parts) in
    Ok ("chunked", part_count).

(** the part of [begin_upload] between authorization and the transaction *)
Definition plan_upload (limits : LimitConfig) (declared_size : Z) : result ApiError (Z * string * Z) :=
  let? chunk_size := ok_or internal (i32_try_from (LimitConfig_chunk_size_bytes limits)) in
  let? plan := upload_layout_and_part_count declared_size chunk_size (LimitConfig_whole_threshold_bytes limits) in
  if LimitConfig_max_parts limits <? plan.2 then Err too_many_parts else Ok (chunk_size, plan.1, plan.2).

Definition upload_part_size (declared_size chunk_size part_count part_number : Z) : result ApiError Z :=
  if (part_count =? 0) || (part_count <=? part_number) || (chunk_size =? 0) then Err internal
  else if part_count =? 1 then Ok declared_size
  else
    let? offset := ok_or internal (checked_mul_u64 part_number chunk_size) in
    let? remaining := ok_or internal (checked_sub_u64 declared_size offset) in
    if part_number + 1 =? part_count then Ok remaining
    else if chunk_size <=? remaining then Ok chunk_size
    else Err internal.

(** ** Capabilities *)

Definition CAPABILITY_AUDIENCE : string := "filebelt-worker-io".

Section capabilities.
Context `{UuidLib, Base64Lib, Blake3Lib, Ed25519Lib}.
Context `{!ProstMessage CapabilityClaims, !ProstMessage SignedCapability}.

(** the tenant, the signing key and its generation *)
Record ApiState := mkApiState { as_tenant_id : Uuid; as_key_generation : Z; as_signer : ed_keypair }.

Definition upload_capability_range (u : UploadRow) (op : CapabilityOperation) (part : Z) : result ApiError (Z * Z) :=
  if negb (bool_decide (op_i32 op = op_i32 OpUploadPart)) then Ok (0, 0)
  else
    let? declared_size := ok_or internal (u64_try_from (u_declared_size_bytes (up_record u))) in
    let? chunk_size := ok_or internal (u64_try_from (up_chunk_size_bytes u)) in
    let? part_count := ok_or internal (u64_try_from (u_part_count (up_record u))) in
    let? size := upload_part_size declared_size chunk_size part_count part in
    Ok (0, saturating_sub_u64 size 1).

Definition sign_api_capability (st : ApiState) (claims : CapabilityClaims) : result ApiError string :=
  let? use_case :=
    if operation claims =? op_i32 OpUploadPart then Ok UploadPart
    else if operation claims =? op_i32 OpFinalizeUpload then Ok FinalizeUpload
    else if operation claims =? op_i32 OpDownload then Ok Download
    else Err internal in
  map_err (fun _ => internal) (sign_api_storage_capability claims use_case (as_key_generation st) (as_signer st)).

(** what is drawn for a capability: its identifier, its nonce and the identifier of the grant *)
Record Drawn := mkDrawn { dn_capability : Uuid; dn_nonce : bytes; dn_grant : Uuid }.

Definition capability_claims (st : ApiState) (principal session : Uuid) (u : UploadRow) (resource : Uuid) (grant : ApiAuthorizationGrant) (op : CapabilityOperation)
    (part issued_at expires_at : Z) (range : Z * Z) (fence : Z) (d : Drawn) : CapabilityClaims :=
  mkClaims (uuid_hyphenated (dn_capability d)) CAPABILITY_AUDIENCE (op_i32 op) (uuid_hyphenated (as_tenant_id st)) (uuid_hyphenated principal) (uuid_hyphenated session)
    (uuid_hyphenated resource) (uuid_hyphenated (up_upload_id u)) (uuid_hyphenated (u_payload_id (up_record u))) part range.1 range.2
    (Api.resource_acl_generation grant) (Api.membership_generation grant) (Api.namespace_generation grant) fence (dn_nonce d) issued_at expires_at
    (Api.drive_acl_generation grant) (uuid_hyphenated (dn_grant d)).

Definition issue_capability (st : ApiState) (principal session : Uuid) (u : UploadRow) (resource : Uuid) (grant : ApiAuthorizationGrant) (op : CapabilityOperation)
    (part issued_at expires_at : Z) (d : Drawn) : result ApiError string :=
  let? range := upload_capability_range u op part in
  let? fence := ok_or internal (u64_try_from (up_fencing_token u)) in
  sign_api_capability st (capability_claims st principal session u resource grant op part issued_at expires_at range fence d).
End capabilities.

(** ** The parts tile the file *)

Lemma plan_cases size chunk threshold layout count : 0 <= size -> 0 <= chunk -> upload_layout_and_part_count size chunk threshold = Ok (layout, count) ->
  (layout = "whole" /\ count = 1 /\ size <= threshold) \/ (layout = "chunked" /\ threshold < size /\ 0 < chunk /\ 1 <= count <= i32_max /\ (size = 0 /\ count = 1 \/ (count - 1) * chunk < size <= count * chunk)).
Proof.
  unfold upload_layout_and_part_count. intros Hs Hc. destruct (Z.leb_spec size threshold); [intros [= <- <-]; by left|]. unfold checked_sub_u64, checked_add_u64, i32_try_from. destruct (checked 0 u64_max (chunk - 1)) as [rest|] eqn:Hr; [|done].
  apply checked_Some in Hr as [<- Hr]. cbn [ok_or]. destruct (checked 0 u64_max (size + (chunk - 1))) as [total|] eqn:Ht; [|done]. apply checked_Some in Ht as [<- Ht]. cbn [ok_or].
  destruct (checked _ _ (Z.max _ 1)) as [n|] eqn:Hn; [|done]. apply checked_Some in Hn as [<- Hn]. intros [= <- <-]. right. assert (0 < chunk) by lia. split_and!; try done; try lia.
  set (q := (size + (chunk - 1)) / chunk). assert (q * chunk <= size + (chunk - 1) < q * chunk + chunk) as Hq by (subst q; pose proof (Z.div_mod (size + (chunk - 1)) chunk ltac:(lia)); pose proof (Z.mod_pos_bound (size + (chunk - 1)) chunk ltac:(lia)); nia).
  destruct (decide (size = 0)) as [-> |Hne]; [left; split; [done|]; assert (q <= 0) by nia; lia|]. right. assert (1 <= q) by nia. rewrite Z.max_l by lia. nia.
Qed.

(** the size of each part *)
Lemma part_size_value size chunk threshold layout count part : 0 <= size <= u64_max -> 0 <= chunk -> upload_layout_and_part_count size chunk threshold = Ok (layout, count) -> 0 < chunk -> 0 <= part < count ->
  upload_part_size size chunk count part = Ok (if count =? 1 then size else Z.min chunk (size - part * chunk)) /\ (count <> 1 -> 0 < Z.min chunk (size - part * chunk)).
Proof.
  intros Hs Hc0 Hp Hc Hpart. apply plan_cases in Hp; [|lia|lia]. unfold upload_part_size. destruct (Z.eqb_spec count 0); [lia|]. destruct (Z.leb_spec count part); [lia|]. destruct (Z.eqb_spec chunk 0); [lia|]. cbn [orb].
  destruct (Z.eqb_spec count 1) as [|Hn1]; [done|]. destruct Hp as [(_ & ? & _)|(_ & _ & _ & Hcount & [[_ ?]|Hp])]; [done|done|].
  assert (part * chunk <= (count - 1) * chunk) by nia. unfold checked_mul_u64, checked_sub_u64. rewrite (proj2 (checked_Some 0 u64_max (part * chunk) _)) by (split; [reflexivity|nia]). cbn [ok_or].
  rewrite (proj2 (checked_Some 0 u64_max (size - part * chunk) _)) by (split; [reflexivity|nia]). cbn [ok_or]. destruct (Z.eqb_spec (part + 1) count) as [He|Hne].
  - assert (part = count - 1) as -> by lia. split; [f_equal; nia|nia].
  - assert ((part + 1) * chunk <= (count - 1) * chunk) by nia. destruct (Z.leb_spec chunk (size - part * chunk)); [|nia]. split; [f_equal; lia|nia].
Qed.

(** each part begins where the one before it ends, and the last ends with the file *)
Lemma parts_tile size chunk threshold layout count part : 0 <= size <= u64_max -> 0 < chunk -> upload_layout_and_part_count size chunk threshold = Ok (layout, count) -> 0 <= part < count ->
  exists bytes, upload_part_size size chunk count part = Ok bytes /\ part * chunk + bytes = (if part + 1 =? count then size else (part + 1) * chunk) /\ (layout = "chunked" -> 1 < count -> 0 < bytes <= chunk).
Proof.
  intros Hs Hc Hp Hpart. destruct (part_size_value size chunk threshold layout count part) as [Hv Hpos]; [lia|lia|done|lia|lia|]. exists (if count =? 1 then size else Z.min chunk (size - part * chunk)). split; [done|].
  apply plan_cases in Hp; [|lia|lia]. destruct (Z.eqb_spec count 1) as [-> |Hn]; [assert (part = 0) as -> by lia; split; [simpl; lia|lia]|]. split; [|intros; lia].
  destruct Hp as [(_ & ? & _)|(_ & _ & _ & Hcount & [[_ ?]|Hp])]; [done|done|]. destruct (Z.eqb_spec (part + 1) count) as [He|Hne]; [assert (part = count - 1) as -> by lia; nia|].
  assert ((part + 1) * chunk <= (count - 1) * chunk) by nia. lia.
Qed.

(** ** From the front end to the worker *)

Section admission.
Context `{UuidLaws, Base64Laws, Blake3Lib, Ed25519Laws}.
Context `{!ProstMessage CapabilityClaims, !ProstMessage SignedCapability}.
Context (valid_claims : CapabilityClaims -> Prop) (valid_signed : SignedCapability -> Prop) `{!ProstLaws CapabilityClaims valid_claims, !ProstLaws SignedCapability valid_signed}.
Context (signed_u32 : forall g c s, is_u32 g -> valid_signed (mkSigned g c s)).

(** the worker's view of an upload that the front end planned *)
Record planned (u : UploadRow) (threshold : Z) : Prop := {
  pl_layout : exists layout, upload_layout_and_part_count (u_declared_size_bytes (up_record u)) (up_chunk_size_bytes u) threshold = Ok (layout, u_part_count (up_record u));
  pl_size : 0 <= u_declared_size_bytes (up_record u) <= i64_max;
  pl_chunk : 0 < up_chunk_size_bytes u <= i32_max;
  pl_fence : 0 <= up_fencing_token u <= i64_max
}.

Lemma worker_agrees u threshold part : planned u threshold -> 0 <= part < u_part_count (up_record u) ->
  exists bytes, upload_part_size (u_declared_size_bytes (up_record u)) (up_chunk_size_bytes u) (u_part_count (up_record u)) part = Ok bytes
    /\ expected_part_size u part = Ok bytes /\ 0 <= bytes /\ upload_capability_range u OpUploadPart part = Ok (0, Z.max 0 (bytes - 1)).
Proof.
  intros [[layout Hp] Hs Hc Hf] Hpart. unfold i64_max, i32_max in *. set (size := u_declared_size_bytes (up_record u)) in *. set (chunk := up_chunk_size_bytes u) in *. set (count := u_part_count (up_record u)) in *.
  destruct (part_size_value size chunk threshold layout count part) as [Hv Hpos]; [unfold u64_max; lia|lia|done|lia|lia|].
  assert (1 <= count <= 2147483647) as Hcount by (apply plan_cases in Hp; unfold i32_max in *; lia).
  assert (forall x, 0 <= x <= 9223372036854775807 -> u64_try_from x = Some x) as Hu64 by (intros x Hx; apply checked_Some; unfold u64_max; split; [done|lia]).
  exists (if count =? 1 then size else Z.min chunk (size - part * chunk)). split; [done|]. split; [|split; [destruct (Z.eqb_spec count 1); lia|]].
  - unfold expected_part_size. fold count. fold size. fold chunk. destruct (Z.ltb_spec part 0); [lia|]. destruct (Z.leb_spec count part); [lia|]. destruct (Z.leb_spec count 0); [lia|]. cbn [orb]. rewrite !Hu64 by lia. cbn [ok_or].
    unfold upload_part_size in Hv. destruct (Z.eqb_spec count 0); [lia|]. destruct (Z.leb_spec count part); [lia|]. destruct (Z.eqb_spec chunk 0); [lia|]. cbn [orb] in Hv. destruct (Z.eqb_spec count 1); [done|].
    replace (checked_mul_u64 chunk part) with (checked_mul_u64 part chunk) by (unfold checked_mul_u64; f_equal; lia). destruct (checked_mul_u64 part chunk) as [offset|]; [|done]. cbn [ok_or] in Hv |- *. destruct (checked_sub_u64 size offset) as [remaining|]; [|done]. cbn [ok_or] in Hv |- *.
    destruct (part + 1 =? count); [congruence|]. destruct (chunk <=? remaining); [congruence|done].
  - unfold upload_capability_range. rewrite bool_decide_eq_true_2 by done. cbn [negb]. fold size chunk count. rewrite !Hu64 by lia. cbn [ok_or]. by rewrite Hv.
Qed.

(** the front end and the worker share the tenant, the key and the backend, the owner of the upload asks, and the grant and what was drawn are as they always are *)
Record granted (st : ApiState) (w : AppState) (principal session : Uuid) (u : UploadRow) (grant : ApiAuthorizationGrant) (d : Drawn) : Prop := {
  gt_generation : is_u32 (as_key_generation st) /\ as_key_generation st <> 0;
  gt_key : bt_get (as_key_generation st) (ck_keys (st_api_keys w)) = Some (ed_public (as_signer st));
  gt_tenant : st_tenant_id w = as_tenant_id st /\ u_tenant_id (up_record u) = as_tenant_id st;
  gt_owner : up_owner_principal_id u = principal;
  gt_backend : u_backend_id (up_record u) = st_backend_id w;
  gt_ids : Forall is_uuid [dn_capability d; as_tenant_id st; principal; session; default_node u; up_upload_id u; u_payload_id (up_record u); dn_grant d];
  gt_nonce : len (dn_nonce d) = 32;
  gt_fences : 0 < Api.resource_acl_generation grant /\ 0 < Api.drive_acl_generation grant /\ 0 < Api.membership_generation grant /\ 0 < Api.namespace_generation grant
}.

Lemma issued_authorizes st w principal session u grant d part now now' bytes fence : granted st w principal session u grant d -> 0 <= bytes -> now <= now' < now + MAX_CAPABILITY_LIFETIME_SECONDS ->
  authorizes (capability_claims st principal session u (default_node u) grant OpUploadPart part now (now + MAX_CAPABILITY_LIFETIME_SECONDS) (0, Z.max 0 (bytes - 1)) fence d)
    WORKER_AUDIENCE OpUploadPart now'.
Proof.
  intros [_ _ _ _ _ Hids Hnonce Hf] Hb Hn. rewrite !Forall_cons in Hids. destruct Hids as (Hc & Ht & Hp & _ & _ & _ & _ & Hg & _).
  split; simpl; try done; try lia. repeat (apply Forall_cons; split); [by rewrite uuid_parse_hyphenated..|by apply Forall_nil].
Qed.

(** the worker finds in the claims what the front end put there *)
Lemma issued_admitted st w principal session u grant d part now now' bytes headers wire :
  granted st w principal session u grant d -> 0 <= bytes -> 0 <= up_fencing_token u <= i64_max -> now <= now' < now + MAX_CAPABILITY_LIFETIME_SECONDS ->
  let claims := capability_claims st principal session u (default_node u) grant OpUploadPart part now (now + MAX_CAPABILITY_LIFETIME_SECONDS) (0, Z.max 0 (bytes - 1)) (up_fencing_token u) d in
  valid_claims claims -> sign_capability claims OpUploadPart (as_key_generation st) (as_signer st) = Ok wire -> capability_wire headers = Some wire ->
  exists a, authorize w headers OpUploadPart now' = Ok a /\ ac_claims a = claims /\ validate_upload_capability a u (u_payload_id (up_record u)) (st_backend_id w) = Ok tt /\ validate_exact_range a bytes = Ok tt.
Proof.
  intros Hg Hb Hfence Hn claims Hvalid Hsign Hwire. pose proof (issued_authorizes st w principal session u grant d part now now' bytes (up_fencing_token u) Hg Hb Hn) as Ha.
  destruct Hg as [[Hgen _] Hkey [Ht Hrow] Howner Hbackend Hids Hnonce Hf]. rewrite !Forall_cons in Hids. destruct Hids as (Hc & Htn & Hp & Hss & Hres & _ & _ & _ & _).
  exists (mkAuthorized claims (as_tenant_id st) session principal (default_node u) (dn_capability d)). unfold authorize. rewrite Hwire. cbn [ok_or]. unfold verify_capability_for_operation, verify_api_storage_capability, verified_claims.
  rewrite (signed_verifies valid_claims valid_signed signed_u32 claims OpUploadPart (as_key_generation st) (as_signer st) (st_api_keys w) WORKER_AUDIENCE now' wire) by done. cbn [v_claims].
  unfold parse_required_uuid. cbn [claims capability_claims tenant_id claim_principal_id resource_id capability_id session_id]. rewrite !uuid_parse_hyphenated by done. cbn [ok_or]. rewrite Ht, N.eqb_refl. cbn [negb]. split; [done|]. split; [done|]. split.
  - unfold validate_upload_capability. cbn [ac_tenant_id ac_principal_id ac_resource_id]. rewrite Hrow, Howner, Hbackend, !N.eqb_refl. cbn [negb orb]. unfold claimed_fence. cbn [ac_claims claims capability_claims fencing_token].
    unfold i64_try_from. rewrite (proj2 (checked_Some i64_min i64_max (up_fencing_token u) _)) by (split; [reflexivity|unfold i64_min, i64_max in *; lia]). cbn [ok_or]. by rewrite Z.eqb_refl.
  - unfold validate_exact_range. cbn [ac_claims claims capability_claims range_start range_end fst snd]. rewrite Z.eqb_refl. cbn [negb orb].
    destruct (Z.eqb_spec bytes 0) as [-> |Hne]; [done|]. destruct (Z.ltb_spec 0 bytes); [|lia]. rewrite Z.max_r by lia. by rewrite Z.eqb_refl.
Qed.

(** C27. The worker admits what the front end grants. For an upload that the front end
    planned, whatever its size and the configured limits: its parts lie end to end and
    cover the file exactly; the front end issues a capability for each of them; and for
    the minute of its validity a worker with the same tenant, keys and record accepts this
    capability for exactly that upload, that part and that number of bytes. The encoding of
    the claims is assumed to be decoded again when their range and fence are 64-bit values. *)
Theorem issued_parts_admitted (st : ApiState) (w : AppState) principal session (u : UploadRow) threshold grant part now d headers now' :
  planned u threshold -> 0 <= part < u_part_count (up_record u) -> granted st w principal session u grant d ->
  (forall first last fence, is_u64 first -> is_u64 last -> is_u64 fence ->
     valid_claims (capability_claims st principal session u (default_node u) grant OpUploadPart part now (now + MAX_CAPABILITY_LIFETIME_SECONDS) (first, last) fence d)) ->
  now <= now' < now + MAX_CAPABILITY_LIFETIME_SECONDS ->
  exists wire bytes, issue_capability st principal session u (default_node u) grant OpUploadPart part now (now + MAX_CAPABILITY_LIFETIME_SECONDS) d = Ok wire
    /\ upload_part_size (u_declared_size_bytes (up_record u)) (up_chunk_size_bytes u) (u_part_count (up_record u)) part = Ok bytes
    /\ part * up_chunk_size_bytes u + bytes = (if part + 1 =? u_part_count (up_record u) then u_declared_size_bytes (up_record u) else (part + 1) * up_chunk_size_bytes u)
    /\ (capability_wire headers = Some wire -> exists a, authorize w headers OpUploadPart now' = Ok a
          /\ uuid_parse_str (upload_id (ac_claims a)) = Some (up_upload_id u) /\ Capability.part_number (ac_claims a) = part
          /\ validate_upload_capability a u (u_payload_id (up_record u)) (st_backend_id w) = Ok tt
          /\ expected_part_size u part = Ok bytes /\ validate_exact_range a bytes = Ok tt).
Proof.
  intros Hplan Hpart Hg Hvalid Hnow. destruct (worker_agrees u threshold part Hplan Hpart) as (bytes & Hsize & Hexpected & Hpos & Hrange). destruct Hplan as [[layout Hp] Hs Hc Hf].
  assert (u64_try_from (up_fencing_token u) = Some (up_fencing_token u)) as Hfence by (apply checked_Some; unfold u64_max, i64_max in *; split; [done|lia]).
  set (claims := capability_claims st principal session u (default_node u) grant OpUploadPart part now (now + MAX_CAPABILITY_LIFETIME_SECONDS) (0, Z.max 0 (bytes - 1)) (up_fencing_token u) d).
  assert (exists wire, sign_capability claims OpUploadPart (as_key_generation st) (as_signer st) = Ok wire) as [wire Hw].
  { unfold sign_capability. destruct (gt_generation _ _ _ _ _ _ _ Hg) as [_ Hg0]. destruct (Z.eqb_spec (as_key_generation st) 0); [done|]. by eexists. }
  exists wire, bytes. split; [unfold issue_capability; rewrite Hrange, Hfence; cbn [ok_or]; fold claims; unfold sign_api_capability, sign_api_storage_capability; cbn; cbn in Hw; by rewrite Hw|]. split; [done|].
  assert (0 <= u_declared_size_bytes (up_record u) <= u64_max) as Hs64 by (unfold u64_max, i64_max in *; lia).
  split; [destruct (parts_tile _ _ _ _ _ part Hs64 (proj1 Hc) Hp Hpart) as (b & Hb & Ht & _); rewrite Hsize in Hb; injection Hb as <-; done|].
  assert (is_u64 (Z.max 0 (bytes - 1)) /\ is_u64 (up_fencing_token u)) as [Hlast Htoken].
  { destruct (parts_tile _ _ _ _ _ part Hs64 (proj1 Hc) Hp Hpart) as (b & Hb & Ht & _). rewrite Hsize in Hb. injection Hb as <-. unfold is_u64, u64_max, i64_max, i32_max in *. split; [|lia]. destruct (part + 1 =? _); nia. }
  pose proof (Hvalid 0 _ _ ltac:(unfold is_u64, u64_max; lia) Hlast Htoken) as Hv.
  intros Hwire. destruct (issued_admitted st w principal session u grant d part now now' bytes headers wire Hg Hpos Hf Hnow Hv Hw Hwire) as (a & Hauth & Hcl & Hup & Hex).
  exists a. rewrite Hcl. split_and!; try done. simpl. apply uuid_parse_hyphenated. pose proof (gt_ids _ _ _ _ _ _ _ Hg) as Hids. rewrite !Forall_cons in Hids. apply Hids.
Qed.
End admission.
