(* ===== verification/ApiPages.v ===== *)
(** Model of the paged listings of the HTTP front end: the cursors of
    [source/apps/filebelt-api/src/resources.rs] and the handlers [list_children],
    [list_trash], [list_shared], [list_drives] and [list_versions].  Authentication,
    [authorize] and the rows that the database returns are arguments. *)
From S2P Require Import Prelude Collections Libraries Frames Domain SnapshotPolicy CollaborationStore ApiTime.

Open Scope string_scope.
Open Scope Z_scope.
Open Scope list_scope.
Open Scope bool_scope.
Open Scope filebelt_scope.

Import Api.

(** ** Errors *)

Definition api_conflict (code title : string) : ApiError := ApiError_new 409 code title.
Definition remediation_in_progress (code title : string) : ApiError := mkApiError 503 code title (Some 60).
Definition api_of_database (e : DatabaseError) : ApiError :=
  match e with
  | NotFound => not_found
  | Conflict => api_conflict "request.conflict" "The request conflicts with current state"
  | QuotaExceeded => ApiError_new 507 "quota.exceeded" "The drive quota is exhausted"
  | StorageUnavailable => ApiError_new 507 "storage.unavailable" "Storage is unavailable for new reservations"
  | AdmissionLimited => ApiError_new 429 "request.admission_limited" "The service is temporarily at its request admission limit"
  | StaleGeneration => ApiError_new 412 "generation.stale" "The supplied generation is stale"
  | SecurityAdmissionBlocked => remediation_in_progress "security.remediation_in_progress" "Security repair must complete before this authority can be created"
  | Sql | Migration | InvalidPersistedValue => internal
  end.
Definition cursor_invalid : ApiError := bad_request "pagination.cursor_invalid" "The page cursor is invalid".
Definition id_invalid : ApiError := bad_request "id.invalid" "The identifier is not a canonical UUIDv4".

(** ** Rows *)

Record NodeRecord := mkNodeRecord {
  nr_id : Uuid; nr_drive_id : Uuid; nr_parent_id : option Uuid; nr_kind : string; nr_display_name : string; nr_name_key : string; nr_head_version_id : option Uuid;
  nr_namespace_generation : Z; nr_acl_generation : Z; nr_attribute_generation : Z; nr_content_class_policy : string; nr_trashed : bool; nr_updated_at : string;
  nr_size_bytes : option Z; nr_version_ordinal : option Z; nr_head_media_type : option string
}.
Record NodeResponse := mkNodeResponse {
  ns_id : Uuid; ns_drive_id : Uuid; ns_parent_id : option Uuid; ns_kind : string; ns_display_name : string; ns_head_version_id : option Uuid;
  ns_namespace_generation : Z; ns_acl_generation : Z; ns_attribute_generation : Z; ns_content_class_policy : string; ns_trashed : bool; ns_updated_at : string;
  ns_size_bytes : option Z; ns_version_ordinal : option Z; ns_head_media_type : option string
}.
Record DriveRecord := mkDriveRecord {
  dr_id : Uuid; dr_owner_principal_id : Uuid; dr_kind : string; dr_display_name : string; dr_root_id : Uuid; dr_namespace_generation : Z; dr_acl_generation : Z;
  dr_quota_bytes : Z; dr_used_physical_bytes : Z; dr_reserved_bytes : Z; dr_owner_display_name : string
}.
Record DriveResponse := mkDriveResponse {
  ds_id : Uuid; ds_kind : string; ds_display_name : string; ds_owner_display_name : string; ds_root_id : Uuid; ds_namespace_generation : Z; ds_acl_generation : Z;
  ds_quota_bytes : Z; ds_used_physical_bytes : Z; ds_reserved_bytes : Z
}.
Record FileVersionRecord := mkVersionRecord {
  vr_id : Uuid; vr_node_id : Uuid; vr_ordinal : Z; vr_size_bytes : Z; vr_created_by : Uuid; vr_restored_from : option Uuid; vr_created_at : string; vr_current : bool;
  vr_media_type : option string; vr_origin_kind : string; vr_source_version_id : option Uuid; vr_creator_display_name : option string; vr_mcp_assisted : bool;
  vr_observed_content_class : string; vr_revision_backend : string; vr_git_commit_oid : option string
}.
Record VersionResponse := mkVersionResponse {
  vs_id : Uuid; vs_node_id : Uuid; vs_ordinal : Z; vs_size_bytes : Z; vs_created_by : Uuid; vs_restored_from : option Uuid; vs_created_at : string; vs_current : bool;
  vs_media_type : string; vs_origin : string; vs_source_version_id : option Uuid; vs_creator_display_name : string; vs_mcp_assisted : bool;
  vs_observed_content_class : string; vs_revision_backend : string; vs_git_commit_oid : option string
}.

(** [str::find] of a character, and [str::rfind] of a sign *)
Fixpoint find_char (c : ascii) (s : string) : option nat :=
  match s with
  | EmptyString => None
  | String a rest => if Ascii.eqb a c then Some 0%nat else option_map S (find_char c rest)
  end.
Fixpoint rfind_sign (s : string) : option nat :=
  match s with
  | EmptyString => None
  | String a rest => match rfind_sign rest with Some i => Some (S i) | None => if Ascii.eqb a "+" || Ascii.eqb a "-" then Some 0%nat else None end
  end.
Definition str_drop (n : nat) (s : string) : string := substring n (String.length s - n) s.

Definition postgres_timestamp (value : string) : result ApiError string :=
  let? space := ok_or internal (find_char " " value) in
  let normalized := substring 0 space value +:+ "T" +:+ str_drop (space + 1) value in
  let? index := ok_or internal (rfind_sign (str_drop (space + 1) normalized)) in
  let offset_start := (index + space + 1)%nat in
  Ok (if Nat.eqb (String.length normalized - offset_start) 3 then normalized +:+ ":00" else normalized).

Definition NodeResponse_try_from (v : NodeRecord) : result ApiError NodeResponse :=
  let? updated_at := postgres_timestamp (nr_updated_at v) in
  Ok (mkNodeResponse (nr_id v) (nr_drive_id v) (nr_parent_id v) (nr_kind v) (nr_display_name v) (nr_head_version_id v) (nr_namespace_generation v) (nr_acl_generation v)
        (nr_attribute_generation v) (nr_content_class_policy v) (nr_trashed v) updated_at (nr_size_bytes v) (nr_version_ordinal v) (nr_head_media_type v)).
Definition DriveResponse_from (v : DriveRecord) : DriveResponse :=
  mkDriveResponse (dr_id v) (dr_kind v) (dr_display_name v) (dr_owner_display_name v) (dr_root_id v) (dr_namespace_generation v) (dr_acl_generation v)
    (dr_quota_bytes v) (dr_used_physical_bytes v) (dr_reserved_bytes v).

(** ** Cursors *)

Definition validated_limit (limit : Z) : result ApiError Z :=
  if (1 <=? limit) && (limit <=? 200) then Ok limit
  else Err (bad_request "pagination.limit_invalid" "The page limit must be between 1 and 200").
Definition default_page_limit : Z := 50.

Record NodeCursor := mkNodeCursor { nc_kind : string; nc_name_key : string; nc_id : Uuid }.
Record DriveCursor := mkDriveCursor { dc_kind : string; dc_display_name : string; dc_id : Uuid }.
Record VersionCursor := mkVersionCursor { vc_ordinal : Z; vc_id : Uuid }.

Definition nul : ascii := ascii_of_N 0.

(** an integer of the database in decimal *)
Definition i64_to_string (z : Z) : string := if z <? 0 then "-" +:+ dec_to_string (- z) else dec_to_string z.

Record Page (T : Type) := mkPage { pg_items : list T; pg_next_cursor : option string }.
Arguments mkPage {T}.
Arguments pg_items {T}.
Arguments pg_next_cursor {T}.

Section cursors.
Context `{UuidLib, Base64Lib}.

Definition VersionResponse_try_from (v : FileVersionRecord) : result ApiError VersionResponse :=
  let? created_at := postgres_timestamp (vr_created_at v) in
  Ok (mkVersionResponse (vr_id v) (vr_node_id v) (vr_ordinal v) (vr_size_bytes v) (vr_created_by v) (vr_restored_from v) created_at (vr_current v)
        (default "application/octet-stream" (vr_media_type v)) (vr_origin_kind v) (vr_source_version_id v)
        (default (uuid_hyphenated (vr_created_by v)) (vr_creator_display_name v)) (vr_mcp_assisted v) (vr_observed_content_class v) (vr_revision_backend v) (vr_git_commit_oid v)).

Definition api_parse_uuid_v4 (value : string) : result ApiError Uuid :=
  let? id := ok_or id_invalid (uuid_parse_str value) in
  if negb (uuid_get_version_num id =? 4) || negb (String.eqb (uuid_hyphenated id) value) then Err id_invalid else Ok id.

Definition encode_fields (fields : list string) : string := b64_encode (as_bytes (join_char nul fields)).
Definition cursor_text (value : string) : result ApiError string :=
  let? b := ok_or cursor_invalid (b64_decode value) in
  if utf8_valid b then Ok (str_of_bytes b) else Err cursor_invalid.

(** [fields.next().unwrap_or_default()], three times *)
Definition nth_field (i : nat) (fields : list string) : string := default "" (nth_error fields i).

Definition decode_cursor_fields (value : string) : result ApiError (string * string * Uuid) :=
  let? text := cursor_text value in
  let fields := split_char nul text in
  let? id := api_parse_uuid_v4 (nth_field 2 fields) in
  if bool_decide (is_Some (nth_error fields 3)) || String.eqb (nth_field 0 fields) "" then Err cursor_invalid
  else Ok (nth_field 0 fields, nth_field 1 fields, id).

Definition encode_cursor (node : NodeRecord) : string := encode_fields [nr_kind node; nr_name_key node; uuid_hyphenated (nr_id node)].
Definition decode_cursor (value : string) : result ApiError NodeCursor :=
  let? fields := decode_cursor_fields value in
  let kind := fields.1.1 in
  if negb (String.eqb kind "file" || String.eqb kind "directory" || String.eqb kind "symlink") then Err cursor_invalid
  else Ok (mkNodeCursor kind fields.1.2 fields.2).

Definition encode_drive_cursor (drive : DriveRecord) : string := encode_fields [dr_kind drive; dr_display_name drive; uuid_hyphenated (dr_id drive)].
Definition decode_drive_cursor (value : string) : result ApiError DriveCursor :=
  let? fields := decode_cursor_fields value in
  Ok (mkDriveCursor fields.1.1 fields.1.2 fields.2).

Definition encode_version_cursor (v : FileVersionRecord) : string := encode_fields [i64_to_string (vr_ordinal v); uuid_hyphenated (vr_id v)].
Definition decode_version_cursor (value : string) : result ApiError VersionCursor :=
  let? text := cursor_text value in
  let fields := split_char nul text in
  let? ordinal := ok_or cursor_invalid (parse_i64 (nth_field 0 fields) ≫= fun o => if 0 <? o then Some o else None) in
  let? id := api_parse_uuid_v4 (nth_field 1 fields) in
  if bool_decide (is_Some (nth_error fields 2)) then Err cursor_invalid else Ok (mkVersionCursor ordinal id).

(** [.map(decode).transpose()?] of an optional cursor *)
Definition decode_optional {A} (decode : string -> result ApiError A) (cursor : option string) : result ApiError (option A) :=
  match cursor with None => Ok None | Some c => let? a := decode c in Ok (Some a) end.

(** kinds in descending order, then keys, then identifiers *)
Definition compare_node_cursor (node : NodeRecord) (cursor : NodeCursor) : comparison :=
  match CompOpp (cmp (nr_kind node) (nc_kind cursor)) with
  | Eq => match cmp (nr_name_key node) (nc_name_key cursor) with Eq => cmp (nr_id node) (nc_id cursor) | c => c end
  | c => c
  end.

(** ** Pages *)

Record PageQuery := mkPageQuery { pq_limit : Z; pq_cursor : option string }.

Definition skipped (cursor : option NodeCursor) (node : NodeRecord) : bool :=
  match cursor with Some c => negb (bool_decide (compare_node_cursor node c = Gt)) | None => false end.

(** the loop over the rows: stops with the first visible row beyond the page *)
Fixpoint visible_rows (limit : Z) (cursor : option NodeCursor) (readable : NodeRecord -> bool) (visible nodes : list NodeRecord) : list NodeRecord :=
  match nodes with
  | [] => visible
  | node :: rest =>
      if skipped cursor node then visible_rows limit cursor readable visible rest
      else if readable node then
        let visible := visible ++ [node] in
        if limit <? len visible then visible else visible_rows limit cursor readable visible rest
      else visible_rows limit cursor readable visible rest
  end.

(** [visible.pop()] and the cursor of what is then last *)
Definition cut_page (limit : Z) (visible : list NodeRecord) : Page NodeRecord :=
  if limit <? len visible then
    let page := removelast visible in mkPage page (option_map encode_cursor (last page))
  else mkPage visible None.

Definition node_page (page : PageQuery) (readable : NodeRecord -> bool) (nodes : result DatabaseError (list NodeRecord)) : result ApiError (Page NodeRecord) :=
  let? limit := validated_limit (pq_limit page) in
  let? cursor := decode_optional decode_cursor (pq_cursor page) in
  let? nodes := map_err api_of_database nodes in
  Ok (cut_page limit (visible_rows limit cursor readable [] nodes)).
Definition node_responses (page : Page NodeRecord) : result ApiError (Page NodeResponse) :=
  let? items := try_map NodeResponse_try_from (pg_items page) in
  Ok (mkPage items (pg_next_cursor page)).

Definition quote : string := String (ascii_of_N 34) EmptyString.
Definition node_etag (node : NodeRecord) : string :=
  quote +:+ "fb-node-" +:+ uuid_hyphenated (nr_id node) +:+ "-" +:+ i64_to_string (nr_namespace_generation node) +:+ "-" +:+ i64_to_string (nr_acl_generation node)
  +:+ "-" +:+ i64_to_string (nr_attribute_generation node) +:+ quote.

(** The decision of [authorize] for a drive, a resource and an action. *)
Context (authorize : Uuid -> Uuid -> Action -> result ApiError ApiAuthorizationGrant).

Definition shared_candidate_authorization (node : NodeRecord) : Uuid * Uuid * Action := (nr_drive_id node, nr_id node, ReadMetadata).

Definition list_children (session : result ApiError unit) (drive parent : string) (page : PageQuery)
    (node : Uuid -> Uuid -> result DatabaseError NodeRecord) (children : Uuid -> Uuid -> result DatabaseError (list NodeRecord)) : result ApiError (Page NodeResponse * string) :=
  let? _ := session in
  let? drive_id := api_parse_uuid_v4 drive in
  let? parent_id := api_parse_uuid_v4 parent in
  let? _ := authorize drive_id parent_id ListChildren in
  let? row := map_err api_of_database (node drive_id parent_id) in
  if negb (String.eqb (nr_kind row) "directory") then Err (api_conflict "node.not_directory" "Children can only be listed for a directory")
  else
    let? p := node_page page (fun n => is_ok (authorize drive_id (nr_id n) ReadMetadata)) (children drive_id parent_id) in
    let? response := node_responses p in
    Ok (response, node_etag row).

Definition list_trash (session : result ApiError unit) (drive : string) (page : PageQuery) (trashed : Uuid -> result DatabaseError (list NodeRecord)) : result ApiError (Page NodeResponse) :=
  let? _ := session in
  let? drive_id := api_parse_uuid_v4 drive in
  let? p := node_page page (fun n => is_ok (authorize drive_id (nr_id n) ReadMetadata)) (trashed drive_id) in
  node_responses p.

Definition list_shared (session : result ApiError unit) (page : PageQuery) (shared : result DatabaseError (list NodeRecord)) : result ApiError (Page NodeResponse) :=
  let? _ := session in
  let? p := node_page page (fun n => let '(drive_id, resource_id, action) := shared_candidate_authorization n in is_ok (authorize drive_id resource_id action)) shared in
  node_responses p.

(** The listings that find the row of the cursor and continue behind it. *)
Fixpoint position {A} (p : A -> bool) (l : list A) : option nat :=
  match l with [] => None | x :: rest => if p x then Some 0%nat else option_map S (position p rest) end.
Definition split_page {A} (encode : A -> string) (is_cursor : option (A -> bool)) (limit : Z) (items : list A) : result ApiError (Page A) :=
  let? items := match is_cursor with
                | None => Ok items
                | Some p => let? position := ok_or cursor_invalid (position p items) in Ok (drop (position + 1) items)
                end in
  Ok (if limit <? len items then let items := take (Z.to_nat limit) items in mkPage items (option_map encode (last items)) else mkPage items None).

Definition is_drive_cursor (c : DriveCursor) (drive : DriveRecord) : bool :=
  N.eqb (dr_id drive) (dc_id c) && String.eqb (dr_kind drive) (dc_kind c) && String.eqb (dr_display_name drive) (dc_display_name c).
Definition list_drives (session : result ApiError unit) (page : PageQuery) (drives : result DatabaseError (list DriveRecord)) : result ApiError (Page DriveResponse) :=
  let? _ := session in
  let? limit := validated_limit (pq_limit page) in
  let? cursor := decode_optional decode_drive_cursor (pq_cursor page) in
  let? candidates := map_err api_of_database drives in
  let items := filter (fun d => is_ok (authorize (dr_id d) (dr_root_id d) ReadMetadata) = true) candidates in
  let? p := split_page encode_drive_cursor (option_map is_drive_cursor cursor) limit items in
  Ok (mkPage (map DriveResponse_from (pg_items p)) (pg_next_cursor p)).

Definition is_version_cursor (c : VersionCursor) (v : FileVersionRecord) : bool := N.eqb (vr_id v) (vc_id c) && (vr_ordinal v =? vc_ordinal c).
Definition hide_git_oid (v : FileVersionRecord) : FileVersionRecord :=
  mkVersionRecord (vr_id v) (vr_node_id v) (vr_ordinal v) (vr_size_bytes v) (vr_created_by v) (vr_restored_from v) (vr_created_at v) (vr_current v) (vr_media_type v)
    (vr_origin_kind v) (vr_source_version_id v) (vr_creator_display_name v) (vr_mcp_assisted v) (vr_observed_content_class v) (vr_revision_backend v) None.
Definition list_versions (session : result ApiError unit) (drive node : string) (page : PageQuery) (versions : Uuid -> Uuid -> result DatabaseError (list FileVersionRecord)) :
    result ApiError (Page VersionResponse) :=
  let? _ := session in
  let? drive_id := api_parse_uuid_v4 drive in
  let? node_id := api_parse_uuid_v4 node in
  let? _ := authorize drive_id node_id ReadMetadata in
  let disclose_git_oid := is_ok (authorize drive_id node_id ReadContent) in
  let? limit := validated_limit (pq_limit page) in
  let? cursor := decode_optional decode_version_cursor (pq_cursor page) in
  let? rows := map_err api_of_database (versions drive_id node_id) in
  let? p := split_page encode_version_cursor (option_map is_version_cursor cursor) limit rows in
  let items := if disclose_git_oid then pg_items p else map hide_git_oid (pg_items p) in
  let? items := try_map VersionResponse_try_from items in
  Ok (mkPage items (pg_next_cursor p)).
End cursors.

(** ** UTF-8 of a concatenation *)

Lemma utf8_valid_app a b : utf8_valid a = true -> utf8_valid b = true -> utf8_valid (a ++ b) = true.
Proof.
  intros Ha Hb. remember (length a) as n eqn:Hn. revert a Hn Ha. induction (lt_wf n) as [n _ IH]. intros a -> Ha.
  destruct a as [|x a]; [done|]. cbn [app utf8_valid] in Ha |- *. destruct (in_range 0 127 x); [by eapply IH; [|reflexivity|]; [simpl; lia|]|].
  destruct a as [|y a]; [done|]. cbn [app] in Ha |- *. destruct (in_range 194 223 x); [apply andb_true_iff in Ha as [-> Ha]; by eapply IH; [|reflexivity|]; [simpl; lia|]|].
  destruct a as [|z a]; [done|]. cbn [app] in Ha |- *.
  destruct (in_range 224 224 x); [apply andb_true_iff in Ha as [-> Ha]; by eapply IH; [|reflexivity|]; [simpl; lia|]|].
  destruct (in_range 225 236 x || in_range 238 239 x); [apply andb_true_iff in Ha as [-> Ha]; by eapply IH; [|reflexivity|]; [simpl; lia|]|].
  destruct (in_range 237 237 x); [apply andb_true_iff in Ha as [-> Ha]; by eapply IH; [|reflexivity|]; [simpl; lia|]|].
  destruct a as [|w a]; [done|]. cbn [app] in Ha |- *. apply andb_true_iff in Ha as [-> Ha]. by eapply IH; [|reflexivity|]; [simpl; lia|].
Qed.
Lemma utf8_valid_low (b : bytes) : Forall (fun c => in_range 0 127 c = true) b -> utf8_valid b = true.
Proof. induction 1 as [|c b Hc _ IH]; [done|]. cbn [utf8_valid]. by rewrite Hc. Qed.

(** ** The order of a listing *)

Definition cursor_of (n : NodeRecord) : NodeCursor := mkNodeCursor (nr_kind n) (nr_name_key n) (nr_id n).
(** the order in which the cursors walk: kinds descending, then keys, then identifiers *)
Definition before (a b : NodeRecord) : Prop := compare_node_cursor a (cursor_of b) = Lt.

Lemma before_spec a b : before a b <-> cmp (nr_kind b) (nr_kind a) = Lt
  \/ (nr_kind a = nr_kind b /\ (cmp (nr_name_key a) (nr_name_key b) = Lt \/ (nr_name_key a = nr_name_key b /\ cmp (nr_id a) (nr_id b) = Lt))).
Proof.
  unfold before, compare_node_cursor. cbn [cursor_of nc_kind nc_name_key nc_id]. rewrite (cmp_opp (nr_kind b) (nr_kind a)), CompOpp_involutive.
  destruct (cmp (nr_kind b) (nr_kind a)) eqn:Hk; [|naive_solver|].
  - apply cmp_eq in Hk as <-. destruct (cmp (nr_name_key a) (nr_name_key b)) eqn:Hn; [apply cmp_eq in Hn as Hn'; rewrite Hn'; naive_solver|naive_solver|].
    split; [done|]. intros [?|[_ [?|[Hn' _]]]]; [done|done|]. apply cmp_eq in Hn'. congruence.
  - split; [done|]. intros [?|[Hk' _]]; [done|]. symmetry in Hk'. apply cmp_eq in Hk'. congruence.
Qed.

#[export] Instance before_trans : Transitive before.
Proof.
  intros a b c. rewrite !before_spec. intros [Hab|[-> Hab]] [Hbc|[<- Hbc]]; [left; by eapply cmp_trans|by left|by left|].
  right. split; [done|]. destruct Hab as [Hab|[-> Hab]], Hbc as [Hbc|[<- Hbc]]; [left; by eapply cmp_trans|by left|by left|right; split; [done|by eapply cmp_trans]].
Qed.
Lemma before_irrefl a : ~ before a a.
Proof. rewrite before_spec, !cmp_refl. naive_solver. Qed.

(** a row is skipped unless the row of the cursor lies before it *)
Lemma skipped_spec c n : skipped (Some (cursor_of c)) n = false <-> before c n.
Proof.
  unfold skipped, before, compare_node_cursor. cbn [cursor_of nc_kind nc_name_key nc_id]. rewrite negb_false_iff, bool_decide_eq_true, (cmp_opp (nr_kind c) (nr_kind n)), (cmp_opp (nr_name_key c) (nr_name_key n)), (cmp_opp (nr_id c) (nr_id n)).
  destruct (cmp (nr_kind c) (nr_kind n)), (cmp (nr_name_key c) (nr_name_key n)), (cmp (nr_id c) (nr_id n)); simpl; done.
Qed.

(** what a page is cut from: the visible rows behind the cursor *)
Definition selected (after : option NodeRecord) (readable : NodeRecord -> bool) (nodes : list NodeRecord) : list NodeRecord :=
  filter (fun n => skipped (option_map cursor_of after) n = false /\ readable n = true) nodes.

Lemma visible_rows_take limit after readable nodes : forall visible, len visible <= limit ->
  visible_rows limit (option_map cursor_of after) readable visible nodes = visible ++ take (Z.to_nat (limit + 1 - len visible)) (selected after readable nodes).
Proof.
  induction nodes as [|n nodes IH]; intros visible Hl; [cbn; by rewrite take_nil, app_nil_r|]. cbn [visible_rows]. unfold selected. rewrite filter_cons. fold (selected after readable nodes).
  destruct (skipped _ n) eqn:Hs; [rewrite decide_False by naive_solver; by apply IH|]. destruct (readable n) eqn:Hr; [|rewrite decide_False by naive_solver; by apply IH].
  rewrite decide_True by done. replace (Z.to_nat (limit + 1 - len visible)) with (S (Z.to_nat (limit - len visible))) by lia. cbn [take].
  assert (len (visible ++ [n]) = len visible + 1) as Hn by (unfold len; rewrite length_app; simpl; lia). rewrite Hn. destruct (Z.ltb_spec limit (len visible + 1)).
  - replace (Z.to_nat (limit - len visible)) with 0%nat by lia. done.
  - rewrite IH by lia. rewrite <-app_assoc, Hn. do 2 f_equal. simpl. do 2 f_equal. lia.
Qed.

Lemma removelast_take {A} k (l : list A) : (k < length l)%nat -> removelast (take (S k) l) = take k l.
Proof. revert l. induction k as [|k IH]; intros [|x l] Hl; simpl in *; [lia|done|lia|]. destruct l as [|y l]; [simpl in *; lia|]. rewrite <-(IH (y :: l)) by (simpl in *; lia). done. Qed.

Section enumeration.
Context `{UuidLaws, Base64Laws}.

Lemma cut_page_take k l : cut_page (Z.of_nat k) (take (S k) l) = mkPage (take k l) (if bool_decide (k < length l)%nat then option_map encode_cursor (last (take k l)) else None).
Proof.
  unfold cut_page, len. rewrite length_take. case_bool_decide.
  - rewrite (proj2 (Z.ltb_lt _ _)) by lia. by rewrite removelast_take.
  - rewrite (proj2 (Z.ltb_ge _ _)) by lia. by rewrite !take_ge by lia.
Qed.

(** ** Cursors round-trip *)

(** what the schema guarantees of a row *)
Record listable (n : NodeRecord) : Prop := {
  ls_kind : nr_kind n ∈ ["file"; "directory"; "symlink"];
  ls_key : char_free nul (nr_name_key n) /\ utf8_valid (as_bytes (nr_name_key n)) = true;
  ls_id : is_uuid (nr_id n) /\ uuid_get_version_num (nr_id n) = 4
}.

Lemma uuid_text u : char_free nul (uuid_hyphenated u) /\ utf8_valid (as_bytes (uuid_hyphenated u)) = true.
Proof.
  assert (forall c, uuid_char c = true -> c <> nul /\ in_range 0 127 c = true) as Hc.
  { intros c. unfold uuid_char, in_range, is_ascii_digit, nul. rewrite !orb_true_iff, !andb_true_iff, !Z.leb_le, Z.eqb_eq. intros Hc. split; [intros ->; change (byte_val (ascii_of_N 0)) with 0 in Hc; lia|lia]. }
  split.
  - intros Hn%uuid_hyphenated_alphabet. by apply Hc in Hn as [? _].
  - apply utf8_valid_low, Forall_forall. intros c Hin%uuid_hyphenated_alphabet. by apply Hc.
Qed.

Lemma api_parse_uuid_Ok u : is_uuid u -> uuid_get_version_num u = 4 -> api_parse_uuid_v4 (uuid_hyphenated u) = Ok u.
Proof. intros Hu Hv. unfold api_parse_uuid_v4. rewrite uuid_parse_hyphenated by done. cbn [ok_or]. by rewrite Hv, String.eqb_refl. Qed.

Lemma cursor_text_join fields : Forall (fun f => utf8_valid (as_bytes f) = true) fields -> cursor_text (encode_fields fields) = Ok (join_char nul fields).
Proof.
  intros Hf. unfold cursor_text, encode_fields. rewrite b64_decode_encode. cbn [ok_or]. rewrite str_of_as_bytes.
  assert (utf8_valid (as_bytes (join_char nul fields)) = true) as ->; [|done].
  induction Hf as [|f fields Hf Hall IH]; [done|]. cbn [join_char]. destruct fields; [done|]. rewrite as_bytes_app. by apply utf8_valid_app.
Qed.

Lemma decode_encode_cursor n : listable n -> decode_cursor (encode_cursor n) = Ok (cursor_of n).
Proof.
  intros [Hk [Hkey Hutf] [Hid Hv]]. destruct (uuid_text (nr_id n)) as [Hn Hu]. unfold decode_cursor, decode_cursor_fields, encode_cursor.
  assert (char_free nul (nr_kind n) /\ utf8_valid (as_bytes (nr_kind n)) = true /\ nr_kind n <> "" /\ String.eqb (nr_kind n) "file" || String.eqb (nr_kind n) "directory" || String.eqb (nr_kind n) "symlink" = true) as (Hkn & Hku & Hke & Hkk).
  { rewrite !elem_of_cons, elem_of_nil in Hk. unfold char_free. destruct Hk as [-> |[-> |[-> |[]]]]; (split; [apply (bool_decide_unpack _); vm_compute; exact I|]); vm_compute; done. }
  rewrite cursor_text_join by (repeat (apply Forall_cons; split; [done|]); by apply Forall_nil).
  rewrite split_join_char; [|done|by repeat (apply Forall_cons; split; [done|])]. change (nth_field 2 _) with (uuid_hyphenated (nr_id n)). rewrite api_parse_uuid_Ok by done. cbn -[String.eqb orb negb].
  rewrite (proj2 (String.eqb_neq _ _) Hke). cbn [orb]. cbn -[String.eqb orb negb]. by rewrite Hkk.
Qed.

(** ** Following the cursors *)

(** A client asks for a page, then for the page of the cursor that it got, and so on; the
    [i]-th request sees the rows [rows i] and may read those of [readable i]. *)
Context (rows : nat -> list NodeRecord) (readable : nat -> NodeRecord -> bool) (limit : Z).

(** the pages of a client that has reached the last one within [fuel] requests *)
Fixpoint walk (fuel i : nat) (cursor : option string) : result ApiError (option (list (list NodeRecord))) :=
  match fuel with
  | O => Ok None
  | S fuel =>
      let? page := node_page (mkPageQuery limit cursor) (readable i) (Ok (rows i)) in
      match pg_next_cursor page with
      | None => Ok (Some [pg_items page])
      | Some next => let? rest := walk fuel (S i) (Some next) in Ok (option_map (cons (pg_items page)) rest)
      end
  end.

(** what [ORDER BY n.kind DESC, n.name_key, n.id] gives in a database whose collation orders
    text by its bytes, as "C" does *)
Definition in_byte_order : Prop := forall i, StronglySorted before (rows i).

Context (limit_valid : 1 <= limit <= 200) (rows_listable : forall i, Forall listable (rows i)).

Definition from (after : option NodeRecord) (n : NodeRecord) : Prop := match after with Some c => before c n | None => True end.

Lemma selected_elem after i n : n ∈ selected after (readable i) (rows i) <-> n ∈ rows i /\ readable i n = true /\ from after n.
Proof. unfold selected. rewrite list_elem_of_filter. destruct after as [c|]; cbn [option_map from]; [rewrite skipped_spec|simpl]; naive_solver. Qed.

Lemma sorted_filter {P : NodeRecord -> Prop} `{forall n, Decision (P n)} l : StronglySorted before l -> StronglySorted before (filter P l).
Proof.
  induction 1 as [|n l Hs IH Hn]; [by constructor|]. rewrite filter_cons. destruct (decide (P n)); [|done]. constructor; [done|].
  apply Forall_forall. intros m [_ Hm]%list_elem_of_filter. rewrite Forall_forall in Hn. by apply Hn.
Qed.
Lemma selected_sorted after i : in_byte_order -> StronglySorted before (selected after (readable i) (rows i)).
Proof. intros Hsorted. apply sorted_filter, Hsorted. Qed.

(** the page of a cursor that was handed out, and the cursor after it *)
Lemma node_page_selected after i : from_option listable True after ->
  exists page, node_page (mkPageQuery limit (option_map encode_cursor after)) (readable i) (Ok (rows i)) = Ok page
    /\ let s := selected after (readable i) (rows i) in let k := Z.to_nat limit in
       pg_items page = take k s /\ (if bool_decide (k < length s)%nat then exists c, last (take k s) = Some c /\ listable c /\ pg_next_cursor page = Some (encode_cursor c) else pg_next_cursor page = None).
Proof.
  intros Hafter. unfold node_page, validated_limit. cbn [pq_limit pq_cursor]. rewrite (proj2 (Z.leb_le 1 limit)), (proj2 (Z.leb_le limit 200)) by lia. cbn [andb].
  assert (decode_optional decode_cursor (option_map encode_cursor after) = Ok (option_map cursor_of after)) as -> by (destruct after as [c|]; simpl; [by rewrite decode_encode_cursor|done]).
  cbn [map_err]. rewrite visible_rows_take by (change (len (@nil NodeRecord)) with 0; lia). cbn [app]. set (s := selected after (readable i) (rows i)). set (k := Z.to_nat limit).
  replace (Z.to_nat (limit + 1 - len [])) with (S k) by (change (len (@nil NodeRecord)) with 0; lia). replace (cut_page limit) with (cut_page (Z.of_nat k)) by (f_equal; lia). rewrite cut_page_take.
  eexists. split; [done|]. cbn [pg_items pg_next_cursor]. split; [done|]. case_bool_decide as Hk; [|done].
  destruct (last (take k s)) as [c|] eqn:Hl; [|apply last_None in Hl; apply (f_equal length) in Hl; rewrite length_take in Hl; simpl in Hl; lia].
  exists c. split_and!; [done| |done]. assert (c ∈ s) as Hc by (apply last_Some_elem_of in Hl; by apply subseteq_take in Hl).
  apply selected_elem in Hc as [Hc _]. pose proof (rows_listable i) as Hall. rewrite Forall_forall in Hall. by apply Hall.
Qed.

Lemma before_last k s c n : StronglySorted before s -> last (take k s) = Some c -> n ∈ take k s -> n = c \/ before n c.
Proof.
  intros Hs Hl Hn. assert (StronglySorted before (take k s)) as Ht by (rewrite <-(take_drop k s) in Hs; by apply StronglySorted_app_1_l in Hs).
  apply last_Some in Hl as [l Hl]. rewrite Hl in Hn, Ht. apply elem_of_app in Hn as [Hn|Hn%list_elem_of_singleton]; [right|by left].
  eapply StronglySorted_app_1_elem_of; [done|done|by apply list_elem_of_singleton].
Qed.
Lemma last_before k s c n : StronglySorted before s -> last (take k s) = Some c -> n ∈ drop k s -> before c n.
Proof.
  intros Hs Hl Hn. rewrite <-(take_drop k s) in Hs. eapply StronglySorted_app_1_elem_of; [done| |done]. by apply last_Some_elem_of.
Qed.

(** every cursor is accepted, and each page has what its own request could see *)
Lemma walk_accepted fuel : forall i after, from_option listable True after ->
  exists r, walk fuel i (option_map encode_cursor after) = Ok r /\ forall pages, r = Some pages ->
    forall k page, pages !! k = Some page -> forall n, n ∈ page -> n ∈ rows (i + k)%nat /\ readable (i + k)%nat n = true.
Proof.
  induction fuel as [|fuel IH]; intros i after Hafter; [by exists None|]. destruct (node_page_selected after i Hafter) as (page & Hpage & Hitems & Hnext). cbn [walk]. rewrite Hpage.
  assert (forall n, n ∈ pg_items page -> n ∈ rows (i + 0)%nat /\ readable (i + 0)%nat n = true) as Hfirst by (intros n Hn; rewrite Nat.add_0_r; rewrite Hitems in Hn; apply subseteq_take, selected_elem in Hn as (? & ? & _); done).
  case_bool_decide as Hk; [|rewrite Hnext; eexists; split; [done|]; intros pages [= <-] [|k] q Hq; [by injection Hq as <-|done]].
  destruct Hnext as (c & _ & Hc & ->). destruct (IH (S i) (Some c) Hc) as (r & Hr & Hrest). cbn [option_map] in Hr. rewrite Hr. eexists. split; [done|].
  intros pages Hsome. destruct r as [rest|]; [|done]. injection Hsome as <-. intros [|k] q Hq; [by injection Hq as <-|]. replace (i + S k)%nat with (S i + k)%nat by lia. by apply (Hrest rest eq_refl k).
Qed.

(** In byte order the pages are the visible rows in order, whatever changed between them. *)
Lemma walk_sound fuel : in_byte_order -> forall i after, from_option listable True after -> forall pages, walk fuel i (option_map encode_cursor after) = Ok (Some pages) ->
    StronglySorted before (concat pages) /\ (forall n, n ∈ concat pages -> from after n)
    /\ (forall n, from after n -> (forall k, (k < length pages)%nat -> n ∈ rows (i + k)%nat /\ readable (i + k)%nat n = true) -> n ∈ concat pages).
Proof.
  intros Hbytes. induction fuel as [|fuel IH]; intros i after Hafter pages; [done|]. destruct (node_page_selected after i Hafter) as (page & Hpage & Hitems & Hnext).
  cbn [walk]. rewrite Hpage. set (s := selected after (readable i) (rows i)) in *. set (k := Z.to_nat limit) in *. pose proof (selected_sorted after i Hbytes) as Hs. fold s in Hs. case_bool_decide as Hk.
  - destruct Hnext as (c & Hlast & Hc & ->). destruct (walk fuel (S i) (Some (encode_cursor c))) as [[rest|]|] eqn:Hr; [|done|done]. intros [= <-]. destruct (IH (S i) (Some c) Hc rest Hr) as (Hsorted & Hfrom & Hall). cbn [concat length]. rewrite Hitems. split_and!.
    + apply StronglySorted_app_2; [|by rewrite <-(take_drop k s) in Hs; apply StronglySorted_app_1_l in Hs|done].
      intros a b Ha Hb. destruct (before_last k s c a Hs Hlast Ha) as [-> |Hac]; [by apply Hfrom|]. etrans; [done|by apply Hfrom].
    + intros n [Hn|Hn]%elem_of_app; [apply subseteq_take, selected_elem in Hn; by apply Hn|].
      pose proof (Hfrom n Hn) as Hcn. destruct after as [a|]; [|done]. cbn [from] in *. assert (from (Some a) c) as Hac by (apply last_Some_elem_of, subseteq_take, selected_elem in Hlast; apply Hlast). by etrans.
    + intros n Hn Hstable. assert (n ∈ s) as Hin by (apply selected_elem; destruct (Hstable 0%nat) as [? ?]; [lia|]; rewrite Nat.add_0_r in *; done). rewrite <-(take_drop k s) in Hin. apply elem_of_app in Hin as [Hin|Hin]; apply elem_of_app; [by left|right].
      apply Hall; [cbn [from]; exact (last_before k s c n Hs Hlast Hin)|]. intros j Hj. replace (S i + j)%nat with (i + S j)%nat by lia. apply Hstable. lia.
  - rewrite Hnext. intros [= <-]. cbn [concat length]. rewrite app_nil_r, Hitems, take_ge by lia. split_and!; [done| |].
    + intros n (_ & _ & Hf)%selected_elem. done.
    + intros n Hn Hstable. apply selected_elem. destruct (Hstable 0%nat) as [? ?]; [lia|]. rewrite Nat.add_0_r in *. done.
Qed.

Lemma sorted_unique l1 l2 : StronglySorted before l1 -> StronglySorted before l2 -> (forall n, n ∈ l1 <-> n ∈ l2) -> l1 = l2.
Proof.
  intros Hl1. revert l2. induction Hl1 as [|a l1 Hl1 IH Ha]; intros [|b l2] Hl2 Heq; [done|by pose proof (not_elem_of_nil _ (proj2 (Heq b) (list_elem_of_here _ _)))|by pose proof (not_elem_of_nil _ (proj1 (Heq a) (list_elem_of_here _ _)))|].
  apply StronglySorted_cons in Hl2 as [Hb Hl2]. rewrite Forall_forall in Ha, Hb. assert (a = b) as <-.
  { destruct (proj1 (elem_of_cons _ _ _) (proj1 (Heq a) (list_elem_of_here _ _))) as [|Hab]; [done|]. destruct (proj1 (elem_of_cons _ _ _) (proj2 (Heq b) (list_elem_of_here _ _))) as [|Hba]; [done|].
    destruct (before_irrefl a). etrans; [by apply Ha|by apply Hb]. }
  f_equal. apply IH; [done|]. intros n. specialize (Heq n). rewrite !elem_of_cons in Heq. split; intros Hn.
  - destruct (proj1 Heq (or_intror Hn)) as [-> |]; [|done]. destruct (before_irrefl a (Ha a Hn)).
  - destruct (proj2 Heq (or_intror Hn)) as [-> |]; [|done]. destruct (before_irrefl a (Hb a Hn)).
Qed.

(** behind a row of the page there are fewer rows than before it *)
Lemma filter_shorter {A} (P Q : A -> Prop) `{forall x, Decision (P x)} `{forall x, Decision (Q x)} (l : list A) c : (forall x, Q x -> P x) -> c ∈ l -> P c -> ~ Q c -> (length (filter Q l) < length (filter P l))%nat.
Proof.
  intros Himp. assert (forall l, length (filter Q l) <= length (filter P l))%nat as Hle.
  { intros m. induction m as [|x m IH]; [done|]. rewrite !filter_cons. destruct (decide (Q x)) as [Hq|]; [rewrite decide_True by auto; simpl; lia|]. destruct (decide (P x)); simpl; lia. }
  intros Hin HP HQ. induction l as [|x l IH]; [by apply elem_of_nil in Hin|]. rewrite !filter_cons. pose proof (Hle l). apply elem_of_cons in Hin as [<- |Hin].
  - rewrite (decide_False (P := Q c)), (decide_True (P := P c)) by done. simpl. lia.
  - specialize (IH Hin). destruct (decide (Q x)) as [Hq|]; [rewrite decide_True by auto; simpl; lia|]. destruct (decide (P x)); simpl; lia.
Qed.
Lemma selected_shorter after i c : c ∈ selected after (readable i) (rows i) -> (length (selected (Some c) (readable i) (rows i)) < length (selected after (readable i) (rows i)))%nat.
Proof.
  intros (Hc & Hr & Hf)%selected_elem. apply (filter_shorter _ _ _ c); [|done|split; [|done]|].
  - intros n [Hs Hn]. split; [|done]. cbn [option_map] in Hs. apply skipped_spec in Hs. destruct after as [a|]; [|done]. cbn [option_map from] in *. apply skipped_spec. by etrans.
  - destruct after as [a|]; [|done]. by apply skipped_spec.
  - intros [Hs _]. cbn [option_map] in Hs. apply skipped_spec in Hs. by apply before_irrefl in Hs.
Qed.

(** without changes the walk ends, in whatever order the rows come *)
Lemma walk_ends : (forall i, rows i = rows 0%nat /\ readable i = readable 0%nat) -> forall fuel i after, from_option listable True after ->
  (length (selected after (readable 0%nat) (rows 0%nat)) < fuel)%nat -> exists pages, walk fuel i (option_map encode_cursor after) = Ok (Some pages).
Proof.
  intros Hsame. induction fuel as [|fuel IH]; intros i after Hafter Hfuel; [lia|]. destruct (node_page_selected after i Hafter) as (page & Hpage & _ & Hnext). cbn [walk]. rewrite Hpage.
  case_bool_decide as Hk; [|rewrite Hnext; by eexists]. destruct Hnext as (c & Hlast & Hc & ->). destruct (IH (S i) (Some c) Hc) as [pages Hw]; [|cbn [option_map] in Hw; rewrite Hw; by eexists].
  apply last_Some_elem_of, subseteq_take in Hlast. rewrite (proj1 (Hsame i)), (proj2 (Hsame i)) in Hlast. pose proof (selected_shorter after 0 c Hlast). lia.
Qed.

Lemma sorted_nodup l : StronglySorted before l -> NoDup l.
Proof. induction 1 as [|n l _ IH Hn]; constructor; [|done]. intros Hin. rewrite Forall_forall in Hn. exact (before_irrefl n (Hn n Hin)). Qed.

(** C28. Paged listings are complete and free of duplicates. A client follows the cursors of
    [list_children], [list_trash] or [list_shared] from the first page, while rows and
    permissions may change between its requests. In whatever order the database returns the
    rows: every cursor that the client was given is accepted, each page has only rows that
    were there and that it was allowed to see at the very request that returned them, and if
    nothing changes it reaches the last page. If the database orders text by bytes (the
    queries name no collation, so that this is a matter of its configuration): at the last
    page it has seen the rows in that order, without repetition, with every row that was there
    and visible at each of its requests; and if nothing changed, exactly the visible rows. *)
Theorem pages_enumerate :
  (forall fuel, exists r, walk fuel 0 None = Ok r /\ forall pages, r = Some pages ->
     (forall k page, pages !! k = Some page -> forall n, n ∈ page -> n ∈ rows k /\ readable k n = true)
     /\ (in_byte_order -> StronglySorted before (concat pages) /\ NoDup (concat pages)
          /\ forall n, (forall k, (k < length pages)%nat -> n ∈ rows k /\ readable k n = true) -> n ∈ concat pages))
  /\ ((forall i, rows i = rows 0%nat /\ readable i = readable 0%nat) -> forall fuel, (length (rows 0%nat) < fuel)%nat ->
       exists pages, walk fuel 0 None = Ok (Some pages) /\ (in_byte_order -> concat pages = filter (fun n => readable 0%nat n = true) (rows 0%nat))).
Proof.
  split.
  - intros fuel. destruct (walk_accepted fuel 0 None I) as (r & Hr & Hw). cbn [option_map] in Hr. exists r. split; [done|]. intros pages ->. split; [exact (Hw pages eq_refl)|]. intros Hbytes.
    destruct (walk_sound fuel Hbytes 0 None I pages Hr) as (Hs & _ & Hall). split_and!; [done|by apply sorted_nodup|]. intros n Hn. by apply Hall.
  - intros Hsame fuel Hfuel. destruct (walk_ends Hsame fuel 0 None I) as [pages Hw]; [unfold selected; pose proof (length_filter (fun n => skipped (option_map cursor_of None) n = false /\ readable 0%nat n = true) (rows 0%nat)); lia|].
    cbn [option_map] in Hw. exists pages. split; [done|]. intros Hbytes. destruct (walk_sound fuel Hbytes 0 None I pages Hw) as (Hsort & _ & Hall). destruct (walk_accepted fuel 0 None I) as (r & Hr & Hseen). cbn [option_map] in Hr. rewrite Hw in Hr. injection Hr as <-.
    apply sorted_unique; [done|apply sorted_filter, Hbytes|]. intros n. rewrite list_elem_of_filter. split.
    + intros (page & Hk%list_elem_of_In & Hn%list_elem_of_In)%list_elem_of_In%in_concat. apply list_elem_of_lookup in Hk as [k Hk]. destruct (Hseen pages eq_refl k page Hk n Hn) as [Hj Hr]. rewrite (proj1 (Hsame _)) in Hj. rewrite (proj2 (Hsame _)) in Hr. done.
    + intros [Hr Hn]. apply Hall; [done|]. intros j _. destruct (Hsame (0 + j)%nat) as [-> ->]. done.
Qed.
End enumeration.
