(* ===== verification/ApiDemo.v ===== *)
(** The upload grants and the listings of the front end on concrete data. *)
From S2P Require Import Prelude Collections Libraries ConcreteCodecs Keyset Frames Capability Web CollaborationStore StorageLayout SnapshotPolicy ConfigTypes Config DriveStore WorkerIo WorkerDemo ApiTime ApiUploads ApiPages.

Open Scope string_scope.
Open Scope Z_scope.
Open Scope list_scope.
Open Scope bool_scope.
Open Scope filebelt_scope.

Import Concrete.
#[local] Existing Instance Capability.Demo.claims_countable.
#[local] Existing Instance Capability.Demo.signed_countable.

(** An upload of 2 MiB and 5 bytes in parts of 1 MiB, of which the last is requested. *)
Definition api : ApiState := mkApiState 10 3 Capability.Demo.kp_a.
Definition upload : UploadRow := mkUploadRow (mkUpload 10 30 31 20 32 2097157 3 None) 40 None 41 12 1048576 7 "active".
Definition api_worker : AppState := mkAppState (Typed ApiStorage [(3, Capability.Demo.kp_a)]) None None None None 10 20 21 1048576.
Definition drawn : Drawn := mkDrawn 11 (replicate 32 "n"%char) 15.
Definition api_granted : Api.ApiAuthorizationGrant := Api.mkGrant 1 2 3 4.
Definition last_part : CapabilityClaims := capability_claims api 12 13 upload 41 api_granted OpUploadPart 2 1000 1060 (0, 4) 7 drawn.

#[local] Instance api_claims_codec : ProstMessage CapabilityClaims := short_codec last_part.
#[local] Instance api_signed_codec : ProstMessage SignedCapability :=
  short_codec (mkSigned 3 ["m"%char] (ed_sign Capability.Demo.kp_a (CAPABILITY_SIGNATURE_DOMAIN ++ ["m"%char]))).
(** claims whose range and fence fit the 64-bit fields of the message *)
Definition claims_fit (c : CapabilityClaims) : Prop := is_u64 (range_start c) /\ is_u64 (range_end c) /\ is_u64 (fencing_token c).
#[local] Instance api_claims_laws : ProstLaws CapabilityClaims claims_fit := short_codec_laws _ _.
#[local] Instance api_signed_laws : ProstLaws SignedCapability (fun _ => True) := short_codec_laws _ _.

Definition grant_wire : string :=
  match issue_capability api 12 13 upload 41 api_granted OpUploadPart 2 1000 1060 drawn with Ok w => w | Err _ => "" end.
Definition grant_headers : HeaderMap := [("authorization", as_bytes ("FBCAP1 " +:+ grant_wire))].

Lemma upload_planned : planned upload 1048576.
Proof. split; [exists "chunked"; reflexivity|vm_compute; repeat split; discriminate..]. Qed.
Lemma upload_granted : granted api api_worker 12 13 upload api_granted drawn.
Proof. split; [split; [vm_compute; repeat split; discriminate|discriminate]|reflexivity..|split; reflexivity|reflexivity|reflexivity|repeat (apply Forall_cons; split; [reflexivity|]); by apply Forall_nil|reflexivity|repeat split; reflexivity]. Qed.

Lemma issued_parts_admitted_witness :
  capability_wire grant_headers = Some grant_wire /\ exists wire bytes,
    issue_capability api 12 13 upload 41 api_granted OpUploadPart 2 1000 1060 drawn = Ok wire
    /\ upload_part_size 2097157 1048576 3 2 = Ok bytes /\ 2 * 1048576 + bytes = 2097157
    /\ (capability_wire grant_headers = Some wire -> exists a, authorize api_worker grant_headers OpUploadPart 1059 = Ok a
          /\ uuid_parse_str (upload_id (ac_claims a)) = Some 40%N /\ Capability.part_number (ac_claims a) = 2
          /\ validate_upload_capability a upload 31 20 = Ok tt /\ expected_part_size upload 2 = Ok bytes /\ validate_exact_range a bytes = Ok tt).
Proof.
  split; [vm_compute; reflexivity|].
  pose proof (issued_parts_admitted claims_fit (fun _ => True) (fun _ _ _ _ => I) api api_worker 12 13 upload 1048576 api_granted 2 1000 drawn grant_headers 1059 upload_planned) as H.
  assert (0 <= 2 < u_part_count (up_record upload)) as Hpart by (split; [discriminate|reflexivity]).
  assert (1000 <= 1059 < 1000 + MAX_CAPABILITY_LIFETIME_SECONDS) as Hnow by (split; [discriminate|reflexivity]).
  specialize (H Hpart). specialize (H upload_granted).
  specialize (H (fun _ _ _ H1 H2 H3 => conj H1 (conj H2 H3))). specialize (H Hnow).
  change (1000 + MAX_CAPABILITY_LIFETIME_SECONDS) with 1060 in H. change (default_node upload) with 41%N in H. change (u_part_count (up_record upload)) with 3 in H.
  change (u_declared_size_bytes (up_record upload)) with 2097157 in H. change (up_chunk_size_bytes upload) with 1048576 in H. change (2 + 1 =? 3) with true in H.
  change (up_upload_id upload) with 40%N in H. change (u_payload_id (up_record upload)) with 31%N in H. change (st_backend_id api_worker) with 20%N in H. exact H.
Defined.

(** *** A single chunk *)

(** Limits that the configuration accepts, with chunks larger than the whole-file threshold. *)
Definition large_chunks : LimitConfig := mkLimitConfig 33554432 67108864 1048576 1099511627776 86400 5 86400 3600 1073741824 1073741824.
Definition single_chunk (layout : string) (chunk parts : Z) : BeginUpload :=
  mkBeginUpload 4 5 1 10 None (Some 1) None "a.bin" "a.bin" 41943040 chunk parts layout None None None 86400 (mkGenerations 1 1 1 1).

(** A file of 40 MiB is planned as one chunk, a shape that the transaction refuses. *)
Example single_chunk_refused :
  validate_limits large_chunks = Ok tt /\ plan_upload large_chunks 41943040 = Ok (67108864, "chunked", 1)
  /\ upload_shape (single_chunk "chunked" 67108864 1) = Err InvalidPersistedValue.
Proof. vm_compute. repeat split. Qed.

(** *** Listings *)

(** Version 4 identifiers that differ in their last byte. *)
Definition v4 (n : N) : Uuid := (0x11111111111141118111111111111100 + n)%N.
Definition named (n : N) (kind key : string) : NodeRecord :=
  mkNodeRecord (v4 n) 1 (Some 2%N) kind key key None 1 1 1 "auto" false "2026-08-06 12:30:00.123+00" None None None.
Definition listing : list NodeRecord := [named 1 "file" "a"; named 2 "file" "b"; named 3 "file" "c"; named 4 "directory" "a"].
Definition odd_only (n : NodeRecord) : bool := N.odd (nr_id n) || String.eqb (nr_kind n) "directory".

Lemma listing_sorted : StronglySorted before listing.
Proof. repeat constructor; vm_compute; reflexivity. Qed.
Lemma listing_listable : Forall listable listing.
Proof. repeat (apply Forall_cons; split; [split; [apply (bool_decide_unpack _); vm_compute; exact I|split; [apply (bool_decide_unpack _); vm_compute; exact I|reflexivity]|split; reflexivity]|]). by apply Forall_nil. Qed.

(** Four rows, three of them visible, in pages of two. *)
Lemma pages_enumerate_witness :
  walk (fun _ => listing) (fun _ => odd_only) 2 5 0 None = Ok (Some [[named 1 "file" "a"; named 3 "file" "c"]; [named 4 "directory" "a"]])
  /\ exists pages, walk (fun _ => listing) (fun _ => odd_only) 2 5 0 None = Ok (Some pages) /\ concat pages = filter (fun n => odd_only n = true) listing.
Proof.
  split; [vm_compute; reflexivity|]. assert (1 <= 2 <= 200) as Hlimit by lia.
  destruct (pages_enumerate (fun _ => listing) (fun _ => odd_only) 2 Hlimit (fun _ => listing_listable)) as [_ Hstatic].
  destruct (Hstatic (fun _ => conj eq_refl eq_refl) 5%nat (le_n _)) as (pages & Hw & Hp). exists pages. split; [exact Hw|exact (Hp (fun _ => listing_sorted))].
Defined.

(** The order of names in a database whose collation sorts letters with accents next to the
    letters without: the third name has bytes below those of the second, and is lost. *)
Definition e_acute : string := String (ascii_of_N 195) (String (ascii_of_N 169) EmptyString).
Definition collated : list NodeRecord := [named 1 "file" "eclair"; named 2 "file" (e_acute +:+ "clair"); named 3 "file" "facade"].
Example collation_loses_rows : walk (fun _ => collated) (fun _ _ => true) 2 5 0 None = Ok (Some [[named 1 "file" "eclair"; named 2 "file" (e_acute +:+ "clair")]; []]).
Proof. vm_compute. reflexivity. Qed.
