(* ===== verification/MountExtents.v ===== *)
(** Model of the sparse map of a mounted write: [apply_nfs_extent_range],
    [push_normalized_nfs_extent], [normalized_nfs_extent_size],
    [validate_normalized_nfs_extents] and [seek_nfs_extent] of
    [source/crates/filebelt-database/src/mount.rs], the procedure
    [replace_nfs_write_extents] that stores the map, and their refinement of a file whose
    bytes are data or holes. *)
From S2P Require Import Prelude CollaborationStore.

Open Scope string_scope.
Open Scope Z_scope.
Open Scope list_scope.
Open Scope bool_scope.
Open Scope filebelt_scope.

(** ** Extents *)

Inductive MountWriteRangeOperation := WriteData | HoleDeallocate | Allocate | SeekData | SeekHole.
#[export] Instance MountWriteRangeOperation_eq_dec : EqDecision MountWriteRangeOperation.
Proof. solve_decision. Defined.
Definition MountWriteRangeOperation_as_str (op : MountWriteRangeOperation) : string :=
  match op with WriteData => "write_data" | HoleDeallocate => "hole_deallocate" | Allocate => "allocate" | SeekData => "seek_data" | SeekHole => "seek_hole" end.
Definition writes_bytes (op : MountWriteRangeOperation) : bool := match op with WriteData | HoleDeallocate | Allocate => true | _ => false end.
Definition seeks (op : MountWriteRangeOperation) : bool := match op with SeekData | SeekHole => true | _ => false end.

Record NfsWriteExtent := mkExtent { xt_offset_bytes : Z; xt_length_bytes : Z; xt_is_hole : bool; xt_digest : option bytes }.

Definition checked_add_i64 (a b : Z) : option Z := checked i64_min i64_max (a + b).
Definition hole_with_digest (e : NfsWriteExtent) : bool := xt_is_hole e && bool_decide (is_Some (xt_digest e)).

Fixpoint extent_size_from (end_ : Z) (extents : list NfsWriteExtent) : result DatabaseError Z :=
  match extents with
  | [] => Ok end_
  | e :: rest =>
      if negb (xt_offset_bytes e =? end_) || (xt_length_bytes e <=? 0) || hole_with_digest e then Err InvalidPersistedValue
      else let? next := ok_or InvalidPersistedValue (checked_add_i64 end_ (xt_length_bytes e)) in extent_size_from next rest
  end.
Definition normalized_nfs_extent_size (extents : list NfsWriteExtent) : result DatabaseError Z := extent_size_from 0 extents.

Definition validate_normalized_nfs_extents (extents : list NfsWriteExtent) (logical_size_bytes : Z) : result DatabaseError unit :=
  if (logical_size_bytes <? 0) || (1048576 <? len extents) then Err InvalidPersistedValue
  else let? size := normalized_nfs_extent_size extents in
       if negb (size =? logical_size_bytes) then Err InvalidPersistedValue else Ok tt.

Definition push_normalized_nfs_extent (extents : list NfsWriteExtent) (e : NfsWriteExtent) : result DatabaseError (list NfsWriteExtent) :=
  if (xt_length_bytes e <=? 0) || hole_with_digest e then Err InvalidPersistedValue
  else match last extents with
       | Some previous =>
           let? previous_end := ok_or InvalidPersistedValue (checked_add_i64 (xt_offset_bytes previous) (xt_length_bytes previous)) in
           if negb (previous_end =? xt_offset_bytes e) then Err InvalidPersistedValue
           else if Bool.eqb (xt_is_hole previous) (xt_is_hole e) && bool_decide (xt_digest previous = None) && bool_decide (xt_digest e = None) then
             let? length := ok_or InvalidPersistedValue (checked_add_i64 (xt_length_bytes previous) (xt_length_bytes e)) in
             Ok (removelast extents ++ [mkExtent (xt_offset_bytes previous) length (xt_is_hole previous) (xt_digest previous)])
           else Ok (extents ++ [e])
       | None => if negb (xt_offset_bytes e =? 0) then Err InvalidPersistedValue else Ok (extents ++ [e])
       end.

(** the loop over the extents, with the list built so far and whether the replacement is in it *)
Fixpoint place_range (range_start range_end_exclusive : Z) (replacement : NfsWriteExtent) (source result : list NfsWriteExtent) (inserted : bool) :
    Prelude.result DatabaseError (list NfsWriteExtent * bool) :=
  match source with
  | [] => Ok (result, inserted)
  | e :: rest =>
      let? extent_end := ok_or InvalidPersistedValue (checked_add_i64 (xt_offset_bytes e) (xt_length_bytes e)) in
      if (extent_end <=? range_start) || (range_end_exclusive <=? xt_offset_bytes e) then
        let? placed := if negb inserted && (range_end_exclusive <=? xt_offset_bytes e)
                       then let? r := push_normalized_nfs_extent result replacement in Ok (r, true)
                       else Ok (result, inserted) in
        let? r := push_normalized_nfs_extent placed.1 e in
        place_range range_start range_end_exclusive replacement rest r placed.2
      else
        let? r := if xt_offset_bytes e <? range_start
                  then push_normalized_nfs_extent result (mkExtent (xt_offset_bytes e) (range_start - xt_offset_bytes e) (xt_is_hole e) None)
                  else Ok result in
        let? r := if negb inserted then push_normalized_nfs_extent r replacement else Ok r in
        let? r := if range_end_exclusive <? extent_end
                  then push_normalized_nfs_extent r (mkExtent range_end_exclusive (extent_end - range_end_exclusive) (xt_is_hole e) None)
                  else Ok r in
        place_range range_start range_end_exclusive replacement rest r true
  end.

Definition apply_nfs_extent_range (current : list NfsWriteExtent) (planned_logical_size resulting_logical_size range_start range_end : Z) (operation : MountWriteRangeOperation)
    (data_digest : option bytes) : result DatabaseError (list NfsWriteExtent) :=
  let? current_size := normalized_nfs_extent_size current in
  let? range_end_exclusive := ok_or InvalidPersistedValue (checked_add_i64 range_end 1) in
  if (range_start <? 0) || (range_end <? range_start) || (resulting_logical_size <? current_size) || (resulting_logical_size <? range_end_exclusive) then Err StaleGeneration
  else
    let source := if current_size <? resulting_logical_size
                  then current ++ [mkExtent current_size (resulting_logical_size - current_size) true None] else current in
    let replacement := mkExtent range_start (range_end_exclusive - range_start) (bool_decide (operation = HoleDeallocate)) data_digest in
    let? placed := place_range range_start range_end_exclusive replacement source [] false in
    let? r := if placed.2 then Ok placed.1 else push_normalized_nfs_extent placed.1 replacement in
    let? _ := validate_normalized_nfs_extents r resulting_logical_size in
    Ok r.

Definition saturating_add_i64 (a b : Z) : Z := Z.max i64_min (Z.min i64_max (a + b)).

Fixpoint seek_from (extents : list NfsWriteExtent) (logical_size_bytes requested_offset : Z) (seek_hole : bool) : option Z :=
  match extents with
  | [] => if seek_hole then Some logical_size_bytes else None
  | e :: rest =>
      if saturating_add_i64 (xt_offset_bytes e) (xt_length_bytes e) <=? requested_offset then seek_from rest logical_size_bytes requested_offset seek_hole
      else if Bool.eqb (xt_is_hole e) seek_hole then Some (Z.max (xt_offset_bytes e) requested_offset)
      else seek_from rest logical_size_bytes requested_offset seek_hole
  end.
Definition seek_nfs_extent (extents : list NfsWriteExtent) (logical_size_bytes requested_offset : Z) (seek_hole : bool) : option Z :=
  if logical_size_bytes <? requested_offset then None
  else if seek_hole && (requested_offset =? logical_size_bytes) then Some logical_size_bytes
  else seek_from extents logical_size_bytes requested_offset seek_hole.

(** The checks of the SQL procedure [replace_nfs_write_extents] on the four vectors, for a
    writer of [logical_size] bytes. *)
Fixpoint replace_check (expected logical_size : Z) (rows : list (Z * Z * bool * option bytes)) : option Z :=
  match rows with
  | [] => Some expected
  | (offset, length, hole, digest) :: rest =>
      if negb (offset =? expected) || (length <=? 0) || (hole && bool_decide (is_Some digest)) || match digest with Some d => negb (len d =? 32) | None => false end then None
      else if (expected + length <? 0) || (logical_size <? expected + length) then None
      else replace_check (expected + length) logical_size rest
  end.
Definition replace_nfs_write_extents (logical_size : Z) (offsets lengths : list Z) (holes : list bool) (digests : list (option bytes)) : option (list (Z * Z * bool * option bytes)) :=
  let count := len offsets in
  if negb (count =? len lengths) || negb (count =? len holes) || negb (count =? len digests) || (1048576 <? count) then None
  else if (count =? 0) && negb (logical_size =? 0) then None
  else
    let rows := zip (zip (zip offsets lengths) holes) digests in
    match replace_check 0 logical_size rows with
    | Some size => if size =? logical_size then Some rows else None
    | None => None
    end.

(** ** Files of data and holes *)

(** [f_stamp p] is the write that put the data of the byte [p] there: its range and the digest of its content. *)
Record SparseFile := mkSparse { f_size : Z; f_hole : Z -> bool; f_stamp : Z -> option (Z * Z * bytes) }.

Definition in_extent (e : NfsWriteExtent) (p : Z) : Prop := xt_offset_bytes e <= p < xt_offset_bytes e + xt_length_bytes e.
Definition extent_end (e : NfsWriteExtent) : Z := xt_offset_bytes e + xt_length_bytes e.

(** the extents lie end to end from [o] to [n] *)
Fixpoint tiles (o : Z) (l : list NfsWriteExtent) (n : Z) : Prop :=
  match l with
  | [] => o = n
  | e :: rest => xt_offset_bytes e = o /\ 0 < xt_length_bytes e /\ hole_with_digest e = false /\ tiles (o + xt_length_bytes e) rest n
  end.

(** what an extent says is true of the file *)
Definition describes (f : SparseFile) (e : NfsWriteExtent) : Prop :=
  (forall p, in_extent e p -> f_hole f p = xt_is_hole e)
  /\ (forall d, xt_digest e = Some d -> forall p, in_extent e p -> f_stamp f p = Some (xt_offset_bytes e, extent_end e, d)).

Definition maps (f : SparseFile) (n : Z) (l : list NfsWriteExtent) : Prop := tiles 0 l n /\ Forall (describes f) l.

(** The list is the map of the file: it describes all of it, and has the digest of every write
    of which nothing has been overwritten. *)
Record represents (l : list NfsWriteExtent) (f : SparseFile) : Prop := {
  rp_maps : maps f (f_size f) l;
  rp_bound : f_size f <= i64_max;
  rp_stamps : forall s r d, 0 <= s < r -> r <= f_size f -> (forall p, s <= p < r -> f_stamp f p = Some (s, r, d)) -> mkExtent s (r - s) false (Some d) ∈ l
}.

(** *** Lists of extents *)

Lemma tiles_app l1 : forall o l2 n, tiles o (l1 ++ l2) n <-> exists m, tiles o l1 m /\ tiles m l2 n.
Proof. induction l1 as [|e l1 IH]; intros o l2 n; cbn [app tiles]; [naive_solver|]. rewrite IH. naive_solver. Qed.
Lemma tiles_le l : forall o n, tiles o l n -> o <= n.
Proof. induction l as [|e l IH]; intros o n; cbn [tiles]; [lia|]. intros (_ & Hl & _ & Ht%IH). lia. Qed.
Lemma tiles_elem l : forall o n e, tiles o l n -> e ∈ l -> o <= xt_offset_bytes e /\ extent_end e <= n /\ 0 < xt_length_bytes e /\ hole_with_digest e = false.
Proof.
  induction l as [|x l IH]; intros o n e; cbn [tiles]; [by intros _ ?%elem_of_nil|]. intros (<- & Hl & Hh & Ht) [-> |He]%elem_of_cons.
  - apply tiles_le in Ht. unfold extent_end. split_and!; [lia|lia|done|done].
  - destruct (IH _ _ _ Ht He) as (? & ? & ? & ?). split_and!; [lia|lia|done|done].
Qed.
Lemma checked_add_i64_Ok a b : 0 <= a + b <= i64_max -> checked_add_i64 a b = Some (a + b).
Proof. intros ?. apply checked_Some. unfold i64_min. split; [done|lia]. Qed.

Lemma extent_size_iff l : forall o n, 0 <= o -> n <= i64_max -> (extent_size_from o l = Ok n <-> tiles o l n).
Proof.
  induction l as [|e l IH]; intros o n Ho Hn; cbn [extent_size_from tiles]; [naive_solver|].
  destruct (Z.eqb_spec (xt_offset_bytes e) o) as [He|He]; cbn [negb orb]; [|naive_solver]. destruct (Z.leb_spec (xt_length_bytes e) 0); cbn [orb]; [split; [done|lia]|].
  destruct (hole_with_digest e); [split; [done|naive_solver]|]. destruct (checked_add_i64 o (xt_length_bytes e)) as [next|] eqn:Hc.
  - apply checked_Some in Hc as [<- Hc]. cbn [ok_or]. rewrite IH by lia. naive_solver.
  - cbn [ok_or]. split; [done|]. intros (_ & _ & _ & Ht%tiles_le). rewrite checked_add_i64_Ok in Hc by lia. done.
Qed.

Lemma describes_in f n l e : maps f n l -> e ∈ l -> describes f e.
Proof. intros [_ Hd]. rewrite Forall_forall in Hd. by apply Hd. Qed.

(** *** Pushing *)

Definition mergeable (a b : NfsWriteExtent) : bool := Bool.eqb (xt_is_hole a) (xt_is_hole b) && bool_decide (xt_digest a = None) && bool_decide (xt_digest b = None).

(** the list with an extent pushed: appended, or joined to the last *)
Inductive pushed (l : list NfsWriteExtent) (e : NfsWriteExtent) : list NfsWriteExtent -> Prop :=
| pushed_new : pushed l e (l ++ [e])
| pushed_joined init a : l = init ++ [a] -> mergeable a e = true -> pushed l e (init ++ [mkExtent (xt_offset_bytes a) (xt_length_bytes a + xt_length_bytes e) (xt_is_hole a) (xt_digest a)]).

Lemma push_pushed l e n : tiles 0 l n -> xt_offset_bytes e = n -> 0 < xt_length_bytes e -> hole_with_digest e = false -> extent_end e <= i64_max ->
  exists l', push_normalized_nfs_extent l e = Ok l' /\ pushed l e l'.
Proof.
  intros Ht Ho Hl Hh Hb. unfold push_normalized_nfs_extent, extent_end in *. destruct (Z.leb_spec (xt_length_bytes e) 0); [lia|]. rewrite Hh. cbn [orb].
  destruct (last l) as [a|] eqn:Ha.
  - apply last_Some in Ha as [init ->]. apply tiles_app in Ht as (m & Hi & Hm & Hla & _ & <-). apply tiles_le in Hi. rewrite checked_add_i64_Ok by lia. cbn [ok_or]. rewrite Hm, <-Ho, Z.eqb_refl. cbn [negb].
    fold (mergeable a e). destruct (mergeable a e) eqn:Hmerge; [|eexists; split; [done|constructor]].
    rewrite checked_add_i64_Ok by lia. cbn [ok_or]. eexists. split; [done|]. rewrite removelast_last. rewrite <-Hm. by econstructor.
  - apply last_None in Ha as ->. cbn [tiles] in Ht. rewrite Ho, <-Ht. cbn [negb Z.eqb]. eexists. split; [done|]. constructor.
Qed.

Lemma pushed_maps f n l e l' : maps f n l -> xt_offset_bytes e = n -> 0 < xt_length_bytes e -> hole_with_digest e = false -> describes f e -> pushed l e l' -> maps f (extent_end e) l'.
Proof.
  intros [Ht Hd] Ho Hl Hh He [|init a -> Hm]; unfold extent_end.
  - split; [|apply Forall_app; split; [done|by apply Forall_singleton]]. apply tiles_app. exists n. split; [done|]. cbn [tiles]. split_and!; [done|done|done|lia].
  - apply Forall_app in Hd as [Hi Ha]. rewrite Forall_singleton in Ha. apply tiles_app in Ht as (m & Hti & Hma & Hla & Hha & Hn). cbn [tiles] in Hn. unfold mergeable in Hm. apply andb_true_iff in Hm as [[Hmh%Bool.eqb_prop Hda%bool_decide_eq_true]%andb_true_iff _]. split.
    + apply tiles_app. exists m. split; [done|]. cbn [tiles xt_offset_bytes xt_length_bytes]. split_and!; [done|lia| |lia]. unfold hole_with_digest. cbn [xt_digest xt_is_hole]. rewrite Hda. by destruct (xt_is_hole a).
    + apply Forall_app. split; [done|]. apply Forall_singleton. split; [|cbn [xt_digest]; by rewrite Hda]. intros p Hp. unfold in_extent in Hp. cbn [xt_offset_bytes xt_length_bytes xt_is_hole] in Hp |- *.
      destruct (decide (p < n)); [apply Ha; unfold in_extent; lia|]. rewrite Hmh. apply He. unfold in_extent. lia.
Qed.
Lemma pushed_keeps l e l' x : pushed l e l' -> is_Some (xt_digest x) -> x ∈ l \/ x = e -> x ∈ l'.
Proof.
  intros [|init a -> Hm] Hx Hin; [rewrite elem_of_app, list_elem_of_singleton; naive_solver|]. unfold mergeable in Hm. apply andb_true_iff in Hm as [[_ Ha%bool_decide_eq_true]%andb_true_iff He%bool_decide_eq_true].
  apply elem_of_app. left. destruct Hin as [Hin| ->]; [|rewrite He in Hx; by destruct Hx]. apply elem_of_app in Hin as [|Hin%list_elem_of_singleton]; [done|]. subst. rewrite Ha in Hx. by destruct Hx.
Qed.
Lemma pushed_length l e l' : pushed l e l' -> (length l' <= S (length l))%nat.
Proof. intros [|init a -> _]; rewrite !length_app; simpl; lia. Qed.

(** one push, all at once *)
Lemma push_spec f n l e : maps f n l -> xt_offset_bytes e = n -> 0 < xt_length_bytes e -> hole_with_digest e = false -> describes f e -> extent_end e <= i64_max ->
  exists l', push_normalized_nfs_extent l e = Ok l' /\ maps f (extent_end e) l' /\ (length l' <= S (length l))%nat /\ (forall x, is_Some (xt_digest x) -> x ∈ l \/ x = e -> x ∈ l').
Proof.
  intros Hm Ho Hl Hh Hd Hb. destruct (push_pushed l e n) as (l' & Hp & Hpush); [apply Hm|done..|]. exists l'. split_and!; [done|by eapply pushed_maps|by eapply pushed_length|]. intros x. by apply pushed_keeps.
Qed.

(** *** Replacing a range *)

Section placing.
Context (f : SparseFile) (s r n : Z) (replacement : NfsWriteExtent).
Context (range_ok : 0 <= s < r) (range_in : r <= n) (size_ok : n <= i64_max).
Context (replacement_at : xt_offset_bytes replacement = s /\ xt_length_bytes replacement = r - s /\ hole_with_digest replacement = false) (replacement_true : describes f replacement).

(** an extent of the list before, of which the file says the same outside of the range *)
Definition survives (e : NfsWriteExtent) : Prop :=
  (forall p, in_extent e p -> ~ s <= p < r -> f_hole f p = xt_is_hole e)
  /\ (extent_end e <= s \/ r <= xt_offset_bytes e -> describes f e).

Lemma piece_describes e o k : survives e -> 0 < k -> xt_offset_bytes e <= o -> o + k <= extent_end e -> o + k <= s \/ r <= o -> describes f (mkExtent o k (xt_is_hole e) None).
Proof. intros [Hh _] Hk Ho Hk' Hout. split; [|done]. intros p Hp. unfold in_extent, extent_end in *. cbn [xt_offset_bytes xt_length_bytes xt_is_hole] in *. apply Hh; lia. Qed.
Lemma piece_no_digest o k h : hole_with_digest (mkExtent o k h None) = false.
Proof. unfold hole_with_digest. cbn. by destruct h. Qed.

(** what is left of an extent on one side of the range is pushed, if there is something left *)
Definition push_left_over (a b : Z) (e : NfsWriteExtent) (l : list NfsWriteExtent) : result DatabaseError (list NfsWriteExtent) :=
  if a <? b then push_normalized_nfs_extent l (mkExtent a (b - a) (xt_is_hole e) None) else Ok l.
Lemma push_left_over_spec a b e l : survives e -> maps f a l -> b <= i64_max -> xt_offset_bytes e <= a -> b <= extent_end e -> b <= s \/ r <= a ->
  exists l', push_left_over a b e l = Ok l' /\ maps f (Z.max a b) l' /\ (length l' <= S (length l))%nat /\ (forall x, is_Some (xt_digest x) -> x ∈ l -> x ∈ l').
Proof.
  intros He Hm Hb Hea Hbe Hout. unfold push_left_over. destruct (Z.ltb_spec a b); [|exists l; rewrite Z.max_l by lia; split_and!; [done|done|lia|done]].
  destruct (push_spec f a l (mkExtent a (b - a) (xt_is_hole e) None)) as (l' & -> & Hm' & Hl & Hk); [done|done|cbn; lia|apply piece_no_digest|apply piece_describes; [done|lia..]|unfold extent_end; cbn; lia|].
  exists l'. unfold extent_end in Hm'. cbn in Hm'. replace (a + (b - a)) with (Z.max a b) in Hm' by lia. split_and!; [done|done|done|auto].
Qed.

(** an extent that meets the range: what is left of it, with the replacement in between unless it is there already *)
Lemma overlapped_spec o e acc (inserted : bool) : survives e -> xt_offset_bytes e = o -> s < extent_end e -> o < r -> extent_end e <= n -> 0 <= o ->
  maps f (if inserted then Z.max o r else o) acc -> (if inserted then s < o else o <= s) ->
  exists l0 l1 l2, push_left_over o s e acc = Ok l0 /\ (if negb inserted then push_normalized_nfs_extent l0 replacement else Ok l0) = Ok l1 /\ push_left_over r (extent_end e) e l1 = Ok l2
    /\ maps f (Z.max (extent_end e) r) l2 /\ (length l2 <= length acc + (if inserted then 1 else 3))%nat
    /\ (forall x, is_Some (xt_digest x) -> x ∈ acc \/ (inserted = false /\ x = replacement) -> x ∈ l2).
Proof.
  intros He Heo Hse Hor Hen Ho Hacc Hins. destruct replacement_at as (Hro & Hrl & Hrh). assert (extent_end replacement = r) as Hrend by (unfold extent_end; lia). rewrite (Z.max_comm (extent_end e)). destruct inserted; cbn [negb].
  - rewrite Z.max_r in Hacc by lia. destruct (push_left_over_spec r (extent_end e) e acc) as (l2 & Hp2 & Hm2 & Hl2 & Hk2); [done|done|lia|lia|lia|lia|].
    exists acc, acc, l2. split; [unfold push_left_over; by rewrite (proj2 (Z.ltb_ge _ _)) by lia|]. split_and!; [done|done|done|lia|]. intros x Hx [?|[? _]]; [by apply Hk2|done].
  - destruct (push_left_over_spec o s e acc) as (l0 & Hp0 & Hm0 & Hl0 & Hk0); [done|done|lia|lia|lia|lia|]. rewrite Z.max_r in Hm0 by lia.
    destruct (push_spec f s l0 replacement) as (l1 & Hp1 & Hm1 & Hl1 & Hk1); [done|done|lia|done|done|lia|]. rewrite Hrend in Hm1.
    destruct (push_left_over_spec r (extent_end e) e l1) as (l2 & Hp2 & Hm2 & Hl2 & Hk2); [done|done|lia|lia|lia|lia|]. exists l0, l1, l2. split_and!; [done|done|done|done|lia|].
    intros x Hx [?|[_ ->]]; apply Hk2; [done| |done|]; apply Hk1; auto.
Qed.

Lemma place_range_spec source : forall o acc (inserted : bool), tiles o source n -> 0 <= o -> Forall survives source ->
  maps f (if inserted then Z.max o r else o) acc -> (if inserted then s < o else o <= s) ->
  exists l, place_range s r replacement source acc inserted = Ok (l, true) /\ maps f n l /\ (length l <= length acc + length source + (if inserted then 0 else 2))%nat
    /\ (forall x, is_Some (xt_digest x) -> x ∈ acc \/ (x ∈ source /\ (extent_end x <= s \/ r <= xt_offset_bytes x)) \/ (inserted = false /\ x = replacement) -> x ∈ l).
Proof.
  induction source as [|e source IH]; intros o acc inserted Ht Ho Hsv Hacc Hins.
  { cbn [tiles] in Ht. subst o. destruct inserted; [|lia]. exists acc. rewrite Z.max_l in Hacc by lia. split_and!; [done|done|simpl; lia|]. intros x _ [?|[[?%elem_of_nil _]|[? _]]]; done. }
  cbn [tiles] in Ht. destruct Ht as (Heo & Hel & Heh & Ht). apply Forall_cons in Hsv as [He Hsv]. pose proof (tiles_le _ _ _ Ht) as Hle.
  assert (extent_end e = o + xt_length_bytes e) as Hend by (unfold extent_end; lia). rewrite <-Hend in Ht, Hle. cbn [place_range]. rewrite checked_add_i64_Ok by (unfold extent_end in Hle; lia). cbn [ok_or]. fold (extent_end e).
  destruct (decide (extent_end e <= s \/ r <= xt_offset_bytes e)) as [Hout|Hin].
  - destruct (push_spec f o acc e) as (l1 & Hp1 & Hm1 & Hl1 & Hk1); [destruct inserted; [by rewrite Z.max_l in Hacc by lia|done]|done|done|done|by apply He|lia|].
    destruct (IH (extent_end e) l1 inserted) as (l & Hp & Hm & Hl & Hk); [done|lia|done|destruct inserted; [by rewrite Z.max_l by lia|done]|destruct inserted; lia|].
    exists l. split; [|split_and!; [done|simpl in *; lia|]].
    + assert ((extent_end e <=? s) || (r <=? xt_offset_bytes e) = true) as -> by (apply orb_true_iff; rewrite !Z.leb_le; lia). assert (negb inserted && (r <=? xt_offset_bytes e) = false) as -> by (destruct inserted; [done|]; apply Z.leb_gt; lia).
      cbn [fst snd]. by rewrite Hp1.
    + intros x Hx Hin. apply Hk; [done|]. destruct Hin as [?|[[[-> |?]%elem_of_cons ?]|[? ->]]]; [left; apply Hk1; auto|left; apply Hk1; auto|right; left; auto|auto].
  - destruct (overlapped_spec o e acc inserted) as (l0 & l1 & l2 & Hp0 & Hp1 & Hp2 & Hm2 & Hl2 & Hk2); [done|done|lia|lia|lia|lia|done|done|].
    destruct (IH (extent_end e) l2 true) as (l & Hp & Hm & Hl & Hk); [done|lia|done|done|lia|].
    exists l. split; [|split_and!; [done|simpl in *; destruct inserted; lia|]].
    + assert ((extent_end e <=? s) || (r <=? xt_offset_bytes e) = false) as -> by (apply orb_false_iff; rewrite !Z.leb_gt; lia). rewrite Heo. unfold push_left_over in Hp0, Hp2. rewrite Hp0, Hp1. by rewrite Hp2.
    + intros x Hx Hcase. apply Hk; [done|]. destruct Hcase as [?|[[[-> |?]%elem_of_cons ?]|[? ->]]]; [left; apply Hk2; auto|done|right; left; auto|left; apply Hk2; auto].
Qed.
End placing.

(** *** Operations on the file *)

Record RangeOp := mkRangeOp { ro_size : Z; ro_start : Z; ro_end : Z; ro_operation : MountWriteRangeOperation; ro_digest : option bytes }.

Definition in_op (o : RangeOp) (p : Z) : bool := (ro_start o <=? p) && (p <=? ro_end o).
(** the range becomes data or a hole; what the file has grown by is a hole *)
Definition file_apply (f : SparseFile) (o : RangeOp) : SparseFile :=
  mkSparse (ro_size o)
    (fun p => if in_op o p then bool_decide (ro_operation o = HoleDeallocate) else if p <? f_size f then f_hole f p else true)
    (fun p => if in_op o p then option_map (fun d => (ro_start o, ro_end o + 1, d)) (ro_digest o) else if p <? f_size f then f_stamp f p else None).

(** what the caller has checked, and what [apply_nfs_extent_range] itself requires of a range *)
Definition admissible (o : RangeOp) : Prop := (ro_operation o = HoleDeallocate -> ro_digest o = None) /\ ro_size o <= i64_max /\ ro_end o < i64_max.
Definition range_fits (f : SparseFile) (o : RangeOp) : Prop := 0 <= ro_start o <= ro_end o /\ ro_end o < ro_size o /\ f_size f <= ro_size o.
#[export] Instance range_fits_dec f o : Decision (range_fits f o).
Proof. unfold range_fits. apply _. Defined.

Definition apply_op (l : list NfsWriteExtent) (planned : Z) (o : RangeOp) : result DatabaseError (list NfsWriteExtent) :=
  apply_nfs_extent_range l planned (ro_size o) (ro_start o) (ro_end o) (ro_operation o) (ro_digest o).

(** the extents and the growth, before the range is replaced *)
Definition grown (l : list NfsWriteExtent) (size new_size : Z) : list NfsWriteExtent := if size <? new_size then l ++ [mkExtent size (new_size - size) true None] else l.

Lemma grown_tiles l f new_size : represents l f -> f_size f <= new_size -> tiles 0 (grown l (f_size f) new_size) new_size.
Proof.
  intros [[Ht _] _ _] Hs. unfold grown. destruct (Z.ltb_spec (f_size f) new_size); [|by replace new_size with (f_size f) by lia].
  apply tiles_app. exists (f_size f). split; [done|]. cbn. split_and!; [done|lia|done|lia].
Qed.

Lemma in_op_spec o p : in_op o p = true <-> ro_start o <= p < ro_end o + 1.
Proof. unfold in_op. rewrite andb_true_iff, !Z.leb_le. lia. Qed.
Lemma not_in_op o p : ~ ro_start o <= p < ro_end o + 1 -> in_op o p = false.
Proof. rewrite <-in_op_spec. by destruct (in_op o p). Qed.

Lemma grown_survives l f o : represents l f -> range_fits f o -> Forall (survives (file_apply f o) (ro_start o) (ro_end o + 1)) (grown l (f_size f) (ro_size o)).
Proof.
  intros [[Ht Hd] _ _] (Hs & He & Hz). assert (Forall (survives (file_apply f o) (ro_start o) (ro_end o + 1)) l) as Hl.
  { apply Forall_forall. intros e Hin. destruct (tiles_elem _ _ _ _ Ht Hin) as (? & Hend & _ & _). pose proof (describes_in f _ l e (conj Ht Hd) Hin) as [Hh Hst]. unfold extent_end, in_extent in *.
    assert (forall p, in_extent e p -> (p <? f_size f) = true) as Hp by (intros p Hp; unfold in_extent in Hp; apply Z.ltb_lt; lia).
    split; [intros p Hpe Hout; cbn [file_apply f_hole]; rewrite not_in_op, Hp by done; by apply Hh|]. intros Hout. split.
    - intros p Hpe. cbn [file_apply f_hole]. rewrite Hp, not_in_op by (unfold in_extent, extent_end in *; first [done|lia]). by apply Hh.
    - intros d Hdig p Hpe. cbn [file_apply f_stamp]. rewrite Hp, not_in_op by (unfold in_extent, extent_end in *; first [done|lia]). by apply Hst. }
  unfold grown. destruct (Z.ltb_spec (f_size f) (ro_size o)) as [Hlt|]; [|done]. apply Forall_app. split; [done|]. apply Forall_singleton.
  assert (forall p, in_extent (mkExtent (f_size f) (ro_size o - f_size f) true None) p -> ~ ro_start o <= p < ro_end o + 1 -> f_hole (file_apply f o) p = true) as Hh.
  { intros p Hp Hout. unfold in_extent in Hp. cbn in Hp. cbn [file_apply f_hole]. rewrite not_in_op by done. by rewrite (proj2 (Z.ltb_ge _ _)) by lia. }
  split; [done|]. intros Hout. split; [|done]. intros p Hp. apply Hh; [done|]. unfold in_extent, extent_end in *. cbn in *. lia.
Qed.

Lemma replacement_describes f o : 0 <= ro_start o <= ro_end o -> (ro_operation o = HoleDeallocate -> ro_digest o = None) ->
  let e := mkExtent (ro_start o) (ro_end o + 1 - ro_start o) (bool_decide (ro_operation o = HoleDeallocate)) (ro_digest o) in hole_with_digest e = false /\ describes (file_apply f o) e.
Proof.
  intros Hr Hd e. split; [unfold hole_with_digest; cbn; destruct (decide (ro_operation o = HoleDeallocate)) as [Hop|Hop]; [rewrite bool_decide_eq_true_2, Hd by done; done|by rewrite bool_decide_eq_false_2]|].
  assert (forall p, in_extent e p -> in_op o p = true) as Hp by (intros p Hp; unfold in_extent in Hp; cbn in Hp; apply in_op_spec; lia).
  split; [intros p Hpe; cbn [file_apply f_hole]; by rewrite Hp|]. intros d Hdig p Hpe. cbn [file_apply f_stamp]. rewrite Hp by done. cbn [e xt_digest] in Hdig. rewrite Hdig. unfold extent_end. cbn. do 3 f_equal. lia.
Qed.

(** a range that fits is applied, the list becoming the map of the changed file, unless that map is too long *)
Lemma apply_fits l f planned o : represents l f -> admissible o -> range_fits f o ->
  exists l', represents l' (file_apply f o) /\ (length l' <= length l + 3)%nat /\ apply_op l planned o = if 1048576 <? len l' then Err InvalidPersistedValue else Ok l'.
Proof.
  intros Hrep (Hd & Hmax & Hend) Hfit. pose proof Hfit as (Hr & Hes & Hz). pose proof Hrep as [[Ht _] Hb Hst]. pose proof (tiles_le _ _ _ Ht) as Hpos.
  destruct (replacement_describes f o Hr Hd) as [Hrh Hrd]. set (e := mkExtent (ro_start o) _ _ _) in *.
  destruct (place_range_spec (file_apply f o) (ro_start o) (ro_end o + 1) (ro_size o) e) with (source := grown l (f_size f) (ro_size o)) (o := 0) (acc := @nil NfsWriteExtent) (inserted := false) as (l' & Hp & Hm & Hl & Hk);
    [lia|lia|lia|done|done|by apply grown_tiles|lia|by apply grown_survives|by split|lia|].
  assert (length (grown l (f_size f) (ro_size o)) <= S (length l))%nat as Hg by (unfold grown; destruct (_ <? _); rewrite ?length_app; simpl; lia). cbn [length] in Hl.
  exists l'. split; [split; [exact Hm|cbn; lia|]|split; [lia|]].
  - intros a b d Hab Hbn Hall. cbn [file_apply f_size f_stamp] in *. destruct (decide (ro_start o < b /\ a < ro_end o + 1)) as [Hmeet|Hapart].
    + specialize (Hall (Z.max a (ro_start o)) ltac:(lia)). rewrite (proj2 (in_op_spec o _)) in Hall by lia. destruct (ro_digest o) as [d'|] eqn:Hdig; [|done]. injection Hall as <- <- <-.
      apply Hk; [by eexists|]. right. right. split; [done|]. unfold e. f_equal. by rewrite bool_decide_eq_false_2 by (intros Hop; by apply Hd in Hop).
    + assert (forall p, a <= p < b -> p < f_size f /\ f_stamp f p = Some (a, b, d)) as Hold by (intros p Hpab; specialize (Hall p Hpab); rewrite not_in_op in Hall by lia; destruct (Z.ltb_spec p (f_size f)); done).
      apply Hk; [by eexists|]. right. left. split; [|unfold extent_end; cbn; lia]. assert (mkExtent a (b - a) false (Some d) ∈ l) as Hin by (apply Hst; [done|destruct (Hold (b - 1) ltac:(lia)); lia|intros p Hpab; by apply Hold]).
      unfold grown. destruct (_ <? _); [|done]. apply elem_of_app. by left.
  - unfold apply_op, apply_nfs_extent_range, normalized_nfs_extent_size. rewrite (proj2 (extent_size_iff l 0 (f_size f) ltac:(lia) Hb) Ht). cbn. rewrite checked_add_i64_Ok by lia. cbn [ok_or].
    destruct (Z.ltb_spec (ro_start o) 0); [lia|]. destruct (Z.ltb_spec (ro_end o) (ro_start o)); [lia|]. destruct (Z.ltb_spec (ro_size o) (f_size f)); [lia|]. destruct (Z.ltb_spec (ro_size o) (ro_end o + 1)); [lia|]. cbn [orb].
    fold (grown l (f_size f) (ro_size o)). fold e. rewrite Hp. cbn [fst snd]. unfold validate_normalized_nfs_extents. rewrite (proj2 (Z.ltb_ge (ro_size o) 0)) by lia. cbn [orb]. destruct (1048576 <? len l'); [done|].
    unfold normalized_nfs_extent_size. rewrite (proj2 (extent_size_iff l' 0 (ro_size o) ltac:(lia) Hmax) (proj1 Hm)). by rewrite Z.eqb_refl.
Qed.

(** any other range is refused *)
Lemma apply_unfit l f planned o : represents l f -> admissible o -> ~ range_fits f o -> exists e, apply_op l planned o = Err e.
Proof.
  intros [[Ht _] Hb _] (_ & _ & Hend) Hfit. pose proof (tiles_le _ _ _ Ht) as Hpos. unfold apply_op, apply_nfs_extent_range, normalized_nfs_extent_size. rewrite (proj2 (extent_size_iff l 0 (f_size f) ltac:(lia) Hb) Ht). cbn.
  destruct (checked_add_i64 (ro_end o) 1) as [r|] eqn:Hr; cbn [ok_or]; [|by eexists]. apply checked_Some in Hr as [<- _]. unfold range_fits in Hfit.
  destruct (Z.ltb_spec (ro_start o) 0); [by eexists|]. destruct (Z.ltb_spec (ro_end o) (ro_start o)); [by eexists|]. destruct (Z.ltb_spec (ro_size o) (f_size f)); [by eexists|]. destruct (Z.ltb_spec (ro_size o) (ro_end o + 1)); [by eexists|]. lia.
Qed.

(** *** Seeking *)

(** the first byte from [offset] that is a hole (or data); the end of the file counts as a hole *)
Definition seek_answer (f : SparseFile) (offset : Z) (hole : bool) (answer : option Z) : Prop :=
  match answer with
  | Some q => offset <= q <= f_size f /\ (q < f_size f /\ f_hole f q = hole \/ hole = true /\ q = f_size f) /\ forall p, offset <= p < q -> f_hole f p <> hole
  | None => f_size f < offset \/ (hole = false /\ forall p, offset <= p < f_size f -> f_hole f p <> false)
  end.

Lemma seek_from_spec f offset hole l : forall o, 0 <= o -> tiles o l (f_size f) -> Forall (describes f) l -> f_size f <= i64_max -> offset <= f_size f ->
  (forall p, offset <= p < o -> f_hole f p <> hole) -> seek_answer f offset hole (seek_from l (f_size f) offset hole).
Proof.
  induction l as [|e l IH]; intros o Ho Ht Hd Hb Hoff Hbefore; cbn [tiles seek_from] in *.
  { subst o. destruct hole; cbn [seek_answer]; [split_and!; [lia|lia|auto|done]|auto]. }
  destruct Ht as (Heo & Hl & _ & Ht). apply Forall_cons in Hd as [[Hh _] Hd]. pose proof (tiles_le _ _ _ Ht) as Hle. unfold saturating_add_i64. rewrite Heo, Z.min_r, Z.max_r by (unfold i64_min; lia).
  destruct (Z.leb_spec (o + xt_length_bytes e) offset); [apply (IH (o + xt_length_bytes e)); [lia|done|done|done|done|intros p ?; lia]|].
  destruct (Bool.eqb_spec (xt_is_hole e) hole) as [<- |Hne].
  - cbn [seek_answer]. split_and!; [lia|lia|left; split; [lia|apply Hh; unfold in_extent; lia]|]. intros p Hp. apply Hbefore. lia.
  - apply (IH (o + xt_length_bytes e)); [lia|done|done|done|done|]. intros p Hp. destruct (decide (p < o)); [apply Hbefore; lia|]. rewrite Hh by (unfold in_extent; lia). done.
Qed.
Lemma seek_correct l f offset hole : represents l f -> 0 <= offset -> seek_answer f offset hole (seek_nfs_extent l (f_size f) offset hole).
Proof.
  intros [[Ht Hd] Hb _] Hoff. unfold seek_nfs_extent. destruct (Z.ltb_spec (f_size f) offset); [by left|]. destruct (hole && (offset =? f_size f)) eqn:He.
  - apply andb_true_iff in He as [-> ->%Z.eqb_eq]. cbn. split_and!; [lia|lia|auto|lia].
  - apply (seek_from_spec f offset hole l 0); [lia|done|done|done|done|lia].
Qed.

(** *** Storing *)

Lemma replace_check_tiles l : forall o n, tiles o l n -> 0 <= o -> Forall (fun e => match xt_digest e with Some d => len d = 32 | None => True end) l ->
  replace_check o n (map (fun e => (xt_offset_bytes e, xt_length_bytes e, xt_is_hole e, xt_digest e)) l) = Some n.
Proof.
  induction l as [|e l IH]; intros o n; cbn [tiles map replace_check]; [by intros ->|]. intros (<- & Hl & Hh & Ht) Ho [Hd Hds]%Forall_cons. pose proof (tiles_le _ _ _ Ht). rewrite Z.eqb_refl. cbn [negb orb].
  destruct (Z.leb_spec (xt_length_bytes e) 0); [lia|]. cbn [orb]. unfold hole_with_digest in Hh. rewrite Hh. cbn [orb]. assert (match xt_digest e with Some d => negb (len d =? 32) | None => false end = false) as -> by (destruct (xt_digest e); [by rewrite Hd|done]).
  destruct (Z.ltb_spec (xt_offset_bytes e + xt_length_bytes e) 0); [lia|]. destruct (Z.ltb_spec n (xt_offset_bytes e + xt_length_bytes e)); [lia|]. cbn [orb]. apply IH; [done|lia|done].
Qed.
Lemma replace_accepts l f : represents l f -> (length l <= Z.to_nat 1048576)%nat -> Forall (fun e => match xt_digest e with Some d => len d = 32 | None => True end) l ->
  replace_nfs_write_extents (f_size f) (map xt_offset_bytes l) (map xt_length_bytes l) (map xt_is_hole l) (map xt_digest l)
  = Some (map (fun e => (xt_offset_bytes e, xt_length_bytes e, xt_is_hole e, xt_digest e)) l).
Proof.
  intros [[Ht _] _ _] Hn Hd. unfold replace_nfs_write_extents, len. rewrite !length_map, Z.eqb_refl. cbn [negb orb]. rewrite (proj2 (Z.ltb_ge _ _)) by lia.
  assert ((Z.of_nat (length l) =? 0) && negb (f_size f =? 0) = false) as -> by (destruct l as [|e l]; [cbn [tiles] in Ht; by rewrite <-Ht|done]).
  assert (zip (zip (zip (map xt_offset_bytes l) (map xt_length_bytes l)) (map xt_is_hole l)) (map xt_digest l) = map (fun e => (xt_offset_bytes e, xt_length_bytes e, xt_is_hole e, xt_digest e)) l) as -> by (clear; induction l as [|e l IH]; [done|cbn in *; by rewrite IH]).
  rewrite replace_check_tiles by (first [done|lia]). by rewrite Z.eqb_refl.
Qed.

(** ** Histories of a write session *)

(** the map of a new session: the version that it starts from, as one extent *)
Definition base_extents (size : Z) (digest : bytes) : list NfsWriteExtent := if 0 <? size then [mkExtent 0 size false (Some digest)] else [].
Definition base_file (size : Z) (digest : bytes) : SparseFile := mkSparse size (fun _ => false) (fun _ => Some (0, size, digest)).

(** the list and the file after some operations, of which those that are refused change nothing *)
Fixpoint run_all (l : list NfsWriteExtent) (f : SparseFile) (ops : list RangeOp) : list NfsWriteExtent * SparseFile :=
  match ops with
  | [] => (l, f)
  | o :: rest => match apply_op l (ro_size o) o with Ok l' => run_all l' (file_apply f o) rest | Err _ => run_all l f rest end
  end.

Lemma base_represents size digest : 0 <= size <= i64_max -> represents (base_extents size digest) (base_file size digest).
Proof.
  intros Hs. unfold base_extents. destruct (Z.ltb_spec 0 size).
  - split; [split; [cbn; split_and!; [done|lia|done|lia]|apply Forall_singleton; split; [done|by intros d [= <-] p _]]|cbn; lia|]. intros a b d Hab Hb Hall. cbn in *. specialize (Hall a ltac:(lia)). injection Hall as <- <- <-.
    apply list_elem_of_singleton. f_equal. lia.
  - assert (size = 0) as -> by lia. split; [split; [done|by apply Forall_nil]|cbn; lia|]. intros a b d Hab Hb _. cbn in Hb. lia.
Qed.

Lemma run_all_represents ops : forall l f, represents l f -> (length l <= Z.to_nat 1048576)%nat -> Forall admissible ops ->
  represents (run_all l f ops).1 (run_all l f ops).2 /\ (length (run_all l f ops).1 <= Z.to_nat 1048576)%nat /\ (length (run_all l f ops).1 <= length l + 3 * length ops)%nat.
Proof.
  induction ops as [|o ops IH]; intros l f Hr Hn Ha; cbn [run_all length]; [split_and!; [done|done|cbn; lia]|]. apply Forall_cons in Ha as [Ho Ha].
  assert (apply_op l (ro_size o) o = Err InvalidPersistedValue \/ (exists e, apply_op l (ro_size o) o = Err e) \/ exists l', apply_op l (ro_size o) o = Ok l' /\ represents l' (file_apply f o) /\ (length l' <= Z.to_nat 1048576)%nat /\ (length l' <= length l + 3)%nat) as [-> |[[e ->]|(l' & -> & Hr' & Hn' & Hl')]].
  { destruct (decide (range_fits f o)) as [Hfit|Hfit]; [|right; left; by eapply apply_unfit]. destruct (apply_fits l f (ro_size o) o Hr Ho Hfit) as (l' & Hr' & Hl' & ->). unfold len.
    destruct (Z.ltb_spec 1048576 (Z.of_nat (length l'))); [by left|]. right. right. exists l'. split_and!; [done|done|lia|done]. }
  - destruct (IH l f Hr Hn Ha) as (? & ? & ?). split_and!; [done|done|lia].
  - destruct (IH l f Hr Hn Ha) as (? & ? & ?). split_and!; [done|done|lia].
  - destruct (IH l' (file_apply f o) Hr' Hn' Ha) as (? & ? & ?). split_and!; [done|done|lia].
Qed.

(** C23. The sparse map of a write session is exact. Take any sequence of writes, allocations
    and hole punches on a file, starting from a stored version, of which those that the code
    refuses change nothing (sizes and ends are below 2^63, and only a write has a digest, as
    the caller has checked). The list of extents that the database has computed describes the
    file after the operations that it accepted: which bytes are data and which are holes, and
    the digest of exactly those writes of which no byte has been overwritten; it has at most
    1,048,576 extents, and at most one and three for each operation; the procedure that stores
    it accepts it, if its digests have 32 bytes; and [SEEK_DATA] and [SEEK_HOLE] on it find the first such byte of the file
    (the end counting as a hole). The next operation is refused if its range does not lie in
    the file of its new size, or if the map of the changed file, which has at most three more
    extents, has more than 1,048,576, and is accepted otherwise. *)
Theorem extents_refine_file (size : Z) (digest : bytes) (ops : list RangeOp) :
  0 <= size <= i64_max -> Forall admissible ops ->
  let l := (run_all (base_extents size digest) (base_file size digest) ops).1 in
  let f := (run_all (base_extents size digest) (base_file size digest) ops).2 in
  represents l f /\ len l <= Z.min 1048576 (1 + 3 * len ops)
  /\ (forall offset hole, 0 <= offset -> seek_answer f offset hole (seek_nfs_extent l (f_size f) offset hole))
  /\ (Forall (fun e => match xt_digest e with Some d => len d = 32 | None => True end) l ->
      replace_nfs_write_extents (f_size f) (map xt_offset_bytes l) (map xt_length_bytes l) (map xt_is_hole l) (map xt_digest l)
      = Some (map (fun e => (xt_offset_bytes e, xt_length_bytes e, xt_is_hole e, xt_digest e)) l))
  /\ (forall planned o, admissible o ->
      (range_fits f o -> exists l', represents l' (file_apply f o) /\ len l' <= len l + 3 /\ apply_op l planned o = if 1048576 <? len l' then Err InvalidPersistedValue else Ok l')
      /\ (~ range_fits f o -> exists e, apply_op l planned o = Err e)).
Proof.
  intros Hs Ha l f. assert (length (base_extents size digest) <= 1)%nat as Hb by (unfold base_extents; destruct (_ <? _); simpl; lia).
  destruct (run_all_represents ops (base_extents size digest) (base_file size digest)) as (Hr & Hlen & Hlen'); [by apply base_represents|lia|done|]. fold l in Hr, Hlen, Hlen'. fold f in Hr.
  split_and!; [done|unfold len; lia|intros; by apply seek_correct|intros; by apply replace_accepts|]. intros planned o Ho. split; [|intros; by eapply apply_unfit].
  intros Hfit. destruct (apply_fits l f planned o Hr Ho Hfit) as (l' & ? & ? & ?). exists l'. split_and!; [done|unfold len; lia|done].
Qed.

(** A file of ten bytes to which ten bytes are written after a gap; then a hole is punched
    across its end and the beginning of the write, and a range beyond its end is refused. *)
Definition sample_ops : list RangeOp := [mkRangeOp 30 20 29 WriteData (Some (replicate 32 "w"%char)); mkRangeOp 30 5 24 HoleDeallocate None; mkRangeOp 30 28 31 WriteData None].
Lemma extents_refine_file_witness :
  let r := run_all (base_extents 10 (replicate 32 "b"%char)) (base_file 10 (replicate 32 "b"%char)) sample_ops in
  r.1 = [mkExtent 0 5 false None; mkExtent 5 20 true None; mkExtent 25 5 false None] /\ f_size r.2 = 30 /\ represents r.1 r.2.
Proof.
  intros r. split; [vm_compute; reflexivity|]. split; [vm_compute; reflexivity|]. assert (0 <= 10 <= i64_max) as Hs by (unfold i64_max; lia).
  assert (Forall admissible sample_ops) as Ha by (repeat (apply Forall_cons; split); [..|apply Forall_nil; done]; unfold admissible, i64_max; cbn; split_and!; first [done|lia]).
  exact (proj1 (extents_refine_file 10 (replicate 32 "b"%char) sample_ops Hs Ha)).
Defined.
