(* ===== verification/MountStore.v ===== *)
(** Model of mounted drives in the database: gateways, sessions, handles and byte-range
    locks of one tenant, [source/crates/filebelt-database/src/mount.rs], and the handlers of
    [source/apps/filebelt-vfs/src/main.rs] that use them for SMB and FTPS.  Each operation
    reads the clock once; audit and outbox rows are left out.  The clauses of
    [admit_mount_session] on the tables of NFS exports are an argument. *)
From S2P Require Import Prelude Collections Libraries Net CollaborationStore.

Open Scope string_scope.
Open Scope Z_scope.
Open Scope list_scope.
Open Scope bool_scope.
Open Scope filebelt_scope.

(** ** Rows *)

Inductive SessionState := SsActive | SsDraining | SsRevoked | SsExpired | SsClosed.
#[export] Instance SessionState_eq_dec : EqDecision SessionState.
Proof. solve_decision. Defined.
(** [state IN ('active','draining')] *)
Definition session_open (s : SessionState) : bool := match s with SsActive | SsDraining => true | _ => false end.

Record GatewayRow := mkGateway { gw_gateway_id : string; gw_epoch : Z; gw_draining : bool; gw_drain_deadline : option Z; gw_lease_expires_at : Z }.
Record SessionRow := mkSession {
  ss_user : Uuid; ss_credential : Uuid; ss_device : option Uuid; ss_protocol : string; ss_gateway_id : string; ss_gateway_epoch : Z;
  ss_credential_generation : Z; ss_authorization_generation : Z; ss_membership_generation : Z; ss_gss_binding : option bytes;
  ss_idle_expires_at : Z; ss_absolute_expires_at : Z; ss_state : SessionState
}.
Record HandleRow := mkHandle {
  hd_session : Uuid; hd_drive : Uuid; hd_node : Uuid; hd_version : option Uuid; hd_actions : list string; hd_share_read : bool; hd_share_write : bool; hd_share_delete : bool;
  hd_credential_generation : Z; hd_authorization_generation : Z; hd_membership_generation : Z; hd_drive_acl_generation : Z; hd_namespace_generation : Z; hd_resource_acl_generation : Z;
  hd_gateway_epoch : Z; hd_expires_at : Z; hd_closed : bool
}.
Record LockRow := mkLock {
  lk_handle : Uuid; lk_drive : Uuid; lk_node : Uuid; lk_owner_key : string; lk_offset : Z; lk_length : Z; lk_exclusive : bool; lk_gateway_epoch : Z; lk_expires_at : Z; lk_released : bool
}.
Record CredentialRow := mkCredential {
  cr_principal : Uuid; cr_protocol : string; cr_credential_generation : Z; cr_authorization_generation : Z; cr_read_only : bool; cr_allowed_drives : list Uuid;
  cr_revoked : bool; cr_expires_at : Z; cr_bound_device : option Uuid
}.
(** a principal, with whether it is an active user *)
Record PrincipalRow := mkPrincipal { pr_generation : Z; pr_disabled : bool; pr_active_user : bool }.
Record PolicyRow := mkPolicy { po_enabled : bool; po_read_only : bool; po_allowed_drives : list Uuid; po_authorization_generation : Z; po_revision : Z }.
Record DeviceRow := mkDevice { dv_principal : Uuid; dv_revoked : bool; dv_observed_at : Z }.
Record MountNodeRow := mkMountNode { mn_kind : string; mn_head : option Uuid; mn_namespace_generation : Z; mn_acl_generation : Z; mn_trashed : bool }.

Record Mounts := mkMounts {
  mt_gateways : gmap (string * string) GatewayRow; mt_sessions : gmap Uuid SessionRow; mt_handles : gmap Uuid HandleRow; mt_locks : gmap Uuid LockRow;
  mt_credentials : gmap Uuid CredentialRow; mt_principals : gmap Uuid PrincipalRow; mt_policies : gmap (Uuid * string) PolicyRow; mt_devices : gmap Uuid DeviceRow;
  mt_drives : gmap Uuid Z; mt_nodes : gmap (Uuid * Uuid) MountNodeRow; mt_nfs_feature : option string
}.
Definition set_gateways (v : gmap (string * string) GatewayRow) (m : Mounts) : Mounts :=
  mkMounts v (mt_sessions m) (mt_handles m) (mt_locks m) (mt_credentials m) (mt_principals m) (mt_policies m) (mt_devices m) (mt_drives m) (mt_nodes m) (mt_nfs_feature m).
Definition set_sessions (v : gmap Uuid SessionRow) (m : Mounts) : Mounts :=
  mkMounts (mt_gateways m) v (mt_handles m) (mt_locks m) (mt_credentials m) (mt_principals m) (mt_policies m) (mt_devices m) (mt_drives m) (mt_nodes m) (mt_nfs_feature m).
Definition set_handles (v : gmap Uuid HandleRow) (m : Mounts) : Mounts :=
  mkMounts (mt_gateways m) (mt_sessions m) v (mt_locks m) (mt_credentials m) (mt_principals m) (mt_policies m) (mt_devices m) (mt_drives m) (mt_nodes m) (mt_nfs_feature m).
Definition set_locks (v : gmap Uuid LockRow) (m : Mounts) : Mounts :=
  mkMounts (mt_gateways m) (mt_sessions m) (mt_handles m) v (mt_credentials m) (mt_principals m) (mt_policies m) (mt_devices m) (mt_drives m) (mt_nodes m) (mt_nfs_feature m).
Definition set_credentials (v : gmap Uuid CredentialRow) (m : Mounts) : Mounts :=
  mkMounts (mt_gateways m) (mt_sessions m) (mt_handles m) (mt_locks m) v (mt_principals m) (mt_policies m) (mt_devices m) (mt_drives m) (mt_nodes m) (mt_nfs_feature m).
Definition set_principals (v : gmap Uuid PrincipalRow) (m : Mounts) : Mounts :=
  mkMounts (mt_gateways m) (mt_sessions m) (mt_handles m) (mt_locks m) (mt_credentials m) v (mt_policies m) (mt_devices m) (mt_drives m) (mt_nodes m) (mt_nfs_feature m).
Definition set_policies (v : gmap (Uuid * string) PolicyRow) (m : Mounts) : Mounts :=
  mkMounts (mt_gateways m) (mt_sessions m) (mt_handles m) (mt_locks m) (mt_credentials m) (mt_principals m) v (mt_devices m) (mt_drives m) (mt_nodes m) (mt_nfs_feature m).

Record MountSessionFence := mkFence {
  fn_session_id : Uuid; fn_user : Uuid; fn_credential : Uuid; fn_protocol : string; fn_credential_generation : Z; fn_authorization_generation : Z; fn_membership_generation : Z;
  fn_gateway_epoch : Z; fn_read_only : bool; fn_allowed_drives : list Uuid
}.
Record MountHandleRecord := mkHandleRecord { mh_id : Uuid; mh_row : HandleRow }.

Definition minutes (n : Z) : Z := n * 60.
Definition hours (n : Z) : Z := n * 3600.
Definition mount_protocol (p : string) : bool := String.eqb p "smb" || String.eqb p "ftps" || String.eqb p "nfs".
Definition bounded_text (limit : Z) (s : string) : bool := negb (String.eqb s "") && (str_len s <=? limit).

(** ** Gateways *)

Definition claim_lease (protocol : string) (now : Z) : Z := now + (if String.eqb protocol "nfs" then 30 else 20).
Definition deadline_passed (g : GatewayRow) (now : Z) : bool := match gw_drain_deadline g with Some d => d <=? now | None => false end.

Definition claim_mount_gateway_epoch (m : Mounts) (now : Z) (protocol shard_key gateway_id : string) : result DatabaseError (Z * Mounts) :=
  if negb (mount_protocol protocol) || negb (bounded_text 255 shard_key) || negb (bounded_text 255 gateway_id) then Err InvalidPersistedValue
  else if String.eqb protocol "nfs" && negb (bool_decide (mt_nfs_feature m ∈ [Some "preflight"; Some "active"])) then Err AdmissionLimited
  else
    let lease := claim_lease protocol now in
    match mt_gateways m !! (protocol, shard_key) with
    | None => Ok (1, set_gateways (<[(protocol, shard_key) := mkGateway gateway_id 1 false None lease]> (mt_gateways m)) m)
    | Some g =>
        if (negb (gw_draining g) && (String.eqb (gw_gateway_id g) gateway_id || (gw_lease_expires_at g <=? now))) || (gw_draining g && deadline_passed g now) then
          let epoch := if negb (gw_draining g) && String.eqb (gw_gateway_id g) gateway_id && (now <? gw_lease_expires_at g) then gw_epoch g else gw_epoch g + 1 in
          Ok (epoch, set_gateways (<[(protocol, shard_key) := mkGateway gateway_id epoch false None lease]> (mt_gateways m)) m)
        else Err AdmissionLimited
    end.

Definition drain_mount_gateway_epoch (m : Mounts) (now : Z) (protocol shard_key gateway_id : string) (epoch : Z) (reason : string) : result DatabaseError Mounts :=
  if negb (mount_protocol protocol) || negb (bounded_text 255 shard_key) || negb (bounded_text 255 gateway_id) || (epoch <=? 0) || negb (bounded_text 64 reason) then Err InvalidPersistedValue
  else
    let? g := ok_or StaleGeneration (mt_gateways m !! (protocol, shard_key)) in
    if negb (String.eqb (gw_gateway_id g) gateway_id && (gw_epoch g =? epoch) && negb (gw_draining g) && (now <? gw_lease_expires_at g)) then Err StaleGeneration
    else
      let deadline := now + minutes 5 in
      let drained s :=
        if String.eqb (ss_protocol s) protocol && String.eqb (ss_gateway_id s) gateway_id && (ss_gateway_epoch s =? epoch) && bool_decide (ss_state s = SsActive)
        then mkSession (ss_user s) (ss_credential s) (ss_device s) (ss_protocol s) (ss_gateway_id s) (ss_gateway_epoch s) (ss_credential_generation s) (ss_authorization_generation s)
               (ss_membership_generation s) (ss_gss_binding s) (Z.min (ss_idle_expires_at s) deadline) (Z.min (ss_absolute_expires_at s) deadline) SsDraining
        else s in
      Ok (set_sessions (drained <$> mt_sessions m) (set_gateways (<[(protocol, shard_key) := mkGateway gateway_id epoch true (Some deadline) (gw_lease_expires_at g)]> (mt_gateways m)) m)).

(** a gateway that serves the protocol under the identifier and the epoch, whatever its shard *)
Definition serves (now : Z) (protocol gateway_id : string) (epoch : Z) (k : string * string) (g : GatewayRow) : bool :=
  String.eqb k.1 protocol && String.eqb (gw_gateway_id g) gateway_id && (gw_epoch g =? epoch) && negb (gw_draining g) && (now <? gw_lease_expires_at g).
Definition drains (now : Z) (protocol gateway_id : string) (epoch : Z) (k : string * string) (g : GatewayRow) : bool :=
  String.eqb k.1 protocol && String.eqb (gw_gateway_id g) gateway_id && (gw_epoch g =? epoch) && gw_draining g && match gw_drain_deadline g with Some d => now <? d | None => false end.
Definition gateway_exists (p : string * string -> GatewayRow -> bool) (m : Mounts) : bool := existsb (fun kg => p kg.1 kg.2) (map_to_list (mt_gateways m)).

(** ** Sessions *)

Record CreateSession := mkCreateSession {
  cs_credential : Uuid; cs_device : option Uuid; cs_protocol : string; cs_gateway_id : string; cs_gateway_epoch : Z; cs_source_address : string
}.

(** the row of the credential, with its principal and its policy *)
Definition usable_credential (m : Mounts) (now : Z) (q : CreateSession) : option (CredentialRow * PrincipalRow) :=
  c ← mt_credentials m !! cs_credential q;
  p ← mt_principals m !! cr_principal c;
  policy ← mt_policies m !! (cr_principal c, cr_protocol c);
  if String.eqb (cr_protocol c) (cs_protocol q) && negb (cr_revoked c) && (now <? cr_expires_at c) && po_enabled policy && negb (pr_disabled p)
     && match cr_bound_device c with None => true | Some d => bool_decide (cs_device q = Some d) end
  then Some (c, p) else None.

Definition create_mount_session (m : Mounts) (now : Z) (q : CreateSession) (session_id session_principal_id : Uuid) : result DatabaseError (MountSessionFence * Mounts) :=
  if negb (String.eqb (cs_protocol q) "smb" || String.eqb (cs_protocol q) "ftps") || negb (bounded_text 255 (cs_gateway_id q)) || (cs_gateway_epoch q <=? 0)
     || bool_decide (parse_ip_addr (cs_source_address q) = None) then Err InvalidPersistedValue
  else
    let? cp := ok_or StaleGeneration (usable_credential m now q) in
    let '(c, p) := cp in
    if negb (gateway_exists (serves now (cs_protocol q) (cs_gateway_id q) (cs_gateway_epoch q)) m) then Err StaleGeneration
    else if bool_decide (is_Some (mt_principals m !! session_principal_id)) then Err Sql
    else if match cs_device q with Some d => bool_decide (mt_devices m !! d = None) | None => false end then Err Sql
    else if bool_decide (is_Some (mt_sessions m !! session_id)) then Err Conflict
    else
      let absolute_hours := if String.eqb (cs_protocol q) "smb" then 12 else 4 in
      let row := mkSession (cr_principal c) (cs_credential q) (cs_device q) (cs_protocol q) (cs_gateway_id q) (cs_gateway_epoch q) (cr_credential_generation c) (cr_authorization_generation c)
                   (pr_generation p) None (now + minutes 15) (now + hours absolute_hours) SsActive in
      Ok (mkFence session_id (cr_principal c) (cs_credential q) (cs_protocol q) (cr_credential_generation c) (cr_authorization_generation c) (pr_generation p) (cs_gateway_epoch q)
            (cr_read_only c) (cr_allowed_drives c),
          set_sessions (<[session_id := row]> (mt_sessions m)) (set_principals (<[session_principal_id := mkPrincipal 1 false false]> (mt_principals m)) m)).

Record AdmitSession := mkAdmitSession {
  ad_session : Uuid; ad_protocol : string; ad_gateway_id : string; ad_gateway_epoch : Z; ad_credential_generation : Z; ad_authorization_generation : Z; ad_gss_binding : option bytes
}.

(** the device that a credential is bound to was seen in the last five minutes *)
Definition device_fresh (m : Mounts) (now : Z) (user : Uuid) (c : CredentialRow) : bool :=
  match cr_bound_device c with
  | None => true
  | Some d => match mt_devices m !! d with Some v => N.eqb (dv_principal v) user && negb (dv_revoked v) && (now - minutes 5 <? dv_observed_at v) | None => false end
  end.

Section sessions.
(** what the clauses on NFS exports say of a session, and the drives they leave it *)
Context (nfs_clauses : Mounts -> Z -> SessionRow -> bool) (nfs_drives : Mounts -> SessionRow -> CredentialRow -> PolicyRow -> list Uuid).

Definition session_matches (q : AdmitSession) (now : Z) (s : SessionRow) : bool :=
  String.eqb (ss_protocol s) (ad_protocol q) && String.eqb (ss_gateway_id s) (ad_gateway_id q) && (ss_gateway_epoch s =? ad_gateway_epoch q)
  && (ss_credential_generation s =? ad_credential_generation q) && (ss_authorization_generation s =? ad_authorization_generation q) && session_open (ss_state s)
  && (if String.eqb (ad_protocol q) "nfs" then bool_decide (ss_gss_binding s = ad_gss_binding q) else bool_decide (ad_gss_binding q = None))
  && (now <? ss_idle_expires_at s) && (now <? ss_absolute_expires_at s).

Definition session_authority (m : Mounts) (now : Z) (q : AdmitSession) (s : SessionRow) : option (CredentialRow * PolicyRow) :=
  c ← mt_credentials m !! ss_credential s;
  p ← mt_principals m !! ss_user s;
  policy ← mt_policies m !! (ss_user s, ss_protocol s);
  if negb (cr_revoked c) && (now <? cr_expires_at c) && (cr_credential_generation c =? ad_credential_generation q) && (cr_authorization_generation c =? ad_authorization_generation q)
     && device_fresh m now (ss_user s) c && negb (pr_disabled p) && (pr_generation p =? ss_membership_generation s) && pr_active_user p
     && po_enabled policy && (po_authorization_generation policy =? ad_authorization_generation q)
     && (if bool_decide (ss_state s = SsActive) then gateway_exists (serves now (ss_protocol s) (ss_gateway_id s) (ss_gateway_epoch s)) m
         else gateway_exists (drains now (ss_protocol s) (ss_gateway_id s) (ss_gateway_epoch s)) m)
     && (negb (String.eqb (ss_protocol s) "nfs") || nfs_clauses m now s)
  then Some (c, policy) else None.

Definition touch (s : SessionRow) (now : Z) : SessionRow :=
  mkSession (ss_user s) (ss_credential s) (ss_device s) (ss_protocol s) (ss_gateway_id s) (ss_gateway_epoch s) (ss_credential_generation s) (ss_authorization_generation s)
    (ss_membership_generation s) (ss_gss_binding s) (Z.min (ss_absolute_expires_at s) (now + minutes 15)) (ss_absolute_expires_at s) (ss_state s).

Definition admit_mount_session (m : Mounts) (now : Z) (q : AdmitSession) : result DatabaseError (MountSessionFence * Mounts) :=
  if negb (Bool.eqb (String.eqb (ad_protocol q) "nfs") (bool_decide (is_Some (ad_gss_binding q)))) || negb (mount_protocol (ad_protocol q)) then Err InvalidPersistedValue
  else
    let? s := ok_or StaleGeneration (mt_sessions m !! ad_session q) in
    if negb (session_matches q now s) then Err StaleGeneration
    else
      let? authority := ok_or StaleGeneration (session_authority m now q s) in
      let '(c, policy) := authority in
      let drives := if String.eqb (ss_protocol s) "nfs" then nfs_drives m s c policy else sort_unstable (filter (fun d => d ∈ po_allowed_drives policy) (cr_allowed_drives c)) in
      Ok (mkFence (ad_session q) (ss_user s) (ss_credential s) (ss_protocol s) (ss_credential_generation s) (ss_authorization_generation s) (ss_membership_generation s) (ss_gateway_epoch s)
            (cr_read_only c || po_read_only policy) drives,
          set_sessions (<[ad_session q := touch s now]> (mt_sessions m)) m).
End sessions.

Definition with_state (v : SessionState) (s : SessionRow) : SessionRow :=
  mkSession (ss_user s) (ss_credential s) (ss_device s) (ss_protocol s) (ss_gateway_id s) (ss_gateway_epoch s) (ss_credential_generation s) (ss_authorization_generation s)
    (ss_membership_generation s) (ss_gss_binding s) (ss_idle_expires_at s) (ss_absolute_expires_at s) v.
Definition end_mount_session (m : Mounts) (f : MountSessionFence) (reason : string) : result DatabaseError Mounts :=
  if negb (bounded_text 64 reason) then Err InvalidPersistedValue
  else
    let? s := ok_or StaleGeneration (mt_sessions m !! fn_session_id f) in
    if negb (session_open (ss_state s)) then Err StaleGeneration
    else Ok (set_sessions (<[fn_session_id f := with_state SsClosed s]> (mt_sessions m)) m).

(** ** Revocation *)

Definition revoke_credential (c : CredentialRow) : CredentialRow :=
  mkCredential (cr_principal c) (cr_protocol c) (cr_credential_generation c + 1) (cr_authorization_generation c + 1) (cr_read_only c) (cr_allowed_drives c) true (cr_expires_at c) (cr_bound_device c).
Definition revoke_sessions (p : SessionRow -> bool) (m : Mounts) : Mounts :=
  set_sessions ((fun s => if p s && session_open (ss_state s) then with_state SsRevoked s else s) <$> mt_sessions m) m.

Definition upsert_mount_policy (m : Mounts) (principal : Uuid) (protocol : string) (enabled read_only : bool) (drives : list Uuid) : result DatabaseError (PolicyRow * Mounts) :=
  if negb (mount_protocol protocol) || (256 <? len drives) then Err InvalidPersistedValue
  else
    let policy := match mt_policies m !! (principal, protocol) with
                  | None => mkPolicy enabled read_only drives 1 1
                  | Some p => mkPolicy enabled read_only drives (po_authorization_generation p + 1) (po_revision p + 1)
                  end in
    let revoke c := if N.eqb (cr_principal c) principal && String.eqb (cr_protocol c) protocol && negb (cr_revoked c) then revoke_credential c else c in
    let m := set_credentials (revoke <$> mt_credentials m) (set_policies (<[(principal, protocol) := policy]> (mt_policies m)) m) in
    Ok (policy, revoke_sessions (fun s => N.eqb (ss_user s) principal && String.eqb (ss_protocol s) protocol) m).

Definition revoke_mount_credential (m : Mounts) (principal credential : Uuid) (reason : string) : result DatabaseError Mounts :=
  if negb (bounded_text 128 reason) then Err InvalidPersistedValue
  else
    let? c := ok_or NotFound (mt_credentials m !! credential) in
    if negb (N.eqb (cr_principal c) principal) || cr_revoked c then Err NotFound
    else Ok (revoke_sessions (fun s => N.eqb (ss_credential s) credential && N.eqb (ss_user s) principal) (set_credentials (<[credential := revoke_credential c]> (mt_credentials m)) m)).

(** ** Handles *)

Definition handle_action (a : string) : bool :=
  existsb (String.eqb a) ["READ_METADATA"; "READ_CONTENT"; "WRITE_CONTENT"; "CREATE_VERSION"; "DELETE"; "MANAGE_LOCK"].
Definition has_action (a : string) (actions : list string) : bool := existsb (String.eqb a) actions.

Record OpenHandle := mkOpenHandle {
  op_drive : Uuid; op_node : Uuid; op_expected_version : option Uuid; op_actions : list string; op_share_read : bool; op_share_write : bool; op_share_delete : bool;
  op_drive_acl_generation : Z; op_namespace_generation : Z; op_resource_acl_generation : Z
}.

(** two opens of a file are in conflict: one wants what the other does not share *)
Definition share_conflict (a1 a2 : list string) (r1 w1 d1 r2 w2 d2 : bool) : bool :=
  (has_action "READ_CONTENT" a1 && negb r2) || (has_action "READ_CONTENT" a2 && negb r1)
  || (has_action "WRITE_CONTENT" a1 && negb w2) || (has_action "WRITE_CONTENT" a2 && negb w1)
  || (has_action "DELETE" a1 && negb d2) || (has_action "DELETE" a2 && negb d1).
Definition handle_live (now : Z) (h : HandleRow) : bool := negb (hd_closed h) && (now <? hd_expires_at h).
Definition open_conflicts (now : Z) (q : OpenHandle) (h : HandleRow) : bool :=
  N.eqb (hd_drive h) (op_drive q) && N.eqb (hd_node h) (op_node q) && handle_live now h
  && share_conflict (op_actions q) (hd_actions h) (op_share_read q) (op_share_write q) (op_share_delete q) (hd_share_read h) (hd_share_write h) (hd_share_delete h).

(** what the transaction of [open_mount_handle] decides before it inserts *)
Definition open_check (m : Mounts) (now : Z) (q : OpenHandle) : result DatabaseError (option Uuid) :=
  if bool_decide (op_actions q = []) || (19 <? len (op_actions q)) || negb (forallb handle_action (op_actions q)) then Err InvalidPersistedValue
  else
    let? drive_acl := ok_or NotFound (mt_drives m !! op_drive q) in
    let? n := ok_or NotFound (mt_nodes m !! (op_drive q, op_node q)) in
    if negb (String.eqb (mn_kind n) "file") || mn_trashed n then Err NotFound
    else if (bool_decide (mn_head n = None) && negb (has_action "WRITE_CONTENT" (op_actions q)))
            || match op_expected_version q with Some v => negb (bool_decide (mn_head n = Some v)) | None => false end
            || negb (drive_acl =? op_drive_acl_generation q) || negb (mn_namespace_generation n =? op_namespace_generation q) || negb (mn_acl_generation n =? op_resource_acl_generation q)
    then Err StaleGeneration
    else if existsb (fun ih => open_conflicts now q ih.2) (map_to_list (mt_handles m)) then Err Conflict
    else Ok (mn_head n).

Definition open_row (now : Z) (f : MountSessionFence) (q : OpenHandle) (version : option Uuid) : HandleRow :=
  mkHandle (fn_session_id f) (op_drive q) (op_node q) version (op_actions q) (op_share_read q) (op_share_write q) (op_share_delete q) (fn_credential_generation f) (fn_authorization_generation f)
    (fn_membership_generation f) (op_drive_acl_generation q) (op_namespace_generation q) (op_resource_acl_generation q) (fn_gateway_epoch f) (now + minutes 15) false.
Definition insert_handle (m : Mounts) (id : Uuid) (row : HandleRow) : result DatabaseError Mounts :=
  if bool_decide (is_Some (mt_handles m !! id)) then Err Conflict
  else if bool_decide (mt_sessions m !! hd_session row = None) then Err Sql
  else Ok (set_handles (<[id := row]> (mt_handles m)) m).

(** An open that nothing comes between; the histories of mounted drives take its check and its
    insertion apart, because its locks keep neither other opens nor other handles out. *)
Definition open_mount_handle (m : Mounts) (now : Z) (f : MountSessionFence) (q : OpenHandle) (id : Uuid) : result DatabaseError (MountHandleRecord * Mounts) :=
  let? version := open_check m now q in
  let row := open_row now f q version in
  let? m' := insert_handle m id row in
  Ok (mkHandleRecord id row, m').

(** the clauses that [admit_mount_handle] and [admit_mount_read_capability] share *)
Definition handle_session (m : Mounts) (now : Z) (h : HandleRow) (s : SessionRow) : bool :=
  bool_decide (ss_state s = SsActive) && (ss_credential_generation s =? hd_credential_generation h) && (ss_authorization_generation s =? hd_authorization_generation h)
  && (ss_membership_generation s =? hd_membership_generation h) && (ss_gateway_epoch s =? hd_gateway_epoch h) && (now <? ss_idle_expires_at s) && (now <? ss_absolute_expires_at s)
  && gateway_exists (serves now (ss_protocol s) (ss_gateway_id s) (hd_gateway_epoch h)) m.
Definition handle_generations (m : Mounts) (now : Z) (h : HandleRow) (s : SessionRow) : option (CredentialRow * PolicyRow) :=
  c ← mt_credentials m !! ss_credential s;
  p ← mt_principals m !! ss_user s;
  policy ← mt_policies m !! (ss_user s, ss_protocol s);
  drive_acl ← mt_drives m !! hd_drive h;
  n ← mt_nodes m !! (hd_drive h, hd_node h);
  if negb (cr_revoked c) && (now <? cr_expires_at c) && (cr_credential_generation c =? hd_credential_generation h) && (cr_authorization_generation c =? hd_authorization_generation h)
     && negb (pr_disabled p) && (pr_generation p =? hd_membership_generation h) && (drive_acl =? hd_drive_acl_generation h) && (mn_namespace_generation n =? hd_namespace_generation h)
     && (mn_acl_generation n =? hd_resource_acl_generation h) && po_enabled policy
  then Some (c, policy) else None.

Definition renew_handle (now : Z) (h : HandleRow) : HandleRow :=
  mkHandle (hd_session h) (hd_drive h) (hd_node h) (hd_version h) (hd_actions h) (hd_share_read h) (hd_share_write h) (hd_share_delete h) (hd_credential_generation h) (hd_authorization_generation h)
    (hd_membership_generation h) (hd_drive_acl_generation h) (hd_namespace_generation h) (hd_resource_acl_generation h) (hd_gateway_epoch h) (now + minutes 15) (hd_closed h).

Definition admit_mount_handle (m : Mounts) (now : Z) (f : MountSessionFence) (id : Uuid) (required_action : string) : result DatabaseError (MountHandleRecord * Mounts) :=
  if negb (handle_action required_action) then Err InvalidPersistedValue
  else
    let? h := ok_or StaleGeneration (mt_handles m !! id) in
    if negb (N.eqb (hd_session h) (fn_session_id f) && handle_live now h && has_action required_action (hd_actions h)
             && (hd_credential_generation h =? fn_credential_generation f) && (hd_authorization_generation h =? fn_authorization_generation f)
             && (hd_membership_generation h =? fn_membership_generation f) && (hd_gateway_epoch h =? fn_gateway_epoch f)) then Err StaleGeneration
    else
      let? s := ok_or StaleGeneration (mt_sessions m !! hd_session h) in
      if negb (handle_session m now h s) then Err StaleGeneration
      else
        let? _ := ok_or StaleGeneration (handle_generations m now h s) in
        let h := renew_handle now h in
        Ok (mkHandleRecord id h, set_handles (<[id := h]> (mt_handles m)) m).

Record MountReadCapabilityFence := mkReadFence {
  rc_principal : Uuid; rc_session : Uuid; rc_credential : Uuid; rc_handle : Uuid; rc_drive : Uuid; rc_node : Uuid; rc_version : Uuid; rc_credential_generation : Z; rc_authorization_generation : Z;
  rc_membership_generation : Z; rc_drive_acl_generation : Z; rc_namespace_generation : Z; rc_resource_acl_generation : Z; rc_gateway_epoch : Z
}.
Definition admit_mount_read_capability (m : Mounts) (now : Z) (r : MountReadCapabilityFence) : result DatabaseError MountHandleRecord :=
  let? h := ok_or StaleGeneration (mt_handles m !! rc_handle r) in
  let? s := ok_or StaleGeneration (mt_sessions m !! hd_session h) in
  if negb (N.eqb (hd_session h) (rc_session r) && N.eqb (ss_credential s) (rc_credential r) && N.eqb (ss_user s) (rc_principal r) && N.eqb (hd_drive h) (rc_drive r) && N.eqb (hd_node h) (rc_node r)
           && bool_decide (hd_version h = Some (rc_version r)) && handle_live now h && has_action "READ_CONTENT" (hd_actions h)
           && (hd_credential_generation h =? rc_credential_generation r) && (hd_authorization_generation h =? rc_authorization_generation r) && (hd_membership_generation h =? rc_membership_generation r)
           && (hd_drive_acl_generation h =? rc_drive_acl_generation r) && (hd_namespace_generation h =? rc_namespace_generation r) && (hd_resource_acl_generation h =? rc_resource_acl_generation r)
           && (hd_gateway_epoch h =? rc_gateway_epoch r)) then Err StaleGeneration
  else if negb (handle_session m now h s) then Err StaleGeneration
  else
    let? cp := ok_or StaleGeneration (handle_generations m now h s) in
    if negb (bool_decide (hd_drive h ∈ cr_allowed_drives cp.1) && device_fresh m now (ss_user s) cp.1 && bool_decide (hd_drive h ∈ po_allowed_drives cp.2)) then Err StaleGeneration
    else Ok (mkHandleRecord (rc_handle r) h).

Definition close_handle_row (h : HandleRow) : HandleRow :=
  mkHandle (hd_session h) (hd_drive h) (hd_node h) (hd_version h) (hd_actions h) (hd_share_read h) (hd_share_write h) (hd_share_delete h) (hd_credential_generation h) (hd_authorization_generation h)
    (hd_membership_generation h) (hd_drive_acl_generation h) (hd_namespace_generation h) (hd_resource_acl_generation h) (hd_gateway_epoch h) (hd_expires_at h) true.
Definition release_row (l : LockRow) : LockRow :=
  mkLock (lk_handle l) (lk_drive l) (lk_node l) (lk_owner_key l) (lk_offset l) (lk_length l) (lk_exclusive l) (lk_gateway_epoch l) (lk_expires_at l) true.
Definition close_mount_handle (m : Mounts) (f : MountSessionFence) (id : Uuid) : result DatabaseError Mounts :=
  let? h := ok_or StaleGeneration (mt_handles m !! id) in
  if negb (N.eqb (hd_session h) (fn_session_id f)) || hd_closed h then Err StaleGeneration
  else Ok (set_locks ((fun l => if N.eqb (lk_handle l) id then release_row l else l) <$> mt_locks m) (set_handles (<[id := close_handle_row h]> (mt_handles m)) m)).

(** ** Byte-range locks *)

Definition lock_live (now : Z) (l : LockRow) : bool := negb (lk_released l) && (now <? lk_expires_at l).
Definition lock_conflicts (now : Z) (drive node : Uuid) (offset end_ : Z) (exclusive : bool) (l : LockRow) : bool :=
  N.eqb (lk_drive l) drive && N.eqb (lk_node l) node && lock_live now l && (lk_offset l <? end_) && (offset <? lk_offset l + lk_length l) && (lk_exclusive l || exclusive).

Definition acquire_mount_byte_lock (m : Mounts) (now : Z) (f : MountSessionFence) (handle : MountHandleRecord) (owner_key : string) (offset length : Z) (exclusive : bool) (id : Uuid) :
    result DatabaseError (Uuid * Mounts) :=
  if negb (bounded_text 255 owner_key) || (length =? 0) then Err InvalidPersistedValue
  else
    let? offset := ok_or InvalidPersistedValue (i64_try_from offset) in
    let? length := ok_or InvalidPersistedValue (i64_try_from length) in
    let? end_ := ok_or InvalidPersistedValue (checked i64_min i64_max (offset + length)) in
    let h := mh_row handle in
    if bool_decide (mt_nodes m !! (hd_drive h, hd_node h) = None) then Err NotFound
    else if existsb (fun il => lock_conflicts now (hd_drive h) (hd_node h) offset end_ exclusive il.2) (map_to_list (mt_locks m)) then Err Conflict
    else if bool_decide (is_Some (mt_locks m !! id)) || bool_decide (mt_handles m !! mh_id handle = None) then Err Sql
    else Ok (id, set_locks (<[id := mkLock (mh_id handle) (hd_drive h) (hd_node h) owner_key offset length exclusive (fn_gateway_epoch f) (now + 30) false]> (mt_locks m)) m).

Definition release_mount_byte_lock (m : Mounts) (f : MountSessionFence) (handle_id lock_id : Uuid) : result DatabaseError Mounts :=
  let? l := ok_or NotFound (mt_locks m !! lock_id) in
  if negb (N.eqb (lk_handle l) handle_id) || negb (lk_gateway_epoch l =? fn_gateway_epoch f) || lk_released l then Err NotFound
  else Ok (set_locks (<[lock_id := release_row l]> (mt_locks m)) m).
