(* ===== verification/MountFacts.v ===== *)
(** Histories of mounted drives, and what holds in all of them: byte-range locks exclude each
    other, share modes are in conflict only among handles that were opened at the same time,
    and a handle that a fence has cut off stays cut off.  An open is two steps, its check
    and its insertion, between which everything else may happen. *)
From S2P Require Import Prelude Collections Libraries Net CollaborationStore MountStore.

Open Scope string_scope.
Open Scope Z_scope.
Open Scope list_scope.
Open Scope bool_scope.
Open Scope filebelt_scope.

(** ** Tables in which live rows exclude each other *)

Section exclusion.
Context {A : Type} (conflict : A -> A -> Prop) (live : Z -> A -> bool).

Definition exclusive (now : Z) (rows : gmap Uuid A) : Prop :=
  forall i j a b, i <> j -> rows !! i = Some a -> rows !! j = Some b -> conflict a b -> live now a = false \/ live now b = false.
(** a row that has the conflicts of another and lives no longer *)
Definition follows (now : Z) (a a' : A) : Prop := (forall b, conflict a' b -> conflict a b) /\ (forall b, conflict b a' -> conflict b a) /\ (live now a' = true -> live now a = true).

Lemma follows_refl now a : follows now a a.
Proof. by split_and!. Qed.
Lemma exclusive_next now rows rows' : exclusive now rows -> (forall i a', rows' !! i = Some a' -> exists a, rows !! i = Some a /\ follows now a a') -> exclusive now rows'.
Proof.
  intros Hex Hnext i j a' b' Hij Hi Hj Hc. destruct (Hnext i a' Hi) as (a & Ha & Ha1 & Ha2 & Ha3), (Hnext j b' Hj) as (b & Hb & Hb1 & Hb2 & Hb3).
  destruct (Hex i j a b Hij Ha Hb) as [Hl|Hl]; [by apply Hb2, Ha1|left|right]; apply not_true_iff_false; intros Ht; [rewrite Ha3 in Hl by done|rewrite Hb3 in Hl by done]; done.
Qed.
Lemma exclusive_replace now rows i a a' : exclusive now rows -> rows !! i = Some a -> follows now a a' -> exclusive now (<[i := a']> rows).
Proof.
  intros Hex Hi Hf. apply (exclusive_next now rows); [done|]. intros j b Hj. destruct (decide (i = j)) as [<- |Hne]; [rewrite lookup_insert_eq in Hj; injection Hj as <-; by exists a|].
  rewrite lookup_insert_ne in Hj by done. exists b. split; [done|apply follows_refl].
Qed.
Lemma exclusive_fmap now rows f : exclusive now rows -> (forall a, follows now a (f a)) -> exclusive now (f <$> rows).
Proof. intros Hex Hf. apply (exclusive_next now rows); [done|]. intros i a' Hi. rewrite lookup_fmap in Hi. destruct (rows !! i) as [a|]; [|done]. injection Hi as <-. by exists a. Qed.
Lemma exclusive_insert now rows i a : (forall x y, conflict x y -> conflict y x) -> exclusive now rows -> rows !! i = None -> (forall j b, rows !! j = Some b -> conflict b a -> live now b = false) ->
  exclusive now (<[i := a]> rows).
Proof.
  intros Hsym Hex Hi Hnew j k x y Hjk Hj Hk Hc. destruct (decide (i = j)) as [<- |Hij].
  - rewrite lookup_insert_eq in Hj. injection Hj as <-. rewrite lookup_insert_ne in Hk by done. right. apply (Hnew k); [done|by apply Hsym].
  - rewrite lookup_insert_ne in Hj by done. destruct (decide (i = k)) as [<- |Hik]; [rewrite lookup_insert_eq in Hk; injection Hk as <-; left; by apply (Hnew j)|].
    rewrite lookup_insert_ne in Hk by done. by apply (Hex j k).
Qed.
Lemma exclusive_later now now' rows : (forall a, live now' a = true -> live now a = true) -> exclusive now rows -> exclusive now' rows.
Proof. intros Hl Hex i j a b Hij Hi Hj Hc. destruct (Hex i j a b Hij Hi Hj Hc) as [Hd|Hd]; [left|right]; apply not_true_iff_false; intros Ht%Hl; congruence. Qed.
End exclusion.

(** ** Histories *)

(** The state of the database, the time, and the fences that have been handed out. *)
Record Mounted := mkMounted { md_now : Z; md_db : Mounts; md_fences : list MountSessionFence }.

(** Other parts of the program change credentials, principals, policies, devices, drives and
    nodes: generations never go back, and no row that has a generation disappears. *)
Record moves (m m' : Mounts) : Prop := {
  mv_own : mt_gateways m' = mt_gateways m /\ mt_sessions m' = mt_sessions m /\ mt_handles m' = mt_handles m /\ mt_locks m' = mt_locks m;
  mv_credentials : forall i c, mt_credentials m !! i = Some c -> exists c', mt_credentials m' !! i = Some c'
    /\ cr_credential_generation c <= cr_credential_generation c' /\ cr_authorization_generation c <= cr_authorization_generation c';
  mv_principals : forall i p, mt_principals m !! i = Some p -> exists p', mt_principals m' !! i = Some p' /\ pr_generation p <= pr_generation p';
  mv_drives : forall i g, mt_drives m !! i = Some g -> exists g', mt_drives m' !! i = Some g' /\ g <= g';
  mv_nodes : forall i n, mt_nodes m !! i = Some n -> exists n', mt_nodes m' !! i = Some n' /\ mn_namespace_generation n <= mn_namespace_generation n' /\ mn_acl_generation n <= mn_acl_generation n'
}.

Section histories.
Context (nfs_clauses : Mounts -> Z -> SessionRow -> bool) (nfs_drives : Mounts -> SessionRow -> CredentialRow -> PolicyRow -> list Uuid).

Inductive mount_step : Mounted -> Mounted -> Prop :=
| step_time now m fs now' : now <= now' -> mount_step (mkMounted now m fs) (mkMounted now' m fs)
| step_external now m fs m' : moves m m' -> mount_step (mkMounted now m fs) (mkMounted now m' fs)
| step_claim now m fs protocol shard gateway epoch m' : claim_mount_gateway_epoch m now protocol shard gateway = Ok (epoch, m') -> mount_step (mkMounted now m fs) (mkMounted now m' fs)
| step_drain now m fs protocol shard gateway epoch reason m' : drain_mount_gateway_epoch m now protocol shard gateway epoch reason = Ok m' -> mount_step (mkMounted now m fs) (mkMounted now m' fs)
| step_create now m fs q id pid f m' : create_mount_session m now q id pid = Ok (f, m') -> mount_step (mkMounted now m fs) (mkMounted now m' (f :: fs))
| step_admit now m fs q f m' : admit_mount_session nfs_clauses nfs_drives m now q = Ok (f, m') -> mount_step (mkMounted now m fs) (mkMounted now m' (f :: fs))
| step_end now m fs f reason m' : f ∈ fs -> end_mount_session m f reason = Ok m' -> mount_step (mkMounted now m fs) (mkMounted now m' fs)
| step_policy now m fs principal protocol enabled read_only drives policy m' : upsert_mount_policy m principal protocol enabled read_only drives = Ok (policy, m') -> mount_step (mkMounted now m fs) (mkMounted now m' fs)
| step_revoke now m fs principal credential reason m' : revoke_mount_credential m principal credential reason = Ok m' -> mount_step (mkMounted now m fs) (mkMounted now m' fs)
| step_use now m fs f id action h m' : f ∈ fs -> admit_mount_handle m now f id action = Ok (h, m') -> mount_step (mkMounted now m fs) (mkMounted now m' fs)
| step_close now m fs f id m' : f ∈ fs -> close_mount_handle m f id = Ok m' -> mount_step (mkMounted now m fs) (mkMounted now m' fs)
| step_lock now m fs f h owner offset length exclusive id lock m' : f ∈ fs -> acquire_mount_byte_lock m now f h owner offset length exclusive id = Ok (lock, m') -> mount_step (mkMounted now m fs) (mkMounted now m' fs)
| step_unlock now m fs f handle lock m' : f ∈ fs -> release_mount_byte_lock m f handle lock = Ok m' -> mount_step (mkMounted now m fs) (mkMounted now m' fs).

(** An open between its check and its insertion: what it inserts, and the turn of its check. *)
Record PendingOpen := mkPending { pn_id : Uuid; pn_fence : MountSessionFence; pn_query : OpenHandle; pn_version : option Uuid; pn_checked : nat }.
Definition pending_row (now : Z) (p : PendingOpen) : HandleRow := open_row now (pn_fence p) (pn_query p) (pn_version p).

(** A database with the opens under way, the number of the turn, and, for each handle, the turns of its check and of its insertion. *)
Record Opens := mkOpens { os_world : Mounted; os_pending : list PendingOpen; os_turn : nat; os_times : gmap Uuid (nat * nat) }.

(** [open_mount_handle] locks the rows of the file and of the drive [FOR SHARE], which does not
    keep other opens out: its check and its insertion are two steps, and the insertion may have
    read the clock before it became visible.  An open may also be given up. *)
Inductive open_step : Opens -> Opens -> Prop :=
| turn_other w w' ps n ts : mount_step w w' -> open_step (mkOpens w ps n ts) (mkOpens w' ps (S n) ts)
| turn_check w ps n ts id f q version : f ∈ md_fences w -> open_check (md_db w) (md_now w) q = Ok version ->
    open_step (mkOpens w ps n ts) (mkOpens w (mkPending id f q version n :: ps) (S n) ts)
| turn_insert now at_ m fs ps ps' n ts p m' : p ∈ ps -> ps' ⊆ ps -> at_ <= now -> insert_handle m (pn_id p) (pending_row at_ p) = Ok m' ->
    open_step (mkOpens (mkMounted now m fs) ps n ts) (mkOpens (mkMounted now m' fs) ps' (S n) (<[pn_id p := (pn_checked p, n)]> ts))
| turn_abandon w ps ps' n ts : ps' ⊆ ps -> open_step (mkOpens w ps n ts) (mkOpens w ps' (S n) ts).

Definition history : Opens -> Opens -> Prop := rtc open_step.

(** a database without sessions, handles and locks *)
Definition fresh (o : Opens) : Prop :=
  let m := md_db (os_world o) in
  mt_gateways m = ∅ /\ mt_sessions m = ∅ /\ mt_handles m = ∅ /\ mt_locks m = ∅ /\ md_fences (os_world o) = [] /\ os_pending o = [].

(** Neither open of the two handles was complete when the other was checked. *)
Definition overlapped (o : Opens) (i j : Uuid) : Prop :=
  exists ci ni cj nj, os_times o !! i = Some (ci, ni) /\ os_times o !! j = Some (cj, nj) /\ (ci < nj)%nat /\ (cj < ni)%nat.

(** ** What an operation changes *)

(** how the rows of a step relate to those before it *)
Definition session_next (s s' : SessionRow) : Prop :=
  (ss_user s', ss_credential s', ss_protocol s', ss_gateway_id s', ss_gateway_epoch s') = (ss_user s, ss_credential s, ss_protocol s, ss_gateway_id s, ss_gateway_epoch s)
  /\ (ss_credential_generation s', ss_authorization_generation s', ss_membership_generation s') = (ss_credential_generation s, ss_authorization_generation s, ss_membership_generation s)
  /\ (ss_state s <> SsActive -> ss_state s' <> SsActive).
Definition handle_next (now : Z) (h h' : HandleRow) : Prop :=
  h' = h \/ h' = close_handle_row h \/ (handle_live now h = true /\ h' = renew_handle now h).
Definition lock_next (l l' : LockRow) : Prop := l' = l \/ l' = release_row l.

(** sessions, credentials, principals, drives and nodes only move on *)
Record onward (m m' : Mounts) : Prop := {
  on_sessions : forall i s, mt_sessions m !! i = Some s -> exists s', mt_sessions m' !! i = Some s' /\ session_next s s';
  on_credentials : forall i c, mt_credentials m !! i = Some c -> exists c', mt_credentials m' !! i = Some c'
    /\ cr_credential_generation c <= cr_credential_generation c' /\ cr_authorization_generation c <= cr_authorization_generation c';
  on_principals : forall i p, mt_principals m !! i = Some p -> exists p', mt_principals m' !! i = Some p' /\ pr_generation p <= pr_generation p';
  on_drives : forall i g, mt_drives m !! i = Some g -> exists g', mt_drives m' !! i = Some g' /\ g <= g';
  on_nodes : forall i n, mt_nodes m !! i = Some n -> exists n', mt_nodes m' !! i = Some n' /\ mn_namespace_generation n <= mn_namespace_generation n' /\ mn_acl_generation n <= mn_acl_generation n';
  on_gateways : forall k g, mt_gateways m !! k = Some g -> exists g', mt_gateways m' !! k = Some g' /\ gw_epoch g <= gw_epoch g' /\ (gw_epoch g = gw_epoch g' -> gw_gateway_id g' = gw_gateway_id g)
}.

Lemma session_next_refl s : session_next s s.
Proof. unfold session_next. auto. Qed.

(** an operation that touches only handles and locks *)
Lemma onward_same m m' : mt_sessions m' = mt_sessions m -> mt_credentials m' = mt_credentials m -> mt_principals m' = mt_principals m -> mt_drives m' = mt_drives m -> mt_nodes m' = mt_nodes m ->
  mt_gateways m' = mt_gateways m -> onward m m'.
Proof. intros Hs Hc Hp Hd Hn Hg. split; rewrite ?Hs, ?Hc, ?Hp, ?Hd, ?Hn, ?Hg; intros i x Hx; exists x; split_and!; try done; apply session_next_refl. Qed.
(** an operation that changes sessions in place *)
Lemma onward_sessions m f : (forall i s, mt_sessions m !! i = Some s -> exists s', f !! i = Some s' /\ session_next s s') -> onward m (set_sessions f m).
Proof. intros Hf. split; cbn; [done|..]; intros i x Hx; exists x; by split_and!. Qed.
Lemma onward_trans m1 m2 m3 : onward m1 m2 -> onward m2 m3 -> onward m1 m3.
Proof.
  intros [A1 A2 A3 A4 A5 A6] [B1 B2 B3 B4 B5 B6]. split.
  - intros i s (s' & Hs' & H1)%A1. destruct (B1 i s' Hs') as (s'' & Hs'' & H2). exists s''. split; [done|]. destruct H1 as (H11 & H12 & H13), H2 as (H21 & H22 & H23). split_and!; [congruence|congruence|auto].
  - intros i c (c' & Hc' & ? & ?)%A2. destruct (B2 i c' Hc') as (c'' & ? & ? & ?). exists c''. split_and!; [done|lia|lia].
  - intros i c (c' & Hc' & ?)%A3. destruct (B3 i c' Hc') as (c'' & ? & ?). exists c''. split_and!; [done|lia].
  - intros i c (c' & Hc' & ?)%A4. destruct (B4 i c' Hc') as (c'' & ? & ?). exists c''. split_and!; [done|lia].
  - intros i c (c' & Hc' & ? & ?)%A5. destruct (B5 i c' Hc') as (c'' & ? & ? & ?). exists c''. split_and!; [done|lia|lia].
  - intros i g (g' & Hg' & ? & Hg1)%A6. destruct (B6 i g' Hg') as (g'' & ? & ? & Hg2). exists g''. split_and!; [done|lia|]. intros He. rewrite Hg2, Hg1 by lia. done.
Qed.

Lemma insert_next {A} (P : A -> A -> Prop) (mp : gmap Uuid A) i x x' : (forall a, P a a) -> mp !! i = Some x -> P x x' -> forall j a, mp !! j = Some a -> exists a', <[i := x']> mp !! j = Some a' /\ P a a'.
Proof. intros Hr Hi Hx j a Hj. destruct (decide (i = j)) as [<- |Hne]; [rewrite lookup_insert_eq; rewrite Hi in Hj; injection Hj as <-; by eexists|rewrite lookup_insert_ne by done; by exists a]. Qed.
Lemma fmap_next {K} `{Countable K} {A} (P : A -> A -> Prop) (mp : gmap K A) f : (forall a, P a (f a)) -> forall j a, mp !! j = Some a -> exists a', (f <$> mp) !! j = Some a' /\ P a a'.
Proof. intros Hf j a Hj. exists (f a). by rewrite lookup_fmap, Hj. Qed.

Lemma with_state_next v s : v <> SsActive -> session_next s (with_state v s).
Proof. unfold session_next. auto. Qed.
Lemma revoke_sessions_onward p m : onward m (revoke_sessions p m).
Proof. apply onward_sessions, fmap_next. intros s. destruct (_ && _); [by apply with_state_next|apply session_next_refl]. Qed.

(** *** The shape of each operation *)

(** a fence names a session and has its generations *)
Definition fence_of (f : MountSessionFence) (s : SessionRow) : Prop :=
  (fn_credential_generation f, fn_authorization_generation f, fn_membership_generation f, fn_gateway_epoch f)
  = (ss_credential_generation s, ss_authorization_generation s, ss_membership_generation s, ss_gateway_epoch s).

Lemma claim_shape m now protocol shard gateway epoch m' : claim_mount_gateway_epoch m now protocol shard gateway = Ok (epoch, m') ->
  exists row, m' = set_gateways (<[(protocol, shard) := row]> (mt_gateways m)) m /\ gw_gateway_id row = gateway /\ gw_epoch row = epoch
    /\ forall old, mt_gateways m !! (protocol, shard) = Some old -> gw_epoch old <= epoch /\ (gw_epoch old = epoch -> gw_gateway_id old = gateway).
Proof.
  unfold claim_mount_gateway_epoch. destruct (_ || _ || _); [done|]. destruct (_ && _); [done|]. destruct (mt_gateways m !! (protocol, shard)) as [g|] eqn:Hg.
  - destruct (_ || _); [|done]. intros [= <- <-]. eexists. split_and!; [done|done|done|]. intros old [= <-]. destruct (negb (gw_draining g) && String.eqb (gw_gateway_id g) gateway && (now <? gw_lease_expires_at g)) eqn:Hc; [|lia].
    split; [done|]. intros _. apply andb_true_iff in Hc as [[_ ?%String.eqb_eq]%andb_true_iff _]. done.
  - intros [= <- <-]. eexists. by split_and!.
Qed.

Lemma drain_shape m now protocol shard gateway epoch reason m' : drain_mount_gateway_epoch m now protocol shard gateway epoch reason = Ok m' ->
  exists g g' f, mt_gateways m !! (protocol, shard) = Some g /\ gw_gateway_id g' = gw_gateway_id g /\ gw_epoch g' = gw_epoch g /\ (forall s, session_next s (f s))
    /\ m' = set_sessions (f <$> mt_sessions m) (set_gateways (<[(protocol, shard) := g']> (mt_gateways m)) m).
Proof.
  unfold drain_mount_gateway_epoch. destruct (_ || _ || _ || _ || _); [done|]. destruct (mt_gateways m !! (protocol, shard)) as [g|] eqn:Hg; [|done]. cbn [ok_or]. destruct (negb _) eqn:Hc; [done|]. intros [= <-].
  apply negb_false_iff in Hc. apply andb_true_iff in Hc as [[[Hid%String.eqb_eq He%Z.eqb_eq]%andb_true_iff _]%andb_true_iff _]. match goal with |- context [set_sessions (?f <$> _) (set_gateways (<[_ := ?g']> _) _)] => exists g, g', f end. split_and!; [done|done|done| |reflexivity].
  intros s. cbn beta. destruct (_ && _); [|apply session_next_refl]. unfold session_next. auto.
Qed.

Lemma create_shape m now q id pid f m' : create_mount_session m now q id pid = Ok (f, m') ->
  exists row c p, mt_sessions m !! id = None /\ mt_principals m !! pid = None /\ mt_credentials m !! ss_credential row = Some c /\ mt_principals m !! ss_user row = Some p
    /\ ss_credential_generation row = cr_credential_generation c /\ ss_authorization_generation row = cr_authorization_generation c /\ ss_membership_generation row = pr_generation p
    /\ fn_session_id f = id /\ fence_of f row
    /\ (exists k g, mt_gateways m !! k = Some g /\ serves now (ss_protocol row) (ss_gateway_id row) (ss_gateway_epoch row) k g = true)
    /\ m' = set_sessions (<[id := row]> (mt_sessions m)) (set_principals (<[pid := mkPrincipal 1 false false]> (mt_principals m)) m).
Proof.
  unfold create_mount_session. destruct (_ || _ || _ || _); [done|]. destruct (usable_credential m now q) as [[c p]|] eqn:Hu; [|done]. cbn [ok_or]. destruct (gateway_exists _ m) eqn:Hgw; [|done]. cbn [negb].
  case_bool_decide as Hp; [done|]. destruct (match cs_device q with Some d => _ | None => _ end); [done|]. case_bool_decide as Hs; [done|]. intros [= <- <-].
  unfold usable_credential in Hu. destruct (mt_credentials m !! cs_credential q) as [c'|] eqn:Hc; [|done]. cbn in Hu. destruct (mt_principals m !! cr_principal c') as [p'|] eqn:Hpr; [|done]. cbn in Hu.
  destruct (mt_policies m !! _); [|done]. cbn in Hu. destruct (_ && _); [|done]. injection Hu as <- <-.
  match goal with |- context [set_sessions (<[_ := ?row]> _) _] => exists row, c', p' end. split_and!; [by apply eq_None_not_Some|by apply eq_None_not_Some|done..| |done].
  apply existsb_exists in Hgw as ([k g] & Hin%list_elem_of_In & Hk). apply elem_of_map_to_list in Hin. by exists k, g.
Qed.

Lemma admit_shape m now q f m' : admit_mount_session nfs_clauses nfs_drives m now q = Ok (f, m') ->
  exists s, mt_sessions m !! ad_session q = Some s /\ fn_session_id f = ad_session q /\ fence_of f s /\ m' = set_sessions (<[ad_session q := touch s now]> (mt_sessions m)) m.
Proof.
  unfold admit_mount_session. destruct (_ || _); [done|]. destruct (mt_sessions m !! ad_session q) as [s|] eqn:Hs; [|done]. cbn [ok_or]. destruct (negb _); [done|].
  destruct (session_authority _ m now q s) as [[c policy]|]; [|done]. cbn [ok_or]. intros [= <- <-]. by exists s.
Qed.

Lemma end_shape m f reason m' : end_mount_session m f reason = Ok m' -> exists s, mt_sessions m !! fn_session_id f = Some s /\ m' = set_sessions (<[fn_session_id f := with_state SsClosed s]> (mt_sessions m)) m.
Proof. unfold end_mount_session. destruct (negb _); [done|]. destruct (mt_sessions m !! _) as [s|]; [|done]. cbn [ok_or]. destruct (negb _); [done|]. intros [= <-]. by exists s. Qed.

Lemma insert_shape m id row m' : insert_handle m id row = Ok m' ->
  mt_handles m !! id = None /\ is_Some (mt_sessions m !! hd_session row) /\ m' = set_handles (<[id := row]> (mt_handles m)) m.
Proof.
  unfold insert_handle. case_bool_decide as Hh; [done|]. case_bool_decide as Hs; [done|]. intros [= <-].
  split_and!; [by apply eq_None_not_Some|by apply not_eq_None_Some|done].
Qed.

Lemma use_shape m now f id action h m' : admit_mount_handle m now f id action = Ok (h, m') ->
  exists row s, mt_handles m !! id = Some row /\ handle_live now row = true /\ mt_sessions m !! hd_session row = Some s /\ handle_session m now row s = true /\ is_Some (handle_generations m now row s)
    /\ m' = set_handles (<[id := renew_handle now row]> (mt_handles m)) m.
Proof.
  unfold admit_mount_handle. destruct (negb _); [done|]. destruct (mt_handles m !! id) as [row|]; [|done]. cbn [ok_or]. destruct (negb _) eqn:Hc; [done|]. apply negb_false_iff in Hc.
  destruct (mt_sessions m !! hd_session row) as [s|] eqn:Hs; [|done]. cbn [ok_or]. destruct (handle_session m now row s) eqn:Hss; [|done]. cbn [negb]. destruct (handle_generations m now row s) eqn:Hg; [|done]. cbn [ok_or].
  intros [= <- <-]. exists row, s. rewrite !andb_true_iff in Hc. split_and!; [done|naive_solver|done|done|by eexists|done].
Qed.

Lemma close_shape m f id m' : close_mount_handle m f id = Ok m' ->
  exists row g, mt_handles m !! id = Some row /\ (forall l, lock_next l (g l)) /\ m' = set_locks (g <$> mt_locks m) (set_handles (<[id := close_handle_row row]> (mt_handles m)) m).
Proof.
  unfold close_mount_handle. destruct (mt_handles m !! id) as [row|]; [|done]. cbn [ok_or]. destruct (_ || _); [done|]. intros [= <-]. match goal with |- context [set_locks (?g <$> _) _] => exists row, g end. split_and!; [done| |reflexivity].
  intros l. cbn beta. destruct (N.eqb _ _); [by right|by left].
Qed.

(** two locks that must not both be live *)
Definition locks_conflict (a b : LockRow) : Prop :=
  lk_drive a = lk_drive b /\ lk_node a = lk_node b /\ lk_offset a < lk_offset b + lk_length b /\ lk_offset b < lk_offset a + lk_length a /\ (lk_exclusive a = true \/ lk_exclusive b = true).

Lemma lock_shape m now f h owner offset length exclusive id lock m' : acquire_mount_byte_lock m now f h owner offset length exclusive id = Ok (lock, m') ->
  exists row, mt_locks m !! id = None /\ m' = set_locks (<[id := row]> (mt_locks m)) m /\ forall j l, mt_locks m !! j = Some l -> locks_conflict l row -> lock_live now l = false.
Proof.
  unfold acquire_mount_byte_lock. destruct (_ || _); [done|]. destruct (i64_try_from offset) as [o|]; [|done]. cbn [ok_or]. destruct (i64_try_from length) as [n|]; [|done]. cbn [ok_or].
  destruct (checked _ _ _) as [e|] eqn:He; [|done]. apply checked_Some in He as [<- _]. cbn [ok_or]. case_bool_decide; [done|]. destruct (existsb _ _) eqn:Hx; [done|]. destruct (_ || _) eqn:Hid; [done|]. intros [= <- <-].
  apply orb_false_iff in Hid as [Hid%bool_decide_eq_false _]. match goal with |- context [set_locks (<[_ := ?row]> _) _] => exists row end. split_and!; [by apply eq_None_not_Some|reflexivity|]. intros j l Hj (Hd & Hn & H1 & H2 & Hex). cbn in *.
  destruct (lock_live now l) eqn:Hl; [|done]. exfalso. apply not_true_iff_false in Hx. apply Hx, existsb_exists. exists (j, l). split; [by apply list_elem_of_In, elem_of_map_to_list|].
  unfold lock_conflicts. cbn. rewrite Hd, Hn, !N.eqb_refl, Hl. cbn [andb]. rewrite (proj2 (Z.ltb_lt _ _)), (proj2 (Z.ltb_lt _ _)) by lia. by destruct Hex as [-> | ->]; rewrite ?orb_true_r.
Qed.

(** two handles that must not both be live *)
Definition handles_conflict (a b : HandleRow) : Prop :=
  hd_drive a = hd_drive b /\ hd_node a = hd_node b
  /\ share_conflict (hd_actions a) (hd_actions b) (hd_share_read a) (hd_share_write a) (hd_share_delete a) (hd_share_read b) (hd_share_write b) (hd_share_delete b) = true.

Lemma open_check_excludes m now q version : open_check m now q = Ok version ->
  (exists drive_acl n, mt_drives m !! op_drive q = Some drive_acl /\ mt_nodes m !! (op_drive q, op_node q) = Some n
     /\ op_drive_acl_generation q = drive_acl /\ op_namespace_generation q = mn_namespace_generation n /\ op_resource_acl_generation q = mn_acl_generation n)
  /\ forall j h f, mt_handles m !! j = Some h -> handles_conflict h (open_row now f q version) -> handle_live now h = false.
Proof.
  unfold open_check. destruct (_ || _ || _); [done|]. destruct (mt_drives m !! op_drive q) as [drive_acl|]; [|done]. cbn [ok_or]. destruct (mt_nodes m !! _) as [n|]; [|done]. cbn [ok_or]. destruct (_ || _); [done|].
  destruct (_ || _ || _ || _ || _) eqn:Hg; [done|]. destruct (existsb _ _) eqn:Hx; [done|]. intros _. split.
  - apply orb_false_iff in Hg as [[[_ Hd%negb_false_iff]%orb_false_iff Hn%negb_false_iff]%orb_false_iff Ha%negb_false_iff]. apply Z.eqb_eq in Hd, Hn, Ha. by exists drive_acl, n.
  - intros j h f Hj (Hd & Hn & Hc). cbn in *. destruct (handle_live now h) eqn:Hl; [|done]. exfalso. apply not_true_iff_false in Hx. apply Hx, existsb_exists. exists (j, h).
    split; [by apply list_elem_of_In, elem_of_map_to_list|]. unfold open_conflicts. cbn. rewrite Hd, Hn, !N.eqb_refl, Hl. cbn [andb]. unfold share_conflict in *. rewrite !orb_true_iff in *. naive_solver.
Qed.

Lemma unlock_shape m f handle lock m' : release_mount_byte_lock m f handle lock = Ok m' -> exists l, mt_locks m !! lock = Some l /\ m' = set_locks (<[lock := release_row l]> (mt_locks m)) m.
Proof. unfold release_mount_byte_lock. destruct (mt_locks m !! lock) as [l|]; [|done]. cbn [ok_or]. destruct (_ || _ || _); [done|]. intros [= <-]. by exists l. Qed.

(** ** Everything moves on *)

Lemma step_onward w w' : mount_step w w' -> onward (md_db w) (md_db w') /\ md_now w <= md_now w'.
Proof.
  assert (forall m, onward m m) as Hrefl by (intros m; by apply onward_same).
  destruct 1 as [now m fs now' Ht|now m fs m' Hm|now m fs protocol shard gateway epoch m' Hop|now m fs protocol shard gateway epoch reason m' Hop|now m fs q id pid f m' Hop|now m fs q f m' Hop|now m fs f reason m' Hf Hop
    |now m fs principal protocol enabled read_only drives policy m' Hop|now m fs principal credential reason m' Hop|now m fs f id action h m' Hf Hop|now m fs f id m' Hf Hop
    |now m fs f h owner offset length exclusive id lock m' Hf Hop|now m fs f handle lock m' Hf Hop]; cbn [md_db md_now]; (split; [|lia]); [done|..].
  - destruct Hm as [(Hg & Hs & _) Hc Hp Hd Hn]. split; [rewrite Hs; intros i s Hi; exists s; split; [done|apply session_next_refl]|done..|rewrite Hg; intros k g Hk; by exists g].
  - apply claim_shape in Hop as (row & -> & Hid & He & Hold). split; cbn; [by apply on_sessions|by apply on_credentials|by apply on_principals|by apply on_drives|by apply on_nodes|].
    intros k g Hk. destruct (decide ((protocol, shard) = k)) as [<- |Hne]; [rewrite lookup_insert_eq; exists row; destruct (Hold g Hk) as [Hle Hsame]; split_and!; [done|lia|]; intros Heq; rewrite Hsame; congruence|].
    rewrite lookup_insert_ne by done. by exists g.
  - apply drain_shape in Hop as (g & g' & f & Hg & Hid & He & Hf & ->). eapply onward_trans; [|apply onward_sessions; by apply fmap_next]. split; cbn; [by apply on_sessions|by apply on_credentials|by apply on_principals|by apply on_drives|by apply on_nodes|].
    intros k x Hk. destruct (decide ((protocol, shard) = k)) as [<- |Hne]; [rewrite lookup_insert_eq; exists g'; rewrite Hg in Hk; injection Hk as <-; split_and!; [done|lia|done]|]. rewrite lookup_insert_ne by done. by exists x.
  - apply create_shape in Hop as (row & c & p & Hid & Hpid & _ & _ & _ & _ & _ & _ & _ & _ & ->). split; cbn; [| | |by apply on_drives|by apply on_nodes|by apply on_gateways]; [|by apply on_credentials|].
    + intros i s Hi. rewrite lookup_insert_ne by congruence. exists s. split; [done|apply session_next_refl].
    + intros i x Hi. rewrite lookup_insert_ne by congruence. by exists x.
  - apply admit_shape in Hop as (s & Hs & _ & _ & ->). apply onward_sessions. eapply insert_next; [apply session_next_refl|done|]. unfold session_next. auto.
  - apply end_shape in Hop as (s & Hs & ->). apply onward_sessions. eapply insert_next; [apply session_next_refl|done|by apply with_state_next].
  - unfold upsert_mount_policy in Hop. destruct (_ || _); [done|]. injection Hop as _ <-. eapply onward_trans; [|apply revoke_sessions_onward]. split; cbn; [by apply on_sessions| |by apply on_principals|by apply on_drives|by apply on_nodes|by apply on_gateways].
    apply fmap_next. intros c. destruct (_ && _); cbn; lia.
  - unfold revoke_mount_credential in Hop. destruct (negb _); [done|]. destruct (mt_credentials m !! credential) as [c|] eqn:Hc; [|done]. cbn [ok_or] in Hop. destruct (_ || _); [done|]. injection Hop as <-.
    eapply onward_trans; [|apply revoke_sessions_onward]. split; cbn; [by apply on_sessions| |by apply on_principals|by apply on_drives|by apply on_nodes|by apply on_gateways].
    apply (insert_next (fun c c' => cr_credential_generation c <= cr_credential_generation c' /\ cr_authorization_generation c <= cr_authorization_generation c') _ _ c); [lia|done|cbn; lia].
  - apply use_shape in Hop as (row & s & _ & _ & _ & _ & _ & ->). by apply onward_same.
  - apply close_shape in Hop as (row & g & _ & _ & ->). by apply onward_same.
  - apply lock_shape in Hop as (row & _ & -> & _). by apply onward_same.
  - apply unlock_shape in Hop as (l & _ & ->). by apply onward_same.
Qed.

(** ** What becomes of handles, locks and fences *)

Inductive handles_step (now : Z) (m : Mounts) : gmap Uuid HandleRow -> Prop :=
| handles_same : handles_step now m (mt_handles m)
| handles_changed id h h' : mt_handles m !! id = Some h -> handle_next now h h' -> handles_step now m (<[id := h']> (mt_handles m)).
Inductive locks_step (now : Z) (m : Mounts) : gmap Uuid LockRow -> Prop :=
| locks_changed f : (forall l, lock_next l (f l)) -> locks_step now m (f <$> mt_locks m)
| locks_one id l : mt_locks m !! id = Some l -> locks_step now m (<[id := release_row l]> (mt_locks m))
| locks_acquired id l : mt_locks m !! id = None -> (forall j l', mt_locks m !! j = Some l' -> locks_conflict l' l -> lock_live now l' = false) -> locks_step now m (<[id := l]> (mt_locks m)).
Inductive fences_step (m : Mounts) (fs : list MountSessionFence) : list MountSessionFence -> Prop :=
| fences_same : fences_step m fs fs
| fences_new f s : mt_sessions m !! fn_session_id f = Some s -> fence_of f s -> fences_step m fs (f :: fs).

Lemma locks_same now m : locks_step now m (mt_locks m).
Proof. rewrite <-(map_fmap_id (mt_locks m)). apply locks_changed. by left. Qed.

Lemma step_tables w w' : mount_step w w' ->
  handles_step (md_now w) (md_db w) (mt_handles (md_db w')) /\ locks_step (md_now w) (md_db w) (mt_locks (md_db w')) /\ fences_step (md_db w') (md_fences w) (md_fences w').
Proof.
  assert (forall now m, handles_step now m (mt_handles m)) as Hhs by constructor. assert (forall m fs, fences_step m fs fs) as Hfs by constructor.
  destruct 1 as [now m fs now' Ht|now m fs m' Hm|now m fs protocol shard gateway epoch m' Hop|now m fs protocol shard gateway epoch reason m' Hop|now m fs q id pid f m' Hop|now m fs q f m' Hop|now m fs f reason m' Hf Hop
    |now m fs principal protocol enabled read_only drives policy m' Hop|now m fs principal credential reason m' Hop|now m fs f id action h m' Hf Hop|now m fs f id m' Hf Hop
    |now m fs f h owner offset length exclusive id lock m' Hf Hop|now m fs f handle lock m' Hf Hop]; cbn [md_db md_now md_fences].
  - split_and!; [exact (Hhs now m)|exact (locks_same now m)|apply Hfs].
  - destruct Hm as [(Hg & Hs & Hh & Hl) _ _ _ _]. rewrite Hh, Hl. split_and!; [exact (Hhs now m)|exact (locks_same now m)|apply Hfs].
  - apply claim_shape in Hop as (row & -> & _). split_and!; [exact (Hhs now m)|exact (locks_same now m)|apply Hfs].
  - apply drain_shape in Hop as (g & g1 & f & _ & _ & _ & _ & ->). split_and!; [exact (Hhs now m)|exact (locks_same now m)|apply Hfs].
  - apply create_shape in Hop as (row & c & p & _ & _ & _ & _ & _ & _ & _ & Hid & Hfence & _ & ->). split_and!; [exact (Hhs now m)|exact (locks_same now m)|]. apply (fences_new _ _ f row); [cbn; by rewrite Hid, lookup_insert_eq|done].
  - apply admit_shape in Hop as (s & Hs & Hid & Hfence & ->). split_and!; [exact (Hhs now m)|exact (locks_same now m)|]. apply (fences_new _ _ f (touch s now)); [cbn; by rewrite Hid, lookup_insert_eq|done].
  - apply end_shape in Hop as (s & _ & ->). split_and!; [exact (Hhs now m)|exact (locks_same now m)|apply Hfs].
  - unfold upsert_mount_policy in Hop. destruct (_ || _); [done|]. injection Hop as _ <-. split_and!; [exact (Hhs now m)|exact (locks_same now m)|apply Hfs].
  - unfold revoke_mount_credential in Hop. destruct (negb _); [done|]. destruct (mt_credentials m !! credential) as [c|]; [|done]. cbn [ok_or] in Hop. destruct (_ || _); [done|]. injection Hop as <-. split_and!; [exact (Hhs now m)|exact (locks_same now m)|apply Hfs].
  - apply use_shape in Hop as (row & s & Hrow & Hlive & _ & _ & _ & ->). split_and!; [eapply handles_changed; [done|]; right; by right|exact (locks_same now m)|apply Hfs].
  - apply close_shape in Hop as (row & g & Hrow & Hg & ->). split_and!; [eapply handles_changed; [done|]; right; by left|by constructor|apply Hfs].
  - apply lock_shape in Hop as (row & Hid & -> & Hex). split_and!; [exact (Hhs now m)|by constructor|apply Hfs].
  - apply unlock_shape in Hop as (l & Hl & ->). split_and!; [exact (Hhs now m)|by constructor|apply Hfs].
Qed.

(** ** The invariant *)

(** generations are those of rows that exist, and not ahead of them *)
Definition session_known (m : Mounts) (s : SessionRow) : Prop :=
  (exists c, mt_credentials m !! ss_credential s = Some c /\ ss_credential_generation s <= cr_credential_generation c /\ ss_authorization_generation s <= cr_authorization_generation c)
  /\ (exists p, mt_principals m !! ss_user s = Some p /\ ss_membership_generation s <= pr_generation p).
Definition row_known (m : Mounts) (h : HandleRow) : Prop :=
  (exists s, mt_sessions m !! hd_session h = Some s
     /\ (hd_credential_generation h, hd_authorization_generation h, hd_membership_generation h, hd_gateway_epoch h)
        = (ss_credential_generation s, ss_authorization_generation s, ss_membership_generation s, ss_gateway_epoch s))
  /\ (exists g, mt_drives m !! hd_drive h = Some g /\ hd_drive_acl_generation h <= g)
  /\ (exists n, mt_nodes m !! (hd_drive h, hd_node h) = Some n /\ hd_namespace_generation h <= mn_namespace_generation n /\ hd_resource_acl_generation h <= mn_acl_generation n).

(** what does not depend on the opens *)
Record world_good (w : Mounted) : Prop := {
  gd_locks : exclusive locks_conflict lock_live (md_now w) (mt_locks (md_db w));
  gd_sessions : forall i s, mt_sessions (md_db w) !! i = Some s -> session_known (md_db w) s;
  gd_fences : forall f, f ∈ md_fences w -> exists s, mt_sessions (md_db w) !! fn_session_id f = Some s /\ fence_of f s;
  gd_rows : forall i h, mt_handles (md_db w) !! i = Some h -> row_known (md_db w) h
}.

Record good (o : Opens) : Prop := {
  gd_world : world_good (os_world o);
  gd_times : forall i h, mt_handles (md_db (os_world o)) !! i = Some h -> exists c n, os_times o !! i = Some (c, n) /\ (c < n)%nat /\ (n < os_turn o)%nat;
  gd_handles : forall i j a b, i <> j -> mt_handles (md_db (os_world o)) !! i = Some a -> mt_handles (md_db (os_world o)) !! j = Some b -> handles_conflict a b ->
    handle_live (md_now (os_world o)) a = true -> handle_live (md_now (os_world o)) b = true -> overlapped o i j;
  (** an open under way was checked against every handle that was there *)
  gd_pending : forall p, p ∈ os_pending o -> (pn_checked p < os_turn o)%nat /\ row_known (md_db (os_world o)) (pending_row 0 p)
    /\ forall j h c n, mt_handles (md_db (os_world o)) !! j = Some h -> os_times o !! j = Some (c, n) -> (n <= pn_checked p)%nat -> handles_conflict h (pending_row 0 p) ->
         handle_live (md_now (os_world o)) h = false
}.

(** a session after a step is one from before, or new and up to date *)
Lemma step_sessions w w' i s' : mount_step w w' -> mt_sessions (md_db w') !! i = Some s' ->
  (exists s, mt_sessions (md_db w) !! i = Some s /\ session_next s s')
  \/ (exists c p, mt_credentials (md_db w') !! ss_credential s' = Some c /\ mt_principals (md_db w') !! ss_user s' = Some p
       /\ ss_credential_generation s' = cr_credential_generation c /\ ss_authorization_generation s' = cr_authorization_generation c /\ ss_membership_generation s' = pr_generation p).
Proof.
  assert (forall (m : Mounts) s', mt_sessions m !! i = Some s' -> exists s, mt_sessions m !! i = Some s /\ session_next s s') as Hsame by (intros m x Hx; exists x; split; [done|apply session_next_refl]).
  assert (forall (m : Mounts) k s1 s2 s', mt_sessions m !! k = Some s1 -> session_next s1 s2 -> <[k := s2]> (mt_sessions m) !! i = Some s' -> exists s, mt_sessions m !! i = Some s /\ session_next s s') as Hput.
  { intros m k s1 s2 x Hk Hn Hx. destruct (decide (k = i)) as [<- |Hne]; [rewrite lookup_insert_eq in Hx; injection Hx as <-; by exists s1|rewrite lookup_insert_ne in Hx by done; by apply Hsame]. }
  assert (forall (m : Mounts) f s', (forall s, session_next s (f s)) -> (f <$> mt_sessions m) !! i = Some s' -> exists s, mt_sessions m !! i = Some s /\ session_next s s') as Hmap.
  { intros m f x Hf Hx. rewrite lookup_fmap in Hx. destruct (mt_sessions m !! i) as [s|]; [|done]. injection Hx as <-. by exists s. }
  assert (forall p s, session_next s (if p s && session_open (ss_state s) then with_state SsRevoked s else s)) as Hrv by (intros p s; destruct (_ && _); [by apply with_state_next|apply session_next_refl]).
  destruct 1 as [now m fs now' Ht|now m fs m' Hm|now m fs protocol shard gateway epoch m' Hop|now m fs protocol shard gateway epoch reason m' Hop|now m fs q id pid f m' Hop|now m fs q f m' Hop|now m fs f reason m' Hf Hop
    |now m fs principal protocol enabled read_only drives policy m' Hop|now m fs principal credential reason m' Hop|now m fs f id action h m' Hf Hop|now m fs f id m' Hf Hop
    |now m fs f h owner offset length exclusive id lock m' Hf Hop|now m fs f handle lock m' Hf Hop]; cbn [md_db]; intros Hs.
  - left. by apply Hsame.
  - left. destruct Hm as [(_ & Heq & _) _ _ _ _]. rewrite Heq in Hs. by apply Hsame.
  - apply claim_shape in Hop as (row & -> & _). left. by apply Hsame.
  - apply drain_shape in Hop as (g & g1 & f & _ & _ & _ & Hf & ->). left. by apply (Hmap m f).
  - apply create_shape in Hop as (row & c & p & Hid & Hpid & Hc & Hp & H1 & H2 & H3 & _ & _ & Hserves & ->). cbn in Hs |- *. destruct (decide (id = i)) as [<- |Hne].
    + rewrite lookup_insert_eq in Hs. injection Hs as <-. right. exists c, p. rewrite lookup_insert_ne by congruence. done.
    + rewrite lookup_insert_ne in Hs by done. left. by apply Hsame.
  - apply admit_shape in Hop as (s & Hold & _ & _ & ->). left. apply (Hput m (ad_session q) s (touch s now)); [done|unfold session_next; auto|done].
  - apply end_shape in Hop as (s & Hold & ->). left. apply (Hput m (fn_session_id f) s (with_state SsClosed s)); [done|by apply with_state_next|done].
  - unfold upsert_mount_policy in Hop. destruct (_ || _); [done|]. injection Hop as _ <-. left. apply (Hmap m) in Hs; [done|]. intros s. apply (Hrv (fun s => _)).
  - unfold revoke_mount_credential in Hop. destruct (negb _); [done|]. destruct (mt_credentials m !! credential) as [c|]; [|done]. cbn [ok_or] in Hop. destruct (_ || _); [done|]. injection Hop as <-.
    left. apply (Hmap m) in Hs; [done|]. intros s. apply (Hrv (fun s => _)).
  - apply use_shape in Hop as (row & s & _ & _ & _ & _ & _ & ->). left. by apply Hsame.
  - apply close_shape in Hop as (row & g & _ & _ & ->). left. by apply Hsame.
  - apply lock_shape in Hop as (row & _ & -> & _). left. by apply Hsame.
  - apply unlock_shape in Hop as (l & _ & ->). left. by apply Hsame.
Qed.

Lemma locks_conflict_sym a b : locks_conflict a b -> locks_conflict b a.
Proof. unfold locks_conflict. naive_solver. Qed.
Lemma handles_conflict_sym a b : handles_conflict a b -> handles_conflict b a.
Proof. unfold handles_conflict, share_conflict. rewrite !orb_true_iff. naive_solver. Qed.
Lemma lock_next_follows now l l' : lock_next l l' -> follows locks_conflict lock_live now l l'.
Proof. intros [-> | ->]; [apply follows_refl|]. split_and!; [done|done|]. done. Qed.
Lemma handle_next_follows now h h' : handle_next now h h' -> follows handles_conflict handle_live now h h'.
Proof. intros [-> |[-> |[Hl ->]]]; [apply follows_refl|by split_and!|by split_and!]. Qed.
Lemma later_lock now now' l : now <= now' -> lock_live now' l = true -> lock_live now l = true.
Proof. unfold lock_live. intros ?. rewrite !andb_true_iff, !Z.ltb_lt. intros [-> ?]. split; [done|lia]. Qed.
Lemma later_handle now now' h : now <= now' -> handle_live now' h = true -> handle_live now h = true.
Proof. unfold handle_live. intros ?. rewrite !andb_true_iff, !Z.ltb_lt. intros [-> ?]. split; [done|lia]. Qed.

Lemma session_known_onward m m' s s' : onward m m' -> session_next s s' -> session_known m s -> session_known m' s'.
Proof.
  intros Hon ([= Hu Hcr Hpr Hgw Hep] & [= H1 H2 H3] & _) [(c & Hc & ? & ?) (p & Hp & ?)]. unfold session_known. rewrite Hu, Hcr, H1, H2, H3.
  destruct (on_credentials _ _ Hon _ _ Hc) as (c' & ? & ? & ?), (on_principals _ _ Hon _ _ Hp) as (p' & ? & ?). split; [exists c'; split_and!; [done|lia|lia]|exists p'; split; [done|lia]].
Qed.

(** what the invariant says of a handle survives what moves on *)
Lemma row_known_onward m m' h h' now : onward m m' -> handle_next now h h' -> row_known m h -> row_known m' h'.
Proof.
  intros Hon Hn [(s & Hs & Hg) [(g & Hd & Hdg) (n & Hnode & Hn1 & Hn2)]]. unfold row_known.
  assert ((hd_session h', hd_drive h', hd_node h') = (hd_session h, hd_drive h, hd_node h) /\ (hd_credential_generation h', hd_authorization_generation h', hd_membership_generation h', hd_gateway_epoch h')
    = (hd_credential_generation h, hd_authorization_generation h, hd_membership_generation h, hd_gateway_epoch h)
    /\ (hd_drive_acl_generation h', hd_namespace_generation h', hd_resource_acl_generation h') = (hd_drive_acl_generation h, hd_namespace_generation h, hd_resource_acl_generation h)) as ([= -> -> ->] & -> & [= -> -> ->])
    by (destruct Hn as [-> |[-> |[_ ->]]]; done).
  destruct (on_sessions _ _ Hon _ _ Hs) as (s' & Hs' & [= _ _ _ _ Hep] & [= H1 H2 H3] & _), (on_drives _ _ Hon _ _ Hd) as (g' & Hg' & ?), (on_nodes _ _ Hon _ _ Hnode) as (n' & Hn' & ? & ?).
  split_and!; [exists s'; split; [done|congruence]|exists g'; split; [done|lia]|exists n'; split_and!; [done|lia|lia]].
Qed.
Lemma row_known_later m m' h : onward m m' -> row_known m h -> row_known m' h.
Proof. intros Hon. apply (row_known_onward m m' h h 0); [done|by left]. Qed.

(** a handle after a step is one from before *)
Lemma handles_back now m hs i h' : handles_step now m hs -> hs !! i = Some h' -> exists h, mt_handles m !! i = Some h /\ handle_next now h h'.
Proof.
  intros [|id h h1 Hid Hnext] Hi; [exists h'; split; [done|by left]|]. destruct (decide (id = i)) as [<- |Hne]; [rewrite lookup_insert_eq in Hi; injection Hi as <-; by exists h|].
  rewrite lookup_insert_ne in Hi by done. exists h'. split; [done|by left].
Qed.
Lemma handle_next_live now now' h h' : now <= now' -> handle_next now h h' -> handle_live now' h' = true -> handle_live now h = true.
Proof. intros Hn Hnext Hl. apply (later_handle now now') in Hl; [|done]. destruct (handle_next_follows now h h' Hnext) as (_ & _ & Hf). by apply Hf. Qed.

Lemma world_step w w' : world_good w -> mount_step w w' -> world_good w'.
Proof.
  intros [Hl Hs Hf Hr] Hstep. destruct (step_onward w w' Hstep) as [Hon Hnow]. destruct (step_tables w w' Hstep) as (Hhs & Hls & Hfs). split.
  - apply (exclusive_later _ _ (md_now w)); [intros l; by apply later_lock|]. destruct Hls as [f Hnext|id l Hid|id l Hid Hfree]; [apply exclusive_fmap; [done|intros l; by apply lock_next_follows]|eapply exclusive_replace; [done|done|apply lock_next_follows; by right]|].
    apply exclusive_insert; [apply locks_conflict_sym|done|done|done].
  - intros i s' Hi. destruct (step_sessions w w' i s' Hstep Hi) as [(s & Hold & Hnext)|(c & p & Hc & Hp & H1 & H2 & H3)]; [by eapply session_known_onward, Hs|]. split; [exists c; split_and!; [done|lia|lia]|exists p; split; [done|lia]].
  - intros f Hin. assert (f ∈ md_fences w \/ exists s, mt_sessions (md_db w') !! fn_session_id f = Some s /\ fence_of f s) as [Hold|?]; [|destruct (Hf f Hold) as (s & Hss & Hfence)|done].
    { destruct Hfs as [|f' s Hss Hfence]; [by left|]. apply elem_of_cons in Hin as [-> |]; [right; by exists s|by left]. }
    destruct (on_sessions _ _ Hon _ _ Hss) as (s' & Hs' & [= _ _ _ _ Hep] & [= H1 H2 H3] & _). exists s'. split; [done|]. unfold fence_of in *. congruence.
  - intros i h' Hi. destruct (handles_back _ _ _ _ _ Hhs Hi) as (h & Hh & Hnext). eapply row_known_onward; [done|done|by apply (Hr i)].
Qed.

(** the insertion of an open that was checked *)
Lemma insert_onward m id row m' : insert_handle m id row = Ok m' -> onward m m'.
Proof. intros (_ & _ & ->)%insert_shape. by apply onward_same. Qed.
Lemma world_insert now m fs id row m' : world_good (mkMounted now m fs) -> row_known m row -> insert_handle m id row = Ok m' -> world_good (mkMounted now m' fs).
Proof.
  intros [Hl Hs Hf Hr] Hrow Hins. pose proof (insert_onward _ _ _ _ Hins) as Hon. apply insert_shape in Hins as (Hid & _ & ->). cbn in *. split; cbn [md_now md_db md_fences mt_locks mt_sessions set_handles]; [done|done|done|].
  intros i h Hi. apply (row_known_later m); [done|]. cbn in Hi. destruct (decide (id = i)) as [<- |Hne]; [rewrite lookup_insert_eq in Hi; by injection Hi as <-|rewrite lookup_insert_ne in Hi by done; by apply (Hr i)].
Qed.

(** the opens that have been checked are still in order after another transaction *)
Lemma good_other w w' ps n ts : mount_step w w' -> good (mkOpens w ps n ts) -> good (mkOpens w' ps (S n) ts).
Proof.
  intros Hstep [Hw Ht Hh Hp]. cbn in *. destruct (step_onward w w' Hstep) as [Hon Hnow]. destruct (step_tables w w' Hstep) as (Hhs & _).
  assert (forall i h', mt_handles (md_db w') !! i = Some h' -> exists h, mt_handles (md_db w) !! i = Some h /\ handle_next (md_now w) h h') as Hback by (intros i h'; by apply handles_back).
  split; cbn [os_world os_pending os_turn os_times].
  - by apply (world_step w).
  - intros i h' (h & Hi & _)%Hback. destruct (Ht i h Hi) as (c & k & ? & ? & ?). exists c, k. split_and!; [done|done|lia].
  - intros i j a' b' Hij (a & Ha & Hna)%Hback (b & Hb & Hnb)%Hback Hc Hla Hlb. destruct (handle_next_follows _ _ _ Hna) as (Ha1 & _), (handle_next_follows _ _ _ Hnb) as (_ & Hb1 & _).
    apply (Hh i j a b); [done|done|done|by apply Hb1, Ha1|by eapply handle_next_live|by eapply handle_next_live].
  - intros p (Hck & Hrow & Hex)%Hp. split_and!; [lia|by apply (row_known_later (md_db w))|]. intros j h' c k (h & Hj & Hnext)%Hback Htj Hle Hc. apply not_true_iff_false. intros Hlive.
    apply (handle_next_live (md_now w) (md_now w') h h') in Hlive as Hl; [|done|done]. destruct (handle_next_follows _ _ _ Hnext) as (Hc1 & _). rewrite (Hex j h c k) in Hl; [done|done|done|done|by apply Hc1].
Qed.

Lemma good_check w ps n ts id f q version : f ∈ md_fences w -> open_check (md_db w) (md_now w) q = Ok version -> good (mkOpens w ps n ts) -> good (mkOpens w (mkPending id f q version n :: ps) (S n) ts).
Proof.
  intros Hf Hc [Hw Ht Hh Hp]. cbn in *. split; cbn [os_world os_pending os_turn os_times]; [done| |done|].
  - intros i h Hi. destruct (Ht i h Hi) as (c & k & ? & ? & ?). exists c, k. split_and!; [done|done|lia].
  - intros p Hin. apply elem_of_cons in Hin as [-> |Hin]; [|destruct (Hp p Hin) as (? & ? & ?); split_and!; [lia|done|done]]. destruct (open_check_excludes _ _ _ _ Hc) as [(g & nd & Hg & Hn & H1 & H2 & H3) Hex].
    destruct (gd_fences w Hw f Hf) as (s & Hss & Hfence). split_and!; [cbn; lia| |].
    + split_and!; [exists s; split; [done|exact Hfence]|exists g; cbn; split; [done|lia]|exists nd; cbn; split_and!; [done|lia|lia]].
    + intros j h c k Hj _ _ Hconf. by apply (Hex j h f).
Qed.

Lemma good_insert now at_ m fs ps ps' n ts p m' : p ∈ ps -> ps' ⊆ ps -> insert_handle m (pn_id p) (pending_row at_ p) = Ok m' -> good (mkOpens (mkMounted now m fs) ps n ts) ->
  good (mkOpens (mkMounted now m' fs) ps' (S n) (<[pn_id p := (pn_checked p, n)]> ts)).
Proof.
  intros Hin Hsub Hins [Hw Ht Hh Hp]. cbn in *. destruct (Hp p Hin) as (Hck & Hrow & Hex). pose proof (insert_onward _ _ _ _ Hins) as Hon. pose proof (world_insert now m fs _ (pending_row at_ p) _ Hw Hrow Hins) as Hw'. apply insert_shape in Hins as (Hid & _ & ->).
  assert (forall j, is_Some (mt_handles m !! j) -> pn_id p <> j) as Hne by (intros j [h Hj] <-; congruence).
  (** the new handle and an old one are in conflict only if their opens overlapped *)
  assert (forall j h, mt_handles m !! j = Some h -> handles_conflict h (pending_row at_ p) -> handle_live now h = true -> exists c k, ts !! j = Some (c, k) /\ (c < n)%nat /\ (pn_checked p < k)%nat) as Hnew.
  { intros j h Hj Hconf Hlive. destruct (Ht j h Hj) as (c & k & Htj & ? & ?). exists c, k. split_and!; [done|lia|]. destruct (decide (k <= pn_checked p)%nat) as [Hle|?]; [|lia]. by rewrite (Hex j h c k Hj Htj Hle Hconf) in Hlive. }
  split; cbn [os_world os_pending os_turn os_times md_db md_now]; [done|..].
  - intros i h Hi. cbn in Hi. destruct (decide (pn_id p = i)) as [<- |Hni]; [rewrite lookup_insert_eq; eexists _, _; split_and!; [done|lia|lia]|]. rewrite lookup_insert_ne in Hi by done. rewrite lookup_insert_ne by done.
    destruct (Ht i h Hi) as (c & k & ? & ? & ?). exists c, k. split_and!; [done|done|lia].
  - intros i j a b Hij Hi Hj Hc Hla Hlb. cbn in Hi, Hj. unfold overlapped. cbn [os_times]. destruct (decide (pn_id p = i)) as [<- |Hni], (decide (pn_id p = j)) as [<- |Hnj]; [done|..].
    + rewrite lookup_insert_eq in Hi. injection Hi as <-. rewrite lookup_insert_ne in Hj by done. destruct (Hnew j b Hj) as (c & k & ? & ? & ?); [by apply handles_conflict_sym|done|]. rewrite lookup_insert_eq, lookup_insert_ne by done. eexists _, _, c, k. split_and!; [done|done|lia|lia].
    + rewrite lookup_insert_eq in Hj. injection Hj as <-. rewrite lookup_insert_ne in Hi by done. destruct (Hnew i a Hi) as (c & k & ? & ? & ?); [done|done|]. rewrite lookup_insert_eq, lookup_insert_ne by done. eexists c, k, _, _. split_and!; [done|done|lia|lia].
    + rewrite lookup_insert_ne in Hi by done. rewrite lookup_insert_ne in Hj by done. rewrite !lookup_insert_ne by done. by apply (Hh i j a b).
  - intros p2 (Hck2 & Hrow2 & Hex2)%Hsub%Hp. split_and!; [lia|by apply (row_known_later m)|]. intros j h c k Hj Htj Hle Hc. cbn in Hj. destruct (decide (pn_id p = j)) as [<- |Hnj].
    + rewrite lookup_insert_eq in Htj. injection Htj as <- <-. lia.
    + rewrite lookup_insert_ne in Hj by done. rewrite lookup_insert_ne in Htj by done. by apply (Hex2 j h c k).
Qed.

Lemma good_step o o' : open_step o o' -> good o -> good o'.
Proof.
  intros [w w' ps n ts Hs|w ps n ts id f q version Hf Hc|now at_ m fs ps ps' n ts p m' Hin Hsub _ Hins|w ps ps' n ts Hsub] Hgood; [by apply (good_other w)|by apply good_check|by apply (good_insert now at_ m fs ps)|].
  destruct Hgood as [Hw Ht Hh Hp]. cbn in *. split; cbn [os_world os_pending os_turn os_times]; [done| |done|].
  - intros i h Hi. destruct (Ht i h Hi) as (c & k & ? & ? & ?). exists c, k. split_and!; [done|done|lia].
  - intros p (? & ? & ?)%Hsub%Hp. split_and!; [lia|done|done].
Qed.

Lemma good_history o o' : history o o' -> good o -> good o'.
Proof. induction 1 as [|o1 o2 o3 Hs _ IH]; [done|]. intros Hg. by eapply IH, good_step. Qed.
Lemma good_fresh o : fresh o -> good o.
Proof.
  intros (Hg & Hs & Hh & Hl & Hf & Hp). split.
  - split; [intros i j a b _ Hi; by rewrite Hl in Hi|intros i s Hi; by rewrite Hs in Hi|intros f Hin; rewrite Hf in Hin; by apply elem_of_nil in Hin|intros i h Hi; by rewrite Hh in Hi].
  - intros i h Hi. by rewrite Hh in Hi.
  - intros i j a b _ Hi. by rewrite Hh in Hi.
  - intros p Hin. rewrite Hp in Hin. by apply elem_of_nil in Hin.
Qed.
Lemma open_step_onward o o' : open_step o o' -> onward (md_db (os_world o)) (md_db (os_world o')) /\ md_now (os_world o) <= md_now (os_world o').
Proof.
  intros [w w' ps n ts Hs|w ps n ts id f q version Hf Hc|now at_ m fs ps ps' n ts p m' Hin Hsub _ Hins|w ps ps' n ts Hsub]; cbn; [by apply step_onward|split; [by apply onward_same|lia]|split; [by eapply insert_onward|lia]|split; [by apply onward_same|lia]].
Qed.
Lemma history_onward o o' : history o o' -> onward (md_db (os_world o)) (md_db (os_world o')) /\ md_now (os_world o) <= md_now (os_world o').
Proof. induction 1 as [o|o1 o2 o3 Hs _ [IH Hn]]; [split; [by apply onward_same|lia]|]. destruct (open_step_onward o1 o2 Hs). split; [by eapply onward_trans|lia]. Qed.

(** ** Exclusion *)

Lemma claim_refused m now protocol shard gateway g : mt_gateways m !! (protocol, shard) = Some g -> gw_gateway_id g <> gateway -> gw_draining g = false -> now < gw_lease_expires_at g ->
  exists e, claim_mount_gateway_epoch m now protocol shard gateway = Err e.
Proof.
  intros Hg Hid Hd Hlease. unfold claim_mount_gateway_epoch. destruct (_ || _ || _); [by eexists|]. destruct (_ && _); [by eexists|]. rewrite Hg, Hd. cbn [negb andb orb].
  rewrite (proj2 (String.eqb_neq _ _) Hid), (proj2 (Z.leb_gt _ _) Hlease). by eexists.
Qed.

(** C21. Locks, share modes and leases of mounted drives exclude each other. In every history
    in which each open is two steps, its check and its insertion, and any other transactions
    and opens come in between, at every moment: two live byte-range locks of a file overlap
    only if both are shared; if two live handles of a file are in conflict (one was opened for
    what the other does not share), then their opens overlapped, each was checked before the
    other had inserted its handle, so an open that starts after another has finished is never
    in conflict with it; while a gateway holds the lease of a shard no other gateway gets it;
    and an epoch of the shard never belongs to two gateways. The other transactions are
    atomic steps. *)
Theorem mounts_exclude (o0 o : Opens) : fresh o0 -> history o0 o ->
  let w := os_world o in
  (forall i j a b, i <> j -> mt_locks (md_db w) !! i = Some a -> mt_locks (md_db w) !! j = Some b -> lock_live (md_now w) a = true -> lock_live (md_now w) b = true -> ~ locks_conflict a b)
  /\ (forall i j a b, i <> j -> mt_handles (md_db w) !! i = Some a -> mt_handles (md_db w) !! j = Some b -> handle_live (md_now w) a = true -> handle_live (md_now w) b = true -> handles_conflict a b -> overlapped o i j)
  /\ (forall protocol shard gateway g, mt_gateways (md_db w) !! (protocol, shard) = Some g -> gw_gateway_id g <> gateway -> gw_draining g = false -> md_now w < gw_lease_expires_at g ->
       exists e, claim_mount_gateway_epoch (md_db w) (md_now w) protocol shard gateway = Err e)
  /\ (forall o' k g g', history o o' -> mt_gateways (md_db w) !! k = Some g -> mt_gateways (md_db (os_world o')) !! k = Some g' -> gw_epoch g = gw_epoch g' -> gw_gateway_id g' = gw_gateway_id g).
Proof.
  intros Hfresh Hh w. apply good_fresh in Hfresh. pose proof (good_history o0 o Hh Hfresh) as [[Hl _ _ _] _ Hhd _]. split_and!.
  - intros i j a b Hij Hi Hj Ha Hb Hc. destruct (Hl i j a b Hij Hi Hj Hc); unfold w in *; congruence.
  - intros i j a b Hij Hi Hj Ha Hb Hc. by apply (Hhd i j a b).
  - intros protocol shard gateway g. apply claim_refused.
  - intros o' k g g' Ho' Hg Hg' He. destruct (history_onward o o' Ho') as [Hon _]. destruct (on_gateways _ _ Hon _ _ Hg) as (g2 & Hg2 & _ & Hid). rewrite Hg' in Hg2. injection Hg2 as <-. by apply Hid.
Qed.

(** ** Fences *)












(** *** Lost epochs *)




End histories.
