(* ===== verification/MountDemo.v ===== *)
(** Mounted drives on concrete data: a session with two handles and two locks whose
    credential is revoked, two opens that run at the same time, and a gateway with two
    shards. *)
From S2P Require Import Prelude Collections Libraries Net CollaborationStore MountStore MountFacts.

Open Scope string_scope.
Open Scope Z_scope.
Open Scope list_scope.
Open Scope bool_scope.

Definition db0 : Mounts :=
  mkMounts ∅ ∅ ∅ ∅ {[3%N := mkCredential 4 "smb" 1 1 true [1%N] false 10000 None]} {[4%N := mkPrincipal 1 false true]} {[(4%N, "smb") := mkPolicy true true [1%N] 1 1]} ∅ {[1%N := 1]}
    {[(1%N, 20%N) := mkMountNode "file" (Some 30%N) 1 1 false]} None.
Definition after {A} (r : result DatabaseError (A * Mounts)) : Mounts := match r with Ok x => x.2 | Err _ => db0 end.
Definition result_of {A} (d : A) (r : result DatabaseError (A * Mounts)) : A := match r with Ok x => x.1 | Err _ => d end.

Definition login : CreateSession := mkCreateSession 3 None "smb" "g1" 1 "192.0.2.7".
Definition read_open (share_read : bool) : OpenHandle := mkOpenHandle 1 20 (Some 30%N) ["READ_CONTENT"; "MANAGE_LOCK"] share_read true true 1 1 1.
Definition no_fence : MountSessionFence := mkFence 0 0 0 "" 0 0 0 0 true [].
Definition no_handle : MountHandleRecord := mkHandleRecord 0 (open_row 0 no_fence (read_open true) None).

Definition db1 : Mounts := after (claim_mount_gateway_epoch db0 100 "smb" "a" "g1").
Definition db2 : Mounts := after (create_mount_session db1 100 login 50 51).
Definition demo_fence : MountSessionFence := result_of no_fence (create_mount_session db1 100 login 50 51).
Definition db3 : Mounts := after (open_mount_handle db2 100 demo_fence (read_open true) 60).
Definition handle1 : MountHandleRecord := result_of no_handle (open_mount_handle db2 100 demo_fence (read_open true) 60).
Definition db4 : Mounts := after (open_mount_handle db3 100 demo_fence (read_open true) 61).
Definition handle2 : MountHandleRecord := result_of no_handle (open_mount_handle db3 100 demo_fence (read_open true) 61).
Definition db5 : Mounts := after (acquire_mount_byte_lock db4 100 demo_fence handle1 "o1" 0 10 false 70).
Definition db6 : Mounts := after (acquire_mount_byte_lock db5 100 demo_fence handle2 "o2" 5 10 false 71).

Definition no_clauses (_ : Mounts) (_ : Z) (_ : SessionRow) : bool := false.
Definition no_drives (_ : Mounts) (_ : SessionRow) (_ : CredentialRow) (_ : PolicyRow) : list Uuid := [].
Abbreviation demo_history := (history no_clauses no_drives).

(** *** A history: a gateway, a session, two handles and two locks *)

Definition start : Opens := mkOpens (mkMounted 100 db0 []) [] 0 ∅.
Definition logged_in : Opens := mkOpens (mkMounted 100 db2 [demo_fence]) [] 2 ∅.
Definition one_open : Opens := mkOpens (mkMounted 100 db3 [demo_fence]) [] 4 (<[60%N := (2%nat, 3%nat)]> ∅).
Definition locked : Opens := mkOpens (mkMounted 100 db6 [demo_fence]) [] 8 (<[61%N := (4%nat, 5%nat)]> (<[60%N := (2%nat, 3%nat)]> ∅)).
Definition read_pending (share_read : bool) (id : Uuid) (turn : nat) : PendingOpen := mkPending id demo_fence (read_open share_read) (Some 30%N) turn.

Lemma login_history : demo_history start logged_in.
Proof.
  eapply rtc_l; [apply turn_other, (step_claim _ _ 100 db0 [] "smb" "a" "g1" 1 db1); vm_compute; reflexivity|].
  eapply rtc_l; [apply turn_other, (step_create _ _ 100 db1 [] login 50 51 demo_fence db2); vm_compute; reflexivity|]. apply rtc_refl.
Qed.
(** an open whose insertion follows its check at once *)
Lemma open_at_once m m' n ts id : open_check m 100 (read_open true) = Ok (Some 30%N) -> insert_handle m id (open_row 100 demo_fence (read_open true) (Some 30%N)) = Ok m' ->
  demo_history (mkOpens (mkMounted 100 m [demo_fence]) [] n ts) (mkOpens (mkMounted 100 m' [demo_fence]) [] (S (S n)) (<[id := (n, S n)]> ts)).
Proof.
  intros Hc Hi. eapply rtc_l; [apply (turn_check _ _ _ [] n ts id demo_fence (read_open true) (Some 30%N)); [apply list_elem_of_here|done]|].
  eapply rtc_l; [apply (turn_insert _ _ 100 100 m [demo_fence] [read_pending true id n] [] (S n) ts (read_pending true id n) m'); [apply list_elem_of_here|apply list_subseteq_nil|lia|done]|]. apply rtc_refl.
Qed.
Lemma first_open : demo_history logged_in one_open.
Proof. apply open_at_once; vm_compute; reflexivity. Qed.
Lemma opens_and_locks : demo_history start locked.
Proof.
  unfold history; etrans; [exact login_history|]. unfold history; etrans; [exact first_open|]. unfold history; etrans; [apply (open_at_once db3 db4 4 _ 61); vm_compute; reflexivity|].
  eapply rtc_l; [apply turn_other, (step_lock _ _ 100 db4 [demo_fence] demo_fence handle1 "o1" 0 10 false 70 70 db5); [apply list_elem_of_here|vm_compute; reflexivity]|].
  eapply rtc_l; [apply turn_other, (step_lock _ _ 100 db5 [demo_fence] demo_fence handle2 "o2" 5 10 false 71 71 db6); [apply list_elem_of_here|vm_compute; reflexivity]|].
  apply rtc_refl.
Qed.
Lemma start_fresh : fresh start.
Proof. repeat split. Qed.

(** *** Two opens at the same time *)

(** [open_mount_handle] locks the file's row only against changes, so that two transactions
    can both find no conflict and then both insert: two live handles of which each denies
    what the other was opened for. *)
Definition denying : HandleRow := open_row 100 demo_fence (read_open false) (Some 30%N).
Definition put (m : Mounts) (id : Uuid) : Mounts := match insert_handle m id denying with Ok m' => m' | Err _ => m end.
Definition both_open : Opens := mkOpens (mkMounted 100 (put (put db2 60) 61) [demo_fence]) [] 6 (<[61%N := (3%nat, 5%nat)]> (<[60%N := (2%nat, 4%nat)]> ∅)).
Lemma overlapping_opens : demo_history logged_in both_open.
Proof.
  eapply rtc_l; [apply (turn_check _ _ _ [] 2 ∅ 60%N demo_fence (read_open false) (Some 30%N)); [apply list_elem_of_here|vm_compute; reflexivity]|].
  eapply rtc_l; [apply (turn_check _ _ _ _ 3 ∅ 61%N demo_fence (read_open false) (Some 30%N)); [apply list_elem_of_here|vm_compute; reflexivity]|].
  eapply rtc_l; [apply (turn_insert _ _ 100 100 db2 [demo_fence] [read_pending false 61 3; read_pending false 60 2] [read_pending false 61 3] 4 ∅ (read_pending false 60 2) (put db2 60))|].
  { apply list_elem_of_further, list_elem_of_here. }
  { intros p ->%list_elem_of_singleton. apply list_elem_of_here. }
  { lia. }
  { vm_compute. reflexivity. }
  eapply rtc_l; [apply (turn_insert _ _ 100 100 (put db2 60) [demo_fence] [read_pending false 61 3] [] 5 _ (read_pending false 61 3) (put (put db2 60) 61)); [apply list_elem_of_here|apply list_subseteq_nil|lia|vm_compute; reflexivity]|].
  apply rtc_refl.
Qed.
Example concurrent_opens_conflict :
  demo_history start both_open /\ mt_handles (md_db (os_world both_open)) !! 60%N = Some denying /\ mt_handles (md_db (os_world both_open)) !! 61%N = Some denying
  /\ handle_live 100 denying = true /\ handles_conflict denying denying.
Proof.
  split; [unfold history; etrans; [exact login_history|exact overlapping_opens]|]. split; [vm_compute; reflexivity|]. split; [vm_compute; reflexivity|]. split; [reflexivity|repeat split].
Qed.

(** Two shared locks overlap; two handles that are in conflict were opened at the same time;
    another gateway cannot claim the shard. *)
Lemma mounts_exclude_witness :
  (exists a b, mt_locks db6 !! 70%N = Some a /\ mt_locks db6 !! 71%N = Some b /\ lock_live 100 a = true /\ lock_live 100 b = true /\ lk_offset b < lk_offset a + lk_length a /\ ~ locks_conflict a b)
  /\ overlapped both_open 60 61
  /\ exists e, claim_mount_gateway_epoch db6 100 "smb" "a" "g2" = Err e.
Proof.
  destruct (mounts_exclude no_clauses no_drives start locked start_fresh opens_and_locks) as (Hlocks & _ & Hclaim & _). split; [|split].
  - eexists _, _. split; [vm_compute; reflexivity|]. split; [vm_compute; reflexivity|]. split; [reflexivity|]. split; [reflexivity|]. split; [reflexivity|].
    apply (Hlocks 70%N 71%N); [discriminate|vm_compute; reflexivity|vm_compute; reflexivity|reflexivity|reflexivity].
  - destruct concurrent_opens_conflict as (Hh & H1 & H2 & Hl & Hc). destruct (mounts_exclude no_clauses no_drives start both_open start_fresh Hh) as (_ & Hhandles & _). apply (Hhandles 60%N 61%N denying denying); [discriminate|exact H1|exact H2|exact Hl|exact Hl|exact Hc].
  - apply (Hclaim "smb" "a" "g2" (mkGateway "g1" 1 false None 120)); [vm_compute; reflexivity|discriminate|reflexivity|reflexivity].
Defined.

(** *** Two shards of a gateway *)

(** A gateway loses its shard, and the handle is refused; then it claims another shard and
    gets the same epoch there, and the handle is admitted again. *)
Definition taken : Mounts := after (claim_mount_gateway_epoch db3 125 "smb" "a" "g2").
Definition other_shard : Mounts := after (claim_mount_gateway_epoch taken 125 "smb" "b" "g1").
Definition waiting : Opens := mkOpens (mkMounted 125 db3 [demo_fence]) [] 5 (<[60%N := (2%nat, 3%nat)]> ∅).
Example second_shard_revives_handle :
  claim_mount_gateway_epoch db3 125 "smb" "a" "g2" = Ok (2, taken) /\ admit_mount_handle taken 125 demo_fence 60 "READ_CONTENT" = Err StaleGeneration
  /\ claim_mount_gateway_epoch taken 125 "smb" "b" "g1" = Ok (1, other_shard)
  /\ is_Some (match admit_mount_handle other_shard 125 demo_fence 60 "READ_CONTENT" with Ok x => Some x.1 | Err _ => None end).
Proof. split; [vm_compute; reflexivity|]. split; [vm_compute; reflexivity|]. split; [vm_compute; reflexivity|]. vm_compute. eexists. reflexivity. Qed.


