(* ===== verification/SecretVault.v ===== *)
(** Model of [source/crates/filebelt-secret-vault/src/lib.rs] and of its facade
    [source/crates/filebelt-mcp-vault/src/lib.rs]: envelope encryption of the secrets
    of mounts and MCP registrations.  The file, its JSON decoder, the standard
    Base64 engine, the random numbers and AES-256-GCM are parameters.  The overwriting
    of freed key memory has no counterpart. *)
From S2P Require Import Prelude Collections Libraries ConcreteCodecs Frames NfsHandles.

Open Scope string_scope.
Open Scope Z_scope.
Open Scope list_scope.
Open Scope bool_scope.

(** crate [base64], engine [STANDARD] *)
Class Base64StandardLib := b64std_decode : string -> option bytes.

(** crate [aws-lc-rs], [aead] with [AES_256_GCM]: [UnboundKey::new],
    [seal_in_place_append_tag] and [open_in_place]. *)
Class AeadLib := {
  aead_key : Type;
  unbound_key : bytes -> option aead_key;
  seal : aead_key -> bytes -> bytes -> bytes -> option bytes;
  open : aead_key -> bytes -> bytes -> bytes -> option bytes
}.

Module SecretVault.

Definition KEY_BYTES : Z := 32.
Definition NONCE_BYTES : Z := 12.
Definition TAG_BYTES : Z := 16.

Record VaultProfile := mkProfile {
  keyring_format : string; aad_domain : bytes; wrap_domain : bytes; maximum_plaintext_bytes : Z
}.

Definition VaultProfile_mcp : VaultProfile :=
  mkProfile "filebelt.mcp-keyring.v1" (as_bytes "filebelt.mcp.secret-envelope.v1" ++ [zero_byte])
    (as_bytes "filebelt.mcp.dek-wrap.v1" ++ [zero_byte]) 8192.
Definition VaultProfile_mount : VaultProfile :=
  mkProfile "filebelt.mount-keyring.v1" (as_bytes "filebelt.mount.secret-envelope.v1" ++ [zero_byte])
    (as_bytes "filebelt.mount.dek-wrap.v1" ++ [zero_byte]) 4096.

Inductive VaultError := Read | InvalidKeyring | UnknownGeneration | InvalidContext | InvalidEnvelope | Crypto.

Record KeyDocument := mkKeyDocument { kd_generation : Z; kd_key_base64 : string }.
Record KeyringDocument := mkKeyringDocument { krd_format : string; krd_keys : list KeyDocument }.

Record Keyring := mkKeyring { profile : VaultProfile; keys : btmap Z bytes }.

Record SecretContext := mkContext {
  tenant_id : Uuid; secret_id : Uuid; owner_principal_id : Uuid; namespace : string; secret_kind : string; credential_generation : Z
}.
Record SecretEnvelope := mkEnvelope {
  ciphertext : bytes; nonce : bytes; wrapped_dek : bytes; wrap_nonce : bytes; kek_generation : Z; aad_version : Z
}.

(** ** Loading a keyring *)

Section load.
Context `{Base64StandardLib}.
(** [serde_json::from_slice], strict about unknown fields *)
Variable json_keyring : bytes -> option KeyringDocument.

Fixpoint load_keys (keys : btmap Z bytes) (items : list KeyDocument) : result VaultError (btmap Z bytes) :=
  match items with
  | [] => Ok keys
  | item :: items =>
      if (kd_generation item =? 0) || bt_contains (kd_generation item) keys then Err InvalidKeyring
      else
        let? decoded := ok_or InvalidKeyring (b64std_decode (kd_key_base64 item)) in
        if negb (len decoded =? KEY_BYTES) then Err InvalidKeyring
        else load_keys (bt_insert (kd_generation item) decoded keys) items
  end.

(** [file] is the result of [std::fs::read]. *)
Definition Keyring_load (file : option bytes) (profile : VaultProfile) : result VaultError Keyring :=
  let? bytes := ok_or Read file in
  let? document := ok_or InvalidKeyring (json_keyring bytes) in
  if negb (String.eqb (krd_format document) (keyring_format profile)) || Nat.eqb (length (krd_keys document)) 0
     || (32 <? len (krd_keys document))
  then Err InvalidKeyring
  else
    let? keys := load_keys [] (krd_keys document) in
    Ok (mkKeyring profile keys).
End load.

(** ** Associated data *)

Definition validate_context (profile : VaultProfile) (context : SecretContext) (plaintext_len : Z) : result VaultError unit :=
  if String.eqb (namespace context) "" || (2048 <? str_len (namespace context))
     || String.eqb (secret_kind context) "" || (64 <? str_len (secret_kind context))
     || (credential_generation context <=? 0) || (plaintext_len =? 0) || (maximum_plaintext_bytes profile <? plaintext_len)
  then Err InvalidContext else Ok tt.

Fixpoint aad_parts (value : bytes) (parts : list bytes) : result VaultError bytes :=
  match parts with
  | [] => Ok value
  | part :: parts =>
      let? length := ok_or InvalidContext (u32_try_from (len part)) in
      aad_parts (value ++ be_bytes 4 length ++ part) parts
  end.

Definition context_parts (context : SecretContext) : list bytes :=
  [be_bytes 16 (Z.of_N (tenant_id context)); be_bytes 16 (Z.of_N (secret_id context));
   be_bytes 16 (Z.of_N (owner_principal_id context)); as_bytes (namespace context); as_bytes (secret_kind context);
   as_bytes (dec_to_string (credential_generation context))].

Definition aad (profile : VaultProfile) (context : SecretContext) : result VaultError bytes :=
  let? _ := validate_context profile context 1 in
  aad_parts (aad_domain profile) (context_parts context).

Definition wrap_aad (profile : VaultProfile) (aad : bytes) (generation : Z) : bytes :=
  wrap_domain profile ++ be_bytes 4 generation ++ aad.

(** ** Envelopes *)

Section envelopes.
Context `{AeadLib}.

Definition key (bytes : bytes) : result VaultError aead_key := ok_or Crypto (unbound_key bytes).

(** [random i] is the outcome of the [i]-th [getrandom::fill]. *)
Definition Keyring_encrypt (random : nat -> option bytes) (self : Keyring) (generation : Z) (context : SecretContext)
    (plaintext : bytes) : result VaultError SecretEnvelope :=
  let? _ := validate_context (profile self) context (len plaintext) in
  let? kek := ok_or UnknownGeneration (bt_get generation (keys self)) in
  let? dek := ok_or Crypto (random 0%nat) in
  let? nonce := ok_or Crypto (random 1%nat) in
  let? wrap_nonce := ok_or Crypto (random 2%nat) in
  let? aad := aad (profile self) context in
  let? content_key := key dek in
  let? ciphertext := ok_or Crypto (seal content_key nonce aad plaintext) in
  let? kek_key := key kek in
  let? wrapped_dek := ok_or Crypto (seal kek_key wrap_nonce (wrap_aad (profile self) aad generation) dek) in
  Ok (mkEnvelope ciphertext nonce wrapped_dek wrap_nonce generation 1).

Definition Keyring_decrypt (self : Keyring) (context : SecretContext) (envelope : SecretEnvelope) : result VaultError bytes :=
  let? _ := validate_context (profile self) context (Z.max 0 (len (ciphertext envelope) - TAG_BYTES)) in
  if negb (aad_version envelope =? 1) || (len (ciphertext envelope) <=? TAG_BYTES)
     || negb (len (wrapped_dek envelope) =? KEY_BYTES + TAG_BYTES)
  then Err InvalidEnvelope
  else
    let? kek := ok_or UnknownGeneration (bt_get (kek_generation envelope) (keys self)) in
    let? aad := aad (profile self) context in
    let? kek_key := key kek in
    let? opened_dek := ok_or InvalidEnvelope
      (open kek_key (wrap_nonce envelope) (wrap_aad (profile self) aad (kek_generation envelope)) (wrapped_dek envelope)) in
    if negb (len opened_dek =? KEY_BYTES) then Err InvalidEnvelope
    else
      let? content_key := key opened_dek in
      ok_or InvalidEnvelope (open content_key (nonce envelope) aad (ciphertext envelope)).

Definition Keyring_aad_digest `{Blake3Lib} (self : Keyring) (context : SecretContext) : result VaultError bytes :=
  let? aad := aad (profile self) context in Ok (blake3_hash aad).
End envelopes.
End SecretVault.

Module McpVault.
Record McpSecretContext := mkMcpContext {
  mc_tenant_id : Uuid; registration_id : Uuid; mc_owner_principal_id : Uuid; issuer : string; mc_secret_kind : string;
  mc_credential_generation : Z
}.
Definition generic_context (context : McpSecretContext) : SecretVault.SecretContext :=
  SecretVault.mkContext (mc_tenant_id context) (registration_id context) (mc_owner_principal_id context) (issuer context)
    (mc_secret_kind context) (mc_credential_generation context).

Definition mcp_load `{Base64StandardLib} (json_keyring : bytes -> option SecretVault.KeyringDocument) (file : option bytes)
  : result SecretVault.VaultError SecretVault.Keyring :=
  SecretVault.Keyring_load json_keyring file SecretVault.VaultProfile_mcp.
Definition mcp_encrypt `{AeadLib} (random : nat -> option bytes) (self : SecretVault.Keyring) (generation : Z) (context : McpSecretContext)
    (plaintext : bytes) : result SecretVault.VaultError SecretVault.SecretEnvelope :=
  SecretVault.Keyring_encrypt random self generation (generic_context context) plaintext.
Definition mcp_decrypt `{AeadLib} (self : SecretVault.Keyring) (context : McpSecretContext) (envelope : SecretVault.SecretEnvelope)
  : result SecretVault.VaultError bytes :=
  SecretVault.Keyring_decrypt self (generic_context context) envelope.
End McpVault.

(** ** Proofs *)

(** The documented behaviour of the authenticated encryption: keys have 32 bytes,
    the tag has 16, and what was sealed opens under the same key, nonce and data. *)
Class AeadLaws `{AeadLib} : Prop := {
  unbound_key_32 : forall b, is_Some (unbound_key b) <-> len b = SecretVault.KEY_BYTES;
  seal_total : forall k n a p, len n = SecretVault.NONCE_BYTES -> len p <= 2 ^ 36 - 32 -> is_Some (seal k n a p);
  seal_open : forall k n a p c, seal k n a p = Some c -> len c = len p + SecretVault.TAG_BYTES /\ open k n a c = Some p
}.

Section proofs.
Import SecretVault.

(** A part is written behind its length, so that a sequence of parts can be cut in one way only. *)
Definition prefixed (part : bytes) : bytes := be_bytes 4 (len part) ++ part.

Lemma aad_parts_Ok parts value v :
  aad_parts value parts = Ok v <-> v = value ++ concat (map prefixed parts) /\ Forall (fun part => len part <= u32_max) parts.
Proof.
  revert value. induction parts as [|part parts IH]; intros value; simpl.
  - rewrite app_nil_r. split; [intros [= ->]; done|intros [-> _]; done].
  - unfold u32_try_from. destruct (checked 0 u32_max (len part)) as [n|] eqn:Hc; cbn [ok_or].
    + apply checked_Some in Hc as [<- Hn]. rewrite IH, Forall_cons. unfold prefixed. rewrite <-!app_assoc.
      split; [intros [-> ?]; split; [done|split; [lia|done]]|naive_solver].
    + apply checked_None in Hc. pose proof (len_nonneg part). rewrite Forall_cons. split; [done|]. intros [_ [? _]]. lia.
Qed.

Lemma prefixed_app_inj x y r s :
  len x <= u32_max -> len y <= u32_max -> prefixed x ++ r = prefixed y ++ s -> x = y /\ r = s.
Proof.
  unfold prefixed. rewrite <-!app_assoc. intros Hx Hy Heq.
  pose proof (len_nonneg x). pose proof (len_nonneg y). unfold u32_max in *.
  apply app_inj_1 in Heq as [Hl Heq]; [|by rewrite !be_bytes_length].
  apply (f_equal of_be_bytes) in Hl. rewrite !of_be_be in Hl by (change (256 ^ Z.of_nat 4) with 4294967296; lia).
  apply app_inj_1 in Heq as [-> ->]; [done|]. unfold len in *. lia.
Qed.

Lemma prefixed_concat_inj l m :
  length l = length m -> Forall (fun part => len part <= u32_max) l -> Forall (fun part => len part <= u32_max) m ->
  concat (map prefixed l) = concat (map prefixed m) -> l = m.
Proof.
  revert m. induction l as [|x l IH]; intros [|y m] Hlen Hl Hm Heq; try done.
  apply Forall_cons in Hl as [Hx Hl], Hm as [Hy Hm]. simpl in *.
  apply prefixed_app_inj in Heq as [-> Heq]; [|done..]. f_equal. apply IH; [lia|done..].
Qed.

(** The values the fields of a context can hold. *)
Definition context_typed (c : SecretContext) : Prop :=
  is_uuid (tenant_id c) /\ is_uuid (secret_id c) /\ is_uuid (owner_principal_id c).

Lemma uuid_bytes_inj u v : is_uuid u -> is_uuid v -> be_bytes 16 (Z.of_N u) = be_bytes 16 (Z.of_N v) -> u = v.
Proof.
  unfold is_uuid. intros Hu Hv Heq. apply (f_equal of_be_bytes) in Heq.
  assert (forall w, (w < 2 ^ 128)%N -> 0 <= Z.of_N w < 256 ^ Z.of_nat 16) as Hb.
  { intros w Hw. change (256 ^ Z.of_nat 16) with (Z.of_N (2 ^ 128)). lia. }
  rewrite !of_be_be in Heq by auto. lia.
Qed.

Lemma validate_context_generation prof c n : validate_context prof c n = Ok tt -> 0 < credential_generation c.
Proof. unfold validate_context. rewrite guard_Ok, !orb_false_iff, Z.leb_gt. tauto. Qed.

Lemma context_parts_inj c c' :
  context_typed c -> context_typed c' -> 0 < credential_generation c -> 0 < credential_generation c' ->
  context_parts c = context_parts c' -> c = c'.
Proof.
  destruct c as [t s o n k g], c' as [t' s' o' n' k' g']. unfold context_typed. cbn [tenant_id secret_id owner_principal_id credential_generation].
  intros (Ht & Hs & Ho) (Ht' & Hs' & Ho') Hg Hg' Heq.
  pose proof (uuid_bytes_inj t t' Ht Ht'). pose proof (uuid_bytes_inj s s' Hs Hs'). pose proof (uuid_bytes_inj o o' Ho Ho').
  pose proof (fun E => dec_to_string_inj g g' ltac:(lia) ltac:(lia) (as_bytes_inj _ _ E)).
  pose proof (as_bytes_inj n n'). pose proof (as_bytes_inj k k').
  assert (forall i, context_parts (mkContext t s o n k g) !! i = context_parts (mkContext t' s' o' n' k' g') !! i) as Hi
    by (intros i; by rewrite Heq).
  f_equal; [apply H|apply H0|apply H1|apply H3|apply H4|apply H2].
  - apply (inj Some), (Hi 0%nat).
  - apply (inj Some), (Hi 1%nat).
  - apply (inj Some), (Hi 2%nat).
  - apply (inj Some), (Hi 3%nat).
  - apply (inj Some), (Hi 4%nat).
  - apply (inj Some), (Hi 5%nat).
Qed.

Lemma aad_inj prof c c' a :
  context_typed c -> context_typed c' -> aad prof c = Ok a -> aad prof c' = Ok a -> c = c'.
Proof.
  intros Ht Ht'. unfold aad. rewrite !bind_Ok. intros ([] & Hv & H) ([] & Hv' & H').
  apply aad_parts_Ok in H as [-> Hs], H' as [Heq Hs']. apply app_inv_head in Heq.
  apply context_parts_inj; [done|done|eauto using validate_context_generation..|]. by apply prefixed_concat_inj.
Qed.

(** The profiles a keyring can be loaded with. *)
Definition known_profile (p : VaultProfile) : Prop := p = VaultProfile_mcp \/ p = VaultProfile_mount.

(** The data that authenticate a wrapped key determine the profile and the context. *)
Lemma wrap_aad_inj p p' c c' a a' g :
  known_profile p -> known_profile p' -> context_typed c -> context_typed c' ->
  aad p c = Ok a -> aad p' c' = Ok a' -> wrap_aad p a g = wrap_aad p' a' g -> p = p' /\ c = c'.
Proof.
  intros Hp Hp' Ht Ht' Ha Ha' Heq.
  assert (p = p') as <-.
  { destruct Hp as [-> | ->], Hp' as [-> | ->]; [done| | |done]; exfalso; revert Heq; unfold wrap_aad; simpl; discriminate. }
  split; [done|]. unfold wrap_aad in Heq. apply app_inv_head in Heq. apply app_inv_head in Heq. subst a'. by eapply aad_inj.
Qed.

Lemma validate_context_Ok prof c n :
  validate_context prof c n = Ok tt <->
  namespace c <> "" /\ str_len (namespace c) <= 2048 /\ secret_kind c <> "" /\ str_len (secret_kind c) <= 64 /\
  0 < credential_generation c /\ n <> 0 /\ n <= maximum_plaintext_bytes prof.
Proof.
  unfold validate_context. rewrite guard_Ok, !orb_false_iff, !Z.ltb_ge, Z.leb_gt, Z.eqb_neq, !String.eqb_neq. tauto.
Qed.

Lemma context_parts_bounded c :
  validate_context VaultProfile_mcp c 1 = Ok tt -> is_i64 (credential_generation c) ->
  Forall (fun part => len part <= u32_max) (context_parts c).
Proof.
  intros (Hn & Hnl & Hk & Hkl & Hg & _)%validate_context_Ok Hi. unfold context_parts, is_i64, i64_max, len, u32_max, str_len in *.
  repeat constructor; rewrite ?be_bytes_length, ?length_as_bytes; try lia.
  pose proof (dec_to_string_length (credential_generation c) Hg) as Hd.
  assert (Pos.size_nat (Z.to_pos (credential_generation c)) <= 64)%nat as Hs; [|lia].
  etransitivity; [apply (Pos.size_nat_monotone _ (Z.to_pos (i64_max + 1))); unfold i64_max; lia|done].
Qed.

Section envelope_proofs.
Context `{Hlib : AeadLib} {Hlaws : AeadLaws}.

(** What [Keyring_load] guarantees. *)
Definition keyring_ok (ring : Keyring) : Prop :=
  known_profile (profile ring) /\ bt_wf (keys ring) /\ forall g k, bt_get g (keys ring) = Some k -> len k = KEY_BYTES /\ g <> 0.

Lemma load_keys_ok `{Base64StandardLib} items ks ks' :
  load_keys ks items = Ok ks' -> bt_wf ks -> (forall g k, bt_get g ks = Some k -> len k = KEY_BYTES /\ g <> 0) ->
  bt_wf ks' /\ forall g k, bt_get g ks' = Some k -> len k = KEY_BYTES /\ g <> 0.
Proof.
  revert ks. induction items as [|item items IH]; intros ks; simpl; [intros [= ->]; done|].
  rewrite guard_Ok, orb_false_iff, Z.eqb_neq, bind_Ok. intros [[Hg _] (k & Hk & Hrest)] Hwf Hks.
  apply guard_Ok in Hrest as [Hlen Hrest]. apply negb_false_iff, Z.eqb_eq in Hlen.
  apply (IH _ Hrest); [by apply bt_insert_wf|]. intros g k'. rewrite (bt_get_insert _ _ _ _ Hwf). case_decide as Hx; [|apply Hks].
  intros [= <-]. subst. done.
Qed.

Lemma Keyring_load_ok `{Base64StandardLib} json file prof ring :
  Keyring_load json file prof = Ok ring -> known_profile prof -> keyring_ok ring /\ profile ring = prof.
Proof.
  unfold Keyring_load. rewrite bind_Ok. intros (b & _ & H1) Hp. apply bind_Ok in H1 as (d & _ & H1).
  apply guard_Ok in H1 as [_ H1]. apply bind_Ok in H1 as (ks & Hks & [= <-]).
  apply load_keys_ok in Hks as [Hwf Hk]; [|constructor|done]. done.
Qed.

Lemma key_32 b : len b = KEY_BYTES -> exists k, key b = Ok k.
Proof. intros [k Hk]%unbound_key_32. exists k. unfold key. by rewrite Hk. Qed.

Lemma validate_smaller prof c n m :
  validate_context prof c n = Ok tt -> 0 < m <= maximum_plaintext_bytes prof -> validate_context prof c m = Ok tt.
Proof. rewrite !validate_context_Ok. intuition lia. Qed.

Lemma aad_total prof c n :
  known_profile prof -> validate_context prof c n = Ok tt -> is_i64 (credential_generation c) -> exists a, aad prof c = Ok a.
Proof.
  intros Hp Hv Hi. assert (1 <= maximum_plaintext_bytes prof) as Hm by (destruct Hp as [-> | ->]; done).
  apply (validate_smaller _ _ _ 1) in Hv; [|lia]. unfold aad. rewrite Hv. eexists. apply aad_parts_Ok. split; [done|].
  apply context_parts_bounded; [|done]. apply validate_context_Ok in Hv. apply validate_context_Ok. simpl. intuition lia.
Qed.

(** An envelope is what [Keyring_encrypt] builds from two sealed texts. *)
Lemma encrypt_Ok random ring g c p e :
  Keyring_encrypt random ring g c p = Ok e <->
  exists kek dek a ck kk,
    validate_context (profile ring) c (len p) = Ok tt /\ bt_get g (keys ring) = Some kek /\ random 0%nat = Some dek /\
    random 1%nat = Some (nonce e) /\ random 2%nat = Some (wrap_nonce e) /\ aad (profile ring) c = Ok a /\
    key dek = Ok ck /\ seal ck (nonce e) a p = Some (ciphertext e) /\ key kek = Ok kk /\
    seal kk (wrap_nonce e) (wrap_aad (profile ring) a g) dek = Some (wrapped_dek e) /\ kek_generation e = g /\ aad_version e = 1.
Proof.
  unfold Keyring_encrypt. rewrite bind_Ok. split.
  - intros ([] & Hv & H1). apply bind_Ok in H1 as (kek & Hk%ok_or_Ok & H1). apply bind_Ok in H1 as (dek & H0%ok_or_Ok & H1).
    apply bind_Ok in H1 as (n & Hn%ok_or_Ok & H1). apply bind_Ok in H1 as (wn & Hwn%ok_or_Ok & H1).
    apply bind_Ok in H1 as (a & Ha & H1). apply bind_Ok in H1 as (ck & Hck & H1). apply bind_Ok in H1 as (ct & Hct%ok_or_Ok & H1).
    apply bind_Ok in H1 as (kk & Hkk & H1). apply bind_Ok in H1 as (wd & Hwd%ok_or_Ok & H1).
    injection H1 as <-. simpl. exists kek, dek, a, ck, kk. done.
  - destruct e as [ct n wd wn kg v]. simpl. intros (kek & dek & a & ck & kk & Hv & Hk & H0 & H1 & H2 & Ha & Hck & Hs & Hkk & Hw & -> & ->).
    exists tt. split; [done|]. rewrite Hk, H0, H1, H2, Ha. cbn [ok_or].
    rewrite Hck, Hs. cbn [ok_or]. rewrite Hkk. by rewrite Hw.
Qed.

Lemma key_Ok b k : key b = Ok k <-> unbound_key b = Some k.
Proof. apply ok_or_Ok. Qed.

Lemma key_len b k : key b = Ok k -> len b = KEY_BYTES.
Proof. intros Hk%key_Ok. apply unbound_key_32. by exists k. Qed.

Lemma encrypt_total random ring g c p dek n wn :
  keyring_ok ring -> is_i64 (credential_generation c) -> validate_context (profile ring) c (len p) = Ok tt ->
  is_Some (bt_get g (keys ring)) ->
  random 0%nat = Some dek -> len dek = KEY_BYTES -> random 1%nat = Some n -> len n = NONCE_BYTES ->
  random 2%nat = Some wn -> len wn = NONCE_BYTES -> exists e, Keyring_encrypt random ring g c p = Ok e.
Proof.
  intros (Hp & _ & Hks) Hi Hv [kek Hk] H0 Hdek H1 Hn H2 Hwn.
  destruct (aad_total _ _ _ Hp Hv Hi) as [a Ha]. destruct (key_32 _ Hdek) as [ck Hck].
  destruct (key_32 kek) as [kk Hkk]; [by eapply Hks|].
  assert (len p <= 8192) as Hl. { apply validate_context_Ok in Hv. destruct Hp as [Hp | Hp]; rewrite Hp in Hv; simpl in Hv; lia. }
  destruct (seal_total ck n a p Hn ltac:(lia)) as [ct Hct].
  destruct (seal_total kk wn (wrap_aad (profile ring) a g) dek Hwn ltac:(unfold KEY_BYTES in *; lia)) as [wd Hwd].
  exists (mkEnvelope ct n wd wn g 1). apply encrypt_Ok. eauto 20.
Qed.

(** What a successful [Keyring_decrypt] has opened. *)
Lemma decrypt_Ok ring c e p :
  Keyring_decrypt ring c e = Ok p ->
  exists kek dek a kk ck, bt_get (kek_generation e) (keys ring) = Some kek /\ aad (profile ring) c = Ok a /\ key kek = Ok kk /\
    open kk (wrap_nonce e) (wrap_aad (profile ring) a (kek_generation e)) (wrapped_dek e) = Some dek /\
    key dek = Ok ck /\ open ck (nonce e) a (ciphertext e) = Some p.
Proof.
  unfold Keyring_decrypt. rewrite bind_Ok. intros ([] & _ & H1). apply guard_Ok in H1 as [_ H1].
  apply bind_Ok in H1 as (kek & Hk%ok_or_Ok & H1). apply bind_Ok in H1 as (a & Ha & H1).
  apply bind_Ok in H1 as (kk & Hkk & H1). apply bind_Ok in H1 as (dek & Hd%ok_or_Ok & H1). apply guard_Ok in H1 as [_ H1].
  apply bind_Ok in H1 as (ck & Hck & H1). apply ok_or_Ok in H1. eauto 20.
Qed.

Lemma decrypt_encrypt random ring ring' g c p e :
  Keyring_encrypt random ring g c p = Ok e -> profile ring' = profile ring -> bt_get g (keys ring') = bt_get g (keys ring) ->
  Keyring_decrypt ring' c e = Ok p.
Proof.
  intros (kek & dek & a & ck & kk & Hv & Hk & H0 & H1 & H2 & Ha & Hck & Hs & Hkk & Hw & Hg & Hver)%encrypt_Ok Hp Hr.
  apply seal_open in Hs as [Hcl Hco], Hw as [Hwl Hwo]. pose proof (key_len _ _ Hck) as Hdl.
  pose proof (len_nonneg p). pose proof Hv as (_ & _ & _ & _ & _ & Hne & _)%validate_context_Ok.
  unfold Keyring_decrypt. rewrite Hp, Hcl, Hwl, Hver, Hg, Hr, Hk, Hdl. unfold TAG_BYTES, KEY_BYTES in *.
  replace (Z.max 0 (len p + 16 - 16)) with (len p) by lia. rewrite Hv.
  destruct (Z.leb_spec (len p + 16) 16); [lia|]. cbn [Z.eqb negb orb Pos.eqb Z.add Pos.add Pos.succ Pos.add_carry ok_or].
  rewrite Ha, Hkk, Hwo. cbn [ok_or]. rewrite Hdl. cbn [Z.eqb negb Pos.eqb]. by rewrite Hck, Hco.
Qed.

(** The wrapped key of [e] was opened under data with which it was not sealed: a
    forgery against the authenticated encryption. *)
Definition wrap_forged (kek : bytes) (e : SecretEnvelope) : Prop :=
  exists kk sealed presented dek, key kek = Ok kk /\ seal kk (wrap_nonce e) sealed dek = Some (wrapped_dek e) /\
    presented <> sealed /\ is_Some (open kk (wrap_nonce e) presented (wrapped_dek e)).

Lemma decrypt_bound random ring ring' g c c' p p' e kek :
  keyring_ok ring -> keyring_ok ring' -> context_typed c -> context_typed c' ->
  Keyring_encrypt random ring g c p = Ok e -> bt_get g (keys ring) = Some kek -> bt_get g (keys ring') = Some kek ->
  Keyring_decrypt ring' c' e = Ok p' -> profile ring' = profile ring /\ c' = c /\ p' = p \/ wrap_forged kek e.
Proof.
  intros [Hp _] [Hp' _] Ht Ht' He Hkek Hr Hd.
  pose proof (decrypt_encrypt _ ring ring _ _ _ _ He eq_refl eq_refl) as Hback.
  apply encrypt_Ok in He as (k0 & dek & a & ck & kk & Hv & Hk & H0 & H1 & H2 & Ha & Hck & Hs & Hkk & Hw & Hg & Hver).
  assert (k0 = kek) as -> by congruence.
  pose proof Hd as (k1 & dek' & a' & kk' & ck' & Hk1 & Ha' & Hkk' & Ho & _)%decrypt_Ok.
  rewrite Hg in *. assert (k1 = kek) as -> by congruence. assert (kk' = kk) as -> by congruence.
  destruct (decide (wrap_aad (profile ring') a' g = wrap_aad (profile ring) a g)) as [Heq|Hne].
  - left. apply (wrap_aad_inj _ _ c' c) in Heq as [Hpp ->]; [|done..]. split; [done|]. split; [done|].
    rewrite (decrypt_encrypt random ring ring' g c p e) in Hd; [congruence| |done|congruence].
    apply encrypt_Ok. eauto 20.
  - right. exists kk, (wrap_aad (profile ring) a g), (wrap_aad (profile ring') a' g), dek. eauto.
Qed.

(** C26. Secrets of a keyring loaded from a file survive storage and stay with their
    context: encrypting a valid secret under a known generation succeeds, every
    keyring of the same profile that still holds the key of this generation
    decrypts it to the same bytes, and a keyring that holds this key, of either
    profile, decrypts the envelope for no other tenant, secret, owner, namespace,
    kind or credential generation and under no other profile, unless the
    authenticated encryption itself is broken for the stored key. *)
Theorem secrets_bound_to_context `{Base64StandardLib} json file prof ring random g c p dek n wn :
  known_profile prof -> Keyring_load json file prof = Ok ring ->
  context_typed c -> is_i64 (credential_generation c) -> validate_context prof c (len p) = Ok tt ->
  is_Some (bt_get g (keys ring)) ->
  random 0%nat = Some dek -> len dek = KEY_BYTES -> random 1%nat = Some n -> len n = NONCE_BYTES ->
  random 2%nat = Some wn -> len wn = NONCE_BYTES ->
  exists e, Keyring_encrypt random ring g c p = Ok e /\
    forall json' file' prof' ring', known_profile prof' -> Keyring_load json' file' prof' = Ok ring' ->
      bt_get g (keys ring') = bt_get g (keys ring) ->
      (prof' = prof -> Keyring_decrypt ring' c e = Ok p) /\
      (forall c' p', context_typed c' -> Keyring_decrypt ring' c' e = Ok p' ->
         prof' = prof /\ c' = c /\ p' = p \/ exists kek, bt_get g (keys ring) = Some kek /\ wrap_forged kek e).
Proof.
  intros Hp Hl Ht Hi Hv [kek Hk] H0 Hd H1 Hn H2 Hw. apply Keyring_load_ok in Hl as [Hok <-]; [|done].
  destruct (encrypt_total random ring g c p dek n wn) as [e He]; [by eauto..|]. exists e. split; [done|].
  intros json' file' prof' ring' Hp' Hl' Hr. apply Keyring_load_ok in Hl' as [Hok' <-]; [|done]. split.
  - intros Heq. by eapply decrypt_encrypt.
  - intros c' p' Ht' Hdec. rewrite Hk in Hr. destruct (decrypt_bound random ring ring' g c c' p p' e kek) as [?|?]; eauto.
Qed.
End envelope_proofs.
End proofs.

(** ** A concrete vault *)

Module Demo.
Import SecretVault.

(** A transparent cipher whose tag is a checksum of all inputs. *)
Definition checksum (k n a p : bytes) : bytes := be_bytes 16 (fold_left (fun acc c => (acc * 257 + byte_val c + 1) mod 2 ^ 128) (k ++ n ++ a ++ p) 0).
Lemma checksum_length k n a p : length (checksum k n a p) = 16%nat.
Proof. apply be_bytes_length. Qed.
Definition toy_open (k n a c : bytes) : option bytes :=
  let p := take (length c - 16) c in
  if bool_decide (c = p ++ checksum k n a p) then Some p else None.
#[export] Instance toy_aead : AeadLib := {|
  aead_key := bytes;
  unbound_key b := if len b =? 32 then Some b else None;
  seal k n a p := Some (p ++ checksum k n a p);
  open := toy_open
|}.

#[export] Instance toy_laws : AeadLaws.
Proof.
  split.
  - intros b. unfold unbound_key, toy_aead, KEY_BYTES. destruct (Z.eqb_spec (len b) 32); [|rewrite is_Some_alt]; naive_solver.
  - intros. by eexists.
  - intros k n a p c [= <-]. split; [rewrite len_app; unfold len; by rewrite checksum_length|].
    unfold open, toy_aead, toy_open. rewrite length_app, checksum_length.
    replace (length p + 16 - 16)%nat with (length p) by lia. rewrite take_app_length. by rewrite bool_decide_eq_true_2.
Qed.

#[export] Instance toy_standard : Base64StandardLib := fun s => t ← strip_suffix "=" s; Base64.dec (as_bytes t).

(** The document of the test [keyring_format_is_profile_specific]. *)
Definition document : KeyringDocument :=
  mkKeyringDocument "filebelt.mount-keyring.v1" [mkKeyDocument 4 "BwcHBwcHBwcHBwcHBwcHBwcHBwcHBwcHBwcHBwcHBwc="].
Definition json (file : bytes) : option KeyringDocument := Some document.
Definition ring : Keyring := mkKeyring VaultProfile_mount [(4, replicate 32 (byte_of_Z 7))].
Definition context : SecretContext := mkContext 1 2 3 "smb" "password" 3.
Definition random (i : nat) : option bytes :=
  match i with O => Some (replicate 32 "d"%char) | 1%nat => Some (replicate 12 "n"%char) | _ => Some (replicate 12 "w"%char) end.

Example loads_for_one_profile :
  Keyring_load json (Some []) VaultProfile_mount = Ok ring /\ Keyring_load json (Some []) VaultProfile_mcp = Err InvalidKeyring.
Proof. split; vm_compute; reflexivity. Qed.

Example refused_for_another_secret :
  match Keyring_encrypt random ring 4 context (as_bytes "private-token") with
  | Ok e => Keyring_decrypt ring context e = Ok (as_bytes "private-token") /\
            Keyring_decrypt ring (mkContext 1 9 3 "smb" "password" 3) e = Err InvalidEnvelope
  | Err _ => False
  end.
Proof. vm_compute. split; reflexivity. Qed.

Lemma secrets_bound_to_context_witness :
  exists e, Keyring_encrypt random ring 4 context (as_bytes "private-token") = Ok e /\
    Keyring_decrypt ring context e = Ok (as_bytes "private-token").
Proof.
  destruct (secrets_bound_to_context json (Some []) VaultProfile_mount ring random 4 context (as_bytes "private-token")
              (replicate 32 "d"%char) (replicate 12 "n"%char) (replicate 12 "w"%char)) as [e [He Hd]].
  - by right.
  - vm_compute. reflexivity.
  - repeat split; vm_compute; reflexivity.
  - split; vm_compute; discriminate.
  - vm_compute. reflexivity.
  - vm_compute. by eexists.
  - reflexivity.
  - vm_compute. reflexivity.
  - reflexivity.
  - vm_compute. reflexivity.
  - reflexivity.
  - vm_compute. reflexivity.
  - exists e. split; [exact He|].
    apply (Hd json (Some []) VaultProfile_mount ring); [by right|vm_compute; reflexivity|reflexivity|reflexivity].
Defined.
End Demo.
