(* ===== verification/JobStore.v ===== *)
(** Model of the job queue: the tables [jobs] and [job_attempts] of one tenant, the
    operations on them in [source/crates/filebelt-database/src/lib.rs], and the part of
    [source/apps/filebelt-worker-maintenance/src/lib.rs] that leases, renews and settles
    jobs.  A claim is several statements with clock readings of their own, the first of which
    locks no job: in the histories other transactions come between it and the others.  Every
    other operation is one step that reads the clock once.  Which rows a concurrent
    transaction has locked, how PostgreSQL orders rows with equal sort keys and the random
    delay of a retry are arguments; so is the work that a job does.  The second half of the
    file is the theory of the queue under any number of workers. *)
From S2P Require Import Prelude Collections Libraries McpPolicy CollaborationStore StorageLayout.

Open Scope string_scope.
Open Scope Z_scope.
Open Scope list_scope.
Open Scope bool_scope.

(** ** Rows *)

Inductive JobRowState := JQueued | JRunning | JRetryWait | JTerminal | JOperatorBlocked | JComplete.
#[export] Instance JobRowState_eq_dec : EqDecision JobRowState.
Proof. solve_decision. Defined.

Record JobsRow := mkJob {
  jb_kind : string; jb_state : JobRowState; jb_priority : Z; jb_aggregate : Uuid; jb_key : string; jb_payload : Value;
  jb_attempt_count : Z; jb_available_at : Z; jb_lease_owner : option Uuid; jb_lease_expires_at : option Z; jb_fencing_token : Z;
  jb_last_error : option string; jb_created_at : Z; jb_updated_at : Z
}.
Record AttemptRow := mkAttempt { at_worker : Uuid; at_fencing_token : Z; at_started_at : Z; at_finished_at : option Z; at_outcome : option string }.
Record Jobs := mkJobs { jobs : gmap Uuid JobsRow; attempts : gmap (Uuid * Z) AttemptRow }.

(** [struct JobRecord]; all rows are those of one tenant *)
Record JobRecord := mkJobRecord { jr_id : Uuid; jr_kind : string; jr_payload : Value; jr_attempt : Z; jr_fencing_token : Z }.

Definition JOB_KINDS : list string := ["upload_expire"; "upload_reconcile"; "payload_delete"; "payload_scrub"; "recursive_namespace"].
(** [CHECK (attempt_count BETWEEN 0 AND 8)] *)
Definition MAX_ATTEMPTS : Z := 8.

Definition job_to (state : JobRowState) (error : option string) (available_at now : Z) (j : JobsRow) : JobsRow :=
  mkJob (jb_kind j) state (jb_priority j) (jb_aggregate j) (jb_key j) (jb_payload j) (jb_attempt_count j) available_at None None
    (jb_fencing_token j) error (jb_created_at j) now.
Definition finish_attempt (outcome : string) (now : Z) (a : AttemptRow) : AttemptRow :=
  mkAttempt (at_worker a) (at_fencing_token a) (at_started_at a) (Some now) (Some outcome).
Definition unfinished (a : AttemptRow) : bool := bool_decide (at_finished_at a = None).

(** ** Enqueuing *)

(** [INSERT INTO jobs (..) VALUES (..,'queued',..) ON CONFLICT DO NOTHING]: the identifier and
    the pair of kind and idempotency key are unique. *)
Definition enqueue (id : Uuid) (kind : string) (priority : Z) (aggregate : Uuid) (key : string) (payload : Value) (now : Z) (t : Jobs)
  : result DatabaseError Z * Jobs :=
  if negb (existsb (String.eqb kind) JOB_KINDS) then (Err Sql, t)
  else if bool_decide (is_Some (jobs t !! id))
       || existsb (fun e => String.eqb (jb_kind e.2) kind && String.eqb (jb_key e.2) key) (map_to_list (jobs t))
  then (Ok 0, t)
  else (Ok 1, mkJobs (<[id := mkJob kind JQueued priority aggregate key payload 0 now None None 0 None now now]> (jobs t)) (attempts t)).

(** ** Claiming *)

Definition job_lease_expired (now : Z) (j : JobsRow) : bool := match jb_lease_expires_at j with Some e => e <=? now | None => false end.
(** a running job that has used its last attempt *)
Definition exhausted (now : Z) (j : JobsRow) : bool :=
  bool_decide (jb_state j = JRunning) && job_lease_expired now j && (MAX_ATTEMPTS <=? jb_attempt_count j).
Definition job_due (now : Z) (j : JobsRow) : bool :=
  match jb_state j with
  | JQueued | JRetryWait => jb_available_at j <=? now
  | JRunning => job_lease_expired now j && (jb_attempt_count j <? MAX_ATTEMPTS)
  | _ => false
  end.

(** [ORDER BY priority,available_at,created_at]; [tie] orders rows with equal keys. *)
Definition earlier (tie : Uuid -> Z) (a b : Uuid * JobsRow) : bool :=
  (jb_priority a.2 <? jb_priority b.2)
  || ((jb_priority a.2 =? jb_priority b.2)
      && ((jb_available_at a.2 <? jb_available_at b.2)
          || ((jb_available_at a.2 =? jb_available_at b.2)
              && ((jb_created_at a.2 <? jb_created_at b.2)
                  || ((jb_created_at a.2 =? jb_created_at b.2) && (tie a.1 <? tie b.1)))))).
Fixpoint first_of (tie : Uuid -> Z) (l : list (Uuid * JobsRow)) : option (Uuid * JobsRow) :=
  match l with
  | [] => None
  | e :: l => match first_of tie l with Some m => if earlier tie m e then Some m else Some e | None => Some e end
  end.
(** the row that [SELECT .. FOR UPDATE SKIP LOCKED LIMIT 1] returns *)
Definition select_job (now : Z) (locked : gset Uuid) (tie : Uuid -> Z) (t : Jobs) : option (Uuid * JobsRow) :=
  first_of tie (List.filter (fun e => job_due now e.2 && negb (bool_decide (e.1 ∈ locked))) (map_to_list (jobs t))).

(** The first statement of a claim: the open attempts of running jobs that have used all of
    them, with the time at which each is closed. *)
Definition first_marks (now : Z) (t : Jobs) : gmap (Uuid * Z) Z :=
  map_imap (fun k a => match jobs t !! k.1 with Some j => if exhausted now j && unfinished a then Some now else None | None => None end) (attempts t).
Definition mark_attempts (marked : gmap (Uuid * Z) Z) (t : Jobs) : Jobs :=
  mkJobs (jobs t) (map_imap (fun k a => Some (match marked !! k with Some now => finish_attempt "lease_expired" now a | None => a end)) (attempts t)).
(** The second statement: it ends the running jobs without an attempt left. *)
Definition end_exhausted (now : Z) (t : Jobs) : Jobs :=
  mkJobs ((fun j => if exhausted now j then job_to JTerminal (Some "lease_attempts_exhausted") (jb_available_at j) now j else j) <$> jobs t) (attempts t).

(** [finished_at=..,outcome=.. WHERE job_id=$2 AND attempt=$3 AND finished_at IS NULL] *)
Definition close_attempt (id : Uuid) (attempt : Z) (outcome : string) (now : Z) (t : Jobs) : Jobs :=
  mkJobs (jobs t) (alter (fun a => if unfinished a then finish_attempt outcome now a else a) (id, attempt) (attempts t)).
(** the same without the last condition *)
Definition record_outcome (id : Uuid) (attempt : Z) (outcome : string) (now : Z) (t : Jobs) : Jobs :=
  mkJobs (jobs t) (alter (finish_attempt outcome now) (id, attempt) (attempts t)).

Definition lease_job (id worker : Uuid) (lease_seconds now : Z) (j : JobsRow) (t : Jobs) : result DatabaseError (JobRecord * Jobs) :=
  if negb (jb_attempt_count j + 1 <=? MAX_ATTEMPTS) then Err Sql
  else
    let? token := ok_or Sql (checked i64_min i64_max (jb_fencing_token j + 1)) in
    let j' := mkJob (jb_kind j) JRunning (jb_priority j) (jb_aggregate j) (jb_key j) (jb_payload j) (jb_attempt_count j + 1)
                (jb_available_at j) (Some worker) (Some (now + lease_seconds * SECOND_US)) token (jb_last_error j) (jb_created_at j) now in
    if bool_decide (is_Some (attempts t !! (id, jb_attempt_count j + 1))) || (jb_attempt_count j + 1 <? 1) || (token <=? 0) then Err Sql
    else Ok (mkJobRecord id (jb_kind j) (jb_payload j) (jb_attempt_count j + 1) token,
             mkJobs (<[id := j']> (jobs t)) (<[(id, jb_attempt_count j + 1) := mkAttempt worker token now None None]> (attempts t))).

(** the clock readings of the second statement, of the selection, and of what follows it *)
Record ClaimClock := mkClock { ck_end : Z; ck_select : Z; ck_lease : Z }.

(** The second statement and the rest, after the first has marked some attempts; an error
    rolls all of it back. *)
Definition claim_commit (worker : Uuid) (lease_seconds : Z) (clock : ClaimClock) (locked : gset Uuid) (tie : Uuid -> Z) (marked : gmap (Uuid * Z) Z) (t : Jobs)
  : result DatabaseError (option JobRecord) * Jobs :=
  let t1 := end_exhausted (ck_end clock) (mark_attempts marked t) in
  match select_job (ck_select clock) locked tie t1 with
  | None => (Ok None, t1)
  | Some (id, j) =>
      let t2 := if bool_decide (jb_state j = JRunning) then close_attempt id (jb_attempt_count j) "lease_expired" (ck_lease clock) t1 else t1 in
      match lease_job id worker lease_seconds (ck_lease clock) j t2 with
      | Ok (record, t3) => (Ok (Some record), t3)
      | Err e => (Err e, t)
      end
  end.
(** a claim that nothing comes between *)
Definition claim_job (worker : Uuid) (lease_seconds now : Z) (clock : ClaimClock) (locked : gset Uuid) (tie : Uuid -> Z) (t : Jobs)
  : result DatabaseError (option JobRecord) * Jobs := claim_commit worker lease_seconds clock locked tie (first_marks now t) t.

(** ** Settling a claimed job *)

(** [WHERE id=$2 AND state='running' AND fencing_token=$3] *)
Definition held_row (r : JobRecord) (t : Jobs) : option JobsRow :=
  match jobs t !! jr_id r with
  | Some j => if bool_decide (jb_state j = JRunning) && (jb_fencing_token j =? jr_fencing_token r) then Some j else None
  | None => None
  end.
Definition put_job (id : Uuid) (j : JobsRow) (t : Jobs) : Jobs := mkJobs (<[id := j]> (jobs t)) (attempts t).

Definition complete_job (r : JobRecord) (outcome : string) (now : Z) (t : Jobs) : result DatabaseError unit * Jobs :=
  match held_row r t with
  | Some j => (Ok tt, record_outcome (jr_id r) (jr_attempt r) outcome now
                        (put_job (jr_id r) (job_to JComplete (jb_last_error j) (jb_available_at j) now j) t))
  | None => (Err StaleGeneration, t)
  end.

(** [1_i32.checked_shl(attempt.min(8) as u32).unwrap_or(256).min(300)] *)
Definition retry_delay_seconds (attempt : Z) : Z :=
  let shift := Z.min attempt 8 mod 4294967296 in
  Z.min (if shift <? 32 then (Z.shiftl 1 shift + 2147483648) mod 4294967296 - 2147483648 else 256) 300.

(** [jitter s] is [random() * s] seconds, in microseconds. *)
Definition fail_job (jitter : Z -> Z) (r : JobRecord) (error_code : string) (retryable : bool) (now : Z) (t : Jobs)
  : result DatabaseError unit * Jobs :=
  let state := if retryable && (jr_attempt r <? 8) then JRetryWait else JTerminal in
  match held_row r t with
  | Some j => (Ok tt, close_attempt (jr_id r) (jr_attempt r) error_code now
                        (put_job (jr_id r) (job_to state (Some error_code) (now + jitter (retry_delay_seconds (jr_attempt r))) now j) t))
  | None => (Err StaleGeneration, t)
  end.

(** ** The maintenance worker *)

Definition JOB_LEASE_SECONDS : Z := 30.
Definition JOB_HEARTBEAT_SECONDS : Z := 10.
Definition JOB_MAX_RUNTIME_SECONDS : Z := 6 * 60 * 60.
Definition SCRUB_INTERVAL_SECONDS : Z := 30 * 24 * 60 * 60.

Inductive MaintenanceError :=
| MaintenanceDatabase (e : DatabaseError) | MaintenanceSql | MaintenanceStorage (e : StorageError) | InvalidJob | LeaseLost | JobRuntimeExceeded | Notification.
Inductive JobDisposition := Complete (outcome : string) | Deferred (delay_seconds : Z).

Definition error_code (e : MaintenanceError) : string :=
  match e with
  | MaintenanceDatabase _ | MaintenanceSql => "database_unavailable"
  | MaintenanceStorage (CorruptObject | UnsafeObject) => "storage_integrity_failure"
  | MaintenanceStorage _ => "storage_io_failure"
  | InvalidJob => "invalid_job_payload"
  | LeaseLost => "job_lease_lost"
  | JobRuntimeExceeded => "job_runtime_exceeded"
  | Notification => "notification_unavailable"
  end.

Definition heartbeat (r : JobRecord) (now : Z) (t : Jobs) : result MaintenanceError unit * Jobs :=
  match held_row r t with
  | Some j =>
      (Ok tt, put_job (jr_id r)
                (mkJob (jb_kind j) (jb_state j) (jb_priority j) (jb_aggregate j) (jb_key j) (jb_payload j) (jb_attempt_count j)
                   (jb_available_at j) (jb_lease_owner j) (Some (now + JOB_LEASE_SECONDS * SECOND_US)) (jb_fencing_token j)
                   (jb_last_error j) (jb_created_at j) now) t)
  | None => (Err LeaseLost, t)
  end.

Definition defer_job (r : JobRecord) (delay_seconds now : Z) (t : Jobs) : result MaintenanceError unit * Jobs :=
  match held_row r t with
  | Some j => (Ok tt, record_outcome (jr_id r) (jr_attempt r) "deferred_for_retention" now
                        (put_job (jr_id r) (job_to JRetryWait (jb_last_error j) (now + Z.max delay_seconds 1 * SECOND_US) now j) t))
  | None => (Err LeaseLost, t)
  end.

(** What [run_one_job] does with the outcome of the work; running too long is the error [JobRuntimeExceeded]. *)
Definition settle (jitter : Z -> Z) (r : JobRecord) (disposition : result MaintenanceError JobDisposition) (now : Z) (t : Jobs)
  : result MaintenanceError bool * Jobs :=
  match disposition with
  | Ok (Complete outcome) =>
      let (res, t') := complete_job r outcome now t in (let? _ := map_err MaintenanceDatabase res in Ok true, t')
  | Ok (Deferred delay) => let (res, t') := defer_job r delay now t in (let? _ := res in Ok true, t')
  | Err error =>
      let retryable := match error with InvalidJob | LeaseLost => false | _ => true end in
      let (res, t') := fail_job jitter r (error_code error) retryable now t in
      (let? _ := map_err MaintenanceDatabase res in if retryable then Ok true else Err error, t')
  end.

Section maintenance.
Context `{UuidLib}.
(** [payload.get(field)] of an object; the first of equal keys does not occur twice in a [Map]. *)
Definition payload_uuid (payload : Value) (field : string) : result MaintenanceError Uuid :=
  ok_or InvalidJob
    match payload with
    | JObject fields =>
        match List.find (fun e => String.eqb e.1 field) fields with Some (_, JString value) => uuid_parse_str value | _ => None end
    | _ => None
    end.
End maintenance.
Definition scrub_period (unix_seconds : Z) : Z := Z.max 0 unix_seconds / SCRUB_INTERVAL_SECONDS.

(** ** Histories *)

(** A claim whose first statement has begun: the jobs as they were then, and the attempts
    that it has marked so far, which it keeps locked until it ends. *)
Record Claiming := mkClaiming { cl_jobs : gmap Uuid JobsRow; cl_marked : gmap (Uuid * Z) Z }.

(** The tables, the job each worker is working on, and the claims under way. *)
Record System := mkSystem { tables : Jobs; held : gmap Uuid JobRecord; claiming : gmap Uuid Claiming }.

(** no claim under way has the attempt locked *)
Definition unlocked (s : System) (k : Uuid * Z) : Prop := forall w cl, claiming s !! w = Some cl -> cl_marked cl !! k = None.

(** One statement sequence of [run_one_job], of a worker that dies, or of a service that adds a
    job.  The first statement of a claim reads the jobs without locking them, and marks the
    attempts one after another, passing over those that have been closed in the meantime; the
    second statement and the rest lock the jobs that they change, and take effect when the
    claim commits.  Who settles a job waits for the lock on its attempt.  A heartbeat that
    fails ends the run, and so does every disposition. *)
Inductive job_step : System -> System -> Prop :=
| StepEnqueue id kind priority aggregate key payload now s r t :
    enqueue id kind priority aggregate key payload now (tables s) = (r, t) -> job_step s (mkSystem t (held s) (claiming s))
| StepClaimStart worker s :
    held s !! worker = None -> claiming s !! worker = None ->
    job_step s (mkSystem (tables s) (held s) (<[worker := mkClaiming (jobs (tables s)) ∅]> (claiming s)))
| StepClaimMark worker k now s cl j a :
    claiming s !! worker = Some cl -> cl_jobs cl !! k.1 = Some j -> exhausted now j = true ->
    attempts (tables s) !! k = Some a -> unfinished a = true -> unlocked s k ->
    job_step s (mkSystem (tables s) (held s) (<[worker := mkClaiming (cl_jobs cl) (<[k := now]> (cl_marked cl))]> (claiming s)))
| StepClaim worker clock locked tie s cl r t :
    claiming s !! worker = Some cl -> held s !! worker = None -> claim_commit worker JOB_LEASE_SECONDS clock locked tie (cl_marked cl) (tables s) = (Ok (Some r), t) ->
    job_step s (mkSystem t (<[worker := r]> (held s)) (delete worker (claiming s)))
| StepNoClaim worker clock locked tie s cl r t :
    claiming s !! worker = Some cl -> claim_commit worker JOB_LEASE_SECONDS clock locked tie (cl_marked cl) (tables s) = (r, t) -> (forall x, r <> Ok (Some x)) ->
    job_step s (mkSystem t (held s) (delete worker (claiming s)))
| StepClaimAborted worker s : job_step s (mkSystem (tables s) (held s) (delete worker (claiming s)))
| StepHeartbeat worker now s r t :
    held s !! worker = Some r -> heartbeat r now (tables s) = (Ok tt, t) -> job_step s (mkSystem t (held s) (claiming s))
| StepLeaseLost worker now s r e t :
    held s !! worker = Some r -> heartbeat r now (tables s) = (Err e, t) -> job_step s (mkSystem t (delete worker (held s)) (claiming s))
| StepSettle worker jitter disposition now s r res t :
    held s !! worker = Some r -> (is_Some (held_row r (tables s)) -> unlocked s (jr_id r, jr_attempt r)) ->
    settle jitter r disposition now (tables s) = (res, t) ->
    job_step s (mkSystem t (delete worker (held s)) (claiming s))
| StepCrash worker s : job_step s (mkSystem (tables s) (delete worker (held s)) (claiming s)).

Definition job_history : System -> System -> Prop := rtc job_step.
Definition job_start : System := mkSystem (mkJobs ∅ ∅) ∅ ∅.

(** ** The invariant of the tables *)

(** Only the last attempt of a job is open, while the job runs or after it ended for want of
    attempts; and the attempt of a job that runs on has an outcome only if it is the eighth
    and was found with its lease expired. *)
Record attempt_ok (j : JobsRow) (n : Z) (a : AttemptRow) : Prop := {
  ao_token : at_fencing_token a = n;
  ao_open : at_finished_at a = None -> n = jb_attempt_count j /\ (jb_state j = JRunning \/ jb_state j = JTerminal);
  ao_closed : is_Some (at_finished_at a) -> jb_state j = JRunning -> n = jb_attempt_count j -> n = MAX_ATTEMPTS /\ at_outcome a = Some "lease_expired"%string
}.

Record job_ok (t : Jobs) (id : Uuid) (j : JobsRow) : Prop := {
  ok_count : 0 <= jb_attempt_count j <= MAX_ATTEMPTS;
  ok_token : jb_fencing_token j = jb_attempt_count j;
  ok_lease : is_Some (jb_lease_expires_at j) <-> jb_state j = JRunning;
  ok_attempts : forall n, 1 <= n <= jb_attempt_count j -> exists a, attempts t !! (id, n) = Some a /\ attempt_ok j n a;
  ok_no_more : forall n, ~ (1 <= n <= jb_attempt_count j) -> attempts t !! (id, n) = None
}.
Definition jobs_ok (t : Jobs) : Prop :=
  (forall id j, jobs t !! id = Some j -> job_ok t id j) /\ (forall id n, jobs t !! id = None -> attempts t !! (id, n) = None).

(** A change of one job: the row with its attempts. *)
Lemma jobs_ok_put t t' id j' :
  jobs_ok t -> jobs t' = <[id := j']> (jobs t) -> (forall k n, k <> id -> attempts t' !! (k, n) = attempts t !! (k, n)) ->
  job_ok t' id j' -> jobs_ok t'.
Proof.
  intros [Hall Hnone] Hj Ha Hok. split.
  - intros k j. rewrite Hj. destruct (decide (k = id)) as [->|Hne]; [rewrite lookup_insert_eq|rewrite lookup_insert_ne by done].
    + by intros [= <-].
    + intros Hk. destruct (Hall _ _ Hk) as [H1 H2 H3 H4 H5]. split; try done; intros n Hn; rewrite Ha by done; auto.
  - intros k n. rewrite Hj. destruct (decide (k = id)) as [->|Hne]; [by rewrite lookup_insert_eq|].
    rewrite lookup_insert_ne by done. intros Hk. rewrite Ha by done. by apply Hnone.
Qed.

Lemma enqueue_ok id kind priority aggregate key payload now t r t' :
  enqueue id kind priority aggregate key payload now t = (r, t') -> jobs_ok t -> jobs_ok t'.
Proof.
  unfold enqueue. intros Henq Hok. repeat case_match; simplify_eq; try done.
  match goal with H : _ || _ = false |- _ => apply orb_false_iff in H as [Hnew _] end.
  apply bool_decide_eq_false in Hnew. rewrite <-eq_None_not_Some in Hnew.
  eapply jobs_ok_put; [done|done|done|]. split; simpl.
  - unfold MAX_ATTEMPTS. lia.
  - done.
  - rewrite is_Some_alt. done.
  - intros. lia.
  - intros n _. by apply Hok.
Qed.

(** A row that leaves the state running, with its last attempt closed. *)
Lemma job_ok_leave t id j state error available now (f : AttemptRow -> AttemptRow) :
  job_ok t id j -> jb_state j = JRunning -> state <> JRunning ->
  (forall a, at_fencing_token (f a) = at_fencing_token a /\ is_Some (at_finished_at (f a))) ->
  job_ok (mkJobs (<[id := job_to state error available now j]> (jobs t)) (alter f (id, jb_attempt_count j) (attempts t))) id
    (job_to state error available now j).
Proof.
  intros [H1 H2 H3 H4 H5] Hrun Hst Hf. split; simpl; [done|done| | |].
  - rewrite is_Some_alt. done.
  - intros n Hn. destruct (H4 n Hn) as (a & Ha & [Htok Hopen Hclosed]). destruct (decide (n = jb_attempt_count j)) as [->|Hne].
    + rewrite lookup_alter_eq, Ha. simpl. exists (f a). split; [done|]. destruct (Hf a) as [Hft [x Hx]].
      split; simpl; [by rewrite Hft|by rewrite Hx|done].
    + rewrite lookup_alter_ne by congruence. exists a. split; [done|]. split; simpl; [done|by intros [? _]%Hopen|done].
  - intros n Hn. destruct (decide (n = jb_attempt_count j)) as [->|Hne].
    + rewrite lookup_alter_eq, H5; done.
    + rewrite lookup_alter_ne by congruence. auto.
Qed.

(** ** Running jobs that are held *)

Definition record_ok (t : Jobs) (r : JobRecord) : Prop :=
  jr_attempt r = jr_fencing_token r /\ exists j, jobs t !! jr_id r = Some j /\ 1 <= jr_fencing_token r <= jb_fencing_token j.

(** The worker with this record holds the lease. *)
Definition current (t : Jobs) (r : JobRecord) : Prop := is_Some (held_row r t).

Lemma held_row_Some r t j :
  held_row r t = Some j <-> jobs t !! jr_id r = Some j /\ jb_state j = JRunning /\ jb_fencing_token j = jr_fencing_token r.
Proof.
  unfold held_row. destruct (jobs t !! jr_id r) as [j0|]; [|naive_solver].
  destruct (bool_decide_reflect (jb_state j0 = JRunning)), (Z.eqb_spec (jb_fencing_token j0) (jr_fencing_token r)); naive_solver.
Qed.

Lemma held_attempt t r j : jobs_ok t -> record_ok t r -> held_row r t = Some j -> jr_attempt r = jb_attempt_count j.
Proof. intros [Hall _] [-> _] (Hj & _ & Htok)%held_row_Some. rewrite <-Htok. apply (Hall _ _ Hj). Qed.

Lemma finish_attempt_closes outcome now a :
  at_fencing_token (finish_attempt outcome now a) = at_fencing_token a /\ is_Some (at_finished_at (finish_attempt outcome now a)).
Proof. split; [done|by eexists]. Qed.
Lemma close_attempt_closes outcome now a :
  let f := fun a => if unfinished a then finish_attempt outcome now a else a in
  at_fencing_token (f a) = at_fencing_token a /\ is_Some (at_finished_at (f a)).
Proof.
  simpl. unfold unfinished. destruct (bool_decide_reflect (at_finished_at a = None)) as [Hn|Hn]; [apply finish_attempt_closes|].
  split; [done|]. by destruct (at_finished_at a).
Qed.

(** What every operation preserves: tokens grow, a lost lease stays lost, final rows do not change, nor do closed attempts on which no job runs. *)
Definition final (j : JobsRow) : Prop := jb_state j = JComplete \/ jb_state j = JTerminal \/ jb_state j = JOperatorBlocked.
Record job_later (j j' : JobsRow) : Prop := {
  later_token : jb_fencing_token j <= jb_fencing_token j';
  later_lease : jb_fencing_token j = jb_fencing_token j' -> jb_state j <> JRunning -> jb_state j' <> JRunning;
  later_final : final j -> j' = j
}.
(** the job has gone beyond the attempt, or does not run *)
Definition passed (t : Jobs) (k : Uuid * Z) : Prop :=
  exists j, jobs t !! k.1 = Some j /\ (k.2 < jb_fencing_token j \/ k.2 = jb_fencing_token j /\ jb_state j <> JRunning).
Record later (t t' : Jobs) : Prop := {
  later_jobs : forall id j, jobs t !! id = Some j -> exists j', jobs t' !! id = Some j' /\ job_later j j';
  later_attempts : forall k a, attempts t !! k = Some a -> is_Some (at_finished_at a) -> passed t k -> attempts t' !! k = Some a
}.

Lemma job_later_refl j : job_later j j.
Proof. split; [lia|done|done]. Qed.
Lemma job_later_trans j1 j2 j3 : job_later j1 j2 -> job_later j2 j3 -> job_later j1 j3.
Proof.
  intros [A1 B1 C1] [A2 B2 C2]. split; [lia| |].
  - intros Heq Hn. apply B2; [lia|]. apply B1; [lia|done].
  - intros Hf. pose proof (C1 Hf) as ->. by apply C2.
Qed.
#[export] Instance later_preorder : PreOrder later.
Proof.
  split.
  - intros t. split; [|done]. intros id j Hj. exists j. split; [done|apply job_later_refl].
  - intros t1 t2 t3 [A1 B1] [A2 B2]. split.
    + intros id j Hj. destruct (A1 _ _ Hj) as (j2 & Hj2 & HL). destruct (A2 _ _ Hj2) as (j3 & Hj3 & HL2).
      exists j3. split; [done|by eapply job_later_trans].
    + intros k a Ha Hf Hp. apply B2; [by apply B1|done|]. destruct Hp as (j & Hj & Hp). destruct (A1 _ _ Hj) as (j2 & Hj2 & [Htok Hlease _]). exists j2. split; [done|].
      destruct Hp as [?|[Heq Hne]]; [left; lia|]. destruct (decide (jb_fencing_token j = jb_fencing_token j2)) as [He|]; [right; split; [lia|by apply Hlease]|left; lia].
Qed.

(** One row is replaced by a later one; closed attempts that the job has passed are kept. *)
Lemma later_put t t' id j j' :
  jobs t !! id = Some j -> jobs t' = <[id := j']> (jobs t) -> job_later j j' ->
  (forall k a, attempts t !! k = Some a -> is_Some (at_finished_at a) -> passed t k -> attempts t' !! k = Some a) -> later t t'.
Proof.
  intros Hj Heq HL Hatt. split; [|done]. intros k jk Hk. rewrite Heq. destruct (decide (k = id)) as [->|Hne].
  - rewrite lookup_insert_eq. exists j'. split; [done|]. by replace jk with j by congruence.
  - rewrite lookup_insert_ne by done. exists jk. split; [done|apply job_later_refl].
Qed.

Lemma record_ok_later t t' r : later t t' -> record_ok t r -> record_ok t' r.
Proof.
  intros [HL _] (Ha & j & Hj & Hr). split; [done|]. destruct (HL _ _ Hj) as (j' & Hj' & [Htok _ _]). exists j'. split; [done|lia].
Qed.

Lemma not_current_later t t' r : later t t' -> record_ok t r -> ~ current t r -> ~ current t' r.
Proof.
  intros [HL _] (_ & j & Hj & Hr) Hc [j' (Hj' & Hrun & Htok)%held_row_Some]. destruct (HL _ _ Hj) as (j2 & Hj2 & [Ht Hlease _]).
  replace j2 with j' in * by congruence. apply Hc. exists j. apply held_row_Some. split; [done|].
  destruct (decide (jb_state j = JRunning)) as [->|Hne]; [split; [done|lia]|]. destruct (Hlease ltac:(lia) Hne Hrun).
Qed.

(** A running row with its token is left; the attempt of the record is closed by [f]. *)
Lemma leave_ok t r j state error available now (f : AttemptRow -> AttemptRow) :
  jobs_ok t -> record_ok t r -> held_row r t = Some j -> state <> JRunning ->
  (forall a, at_fencing_token (f a) = at_fencing_token a /\ is_Some (at_finished_at (f a))) ->
  let t' := mkJobs (<[jr_id r := job_to state error available now j]> (jobs t)) (alter f (jr_id r, jr_attempt r) (attempts t)) in
  jobs_ok t' /\ later t t'.
Proof.
  intros Hok Hr Hh Hst Hf. simpl. rewrite (held_attempt _ _ _ Hok Hr Hh).
  apply held_row_Some in Hh as (Hj & Hrun & Htok). pose proof (proj1 Hok _ _ Hj) as Hjok. split.
  - eapply jobs_ok_put; [done|done| |by apply job_ok_leave]. intros k n Hne. simpl. by rewrite lookup_alter_ne by congruence.
  - eapply later_put; [done|done| |].
    + split; simpl; [lia|done|]. intros [H|[H|H]]; congruence.
    + intros [k n] a Ha Hfin (j0 & Hj0 & Hp). simpl in *. destruct (decide ((k, n) = (jr_id r, jb_attempt_count j))) as [[= -> ->]|Hne];
        [|by rewrite lookup_alter_ne by congruence].
      rewrite Hj in Hj0. injection Hj0 as <-. rewrite (ok_token _ _ _ Hjok) in Hp. destruct Hp as [?|[_ Hn]]; [lia|done].
Qed.

Lemma complete_job_ok r outcome now t res t' :
  complete_job r outcome now t = (res, t') -> jobs_ok t -> record_ok t r -> jobs_ok t' /\ later t t'.
Proof.
  unfold complete_job. intros Hc Hok Hr. destruct (held_row r t) as [j|] eqn:Hh; simplify_eq; [|split; [done|reflexivity]].
  apply (leave_ok t r j JComplete); auto using finish_attempt_closes.
Qed.
Lemma defer_job_ok r delay now t res t' :
  defer_job r delay now t = (res, t') -> jobs_ok t -> record_ok t r -> jobs_ok t' /\ later t t'.
Proof.
  unfold defer_job. intros Hc Hok Hr. destruct (held_row r t) as [j|] eqn:Hh; simplify_eq; [|split; [done|reflexivity]].
  apply (leave_ok t r j JRetryWait); auto using finish_attempt_closes.
Qed.
Lemma fail_job_ok jitter r code retryable now t res t' :
  fail_job jitter r code retryable now t = (res, t') -> jobs_ok t -> record_ok t r -> jobs_ok t' /\ later t t'.
Proof.
  unfold fail_job. intros Hc Hok Hr. destruct (held_row r t) as [j|] eqn:Hh; simplify_eq; [|split; [done|reflexivity]].
  apply (leave_ok t r j); [done|done|done|by case_match|]. intros a. apply close_attempt_closes.
Qed.
Lemma settle_ok jitter r disposition now t res t' :
  settle jitter r disposition now t = (res, t') -> jobs_ok t -> record_ok t r -> jobs_ok t' /\ later t t'.
Proof.
  unfold settle. intros Hs Hok Hr. destruct disposition as [[outcome|delay]|e].
  - destruct (complete_job r outcome now t) eqn:Hc. simplify_eq. by eapply complete_job_ok.
  - destruct (defer_job r delay now t) eqn:Hc. simplify_eq. by eapply defer_job_ok.
  - match type of Hs with (let (_, _) := ?f in _) = _ => destruct f eqn:Hc end. simplify_eq. by eapply fail_job_ok.
Qed.

Lemma heartbeat_ok r now t res t' : heartbeat r now t = (res, t') -> jobs_ok t -> jobs_ok t' /\ later t t'.
Proof.
  unfold heartbeat. intros Hc Hok. destruct (held_row r t) as [j|] eqn:Hh; simplify_eq; [|split; [done|reflexivity]].
  apply held_row_Some in Hh as (Hj & Hrun & Htok). destruct (proj1 Hok _ _ Hj) as [H1 H2 H3 H4 H5]. split.
  - eapply jobs_ok_put; [done|done|done|]. split; simpl; [done|done| | |done]; [split; [done|by eexists]|].
    intros n Hn. destruct (H4 n Hn) as (a & Ha & [Ha1 Ha2 Ha3]). exists a. by split.
  - eapply later_put; [done|done| |done]. split; simpl; [lia|done|]. intros [H|[H|H]]; congruence.
Qed.

(** ** Claims *)

#[local] Arguments end_exhausted : simpl never.
Lemma exhausted_running now j : exhausted now j = true -> jb_state j = JRunning /\ job_lease_expired now j = true /\ MAX_ATTEMPTS <= jb_attempt_count j.
Proof. unfold exhausted. rewrite !andb_true_iff, bool_decide_eq_true, Z.leb_le. tauto. Qed.

Lemma end_exhausted_jobs now t id j' :
  jobs (end_exhausted now t) !! id = Some j' <->
  exists j, jobs t !! id = Some j /\
    j' = if exhausted now j then job_to JTerminal (Some "lease_attempts_exhausted"%string) (jb_available_at j) now j else j.
Proof. unfold end_exhausted. simpl. rewrite lookup_fmap, fmap_Some. done. Qed.

Lemma end_exhausted_ok now t : jobs_ok t -> jobs_ok (end_exhausted now t).
Proof.
  intros [Hall Hnone]. split; [|intros id n Hid; unfold end_exhausted in Hid; simpl in Hid; rewrite lookup_fmap, fmap_None in Hid; by apply Hnone].
  intros id j' (j & Hj & ->)%end_exhausted_jobs. pose proof (Hall _ _ Hj) as [H1 H2 H3 H4 H5]. destruct (exhausted now j) eqn:Hex; [|by split].
  split; cbn [jb_attempt_count jb_fencing_token jb_lease_expires_at jb_state job_to]; [done|done|rewrite is_Some_alt; done| |done].
  intros n Hn. destruct (H4 n Hn) as (a & Ha & [Htok Hopen _]). exists a. split; [done|]. split; simpl; [done|intros [? _]%Hopen; auto|done].
Qed.

Lemma end_exhausted_later now t : later t (end_exhausted now t).
Proof.
  split; [|done]. intros id j Hj. eexists. split; [apply end_exhausted_jobs; by eauto|]. destruct (exhausted now j) eqn:Hex; [|apply job_later_refl].
  pose proof (exhausted_running _ _ Hex) as (Hrun & _). split; simpl; [lia|done|]. intros [H|[H|H]]; congruence.
Qed.

(** What a claim has marked: open attempts of jobs that have no other left. *)
Definition marks_ok (t : Jobs) (marked : gmap (Uuid * Z) Z) : Prop :=
  forall k now, marked !! k = Some now -> exists a j, attempts t !! k = Some a /\ at_finished_at a = None /\ jobs t !! k.1 = Some j /\ jb_attempt_count j = MAX_ATTEMPTS.

#[local] Arguments mark_attempts : simpl never.
Lemma mark_attempts_lookup marked t k :
  attempts (mark_attempts marked t) !! k = (fun a => match marked !! k with Some now => finish_attempt "lease_expired" now a | None => a end) <$> attempts t !! k.
Proof. unfold mark_attempts. simpl. rewrite map_lookup_imap. by destruct (attempts t !! k). Qed.
Lemma mark_attempts_ok marked t : jobs_ok t -> marks_ok t marked -> jobs_ok (mark_attempts marked t) /\ later t (mark_attempts marked t).
Proof.
  intros [Hall Hnone] Hm. split; [split|split].
  - intros id j Hj. change (jobs (mark_attempts marked t)) with (jobs t) in Hj. pose proof (Hall _ _ Hj) as [H1 H2 H3 H4 H5]. split; [done|done|done| |].
    + intros n Hn. destruct (H4 n Hn) as (a & Ha & [Htok Hopen Hclosed]). rewrite mark_attempts_lookup, Ha. simpl. eexists. split; [done|]. destruct (marked !! (id, n)) as [now|] eqn:Hk; [|done].
      split; simpl; [done|done|]. intros _ _ ->. destruct (Hm _ _ Hk) as (a' & j' & _ & _ & Hj' & Hc). simpl in Hj'. rewrite Hj in Hj'. injection Hj' as <-. done.
    + intros n Hn. by rewrite mark_attempts_lookup, H5.
  - intros id n Hid. rewrite mark_attempts_lookup, Hnone; done.
  - intros id j Hj. exists j. split; [done|apply job_later_refl].
  - intros k a Ha [x Hx] _. rewrite mark_attempts_lookup, Ha. simpl. destruct (marked !! k) as [now|] eqn:Hk; [|done]. destruct (Hm _ _ Hk) as (a' & _ & Ha' & Hn & _). congruence.
Qed.

(** The selected row is job_due, not locked, and no other such row comes before it. *)
Lemma earlier_trans tie a b c : earlier tie a b = true -> earlier tie b c = true -> earlier tie a c = true.
Proof. unfold earlier. rewrite !orb_true_iff, !andb_true_iff, !orb_true_iff, !andb_true_iff, !orb_true_iff, !andb_true_iff, !Z.ltb_lt, !Z.eqb_eq. lia. Qed.
Lemma earlier_ge tie a b c : earlier tie a b = false -> earlier tie c b = true -> earlier tie a c = false.
Proof. intros Hab Hcb. destruct (earlier tie a c) eqn:Hac; [|done]. by rewrite (earlier_trans _ _ _ _ Hac Hcb) in Hab. Qed.
Lemma earlier_irrefl tie a : earlier tie a a = false.
Proof. unfold earlier. rewrite !Z.ltb_irrefl, !andb_false_r. simpl. by rewrite ?andb_false_r. Qed.

Lemma earlier_total tie a b c : earlier tie b a = false -> earlier tie c b = false -> earlier tie c a = false.
Proof.
  unfold earlier. rewrite !orb_false_iff, !andb_false_iff, !orb_false_iff, !andb_false_iff, !orb_false_iff, !andb_false_iff, !Z.ltb_ge, !Z.eqb_neq. lia.
Qed.

Lemma first_of_spec tie l m : first_of tie l = Some m -> m ∈ l /\ forall e, e ∈ l -> earlier tie e m = false.
Proof.
  revert m. induction l as [|e l IH]; intros m; [done|]. simpl. destruct (first_of tie l) as [m'|] eqn:Hf.
  - destruct (IH m' eq_refl) as [Hin Hmin]. destruct (earlier tie m' e) eqn:He; intros [= <-].
    + split; [by right|]. intros x [->|Hx]%elem_of_cons; [|auto].
      destruct (earlier tie e m') eqn:Hem; [|done]. pose proof (earlier_trans _ _ _ _ He Hem). by rewrite earlier_irrefl in *.
    + split; [by left|]. intros x [->|Hx]%elem_of_cons; [apply earlier_irrefl|]. eapply earlier_total; [exact He|auto].
  - intros [= <-]. split; [by left|]. intros x [->|Hx]%elem_of_cons; [apply earlier_irrefl|].
    destruct l as [|y l]; [by apply not_elem_of_nil in Hx|]. simpl in Hf. repeat case_match; done.
Qed.
Lemma first_of_None tie l : first_of tie l = None <-> l = [].
Proof. split; [|by intros ->]. destruct l; [done|]. simpl. repeat case_match; done. Qed.

Lemma elem_of_due now locked t e :
  e ∈ List.filter (fun e => job_due now e.2 && negb (bool_decide (e.1 ∈ locked))) (map_to_list (jobs t)) <->
  jobs t !! e.1 = Some e.2 /\ job_due now e.2 = true /\ e.1 ∉ (locked : gset Uuid).
Proof.
  rewrite list_elem_of_In, filter_In, <-list_elem_of_In. destruct e as [id j]. rewrite elem_of_map_to_list. simpl.
  rewrite andb_true_iff, negb_true_iff, bool_decide_eq_false. tauto.
Qed.

Lemma select_job_Some now locked tie t id j :
  select_job now locked tie t = Some (id, j) ->
  jobs t !! id = Some j /\ job_due now j = true /\ (id ∉ locked) /\
  forall id' j', jobs t !! id' = Some j' -> job_due now j' = true -> id' ∉ locked -> earlier tie (id', j') (id, j) = false.
Proof.
  unfold select_job. intros [Hin Hmin]%first_of_spec. apply elem_of_due in Hin as (H1 & H2 & H3). do 3 (split; [done|]).
  intros id' j' Hj Hd Hl. apply Hmin, elem_of_due. done.
Qed.
Lemma select_job_None now locked tie t :
  select_job now locked tie t = None <-> forall id j, jobs t !! id = Some j -> job_due now j = true -> id ∈ locked.
Proof.
  unfold select_job. rewrite first_of_None. split.
  - intros Hnil id j Hj Hd. destruct (decide (id ∈ locked)); [done|]. exfalso.
    apply (not_elem_of_nil (id, j)). rewrite <-Hnil. by apply elem_of_due.
  - intros Hall. apply elem_of_nil_inv. intros e He. apply elem_of_due in He as (H1 & H2 & H3). by apply H3, (Hall _ _ H1).
Qed.

Lemma close_attempt_jobs id n outcome now t : jobs (close_attempt id n outcome now t) = jobs t.
Proof. done. Qed.

(** Leasing the row of a job whose attempts are all closed. *)
Lemma lease_job_ok id worker seconds now t t2 j r t3 :
  jobs_ok t -> jobs t !! id = Some j -> jobs t2 = jobs t ->
  (forall k n, k <> id -> attempts t2 !! (k, n) = attempts t !! (k, n)) ->
  (forall n, 1 <= n <= jb_attempt_count j -> exists a, attempts t2 !! (id, n) = Some a /\ at_fencing_token a = n /\ is_Some (at_finished_at a)) ->
  (forall n, ~ (1 <= n <= jb_attempt_count j) -> attempts t2 !! (id, n) = None) ->
  lease_job id worker seconds now j t2 = Ok (r, t3) ->
  jobs_ok t3 /\ jr_id r = id /\ jr_attempt r = jr_fencing_token r /\ jr_fencing_token r = jb_attempt_count j + 1 /\ current t3 r /\
  exists j', jobs t3 = <[id := j']> (jobs t) /\ jb_fencing_token j' = jb_attempt_count j + 1 /\
    forall k n, (k, n) <> (id, jb_attempt_count j + 1) -> attempts t3 !! (k, n) = attempts t2 !! (k, n).
Proof.
  intros Hok Hj Hjobs Hother Hclosed Hno Hl. destruct (proj1 Hok _ _ Hj) as [H1 H2 H3 H4 H5]. unfold lease_job in Hl.
  apply guard_Ok in Hl as [Hle%negb_false_iff%Z.leb_le Hl]. apply bind_Ok in Hl as (token & [<- _]%ok_or_Ok%checked_Some & Hl).
  apply guard_Ok in Hl as [[[Hnew _]%orb_false_iff _]%orb_false_iff Hl]. apply bool_decide_eq_false in Hnew.
  rewrite <-eq_None_not_Some in Hnew. injection Hl as <- <-. rewrite H2 in *. cbn [jr_id jr_attempt jr_fencing_token].
  assert (forall k n, (k, n) <> (id, jb_attempt_count j + 1) ->
    <[(id, jb_attempt_count j + 1) := mkAttempt worker (jb_attempt_count j + 1) now None None]> (attempts t2) !! (k, n) = attempts t2 !! (k, n)) as Hrest.
  { intros k n Hne. by rewrite lookup_insert_ne by congruence. }
  split; [|do 3 (split; [done|]); split].
  - eapply jobs_ok_put; [exact Hok|simpl; by rewrite Hjobs| |].
    + intros k n Hne. simpl. rewrite Hrest by congruence. by apply Hother.
    + split; cbn [jb_attempt_count jb_fencing_token jb_lease_expires_at jb_state attempts].
      * lia.
      * done.
      * split; [done|by eexists].
      * intros n Hn. destruct (decide (n = jb_attempt_count j + 1)) as [->|Hne].
        -- rewrite lookup_insert_eq. eexists. split; [done|]. split; simpl; [done|by auto|by intros [? ?]].
        -- rewrite Hrest by congruence. destruct (Hclosed n) as (a & Ha & Htok & [x Hx]); [lia|]. exists a. split; [done|].
           split; simpl; [done|by rewrite Hx|done].
      * intros n Hn. rewrite Hrest by (intros [= ->]; lia).
        apply Hno. lia.
  - eexists. apply held_row_Some. simpl. rewrite lookup_insert_eq. done.
  - eexists. split; [simpl; by rewrite Hjobs|]. split; [done|]. exact Hrest.
Qed.

(** What a claim leases: the row as it was selected, its last attempt closed. *)
Lemma due_running now j : job_due now j = true -> jb_state j = JRunning -> job_lease_expired now j = true /\ jb_attempt_count j < MAX_ATTEMPTS.
Proof. unfold job_due. intros Hd Hs. rewrite Hs in Hd. by rewrite andb_true_iff, Z.ltb_lt in Hd. Qed.
Lemma due_not_final now j : job_due now j = true -> ~ final j.
Proof. unfold job_due, final. intros Hd [H|[H|H]]; by rewrite H in Hd. Qed.

Definition reopened (now : Z) (id : Uuid) (j : JobsRow) (t : Jobs) : Jobs :=
  if bool_decide (jb_state j = JRunning) then close_attempt id (jb_attempt_count j) "lease_expired" now t else t.

Lemma reopened_jobs now id j t : jobs (reopened now id j t) = jobs t.
Proof. unfold reopened. by case_bool_decide. Qed.
Lemma reopened_other now id j t k n : (k, n) <> (id, jb_attempt_count j) -> attempts (reopened now id j t) !! (k, n) = attempts t !! (k, n).
Proof. intros Hne. unfold reopened. case_bool_decide; [|done]. simpl. by rewrite lookup_alter_ne by congruence. Qed.
Lemma reopened_finished now id j t k a :
  attempts t !! k = Some a -> is_Some (at_finished_at a) -> attempts (reopened now id j t) !! k = Some a.
Proof.
  intros Ha [x Hx]. unfold reopened. case_bool_decide; [|done]. simpl. destruct (decide (k = (id, jb_attempt_count j))) as [->|Hne].
  - rewrite lookup_alter_eq, Ha. simpl. unfold unfinished. by rewrite Hx.
  - by rewrite lookup_alter_ne by congruence.
Qed.
Lemma reopened_closed now now' id j t n :
  job_ok t id j -> job_due now' j = true -> 1 <= n <= jb_attempt_count j ->
  exists a, attempts (reopened now id j t) !! (id, n) = Some a /\ at_fencing_token a = n /\ is_Some (at_finished_at a).
Proof.
  intros [_ _ _ H4 _] Hdue Hn. destruct (H4 n Hn) as (a & Ha & [Htok Hopen _]). unfold reopened.
  assert (n <> jb_attempt_count j \/ jb_state j <> JRunning -> is_Some (at_finished_at a)) as Hother.
  { intros Hor. destruct (at_finished_at a) eqn:Hf; [by eexists|]. destruct (Hopen eq_refl) as [-> [Hr|Ht]]; [naive_solver|]. unfold job_due in Hdue. by rewrite Ht in Hdue. }
  case_bool_decide as Hrun; simpl; [|exists a; split_and!; [done|done|auto]]. destruct (decide (n = jb_attempt_count j)) as [->|Hne].
  - rewrite lookup_alter_eq, Ha. simpl. eexists. split; [done|]. destruct (close_attempt_closes "lease_expired" now a) as [Hc1 Hc2].
    split; [by rewrite Hc1|done].
  - rewrite lookup_alter_ne by congruence. exists a. split_and!; [done|done|auto].
Qed.
Lemma reopened_none now id j t n :
  job_ok t id j -> ~ (1 <= n <= jb_attempt_count j) -> attempts (reopened now id j t) !! (id, n) = None.
Proof.
  intros [_ _ _ _ H5] Hn. unfold reopened. case_bool_decide; simpl; [|by apply H5].
  destruct (decide (n = jb_attempt_count j)) as [->|Hne]; [by rewrite lookup_alter_eq, H5|]. rewrite lookup_alter_ne by congruence. by apply H5.
Qed.

Lemma claim_commit_Some worker seconds clock locked tie marked t r t' :
  jobs_ok t -> marks_ok t marked -> claim_commit worker seconds clock locked tie marked t = (Ok (Some r), t') ->
  exists j, select_job (ck_select clock) locked tie (end_exhausted (ck_end clock) (mark_attempts marked t)) = Some (jr_id r, j) /\ jr_fencing_token r = jb_fencing_token j + 1 /\
    jb_attempt_count j < MAX_ATTEMPTS /\ jobs_ok t' /\ later t t' /\ record_ok t' r /\ current t' r
    /\ forall k, k.1 <> jr_id r -> attempts t' !! k = attempts (mark_attempts marked t) !! k.
Proof.
  intros Hok Hm Hc. unfold claim_commit in Hc. destruct (mark_attempts_ok marked t Hok Hm) as [Hok0 HL0]. set (t0 := mark_attempts marked t) in *.
  pose proof (end_exhausted_ok (ck_end clock) t0 Hok0) as Hok1. set (t1 := end_exhausted (ck_end clock) t0) in *.
  destruct (select_job (ck_select clock) locked tie t1) as [[id j]|] eqn:Hsel; [|simplify_eq].
  fold (reopened (ck_lease clock) id j t1) in Hc. destruct (lease_job id worker seconds (ck_lease clock) j (reopened (ck_lease clock) id j t1)) as [[r0 t3]|] eqn:Hl; simplify_eq.
  pose proof Hsel as (Hj & Hdue & _)%select_job_Some. pose proof (proj1 Hok1 _ _ Hj) as Hjok.
  assert (jb_attempt_count j < MAX_ATTEMPTS) as Hlt by (unfold lease_job in Hl; apply guard_Ok in Hl as [Hle%negb_false_iff%Z.leb_le _]; lia).
  apply (lease_job_ok _ _ _ _ t1) in Hl as (Hok3 & <- & Hra & Hrt & Hcur & j' & Hjobs & Htok & Hatt);
    [|done|done|apply reopened_jobs|intros k n Hne; apply reopened_other; congruence|intros n Hn; by eapply reopened_closed|intros n Hn; by apply reopened_none].
  exists j. rewrite Hrt, (ok_token _ _ _ Hjok). do 4 (split; [done|]).
  assert (later t1 t') as HL.
  { eapply later_put; [exact Hj|exact Hjobs| |].
    - split; [rewrite Htok, (ok_token _ _ _ Hjok); lia|rewrite Htok, (ok_token _ _ _ Hjok); lia|]. intros Hf. by destruct (due_not_final _ _ Hdue).
    - intros [k n] a Ha Hfin _. rewrite Hatt; [by apply reopened_finished|]. intros [= -> ->].
      rewrite (ok_no_more _ _ _ Hjok) in Ha by lia. done. }
  split; [etransitivity; [exact HL0|]; etransitivity; [apply end_exhausted_later|exact HL]|]. split; [|split; [done|]].
  - split; [done|]. exists j'. rewrite Hjobs, lookup_insert_eq. split; [done|]. pose proof (ok_count _ _ _ Hjok). lia.
  - intros [k n] Hne. simpl in Hne. rewrite Hatt by congruence. rewrite reopened_other by congruence. done.
Qed.

Lemma claim_commit_other worker seconds clock locked tie marked t res t' :
  jobs_ok t -> marks_ok t marked -> claim_commit worker seconds clock locked tie marked t = (res, t') -> (forall r, res <> Ok (Some r)) ->
  jobs_ok t' /\ later t t' /\ (t' = t \/ attempts t' = attempts (mark_attempts marked t)).
Proof.
  intros Hok Hm Hc Hres. unfold claim_commit in Hc. destruct (mark_attempts_ok marked t Hok Hm) as [Hok0 HL0]. destruct (select_job _ locked tie _) as [[id j]|].
  - match type of Hc with match ?l with Ok _ => _ | Err _ => _ end = _ => destruct l as [[r t3]|e] end; simplify_eq.
    + by destruct (Hres r).
    + split; [done|]. split; [reflexivity|by left].
  - simplify_eq. split; [by apply end_exhausted_ok|]. split; [|by right]. etransitivity; [exact HL0|apply end_exhausted_later].
Qed.

Lemma enqueue_later id kind priority aggregate key payload now t r t' :
  enqueue id kind priority aggregate key payload now t = (r, t') -> later t t'.
Proof.
  unfold enqueue. intros Henq. repeat case_match; simplify_eq; try reflexivity.
  match goal with H : _ || _ = false |- _ => apply orb_false_iff in H as [Hnew _] end.
  apply bool_decide_eq_false in Hnew. rewrite <-eq_None_not_Some in Hnew. split; [|done].
  intros k j Hk. simpl. rewrite lookup_insert_ne by congruence. exists j. split; [done|apply job_later_refl].
Qed.

(** ** All histories *)

Record system_ok (s : System) : Prop := {
  sys_tables : jobs_ok (tables s);
  sys_records : forall w r, held s !! w = Some r -> record_ok (tables s) r;
  sys_tokens : forall w1 w2 r1 r2, held s !! w1 = Some r1 -> held s !! w2 = Some r2 ->
    jr_id r1 = jr_id r2 -> jr_fencing_token r1 = jr_fencing_token r2 -> w1 = w2;
  (** the claims under way saw rows of before, and the attempts that they locked are as they found them *)
  sys_seen : forall w cl id j, claiming s !! w = Some cl -> cl_jobs cl !! id = Some j -> exists j', jobs (tables s) !! id = Some j' /\ jb_attempt_count j <= jb_attempt_count j';
  sys_marks : forall w cl, claiming s !! w = Some cl -> marks_ok (tables s) (cl_marked cl);
  sys_apart : forall w1 w2 cl1 cl2 k, claiming s !! w1 = Some cl1 -> claiming s !! w2 = Some cl2 -> is_Some (cl_marked cl1 !! k) -> is_Some (cl_marked cl2 !! k) -> w1 = w2
}.

Lemma later_count t t' id j : jobs_ok t -> jobs_ok t' -> later t t' -> jobs t !! id = Some j -> exists j', jobs t' !! id = Some j' /\ jb_attempt_count j <= jb_attempt_count j'.
Proof.
  intros Hok Hok' HL Hj. destruct (later_jobs _ _ HL _ _ Hj) as (j' & Hj' & [Htok _ _]). exists j'. split; [done|].
  rewrite (ok_token _ _ _ (proj1 Hok _ _ Hj)), (ok_token _ _ _ (proj1 Hok' _ _ Hj')) in Htok. done.
Qed.
(** attempts that nobody touched stay marked *)
Lemma marks_ok_later t t' marked : jobs_ok t -> jobs_ok t' -> later t t' -> marks_ok t marked -> (forall k, is_Some (marked !! k) -> attempts t' !! k = attempts t !! k) -> marks_ok t' marked.
Proof.
  intros Hok Hok' HL Hm Hsame k now Hk. destruct (Hm k now Hk) as (a & j & Ha & Hn & Hj & Hc). destruct (later_count _ _ _ _ Hok Hok' HL Hj) as (j' & Hj' & Hle).
  exists a, j'. rewrite Hsame by (by eexists). pose proof (ok_count _ _ _ (proj1 Hok' _ _ Hj')). split_and!; [done|done|done|lia].
Qed.

(** A step whose tables are later, that hands out no record and marks nothing keeps the invariant. *)
Lemma system_ok_later s t h c :
  system_ok s -> jobs_ok t -> later (tables s) t -> h ⊆ held s -> c ⊆ claiming s ->
  (forall w cl k, c !! w = Some cl -> is_Some (cl_marked cl !! k) -> attempts t !! k = attempts (tables s) !! k) -> system_ok (mkSystem t h c).
Proof.
  intros [H1 H2 H3 H4 H5 H6] Hok HL Hsub Hc Hsame. split; simpl; [done|..].
  - intros w r Hw. apply (record_ok_later _ _ _ HL), (H2 w). by eapply lookup_weaken.
  - intros w1 w2 r1 r2 Hw1 Hw2. apply H3; by eapply lookup_weaken.
  - intros w cl id j Hw Hj. destruct (H4 w cl id j) as (j1 & Hj1 & ?); [by eapply lookup_weaken|done|]. destruct (later_count _ _ _ _ H1 Hok HL Hj1) as (j2 & Hj2 & ?). exists j2. split; [done|lia].
  - intros w cl Hw. eapply marks_ok_later; [exact H1|done|done|apply (H5 w); by eapply lookup_weaken|]. intros k Hk. by eapply Hsame.
  - intros w1 w2 cl1 cl2 k Hw1 Hw2. apply H6; by eapply lookup_weaken.
Qed.

(** what a commit wrote is not marked by another claim *)
Lemma commit_others s worker cl k t w cl' :
  system_ok s -> claiming s !! worker = Some cl -> delete worker (claiming s) !! w = Some cl' -> is_Some (cl_marked cl' !! k) ->
  attempts t !! k = attempts (mark_attempts (cl_marked cl) (tables s)) !! k -> attempts t !! k = attempts (tables s) !! k.
Proof.
  intros Hs Hcl Hw Hk ->. apply lookup_delete_Some in Hw as [Hne Hw]. rewrite mark_attempts_lookup. destruct (cl_marked cl !! k) as [now|] eqn:Hm; [|by destruct (attempts (tables s) !! k)].
  destruct Hne. by eapply (sys_apart _ Hs worker w cl cl' k); [..|by eexists|].
Qed.

Lemma system_ok_claim s worker clock locked tie cl r t :
  system_ok s -> claiming s !! worker = Some cl -> held s !! worker = None -> claim_commit worker JOB_LEASE_SECONDS clock locked tie (cl_marked cl) (tables s) = (Ok (Some r), t) ->
  system_ok (mkSystem t (<[worker := r]> (held s)) (delete worker (claiming s))) /\ later (tables s) t.
Proof.
  intros Hs Hcl Hw Hc. pose proof Hs as [H1 H2 H3 H4 H5 H6]. pose proof Hc as (j & Hsel & Htok & Hlt & Hok & HL & Hr & _ & Hsame)%claim_commit_Some; [|done|by eapply H5]. split; [|done].
  destruct (mark_attempts_ok _ _ H1 (H5 _ _ Hcl)) as [Hok0 HL0]. pose proof (end_exhausted_later (ck_end clock) (mark_attempts (cl_marked cl) (tables s))) as HL1.
  pose proof Hsel as (Hj & _)%select_job_Some.
  assert (system_ok (mkSystem t (held s) (delete worker (claiming s)))) as [_ G2 G3 G4 G5 G6].
  { apply (system_ok_later s); [done|done|done|done|apply delete_subseteq|]. intros w cl' k Hw' Hk. eapply commit_others; [exact Hs|exact Hcl|exact Hw'|exact Hk|]. apply Hsame. intros Hid.
    destruct Hk as [now Hk]. apply lookup_delete_Some in Hw' as [_ Hw']. destruct (H5 _ _ Hw' _ _ Hk) as (_ & j0 & _ & _ & Hj0 & Hc0). rewrite Hid in Hj0.
    destruct (later_count _ _ _ _ H1 Hok0 HL0 Hj0) as (j1 & Hj1 & ?). destruct (later_count _ _ _ _ Hok0 (end_exhausted_ok _ _ Hok0) HL1 Hj1) as (j2 & Hj2 & ?). rewrite Hj in Hj2. injection Hj2 as <-. lia. }
  assert (forall w r', held s !! w = Some r' -> jr_id r' = jr_id r -> jr_fencing_token r' < jr_fencing_token r) as Hless.
  { intros w r' Hw' Hid. destruct (record_ok_later _ _ _ (transitivity HL0 HL1) (H2 _ _ Hw')) as (_ & j' & Hj' & Hr').
    rewrite Hid, Hj in Hj'. injection Hj' as <-. lia. }
  split; simpl; [done| | |done|done|done].
  - intros w r'. destruct (decide (w = worker)) as [->|Hne]; [rewrite lookup_insert_eq|rewrite lookup_insert_ne by done].
    + by intros [= <-].
    + apply G2.
  - intros w1 w2 r1 r2. destruct (decide (w1 = worker)) as [->|Hn1], (decide (w2 = worker)) as [->|Hn2];
      rewrite ?lookup_insert_eq, ?lookup_insert_ne by done.
    + done.
    + intros [= <-] Hw2 Hid Heq. pose proof (Hless _ _ Hw2 (eq_sym Hid)). lia.
    + intros Hw1 [= <-] Hid Heq. pose proof (Hless _ _ Hw1 Hid). lia.
    + apply H3.
Qed.

Lemma system_ok_start s worker : system_ok s -> claiming s !! worker = None -> system_ok (mkSystem (tables s) (held s) (<[worker := mkClaiming (jobs (tables s)) ∅]> (claiming s))).
Proof.
  intros [H1 H2 H3 H4 H5 H6] Hw. split; simpl; [done|done|done|..].
  - intros w cl id j [[_ <-]|[_ Hcl]]%lookup_insert_Some Hj; [simpl in Hj; exists j; split; [done|lia]|by apply (H4 w cl)].
  - intros w cl [[_ <-]|[_ Hcl]]%lookup_insert_Some; [intros k now Hk; simpl in Hk; by rewrite lookup_empty in Hk|by apply (H5 w)].
  - intros w1 w2 cl1 cl2 k [[<- <-]|[_ Hcl1]]%lookup_insert_Some [[<- <-]|[_ Hcl2]]%lookup_insert_Some; simpl; rewrite ?lookup_empty; [done|by intros [? ?]|by intros _ [? ?]|by apply H6].
Qed.

Lemma system_ok_mark s worker k now cl j a :
  system_ok s -> claiming s !! worker = Some cl -> cl_jobs cl !! k.1 = Some j -> exhausted now j = true -> attempts (tables s) !! k = Some a -> unfinished a = true -> unlocked s k ->
  system_ok (mkSystem (tables s) (held s) (<[worker := mkClaiming (cl_jobs cl) (<[k := now]> (cl_marked cl))]> (claiming s))).
Proof.
  intros [H1 H2 H3 H4 H5 H6] Hcl Hj Hex Ha Hun Hfree. split; simpl; [done|done|done|..].
  - intros w cl' id j' [[_ <-]|[_ Hw]]%lookup_insert_Some; [exact (H4 worker cl id j' Hcl)|by apply (H4 w)].
  - intros w cl' [[_ <-]|[_ Hw]]%lookup_insert_Some; [|by apply (H5 w)]. simpl. intros k' now' [[<- _]|[_ Hk]]%lookup_insert_Some; [|by apply (H5 worker cl Hcl k' now')].
    destruct (H4 _ _ _ _ Hcl Hj) as (j' & Hj' & Hle). pose proof (exhausted_running _ _ Hex) as (_ & _ & Hc). pose proof (ok_count _ _ _ (proj1 H1 _ _ Hj')).
    exists a, j'. split_and!; [done|by apply bool_decide_eq_true in Hun|done|lia].
  - intros w1 w2 cl1 cl2 k' [[<- <-]|[Hn1 Hcl1]]%lookup_insert_Some [[<- <-]|[Hn2 Hcl2]]%lookup_insert_Some; simpl; [done|..].
    + intros [x Hx] Hk2. apply lookup_insert_Some in Hx as [[<- _]|[_ Hx]]; [rewrite (Hfree _ _ Hcl2) in Hk2; by destruct Hk2|]. by apply (H6 worker w2 cl cl2 k'); [..|by eexists|].
    + intros Hk1 [x Hx]. apply lookup_insert_Some in Hx as [[<- _]|[_ Hx]]; [rewrite (Hfree _ _ Hcl1) in Hk1; by destruct Hk1|]. by apply (H6 w1 worker cl1 cl k'); [..|by eexists].
    + by apply H6.
Qed.

(** settling writes no attempt but its own *)
Lemma settle_attempts jitter r disposition now t res t' k : settle jitter r disposition now t = (res, t') -> (is_Some (held_row r t) -> k <> (jr_id r, jr_attempt r)) -> attempts t' !! k = attempts t !! k.
Proof.
  intros Hs Hk. unfold settle, complete_job, defer_job, fail_job in Hs. destruct (held_row r t) as [j|] eqn:Hh; [|by destruct disposition as [[]|]; simplify_eq].
  assert (forall f, alter f (jr_id r, jr_attempt r) (attempts t) !! k = attempts t !! k) as Hne by (intros f; apply lookup_alter_ne; intros Heq; by apply Hk).
  destruct disposition as [[outcome|delay]|e]; simplify_eq; apply Hne.
Qed.

Lemma job_step_ok s s' : job_step s s' -> system_ok s -> system_ok s' /\ later (tables s) (tables s').
Proof.
  intros Hstep Hs. pose proof Hs as [Ht Hr _ _ Hmarks _].
  destruct Hstep as [id kind priority aggregate key payload now s r t H|w s Hw Hc|w k now s cl j a Hcl Hj Hex Ha Hun Hfree|w clock locked tie s cl r t Hcl Hw H|w clock locked tie s cl r t Hcl H Hn|w s|w now s r t Hw H|w now s r e t Hw H|w jitter disposition now s r res t Hw Hlock H|w s].
  - pose proof (enqueue_later _ _ _ _ _ _ _ _ _ _ H). split; [|done]. apply (system_ok_later s); [done|by eapply enqueue_ok|done..|]. intros _ _ k _ _. unfold enqueue in H. repeat case_match; by simplify_eq.
  - split; [by apply system_ok_start|reflexivity].
  - split; [by eapply system_ok_mark|reflexivity].
  - by eapply system_ok_claim.
  - apply claim_commit_other in H as (Hok & HL & Hatt); [|done|by eapply Hmarks|done]. split; [|done]. apply (system_ok_later s); [done..|apply delete_subseteq|].
    intros w' cl' k Hw' Hk. destruct Hatt as [->|Hatt]; [done|]. eapply commit_others; [done|done|done|done|by rewrite Hatt].
  - split; [|reflexivity]. apply (system_ok_later s); [done|done|reflexivity|done|apply delete_subseteq|done].
  - apply heartbeat_ok in H as H'; [|done]. destruct H' as [Hok HL]. split; [|done]. apply (system_ok_later s); [done..|]. intros _ _ k _ _. unfold heartbeat in H. case_match; by simplify_eq.
  - apply heartbeat_ok in H as H'; [|done]. destruct H' as [Hok HL]. split; [|done]. apply (system_ok_later s); [done|done|done|apply delete_subseteq|done|]. intros _ _ k _ _. unfold heartbeat in H. case_match; by simplify_eq.
  - apply settle_ok in H as H'; [|done|by eapply Hr]. destruct H' as [Hok HL]. split; [|done]. apply (system_ok_later s); [done|done|done|apply delete_subseteq|done|].
    intros w' cl k Hcl Hk. eapply settle_attempts; [exact H|]. intros Hheld ->. rewrite (Hlock Hheld _ _ Hcl) in Hk. by destruct Hk.
  - split; [|reflexivity]. apply (system_ok_later s); [done|done|reflexivity|apply delete_subseteq|done|done].
Qed.

Lemma job_history_ok s s' : job_history s s' -> system_ok s -> system_ok s' /\ later (tables s) (tables s').
Proof.
  induction 1 as [s|s1 s2 s3 Hstep _ IH]; [split; [done|reflexivity]|]. intros Hs.
  apply job_step_ok in Hstep as [Hs2 HL]; [|done]. destruct (IH Hs2) as [Hs3 HL2]. split; [done|by etransitivity].
Qed.

Lemma job_start_ok : system_ok job_start.
Proof. split; [split|..]; set_solver. Qed.

(** Every operation of a worker without the lease fails and changes nothing. *)
Definition powerless (t : Jobs) (r : JobRecord) : Prop :=
  (forall now, heartbeat r now t = (Err LeaseLost, t)) /\
  (forall jitter disposition now, exists e, settle jitter r disposition now t = (Err e, t)).

Lemma not_current_powerless t r : ~ current t r -> powerless t r.
Proof.
  unfold current. rewrite <-eq_None_not_Some. intros Hh. split.
  - intros now. unfold heartbeat. by rewrite Hh.
  - intros jitter disposition now. unfold settle, complete_job, defer_job, fail_job. rewrite Hh.
    destruct disposition as [[outcome|delay]|e]; eexists; reflexivity.
Qed.

Lemma one_current s w1 w2 r1 r2 :
  system_ok s -> held s !! w1 = Some r1 -> held s !! w2 = Some r2 -> jr_id r1 = jr_id r2 ->
  current (tables s) r1 -> current (tables s) r2 -> w1 = w2.
Proof.
  intros Hs H1 H2 Hid [j1 (Hj1 & _ & Ht1)%held_row_Some] [j2 (Hj2 & _ & Ht2)%held_row_Some].
  apply (sys_tokens _ Hs w1 w2 r1 r2); [done..|]. rewrite Hid in Hj1. congruence.
Qed.

(** C24. Maintenance jobs are leased exclusively.  In every history of any number of
    workers that claim jobs, renew their leases, finish, defer or fail them, crash and are
    overtaken after a lease has expired, other transactions coming between the first
    statement of a claim and the rest of it: at most one worker holds the lease of a job; a
    worker that has lost it can, at any later time, neither renew it nor settle the job, and
    its attempts to do so change nothing; a job that is complete or terminal never changes
    again; a job is attempted at most eight times, with one row for each attempt; and an
    attempt that has an outcome never changes again once its job does not run on it, while an
    attempt on which the job runs has an outcome only if it is the eighth and a claim found
    its lease expired. *)
Theorem jobs_leased_exclusively s s' :
  job_history job_start s -> job_history s s' ->
  (forall w1 w2 r1 r2, held s !! w1 = Some r1 -> held s !! w2 = Some r2 -> jr_id r1 = jr_id r2 ->
     current (tables s) r1 -> current (tables s) r2 -> w1 = w2) /\
  (forall w r, held s !! w = Some r -> ~ current (tables s) r -> powerless (tables s') r) /\
  (forall id j, jobs (tables s) !! id = Some j -> final j -> jobs (tables s') !! id = Some j) /\
  (forall id j, jobs (tables s) !! id = Some j ->
     jb_attempt_count j <= MAX_ATTEMPTS /\ forall n, is_Some (attempts (tables s) !! (id, n)) <-> 1 <= n <= jb_attempt_count j) /\
  (forall id n j a, jobs (tables s) !! id = Some j -> attempts (tables s) !! (id, n) = Some a -> is_Some (at_finished_at a) ->
     attempts (tables s') !! (id, n) = Some a
     \/ jb_state j = JRunning /\ jb_attempt_count j = n /\ n = MAX_ATTEMPTS /\ at_outcome a = Some "lease_expired"%string).
Proof.
  intros H0 H1. apply job_history_ok in H0 as [Hs _]; [|apply job_start_ok]. apply job_history_ok in H1 as [Hs' HL]; [|done].
  split; [|split; [|split; [|split]]].
  - intros w1 w2 r1 r2. by apply one_current.
  - intros w r Hw Hc. apply not_current_powerless. eapply not_current_later; [done| |done]. by eapply sys_records.
  - intros id j Hj Hf. destruct (later_jobs _ _ HL _ _ Hj) as (j' & Hj' & [_ _ Hfinal]). by rewrite Hj', (Hfinal Hf).
  - intros id j Hj. destruct (proj1 (sys_tables _ Hs) _ _ Hj) as [Hc _ _ Hyes Hno]. split; [lia|]. intros n. split.
    + intros [a Ha]. destruct (decide (1 <= n <= jb_attempt_count j)); [done|]. by rewrite Hno in Ha.
    + intros Hn. destruct (Hyes n Hn) as (a & Ha & _). by exists a.
  - intros id n j a Hj Ha Hfin. destruct (proj1 (sys_tables _ Hs) _ _ Hj) as [Hc Htok _ Hyes Hno].
    assert (1 <= n <= jb_attempt_count j) as Hn by (destruct (decide (1 <= n <= jb_attempt_count j)); [done|]; by rewrite Hno in Ha).
    destruct (decide (jb_state j = JRunning /\ jb_attempt_count j = n)) as [[Hrun Heq]|Hnot].
    + right. destruct (Hyes n Hn) as (a' & Ha' & [_ _ Hclosed]). rewrite Ha in Ha'. injection Ha' as <-. destruct Hclosed as [? ?]; [done..|]. done.
    + left. eapply later_attempts; [done..|]. exists j. split; [done|]. simpl. rewrite Htok. destruct (decide (n = jb_attempt_count j)) as [->|]; [right; split; [done|naive_solver]|left; lia].
Qed.

(** ** Progress of the queue *)

Lemma due_end_exhausted now now' t id j : jobs (end_exhausted now' t) !! id = Some j /\ job_due now j = true <-> jobs t !! id = Some j /\ job_due now j = true.
Proof.
  assert (forall j, exhausted now' j = true -> job_due now j = false) as Hex.
  { intros j' (Hrun & _ & Hc)%exhausted_running. unfold job_due. rewrite Hrun. destruct (Z.ltb_spec (jb_attempt_count j') MAX_ATTEMPTS); [lia|]. by rewrite andb_false_r. }
  rewrite end_exhausted_jobs. split.
  - intros [(j0 & Hj0 & ->) Hd]. destruct (exhausted now' j0) eqn:He; [done|]. done.
  - intros [Hj Hd]. split; [|done]. exists j. split; [done|]. destruct (exhausted now' j) eqn:He; [|done]. by rewrite Hex in Hd.
Qed.

(** The row that the queue has to serve next. *)
Definition next_due (now : Z) (locked : gset Uuid) (tie : Uuid -> Z) (t : Jobs) (id : Uuid) (j : JobsRow) : Prop :=
  jobs t !! id = Some j /\ job_due now j = true /\ (id ∉ locked) /\
  forall id' j', jobs t !! id' = Some j' -> job_due now j' = true -> id' ∉ locked -> earlier tie (id', j') (id, j) = false.

Lemma select_next now now' locked tie t id j :
  (forall a b, tie a = tie b -> a = b) -> next_due now locked tie t id j -> select_job now locked tie (end_exhausted now' t) = Some (id, j).
Proof.
  intros Htie (Hj & Hd & Hl & Hmin). destruct (select_job now locked tie (end_exhausted now' t)) as [[id' j']|] eqn:Hsel.
  - apply select_job_Some in Hsel as (Hj' & Hd' & Hl' & Hmin').
    pose proof (proj1 (due_end_exhausted now now' t id' j') (conj Hj' Hd')) as [Hj1 _].
    pose proof (proj2 (due_end_exhausted now now' t id j) (conj Hj Hd)) as [Hj2 _].
    pose proof (Hmin _ _ Hj1 Hd' Hl') as He1. pose proof (Hmin' _ _ Hj2 Hd Hl) as He2.
    assert (tie id = tie id') as Heq.
    { revert He1 He2. unfold earlier. simpl.
      rewrite !orb_false_iff, !andb_false_iff, !orb_false_iff, !andb_false_iff, !orb_false_iff, !andb_false_iff, !Z.ltb_ge, !Z.eqb_neq. lia. }
    apply Htie in Heq as <-. by rewrite Hj in Hj1; simplify_eq.
  - destruct Hl. apply (proj1 (select_job_None _ _ _ _) Hsel id j); [|done]. by apply (due_end_exhausted now now' t id j).
Qed.

Lemma lease_job_total id worker seconds now j t :
  jb_fencing_token j = jb_attempt_count j -> 0 <= jb_attempt_count j < MAX_ATTEMPTS -> attempts t !! (id, jb_attempt_count j + 1) = None ->
  exists r t', lease_job id worker seconds now j t = Ok (r, t') /\ jr_id r = id /\ jr_kind r = jb_kind j /\ jr_payload r = jb_payload j /\ jr_attempt r = jb_attempt_count j + 1 /\ current t' r.
Proof.
  unfold MAX_ATTEMPTS. intros Htok Hc Hnone. unfold lease_job, MAX_ATTEMPTS. rewrite Htok, Hnone.
  destruct (Z.leb_spec (jb_attempt_count j + 1) 8); [|lia]. cbn [negb].
  rewrite (proj2 (checked_Some i64_min i64_max _ (jb_attempt_count j + 1))) by (unfold i64_min, i64_max; lia). cbn [ok_or].
  rewrite bool_decide_eq_false_2 by (by intros [? ?]).
  destruct (Z.ltb_spec (jb_attempt_count j + 1) 1), (Z.leb_spec (jb_attempt_count j + 1) 0); try lia. cbn [orb]. eexists _, _. split_and!; [done..|].
  eexists. apply held_row_Some. simpl. rewrite lookup_insert_eq. done.
Qed.

(** C25. The queue serves the earliest job that is job_due.  In every history, when a claim
    commits, whatever its first statement has marked ([claim_job] is the case in which nothing
    came between): when no job that is job_due at its selection can be locked, the claim
    reports so; otherwise it leases the first one in the order of priority, time of
    availability and creation to the caller for another attempt, unless that job waits
    for a retry with all eight attempts used, as the postponing of the last attempt leaves
    it: then the claim fails with an error of the database and leaves all jobs as they
    were. *)
Theorem claims_serve_earliest s worker clock locked tie marked :
  job_history job_start s -> (forall a b, tie a = tie b -> a = b) ->
  let claim := claim_commit worker JOB_LEASE_SECONDS clock locked tie marked (tables s) in
  ((forall id j, jobs (tables s) !! id = Some j -> job_due (ck_select clock) j = true -> id ∈ locked) ->
   claim = (Ok None, end_exhausted (ck_end clock) (mark_attempts marked (tables s)))) /\
  (forall id j, next_due (ck_select clock) locked tie (tables s) id j ->
   (jb_attempt_count j < MAX_ATTEMPTS ->
    exists r t, claim = (Ok (Some r), t) /\
      jr_id r = id /\ jr_kind r = jb_kind j /\ jr_payload r = jb_payload j /\ jr_attempt r = jb_attempt_count j + 1 /\ current t r) /\
   (jb_attempt_count j = MAX_ATTEMPTS -> jb_state j <> JRunning /\ claim = (Err Sql, tables s))) /\
  (forall now, claim_job worker JOB_LEASE_SECONDS now clock locked tie (tables s) = claim_commit worker JOB_LEASE_SECONDS clock locked tie (first_marks now (tables s)) (tables s)).
Proof.
  intros Hh Htie claim. apply job_history_ok in Hh as [[Hok _ _ _ _ _] _]; [|apply job_start_ok]. set (t0 := mark_attempts marked (tables s)) in *. split; [|split; [|done]].
  - intros Hnone. unfold claim, claim_commit. fold t0. rewrite (proj2 (select_job_None (ck_select clock) locked tie _)); [done|]. intros id j Hj Hd.
    apply (Hnone id j); [|done]. by apply (due_end_exhausted (ck_select clock) (ck_end clock) t0).
  - intros id j Hnext. pose proof (select_next (ck_select clock) (ck_end clock) locked tie t0 id j Htie Hnext) as Hsel. destruct Hnext as (Hj & Hd & _).
    pose proof (proj1 Hok _ _ Hj) as [Hc Htok _ _ Hno]. unfold claim, claim_commit. fold t0. rewrite Hsel. fold (reopened (ck_lease clock) id j (end_exhausted (ck_end clock) t0)). split.
    + intros Hlt. destruct (lease_job_total id worker JOB_LEASE_SECONDS (ck_lease clock) j (reopened (ck_lease clock) id j (end_exhausted (ck_end clock) t0)))
        as (r & t' & -> & ?); [done|lia|rewrite reopened_other by (intros [= ?]; lia); change (attempts t0 !! (id, jb_attempt_count j + 1) = None); unfold t0; rewrite mark_attempts_lookup, Hno; [done|lia]|].
      by exists r, t'.
    + intros Heq. unfold lease_job. rewrite Heq. cbn. split; [|done]. intros Hrun. destruct (due_running _ _ Hd Hrun). lia.
Qed.

(** The first statement of a claim as a run of the steps. *)
Lemma marks_steps s worker now m : claiming s = ∅ -> held s !! worker = None -> m ⊆ first_marks now (tables s) ->
  job_history s (mkSystem (tables s) (held s) {[worker := mkClaiming (jobs (tables s)) m]}).
Proof.
  intros Hnone Hw. induction m as [|k x m Hk IH] using map_ind; intros Hsub.
  - eapply rtc_l; [by apply (StepClaimStart worker); [|rewrite Hnone]|]. rewrite Hnone. apply rtc_refl.
  - eapply rtc_r; [apply IH; etransitivity; [by apply insert_subseteq|exact Hsub]|].
    assert (first_marks now (tables s) !! k = Some x) as Hx by (eapply lookup_weaken; [apply lookup_insert_eq|exact Hsub]). unfold first_marks in Hx. rewrite map_lookup_imap in Hx.
    destruct (attempts (tables s) !! k) as [a|] eqn:Ha; [|done]. simpl in Hx. destruct (jobs (tables s) !! k.1) as [j|] eqn:Hj; [|done]. destruct (exhausted now j && unfinished a) eqn:He; [|done]. injection Hx as <-.
    apply andb_true_iff in He as [He Hu]. eassert (job_step _ (mkSystem _ _ _)) as Hstep; [eapply (StepClaimMark worker k now (mkSystem (tables s) (held s) {[worker := mkClaiming (jobs (tables s)) m]})); simpl; [apply lookup_singleton_eq|exact Hj|exact He|exact Ha|exact Hu|]|].
    { intros w cl Hcl. simpl in Hcl. apply lookup_singleton_Some in Hcl as [_ <-]. done. }
    simpl in Hstep. by rewrite insert_singleton_eq in Hstep.
Qed.
(** the rest of it, when nothing is leased or when something is *)
Lemma commit_step t h worker cl clock locked tie r t' : h !! worker = None -> claim_commit worker JOB_LEASE_SECONDS clock locked tie (cl_marked cl) t = (r, t') ->
  job_step (mkSystem t h {[worker := cl]}) (mkSystem t' (match r with Ok (Some x) => <[worker := x]> h | _ => h end) ∅).
Proof.
  intros Hw Hc. set (s1 := mkSystem t h {[worker := cl]}). assert (claiming s1 !! worker = Some cl) as Hcl by apply lookup_singleton_eq. replace (∅ : gmap Uuid Claiming) with (delete worker (claiming s1)) by apply delete_singleton_eq.
  destruct r as [[x|]|e]; [exact (StepClaim worker clock locked tie s1 cl x t' Hcl Hw Hc)|by apply (StepNoClaim worker clock locked tie s1 cl _ t' Hcl Hc)..].
Qed.
(** A claim that nothing comes between is a run of the steps. *)
Lemma claim_job_steps s worker now clock locked tie r t :
  claiming s = ∅ -> held s !! worker = None -> claim_job worker JOB_LEASE_SECONDS now clock locked tie (tables s) = (r, t) ->
  job_history s (mkSystem t (match r with Ok (Some x) => <[worker := x]> (held s) | _ => held s end) ∅).
Proof. intros Hnone Hw Hc. eapply rtc_r; [by apply (marks_steps s worker now (first_marks now (tables s)))|]. by eapply commit_step. Qed.

(** ** Concrete histories *)

Module Demo.
Open Scope string_scope.
Definition tie (u : Uuid) : Z := Z.of_N u.
Lemma tie_inj a b : tie a = tie b -> a = b.
Proof. unfold tie. lia. Qed.

Definition add (id : Uuid) (kind : string) (priority : Z) (key : string) (now : Z) (s : System) : System :=
  mkSystem (enqueue id kind priority id key (JObject []) now (tables s)).2 (held s) (claiming s).
Definition at_once (now : Z) : ClaimClock := mkClock now now now.
Definition claim (worker : Uuid) (now : Z) (s : System) : System :=
  match claim_job worker JOB_LEASE_SECONDS now (at_once now) ∅ tie (tables s) with
  | (Ok (Some r), t) => mkSystem t (<[worker := r]> (held s)) ∅
  | (_, t) => mkSystem t (held s) ∅
  end.
Definition crash (worker : Uuid) (s : System) : System := mkSystem (tables s) (delete worker (held s)) (claiming s).
Definition finish (worker : Uuid) (disposition : result MaintenanceError JobDisposition) (now : Z) (s : System) : System :=
  match held s !! worker with
  | Some r => mkSystem (settle (fun _ => 0) r disposition now (tables s)).2 (delete worker (held s)) (claiming s)
  | None => s
  end.

Lemma add_step id kind priority key now s s' : job_history s s' -> job_history s (add id kind priority key now s').
Proof. intros H. eapply rtc_r; [exact H|]. eapply StepEnqueue. apply surjective_pairing. Qed.
Lemma claim_step worker now s s' : held s' !! worker = None -> claiming s' = ∅ -> job_history s s' -> job_history s (claim worker now s').
Proof.
  intros Hw Hc H. unfold job_history. etrans; [exact H|]. unfold claim. destruct (claim_job worker JOB_LEASE_SECONDS now (at_once now) ∅ tie (tables s')) as [r t] eqn:Hr.
  pose proof (claim_job_steps s' worker now (at_once now) ∅ tie r t Hc Hw Hr) as Hh. by destruct r as [[x|]|].
Qed.
Lemma crash_step worker s s' : job_history s s' -> job_history s (crash worker s').
Proof. intros H. eapply rtc_r; [exact H|]. apply StepCrash. Qed.
Lemma finish_step worker disposition now s s' : claiming s' = ∅ -> job_history s s' -> job_history s (finish worker disposition now s').
Proof.
  intros Hc H. unfold finish. destruct (held s' !! worker) as [r|] eqn:Hw; [|done]. eapply rtc_r; [exact H|].
  eapply StepSettle; [exact Hw|intros _ w cl; rewrite Hc; by rewrite lookup_empty|apply surjective_pairing].
Qed.

(** Two jobs; the worker 1 claims the first and stalls, the worker 2 claims it after 40 seconds and completes it. *)
Definition two_jobs : System := add 20 "payload_delete" 80 "orphan" 0 (add 10 "upload_reconcile" 50 "expire" 0 job_start).
Definition overtaken : System := claim 2 (40 * SECOND_US) (claim 1 0 two_jobs).
Definition completed : System := finish 2 (Ok (Complete "expired_parts_removed")) (41 * SECOND_US) overtaken.

Lemma two_jobs_history : job_history job_start two_jobs.
Proof. do 2 apply add_step. apply rtc_refl. Qed.
Lemma overtaken_history : job_history job_start overtaken.
Proof. apply claim_step; [vm_compute; reflexivity..|]. apply claim_step; [vm_compute; reflexivity..|]. apply two_jobs_history. Qed.

Definition stalled : JobRecord := mkJobRecord 10 "upload_reconcile" (JObject []) 1 1.

Lemma jobs_leased_exclusively_witness :
  (jb_state <$> jobs (tables completed) !! 10%N) = Some JComplete /\ powerless (tables completed) stalled.
Proof.
  split; [vm_compute; reflexivity|].
  assert (claiming overtaken = ∅) as Hc by (vm_compute; reflexivity).
  apply (jobs_leased_exclusively overtaken completed overtaken_history (finish_step 2 _ _ _ _ Hc (rtc_refl _ _))) with (w := 1%N).
  - vm_compute. reflexivity.
  - unfold current. rewrite <-eq_None_not_Some. vm_compute. reflexivity.
Defined.

Lemma claims_serve_earliest_witness :
  exists r t, claim_job 7 JOB_LEASE_SECONDS 4 (mkClock 5 5 6) ∅ tie (tables two_jobs) = (Ok (Some r), t) /\ jr_id r = 10%N /\ jr_attempt r = 1.
Proof.
  destruct (claims_serve_earliest two_jobs 7 (mkClock 5 5 6) ∅ tie (first_marks 4 (tables two_jobs)) two_jobs_history tie_inj) as (_ & Hnext & _).
  destruct (Hnext 10%N (mkJob "upload_reconcile" JQueued 50 10 "expire" (JObject []) 0 0 None None 0 None 0 0)) as [Hclaim _].
  - split; [vm_compute; reflexivity|]. split; [vm_compute; reflexivity|]. split; [set_solver|].
    assert (forall e, e ∈ map_to_list (jobs (tables two_jobs)) -> earlier tie e
              (10%N, mkJob "upload_reconcile" JQueued 50 10 "expire" (JObject []) 0 0 None None 0 None 0 0) = false) as Hall.
    { apply Forall_forall. vm_compute. repeat constructor. }
    intros id' j' Hj' _ _. apply Hall. by apply elem_of_map_to_list.
  - destruct Hclaim as (r & t & Hc & Hid & _ & _ & Hatt & _); [vm_compute; reflexivity|]. by exists r, t.
Defined.

(** Seven workers stop after their claim; the eighth finds that the parts of the upload must still be kept and defers the job. *)
Fixpoint stops (n : nat) (s : System) : System :=
  match n with O => s | S n => crash 1 (claim 1 (Z.of_nat n * 60 * SECOND_US) (stops n s)) end.
Definition postponed : System :=
  finish 1 (Ok (Deferred 3600)) (8 * 60 * SECOND_US) (claim 1 (8 * 60 * SECOND_US) (stops 7 two_jobs)).

Lemma stops_history n s : job_history job_start s -> held s = ∅ -> claiming s = ∅ -> job_history job_start (stops n s) /\ held (stops n s) !! 1%N = None /\ claiming (stops n s) = ∅.
Proof.
  intros Hs He Hc. induction n as [|n (IH & Hn & Hcn)]; simpl; [by rewrite He|]. split; [|split; [unfold crash; apply lookup_delete_eq|unfold crash, claim; by destruct (claim_job _ _ _ _ _ _ _) as [[[]|] ?]]].
  by apply crash_step, claim_step.
Qed.

(** The postponed job has used all attempts and is job_due again an hour later: from then on no job
    is claimed, although another one waits that was never tried. *)
Example deferred_last_attempt_blocks_queue :
  job_history job_start postponed /\
  (forall worker, claim_job worker JOB_LEASE_SECONDS (2 * 3600 * SECOND_US) (at_once (2 * 3600 * SECOND_US)) ∅ tie (tables postponed) = (Err Sql, tables postponed)) /\
  (jb_attempt_count <$> jobs (tables postponed) !! 20%N) = Some 0.
Proof.
  split; [|split; [|vm_compute; reflexivity]].
  - destruct (stops_history 7 two_jobs two_jobs_history eq_refl eq_refl) as (Hh & Hn & Hc). apply finish_step; [vm_compute; reflexivity|]. by apply claim_step.
  - intros worker. vm_compute. reflexivity.
Qed.

(** The eighth attempt, whose lease has expired: a claim of the worker 2 marks it, the worker 1
    renews the lease, the claim commits and finds nothing to do, and the worker 1 completes
    the job: the outcome that the claim had recorded is overwritten. *)
Definition eighth : System := claim 1 (8 * 60 * SECOND_US) (stops 7 two_jobs).
Definition stalled_again : JobRecord := mkJobRecord 10 "upload_reconcile" (JObject []) 8 8.
Definition nine : Z := 9 * 60 * SECOND_US.
Definition found : gmap (Uuid * Z) Z := {[(10%N, 8) := nine]}.
Definition renewed : Jobs := (heartbeat stalled_again nine (tables eighth)).2.
Definition committed : System := mkSystem (claim_commit 2 JOB_LEASE_SECONDS (at_once nine) {[20%N]} tie found renewed).2 (held eighth) ∅.
Definition overwritten : System := finish 1 (Ok (Complete "done")) (nine + 1) committed.

Lemma eighth_history : job_history job_start eighth /\ claiming eighth = ∅.
Proof.
  destruct (stops_history 7 two_jobs two_jobs_history eq_refl eq_refl) as (Hh & Hn & Hc). split; [exact (claim_step 1 (8 * 60 * SECOND_US) _ _ Hn Hc Hh)|vm_compute; reflexivity].
Qed.
(** a claim with a renewal between its first statement and the rest *)
Lemma renewed_between s0 s m w1 w2 r now clock locked :
  job_history s0 s -> claiming s = ∅ -> held s !! w2 = None -> held s !! w1 = Some r -> m ⊆ first_marks now (tables s) -> (heartbeat r now (tables s)).1 = Ok tt ->
  (claim_commit w2 JOB_LEASE_SECONDS clock locked tie m (heartbeat r now (tables s)).2).1 = Ok None ->
  job_history s0 (mkSystem (claim_commit w2 JOB_LEASE_SECONDS clock locked tie m (heartbeat r now (tables s)).2).2 (held s) ∅).
Proof.
  intros Hh Hc Hw2 Hw1 Hm Hr Hn. unfold job_history. etrans; [exact Hh|]. etrans; [by apply (marks_steps s w2 now m)|]. destruct (heartbeat r now (tables s)) as [res t] eqn:Hb. cbn [fst snd] in *. subst res.
  eapply rtc_l; [by apply (StepHeartbeat w1 now (mkSystem (tables s) (held s) {[w2 := mkClaiming (jobs (tables s)) m]}) r t)|]. apply rtc_once. cbn [held claiming].
  destruct (claim_commit w2 JOB_LEASE_SECONDS clock locked tie m t) as [res t'] eqn:Hcm. cbn [fst snd] in *. subst res. exact (commit_step t (held s) w2 (mkClaiming (jobs (tables s)) m) clock locked tie (Ok None) t' Hw2 Hcm).
Qed.
Lemma committed_history : job_history job_start committed.
Proof.
  destruct eighth_history as [Hh Hc]. unfold committed, renewed. apply (renewed_between job_start eighth found 1%N 2%N stalled_again nine (at_once nine) {[20%N]}); [exact Hh|exact Hc|vm_compute; reflexivity|vm_compute; reflexivity| |vm_compute; reflexivity|vm_compute; reflexivity].
  apply map_singleton_subseteq_l. vm_compute. reflexivity.
Qed.
Example outcome_overwritten :
  job_history job_start overwritten
  /\ (at_outcome <$> attempts (tables committed) !! (10%N, 8)) = Some (Some "lease_expired") /\ (at_outcome <$> attempts (tables overwritten) !! (10%N, 8)) = Some (Some "done").
Proof. split; [apply finish_step; [reflexivity|apply committed_history]|]. split; vm_compute; reflexivity. Qed.
End Demo.
